(* ===== verification/_CoqProject ===== *)
-Q . S2P
Prelude.v
Machine.v
PhysMem.v
VirtMem.v
CMem.v
UStdlib.v
BitIO.v
UCore.v
FieldUnit.v
Gas.v
UText.v
UFormat.v
Shareable.v
Mutex.v
RwLock.v
CList.v
Osi.v
Registers.v
Heap.v
Process.v
Irq.v
Namespace.v
NsTree.v
NsPath.v
NsDemo.v
ResTables.v
Resources.v
ResWalk.v
ResConvert.v
ResRound.v
ResDemo.v
Tables.v
TableRefs.v
TableSpec.v
TableDemo.v
Events.v
EventSpec.v
EventInv.v
EventLive.v
EventDrain.v
EventDemo.v
Objects.v
ObjCount.v
ObjFree.v
ObjRefs.v
ObjApi.v
ObjMake.v
ObjClient.v
ObjDemo.v
Regions.v
RegionLocks.v
RegionLists.v
RegionBounds.v
RegionDemo.v
AmlOps.v
AmlSpec.v
AmlDemo.v
AmlStore.v
AmlTables.v
AmlMachine.v
AmlHandlers.v
AmlDecode.v
AmlBlocks.v
AmlEncode.v
AmlLocks.v
AmlCalls.v
AmlFields.v
AmlRun.v
