(* ===== verification/Prelude.v ===== *)
(** * KittyOS: a verification development

    KittyOS is a hobby kernel for x86-64, booted by the Limine protocol.  Its own
    code is C++: a physical page allocator, four-level page tables, a heap, the
    interrupt controllers and a scheduler in the making (src/src/mem, src/src/hal,
    src/src/smp, src/src/main.cpp).  The larger part of the tree is the C code of
    uACPI (src/src/acpi/uacpi), the ACPI implementation that the kernel hosts and
    supplies with memory, locks and device access.

    ** How the parts interact

    The boot loader's answers start everything: the memory map becomes the free list
    of the page allocator, the higher-half offset is how physical memory is reached.
    The page tables take their table pages from the page allocator; the heap takes
    pages from the one and enters them with the other.  Interrupt routing reads the
    MADT's lists and programs the I/O APICs.  uACPI finds and maps the firmware's
    tables (tables.c) and keeps what they declare in a tree of nodes (namespace.c) whose
    contents are counted objects (types.c).  The interpreter (interpreter.c, opcodes.c)
    runs the code of tables and methods over both; it reads and writes fields through
    io.c: buffer fields move bits in memory, field units go through the dispatcher of
    operation regions (opregion.c) under the global lock, and generic address structures
    (GAS) describe registers, from which registers.c makes the fixed ACPI registers.
    Over those, event.c turns interrupts into work for the host's queue.
    resources.c translates the descriptors of devices between AML and native form.
    stdlib.c, utilities.c, shareable.c, mutex.c and osi.c serve all of it.

    ** Files

    - [Prelude]: machine integers with explicit wrap-around, bit-level reasoning
      ([bits_simpl], the databases [word] and [bitfield]), list and option lemmas.
    - [Machine]: memory, globals and control registers of the C++ kernel, the monad
      [K] in which its code runs ([cli; hlt] ends in [Halted]), the boot answers
      ([boot_info]).
    - [PhysMem]: mem/physical.cpp.  Also the class [PageAllocator], what the allocator
      promises to its clients, and the instance that discharges it.
    - [VirtMem]: mem/virtual.h and mem/virtual.cpp: addresses, entries, [virtual_map],
      [virtual_to_physical]; proved against [PageAllocator].
    - [Heap]: the kernel address allocator of mem/virtual.cpp, and mem/heap.cpp
      ([sbrk], [mmap]), on top of the two.
    - [Process]: smp/sched.cpp: the addresses of a process, its creation, and access to
      its memory through its page map; the range helpers of mem/virtual.h.
    - [Irq]: hal/irq/irq.cpp, hal/ioapic/ioapic.cpp; the MADT is the class [madt].
    - [CMem]: byte memory of the C code; undefined accesses have no result.
    - [UCore]: uacpi/status.h and the monad [SM] of stateful C code.
    - [UStdlib], [UFormat]: uacpi/stdlib.c (memory, strings and bit scans; vsnprintf).
    - [UText]: uacpi/utilities.c, lines 10 to 358.
    - [BitIO], [FieldUnit], [Gas]: uacpi/io.c (bit copies and buffer fields; field
      units over the class [RegionIO]; GAS over the class [KernelIO]).
    - [Registers]: uacpi/registers.c over the class [GasOps], which [Gas] implements.
    - [Shareable]: uacpi/shareable.c.
    - [Mutex], [RwLock]: uacpi/mutex.c over the class [MutexKernel] (global lock, AML
      mutexes, recursive locks; the readers-writer lock).
    - [CList], [Osi]: linked lists in a heap of nodes; uacpi/osi.c.
    - [Namespace], [NsTree], [NsPath], [NsDemo]: uacpi/namespace.c: nodes, walks and
      paths; the tree they implement; names; runs.
    - [ResTables], [Resources], [ResWalk], [ResConvert], [ResRound], [ResDemo]:
      uacpi/resources.c: its tables; its code; the walk over descriptors; conversions
      both ways and their round trip; runs.
    - [Tables], [TableRefs], [TableSpec], [TableDemo]: uacpi/tables.c: its code; the
      balance of references and mappings; what search, checksums and the FADT fix-ups
      do; runs.
    - [Events], [EventSpec], [EventInv], [EventLive], [EventDrain], [EventDemo]:
      uacpi/event.c over the class [EventHost]: its code; runs of single operations; the
      invariant; users and handlers; the queue of work; runs.
    - [Objects], [ObjCount], [ObjFree], [ObjRefs], [ObjApi], [ObjMake], [ObjClient],
      [ObjDemo]: uacpi/types.c over the class [ObjectHost]: its code; well-formed heaps;
      giving references up; taking them; assignment; creation; clients; runs.
    - [Regions], [RegionLocks], [RegionLists], [RegionBounds], [RegionDemo]:
      uacpi/opregion.c over the class [RegionHost], the nodes of [Namespace] and the heap
      of [Objects]: its code; which locks are held, also where an attempt to lock fails;
      lists of regions; bounds; runs.
    - [AmlOps], [AmlSpec], [AmlDemo]: uacpi/interpreter.c, the operators that compute
      from the items of one instruction; what they compute; runs.  [AmlStore]: stores and
      copies.  [AmlTables]: uacpi/internal/opcodes.h and opcodes.c, the instructions with
      the programs that take them apart.  [AmlMachine]: frames, pending operators, blocks
      of code, names, calls, [exec_op] and [uacpi_execute_control_method], in a monad [VM]
      whose errors say what was out of place ([fault]); AML mutexes as mutex.c acquires and
      releases them over the kernel's mutexes of the class [MachineHost]; and the storage
      of the frames, which moves when the stack grows.  [AmlHandlers]: the handlers that
      need the frame or the namespace, Load and LoadTable, and tables that are executed,
      over the class [HandlerHost].
    - [AmlDecode], [AmlBlocks], [AmlEncode], [AmlLocks], [AmlCalls], [AmlFields], [AmlRun]:
      theorems on the interpreter: the decoder; blocks of code; encodings; that the list of
      held mutexes is true ([LockLaws] is what they need of the host); what a call leaves;
      lists of fields, down to [FieldUnit]; runs of methods from their bytes.

    State is a record per component and an operation is one definition with the
    source's name; a loop of the source is a recursion named after it ([_loop],
    [_from]) and a block of a long function may be a definition of its own.
    [debug_print] and log output have no effect on state and no definition.  Each
    component ends with a module [Demo] that runs the definitions on concrete inputs
    and applies the theorems there.

    ** What the theorems show

    - Memory: the free list implements a set of free pages (allocation, accounting,
      initialisation, distinctness, and the round trip of freeing); [virtual_map]
      implements an update of the translation map, including failure half way; entry
      contents and the refusals; [sbrk] extends the heap by fresh, distinct pages.
    - Bits and fields: [bit_copy] at every alignment, the byte-copy shortcuts equal to
      it, round trips of buffer fields and of field units, exact effect of reads and
      writes under each update rule, balance of the global lock on every path.
    - Registers: accepted GAS never truncate, mapped accesses transfer exactly their
      units, register fields change and read back alone.
    - Text: strings, memory moves under overlap, integer parsing and printing with
      their round trip, truncating printf, EISA identifiers.
    - Sharing and locks: objects are destroyed once; the global lock excludes the
      firmware in every interleaving and loses no wake-up; AML mutexes nest; the
      readers-writer lock excludes with any number of threads, whatever acquisitions the
      kernel fails, and makes progress as long as no release of a reader failed; its
      sequential code, of readers and writers, is a run of that relation; the interface list implements
      plain lists.
    - Namespace and tables: the linked nodes implement a tree, walks visit it in order
      and come to an end, paths name their nodes; every mapping of a table is undone
      when its last reference goes.
    - Resources: the walk over a byte string visits exactly its descriptors, and a
      descriptor that is converted and converted back is the same.
    - Events: masked events stay disabled and used ones enabled through any sequence of the
      operations [gpe_op], interrupts and queued work (the switches for all events at once
      are not among them: [wake_enables_masked] shows what they do); what an interrupt hands to the queue is
      served and the event enabled again; handlers install and uninstall cleanly.
    - Objects: for clients of the nineteen calls [object_op], no call touches what was
      freed or takes storage for another kind, every count is the number of references,
      every object matches its type; strings, buffers and packages are made, and strings
      and buffers assigned, wholly or not at all, and failure means want of memory.
      Packages given to a live object, deep copies and what [allowed] excludes are
      outside: the theorems of [ObjDemo] show what goes wrong there.
    - Operation regions: every call during which no attempt to lock failed, and every call
      of users whose first attempt failed, returns with the locks it was entered with; lists,
      pointers back and counts agree through walks that install or uninstall handlers,
      and no access that passes the check reaches an address outside of its region.
    - Interpreter: whatever bytes a method has, the decoder stays inside the programs of
      the instructions ([decoder_stays_in_programs], from a static analysis of all of
      them that is evaluated in the kernel); a call leaves no frame and no mutex, neither
      in its list nor at the kernel; Break
      and Continue leave exactly the innermost loop, or use a pointer to frames that moved;
      blocks are entered and left with the
      scope in step; package lengths and names are read back from their encodings; the
      units that the handler of Field makes from a list are read as exactly their bits; text, BCD, comparisons and Match
      compute what they are meant to.
    - Processes: the ranges of addresses implement a set; what is written into the memory
      of a process is read back, no other byte changes, and the caller's page map is back
      in place.
    - Interrupts: a hooked handler is the one that is run, on a vector nobody used.
    - Where the code does not do what it means to, the behaviour is a theorem too
      (among others [deallocate_trusts_stale_size], [canonical_check_ignores_bit_47],
      [gas_dword_access_fails], [status_field_write_clears_all],
      [null_accessor_never_mapped], [global_lock_seq_mismatch],
      [kernel_addresses_never_exhausted], [free_vector_never_frees],
      [redirection_drops_high_cpus], [middle_of_full_vector]; for events, objects, regions and the interpreter the
      theorems of [EventDemo], [ObjDemo], [RegionDemo] and [AmlRun], such as
      [gpe_past_the_block], [integer_freed_as_package], [region_read_after_free] and
      [name_twice_dereferences_null], [break_after_frames_moved]).

    ** Bounds and fuel

    Integers are [Z] with the wrap of their C type written out.  Counting loops are
    recursions on the count.  The others have fuel that the theorems show to be
    enough: [bit_copy_loop] has one step per destination byte; the loops of field
    units and GAS registers one per bit, as each access consumes at least eight;
    [back_off] eight, as an 8-bit width halves until it is 8; scans for
    a NUL one more than there are mapped bytes; list walks one more than there are
    nodes ([walk_fuel]); [format_loop] one per character of the format; [acquire_spin]
    the 0xffff attempts after which the source gives up.  Walks of the namespace have
    twice as many steps as there are nodes (each is entered and left), list walks of
    events one more than the heap has entries, the walk over descriptors one per byte.
    Chains of references and queues of packages are no longer than the heap, and objects
    are freed inside objects no deeper than there are live cells.  Table installation
    takes a depth for what is installed from handlers, a deep copy of a package
    ([copy_fuel]) the number of packages in it.  [sum_freelist] takes its fuel
    as an argument, because a damaged free list may be cyclic and the code then does
    not return.  The interpreter takes the turns of its outer loop and the operations of
    one instruction as arguments, because a method may run until the clock of the host
    stops it; a run that needs more ends in [F_FUEL], no theorem takes that for a
    result, and [AmlRun] shows that methods end.  [to_bcd] has twenty steps, one per
    digit of a 64-bit number, chains of references are followed as far as there are
    cells.  A compare-and-swap loop ([cas_loop]) runs over the values that other
    processors leave in the word; the step relations [fw_step] and [thread_step] treat
    every interleaving.

    ** Not modelled

    The tables that a table loads when it is executed: [uacpi_execute_table] is a parameter
    of [Tables] that does not come back to the list of tables.  Notifications, sleep states, initialisation and the evaluation of device
    identification objects in uACPI; what the interpreter writes to the log (traces, and
    the value stored to the Debug object);
    the host glue; local storage, MADT parsing,
    clock and file-system stubs of the kernel; hardware set-up (GDT, IDT, local APIC);
    third-party code (malloc.c, xxHash, stb_image, nanoprintf, limine.h).  Caches, TLB
    contents and memory ordering are outside the model: an access happens at once and
    in program order, and [invalidate_page] is recorded without an effect on memory.

    ** Plan

    Next: handler lists (notify.c) over the objects, which discharge a field of
    [HandlerHost]; the evaluation helpers (uacpi/uacpi.c, the rest of utilities.c) over the
    interpreter; sleep states; MADT parsing (acpi.cpp), which discharges [madt]. *)

From stdpp Require Export prelude list gmap.
From Stdlib Require Export ZArith Lia.

Open Scope Z_scope.

(** ** Machine integers

    A w-bit unsigned integer of the source is a [Z]; every operation of the
    source that can leave the range [0, 2^w) is followed by the [wrap] that the
    C and C++ standards prescribe for unsigned types. *)

Declare Scope word_scope.
Delimit Scope word_scope with word.

Definition wrap (w z : Z) : Z := z mod 2 ^ w.

Abbreviation u8 := (wrap 8).
Abbreviation u16 := (wrap 16).
Abbreviation u32 := (wrap 32).
Abbreviation u64 := (wrap 64).

Notation "x +64 y" := (wrap 64 (x + y)) (at level 50, left associativity) : word_scope.
Notation "x -64 y" := (wrap 64 (x - y)) (at level 50, left associativity) : word_scope.
Notation "x *64 y" := (wrap 64 (x * y)) (at level 40, left associativity) : word_scope.

(** [in_w w z] says that [z] is a value of the w-bit unsigned type. *)
Definition in_w (w z : Z) : Prop := 0 <= z < 2 ^ w.

#[export] Instance in_w_dec w z : Decision (in_w w z).
Proof. unfold in_w; apply _. Defined.

(** Conversion to the w-bit two's-complement signed type (gcc's choice). *)
Definition swrap (w z : Z) : Z :=
  let u := wrap w z in if u <? 2 ^ (w - 1) then u else u - 2 ^ w.

Create HintDb word discriminated.

Lemma pow2_pos w : 0 <= w -> 0 < 2 ^ w.
Proof. intros; apply Z.pow_pos_nonneg; lia. Qed.

Lemma wrap_range w z : 0 <= w -> in_w w (wrap w z).
Proof. intros; apply Z.mod_pos_bound, pow2_pos; lia. Qed.

Lemma wrap_id w z : in_w w z -> wrap w z = z.
Proof. intros; apply Z.mod_small; assumption. Qed.

Lemma wrap_wrap w z : 0 <= w -> wrap w (wrap w z) = wrap w z.
Proof. intros; apply wrap_id, wrap_range; assumption. Qed.

Lemma wrap_wrap_le w w' z : 0 <= w <= w' -> wrap w (wrap w' z) = wrap w z.
Proof.
  intros [Hw Hw']; unfold wrap.
  replace (2 ^ w') with (2 ^ w * 2 ^ (w' - w)) by (rewrite <- Z.pow_add_r; f_equal; lia).
  apply Z.mod_mod_divide, Z.divide_factor_l.
Qed.

Lemma wrap_land w z : 0 <= w -> wrap w z = Z.land z (Z.ones w).
Proof. intros; unfold wrap; rewrite Z.land_ones; auto. Qed.

Lemma wrap_testbit w z i :
  0 <= w -> Z.testbit (wrap w z) i = (i <? w) && Z.testbit z i.
Proof.
  intros Hw; destruct (Z.ltb_spec i w).
  - destruct (Z.ltb_spec i 0) as [Hi|Hi].
    + rewrite !Z.testbit_neg_r by lia; auto.
    + unfold wrap; rewrite Z.mod_pow2_bits_low by lia; auto.
  - unfold wrap; rewrite Z.mod_pow2_bits_high by lia; auto.
Qed.

#[export] Hint Resolve wrap_range pow2_pos : word.
#[export] Hint Extern 2 (in_w _ _) => (unfold in_w; lia) : word.
#[export] Hint Extern 1 (_ <= _) => lia : word.

(** ** Reasoning about bits *)

Lemma testbit_in_w w z i : in_w w z -> 0 <= w <= i -> Z.testbit z i = false.
Proof.
  intros [H1 H2] Hw; rewrite <- (Z.mod_small z (2 ^ w)) by lia.
  apply Z.mod_pow2_bits_high; lia.
Qed.

Lemma in_w_of_testbit w z :
  0 <= w -> 0 <= z -> (forall i, w <= i -> Z.testbit z i = false) -> in_w w z.
Proof.
  intros Hw Hz Hi; assert (E : wrap w z = z); [|rewrite <- E; auto with word].
  apply Z.bits_inj'; intros i Hi0; rewrite wrap_testbit by lia.
  destruct (Z.ltb_spec i w); simpl; [reflexivity|symmetry; apply Hi; lia].
Qed.

Lemma testbit_neg z i : i < 0 -> Z.testbit z i = false.
Proof. apply Z.testbit_neg_r. Qed.

Lemma shiftl_testbit a n i :
  0 <= i -> Z.testbit (Z.shiftl a n) i = Z.testbit a (i - n).
Proof. apply Z.shiftl_spec. Qed.

Lemma shiftr_testbit a n i :
  0 <= i -> Z.testbit (Z.shiftr a n) i = Z.testbit a (i + n).
Proof. apply Z.shiftr_spec. Qed.

Lemma ones_testbit n i :
  0 <= n -> Z.testbit (Z.ones n) i = (0 <=? i) && (i <? n).
Proof.
  intros Hn; destruct (Z.leb_spec 0 i); simpl.
  - destruct (Z.ltb_spec i n); [apply Z.ones_spec_low|apply Z.ones_spec_high]; lia.
  - apply Z.testbit_neg_r; lia.
Qed.

Lemma lnot_testbit a i :
  0 <= i -> Z.testbit (Z.lnot a) i = negb (Z.testbit a i).
Proof. apply Z.lnot_spec. Qed.

Lemma pow2_testbit n i :
  0 <= n -> Z.testbit (2 ^ n) i = (i =? n).
Proof.
  intros Hn; destruct (Z.eqb_spec i n) as [->|Hne].
  - apply Z.pow2_bits_true; lia.
  - apply Z.pow2_bits_false; lia.
Qed.

Lemma if_testbit (b : bool) x y i :
  Z.testbit (if b then x else y) i = if b then Z.testbit x i else Z.testbit y i.
Proof. destruct b; reflexivity. Qed.

(** [bits_simpl] pushes [Z.testbit] through the bit operations; [bitwise]
    proves an equation between integers bit by bit. *)
Ltac bits_simpl :=
  repeat match goal with
  | |- context [Z.testbit (Z.land ?a ?b) ?i] => rewrite (Z.land_spec a b i)
  | |- context [Z.testbit (Z.lor ?a ?b) ?i] => rewrite (Z.lor_spec a b i)
  | |- context [Z.testbit (Z.lxor ?a ?b) ?i] => rewrite (Z.lxor_spec a b i)
  | |- context [Z.testbit (Z.ldiff ?a ?b) ?i] => rewrite (Z.ldiff_spec a b i)
  | |- context [Z.testbit 0 ?i] => rewrite (Z.testbit_0_l i)
  | |- context [Z.testbit (if ?b then ?x else ?y) ?i] => rewrite (if_testbit b x y i)
  | |- context [Z.testbit (Z.lnot ?a) ?i] => rewrite (lnot_testbit a i) by lia
  | |- context [Z.testbit (Z.shiftl ?a ?n) ?i] => rewrite (shiftl_testbit a n i) by lia
  | |- context [Z.testbit (Z.shiftr ?a ?n) ?i] => rewrite (shiftr_testbit a n i) by lia
  | |- context [Z.testbit (wrap ?w ?a) ?i] => rewrite (wrap_testbit w a i) by lia
  | |- context [Z.testbit (Z.ones ?n) ?i] => rewrite (ones_testbit n i) by lia
  | |- context [Z.testbit (2 ^ ?n) ?i] => rewrite (pow2_testbit n i) by lia
  | |- context [Z.testbit ?a ?i] => rewrite (testbit_neg a i) by lia
  | H : in_w ?w ?a |- context [Z.testbit ?a ?i] => rewrite (testbit_in_w w a i H) by lia
  end.

Ltac bool_cases :=
  repeat match goal with
  | |- context [?x <? ?y] => destruct (Z.ltb_spec x y); try lia
  | |- context [?x <=? ?y] => destruct (Z.leb_spec x y); try lia
  | |- context [?x =? ?y] => destruct (Z.eqb_spec x y); try lia
  end; simpl.

Ltac bits_solve :=
  bits_simpl; bool_cases; bits_simpl;
  rewrite ?andb_true_r, ?andb_false_r, ?orb_false_r, ?orb_true_r; simpl;
  try reflexivity; try congruence;
  try (f_equal; lia).

Ltac bitwise :=
  apply Z.bits_inj'; let i := fresh "i" in intros i ?; bits_solve.

(** ** Bit fields

    A field of [len] bits starting at bit [lo] of a word (gcc packs the fields of
    a struct from the least significant bit up). *)

Definition bf_get (lo len e : Z) : Z := wrap len (Z.shiftr e lo).
Definition bf_set (lo len v e : Z) : Z :=
  Z.lor (Z.ldiff e (Z.shiftl (Z.ones len) lo)) (Z.shiftl (wrap len v) lo).

Lemma bf_set_testbit lo len v e i : 0 <= lo -> 0 <= len -> 0 <= i ->
  Z.testbit (bf_set lo len v e) i =
  if (lo <=? i) && (i <? lo + len) then Z.testbit v (i - lo) else Z.testbit e i.
Proof.
  intros; unfold bf_set; bits_simpl.
  bool_cases; bits_simpl; rewrite ?andb_true_r, ?andb_false_r, ?orb_false_r; reflexivity.
Qed.

Lemma bf_get_testbit lo len e i : 0 <= len -> 0 <= i ->
  Z.testbit (bf_get lo len e) i = (i <? len) && Z.testbit e (i + lo).
Proof. intros; unfold bf_get; bits_simpl; reflexivity. Qed.

Lemma bf_get_set lo len v e : 0 <= lo -> 0 <= len ->
  bf_get lo len (bf_set lo len v e) = wrap len v.
Proof.
  intros; apply Z.bits_inj'; intros i Hi; rewrite bf_get_testbit, wrap_testbit by lia.
  destruct (Z.ltb_spec i len); simpl; [|reflexivity].
  rewrite bf_set_testbit by lia; bool_cases; f_equal; lia.
Qed.

Lemma bf_get_set_other lo len v e lo' len' :
  0 <= lo -> 0 <= len -> 0 <= lo' -> 0 <= len' -> lo + len <= lo' \/ lo' + len' <= lo ->
  bf_get lo' len' (bf_set lo len v e) = bf_get lo' len' e.
Proof.
  intros; apply Z.bits_inj'; intros i Hi; rewrite !bf_get_testbit by lia.
  destruct (Z.ltb_spec i len'); simpl; [|reflexivity].
  rewrite bf_set_testbit by lia; bool_cases; reflexivity.
Qed.

Lemma bf_get_range lo len e : 0 <= len -> in_w len (bf_get lo len e).
Proof. intros; apply wrap_range; assumption. Qed.

Lemma bf_get_0 lo len : bf_get lo len 0 = 0.
Proof. unfold bf_get; rewrite Z.shiftr_0_l; reflexivity. Qed.

Create Rewrite HintDb bitfield.
#[export] Hint Rewrite bf_get_set using lia : bitfield.
#[export] Hint Rewrite bf_get_set_other using lia : bitfield.
#[export] Hint Rewrite bf_get_0 : bitfield.
#[export] Hint Resolve bf_get_range : word.

(** Disjoint bits add up. *)
Lemma lor_add a b : Z.land a b = 0 -> Z.lor a b = a + b.
Proof. intros H; rewrite Z.add_nocarry_lxor, Z.lxor_lor by assumption; reflexivity. Qed.

Lemma lor_shiftl_add a b n : 0 <= n -> in_w n b -> Z.lor (Z.shiftl a n) b = a * 2 ^ n + b.
Proof.
  intros Hn Hb; rewrite lor_add; [rewrite Z.shiftl_mul_pow2 by assumption; reflexivity|].
  apply Z.bits_inj'; intros i Hi; destruct (Z.lt_ge_cases i n); bits_solve.
Qed.

(** The number of blocks of [b] that cover [x]. *)
Lemma ceil_div_bounds x b : 0 < b -> 0 < x ->
  0 < (x + (b - 1)) / b /\ ((x + (b - 1)) / b - 1) * b < x <= (x + (b - 1)) / b * b.
Proof. intros Hb Hx; Z.div_mod_to_equations; nia. Qed.

(** A statement about all values of a finite range, by evaluation. *)
Lemma forallb_range (P : Z -> bool) lo n x :
  forallb P (seqZ lo n) = true -> lo <= x < lo + n -> P x = true.
Proof.
  rewrite forallb_forall; intros H Hx; apply H, list_elem_of_In, elem_of_seqZ; lia.
Qed.
