(* ===== verification/Machine.v ===== *)
(** * Machine: the state the kernel's own C++ code works on

    What the files of [src/src/mem], [src/src/smp] and [src/src/main.cpp] share:
    the memory the kernel addresses, its global variables, the control register
    the code reads and writes, and the answers of the boot loader.  Code runs in
    the state monad [K]; a body that executes [cli; hlt] ends in [Halted].
    [debug_print] only writes to the debug console and has no definition here. *)

From S2P Require Import Prelude.

(** ** The boot loader's answers

    The Limine responses the kernel reads; [None] is a null response pointer. *)

Record limine_memmap_entry := {
  me_base : Z;
  me_length : Z;
  me_type : Z
}.

Definition LIMINE_MEMMAP_USABLE : Z := 0.

Class boot_info := {
  hhdm_response : option Z;
  memmap_response : option (list limine_memmap_entry);
  kernel_address_response : option Z
}.

(** ** Kernel state

    [mem] gives the 64-bit word at a (virtual, 8-byte aligned) address of the
    higher-half map or of a mapped page table; the other fields are the global
    variables of physical.cpp ([head]), virtual.cpp ([base_address],
    [remaining_bytes], [kernel_pml4]) and heap.cpp ([heap_start], [heap_end]).
    [invlpg_log] lists the addresses [invlpg] was executed on, latest first. *)

Record kstate := mk_kstate {
  mem : Z -> Z;
  head : Z;
  base_address : Z;
  remaining_bytes : Z;
  kernel_pml4 : Z;
  heap_start : Z;
  heap_end : Z;
  cr3 : Z;
  invlpg_log : list Z
}.

Definition set_mem (f : Z -> Z) (s : kstate) : kstate :=
  mk_kstate f (head s) (base_address s) (remaining_bytes s) (kernel_pml4 s)
    (heap_start s) (heap_end s) (cr3 s) (invlpg_log s).
Definition set_head (h : Z) (s : kstate) : kstate :=
  mk_kstate (mem s) h (base_address s) (remaining_bytes s) (kernel_pml4 s)
    (heap_start s) (heap_end s) (cr3 s) (invlpg_log s).
Definition set_base_address (b : Z) (s : kstate) : kstate :=
  mk_kstate (mem s) (head s) b (remaining_bytes s) (kernel_pml4 s)
    (heap_start s) (heap_end s) (cr3 s) (invlpg_log s).
Definition set_remaining_bytes (r : Z) (s : kstate) : kstate :=
  mk_kstate (mem s) (head s) (base_address s) r (kernel_pml4 s)
    (heap_start s) (heap_end s) (cr3 s) (invlpg_log s).
Definition set_kernel_pml4 (p : Z) (s : kstate) : kstate :=
  mk_kstate (mem s) (head s) (base_address s) (remaining_bytes s) p
    (heap_start s) (heap_end s) (cr3 s) (invlpg_log s).
Definition set_heap_start (h : Z) (s : kstate) : kstate :=
  mk_kstate (mem s) (head s) (base_address s) (remaining_bytes s) (kernel_pml4 s)
    h (heap_end s) (cr3 s) (invlpg_log s).
Definition set_heap_end (h : Z) (s : kstate) : kstate :=
  mk_kstate (mem s) (head s) (base_address s) (remaining_bytes s) (kernel_pml4 s)
    (heap_start s) h (cr3 s) (invlpg_log s).
Definition set_cr3 (c : Z) (s : kstate) : kstate :=
  mk_kstate (mem s) (head s) (base_address s) (remaining_bytes s) (kernel_pml4 s)
    (heap_start s) (heap_end s) c (invlpg_log s).
Definition log_invlpg (a : Z) (s : kstate) : kstate :=
  mk_kstate (mem s) (head s) (base_address s) (remaining_bytes s) (kernel_pml4 s)
    (heap_start s) (heap_end s) (cr3 s) (a :: invlpg_log s).

(** ** The kernel monad *)

Inductive outcome (A : Type) : Type :=
| Ret (a : A) (s : kstate)
| Halted (s : kstate).
Arguments Ret {A} a s.
Arguments Halted {A} s.

Definition K (A : Type) : Type := kstate -> outcome A.

#[export] Instance K_ret : MRet K := fun A a s => Ret a s.
#[export] Instance K_bind : MBind K := fun A B k c s =>
  match c s with
  | Ret a s' => k a s'
  | Halted s' => Halted s'
  end.

Definition halt {A} : K A := fun s => Halted s.
Definition gets {A} (f : kstate -> A) : K A := fun s => Ret (f s) s.
Definition modify (f : kstate -> kstate) : K unit := fun s => Ret tt (f s).

(** 64-bit loads and stores, and [memset] of whole words to zero. *)
Definition upd (m : Z -> Z) (a v : Z) : Z -> Z := fun x => if x =? a then v else m x.
Definition upd_zero (m : Z -> Z) (a n : Z) : Z -> Z :=
  fun x => if (a <=? x) && (x <? a + n) then 0 else m x.

Definition load (a : Z) : K Z := gets (fun s => mem s a).
Definition store (a v : Z) : K unit := modify (fun s => set_mem (upd (mem s) a v) s).
Definition memset_zero (a n : Z) : K unit :=
  modify (fun s => set_mem (upd_zero (mem s) a n) s).

Lemma K_bind_ret {A B} (a : A) (k : A -> K B) s : (x ← mret a; k x) s = k a s.
Proof. reflexivity. Qed.

Lemma K_bind_assoc {A B C} (c : K A) (f : A -> K B) (g : B -> K C) s :
  (y ← (x ← c; f x); g y) s = (x ← c; y ← f x; g y) s.
Proof. unfold mbind, K_bind; destruct (c s); reflexivity. Qed.

Lemma K_bind_Ret {A B} (c : K A) (k : A -> K B) s a s' :
  c s = Ret a s' -> (x ← c; k x) s = k a s'.
Proof. unfold mbind, K_bind; intros ->; reflexivity. Qed.

Lemma upd_eq m a v : upd m a v a = v.
Proof. unfold upd; rewrite Z.eqb_refl; reflexivity. Qed.

Lemma upd_ne m a v x : x <> a -> upd m a v x = m x.
Proof. unfold upd; destruct (Z.eqb_spec x a); congruence. Qed.

Lemma upd_zero_in m a n x : a <= x < a + n -> upd_zero m a n x = 0.
Proof.
  unfold upd_zero; intros.
  destruct (Z.leb_spec a x), (Z.ltb_spec x (a + n)); simpl; lia.
Qed.

Lemma upd_zero_out m a n x : ~ (a <= x < a + n) -> upd_zero m a n x = m x.
Proof.
  unfold upd_zero; intros.
  destruct (Z.leb_spec a x), (Z.ltb_spec x (a + n)); simpl; lia.
Qed.

(** [kunfold] runs the monadic plumbing of a goal. *)
Ltac kunfold :=
  cbv [mbind K_bind mret K_ret gets modify load store memset_zero halt].
Tactic Notation "kunfold" "in" hyp(H) :=
  cbv [mbind K_bind mret K_ret gets modify load store memset_zero halt] in H.

(** Everything but memory and the free list head is the same. *)
Definition same_globals (s s' : kstate) : Prop :=
  base_address s' = base_address s /\ remaining_bytes s' = remaining_bytes s /\
  kernel_pml4 s' = kernel_pml4 s /\ heap_start s' = heap_start s /\
  heap_end s' = heap_end s /\ cr3 s' = cr3 s.

#[export] Instance same_globals_po : PreOrder same_globals.
Proof.
  split.
  - intros s; repeat split.
  - unfold same_globals; intros s1 s2 s3; intuition congruence.
Qed.

Create Rewrite HintDb kmem.
#[export] Hint Rewrite upd_eq : kmem.
