(* ===== verification/PhysMem.v ===== *)
(** * PhysMem: the physical page allocator (src/src/mem/physical.cpp)

    Free physical memory is a singly linked list of chunks threaded through the
    free memory itself: the words at offset 0 and 8 of a chunk hold the [next]
    pointer and the [size] of a [phys_freelist_entry], addressed through the
    higher-half map. *)

From S2P Require Import Prelude Machine.

Open Scope word_scope.

Definition PAGE_SIZE : Z := 4096.

Section Physical.
Context {boot : boot_info}.

(** ** Operations *)

Definition get_higher_half_memory_offset : Z :=
  match hhdm_response with None => 0 | Some offset => offset end.

Definition get_memory_map : list limine_memmap_entry :=
  match memmap_response with None => [] | Some entries => entries end.

Definition get_memory_map_entry_count : Z := Z.of_nat (length get_memory_map).

(** Field addresses of a [phys_freelist_entry] at [e]. *)
Definition next_field (e : Z) : Z := e.
Definition size_field (e : Z) : Z := e +64 8.

Definition push_to_freelist (entry : Z) : K unit :=
  h ← gets head;
  if h =? 0 then modify (set_head entry)
  else store (next_field entry) h;; modify (set_head entry).

Definition pop_from_freelist : K Z :=
  h ← gets head;
  if h =? 0 then mret 0
  else n ← load (next_field h); modify (set_head n);; mret h.

Definition add_usable_entry (entry : limine_memmap_entry) : K unit :=
  if me_type entry =? LIMINE_MEMMAP_USABLE then
    let freelist_entry := me_base entry +64 get_higher_half_memory_offset in
    store (next_field freelist_entry) 0;;
    store (size_field freelist_entry) (me_length entry);;
    push_to_freelist freelist_entry
  else mret tt.

Fixpoint add_usable_entries (entries : list limine_memmap_entry) : K unit :=
  match entries with
  | [] => mret tt
  | entry :: rest => add_usable_entry entry;; add_usable_entries rest
  end.

Definition initialize_physical_memory : K unit :=
  if get_memory_map_entry_count =? 0 then halt
  else add_usable_entries get_memory_map.

Definition allocate_physical_page : K Z :=
  entry ← pop_from_freelist;
  if entry =? 0 then mret 0
  else
    size ← load (size_field entry);
    (if 4096 <? size then
       let new_entry := entry +64 4096 in
       store (size_field new_entry) (size -64 4096);;
       n ← load (next_field entry);
       store (next_field new_entry) n;;
       store (next_field entry) 0;;
       store (size_field entry) 4096;;
       push_to_freelist new_entry
     else mret tt);;
    mret (entry -64 get_higher_half_memory_offset).

Definition deallocate_physical_page (page : Z) : K unit :=
  push_to_freelist (page +64 get_higher_half_memory_offset).

Definition higher_of (highest : Z) (entry : limine_memmap_entry) : Z :=
  if highest <? (me_base entry +64 me_length entry)
  then me_base entry +64 me_length entry else highest.

Definition get_highest_address : Z :=
  if get_memory_map_entry_count =? 0 then 0
  else foldl higher_of 0 get_memory_map.

(** The [while (entry)] walk of [get_available_usable_memory]; [None] when the
    list is longer than the fuel (in particular when it is cyclic). *)
Fixpoint sum_freelist (fuel : nat) (m : Z -> Z) (entry available : Z) : option Z :=
  if entry =? 0 then Some available
  else match fuel with
       | O => None
       | S fuel' =>
           sum_freelist fuel' m (m (next_field entry)) (available +64 m (size_field entry))
       end.

Definition get_available_usable_memory (fuel : nat) (s : kstate) : option Z :=
  sum_freelist fuel (mem s) (head s) 0.

(** A run of [n] allocations, the results in order (0 is the null pointer). *)
Fixpoint allocate_pages (n : nat) : K (list Z) :=
  match n with
  | O => mret []
  | S n' => p ← allocate_physical_page; ps ← allocate_pages n'; mret (p :: ps)
  end.

(** ** The allocator's invariant

    A chunk [(a, n)] is the free memory [a, a + n) as seen through the
    higher-half map. *)

Definition chunk_ok (c : Z * Z) : Prop :=
  get_higher_half_memory_offset + 4096 <= c.1 /\ c.1 mod 4096 = 0 /\
  0 < c.2 /\ c.2 mod 4096 = 0 /\ c.1 + c.2 <= 2 ^ 64.

Definition in_chunk (x : Z) (c : Z * Z) : Prop := c.1 <= x < c.1 + c.2.

Definition disjoint_chunk (c d : Z * Z) : Prop :=
  c.1 + c.2 <= d.1 \/ d.1 + d.2 <= c.1.

Fixpoint disjoint_chunks (l : list (Z * Z)) : Prop :=
  match l with
  | [] => True
  | c :: l' => Forall (disjoint_chunk c) l' /\ disjoint_chunks l'
  end.

(** The linked list starting at [h] in memory [m] is [l]. *)
Fixpoint freelist (m : Z -> Z) (h : Z) (l : list (Z * Z)) : Prop :=
  match l with
  | [] => h = 0
  | c :: l' => h = c.1 /\ m (size_field h) = c.2 /\ freelist m (m (next_field h)) l'
  end.

Record free_inv (s : kstate) (l : list (Z * Z)) : Prop := {
  fi_hhdm : 0 <= get_higher_half_memory_offset;
  fi_list : freelist (mem s) (head s) l;
  fi_ok : Forall chunk_ok l;
  fi_disjoint : disjoint_chunks l
}.

Definition free_addr (l : list (Z * Z)) (x : Z) : Prop := Exists (in_chunk x) l.

(** The page at [q] (a higher-half address) is free. *)
Definition free_page (l : list (Z * Z)) (q : Z) : Prop := q mod 4096 = 0 /\ free_addr l q.

Definition total (l : list (Z * Z)) : Z := foldr (fun c t => c.2 + t) 0 l.

(** The list left by [allocate_physical_page]. *)
Definition after_alloc (l : list (Z * Z)) : list (Z * Z) :=
  match l with
  | [] => []
  | c :: l' => if 4096 <? c.2 then (c.1 + 4096, c.2 - 4096) :: l' else l'
  end.

(** ** Lemmas *)

Lemma chunk_ok_min c : chunk_ok c -> 4096 <= c.2.
Proof. unfold chunk_ok; intros; Z.div_mod_to_equations; lia. Qed.

Lemma chunk_ok_size_field c : 0 <= get_higher_half_memory_offset ->
  chunk_ok c -> size_field c.1 = c.1 + 8.
Proof.
  intros ? Hc; pose proof (chunk_ok_min c Hc); unfold chunk_ok, size_field in *.
  apply wrap_id; unfold in_w; lia.
Qed.

Lemma in_chunk_next c : chunk_ok c -> in_chunk (next_field c.1) c.
Proof. intros Hc; pose proof (chunk_ok_min c Hc); unfold in_chunk, next_field; lia. Qed.

Lemma in_chunk_size c : 0 <= get_higher_half_memory_offset ->
  chunk_ok c -> in_chunk (size_field c.1) c.
Proof.
  intros ? Hc; pose proof (chunk_ok_min c Hc).
  rewrite chunk_ok_size_field by assumption; unfold in_chunk; lia.
Qed.

(** The list does not change when memory outside of it does. *)
Lemma freelist_frame m m' h l : 0 <= get_higher_half_memory_offset ->
  Forall chunk_ok l -> (forall x, free_addr l x -> m' x = m x) ->
  freelist m h l -> freelist m' h l.
Proof.
  intros Hh Hok; revert h; induction Hok as [|c l Hc Hok IH]; simpl; intros h Hm; [auto|].
  intros (-> & Hs & Hl).
  rewrite !Hm by (apply Exists_cons; left; auto using in_chunk_next, in_chunk_size).
  repeat split; [assumption|].
  apply IH; [|assumption]; intros x Hx; apply Hm, Exists_cons; auto.
Qed.

Lemma disjoint_not_in c l x :
  Forall (disjoint_chunk c) l -> in_chunk x c -> ~ free_addr l x.
Proof.
  intros HF Hx HE; apply Exists_exists in HE as (d & Hd & Hxd).
  rewrite Forall_forall in HF; specialize (HF d Hd).
  unfold in_chunk, disjoint_chunk in *; lia.
Qed.

Lemma free_addr_cons c l x : free_addr (c :: l) x <-> in_chunk x c \/ free_addr l x.
Proof. apply Exists_cons. Qed.

Lemma free_inv_head s c l : free_inv s (c :: l) ->
  head s = c.1 /\ mem s (size_field c.1) = c.2 /\
  freelist (mem s) (mem s (next_field c.1)) l /\ c.1 <> 0 /\ chunk_ok c.
Proof.
  intros [Hh (E & Hs & Hl) Hok Hd]; apply Forall_cons in Hok as [Hc _].
  rewrite E in Hs, Hl; do 4 (split; [auto|]); [|assumption].
  unfold chunk_ok in Hc; lia.
Qed.

Lemma free_inv_nil s : free_inv s [] -> head s = 0.
Proof. intros []; assumption. Qed.

(** Splitting a page off the first chunk keeps the list well formed. *)
Lemma after_alloc_ok l :
  Forall chunk_ok l -> disjoint_chunks l ->
  Forall chunk_ok (after_alloc l) /\ disjoint_chunks (after_alloc l).
Proof.
  destruct l as [|c l]; simpl; [auto|].
  rewrite Forall_cons; intros [Hc Hok] [Hd Hds].
  destruct (Z.ltb_spec 4096 c.2); [|auto].
  split; [constructor|split]; auto.
  - unfold chunk_ok in *; simpl; Z.div_mod_to_equations; lia.
  - eapply Forall_impl; [exact Hd|]; unfold disjoint_chunk; simpl; lia.
Qed.

(** A page of the first chunk is either the one taken or still free. *)
Lemma after_alloc_free c l q :
  Forall chunk_ok (c :: l) -> disjoint_chunks (c :: l) ->
  free_page (after_alloc (c :: l)) q <-> free_page (c :: l) q /\ q <> c.1.
Proof.
  rewrite Forall_cons; intros [Hc Hok] [Hd Hds].
  pose proof (chunk_ok_min c Hc).
  assert (Hn : ~ free_addr l c.1)
    by (apply (disjoint_not_in c); [assumption|unfold in_chunk; lia]).
  unfold free_page; simpl after_alloc; destruct (Z.ltb_spec 4096 c.2).
  - rewrite !free_addr_cons; unfold in_chunk; simpl.
    unfold chunk_ok in Hc; split.
    + intros [Hq [Hin|Hin]]; (split; [split; [assumption|]|]); [left; lia|lia|auto|].
      intros ->; auto.
    + intros [[Hq [Hin|Hin]] Hne]; (split; [assumption|]); [left|auto].
      Z.div_mod_to_equations; lia.
  - rewrite free_addr_cons; split.
    + intros [Hq Hin]; split; [auto|intros ->; auto].
    + intros [[Hq [Hin|Hin]] Hne]; (split; [assumption|]); [|auto].
      exfalso; unfold in_chunk, chunk_ok in *; Z.div_mod_to_equations; lia.
Qed.

Lemma total_after_alloc c l :
  chunk_ok c -> total (after_alloc (c :: l)) = total (c :: l) - 4096.
Proof.
  intros Hc; pose proof (chunk_ok_min c Hc); unfold chunk_ok in Hc.
  simpl; destruct (Z.ltb_spec 4096 c.2); simpl; lia.
Qed.

(** The state in which [allocate_physical_page] returns. *)
Definition alloc_mem (m : Z -> Z) (c : Z * Z) : Z -> Z :=
  if 4096 <? c.2 then
    upd (upd (upd (upd m (size_field (c.1 + 4096)) (c.2 - 4096))
      (next_field (c.1 + 4096)) (m (next_field c.1))) (next_field c.1) 0)
      (size_field c.1) 4096
  else m.

Lemma alloc_mem_frame m c x :
  0 <= get_higher_half_memory_offset -> chunk_ok c -> ~ in_chunk x c ->
  alloc_mem m c x = m x.
Proof.
  intros Hh Hc Hx; unfold alloc_mem; destruct (Z.ltb_spec 4096 c.2); [|reflexivity].
  assert (Hc' : chunk_ok (c.1 + 4096, c.2 - 4096))
    by (unfold chunk_ok in *; simpl; Z.div_mod_to_equations; lia).
  pose proof (chunk_ok_min _ Hc'); pose proof (chunk_ok_size_field _ Hh Hc') as E.
  simpl in E; rewrite E, (chunk_ok_size_field c) by assumption.
  unfold next_field, in_chunk in *; simpl in *; rewrite !upd_ne by lia; reflexivity.
Qed.

Lemma freelist_zero m l :
  0 <= get_higher_half_memory_offset -> Forall chunk_ok l -> freelist m 0 l -> l = [].
Proof.
  destruct l as [|c l]; [reflexivity|]; simpl; intros Hh Hok [E _].
  apply Forall_cons in Hok as [Hc _]; unfold chunk_ok in Hc; lia.
Qed.

Lemma upd_same m a x : upd m a (m a) x = m x.
Proof. unfold upd; destruct (Z.eqb_spec x a); congruence. Qed.

Lemma split_chunk c : 0 <= get_higher_half_memory_offset -> chunk_ok c -> 4096 < c.2 ->
  chunk_ok (c.1 + 4096, c.2 - 4096) /\ c.1 +64 4096 = c.1 + 4096 /\
  c.2 -64 4096 = c.2 - 4096 /\ size_field (c.1 + 4096) = c.1 + 4104 /\
  size_field c.1 = c.1 + 8.
Proof.
  intros Hh Hc Hlt; assert (Hc' : chunk_ok (c.1 + 4096, c.2 - 4096))
    by (unfold chunk_ok in *; simpl; Z.div_mod_to_equations; lia).
  pose proof (chunk_ok_size_field _ Hh Hc) as E1.
  pose proof (chunk_ok_size_field _ Hh Hc') as E2; simpl in E2.
  split; [assumption|]; rewrite E1, E2; unfold chunk_ok in Hc.
  rewrite !wrap_id by (unfold in_w; lia); lia.
Qed.

Lemma allocate_run s c l : free_inv s (c :: l) ->
  exists s', allocate_physical_page s = Ret (c.1 - get_higher_half_memory_offset) s' /\
    head s' = (if 4096 <? c.2 then c.1 + 4096 else mem s (next_field c.1)) /\
    (forall x, mem s' x = alloc_mem (mem s) c x) /\ same_globals s s' /\
    invlpg_log s' = invlpg_log s.
Proof.
  intros Hinv; destruct (free_inv_head _ _ _ Hinv) as (Eh & Es & Hl & Hnz & Hc).
  pose proof (fi_hhdm _ _ Hinv) as Hh; pose proof (chunk_ok_min c Hc) as Hmin.
  assert (Ea : c.1 -64 get_higher_half_memory_offset = c.1 - get_higher_half_memory_offset)
    by (apply wrap_id; unfold chunk_ok, in_w in *; lia).
  unfold allocate_physical_page, pop_from_freelist; kunfold; rewrite Eh.
  destruct (Z.eqb_spec c.1 0) as [|_]; [contradiction|].
  destruct (Z.eqb_spec c.1 0) as [|_]; [contradiction|]; simpl; rewrite Es.
  unfold alloc_mem; destruct (Z.ltb_spec 4096 c.2) as [Hlt|Hge].
  - destruct (split_chunk c Hh Hc Hlt) as (Hc' & E1 & E2 & E3 & E4).
    rewrite E1, E2, E3, E4; unfold push_to_freelist, next_field; kunfold; simpl.
    rewrite upd_ne by lia.
    destruct (Z.eqb_spec (mem s c.1) 0) as [Ez|Hn];
      rewrite Ea; eexists; (split; [reflexivity|]); simpl;
      (do 2 (split; [try reflexivity|])); try (split; [repeat split|reflexivity]).
    intros x; unfold upd; bool_cases; reflexivity.
  - rewrite Ea; eexists; repeat split.
Qed.

(** [allocate_physical_page] on a well-formed, non-empty list. *)
Lemma allocate_inv s c l : free_inv s (c :: l) ->
  exists s', allocate_physical_page s = Ret (c.1 - get_higher_half_memory_offset) s' /\
    free_inv s' (after_alloc (c :: l)) /\ same_globals s s' /\
    (forall x, ~ in_chunk x c -> mem s' x = mem s x).
Proof.
  intros Hinv; destruct (allocate_run s c l Hinv) as (s' & Hrun & Hhd & Hm & Hg & _).
  destruct (free_inv_head _ _ _ Hinv) as (_ & Es & Hl & Hnz & Hc).
  destruct Hinv as [Hh _ Hok Hd]; exists s'; split; [assumption|].
  assert (Hfr : forall x, ~ in_chunk x c -> mem s' x = mem s x)
    by (intros; rewrite Hm; apply alloc_mem_frame; assumption).
  split; [|auto]; destruct (after_alloc_ok _ Hok Hd) as [Hok' Hd'].
  split; auto; apply Forall_cons in Hok as [_ Hok]; destruct Hd as [Hd _].
  assert (Hl' : freelist (mem s') (mem s (next_field c.1)) l).
  { eapply freelist_frame; [| | |exact Hl]; auto.
    intros x Hx; apply Hfr; intros Hin; exact (disjoint_not_in _ _ _ Hd Hin Hx). }
  rewrite Hhd; simpl; destruct (Z.ltb_spec 4096 c.2) as [Hlt|]; [|assumption].
  destruct (split_chunk c Hh Hc Hlt) as (_ & _ & _ & E3 & E4).
  simpl; split; [reflexivity|]; rewrite !Hm; unfold alloc_mem.
  destruct (Z.ltb_spec 4096 c.2); [|lia]; unfold next_field; rewrite E3, E4.
  split; [unfold upd; bool_cases; reflexivity|].
  replace (upd _ _ _ _) with (mem s c.1); [assumption|].
  unfold upd; bool_cases; reflexivity.
Qed.

Lemma allocate_empty s : free_inv s [] -> allocate_physical_page s = Ret 0 s.
Proof.
  intros Hinv; pose proof (free_inv_nil _ Hinv) as E.
  unfold allocate_physical_page, pop_from_freelist; kunfold; rewrite E; reflexivity.
Qed.

(** ** Initialisation *)

Definition entry_chunk (e : limine_memmap_entry) : Z * Z :=
  (me_base e +64 get_higher_half_memory_offset, me_length e).

Definition usable_chunks (es : list limine_memmap_entry) : list (Z * Z) :=
  map entry_chunk (List.filter (fun e => me_type e =? LIMINE_MEMMAP_USABLE) es).

(** What the Limine protocol guarantees of usable entries: page aligned, not
    overlapping, above physical page zero. *)
Definition memmap_ok (es : list limine_memmap_entry) : Prop :=
  0 <= get_higher_half_memory_offset /\ Forall chunk_ok (usable_chunks es) /\
  disjoint_chunks (usable_chunks es).

Lemma disjoint_chunk_sym c d : disjoint_chunk c d -> disjoint_chunk d c.
Proof. unfold disjoint_chunk; tauto. Qed.

Lemma add_chunk s e l : free_inv s l ->
  me_type e = LIMINE_MEMMAP_USABLE -> chunk_ok (entry_chunk e) ->
  Forall (disjoint_chunk (entry_chunk e)) l ->
  exists s', add_usable_entry e s = Ret tt s' /\ free_inv s' (entry_chunk e :: l) /\
    same_globals s s'.
Proof.
  intros [Hh Hl Hok Hd] Ht Hc Hdc; unfold add_usable_entry; rewrite Ht; simpl.
  set (c := entry_chunk e) in *; change (me_base e +64 _) with c.1.
  change (me_length e) with c.2; clearbody c.
  pose proof (chunk_ok_size_field c Hh Hc) as Esz.
  assert (Hfr : forall m', (forall x, ~ in_chunk x c -> m' x = mem s x) ->
    freelist m' (head s) l).
  { intros m' Hm; eapply freelist_frame; [| | |exact Hl]; auto.
    intros x Hx; apply Hm; intros Hin; exact (disjoint_not_in _ _ _ Hdc Hin Hx). }
  pose proof (in_chunk_next c Hc) as Hin1; pose proof (in_chunk_size c Hh Hc) as Hin2.
  unfold push_to_freelist; kunfold; simpl.
  destruct (Z.eqb_spec (head s) 0) as [Ez|Hnz];
    (eexists; split; [reflexivity|]; split; [|repeat split]);
    (split; [assumption| |constructor; assumption|split; assumption]); simpl.
  - split; [reflexivity|]; rewrite Esz in *; unfold next_field in *.
    rewrite (upd_ne _ (c.1 + 8) _ c.1), !upd_eq by lia; split; [reflexivity|].
    rewrite <- Ez; apply Hfr; intros x Hx; rewrite !upd_ne by (intros ->; auto); auto.
  - split; [reflexivity|]; rewrite Esz in *; unfold next_field in *.
    rewrite (upd_ne _ c.1 _ (c.1 + 8)), !upd_eq by lia; split; [reflexivity|].
    apply Hfr; intros x Hx; rewrite !upd_ne by (intros ->; auto); auto.
Qed.

Lemma add_usable_entries_inv es : forall s l,
  free_inv s l -> Forall chunk_ok (usable_chunks es) ->
  disjoint_chunks (usable_chunks es) ->
  Forall (fun c => Forall (disjoint_chunk c) l) (usable_chunks es) ->
  exists s', add_usable_entries es s = Ret tt s' /\
    free_inv s' (reverse (usable_chunks es) ++ l) /\ same_globals s s'.
Proof.
  induction es as [|e es IH]; intros s l Hinv Hok Hd Hdl.
  - exists s; split; [reflexivity|]; split; [assumption|reflexivity].
  - unfold usable_chunks in *; simpl in *.
    destruct (Z.eqb_spec (me_type e) LIMINE_MEMMAP_USABLE) as [Ht|Ht]; simpl in *.
    + apply Forall_cons in Hok as [Hc Hok], Hdl as [Hcl Hdl]; destruct Hd as [Hcd Hd].
      destruct (add_chunk s e l Hinv Ht Hc Hcl) as (s1 & Hrun & Hinv1 & Hg1).
      destruct (IH s1 (entry_chunk e :: l)) as (s2 & Hrun2 & Hinv2 & Hg2); auto.
      { rewrite Forall_forall in *; intros d Hin; constructor; auto.
        apply disjoint_chunk_sym; auto. }
      exists s2; split; [|split].
      * erewrite K_bind_Ret by exact Hrun; exact Hrun2.
      * rewrite reverse_cons, <- (assoc_L (++)); exact Hinv2.
      * etransitivity; eassumption.
    + assert (Hrun : add_usable_entry e s = Ret tt s).
      { unfold add_usable_entry.
        destruct (Z.eqb_spec (me_type e) LIMINE_MEMMAP_USABLE); [contradiction|reflexivity]. }
      destruct (IH s l) as (s2 & Hrun2 & ?); auto.
      exists s2; split; [erewrite K_bind_Ret by exact Hrun; exact Hrun2|assumption].
Qed.

Lemma sum_freelist_total m l : forall h fuel acc,
  0 <= get_higher_half_memory_offset ->
  Forall chunk_ok l -> freelist m h l -> (length l <= fuel)%nat ->
  sum_freelist fuel m h (u64 acc) = Some (u64 (acc + total l)).
Proof.
  induction l as [|c l IH]; simpl; intros h fuel acc Hh Hok Hl Hf.
  - subst h; destruct fuel; simpl; rewrite Z.add_0_r; reflexivity.
  - destruct Hl as (-> & Hs & Hl); apply Forall_cons in Hok as [Hc Hok].
    destruct fuel as [|fuel]; simpl in *; [lia|].
    destruct (Z.eqb_spec c.1 0) as [E|_]; [unfold chunk_ok in Hc; lia|].
    rewrite Hs; replace (u64 acc +64 c.2) with (u64 (acc + c.2))
      by (unfold wrap; rewrite Z.add_mod_idemp_l; [reflexivity|discriminate]).
    rewrite IH by (auto; lia); f_equal; f_equal; lia.
Qed.

(** ** Deallocation *)

(** [deallocate_physical_page] links the page in front of a non-empty list with
    the size its former owner left at offset 8, and writes only the [next] word. *)
Lemma deallocate_run s l page :
  free_inv s l -> l <> [] ->
  let a := page +64 get_higher_half_memory_offset in
  exists s', deallocate_physical_page page s = Ret tt s' /\ head s' = a /\
    same_globals s s' /\ mem s' = upd (mem s) a (head s).
Proof.
  intros [Hh Hl Hok Hd] Hne a; unfold deallocate_physical_page, push_to_freelist.
  kunfold; fold a; destruct (Z.eqb_spec (head s) 0) as [E|_].
  - rewrite E in Hl; apply freelist_zero in Hl; congruence.
  - eexists; split; [reflexivity|]; repeat split.
Qed.

Lemma deallocate_list s l page :
  free_inv s l -> l <> [] ->
  let a := page +64 get_higher_half_memory_offset in
  ~ free_addr l a -> size_field a <> a ->
  exists s', deallocate_physical_page page s = Ret tt s' /\ same_globals s s' /\
    freelist (mem s') (head s') ((a, mem s (size_field a)) :: l) /\
    (forall x, x <> a -> mem s' x = mem s x).
Proof.
  intros Hinv Hne a Hna Hsz.
  destruct (deallocate_run s l page Hinv Hne) as (s' & Hrun & Eh & Hg & Em).
  fold a in Eh, Em; exists s'; split; [assumption|]; split; [assumption|].
  rewrite Eh, Em; split; [|intros; apply upd_ne; assumption].
  simpl; unfold next_field; rewrite upd_ne, upd_eq by assumption.
  do 2 (split; [reflexivity|]).
  destruct Hinv; eapply freelist_frame; [| | |eassumption]; auto.
  intros x Hx; apply upd_ne; intros ->; contradiction.
Qed.

(** A page whose size word still is 4096 goes back to the list intact. *)
Lemma deallocate_inv s l page :
  free_inv s l -> l <> [] ->
  let a := page +64 get_higher_half_memory_offset in
  chunk_ok (a, 4096) -> Forall (disjoint_chunk (a, 4096)) l ->
  mem s (size_field a) = 4096 ->
  exists s', deallocate_physical_page page s = Ret tt s' /\
    free_inv s' ((a, 4096) :: l) /\ same_globals s s'.
Proof.
  intros Hinv Hne a Hc Hd Hs.
  pose proof (chunk_ok_size_field _ (fi_hhdm _ _ Hinv) Hc) as E; simpl in E.
  destruct (deallocate_list s l page Hinv Hne) as (s' & Hrun & Hg & Hl & _);
    fold a.
  - eapply disjoint_not_in; [exact Hd|]; unfold in_chunk; simpl; lia.
  - lia.
  - fold a in Hl; rewrite Hs in Hl; destruct Hinv; exists s'; split; [assumption|].
    split; [|assumption]; split; auto; split; auto.
Qed.

Lemma page_back a : 0 <= get_higher_half_memory_offset -> chunk_ok (a, 4096) ->
  (a - get_higher_half_memory_offset) +64 get_higher_half_memory_offset = a.
Proof.
  unfold chunk_ok; simpl; intros.
  rewrite wrap_id by (unfold in_w; lia); lia.
Qed.

End Physical.

(** ** What the allocator promises its clients

    [free_frame s q]: the page at higher-half address [q] is free in [s].  The
    page tables, the heap and the process code are verified against this
    interface; [physical_allocator] below discharges it. *)

Definition in_page (q x : Z) : Prop := q <= x < q + 4096.

Class PageAllocator {boot : boot_info} := {
  pa_alloc : K Z;
  pa_inv : kstate -> Prop;
  free_frame : kstate -> Z -> Prop;
  free_frame_ok : forall s q, pa_inv s -> free_frame s q ->
    q mod 4096 = 0 /\ get_higher_half_memory_offset + 4096 <= q /\ q + 4096 <= 2 ^ 64;
  pa_alloc_spec : forall s, pa_inv s ->
    exists p s', pa_alloc s = Ret p s' /\ pa_inv s' /\ same_globals s s' /\
      ((p = 0 /\ s' = s /\ forall q, ~ free_frame s q) \/
       (let q := p + get_higher_half_memory_offset in
        0 < p /\ free_frame s q /\
        (forall q', free_frame s' q' <-> free_frame s q' /\ q' <> q) /\
        (forall x, (forall q', free_frame s q' -> ~ in_page q' x) -> mem s' x = mem s x)));
  pa_frame : forall s s', pa_inv s -> head s' = head s ->
    (forall q x, free_frame s q -> in_page q x -> mem s' x = mem s x) ->
    pa_inv s' /\ forall q, free_frame s' q <-> free_frame s q
}.

Section Instance_.
Context {boot : boot_info}.

Lemma freelist_unique m l : forall h l',
  0 <= get_higher_half_memory_offset ->
  Forall chunk_ok l -> Forall chunk_ok l' ->
  freelist m h l -> freelist m h l' -> l = l'.
Proof.
  induction l as [|c l IH]; simpl; intros h l' Hh Hok Hok' Hl Hl'.
  - subst h; apply freelist_zero in Hl'; auto.
  - destruct Hl as (-> & Hs & Hl); destruct l' as [|c' l']; simpl in Hl'.
    + apply Forall_cons in Hok as [Hc _]; unfold chunk_ok in Hc; lia.
    + destruct Hl' as (E & Hs' & Hl').
      apply Forall_cons in Hok as [_ Hok], Hok' as [_ Hok'].
      f_equal; [destruct c, c'; simpl in *; congruence|eauto].
Qed.

Lemma free_inv_unique s l l' : free_inv s l -> free_inv s l' -> l = l'.
Proof. intros [] []; eapply freelist_unique; eauto. Qed.

Lemma free_addr_page l x : Forall chunk_ok l -> free_addr l x ->
  free_page l (x - x mod 4096) /\ in_page (x - x mod 4096) x.
Proof.
  intros Hok Hx; split.
  - split; [Z.div_mod_to_equations; lia|].
    apply Exists_exists in Hx as (c & Hin & Hx); apply Exists_exists; exists c.
    split; [assumption|]; rewrite Forall_forall in Hok; specialize (Hok c Hin).
    unfold chunk_ok, in_chunk in *; Z.div_mod_to_equations; lia.
  - unfold in_page; Z.div_mod_to_equations; lia.
Qed.

Lemma free_page_bounds l q : Forall chunk_ok l -> free_page l q ->
  q mod 4096 = 0 /\ get_higher_half_memory_offset + 4096 <= q /\ q + 4096 <= 2 ^ 64.
Proof.
  intros Hok [Hq Hx]; split; [assumption|].
  apply Exists_exists in Hx as (c & Hin & Hx); rewrite Forall_forall in Hok.
  specialize (Hok c Hin); unfold chunk_ok, in_chunk in *; Z.div_mod_to_equations; lia.
Qed.

Lemma free_page_in_page l q x : Forall chunk_ok l -> free_page l q -> in_page q x ->
  free_addr l x.
Proof.
  intros Hok [Hq Hx] Hin; apply Exists_exists in Hx as (c & Hc & Hx).
  apply Exists_exists; exists c; split; [assumption|].
  rewrite Forall_forall in Hok; specialize (Hok c Hc).
  unfold chunk_ok, in_chunk, in_page in *; Z.div_mod_to_equations; lia.
Qed.

Definition phys_free_frame (s : kstate) (q : Z) : Prop :=
  exists l, free_inv s l /\ free_page l q.

Lemma phys_free_frame_iff s l q : free_inv s l -> phys_free_frame s q <-> free_page l q.
Proof.
  intros Hinv; split; [|exists l; auto].
  intros (l' & Hinv' & Hq); rewrite (free_inv_unique _ _ _ Hinv Hinv'); assumption.
Qed.

Lemma phys_alloc_spec s : (exists l, free_inv s l) ->
  exists p s', allocate_physical_page s = Ret p s' /\ (exists l, free_inv s' l) /\
    same_globals s s' /\
    ((p = 0 /\ s' = s /\ forall q, ~ phys_free_frame s q) \/
     (let q := p + get_higher_half_memory_offset in
      0 < p /\ phys_free_frame s q /\
      (forall q', phys_free_frame s' q' <-> phys_free_frame s q' /\ q' <> q) /\
      (forall x, (forall q', phys_free_frame s q' -> ~ in_page q' x) -> mem s' x = mem s x))).
Proof.
  intros [l Hinv]; destruct l as [|c l].
  - exists 0, s; split; [apply allocate_empty; assumption|].
    split; [eauto|]; split; [reflexivity|]; left; do 2 (split; [reflexivity|]).
    intros q Hq; apply (phys_free_frame_iff s [] q Hinv) in Hq as [_ Hq].
    inversion Hq.
  - destruct (allocate_inv s c l Hinv) as (s' & Hrun & Hinv' & Hg & Hm).
    exists (c.1 - get_higher_half_memory_offset), s'; split; [assumption|].
    split; [eauto|]; split; [assumption|]; right.
    destruct (free_inv_head _ _ _ Hinv) as (_ & _ & _ & _ & Hc).
    pose proof (fi_hhdm _ _ Hinv) as Hh; pose proof (fi_ok _ _ Hinv) as Hok.
    pose proof (fi_disjoint _ _ Hinv) as Hd.
    simpl; rewrite Z.sub_add; pose proof (chunk_ok_min c Hc) as Hmin.
    split; [unfold chunk_ok in Hc; lia|]; split; [|split].
    + apply (phys_free_frame_iff s (c :: l)); [assumption|].
      split; [unfold chunk_ok in Hc; lia|apply free_addr_cons; left; unfold in_chunk; lia].
    + intros q'; rewrite (phys_free_frame_iff s' _ q' Hinv').
      rewrite (phys_free_frame_iff s (c :: l) q' Hinv); apply after_alloc_free; assumption.
    + intros x Hx; apply Hm; intros Hin.
      destruct (free_addr_page (c :: l) x Hok) as [Hp Hpx];
        [apply free_addr_cons; auto|].
      eapply Hx; [|exact Hpx]; apply (phys_free_frame_iff s (c :: l)); assumption.
Qed.

Lemma phys_frame s s' : (exists l, free_inv s l) -> head s' = head s ->
  (forall q x, phys_free_frame s q -> in_page q x -> mem s' x = mem s x) ->
  (exists l, free_inv s' l) /\ forall q, phys_free_frame s' q <-> phys_free_frame s q.
Proof.
  intros [l Hinv] Eh Hm; assert (Hinv' : free_inv s' l).
  { pose proof (fi_ok _ _ Hinv) as Hok; split; try apply Hinv; rewrite Eh.
    eapply freelist_frame; [apply Hinv|assumption| |apply Hinv].
    intros x Hx; destruct (free_addr_page l x Hok Hx) as [Hp Hpx].
    eapply Hm; [|exact Hpx]; apply (phys_free_frame_iff s l); assumption. }
  split; [eauto|]; intros q.
  rewrite (phys_free_frame_iff s' l), (phys_free_frame_iff s l); tauto.
Qed.

Lemma phys_free_frame_ok s q : (exists l, free_inv s l) -> phys_free_frame s q ->
  q mod 4096 = 0 /\ get_higher_half_memory_offset + 4096 <= q /\ q + 4096 <= 2 ^ 64.
Proof. intros _ (l & [] & Hq); eapply free_page_bounds; eassumption. Qed.

#[export] Instance physical_allocator : PageAllocator := {
  pa_alloc := allocate_physical_page;
  pa_inv := fun s => exists l, free_inv s l;
  free_frame := phys_free_frame;
  free_frame_ok := phys_free_frame_ok;
  pa_alloc_spec := phys_alloc_spec;
  pa_frame := phys_frame
}.

End Instance_.

(** ** Theorems *)

Section Theorems.
Context {boot : boot_info}.

Lemma allocate_spec s l : free_inv s l ->
  exists p s' l', allocate_physical_page s = Ret p s' /\ free_inv s' l' /\
    same_globals s s' /\
    ((p = 0 /\ l = [] /\ s' = s) \/
     (0 < p /\ free_page l (p + get_higher_half_memory_offset) /\
      (forall q, free_page l' q <->
        free_page l q /\ q <> p + get_higher_half_memory_offset) /\
      (forall x, ~ free_addr l x -> mem s' x = mem s x))).
Proof.
  intros Hinv; destruct l as [|c l].
  - exists 0, s, []; split; [apply allocate_empty; assumption|].
    split; [assumption|]; split; [reflexivity|auto].
  - destruct (allocate_inv s c l Hinv) as (s' & Hrun & Hinv' & Hg & Hm).
    destruct (free_inv_head _ _ _ Hinv) as (_ & _ & _ & _ & Hc).
    pose proof (chunk_ok_min c Hc); exists (c.1 - get_higher_half_memory_offset), s', (after_alloc (c :: l)).
    split; [assumption|]; split; [assumption|]; split; [assumption|]; right.
    rewrite Z.sub_add; unfold chunk_ok in Hc; split; [lia|]; split; [|split].
    + split; [lia|apply free_addr_cons; left; unfold in_chunk; lia].
    + intros q; apply after_alloc_free; apply Hinv.
    + intros x Hx; apply Hm; intros Hin; apply Hx, free_addr_cons; auto.
Qed.

(** C3.  [allocate_physical_page] implements the abstract "take one
    page out of the free set": on a well-formed free list it returns, without
    halting, either the null pointer, and then nothing was free and nothing
    changed, or the physical address of a page that was free; then exactly
    that page left the free set, the list is well formed again, the other
    globals are the same and no memory outside the free pages was written. *)
Theorem allocate_refines_free_set s l : free_inv s l ->
  exists p s' l', allocate_physical_page s = Ret p s' /\ free_inv s' l' /\
    same_globals s s' /\
    ((p = 0 /\ l = [] /\ s' = s) \/
     (0 < p /\ free_page l (p + get_higher_half_memory_offset) /\
      (forall q, free_page l' q <->
        free_page l q /\ q <> p + get_higher_half_memory_offset) /\
      (forall x, ~ free_addr l x -> mem s' x = mem s x))).
Proof. apply allocate_spec. Qed.

(** C11.  From a memory map that keeps Limine's guarantees,
    [initialize_physical_memory] does not halt and leaves a well-formed free
    list: the usable entries, the last one first. *)
Theorem initialize_physical_memory_inv s :
  get_memory_map <> [] -> memmap_ok get_memory_map -> head s = 0 ->
  exists s', initialize_physical_memory s = Ret tt s' /\
    free_inv s' (reverse (usable_chunks get_memory_map)) /\ same_globals s s'.
Proof.
  intros Hne (Hh & Hok & Hd) E.
  destruct (add_usable_entries_inv get_memory_map s []) as (s' & Hrun & Hinv & Hg); auto.
  - split; auto; constructor.
  - apply Forall_forall; intros; constructor.
  - exists s'; split; [|rewrite app_nil_r in Hinv; auto].
    unfold initialize_physical_memory, get_memory_map_entry_count.
    destruct get_memory_map; [contradiction|exact Hrun].
Qed.

Lemma allocate_pages_inv n : forall s l, free_inv s l ->
  exists ps s' l', allocate_pages n s = Ret ps s' /\ free_inv s' l' /\ same_globals s s' /\
    (forall q, free_page l' q -> free_page l q) /\
    NoDup (List.filter (fun p => negb (p =? 0)) ps) /\
    (forall p, p ∈ List.filter (fun p => negb (p =? 0)) ps ->
      free_page l (p + get_higher_half_memory_offset) /\
      ~ free_page l' (p + get_higher_half_memory_offset)).
Proof.
  induction n as [|n IH]; intros s l Hinv.
  - exists [], s, l; split; [reflexivity|]; split; [assumption|]; split; [reflexivity|].
    split; [auto|]; split; [constructor|]; simpl; intros p Hp; set_solver.
  - destruct (allocate_spec s l Hinv) as (p & s1 & l1 & Hrun & Hinv1 & Hg1 & Hp).
    destruct (IH s1 l1 Hinv1) as (ps & s2 & l2 & Hruns & Hinv2 & Hg2 & Hsub & Hnd & Hps).
    exists (p :: ps), s2, l2; split; [|split; [assumption|split; [etransitivity; eassumption|]]].
    { simpl; erewrite K_bind_Ret by exact Hrun; erewrite K_bind_Ret by exact Hruns; reflexivity. }
    destruct Hp as [(-> & -> & ->)|(Hpos & Hfree & Hiff & _)]; simpl.
    + destruct (free_inv_unique s l1 []) as []; [assumption|assumption|]; auto.
    + destruct (Z.eqb_spec p 0) as [|_]; [lia|]; simpl.
      split; [intros q Hq; apply (Hiff q); auto|]; split.
      * constructor; [|assumption].
        intros Hin; destruct (Hps p Hin) as [H _]; apply Hiff in H; tauto.
      * intros p' [->|Hin]%elem_of_cons.
        -- split; [assumption|]; intros H; apply Hsub, Hiff in H; tauto.
        -- destruct (Hps p' Hin) as [H1 H2]; apply Hiff in H1; tauto.
Qed.

Lemma allocate_pages_length n : forall s ps s',
  allocate_pages n s = Ret ps s' -> length ps = n.
Proof.
  induction n as [|n IH]; simpl; intros s ps s'.
  - intros [= <- _]; reflexivity.
  - kunfold; destruct (allocate_physical_page s) as [p s1|]; [|discriminate].
    destruct (allocate_pages n s1) as [ps1 s2|] eqn:E; [|discriminate].
    intros [= <- _]; simpl; f_equal; eauto.
Qed.

(** No page is handed out twice: in a run of any length, the
    non-null results of [allocate_physical_page] are pairwise distinct, each was
    free at the start and none is free at the end. *)
Theorem allocations_distinct s l n : free_inv s l ->
  exists ps s' l', allocate_pages n s = Ret ps s' /\ free_inv s' l' /\
    length ps = n /\ NoDup (List.filter (fun p => negb (p =? 0)) ps) /\
    (forall p, p ∈ List.filter (fun p => negb (p =? 0)) ps ->
      free_page l (p + get_higher_half_memory_offset) /\
      ~ free_page l' (p + get_higher_half_memory_offset)).
Proof.
  intros Hinv; destruct (allocate_pages_inv n s l Hinv)
    as (ps & s' & l' & Hrun & Hinv' & _ & _ & Hnd & Hps).
  exists ps, s', l'; eauto 6 using allocate_pages_length.
Qed.

(** [get_available_usable_memory] terminates on a well-formed
    list (fuel: its length) with the sum of the chunk sizes, and an allocation
    that succeeds lowers that sum by one page. *)
Theorem available_memory_total s l fuel : free_inv s l -> (length l <= fuel)%nat ->
  get_available_usable_memory fuel s = Some (u64 (total l)) /\
  (l <> [] -> exists p s', allocate_physical_page s = Ret p s' /\ 0 < p /\
     get_available_usable_memory fuel s' = Some (u64 (total l - 4096))).
Proof.
  intros [Hh Hl Hok Hd] Hf; split.
  - exact (sum_freelist_total (mem s) l (head s) fuel 0 Hh Hok Hl Hf).
  - destruct l as [|c l]; [contradiction|]; intros _.
    destruct (allocate_inv s c l) as (s' & Hrun & [_ Hl' Hok' _] & _); [split; assumption|].
    exists (c.1 - get_higher_half_memory_offset), s'; split; [assumption|].
    pose proof Hok as Hok2; apply Forall_cons in Hok2 as [Hc _].
    split; [unfold chunk_ok in Hc; lia|].
    rewrite <- total_after_alloc by assumption.
    apply (sum_freelist_total (mem s') _ (head s') fuel 0); auto.
    simpl in *; destruct (4096 <? c.2); simpl; lia.
Qed.

Lemma allocated_size_word s c l : free_inv s (c :: l) ->
  forall s', allocate_physical_page s = Ret (c.1 - get_higher_half_memory_offset) s' ->
  mem s' (size_field c.1) = 4096.
Proof.
  intros Hinv s' Hrun; destruct (allocate_run s c l Hinv) as (s1 & Hrun1 & _ & Hm & _).
  rewrite Hrun in Hrun1; injection Hrun1 as <-.
  destruct (free_inv_head _ _ _ Hinv) as (_ & Es & _ & _ & Hc).
  pose proof (chunk_ok_min c Hc).
  rewrite Hm; unfold alloc_mem; destruct (Z.ltb_spec 4096 c.2); [apply upd_eq|lia].
Qed.

Lemma after_alloc_disjoint c l : chunk_ok c -> Forall (disjoint_chunk c) l ->
  Forall (disjoint_chunk (c.1, 4096)) (after_alloc (c :: l)).
Proof.
  intros Hc Hd; pose proof (chunk_ok_min c Hc).
  assert (Forall (disjoint_chunk (c.1, 4096)) l).
  { eapply Forall_impl; [exact Hd|]; unfold disjoint_chunk; simpl; lia. }
  simpl; destruct (Z.ltb_spec 4096 c.2); [constructor; [|assumption]|assumption].
  unfold disjoint_chunk; simpl; lia.
Qed.

(** Taking a page and giving it back restores the free set:
    if, between the two calls, the free memory is not written and the owner
    leaves the word at offset 8 of its page alone, deallocating the page gives a
    well-formed list with exactly the free pages of the beginning (as long as
    the allocation did not take the very last free page). *)
Theorem allocate_deallocate_roundtrip s l p s1 s2 :
  free_inv s l -> allocate_physical_page s = Ret p s1 -> 0 < p -> after_alloc l <> [] ->
  head s2 = head s1 -> (forall x, free_addr (after_alloc l) x -> mem s2 x = mem s1 x) ->
  mem s2 (size_field (p +64 get_higher_half_memory_offset)) =
    mem s1 (size_field (p +64 get_higher_half_memory_offset)) ->
  exists s3 l3, deallocate_physical_page p s2 = Ret tt s3 /\ free_inv s3 l3 /\
    forall q, free_page l3 q <-> free_page l q.
Proof.
  intros Hinv Hrun Hp Hne Eh Hm Hsz; destruct l as [|c l]; [contradiction|].
  destruct (allocate_inv s c l Hinv) as (s1' & Hrun' & Hinv1 & _ & _).
  rewrite Hrun in Hrun'; injection Hrun' as -> <-.
  pose proof (allocated_size_word s c l Hinv s1 Hrun) as E1.
  destruct (free_inv_head _ _ _ Hinv) as (_ & _ & _ & _ & Hc).
  assert (Hc' : chunk_ok (c.1, 4096))
    by (pose proof (chunk_ok_min c Hc); unfold chunk_ok in *; simpl;
        Z.div_mod_to_equations; lia).
  pose proof (page_back c.1 (fi_hhdm _ _ Hinv) Hc') as Ea.
  assert (Hinv2 : free_inv s2 (after_alloc (c :: l))).
  { destruct Hinv1; split; auto; rewrite Eh; eapply freelist_frame; [| | |eassumption]; auto. }
  destruct (deallocate_inv s2 _ (c.1 - get_higher_half_memory_offset) Hinv2 Hne)
    as (s3 & Hrun3 & Hinv3 & _); rewrite ?Ea in *; auto.
  - apply after_alloc_disjoint; [assumption|apply Hinv].
  - congruence.
  - exists s3, ((c.1, 4096) :: after_alloc (c :: l)); split; [assumption|].
    split; [assumption|]; intros q; pose proof (after_alloc_free c l q) as Haf.
    specialize (Haf (fi_ok _ _ Hinv) (fi_disjoint _ _ Hinv)).
    pose proof (chunk_ok_min c Hc).
    unfold free_page in *; rewrite free_addr_cons; unfold in_chunk at 1; simpl.
    destruct (Z.eq_dec q c.1) as [->|Hq].
    + unfold chunk_ok in Hc; split; intros [? _]; (split; [assumption|]).
      * apply free_addr_cons; left; unfold in_chunk; lia.
      * left; lia.
    + split; [|tauto]; intros [Hq0 [Hin|Hin]]; [|apply Haf; auto].
      exfalso; unfold chunk_ok in Hc; Z.div_mod_to_equations; lia.
Qed.

(** [deallocate_physical_page] takes the size of the freed
    chunk from the page's own contents: if the owner left 8192 in the word at
    offset 8, giving back one page makes the next two allocations return that
    page and its neighbour, although the neighbour was not free and nobody gave
    it back. *)
Theorem deallocate_trusts_stale_size s l page :
  free_inv s l -> l <> [] ->
  let a := page + get_higher_half_memory_offset in
  chunk_ok (a, 8192) -> Forall (disjoint_chunk (a, 8192)) l ->
  mem s (size_field a) = 8192 ->
  exists s1 s2 s3, deallocate_physical_page page s = Ret tt s1 /\
    allocate_physical_page s1 = Ret page s2 /\
    allocate_physical_page s2 = Ret (page + 4096) s3 /\
    ~ free_page l (page + 4096 + get_higher_half_memory_offset).
Proof.
  intros Hinv Hne a Hc Hd Hs; pose proof (fi_hhdm _ _ Hinv) as Hh.
  assert (Ea : page +64 get_higher_half_memory_offset = a)
    by (apply wrap_id; unfold chunk_ok, in_w in *; simpl in *; lia).
  pose proof (chunk_ok_size_field _ Hh Hc) as E; simpl in E.
  destruct (deallocate_list s l page Hinv Hne) as (s1 & Hrun & _ & Hl & _); rewrite Ea in *.
  - eapply disjoint_not_in; [exact Hd|]; unfold in_chunk; simpl; lia.
  - lia.
  - rewrite Hs in Hl; assert (Hinv1 : free_inv s1 ((a, 8192) :: l)).
    { destruct Hinv; split; auto; split; auto. }
    destruct (allocate_inv _ _ _ Hinv1) as (s2 & Hrun2 & Hinv2 & _ & _); simpl in *.
    destruct (allocate_inv _ _ _ Hinv2) as (s3 & Hrun3 & _); simpl in *.
    exists s1, s2, s3; split; [assumption|]; unfold a in Hrun2, Hrun3.
    rewrite Hrun2, Hrun3; split; [f_equal; lia|]; split; [f_equal; lia|].
    intros [_ Hf]; revert Hf; eapply disjoint_not_in; [exact Hd|].
    unfold in_chunk, a; simpl; lia.
Qed.

End Theorems.

(** ** Witnesses: a machine with two usable regions of three and two pages *)

Module Demo.

Definition boot : boot_info := {|
  hhdm_response := Some 0xffff800000000000;
  memmap_response := Some
    [ {| me_base := 0x1000; me_length := 0x3000; me_type := LIMINE_MEMMAP_USABLE |};
      {| me_base := 0x8000; me_length := 0x1000; me_type := 1 |};
      {| me_base := 0x10000; me_length := 0x2000; me_type := LIMINE_MEMMAP_USABLE |} ];
  kernel_address_response := Some 0xffffffff80000000
|}.
#[local] Existing Instance boot.

(** Before initialisation every word holds 7. *)
Definition s0 : kstate := mk_kstate (fun _ => 7) 0 0 0 0 0 0 0 [].

Definition run {A} (c : K A) (s : kstate) : kstate :=
  match c s with Ret _ s' => s' | Halted s' => s' end.

Definition s1 : kstate := run initialize_physical_memory s0.

Definition l1 : list (Z * Z) :=
  [(0xffff800000010000, 0x2000); (0xffff800000001000, 0x3000)].

Ltac check_chunks :=
  repeat match goal with
  | |- Forall _ _ => constructor
  | |- _ /\ _ => split
  | |- True => exact I
  | |- _ <= _ => vm_compute; discriminate
  | |- _ < _ => reflexivity
  | |- _ = _ => reflexivity
  end.

Lemma s1_inv : free_inv s1 l1.
Proof.
  split; [vm_compute; discriminate|vm_compute; repeat split| |].
  - unfold l1, chunk_ok; check_chunks.
  - simpl; split; [constructor; [|constructor]|split; [constructor|exact I]].
    right; vm_compute; discriminate.
Qed.

Lemma memmap_fine : memmap_ok get_memory_map.
Proof.
  unfold memmap_ok; split; [vm_compute; discriminate|].
  change (usable_chunks get_memory_map) with
    [(0xffff800000001000, 0x3000); (0xffff800000010000, 0x2000)].
  split; [unfold chunk_ok; check_chunks|].
  simpl; split; [constructor; [|constructor]|split; [constructor|exact I]].
  left; vm_compute; discriminate.
Qed.

Lemma allocate_refines_free_set_witness :
  exists p s', allocate_physical_page s1 = Ret p s' /\ exists l', free_inv s' l'.
Proof.
  destruct (allocate_refines_free_set s1 l1 s1_inv) as (p & s' & l' & H1 & H2 & _).
  exists p, s'; split; [exact H1|exists l'; exact H2].
Defined.

Lemma initialize_physical_memory_inv_witness :
  exists s', initialize_physical_memory s0 = Ret tt s' /\
    free_inv s' (reverse (usable_chunks get_memory_map)).
Proof.
  destruct (initialize_physical_memory_inv s0) as (s' & H1 & H2 & _).
  - discriminate.
  - exact memmap_fine.
  - reflexivity.
  - exists s'; split; [exact H1|exact H2].
Defined.

Lemma allocations_distinct_witness :
  exists ps s', allocate_pages 7 s1 = Ret ps s' /\ length ps = 7%nat /\
    NoDup (List.filter (fun p => negb (p =? 0)) ps).
Proof.
  destruct (allocations_distinct s1 l1 7 s1_inv) as (ps & s' & l' & H1 & _ & H2 & H3 & _).
  exists ps, s'; split; [exact H1|split; [exact H2|exact H3]].
Defined.

(** Five pages are free, so the last two of the seven requests get null. *)
Example allocate_seven :
  match allocate_pages 7 s1 with
  | Ret ps _ => ps = [0x10000; 0x11000; 0x1000; 0x2000; 0x3000; 0; 0]
  | Halted _ => False
  end.
Proof. vm_compute; reflexivity. Qed.

Lemma available_memory_total_witness :
  get_available_usable_memory 2 s1 = Some (u64 (total l1)) /\ u64 (total l1) = 0x5000.
Proof.
  split; [apply (available_memory_total s1 l1 2 s1_inv); simpl; lia|vm_compute; reflexivity].
Defined.

Definition s2 : kstate := run allocate_physical_page s1.

Lemma allocate_deallocate_roundtrip_witness :
  exists s3 l3, deallocate_physical_page 0x10000 s2 = Ret tt s3 /\ free_inv s3 l3 /\
    forall q, free_page l3 q <-> free_page l1 q.
Proof.
  apply (allocate_deallocate_roundtrip s1 l1 0x10000 s2 s2 s1_inv).
  - vm_compute; reflexivity.
  - reflexivity.
  - discriminate.
  - reflexivity.
  - reflexivity.
  - reflexivity.
Defined.

(** The owner of pages 0x20000 and 0x21000 wrote 8192 at offset 8 of the first. *)
Definition s4 : kstate := set_mem (upd (mem s1) 0xffff800000020008 8192) s1.

Lemma s4_inv : free_inv s4 l1.
Proof.
  destruct s1_inv as [Hh Hl Hok Hd]; split; auto.
Qed.

Lemma deallocate_trusts_stale_size_witness :
  exists s5 s6 s7, deallocate_physical_page 0x20000 s4 = Ret tt s5 /\
    allocate_physical_page s5 = Ret 0x20000 s6 /\
    allocate_physical_page s6 = Ret (0x20000 + 4096) s7 /\
    ~ free_page l1 (0x20000 + 4096 + get_higher_half_memory_offset).
Proof.
  apply (deallocate_trusts_stale_size s4 l1 0x20000 s4_inv).
  - discriminate.
  - unfold chunk_ok; check_chunks.
  - unfold l1; constructor; [|constructor; [|constructor]];
      right; vm_compute; discriminate.
  - vm_compute; reflexivity.
Defined.

End Demo.
