(* ===== verification/VirtMem.v ===== *)
(** * VirtMem: page tables (src/src/mem/virtual.h, src/src/mem/virtual.cpp)

    Page table entries are 64-bit words with the bit fields of the structs
    [pml4], [pdp], [pd] and [pt]; the tables live in the memory of [Machine] and
    are reached through the higher-half map. *)

From S2P Require Import Prelude Machine PhysMem.

Open Scope word_scope.

(** ** Virtual addresses *)

Record virtual_address := {
  va_canonical : Z;
  va_pml4 : Z;
  va_pdp : Z;
  va_pd : Z;
  va_pt : Z;
  va_offset : Z
}.

Definition split_virtual_address_to_structure (address : Z) : virtual_address := {|
  va_canonical := Z.land (Z.shiftr address 48) 0xFFFF;
  va_pml4 := Z.land (Z.shiftr address 39) 0x1FF;
  va_pdp := Z.land (Z.shiftr address 30) 0x1FF;
  va_pd := Z.land (Z.shiftr address 21) 0x1FF;
  va_pt := Z.land (Z.shiftr address 12) 0x1FF;
  va_offset := Z.land address 0xFFF
|}.

Definition structure_to_virtual_address (a : virtual_address) : Z :=
  Z.lor (Z.lor (Z.lor (Z.lor (Z.lor
    (u64 (Z.shiftl (Z.land (va_canonical a) 0xFFFF) 48))
    (u64 (Z.shiftl (Z.land (va_pml4 a) 0x1FF) 39)))
    (u64 (Z.shiftl (Z.land (va_pdp a) 0x1FF) 30)))
    (u64 (Z.shiftl (Z.land (va_pd a) 0x1FF) 21)))
    (u64 (Z.shiftl (Z.land (va_pt a) 0x1FF) 12)))
    (Z.land (va_offset a) 0xFFF).

Definition is_canonical (addr : Z) : bool :=
  let high_bits := Z.shiftr addr 48 in (high_bits =? 0) || (high_bits =? 0xFFFF).

(** ** Entries

    The fields the four entry structs share, and those of [struct pt]; the
    fields of [struct pml4], [pdp] and [pd] that the code never touches are the
    other bits of the word. *)

Record field := { f_lo : Z; f_len : Z }.

Definition F_p : field := {| f_lo := 0; f_len := 1 |}.
Definition F_rw : field := {| f_lo := 1; f_len := 1 |}.
Definition F_us : field := {| f_lo := 2; f_len := 1 |}.
Definition F_pwt : field := {| f_lo := 3; f_len := 1 |}.
Definition F_pcd : field := {| f_lo := 4; f_len := 1 |}.
Definition F_pat : field := {| f_lo := 7; f_len := 1 |}.
Definition F_ppn : field := {| f_lo := 12; f_len := 40 |}.
Definition F_pk : field := {| f_lo := 59; f_len := 4 |}.
Definition F_nx : field := {| f_lo := 63; f_len := 1 |}.

Definition get (f : field) (e : Z) : Z := bf_get (f_lo f) (f_len f) e.
Definition set (f : field) (v e : Z) : Z := bf_set (f_lo f) (f_len f) v e.

Definition entry_addr (table index : Z) : Z := table +64 (8 * index).

Section Virtual.
Context {boot : boot_info} {alloc : PageAllocator}.

(** The table an entry points to. *)
Definition table_of (e : Z) : Z :=
  Z.shiftl (get F_ppn e) 12 +64 get_higher_half_memory_offset.

(** ** Translation *)

Definition virtual_to_physical (m : Z -> Z) (page_map virtual_address : Z) : bool * Z :=
  if negb (is_canonical virtual_address) then (false, 0)
  else
    let indexes := split_virtual_address_to_structure virtual_address in
    let pml4e := m (entry_addr page_map (va_pml4 indexes)) in
    if get F_p pml4e =? 0 then (false, 0)
    else
      let pdpe := m (entry_addr (table_of pml4e) (va_pdp indexes)) in
      if get F_p pdpe =? 0 then (false, 0)
      else
        let pde := m (entry_addr (table_of pdpe) (va_pd indexes)) in
        if get F_p pde =? 0 then (false, 0)
        else
          let pte := m (entry_addr (table_of pde) (va_pt indexes)) in
          if get F_p pte <=? 0 then (false, 0)
          else (true, Z.lor (Z.shiftl (get F_ppn pte) 12) (va_offset indexes)).

(** ** Mapping *)

Definition update (a : Z) (f : Z -> Z) : K unit := e ← load a; store a (f e).

(** One of the three upper levels of [virtual_map] (the same block for the PML4,
    the PDP and the PD): allocate and clear the next table if the entry has
    none, apply the flags, and go to the next table; [None] when no page is left. *)
Definition map_level (table index : Z) (present rw nx us : bool) : K (option Z) :=
  let ea := entry_addr table index in
  e ← load ea;
  ok ← (if get F_ppn e =? 0 then
          p ← pa_alloc;
          if p =? 0 then mret false
          else
            memset_zero (p +64 get_higher_half_memory_offset) PAGE_SIZE;;
            update ea (set F_ppn (Z.shiftr p 12));;
            mret true
        else mret true);
  if ok : bool then
    update ea (set F_p (Z.b2z present));;
    update ea (set F_rw (Z.b2z rw));;
    update ea (set F_nx (Z.b2z nx));;
    update ea (set F_us (Z.b2z us));;
    e' ← load ea;
    mret (Some (table_of e'))
  else mret None.

Definition invalidate_page (address : Z) : K unit := modify (log_invlpg address).

Definition map_page (pt index physical_address : Z)
    (present rw nx us pwt pcd pat : bool) (pk : Z) : K unit :=
  let ea := entry_addr pt index in
  update ea (set F_ppn (Z.shiftr physical_address 12));;
  update ea (set F_p (Z.b2z present));;
  update ea (set F_rw (Z.b2z rw));;
  update ea (set F_nx (Z.b2z nx));;
  update ea (set F_us (Z.b2z us));;
  update ea (set F_pwt (Z.b2z pwt));;
  update ea (set F_pcd (Z.b2z pcd));;
  update ea (set F_pat (Z.b2z pat));;
  update ea (set F_pk pk).

Definition virtual_map (page_map physical_address virtual_address : Z)
    (is_read_write disable_execution is_supervisor page_write_through
     page_cache_disable page_attribute_table : bool)
    (protection_keys : Z) (is_present : bool) : K bool :=
  if negb (physical_address mod PAGE_SIZE =? 0) then halt
  else if negb (virtual_address mod PAGE_SIZE =? 0) then halt
  else if negb (is_canonical virtual_address) then mret false
  else
    let indexes := split_virtual_address_to_structure virtual_address in
    pdp ← map_level page_map (va_pml4 indexes) is_present is_read_write
            disable_execution is_supervisor;
    match pdp with
    | None => mret false
    | Some pdp =>
        pd ← map_level pdp (va_pdp indexes) is_present is_read_write
               disable_execution is_supervisor;
        match pd with
        | None => mret false
        | Some pd =>
            pt ← map_level pd (va_pd indexes) is_present is_read_write
                   disable_execution is_supervisor;
            match pt with
            | None => mret false
            | Some pt =>
                map_page pt (va_pt indexes) physical_address is_present is_read_write
                  disable_execution is_supervisor page_write_through
                  page_cache_disable page_attribute_table protection_keys;;
                invalidate_page virtual_address;;
                mret true
            end
        end
    end.

(** ** Address lemmas *)

Lemma land_1ff z : Z.land z 0x1FF = wrap 9 z.
Proof. rewrite wrap_land by lia; reflexivity. Qed.
Lemma land_fff z : Z.land z 0xFFF = wrap 12 z.
Proof. rewrite wrap_land by lia; reflexivity. Qed.
Lemma land_ffff z : Z.land z 0xFFFF = wrap 16 z.
Proof. rewrite wrap_land by lia; reflexivity. Qed.

(** The four table indexes of an address, from the top. *)
Definition indices (va : Z) : list Z :=
  let a := split_virtual_address_to_structure va in
  [va_pml4 a; va_pdp a; va_pd a; va_pt a].

Definition valid_index (i : Z) : Prop := 0 <= i < 512.

Lemma indices_valid va : Forall valid_index (indices va).
Proof.
  unfold indices, valid_index; simpl; rewrite !land_1ff.
  repeat constructor; apply wrap_range; lia.
Qed.

Lemma split_structure va : in_w 64 va ->
  structure_to_virtual_address (split_virtual_address_to_structure va) = va.
Proof.
  intros Hva; unfold structure_to_virtual_address; simpl.
  rewrite !land_1ff, !land_fff, !land_ffff.
  apply Z.bits_inj'; intros i Hi; destruct (Z.lt_ge_cases i 64).
  - bits_solve.
  - rewrite (testbit_in_w 64 va i) by (auto; lia); bits_solve.
Qed.

Definition in_range (a : virtual_address) : Prop :=
  in_w 16 (va_canonical a) /\ in_w 9 (va_pml4 a) /\ in_w 9 (va_pdp a) /\
  in_w 9 (va_pd a) /\ in_w 9 (va_pt a) /\ in_w 12 (va_offset a).

Lemma structure_split a : in_range a ->
  split_virtual_address_to_structure (structure_to_virtual_address a) = a.
Proof.
  destruct a as [c i4 i3 i2 i1 o]; unfold in_range, split_virtual_address_to_structure.
  unfold structure_to_virtual_address; simpl; intros (?&?&?&?&?&?).
  rewrite !land_1ff, !land_fff, !land_ffff, !(wrap_id 9 i4), !(wrap_id 9 i3), !(wrap_id 9 i2),
    !(wrap_id 9 i1), !(wrap_id 12 o), !(wrap_id 16 c) by assumption.
  f_equal; bitwise.
Qed.

(** ** The tables as a tree

    [table_at m t path] follows the entries [path] from the table at [t]; an
    entry without a frame number has no table below it. *)

Definition next_table (m : Z -> Z) (t i : Z) : option Z :=
  let e := m (entry_addr t i) in
  if get F_ppn e =? 0 then None else Some (table_of e).

Fixpoint table_at (m : Z -> Z) (t : Z) (path : list Z) : option Z :=
  match path with
  | [] => Some t
  | i :: path' =>
      match next_table m t i with
      | None => None
      | Some t' => table_at m t' path'
      end
  end.

(** The contents of the page table entry for the indexes [path ++ [i]]. *)
Definition leaf_entry (m : Z -> Z) (root : Z) (path : list Z) (i : Z) : Z :=
  match table_at m root path with
  | None => 0
  | Some t => m (entry_addr t i)
  end.

Definition table_ok (t : Z) : Prop := t mod 4096 = 0 /\ 0 < t /\ t + 4096 <= 2 ^ 64.

(** A path to a table: at most three valid indexes. *)
Definition table_path (path : list Z) : Prop :=
  (length path <= 3)%nat /\ Forall valid_index path.

(** The page tables below [root] form a tree of distinct pages, none of which
    is free, and an upper-level entry is present exactly if it has a table. *)
Record pt_inv (s : kstate) (root : Z) : Prop := {
  pi_alloc : pa_inv s;
  pi_hhdm : 0 <= get_higher_half_memory_offset /\ get_higher_half_memory_offset mod 4096 = 0;
  pi_limit : forall q, free_frame s q -> q - get_higher_half_memory_offset < 2 ^ 52;
  pi_ok : forall path t, table_path path -> table_at (mem s) root path = Some t ->
    table_ok t /\ ~ free_frame s t;
  pi_inj : forall path path' t, table_path path -> table_path path' ->
    table_at (mem s) root path = Some t -> table_at (mem s) root path' = Some t ->
    path = path';
  pi_present : forall path t i, table_path (path ++ [i]) ->
    table_at (mem s) root path = Some t ->
    (get F_p (mem s (entry_addr t i)) = 0 <-> get F_ppn (mem s (entry_addr t i)) = 0)
}.

Lemma entry_addr_ok t i : table_ok t -> valid_index i -> entry_addr t i = t + 8 * i.
Proof.
  unfold table_ok, valid_index, entry_addr; intros.
  apply wrap_id; unfold in_w; Z.div_mod_to_equations; lia.
Qed.

Lemma entry_in_page t i : table_ok t -> valid_index i -> in_page t (entry_addr t i).
Proof.
  intros Ht Hi; rewrite entry_addr_ok by assumption.
  unfold valid_index, in_page in *; lia.
Qed.

Lemma pages_disjoint t t' x : t mod 4096 = 0 -> t' mod 4096 = 0 ->
  in_page t x -> in_page t' x -> t = t'.
Proof. unfold in_page; intros; Z.div_mod_to_equations; lia. Qed.

Lemma entry_addr_inj t i t' i' : table_ok t -> table_ok t' -> valid_index i ->
  valid_index i' -> entry_addr t i = entry_addr t' i' -> t = t' /\ i = i'.
Proof.
  intros Ht Ht' Hi Hi' E; pose proof (entry_in_page t i Ht Hi) as H1.
  pose proof (entry_in_page t' i' Ht' Hi') as H2; rewrite <- E in H2.
  destruct Ht as [Ht Htb], Ht' as [Ht' Htb'].
  assert (t = t') as <- by (eapply pages_disjoint; eassumption).
  rewrite !entry_addr_ok in E by (auto; split; auto); lia.
Qed.

Lemma table_at_snoc m path : forall t i,
  table_at m t (path ++ [i]) =
  match table_at m t path with None => None | Some t' => next_table m t' i end.
Proof.
  induction path as [|j path IH]; simpl; intros t i.
  - destruct (next_table m t i); reflexivity.
  - destruct (next_table m t j); [apply IH|reflexivity].
Qed.

Lemma table_path_snoc path i : table_path (path ++ [i]) -> table_path path /\ valid_index i.
Proof.
  unfold table_path; rewrite length_app, Forall_app, Forall_cons; simpl.
  intros [? [? [? _]]]; repeat split; auto; try lia; apply H1.
Qed.

(** If the entries of the upper tables keep their frame numbers, the tables stay. *)
Lemma table_at_ext m m' root :
  (forall path t i, table_path (path ++ [i]) -> table_at m root path = Some t ->
     get F_ppn (m' (entry_addr t i)) = get F_ppn (m (entry_addr t i))) ->
  forall path, table_path path -> table_at m' root path = table_at m root path.
Proof.
  intros Hm path; induction path as [|i path IH] using rev_ind; [reflexivity|].
  intros Hp; destruct (table_path_snoc _ _ Hp) as [Hp' Hi].
  rewrite !table_at_snoc, IH by assumption.
  destruct (table_at m root path) as [t|] eqn:E; [|reflexivity].
  unfold next_table, table_of; rewrite (Hm path t i Hp E); reflexivity.
Qed.

(** ** Running the memory updates *)

(** [writes s s' f]: [s'] is [s] with memory [f], point by point. *)
Definition writes (s s' : kstate) (f : Z -> Z) : Prop :=
  same_globals s s' /\ head s' = head s /\ invlpg_log s' = invlpg_log s /\
  forall x, mem s' x = f x.

Lemma update_run a f s : exists s', update a f s = Ret tt s' /\
  writes s s' (upd (mem s) a (f (mem s a))).
Proof. eexists; split; [reflexivity|]; repeat split. Qed.

Lemma writes_upd s s1 s2 a v w :
  writes s s1 (upd (mem s) a v) -> writes s1 s2 (upd (mem s1) a w) ->
  writes s s2 (upd (mem s) a w).
Proof.
  intros (Hg1 & Hh1 & Hl1 & Hm1) (Hg2 & Hh2 & Hl2 & Hm2); split.
  { etransitivity; eassumption. }
  split; [congruence|]; split; [congruence|]; intros x; rewrite Hm2.
  unfold upd; destruct (Z.eqb_spec x a) as [->|Hne]; [reflexivity|].
  rewrite Hm1; apply upd_ne; assumption.
Qed.

(** A sequence of updates of one word is one update with their composition. *)
Fixpoint updates (a : Z) (fs : list (Z -> Z)) : K unit :=
  match fs with
  | [] => mret tt
  | f :: fs' => update a f;; updates a fs'
  end.

Lemma updates_run a fs : forall s, exists s', updates a fs s = Ret tt s' /\
  writes s s' (upd (mem s) a (foldl (fun e f => f e) (mem s a) fs)).
Proof.
  induction fs as [|f fs IH]; intros s.
  - exists s; split; [reflexivity|]; repeat split; intros x; simpl.
    rewrite upd_same; reflexivity.
  - destruct (update_run a f s) as (s1 & E1 & W1); destruct (IH s1) as (s2 & E2 & W2).
    exists s2; split.
    + simpl; erewrite K_bind_Ret by exact E1; exact E2.
    + pose proof (writes_upd _ _ _ _ _ _ W1 W2) as W.
      destruct W1 as (_ & _ & _ & Hm1); rewrite Hm1, upd_eq in W; exact W.
Qed.

Definition level_flags (present rw nx us : bool) : list (Z -> Z) :=
  [set F_p (Z.b2z present); set F_rw (Z.b2z rw); set F_nx (Z.b2z nx); set F_us (Z.b2z us)].

Definition with_flags (present rw nx us : bool) (e : Z) : Z :=
  set F_us (Z.b2z us) (set F_nx (Z.b2z nx) (set F_rw (Z.b2z rw) (set F_p (Z.b2z present) e))).

(** [map_level] with the flag updates gathered. *)
Lemma map_level_eq table index present rw nx us s :
  map_level table index present rw nx us s =
  (let ea := entry_addr table index in
   e ← load ea;
   ok ← (if get F_ppn e =? 0 then
           p ← pa_alloc;
           if p =? 0 then mret false
           else
             memset_zero (p +64 get_higher_half_memory_offset) PAGE_SIZE;;
             update ea (set F_ppn (Z.shiftr p 12));;
             mret true
         else mret true);
   if ok : bool then
     updates ea (level_flags present rw nx us);;
     e' ← load ea; mret (Some (table_of e'))
   else mret None) s.
Proof.
  unfold map_level; kunfold; destruct (get F_ppn _ =? 0); [|reflexivity].
  destruct (pa_alloc s) as [p s1|]; [|reflexivity]; destruct (p =? 0); reflexivity.
Qed.

Lemma b2z_wrap1 (b : bool) : wrap 1 (Z.b2z b) = Z.b2z b.
Proof. destruct b; reflexivity. Qed.

Lemma get_set_p_flags present rw nx us e :
  get F_p (with_flags present rw nx us e) = Z.b2z present.
Proof.
  unfold with_flags, get, set; simpl; rewrite !bf_get_set_other by lia.
  rewrite bf_get_set by lia; apply b2z_wrap1.
Qed.

Lemma get_ppn_flags present rw nx us e :
  get F_ppn (with_flags present rw nx us e) = get F_ppn e.
Proof. unfold with_flags, get, set; simpl; rewrite !bf_get_set_other by lia; reflexivity. Qed.

(** Flags of an upper-level entry that has a table. *)
Lemma pt_inv_flags s s' root path t i v :
  pt_inv s root -> table_path (path ++ [i]) -> table_at (mem s) root path = Some t ->
  get F_ppn v = get F_ppn (mem s (entry_addr t i)) -> get F_ppn v <> 0 -> get F_p v <> 0 ->
  writes s s' (upd (mem s) (entry_addr t i) v) ->
  pt_inv s' root /\
  (forall path', table_path path' -> table_at (mem s') root path' = table_at (mem s) root path') /\
  (forall path' j, table_path path' -> length path' = 3%nat -> valid_index j ->
     leaf_entry (mem s') root path' j = leaf_entry (mem s) root path' j) /\
  (forall q, free_frame s' q -> free_frame s q).
Proof.
  intros Hinv Hp Ht Eppn Hnz Hpres (Hg & Hh & _ & Hm).
  destruct (table_path_snoc _ _ Hp) as [Hp' Hi].
  destruct (pi_ok _ _ Hinv path t Hp' Ht) as [Hok Hnf].
  assert (Htab : forall path', table_path path' ->
    table_at (mem s') root path' = table_at (mem s) root path').
  { apply table_at_ext; intros path' t' j _ _; rewrite Hm.
    unfold upd; destruct (Z.eqb_spec (entry_addr t' j) (entry_addr t i)) as [E|]; [|reflexivity].
    rewrite E; assumption. }
  destruct (pa_frame s s' (pi_alloc _ _ Hinv) Hh) as [Ha Hf].
  { intros q x Hq Hx; rewrite Hm; apply upd_ne; intros ->.
    destruct (free_frame_ok s q (pi_alloc _ _ Hinv) Hq) as [Hq0 _].
    assert (q = t) as ->; [|contradiction].
    destruct Hok; eapply pages_disjoint; eauto; apply entry_in_page; auto; split; auto. }
  split; [split|split; [assumption|split; [|intros q; apply Hf]]].
  - assumption.
  - apply Hinv.
  - intros q Hq; apply (pi_limit _ _ Hinv), Hf; assumption.
  - intros path' t' Hpp Htt; rewrite Htab in Htt by assumption.
    destruct (pi_ok _ _ Hinv path' t' Hpp Htt) as [? Hnf']; split; [assumption|].
    intros Hq; apply Hnf', Hf; assumption.
  - intros p1 p2 t' H1 H2 E1 E2; rewrite Htab in E1, E2 by assumption.
    eapply (pi_inj _ _ Hinv); eassumption.
  - intros path' t' j Hpp Htt; rewrite Htab in Htt by (apply (table_path_snoc _ _ Hpp)).
    rewrite Hm; unfold upd; destruct (Z.eqb_spec (entry_addr t' j) (entry_addr t i)).
    + split; intros; contradiction.
    + eapply (pi_present _ _ Hinv); eassumption.
  - intros path' j Hpp Hlen Hj; unfold leaf_entry; rewrite Htab by assumption.
    destruct (table_at (mem s) root path') as [t'|] eqn:E'; [|reflexivity].
    rewrite Hm; apply upd_ne; intros E.
    destruct (pi_ok _ _ Hinv path' t' Hpp E') as [Hok' _].
    destruct (entry_addr_inj t' j t i) as [-> ->]; auto.
    assert (path' = path) as -> by (eapply (pi_inj _ _ Hinv); eassumption).
    destruct Hp as [Hp _]; rewrite length_app in Hp; simpl in Hp; lia.
Qed.

(** A fresh, cleared table below entry [i] of the table [t]. *)
Section NewTable.
Context (s s1 s' : kstate) (root : Z) (path : list Z) (t i q v : Z).
Hypothesis (Hinv : pt_inv s root) (Hp : table_path (path ++ [i]))
  (Ht : table_at (mem s) root path = Some t)
  (Hold : get F_ppn (mem s (entry_addr t i)) = 0)
  (Ha1 : pa_inv s1) (Hq : free_frame s q)
  (Hf1 : forall q', free_frame s1 q' <-> free_frame s q' /\ q' <> q)
  (Hm1 : forall x, (forall q', free_frame s q' -> ~ in_page q' x) -> mem s1 x = mem s x)
  (Hh : head s' = head s1)
  (Hm : forall x, mem s' x = upd (upd_zero (mem s1) q 4096) (entry_addr t i) v x)
  (Hvp : get F_p v <> 0) (Hvn : get F_ppn v <> 0) (Hvt : table_of v = q).

Lemma nt_path : table_path path /\ valid_index i.
Proof. exact (table_path_snoc _ _ Hp). Qed.

Lemma nt_q_ok : table_ok q.
Proof.
  destruct (free_frame_ok s q (pi_alloc _ _ Hinv) Hq) as (? & ? & ?).
  destruct (pi_hhdm _ _ Hinv); unfold table_ok; lia.
Qed.

(** Entries of the old tables other than the new one are as before. *)
Lemma nt_entry path' t' j : table_path path' -> table_at (mem s) root path' = Some t' ->
  valid_index j -> (path' <> path \/ j <> i) ->
  mem s' (entry_addr t' j) = mem s (entry_addr t' j).
Proof.
  intros Hpp Htt Hj Hne; destruct nt_path as [Hp' Hi].
  destruct (pi_ok _ _ Hinv path' t' Hpp Htt) as [Hok' Hnf'].
  destruct (pi_ok _ _ Hinv path t Hp' Ht) as [Hok Hnf].
  pose proof (entry_in_page t' j Hok' Hj) as Hin.
  rewrite Hm, upd_ne, upd_zero_out, Hm1; [reflexivity| | |].
  - intros q' Hq' Hx; destruct (free_frame_ok s q' (pi_alloc _ _ Hinv) Hq') as [Hq0 _].
    assert (q' = t') as -> by (eapply pages_disjoint; [assumption|apply Hok'|eassumption..]).
    contradiction.
  - intros Hx; assert (q = t') as E; [|subst t'; contradiction].
    eapply pages_disjoint; [apply nt_q_ok|apply Hok'|exact Hx|exact Hin].
  - intros E; destruct (entry_addr_inj t' j t i) as [-> ->]; auto.
    assert (path' = path) by (eapply (pi_inj _ _ Hinv); eassumption).
    destruct Hne; contradiction.
Qed.

Lemma nt_fresh_entry j : valid_index j -> mem s' (entry_addr q j) = 0.
Proof.
  intros Hj; destruct nt_path as [Hp' Hi].
  destruct (pi_ok _ _ Hinv path t Hp' Ht) as [Hok Hnf].
  rewrite Hm, upd_ne, upd_zero_in; [reflexivity| |].
  - exact (entry_in_page q j nt_q_ok Hj).
  - intros E; destruct (entry_addr_inj q j t i nt_q_ok Hok Hj Hi E) as [-> _]; contradiction.
Qed.

Lemma nt_table_at path' : table_path path' ->
  table_at (mem s') root path' =
  if decide (path' = path ++ [i]) then Some q else table_at (mem s) root path'.
Proof.
  induction path' as [|j path' IH] using rev_ind; intros Hpp.
  - destruct (decide ([] = path ++ [i])) as [E|]; [|reflexivity].
    destruct path; discriminate E.
  - destruct (table_path_snoc _ _ Hpp) as [Hpp' Hj]; destruct nt_path as [Hp' Hi].
    assert (Hnone : table_at (mem s) root (path ++ [i]) = None)
      by (rewrite table_at_snoc, Ht; unfold next_table; rewrite Hold; reflexivity).
    rewrite !table_at_snoc, IH by assumption.
    destruct (decide (path' = path ++ [i])) as [->|Hne].
    + unfold next_table; rewrite nt_fresh_entry by assumption.
      unfold get; rewrite bf_get_0; simpl; rewrite Hnone.
      destruct (decide _) as [E|]; [|reflexivity].
      apply (f_equal length) in E; rewrite !length_app in E; simpl in E; lia.
    + destruct (decide (path' ++ [j] = path ++ [i])) as [E|Hne2].
      * apply app_inj_tail in E as [-> ->]; rewrite Ht; unfold next_table.
        rewrite Hm, upd_eq; destruct (Z.eqb_spec (get F_ppn v) 0); [contradiction|].
        rewrite Hvt; reflexivity.
      * destruct (table_at (mem s) root path') as [t'|] eqn:E'; [|reflexivity].
        unfold next_table; rewrite (nt_entry path' t' j); auto.
        destruct (decide (path' = path)) as [->|]; [|auto].
        right; intros ->; contradiction.
Qed.

Lemma nt_frame : pa_inv s' /\ forall q', free_frame s' q' <-> free_frame s1 q'.
Proof.
  destruct nt_path as [Hp' Hi]; destruct (pi_ok _ _ Hinv path t Hp' Ht) as [Hok Hnf].
  apply pa_frame; [assumption|assumption|]; intros q' x Hq' Hx.
  pose proof (proj1 (Hf1 q') Hq') as [Hqs Hqne].
  destruct (free_frame_ok s q' (pi_alloc _ _ Hinv) Hqs) as [Hq0 _].
  rewrite Hm, upd_ne, upd_zero_out; [reflexivity| |].
  - intros Hin; apply Hqne; eapply pages_disjoint; [eassumption|apply nt_q_ok|exact Hx|exact Hin].
  - intros ->; assert (q' = t) as ->; [|contradiction].
    eapply pages_disjoint; [assumption|apply Hok|exact Hx|apply entry_in_page; assumption].
Qed.

Lemma nt_inv : pt_inv s' root.
Proof.
  destruct nt_frame as [Ha' Hf']; destruct nt_path as [Hp' Hi].
  assert (Hsub : forall q', free_frame s' q' -> free_frame s q' /\ q' <> q)
    by (intros q' H; apply Hf1, Hf'; exact H).
  split.
  - assumption.
  - apply Hinv.
  - intros q' H; apply (pi_limit _ _ Hinv), Hsub; assumption.
  - intros path' t' Hpp; rewrite nt_table_at by assumption.
    destruct (decide _) as [->|]; intros E.
    + injection E as <-; split; [apply nt_q_ok|].
      intros H; apply Hsub in H as [_ H]; contradiction.
    + destruct (pi_ok _ _ Hinv path' t' Hpp E) as [? Hn]; split; [assumption|].
      intros Hq2; apply Hn, Hsub; assumption.
  - intros p1 p2 t' H1 H2; rewrite !nt_table_at by assumption.
    destruct (decide (p1 = _)) as [->|], (decide (p2 = _)) as [->|]; intros E1 E2.
    + reflexivity.
    + injection E1 as <-; destruct (pi_ok _ _ Hinv p2 q H2 E2) as [_ Hn]; contradiction.
    + injection E2 as <-; destruct (pi_ok _ _ Hinv p1 q H1 E1) as [_ Hn]; contradiction.
    + eapply (pi_inj _ _ Hinv); eassumption.
  - intros path' t' j Hpp; destruct (table_path_snoc _ _ Hpp) as [Hpp' Hj].
    rewrite nt_table_at by assumption; destruct (decide _) as [->|]; intros E.
    + injection E as <-; rewrite nt_fresh_entry by assumption.
      unfold get; rewrite !bf_get_0; tauto.
    + destruct (decide (path' = path /\ j = i)) as [[-> ->]|Hne].
      * rewrite Ht in E; injection E as <-; rewrite Hm, upd_eq; split; intros; contradiction.
      * rewrite (nt_entry path' t' j); [eapply (pi_present _ _ Hinv); eassumption|auto..].
        destruct (decide (path' = path)) as [->|]; [|auto].
        right; intros ->; tauto.
Qed.

Lemma nt_leaf path' j : table_path path' -> length path' = 3%nat -> valid_index j ->
  leaf_entry (mem s') root path' j = leaf_entry (mem s) root path' j.
Proof.
  intros Hpp Hlen Hj; unfold leaf_entry; rewrite nt_table_at by assumption.
  destruct (decide _) as [->|].
  - rewrite nt_fresh_entry, table_at_snoc, Ht by assumption.
    unfold next_table; rewrite Hold; reflexivity.
  - destruct (table_at (mem s) root path') as [t'|] eqn:E; [|reflexivity].
    apply (nt_entry path'); auto; left; intros ->.
    destruct Hp as [Hl _]; rewrite length_app in Hl; simpl in Hl; lia.
Qed.

End NewTable.

Lemma shiftr12 p : Z.shiftr p 12 = p / 4096.
Proof. apply Z.shiftr_div_pow2; lia. Qed.

Lemma shiftl12 p : Z.shiftl p 12 = p * 4096.
Proof. apply Z.shiftl_mul_pow2; lia. Qed.

(** The entry [map_level] writes for the page at physical address [p]. *)
Lemma fresh_entry_fields p e present rw nx us :
  0 < p < 2 ^ 52 -> p mod 4096 = 0 ->
  let v := with_flags present rw nx us (set F_ppn (Z.shiftr p 12) e) in
  get F_p v = Z.b2z present /\ get F_ppn v = p / 4096 /\ get F_ppn v <> 0 /\
  table_of v = p +64 get_higher_half_memory_offset.
Proof.
  intros Hp Hmod v; assert (Eppn : get F_ppn v = p / 4096).
  { unfold v; rewrite get_ppn_flags; unfold get, set; rewrite bf_get_set by (simpl; lia).
    rewrite shiftr12; apply wrap_id; unfold in_w; simpl; Z.div_mod_to_equations; lia. }
  split; [apply get_set_p_flags|]; split; [assumption|]; split.
  - rewrite Eppn; Z.div_mod_to_equations; lia.
  - unfold table_of; rewrite Eppn, shiftl12; do 2 f_equal; Z.div_mod_to_equations; lia.
Qed.

Record keeps_leaves (s s' : kstate) (root : Z) : Prop := {
  kl_leaf : forall path j, table_path path -> length path = 3%nat -> valid_index j ->
    leaf_entry (mem s') root path j = leaf_entry (mem s) root path j;
  kl_frames : forall q, free_frame s' q -> free_frame s q
}.

Definition keeps_tables (s s' : kstate) (root : Z) : Prop :=
  forall path t, table_path path -> table_at (mem s) root path = Some t ->
    table_at (mem s') root path = Some t.

Lemma map_level_present s root path t i rw nx us :
  pt_inv s root -> table_path (path ++ [i]) -> table_at (mem s) root path = Some t ->
  get F_ppn (mem s (entry_addr t i)) <> 0 ->
  exists t' s', map_level t i true rw nx us s = Ret (Some t') s' /\ pt_inv s' root /\
    same_globals s s' /\ keeps_leaves s s' root /\ keeps_tables s s' root /\
    table_at (mem s') root (path ++ [i]) = Some t'.
Proof.
  intros Hinv Hp Ht Hnz; set (ea := entry_addr t i) in *.
  destruct (updates_run ea (level_flags true rw nx us) s) as (s' & E & W).
  change (foldl _ _ _) with (with_flags true rw nx us (mem s ea)) in W.
  destruct (pt_inv_flags s s' root path t i _ Hinv Hp Ht (get_ppn_flags true rw nx us _))
    as (Hinv' & Htab & Hleaf & Hfr); auto.
  { rewrite get_ppn_flags; assumption. }
  { rewrite get_set_p_flags; discriminate. }
  exists (table_of (mem s' ea)), s'; split.
  - rewrite map_level_eq; kunfold; fold ea; destruct (Z.eqb_spec (get F_ppn (mem s ea)) 0).
    + contradiction.
    + rewrite E; reflexivity.
  - split; [assumption|]; split; [apply W|]; split; [split; assumption|]; split.
    + intros path' t' Hpp E'; rewrite Htab; assumption.
    + rewrite table_at_snoc, Htab by (apply (table_path_snoc _ _ Hp)); rewrite Ht.
      unfold next_table; fold ea; destruct W as (_ & _ & _ & Hm).
      rewrite Hm, upd_eq, get_ppn_flags; destruct (Z.eqb_spec (get F_ppn (mem s ea)) 0).
      * contradiction.
      * reflexivity.
Qed.

Lemma map_level_absent s root path t i rw nx us :
  pt_inv s root -> table_path (path ++ [i]) -> table_at (mem s) root path = Some t ->
  get F_ppn (mem s (entry_addr t i)) = 0 ->
  (map_level t i true rw nx us s = Ret None s /\ forall q, ~ free_frame s q) \/
  exists t' s', map_level t i true rw nx us s = Ret (Some t') s' /\ pt_inv s' root /\
    same_globals s s' /\ keeps_leaves s s' root /\ keeps_tables s s' root /\
    table_at (mem s') root (path ++ [i]) = Some t'.
Proof.
  intros Hinv Hp Ht Hz; set (ea := entry_addr t i) in *.
  destruct (pa_alloc_spec s (pi_alloc _ _ Hinv))
    as (p & s1 & Ealloc & Ha1 & Hg1 & [(-> & -> & Hnone)|(Hpos & Hq & Hf1 & Hm1)]).
  - left; split; [|assumption]; rewrite map_level_eq; kunfold; fold ea.
    rewrite Hz; simpl; rewrite Ealloc; reflexivity.
  - right; set (q := p + get_higher_half_memory_offset) in *.
    destruct (free_frame_ok s q (pi_alloc _ _ Hinv) Hq) as (Hq0 & Hq1 & Hq2).
    pose proof (pi_limit _ _ Hinv q Hq) as Hlim; destruct (pi_hhdm _ _ Hinv) as [Hh0 Hh1].
    assert (Eq : p +64 get_higher_half_memory_offset = q)
      by (apply wrap_id; unfold in_w, q in *; lia).
    assert (Hp0 : p mod 4096 = 0) by (unfold q in Hq0; Z.div_mod_to_equations; lia).
    set (s2 := set_mem (upd_zero (mem s1) q 4096) s1).
    destruct (update_run ea (set F_ppn (Z.shiftr p 12)) s2) as (s3 & E3 & W3).
    destruct (updates_run ea (level_flags true rw nx us) s3) as (s4 & E4 & W4).
    pose proof (writes_upd _ _ _ _ _ _ W3 W4) as (Hg & Hh & _ & Hm).
    destruct W3 as (_ & _ & _ & Hm3); rewrite Hm3, upd_eq in Hm.
    change (foldl _ _ _) with
      (with_flags true rw nx us (set F_ppn (Z.shiftr p 12) (mem s2 ea))) in Hm.
    destruct (fresh_entry_fields p (mem s2 ea) true rw nx us) as (Fp & _ & Fn & Ft);
      [unfold q in Hlim; lia|assumption|].
    set (v := with_flags _ _ _ _ _) in *; rewrite Eq in Ft.
    assert (Hvp : get F_p v <> 0) by (rewrite Fp; discriminate).
    exists q, s4; split.
    { rewrite map_level_eq; kunfold; fold ea; rewrite Hz, Z.eqb_refl, Ealloc.
      destruct (Z.eqb_spec p 0); [lia|]; rewrite Eq.
      change (set_mem (upd_zero (mem s1) q PAGE_SIZE) s1) with s2; rewrite E3, E4.
      rewrite Hm, upd_eq, Ft; reflexivity. }
    split; [eapply (nt_inv s s1 s4 root path t i q v); eauto|].
    split; [etransitivity; [exact Hg1|exact Hg]|].
    destruct (nt_frame s s1 s4 root path t i q v) as [_ Hfr]; eauto.
    split; [split; [intros path' j; eapply (nt_leaf s s1 s4 root path t i q v); eauto|]|].
    { intros q' Hq'; apply Hf1, Hfr, Hq'. }
    assert (Htab : forall path', table_path path' -> table_at (mem s4) root path' =
        if decide (path' = path ++ [i]) then Some q else table_at (mem s) root path')
      by (intros; eapply (nt_table_at s s1 s4 root path t i q v); eauto).
    split.
    + intros path' t' Hpp E'; rewrite Htab by assumption.
      destruct (decide _) as [->|]; [|assumption].
      rewrite table_at_snoc, Ht in E'; unfold next_table in E'; fold ea in E'.
      rewrite Hz in E'; discriminate E'.
    + rewrite Htab by assumption; destruct (decide _); [reflexivity|contradiction].
Qed.

(** The leaf entry [map_page] writes. *)
Definition leaf_flags (pa : Z) (present rw nx us pwt pcd pat : bool) (pk : Z) : list (Z -> Z) :=
  [set F_ppn (Z.shiftr pa 12); set F_p (Z.b2z present); set F_rw (Z.b2z rw);
   set F_nx (Z.b2z nx); set F_us (Z.b2z us); set F_pwt (Z.b2z pwt);
   set F_pcd (Z.b2z pcd); set F_pat (Z.b2z pat); set F_pk pk].

Definition leaf_value (e pa : Z) (present rw nx us pwt pcd pat : bool) (pk : Z) : Z :=
  foldl (fun e f => f e) e (leaf_flags pa present rw nx us pwt pcd pat pk).

Lemma leaf_value_fields e pa present rw nx us pwt pcd pat pk :
  let v := leaf_value e pa present rw nx us pwt pcd pat pk in
  get F_ppn v = wrap 40 (Z.shiftr pa 12) /\ get F_p v = Z.b2z present /\
  get F_rw v = Z.b2z rw /\ get F_us v = Z.b2z us /\ get F_nx v = Z.b2z nx /\
  get F_pwt v = Z.b2z pwt /\ get F_pcd v = Z.b2z pcd /\ get F_pat v = Z.b2z pat /\
  get F_pk v = wrap 4 pk.
Proof.
  simpl; unfold leaf_value; simpl; unfold get, set; simpl.
  repeat split; autorewrite with bitfield; rewrite ?b2z_wrap1; reflexivity.
Qed.

Lemma map_page_run pt i pa present rw nx us pwt pcd pat pk s :
  let ea := entry_addr pt i in
  exists s', map_page pt i pa present rw nx us pwt pcd pat pk s = Ret tt s' /\
    writes s s' (upd (mem s) ea (leaf_value (mem s ea) pa present rw nx us pwt pcd pat pk)).
Proof.
  intros ea; destruct (updates_run ea (leaf_flags pa present rw nx us pwt pcd pat pk) s)
    as (s' & E & W); exists s'; split; [|exact W].
  rewrite <- E; reflexivity.
Qed.

Lemma pt_inv_leaf s s' root path t i v :
  pt_inv s root -> table_path path -> length path = 3%nat -> valid_index i ->
  table_at (mem s) root path = Some t ->
  writes s s' (upd (mem s) (entry_addr t i) v) ->
  pt_inv s' root /\
  (forall path' j, table_path path' -> length path' = 3%nat -> valid_index j ->
     leaf_entry (mem s') root path' j =
     if decide (path' = path /\ j = i) then v else leaf_entry (mem s) root path' j) /\
  (forall q, free_frame s' q -> free_frame s q).
Proof.
  intros Hinv Hp Hlen Hi Ht (Hg & Hh & _ & Hm).
  destruct (pi_ok _ _ Hinv path t Hp Ht) as [Hok Hnf].
  assert (Hent : forall path' t' j, table_path path' ->
    table_at (mem s) root path' = Some t' -> valid_index j -> path' <> path \/ j <> i ->
    mem s' (entry_addr t' j) = mem s (entry_addr t' j)).
  { intros path' t' j Hpp E' Hj Hne; rewrite Hm; apply upd_ne; intros E.
    destruct (pi_ok _ _ Hinv path' t' Hpp E') as [Hok' _].
    destruct (entry_addr_inj t' j t i) as [-> ->]; auto.
    destruct Hne as [Hne|Hne]; [|contradiction].
    apply Hne; eapply (pi_inj _ _ Hinv); eassumption. }
  assert (Hup : forall path' j, table_path (path' ++ [j]) -> path' <> path).
  { intros path' j [Hl _] ->; rewrite length_app in Hl; simpl in Hl; lia. }
  assert (Htab : forall path', table_path path' ->
    table_at (mem s') root path' = table_at (mem s) root path').
  { apply table_at_ext; intros path' t' j Hpp E'.
    destruct (table_path_snoc _ _ Hpp); rewrite (Hent path' t' j); eauto. }
  destruct (pa_frame s s' (pi_alloc _ _ Hinv) Hh) as [Ha Hf].
  { intros q x Hq Hx; rewrite Hm; apply upd_ne; intros ->.
    destruct (free_frame_ok s q (pi_alloc _ _ Hinv) Hq) as [Hq0 _].
    assert (q = t) as ->; [|contradiction].
    eapply pages_disjoint; [assumption|apply Hok|exact Hx|apply entry_in_page; assumption]. }
  split; [split|split; [|intros q; apply Hf]].
  - assumption.
  - apply Hinv.
  - intros q Hq; apply (pi_limit _ _ Hinv), Hf; assumption.
  - intros path' t' Hpp Htt; rewrite Htab in Htt by assumption.
    destruct (pi_ok _ _ Hinv path' t' Hpp Htt) as [? Hnf']; split; [assumption|].
    intros Hq; apply Hnf', Hf; assumption.
  - intros p1 p2 t' H1 H2 E1 E2; rewrite Htab in E1, E2 by assumption.
    eapply (pi_inj _ _ Hinv); eassumption.
  - intros path' t' j Hpp Htt; destruct (table_path_snoc _ _ Hpp) as [Hpp' Hj].
    rewrite Htab in Htt by assumption; rewrite (Hent path' t' j); eauto.
    eapply (pi_present _ _ Hinv); eassumption.
  - intros path' j Hpp Hl Hj; unfold leaf_entry; rewrite Htab by assumption.
    destruct (decide _) as [[-> ->]|Hne].
    + rewrite Ht, Hm; apply upd_eq.
    + destruct (table_at (mem s) root path') as [t'|] eqn:E; [|reflexivity].
      apply (Hent path'); auto.
      destruct (decide (path' = path)) as [->|]; [|auto]; right; intros ->; tauto.
Qed.

(** ** Translation in terms of leaf entries *)

Definition leaf_translation (e offset : Z) : bool * Z :=
  if get F_p e =? 0 then (false, 0)
  else (true, Z.lor (Z.shiftl (get F_ppn e) 12) offset).

Definition va_path (va : Z) : list Z :=
  let a := split_virtual_address_to_structure va in [va_pml4 a; va_pdp a; va_pd a].
Definition va_leaf (va : Z) : Z := va_pt (split_virtual_address_to_structure va).
Definition va_off (va : Z) : Z := va_offset (split_virtual_address_to_structure va).

Lemma va_path_ok va : table_path (va_path va) /\ length (va_path va) = 3%nat.
Proof.
  pose proof (indices_valid va) as H; unfold indices in H.
  repeat apply Forall_cons in H as [? H]; unfold va_path, table_path; simpl.
  auto 8 using Forall_nil_2, Forall_cons_2.
Qed.

Lemma va_leaf_ok va : valid_index (va_leaf va).
Proof.
  pose proof (indices_valid va) as H; unfold indices in H.
  do 3 apply Forall_cons in H as [_ H]; apply Forall_cons in H as [H _]; exact H.
Qed.

Lemma get_p_01 e : get F_p e = 0 \/ get F_p e = 1.
Proof. pose proof (bf_get_range 0 1 e) as H; unfold get, in_w in *; simpl in *; lia. Qed.

(** One step of the walk: the present bit and the frame number agree. *)
Lemma walk_step s root path t i : pt_inv s root -> table_path (path ++ [i]) ->
  table_at (mem s) root path = Some t ->
  table_at (mem s) root (path ++ [i]) =
  if get F_p (mem s (entry_addr t i)) =? 0 then None
  else Some (table_of (mem s (entry_addr t i))).
Proof.
  intros Hinv Hp Ht; rewrite table_at_snoc, Ht; unfold next_table.
  pose proof (pi_present _ _ Hinv path t i Hp Ht) as Hiff.
  destruct (Z.eqb_spec (get F_p (mem s (entry_addr t i))) 0) as [E|E],
    (Z.eqb_spec (get F_ppn (mem s (entry_addr t i))) 0) as [E'|E']; tauto.
Qed.

Lemma virtual_to_physical_leaf s root va : pt_inv s root ->
  virtual_to_physical (mem s) root va =
  if is_canonical va
  then leaf_translation (leaf_entry (mem s) root (va_path va) (va_leaf va)) (va_off va)
  else (false, 0).
Proof.
  intros Hinv; unfold virtual_to_physical.
  destruct (is_canonical va); cbn [negb]; cbv zeta; [|reflexivity].
  destruct (va_path_ok va) as [[Hlen Hval] _]; unfold leaf_entry.
  set (a := split_virtual_address_to_structure va).
  change (va_path va) with (([] ++ [va_pml4 a] ++ [va_pdp a]) ++ [va_pd a]) in *.
  apply Forall_app in Hval as [Hval V2]; apply Forall_cons in V2 as [V2 _].
  apply Forall_cons in Hval as [V4 V3]; apply Forall_cons in V3 as [V3 _].
  assert (P1 : table_path ([] ++ [va_pml4 a])) by (split; simpl; [lia|auto using Forall_nil_2, Forall_cons_2]).
  assert (P2 : table_path (([] ++ [va_pml4 a]) ++ [va_pdp a]))
    by (split; simpl; [lia|auto using Forall_nil_2, Forall_cons_2]).
  assert (P3 : table_path ((([] ++ [va_pml4 a]) ++ [va_pdp a]) ++ [va_pd a]))
    by (split; simpl; [lia|auto using Forall_nil_2, Forall_cons_2]).
  pose proof (walk_step s root [] root _ Hinv P1 eq_refl) as W1.
  change (([] ++ [va_pml4 a] ++ [va_pdp a]) ++ [va_pd a])
    with ((([] ++ [va_pml4 a]) ++ [va_pdp a]) ++ [va_pd a]).
  set (e4 := mem s (entry_addr root (va_pml4 a))) in *.
  destruct (Z.eqb_spec (get F_p e4) 0) as [E4|E4].
  { rewrite !(table_at_snoc _ (_ ++ _)), W1; reflexivity. }
  pose proof (walk_step s root _ _ _ Hinv P2 W1) as W2.
  set (e3 := mem s (entry_addr (table_of e4) (va_pdp a))) in *.
  destruct (Z.eqb_spec (get F_p e3) 0) as [E3|E3].
  { rewrite (table_at_snoc _ (_ ++ _)), W2; reflexivity. }
  rewrite (walk_step s root _ _ _ Hinv P3 W2).
  set (e2 := mem s (entry_addr (table_of e3) (va_pd a))).
  destruct (Z.eqb_spec (get F_p e2) 0) as [E2|E2]; [reflexivity|].
  unfold leaf_translation, va_leaf, va_off; fold a.
  destruct (get_p_01 (mem s (entry_addr (table_of e2) (va_pt a)))) as [->| ->]; reflexivity.
Qed.

(** ** Pages of the 48-bit address space *)

Definition page_number (va : Z) : Z := (va / 4096) mod 2 ^ 36.

Lemma index_digit va n : 12 <= n ->
  Z.land (Z.shiftr va n) 0x1FF = va / 4096 / 2 ^ (n - 12) mod 512.
Proof.
  intros Hn; replace n with (12 + (n - 12)) at 1 by lia.
  rewrite land_1ff, <- Z.shiftr_shiftr, !Z.shiftr_div_pow2 by lia; reflexivity.
Qed.

Lemma same_indices va va' :
  (va_path va = va_path va' /\ va_leaf va = va_leaf va') <-> page_number va = page_number va'.
Proof.
  unfold va_path, va_leaf, page_number; simpl.
  rewrite (index_digit va 39), (index_digit va 30), (index_digit va 21), (index_digit va 12),
    (index_digit va' 39), (index_digit va' 30), (index_digit va' 21), (index_digit va' 12) by lia.
  generalize (va / 4096) (va' / 4096); intros x y.
  change (2 ^ (39 - 12)) with 134217728; change (2 ^ (30 - 12)) with 262144.
  change (2 ^ (21 - 12)) with 512; change (2 ^ (12 - 12)) with 1; rewrite !Z.div_1_r.
  change (2 ^ 36) with 68719476736; split.
  - intros [E E1]; injection E as E4 E3 E2; Z.div_mod_to_equations; lia.
  - intros E; split; [f_equal; [|f_equal; [|f_equal]]|]; Z.div_mod_to_equations; lia.
Qed.

(** ** [virtual_map] *)

Lemma map_level_spec s root path t i rw nx us :
  pt_inv s root -> table_path (path ++ [i]) -> table_at (mem s) root path = Some t ->
  exists r s', map_level t i true rw nx us s = Ret r s' /\ pt_inv s' root /\
    same_globals s s' /\ keeps_leaves s s' root /\
    match r with
    | None => forall q, ~ free_frame s' q
    | Some t' => table_at (mem s') root (path ++ [i]) = Some t'
    end.
Proof.
  intros Hinv Hp Ht; destruct (Z.eq_dec (get F_ppn (mem s (entry_addr t i))) 0) as [Hz|Hz].
  - destruct (map_level_absent s root path t i rw nx us Hinv Hp Ht Hz)
      as [[E Hn]|(t' & s' & E & Hinv' & Hg & Hl & _ & Ht')].
    + exists None, s; do 2 (split; [assumption|]); split; [reflexivity|].
      split; [split; [intros ?????; reflexivity|auto]|assumption].
    + exists (Some t'), s'; auto 8.
  - destruct (map_level_present s root path t i rw nx us Hinv Hp Ht Hz)
      as (t' & s' & E & Hinv' & Hg & Hl & _ & Ht').
    exists (Some t'), s'; auto 8.
Qed.

Lemma keeps_leaves_trans s1 s2 s3 root :
  keeps_leaves s1 s2 root -> keeps_leaves s2 s3 root -> keeps_leaves s1 s3 root.
Proof.
  intros [H1 F1] [H2 F2]; split; [|auto].
  intros path j ???; rewrite H2, H1 by assumption; reflexivity.
Qed.

(** The state after the three upper levels: the table of [va]'s last level. *)
Definition map_upper (root va : Z) (rw nx us : bool) : K (option Z) :=
  let a := split_virtual_address_to_structure va in
  pdp ← map_level root (va_pml4 a) true rw nx us;
  match pdp with
  | None => mret None
  | Some pdp =>
      pd ← map_level pdp (va_pdp a) true rw nx us;
      match pd with
      | None => mret None
      | Some pd => map_level pd (va_pd a) true rw nx us
      end
  end.

Lemma map_upper_spec s root va rw nx us : pt_inv s root ->
  exists r s', map_upper root va rw nx us s = Ret r s' /\ pt_inv s' root /\
    same_globals s s' /\ keeps_leaves s s' root /\
    match r with
    | None => forall q, ~ free_frame s' q
    | Some t => table_at (mem s') root (va_path va) = Some t
    end.
Proof.
  intros Hinv; unfold map_upper; set (a := split_virtual_address_to_structure va).
  pose proof (indices_valid va) as V; unfold indices in V; fold a in V.
  apply Forall_cons in V as [V4 V]; apply Forall_cons in V as [V3 V].
  apply Forall_cons in V as [V2 _].
  assert (P1 : table_path ([] ++ [va_pml4 a]))
    by (split; simpl; [lia|auto using Forall_nil_2, Forall_cons_2]).
  assert (P2 : table_path ([va_pml4 a] ++ [va_pdp a]))
    by (split; simpl; [lia|auto using Forall_nil_2, Forall_cons_2]).
  assert (P3 : table_path ([va_pml4 a; va_pdp a] ++ [va_pd a]))
    by (split; simpl; [lia|auto using Forall_nil_2, Forall_cons_2]).
  destruct (map_level_spec s root [] root (va_pml4 a) rw nx us Hinv P1 eq_refl)
    as (r1 & s1 & E1 & I1 & G1 & L1 & T1).
  erewrite K_bind_Ret by exact E1; destruct r1 as [t1|]; [|exists None, s1; auto].
  destruct (map_level_spec s1 root _ t1 (va_pdp a) rw nx us I1 P2 T1)
    as (r2 & s2 & E2 & I2 & G2 & L2 & T2).
  pose proof (keeps_leaves_trans _ _ _ _ L1 L2) as L12.
  assert (G12 : same_globals s s2) by (etransitivity; eassumption).
  erewrite K_bind_Ret by exact E2; destruct r2 as [t2|]; [|exists None, s2; auto].
  destruct (map_level_spec s2 root _ t2 (va_pd a) rw nx us I2 P3 T2)
    as (r3 & s3 & E3 & I3 & G3 & L3 & T3).
  exists r3, s3; split; [assumption|]; split; [assumption|].
  split; [etransitivity; eassumption|]; split; [eapply keeps_leaves_trans; eassumption|].
  exact T3.
Qed.

Lemma virtual_map_eq root pa va rw nx us pwt pcd pat pk s :
  pa mod 4096 = 0 -> va mod 4096 = 0 -> is_canonical va = true ->
  virtual_map root pa va rw nx us pwt pcd pat pk true s =
  (r ← map_upper root va rw nx us;
   match r with
   | None => mret false
   | Some pt =>
       map_page pt (va_leaf va) pa true rw nx us pwt pcd pat pk;;
       invalidate_page va;; mret true
   end) s.
Proof.
  intros Hpa Hva Hc; unfold virtual_map, map_upper, PAGE_SIZE; rewrite Hpa, Hva, Hc.
  change (negb (0 =? 0)) with false; cbn [negb]; cbv iota zeta.
  rewrite K_bind_assoc; cbv [mbind K_bind mret K_ret].
  destruct (map_level root _ true rw nx us s) as [[t1|] s1|s1]; try reflexivity.
  destruct (map_level t1 _ true rw nx us s1) as [[t2|] s2|s2]; try reflexivity.
Qed.

Lemma mapped_translation e pa va' rw nx us pwt pcd pat pk :
  in_w 52 pa -> pa mod 4096 = 0 ->
  leaf_translation (leaf_value e pa true rw nx us pwt pcd pat pk) (va_off va') =
  (true, pa + va' mod 4096).
Proof.
  intros Hpa Hmod.
  destruct (leaf_value_fields e pa true rw nx us pwt pcd pat pk) as (Fn & Fp & _).
  unfold leaf_translation; rewrite Fp, Fn; clear Fp Fn; simpl; f_equal; unfold va_off; simpl.
  assert (in_w 40 (pa / 4096)) by (unfold in_w in *; Z.div_mod_to_equations; lia).
  rewrite land_fff, shiftr12, (wrap_id 40) by assumption.
  rewrite lor_shiftl_add by auto with word.
  unfold wrap; change (2 ^ 12) with 4096; Z.div_mod_to_equations; lia.
Qed.

Lemma virtual_map_spec s root pa va rw nx us pwt pcd pat pk :
  pt_inv s root -> in_w 52 pa -> pa mod 4096 = 0 -> va mod 4096 = 0 ->
  is_canonical va = true ->
  exists b s', virtual_map root pa va rw nx us pwt pcd pat pk true s = Ret b s' /\
    pt_inv s' root /\ same_globals s s' /\
    (forall va', virtual_to_physical (mem s') root va' =
       if b && is_canonical va' && (page_number va' =? page_number va)
       then (true, pa + va' mod 4096)
       else virtual_to_physical (mem s) root va') /\
    (if b then exists e,
       leaf_entry (mem s') root (va_path va) (va_leaf va) =
         leaf_value e pa true rw nx us pwt pcd pat pk /\
       hd_error (invlpg_log s') = Some va
     else forall q, ~ free_frame s' q) /\
    (forall q, free_frame s' q -> free_frame s q).
Proof.
  intros Hinv Hpa Hpm Hvm Hc; rewrite virtual_map_eq by assumption.
  destruct (map_upper_spec s root va rw nx us Hinv) as ([t|] & s1 & E1 & I1 & G1 & [L1 F1] & T1);
    erewrite K_bind_Ret by exact E1.
  - destruct (map_page_run t (va_leaf va) pa true rw nx us pwt pcd pat pk s1) as (s2 & E2 & W2).
    destruct (va_path_ok va) as [Hp Hlen]; pose proof (va_leaf_ok va) as Hi.
    destruct (pt_inv_leaf s1 s2 root (va_path va) t (va_leaf va) _ I1 Hp Hlen Hi T1 W2)
      as [I2 [L2 F2]].
    erewrite K_bind_Ret by exact E2; exists true, (log_invlpg va s2).
    destruct (pa_frame s2 (log_invlpg va s2) (pi_alloc _ _ I2) eq_refl) as [Ha Hf]; [reflexivity|].
    split; [reflexivity|]; split; [|split; [|split; [|split]]].
    + destruct I2; split; auto; intros; rewrite ?Hf in *; eauto.
    + etransitivity; [exact G1|]; apply W2.
    + intros va'; simpl mem; rewrite !(virtual_to_physical_leaf _ _ va') by assumption.
      destruct (is_canonical va') eqn:Hc'; [simpl|reflexivity].
      destruct (va_path_ok va') as [Hp' Hlen']; pose proof (va_leaf_ok va') as Hi'.
      rewrite L2, L1 by assumption; pose proof (same_indices va' va) as Hs.
      destruct (decide _) as [Hd|Hd], (Z.eqb_spec (page_number va') (page_number va)); try tauto.
      apply mapped_translation; assumption.
    + eexists; split; [|reflexivity]; simpl mem; rewrite L2 by assumption.
      destruct (decide _) as [_|Hd]; [reflexivity|exfalso; apply Hd; auto].
    + intros q Hq; apply F1, F2, Hf, Hq.
  - exists false, s1; split; [reflexivity|]; split; [assumption|]; split; [assumption|].
    split; [|split; assumption]; intros va'; simpl; rewrite !virtual_to_physical_leaf by assumption.
    destruct (is_canonical va') eqn:Hc'; [|reflexivity].
    destruct (va_path_ok va') as [Hp' Hlen']; pose proof (va_leaf_ok va') as Hi'.
    rewrite L1 by assumption; reflexivity.
Qed.


(** ** Theorems *)


(** After a successful [virtual_map] the page table entry of the
    address holds the requested frame number and flags, the protection key cut
    to four bits, and the address was invalidated in the TLB. *)
Theorem virtual_map_entry s root pa va rw nx us pwt pcd pat pk s' :
  pt_inv s root -> in_w 52 pa -> pa mod 4096 = 0 -> va mod 4096 = 0 ->
  is_canonical va = true ->
  virtual_map root pa va rw nx us pwt pcd pat pk true s = Ret true s' ->
  let e := leaf_entry (mem s') root (va_path va) (va_leaf va) in
  get F_ppn e = pa / 4096 /\ get F_p e = 1 /\ get F_rw e = Z.b2z rw /\
  get F_nx e = Z.b2z nx /\ get F_us e = Z.b2z us /\ get F_pwt e = Z.b2z pwt /\
  get F_pcd e = Z.b2z pcd /\ get F_pat e = Z.b2z pat /\ get F_pk e = wrap 4 pk /\
  hd_error (invlpg_log s') = Some va.
Proof.
  intros Hinv Hpa Hpm Hvm Hc Hrun.
  destruct (virtual_map_spec s root pa va rw nx us pwt pcd pat pk)
    as (b & s1 & E & I & G & T & F & _); auto; rewrite Hrun in E; injection E as <- <-.
  destruct F as (e & -> & Hlog); cbv zeta.
  destruct (leaf_value_fields e pa true rw nx us pwt pcd pat pk)
    as (-> & -> & -> & -> & -> & -> & -> & -> & ->).
  rewrite shiftr12, wrap_id by (unfold in_w in *; Z.div_mod_to_equations; lia); auto 12.
Qed.

(** Splitting an address into its page table indexes and putting
    it together again is the identity, in both directions. *)
Theorem virtual_address_roundtrip va a :
  (in_w 64 va -> structure_to_virtual_address (split_virtual_address_to_structure va) = va) /\
  (in_range a -> split_virtual_address_to_structure (structure_to_virtual_address a) = a).
Proof. split; [apply split_structure|apply structure_split]. Qed.

(** The canonical-form test looks at the top 16 bits only:
    every 48-bit address passes it, those with bit 47 set included, which the
    processor rejects, and translates like its sign-extended twin. *)
Theorem canonical_check_ignores_bit_47 m root va :
  in_w 48 va ->
  is_canonical va = true /\
  virtual_to_physical m root va = virtual_to_physical m root (va + 0xffff000000000000).
Proof.
  intros Hva; assert (E48 : Z.shiftr va 48 = 0)
    by (rewrite Z.shiftr_div_pow2 by lia; apply Z.div_small; exact Hva).
  assert (Esum : va + 0xffff000000000000 = Z.lor (Z.shiftl 0xffff 48) va)
    by (rewrite lor_shiftl_add by (auto; lia); lia).
  assert (E1 : Z.shiftr (va + 0xffff000000000000) 48 = 0xffff).
  { rewrite Esum; apply Z.bits_inj'; intros i Hi; bits_simpl.
    rewrite orb_false_r; f_equal; lia. }
  assert (Ei : forall n k, 0 <= n -> 0 <= k -> n + k <= 48 ->
    wrap k (Z.shiftr (va + 0xffff000000000000) n) = wrap k (Z.shiftr va n)).
  { intros n k Hn Hk Hnk; rewrite Esum; bitwise. }
  unfold is_canonical; split; [rewrite E48; reflexivity|].
  unfold virtual_to_physical, is_canonical; rewrite E48, E1.
  unfold split_virtual_address_to_structure; cbn [va_pml4 va_pdp va_pd va_pt va_offset].
  rewrite !land_1ff, !land_fff, !Ei by lia.
  pose proof (Ei 0 12) as E0; rewrite !Z.shiftr_0_r in E0; rewrite E0 by lia; reflexivity.
Qed.

End Virtual.

(** ** Witnesses: an empty page map beside five free pages *)

Module Demo.
#[local] Existing Instance PhysMem.Demo.boot.

Definition root : Z := 0xffff800000030000.

Definition s0 : kstate :=
  mk_kstate
    (upd (upd (upd (fun _ => 0)
      (size_field 0xffff800000001000) 0x3000)
      (size_field 0xffff800000010000) 0x2000)
      (next_field 0xffff800000010000) 0xffff800000001000)
    0xffff800000010000 0 0 root 0 0 0 [].

Lemma s0_free : free_inv s0 PhysMem.Demo.l1.
Proof.
  destruct PhysMem.Demo.s1_inv as [Hh _ Hok Hd]; split; auto.
  vm_compute; repeat split.
Qed.

Lemma s0_zero i : valid_index i -> mem s0 (entry_addr root i) = 0.
Proof.
  intros Hi; rewrite entry_addr_ok;
    [|unfold table_ok, root; split; [reflexivity|split; [reflexivity|discriminate]]|assumption].
  unfold valid_index in Hi; unfold s0, upd, next_field, root; cbn [mem].
  change (size_field 0xffff800000001000) with 0xffff800000001008.
  change (size_field 0xffff800000010000) with 0xffff800000010008.
  repeat match goal with |- context [?x =? ?y] => destruct (Z.eqb_spec x y) end; lia.
Qed.

Lemma s0_table path t : table_path path -> table_at (mem s0) root path = Some t ->
  path = [] /\ t = root.
Proof.
  intros [_ Hv]; destruct path as [|i path]; cbn [table_at]; [intros [= <-]; auto|].
  apply Forall_cons in Hv as [Hi _]; unfold next_table; rewrite s0_zero by assumption.
  unfold get; rewrite bf_get_0; discriminate.
Qed.

Lemma s0_not_free : ~ free_frame s0 root.
Proof.
  intros H; apply (phys_free_frame_iff s0 _ root s0_free) in H as [_ H].
  unfold PhysMem.Demo.l1 in H; repeat (apply free_addr_cons in H as [H|H]).
  - destruct H as [_ H]; vm_compute in H; discriminate.
  - destruct H as [_ H]; vm_compute in H; discriminate.
  - inversion H.
Qed.

Lemma s0_limit q : free_frame s0 q -> q - get_higher_half_memory_offset < 2 ^ 52.
Proof.
  intros H; apply (phys_free_frame_iff s0 _ q s0_free) in H as [_ H].
  unfold PhysMem.Demo.l1 in H; change get_higher_half_memory_offset with 0xffff800000000000.
  repeat (apply free_addr_cons in H as [H|H]); [unfold in_chunk in H; simpl in H; lia..|].
  inversion H.
Qed.

Lemma s0_inv : pt_inv s0 root.
Proof.
  split.
  - exists PhysMem.Demo.l1; exact s0_free.
  - split; [vm_compute; discriminate|reflexivity].
  - exact s0_limit.
  - intros path t Hp Ht; destruct (s0_table path t Hp Ht) as [-> ->].
    split; [|exact s0_not_free].
    unfold table_ok, root; split; [reflexivity|split; [reflexivity|discriminate]].
  - intros p1 p2 t H1 H2 E1 E2.
    destruct (s0_table p1 t H1 E1), (s0_table p2 t H2 E2); congruence.
  - intros path t i Hp Ht; destruct (table_path_snoc _ _ Hp) as [Hp' Hi].
    destruct (s0_table path t Hp' Ht) as [-> ->]; rewrite s0_zero by assumption.
    unfold get; rewrite !bf_get_0; tauto.
Qed.


(** The same run, evaluated: three tables are allocated and the page is mapped. *)
Example map_then_translate :
  match virtual_map root 0x5000 0x10000 true true false true true false 0 true s0 with
  | Ret b s' => (b, virtual_to_physical (mem s') root 0x10123,
      virtual_to_physical (mem s') root 0x11000, invlpg_log s') =
      (true, (true, 0x5123), (false, 0), [0x10000])
  | Halted _ => False
  end.
Proof. vm_compute; reflexivity. Qed.

Definition s1 : kstate :=
  PhysMem.Demo.run (virtual_map root 0x5000 0x10000 true true false true true false 0x1f true) s0.

Lemma s1_ran :
  virtual_map root 0x5000 0x10000 true true false true true false 0x1f true s0 = Ret true s1.
Proof.
  assert (H : match virtual_map root 0x5000 0x10000 true true false true true false 0x1f true s0
    with Ret b _ => b = true | Halted _ => False end) by (vm_compute; reflexivity).
  unfold s1, PhysMem.Demo.run; destruct (virtual_map _ _ _ _ _ _ _ _ _ _ _ s0); [|contradiction].
  rewrite H; reflexivity.
Qed.

Lemma virtual_map_entry_witness :
  get F_ppn (leaf_entry (mem s1) root (va_path 0x10000) (va_leaf 0x10000)) = 5 /\
  get F_pk (leaf_entry (mem s1) root (va_path 0x10000) (va_leaf 0x10000)) = 15.
Proof.
  destruct (virtual_map_entry s0 root 0x5000 0x10000 true true false true true false 0x1f s1 s0_inv)
    as (H1 & _ & _ & _ & _ & _ & _ & _ & H2 & _); try exact s1_ran; try reflexivity.
  - split; [vm_compute; discriminate|reflexivity].
  - split; [exact H1|exact H2].
Defined.

(** With [is_present] off, the tables above the page are marked absent too: other pages
    that they lead to are not translated any more. *)
Definition s2 : kstate :=
  PhysMem.Demo.run (virtual_map root 0x6000 0x11000 true true false true true false 0 false) s1.
Theorem absent_page_hides_others :
  (fst (virtual_to_physical (mem s1) root 0x10000), fst (virtual_to_physical (mem s2) root 0x10000)) = (true, false).
Proof. vm_compute; reflexivity. Qed.

Lemma virtual_address_roundtrip_witness :
  structure_to_virtual_address (split_virtual_address_to_structure 0xffff800012345678) =
  0xffff800012345678.
Proof.
  apply (virtual_address_roundtrip 0xffff800012345678
    (split_virtual_address_to_structure 0)); split; [vm_compute; discriminate|reflexivity].
Defined.

Lemma canonical_check_ignores_bit_47_witness :
  is_canonical 0x0000800000000000 = true /\
  virtual_to_physical (mem s1) root 0x0000800000000000 =
  virtual_to_physical (mem s1) root 0xffff800000000000.
Proof.
  apply (canonical_check_ignores_bit_47 (mem s1) root 0x0000800000000000).
  split; [vm_compute; discriminate|reflexivity].
Defined.

End Demo.
