(* ===== verification/CMem.v ===== *)
(** * Byte memory of the uACPI C sources

    The C code works on bytes behind pointers.  A memory is a finite map from
    addresses to bytes; an access outside the mapped addresses is undefined
    behaviour and has the result [None], so that a theorem that a function
    returns [Some] also says that the function stays inside the objects it is
    given.  [bitat] views a memory as one string of bits (bit k is bit [k mod 8]
    of the byte at [k / 8]), which is how fields address it. *)

From S2P Require Import Prelude.

Open Scope word_scope.

Abbreviation bytes := (gmap Z Z).

Definition load8 (m : bytes) (p : Z) : option Z := m !! p.

Definition store8 (m : bytes) (p v : Z) : option bytes :=
  match m !! p with
  | Some _ => Some (<[p := u8 v]> m)
  | None => None
  end.

(** Little-endian integers of [n] bytes. *)
Fixpoint load_le (m : bytes) (p : Z) (n : nat) : option Z :=
  match n with
  | O => Some 0
  | S n' =>
      b ← load8 m p; v ← load_le m (p + 1) n'; Some (Z.lor b (Z.shiftl v 8))
  end.

Fixpoint store_le (m : bytes) (p : Z) (n : nat) (v : Z) : option bytes :=
  match n with
  | O => Some m
  | S n' => m' ← store8 m p (u8 v); store_le m' (p + 1) n' (Z.shiftr v 8)
  end.

(** ** What the specifications say of a memory *)

Definition bytes_ok (m : bytes) : Prop := forall a b, m !! a = Some b -> in_w 8 b.

(** Every byte of [p, p + n) is mapped. *)
Definition owned (m : bytes) (p n : Z) : Prop :=
  forall a, p <= a < p + n -> is_Some (m !! a).

Definition same_dom (m m' : bytes) : Prop := forall a, is_Some (m !! a) <-> is_Some (m' !! a).

Definition bitat (m : bytes) (k : Z) : bool :=
  match m !! (k / 8) with
  | Some b => Z.testbit b (k mod 8)
  | None => false
  end.

Definition within (lo n x : Z) : bool := (lo <=? x) && (x <? lo + n).

Definition apart (p n q k : Z) : Prop := p + n <= q \/ q + k <= p.

#[export] Instance owned_dec m p n : Decision (owned m p n).
Proof.
  destruct (decide (Forall (fun a => is_Some (m !! a)) (seqZ p n))) as [H|H]; [left|right].
  - intros a Ha; rewrite Forall_forall in H; apply H, elem_of_seqZ; lia.
  - intros Ho; apply H, Forall_forall; intros a Ha; apply Ho; apply elem_of_seqZ in Ha; lia.
Defined.

#[export] Instance bytes_ok_dec m : Decision (bytes_ok m).
Proof. apply (map_Forall_dec (fun _ b => in_w 8 b)). Defined.

#[export] Instance same_dom_equiv : Equivalence same_dom.
Proof.
  split; red; unfold same_dom; [tauto|intros; symmetry; auto|].
  intros x y z H1 H2 a; rewrite H1; apply H2.
Qed.

#[export] Instance owned_proper : Proper (same_dom ==> eq ==> eq ==> iff) owned.
Proof.
  intros m m' H p _ <- n _ <-; split; intros Ho a Ha; apply H, Ho, Ha.
Qed.

Lemma within_spec lo n x : within lo n x = true <-> lo <= x < lo + n.
Proof. unfold within; rewrite andb_true_iff, Z.leb_le, Z.ltb_lt; tauto. Qed.

Lemma withinP lo n x : reflect (lo <= x < lo + n) (within lo n x).
Proof. apply iff_reflect; symmetry; apply within_spec. Qed.

(** Case analysis on the ranges of a goal. *)
Ltac range_cases :=
  repeat match goal with
  | |- context [within ?lo ?n ?x] => destruct (withinP lo n x); try lia
  end.

Create HintDb cmem discriminated.

Lemma owned_sub m p n q k : owned m p n -> p <= q -> q + k <= p + n -> owned m q k.
Proof. intros H H1 H2 a Ha; apply H; lia. Qed.

Lemma owned_head m p n : owned m p n -> 0 < n -> is_Some (m !! p).
Proof. intros H Hn; apply H; lia. Qed.

Lemma load8_owned m p n a : owned m p n -> p <= a < p + n -> exists b, load8 m a = Some b.
Proof. intros H Ha; destruct (H a Ha) as [b Hb]; eauto. Qed.

Lemma store8_owned m p n a v :
  owned m p n -> p <= a < p + n -> store8 m a v = Some (<[a := u8 v]> m).
Proof. intros H Ha; unfold store8; destruct (H a Ha) as [b ->]; reflexivity. Qed.

Lemma same_dom_insert m a v : is_Some (m !! a) -> same_dom m (<[a := v]> m).
Proof.
  intros H b; destruct (decide (a = b)) as [<-|Hne].
  - rewrite lookup_insert_eq; split; intros _; [eexists; reflexivity|assumption].
  - rewrite lookup_insert_ne by assumption; tauto.
Qed.

Lemma bytes_ok_insert m a v : bytes_ok m -> bytes_ok (<[a := u8 v]> m).
Proof.
  intros H b x; destruct (decide (a = b)) as [<-|Hne].
  - rewrite lookup_insert_eq; intros [= <-]; auto with word.
  - rewrite lookup_insert_ne by assumption; apply H.
Qed.

Lemma lookup_upd (m : bytes) a v b :
  <[a := v]> m !! b = if b =? a then Some v else m !! b.
Proof.
  destruct (Z.eqb_spec b a) as [->|Hne]; [apply lookup_insert_eq|].
  apply lookup_insert_ne; congruence.
Qed.

#[export] Hint Resolve same_dom_insert bytes_ok_insert owned_head : cmem.

(** A memory is determined by its domain and its bits. *)
Lemma bytes_bits_ext m m' :
  bytes_ok m -> bytes_ok m' -> same_dom m m' -> (forall k, bitat m k = bitat m' k) -> m = m'.
Proof.
  intros H1 H2 Hd Hb; apply map_eq; intros a.
  specialize (Hd a); destruct (m !! a) as [x|] eqn:E, (m' !! a) as [y|] eqn:E'.
  - f_equal; apply Z.bits_inj'; intros i Hi; destruct (Z.lt_ge_cases i 8).
    + specialize (Hb (8 * a + i)); unfold bitat in Hb.
      replace ((8 * a + i) / 8) with a in Hb by (Z.div_mod_to_equations; lia).
      replace ((8 * a + i) mod 8) with i in Hb by (Z.div_mod_to_equations; lia).
      rewrite E, E' in Hb; exact Hb.
    + rewrite (testbit_in_w 8 x), (testbit_in_w 8 y) by (eauto; lia); reflexivity.
  - destruct (proj1 Hd); [eexists; reflexivity|discriminate].
  - destruct (proj2 Hd); [eexists; reflexivity|discriminate].
  - reflexivity.
Qed.

Lemma bitat_at m a i b : 0 <= i < 8 -> m !! a = Some b -> bitat m (8 * a + i) = Z.testbit b i.
Proof.
  intros Hi E; unfold bitat.
  replace ((8 * a + i) / 8) with a by (Z.div_mod_to_equations; lia).
  replace ((8 * a + i) mod 8) with i by (Z.div_mod_to_equations; lia).
  rewrite E; reflexivity.
Qed.

Lemma bitat_in m a b x : m !! a = Some b -> 8 * a <= x < 8 * a + 8 ->
  bitat m x = Z.testbit b (x - 8 * a).
Proof.
  intros E Hx; rewrite <- (bitat_at m a (x - 8 * a) b) by (auto; lia); f_equal; lia.
Qed.

Lemma bitat_insert m a v k : is_Some (m !! a) ->
  bitat (<[a := v]> m) k =
  if within (8 * a) 8 k then Z.testbit v (k - 8 * a) else bitat m k.
Proof.
  intros Ha; unfold bitat; rewrite lookup_upd.
  destruct (withinP (8 * a) 8 k) as [H|H], (Z.eqb_spec (k / 8) a) as [E|E];
    try (Z.div_mod_to_equations; lia); [|reflexivity].
  f_equal; Z.div_mod_to_equations; lia.
Qed.

(** A pointwise copy of bytes is a copy of bits. *)
Lemma bitat_copy (m m' : bytes) d s n :
  (forall a, m' !! a = if within d n a then m !! (s + (a - d)) else m !! a) ->
  forall k, bitat m' k =
    if within (8 * d) (8 * n) k then bitat m (8 * s + (k - 8 * d)) else bitat m k.
Proof.
  intros H k; unfold bitat; rewrite H.
  destruct (withinP (8 * d) (8 * n) k), (withinP d n (k / 8));
    try (Z.div_mod_to_equations; lia); [|reflexivity].
  replace ((8 * s + (k - 8 * d)) / 8) with (s + (k / 8 - d)) by (Z.div_mod_to_equations; lia).
  replace ((8 * s + (k - 8 * d)) mod 8) with (k mod 8) by (Z.div_mod_to_equations; lia).
  reflexivity.
Qed.

(** ** Little-endian integers, bit by bit *)

Lemma load_le_bits m n : bytes_ok m -> forall p, owned m p (Z.of_nat n) ->
  exists v, load_le m p n = Some v /\ in_w (8 * Z.of_nat n) v /\
    forall i, 0 <= i -> Z.testbit v i = (i <? 8 * Z.of_nat n) && bitat m (8 * p + i).
Proof.
  intros Hok; induction n as [|n IH]; intros p Ho; simpl load_le.
  - exists 0; split; [reflexivity|split; [split; simpl; lia|]].
    intros i Hi; rewrite Z.testbit_0_l; destruct (Z.ltb_spec i (8 * Z.of_nat 0)); [lia|reflexivity].
  - destruct (Ho p) as [b Hb]; [lia|]; unfold load8; rewrite Hb; cbn [mbind option_bind].
    destruct (IH (p + 1)) as (v & -> & Hv & Hbits).
    { apply (owned_sub _ _ _ _ _ Ho); lia. }
    cbn [mbind option_bind]; exists (Z.lor b (Z.shiftl v 8)); split; [reflexivity|].
    assert (Hbw : in_w 8 b) by eauto.
    assert (Hbit : forall i, 0 <= i -> Z.testbit (Z.lor b (Z.shiftl v 8)) i =
      (i <? 8 * Z.of_nat (S n)) && bitat m (8 * p + i)).
    { intros i Hi; bits_simpl; destruct (Z.lt_ge_cases i 8).
      - rewrite (bitat_at m p i b) by (auto; lia); bits_simpl.
        destruct (Z.ltb_spec i (8 * Z.of_nat (S n))); [apply orb_false_r|lia].
      - rewrite (testbit_in_w 8 b) by (auto; lia); simpl orb; rewrite Hbits by lia.
        replace (8 * (p + 1) + (i - 8)) with (8 * p + i) by lia.
        destruct (Z.ltb_spec (i - 8) (8 * Z.of_nat n)),
          (Z.ltb_spec i (8 * Z.of_nat (S n))); try lia; reflexivity. }
    split; [|exact Hbit].
    apply in_w_of_testbit; [lia| |].
    + destruct Hv, Hbw; apply Z.lor_nonneg; split; [lia|apply Z.shiftl_nonneg; lia].
    + intros i Hi; rewrite Hbit by lia.
      destruct (Z.ltb_spec i (8 * Z.of_nat (S n))); [lia|reflexivity].
Qed.

Lemma store_le_spec n : forall m p v, owned m p (Z.of_nat n) ->
  exists m', store_le m p n v = Some m' /\ same_dom m m' /\ (bytes_ok m -> bytes_ok m') /\
    forall k, bitat m' k =
      if within (8 * p) (8 * Z.of_nat n) k then Z.testbit v (k - 8 * p) else bitat m k.
Proof.
  induction n as [|n IH]; intros m p v Ho; simpl store_le.
  - exists m; split; [reflexivity|split; [reflexivity|split; [auto|]]].
    intros k; range_cases; reflexivity.
  - rewrite (store8_owned _ _ _ _ _ Ho) by lia; cbn [mbind option_bind].
    assert (Hp : is_Some (m !! p)) by (apply Ho; lia).
    destruct (IH (<[p := u8 (u8 v)]> m) (p + 1) (Z.shiftr v 8)) as (m' & E & Hd & Hok & Hb).
    { rewrite <- (same_dom_insert m p _ Hp); apply (owned_sub _ _ _ _ _ Ho); lia. }
    exists m'; split; [exact E|split; [|split]].
    + etransitivity; [apply same_dom_insert, Hp|exact Hd].
    + auto with cmem.
    + intros k; rewrite Hb, bitat_insert by assumption.
      range_cases; bits_simpl; try reflexivity; [f_equal; lia|].
      bool_cases; reflexivity.
Qed.
