(* ===== verification/UStdlib.v ===== *)
(** * acpi/uacpi/stdlib.c: memory, strings and bit scans

    The freestanding C library of uACPI: the byte loops of memcpy, memmove,
    memset, memcmp, strlen, strnlen and strcmp, memcpy_zerout, the bit scans and
    the zeroing allocator.  (vsnprintf is in [UFormat].)  Loops that count are
    recursions on the count; the scans for a NUL get one more step than there
    are mapped bytes, which is enough, since every step reads a new byte. *)

From S2P Require Import Prelude CMem.

Open Scope word_scope.

(** ** The operations *)

Fixpoint copy_up (n : nat) (m : bytes) (cd cs : Z) : option bytes :=
  match n with
  | O => Some m
  | S n' => c ← load8 m cs; m' ← store8 m cd c; copy_up n' m' (cd + 1) (cs + 1)
  end.

Fixpoint copy_down (n : nat) (m : bytes) (cd cs : Z) : option bytes :=
  match n with
  | O => Some m
  | S n' => c ← load8 m (cs - 1); m' ← store8 m (cd - 1) c; copy_down n' m' (cd - 1) (cs - 1)
  end.

Definition uacpi_memcpy (m : bytes) (dest src count : Z) : option bytes :=
  copy_up (Z.to_nat count) m dest src.

Definition uacpi_memmove (m : bytes) (dest src count : Z) : option bytes :=
  if src <? dest
  then copy_down (Z.to_nat count) m (dest + count) (src + count)
  else copy_up (Z.to_nat count) m dest src.

Fixpoint fill_up (n : nat) (m : bytes) (cdest fill : Z) : option bytes :=
  match n with
  | O => Some m
  | S n' => m' ← store8 m cdest fill; fill_up n' m' (cdest + 1) fill
  end.

Definition uacpi_memset (m : bytes) (dest ch count : Z) : option bytes :=
  fill_up (Z.to_nat count) m dest (u8 ch).

Definition uacpi_memzero (m : bytes) (dest count : Z) : option bytes :=
  uacpi_memset m dest 0 count.

Fixpoint memcmp_from (n : nat) (m : bytes) (lhs rhs : Z) : option Z :=
  match n with
  | O => Some 0
  | S n' =>
      a ← load8 m lhs; b ← load8 m rhs;
      if negb (a =? b) then Some (a - b) else memcmp_from n' m (lhs + 1) (rhs + 1)
  end.

Definition uacpi_memcmp (m : bytes) (lhs rhs count : Z) : option Z :=
  memcmp_from (Z.to_nat count) m lhs rhs.

Fixpoint strlen_from (fuel : nat) (m : bytes) (str str1 : Z) : option Z :=
  match fuel with
  | O => None
  | S fuel' =>
      c ← load8 m str1;
      if c =? 0 then Some (str1 - str) else strlen_from fuel' m str (str1 + 1)
  end.

Definition scan_fuel (m : bytes) : nat := S (size m).

Definition uacpi_strlen (m : bytes) (str : Z) : option Z :=
  strlen_from (scan_fuel m) m str str.

(** [max-- && *str1]: when [max] is 0 nothing is read. *)
Fixpoint strnlen_from (max : nat) (m : bytes) (str str1 : Z) : option Z :=
  match max with
  | O => Some (str1 - str)
  | S max' =>
      c ← load8 m str1;
      if c =? 0 then Some (str1 - str) else strnlen_from max' m str (str1 + 1)
  end.

Definition uacpi_strnlen (m : bytes) (str max : Z) : option Z :=
  strnlen_from (Z.to_nat max) m str str.

Fixpoint strcmp_from (fuel : nat) (m : bytes) (lhs rhs : Z) : option Z :=
  match fuel with
  | O => None
  | S fuel' =>
      a ← load8 m lhs;
      if a =? 0 then b ← load8 m rhs; Some (a - b) else
      b ← load8 m rhs;
      if b =? 0 then Some (a - b)
      else if negb (a =? b) then Some (a - b)
      else strcmp_from fuel' m (lhs + 1) (rhs + 1)
  end.

Definition uacpi_strcmp (m : bytes) (lhs rhs : Z) : option Z :=
  strcmp_from (scan_fuel m) m lhs rhs.

Definition uacpi_memcpy_zerout (m : bytes) (dst src dst_size src_size : Z) : option bytes :=
  let bytes_to_copy := Z.min src_size dst_size in
  m1 ← (if negb (bytes_to_copy =? 0) then uacpi_memcpy m dst src bytes_to_copy else Some m);
  if bytes_to_copy <? dst_size
  then uacpi_memzero m1 (dst + bytes_to_copy) (dst_size - bytes_to_copy)
  else Some m1.

(** gcc's [__builtin_ffsll] and [__builtin_clzll]. *)
Fixpoint pos_ctz (p : positive) : Z :=
  match p with xO p' => 1 + pos_ctz p' | _ => 0 end.

Definition builtin_ffsll (v : Z) : Z :=
  match v with Zpos p => 1 + pos_ctz p | _ => 0 end.

Definition builtin_clzll (v : Z) : Z := 63 - Z.log2 v.

Definition uacpi_bit_scan_forward (value : Z) : Z := builtin_ffsll value.

Definition uacpi_bit_scan_backward (value : Z) : Z :=
  if value =? 0 then 0 else 64 - builtin_clzll value.

(** The kernel's allocator returns the address of a fresh object and the memory
    with it, or nothing; [uacpi_kernel_alloc] is the host's. *)
Definition uacpi_builtin_alloc_zeroed
    (uacpi_kernel_alloc : bytes -> Z -> option (Z * bytes)) (m : bytes) (size : Z) :
    option (option Z * bytes) :=
  match uacpi_kernel_alloc m size with
  | None => Some (None, m)
  | Some (ptr, m1) => m2 ← uacpi_memzero m1 ptr size; Some (Some ptr, m2)
  end.

(** ** Copies *)

(** The memory after [count] bytes at [src] have been copied to [dest]. *)
Definition copied (m m' : bytes) (dest src count : Z) : Prop :=
  forall a, m' !! a = if within dest count a then m !! (src + (a - dest)) else m !! a.

Definition filled (m m' : bytes) (dest v count : Z) : Prop :=
  forall a, m' !! a = if within dest count a then Some v else m !! a.

Lemma copied_same_dom m m' d s n :
  copied m m' d s n -> owned m d n -> owned m s n -> same_dom m m'.
Proof.
  intros H Hd Hs a; rewrite H; range_cases; [|tauto].
  split; intros _; [apply Hs|apply Hd]; lia.
Qed.

Lemma copied_ok m m' d s n : copied m m' d s n -> bytes_ok m -> bytes_ok m'.
Proof. intros H Hok a b; rewrite H; destruct (within d n a); apply Hok. Qed.

Lemma filled_same_dom m m' d v n : filled m m' d v n -> owned m d n -> same_dom m m'.
Proof.
  intros H Hd a; rewrite H; range_cases; [|tauto].
  split; intros _; [eexists; reflexivity|apply Hd; lia].
Qed.

Lemma filled_ok m m' d v n : filled m m' d v n -> in_w 8 v -> bytes_ok m -> bytes_ok m'.
Proof.
  intros H Hv Hok a b; rewrite H; destruct (within d n a); [intros [= <-]; exact Hv|apply Hok].
Qed.

#[export] Hint Resolve copied_same_dom copied_ok filled_same_dom filled_ok : cmem.

(** Writing the byte first or last in a copy. *)
Lemma copied_step_up m m' d s n c :
  m !! s = Some c -> d <= s \/ s + n < d -> 0 <= n ->
  copied (<[d := c]> m) m' (d + 1) (s + 1) n -> copied m m' d s (n + 1).
Proof.
  intros Hc Hds Hn H a; rewrite H, !lookup_upd.
  range_cases; destruct (Z.eqb_spec a d) as [->|]; try lia; try reflexivity.
  - destruct (Z.eqb_spec (s + 1 + (a - (d + 1))) d); [lia|f_equal; lia].
  - rewrite Z.sub_diag, Z.add_0_r; symmetry; exact Hc.
Qed.

Lemma copied_step_down m m' d s n c :
  m !! (s + n) = Some c -> s < d -> 0 <= n ->
  copied (<[d + n := c]> m) m' d s n -> copied m m' d s (n + 1).
Proof.
  intros Hc Hds Hn H a; rewrite H, !lookup_upd.
  range_cases; destruct (Z.eqb_spec a (d + n)) as [->|]; try lia; try reflexivity.
  - destruct (Z.eqb_spec (s + (a - d)) (d + n)); [lia|reflexivity].
  - replace (s + (d + n - d)) with (s + n) by lia; symmetry; exact Hc.
Qed.

Lemma copy_up_spec n : forall m d s,
  bytes_ok m -> owned m d (Z.of_nat n) -> owned m s (Z.of_nat n) ->
  d <= s \/ s + Z.of_nat n <= d ->
  exists m', copy_up n m d s = Some m' /\ copied m m' d s (Z.of_nat n).
Proof.
  induction n as [|n IH]; intros m d s Hok Hd Hs Hds; simpl copy_up.
  - exists m; split; [reflexivity|intros a; range_cases; reflexivity].
  - destruct (Hs s) as [c Hc]; [lia|]; unfold load8; rewrite Hc; cbn [mbind option_bind].
    rewrite (store8_owned _ _ _ _ _ Hd) by lia; cbn [mbind option_bind].
    rewrite (wrap_id 8 c) by eauto.
    assert (Hdom : same_dom m (<[d := c]> m)) by (apply same_dom_insert, Hd; lia).
    destruct (IH (<[d := c]> m) (d + 1) (s + 1)) as (m' & E & Hcp); [| | |lia|].
    + rewrite <- (wrap_id 8 c) by eauto; apply bytes_ok_insert, Hok.
    + rewrite <- Hdom; eapply owned_sub; [exact Hd|lia..].
    + rewrite <- Hdom; eapply owned_sub; [exact Hs|lia..].
    + exists m'; split; [exact E|].
      rewrite Nat2Z.inj_succ, <- Z.add_1_r.
      apply (copied_step_up _ _ _ _ _ c); auto; lia.
Qed.

Lemma copy_down_spec n : forall m d s,
  bytes_ok m -> owned m d (Z.of_nat n) -> owned m s (Z.of_nat n) -> s < d ->
  exists m', copy_down n m (d + Z.of_nat n) (s + Z.of_nat n) = Some m' /\
    copied m m' d s (Z.of_nat n).
Proof.
  induction n as [|n IH]; intros m d s Hok Hd Hs Hds; simpl copy_down.
  - exists m; split; [reflexivity|intros a; range_cases; reflexivity].
  - replace (s + Z.of_nat (S n) - 1) with (s + Z.of_nat n) by lia.
    replace (d + Z.of_nat (S n) - 1) with (d + Z.of_nat n) by lia.
    destruct (Hs (s + Z.of_nat n)) as [c Hc]; [lia|]; unfold load8; rewrite Hc.
    cbn [mbind option_bind]; rewrite (store8_owned _ _ _ _ _ Hd) by lia.
    cbn [mbind option_bind]; rewrite (wrap_id 8 c) by eauto.
    assert (Hdom : same_dom m (<[d + Z.of_nat n := c]> m)) by (apply same_dom_insert, Hd; lia).
    destruct (IH (<[d + Z.of_nat n := c]> m) d s) as (m' & E & Hcp); [| | |lia|].
    + rewrite <- (wrap_id 8 c) by eauto; apply bytes_ok_insert, Hok.
    + rewrite <- Hdom; eapply owned_sub; [exact Hd|lia..].
    + rewrite <- Hdom; eapply owned_sub; [exact Hs|lia..].
    + exists m'; split; [exact E|].
      rewrite Nat2Z.inj_succ, <- Z.add_1_r.
      apply (copied_step_down _ _ _ _ _ c); auto; lia.
Qed.

Lemma memcpy_spec m d s n :
  bytes_ok m -> 0 <= n -> owned m d n -> owned m s n -> d <= s \/ s + n <= d ->
  exists m', uacpi_memcpy m d s n = Some m' /\ copied m m' d s n.
Proof.
  intros; unfold uacpi_memcpy.
  rewrite <- (Z2Nat.id n) in * by lia; rewrite Nat2Z.id; apply copy_up_spec; auto.
Qed.

Lemma memmove_spec m d s n :
  bytes_ok m -> 0 <= n -> owned m d n -> owned m s n ->
  exists m', uacpi_memmove m d s n = Some m' /\ copied m m' d s n.
Proof.
  intros; unfold uacpi_memmove; destruct (Z.ltb_spec s d).
  - rewrite <- (Z2Nat.id n) in * by lia; rewrite Nat2Z.id; apply copy_down_spec; auto.
  - apply memcpy_spec; auto.
Qed.

Lemma fill_up_spec n : forall m d v, in_w 8 v -> owned m d (Z.of_nat n) ->
  exists m', fill_up n m d v = Some m' /\ filled m m' d v (Z.of_nat n).
Proof.
  induction n as [|n IH]; intros m d v Hv Hd; simpl fill_up.
  - exists m; split; [reflexivity|intros a; range_cases; reflexivity].
  - rewrite (store8_owned _ _ _ _ _ Hd) by lia; cbn [mbind option_bind].
    rewrite (wrap_id 8 v) by assumption.
    destruct (IH (<[d := v]> m) (d + 1) v) as (m' & E & Hf); [assumption| |].
    + rewrite <- (same_dom_insert m d v) by (apply Hd; lia).
      eapply owned_sub; [exact Hd|lia..].
    + exists m'; split; [exact E|]; intros a; rewrite Hf, lookup_upd.
      range_cases; destruct (Z.eqb_spec a d); try lia; reflexivity.
Qed.

Lemma memset_spec m d v n : 0 <= n -> owned m d n ->
  exists m', uacpi_memset m d v n = Some m' /\ filled m m' d (u8 v) n.
Proof.
  intros Hn Hd; unfold uacpi_memset.
  rewrite <- (Z2Nat.id n) in * by lia; rewrite Nat2Z.id; apply fill_up_spec; auto with word.
Qed.

Lemma memzero_spec m d n : 0 <= n -> owned m d n ->
  exists m', uacpi_memzero m d n = Some m' /\ filled m m' d 0 n.
Proof. apply memset_spec. Qed.

(** The memory after [memcpy_zerout]: [min(src_size, dst_size)] bytes copied, the
    rest of the destination zeroed. *)
Definition zero_extended (m m' : bytes) (d s dn sn : Z) : Prop :=
  forall a, m' !! a =
    if within d dn a then (if a - d <? sn then m !! (s + (a - d)) else Some 0) else m !! a.

Lemma memcpy_zerout_spec m d s dn sn :
  bytes_ok m -> 0 <= dn -> 0 <= sn -> owned m d dn -> owned m s (Z.min sn dn) ->
  d <= s \/ s + Z.min sn dn <= d ->
  exists m', uacpi_memcpy_zerout m d s dn sn = Some m' /\ zero_extended m m' d s dn sn /\
    same_dom m m' /\ bytes_ok m'.
Proof.
  intros Hok Hdn Hsn Hd Hs Hds; unfold uacpi_memcpy_zerout; set (k := Z.min sn dn) in *.
  assert (exists m1, (if negb (k =? 0) then uacpi_memcpy m d s k else Some m) = Some m1 /\
    copied m m1 d s k) as (m1 & -> & H1).
  { destruct (Z.eqb_spec k 0) as [E|E]; simpl.
    - exists m; split; [reflexivity|]; intros a; range_cases; reflexivity.
    - apply memcpy_spec; auto; [lia|eapply owned_sub; [exact Hd|lia..]]. }
  assert (D1 : same_dom m m1)
    by (eapply copied_same_dom; [exact H1|eapply owned_sub; [exact Hd|lia..]|exact Hs]).
  cbn [mbind option_bind]; destruct (Z.ltb_spec k dn) as [Hk|Hk].
  - destruct (memzero_spec m1 (d + k) (dn - k)) as (m2 & E2 & H2); [lia| |].
    { rewrite <- D1; eapply owned_sub; [exact Hd|lia..]. }
    exists m2; split; [exact E2|split; [|split]].
    + intros a; rewrite H2, H1; range_cases; bool_cases; try reflexivity; lia.
    + etransitivity; [exact D1|]; eapply filled_same_dom; [exact H2|].
      rewrite <- D1; eapply owned_sub; [exact Hd|lia..].
    + eapply filled_ok; [exact H2|auto with word|eauto with cmem].
  - exists m1; split; [reflexivity|split; [|split; [exact D1|eauto with cmem]]].
    intros a; rewrite H1; range_cases; bool_cases; try reflexivity; lia.
Qed.

(** ** Strings *)

(** A NUL-terminated string [s] stored at [p]. *)
Definition cstr (m : bytes) (p : Z) (s : list Z) : Prop :=
  Forall (fun c => c <> 0) s /\
  (forall i c, s !! i = Some c -> m !! (p + Z.of_nat i) = Some c) /\
  m !! (p + Z.of_nat (length s)) = Some 0.

Lemma cstr_nil m p : cstr m p [] -> m !! p = Some 0.
Proof. intros (_ & _ & H); simpl in H; rewrite Z.add_0_r in H; exact H. Qed.

Lemma cstr_cons m p c s : cstr m p (c :: s) -> c <> 0 /\ m !! p = Some c /\ cstr m (p + 1) s.
Proof.
  intros (Hnz & Hi & Hz); apply Forall_cons in Hnz as [Hc Hs].
  split; [exact Hc|split; [|split; [exact Hs|split]]].
  - specialize (Hi 0%nat c eq_refl); rewrite Z.add_0_r in Hi; exact Hi.
  - intros i x Hx; specialize (Hi (S i) x Hx); rewrite <- Hi; f_equal; lia.
  - rewrite <- Hz; f_equal; simpl length; lia.
Qed.

(** Fuel: a run of mapped bytes is no longer than the memory is large. *)
Lemma owned_size m p (n : nat) : owned m p (Z.of_nat n) -> (n <= size m)%nat.
Proof.
  intros Ho; rewrite <- (size_dom (D := gset Z) m).
  assert (Hsub : list_to_set (seqZ p (Z.of_nat n)) ⊆ dom m).
  { intros a; rewrite elem_of_list_to_set, elem_of_seqZ; intros Ha.
    apply elem_of_dom, Ho, Ha. }
  apply subseteq_size in Hsub; rewrite size_list_to_set, length_seqZ in Hsub by apply NoDup_seqZ.
  lia.
Qed.

Lemma cstr_owned m p s : cstr m p s -> owned m p (Z.of_nat (S (length s))).
Proof.
  intros (_ & Hi & Hz) a Ha.
  destruct (decide (a = p + Z.of_nat (length s))) as [->|Hne]; [eexists; exact Hz|].
  destruct (lookup_lt_is_Some_2 s (Z.to_nat (a - p))) as [c Hc]; [lia|].
  exists c; rewrite <- (Hi _ _ Hc); f_equal; lia.
Qed.

Lemma cstr_fuel m p s : cstr m p s -> (length s < scan_fuel m)%nat.
Proof. intros H; apply cstr_owned, owned_size in H; unfold scan_fuel; lia. Qed.

Lemma strlen_from_cstr m s : forall fuel str p, cstr m p s -> (length s < fuel)%nat ->
  strlen_from fuel m str p = Some (p - str + Z.of_nat (length s)).
Proof.
  induction s as [|c s IH]; intros [|fuel] str p Hs Hf; simpl in Hf; try lia; simpl strlen_from.
  - unfold load8; rewrite (cstr_nil _ _ Hs); simpl; f_equal; lia.
  - destruct (cstr_cons _ _ _ _ Hs) as (Hc & Hp & Hs').
    unfold load8; rewrite Hp; cbn [mbind option_bind].
    destruct (Z.eqb_spec c 0); [contradiction|].
    rewrite IH by (auto; lia); f_equal; simpl length; lia.
Qed.

Lemma strlen_cstr m p s : cstr m p s -> uacpi_strlen m p = Some (Z.of_nat (length s)).
Proof.
  intros H; unfold uacpi_strlen.
  rewrite (strlen_from_cstr m s) by eauto using cstr_fuel; f_equal; lia.
Qed.

Lemma strnlen_from_cstr m s : forall max str p, cstr m p s ->
  strnlen_from max m str p = Some (p - str + Z.of_nat (min max (length s))).
Proof.
  induction s as [|c s IH]; intros [|max] str p Hs; simpl strnlen_from; try (f_equal; simpl; lia).
  - unfold load8; rewrite (cstr_nil _ _ Hs); simpl; f_equal; lia.
  - destruct (cstr_cons _ _ _ _ Hs) as (Hc & Hp & Hs').
    unfold load8; rewrite Hp; cbn [mbind option_bind].
    destruct (Z.eqb_spec c 0); [contradiction|].
    rewrite IH by auto; f_equal; simpl length; lia.
Qed.

(** The lexicographic comparison that strcmp computes: the difference of the first
    characters that differ, a string's end counting as 0. *)
Fixpoint lex_diff (s t : list Z) : Z :=
  match s, t with
  | [], [] => 0
  | a :: _, [] => a
  | [], b :: _ => - b
  | a :: s', b :: t' => if a =? b then lex_diff s' t' else a - b
  end.

Lemma lex_diff_0 s t : Forall (fun c => c <> 0) s -> Forall (fun c => c <> 0) t ->
  lex_diff s t = 0 <-> s = t.
Proof.
  revert t; induction s as [|a s IH]; intros [|b t] Hs Ht; simpl;
    try apply Forall_cons in Hs as [Ha Hs]; try apply Forall_cons in Ht as [Hb Ht];
    [tauto|split; [lia|discriminate]|split; [lia|discriminate]|].
  destruct (Z.eqb_spec a b) as [->|Hne].
  - rewrite IH by assumption; split; congruence.
  - split; [lia|congruence].
Qed.

Lemma strcmp_from_cstr m s : forall t fuel p q,
  cstr m p s -> cstr m q t -> (min (length s) (length t) < fuel)%nat ->
  strcmp_from fuel m p q = Some (lex_diff s t).
Proof.
  induction s as [|a s IH]; intros t [|fuel] p q Hs Ht Hf; try lia; simpl strcmp_from.
  - unfold load8; rewrite (cstr_nil _ _ Hs); cbn [mbind option_bind Z.eqb].
    destruct t as [|b t]; [rewrite (cstr_nil _ _ Ht); reflexivity|].
    destruct (cstr_cons _ _ _ _ Ht) as (_ & -> & _); reflexivity.
  - destruct (cstr_cons _ _ _ _ Hs) as (Ha & Hp & Hs').
    unfold load8; rewrite Hp; cbn [mbind option_bind].
    destruct (Z.eqb_spec a 0); [contradiction|]; destruct t as [|b t].
    + rewrite (cstr_nil _ _ Ht); simpl; f_equal; lia.
    + destruct (cstr_cons _ _ _ _ Ht) as (Hb & -> & Ht'); cbn [mbind option_bind].
      destruct (Z.eqb_spec b 0); [contradiction|]; simpl lex_diff.
      destruct (Z.eqb_spec a b); simpl negb; cbv iota; [|reflexivity].
      apply IH; auto; simpl in Hf; lia.
Qed.

Lemma strcmp_cstr m p q s t : cstr m p s -> cstr m q t ->
  uacpi_strcmp m p q = Some (lex_diff s t).
Proof.
  intros Hs Ht; apply strcmp_from_cstr; auto.
  apply cstr_fuel in Hs; lia.
Qed.

(** ** memcmp *)

Lemma memcmp_from_spec n : forall m p q, owned m p (Z.of_nat n) -> owned m q (Z.of_nat n) ->
  exists r, memcmp_from n m p q = Some r /\
    (r = 0 <-> forall i, 0 <= i < Z.of_nat n -> m !! (p + i) = m !! (q + i)).
Proof.
  induction n as [|n IH]; intros m p q Hp Hq; simpl memcmp_from.
  - exists 0; split; [reflexivity|split; [intros _ i Hi; lia|reflexivity]].
  - destruct (Hp p) as [a Ha], (Hq q) as [b Hb]; try lia.
    unfold load8; rewrite Ha, Hb; cbn [mbind option_bind].
    destruct (Z.eqb_spec a b) as [<-|Hne]; cbn [negb].
    + destruct (IH m (p + 1) (q + 1)) as (r & E & Hr);
        [eapply owned_sub; [exact Hp|lia..]|eapply owned_sub; [exact Hq|lia..]|].
      exists r; split; [exact E|]; rewrite Hr; split; intros H i Hi.
      * destruct (decide (i = 0)) as [->|]; [rewrite !Z.add_0_r; congruence|].
        specialize (H (i - 1)); replace (p + 1 + (i - 1)) with (p + i) in H by lia.
        replace (q + 1 + (i - 1)) with (q + i) in H by lia; apply H; lia.
      * specialize (H (i + 1)); replace (p + (i + 1)) with (p + 1 + i) in H by lia.
        replace (q + (i + 1)) with (q + 1 + i) in H by lia; apply H; lia.
    + exists (a - b); split; [reflexivity|split; [lia|]].
      intros H; specialize (H 0); rewrite !Z.add_0_r, Ha, Hb in H.
      assert (Some a = Some b) by (apply H; lia); congruence.
Qed.

(** ** Bit scans *)

Lemma pos_ctz_spec p : 0 <= pos_ctz p /\ Z.testbit (Zpos p) (pos_ctz p) = true /\
  forall i, i < pos_ctz p -> Z.testbit (Zpos p) i = false.
Proof.
  induction p as [p IH|p IH|]; simpl pos_ctz.
  - split; [lia|split; [reflexivity|intros; apply Z.testbit_neg_r; lia]].
  - destruct IH as (H0 & H1 & H2); split; [lia|].
    change (Zpos (xO p)) with (2 * Zpos p); split.
    + rewrite Z.add_1_l, Z.double_bits_succ; exact H1.
    + intros i Hi; destruct (Z.lt_ge_cases i 0); [apply Z.testbit_neg_r; lia|].
      rewrite Z.double_bits; apply H2; lia.
  - split; [lia|split; [reflexivity|intros; apply Z.testbit_neg_r; lia]].
Qed.

Lemma bit_scan_forward_spec v : in_w 64 v ->
  (uacpi_bit_scan_forward v = 0 <-> v = 0) /\
  (v <> 0 -> let r := uacpi_bit_scan_forward v - 1 in
     0 <= r < 64 /\ Z.testbit v r = true /\ forall i, i < r -> Z.testbit v i = false).
Proof.
  intros Hv; unfold uacpi_bit_scan_forward; destruct v as [|p|p]; [| |destruct Hv; lia]; simpl.
  - split; [tauto|congruence].
  - destruct (pos_ctz_spec p) as (H0 & H1 & H2); split; [lia|intros _].
    replace (1 + pos_ctz p - 1) with (pos_ctz p) by lia; split; [|tauto].
    split; [lia|]; destruct (Z.lt_ge_cases (pos_ctz p) 64); [assumption|].
    rewrite (testbit_in_w 64 _ _ Hv) in H1 by lia; discriminate.
Qed.

Lemma bit_scan_backward_spec v : in_w 64 v ->
  (uacpi_bit_scan_backward v = 0 <-> v = 0) /\
  (v <> 0 -> let r := uacpi_bit_scan_backward v in 1 <= r <= 64 /\ 2 ^ (r - 1) <= v < 2 ^ r).
Proof.
  intros Hv; unfold uacpi_bit_scan_backward, builtin_clzll.
  destruct (Z.eqb_spec v 0) as [->|Hne]; [split; [tauto|congruence]|].
  assert (0 < v) by (destruct Hv; lia); pose proof (Z.log2_nonneg v).
  destruct (Z.log2_spec v) as [H1 H2]; [assumption|].
  assert (Z.log2 v < 64) by (apply Z.log2_lt_pow2; [|destruct Hv]; assumption).
  split; [lia|intros _; cbv zeta]; replace (64 - (63 - Z.log2 v)) with (Z.succ (Z.log2 v)) by lia.
  rewrite Z.sub_succ_l, Z.sub_1_r, Z.succ_pred; lia.
Qed.

(** ** Theorems *)

(** memmove copies correctly whatever the overlap of the two ranges: it
    terminates inside them, the destination holds what the source held before the
    call, and no other byte changes.  memcpy does the same unless the destination
    starts inside the source. *)
Theorem memmove_any_overlap m d s n :
  bytes_ok m -> 0 <= n -> owned m d n -> owned m s n ->
  (exists m', uacpi_memmove m d s n = Some m' /\
     (forall i, 0 <= i < n -> m' !! (d + i) = m !! (s + i)) /\
     (forall a, ~ d <= a < d + n -> m' !! a = m !! a)) /\
  (~ s < d < s + n -> uacpi_memcpy m d s n = uacpi_memmove m d s n).
Proof.
  intros Hok Hn Hd Hs; destruct (memmove_spec m d s n) as (m' & E & H); auto.
  split.
  - exists m'; split; [exact E|split; [intros i Hi|intros a Ha]]; rewrite H; range_cases;
      [f_equal; lia|reflexivity].
  - intros Hov; destruct (memcpy_spec m d s n) as (m2 & E2 & H2); auto; [lia|].
    rewrite E, E2; f_equal; apply map_eq; intros a; rewrite H, H2; reflexivity.
Qed.

(** On NUL-terminated strings strlen and strnlen return the length (strnlen
    at most its bound) and strcmp returns zero exactly on equal strings and
    otherwise the difference of the first bytes that differ; the scans never read
    beyond the terminator and always end. *)
Theorem string_functions_correct m p q s t max :
  cstr m p s -> cstr m q t -> 0 <= max ->
  uacpi_strlen m p = Some (Z.of_nat (length s)) /\
  uacpi_strnlen m p max = Some (Z.min max (Z.of_nat (length s))) /\
  exists r, uacpi_strcmp m p q = Some r /\ (r = 0 <-> s = t) /\
    forall u a b s' t', s = u ++ a :: s' -> t = u ++ b :: t' -> a <> b -> r = a - b.
Proof.
  intros Hs Ht Hmax; split; [apply strlen_cstr, Hs|split].
  - unfold uacpi_strnlen; rewrite (strnlen_from_cstr m s) by exact Hs; f_equal; lia.
  - exists (lex_diff s t); split; [apply strcmp_cstr; assumption|split].
    + apply lex_diff_0; [apply Hs|apply Ht].
    + clear; intros u a b s' t' -> -> Hne; induction u as [|c u IH]; simpl.
      * destruct (Z.eqb_spec a b); [contradiction|reflexivity].
      * rewrite Z.eqb_refl; exact IH.
Qed.

(** The bit scans return the one-based position of the least and of the most
    significant set bit of a 64-bit value, and 0 exactly for 0. *)
Theorem bit_scans_correct v : in_w 64 v ->
  (uacpi_bit_scan_forward v = 0 <-> v = 0) /\ (uacpi_bit_scan_backward v = 0 <-> v = 0) /\
  (v <> 0 ->
    let lo := uacpi_bit_scan_forward v in let hi := uacpi_bit_scan_backward v in
    1 <= lo <= hi /\ hi <= 64 /\
    (forall i, i < lo - 1 -> Z.testbit v i = false) /\ Z.testbit v (lo - 1) = true /\
    Z.testbit v (hi - 1) = true /\ (forall i, hi <= i -> Z.testbit v i = false)).
Proof.
  intros Hv; destruct (bit_scan_forward_spec v Hv) as [F0 F], (bit_scan_backward_spec v Hv) as [B0 B].
  split; [exact F0|split; [exact B0|intros Hne; cbv zeta]].
  destruct (F Hne) as (F1 & F2 & F3), (B Hne) as (B1 & B2).
  set (lo := uacpi_bit_scan_forward v) in *; set (hi := uacpi_bit_scan_backward v) in *.
  assert (Hhi : forall i, hi <= i -> Z.testbit v i = false)
    by (intros; apply (testbit_in_w hi); [split; lia|lia]).
  assert (Htop : Z.testbit v (hi - 1) = true).
  { destruct (Z.testbit v (hi - 1)) eqn:E; [reflexivity|exfalso].
    assert (W : in_w (hi - 1) v); [|destruct W; lia].
    apply in_w_of_testbit; [lia|destruct Hv; lia|]; intros i Hi.
    destruct (decide (i = hi - 1)) as [->|]; [exact E|apply Hhi; lia]. }
  assert (lo - 1 <= hi - 1).
  { destruct (Z.lt_ge_cases (hi - 1) (lo - 1)); [|assumption].
    rewrite F3 in Htop by assumption; discriminate. }
  repeat split; auto; lia.
Qed.

Module Demo.

Definition m0 : bytes :=
  list_to_map (zip (seqZ 16 10) [97; 99; 112; 105; 0; 97; 99; 101; 0; 7]).

Lemma m0_strings : cstr m0 16 [97; 99; 112; 105] /\ cstr m0 21 [97; 99; 101].
Proof.
  split; (split; [repeat constructor; discriminate|split; [|vm_compute; reflexivity]]);
    intros i c Hc; [do 4 (destruct i as [|i]; [injection Hc as <-; vm_compute; reflexivity|])
      |do 3 (destruct i as [|i]; [injection Hc as <-; vm_compute; reflexivity|])]; discriminate.
Qed.

Lemma memmove_any_overlap_witness :
  (exists m', uacpi_memmove m0 18 16 6 = Some m' /\ m' !! 23 = m0 !! 21) /\
  uacpi_memcpy m0 16 18 6 = uacpi_memmove m0 16 18 6.
Proof.
  assert (Hok : bytes_ok m0) by (apply (bool_decide_eq_true_1 (bytes_ok m0)); vm_compute; reflexivity).
  assert (Ho : owned m0 16 10)
    by (apply (bool_decide_eq_true_1 (owned m0 16 10)); vm_compute; reflexivity).
  split.
  - destruct (memmove_any_overlap m0 18 16 6) as [(m' & E & H & _) _]; auto; try lia.
    1, 2: apply (owned_sub _ _ _ _ _ Ho); lia.
    exists m'; split; [exact E|apply (H 5); lia].
  - apply (memmove_any_overlap m0 16 18 6); auto; try lia; apply (owned_sub _ _ _ _ _ Ho); lia.
Defined.

Lemma string_functions_correct_witness :
  uacpi_strlen m0 16 = Some 4 /\ uacpi_strnlen m0 16 3 = Some 3 /\
  uacpi_strcmp m0 16 21 = Some (112 - 101).
Proof.
  destruct (string_functions_correct m0 16 21 [97; 99; 112; 105] [97; 99; 101] 3)
    as (H1 & H2 & r & E & _ & H3); try apply m0_strings; [lia|].
  split; [exact H1|split; [exact H2|]]; rewrite E; f_equal.
  apply (H3 [97; 99] 112 101 [105] []); [reflexivity|reflexivity|discriminate].
Defined.

Lemma bit_scans_correct_witness :
  Z.testbit 0x50 (uacpi_bit_scan_forward 0x50 - 1) = true /\
  Z.testbit 0x50 (uacpi_bit_scan_backward 0x50 - 1) = true.
Proof.
  destruct (bit_scans_correct 0x50) as (_ & _ & H); [split; [lia|reflexivity]|].
  destruct H as (_ & _ & _ & H1 & H2 & _); [discriminate|split; assumption].
Defined.

End Demo.
