(* ===== verification/BitIO.v ===== *)
(** * acpi/uacpi/io.c: bit spans and buffer fields

    [bit_copy], the routine that moves bit strings between arbitrarily aligned
    places, and the buffer fields that are read and written with it (or, when
    the field starts on a byte, with a byte copy).  A [bit_span] is a pointer, a
    bit index from it and a length; bit [i] of the span at [data] with [index]
    is bit [8 * data + index + i] of the memory ([CMem.bitat]). *)

From S2P Require Import Prelude CMem UStdlib.

Open Scope word_scope.

(** ** The operations *)

Definition align_up_mask (w x mask : Z) : Z := Z.land (wrap w (x + mask)) (wrap w (Z.lnot mask)).
Definition align_up (w x val : Z) : Z := align_up_mask w x (wrap w (val - 1)).

Definition uacpi_round_up_bits_to_bytes (bit_length : Z) : Z := align_up 64 bit_length 8 / 8.

Definition cut_misaligned_tail (m : bytes) (data offset bit_length : Z) : option bytes :=
  let remainder := Z.land bit_length 7 in
  if remainder =? 0 then Some m else
  b ← load8 m (data + offset);
  store8 m (data + offset) (Z.land b (Z.shiftl 1 remainder - 1)).

Record bit_span := { span_data : Z; span_index : Z; span_length : Z }.

Definition bit_span_offset (span : bit_span) (bits : Z) : bit_span * Z :=
  let delta := Z.min (span_length span) bits in
  ({| span_data := span_data span; span_index := span_index span +64 delta;
      span_length := span_length span - delta |}, delta).

(** The source half of an iteration of [bit_copy]: the next eight bits. *)
Definition next_bits (m : bytes) (src_ptr src_shift src_count : Z) : option Z :=
  if src_count =? 0 then Some 0 else
  b0 ← load8 m src_ptr;
  let bits := Z.shiftr b0 src_shift in
  bits ← (if negb (src_shift =? 0) && (8 - src_shift <? src_count)
          then b1 ← load8 m (src_ptr + 1);
               Some (u8 (Z.lor bits (Z.shiftl b1 (8 - src_shift))))
          else Some bits);
  Some (if src_count <? 8 then Z.land bits (Z.shiftl 1 src_count - 1) else bits).

(** The destination half: merge the bits into one or two bytes. *)
Definition put_bits (m : bytes) (dst_ptr dst_shift dst_count bits : Z) : option bytes :=
  let dst_mask :=
    u16 (Z.shiftl (if dst_count <? 8 then Z.shiftl 1 dst_count - 1 else 0xff) dst_shift) in
  d0 ← load8 m dst_ptr;
  m1 ← store8 m dst_ptr
         (Z.lor (Z.land d0 (Z.lnot dst_mask)) (Z.land (Z.shiftl bits dst_shift) dst_mask));
  if negb (dst_shift =? 0) && (8 - dst_shift <? dst_count) then
    let dst_mask := Z.shiftr dst_mask 8 in
    d1 ← load8 m1 (dst_ptr + 1);
    m2 ← store8 m1 (dst_ptr + 1) (Z.land d1 (Z.lnot dst_mask));
    d2 ← load8 m2 (dst_ptr + 1);
    store8 m2 (dst_ptr + 1) (Z.lor d2 (Z.land (Z.shiftr bits (8 - dst_shift)) dst_mask))
  else Some m1.

Fixpoint bit_copy_loop (fuel : nat) (m : bytes)
    (dst_ptr dst_shift dst_count src_ptr src_shift src_count : Z) : option bytes :=
  if dst_count =? 0 then Some m else
  match fuel with
  | O => None
  | S fuel' =>
      bits ← next_bits m src_ptr src_shift src_count;
      let src_ptr' := if src_count <? 8 then src_ptr else src_ptr + 1 in
      let src_count' := if src_count <? 8 then 0 else src_count - 8 in
      m' ← put_bits m dst_ptr dst_shift dst_count bits;
      bit_copy_loop fuel' m' (dst_ptr + 1) dst_shift
        (if 8 <? dst_count then dst_count - 8 else 0) src_ptr' src_shift src_count'
  end.

Definition bit_copy (m : bytes) (dst src : bit_span) : option bytes :=
  bit_copy_loop (Z.to_nat ((span_length dst + 7) / 8)) m
    (span_data dst + span_index dst / 8) (Z.land (span_index dst) 7) (span_length dst)
    (span_data src + span_index src / 8) (Z.land (span_index src) 7) (span_length src).

(** A buffer field: the data pointer of the backing buffer and the field's place. *)
Record uacpi_buffer_field :=
  { bf_backing : Z; bf_bit_index : Z; bf_bit_length : Z }.

Definition do_misaligned_buffer_read (m : bytes) (field : uacpi_buffer_field) (dst : Z) :
    option bytes :=
  bit_copy m
    {| span_data := dst; span_index := 0;
       span_length := uacpi_round_up_bits_to_bytes (bf_bit_length field) *64 8 |}
    {| span_data := bf_backing field; span_index := bf_bit_index field;
       span_length := bf_bit_length field |}.

Definition uacpi_read_buffer_field (m : bytes) (field : uacpi_buffer_field) (dst : Z) :
    option bytes :=
  if Z.land (bf_bit_index field) 7 =? 0 then
    let count := uacpi_round_up_bits_to_bytes (bf_bit_length field) in
    m1 ← uacpi_memcpy m dst (bf_backing field + bf_bit_index field / 8) count;
    cut_misaligned_tail m1 dst (count - 1) (bf_bit_length field)
  else do_misaligned_buffer_read m field dst.

Definition do_write_misaligned_buffer_field (m : bytes) (field : uacpi_buffer_field)
    (src size : Z) : option bytes :=
  bit_copy m
    {| span_data := bf_backing field; span_index := bf_bit_index field;
       span_length := bf_bit_length field |}
    {| span_data := src; span_index := 0; span_length := size *64 8 |}.

Definition uacpi_write_buffer_field (m : bytes) (field : uacpi_buffer_field) (src size : Z) :
    option bytes :=
  if Z.land (bf_bit_index field) 7 =? 0 then
    let dst := bf_backing field + bf_bit_index field / 8 in
    let count := uacpi_round_up_bits_to_bytes (bf_bit_length field) in
    last_byte ← load8 m (dst + (count - 1));
    let tail_shift := Z.land (bf_bit_length field) 7 in
    m1 ← uacpi_memcpy_zerout m dst src count size;
    if negb (tail_shift =? 0) then
      let last_shift := 8 - tail_shift in
      b1 ← load8 m1 (dst + (count - 1));
      m2 ← store8 m1 (dst + (count - 1)) (Z.shiftl b1 last_shift);
      b2 ← load8 m2 (dst + (count - 1));
      m3 ← store8 m2 (dst + (count - 1)) (Z.shiftr b2 last_shift);
      b3 ← load8 m3 (dst + (count - 1));
      store8 m3 (dst + (count - 1))
        (Z.lor b3 (Z.shiftl (Z.shiftr last_byte tail_shift) tail_shift))
    else Some m1
  else do_write_misaligned_buffer_field m field src size.

(** ** What bit_copy computes *)

(** The bytes that hold the bits [K, K + n) are mapped. *)
Definition bits_owned (m : bytes) (K n : Z) : Prop :=
  forall x, K <= x < K + n -> is_Some (m !! (x / 8)).

(** [m'] is [m] with the [dn] bits at [D] replaced by the [sn] bits at [S],
    cut off or extended with zero bits. *)
Definition bits_copied (m m' : bytes) (D dn S sn : Z) : Prop :=
  forall x, bitat m' x =
    if within D dn x then (x - D <? sn) && bitat m (S + (x - D)) else bitat m x.

#[export] Instance bits_owned_dec m K n : Decision (bits_owned m K n).
Proof.
  destruct (decide (Forall (fun x => is_Some (m !! (x / 8))) (seqZ K n))) as [H|H]; [left|right].
  - intros a Ha; rewrite Forall_forall in H; apply H, elem_of_seqZ; lia.
  - intros Ho; apply H, Forall_forall; intros a Ha; apply Ho; apply elem_of_seqZ in Ha; lia.
Defined.

#[export] Instance bits_owned_proper : Proper (same_dom ==> eq ==> eq ==> iff) bits_owned.
Proof. intros m m' H p _ <- n _ <-; split; intros Ho a Ha; apply H, Ho, Ha. Qed.

Lemma bits_owned_sub m K n K' n' :
  bits_owned m K n -> K <= K' -> K' + n' <= K + n -> bits_owned m K' n'.
Proof. intros H H1 H2 x Hx; apply H; lia. Qed.

Lemma bits_owned_byte m p s n i : bits_owned m (8 * p + s) n -> s <= i < s + n ->
  is_Some (m !! (p + i / 8)).
Proof.
  intros H Hi; specialize (H (8 * p + i)).
  replace ((8 * p + i) / 8) with (p + i / 8) in H by (Z.div_mod_to_equations; lia).
  apply H; lia.
Qed.

Lemma mask_testbit n i : 0 <= n -> Z.testbit (Z.shiftl 1 n - 1) i = (0 <=? i) && (i <? n).
Proof.
  intros Hn; replace (Z.shiftl 1 n - 1) with (Z.ones n); [apply ones_testbit, Hn|].
  rewrite Z.ones_equiv, Z.shiftl_1_l; lia.
Qed.

Lemma next_bits_spec m p s n : bytes_ok m -> 0 <= s < 8 -> 0 <= n -> bits_owned m (8 * p + s) n ->
  exists bits, next_bits m p s n = Some bits /\
    forall j, 0 <= j < 8 -> Z.testbit bits j = (j <? n) && bitat m (8 * p + s + j).
Proof.
  intros Hok Hs Hn Ho; unfold next_bits; destruct (Z.eqb_spec n 0) as [->|Hn0].
  { exists 0; split; [reflexivity|]; intros j Hj; rewrite Z.testbit_0_l.
    destruct (Z.ltb_spec j 0); [lia|reflexivity]. }
  destruct (bits_owned_byte m p s n s Ho) as [b0 H0]; [lia|].
  rewrite Z.div_small, Z.add_0_r in H0 by lia; unfold load8; rewrite H0; cbn [mbind option_bind].
  assert (B0 : forall j, 0 <= j -> s + j < 8 ->
    bitat m (8 * p + s + j) = Z.testbit b0 (j + s)).
  { intros j Hj Hlt; rewrite <- Z.add_assoc, (bitat_at m p (s + j) b0) by (auto; lia).
    f_equal; lia. }
  assert (W0 : in_w 8 b0) by eauto.
  assert (exists b, (if negb (s =? 0) && (8 - s <? n)
      then m !! (p + 1) ≫= (fun b1 => Some (u8 (Z.lor (Z.shiftr b0 s) (Z.shiftl b1 (8 - s)))))
      else Some (Z.shiftr b0 s)) = Some b /\
    forall j, 0 <= j < 8 -> j < n -> Z.testbit b j = bitat m (8 * p + s + j))
    as (b & -> & Hb).
  { destruct (Z.eqb_spec s 0) as [->|Hs0]; simpl; [|destruct (Z.ltb_spec (8 - s) n) as [H|H]].
    - eexists; split; [reflexivity|]; intros j Hj _; bits_simpl; rewrite B0 by lia; reflexivity.
    - destruct (bits_owned_byte m p s n 8 Ho) as [b1 H1]; [lia|].
      change (8 / 8) with 1 in H1; rewrite H1; cbn [mbind option_bind].
      eexists; split; [reflexivity|]; intros j Hj Hlt; bits_simpl.
      destruct (Z.ltb_spec j 8); [|lia]; simpl andb.
      destruct (Z.lt_ge_cases (j + s) 8).
      + rewrite B0 by lia; bits_simpl; apply orb_false_r.
      + rewrite (testbit_in_w 8 b0) by (auto; lia); simpl orb.
        replace (8 * p + s + j) with (8 * (p + 1) + (s + j - 8)) by lia.
        rewrite (bitat_at m (p + 1) _ b1) by (auto; lia); f_equal; lia.
    - eexists; split; [reflexivity|]; intros j Hj Hlt; bits_simpl; rewrite B0 by lia; reflexivity. }
  cbn [mbind option_bind]; eexists; split; [reflexivity|]; intros j Hj.
  destruct (Z.ltb_spec n 8); [rewrite Z.land_spec, mask_testbit by lia|];
    destruct (Z.ltb_spec j n), (Z.leb_spec 0 j); try lia; simpl;
    rewrite ?andb_false_r, ?andb_true_r; auto; apply Hb; lia.
Qed.

(** The mask that [put_bits] builds covers the bits to write, over two bytes. *)
Lemma dst_mask_testbit s n i : 0 <= s < 8 -> 0 < n -> 0 <= i ->
  Z.testbit (u16 (Z.shiftl (if n <? 8 then Z.shiftl 1 n - 1 else 0xff) s)) i =
  within s (Z.min 8 n) i.
Proof.
  intros Hs Hn Hi; change 0xff with (Z.shiftl 1 8 - 1).
  rewrite wrap_testbit, shiftl_testbit, if_testbit, !mask_testbit by lia.
  unfold within; bool_cases; reflexivity.
Qed.

Lemma put_bits_spec m p s n bits :
  bytes_ok m -> 0 <= s < 8 -> 0 < n -> bits_owned m (8 * p + s) (Z.min 8 n) ->
  exists m', put_bits m p s n bits = Some m' /\ same_dom m m' /\ bytes_ok m' /\
    forall x, bitat m' x =
      if within (8 * p + s) (Z.min 8 n) x then Z.testbit bits (x - (8 * p + s)) else bitat m x.
Proof.
  intros Hok Hs Hn Ho; unfold put_bits.
  pose proof (fun i => dst_mask_testbit s n i Hs Hn) as Hmask.
  set (mask := u16 _) in *; clearbody mask.
  destruct (bits_owned_byte _ _ _ _ s Ho) as [d0 H0]; [lia|].
  rewrite Z.div_small, Z.add_0_r in H0 by lia.
  unfold load8, store8; rewrite H0; cbn [mbind option_bind].
  set (v0 := Z.lor _ _); set (m1 := <[p := u8 v0]> m).
  assert (D1 : same_dom m m1) by (apply same_dom_insert; eauto).
  assert (K1 : bytes_ok m1) by (apply bytes_ok_insert, Hok).
  assert (B1 : forall x, bitat m1 x =
    if within (8 * p + s) (Z.min (8 - s) (Z.min 8 n)) x
    then Z.testbit bits (x - (8 * p + s)) else bitat m x).
  { intros x; unfold m1; rewrite bitat_insert by eauto; range_cases; [| |reflexivity].
    - unfold v0; bits_simpl; rewrite !Hmask by lia; range_cases.
      bool_cases; rewrite andb_false_r, andb_true_r; simpl; f_equal; lia.
    - rewrite (bitat_in m p d0 x) by (auto; lia).
      unfold v0; bits_simpl; rewrite !Hmask by lia; range_cases.
      bool_cases; rewrite andb_false_r, andb_true_r, orb_false_r; reflexivity. }
  clearbody v0; destruct (Z.eqb_spec s 0) as [Es|Es]; simpl;
    [|destruct (Z.ltb_spec (8 - s) n) as [Hlt|Hlt]].
  - exists m1; split; [reflexivity|split; [exact D1|split; [exact K1|]]].
    intros x; rewrite B1; replace (Z.min (8 - s) (Z.min 8 n)) with (Z.min 8 n) by lia; reflexivity.
  - destruct (bits_owned_byte _ _ _ _ 8 Ho) as [d1 H1]; [lia|]; change (8 / 8) with 1 in H1.
    assert (E1 : m1 !! (p + 1) = Some d1)
      by (unfold m1; rewrite lookup_upd; destruct (Z.eqb_spec (p + 1) p); [lia|exact H1]).
    rewrite E1; cbn [mbind option_bind].
    rewrite lookup_insert_eq; cbn [mbind option_bind].
    eexists; split; [reflexivity|split; [|split]].
    + rewrite D1; etransitivity; apply same_dom_insert; [eauto|rewrite lookup_insert_eq; eauto].
    + auto with cmem.
    + intros x; rewrite !bitat_insert, B1 by (rewrite ?lookup_insert_eq; eauto).
      range_cases; try reflexivity.
      * bits_simpl; rewrite !Hmask by lia; range_cases; bool_cases.
        rewrite andb_false_r, andb_true_r; simpl; f_equal; lia.
      * rewrite (bitat_in m (p + 1) d1 x) by (auto; lia).
        bits_simpl; rewrite !Hmask by lia; range_cases; bool_cases.
        rewrite andb_false_r, andb_true_r, orb_false_r; reflexivity.
  - exists m1; split; [reflexivity|split; [exact D1|split; [exact K1|]]].
    intros x; rewrite B1; replace (Z.min (8 - s) (Z.min 8 n)) with (Z.min 8 n) by lia; reflexivity.
Qed.

(** A forward copy of [n] bits from [S] to [D] never reads a bit it has written. *)
Definition copyable (D S n : Z) : Prop := D <= S \/ S + n <= D.

(** One iteration followed by a copy of what remains is the whole copy. *)
Lemma bits_copied_step m m1 m' D dn S S' sn sn' bits :
  0 < dn -> 0 <= sn -> copyable D S (Z.min sn dn) ->
  (forall j, 0 <= j < 8 -> Z.testbit bits j = (j <? sn) && bitat m (S + j)) ->
  (forall x, bitat m1 x = if within D (Z.min 8 dn) x then Z.testbit bits (x - D) else bitat m x) ->
  sn < 8 /\ sn' = 0 \/ 8 <= sn /\ sn' = sn - 8 /\ S' = S + 8 ->
  bits_copied m1 m' (D + 8) (if 8 <? dn then dn - 8 else 0) S' sn' ->
  bits_copied m m' D dn S sn.
Proof.
  intros Hdn Hsn Hov Hbits Hm1 Hs' Hcp x; rewrite Hcp.
  assert (Hrest : forall y, D + 8 <= y < D + dn ->
    (y - (D + 8) <? sn') && bitat m1 (S' + (y - (D + 8))) = (y - D <? sn) && bitat m (S + (y - D))).
  { intros y Hy; destruct Hs' as [[H1 ->]|(H1 & -> & ->)].
    - destruct (Z.ltb_spec (y - (D + 8)) 0), (Z.ltb_spec (y - D) sn); try lia; reflexivity.
    - replace (S + 8 + (y - (D + 8))) with (S + (y - D)) by lia.
      destruct (Z.ltb_spec (y - (D + 8)) (sn - 8)), (Z.ltb_spec (y - D) sn); try lia;
        try reflexivity; simpl.
      rewrite Hm1; destruct Hov; range_cases; reflexivity. }
  destruct (Z.ltb_spec 8 dn).
  - range_cases; [apply Hrest; lia| |]; rewrite Hm1; range_cases; [|reflexivity].
    rewrite Hbits by lia; reflexivity.
  - destruct (withinP (D + 8) 0 x); [lia|]; rewrite Hm1; range_cases; [|reflexivity].
    rewrite Hbits by lia; reflexivity.
Qed.

Lemma bit_copy_loop_spec fuel : forall m dp ds dn sp ss sn,
  bytes_ok m -> 0 <= ds < 8 -> 0 <= ss < 8 -> 0 <= dn <= 8 * Z.of_nat fuel -> 0 <= sn ->
  bits_owned m (8 * dp + ds) dn -> bits_owned m (8 * sp + ss) sn ->
  copyable (8 * dp + ds) (8 * sp + ss) (Z.min sn dn) ->
  exists m', bit_copy_loop fuel m dp ds dn sp ss sn = Some m' /\ same_dom m m' /\ bytes_ok m' /\
    bits_copied m m' (8 * dp + ds) dn (8 * sp + ss) sn.
Proof.
  induction fuel as [|fuel IH]; intros m dp ds dn sp ss sn Hok Hds Hss Hdn Hsn Hd Hs Hov;
    simpl bit_copy_loop; (destruct (Z.eqb_spec dn 0) as [->|Hdn0]; [|try lia]).
  1, 2: exists m; split; [reflexivity|split; [reflexivity|split; [exact Hok|]]];
    intros x; range_cases; reflexivity.
  destruct (next_bits_spec m sp ss sn) as (bits & -> & Hbits); auto.
  cbn [mbind option_bind].
  destruct (put_bits_spec m dp ds dn bits) as (m1 & -> & D1 & K1 & B1); auto; [lia| |].
  { apply (bits_owned_sub _ _ _ _ _ Hd); lia. }
  cbn [mbind option_bind].
  edestruct (IH m1 (dp + 1) ds (if 8 <? dn then dn - 8 else 0)
    (if sn <? 8 then sp else sp + 1) ss (if sn <? 8 then 0 else sn - 8))
    as (m' & E & Dm & Km & Hcp); auto.
  - destruct (Z.ltb_spec 8 dn); lia.
  - destruct (Z.ltb_spec sn 8); lia.
  - rewrite <- D1; intros x Hx; apply Hd; destruct (Z.ltb_spec 8 dn); lia.
  - rewrite <- D1; intros x Hx; apply Hs; destruct (Z.ltb_spec sn 8); lia.
  - unfold copyable in *; destruct (Z.ltb_spec sn 8), (Z.ltb_spec 8 dn); lia.
  - exists m'; split; [exact E|split; [etransitivity; eauto|split; [exact Km|]]].
    replace (8 * (dp + 1) + ds) with (8 * dp + ds + 8) in Hcp by lia.
    eapply bits_copied_step; [| |exact Hov|exact Hbits|exact B1| |exact Hcp]; try lia.
    destruct (Z.ltb_spec sn 8); [left|right]; lia.
Qed.

Definition span_start (s : bit_span) : Z := 8 * span_data s + span_index s.

Lemma span_split p i : 8 * (p + i / 8) + Z.land i 7 = 8 * p + i.
Proof.
  change 7 with (Z.ones 3); rewrite Z.land_ones by lia.
  change (2 ^ 3) with 8; Z.div_mod_to_equations; lia.
Qed.

Lemma land_7 i : Z.land i 7 = i mod 8.
Proof. change 7 with (Z.ones 3); rewrite Z.land_ones by lia; reflexivity. Qed.

Lemma land_7_range i : 0 <= Z.land i 7 < 8.
Proof. rewrite land_7; apply Z.mod_pos_bound; lia. Qed.

Lemma bit_copy_spec m dst src :
  bytes_ok m -> 0 <= span_length dst -> 0 <= span_length src ->
  bits_owned m (span_start dst) (span_length dst) ->
  bits_owned m (span_start src) (span_length src) ->
  copyable (span_start dst) (span_start src) (Z.min (span_length src) (span_length dst)) ->
  exists m', bit_copy m dst src = Some m' /\ same_dom m m' /\ bytes_ok m' /\
    bits_copied m m' (span_start dst) (span_length dst) (span_start src) (span_length src).
Proof.
  intros Hok Hd Hs Od Os Hov; unfold bit_copy, span_start in *.
  rewrite <- (span_split (span_data dst)) in *; rewrite <- (span_split (span_data src)) in *.
  apply bit_copy_loop_spec; auto using land_7_range.
  rewrite Z2Nat.id by (Z.div_mod_to_equations; lia); Z.div_mod_to_equations; lia.
Qed.

(** ** Buffer fields *)

Lemma align_up_pow2 w x k : 0 <= k < w -> 0 <= x -> x + (2 ^ k - 1) < 2 ^ w ->
  align_up w x (2 ^ k) = 2 ^ k * ((x + (2 ^ k - 1)) / 2 ^ k).
Proof.
  intros Hk H0 H1; unfold align_up, align_up_mask; pose proof (pow2_pos k).
  assert (2 ^ k < 2 ^ w) by (apply Z.pow_lt_mono_r; lia).
  rewrite (wrap_id w (2 ^ k - 1)) by (split; lia).
  rewrite (wrap_id w (x + (2 ^ k - 1))) by (split; lia).
  rewrite (Z.mul_comm (2 ^ k)), <- Z.shiftl_mul_pow2, <- Z.shiftr_div_pow2 by lia.
  assert (W : in_w w (x + (2 ^ k - 1))) by (split; lia); clear H0 H1.
  revert W; generalize (x + (2 ^ k - 1)); intros y W.
  replace (2 ^ k - 1) with (Z.ones k) by (rewrite Z.ones_equiv; lia).
  apply Z.bits_inj'; intros i Hi; rewrite Z.land_spec, wrap_testbit by lia.
  bits_simpl; bool_cases; rewrite ?andb_true_r, ?andb_false_r; bits_simpl;
    try reflexivity; f_equal; lia.
Qed.

Lemma round_up_bits_to_bytes_eq n : in_w 32 n -> uacpi_round_up_bits_to_bytes n = (n + 7) / 8.
Proof.
  intros [H0 H1]; unfold uacpi_round_up_bits_to_bytes.
  change 8 with (2 ^ 3) at 1; rewrite align_up_pow2 by lia; change (2 ^ 3) with 8.
  rewrite Z.mul_comm, Z.div_mul; [f_equal|]; lia.
Qed.

Lemma cut_misaligned_tail_spec m data n :
  bytes_ok m -> 0 <= n -> owned m data ((n + 7) / 8) ->
  exists m', cut_misaligned_tail m data ((n + 7) / 8 - 1) n = Some m' /\ same_dom m m' /\
    bytes_ok m' /\ forall x, bitat m' x =
      if within (8 * data + n) (8 * ((n + 7) / 8) - n) x then false else bitat m x.
Proof.
  intros Hok Hn Ho; unfold cut_misaligned_tail; rewrite land_7.
  destruct (Z.eqb_spec (n mod 8) 0) as [E|E].
  - exists m; split; [reflexivity|split; [reflexivity|split; [assumption|]]].
    intros x; replace (8 * ((n + 7) / 8) - n) with 0 by (Z.div_mod_to_equations; lia).
    range_cases; reflexivity.
  - assert (Hs : is_Some (m !! (data + ((n + 7) / 8 - 1)))) by
      (apply Ho; Z.div_mod_to_equations; lia).
    destruct Hs as [b Hb]; unfold load8; rewrite Hb; cbn [mbind option_bind].
    unfold store8; rewrite Hb; eexists; split; [reflexivity|].
    split; [apply same_dom_insert; eauto|split; [auto with cmem|]].
    intros x; rewrite bitat_insert by eauto; set (a := data + _) in *.
    pose proof (Z.mod_pos_bound n 8 eq_refl).
    assert (Ea : 8 * a = 8 * data + n - n mod 8) by
      (unfold a; Z.div_mod_to_equations; lia).
    assert (En : 8 * ((n + 7) / 8) = n - n mod 8 + 8) by (Z.div_mod_to_equations; lia).
    range_cases; rewrite ?wrap_testbit, ?Z.land_spec, ?mask_testbit by lia.
    + bool_cases; apply andb_false_r.
    + rewrite (bitat_in m a b x) by (auto; lia); bool_cases; rewrite andb_true_r; reflexivity.
    + reflexivity.
Qed.

Definition field_start (f : uacpi_buffer_field) : Z := 8 * bf_backing f + bf_bit_index f.

(** The hypotheses under which a field is read into, or written from, a buffer of
    [n] bytes at [p]: both are mapped, and the copy is not onto its own source. *)
Record field_ok (m : bytes) (f : uacpi_buffer_field) : Prop := {
  fo_bytes : bytes_ok m;
  fo_index : 0 <= bf_bit_index f;
  fo_length : in_w 32 (bf_bit_length f);
  fo_owned : bits_owned m (field_start f) (bf_bit_length f)
}.

Lemma bits_owned_bytes m p n : bits_owned m (8 * p) n -> owned m p ((n + 7) / 8).
Proof.
  intros H a Ha; specialize (H (8 * a)).
  replace (8 * a / 8) with a in H by (rewrite Z.mul_comm, Z.div_mul; lia).
  apply H; Z.div_mod_to_equations; lia.
Qed.

Lemma owned_bits_owned m p n : owned m p n -> bits_owned m (8 * p) (8 * n).
Proof. intros H x Hx; apply H; Z.div_mod_to_equations; lia. Qed.

Lemma aligned_start f : Z.land (bf_bit_index f) 7 = 0 ->
  8 * (bf_backing f + bf_bit_index f / 8) = field_start f.
Proof.
  intros E; unfold field_start; rewrite <- (span_split (bf_backing f)), E; lia.
Qed.

Lemma misaligned_read_spec m f dst :
  field_ok m f -> owned m dst ((bf_bit_length f + 7) / 8) ->
  copyable (8 * dst) (field_start f) (bf_bit_length f) ->
  exists m', do_misaligned_buffer_read m f dst = Some m' /\ same_dom m m' /\ bytes_ok m' /\
    bits_copied m m' (8 * dst) (8 * ((bf_bit_length f + 7) / 8)) (field_start f) (bf_bit_length f).
Proof.
  intros [Hok Hi Hl Ho] Hd Hc; pose proof Hl as [? ?]; unfold do_misaligned_buffer_read.
  rewrite round_up_bits_to_bytes_eq by assumption.
  rewrite wrap_id by (split; Z.div_mod_to_equations; lia).
  rewrite (Z.mul_comm _ 8).
  set (d := Build_bit_span _ _ _); set (s := Build_bit_span _ _ _).
  replace (8 * dst) with (span_start d) in * by (unfold d, span_start; simpl; lia).
  change (field_start f) with (span_start s) in *.
  apply (bit_copy_spec m d s); auto; simpl span_length; try lia; [Z.div_mod_to_equations; lia| |].
  - replace (span_start d) with (8 * dst) by (unfold d, span_start; simpl; lia).
    apply owned_bits_owned, Hd.
  - unfold copyable in *; lia.
Qed.

Lemma read_buffer_field_bits m f dst :
  field_ok m f -> owned m dst ((bf_bit_length f + 7) / 8) ->
  copyable (8 * dst) (field_start f) (bf_bit_length f) ->
  exists m', uacpi_read_buffer_field m f dst = Some m' /\ same_dom m m' /\ bytes_ok m' /\
    bits_copied m m' (8 * dst) (8 * ((bf_bit_length f + 7) / 8)) (field_start f) (bf_bit_length f).
Proof.
  intros Hf Hd Hc; unfold uacpi_read_buffer_field.
  destruct (Z.eqb_spec (Z.land (bf_bit_index f) 7) 0) as [E|E];
    [|apply misaligned_read_spec; assumption].
  destruct Hf as [Hok Hi Hl Ho]; pose proof Hl as [? ?].
  rewrite round_up_bits_to_bytes_eq by assumption; pose proof (aligned_start f E) as Ef.
  set (s := bf_backing f + bf_bit_index f / 8) in *; set (n := bf_bit_length f) in *.
  rewrite <- Ef in *.
  destruct (memcpy_spec m dst s ((n + 7) / 8)) as (m1 & -> & H1); auto.
  { Z.div_mod_to_equations; lia. }
  { apply bits_owned_bytes, Ho. }
  { unfold copyable in Hc; Z.div_mod_to_equations; lia. }
  assert (D1 : same_dom m m1)
    by (eapply copied_same_dom; [exact H1|exact Hd|apply bits_owned_bytes, Ho]).
  cbn [mbind option_bind].
  destruct (cut_misaligned_tail_spec m1 dst n) as (m2 & E2 & D2 & K2 & B2);
    [eauto with cmem|lia|rewrite <- D1; exact Hd|].
  exists m2; split; [exact E2|split; [etransitivity; eauto|split; [exact K2|]]].
  intros x; rewrite B2, (bitat_copy m m1 dst s ((n + 7) / 8)) by exact H1.
  assert (n <= 8 * ((n + 7) / 8)) by (Z.div_mod_to_equations; lia).
  range_cases; bool_cases; reflexivity.
Qed.

Lemma misaligned_write_spec m f src size :
  field_ok m f -> 0 <= size < 2 ^ 61 -> owned m src size ->
  copyable (field_start f) (8 * src) (Z.min (8 * size) (bf_bit_length f)) ->
  exists m', do_write_misaligned_buffer_field m f src size = Some m' /\ same_dom m m' /\
    bytes_ok m' /\ bits_copied m m' (field_start f) (bf_bit_length f) (8 * src) (8 * size).
Proof.
  intros [Hok Hi Hl Ho] Hsz Hs Hc; pose proof Hl as [? ?]; unfold do_write_misaligned_buffer_field.
  rewrite wrap_id, (Z.mul_comm size) by (split; lia).
  set (d := Build_bit_span _ _ _); set (s := Build_bit_span _ _ _).
  change (field_start f) with (span_start d) in *.
  replace (8 * src) with (span_start s) in * by (unfold s, span_start; simpl; lia).
  apply (bit_copy_spec m d s); auto; simpl span_length; try lia.
  replace (span_start s) with (8 * src) by (unfold s, span_start; simpl; lia).
  apply owned_bits_owned, Hs.
Qed.

(** The last byte of an aligned write, put together by the shifts of the code:
    [t] low bits of the new byte, the others from the old one. *)
Lemma merge_tail m a t last b :
  bytes_ok m -> 0 < t < 8 -> in_w 8 last -> m !! a = Some b ->
  exists m', (
      b1 ← load8 m a; m2 ← store8 m a (Z.shiftl b1 (8 - t));
      b2 ← load8 m2 a; m3 ← store8 m2 a (Z.shiftr b2 (8 - t));
      b3 ← load8 m3 a;
      store8 m3 a (Z.lor b3 (Z.shiftl (Z.shiftr last t) t))) = Some m' /\
    same_dom m m' /\ bytes_ok m' /\ forall x, bitat m' x =
      if within (8 * a) 8 x
      then Z.testbit (if x - 8 * a <? t then b else last) (x - 8 * a) else bitat m x.
Proof.
  intros Hok Ht Hl Hb; unfold load8, store8; rewrite Hb; cbn [mbind option_bind].
  repeat (rewrite !lookup_insert_eq; cbn [mbind option_bind]).
  eexists; split; [reflexivity|split; [|split; [auto with cmem|]]].
  - rewrite !insert_insert_eq; apply same_dom_insert; eauto.
  - intros x; rewrite !insert_insert_eq, bitat_insert by eauto; range_cases; [|reflexivity].
    bits_simpl; bool_cases; bits_simpl; rewrite ?orb_false_r, ?andb_false_r; simpl;
      try (f_equal; lia).
Qed.

Lemma zero_extended_bits m m' d s dn sn :
  zero_extended m m' d s dn sn -> bits_copied m m' (8 * d) (8 * dn) (8 * s) (8 * sn).
Proof.
  intros H x; unfold bitat at 1; rewrite H.
  destruct (withinP d dn (x / 8)), (withinP (8 * d) (8 * dn) x);
    try (Z.div_mod_to_equations; lia); [|reflexivity].
  destruct (Z.ltb_spec (x / 8 - d) sn), (Z.ltb_spec (x - 8 * d) (8 * sn));
    try (Z.div_mod_to_equations; lia); [|apply Z.testbit_0_l]; simpl; unfold bitat.
  replace ((8 * s + (x - 8 * d)) / 8) with (s + (x / 8 - d)) by (Z.div_mod_to_equations; lia).
  replace ((8 * s + (x - 8 * d)) mod 8) with (x mod 8) by (Z.div_mod_to_equations; lia).
  reflexivity.
Qed.

Lemma write_buffer_field_bits m f src size :
  field_ok m f -> 0 < bf_bit_length f -> 0 <= size < 2 ^ 61 -> owned m src size ->
  copyable (field_start f) (8 * src) (Z.min (8 * size) (bf_bit_length f)) ->
  exists m', uacpi_write_buffer_field m f src size = Some m' /\ same_dom m m' /\ bytes_ok m' /\
    bits_copied m m' (field_start f) (bf_bit_length f) (8 * src) (8 * size).
Proof.
  intros Hf Hpos Hsz Hs Hc; unfold uacpi_write_buffer_field.
  destruct (Z.eqb_spec (Z.land (bf_bit_index f) 7) 0) as [E|E];
    [|apply misaligned_write_spec; assumption].
  destruct Hf as [Hok Hi Hl Ho]; pose proof Hl as [? ?].
  rewrite round_up_bits_to_bytes_eq, land_7 by assumption; pose proof (aligned_start f E) as Ef.
  set (d := bf_backing f + bf_bit_index f / 8) in *; set (n := bf_bit_length f) in *.
  rewrite <- Ef in *; clear Ef; apply bits_owned_bytes in Ho; set (c := (n + 7) / 8) in *.
  assert (Hc8 : 8 * c - 8 < n <= 8 * c) by (unfold c; Z.div_mod_to_equations; lia).
  assert (Hmod : n mod 8 = 0 /\ n = 8 * c \/ 0 < n mod 8 < 8 /\ n mod 8 = n - 8 * (c - 1))
    by (unfold c; Z.div_mod_to_equations; lia).
  destruct (Ho (d + (c - 1))) as [last Hlast]; [lia|].
  change (load8 m (d + (c - 1))) with (m !! (d + (c - 1))).
  rewrite Hlast; cbn [mbind option_bind].
  destruct (memcpy_zerout_spec m d src c size) as (m1 & -> & H1 & D1 & K1); auto; try lia.
  { eapply owned_sub; [exact Hs|lia..]. }
  { unfold copyable in Hc; lia. }
  cbn [mbind option_bind].
  pose proof (zero_extended_bits _ _ _ _ _ _ H1) as B1.
  destruct Hmod as [[-> En]|[Ht En]].
  - exists m1; split; [reflexivity|split; [exact D1|split; [exact K1|]]].
    intros x; rewrite B1, En; reflexivity.
  - destruct (Z.eqb_spec (n mod 8) 0); [lia|]; cbn [negb].
    assert (Hb : is_Some (m1 !! (d + (c - 1)))) by (apply D1; eauto); destruct Hb as [b Hb].
    destruct (merge_tail m1 (d + (c - 1)) (n mod 8) last b) as (m2 & E2 & D2 & K2 & B2); eauto.
    exists m2; split; [exact E2|split; [etransitivity; eauto|split; [exact K2|]]].
    intros x; rewrite B2; destruct (withinP (8 * (d + (c - 1))) 8 x).
    + destruct (Z.ltb_spec (x - 8 * (d + (c - 1))) (n mod 8)).
      * rewrite <- (bitat_in m1 (d + (c - 1)) b), B1 by (auto; lia); range_cases; reflexivity.
      * rewrite <- (bitat_in m (d + (c - 1)) last) by (auto; lia); range_cases; reflexivity.
    + rewrite B1; range_cases; reflexivity.
Qed.

(** Two memories obtained by the same copy of bits are equal. *)
Lemma bits_copied_unique m m1 m2 D dn S sn :
  same_dom m m1 -> bytes_ok m1 -> bits_copied m m1 D dn S sn ->
  same_dom m m2 -> bytes_ok m2 -> bits_copied m m2 D dn S sn -> m1 = m2.
Proof.
  intros D1 K1 B1 D2 K2 B2; apply bytes_bits_ext; auto.
  - etransitivity; [symmetry; exact D1|exact D2].
  - intros k; rewrite B1, B2; reflexivity.
Qed.

(** The integer that a little-endian load returns is the string of its bits. *)
Lemma load_le_eq m p n v : bytes_ok m -> owned m p (Z.of_nat n) -> in_w (8 * Z.of_nat n) v ->
  (forall i, 0 <= i < 8 * Z.of_nat n -> bitat m (8 * p + i) = Z.testbit v i) ->
  load_le m p n = Some v.
Proof.
  intros Hok Ho Hv Hb; destruct (load_le_bits m n Hok p Ho) as (v' & -> & Hw & Hv').
  f_equal; apply Z.bits_inj'; intros i Hi; rewrite Hv' by assumption.
  destruct (Z.ltb_spec i (8 * Z.of_nat n)); simpl; [apply Hb; lia|].
  symmetry; apply (testbit_in_w (8 * Z.of_nat n)); auto; lia.
Qed.

Lemma load_le_bitat m p n v i : bytes_ok m -> owned m p (Z.of_nat n) ->
  load_le m p n = Some v -> 0 <= i ->
  Z.testbit v i = (i <? 8 * Z.of_nat n) && bitat m (8 * p + i).
Proof.
  intros Hok Ho E Hi; destruct (load_le_bits m n Hok p Ho) as (v' & E' & _ & H).
  rewrite E in E'; injection E' as ->; auto.
Qed.

(** The value of a field of a memory, and reading as the refinement of it. *)
Definition field_value (m : bytes) (f : uacpi_buffer_field) : Z -> bool :=
  fun i => (i <? bf_bit_length f) && bitat m (field_start f + i).

Lemma read_returns_value m f dst :
  field_ok m f -> owned m dst ((bf_bit_length f + 7) / 8) ->
  copyable (8 * dst) (field_start f) (bf_bit_length f) ->
  exists m' v, uacpi_read_buffer_field m f dst = Some m' /\ same_dom m m' /\ bytes_ok m' /\
    load_le m' dst (Z.to_nat ((bf_bit_length f + 7) / 8)) = Some v /\
    in_w (bf_bit_length f) v /\ forall i, 0 <= i -> Z.testbit v i = field_value m f i.
Proof.
  intros Hf Hd Hc; destruct (read_buffer_field_bits m f dst Hf Hd Hc) as (m' & E & D & K & B).
  destruct Hf as [_ _ [Hn _] _]; set (n := bf_bit_length f) in *.
  assert (Hn8 : 0 <= (n + 7) / 8 /\ n <= 8 * ((n + 7) / 8)) by (Z.div_mod_to_equations; lia).
  destruct (load_le_bits m' (Z.to_nat ((n + 7) / 8)) K dst) as (v & Ev & Hw & Hv).
  { rewrite Z2Nat.id by lia; rewrite <- D; exact Hd. }
  rewrite Z2Nat.id in Hw, Hv by lia.
  assert (Hbit : forall i, 0 <= i -> Z.testbit v i = field_value m f i).
  { intros i Hi; rewrite Hv, B by lia; unfold field_value; fold n.
    range_cases; replace (8 * dst + i - 8 * dst) with i by lia; bool_cases; reflexivity. }
  exists m', v; do 4 (split; [assumption|]); split; [|exact Hbit].
  apply in_w_of_testbit; [assumption|destruct Hw; assumption|].
  intros i Hi; rewrite Hbit by lia; unfold field_value; fold n; bool_cases; reflexivity.
Qed.

(** ** Theorems *)

(** C12.  bit_copy is an exact copy of bit strings: given spans inside mapped
    memory that the copy does not clobber before reading, it terminates without
    touching a byte outside them, bit i of the destination span becomes bit i of
    the source span (zero beyond its length), and every other bit of memory,
    those sharing a byte with the destination included, is unchanged. *)
Theorem bit_copy_correct m dst src :
  bytes_ok m -> 0 <= span_length dst -> 0 <= span_length src ->
  bits_owned m (span_start dst) (span_length dst) ->
  bits_owned m (span_start src) (span_length src) ->
  copyable (span_start dst) (span_start src) (Z.min (span_length src) (span_length dst)) ->
  exists m', bit_copy m dst src = Some m' /\ same_dom m m' /\ bytes_ok m' /\
    (forall i, 0 <= i < span_length dst ->
      bitat m' (span_start dst + i) =
      if i <? span_length src then bitat m (span_start src + i) else false) /\
    (forall x, x < span_start dst \/ span_start dst + span_length dst <= x ->
      bitat m' x = bitat m x).
Proof.
  intros Hok Hd Hs Od Os Hc.
  destruct (bit_copy_spec m dst src Hok Hd Hs Od Os Hc) as (m' & E & D & K & B).
  exists m'; split; [exact E|split; [exact D|split; [exact K|split]]].
  - intros i Hi; rewrite B; range_cases.
    replace (span_start dst + i - span_start dst) with i by lia.
    destruct (i <? span_length src); reflexivity.
  - intros x Hx; rewrite B; range_cases; reflexivity.
Qed.

(** C13.  The byte-copy paths that uacpi_read_buffer_field and
    uacpi_write_buffer_field take for byte-aligned fields leave memory exactly as
    the general bit-by-bit paths do. *)
Theorem buffer_field_fast_paths m f p size :
  field_ok m f -> 0 < bf_bit_length f -> 0 <= size < 2 ^ 61 ->
  owned m p size -> owned m p ((bf_bit_length f + 7) / 8) ->
  apart (8 * p) (8 * size) (field_start f) (bf_bit_length f) ->
  copyable (8 * p) (field_start f) (bf_bit_length f) ->
  uacpi_read_buffer_field m f p = do_misaligned_buffer_read m f p /\
  uacpi_write_buffer_field m f p size = do_write_misaligned_buffer_field m f p size.
Proof.
  intros Hf Hpos Hsz Hs Hd Ha Hc; split.
  - destruct (read_buffer_field_bits m f p) as (m1 & -> & D1 & K1 & B1); auto.
    destruct (misaligned_read_spec m f p) as (m2 & -> & D2 & K2 & B2); auto.
    f_equal; eapply bits_copied_unique; eauto.
  - assert (Hc' : copyable (field_start f) (8 * p) (Z.min (8 * size) (bf_bit_length f)))
      by (unfold copyable, apart in *; lia).
    destruct (write_buffer_field_bits m f p size) as (m1 & -> & D1 & K1 & B1); auto.
    destruct (misaligned_write_spec m f p size) as (m2 & -> & D2 & K2 & B2); auto.
    f_equal; eapply bits_copied_unique; eauto.
Qed.

(** Writing a buffer field and reading it back returns the written integer
    modulo 2^bit_length, whatever the field's alignment; the field's neighbours
    (any field whose bits are disjoint) read the same before and after. *)
Theorem buffer_field_roundtrip m f src (size : nat) v dst :
  field_ok m f -> 0 < bf_bit_length f -> Z.of_nat size < 2 ^ 61 ->
  owned m src (Z.of_nat size) -> load_le m src size = Some v ->
  owned m dst ((bf_bit_length f + 7) / 8) ->
  copyable (field_start f) (8 * src) (Z.min (8 * Z.of_nat size) (bf_bit_length f)) ->
  copyable (8 * dst) (field_start f) (bf_bit_length f) ->
  exists m1 m2, uacpi_write_buffer_field m f src (Z.of_nat size) = Some m1 /\
    uacpi_read_buffer_field m1 f dst = Some m2 /\
    load_le m2 dst (Z.to_nat ((bf_bit_length f + 7) / 8)) = Some (wrap (bf_bit_length f) v) /\
    (forall g, apart (field_start f) (bf_bit_length f) (field_start g) (bf_bit_length g) ->
       forall i, 0 <= i -> field_value m1 g i = field_value m g i).
Proof.
  intros Hf Hpos Hsz Hs Ev Hd Hc Hc2.
  destruct (write_buffer_field_bits m f src (Z.of_nat size)) as (m1 & E1 & D1 & K1 & B1);
    auto; [lia|].
  assert (Hf1 : field_ok m1 f) by (destruct Hf; split; auto; rewrite <- D1; assumption).
  destruct (read_returns_value m1 f dst) as (m2 & v2 & E2 & D2 & K2 & Ev2 & Hw2 & Hv2);
    auto; [rewrite <- D1; exact Hd|].
  exists m1, m2; split; [exact E1|split; [exact E2|split]].
  - rewrite Ev2; f_equal; destruct Hf as [Hok _ [Hn _] _].
    apply Z.bits_inj'; intros i Hi; rewrite Hv2, wrap_testbit by lia.
    rewrite (load_le_bitat m src size v i Hok Hs Ev Hi); unfold field_value; rewrite B1.
    range_cases; replace (field_start f + i - field_start f) with i by lia; reflexivity.
  - intros g Hg i Hi; unfold field_value; rewrite B1.
    destruct (Z.ltb_spec i (bf_bit_length g)); [|reflexivity]; simpl.
    unfold apart in Hg; range_cases; reflexivity.
Qed.

(** ** Witnesses: sixteen bytes at address 64 *)

Module Demo.

Definition m0 : bytes :=
  list_to_map (zip (seqZ 64 16)
    [0xa5; 0x3c; 0x00; 0xff; 0x12; 0x34; 0x56; 0x78;
     0x9a; 0xbc; 0xde; 0xf0; 0x0f; 0x1e; 0x2d; 0x4b]).

Definition dst : bit_span := {| span_data := 64; span_index := 3; span_length := 21 |}.
Definition src : bit_span := {| span_data := 72; span_index := 5; span_length := 13 |}.
Definition f : uacpi_buffer_field :=
  {| bf_backing := 66; bf_bit_index := 5; bf_bit_length := 14 |}.

Ltac decided :=
  lazymatch goal with |- ?P => refine (bool_decide_eq_true_1 P _); vm_compute; reflexivity end.

Lemma field_ok_f : field_ok m0 f.
Proof. split; [decided|simpl; lia|decided|decided]. Qed.

(** A misaligned copy, evaluated: bits 3..23 are replaced, 0..2 kept. *)
Example bit_copy_runs :
  (fun m => (m !! 64, m !! 65, m !! 66, m !! 67)) <$> bit_copy m0 dst src =
  Some (Some 0x25, Some 0xaf, Some 0x00, Some 0xff).
Proof. vm_compute; reflexivity. Qed.

Lemma bit_copy_correct_witness :
  exists m', bit_copy m0 dst src = Some m' /\ bitat m' (515 + 2) = bitat m0 (581 + 2) /\
    bitat m' 514 = bitat m0 514.
Proof.
  destruct (bit_copy_correct m0 dst src) as (m' & E & _ & _ & H1 & H2);
    try decided.
  exists m'; split; [exact E|split].
  - apply (H1 2); simpl; lia.
  - apply H2; unfold span_start; simpl; lia.
Defined.

Lemma buffer_field_fast_paths_witness :
  uacpi_read_buffer_field m0 f 74 = do_misaligned_buffer_read m0 f 74 /\
  uacpi_write_buffer_field m0 f 74 3 = do_write_misaligned_buffer_field m0 f 74 3.
Proof.
  apply (buffer_field_fast_paths m0 {| bf_backing := 66; bf_bit_index := 5; bf_bit_length := 14 |});
    try decided; try exact field_ok_f; try (simpl; lia);
    unfold apart, copyable, field_start; simpl; lia.
Defined.

Lemma buffer_field_roundtrip_witness :
  exists m1 m2, uacpi_write_buffer_field m0 f 74 2 = Some m1 /\
    uacpi_read_buffer_field m1 f 70 = Some m2 /\ load_le m2 70 2 = Some (0xf0de mod 2 ^ 14).
Proof.
  destruct (buffer_field_roundtrip m0 f 74 2 0xf0de 70 field_ok_f) as (m1 & m2 & E1 & E2 & E3 & _);
    try decided; try (simpl; lia); try (vm_compute; reflexivity);
    try (unfold copyable, field_start; simpl; lia).
  exists m1, m2; split; [exact E1|split; [exact E2|exact E3]].
Defined.

End Demo.
