(* ===== verification/UCore.v ===== *)
(** * uACPI: status codes and the monad of its stateful code

    [uacpi_status] is the enumeration of acpi/uacpi/status.h.  A function of the C
    sources that changes state is a computation [SM S A]: it maps a state to a
    result and a new state, or has no result ([None]) when the C code would have
    undefined behaviour (or, in a loop, when the fuel of the model is not enough,
    which the theorems exclude).  Errors of the program itself are values of
    [uacpi_status], as in the source. *)

From S2P Require Import Prelude CMem.

Inductive uacpi_status : Set :=
  | UACPI_STATUS_OK
  | UACPI_STATUS_MAPPING_FAILED
  | UACPI_STATUS_OUT_OF_MEMORY
  | UACPI_STATUS_BAD_CHECKSUM
  | UACPI_STATUS_INVALID_SIGNATURE
  | UACPI_STATUS_INVALID_TABLE_LENGTH
  | UACPI_STATUS_NOT_FOUND
  | UACPI_STATUS_INVALID_ARGUMENT
  | UACPI_STATUS_UNIMPLEMENTED
  | UACPI_STATUS_ALREADY_EXISTS
  | UACPI_STATUS_INTERNAL_ERROR
  | UACPI_STATUS_TYPE_MISMATCH
  | UACPI_STATUS_INIT_LEVEL_MISMATCH
  | UACPI_STATUS_NAMESPACE_NODE_DANGLING
  | UACPI_STATUS_NO_HANDLER
  | UACPI_STATUS_NO_RESOURCE_END_TAG
  | UACPI_STATUS_COMPILED_OUT
  | UACPI_STATUS_HARDWARE_TIMEOUT
  | UACPI_STATUS_TIMEOUT
  | UACPI_STATUS_OVERRIDDEN
  | UACPI_STATUS_DENIED
  | UACPI_STATUS_AML_UNDEFINED_REFERENCE
  | UACPI_STATUS_AML_INVALID_NAMESTRING
  | UACPI_STATUS_AML_OBJECT_ALREADY_EXISTS
  | UACPI_STATUS_AML_INVALID_OPCODE
  | UACPI_STATUS_AML_INCOMPATIBLE_OBJECT_TYPE
  | UACPI_STATUS_AML_BAD_ENCODING
  | UACPI_STATUS_AML_OUT_OF_BOUNDS_INDEX
  | UACPI_STATUS_AML_SYNC_LEVEL_TOO_HIGH
  | UACPI_STATUS_AML_INVALID_RESOURCE
  | UACPI_STATUS_AML_LOOP_TIMEOUT
  | UACPI_STATUS_AML_CALL_STACK_DEPTH_LIMIT.

#[export] Instance uacpi_status_eq_dec : EqDecision uacpi_status.
Proof. solve_decision. Defined.

(** [uacpi_unlikely_error(ret)] and its negation. *)
Definition is_ok (s : uacpi_status) : bool :=
  match s with UACPI_STATUS_OK => true | _ => false end.

Lemma is_ok_true s : is_ok s = true <-> s = UACPI_STATUS_OK.
Proof. destruct s; simpl; split; congruence. Qed.

(** ** The monad *)

Definition SM (S A : Type) : Type := S -> option (A * S).

#[export] Instance SM_ret {S} : MRet (SM S) := fun A a s => Some (a, s).
#[export] Instance SM_bind {S} : MBind (SM S) := fun A B f c s =>
  match c s with Some (a, s') => f a s' | None => None end.

Section Monad.
Context {S : Type}.

(** Undefined behaviour. *)
Definition undefined {A} : SM S A := fun _ => None.
Definition get_state : SM S S := fun s => Some (s, s).
Definition put_state (s : S) : SM S unit := fun _ => Some (tt, s).
Definition gets_state {A} (f : S -> A) : SM S A := fun s => Some (f s, s).
Definition update_state (f : S -> S) : SM S unit := fun s => Some (tt, f s).

(** Run [c] and, when it fails, return its status ([if (error(ret)) return ret]). *)
Definition try_ok (c : SM S uacpi_status) (k : SM S uacpi_status) : SM S uacpi_status :=
  ret ← c; if is_ok ret then k else mret ret.

Lemma SM_bind_Some {A B} (c : SM S A) (k : A -> SM S B) s a s' :
  c s = Some (a, s') -> mbind k c s = k a s'.
Proof. intros E; unfold mbind, SM_bind; rewrite E; reflexivity. Qed.

Lemma SM_bind_None {A B} (c : SM S A) (k : A -> SM S B) s : c s = None -> mbind k c s = None.
Proof. intros E; unfold mbind, SM_bind; rewrite E; reflexivity. Qed.

Lemma SM_bind_inv {A B} (c : SM S A) (k : A -> SM S B) s r : mbind k c s = Some r ->
  exists a s', c s = Some (a, s') /\ k a s' = Some r.
Proof.
  unfold mbind, SM_bind; destruct (c s) as [[a s']|]; [|discriminate].
  intros E; exists a, s'; split; [reflexivity|exact E].
Qed.

Lemma try_ok_ok c k s s' : c s = Some (UACPI_STATUS_OK, s') -> try_ok c k s = k s'.
Proof. intros E; unfold try_ok; rewrite (SM_bind_Some _ _ _ _ _ E); reflexivity. Qed.

(** A property of states kept by a computation, whatever it returns. *)
Definition keeps {A} (P : S -> Prop) (c : SM S A) : Prop :=
  forall s a s', P s -> c s = Some (a, s') -> P s'.

(** A relation between the states before and after. *)
Definition steps {A} (R : S -> S -> Prop) (c : SM S A) : Prop :=
  forall s a s', c s = Some (a, s') -> R s s'.

Lemma steps_ret {A} R (a : A) : Reflexive R -> steps R (mret a : SM S A).
Proof. intros H s b s' [= <- <-]; reflexivity. Qed.

Lemma steps_bind {A B} R (c : SM S A) (k : A -> SM S B) :
  Transitive R -> steps R c -> (forall a, steps R (k a)) -> steps R (mbind k c).
Proof.
  intros HT Hc Hk s b s'; unfold mbind, SM_bind.
  destruct (c s) as [[a s1]|] eqn:E; [|discriminate].
  intros E'; etransitivity; [eapply Hc, E|eapply Hk, E'].
Qed.

Lemma steps_undefined {A} R : steps R (undefined : SM S A).
Proof. intros s a s'; discriminate. Qed.

Lemma steps_if {A} R (b : bool) (c d : SM S A) :
  steps R c -> steps R d -> steps R (if b then c else d).
Proof. destruct b; auto. Qed.

Lemma steps_try_ok R c k : Reflexive R -> Transitive R -> steps R c -> steps R k ->
  steps R (try_ok c k).
Proof.
  intros; apply steps_bind; auto; intros a; apply steps_if; auto; apply steps_ret; auto.
Qed.

Lemma steps_gets {A} R (f : S -> A) : Reflexive R -> steps R (gets_state f).
Proof. intros HR s a s' [= <- <-]; reflexivity. Qed.
End Monad.

Create HintDb steps discriminated.
#[export] Hint Resolve steps_ret steps_bind steps_undefined steps_if steps_try_ok steps_gets : steps.

(** Unfold the monad's operations in a goal. *)
Ltac smunfold :=
  unfold try_ok, mret, SM_ret, mbind, SM_bind, undefined, get_state, put_state, gets_state,
    update_state in *; cbv beta iota in *.
