(* ===== verification/FieldUnit.v ===== *)
(** * acpi/uacpi/io.c: field units of operation regions

    Reading and writing AML field units: splitting a field into accesses of the
    declared width, merging according to the update rule, selecting banks and
    index/data pairs, and the address spaces that exchange whole buffers.  The
    access itself goes to the operation-region dispatcher, the global lock and
    the allocator, which other components provide: [RegionIO] is the interface
    to them.

    The state is a byte memory and the interface's world.  A local variable whose
    address is taken ([in], [out], [in_out], [offset]) lives in the eight bytes at
    [sp], a free stack address that each function receives and passes on as
    [sp + 8]. *)

From S2P Require Import Prelude CMem UStdlib BitIO UCore.

Open Scope word_scope.

(** ** Data *)

Inductive uacpi_region_op :=
  | UACPI_REGION_OP_ATTACH | UACPI_REGION_OP_DETACH
  | UACPI_REGION_OP_READ | UACPI_REGION_OP_WRITE
  | UACPI_REGION_OP_PCC_SEND | UACPI_REGION_OP_GPIO_READ | UACPI_REGION_OP_GPIO_WRITE
  | UACPI_REGION_OP_IPMI_COMMAND | UACPI_REGION_OP_FFIXEDHW_COMMAND
  | UACPI_REGION_OP_PRM_COMMAND | UACPI_REGION_OP_SERIAL_READ | UACPI_REGION_OP_SERIAL_WRITE.

Inductive uacpi_address_space :=
  | UACPI_ADDRESS_SPACE_SYSTEM_MEMORY | UACPI_ADDRESS_SPACE_SYSTEM_IO
  | UACPI_ADDRESS_SPACE_PCI_CONFIG | UACPI_ADDRESS_SPACE_EMBEDDED_CONTROLLER
  | UACPI_ADDRESS_SPACE_SMBUS | UACPI_ADDRESS_SPACE_SYSTEM_CMOS
  | UACPI_ADDRESS_SPACE_PCI_BAR_TARGET | UACPI_ADDRESS_SPACE_IPMI
  | UACPI_ADDRESS_SPACE_GENERAL_PURPOSE_IO | UACPI_ADDRESS_SPACE_GENERIC_SERIAL_BUS
  | UACPI_ADDRESS_SPACE_PCC | UACPI_ADDRESS_SPACE_PRM | UACPI_ADDRESS_SPACE_FFIXEDHW
  | UACPI_ADDRESS_SPACE_TABLE_DATA
  | UACPI_ADDRESS_SPACE_OEM (code : Z).

(** Two bits of the struct; 3 is none of the named rules. *)
Inductive uacpi_update_rule :=
  | UACPI_UPDATE_RULE_PRESERVE | UACPI_UPDATE_RULE_WRITE_AS_ONES
  | UACPI_UPDATE_RULE_WRITE_AS_ZEROES | UPDATE_RULE_INVALID.

#[export] Instance uacpi_region_op_eq_dec : EqDecision uacpi_region_op.
Proof. solve_decision. Defined.
#[export] Instance uacpi_address_space_eq_dec : EqDecision uacpi_address_space.
Proof. solve_decision. Defined.

(** The members that every kind of field unit has. *)
Record field_props := {
  byte_offset : Z;
  bit_length : Z;
  pin_offset : Z;
  bit_offset_within_first_byte : Z;
  access_width_bytes : Z;
  access_length : Z;
  attributes : Z;
  update_rule : uacpi_update_rule;
  lock_rule : bool
}.

(** A field unit by its kind; the union of the struct becomes the arguments of the
    constructors ([region] is a namespace node). *)
Inductive uacpi_field_unit :=
  | FieldNormal (p : field_props) (region : Z)
  | FieldIndex (p : field_props) (index data : uacpi_field_unit)
  | FieldBank (p : field_props) (bank_region : Z) (bank_selection : uacpi_field_unit)
      (bank_value : Z)
  | FieldInvalidKind (p : field_props) (region : Z).

Definition props (f : uacpi_field_unit) : field_props :=
  match f with
  | FieldNormal p _ | FieldIndex p _ _ | FieldBank p _ _ _ | FieldInvalidKind p _ => p
  end.

(** [field->region]; for an index field the member overlays [index]. *)
Definition field_region (f : uacpi_field_unit) : option Z :=
  match f with
  | FieldNormal _ r | FieldBank _ r _ _ | FieldInvalidKind _ r => Some r
  | FieldIndex _ _ _ => None
  end.

(** [union uacpi_opregion_io_data]: a pointer to an integer or a buffer. *)
Inductive io_data :=
  | IoInteger (integer : Z)
  | IoBuffer (data length : Z).

Definition uacpi_data_view : Type := Z * Z.

(** ** What field access needs from the rest of uACPI *)

Class RegionIO (W : Type) := {
  (** uacpi_dispatch_opregion_io *)
  dispatch_opregion_io :
    uacpi_field_unit -> Z -> uacpi_region_op -> io_data -> SM (bytes * W) uacpi_status;
  (** the address space of the region object of a node, if it still has one *)
  region_space : Z -> W -> option uacpi_address_space;
  (** uacpi_acquire_aml_mutex(global_lock_mutex, 0xFFFF) and its release *)
  acquire_global_lock_mutex : SM W uacpi_status;
  release_global_lock_mutex : SM W unit;
  (** uacpi_kernel_alloc and uacpi_free *)
  region_alloc : Z -> SM (bytes * W) (option Z);
  region_free : Z -> Z -> SM (bytes * W) unit;
  (** g_uacpi_rt_ctx.is_rev1 *)
  is_rev1 : W -> bool
}.

Section FieldUnits.
Context {W : Type} {RIO : RegionIO W}.

Abbreviation M := (SM (bytes * W)).

Definition in_world {A} (c : SM W A) : M A := fun '(m, w) =>
  match c w with Some (a, w') => Some (a, (m, w')) | None => None end.

Definition in_memory (f : bytes -> option bytes) : M unit := fun '(m, w) =>
  match f m with Some m' => Some (tt, (m', w)) | None => None end.

Definition ask {A} (f : W -> A) : M A := fun '(m, w) => Some (f w, (m, w)).

Definition skip : M unit := mret tt.

(** [*p = v] for an object of [n] bytes. *)
Definition assign (p : Z) (n : nat) (v : Z) : M unit := in_memory (fun m => store_le m p n v).

(** ** Buffer-exchanging address spaces *)

Definition SERIAL_HEADER_SIZE : Z := 2.
Definition IPMI_DATA_SIZE : Z := 64.

Definition wtr_buffer_size (p : field_props) (space : uacpi_address_space) :
    uacpi_status * Z :=
  match space with
  | UACPI_ADDRESS_SPACE_IPMI => (UACPI_STATUS_OK, SERIAL_HEADER_SIZE + IPMI_DATA_SIZE)
  | UACPI_ADDRESS_SPACE_PRM => (UACPI_STATUS_OK, 26)
  | UACPI_ADDRESS_SPACE_FFIXEDHW => (UACPI_STATUS_OK, 256)
  | UACPI_ADDRESS_SPACE_GENERIC_SERIAL_BUS | UACPI_ADDRESS_SPACE_SMBUS =>
      let a := attributes p in
      if a =? 0x02 then (UACPI_STATUS_OK, SERIAL_HEADER_SIZE)
      else if (a =? 0x04) || (a =? 0x06) then (UACPI_STATUS_OK, SERIAL_HEADER_SIZE + 1)
      else if (a =? 0x08) || (a =? 0x0c) then (UACPI_STATUS_OK, SERIAL_HEADER_SIZE + 2)
      else if a =? 0x0b then (UACPI_STATUS_OK, SERIAL_HEADER_SIZE + access_length p)
      else if (a =? 0x0a) || (a =? 0x0d) || (a =? 0x0e) || (a =? 0x0f)
      then (UACPI_STATUS_OK, SERIAL_HEADER_SIZE + 255)
      else (UACPI_STATUS_UNIMPLEMENTED, 0)
  | _ => (UACPI_STATUS_INVALID_ARGUMENT, 0)
  end.

Definition uacpi_is_buffer_access_address_space (space : uacpi_address_space) : bool :=
  match space with
  | UACPI_ADDRESS_SPACE_SMBUS | UACPI_ADDRESS_SPACE_IPMI
  | UACPI_ADDRESS_SPACE_GENERIC_SERIAL_BUS | UACPI_ADDRESS_SPACE_PRM
  | UACPI_ADDRESS_SPACE_FFIXEDHW => true
  | _ => false
  end.

(** ** Reading and writing one field

    The bodies are parameterised by [access], the field's own
    [access_field_unit], which for index and bank fields calls the bodies of the
    field units they refer to. *)

Section Body.
Variable field : uacpi_field_unit.
Variable access : Z -> Z -> uacpi_region_op -> io_data -> M uacpi_status.
Let p := props field.

(** The result: the status, whether the access was handled, the response. *)
Abbreviation handled := (uacpi_status * bool * option uacpi_data_view)%type.

(** do_wtr: write a buffer of the protocol's size and hand it back. *)
Definition do_wtr (sp : Z) (buf : uacpi_data_view) (op : uacpi_region_op)
    (want_response : bool) (space : uacpi_address_space) : M handled :=
  let (st, len) := wtr_buffer_size p space in
  if negb (is_ok st) then mret (st, true, None) else
  data ← region_alloc len;
  match data with
  | None => mret (UACPI_STATUS_OUT_OF_MEMORY, true, None)
  | Some d =>
      in_memory (fun m => uacpi_memcpy_zerout m d (fst buf) len (snd buf));;
      ret ← access sp (byte_offset p) op (IoBuffer d len);
      if is_ok ret
      then mret (ret, true, if want_response then Some (d, len) else None)
      else region_free d len;; mret (ret, true, None)
  end.

Definition handle_special_field (sp : Z) (buf : uacpi_data_view) (op : uacpi_region_op)
    (want_response : bool) : M handled :=
  match field_region field with
  | None => mret (UACPI_STATUS_OK, false, None)
  | Some region =>
      obj ← ask (region_space region);
      match obj with
      | None => mret (UACPI_STATUS_INVALID_ARGUMENT, true, None)
      | Some UACPI_ADDRESS_SPACE_GENERAL_PURPOSE_IO =>
          (if decide (op = UACPI_REGION_OP_WRITE)
           then in_memory (fun m => uacpi_memcpy_zerout m sp (fst buf) 8 (snd buf))
           else skip);;
          ret ← access (sp + 8) 0 op (IoInteger sp);
          if negb (is_ok ret) then mret (ret, true, None) else
          (if decide (op = UACPI_REGION_OP_READ)
           then in_memory (fun m => uacpi_memcpy_zerout m (fst buf) sp (snd buf) 8)
           else skip);;
          mret (ret, true, None)
      | Some (UACPI_ADDRESS_SPACE_IPMI as space)
      | Some (UACPI_ADDRESS_SPACE_PRM as space) =>
          if decide (op = UACPI_REGION_OP_READ)
          then mret (UACPI_STATUS_AML_INCOMPATIBLE_OBJECT_TYPE, true, None)
          else do_wtr sp buf op want_response space
      | Some (UACPI_ADDRESS_SPACE_FFIXEDHW as space)
      | Some (UACPI_ADDRESS_SPACE_GENERIC_SERIAL_BUS as space)
      | Some (UACPI_ADDRESS_SPACE_SMBUS as space) =>
          do_wtr sp buf op want_response space
      | Some _ => mret (UACPI_STATUS_OK, false, None)
      end
  end.

Definition width_access_bits : Z := u8 (access_width_bytes p * 8).

Definition span (data index length : Z) : bit_span :=
  {| span_data := data; span_index := index; span_length := length |}.

(** [while (reads_to_do-- > 0)], with the state of the spans as arguments. *)
Fixpoint read_loop (reads_to_do : nat) (sp offset bits_left src_index : Z) (dst_span : bit_span) :
    M uacpi_status :=
  match reads_to_do with
  | O => mret UACPI_STATUS_OK
  | S reads =>
      let src_length := Z.min bits_left (width_access_bits -64 src_index) in
      try_ok (access (sp + 8) offset UACPI_REGION_OP_READ (IoInteger sp))
       (in_memory (fun m => bit_copy m dst_span (span sp src_index src_length));;
        read_loop reads sp (u32 (offset + access_width_bytes p)) (u32 (bits_left - src_length)) 0
          (fst (bit_span_offset dst_span src_length)))
  end.

Definition reads_to_do : Z :=
  align_up 32 (bit_offset_within_first_byte p + bit_length p) width_access_bits
    / width_access_bits.

Definition do_read_misaligned_field_unit (sp dst size : Z) : M uacpi_status :=
  read_loop (Z.to_nat reads_to_do) sp (byte_offset p) (bit_length p)
    (bit_offset_within_first_byte p) (span dst 0 (size *64 8)).

Definition read_field_unit_body (sp dst size : Z) (want_response : bool) :
    M (uacpi_status * option uacpi_data_view) :=
  r ← handle_special_field sp (dst, size) UACPI_REGION_OP_READ want_response;
  let '(ret, did_handle, response) := (r : handled) in
  if did_handle then mret (ret, response) else
  let field_byte_length := u32 (uacpi_round_up_bits_to_bytes (bit_length p)) in
  ret ← (if (bit_offset_within_first_byte p =? 0)
            && (field_byte_length <=? access_width_bytes p)
         then
           try_ok (access (sp + 8) (byte_offset p) UACPI_REGION_OP_READ (IoInteger sp))
            (in_memory (fun m => uacpi_memcpy_zerout m dst sp size field_byte_length);;
             (if field_byte_length <=? size
              then in_memory (fun m =>
                     cut_misaligned_tail m dst (field_byte_length - 1) (bit_length p))
              else skip);;
             mret UACPI_STATUS_OK)
         else do_read_misaligned_field_unit sp dst size);
  mret (ret, None).

(** The value of [in] before the bits are merged into it. *)
Definition merge_base (sp offset index length : Z) : M uacpi_status :=
  assign sp 8 0;;
  if negb (index =? 0) || (length <? width_access_bits) then
    match update_rule p with
    | UACPI_UPDATE_RULE_PRESERVE =>
        access (sp + 8) offset UACPI_REGION_OP_READ (IoInteger sp)
    | UACPI_UPDATE_RULE_WRITE_AS_ONES => assign sp 8 (Z.lnot 0);; mret UACPI_STATUS_OK
    | UACPI_UPDATE_RULE_WRITE_AS_ZEROES => mret UACPI_STATUS_OK
    | UPDATE_RULE_INVALID => mret UACPI_STATUS_INVALID_ARGUMENT
    end
  else mret UACPI_STATUS_OK.

(** [while (bits_left)]; an iteration writes at least one bit. *)
Fixpoint write_loop (fuel : nat) (sp offset bits_left dst_index : Z) (src_span : bit_span) :
    M uacpi_status :=
  if bits_left =? 0 then mret UACPI_STATUS_OK else
  match fuel with
  | O => undefined
  | S fuel' =>
      let dst_length := Z.min (width_access_bits -64 dst_index) bits_left in
      try_ok (merge_base sp offset dst_index dst_length)
       (in_memory (fun m => bit_copy m (span sp dst_index dst_length) src_span);;
        try_ok (access (sp + 8) offset UACPI_REGION_OP_WRITE (IoInteger sp))
         (write_loop fuel' sp (u32 (offset + access_width_bytes p)) (u32 (bits_left - dst_length))
            0 (fst (bit_span_offset src_span dst_length))))
  end.

Definition write_generic_field_unit (sp src size : Z) : M uacpi_status :=
  write_loop (Z.to_nat (bit_length p)) sp (byte_offset p) (bit_length p)
    (bit_offset_within_first_byte p) (span src 0 (size *64 8)).

Definition write_field_unit_body (sp src size : Z) (want_response : bool) :
    M (uacpi_status * option uacpi_data_view) :=
  r ← handle_special_field sp (src, size) UACPI_REGION_OP_WRITE want_response;
  let '(ret, did_handle, response) := (r : handled) in
  if did_handle then mret (ret, response) else
  ret ← write_generic_field_unit sp src size;
  mret (ret, None).
End Body.

(** ** One access *)

Fixpoint access_field_unit (field : uacpi_field_unit) (sp offset : Z) (op : uacpi_region_op)
    (data : io_data) {struct field} : M uacpi_status :=
  let locked := lock_rule (props field) in
  try_ok (if locked then in_world acquire_global_lock_mutex else mret UACPI_STATUS_OK)
   (ret ← match field with
          | FieldBank _ _ selection bank_value =>
              assign sp 8 bank_value;;
              r ← write_field_unit_body selection (access_field_unit selection) (sp + 8) sp 8 false;
              if is_ok (fst r) then dispatch_opregion_io field offset op data else mret (fst r)
          | FieldNormal _ _ => dispatch_opregion_io field offset op data
          | FieldIndex p index data_field =>
              assign sp 4 offset;;
              r ← write_field_unit_body index (access_field_unit index) (sp + 8) sp 4 false;
              if negb (is_ok (fst r)) then mret (fst r) else
              match data with
              | IoBuffer _ _ => undefined
              | IoInteger integer =>
                  match op with
                  | UACPI_REGION_OP_READ =>
                      r ← read_field_unit_body data_field (access_field_unit data_field)
                            (sp + 8) integer (access_width_bytes p) false;
                      mret (fst r)
                  | UACPI_REGION_OP_WRITE =>
                      r ← write_field_unit_body data_field (access_field_unit data_field)
                            (sp + 8) integer (access_width_bytes p) false;
                      mret (fst r)
                  | _ => mret UACPI_STATUS_INVALID_ARGUMENT
                  end
              end
          | FieldInvalidKind _ _ => mret UACPI_STATUS_INVALID_ARGUMENT
          end;
    (if locked then in_world release_global_lock_mutex else skip);;
    mret ret).

Definition uacpi_read_field_unit (field : uacpi_field_unit) :=
  read_field_unit_body field (access_field_unit field).

Definition uacpi_write_field_unit (field : uacpi_field_unit) :=
  write_field_unit_body field (access_field_unit field).

(** ** Types and lengths of fields *)

Inductive read_type := READ_INTEGER | READ_BUFFER.

Definition uacpi_field_unit_get_read_type (field : uacpi_field_unit) (w : W) :
    uacpi_status * option read_type :=
  let basic :=
    (UACPI_STATUS_OK, Some (if (if is_rev1 w then 32 else 64) <? bit_length (props field)
                            then READ_BUFFER else READ_INTEGER)) in
  match field_region field with
  | None => basic
  | Some region =>
      match region_space region w with
      | None => (UACPI_STATUS_INVALID_ARGUMENT, None)
      | Some space =>
          if uacpi_is_buffer_access_address_space space
          then (UACPI_STATUS_OK, Some READ_BUFFER) else basic
      end
  end.

Definition uacpi_field_unit_get_bit_length (field : uacpi_field_unit) (w : W) :
    uacpi_status * option Z :=
  let basic := (UACPI_STATUS_OK, Some (bit_length (props field))) in
  match field_region field with
  | None => basic
  | Some region =>
      match region_space region w with
      | None => (UACPI_STATUS_INVALID_ARGUMENT, None)
      | Some space =>
          if uacpi_is_buffer_access_address_space space
          then (UACPI_STATUS_OK, Some 0) else basic
      end
  end.
End FieldUnits.

(** ** The global lock is balanced *)

(** What the lock interface promises: acquiring raises the nesting depth when it
    succeeds, releasing lowers it, and nothing else changes it. *)
Record lock_laws {W} `{RegionIO W} (depth : W -> Z) : Prop := {
  ll_acquire : forall w st w', acquire_global_lock_mutex w = Some (st, w') ->
    depth w' = depth w + if is_ok st then 1 else 0;
  ll_release : forall w u w', release_global_lock_mutex w = Some (u, w') -> depth w' = depth w - 1;
  ll_dispatch : forall f o op d s st s', dispatch_opregion_io f o op d s = Some (st, s') ->
    depth (snd s') = depth (snd s);
  ll_alloc : forall n s q s', region_alloc n s = Some (q, s') -> depth (snd s') = depth (snd s);
  ll_free : forall q n s u s', region_free q n s = Some (u, s') -> depth (snd s') = depth (snd s)
}.

Section LockBalance.
Context {W : Type} {RIO : RegionIO W} (depth : W -> Z) (laws : lock_laws depth).

Definition same_depth (s s' : bytes * W) : Prop := depth (snd s') = depth (snd s).

#[local] Instance same_depth_refl : Reflexive same_depth.
Proof. intros s; reflexivity. Qed.
#[local] Instance same_depth_trans : Transitive same_depth.
Proof. intros s t u H1 H2; unfold same_depth in *; congruence. Qed.

Lemma in_memory_depth f : steps same_depth (in_memory (W := W) f).
Proof. intros [m w] u s'; unfold in_memory; destruct (f m); [intros [= _ <-]; reflexivity|discriminate]. Qed.

Lemma ask_depth {A} (f : W -> A) : steps same_depth (ask f).
Proof. intros [m w] u s' [= _ <-]; reflexivity. Qed.

Lemma skip_depth : steps same_depth (skip (W := W)).
Proof. intros [m w] u s' [= _ <-]; reflexivity. Qed.

Lemma dispatch_depth f o op d : steps same_depth (dispatch_opregion_io f o op d).
Proof. intros s st s'; apply (ll_dispatch _ laws). Qed.

Lemma alloc_depth n : steps same_depth (region_alloc n).
Proof. intros s q s'; apply (ll_alloc _ laws). Qed.

Lemma free_depth q n : steps same_depth (region_free q n).
Proof. intros s u s'; apply (ll_free _ laws). Qed.

#[local] Hint Resolve in_memory_depth ask_depth skip_depth dispatch_depth alloc_depth free_depth : steps.

(** A computation put together from balanced ones is balanced. *)
Ltac balanced :=
  repeat first
    [ progress cbv zeta
    | solve [eauto with steps typeclass_instances]
    | apply steps_try_ok; [typeclasses eauto|typeclasses eauto| |]
    | apply steps_bind; [typeclasses eauto| |intros]
    | apply steps_if
    | match goal with |- steps _ (match ?x with _ => _ end) => destruct x end
    | match goal with |- steps _ (let (_, _) := ?x in _) => destruct x end ].

Section Body.
Variable field : uacpi_field_unit.
Variable access : Z -> Z -> uacpi_region_op -> io_data -> SM (bytes * W) uacpi_status.
Hypothesis access_depth : forall sp o op d, steps same_depth (access sp o op d).
#[local] Hint Resolve access_depth : steps.

Lemma handle_special_field_depth sp buf op b :
  steps same_depth (handle_special_field field access sp buf op b).
Proof. unfold handle_special_field, do_wtr; balanced. Qed.

Lemma read_loop_depth n : forall sp o b i d,
  steps same_depth (read_loop field access n sp o b i d).
Proof. induction n; intros; simpl; balanced. Qed.

Lemma merge_base_depth sp o i l : steps same_depth (merge_base field access sp o i l).
Proof. unfold merge_base, assign; balanced. Qed.
#[local] Hint Resolve handle_special_field_depth read_loop_depth merge_base_depth : steps.

Lemma write_loop_depth n : forall sp o b i d,
  steps same_depth (write_loop field access n sp o b i d).
Proof. induction n; intros; simpl; balanced. Qed.
#[local] Hint Resolve write_loop_depth : steps.

Lemma read_body_depth sp dst size b :
  steps same_depth (read_field_unit_body field access sp dst size b).
Proof. unfold read_field_unit_body, do_read_misaligned_field_unit; balanced. Qed.

Lemma write_body_depth sp src size b :
  steps same_depth (write_field_unit_body field access sp src size b).
Proof. unfold write_field_unit_body, write_generic_field_unit; balanced. Qed.
End Body.
#[local] Hint Resolve read_body_depth write_body_depth : steps.

(** Taking the lock around a balanced computation is balanced. *)
Lemma locked_depth (locked : bool) (c : SM (bytes * W) uacpi_status) : steps same_depth c ->
  steps same_depth
    (try_ok (if locked then in_world acquire_global_lock_mutex else mret UACPI_STATUS_OK)
      (ret ← c; (if locked then in_world release_global_lock_mutex else skip);; mret ret)).
Proof.
  intros Hc; destruct locked; [|balanced].
  intros [m w] st [m' w']; unfold try_ok, in_world; smunfold.
  destruct (acquire_global_lock_mutex w) as [[st1 w1]|] eqn:E1; [|discriminate].
  apply (ll_acquire _ laws) in E1; unfold same_depth; simpl.
  destruct (is_ok st1); [|intros [= _ _ <-]; lia].
  destruct (c (m, w1)) as [[st2 [m2 w2]]|] eqn:E2; [|discriminate]; apply Hc in E2.
  destruct (release_global_lock_mutex w2) as [[u w3]|] eqn:E3; [|discriminate].
  apply (ll_release _ laws) in E3; unfold same_depth in E2; simpl in E2.
  intros [= _ _ <-]; lia.
Qed.

Lemma access_field_unit_depth field : forall sp o op d,
  steps same_depth (access_field_unit field sp o op d).
Proof.
  induction field as [p r|p i IHi d IHd|p r sel IHs v|p r]; intros sp o op dat;
    simpl access_field_unit; apply locked_depth; unfold assign; balanced.
Qed.
End LockBalance.

(** ** Memory-like regions

    A region whose registers behave like memory: reading an access unit returns
    its bytes and changes nothing, writing one replaces its bytes.  [content] is
    the bit string of the region, [limit] its length in bytes. *)

Record memory_like {W} `{RegionIO W} (f : uacpi_field_unit) (content : W -> Z -> bool)
    (limit : Z) : Prop := {
  mk_read : forall m w o q, 0 <= o -> o + access_width_bytes (props f) <= limit ->
    bytes_ok m -> owned m q 8 ->
    exists m', dispatch_opregion_io f o UACPI_REGION_OP_READ (IoInteger q) (m, w)
        = Some (UACPI_STATUS_OK, (m', w)) /\ same_dom m m' /\ bytes_ok m' /\
      forall x, bitat m' x = if within (8 * q) 64 x
        then (x - 8 * q <? 8 * access_width_bytes (props f)) && content w (8 * o + (x - 8 * q))
        else bitat m x;
  mk_write : forall m w o q, 0 <= o -> o + access_width_bytes (props f) <= limit ->
    bytes_ok m -> owned m q 8 ->
    exists w', dispatch_opregion_io f o UACPI_REGION_OP_WRITE (IoInteger q) (m, w)
        = Some (UACPI_STATUS_OK, (m, w')) /\
      (forall r, region_space r w' = region_space r w) /\
      forall x, content w' x = if within (8 * o) (8 * access_width_bytes (props f)) x
        then bitat m (8 * q + (x - 8 * o)) else content w x;
  mk_acquire : forall w, exists w', acquire_global_lock_mutex w = Some (UACPI_STATUS_OK, w') /\
    (forall r, region_space r w' = region_space r w) /\ forall x, content w' x = content w x;
  mk_release : forall w, exists w', release_global_lock_mutex w = Some (tt, w') /\
    (forall r, region_space r w' = region_space r w) /\ forall x, content w' x = content w x
}.

(** The address spaces that are accessed register by register. *)
Definition plain_space (s : uacpi_address_space) : bool :=
  negb (uacpi_is_buffer_access_address_space s) &&
  negb (bool_decide (s = UACPI_ADDRESS_SPACE_GENERAL_PURPOSE_IO)).

Section Plain.
Context {W : Type} {RIO : RegionIO W}.
Variables (p : field_props) (region : Z) (content : W -> Z -> bool) (limit : Z).
Abbreviation f := (FieldNormal p region).
Hypothesis ml : memory_like f content limit.

Definition same_content (w w' : W) : Prop :=
  (forall r, region_space r w' = region_space r w) /\ forall x, content w' x = content w x.

#[local] Instance same_content_refl : Reflexive same_content.
Proof. split; reflexivity. Qed.
#[local] Instance same_content_trans : Transitive same_content.
Proof. intros x y z [A1 A2] [B1 B2]; split; intros; rewrite ?B1, ?B2; auto. Qed.

Let width := access_width_bytes p.
Let B := 8 * width.

(** What an access computes, lock or no lock. *)
Lemma access_read sp m w o q : 0 <= o -> o + width <= limit -> bytes_ok m -> owned m q 8 ->
  exists m' w', access_field_unit f sp o UACPI_REGION_OP_READ (IoInteger q) (m, w)
      = Some (UACPI_STATUS_OK, (m', w')) /\ same_content w w' /\ same_dom m m' /\ bytes_ok m' /\
    forall x, bitat m' x = if within (8 * q) 64 x
      then (x - 8 * q <? B) && content w (8 * o + (x - 8 * q)) else bitat m x.
Proof.
  intros H1 H2 Hok Ho; simpl access_field_unit; destruct (lock_rule p).
  - destruct (mk_acquire _ _ _ ml w) as (w1 & E1 & S1 & C1).
    destruct (mk_read _ _ _ ml m w1 o q H1 H2 Hok Ho) as (m' & E2 & D & K & Bm).
    destruct (mk_release _ _ _ ml w1) as (w2 & E3 & S2 & C2).
    exists m', w2; split.
    { unfold in_world; smunfold; rewrite E1; cbn [is_ok]; cbv beta iota; rewrite E2, E3; reflexivity. }
    split; [etransitivity; split; eauto|split; [exact D|split; [exact K|]]].
    intros x; rewrite Bm; destruct (within _ _ x); [rewrite C1|]; reflexivity.
  - destruct (mk_read _ _ _ ml m w o q H1 H2 Hok Ho) as (m' & E2 & D & K & Bm).
    exists m', w; split; [|split; [reflexivity|auto]].
    smunfold; cbn [is_ok]; cbv beta iota; rewrite E2; reflexivity.
Qed.

Lemma access_write sp m w o q : 0 <= o -> o + width <= limit -> bytes_ok m -> owned m q 8 ->
  exists w', access_field_unit f sp o UACPI_REGION_OP_WRITE (IoInteger q) (m, w)
      = Some (UACPI_STATUS_OK, (m, w')) /\
    (forall r, region_space r w' = region_space r w) /\
    forall x, content w' x =
      if within (8 * o) B x then bitat m (8 * q + (x - 8 * o)) else content w x.
Proof.
  intros H1 H2 Hok Ho; simpl access_field_unit; destruct (lock_rule p).
  - destruct (mk_acquire _ _ _ ml w) as (w1 & E1 & S1 & C1).
    destruct (mk_write _ _ _ ml m w1 o q H1 H2 Hok Ho) as (w2 & E2 & S2 & C2).
    destruct (mk_release _ _ _ ml w2) as (w3 & E3 & S3 & C3).
    exists w3; split; [|split].
    + unfold in_world; smunfold; rewrite E1; cbn [is_ok]; cbv beta iota; rewrite E2, E3; reflexivity.
    + intros r; rewrite S3, S2, S1; reflexivity.
    + intros x; rewrite C3, C2, C1; reflexivity.
  - destruct (mk_write _ _ _ ml m w o q H1 H2 Hok Ho) as (w2 & E2 & S2 & C2).
    exists w2; split; [|auto]; smunfold; cbn [is_ok]; cbv beta iota; rewrite E2; reflexivity.
Qed.

Lemma in_memory_bind {A} (g : bytes -> option bytes) (k : SM (bytes * W) A) m m' w :
  g m = Some m' -> (in_memory g;; k) (m, w) = k (m', w).
Proof. intros E; unfold in_memory; smunfold; rewrite E; reflexivity. Qed.

(** ** Reading *)

Hypothesis width_ok : width = 1 \/ width = 2 \/ width = 4 \/ width = 8.

Lemma width_bits : width_access_bits f = B.
Proof. 
  unfold width_access_bits; simpl; fold width; unfold B; rewrite wrap_id by (split; lia); lia.
Qed.

(** [m'] holds [b] bits of the region from bit [R] on in the [ln] bits at [D]
    (zero-extended), and differs from [m] otherwise at most in the slot at [sp]. *)
Definition read_into (m m' : bytes) (w : W) (sp D ln R b : Z) : Prop :=
  forall x, ~ 8 * sp <= x < 8 * sp + 64 -> bitat m' x =
    if within D ln x then (x - D <? b) && content w (R + (x - D)) else bitat m x.

Lemma read_step sp m w o i l d :
  0 <= o -> o + width <= limit -> bytes_ok m -> owned m sp 8 ->
  0 <= i -> 0 <= l -> i + l <= B -> 0 <= span_length d ->
  bits_owned m (span_start d) (span_length d) ->
  apart (span_start d) (span_length d) (8 * sp) 64 ->
  exists m1 m' w', access_field_unit f (sp + 8) o UACPI_REGION_OP_READ (IoInteger sp) (m, w)
      = Some (UACPI_STATUS_OK, (m1, w')) /\ bit_copy m1 d (span sp i l) = Some m' /\
    same_content w w' /\ same_dom m m' /\ bytes_ok m' /\
    read_into m m' w sp (span_start d) (span_length d) (8 * o + i) l.
Proof.
  intros H1 H2 Hok Ho Hi Hl Hil Hd Od Ha.
  destruct (access_read (sp + 8) m w o sp) as (m1 & w1 & E1 & C1 & D1 & K1 & B1); auto.
  assert (Hs : span_start (span sp i l) = 8 * sp + i) by reflexivity.
  destruct (bit_copy_spec m1 d (span sp i l)) as (m2 & E2 & D2 & K2 & B2); auto.
  - rewrite <- D1; exact Od.
  - rewrite Hs, <- D1; simpl span_length.
    eapply bits_owned_sub; [apply owned_bits_owned, Ho| |]; unfold B in Hil; lia.
  - rewrite Hs; simpl span_length; unfold copyable, apart, B in *; lia.
  - exists m1, m2, w1; do 3 (split; [assumption|]); split; [etransitivity; eauto|split; [exact K2|]].
    intros x Hx; rewrite B2, Hs; simpl span_length; unfold B in *; range_cases;
      [|rewrite B1; range_cases; reflexivity].
    destruct (Z.ltb_spec (x - span_start d) l); [|reflexivity]; simpl.
    rewrite B1; range_cases; bool_cases; f_equal; lia.
Qed.

Lemma bit_span_offset_start d n : 0 <= span_length d -> 0 <= n -> 0 <= span_index d ->
  span_index d + span_length d < 2 ^ 64 ->
  let d' := fst (bit_span_offset d n) in let k := Z.min (span_length d) n in
  span_start d' = span_start d + k /\ span_length d' = span_length d - k /\
  0 <= span_index d' /\ span_index d' + span_length d' = span_index d + span_length d.
Proof.
  intros H1 H2 H3 H4; unfold bit_span_offset, span_start; simpl.
  rewrite wrap_id by (split; lia); lia.
Qed.

Lemma read_into_trans m m1 m2 w w' sp D ln R l b k :
  same_content w w' -> 0 <= l -> l <= b -> k = Z.min ln l -> 0 <= ln ->
  read_into m m1 w sp D ln R l -> read_into m1 m2 w' sp (D + k) (ln - k) (R + l) (b - l) ->
  read_into m m2 w sp D ln R b.
Proof.
  intros [_ C] H0 Hlb -> Hln H1 H2 x Hx; rewrite H2, H1, C by assumption.
  range_cases; bool_cases; try reflexivity; f_equal; lia.
Qed.

Lemma read_loop_spec n : forall sp m w o b i d,
  0 <= o -> 0 < b < 2 ^ 32 -> 0 <= i < B ->
  (Z.of_nat n - 1) * B < i + b <= Z.of_nat n * B -> o + Z.of_nat n * width <= limit ->
  limit < 2 ^ 32 -> bytes_ok m -> owned m sp 8 -> 0 <= span_length d -> 0 <= span_index d ->
  span_index d + span_length d < 2 ^ 64 -> bits_owned m (span_start d) (span_length d) ->
  apart (span_start d) (span_length d) (8 * sp) 64 ->
  exists m' w', read_loop f (access_field_unit f) n sp o b i d (m, w)
      = Some (UACPI_STATUS_OK, (m', w')) /\ same_content w w' /\ same_dom m m' /\ bytes_ok m' /\
    read_into m m' w sp (span_start d) (span_length d) (8 * o + i) b.
Proof.
  assert (HB : B = 8 * width) by reflexivity.
  induction n as [|n IH]; intros sp m w o b i d Ho Hb Hi Hn Hlim Hl32 Hok Hsp Hd Hdi Hd64 Od Ha;
    [lia|].
  cbn [read_loop props]; rewrite width_bits; fold width.
  rewrite (wrap_id 64 (B - i)) by (split; lia).
  set (l := Z.min b (B - i)).
  destruct (read_step sp m w o i l d) as (m1 & m2 & w1 & E1 & E2 & C & D & K & R);
    auto; try lia.
  rewrite (try_ok_ok _ _ _ _ E1), (in_memory_bind _ _ _ _ _ E2).
  rewrite (wrap_id 32 (b - l)) by (split; lia).
  destruct (bit_span_offset_start d l) as (S1 & S2 & S3 & S4); try lia.
  set (d' := fst (bit_span_offset d l)) in *.
  destruct n as [|n'].
  - assert (El : l = b) by lia.
    exists m2, w1; split; [reflexivity|split; [exact C|split; [exact D|split; [exact K|]]]].
    rewrite El in R; exact R.
  - assert (El : l = B - i) by lia.
    rewrite (wrap_id 32 (o + width)) by (split; lia).
    destruct (IH sp m2 w1 (o + width) (b - l) 0 d') as (m3 & w2 & E3 & C3 & D3 & K3 & R3);
      auto; try lia.
    + rewrite <- D; exact Hsp.
    + rewrite <- D, S1, S2; eapply bits_owned_sub; [exact Od|lia..].
    + rewrite S1, S2; unfold apart in *; lia.
    + exists m3, w2; split; [exact E3|split; [etransitivity; eauto|]].
      split; [etransitivity; eauto|split; [exact K3|]].
      rewrite S1, S2 in R3; replace (8 * (o + width) + 0) with (8 * o + i + l) in R3 by lia.
      eapply read_into_trans; [exact C| | | | |exact R|exact R3]; lia.
Qed.

(** The number of access units a field touches. *)
Definition units : Z := (bit_offset_within_first_byte p + bit_length p + (B - 1)) / B.

(** The field lies inside the region, and its end is computed without wrapping. *)
Record field_fits : Prop := {
  ff_offset : 0 <= byte_offset p;
  ff_bit_offset : 0 <= bit_offset_within_first_byte p < B;
  ff_length : 0 < bit_length p;
  ff_no_wrap : bit_offset_within_first_byte p + bit_length p + (B - 1) < 2 ^ 32;
  ff_limit : byte_offset p + units * width <= limit;
  ff_limit_32 : limit < 2 ^ 32
}.

Definition field_bit : Z := 8 * byte_offset p + bit_offset_within_first_byte p.

Lemma B_pow2 : exists k, 3 <= k <= 6 /\ B = 2 ^ k.
Proof.
  unfold B; destruct width_ok as [->|[->|[->| ->]]];
    [exists 3|exists 4|exists 5|exists 6]; split; try lia; reflexivity.
Qed.

Lemma units_bounds : field_fits -> 0 < units /\
  (units - 1) * B < bit_offset_within_first_byte p + bit_length p <= units * B.
Proof.
  intros [_ H1 H2 _ _ _]; apply ceil_div_bounds; lia.
Qed.

Lemma reads_to_do_eq : field_fits -> reads_to_do f = units.
Proof.
  intros [_ H1 H2 H3 _ _]; unfold reads_to_do; cbn [props]; rewrite width_bits; unfold units.
  destruct B_pow2 as (k & Hk & Ek); rewrite Ek in *.
  rewrite align_up_pow2 by lia; pose proof (pow2_pos k).
  rewrite Z.mul_comm, Z.div_mul by lia; reflexivity.
Qed.

Lemma special_plain (access : Z -> Z -> uacpi_region_op -> io_data -> SM (bytes * W) uacpi_status)
    sp buf op b m w space :
  region_space region w = Some space -> plain_space space = true ->
  handle_special_field f access sp buf op b (m, w) = Some ((UACPI_STATUS_OK, false, None), (m, w)).
Proof.
  intros E Hp; unfold handle_special_field, ask; cbn [field_region]; smunfold; rewrite E.
  destruct space; try reflexivity; discriminate Hp.
Qed.

(** The fast path: one access, its value cut to the field and copied out. *)
Definition read_fast (sp dst size n : Z) : SM (bytes * W) uacpi_status :=
  try_ok (access_field_unit f (sp + 8) (byte_offset p) UACPI_REGION_OP_READ (IoInteger sp))
   (in_memory (fun m => uacpi_memcpy_zerout m dst sp size n);;
    (if n <=? size
     then in_memory (fun m => cut_misaligned_tail m dst (n - 1) (bit_length p))
     else skip);;
    mret UACPI_STATUS_OK).

(** Cutting the tail of a value that is already in place. *)
Lemma cut_tail_into m m2 (w w1 : W) sp dst size n :
  n = (bit_length p + 7) / 8 -> 0 <= bit_length p -> bytes_ok m2 -> owned m2 dst size ->
  read_into m m2 w sp (8 * dst) (8 * size) field_bit (8 * n) ->
  exists m3, (if n <=? size then in_memory (fun m => cut_misaligned_tail m dst (n - 1)
      (bit_length p)) else skip) (m2, w1) = Some (tt, (m3, w1)) /\ same_dom m2 m3 /\
    bytes_ok m3 /\ read_into m m3 w sp (8 * dst) (8 * size) field_bit (bit_length p).
Proof.
  intros En Hl K2 Hd R2.
  assert (Hn : 8 * n - 8 < bit_length p <= 8 * n) by (rewrite En; Z.div_mod_to_equations; lia).
  destruct (Z.leb_spec n size).
  - destruct (cut_misaligned_tail_spec m2 dst (bit_length p)) as (m3 & A3 & D3 & K3 & B3);
      auto; [rewrite <- En; eapply owned_sub; [exact Hd|lia..]|]; rewrite <- En in *.
    exists m3; split; [unfold in_memory; rewrite A3; reflexivity|].
    split; [exact D3|split; [exact K3|]].
    intros x Hx; rewrite B3, R2 by assumption; range_cases; bool_cases; reflexivity.
  - exists m2; split; [reflexivity|split; [reflexivity|split; [exact K2|]]].
    intros x Hx; rewrite R2 by assumption; range_cases; [|reflexivity]; bool_cases; reflexivity.
Qed.

Lemma read_fast_bits sp dst size m w :
  let n := (bit_length p + 7) / 8 in
  bit_offset_within_first_byte p = 0 -> n <= width -> 0 < bit_length p ->
  0 <= byte_offset p -> byte_offset p + width <= limit ->
  bytes_ok m -> owned m sp 8 -> 0 <= size -> owned m dst size -> apart dst size sp 8 ->
  exists m' w', read_fast sp dst size n (m, w) = Some (UACPI_STATUS_OK, (m', w')) /\
    same_content w w' /\ same_dom m m' /\ bytes_ok m' /\
    read_into m m' w sp (8 * dst) (8 * size) field_bit (bit_length p).
Proof.
  intros n E1 E2 F3 F1 F5 Hok Ho Hsz Hd Ha; assert (HB : B = 8 * width) by reflexivity.
  assert (Hn : 8 * n - 8 < bit_length p <= 8 * n) by (unfold n; Z.div_mod_to_equations; lia).
  destruct (access_read (sp + 8) m w (byte_offset p) sp) as (m1 & w1 & A1 & C1 & D1 & K1 & B1);
    auto.
  destruct (memcpy_zerout_spec m1 dst sp size n) as (m2 & A2 & Z2 & D2 & K2); auto; try lia.
  { rewrite <- D1; exact Hd. }
  { rewrite <- D1; eapply owned_sub; [exact Ho|lia..]. }
  { unfold apart in Ha; lia. }
  apply zero_extended_bits in Z2.
  assert (R2 : read_into m m2 w sp (8 * dst) (8 * size) field_bit (8 * n)).
  { intros x Hx; rewrite Z2; range_cases; [|rewrite B1; range_cases; reflexivity].
    rewrite B1; unfold field_bit; bool_cases; try reflexivity; range_cases; bool_cases.
    f_equal; lia. }
  destruct (cut_tail_into m m2 w w1 sp dst size n) as (m3 & A3 & D3 & K3 & R3); auto; try lia.
  { rewrite <- D2, <- D1; exact Hd. }
  exists m3, w1; split; [|split; [exact C1|split; [|split; [exact K3|exact R3]]]].
  - unfold read_fast; rewrite (try_ok_ok _ _ _ _ A1).
    rewrite (in_memory_bind _ _ _ _ _ A2), (SM_bind_Some _ _ _ _ _ A3); reflexivity.
  - etransitivity; [exact D1|etransitivity; eauto].
Qed.

Lemma read_field_unit_bits sp dst size b m w space :
  region_space region w = Some space -> plain_space space = true -> field_fits ->
  bytes_ok m -> owned m sp 8 -> 0 <= size < 2 ^ 60 -> owned m dst size ->
  apart dst size sp 8 ->
  exists m' w', uacpi_read_field_unit f sp dst size b (m, w)
      = Some ((UACPI_STATUS_OK, None), (m', w')) /\ same_content w w' /\ same_dom m m' /\
    bytes_ok m' /\ read_into m m' w sp (8 * dst) (8 * size) field_bit (bit_length p).
Proof.
  intros Hsp Hpl Hf Hok Ho Hsz Hd Ha; pose proof Hf as [F1 F2 F3 F4 F5 F6].
  destruct (units_bounds Hf) as [U0 U]; assert (HB : B = 8 * width) by reflexivity.
  unfold uacpi_read_field_unit, read_field_unit_body.
  rewrite (SM_bind_Some _ _ _ _ _ (special_plain _ _ _ _ _ _ _ _ Hsp Hpl)).
  cbv iota beta zeta; cbn [props].
  rewrite round_up_bits_to_bytes_eq by (split; lia).
  rewrite (wrap_id 32 ((bit_length p + 7) / 8)) by (split; Z.div_mod_to_equations; lia).
  destruct ((_ =? 0) && _) eqn:Efast.
  - apply andb_true_iff in Efast as [E1 E2]; apply Z.eqb_eq in E1; apply Z.leb_le in E2.
    destruct (read_fast_bits sp dst size m w) as (m' & w' & A & H); auto; try (fold width in E2; nia).
    exists m', w'; split; [erewrite SM_bind_Some; [|exact A]; reflexivity|exact H].
  - unfold do_read_misaligned_field_unit; rewrite reads_to_do_eq by assumption.
    rewrite (wrap_id 64), (Z.mul_comm size) by (split; lia); cbn [props].
    assert (Hss : span_start (span dst 0 (8 * size)) = 8 * dst) by (unfold span_start; simpl; lia).
    destruct (read_loop_spec (Z.to_nat units) sp m w (byte_offset p) (bit_length p)
      (bit_offset_within_first_byte p) (span dst 0 (8 * size))) as (m' & w' & A & C & D & K & R);
      rewrite ?Hss, ?Z2Nat.id by lia; auto; cbn [span span_length span_index]; try lia.
    { apply owned_bits_owned, Hd. }
    { unfold apart in *; lia. }
    exists m', w'; split; [erewrite SM_bind_Some; [|exact A]; reflexivity|].
    rewrite Hss in R; auto.
Qed.

(** ** Writing *)

(** What an update rule leaves in the bits of a touched unit outside the field. *)
Definition outside_bits (rule : uacpi_update_rule) (w : W) (x : Z) : bool :=
  match rule with
  | UACPI_UPDATE_RULE_WRITE_AS_ONES => true
  | UACPI_UPDATE_RULE_WRITE_AS_ZEROES => false
  | _ => content w x
  end.

(** The [b] bits at [F] of the region come from the [sn] bits at [S] of memory; the
    rest of the [T] bits of units at [U] follows the update rule. *)
Definition written (m : bytes) (w w' : W) (F b U T S sn : Z) : Prop :=
  forall x, content w' x =
    if within F b x then (x - F <? sn) && bitat m (S + (x - F))
    else if within U T x then outside_bits (update_rule p) w x else content w x.

(** Memories that agree outside the stack slot. *)
Definition same_but_slot (sp : Z) (m m' : bytes) : Prop :=
  same_dom m m' /\ forall x, ~ 8 * sp <= x < 8 * sp + 64 -> bitat m' x = bitat m x.

Hypothesis rule_ok : update_rule p <> UPDATE_RULE_INVALID.

Lemma merge_base_spec sp m w o i l :
  0 <= o -> o + width <= limit -> bytes_ok m -> owned m sp 8 -> 0 <= i -> i + l <= B ->
  exists m' w', merge_base f (access_field_unit f) sp o i l (m, w)
      = Some (UACPI_STATUS_OK, (m', w')) /\ same_content w w' /\ same_but_slot sp m m' /\
    bytes_ok m' /\
    (i <> 0 \/ l < B -> forall x, 0 <= x < B ->
      bitat m' (8 * sp + x) = outside_bits (update_rule p) w (8 * o + x)).
Proof.
  intros H1 H2 Hok Ho Hi Hil; assert (HB : B = 8 * width) by reflexivity; unfold merge_base, assign.
  destruct (store_le_spec 8 m sp 0 Ho) as (m1 & E1 & D1 & K1 & B1); specialize (K1 Hok).
  rewrite (in_memory_bind _ _ _ _ _ E1), width_bits; cbn [props].
  destruct (negb (i =? 0) || (l <? B)) eqn:Epart.
  2: { exists m1, w; split; [reflexivity|split; [reflexivity|split; [split; [exact D1|]|]]].
       - intros x Hx; rewrite B1; range_cases; reflexivity.
       - split; [exact K1|]; intros H; exfalso.
         apply orb_false_iff in Epart as [E2 E3]; apply negb_false_iff, Z.eqb_eq in E2.
         apply Z.ltb_ge in E3; lia. }
  destruct (update_rule p) eqn:Er; [| | |congruence].
  - destruct (access_read (sp + 8) m1 w o sp) as (m2 & w2 & E2 & C2 & D2 & K2 & B2); auto.
    { rewrite <- D1; exact Ho. }
    exists m2, w2; split; [exact E2|split; [exact C2|split; [split|split; [exact K2|]]]].
    + etransitivity; eauto.
    + intros x Hx; rewrite B2, B1; range_cases; reflexivity.
    + intros _ x Hx; rewrite B2; range_cases; bool_cases; f_equal; lia.
  - destruct (store_le_spec 8 m1 sp (Z.lnot 0)) as (m2 & E2 & D2 & K2 & B2).
    { rewrite <- D1; exact Ho. }
    exists m2, w; split; [rewrite (in_memory_bind _ _ _ _ _ E2); reflexivity|].
    split; [reflexivity|split; [split|split; [auto|]]].
    + etransitivity; eauto.
    + intros x Hx; rewrite B2, B1; range_cases; reflexivity.
    + intros _ x Hx; rewrite B2; range_cases; bits_simpl; reflexivity.
  - exists m1, w; split; [reflexivity|split; [reflexivity|split; [split; [exact D1|]|]]].
    + intros x Hx; rewrite B1; range_cases; reflexivity.
    + split; [exact K1|]; intros _ x Hx; rewrite B1; range_cases; apply Z.testbit_0_l.
Qed.

Definition same_spaces (w w' : W) : Prop := forall r, region_space r w' = region_space r w.

Lemma write_step sp m w o i l s :
  0 <= o -> o + width <= limit -> bytes_ok m -> owned m sp 8 ->
  0 <= i -> 0 <= l -> i + l <= B -> 0 <= span_length s ->
  bits_owned m (span_start s) (span_length s) ->
  apart (span_start s) (span_length s) (8 * sp) 64 ->
  exists m1 w1 m2 w2,
    merge_base f (access_field_unit f) sp o i l (m, w) = Some (UACPI_STATUS_OK, (m1, w1)) /\
    bit_copy m1 (span sp i l) s = Some m2 /\
    access_field_unit f (sp + 8) o UACPI_REGION_OP_WRITE (IoInteger sp) (m2, w1)
      = Some (UACPI_STATUS_OK, (m2, w2)) /\
    same_but_slot sp m m2 /\ bytes_ok m2 /\ same_spaces w w2 /\
    written m w w2 (8 * o + i) l (8 * o) B (span_start s) (span_length s).
Proof.
  intros H1 H2 Hok Ho Hi Hl Hil Hs Os Ha; assert (HB : B = 8 * width) by reflexivity.
  destruct (merge_base_spec sp m w o i l) as (m1 & w1 & E1 & C1 & [D1 S1] & K1 & B1); auto.
  assert (Hd : span_start (span sp i l) = 8 * sp + i) by reflexivity.
  assert (Hdl : span_length (span sp i l) = l) by reflexivity.
  destruct (bit_copy_spec m1 (span sp i l) s) as (m2 & E2 & D2 & K2 & B2); auto;
    rewrite ?Hd, ?Hdl in *.
  { rewrite <- D1; eapply bits_owned_sub; [apply owned_bits_owned, Ho|lia..]. }
  { rewrite <- D1; exact Os. }
  { unfold copyable, apart in *; lia. }
  destruct (access_write (sp + 8) m2 w1 o sp) as (w2 & E3 & S3 & B3); auto.
  { rewrite <- D2, <- D1; exact Ho. }
  exists m1, w1, m2, w2; do 3 (split; [assumption|]); split; [split|split; [exact K2|split]].
  - etransitivity; eauto.
  - intros x Hx; rewrite B2; range_cases; apply S1, Hx.
  - intros r; rewrite S3; apply C1.
  - intros x; rewrite B3; destruct C1 as [_ C1].
    destruct (withinP (8 * o) B x); [|range_cases; apply C1].
    rewrite B2; range_cases.
    + replace (8 * sp + (x - 8 * o) - (8 * sp + i)) with (x - (8 * o + i)) by lia.
      destruct (Z.ltb_spec (x - (8 * o + i)) (span_length s)); [|reflexivity]; simpl.
      apply S1; unfold apart in Ha; lia.
    + rewrite B1 by lia; f_equal; lia.
Qed.

Lemma written_trans m m1 w w1 w2 sp o i l b n S sn k :
  k = Z.min sn l -> 0 <= sn -> l = B - i -> l <= b -> 0 <= i < B -> 0 <= n ->
  apart S sn (8 * sp) 64 -> same_but_slot sp m m1 ->
  written m w w1 (8 * o + i) l (8 * o) B S sn ->
  written m1 w1 w2 (8 * (o + width)) (b - l) (8 * (o + width)) (n * B) (S + k) (sn - k) ->
  i + b <= (n + 1) * B -> written m w w2 (8 * o + i) b (8 * o) ((n + 1) * B) S sn.
Proof.
  assert (HB : B = 8 * width) by reflexivity.
  intros -> Hsn Hl Hlb Hi Hn Ha [_ Hs] H1 H2 Hb x; rewrite H2.
  assert (Hout : forall y, 8 * (o + width) <= y ->
    outside_bits (update_rule p) w1 y = outside_bits (update_rule p) w y).
  { intros y Hy; unfold outside_bits; destruct (update_rule p); try reflexivity;
      rewrite H1; range_cases; reflexivity. }
  destruct (withinP (8 * (o + width)) (b - l) x).
  - range_cases; destruct (Z.ltb_spec (x - 8 * (o + width)) (sn - Z.min sn l)),
      (Z.ltb_spec (x - (8 * o + i)) sn); try lia; try reflexivity; simpl.
    rewrite Hs by (unfold apart in Ha; lia); f_equal; lia.
  - destruct (withinP (8 * (o + width)) (n * B) x).
    + rewrite Hout by lia; range_cases; reflexivity.
    + rewrite H1; range_cases; reflexivity.
Qed.

Lemma write_loop_spec fuel : forall sp m w o b i n s,
  0 <= o -> 0 <= b <= Z.of_nat fuel -> b < 2 ^ 32 -> 0 <= i < B -> 0 <= n ->
  (b = 0 -> n = 0) -> (0 < b -> (n - 1) * B < i + b <= n * B) ->
  o + n * width <= limit -> limit < 2 ^ 32 ->
  bytes_ok m -> owned m sp 8 -> 0 <= span_length s -> 0 <= span_index s ->
  span_index s + span_length s < 2 ^ 64 -> bits_owned m (span_start s) (span_length s) ->
  apart (span_start s) (span_length s) (8 * sp) 64 ->
  exists m' w', write_loop f (access_field_unit f) fuel sp o b i s (m, w)
      = Some (UACPI_STATUS_OK, (m', w')) /\ same_but_slot sp m m' /\ bytes_ok m' /\
    same_spaces w w' /\
    written m w w' (8 * o + i) b (8 * o) (n * B) (span_start s) (span_length s).
Proof.
  assert (HB : B = 8 * width) by reflexivity.
  induction fuel as [|fuel IH]; intros sp m w o b i n s H1 Hb Hb32 Hi Hn Hn0 Hn1 Hlim Hl32 Hok Ho
    Hs Hsi Hs64 Os Ha; cbn [write_loop]; (destruct (Z.eqb_spec b 0) as [->|Hb0]; [|try lia]).
  1, 2: rewrite Hn0 by reflexivity; exists m, w; split; [reflexivity|];
    split; [split; [reflexivity|auto]|split; [exact Hok|split; [intros r; reflexivity|]]];
    intros x; range_cases; reflexivity.
  specialize (Hn1 ltac:(lia)); assert (0 < n) by nia.
  cbn [props]; rewrite width_bits; fold width.
  rewrite (wrap_id 64 (B - i)) by (split; lia); set (l := Z.min (B - i) b).
  destruct (write_step sp m w o i l s) as (m1 & w1 & m2 & w2 & E1 & E2 & E3 & S2 & K2 & P2 & R2);
    auto; try lia; try nia.
  rewrite (try_ok_ok _ _ _ _ E1), (in_memory_bind _ _ _ _ _ E2), (try_ok_ok _ _ _ _ E3).
  destruct (bit_span_offset_start s l) as (T1 & T2 & T3 & T4); try lia.
  rewrite (wrap_id 32 (b - l)) by (split; lia).
  destruct (decide (n = 1)) as [->|Hne].
  - assert (El : l = b) by lia; rewrite El, Z.sub_diag in *.
    exists m2, w2; split; [destruct fuel; reflexivity|split; [exact S2|]].
    split; [exact K2|split; [exact P2|]]; rewrite Z.mul_1_l; exact R2.
  - assert (El : l = B - i) by nia; destruct S2 as [D2 S2].
    rewrite (wrap_id 32 (o + width)) by (split; nia).
    destruct (IH sp m2 w2 (o + width) (b - l) 0 (n - 1) (fst (bit_span_offset s l)))
      as (m3 & w3 & E4 & [D4 S4] & K4 & P4 & R4); auto; try lia; try nia.
    { rewrite <- D2; exact Ho. }
    { rewrite <- D2, T1, T2; eapply bits_owned_sub; [exact Os|lia..]. }
    { rewrite T1, T2; unfold apart in *; lia. }
    exists m3, w3; split; [exact E4|split; [split|split; [exact K4|split]]].
    + etransitivity; eauto.
    + intros x Hx; rewrite S4, S2 by assumption; reflexivity.
    + intros r; rewrite P4, P2; reflexivity.
    + rewrite T1, T2, Z.add_0_r in R4; replace n with (n - 1 + 1) by lia.
      eapply written_trans; [reflexivity| |exact El| | | |exact Ha|split; [exact D2|exact S2]
        |exact R2|exact R4|]; lia.
Qed.

Lemma write_field_unit_bits sp src size b m w space :
  region_space region w = Some space -> plain_space space = true -> field_fits ->
  bytes_ok m -> owned m sp 8 -> 0 <= size < 2 ^ 60 -> owned m src size -> apart src size sp 8 ->
  exists m' w', uacpi_write_field_unit f sp src size b (m, w)
      = Some ((UACPI_STATUS_OK, None), (m', w')) /\ same_but_slot sp m m' /\ bytes_ok m' /\
    same_spaces w w' /\
    written m w w' field_bit (bit_length p) (8 * byte_offset p) (units * B) (8 * src) (8 * size).
Proof.
  intros Hsp Hpl Hf Hok Ho Hsz Hs Ha; pose proof Hf as [F1 F2 F3 F4 F5 F6].
  destruct (units_bounds Hf) as [U0 U].
  unfold uacpi_write_field_unit, write_field_unit_body.
  rewrite (SM_bind_Some _ _ _ _ _ (special_plain _ _ _ _ _ _ _ _ Hsp Hpl)).
  cbv iota beta zeta; unfold write_generic_field_unit; cbn [props].
  rewrite (wrap_id 64), (Z.mul_comm size) by (split; lia).
  assert (Hss : span_start (span src 0 (8 * size)) = 8 * src) by (unfold span_start; simpl; lia).
  destruct (write_loop_spec (Z.to_nat (bit_length p)) sp m w (byte_offset p) (bit_length p)
    (bit_offset_within_first_byte p) units (span src 0 (8 * size))) as (m' & w' & A & R);
    rewrite ?Hss, ?Z2Nat.id by lia; auto; cbn [span span_length span_index]; try lia.
  { apply owned_bits_owned, Hs. }
  { unfold apart in *; lia. }
  exists m', w'; split; [erewrite SM_bind_Some; [|exact A]; reflexivity|].
  rewrite Hss in R; exact R.
Qed.

End Plain.

(** An integer read into a buffer of [size] bytes. *)
Lemma read_into_value {W} (content : W -> Z -> bool) m m' w sp dst (size : nat) R b :
  read_into content m m' w sp (8 * dst) (8 * Z.of_nat size) R b -> bytes_ok m' ->
  owned m' dst (Z.of_nat size) -> apart dst (Z.of_nat size) sp 8 ->
  exists v, load_le m' dst size = Some v /\ in_w (8 * Z.of_nat size) v /\
    forall i, 0 <= i ->
      Z.testbit v i = (i <? Z.min b (8 * Z.of_nat size)) && content w (R + i).
Proof.
  intros Hr Hok Ho Ha; destruct (load_le_bits m' size Hok dst Ho) as (v & E & Hw & Hv).
  exists v; split; [exact E|split; [exact Hw|]]; intros i Hi; rewrite Hv by assumption.
  destruct (Z.ltb_spec i (8 * Z.of_nat size)); simpl.
  - rewrite Hr by (unfold apart in Ha; lia); range_cases.
    replace (8 * dst + i - 8 * dst) with i by lia; bool_cases; reflexivity.
  - bool_cases; reflexivity.
Qed.

(** ** Theorems *)

(** C14.  The ACPI global lock is balanced: whatever the kind of field unit (bank
    and index fields with the field units they go through included) and whatever
    the outcome, errors included, reading or writing a field unit leaves the
    nesting depth of the global lock mutex as it was. *)
Theorem field_access_lock_balanced {W} `{RegionIO W} (depth : W -> Z) field sp ptr size b m w :
  lock_laws depth ->
  (forall r m' w', uacpi_read_field_unit field sp ptr size b (m, w) = Some (r, (m', w')) ->
     depth w' = depth w) /\
  (forall r m' w', uacpi_write_field_unit field sp ptr size b (m, w) = Some (r, (m', w')) ->
     depth w' = depth w).
Proof.
  intros laws; split; intros r m' w' E.
  - refine (read_body_depth depth laws field _ _ sp ptr size b _ _ _ E).
    apply access_field_unit_depth, laws.
  - refine (write_body_depth depth laws field _ _ sp ptr size b _ _ _ E).
    apply access_field_unit_depth, laws.
Qed.

(** C15.  Reading a field of a memory-like region returns exactly the field's bits:
    the integer left in the destination has bit i of the field at bit i, zero
    beyond the field, whichever of the single-access and the split path is taken;
    the region and all memory but the destination and the local slot are
    unchanged. *)
Theorem read_field_unit_correct {W} `{RegionIO W} p region content limit space sp dst
    (size : nat) b m (w : W) :
  memory_like (FieldNormal p region) content limit ->
  (access_width_bytes p = 1 \/ access_width_bytes p = 2 \/ access_width_bytes p = 4 \/
   access_width_bytes p = 8) ->
  region_space region w = Some space -> plain_space space = true -> field_fits p limit ->
  bytes_ok m -> owned m sp 8 -> Z.of_nat size < 2 ^ 60 -> owned m dst (Z.of_nat size) ->
  apart dst (Z.of_nat size) sp 8 ->
  exists m' w' v, uacpi_read_field_unit (FieldNormal p region) sp dst (Z.of_nat size) b (m, w)
      = Some ((UACPI_STATUS_OK, None), (m', w')) /\
    load_le m' dst size = Some v /\
    (forall i, 0 <= i -> Z.testbit v i =
      (i <? Z.min (bit_length p) (8 * Z.of_nat size)) && content w (field_bit p + i)) /\
    (forall x, content w' x = content w x) /\
    (forall a, apart a 1 dst (Z.of_nat size) -> apart a 1 sp 8 -> m' !! a = m !! a).
Proof.
  intros ml Hw Hsp Hpl Hf Hok Ho Hsz Hd Ha.
  destruct (read_field_unit_bits p region content limit ml Hw sp dst (Z.of_nat size) b m w space)
    as (m' & w' & E & [_ C] & D & K & R); auto; [lia|].
  destruct (read_into_value content m m' w sp dst size _ _ R) as (v & Ev & _ & Hv); auto.
  { rewrite <- D; exact Hd. }
  exists m', w', v; split; [exact E|split; [exact Ev|split; [exact Hv|split; [exact C|]]]].
  intros a H1 H2; unfold apart in *.
  destruct (m !! a) as [x|] eqn:Ea, (m' !! a) as [y|] eqn:Ea'; auto.
  - f_equal; apply Z.bits_inj'; intros i Hi; destruct (Z.lt_ge_cases i 8).
    + rewrite <- (bitat_at m a i x), <- (bitat_at m' a i y) by auto.
      rewrite R by lia; range_cases; reflexivity.
    + rewrite (testbit_in_w 8 x), (testbit_in_w 8 y) by (eauto; lia); reflexivity.
  - destruct (proj1 (D a)); [eauto|congruence].
  - destruct (proj2 (D a)); [eauto|congruence].
Qed.

(** C9.  Writing a field of a memory-like region sets exactly the field's bits to
    the source's (zero-extended), leaves the bits of the touched access units
    outside the field as the update rule says (kept, ones or zeroes), and changes
    nothing else of the region; it always terminates. *)
Theorem write_field_unit_correct {W} `{RegionIO W} p region content limit space sp src size b
    m (w : W) :
  memory_like (FieldNormal p region) content limit ->
  (access_width_bytes p = 1 \/ access_width_bytes p = 2 \/ access_width_bytes p = 4 \/
   access_width_bytes p = 8) ->
  region_space region w = Some space -> plain_space space = true -> field_fits p limit ->
  update_rule p <> UPDATE_RULE_INVALID ->
  bytes_ok m -> owned m sp 8 -> 0 <= size < 2 ^ 60 -> owned m src size -> apart src size sp 8 ->
  exists m' w', uacpi_write_field_unit (FieldNormal p region) sp src size b (m, w)
      = Some ((UACPI_STATUS_OK, None), (m', w')) /\
    (forall i, 0 <= i < bit_length p ->
       content w' (field_bit p + i) = (i <? 8 * size) && bitat m (8 * src + i)) /\
    (forall x, ~ field_bit p <= x < field_bit p + bit_length p ->
       content w' x =
       if within (8 * byte_offset p) (8 * access_width_bytes p * units p) x
       then outside_bits content (update_rule p) w x else content w x).
Proof.
  intros ml Hw Hsp Hpl Hf Hr Hok Ho Hsz Hs Ha.
  destruct (write_field_unit_bits p region content limit ml Hw Hr sp src size b m w space)
    as (m' & w' & E & _ & _ & _ & R); auto.
  exists m', w'; split; [exact E|split].
  - intros i Hi; rewrite R; range_cases.
    replace (field_bit p + i - field_bit p) with i by lia; reflexivity.
  - intros x Hx; rewrite R; destruct (withinP (field_bit p) (bit_length p) x); [contradiction|].
    rewrite (Z.mul_comm (units p)); reflexivity.
Qed.

(** A field unit of a memory-like region reads back what was written to it,
    modulo 2^bit_length. *)
Theorem field_unit_roundtrip {W} `{RegionIO W} p region content limit space sp src dst (size : nat)
    v m (w : W) :
  memory_like (FieldNormal p region) content limit ->
  (access_width_bytes p = 1 \/ access_width_bytes p = 2 \/ access_width_bytes p = 4 \/
   access_width_bytes p = 8) ->
  region_space region w = Some space -> plain_space space = true -> field_fits p limit ->
  update_rule p <> UPDATE_RULE_INVALID ->
  bytes_ok m -> owned m sp 8 -> Z.of_nat size < 2 ^ 60 -> bit_length p <= 8 * Z.of_nat size ->
  owned m src (Z.of_nat size) -> apart src (Z.of_nat size) sp 8 ->
  owned m dst (Z.of_nat size) -> apart dst (Z.of_nat size) sp 8 ->
  load_le m src size = Some v ->
  exists m1 w1 m2 w2,
    uacpi_write_field_unit (FieldNormal p region) sp src (Z.of_nat size) false (m, w)
      = Some ((UACPI_STATUS_OK, None), (m1, w1)) /\
    uacpi_read_field_unit (FieldNormal p region) sp dst (Z.of_nat size) false (m1, w1)
      = Some ((UACPI_STATUS_OK, None), (m2, w2)) /\
    load_le m2 dst size = Some (wrap (bit_length p) v).
Proof.
  intros ml Hw Hsp Hpl Hf Hr Hok Ho Hsz Hlen Hs Ha Hd Had Ev.
  destruct (write_field_unit_bits p region content limit ml Hw Hr sp src (Z.of_nat size) false m w
    space) as (m1 & w1 & E1 & [D1 _] & K1 & P1 & R1); auto; [lia|].
  destruct (read_field_unit_bits p region content limit ml Hw sp dst (Z.of_nat size) false m1 w1
    space) as (m2 & w2 & E2 & _ & D2 & K2 & R2); auto; [congruence|rewrite <- D1; auto|lia|
    rewrite <- D1; auto|].
  destruct (read_into_value content m1 m2 w1 sp dst size _ _ R2) as (v2 & Ev2 & _ & Hv2); auto.
  { rewrite <- D2, <- D1; exact Hd. }
  exists m1, w1, m2, w2; split; [exact E1|split; [exact E2|]]; rewrite Ev2; f_equal.
  pose proof (ff_length _ _ Hf); apply Z.bits_inj'; intros i Hi.
  rewrite Hv2, wrap_testbit, (load_le_bitat m src size v i) by (auto; lia); rewrite R1.
  replace (field_bit p + i - field_bit p) with i by lia; range_cases; bool_cases; reflexivity.
Qed.

(** ** Witnesses: a region that is an array of bytes *)

Module Demo.

(** The world: the region's bytes and the depth of the global lock. *)
Record world := { wregion : Z -> Z; wdepth : Z }.

Fixpoint region_load (r : Z -> Z) (o : Z) (n : nat) : Z :=
  match n with
  | O => 0
  | S n' => Z.lor (u8 (r o)) (Z.shiftl (region_load r (o + 1) n') 8)
  end.

Definition region_store (r : Z -> Z) (o n v : Z) : Z -> Z :=
  fun a => if within o n a then u8 (Z.shiftr v (8 * (a - o))) else r a.

Definition content (w : world) (x : Z) : bool := Z.testbit (wregion w (x / 8)) (x mod 8).

#[export] Instance array_io : RegionIO world := {
  dispatch_opregion_io f o op d := fun '(m, w) =>
    let width := access_width_bytes (props f) in
    match op, d with
    | UACPI_REGION_OP_READ, IoInteger q =>
        match store_le m q 8 (region_load (wregion w) o (Z.to_nat width)) with
        | Some m' => Some (UACPI_STATUS_OK, (m', w))
        | None => None
        end
    | UACPI_REGION_OP_WRITE, IoInteger q =>
        match load_le m q 8 with
        | Some v => Some (UACPI_STATUS_OK,
            (m, {| wregion := region_store (wregion w) o width v; wdepth := wdepth w |}))
        | None => None
        end
    | _, _ => Some (UACPI_STATUS_INVALID_ARGUMENT, (m, w))
    end;
  region_space _ _ := Some UACPI_ADDRESS_SPACE_SYSTEM_MEMORY;
  acquire_global_lock_mutex := fun w =>
    Some (UACPI_STATUS_OK, {| wregion := wregion w; wdepth := wdepth w + 1 |});
  release_global_lock_mutex := fun w =>
    Some (tt, {| wregion := wregion w; wdepth := wdepth w - 1 |});
  region_alloc _ := fun s => Some (None, s);
  region_free _ _ := fun s => Some (tt, s);
  is_rev1 _ := false
}.

Lemma region_load_testbit r n : forall o i, 0 <= i ->
  Z.testbit (region_load r o n) i =
  (i <? 8 * Z.of_nat n) && Z.testbit (r (o + i / 8)) (i mod 8).
Proof.
  induction n as [|n IH]; intros o i Hi; simpl region_load.
  - rewrite Z.testbit_0_l; bool_cases; reflexivity.
  - bits_simpl; destruct (Z.lt_ge_cases i 8).
    + rewrite (testbit_neg _ (i - 8)), Z.div_small, Z.mod_small, Z.add_0_r by lia.
      bool_cases; apply orb_false_r.
    + rewrite IH by lia.
      replace (o + 1 + (i - 8) / 8) with (o + i / 8) by (Z.div_mod_to_equations; lia).
      replace ((i - 8) mod 8) with (i mod 8) by (Z.div_mod_to_equations; lia).
      bool_cases; reflexivity.
Qed.

Lemma region_store_testbit r o n v x : 0 <= n ->
  Z.testbit (region_store r o n v (x / 8)) (x mod 8) =
  if within (8 * o) (8 * n) x then Z.testbit v (x - 8 * o) else Z.testbit (r (x / 8)) (x mod 8).
Proof.
  intros Hn; unfold region_store.
  destruct (withinP o n (x / 8)), (withinP (8 * o) (8 * n) x);
    try (Z.div_mod_to_equations; lia); [|reflexivity].
  pose proof (Z.mod_pos_bound x 8 eq_refl); bits_simpl; bool_cases.
  f_equal; Z.div_mod_to_equations; lia.
Qed.

Lemma array_memory_like f limit : 0 < access_width_bytes (props f) <= 8 ->
  memory_like f content limit.
Proof.
  intros Hwd; split.
  - intros m w o q _ _ Hok Ho; cbn [dispatch_opregion_io array_io]; cbv beta iota zeta.
    destruct (store_le_spec 8 m q (region_load (wregion w) o (Z.to_nat (access_width_bytes (props f))))
      Ho) as (m' & -> & D & K & B).
    exists m'; split; [reflexivity|split; [exact D|split; [auto|]]].
    intros x; rewrite B; change (8 * Z.of_nat 8) with 64; range_cases; [|reflexivity].
    rewrite region_load_testbit, Z2Nat.id by lia; unfold content.
    replace ((8 * o + (x - 8 * q)) / 8) with (o + (x - 8 * q) / 8) by (Z.div_mod_to_equations; lia).
    replace ((8 * o + (x - 8 * q)) mod 8) with ((x - 8 * q) mod 8) by (Z.div_mod_to_equations; lia).
    reflexivity.
  - intros m w o q _ _ Hok Ho; cbn [dispatch_opregion_io array_io]; cbv beta iota zeta.
    destruct (load_le_bits m 8 Hok q Ho) as (v & -> & _ & Hv).
    eexists; split; [reflexivity|split; [reflexivity|]]; intros x; unfold content; simpl wregion.
    rewrite region_store_testbit by lia; range_cases; [|reflexivity].
    rewrite Hv by lia; bool_cases; reflexivity.
  - intros w; eexists; split; [reflexivity|split; reflexivity].
  - intros w; eexists; split; [reflexivity|split; reflexivity].
Qed.

Lemma array_lock_laws : lock_laws wdepth.
Proof.
  split.
  - intros w st w' [= <- <-]; reflexivity.
  - intros w u w' [= _ <-]; reflexivity.
  - intros f o op d [m w] st s'; cbn [dispatch_opregion_io array_io]; cbv zeta.
    destruct op, d; try (intros [= _ <-]; reflexivity).
    + destruct (store_le _ _ _ _); [intros [= _ <-]; reflexivity|discriminate].
    + destruct (load_le _ _ _); [intros [= _ <-]; reflexivity|discriminate].
  - intros n s q s' [= _ <-]; reflexivity.
  - intros q n s u s' [= _ <-]; reflexivity.
Qed.

Definition m0 : bytes :=
  list_to_map (zip (seqZ 64 40) (seqZ 17 40)).
Definition w0 : world := {| wregion := fun a => u8 (7 * a); wdepth := 0 |}.

Definition p0 : field_props := {|
  byte_offset := 4; bit_length := 21; pin_offset := 0; bit_offset_within_first_byte := 13;
  access_width_bytes := 2; access_length := 0; attributes := 0;
  update_rule := UACPI_UPDATE_RULE_PRESERVE; lock_rule := true |}.

Lemma p0_fits : field_fits p0 16.
Proof. split; vm_compute; try (split; congruence); congruence. Qed.

Ltac decided :=
  lazymatch goal with |- ?P => refine (bool_decide_eq_true_1 P _); vm_compute; reflexivity end.

Ltac side_goal :=
  first [ decided | exact p0_fits | apply array_memory_like; simpl; lia | reflexivity
        | discriminate ].

(** A bank field behind an index pair, under the lock. *)
Definition banked : uacpi_field_unit :=
  FieldBank p0 1 (FieldIndex p0 (FieldNormal p0 2) (FieldNormal p0 3)) 5.

(** The run returns, so the premise of the theorem is met. *)
Example banked_runs :
  match uacpi_read_field_unit banked 64 96 4 false (m0, w0) with
  | Some ((st, _), (_, w)) => (st, wdepth w) = (UACPI_STATUS_OK, 0)
  | None => False
  end.
Proof. vm_compute; reflexivity. Qed.

Lemma field_access_lock_balanced_witness :
  exists r m' w', uacpi_read_field_unit banked 64 96 4 false (m0, w0) = Some (r, (m', w')) /\
    wdepth w' = wdepth w0.
Proof.
  pose proof banked_runs as Hrun.
  destruct (uacpi_read_field_unit banked 64 96 4 false (m0, w0)) as [[r [m' w']]|] eqn:E;
    [|contradiction].
  exists r, m', w'; split; [reflexivity|].
  exact (proj1 (field_access_lock_balanced wdepth banked 64 96 4 false m0 w0 array_lock_laws)
    r m' w' E).
Defined.

Lemma read_field_unit_correct_witness :
  exists m' w' v, uacpi_read_field_unit (FieldNormal p0 1) 64 80 4 false (m0, w0)
      = Some ((UACPI_STATUS_OK, None), (m', w')) /\ load_le m' 80 4 = Some v /\
    Z.testbit v 5 = content w0 50.
Proof.
  destruct (read_field_unit_correct p0 1 content 16 UACPI_ADDRESS_SPACE_SYSTEM_MEMORY 64 80 4 false
    m0 w0) as (m' & w' & v & E & Ev & Hv & _); [side_goal..|].
  exists m', w', v; split; [exact E|split; [exact Ev|]]; rewrite Hv by lia; reflexivity.
Defined.

Lemma write_field_unit_correct_witness :
  exists m' w', uacpi_write_field_unit (FieldNormal p0 1) 64 80 4 false (m0, w0)
      = Some ((UACPI_STATUS_OK, None), (m', w')) /\
    content w' 48 = bitat m0 643 /\ content w' 40 = content w0 40.
Proof.
  destruct (write_field_unit_correct p0 1 content 16 UACPI_ADDRESS_SPACE_SYSTEM_MEMORY 64 80 4 false
    m0 w0) as (m' & w' & E & H1 & H2); [side_goal..|].
  exists m', w'; split; [exact E|split].
  - apply (H1 3); simpl; lia.
  - rewrite H2 by (unfold field_bit; simpl; lia); reflexivity.
Defined.

Lemma field_unit_roundtrip_witness :
  exists m1 w1 m2 w2,
    uacpi_write_field_unit (FieldNormal p0 1) 64 80 4 false (m0, w0)
      = Some ((UACPI_STATUS_OK, None), (m1, w1)) /\
    uacpi_read_field_unit (FieldNormal p0 1) 64 90 4 false (m1, w1)
      = Some ((UACPI_STATUS_OK, None), (m2, w2)) /\
    load_le m2 90 4 = Some (0x24232221 mod 2 ^ 21).
Proof.
  destruct (field_unit_roundtrip p0 1 content 16 UACPI_ADDRESS_SPACE_SYSTEM_MEMORY 64 80 90 4
    0x24232221 m0 w0) as (m1 & w1 & m2 & w2 & E1 & E2 & E3); [side_goal..|].
  exists m1, w1, m2, w2; split; [exact E1|split; [exact E2|exact E3]].
Defined.

End Demo.
