(* ===== verification/Gas.v ===== *)
(** * acpi/uacpi/io.c: generic address structures and raw register access

    Reading and writing the registers that a generic address structure (GAS)
    describes: the choice of the access width, the validation, the split of a
    register into accesses, and the accessors for system memory, port I/O and PCI
    configuration space.  The host kernel's mapping and port functions are the
    interface [KernelIO].

    The function pointers of [uacpi_mapped_gas] are functions of the record. *)

From S2P Require Import Prelude CMem UStdlib BitIO UCore.

Open Scope word_scope.

Record acpi_gas := {
  address_space_id : Z;
  register_bit_width : Z;
  register_bit_offset : Z;
  access_size : Z;
  address : Z
}.

Definition SPACE_SYSTEM_MEMORY : Z := 0.
Definition SPACE_SYSTEM_IO : Z := 1.

(** The members of the struct are bytes and a 64-bit address. *)
Record gas_ok (g : acpi_gas) : Prop := {
  go_space : in_w 8 (address_space_id g);
  go_width : in_w 8 (register_bit_width g);
  go_offset : in_w 8 (register_bit_offset g);
  go_access : in_w 8 (access_size g);
  go_address : in_w 64 (address g)
}.

(** ** The host kernel *)

Class KernelIO (W : Type) := {
  kernel_map : Z -> Z -> SM W (option Z);
  kernel_unmap : Z -> Z -> SM W unit;
  kernel_io_map : Z -> Z -> SM W (uacpi_status * Z);
  kernel_io_unmap : Z -> SM W unit;
  (** uacpi_kernel_io_read8/16/32 and write8/16/32, by the width in bytes *)
  kernel_io_read : Z -> Z -> Z -> SM W (uacpi_status * Z);
  kernel_io_write : Z -> Z -> Z -> Z -> SM W uacpi_status;
  kernel_pci_read : Z -> Z -> Z -> SM W (uacpi_status * Z);
  kernel_pci_write : Z -> Z -> Z -> Z -> SM W uacpi_status;
  kernel_alloc : Z -> SM W (option Z);
  kernel_free : Z -> Z -> SM W unit
}.

(** ** Access width and validation *)

Definition is_aligned (x val : Z) : bool := Z.land x (val - 1) =? 0.
Definition is_power_of_two (x : Z) : bool := is_aligned x x.

(** [while (!UACPI_IS_ALIGNED(gas->address, access_bit_width / 8)) /= 2]; a byte
    access is always aligned, so eight halvings of a byte-sized width are enough. *)
Fixpoint back_off (fuel : nat) (addr access_bit_width : Z) : Z :=
  match fuel with
  | O => access_bit_width
  | S fuel' =>
      if is_aligned addr (access_bit_width / 8) then access_bit_width
      else back_off fuel' addr (access_bit_width / 2)
  end.

Definition gas_get_access_bit_width (gas : acpi_gas) : Z :=
  let access_bit_width :=
    if (register_bit_offset gas =? 0) && is_power_of_two (register_bit_width gas)
       && is_aligned (register_bit_width gas) 8
    then register_bit_width gas
    else if negb (access_size gas =? 0) then u8 (access_size gas * 8)
    else
      let msb := uacpi_bit_scan_backward
                   (u64 (register_bit_offset gas + register_bit_width gas - 1)) in
      let access_bit_width := u8 (Z.shiftl 1 msb) in
      if access_bit_width <=? 8 then 8 else back_off 8 (address gas) access_bit_width in
  Z.min access_bit_width (if address_space_id gas =? SPACE_SYSTEM_IO then 32 else 64).

(** The status and, when it is OK, [*access_bit_width] and [*bit_width]. *)
Definition gas_validate (gas : option acpi_gas) : uacpi_status * (Z * Z) :=
  match gas with
  | None => (UACPI_STATUS_INVALID_ARGUMENT, (0, 0))
  | Some gas =>
      if address gas =? 0 then (UACPI_STATUS_NOT_FOUND, (0, 0)) else
      if negb (address_space_id gas =? SPACE_SYSTEM_IO)
         && negb (address_space_id gas =? SPACE_SYSTEM_MEMORY)
      then (UACPI_STATUS_UNIMPLEMENTED, (0, 0)) else
      if 4 <? access_size gas then (UACPI_STATUS_UNIMPLEMENTED, (0, 0)) else
      let access_bit_width := gas_get_access_bit_width gas in
      let total_width := register_bit_offset gas + register_bit_width gas in
      let aligned_width := align_up 64 total_width access_bit_width in
      if 64 <? aligned_width then (UACPI_STATUS_UNIMPLEMENTED, (0, 0)) else
      (UACPI_STATUS_OK, (access_bit_width, u8 total_width))
  end.

Section Gas.
Context {W : Type} {KIO : KernelIO W}.

Abbreviation M := (SM (bytes * W)).

Definition in_kernel {A} (c : SM W A) : M A := fun '(m, w) =>
  match c w with Some (a, w') => Some (a, (m, w')) | None => None end.

(** ** Raw accessors *)

Definition uacpi_system_memory_read (ptr offset width : Z) : M (uacpi_status * Z) :=
  fun '(m, w) =>
  if (width =? 1) || (width =? 2) || (width =? 4) || (width =? 8)
  then match load_le m (ptr + offset) (Z.to_nat width) with
       | Some v => Some ((UACPI_STATUS_OK, v), (m, w))
       | None => None
       end
  else Some ((UACPI_STATUS_INVALID_ARGUMENT, 0), (m, w)).

Definition uacpi_system_memory_write (ptr offset width value : Z) : M uacpi_status :=
  fun '(m, w) =>
  if (width =? 1) || (width =? 2) || (width =? 4) || (width =? 8)
  then match store_le m (ptr + offset) (Z.to_nat width) value with
       | Some m' => Some (UACPI_STATUS_OK, (m', w))
       | None => None
       end
  else Some (UACPI_STATUS_INVALID_ARGUMENT, (m, w)).

(** The value lands in a zeroed union, of which the host writes [width] bytes. *)
Definition uacpi_system_io_read (handle offset width : Z) : M (uacpi_status * Z) :=
  if (width =? 1) || (width =? 2) || (width =? 4)
  then r ← in_kernel (kernel_io_read width handle offset);
       mret (fst r, if is_ok (fst r) then wrap (8 * width) (snd r) else 0)
  else mret (UACPI_STATUS_INVALID_ARGUMENT, 0).

Definition uacpi_system_io_write (handle offset width value : Z) : M uacpi_status :=
  if (width =? 1) || (width =? 2) || (width =? 4)
  then in_kernel (kernel_io_write width handle offset (wrap (8 * width) value))
  else mret UACPI_STATUS_INVALID_ARGUMENT.

Definition uacpi_pci_read (handle offset width : Z) : M (uacpi_status * Z) :=
  if (width =? 1) || (width =? 2) || (width =? 4)
  then r ← in_kernel (kernel_pci_read width handle offset);
       mret (fst r, if is_ok (fst r) then wrap (8 * width) (snd r) else 0)
  else mret (UACPI_STATUS_INVALID_ARGUMENT, 0).

Definition uacpi_pci_write (handle offset width value : Z) : M uacpi_status :=
  if (width =? 1) || (width =? 2) || (width =? 4)
  then in_kernel (kernel_pci_write width handle offset (wrap (8 * width) value))
  else mret UACPI_STATUS_INVALID_ARGUMENT.

(** ** Mapped registers *)

Record uacpi_mapped_gas := {
  mapping : Z;
  access_bit_width : Z;
  total_bit_width : Z;
  bit_offset : Z;
  gas_read : Z -> Z -> Z -> M (uacpi_status * Z);
  gas_write : Z -> Z -> Z -> Z -> M uacpi_status;
  gas_unmap : Z -> Z -> M unit
}.

Definition access_mask (gas : uacpi_mapped_gas) : Z :=
  if access_bit_width gas / 8 <? 8
  then u64 (Z.lnot (u64 (Z.shiftl 0xffffffffffffffff (access_bit_width gas))))
  else 0xffffffffffffffff.

(** [while (bits_left)]; an iteration consumes at least a bit. *)
Fixpoint gas_read_loop (fuel : nat) (gas : uacpi_mapped_gas)
    (bit_offset bits_left index offset out_value : Z) : M (uacpi_status * Z) :=
  if bits_left =? 0 then mret (UACPI_STATUS_OK, out_value) else
  match fuel with
  | O => undefined
  | S fuel' =>
      let abw := access_bit_width gas in
      let skipped := abw <=? bit_offset in
      r ← (if skipped then mret (UACPI_STATUS_OK, 0)
           else gas_read gas (mapping gas) offset (abw / 8));
      if negb (is_ok (fst r)) then mret (fst r, out_value) else
      gas_read_loop fuel' gas (if skipped then bit_offset - abw else bit_offset)
        (bits_left - Z.min bits_left abw) (u8 (index + 1)) (offset +64 abw / 8)
        (Z.lor out_value (u64 (Z.shiftl (Z.land (snd r) (access_mask gas)) (index * abw))))
  end.

Definition uacpi_gas_read_mapped (gas : uacpi_mapped_gas) : M (uacpi_status * Z) :=
  gas_read_loop (Z.to_nat (total_bit_width gas)) gas (bit_offset gas) (total_bit_width gas) 0 0 0.

Fixpoint gas_write_loop (fuel : nat) (gas : uacpi_mapped_gas)
    (bit_offset bits_left index offset in_value : Z) : M uacpi_status :=
  if bits_left =? 0 then mret UACPI_STATUS_OK else
  match fuel with
  | O => undefined
  | S fuel' =>
      let abw := access_bit_width gas in
      let data := Z.land (Z.shiftr in_value (index * abw)) (access_mask gas) in
      let skipped := abw <=? bit_offset in
      try_ok (if skipped then mret UACPI_STATUS_OK
              else gas_write gas (mapping gas) offset (abw / 8) data)
       (gas_write_loop fuel' gas (if skipped then bit_offset - abw else bit_offset)
          (bits_left - Z.min bits_left abw) (u8 (index + 1)) (offset +64 abw / 8) in_value)
  end.

Definition uacpi_gas_write_mapped (gas : uacpi_mapped_gas) (in_value : Z) : M uacpi_status :=
  gas_write_loop (Z.to_nat (total_bit_width gas)) gas (bit_offset gas) (total_bit_width gas) 0 0
    in_value.

Definition unmap_gas_io (io_handle size : Z) : M unit := in_kernel (kernel_io_unmap io_handle).

Definition uacpi_map_gas_noalloc (gas : option acpi_gas) :
    M (uacpi_status * option uacpi_mapped_gas) :=
  let '(ret, (access_bit_width, total_width)) := gas_validate gas in
  if negb (is_ok ret) then mret (ret, None) else
  match gas with
  | None => mret (UACPI_STATUS_INVALID_ARGUMENT, None)
  | Some gas =>
      if address_space_id gas =? SPACE_SYSTEM_MEMORY then
        r ← in_kernel (kernel_map (address gas) (total_width / 8));
        match (r : option Z) with
        | None => mret (UACPI_STATUS_MAPPING_FAILED, None)
        | Some ptr => mret (UACPI_STATUS_OK, Some
            {| mapping := ptr; access_bit_width := access_bit_width;
               total_bit_width := total_width; bit_offset := register_bit_offset gas;
               gas_read := uacpi_system_memory_read; gas_write := uacpi_system_memory_write;
               gas_unmap := fun p n => in_kernel (kernel_unmap p n) |})
        end
      else
        r ← in_kernel (kernel_io_map (address gas) (total_width / 8));
        if negb (is_ok (fst r)) then mret (fst r, None) else
        mret (UACPI_STATUS_OK, Some
          {| mapping := snd r; access_bit_width := access_bit_width;
             total_bit_width := total_width; bit_offset := register_bit_offset gas;
             gas_read := uacpi_system_io_read; gas_write := uacpi_system_io_write;
             gas_unmap := unmap_gas_io |})
  end.

Definition sizeof_mapped_gas : Z := 40.

(** The allocated object is returned by its address and its contents. *)
Definition uacpi_map_gas (gas : option acpi_gas) :
    M (uacpi_status * option (Z * uacpi_mapped_gas)) :=
  p ← in_kernel (kernel_alloc sizeof_mapped_gas);
  match (p : option Z) with
  | None => mret (UACPI_STATUS_OUT_OF_MEMORY, None)
  | Some p =>
      r ← uacpi_map_gas_noalloc gas;
      match (r : uacpi_status * option uacpi_mapped_gas) with
      | (UACPI_STATUS_OK, Some g) => mret (UACPI_STATUS_OK, Some (p, g))
      | (ret, _) => in_kernel (kernel_free p sizeof_mapped_gas);; mret (ret, None)
      end
  end.

Definition uacpi_unmap_gas_nofree (gas : uacpi_mapped_gas) : M unit :=
  gas_unmap gas (mapping gas) (access_bit_width gas / 8).

Definition uacpi_unmap_gas (p : Z) (gas : uacpi_mapped_gas) : M unit :=
  uacpi_unmap_gas_nofree gas;; in_kernel (kernel_free p sizeof_mapped_gas).

Definition uacpi_gas_read (gas : option acpi_gas) : M (uacpi_status * Z) :=
  r ← uacpi_map_gas_noalloc gas;
  match (r : uacpi_status * option uacpi_mapped_gas) with
  | (UACPI_STATUS_OK, Some g) =>
      v ← uacpi_gas_read_mapped g; uacpi_unmap_gas_nofree g;; mret v
  | (ret, _) => mret (ret, 0)
  end.

Definition uacpi_gas_write (gas : option acpi_gas) (in_value : Z) : M uacpi_status :=
  r ← uacpi_map_gas_noalloc gas;
  match (r : uacpi_status * option uacpi_mapped_gas) with
  | (UACPI_STATUS_OK, Some g) =>
      v ← uacpi_gas_write_mapped g in_value; uacpi_unmap_gas_nofree g;; mret v
  | (ret, _) => mret ret
  end.
End Gas.

(** ** Access widths *)

(** Membership of a literal in a literal list. *)
Ltac in_solve := vm_compute; repeat first [left; reflexivity|right].

(** Case analysis on membership in a literal list. *)
Ltac in_cases H := repeat (destruct H as [<-|H] || destruct H as [H|H]); [..|destruct H].

Lemma is_aligned_1 a : is_aligned a 1 = true.
Proof. unfold is_aligned; simpl; rewrite Z.land_0_r; reflexivity. Qed.

Lemma back_off_byte fuel addr : back_off fuel addr 8 = 8.
Proof.
  destruct fuel; simpl; [reflexivity|].
  change (8 / 8) with 1; rewrite is_aligned_1; reflexivity.
Qed.

Lemma back_off_widths addr b : In b [16; 32; 64; 128] -> In (back_off 8 addr b) [8; 16; 32; 64; 128].
Proof.
  assert (H16 : forall n, In (back_off (S n) addr 16) [8; 16; 32; 64; 128]).
  { intros n; cbn [back_off]; change (16 / 2) with 8; rewrite back_off_byte.
    destruct (is_aligned _ _); in_solve. }
  assert (H32 : forall n, In (back_off (S (S n)) addr 32) [8; 16; 32; 64; 128]).
  { intros n; remember (S n) as k; cbn [back_off]; change (32 / 2) with 16; subst k.
    destruct (is_aligned _ _); [in_solve|apply H16]. }
  assert (H64 : forall n, In (back_off (S (S (S n))) addr 64) [8; 16; 32; 64; 128]).
  { intros n; remember (S (S n)) as k; cbn [back_off]; change (64 / 2) with 32; subst k.
    destruct (is_aligned _ _); [in_solve|apply H32]. }
  intros H; in_cases H; [apply H16|apply H32|apply H64|].
  remember 7%nat as k; cbn [back_off]; change (128 / 2) with 64; subst k.
  destruct (is_aligned _ _); [in_solve|apply H64].
Qed.

Definition in_list (l : list Z) (x : Z) : bool := existsb (Z.eqb x) l.

Lemma in_list_In l x : in_list l x = true <-> In x l.
Proof.
  unfold in_list; rewrite existsb_exists; split.
  - intros (y & Hy & E); apply Z.eqb_eq in E; subst; exact Hy.
  - intros H; exists x; split; [exact H|apply Z.eqb_refl].
Qed.

Lemma register_width_pow2 x : in_w 8 x -> is_power_of_two x = true -> is_aligned x 8 = true ->
  In x [0; 8; 16; 32; 64; 128].
Proof.
  intros Hx H1 H2; apply in_list_In.
  pose proof (forallb_range (fun x => implb (is_power_of_two x && is_aligned x 8)
    (in_list [0; 8; 16; 32; 64; 128] x)) 0 256 x) as H.
  cbv beta in H; rewrite H1, H2 in H; apply H; [vm_compute; reflexivity|exact Hx].
Qed.

Lemma rounded_width v : 0 <= v < 510 ->
  In (u8 (Z.shiftl 1 (uacpi_bit_scan_backward v))) [0; 1; 2; 4; 8; 16; 32; 64; 128].
Proof.
  intros Hv; apply in_list_In.
  apply (forallb_range (fun v => in_list [0; 1; 2; 4; 8; 16; 32; 64; 128]
    (u8 (Z.shiftl 1 (uacpi_bit_scan_backward v)))) 0 510 v); [vm_compute; reflexivity|lia].
Qed.

Lemma access_bit_width_cases g : gas_ok g -> access_size g <= 4 ->
  0 < register_bit_offset g + register_bit_width g ->
  In (gas_get_access_bit_width g) [8; 16; 24; 32; 64].
Proof.
  intros [_ Hw Ho Ha _] Hs Hpos; unfold gas_get_access_bit_width.
  assert (Hmin : forall x, In x [8; 16; 24; 32; 64; 128] ->
    In (Z.min x (if address_space_id g =? SPACE_SYSTEM_IO then 32 else 64)) [8; 16; 24; 32; 64]).
  { intros x Hx; destruct (_ =? _); in_cases Hx; in_solve. }
  apply Hmin; destruct (_ && _ && _) eqn:E; [|destruct (Z.eqb_spec (access_size g) 0)]; cbn [negb].
  - apply andb_true_iff in E as [E E3]; apply andb_true_iff in E as [E1 E2].
    apply Z.eqb_eq in E1.
    destruct (register_width_pow2 _ Hw E2 E3) as [H|H]; [lia|in_cases H; in_solve].
  - unfold in_w in *; rewrite (wrap_id 64) by (split; lia).
    pose proof (rounded_width (register_bit_offset g + register_bit_width g - 1)) as H.
    specialize (H ltac:(lia)); set (r := u8 _) in *.
    destruct (Z.leb_spec r 8); [in_solve|].
    assert (Hr : In r [16; 32; 64; 128]) by (simpl in H |- *; lia).
    pose proof (back_off_widths (address g) r Hr) as Hb; simpl in Hb |- *; tauto.
  - unfold in_w in Ha; assert (H : access_size g = 1 \/ access_size g = 2 \/ access_size g = 3 \/
      access_size g = 4) by lia.
    destruct H as [->|[->|[->| ->]]]; in_solve.
Qed.

Lemma aligned_total_le total abw : 0 <= total <= 510 -> In abw [8; 16; 24; 32; 64] ->
  align_up 64 total abw <= 64 -> total <= 64.
Proof.
  intros Ht Ha Hal.
  assert (H : forall a, In a [8; 16; 24; 32; 64] -> forallb (fun t =>
    implb (align_up 64 t a <=? 64) (t <=? 64)) (seqZ 0 511) = true).
  { intros a Hin; in_cases Hin; vm_compute; reflexivity. }
  pose proof (forallb_range _ _ _ total (H abw Ha) ltac:(lia)) as E; simpl in E.
  destruct (Z.leb_spec (align_up 64 total abw) 64); [|lia]; apply Z.leb_le, E.
Qed.

(** ** Registers that behave like memory

    [inv] is an invariant of the state under which accesses below [limit] bytes
    succeed; [content] is the register file's bit string. *)

Record mapped_like {W} (g : uacpi_mapped_gas (W := W)) (inv : bytes * W -> Prop)
    (content : bytes * W -> Z -> bool) (limit : Z) : Prop := {
  gl_read : forall s off n, inv s -> In n [1; 2; 4; 8] -> 0 <= off -> off + n <= limit ->
    exists v, gas_read g (mapping g) off n s = Some ((UACPI_STATUS_OK, v), s) /\
      forall i, 0 <= i < 8 * n -> Z.testbit v i = content s (8 * off + i);
  gl_write : forall s off n v, inv s -> In n [1; 2; 4; 8] -> 0 <= off -> off + n <= limit ->
    exists s', gas_write g (mapping g) off n v s = Some (UACPI_STATUS_OK, s') /\ inv s' /\
      forall x, content s' x =
        if within (8 * off) (8 * n) x then Z.testbit v (x - 8 * off) else content s x
}.

Section Mapped.
Context {W : Type}.
Variables (g : uacpi_mapped_gas (W := W)) (inv : bytes * W -> Prop)
  (content : bytes * W -> Z -> bool) (limit n : Z).
Hypothesis like : mapped_like g inv content limit.
Hypothesis n_ok : In n [1; 2; 4; 8].
Hypothesis width_eq : access_bit_width g = 8 * n.

(** The number of accesses, and how many leading ones the bit offset skips. *)
Definition accesses (total : Z) : Z := (total + (8 * n - 1)) / (8 * n).
Definition skipped (bo : Z) : Z := bo / (8 * n).

Lemma n_cases : n = 1 \/ n = 2 \/ n = 4 \/ n = 8.
Proof. simpl in n_ok; intuition congruence. Qed.

Lemma width_div : access_bit_width g / 8 = n.
Proof. rewrite width_eq, Z.mul_comm, Z.div_mul by lia; reflexivity. Qed.

Lemma access_mask_testbit i : 0 <= i -> Z.testbit (access_mask g) i = (i <? 8 * n).
Proof.
  intros Hi; unfold access_mask; rewrite width_div, width_eq.
  change 0xffffffffffffffff with (Z.ones 64); pose proof n_cases.
  destruct (Z.ltb_spec n 8); bits_simpl; bool_cases; reflexivity.
Qed.

(** The bit offset left at access [k]. *)
Lemma skip_step bo k : 0 <= bo -> 0 <= k ->
  let left := bo - Z.min k (skipped bo) * (8 * n) in
  (8 * n <=? left) = (k <? skipped bo) /\
  (if 8 * n <=? left then left - 8 * n else left) = bo - Z.min (k + 1) (skipped bo) * (8 * n).
Proof.
  intros Hb Hk; unfold skipped; assert (0 < 8 * n) by (pose proof n_cases; lia).
  pose proof (Z.div_mod bo (8 * n)); pose proof (Z.mod_pos_bound bo (8 * n)).
  assert (0 <= bo / (8 * n)) by (apply Z.div_pos; lia); cbv zeta.
  set (q := bo / (8 * n)) in *; destruct (Z.ltb_spec k q).
  - rewrite !Z.min_l by lia; destruct (Z.leb_spec (8 * n) (bo - k * (8 * n))); [|nia]; lia.
  - rewrite !Z.min_r by lia; destruct (Z.leb_spec (8 * n) (bo - q * (8 * n))); [nia|]; lia.
Qed.

(** One access, or the zero that stands for a skipped one. *)
Lemma read_chunk s bo k : inv s -> 0 <= k -> (k + 1) * n <= limit ->
  exists v, (if k <? skipped bo then mret (UACPI_STATUS_OK, 0)
      else gas_read g (mapping g) (k * n) n) s = Some ((UACPI_STATUS_OK, v), s) /\
    forall i, 0 <= i < 8 * n -> Z.testbit v i =
      (skipped bo * (8 * n) <=? k * (8 * n) + i) && content s (k * (8 * n) + i).
Proof.
  intros Hinv Hk Hlim; pose proof n_cases; destruct (Z.ltb_spec k (skipped bo)).
  - exists 0; split; [reflexivity|]; intros i Hi; rewrite Z.testbit_0_l.
    destruct (Z.leb_spec (skipped bo * (8 * n)) (k * (8 * n) + i)); [nia|reflexivity].
  - destruct (gl_read _ _ _ _ like s (k * n) n) as (v & Ev & Hv); auto; [nia|nia|].
    exists v; split; [exact Ev|]; intros i Hi; rewrite Hv by assumption.
    destruct (Z.leb_spec (skipped bo * (8 * n)) (k * (8 * n) + i)); [|nia].
    simpl; f_equal; lia.
Qed.

(** Adding chunk [k] to the [k] chunks below it. *)
Lemma or_chunk acc v k (c : Z -> bool) : 0 <= k -> (k + 1) * n <= 8 -> in_w (k * (8 * n)) acc ->
  (forall i, 0 <= i < 8 * n -> Z.testbit v i = c (k * (8 * n) + i)) ->
  let acc' := Z.lor acc (u64 (Z.shiftl (Z.land v (access_mask g)) (k * (8 * n)))) in
  in_w ((k + 1) * (8 * n)) acc' /\
  forall i, 0 <= i -> Z.testbit acc' i =
    if i <? k * (8 * n) then Z.testbit acc i else (i <? (k + 1) * (8 * n)) && c i.
Proof.
  intros Hk H64 Hacc Hv acc'; pose proof n_cases.
  assert (Hbits : forall i, 0 <= i -> Z.testbit acc' i =
    if i <? k * (8 * n) then Z.testbit acc i else (i <? (k + 1) * (8 * n)) && c i).
  { intros i Hi; unfold acc'; bits_simpl; destruct (Z.ltb_spec i (k * (8 * n))).
    - rewrite (testbit_neg _ (i - k * (8 * n))) by lia.
      rewrite andb_false_r, orb_false_r; reflexivity.
    - rewrite (testbit_in_w _ _ _ Hacc) by lia; simpl orb.
      rewrite access_mask_testbit by lia.
      destruct (Z.ltb_spec i ((k + 1) * (8 * n))), (Z.ltb_spec (i - k * (8 * n)) (8 * n));
        try nia; try (rewrite !andb_false_r; reflexivity).
      destruct (Z.ltb_spec i 64); [|nia]; rewrite andb_true_r, Hv by lia.
      replace (k * (8 * n) + (i - k * (8 * n))) with i by lia; reflexivity. }
  split; [|exact Hbits]; apply in_w_of_testbit; [nia| |].
  - unfold acc'; destruct Hacc; apply Z.lor_nonneg; split; [lia|apply wrap_range; lia].
  - intros i Hi; rewrite Hbits by nia; destruct (Z.ltb_spec i (k * (8 * n))); [nia|].
    destruct (Z.ltb_spec i ((k + 1) * (8 * n))); [lia|reflexivity].
Qed.

(** The counters after access [k]. *)
Lemma next_counters total k : 0 <= k -> (k + 1) * n <= 8 ->
  u8 (k + 1) = k + 1 /\ (k * n +64 n = (k + 1) * n) /\
  Z.max 0 (total - k * (8 * n)) - Z.min (Z.max 0 (total - k * (8 * n))) (8 * n)
    = Z.max 0 (total - (k + 1) * (8 * n)).
Proof.
  intros Hk H; pose proof n_cases; rewrite !wrap_id by (split; nia).
  split; [reflexivity|split; lia].
Qed.

Lemma gas_read_loop_spec fuel : forall s bo total k acc,
  inv s -> 0 <= bo -> 0 <= k <= accesses total -> 0 < total ->
  accesses total * n <= limit -> accesses total * n <= 8 ->
  total - k * (8 * n) <= Z.of_nat fuel -> in_w (k * (8 * n)) acc ->
  exists v, gas_read_loop fuel g (bo - Z.min k (skipped bo) * (8 * n))
      (Z.max 0 (total - k * (8 * n))) k (k * n) acc s = Some ((UACPI_STATUS_OK, v), s) /\
    forall i, 0 <= i -> Z.testbit v i =
      if i <? k * (8 * n) then Z.testbit acc i
      else (i <? accesses total * (8 * n)) && ((skipped bo * (8 * n) <=? i) && content s i).
Proof.
  induction fuel as [|fuel IH]; intros s bo total k acc Hinv Hbo Hk Htot Hlim H64 Hf Hacc;
    pose proof n_cases as Hn;
    destruct (ceil_div_bounds total (8 * n)) as (A0 & A1); try lia; fold (accesses total) in *;
    cbn [gas_read_loop]; (destruct (Z.eqb_spec (Z.max 0 (total - k * (8 * n))) 0) as [E|E]; [|try lia]).
  1, 2: assert (k = accesses total) by nia; subst k; exists acc; split; [reflexivity|];
    intros i Hi; destruct (Z.ltb_spec i (accesses total * (8 * n))); [reflexivity|];
    rewrite (testbit_in_w _ _ _ Hacc) by lia; reflexivity.
  assert (Hlt : k < accesses total) by nia.
  destruct (skip_step bo k Hbo ltac:(lia)) as [S1 S2]; cbv zeta in S1, S2.
  rewrite width_div, width_eq, S2, S1.
  destruct (read_chunk s bo k) as (v & Ev & Hv); auto; [lia|nia|].
  rewrite (SM_bind_Some _ _ _ _ _ Ev); cbn [fst snd is_ok negb].
  destruct (or_chunk acc v k (fun i => (skipped bo * (8 * n) <=? i) && content s i))
    as [Hacc' Hbits]; auto; [lia|nia|]; set (acc' := Z.lor acc _) in *.
  destruct (next_counters total k) as (-> & -> & ->); [lia|nia|].
  destruct (IH s bo total (k + 1) acc') as (r & Er & Hr); auto; try nia.
  exists r; split; [exact Er|]; intros i Hi; rewrite Hr, Hbits by lia.
  destruct (Z.ltb_spec i ((k + 1) * (8 * n))), (Z.ltb_spec i (k * (8 * n))); try nia; try reflexivity.
  destruct (Z.ltb_spec i (accesses total * (8 * n))); [reflexivity|nia].
Qed.

(** The write of [in_value] from access [k] on. *)
Lemma gas_write_loop_spec fuel : forall s bo total k v,
  inv s -> 0 <= bo -> 0 <= k <= accesses total -> 0 < total ->
  accesses total * n <= limit -> accesses total * n <= 8 ->
  total - k * (8 * n) <= Z.of_nat fuel ->
  exists s', gas_write_loop fuel g (bo - Z.min k (skipped bo) * (8 * n))
      (Z.max 0 (total - k * (8 * n))) k (k * n) v s = Some (UACPI_STATUS_OK, s') /\ inv s' /\
    forall x, content s' x =
      if (k * (8 * n) <=? x) && (x <? accesses total * (8 * n)) && (skipped bo * (8 * n) <=? x)
      then Z.testbit v x else content s x.
Proof.
  induction fuel as [|fuel IH]; intros s bo total k v Hinv Hbo Hk Htot Hlim H64 Hf;
    pose proof n_cases as Hn;
    destruct (ceil_div_bounds total (8 * n)) as (A0 & A1); try lia; fold (accesses total) in *;
    cbn [gas_write_loop]; (destruct (Z.eqb_spec (Z.max 0 (total - k * (8 * n))) 0) as [E|E]; [|try lia]).
  1, 2: assert (k = accesses total) by nia; subst k; exists s; split; [reflexivity|split; [exact Hinv|]];
    intros x; destruct (Z.leb_spec (accesses total * (8 * n)) x),
      (Z.ltb_spec x (accesses total * (8 * n))); try lia; reflexivity.
  assert (Hlt : k < accesses total) by nia.
  destruct (skip_step bo k Hbo ltac:(lia)) as [S1 S2]; cbv zeta in S1, S2.
  rewrite width_div, width_eq, S2, S1.
  assert (exists s1, (if k <? skipped bo then mret UACPI_STATUS_OK
      else gas_write g (mapping g) (k * n) n (Z.land (Z.shiftr v (k * (8 * n))) (access_mask g))) s
      = Some (UACPI_STATUS_OK, s1) /\ inv s1 /\ forall x, content s1 x =
        if negb (k <? skipped bo) && within (k * (8 * n)) (8 * n) x
        then Z.testbit v x else content s x) as (s1 & E1 & I1 & C1).
  { destruct (Z.ltb_spec k (skipped bo)); [exists s; split; [reflexivity|auto]|].
    destruct (gl_write _ _ _ _ like s (k * n) n
      (Z.land (Z.shiftr v (k * (8 * n))) (access_mask g))) as (s1 & E1 & I1 & C1); auto; [nia|nia|].
    exists s1; split; [exact E1|split; [exact I1|]]; intros x; rewrite C1; cbn [negb andb].
    replace (8 * (k * n)) with (k * (8 * n)) by lia.
    range_cases; [|reflexivity]; bits_simpl; rewrite access_mask_testbit by lia.
    bool_cases; rewrite andb_true_r; f_equal; lia. }
  rewrite (try_ok_ok _ _ _ _ E1).
  destruct (next_counters total k) as (-> & -> & ->); [lia|nia|].
  destruct (IH s1 bo total (k + 1) v) as (s2 & E2 & I2 & C2); auto; try nia.
  exists s2; split; [exact E2|split; [exact I2|]]; intros x; rewrite C2, C1; clear - Hn Hlt Hk.
  unfold within; destruct (Z.leb_spec ((k + 1) * (8 * n)) x), (Z.leb_spec (k * (8 * n)) x),
    (Z.ltb_spec x (accesses total * (8 * n))), (Z.leb_spec (skipped bo * (8 * n)) x),
    (Z.ltb_spec k (skipped bo)), (Z.ltb_spec x (k * (8 * n) + 8 * n)); try reflexivity; nia.
Qed.
End Mapped.

(** Registers in mapped system memory behave like memory. *)
Definition memory_inv {W} (ptr limit : Z) (s : bytes * W) : Prop :=
  bytes_ok (fst s) /\ owned (fst s) ptr limit.
Definition memory_content {W} (ptr : Z) (s : bytes * W) (x : Z) : bool :=
  bitat (fst s) (8 * ptr + x).

(** What mapping a system-memory register returns. *)
Definition memory_gas {W} `{KernelIO W} (ptr abw total bo : Z) : uacpi_mapped_gas (W := W) :=
  {| mapping := ptr; access_bit_width := abw; total_bit_width := total; bit_offset := bo;
     gas_read := uacpi_system_memory_read; gas_write := uacpi_system_memory_write;
     gas_unmap := fun p n => in_kernel (kernel_unmap p n) |}.

Lemma map_gas_memory {W} `{KernelIO W} g abw total ptr m (w w1 : W) :
  gas_validate (Some g) = (UACPI_STATUS_OK, (abw, total)) ->
  address_space_id g = SPACE_SYSTEM_MEMORY ->
  kernel_map (address g) (total / 8) w = Some (Some ptr, w1) ->
  uacpi_map_gas_noalloc (Some g) (m, w) = Some ((UACPI_STATUS_OK,
    Some (memory_gas ptr abw total (register_bit_offset g))), (m, w1)).
Proof.
  intros Ev Hsp E1; unfold uacpi_map_gas_noalloc, in_kernel; rewrite Ev, Hsp; cbn [is_ok negb].
  rewrite Z.eqb_refl; smunfold; rewrite E1; reflexivity.
Qed.

Lemma system_memory_like {W} `{KernelIO W} ptr abw total bo limit :
  mapped_like (memory_gas ptr abw total bo) (memory_inv ptr limit) (memory_content ptr) limit.
Proof.
  assert (Hn : forall n, In n [1; 2; 4; 8] ->
    ((n =? 1) || (n =? 2) || (n =? 4) || (n =? 8) = true) /\ 0 <= n).
  { intros n Hin; in_cases Hin; split; [reflexivity|lia|reflexivity|lia|reflexivity|lia|reflexivity|lia]. }
  split; cbn [memory_gas mapping gas_read gas_write].
  - intros [m w] off n [Hok Ho] Hin Hoff Hlim; destruct (Hn n Hin) as [En H0].
    unfold uacpi_system_memory_read; rewrite En; simpl fst in *.
    destruct (load_le_bits m (Z.to_nat n) Hok (ptr + off)) as (v & -> & _ & Hv).
    { rewrite Z2Nat.id by lia; eapply owned_sub; [exact Ho|lia..]. }
    exists v; split; [reflexivity|]; intros i Hi; rewrite Hv, Z2Nat.id by lia.
    unfold memory_content; simpl fst; bool_cases; f_equal; lia.
  - intros [m w] off n v [Hok Ho] Hin Hoff Hlim; destruct (Hn n Hin) as [En H0].
    unfold uacpi_system_memory_write; rewrite En; simpl fst in *.
    destruct (store_le_spec (Z.to_nat n) m (ptr + off) v) as (m' & -> & D & K & B).
    { rewrite Z2Nat.id by lia; eapply owned_sub; [exact Ho|lia..]. }
    exists (m', w); split; [reflexivity|split; [split; simpl; [auto|rewrite <- D; exact Ho]|]].
    intros x; unfold memory_content; simpl fst; rewrite B, Z2Nat.id by lia.
    range_cases; [f_equal; lia|reflexivity].
Qed.

(** ** Theorems *)

(** A GAS that validation accepts has an access width of 8, 16, 24, 32 or 64
    bits (32 at most for port I/O) and a total width of at most 64 bits, so the
    total width is stored untruncated and every shift that assembles or splits
    the register's value stays below 64. *)
Theorem gas_validate_bounds g abw total :
  gas_ok g -> 0 < register_bit_offset g + register_bit_width g ->
  gas_validate (Some g) = (UACPI_STATUS_OK, (abw, total)) ->
  In abw [8; 16; 24; 32; 64] /\ (address_space_id g = SPACE_SYSTEM_IO -> abw <= 32) /\
  total = register_bit_offset g + register_bit_width g /\ total <= 64 /\
  forall index, 0 <= index -> index * abw < total -> index * abw < 64.
Proof.
  intros Hg Hpos; unfold gas_validate.
  destruct (address g =? 0); [discriminate|]; destruct (_ && _); [discriminate|].
  destruct (Z.ltb_spec 4 (access_size g)); [discriminate|].
  destruct (Z.ltb_spec 64 (align_up 64 (register_bit_offset g + register_bit_width g)
    (gas_get_access_bit_width g))); [discriminate|]; intros [= <- <-].
  pose proof (access_bit_width_cases g Hg ltac:(lia) Hpos) as Hc.
  destruct Hg as [_ Hw Ho _ _]; unfold in_w in *.
  assert (Ht : register_bit_offset g + register_bit_width g <= 64)
    by (apply (aligned_total_le _ (gas_get_access_bit_width g)); auto; lia).
  rewrite (wrap_id 8) by (split; lia).
  split; [exact Hc|split; [|split; [reflexivity|split; [exact Ht|intros; lia]]]].
  intros Hio; unfold gas_get_access_bit_width; rewrite Hio; apply Z.le_min_r.
Qed.

(** On registers that behave like memory, reading a mapped GAS returns the
    register's bits unshifted, with the whole access units below the bit offset
    reading as zero; writing sets exactly the bits of the units that are not
    skipped and keeps everything else; reading after writing returns the written
    value on those units.  Both loops terminate. *)
Theorem gas_mapped_access {W} (g : uacpi_mapped_gas (W := W)) inv content limit n s v :
  mapped_like g inv content limit -> In n [1; 2; 4; 8] -> access_bit_width g = 8 * n ->
  inv s -> 0 <= bit_offset g -> 0 < total_bit_width g ->
  accesses n (total_bit_width g) * n <= limit -> accesses n (total_bit_width g) * n <= 8 ->
  let selected i := (i <? accesses n (total_bit_width g) * (8 * n)) &&
                    (skipped n (bit_offset g) * (8 * n) <=? i) in
  (exists r, uacpi_gas_read_mapped g s = Some ((UACPI_STATUS_OK, r), s) /\
     forall i, 0 <= i -> Z.testbit r i = selected i && content s i) /\
  (exists s' r, uacpi_gas_write_mapped g v s = Some (UACPI_STATUS_OK, s') /\ inv s' /\
     (forall x, 0 <= x -> content s' x = if selected x then Z.testbit v x else content s x) /\
     uacpi_gas_read_mapped g s' = Some ((UACPI_STATUS_OK, r), s') /\
     forall i, 0 <= i -> Z.testbit r i = selected i && Z.testbit v i).
Proof.
  intros Hl Hn Hw Hinv Hbo Htot Hlim H64 selected.
  assert (Hread : forall s0, inv s0 -> exists r,
    uacpi_gas_read_mapped g s0 = Some ((UACPI_STATUS_OK, r), s0) /\
    forall i, 0 <= i -> Z.testbit r i = selected i && content s0 i).
  { intros s0 H0.
    destruct (gas_read_loop_spec g inv content limit n Hl Hn Hw (Z.to_nat (total_bit_width g)) s0
      (bit_offset g) (total_bit_width g) 0 0) as (r & E & Hr); auto; try lia.
    { split; [lia|]; apply Z.div_pos; simpl in Hn; lia. }
    { split; simpl; lia. }
    rewrite Z.min_l, !Z.mul_0_l, !Z.sub_0_r, Z.max_r in E by
      (try lia; apply Z.div_pos; simpl in Hn; lia).
    exists r; split; [exact E|]; intros i Hi; rewrite Hr by assumption; unfold selected.
    destruct (Z.ltb_spec i (0 * (8 * n))); [lia|rewrite andb_assoc; reflexivity]. }
  split; [apply Hread, Hinv|].
  destruct (gas_write_loop_spec g inv content limit n Hl Hn Hw (Z.to_nat (total_bit_width g)) s
    (bit_offset g) (total_bit_width g) 0 v) as (s' & E & I & C); auto; try lia.
  { split; [lia|]; apply Z.div_pos; simpl in Hn; lia. }
  rewrite Z.min_l, !Z.mul_0_l, !Z.sub_0_r, Z.max_r in E by
    (try lia; apply Z.div_pos; simpl in Hn; lia).
  destruct (Hread s' I) as (r & Er & Hr).
  assert (Hc : forall x, 0 <= x -> content s' x = if selected x then Z.testbit v x else content s x).
  { intros x Hx; rewrite C; unfold selected; destruct (Z.leb_spec (0 * (8 * n)) x); [|lia].
    reflexivity. }
  exists s', r; split; [exact E|split; [exact I|split; [exact Hc|split; [exact Er|]]]].
  intros i Hi; rewrite Hr, Hc by assumption; destruct (selected i); reflexivity.
Qed.

(** Reading a byte-, word-, dword- or qword-sized register in system memory
    maps it, loads exactly that integer with one access and unmaps the mapping
    with the length it was mapped with. *)
Theorem gas_read_system_memory {W} `{KernelIO W} g n ptr v m (w w1 w2 : W) :
  gas_ok g -> address_space_id g = SPACE_SYSTEM_MEMORY -> address g <> 0 -> access_size g <= 4 ->
  In n [1; 2; 4; 8] -> register_bit_offset g = 0 -> register_bit_width g = 8 * n ->
  bytes_ok m -> owned m ptr n -> load_le m ptr (Z.to_nat n) = Some v ->
  kernel_map (address g) n w = Some (Some ptr, w1) -> kernel_unmap ptr n w1 = Some (tt, w2) ->
  uacpi_gas_read (Some g) (m, w) = Some ((UACPI_STATUS_OK, v), (m, w2)).
Proof.
  intros Hg Hsp Haddr Hacc Hn Hoff Hwd Hok Ho Hv E1 E2.
  assert (Hn8 : 0 < n <= 8) by (simpl in Hn; lia).
  assert (Ev : gas_validate (Some g) = (UACPI_STATUS_OK, (8 * n, 8 * n))).
  { unfold gas_validate; rewrite Hsp; destruct (Z.eqb_spec (address g) 0); [contradiction|].
    cbn [SPACE_SYSTEM_IO SPACE_SYSTEM_MEMORY Z.eqb negb andb].
    destruct (Z.ltb_spec 4 (access_size g)); [lia|].
    unfold gas_get_access_bit_width; rewrite Hsp, Hoff, Hwd; in_cases Hn; reflexivity. }
  assert (En : 8 * n / 8 = n) by (rewrite Z.mul_comm, Z.div_mul; lia).
  unfold uacpi_gas_read; erewrite SM_bind_Some;
    [|apply map_gas_memory; [exact Ev|exact Hsp|rewrite En; exact E1]]; cbv iota beta.
  assert (Hacc1 : accesses n (8 * n) = 1)
    by (unfold accesses; symmetry; apply (Z.div_unique _ _ _ (8 * n - 1)); lia).
  assert (Er : uacpi_gas_read_mapped (memory_gas ptr (8 * n) (8 * n) (register_bit_offset g)) (m, w1)
    = Some ((UACPI_STATUS_OK, v), (m, w1))).
  { destruct (gas_read_loop_spec _ (memory_inv ptr n) (memory_content ptr) n n
      (system_memory_like ptr (8 * n) (8 * n) 0 n) Hn eq_refl (Z.to_nat (8 * n)) (m, w1) 0 (8 * n) 0 0)
      as (r & E & Hr); rewrite ?Hacc1; try lia.
    { split; [exact Hok|exact Ho]. }
    { split; simpl; lia. }
    unfold uacpi_gas_read_mapped; cbn [memory_gas bit_offset total_bit_width]; rewrite Hoff.
    unfold skipped in E; rewrite Z.div_0_l, Z.max_r, !Z.mul_0_l, !Z.sub_0_r in E by lia.
    rewrite E; do 3 f_equal; apply Z.bits_inj'; intros i Hi.
    rewrite Hr, Hacc1, (load_le_bitat m ptr (Z.to_nat n) v i Hok) by
      (rewrite ?Z2Nat.id by lia; auto); unfold skipped, memory_content; simpl fst.
    rewrite Z2Nat.id, Z.div_0_l by lia; bool_cases; reflexivity. }
  rewrite (SM_bind_Some _ _ _ _ _ Er); unfold uacpi_unmap_gas_nofree.
  cbn [memory_gas gas_unmap mapping access_bit_width]; rewrite En.
  unfold in_kernel; smunfold; rewrite E2; reflexivity.
Qed.

(** A GAS whose access size says dword (3 in the ACPI encoding) and whose bit
    offset is not zero is given 24-bit accesses, which no accessor supports: the
    register cannot be read, whatever its address. *)
Theorem gas_dword_access_fails {W} `{KernelIO W} g ptr m (w w1 w2 : W) :
  gas_ok g -> address_space_id g = SPACE_SYSTEM_MEMORY -> address g <> 0 -> access_size g = 3 ->
  0 < register_bit_offset g < 24 -> register_bit_offset g + register_bit_width g <= 32 ->
  kernel_map (address g) ((register_bit_offset g + register_bit_width g) / 8) w
    = Some (Some ptr, w1) -> kernel_unmap ptr 3 w1 = Some (tt, w2) ->
  uacpi_gas_read (Some g) (m, w) = Some ((UACPI_STATUS_INVALID_ARGUMENT, 0), (m, w2)).
Proof.
  intros Hg Hsp Haddr Hacc Hoff Htot E1 E2.
  set (t := register_bit_offset g + register_bit_width g) in *.
  assert (Ht : 0 < t <= 32) by (destruct Hg as [_ [? _] _ _ _]; unfold t; lia).
  assert (Ew : gas_get_access_bit_width g = 24).
  { unfold gas_get_access_bit_width; rewrite Hsp, Hacc.
    destruct (Z.eqb_spec (register_bit_offset g) 0); [lia|]; reflexivity. }
  assert (Ev : gas_validate (Some g) = (UACPI_STATUS_OK, (24, t))).
  { unfold gas_validate; rewrite Hsp, Hacc, Ew; destruct (Z.eqb_spec (address g) 0); [contradiction|].
    cbn [SPACE_SYSTEM_IO SPACE_SYSTEM_MEMORY Z.eqb negb andb]; fold t.
    change (4 <? 3) with false; cbv iota; rewrite (wrap_id 8) by (split; lia).
    pose proof (forallb_range (fun t => align_up 64 t 24 <=? 64) 0 33 t) as Hal; cbv beta in Hal.
    destruct (Z.ltb_spec 64 (align_up 64 t 24)); [|reflexivity].
    apply Z.leb_le in Hal; [lia|vm_compute; reflexivity|lia]. }
  unfold uacpi_gas_read; erewrite SM_bind_Some;
    [|apply map_gas_memory; [exact Ev|exact Hsp|exact E1]]; cbv iota beta.
  unfold uacpi_gas_read_mapped, uacpi_unmap_gas_nofree.
  cbn [memory_gas bit_offset total_bit_width gas_unmap mapping access_bit_width].
  replace (Z.to_nat t) with (S (Z.to_nat (t - 1))) by lia; cbn [gas_read_loop].
  destruct (Z.eqb_spec t 0); [lia|]; cbn [memory_gas access_bit_width gas_read mapping].
  destruct (Z.leb_spec 24 (register_bit_offset g)); [lia|]; change (24 / 8) with 3.
  unfold in_kernel, uacpi_system_memory_read; smunfold; cbn [Z.eqb orb Pos.eqb fst is_ok negb].
  rewrite E2; reflexivity.
Qed.

(** ** Witnesses: a kernel that maps physical memory one to one *)

Module Demo.

#[export] Instance identity_kernel : KernelIO unit := {
  kernel_map a _ := fun w => Some (Some a, w);
  kernel_unmap _ _ := fun w => Some (tt, w);
  kernel_io_map a _ := fun w => Some ((UACPI_STATUS_OK, a), w);
  kernel_io_unmap _ := fun w => Some (tt, w);
  kernel_io_read _ _ _ := fun w => Some ((UACPI_STATUS_OK, 0xff), w);
  kernel_io_write _ _ _ _ := fun w => Some (UACPI_STATUS_OK, w);
  kernel_pci_read _ _ _ := fun w => Some ((UACPI_STATUS_OK, 0xff), w);
  kernel_pci_write _ _ _ _ := fun w => Some (UACPI_STATUS_OK, w);
  kernel_alloc _ := fun w => Some (Some 4096, w);
  kernel_free _ _ := fun w => Some (tt, w)
}.

Definition m0 : bytes := list_to_map (zip (seqZ 64 16) (seqZ 0xa0 16)).

Definition reg (width offset size : Z) : acpi_gas := {|
  address_space_id := 0; register_bit_width := width; register_bit_offset := offset;
  access_size := size; address := 66 |}.

Lemma reg_ok width offset size : in_w 8 width -> in_w 8 offset -> in_w 8 size ->
  gas_ok (reg width offset size).
Proof. split; simpl; auto with word. Qed.

Ltac small := split; [vm_compute; discriminate|reflexivity].

Lemma gas_validate_bounds_witness :
  exists abw total, gas_validate (Some (reg 20 4 2)) = (UACPI_STATUS_OK, (abw, total)) /\
    total = 24 /\ In abw [8; 16; 24; 32; 64].
Proof.
  exists 16, 24; destruct (gas_validate_bounds (reg 20 4 2) 16 24) as (H1 & _ & H2 & _);
    [apply reg_ok; small|reflexivity|vm_compute; reflexivity|].
  split; [vm_compute; reflexivity|split; [exact H2|exact H1]].
Defined.

Lemma m0_inv : memory_inv 66 4 (m0, tt).
Proof.
  split; [apply (bool_decide_eq_true_1 (bytes_ok m0))|apply (bool_decide_eq_true_1 (owned m0 66 4))];
    vm_compute; reflexivity.
Qed.

Lemma gas_mapped_access_witness :
  exists r, uacpi_gas_read_mapped (memory_gas 66 16 24 0) (m0, tt)
    = Some ((UACPI_STATUS_OK, r), (m0, tt)) /\ Z.testbit r 17 = bitat m0 (8 * 66 + 17).
Proof.
  destruct (gas_mapped_access (memory_gas 66 16 24 0) (memory_inv 66 4) (memory_content 66) 4 2
    (m0, tt) 0) as [(r & E & H) _]; try (vm_compute; congruence).
  - apply system_memory_like.
  - in_solve.
  - exact m0_inv.
  - exists r; split; [exact E|apply (H 17); lia].
Defined.

Lemma gas_read_system_memory_witness :
  uacpi_gas_read (Some (reg 16 0 0)) (m0, tt) = Some ((UACPI_STATUS_OK, 0xa3a2), (m0, tt)).
Proof.
  apply (gas_read_system_memory (reg 16 0 0) 2 66 0xa3a2 m0 tt tt tt); try reflexivity;
    [apply reg_ok; small|discriminate|vm_compute; discriminate|in_solve|apply m0_inv|
     apply (owned_sub _ _ _ _ _ (proj2 m0_inv)); lia].
Defined.

Lemma gas_dword_access_fails_witness :
  uacpi_gas_read (Some (reg 24 8 3)) (m0, tt)
  = Some ((UACPI_STATUS_INVALID_ARGUMENT, 0), (m0, tt)).
Proof.
  apply (gas_dword_access_fails (reg 24 8 3) 66 m0 tt tt tt); try reflexivity;
    [apply reg_ok; small|discriminate|simpl; lia].
Defined.

End Demo.
