(* ===== verification/UText.v ===== *)
(** * acpi/uacpi/utilities.c: characters, numbers and identifiers

    The character table, the parser of integers, the validation of name segments
    and the decoding of EISA identifiers.  A string with its size is the list of
    its bytes; a cursor into it is the list of the bytes that remain, so that
    advancing the pointer and lowering the size are one step. *)

From Stdlib Require Import Ascii String.
From S2P Require Import Prelude UCore.

Open Scope word_scope.

(** Character and string literals of the source, as lists of codes. *)
Definition ch (a : ascii) : Z := Z.of_N (N_of_ascii a).
Definition str (s : string) : list Z := map ch (list_ascii_of_string s).
Arguments ch _%_char_scope.
Arguments str _%_string_scope.

(** ** The character table *)

Definition CHAR_TYPE_CONTROL : Z := 1.
Definition CHAR_TYPE_SPACE : Z := 2.
Definition CHAR_TYPE_BLANK : Z := 4.
Definition CHAR_TYPE_PUNCTUATION : Z := 8.
Definition CHAR_TYPE_LOWER : Z := 16.
Definition CHAR_TYPE_UPPER : Z := 32.
Definition CHAR_TYPE_DIGIT : Z := 64.
Definition CHAR_TYPE_HEX_DIGIT : Z := 128.
Definition CHAR_TYPE_ALPHA : Z := Z.lor CHAR_TYPE_LOWER CHAR_TYPE_UPPER.
Definition CHAR_TYPE_ALHEX : Z := Z.lor CHAR_TYPE_ALPHA CHAR_TYPE_HEX_DIGIT.
Definition CHAR_TYPE_ALNUM : Z := Z.lor CHAR_TYPE_ALPHA CHAR_TYPE_DIGIT.

Definition ascii_table : list Z :=
  replicate 9 CHAR_TYPE_CONTROL ++
  [Z.lor (Z.lor CHAR_TYPE_CONTROL CHAR_TYPE_SPACE) CHAR_TYPE_BLANK] ++
  replicate 4 (Z.lor CHAR_TYPE_CONTROL CHAR_TYPE_SPACE) ++
  replicate 18 CHAR_TYPE_CONTROL ++
  [Z.lor CHAR_TYPE_SPACE CHAR_TYPE_BLANK] ++
  replicate 15 CHAR_TYPE_PUNCTUATION ++
  replicate 10 (Z.lor CHAR_TYPE_DIGIT CHAR_TYPE_HEX_DIGIT) ++
  replicate 7 CHAR_TYPE_PUNCTUATION ++
  replicate 6 (Z.lor CHAR_TYPE_UPPER CHAR_TYPE_HEX_DIGIT) ++
  replicate 20 CHAR_TYPE_UPPER ++
  replicate 6 CHAR_TYPE_PUNCTUATION ++
  replicate 6 (Z.lor CHAR_TYPE_LOWER CHAR_TYPE_HEX_DIGIT) ++
  replicate 20 CHAR_TYPE_LOWER ++
  replicate 4 CHAR_TYPE_PUNCTUATION ++
  [CHAR_TYPE_CONTROL] ++
  replicate 128 0.

(** [ascii_map[(uacpi_u8)c]] *)
Definition ascii_map (c : Z) : Z := default 0 (ascii_table !! Z.to_nat (u8 c)).

Definition is_valid_name_byte (c : Z) : bool :=
  if c =? 0x5f then true
  else negb (Z.land (ascii_map c) (Z.lor CHAR_TYPE_DIGIT CHAR_TYPE_UPPER) =? 0).

(** The four bytes of a name segment. *)
Definition uacpi_is_valid_nameseg (nameseg : Z * Z * Z * Z) : bool :=
  let '(a, b, c, d) := nameseg in
  is_valid_name_byte a && is_valid_name_byte b && is_valid_name_byte c && is_valid_name_byte d.

Definition is_char (c type : Z) : bool := Z.land (ascii_map c) type =? type.

Definition to_lower (c : Z) : Z :=
  if is_char c CHAR_TYPE_UPPER then c + (ch "a" - ch "A") else c.

(** ** Cursors *)

Definition peek_one (s : list Z) : option Z := head s.

Definition consume_one (s : list Z) : option (Z * list Z) :=
  match s with [] => None | c :: s' => Some (c, s') end.

(** The result is the new cursor, when a character was consumed. *)
Definition consume_if (s : list Z) (type : Z) : option (list Z) :=
  match peek_one s with
  | Some c => if is_char c type then Some (tail s) else None
  | None => None
  end.

Definition consume_if_equals (s : list Z) (c : Z) : option (list Z) :=
  match peek_one s with
  | Some c1 => if to_lower c1 =? c then Some (tail s) else None
  | None => None
  end.

(** ** Integers *)

Inductive uacpi_base := UACPI_BASE_AUTO | UACPI_BASE_OCT | UACPI_BASE_DEC | UACPI_BASE_HEX.

Definition base_value (b : uacpi_base) : Z :=
  match b with
  | UACPI_BASE_AUTO => 0 | UACPI_BASE_OCT => 8 | UACPI_BASE_DEC => 10 | UACPI_BASE_HEX => 16
  end.

(** [while (consume_if(&str, &max_chars, CHAR_TYPE_SPACE))] *)
Fixpoint skip_spaces (s : list Z) : list Z :=
  match s with
  | c :: s' => if is_char c CHAR_TYPE_SPACE then skip_spaces s' else s
  | [] => []
  end.

(** The digit a character stands for in a base; [None] is [goto out]. *)
Definition digit_value (base : uacpi_base) (c : Z) : option Z :=
  let kind := Z.land (ascii_map c) (Z.lor CHAR_TYPE_DIGIT CHAR_TYPE_ALHEX) in
  if kind =? Z.lor CHAR_TYPE_DIGIT CHAR_TYPE_HEX_DIGIT then
    let next := c - ch "0" in
    match base with
    | UACPI_BASE_OCT => if 7 <? next then None else Some next
    | _ => Some next
    end
  else if (kind =? Z.lor CHAR_TYPE_LOWER CHAR_TYPE_HEX_DIGIT)
          || (kind =? Z.lor CHAR_TYPE_UPPER CHAR_TYPE_HEX_DIGIT) then
    match base with
    | UACPI_BASE_HEX => Some (10 + (to_lower c - ch "a"))
    | _ => None
    end
  else None.

(** The digit loop: the value, the characters left and the last one consumed. *)
Fixpoint parse_digits (base : uacpi_base) (s : list Z) (value c : Z) : Z * list Z * Z :=
  match s with
  | [] => (value, [], c)
  | c :: s' =>
      match digit_value base c with
      | None => (value, s', c)
      | Some d =>
          let next := u64 (u64 (value * base_value base) + d) in
          if negb (next / base_value base =? value) then (0xffffffffffffffff, s', c)
          else parse_digits base s' next c
      end
  end.

Definition uacpi_string_to_integer (s : list Z) (base : uacpi_base) : uacpi_status * Z :=
  let s := skip_spaces s in
  let '(negative, s) :=
    match consume_if_equals s (ch "-") with
    | Some s' => (true, s')
    | None => (false, default s (consume_if_equals s (ch "+")))
    end in
  let '(base, s) :=
    match base with
    | UACPI_BASE_AUTO =>
        match consume_if_equals s (ch "0") with
        | Some s' =>
            match consume_if_equals s' (ch "x") with
            | Some s'' => (UACPI_BASE_HEX, s'')
            | None => (UACPI_BASE_OCT, s')
            end
        | None => (UACPI_BASE_DEC, s)
        end
    | _ => (base, s)
    end in
  let '(value, rest, c) := parse_digits base s 0 0 in
  let value := if negative then u64 (- swrap 64 value) else value in
  (if (Z.of_nat (length rest) =? 0) || (c =? 0)
   then UACPI_STATUS_OK else UACPI_STATUS_INVALID_ARGUMENT, value).

(** ** EISA identifiers *)

Definition hex_to_ascii (d : Z) : Z := default 0 (str "0123456789ABCDEF" !! Z.to_nat d).

Definition swap_bytes (id : Z) : Z :=
  let byte i := Z.land (Z.shiftr id (8 * i)) 0xff in
  Z.lor (Z.lor (byte 3) (Z.shiftl (byte 2) 8)) (Z.lor (Z.shiftl (byte 1) 16) (Z.shiftl (byte 0) 24)).

Definition uacpi_eisa_id_to_string (id : Z) : list Z :=
  let swapped := swap_bytes id in
  [ 0x40 + Z.land (Z.shiftr swapped 26) 0x1f;
    0x40 + Z.land (Z.shiftr swapped 21) 0x1f;
    0x40 + Z.land (Z.shiftr swapped 16) 0x1f;
    hex_to_ascii (Z.land (Z.shiftr swapped 12) 0x0f);
    hex_to_ascii (Z.land (Z.shiftr swapped 8) 0x0f);
    hex_to_ascii (Z.land (Z.shiftr swapped 4) 0x0f);
    hex_to_ascii (Z.land (Z.shiftr swapped 0) 0x0f);
    0 ].

Example eisa_pnp0a03 : uacpi_eisa_id_to_string 0x030ad041 = str "PNP0A03" ++ [0].
Proof. reflexivity. Qed.

Example parse_hex :
  uacpi_string_to_integer (str "  -0xFf") UACPI_BASE_AUTO = (UACPI_STATUS_OK, 2 ^ 64 - 255).
Proof. reflexivity. Qed.


(** ** The table is the ASCII classification *)

Definition between (lo hi c : Z) : bool := (lo <=? c) && (c <=? hi).

Lemma ascii_map_table c : in_w 8 c ->
  (is_char c CHAR_TYPE_DIGIT = between (ch "0") (ch "9") c) /\
  (is_char c CHAR_TYPE_UPPER = between (ch "A") (ch "Z") c) /\
  (is_char c CHAR_TYPE_LOWER = between (ch "a") (ch "z") c) /\
  (is_char c CHAR_TYPE_HEX_DIGIT =
     between (ch "0") (ch "9") c || between (ch "A") (ch "F") c || between (ch "a") (ch "f") c) /\
  (is_char c CHAR_TYPE_SPACE = between 9 13 c || (c =? 32)) /\
  is_valid_name_byte c = between (ch "0") (ch "9") c || between (ch "A") (ch "Z") c || (c =? ch "_").
Proof.
  intros Hc.
  pose proof (forallb_range (fun c =>
    eqb (is_char c CHAR_TYPE_DIGIT) (between (ch "0") (ch "9") c) &&
    eqb (is_char c CHAR_TYPE_UPPER) (between (ch "A") (ch "Z") c) &&
    eqb (is_char c CHAR_TYPE_LOWER) (between (ch "a") (ch "z") c) &&
    eqb (is_char c CHAR_TYPE_HEX_DIGIT)
      (between (ch "0") (ch "9") c || between (ch "A") (ch "F") c || between (ch "a") (ch "f") c) &&
    eqb (is_char c CHAR_TYPE_SPACE) (between 9 13 c || (c =? 32)) &&
    eqb (is_valid_name_byte c)
      (between (ch "0") (ch "9") c || between (ch "A") (ch "Z") c || (c =? ch "_"))) 0 256 c) as H.
  specialize (H ltac:(vm_compute; reflexivity) Hc); cbv beta in H.
  rewrite !andb_true_iff in H; destruct H as (((((H1 & H2) & H3) & H4) & H5) & H6).
  repeat split; apply eqb_prop; assumption.
Qed.

(** Digits in a base, as the specifications write them. *)
Definition is_digit (base : uacpi_base) (c : Z) : Prop := exists d, digit_value base c = Some d.

Lemma digit_value_range base c d : base <> UACPI_BASE_AUTO -> in_w 8 c ->
  digit_value base c = Some d ->
  0 <= d < base_value base /\ is_char c CHAR_TYPE_SPACE = false /\
  to_lower c <> ch "-" /\ to_lower c <> ch "+".
Proof.
  intros Hb Hc Hd.
  assert (Hall : forallb (fun c => match digit_value base c with
    | None => true
    | Some d => (0 <=? d) && (d <? base_value base) && negb (is_char c CHAR_TYPE_SPACE) &&
        negb (to_lower c =? ch "-") && negb (to_lower c =? ch "+") end) (seqZ 0 256) = true)
    by (destruct base; [congruence|vm_compute; reflexivity..]).
  pose proof (forallb_range _ _ _ c Hall Hc) as H; cbv beta in H; rewrite Hd in H.
  rewrite !andb_true_iff, !negb_true_iff, Z.leb_le, Z.ltb_lt, !Z.eqb_neq in H; tauto.
Qed.

(** The number that a list of digits stands for. *)
Definition digits_value (b : Z) (ds : list Z) (v : Z) : Z := fold_left (fun v d => v * b + d) ds v.

Lemma digits_value_mono b ds v : 1 <= b -> 0 <= v -> Forall (fun d => 0 <= d) ds ->
  v <= digits_value b ds v.
Proof.
  intros Hb; revert v; induction ds as [|d ds IH]; intros v Hv Hd; simpl; [lia|].
  apply Forall_cons in Hd as [H1 H2]; transitivity (v * b + d); [nia|apply IH; auto; nia].
Qed.

Lemma digits_nonneg base s ds : base <> UACPI_BASE_AUTO -> Forall (in_w 8) s ->
  Forall2 (fun c d => digit_value base c = Some d) s ds -> Forall (fun d => 0 <= d) ds.
Proof.
  intros Hb Hs H; induction H as [|c d s' ds' Hd _ IH]; constructor;
    apply Forall_cons in Hs as [Hc Hs]; auto.
  destruct (digit_value_range base c d Hb Hc Hd); lia.
Qed.

(** The overflow test of the loop is exact. *)
Lemma overflow_test v b d : 2 <= b <= 16 -> in_w 64 v -> 0 <= d < b ->
  let next := u64 (u64 (v * b) + d) in
  (next / b =? v) = (v * b + d <? 2 ^ 64) /\ (v * b + d < 2 ^ 64 -> next = v * b + d).
Proof.
  intros Hb [Hv1 Hv2] Hd next.
  assert (En : next = (v * b + d) mod 2 ^ 64) by (unfold next, wrap; apply Z.add_mod_idemp_l; lia).
  assert (Hsmall : v * b + d < 2 ^ 64 -> next = v * b + d) by (intros; rewrite En; apply Z.mod_small; nia).
  split; [|exact Hsmall]; destruct (Z.ltb_spec (v * b + d) (2 ^ 64)) as [H|H].
  - rewrite Hsmall, Z.div_add_l, Z.div_small, Z.add_0_r by lia; apply Z.eqb_refl.
  - apply Z.eqb_neq; intros E.
    assert (next <= v * b + d - 2 ^ 64) by (rewrite En; Z.div_mod_to_equations; nia).
    assert (b * (next / b) <= next) by (apply Z.mul_div_le; lia); nia.
Qed.

Lemma parse_digits_spec base s : base <> UACPI_BASE_AUTO -> Forall (in_w 8) s ->
  forall ds v c, in_w 64 v -> Forall2 (fun c d => digit_value base c = Some d) s ds ->
  (digits_value (base_value base) ds v < 2 ^ 64 ->
     exists c', parse_digits base s v c = (digits_value (base_value base) ds v, [], c')) /\
  (2 ^ 64 <= digits_value (base_value base) ds v ->
     exists rest c', parse_digits base s v c = (0xffffffffffffffff, rest, c')).
Proof.
  intros Hb Hs; assert (Hb16 : 2 <= base_value base <= 16) by (destruct base; simpl; [congruence|lia..]).
  induction s as [|x s IH]; intros ds v c Hv Hds; inversion Hds as [|? d ? ds' Hd Hds']; subst.
  - simpl; destruct Hv; split; [eauto|lia].
  - apply Forall_cons in Hs as [Hx Hs]; simpl.
    destruct (digit_value_range base x d Hb Hx Hd) as (Hdr & _); rewrite Hd.
    destruct (overflow_test v (base_value base) d Hb16 Hv Hdr) as [Ht Hn].
    rewrite Ht; destruct (Z.ltb_spec (v * base_value base + d) (2 ^ 64)) as [H|H]; cbn [negb].
    + rewrite Hn by assumption; apply IH; auto; split; [destruct Hv; nia|exact H].
    + split; [|eauto]; intros Hlt.
      assert (v * base_value base + d <= digits_value (base_value base) ds' (v * base_value base + d)).
      { apply digits_value_mono; [lia|destruct Hv; nia|eauto using digits_nonneg]. }
      unfold digits_value in *; lia.
Qed.

(** Digits that fit are consumed, whatever follows them. *)
Lemma parse_digits_app base s t : base <> UACPI_BASE_AUTO -> Forall (in_w 8) s ->
  forall ds v c, in_w 64 v -> Forall2 (fun c d => digit_value base c = Some d) s ds ->
  digits_value (base_value base) ds v < 2 ^ 64 ->
  exists c', parse_digits base (s ++ t) v c =
    parse_digits base t (digits_value (base_value base) ds v) c'.
Proof.
  intros Hb Hs; assert (Hb16 : 2 <= base_value base <= 16) by (destruct base; simpl; [congruence|lia..]).
  induction s as [|x s IH]; intros ds v c Hv Hds Hlt; inversion Hds as [|? d ? ds' Hd Hds']; subst.
  - simpl; eauto.
  - apply Forall_cons in Hs as [Hx Hs]; simpl.
    destruct (digit_value_range base x d Hb Hx Hd) as (Hdr & _); rewrite Hd.
    destruct (overflow_test v (base_value base) d Hb16 Hv Hdr) as [Ht Hn].
    assert (H : v * base_value base + d < 2 ^ 64).
    { eapply Z.le_lt_trans; [|exact Hlt].
      change (digits_value _ (d :: ds') v)
        with (digits_value (base_value base) ds' (v * base_value base + d)).
      apply digits_value_mono; [lia|destruct Hv; nia|eauto using digits_nonneg]. }
    rewrite Ht; destruct (Z.ltb_spec (v * base_value base + d) (2 ^ 64)); [|lia]; cbn [negb].
    rewrite Hn by assumption; apply IH; auto; split; [destruct Hv; nia|exact H].
Qed.

(** What precedes the digit loop on a string that starts with a digit. *)
Lemma string_to_integer_digits base x s : base <> UACPI_BASE_AUTO -> in_w 8 x ->
  is_digit base x ->
  uacpi_string_to_integer (x :: s) base =
  let '(value, rest, c) := parse_digits base (x :: s) 0 0 in
  (if (Z.of_nat (length rest) =? 0) || (c =? 0)
   then UACPI_STATUS_OK else UACPI_STATUS_INVALID_ARGUMENT, value).
Proof.
  intros Hb Hx [d Hd]; destruct (digit_value_range base x d Hb Hx Hd) as (_ & H1 & H2 & H3).
  unfold uacpi_string_to_integer; cbn [skip_spaces]; rewrite H1.
  unfold consume_if_equals, peek_one; cbn [head].
  rewrite (proj2 (Z.eqb_neq _ _) H2), (proj2 (Z.eqb_neq _ _) H3); cbn [default].
  destruct base; [congruence|reflexivity..].
Qed.

(** ** EISA identifiers *)

(** A reference decoder of the seven characters. *)
Definition unhex (c : Z) : Z := default 0 (digit_value UACPI_BASE_HEX c).

Definition eisa_decode (s : list Z) : Z :=
  match s with
  | [a; b; c; d; e; f; g; _] =>
      swap_bytes (Z.shiftl (a - 0x40) 26 + Z.shiftl (b - 0x40) 21 + Z.shiftl (c - 0x40) 16 +
        Z.shiftl (unhex d) 12 + Z.shiftl (unhex e) 8 + Z.shiftl (unhex f) 4 + unhex g)
  | _ => 0
  end.

Lemma unhex_hex d : 0 <= d < 16 -> unhex (hex_to_ascii d) = d.
Proof.
  intros Hd; apply Z.eqb_eq.
  apply (forallb_range (fun d => unhex (hex_to_ascii d) =? d) 0 16 d); [reflexivity|lia].
Qed.

(** A value as the sum of consecutive bit fields. *)
Lemma field_sum x n k : 0 <= n -> 0 <= k ->
  bf_get 0 (n + k) x = Z.shiftl (bf_get n k x) n + bf_get 0 n x.
Proof.
  intros Hn Hk; rewrite Z.shiftl_mul_pow2, <- lor_shiftl_add, !Z.shiftl_mul_pow2 by
    (auto using bf_get_range; lia).
  rewrite <- Z.shiftl_mul_pow2 by lia; apply Z.bits_inj'; intros i Hi.
  rewrite Z.lor_spec, !bf_get_testbit, shiftl_testbit, Z.add_0_r by lia.
  destruct (Z.lt_ge_cases i n).
  - rewrite (testbit_neg _ (i - n)) by lia; bool_cases; reflexivity.
  - rewrite bf_get_testbit by lia; replace (i - n + n) with i by lia.
    bool_cases; rewrite ?orb_false_r; reflexivity.
Qed.

Lemma swap_bytes_involutive x : in_w 32 x -> swap_bytes (swap_bytes x) = x.
Proof.
  intros Hx; apply Z.bits_inj'; intros i Hi; unfold swap_bytes; change 0xff with (Z.ones 8).
  destruct (Z.lt_ge_cases i 8); [|destruct (Z.lt_ge_cases i 16); [|destruct (Z.lt_ge_cases i 24);
    [|destruct (Z.lt_ge_cases i 32)]]]; bits_simpl; bool_cases; bits_simpl;
    rewrite ?andb_true_r, ?andb_false_r, ?orb_false_r; simpl; try reflexivity; f_equal; lia.
Qed.

Lemma swap_bytes_range x : in_w 32 (swap_bytes x).
Proof.
  unfold swap_bytes; change 0xff with (Z.ones 8); apply in_w_of_testbit; [lia| |].
  - assert (H : forall y, 0 <= Z.land y (Z.ones 8)) by (intros; apply Z.land_nonneg; right; vm_compute; discriminate).
    rewrite !Z.lor_nonneg, !Z.shiftl_nonneg; auto.
  - intros i Hi; bits_simpl; bool_cases; rewrite ?andb_false_r; reflexivity.
Qed.

(** ** Theorems *)

(** uacpi_string_to_integer reads a string of digits of its base exactly: it
    returns their number when that fits 64 bits and saturates otherwise. *)
Theorem string_to_integer_exact base s ds :
  base <> UACPI_BASE_AUTO -> s <> [] -> Forall (in_w 8) s ->
  Forall2 (fun c d => digit_value base c = Some d) s ds ->
  (digits_value (base_value base) ds 0 < 2 ^ 64 ->
     uacpi_string_to_integer s base = (UACPI_STATUS_OK, digits_value (base_value base) ds 0)) /\
  (2 ^ 64 <= digits_value (base_value base) ds 0 ->
     snd (uacpi_string_to_integer s base) = 2 ^ 64 - 1).
Proof.
  intros Hb Hne Hs Hds; destruct s as [|x s]; [congruence|].
  assert (Hx : in_w 8 x /\ is_digit base x).
  { apply Forall_cons in Hs as [Hx _]; inversion Hds; split; [assumption|eexists; eassumption]. }
  rewrite (string_to_integer_digits base x s) by tauto.
  destruct (parse_digits_spec base (x :: s) Hb Hs ds 0 0 ltac:(split; lia) Hds) as [H1 H2].
  split; intros H.
  - destruct (H1 H) as [c ->]; reflexivity.
  - destruct (H2 H) as (rest & c & ->); reflexivity.
Qed.

(** A character that is no digit is rejected only when something follows it:
    as the last character of the string it is dropped and the parse succeeds. *)
Theorem string_to_integer_accepts_bad_tail base s ds c :
  base <> UACPI_BASE_AUTO -> s <> [] -> Forall (in_w 8) s ->
  Forall2 (fun c d => digit_value base c = Some d) s ds ->
  digits_value (base_value base) ds 0 < 2 ^ 64 -> digit_value base c = None ->
  uacpi_string_to_integer (s ++ [c]) base = (UACPI_STATUS_OK, digits_value (base_value base) ds 0)
  /\ forall c' t, c <> 0 ->
     fst (uacpi_string_to_integer (s ++ c :: c' :: t) base) = UACPI_STATUS_INVALID_ARGUMENT.
Proof.
  intros Hb Hne Hs Hds Hlt Hc; destruct s as [|x s]; [congruence|].
  assert (Hx : in_w 8 x /\ is_digit base x).
  { apply Forall_cons in Hs as [Hx _]; inversion Hds; split; [assumption|eexists; eassumption]. }
  split; [|intros c' t Hc0]; cbn [app]; rewrite string_to_integer_digits by tauto.
  - destruct (parse_digits_app base (x :: s) [c] Hb Hs ds 0 0 ltac:(split; lia) Hds Hlt) as [c2 E].
    cbn [app] in E; rewrite E; cbn [parse_digits]; rewrite Hc; reflexivity.
  - destruct (parse_digits_app base (x :: s) (c :: c' :: t) Hb Hs ds 0 0 ltac:(split; lia) Hds Hlt)
      as [c2 E]; cbn [app] in E; rewrite E; cbn [parse_digits]; rewrite Hc; cbn [fst].
    destruct (Z.eqb_spec c 0); [contradiction|]; cbn [length].
    destruct (Z.eqb_spec (Z.of_nat (S (length t))) 0); [lia|reflexivity].
Qed.

(** The seven characters of an EISA identifier determine it: decoding the
    string returns the 32-bit identifier, for every identifier whose reserved bit
    is clear. *)
Theorem eisa_id_roundtrip id : in_w 32 id -> Z.testbit id 7 = false ->
  eisa_decode (uacpi_eisa_id_to_string id) = id /\
  length (uacpi_eisa_id_to_string id) = 8%nat.
Proof.
  intros Hid H7; split; [|reflexivity].
  unfold uacpi_eisa_id_to_string, eisa_decode; set (x := swap_bytes id).
  assert (H31 : in_w 31 x).
  { apply in_w_of_testbit; [lia|apply swap_bytes_range|]; intros i Hi.
    destruct (decide (i = 31)) as [->|].
    - unfold x, swap_bytes; change 0xff with (Z.ones 8); bits_simpl.
      change (31 - 24 + 8 * 0) with 7; rewrite H7; cbn [andb]; rewrite !andb_false_r; reflexivity.
    - apply (testbit_in_w 32); [apply swap_bytes_range|lia]. }
  rewrite !unhex_hex by (change 0x0f with (Z.ones 4); rewrite Z.land_ones by lia;
    apply Z.mod_pos_bound; lia).
  change 0x0f with (Z.ones 4); change 0x1f with (Z.ones 5); rewrite !Z.land_ones by lia.
  rewrite !Z.add_simpl_l; fold (wrap 5 (Z.shiftr x 26)) (wrap 5 (Z.shiftr x 21))
    (wrap 5 (Z.shiftr x 16)) (wrap 4 (Z.shiftr x 12)) (wrap 4 (Z.shiftr x 8))
    (wrap 4 (Z.shiftr x 4)) (wrap 4 (Z.shiftr x 0)).
  fold (bf_get 26 5 x) (bf_get 21 5 x) (bf_get 16 5 x) (bf_get 12 4 x) (bf_get 8 4 x)
    (bf_get 4 4 x) (bf_get 0 4 x).
  assert (E1 : bf_get 0 8 x = _) by (apply (field_sum x 4 4); lia).
  assert (E2 : bf_get 0 12 x = _) by (apply (field_sum x 8 4); lia).
  assert (E3 : bf_get 0 16 x = _) by (apply (field_sum x 12 4); lia).
  assert (E4 : bf_get 0 21 x = _) by (apply (field_sum x 16 5); lia).
  assert (E5 : bf_get 0 26 x = _) by (apply (field_sum x 21 5); lia).
  assert (E6 : bf_get 0 31 x = _) by (apply (field_sum x 26 5); lia).
  assert (Ex : bf_get 0 31 x = x) by (unfold bf_get; rewrite Z.shiftr_0_r; apply wrap_id, H31).
  rewrite <- (swap_bytes_involutive id Hid); fold x; f_equal; lia.
Qed.

Module Demo.

Lemma digits_1234 : Forall2 (fun c d => digit_value UACPI_BASE_DEC c = Some d) (str "1234") [1; 2; 3; 4].
Proof. repeat constructor. Qed.

Lemma bytes_1234 : Forall (in_w 8) (str "1234").
Proof. repeat constructor; vm_compute; congruence. Qed.

Lemma string_to_integer_exact_witness :
  uacpi_string_to_integer (str "1234") UACPI_BASE_DEC = (UACPI_STATUS_OK, 1234).
Proof.
  apply (string_to_integer_exact UACPI_BASE_DEC (str "1234") [1; 2; 3; 4]);
    [discriminate|discriminate|exact bytes_1234|exact digits_1234|reflexivity].
Defined.

Lemma string_to_integer_accepts_bad_tail_witness :
  uacpi_string_to_integer (str "1234" ++ [ch "!"]) UACPI_BASE_DEC = (UACPI_STATUS_OK, 1234) /\
  fst (uacpi_string_to_integer (str "1234" ++ ch "!" :: ch "5" :: []) UACPI_BASE_DEC)
    = UACPI_STATUS_INVALID_ARGUMENT.
Proof.
  destruct (string_to_integer_accepts_bad_tail UACPI_BASE_DEC (str "1234") [1; 2; 3; 4] (ch "!"))
    as [H1 H2]; [discriminate|discriminate|exact bytes_1234|exact digits_1234|reflexivity..|].
  split; [exact H1|apply H2; discriminate].
Defined.

Lemma eisa_id_roundtrip_witness :
  eisa_decode (uacpi_eisa_id_to_string 0x030ad041) = 0x030ad041.
Proof. apply (eisa_id_roundtrip 0x030ad041); [split; [lia|reflexivity]|reflexivity]. Defined.

End Demo.
