(* ===== verification/UFormat.v ===== *)
(** * acpi/uacpi/stdlib.c: uacpi_vsnprintf

    The formatted printer.  The format string is the list of its characters, its
    cursor the list of those that remain.  The output buffer is a list of
    [capacity] characters; a write outside it (or outside the 32 characters in
    which an integer is put together) has no result.  The arguments are a list of
    typed values; taking an argument of another type is undefined behaviour. *)

From Stdlib Require Import Ascii String.
From S2P Require Import Prelude UCore UText.

Open Scope word_scope.

(** ** State and data *)

Record fmt_buf_state := { buffer : list Z; bytes_written : Z }.

(** [fb_state->capacity], the length of the buffer that was passed. *)
Definition capacity (st : fmt_buf_state) : Z := Z.of_nat (length (buffer st)).

Record fmt_spec := {
  is_signed : bool;
  prepend : bool;
  uppercase : bool;
  left_justify : bool;
  alternate_form : bool;
  has_precision : bool;
  pad_char : Z;
  prepend_char : Z;
  min_width : Z;
  precision : Z;
  base : Z
}.

Definition fmt_default : fmt_spec := {|
  is_signed := false; prepend := false; uppercase := false; left_justify := false;
  alternate_form := false; has_precision := false; pad_char := ch " "; prepend_char := 0;
  min_width := 0; precision := 0; base := 10 |}.

(** Arguments by the type they are passed with. *)
Inductive va :=
  | VaInt (v : Z)            (* int and unsigned int *)
  | VaLong (v : Z)           (* long, long long and their unsigned types *)
  | VaString (s : option (list Z))
  | VaPointer (v : Z).

(** ** Writing *)

Definition write_one (st : fmt_buf_state) (c : Z) : option fmt_buf_state :=
  b ← (if bytes_written st <? capacity st
       then match buffer st !! Z.to_nat (bytes_written st) with
            | Some _ => Some (<[Z.to_nat (bytes_written st) := u8 c]> (buffer st))
            | None => None
            end
       else Some (buffer st));
  Some {| buffer := b; bytes_written := bytes_written st +64 1 |}.

(** [uacpi_memcpy(&buffer[at], string, n)] *)
Definition copy_at (b : list Z) (at_ n : nat) (s : list Z) : option (list Z) :=
  if decide (at_ + n <= length b /\ n <= length s)%nat
  then Some (take at_ b ++ take n s ++ drop (at_ + n) b) else None.

Definition write_many (st : fmt_buf_state) (s : list Z) (count : Z) : option fmt_buf_state :=
  b ← (if bytes_written st <? capacity st
       then copy_at (buffer st) (Z.to_nat (bytes_written st))
              (Z.to_nat (Z.min count (capacity st - bytes_written st))) s
       else Some (buffer st));
  Some {| buffer := b; bytes_written := bytes_written st +64 count |}.

Definition hex_char (upper : bool) (value : Z) : option Z :=
  (if upper then str "0123456789ABCDEF" else str "0123456789abcdef") !! Z.to_nat value.

Fixpoint write_repeat (n : nat) (st : fmt_buf_state) (c : Z) : option fmt_buf_state :=
  match n with
  | O => Some st
  | S n' => st' ← write_one st c; write_repeat n' st' c
  end.

Definition write_padding (st : fmt_buf_state) (fm : fmt_spec) (repr_size : Z) :
    option fmt_buf_state :=
  if min_width fm <=? repr_size then Some st
  else write_repeat (Z.to_nat (min_width fm - repr_size)) st
         (if left_justify fm then ch " " else pad_char fm).

Definition REPR_BUFFER_SIZE : nat := 32.

(** [repr_buffer[--index] = c]: the buffer fills from its end. *)
Definition push_repr (c : Z) (repr : list Z) : option (list Z) :=
  if decide (length repr < REPR_BUFFER_SIZE)%nat then Some (u8 c :: repr) else None.

Definition digit_repr (fm : fmt_spec) (remainder : Z) : option Z :=
  if base fm =? 16 then hex_char (uppercase fm) remainder
  else if (base fm =? 8) || (base fm =? 10) then Some (remainder + ch "0")
  else Some (ch "?").

(** [while (value)]; 64 bits have at most 64 digits in any base. *)
Fixpoint digit_loop (fuel : nat) (fm : fmt_spec) (value : Z) (repr : list Z) : option (list Z) :=
  if value =? 0 then Some repr else
  match fuel with
  | O => None
  | S fuel' =>
      d ← digit_repr fm (value mod base fm);
      repr' ← push_repr d repr;
      digit_loop fuel' fm (value / base fm) repr'
  end.

Definition add_prefix (fm : fmt_spec) (repr : list Z) : option (list Z) :=
  if alternate_form fm then
    if base fm =? 16 then
      r ← push_repr (if uppercase fm then ch "X" else ch "x") repr; push_repr (ch "0") r
    else if base fm =? 8 then push_repr (ch "0") repr
    else Some repr
  else Some repr.

Definition write_integer (st : fmt_buf_state) (fm : fmt_spec) (value : Z) : option fmt_buf_state :=
  let negative := is_signed fm && (swrap 64 value <? 0) in
  let value := if negative then u64 (- swrap 64 value) else value in
  st ← (if prepend fm || negative
        then write_one st (if negative then ch "-" else prepend_char fm) else Some st);
  repr ← digit_loop 64 fm value [];
  repr ← (if (length repr =? 0)%nat then push_repr (ch "0") repr else Some repr);
  repr ← add_prefix fm repr;
  let repr_size := Z.of_nat (length repr) in
  if left_justify fm
  then st ← write_many st repr repr_size; write_padding st fm repr_size
  else st ← write_padding st fm repr_size; write_many st repr repr_size.

(** ** Parsing the format *)

Fixpoint string_has_at_least (s : list Z) (characters : Z) : bool :=
  match s with
  | [] => false
  | _ :: s' => if characters - 1 =? 0 then true else string_has_at_least s' (characters - 1)
  end.

Fixpoint span_digits (s : list Z) : list Z * list Z :=
  match s with
  | c :: s' =>
      if (c <? ch "0") || (ch "9" <? c) then ([], s)
      else let (ds, rest) := span_digits s' in (c :: ds, rest)
  | [] => ([], [])
  end.

(** The digits consumed, when there are any, and the new cursor. *)
Definition consume_digits (s : list Z) : option (list Z) * list Z :=
  let (ds, rest) := span_digits s in
  (if (length ds =? 0)%nat then None else Some ds, rest).

Inductive parse_number_mode := PARSE_NUMBER_MODE_MAYBE | PARSE_NUMBER_MODE_MUST.

(** The result, the number (unchanged when there is none) and the cursor. *)
Definition parse_number (s : list Z) (mode : parse_number_mode) (value : Z) : bool * Z * list Z :=
  match consume_digits s with
  | (None, rest) =>
      (match mode with PARSE_NUMBER_MODE_MUST => false | _ => true end, value, rest)
  | (Some digits, rest) =>
      let (ret, v) := uacpi_string_to_integer digits UACPI_BASE_DEC in (is_ok ret, v, rest)
  end.

Definition consume (s token : list Z) : option (list Z) :=
  let token_size := Z.of_nat (length token) in
  if negb (string_has_at_least s token_size) then None
  else if bool_decide (take (length token) s = token) then Some (drop (length token) s) else None.

Definition is_one_of (c : Z) (l : list Z) : bool := existsb (Z.eqb c) l.

Definition consume_one_of (s l : list Z) : option (Z * list Z) :=
  match s with
  | c :: s' => if is_one_of c l then Some (c, s') else None
  | [] => None
  end.

Definition base_from_specifier (specifier : Z) : Z :=
  if (specifier =? ch "x") || (specifier =? ch "X") then 16
  else if specifier =? ch "o" then 8 else 10.

Definition is_uppercase_specifier (specifier : Z) : bool := specifier =? ch "X".

(** The characters before the next '%' and, when there is one, the rest from it. *)
Fixpoint find_next_conversion (s : list Z) : list Z * option (list Z) :=
  match s with
  | [] => ([], None)
  | c :: s' =>
      if c =? ch "%" then ([], Some s)
      else let (lit, r) := find_next_conversion s' in (c :: lit, r)
  end.

(** Updates of the conversion specification. *)
Definition set_prepend (c : Z) (fm : fmt_spec) : fmt_spec := {|
  is_signed := is_signed fm; prepend := true; uppercase := uppercase fm;
  left_justify := left_justify fm; alternate_form := alternate_form fm;
  has_precision := has_precision fm; pad_char := pad_char fm; prepend_char := c;
  min_width := min_width fm; precision := precision fm; base := base fm |}.
Definition set_left_justify (fm : fmt_spec) : fmt_spec := {|
  is_signed := is_signed fm; prepend := prepend fm; uppercase := uppercase fm;
  left_justify := true; alternate_form := alternate_form fm;
  has_precision := has_precision fm; pad_char := pad_char fm; prepend_char := prepend_char fm;
  min_width := min_width fm; precision := precision fm; base := base fm |}.
Definition set_pad_char (c : Z) (fm : fmt_spec) : fmt_spec := {|
  is_signed := is_signed fm; prepend := prepend fm; uppercase := uppercase fm;
  left_justify := left_justify fm; alternate_form := alternate_form fm;
  has_precision := has_precision fm; pad_char := c; prepend_char := prepend_char fm;
  min_width := min_width fm; precision := precision fm; base := base fm |}.
Definition set_alternate_form (fm : fmt_spec) : fmt_spec := {|
  is_signed := is_signed fm; prepend := prepend fm; uppercase := uppercase fm;
  left_justify := left_justify fm; alternate_form := true;
  has_precision := has_precision fm; pad_char := pad_char fm; prepend_char := prepend_char fm;
  min_width := min_width fm; precision := precision fm; base := base fm |}.
Definition set_width (w : Z) (fm : fmt_spec) : fmt_spec := {|
  is_signed := is_signed fm; prepend := prepend fm; uppercase := uppercase fm;
  left_justify := left_justify fm; alternate_form := alternate_form fm;
  has_precision := has_precision fm; pad_char := pad_char fm; prepend_char := prepend_char fm;
  min_width := w; precision := precision fm; base := base fm |}.
Definition set_precision (n : Z) (fm : fmt_spec) : fmt_spec := {|
  is_signed := is_signed fm; prepend := prepend fm; uppercase := uppercase fm;
  left_justify := left_justify fm; alternate_form := alternate_form fm;
  has_precision := true; pad_char := pad_char fm; prepend_char := prepend_char fm;
  min_width := min_width fm; precision := n; base := base fm |}.
Definition set_signed (b : bool) (fm : fmt_spec) : fmt_spec := {|
  is_signed := b; prepend := prepend fm; uppercase := uppercase fm;
  left_justify := left_justify fm; alternate_form := alternate_form fm;
  has_precision := has_precision fm; pad_char := pad_char fm; prepend_char := prepend_char fm;
  min_width := min_width fm; precision := precision fm; base := base fm |}.
Definition set_base (b : Z) (upper : bool) (fm : fmt_spec) : fmt_spec := {|
  is_signed := is_signed fm; prepend := prepend fm; uppercase := upper;
  left_justify := left_justify fm; alternate_form := alternate_form fm;
  has_precision := has_precision fm; pad_char := pad_char fm; prepend_char := prepend_char fm;
  min_width := min_width fm; precision := precision fm; base := b |}.

Definition apply_flag (flag : Z) (fm : fmt_spec) : fmt_spec :=
  if (flag =? ch "+") || (flag =? ch " ") then set_prepend flag fm
  else if flag =? ch "-" then set_left_justify fm
  else if flag =? ch "0" then set_pad_char (ch "0") fm
  else set_alternate_form fm.

(** [while (consume_one_of(&fmt, "+- 0#", &flag))] *)
Fixpoint parse_flags (s : list Z) (fm : fmt_spec) : list Z * fmt_spec :=
  match s with
  | c :: s' => if is_one_of c (str "+- 0#") then parse_flags s' (apply_flag c fm) else (s, fm)
  | [] => ([], fm)
  end.

(** A computation on the cursor and the arguments: undefined behaviour, [return -1],
    or a result. *)
Inductive parsed (A : Type) :=
  | Undefined
  | Rejected
  | Parsed (a : A) (rest : list Z) (args : list va).
Arguments Undefined {A}.
Arguments Rejected {A}.
Arguments Parsed {A} _ _ _.

Definition parsed_bind {A B} (p : parsed A) (k : A -> list Z -> list va -> parsed B) : parsed B :=
  match p with
  | Undefined => Undefined
  | Rejected => Rejected
  | Parsed a s args => k a s args
  end.

Definition take_int (args : list va) : option (Z * list va) :=
  match args with VaInt v :: r => Some (v, r) | _ => None end.
Definition take_long (args : list va) : option (Z * list va) :=
  match args with VaLong v :: r => Some (v, r) | _ => None end.

(** "*" or a number, or what the mode says when there is none. *)
Definition parse_count (s : list Z) (args : list va) (mode : parse_number_mode) (old : Z) :
    parsed Z :=
  match consume s (str "*") with
  | Some s' =>
      match take_int args with
      | Some (v, args') => Parsed (u64 (swrap 32 v)) s' args'
      | None => Undefined
      end
  | None =>
      let '(ok, v, s') := parse_number s mode old in
      if ok then Parsed v s' args else Rejected
  end.

Definition parse_width (s : list Z) (args : list va) (fm : fmt_spec) : parsed fmt_spec :=
  parsed_bind (parse_count s args PARSE_NUMBER_MODE_MAYBE (min_width fm))
    (fun w s args => Parsed (set_width w fm) s args).

Definition parse_precision (s : list Z) (args : list va) (fm : fmt_spec) : parsed fmt_spec :=
  match consume s (str ".") with
  | Some s' =>
      parsed_bind (parse_count s' args PARSE_NUMBER_MODE_MUST (precision fm))
        (fun n s args => Parsed (set_precision n fm) s args)
  | None => Parsed fm s args
  end.

(** What a conversion writes. *)
Inductive conversion :=
  | ConvChar (c : Z)
  | ConvString (fm : fmt_spec) (s : list Z)
  | ConvInteger (fm : fmt_spec) (value : Z).

(** [write_int]: base and case from the specifier character, when there was one. *)
Definition int_spec (flag : Z) (fm : fmt_spec) : fmt_spec :=
  if flag =? 0 then fm else set_base (base_from_specifier flag) (is_uppercase_specifier flag) fm.

(** "d" or "i", or one of "oxXu", with the value's conversions. *)
Definition parse_integer (s : list Z) (args : list va) (fm : fmt_spec)
    (take : list va -> option (Z * list va)) (signed unsigned : Z -> Z) : parsed conversion :=
  let signed_conv s :=
    match take args with
    | Some (v, args') => Parsed (ConvInteger (set_signed true fm) (u64 (signed v))) s args'
    | None => Undefined
    end in
  match consume s (str "d") with
  | Some s' => signed_conv s'
  | None =>
      match consume s (str "i") with
      | Some s' => signed_conv s'
      | None =>
          match consume_one_of s (str "oxXu") with
          | Some (flag, s') =>
              match take args with
              | Some (v, args') => Parsed (ConvInteger (int_spec flag fm) (unsigned v)) s' args'
              | None => Undefined
              end
          | None => Rejected
          end
      end
  end.

Definition parse_conversion (s : list Z) (args : list va) : parsed conversion :=
  let (s, fm) := parse_flags s fmt_default in
  parsed_bind (parse_width s args fm) (fun fm s args =>
  parsed_bind (parse_precision s args fm) (fun fm s args =>
  match consume s (str "c") with
  | Some s' =>
      match take_int args with
      | Some (v, args') => Parsed (ConvChar v) s' args'
      | None => Undefined
      end
  | None =>
  match consume s (str "s") with
  | Some s' =>
      match args with
      | VaString v :: args' => Parsed (ConvString fm (default (str "<null>") v)) s' args'
      | _ => Undefined
      end
  | None =>
  match consume s (str "p") with
  | Some s' =>
      match args with
      | VaPointer v :: args' =>
          Parsed (ConvInteger (set_pad_char (ch "0") (set_width 16 (set_base 16 (uppercase fm) fm)))
                    (u64 v)) s' args'
      | _ => Undefined
      end
  | None =>
  match consume s (str "hh") with
  | Some s' => parse_integer s' args fm take_int (swrap 8) (wrap 8)
  | None =>
  match consume s (str "h") with
  | Some s' => parse_integer s' args fm take_int (swrap 16) (wrap 16)
  | None =>
  match (match consume s (str "ll") with Some s' => Some s' | None => consume s (str "z") end) with
  | Some s' => parse_integer s' args fm take_long (swrap 64) (wrap 64)
  | None =>
  match (match consume s (str "l") with Some s' => Some s' | None => consume s (str "z") end) with
  | Some s' => parse_integer s' args fm take_long (swrap 64) (wrap 64)
  | None => parse_integer s args fm take_int (swrap 32) (wrap 32)
  end end end end end end end)).

(** ** The main loop *)

(** The "%s" loops: the string up to the precision, then padding up to it. *)
Fixpoint write_chars (st : fmt_buf_state) (s : list Z) : option fmt_buf_state :=
  match s with
  | [] => Some st
  | c :: s' => st' ← write_one st c; write_chars st' s'
  end.

Definition write_string (st : fmt_buf_state) (fm : fmt_spec) (s : list Z) : option fmt_buf_state :=
  let shown := if has_precision fm then take (Z.to_nat (precision fm)) s else s in
  st ← write_chars st shown;
  if has_precision fm
  then write_repeat (Z.to_nat (precision fm) - length shown) st (pad_char fm)
  else Some st.

Definition write_conversion (st : fmt_buf_state) (c : conversion) : option fmt_buf_state :=
  match c with
  | ConvChar c => write_one st c
  | ConvString fm s => write_string st fm s
  | ConvInteger fm v => write_integer st fm v
  end.

(** [true] when the format was processed to its end. *)
Fixpoint format_loop (fuel : nat) (st : fmt_buf_state) (fmt : list Z) (args : list va) :
    option (bool * fmt_buf_state) :=
  match fmt with
  | [] => Some (true, st)
  | _ =>
      match fuel with
      | O => None
      | S fuel' =>
          let (lit, next) := find_next_conversion fmt in
          st ← (if (length lit =? 0)%nat then Some st
                else write_many st fmt (Z.of_nat (length lit)));
          match next with
          | None => Some (true, st)
          | Some fmt =>
              match consume fmt (str "%%") with
              | Some fmt' => st ← write_one st (ch "%"); format_loop fuel' st fmt' args
              | None =>
                  match parse_conversion (tail fmt) args with
                  | Undefined => None
                  | Rejected => Some (false, st)
                  | Parsed c fmt' args' =>
                      st ← write_conversion st c; format_loop fuel' st fmt' args'
                  end
              end
          end
      end
  end.

(** The returned value and the buffer's contents. *)
Definition uacpi_vsnprintf (buf : list Z) (fmt : list Z) (args : list va) : option (Z * list Z) :=
  r ← format_loop (length fmt) {| buffer := buf; bytes_written := 0 |} fmt args;
  match (r : bool * fmt_buf_state) with
  | (false, st) => Some (-1, buffer st)
  | (true, st) =>
      if capacity st =? 0 then Some (swrap 32 (bytes_written st), buffer st)
      else let last_char := Z.min (bytes_written st) (capacity st - 1) in
           match buffer st !! Z.to_nat last_char with
           | Some _ => Some (swrap 32 (bytes_written st), <[Z.to_nat last_char := 0]> (buffer st))
           | None => None
           end
  end.

Definition uacpi_snprintf := uacpi_vsnprintf.

Definition UACPI_PLAIN_LOG_BUFFER_SIZE : nat := 128.

(** uacpi_log: the text that is passed to the kernel's log, if any; [buf] is the
    uninitialised local buffer. *)
Definition uacpi_log (buf : list Z) (fmt : list Z) (args : list va) : option (option (list Z)) :=
  match uacpi_vsnprintf buf fmt args with
  | None => None
  | Some (ret, b) =>
      if ret <? 0 then Some None
      else if Z.of_nat UACPI_PLAIN_LOG_BUFFER_SIZE <=? ret then
        Some (Some (<[126%nat := 10]> (<[125%nat := ch "."]> (<[124%nat := ch "."]>
          (<[123%nat := ch "."]> b)))))
      else Some (Some b)
  end.

Example format_ex :
  uacpi_vsnprintf (replicate 24 0) (str "%s=%04x|%-3d|%.4s%%")
    [VaString (Some (str "id")); VaInt 0xab; VaInt (-7); VaString (Some (str "_SB_PCI0"))]
  = Some (18, str "id=00ab|-7  |_SB_%" ++ replicate 6 0).
Proof. vm_compute; reflexivity. Qed.

(** ** What a function writes

    The state after the characters [o] have been written into a buffer that held
    [init]: the first [capacity] of them, and the count of all. *)

Definition image (init o : list Z) : list Z := take (length init) o ++ drop (length o) init.

Definition after (init o : list Z) : fmt_buf_state :=
  {| buffer := image init o; bytes_written := Z.of_nat (length o) |}.

(** [f] appends [out] to what was written, wherever the buffer ends. *)
Definition emits (f : fmt_buf_state -> option fmt_buf_state) (out : list Z) : Prop :=
  forall init o, Z.of_nat (length o + length out) < 2 ^ 64 ->
  f (after init o) = Some (after init (o ++ out)).

Lemma image_length init o : length (image init o) = length init.
Proof. unfold image; rewrite length_app, length_take, length_drop; lia. Qed.

Lemma capacity_after init o : capacity (after init o) = Z.of_nat (length init).
Proof. unfold capacity; simpl; rewrite image_length; reflexivity. Qed.

Lemma image_app init o s : (length o <= length init)%nat ->
  image init (o ++ s) =
  take (length o) (image init o) ++ take (length init - length o) s ++
    drop (length o + length s) init.
Proof.
  intros H; unfold image; rewrite take_app, length_app, (take_ge o) by lia.
  rewrite take_app_length, app_assoc; reflexivity.
Qed.

Lemma image_full init o s : (length init <= length o)%nat -> image init (o ++ s) = image init o.
Proof.
  intros H; unfold image; rewrite take_app_le, !drop_ge by (rewrite ?length_app; lia); reflexivity.
Qed.

Lemma write_many_emits s count : 0 <= count <= Z.of_nat (length s) ->
  emits (fun st => write_many st s count) (take (Z.to_nat count) s).
Proof.
  intros Hc init o Hlen; rewrite length_take in Hlen; unfold write_many; rewrite capacity_after.
  cbn [bytes_written after]; unfold after; rewrite length_app, length_take.
  assert (Ew : Z.of_nat (length o) +64 count = Z.of_nat (length o + Z.to_nat count `min` length s))
    by (rewrite wrap_id by (split; lia); lia).
  destruct (Z.ltb_spec (Z.of_nat (length o)) (Z.of_nat (length init))).
  - unfold copy_at; cbn [buffer]; rewrite Nat2Z.id, decide_True by (rewrite image_length; lia).
    cbn [mbind option_bind]; rewrite Ew; f_equal; f_equal.
    rewrite image_app by lia; do 2 f_equal.
    + rewrite take_take; f_equal; lia.
    + unfold image; rewrite (take_ge o), drop_app_add, drop_drop, length_take by lia.
      destruct (Z.le_gt_cases count (Z.of_nat (length init - length o))); [f_equal; lia|].
      rewrite !drop_ge by lia; reflexivity.
  - cbn [mbind option_bind]; rewrite Ew, image_full by lia; reflexivity.
Qed.

Lemma write_one_emits c : emits (fun st => write_one st c) [u8 c].
Proof.
  intros init o Hlen; simpl in Hlen; unfold write_one; rewrite capacity_after.
  cbn [bytes_written buffer after]; unfold after; rewrite length_app; cbn [length].
  rewrite wrap_id by (split; lia); rewrite Nat2Z.id.
  replace (Z.of_nat (length o) + 1) with (Z.of_nat (length o + 1)) by lia.
  destruct (Z.ltb_spec (Z.of_nat (length o)) (Z.of_nat (length init))).
  - destruct (lookup_lt_is_Some_2 (image init o) (length o)) as [x ->];
      [rewrite image_length; lia|]; cbn [mbind option_bind]; do 2 f_equal.
    rewrite image_app, (take_ge [_]) by (simpl; lia).
    unfold image; rewrite (take_ge o), take_app_length by lia.
    rewrite insert_app_r_alt, Nat.sub_diag by lia; f_equal.
    destruct (drop (length o) init) as [|y l] eqn:E.
    { apply (f_equal length) in E; rewrite length_drop in E; simpl in E; lia. }
    cbn [app]; simpl; f_equal; rewrite <- drop_drop, E; reflexivity.
  - cbn [mbind option_bind]; rewrite image_full by lia; reflexivity.
Qed.

Lemma emits_nil : emits Some [].
Proof. intros init o _; rewrite app_nil_r; reflexivity. Qed.

Lemma emits_seq f g out1 out2 : emits f out1 -> emits g out2 ->
  emits (fun st => st' ← f st; g st') (out1 ++ out2).
Proof.
  intros Hf Hg init o Hlen; rewrite length_app in Hlen; rewrite Hf by lia.
  cbn [mbind option_bind]; rewrite Hg, app_assoc by (rewrite length_app; lia); reflexivity.
Qed.

Lemma write_repeat_emits n c : emits (fun st => write_repeat n st c) (replicate n (u8 c)).
Proof.
  induction n as [|n IH]; [apply emits_nil|].
  change (replicate (S n) (u8 c)) with ([u8 c] ++ replicate n (u8 c)).
  apply (emits_seq (fun st => write_one st c) (fun st => write_repeat n st c));
    [apply write_one_emits|apply IH].
Qed.


Definition padding (fm : fmt_spec) (repr_size : Z) : list Z :=
  replicate (Z.to_nat (min_width fm - repr_size)) (u8 (if left_justify fm then ch " " else pad_char fm)).

Lemma write_padding_emits fm n : emits (fun st => write_padding st fm n) (padding fm n).
Proof.
  unfold write_padding, padding; destruct (Z.leb_spec (min_width fm) n).
  - replace (Z.to_nat (min_width fm - n)) with O by lia; apply emits_nil.
  - apply write_repeat_emits.
Qed.

(** ** Integers *)

Definition base_enum (b : Z) : uacpi_base :=
  if b =? 8 then UACPI_BASE_OCT else if b =? 16 then UACPI_BASE_HEX else UACPI_BASE_DEC.

Definition printable_base (b : Z) : Prop := b = 8 \/ b = 10 \/ b = 16.

(** The characters [s] spell [v] in base [b]. *)
Definition spells (b : Z) (s : list Z) (v : Z) : Prop :=
  Forall (in_w 8) s /\
  exists ds, Forall2 (fun c d => digit_value (base_enum b) c = Some d) s ds /\ digits_value b ds 0 = v.

Lemma digit_repr_value fm d : printable_base (base fm) -> 0 <= d < base fm ->
  exists c, digit_repr fm d = Some c /\ in_w 8 c /\ digit_value (base_enum (base fm)) c = Some d.
Proof.
  intros Hb Hd.
  set (good := fun (b : Z) (up : bool) d => match
      (if b =? 16 then hex_char up d else if (b =? 8) || (b =? 10) then Some (d + ch "0") else None)
    with
    | Some c => (0 <=? c) && (c <? 256) && bool_decide (digit_value (base_enum b) c = Some d)
    | None => false end).
  assert (H : good (base fm) (uppercase fm) d = true).
  { destruct Hb as [E|[E|E]]; rewrite E in *.
    - apply (forallb_range (good 8 (uppercase fm)) 0 8 d); [destruct (uppercase fm); vm_compute; reflexivity|lia].
    - apply (forallb_range (good 10 (uppercase fm)) 0 10 d); [destruct (uppercase fm); vm_compute; reflexivity|lia].
    - apply (forallb_range (good 16 (uppercase fm)) 0 16 d); [destruct (uppercase fm); vm_compute; reflexivity|lia]. }
  unfold good in H; unfold digit_repr; destruct (base fm =? 16) eqn:E16.
  - destruct (hex_char _ _) as [c|]; [|discriminate]; exists c; split; [reflexivity|].
    rewrite !andb_true_iff, Z.leb_le, Z.ltb_lt, bool_decide_eq_true in H; split; [split; lia|tauto].
  - destruct ((base fm =? 8) || (base fm =? 10)); [|discriminate].
    exists (d + ch "0"); split; [reflexivity|].
    rewrite !andb_true_iff, Z.leb_le, Z.ltb_lt, bool_decide_eq_true in H; split; [split; lia|tauto].
Qed.

Lemma spells_snoc b s v c d : spells b s v -> in_w 8 c -> digit_value (base_enum b) c = Some d ->
  spells b (s ++ [c]) (v * b + d).
Proof.
  intros (Hs & ds & H1 & H2) Hc Hd; split; [apply Forall_app; auto|].
  exists (ds ++ [d]); split; [apply Forall2_app; auto|].
  unfold digits_value in *; rewrite fold_left_app, H2; reflexivity.
Qed.

(** The number is written without leading zeros. *)
Definition unpadded (b : Z) (s : list Z) : Prop := forall c t, s = c :: t -> digit_value (base_enum b) c <> Some 0.

Lemma digit_loop_spells fm : printable_base (base fm) -> forall fuel k v repr,
  (k <= fuel)%nat -> 0 <= v < base fm ^ Z.of_nat k -> (k + length repr <= 32)%nat ->
  exists s, digit_loop fuel fm v repr = Some (s ++ repr) /\ (length s <= k)%nat /\
    spells (base fm) s v /\ (s = [] <-> v = 0) /\ unpadded (base fm) s.
Proof.
  intros Hb; assert (Hb8 : 8 <= base fm <= 16) by (destruct Hb as [->|[->| ->]]; lia).
  induction fuel as [|fuel IH]; intros k v repr Hk Hv Hlen; cbn [digit_loop];
    destruct (Z.eqb_spec v 0) as [->|Hv0].
  1, 3: exists []; split; [reflexivity|split; [simpl; lia|split; [|split; [tauto|discriminate]]]];
    split; [constructor|exists []; split; [constructor|reflexivity]].
  - replace k with O in Hv by lia; simpl in Hv; lia.
  - destruct k as [|k]; [simpl in Hv; lia|].
    rewrite Nat2Z.inj_succ, Z.pow_succ_r in Hv by lia.
    pose proof (Z.mod_pos_bound v (base fm)); pose proof (Z.div_mod v (base fm)).
    destruct (digit_repr_value fm (v mod base fm) Hb) as (c & -> & Hc & Hd); [lia|].
    cbn [mbind option_bind]; unfold push_repr, REPR_BUFFER_SIZE.
    rewrite decide_True by lia; cbn [mbind option_bind]; rewrite (wrap_id 8 c) by exact Hc.
    destruct (IH k (v / base fm) (c :: repr)) as (s & E & Hs & Hsp & Hnil & Hun); [lia| |simpl; lia|].
    { split; [apply Z.div_pos; lia|apply Z.div_lt_upper_bound; nia]. }
    exists (s ++ [c]); rewrite E, <- app_assoc; split; [reflexivity|].
    rewrite length_app; cbn [length]; split; [lia|split; [|split]].
    + assert (Ev : v = v / base fm * base fm + v mod base fm) by lia.
      rewrite Ev; apply spells_snoc; auto.
    + split; [intros Hc0; destruct s; discriminate|lia].
    + intros c' t Et; destruct s as [|x s]; cbn [app] in Et; injection Et as <- <-; [|exact (Hun _ _ eq_refl)].
      rewrite Hd; assert (v / base fm = 0) by (apply Hnil; reflexivity); intros [= Hm]; nia.
Qed.

Definition negative (fm : fmt_spec) (v : Z) : bool := is_signed fm && (swrap 64 v <? 0).
Definition magnitude (fm : fmt_spec) (v : Z) : Z :=
  if negative fm v then u64 (- swrap 64 v) else v.
Definition sign_text (fm : fmt_spec) (v : Z) : list Z :=
  if prepend fm || negative fm v
  then [u8 (if negative fm v then ch "-" else prepend_char fm)] else [].
Definition prefix_text (fm : fmt_spec) : list Z :=
  if alternate_form fm then
    if base fm =? 16 then [ch "0"; if uppercase fm then ch "X" else ch "x"]
    else if base fm =? 8 then [ch "0"] else []
  else [].

Lemma add_prefix_text fm repr : (length repr <= 22)%nat ->
  add_prefix fm repr = Some (prefix_text fm ++ repr).
Proof.
  intros H; unfold add_prefix, prefix_text, push_repr, REPR_BUFFER_SIZE.
  destruct (alternate_form fm); [|reflexivity].
  destruct (base fm =? 16); [|destruct (base fm =? 8); [|reflexivity]].
  - rewrite decide_True by lia; cbn [mbind option_bind]; rewrite decide_True by (simpl; lia).
    destruct (uppercase fm); reflexivity.
  - rewrite decide_True by lia; reflexivity.
Qed.

(** The text of an integer: sign, then digits with their prefix, padded on the side
    that the flags say. *)
Definition integer_text (fm : fmt_spec) (v : Z) (digits : list Z) : list Z :=
  let repr := prefix_text fm ++ digits in
  let pad := padding fm (Z.of_nat (length repr)) in
  sign_text fm v ++ (if left_justify fm then repr ++ pad else pad ++ repr).

(** What is written once the digits are known. *)
Lemma write_integer_of_digits fm v s : digit_loop 64 fm (magnitude fm v) [] = Some s -> (length s <= 22)%nat ->
  emits (fun st => write_integer st fm v) (integer_text fm v (if (length s =? 0)%nat then [ch "0"] else s)).
Proof.
  intros E Hl; set (digits := if (length s =? 0)%nat then [ch "0"] else s).
  assert (Ed : (if (length s =? 0)%nat then push_repr (ch "0") s else Some s) = Some digits).
  { unfold digits; destruct s; reflexivity. }
  assert (Hsign : emits (fun st => if prepend fm || negative fm v
      then write_one st (if negative fm v then ch "-" else prepend_char fm) else Some st)
      (sign_text fm v)).
  { unfold sign_text; destruct (prepend fm || negative fm v); [apply write_one_emits|apply emits_nil]. }
  set (repr := prefix_text fm ++ digits).
  assert (Hbody : emits (fun st => if left_justify fm
      then st ← write_many st repr (Z.of_nat (length repr)); write_padding st fm (Z.of_nat (length repr))
      else st ← write_padding st fm (Z.of_nat (length repr)); write_many st repr (Z.of_nat (length repr)))
      (if left_justify fm then repr ++ padding fm (Z.of_nat (length repr))
       else padding fm (Z.of_nat (length repr)) ++ repr)).
  { assert (Hw : emits (fun st => write_many st repr (Z.of_nat (length repr))) repr).
    { pose proof (write_many_emits repr (Z.of_nat (length repr)) ltac:(lia)) as Hw.
      rewrite Nat2Z.id, firstn_all in Hw; exact Hw. }
    destruct (left_justify fm);
      [apply (emits_seq (fun st => write_many st repr (Z.of_nat (length repr)))
         (fun st => write_padding st fm (Z.of_nat (length repr))))
      |apply (emits_seq (fun st => write_padding st fm (Z.of_nat (length repr)))
         (fun st => write_many st repr (Z.of_nat (length repr))))]; auto using write_padding_emits. }
  intros init o Hlen; pose proof (emits_seq _ _ _ _ Hsign Hbody init o Hlen) as R.
  unfold write_integer; fold (negative fm v); fold (magnitude fm v).
  rewrite E; cbn [mbind option_bind]; rewrite Ed; cbn [mbind option_bind].
  rewrite add_prefix_text by (unfold digits; destruct s; cbn [length Nat.eqb] in *; lia); exact R.
Qed.

Lemma write_integer_digits fm v k : printable_base (base fm) -> (1 <= k <= 22)%nat -> 0 <= magnitude fm v < base fm ^ Z.of_nat k ->
  exists digits, digits <> [] /\ spells (base fm) digits (magnitude fm v) /\
    (length digits <= k)%nat /\ (magnitude fm v = 0 /\ digits = [ch "0"] \/ unpadded (base fm) digits) /\
    emits (fun st => write_integer st fm v) (integer_text fm v digits).
Proof.
  intros Hb Hk Hm.
  destruct (digit_loop_spells fm Hb 64 k (magnitude fm v) []) as (s & E & Hl & Hs & Hnil & Hun);
    [lia|exact Hm|simpl; lia|]; rewrite app_nil_r in E; pose proof (write_integer_of_digits fm v s E ltac:(lia)) as He.
  exists (if (length s =? 0)%nat then [ch "0"] else s); destruct s as [|c s]; cbn [length Nat.eqb] in *; [|split_and!; auto; discriminate].
  rewrite (proj1 Hnil eq_refl) in *; split; [discriminate|split; [|split; [simpl; lia|split; [left; split; reflexivity|exact He]]]].
  split; [repeat constructor; vm_compute; discriminate|]; exists [0]; split; [|reflexivity].
  repeat constructor; destruct Hb as [->|[->| ->]]; reflexivity.
Qed.

Lemma magnitude_range fm v : in_w 64 v -> in_w 64 (magnitude fm v).
Proof. intros Hv; unfold magnitude; destruct (negative fm v); [apply wrap_range; lia|exact Hv]. Qed.

Lemma write_integer_emits fm v : printable_base (base fm) -> in_w 64 v ->
  exists digits, digits <> [] /\ spells (base fm) digits (magnitude fm v) /\
    (length digits <= 22)%nat /\
    emits (fun st => write_integer st fm v) (integer_text fm v digits).
Proof.
  intros Hb Hv; destruct (write_integer_digits fm v 22 Hb ltac:(lia)) as (ds & H1 & H2 & H3 & _ & H4); [|eauto].
  assert (Hm : 0 <= magnitude fm v < 8 ^ Z.of_nat 22) by (pose proof (magnitude_range fm v Hv) as [? ?]; lia).
  split; [lia|]; eapply Z.lt_le_trans; [apply Hm|]; apply Z.pow_le_mono_l; destruct Hb as [->|[->| ->]]; lia.
Qed.

(** ** The text of a number

    Written without the loop: the digits of [v], the highest first, as many as it has. *)

Definition digit_char (upper : bool) (d : Z) : Z :=
  if d <? 10 then ch "0" + d else (if upper then ch "A" else ch "a") + (d - 10).

(** How many digits [v] has, at most 22 for 64 bits in base 8. *)
Definition digit_count (b v : Z) : nat := default 22%nat (list_find (fun k => v < b ^ Z.of_nat k) (seq 0 22) ≫= fun x => Some (snd x)).

Definition number_text (b : Z) (upper : bool) (v : Z) : list Z :=
  if v =? 0 then [ch "0"]
  else (fun i => digit_char upper ((v / b ^ Z.of_nat i) mod b)) <$> rev (seq 0 (digit_count b v)).

Example number_text_ex : (number_text 10 false 1205, number_text 16 true 0xBEEF, number_text 8 false 8) = (str "1205", str "BEEF", str "10").
Proof. vm_compute; reflexivity. Qed.





(** ** The format loop *)









Lemma int_spec_base flag fm : base fm = 10 -> printable_base (base (int_spec flag fm)).
Proof.
  intros H; unfold int_spec, printable_base, base_from_specifier.
  destruct (flag =? 0); [rewrite H; auto|]; cbn [set_base base].
  destruct (_ || _); [auto|]; destruct (_ =? _); auto.
Qed.










(** The buffer after a complete run: the text cut to fit, a NUL, and what was there. *)
Definition terminated (buf out : list Z) : list Z :=
  if (length buf =? 0)%nat then []
  else let k := min (length out) (length buf - 1) in take k out ++ 0 :: drop (S k) buf.

Lemma insert_image buf out : (0 < length buf)%nat ->
  <[min (length out) (length buf - 1) := 0]> (image buf out) = terminated buf out.
Proof.
  intros Hb; unfold terminated; destruct (Nat.eqb_spec (length buf) 0); [lia|].
  set (k := min _ _); apply list_eq; intros i.
  destruct (decide (i = k)) as [->|Hi].
  - rewrite list_lookup_insert_eq by (rewrite image_length; lia).
    rewrite lookup_app_r by (rewrite length_take; lia); rewrite length_take.
    replace (k - k `min` length out)%nat with O by lia; reflexivity.
  - rewrite list_lookup_insert_ne by congruence; unfold image.
    destruct (decide (i < k)%nat).
    + rewrite !lookup_app_l by (rewrite length_take; lia); rewrite !lookup_take_lt by lia; reflexivity.
    + rewrite (lookup_app_r (take k out)) by (rewrite length_take; lia).
      rewrite length_take; replace (k `min` length out)%nat with k by lia.
      destruct (i - k)%nat as [|j] eqn:E; [lia|].
      change ((0 :: drop (S k) buf) !! S j) with (drop (S k) buf !! j).
      destruct (decide (length out <= length buf - 1)%nat).
      * rewrite take_ge, lookup_app_r, !lookup_drop by lia.
        replace (length out + (i - length out))%nat with (S k + j)%nat by lia; reflexivity.
      * rewrite !lookup_ge_None_2; [reflexivity|rewrite length_drop; lia|].
        rewrite length_app, length_take, length_drop; lia.
Qed.

(** The end of uacpi_vsnprintf. *)
Lemma vsnprintf_of_loop buf fmt args ok out :
  format_loop (length fmt) (after buf []) fmt args = Some (ok, after buf out) ->
  uacpi_vsnprintf buf fmt args =
  Some (if (ok : bool) then (swrap 32 (Z.of_nat (length out)), terminated buf out)
        else (-1, image buf out)).
Proof.
  intros H; unfold uacpi_vsnprintf.
  assert (E0 : {| buffer := buf; bytes_written := 0 |} = after buf []).
  { unfold after, image; rewrite take_nil; reflexivity. }
  rewrite E0, H; cbn [mbind option_bind]; destruct ok; [|reflexivity].
  rewrite capacity_after; cbn [buffer bytes_written after].
  destruct (Z.eqb_spec (Z.of_nat (length buf)) 0) as [E|E].
  - assert (Eb : buf = []) by (destruct buf; [reflexivity|simpl in E; lia]); subst buf.
    unfold terminated, image; rewrite drop_nil; reflexivity.
  - replace (Z.to_nat (Z.min (Z.of_nat (length out)) (Z.of_nat (length buf) - 1)))
      with (min (length out) (length buf - 1)) by lia.
    destruct (lookup_lt_is_Some_2 (image buf out) (min (length out) (length buf - 1))) as [x ->];
      [rewrite image_length; lia|].
    rewrite insert_image by lia; reflexivity.
Qed.

Lemma swrap_small n : 0 <= n < 2 ^ 31 -> swrap 32 n = n.
Proof.
  intros Hn; unfold swrap; rewrite wrap_id by (split; lia).
  destruct (Z.ltb_spec n (2 ^ (32 - 1))); [reflexivity|lia].
Qed.

(** ** Theorems *)


Definition specifier_base (c : Z) : uacpi_base := base_enum (base_from_specifier c).

Lemma print_u64_digits c v k : In c (str "uxXo") -> in_w 64 v -> (1 <= k <= 22)%nat -> v < base_from_specifier c ^ Z.of_nat k ->
  exists s, s <> [] /\ (length s <= k)%nat /\ (v = 0 /\ s = [ch "0"] \/ unpadded (base_from_specifier c) s) /\ spells (base_from_specifier c) s v /\
    forall buf, uacpi_vsnprintf buf (str "%ll" ++ [c]) [VaLong v] =
      Some (Z.of_nat (length s), terminated buf s).
Proof.
  intros Hc Hv Hk Hvk; set (fm := int_spec c fmt_default).
  assert (Hb : printable_base (base fm)) by (apply int_spec_base; reflexivity).
  assert (Hfm : base fm = base_from_specifier c /\ is_signed fm = false /\ prepend fm = false /\
    alternate_form fm = false /\ left_justify fm = false /\ min_width fm = 0).
  { simpl in Hc; destruct Hc as [<-|[<-|[<-|[<-|[]]]]]; repeat split. }
  destruct Hfm as (F1 & F2 & F3 & F4 & F5 & F6).
  assert (Em : magnitude fm v = v) by (unfold magnitude, negative; rewrite F2; reflexivity).
  destruct (write_integer_digits fm v k Hb Hk) as (s & Hne & Hs & Hl & Hun & He); [rewrite Em, F1; destruct Hv; lia|].
  assert (Et : integer_text fm v s = s).
  { unfold integer_text, sign_text, prefix_text, padding, negative; rewrite F2, F3, F4, F5, F6.
    cbn [andb orb app]; replace (Z.to_nat (0 - Z.of_nat (length s))) with O by lia; reflexivity. }
  rewrite Et in He; rewrite F1, Em in Hs, Hun; exists s; do 4 (split; [assumption|]); intros buf.
  assert (Hrun : forall init o st, write_integer (after init o) fm v = Some st ->
    format_loop (length (str "%ll" ++ [c])) (after init o) (str "%ll" ++ [c]) [VaLong v]
      = Some (true, st)).
  { intros init o st E.
    assert (Ep : parse_conversion (str "ll" ++ [c]) [VaLong v] =
      Parsed (ConvInteger fm (wrap 64 v)) [] []).
    { simpl in Hc; destruct Hc as [<-|[<-|[<-|[<-|[]]]]]; reflexivity. }
    change (length (str "%ll" ++ [c])) with 4%nat.
    change (str "%ll" ++ [c]) with (ch "%" :: (str "ll" ++ [c])).
    cbn [format_loop]; change (find_next_conversion (ch "%" :: (str "ll" ++ [c])))
      with ([] : list Z, Some (ch "%" :: (str "ll" ++ [c]))).
    assert (Ec : consume (ch "%" :: str "ll" ++ [c]) (str "%%") = None).
    { simpl in Hc; destruct Hc as [<-|[<-|[<-|[<-|[]]]]]; reflexivity. }
    cbn [length Nat.eqb mbind option_bind]; rewrite Ec.
    cbn [tail]; rewrite Ep; cbn [write_conversion]; rewrite (wrap_id 64 v) by exact Hv.
    rewrite E; reflexivity. }
  rewrite (vsnprintf_of_loop buf _ _ true s); [rewrite swrap_small by lia; reflexivity|].
  apply Hrun, (He buf []); simpl; lia.
Qed.

Lemma print_u64_text c v : In c (str "uxXo") -> in_w 64 v ->
  exists s, s <> [] /\ (length s <= 22)%nat /\ spells (base_from_specifier c) s v /\
    forall buf, uacpi_vsnprintf buf (str "%ll" ++ [c]) [VaLong v] =
      Some (Z.of_nat (length s), terminated buf s).
Proof.
  intros Hc Hv; destruct (print_u64_digits c v 22 Hc Hv ltac:(lia)) as (s & H1 & H2 & _ & H3 & H4); [|eauto].
  destruct Hv as [_ Hv]; simpl in Hc; destruct Hc as [<-|[<-|[<-|[<-|[]]]]]; (eapply Z.lt_le_trans; [exact Hv|]); vm_compute; discriminate.
Qed.

(** C17.  Printing a 64-bit value with %llu, %llx, %llX or %llo and parsing the text
    with uacpi_string_to_integer in the same base returns the value. *)
Theorem print_parse_roundtrip c v : In c (str "uxXo") -> in_w 64 v ->
  exists s, (forall buf, uacpi_vsnprintf buf (str "%ll" ++ [c]) [VaLong v] =
      Some (Z.of_nat (length s), terminated buf s)) /\
    uacpi_string_to_integer s (specifier_base c) = (UACPI_STATUS_OK, v).
Proof.
  intros Hc Hv; destruct (print_u64_text c v Hc Hv) as (s & Hne & _ & (Hb & ds & Hds & Ev) & Hrun).
  exists s; split; [exact Hrun|].
  assert (Ebase : base_value (specifier_base c) = base_from_specifier c /\
    specifier_base c <> UACPI_BASE_AUTO).
  { simpl in Hc; destruct Hc as [<-|[<-|[<-|[<-|[]]]]]; split; try reflexivity; discriminate. }
  destruct Ebase as [Eb Hauto]; rewrite <- Eb in Ev.
  destruct (parse_digits_spec (specifier_base c) s Hauto Hb ds 0 0 ltac:(split; lia) Hds) as [H _].
  destruct H as [c' H]; [rewrite Ev; destruct Hv; assumption|].
  destruct s as [|x s]; [congruence|].
  rewrite string_to_integer_digits; [|exact Hauto|inversion Hb; assumption|inversion Hds; eexists; eassumption].
  rewrite H, Ev; reflexivity.
Qed.

(** The minimum width of a signed conversion does not count the sign, and the
    sign comes before the padding: a negative number with a width larger than its
    digits is printed as '-', the blanks, then the digits, one character wider
    than the width. *)
Theorem signed_width_excludes_sign fm v : printable_base (base fm) -> in_w 64 v ->
  is_signed fm = true -> swrap 64 v < 0 -> left_justify fm = false -> alternate_form fm = false ->
  22 < min_width fm ->
  exists digits, spells (base fm) digits (u64 (- swrap 64 v)) /\
    emits (fun st => write_integer st fm v)
      (ch "-" :: replicate (Z.to_nat (min_width fm) - length digits) (u8 (pad_char fm)) ++ digits) /\
    Z.of_nat (length (ch "-" :: replicate (Z.to_nat (min_width fm) - length digits)
      (u8 (pad_char fm)) ++ digits)) = min_width fm + 1.
Proof.
  intros Hb Hv Hs Hneg Hl Ha Hw.
  destruct (write_integer_emits fm v Hb Hv) as (ds & _ & Hsp & Hlen & He).
  assert (En : negative fm v = true) by (unfold negative; rewrite Hs; apply Z.ltb_lt, Hneg).
  exists ds; split; [|split].
  - unfold magnitude in Hsp; rewrite En in Hsp; exact Hsp.
  - unfold integer_text, sign_text, prefix_text, padding in He; rewrite En, Hl, Ha, orb_true_r in He.
    cbn [app] in He; replace (Z.to_nat (min_width fm - Z.of_nat (length ds)))
      with (Z.to_nat (min_width fm) - length ds)%nat in He by lia; exact He.
  - cbn [length]; rewrite length_app, length_replicate; lia.
Qed.

Module Demo.


Lemma print_parse_roundtrip_witness :
  exists s, uacpi_vsnprintf (replicate 20 0) (str "%llx") [VaLong 0xbeef] =
    Some (Z.of_nat (length s), terminated (replicate 20 0) s) /\
    uacpi_string_to_integer s UACPI_BASE_HEX = (UACPI_STATUS_OK, 0xbeef).
Proof.
  destruct (print_parse_roundtrip (ch "x") 0xbeef) as (s & H1 & H2);
    [simpl; tauto|split; [lia|reflexivity]|].
  exists s; split; [apply H1|exact H2].
Defined.

Lemma signed_width_excludes_sign_witness :
  exists digits, spells 10 digits 42 /\
    emits (fun st => write_integer st (set_width 24 (set_signed true fmt_default)) (2 ^ 64 - 42))
      (ch "-" :: replicate (24 - length digits) (u8 (ch " ")) ++ digits).
Proof.
  destruct (signed_width_excludes_sign (set_width 24 (set_signed true fmt_default)) (2 ^ 64 - 42))
    as (ds & H1 & H2 & _); try reflexivity;
    [right; left; reflexivity|split; [lia|reflexivity]|].
  exists ds; split; [exact H1|exact H2].
Defined.

End Demo.
