(* ===== verification/Shareable.v ===== *)
(** * acpi/uacpi/shareable.c: reference counts

    A reference count of 32 bits with the value 0xFFFFFFFF reserved for objects
    whose count is known to be wrong; those are never freed again. *)

From S2P Require Import Prelude UCore.

Open Scope word_scope.

Definition BUGGED_REFCOUNT : Z := 0xffffffff.

(** The state is the reference count; [freed] counts the calls of the destructor. *)
Record shareable := { reference_count : Z; freed : Z }.

Definition set_count (c : Z) (s : shareable) : shareable :=
  {| reference_count := c; freed := freed s |}.

Abbreviation M := (SM shareable).

Definition uacpi_shareable_init : M unit := update_state (set_count 1).

Definition uacpi_make_shareable_bugged : M unit := update_state (set_count BUGGED_REFCOUNT).

Definition uacpi_bugged_shareable : M bool :=
  c ← gets_state reference_count;
  (if c =? 0 then uacpi_make_shareable_bugged else mret tt);;
  c ← gets_state reference_count;
  mret (c =? BUGGED_REFCOUNT).

Definition uacpi_shareable_ref : M Z :=
  bugged ← uacpi_bugged_shareable;
  if (bugged : bool) then mret BUGGED_REFCOUNT else
  update_state (fun s => set_count (u32 (reference_count s + 1)) s);;
  c ← gets_state reference_count;
  mret (u32 (c - 1)).

Definition uacpi_shareable_unref : M Z :=
  bugged ← uacpi_bugged_shareable;
  if (bugged : bool) then mret BUGGED_REFCOUNT else
  update_state (fun s => set_count (u32 (reference_count s - 1)) s);;
  c ← gets_state reference_count;
  mret (u32 (c + 1)).

(** [do_free] is counted, not run: what it frees is the client's. *)
Definition do_free : M unit :=
  update_state (fun s => {| reference_count := reference_count s; freed := freed s + 1 |}).

Definition uacpi_shareable_unref_and_delete_if_last (handle_is_null : bool) : M unit :=
  if handle_is_null then mret tt else
  bugged ← uacpi_bugged_shareable;
  if (bugged : bool) then mret tt else
  c ← uacpi_shareable_unref;
  if c =? 1 then do_free else mret tt.

Definition uacpi_shareable_refcount : M Z := gets_state reference_count.

(** ** What the operations do to the count *)

Definition live (c : Z) : Prop := 0 < c < BUGGED_REFCOUNT.

Lemma ref_live s : live (reference_count s) ->
  uacpi_shareable_ref s = Some (reference_count s, set_count (reference_count s + 1) s).
Proof.
  intros [H1 H2]; unfold uacpi_shareable_ref, uacpi_bugged_shareable, BUGGED_REFCOUNT in *; smunfold.
  destruct (Z.eqb_spec (reference_count s) 0); [lia|].
  destruct (Z.eqb_spec (reference_count s) 0xffffffff); [lia|].
  cbn [reference_count set_count]; rewrite (wrap_id 32 (reference_count s + 1)) by (unfold in_w; lia).
  rewrite wrap_id by (unfold in_w; lia); do 2 f_equal; lia.
Qed.

Lemma unref_live s : live (reference_count s) ->
  uacpi_shareable_unref s = Some (reference_count s, set_count (reference_count s - 1) s).
Proof.
  intros [H1 H2]; unfold uacpi_shareable_unref, uacpi_bugged_shareable, BUGGED_REFCOUNT in *; smunfold.
  destruct (Z.eqb_spec (reference_count s) 0); [lia|].
  destruct (Z.eqb_spec (reference_count s) 0xffffffff); [lia|].
  cbn [reference_count set_count]; rewrite (wrap_id 32 (reference_count s - 1)) by (unfold in_w; lia).
  rewrite wrap_id by (unfold in_w; lia); do 2 f_equal; lia.
Qed.

Lemma delete_live s : live (reference_count s) ->
  uacpi_shareable_unref_and_delete_if_last false s =
  Some (tt, {| reference_count := reference_count s - 1;
               freed := freed s + if reference_count s =? 1 then 1 else 0 |}).
Proof.
  intros H; pose proof (unref_live s H) as E; destruct H as [H1 H2].
  unfold uacpi_shareable_unref_and_delete_if_last, uacpi_bugged_shareable, BUGGED_REFCOUNT in *.
  smunfold; destruct (Z.eqb_spec (reference_count s) 0); [lia|].
  destruct (Z.eqb_spec (reference_count s) 0xffffffff); [lia|].
  rewrite E; destruct (Z.eqb_spec (reference_count s) 1) as [E1|E1]; unfold do_free, set_count; smunfold;
    cbn [reference_count freed]; do 2 f_equal; f_equal; lia.
Qed.

(** A dead count is turned into the reserved value, which nothing changes. *)
Definition dead (c : Z) : Prop := c = 0 \/ c = BUGGED_REFCOUNT.

Lemma dead_stays s : dead (reference_count s) ->
  uacpi_shareable_ref s = Some (BUGGED_REFCOUNT, set_count BUGGED_REFCOUNT s) /\
  uacpi_shareable_unref s = Some (BUGGED_REFCOUNT, set_count BUGGED_REFCOUNT s) /\
  uacpi_shareable_unref_and_delete_if_last false s = Some (tt, set_count BUGGED_REFCOUNT s).
Proof.
  destruct s as [c n]; cbn [reference_count]; intros [->| ->]; repeat split; reflexivity.
Qed.

(** ** Histories *)

Inductive op := Ref | Unref.

Definition run_op (o : op) : M unit :=
  match o with
  | Ref => uacpi_shareable_ref;; mret tt
  | Unref => uacpi_shareable_unref_and_delete_if_last false
  end.

Fixpoint run_ops (l : list op) : M unit :=
  match l with [] => mret tt | o :: l' => run_op o;; run_ops l' end.

(** The references outstanding after each prefix of a history. *)
Definition delta (o : op) : Z := match o with Ref => 1 | Unref => -1 end.
Definition total (l : list op) : Z := fold_right (fun o n => delta o + n) 0 l.

Lemma total_app l l' : total (l ++ l') = total l + total l'.
Proof.
  induction l as [|o l IH]; [reflexivity|].
  change (total ((o :: l) ++ l')) with (delta o + total (l ++ l')).
  change (total (o :: l)) with (delta o + total l); lia.
Qed.

Lemma run_ops_dead l : forall s, dead (reference_count s) ->
  exists s', run_ops l s = Some (tt, s') /\ dead (reference_count s') /\ freed s' = freed s.
Proof.
  induction l as [|o l IH]; intros s Hs; [exists s; auto|].
  destruct (dead_stays s Hs) as (E1 & _ & E3).
  assert (E : run_op o s = Some (tt, set_count BUGGED_REFCOUNT s)).
  { destruct o; unfold run_op; [rewrite (SM_bind_Some _ _ _ _ _ E1); reflexivity|exact E3]. }
  destruct (IH (set_count BUGGED_REFCOUNT s)) as (s' & E' & H); [right; reflexivity|].
  exists s'; split; [|exact H]; cbn [run_ops]; rewrite (SM_bind_Some _ _ _ _ _ E); exact E'.
Qed.

Lemma run_ops_spec l : forall s, live (reference_count s) ->
  reference_count s + Z.of_nat (length l) < BUGGED_REFCOUNT ->
  exists s', run_ops l s = Some (tt, s') /\
    ((forall k, reference_count s + total (take k l) > 0) ->
       reference_count s' = reference_count s + total l /\ freed s' = freed s) /\
    ((exists k, reference_count s + total (take k l) = 0) -> freed s' = freed s + 1).
Proof.
  induction l as [|o l IH]; intros s Hs Hb.
  { exists s; split; [reflexivity|split; [intros _; change (total []) with 0; lia|]].
    intros [k Hk]; rewrite take_nil in Hk; change (total []) with 0 in Hk; destruct Hs; lia. }
  cbn [length] in Hb; rewrite Nat2Z.inj_succ in Hb; destruct Hs as [H1 H2].
  set (s1 := {| reference_count := reference_count s + delta o;
    freed := freed s + if reference_count s + delta o =? 0 then 1 else 0 |}).
  assert (E : run_op o s = Some (tt, s1)).
  { destruct o; unfold run_op, s1; cbn [delta].
    - rewrite (SM_bind_Some _ _ _ _ _ (ref_live s (conj H1 H2))); unfold set_count; smunfold.
      destruct (Z.eqb_spec (reference_count s + 1) 0); [lia|]; rewrite Z.add_0_r; reflexivity.
    - rewrite (delete_live s (conj H1 H2)).
      destruct (Z.eqb_spec (reference_count s) 1), (Z.eqb_spec (reference_count s + -1) 0); try lia;
        reflexivity. }
  cbn [run_ops]; rewrite (SM_bind_Some _ _ _ _ _ E).
  assert (Ht : forall k, total (take (S k) (o :: l)) = delta o + total (take k l)) by reflexivity.
  change (total (o :: l)) with (delta o + total l).
  destruct (decide (reference_count s + delta o = 0)) as [E0|E0].
  - destruct (run_ops_dead l s1) as (s' & E' & _ & Hf); [left; exact E0|].
    exists s'; split; [exact E'|]; rewrite Hf; unfold s1; cbn [freed]; rewrite E0, Z.eqb_refl.
    split; [|reflexivity]; intros H; specialize (H 1%nat); rewrite Ht in H.
    change (total (take 0 l)) with 0 in H; lia.
  - destruct (IH s1) as (s' & E' & Ha & Hz); unfold s1 in *; cbn [reference_count freed] in *.
    { destruct o; cbn [delta] in *; unfold live; lia. }
    { destruct o; cbn [delta] in *; lia. }
    destruct (Z.eqb_spec (reference_count s + delta o) 0); [lia|]; rewrite Z.add_0_r in *.
    exists s'; split; [exact E'|split].
    + intros H; destruct Ha as [Hc Hf]; [|split; [lia|exact Hf]].
      intros k; specialize (H (S k)); rewrite Ht in H; lia.
    + intros [k Hk]; apply Hz; destruct k as [|k].
      * change (total (take 0 (o :: l))) with 0 in Hk; lia.
      * exists k; rewrite Ht in Hk; lia.
Qed.

(** ** Theorems *)

(** An object is destroyed exactly once, when its last reference goes: over
    any history of references and releases that starts with one reference, the
    destructor runs exactly once if the count ever reaches zero (further releases
    and references after that change nothing), and not at all while references
    remain, in which case the count is their number. *)
Theorem shareable_destroyed_once l s0 :
  Z.of_nat (length l) < BUGGED_REFCOUNT - 1 -> freed s0 = 0 ->
  exists s, (uacpi_shareable_init;; run_ops l) s0 = Some (tt, s) /\
    ((forall k, 1 + total (take k l) > 0) -> reference_count s = 1 + total l /\ freed s = 0) /\
    ((exists k, 1 + total (take k l) = 0) -> freed s = 1).
Proof.
  intros Hl Hf; destruct (run_ops_spec l (set_count 1 s0)) as (s & E & Ha & Hz).
  - unfold live, BUGGED_REFCOUNT; simpl; lia.
  - cbn [reference_count set_count]; lia.
  - cbn [reference_count freed set_count] in *; rewrite Hf in *.
    exists s; split; [exact E|split; assumption].
Qed.

Module Demo.

Lemma shareable_destroyed_once_witness :
  exists s, (uacpi_shareable_init;; run_ops [Ref; Unref; Unref; Unref])
      {| reference_count := 9; freed := 0 |} = Some (tt, s) /\ freed s = 1.
Proof.
  destruct (shareable_destroyed_once [Ref; Unref; Unref; Unref] {| reference_count := 9; freed := 0 |})
    as (s & E & _ & H); [reflexivity|reflexivity|].
  exists s; split; [exact E|apply H; exists 3%nat; reflexivity].
Defined.

End Demo.
