(* ===== verification/Mutex.v ===== *)
(** * acpi/uacpi/mutex.c: the global lock, AML mutexes and recursive locks

    The firmware global lock (the two low bits of a word of the FACS, taken and
    released with compare-and-swap loops), the sequence-numbered public lock, the
    AML mutexes with their recursion depth and the recursive lock.  Kernel
    mutexes, events, spinlocks and the release register are the interface
    [MutexKernel].  (The readers-writer lock is in [RwLock].) *)

From Stdlib Require Import Btauto.
From S2P Require Import Prelude UCore.

Open Scope word_scope.

(** ** The compare-and-swap loops *)

Definition GLOBAL_LOCK_PENDING : Z := 1.
Definition GLOBAL_LOCK_OWNED_BIT : Z := 1.
Definition GLOBAL_LOCK_OWNED : Z := 2.
Definition GLOBAL_LOCK_MASK : Z := 3.

Definition was_owned (value : Z) : bool :=
  negb (Z.shiftr (Z.land value GLOBAL_LOCK_OWNED) GLOBAL_LOCK_OWNED_BIT =? 0).

(** The new value that an acquisition tries to store. *)
Definition acquire_value (value : Z) : Z :=
  let new_value := Z.land value (u32 (Z.lnot GLOBAL_LOCK_MASK)) in
  let new_value := Z.lor new_value GLOBAL_LOCK_OWNED in
  if was_owned value then Z.lor new_value GLOBAL_LOCK_PENDING else new_value.

Definition release_value (value : Z) : Z := Z.land value (u32 (Z.lnot GLOBAL_LOCK_MASK)).

(** A [do ... while (!cmpxchg)] loop: [seen] lists what the word holds at each
    attempt; the result is the value replaced and the one stored, or nothing while
    every attempt has failed. *)
Fixpoint cas_loop (f : Z -> Z) (value : Z) (seen : list Z) : option (Z * Z) :=
  match seen with
  | [] => None
  | cur :: rest => if cur =? value then Some (value, f value) else cas_loop f cur rest
  end.

(** [value] is what the plain read before the loop returned. *)
Definition try_acquire_global_lock_from_firmware (value : Z) (seen : list Z) : option (bool * Z) :=
  r ← cas_loop acquire_value value seen; Some (negb (was_owned (fst r)), snd r).

Definition do_release_global_lock_to_firmware (value : Z) (seen : list Z) : option (bool * Z) :=
  r ← cas_loop release_value value seen;
  Some (negb (Z.land (fst r) GLOBAL_LOCK_PENDING =? 0), snd r).

(** ** The kernel and the rest of uACPI *)

Class MutexKernel (W : Type) := {
  get_thread_id : W -> Z;
  kernel_acquire_mutex : Z -> Z -> SM W uacpi_status;
  kernel_release_mutex : Z -> SM W unit;
  kernel_create_mutex : SM W (option Z);
  kernel_free_mutex : Z -> SM W unit;
  lock_spinlock : SM W Z;
  unlock_spinlock : Z -> SM W unit;
  wait_for_global_lock_event : SM W unit;
  (** what the lock word holds when a loop runs: first read, then each attempt *)
  lock_word_seen : SM W (Z * list Z);
  (** the store of the attempt that succeeded *)
  lock_word_store : Z -> SM W unit;
  (** uacpi_write_register_field(UACPI_REGISTER_FIELD_GBL_RLS, 1) *)
  write_gbl_rls : SM W unit;
  namespace_write_lock : SM W unit;
  namespace_write_unlock : SM W unit
}.

Record uacpi_mutex := { handle : Z; owner : Z; depth : Z }.

Record uacpi_recursive_lock := { rl_mutex : Z; rl_depth : Z; rl_owner : Z }.

(** The part of g_uacpi_rt_ctx that the locks use. *)
Record runtime_context := {
  init_level : Z;
  has_global_lock : bool;
  global_lock_pending : bool;
  global_lock_mutex : Z;
  global_lock_seq_num : Z;
  global_lock_acquired : bool
}.

Definition THREAD_ID_NONE : Z := 2 ^ 64 - 1.

Section Locks.
Context {W : Type} {MK : MutexKernel W}.

Record state := { ctx : runtime_context; mutexes : gmap Z uacpi_mutex; world : W }.

Abbreviation M := (SM state).

Definition in_world {A} (c : SM W A) : M A := fun s =>
  match c (world s) with
  | Some (a, w') => Some (a, {| ctx := ctx s; mutexes := mutexes s; world := w' |})
  | None => None
  end.

Definition update_ctx (f : runtime_context -> runtime_context) : M unit :=
  update_state (fun s => {| ctx := f (ctx s); mutexes := mutexes s; world := world s |}).

Definition set_pending (b : bool) (c : runtime_context) : runtime_context := {|
  init_level := init_level c; has_global_lock := has_global_lock c; global_lock_pending := b;
  global_lock_mutex := global_lock_mutex c; global_lock_seq_num := global_lock_seq_num c;
  global_lock_acquired := global_lock_acquired c |}.

Definition set_seq (n : Z) (acquired : bool) (c : runtime_context) : runtime_context := {|
  init_level := init_level c; has_global_lock := has_global_lock c;
  global_lock_pending := global_lock_pending c; global_lock_mutex := global_lock_mutex c;
  global_lock_seq_num := n; global_lock_acquired := acquired |}.

(** [mutex->...] of the mutex at an address; a wild address is undefined. *)
Definition get_mutex (p : Z) : M uacpi_mutex := fun s =>
  match mutexes s !! p with Some x => Some (x, s) | None => None end.

Definition put_mutex (p : Z) (x : uacpi_mutex) : M unit := fun s =>
  Some (tt, {| ctx := ctx s; mutexes := <[p := x]> (mutexes s); world := world s |}).

(** ** The firmware lock *)

(** One run of the acquisition loop against what the word is seen to hold. *)
Definition try_acquire : M bool :=
  r ← in_world lock_word_seen;
  match try_acquire_global_lock_from_firmware (fst r) (snd r) with
  | Some (success, new_value) => in_world (lock_word_store new_value);; mret success
  | None => undefined
  end.

(** [for (;;)] with [spins] counting up to 0xFFFF. *)
Fixpoint acquire_spin (fuel : nat) (spins flags : Z) : M (bool * Z) :=
  match fuel with
  | O => undefined
  | S fuel' =>
      let spins := u16 (spins + 1) in
      success ← try_acquire;
      if (success : bool) then mret (true, flags) else
      if spins =? 0xffff then mret (false, flags) else
      update_ctx (set_pending true);;
      in_world (unlock_spinlock flags);;
      in_world wait_for_global_lock_event;;
      flags ← in_world lock_spinlock;
      acquire_spin fuel' spins flags
  end.

Definition spin_fuel : nat := Z.to_nat 0xffff.

Definition uacpi_acquire_global_lock_from_firmware : M uacpi_status :=
  has ← gets_state (fun s => has_global_lock (ctx s));
  if negb has then mret UACPI_STATUS_OK else
  flags ← in_world lock_spinlock;
  r ← acquire_spin spin_fuel 0 flags;
  let '(success, flags) := (r : bool * Z) in
  update_ctx (set_pending false);;
  in_world (unlock_spinlock flags);;
  mret (if (success : bool) then UACPI_STATUS_OK else UACPI_STATUS_HARDWARE_TIMEOUT).

Definition uacpi_release_global_lock_to_firmware : M unit :=
  has ← gets_state (fun s => has_global_lock (ctx s));
  if negb has then mret tt else
  r ← in_world lock_word_seen;
  match do_release_global_lock_to_firmware (fst r) (snd r) with
  | Some (pending, new_value) =>
      in_world (lock_word_store new_value);;
      if (pending : bool) then in_world write_gbl_rls else mret tt
  | None => undefined
  end.

(** ** Native mutexes *)

Definition uacpi_acquire_native_mutex_with_timeout (mtx timeout : Z) : M uacpi_status :=
  if mtx =? 0 then mret UACPI_STATUS_INVALID_ARGUMENT
  else in_world (kernel_acquire_mutex mtx timeout).

Definition uacpi_acquire_native_mutex (mtx : Z) : M uacpi_status :=
  if mtx =? 0 then mret UACPI_STATUS_INVALID_ARGUMENT
  else in_world (kernel_acquire_mutex mtx 0xffff).

Definition uacpi_release_native_mutex (mtx : Z) : M uacpi_status :=
  if mtx =? 0 then mret UACPI_STATUS_INVALID_ARGUMENT
  else in_world (kernel_release_mutex mtx);; mret UACPI_STATUS_OK.

Definition global_lock_handle : M Z :=
  p ← gets_state (fun s => global_lock_mutex (ctx s));
  x ← get_mutex p; mret (handle x).

(** ** The public global lock *)

Definition INIT_LEVEL_SUBSYSTEM_INITIALIZED : Z := 1.

(** The status and the sequence number; [want] tells that out_seq is not null. *)
Definition uacpi_acquire_global_lock (timeout : Z) (want : bool) : M (uacpi_status * Z) :=
  lvl ← gets_state (fun s => init_level (ctx s));
  if lvl <? INIT_LEVEL_SUBSYSTEM_INITIALIZED then mret (UACPI_STATUS_INIT_LEVEL_MISMATCH, 0) else
  if negb want then mret (UACPI_STATUS_INVALID_ARGUMENT, 0) else
  h ← global_lock_handle;
  ret ← uacpi_acquire_native_mutex_with_timeout h timeout;
  if negb (is_ok ret) then mret (ret, 0) else
  ret ← uacpi_acquire_global_lock_from_firmware;
  if negb (is_ok ret) then
    h ← global_lock_handle; uacpi_release_native_mutex h;; mret (ret, 0)
  else
    seq ← gets_state (fun s => global_lock_seq_num (ctx s));
    let seq := if seq =? 0xffffffff then 0 else seq in
    update_ctx (set_seq (u32 (seq + 1)) true);;
    mret (UACPI_STATUS_OK, seq).

Definition uacpi_release_global_lock (seq : Z) : M uacpi_status :=
  lvl ← gets_state (fun s => init_level (ctx s));
  if lvl <? INIT_LEVEL_SUBSYSTEM_INITIALIZED then mret UACPI_STATUS_INIT_LEVEL_MISMATCH else
  acquired ← gets_state (fun s => global_lock_acquired (ctx s));
  num ← gets_state (fun s => global_lock_seq_num (ctx s));
  if negb acquired || negb (seq =? num) then mret UACPI_STATUS_INVALID_ARGUMENT else
  update_ctx (fun c => set_seq (global_lock_seq_num c) false c);;
  uacpi_release_global_lock_to_firmware;;
  h ← global_lock_handle;
  uacpi_release_native_mutex h;;
  mret UACPI_STATUS_OK.

(** ** AML mutexes *)

Definition uacpi_this_thread_owns_aml_mutex (mutex : Z) : M bool :=
  x ← get_mutex mutex;
  id ← gets_state (fun s => get_thread_id (world s));
  mret (owner x =? id).

Definition uacpi_acquire_aml_mutex (mutex timeout : Z) : M uacpi_status :=
  this_id ← gets_state (fun s => get_thread_id (world s));
  x ← get_mutex mutex;
  if owner x =? this_id then
    if depth x =? 0xffff then mret UACPI_STATUS_DENIED else
    put_mutex mutex {| handle := handle x; owner := owner x; depth := u16 (depth x + 1) |};;
    mret UACPI_STATUS_OK
  else
    in_world namespace_write_unlock;;
    ret ← uacpi_acquire_native_mutex_with_timeout (handle x) timeout;
    ret ← (if negb (is_ok ret) then mret ret else
           x ← get_mutex mutex;
           h ← global_lock_handle;
           ret ← (if handle x =? h then uacpi_acquire_global_lock_from_firmware
                  else mret UACPI_STATUS_OK);
           if negb (is_ok ret) then uacpi_release_native_mutex (handle x);; mret ret else
           put_mutex mutex {| handle := handle x; owner := this_id; depth := 1 |};;
           mret UACPI_STATUS_OK);
    in_world namespace_write_lock;;
    mret ret.

Definition uacpi_release_aml_mutex (mutex : Z) : M uacpi_status :=
  x ← get_mutex mutex;
  put_mutex mutex {| handle := handle x; owner := owner x; depth := u16 (depth x - 1) |};;
  if 1 <? depth x then mret UACPI_STATUS_OK else
  h ← global_lock_handle;
  (if handle x =? h then uacpi_release_global_lock_to_firmware else mret tt);;
  x ← get_mutex mutex;
  put_mutex mutex {| handle := handle x; owner := THREAD_ID_NONE; depth := depth x |};;
  uacpi_release_native_mutex (handle x);;
  mret UACPI_STATUS_OK.

(** ** Recursive locks *)

(** Each operation takes the lock's fields and returns their new values. *)
Definition uacpi_recursive_lock_init (l : uacpi_recursive_lock) :
    M (uacpi_status * uacpi_recursive_lock) :=
  h ← in_world kernel_create_mutex;
  match h with
  | None => mret (UACPI_STATUS_OUT_OF_MEMORY,
      {| rl_mutex := 0; rl_depth := rl_depth l; rl_owner := rl_owner l |})
  | Some h => mret (UACPI_STATUS_OK, {| rl_mutex := h; rl_depth := 0; rl_owner := THREAD_ID_NONE |})
  end.

Definition uacpi_recursive_lock_deinit (l : uacpi_recursive_lock) :
    M (uacpi_status * uacpi_recursive_lock) :=
  let depth := if negb (rl_depth l =? 0) then 0 else rl_depth l in
  (if negb (rl_mutex l =? 0) then in_world (kernel_free_mutex (rl_mutex l)) else mret tt);;
  mret (UACPI_STATUS_OK, {| rl_mutex := 0; rl_depth := depth; rl_owner := THREAD_ID_NONE |}).

Definition uacpi_recursive_lock_acquire (l : uacpi_recursive_lock) :
    M (uacpi_status * uacpi_recursive_lock) :=
  this_id ← gets_state (fun s => get_thread_id (world s));
  if rl_owner l =? this_id then
    mret (UACPI_STATUS_OK,
      {| rl_mutex := rl_mutex l; rl_depth := u64 (rl_depth l + 1); rl_owner := rl_owner l |})
  else
    ret ← uacpi_acquire_native_mutex (rl_mutex l);
    if negb (is_ok ret) then mret (ret, l) else
    mret (ret, {| rl_mutex := rl_mutex l; rl_depth := 1; rl_owner := this_id |}).

Definition uacpi_recursive_lock_release (l : uacpi_recursive_lock) :
    M (uacpi_status * uacpi_recursive_lock) :=
  let depth := u64 (rl_depth l - 1) in
  if 1 <? rl_depth l then
    mret (UACPI_STATUS_OK, {| rl_mutex := rl_mutex l; rl_depth := depth; rl_owner := rl_owner l |})
  else
    ret ← uacpi_release_native_mutex (rl_mutex l);
    mret (ret, {| rl_mutex := rl_mutex l; rl_depth := depth; rl_owner := THREAD_ID_NONE |}).
End Locks.
Arguments state W : clear implicits.

(** ** The lock word shared with the firmware

    The compare-and-swap loops, the waiting protocol of
    [uacpi_acquire_global_lock_from_firmware] and the interrupt handler
    [handle_global_lock] of event.c, interleaved with a firmware that follows the
    protocol ACPI prescribes for it: it takes the lock only when the owned bit is
    clear, sets the pending bit otherwise, and on release clears both bits and
    raises the release interrupt when the pending bit was set.  One OS thread at a
    time runs the protocol (the native mutex of the lock sees to that). *)

Module Firmware.

Inductive os_pc :=
  | Idle
  | Acquiring (value : Z)      (* in the acquisition loop; the spinlock is held *)
  | Failed                     (* the loop found an owner; the spinlock is held *)
  | Waiting                    (* blocked on the event; the spinlock is free *)
  | Owning
  | Releasing (value : Z).     (* in the release loop *)

Record system := {
  word : Z;               (* facs->global_lock *)
  os : os_pc;
  fw_owns : bool;
  irq : bool;             (* release interrupt raised, handler not run yet *)
  pending_flag : bool;    (* g_uacpi_rt_ctx.global_lock_pending *)
  event : bool            (* g_uacpi_rt_ctx.global_lock_event is signalled *)
}.

Definition spinlock_held (p : os_pc) : bool :=
  match p with Acquiring _ | Failed => true | _ => false end.

Definition holds (p : os_pc) : bool :=
  match p with Owning | Releasing _ => true | _ => false end.

Definition pending_bit (v : Z) : bool := negb (Z.land v GLOBAL_LOCK_PENDING =? 0).

Definition set_os (p : os_pc) (s : system) : system :=
  {| word := word s; os := p; fw_owns := fw_owns s; irq := irq s;
     pending_flag := pending_flag s; event := event s |}.

Inductive fw_step : system -> system -> Prop :=
  (* value = *(volatile uacpi_u32 * )lock *)
  | os_read s : os s = Idle -> fw_step s (set_os (Acquiring (word s)) s)
  (* the exchange fails and reloads value *)
  | os_cas_fail s v : os s = Acquiring v -> word s <> v -> fw_step s (set_os (Acquiring (word s)) s)
  | os_cas_owned s v : os s = Acquiring v -> word s = v -> was_owned v = true ->
      fw_step s {| word := acquire_value v; os := Failed; fw_owns := fw_owns s; irq := irq s;
                pending_flag := pending_flag s; event := event s |}
  | os_cas_ok s v : os s = Acquiring v -> word s = v -> was_owned v = false ->
      fw_step s {| word := acquire_value v; os := Owning; fw_owns := fw_owns s; irq := irq s;
                pending_flag := false; event := event s |}
  (* spins == 0xFFFF *)
  | os_give_up s : os s = Failed ->
      fw_step s {| word := word s; os := Idle; fw_owns := fw_owns s; irq := irq s;
                pending_flag := false; event := event s |}
  | os_wait s : os s = Failed ->
      fw_step s {| word := word s; os := Waiting; fw_owns := fw_owns s; irq := irq s;
                pending_flag := true; event := event s |}
  (* the event arrives and the lock word is read again *)
  | os_wake s : os s = Waiting -> event s = true ->
      fw_step s {| word := word s; os := Acquiring (word s); fw_owns := fw_owns s; irq := irq s;
                pending_flag := pending_flag s; event := false |}
  | os_release_read s : os s = Owning -> fw_step s (set_os (Releasing (word s)) s)
  | os_release_fail s v : os s = Releasing v -> word s <> v ->
      fw_step s (set_os (Releasing (word s)) s)
  | os_release_ok s v : os s = Releasing v -> word s = v ->
      fw_step s {| word := release_value v; os := Idle; fw_owns := fw_owns s; irq := irq s;
                pending_flag := pending_flag s; event := event s |}
  (* handle_global_lock, under the spinlock *)
  | handler s : irq s = true -> spinlock_held (os s) = false ->
      fw_step s {| word := word s; os := os s; fw_owns := fw_owns s; irq := false;
                pending_flag := false;
                event := if pending_flag s then true else event s |}
  | fw_acquire s : was_owned (word s) = false ->
      fw_step s {| word := acquire_value (word s); os := os s; fw_owns := true; irq := irq s;
                pending_flag := pending_flag s; event := event s |}
  | fw_contend s : was_owned (word s) = true -> fw_owns s = false ->
      fw_step s {| word := acquire_value (word s); os := os s; fw_owns := false; irq := irq s;
                pending_flag := pending_flag s; event := event s |}
  | fw_release s : fw_owns s = true ->
      fw_step s {| word := release_value (word s); os := os s; fw_owns := false;
                irq := irq s || pending_bit (word s); pending_flag := pending_flag s;
                event := event s |}.

Definition start (w : Z) : system :=
  {| word := w; os := Idle; fw_owns := false; irq := false; pending_flag := false; event := false |}.

End Firmware.

(** ** Lemmas: the lock word *)

Lemma was_owned_bit v : was_owned v = Z.testbit v 1.
Proof.
  unfold was_owned, GLOBAL_LOCK_OWNED, GLOBAL_LOCK_OWNED_BIT.
  rewrite Z.shiftr_land, (Z.testbit_odd v 1).
  change (Z.shiftr 2 1) with (Z.ones 1); rewrite Z.land_ones by lia.
  change (2 ^ 1) with 2; rewrite Zmod_odd; destruct (Z.odd _); reflexivity.
Qed.

Lemma pending_bit_bit v : Firmware.pending_bit v = Z.testbit v 0.
Proof.
  unfold Firmware.pending_bit, GLOBAL_LOCK_PENDING; change 1 with (Z.ones 1) at 1.
  rewrite Z.land_ones by lia; change (2 ^ 1) with 2.
  rewrite Zmod_odd, Z.bit0_odd; destruct (Z.odd v); reflexivity.
Qed.

Lemma lock_mask_testbit i : 0 <= i ->
  Z.testbit (u32 (Z.lnot GLOBAL_LOCK_MASK)) i = (i <? 32) && (2 <=? i).
Proof.
  intros; change GLOBAL_LOCK_MASK with (Z.ones 2); bits_simpl.
  bool_cases; reflexivity.
Qed.

Lemma release_value_bit v i : 0 <= i ->
  Z.testbit (release_value v) i = (i <? 32) && (2 <=? i) && Z.testbit v i.
Proof.
  intros; unfold release_value; rewrite Z.land_spec, lock_mask_testbit by assumption; btauto.
Qed.

Lemma acquire_value_bit v i : 0 <= i ->
  Z.testbit (acquire_value v) i =
  if i =? 0 then Z.testbit v 1 else if i =? 1 then true else (i <? 32) && Z.testbit v i.
Proof.
  intros Hi; unfold acquire_value; rewrite was_owned_bit.
  change GLOBAL_LOCK_OWNED with (2 ^ 1); change GLOBAL_LOCK_PENDING with (2 ^ 0).
  destruct (Z.testbit v 1); rewrite !Z.lor_spec, Z.land_spec, lock_mask_testbit, !pow2_testbit by lia;
    bool_cases; rewrite ?andb_true_r, ?andb_false_r, ?orb_false_r, ?orb_true_r; reflexivity.
Qed.

Lemma lock_values_nonneg v : 0 <= v -> 0 <= acquire_value v /\ 0 <= release_value v.
Proof.
  intros Hv; unfold acquire_value, release_value.
  assert (H : 0 <= Z.land v (u32 (Z.lnot GLOBAL_LOCK_MASK))) by (apply Z.land_nonneg; left; lia).
  split; [|exact H]; destruct (was_owned v); rewrite ?Z.lor_nonneg; repeat split; try exact H;
    discriminate.
Qed.

(** A loop that ends replaced a value the word really held, with its image. *)
Lemma cas_loop_spec f seen : forall value r, cas_loop f value seen = Some r ->
  exists old, r = (old, f old) /\ old ∈ seen.
Proof.
  induction seen as [|cur seen IH]; intros value r; cbn [cas_loop]; [discriminate|].
  destruct (Z.eqb_spec cur value) as [->|Hne].
  - intros [= <-]; exists value; split; [reflexivity|left].
  - intros E; destruct (IH _ _ E) as (old & ? & ?); exists old; split; [assumption|right; assumption].
Qed.

(** A loop ends as soon as the word keeps its value between two attempts. *)
Lemma cas_loop_ends f pre : forall value v post,
  exists r, cas_loop f value (pre ++ v :: v :: post) = Some r.
Proof.
  induction pre as [|cur pre IH]; intros value v post; cbn [app cas_loop].
  - rewrite Z.eqb_refl; destruct (v =? value); eauto.
  - destruct (cur =? value); [eauto|apply IH].
Qed.

Module Exclusion.
Import Firmware.

(** The waiting thread is woken: the event is set, or the handler will set it, or
    the firmware still owns the lock and is to raise the interrupt. *)
Definition woken (s : system) : Prop :=
  irq s = true \/ fw_owns s = true /\ pending_bit (word s) = true.

Definition wait_inv (s : system) : Prop :=
  match os s with
  | Failed => woken s
  | Waiting => event s = true \/ pending_flag s = true /\ woken s
  | _ => True
  end.

Record inv (w0 : Z) (s : system) : Prop := {
  inv_upper : forall i, 2 <= i < 32 -> Z.testbit (word s) i = Z.testbit w0 i;
  inv_owned : Z.testbit (word s) 1 = fw_owns s || holds (os s);
  inv_excl : fw_owns s && holds (os s) = false;
  inv_wait : wait_inv s
}.

Lemma acquire_upper v i : 2 <= i < 32 -> Z.testbit (acquire_value v) i = Z.testbit v i.
Proof. intros; rewrite acquire_value_bit by lia; bool_cases; reflexivity. Qed.

Lemma release_upper v i : 2 <= i < 32 -> Z.testbit (release_value v) i = Z.testbit v i.
Proof. intros; rewrite release_value_bit by lia; bool_cases; reflexivity. Qed.

Lemma acquire_low v : Z.testbit (acquire_value v) 1 = true /\
  Z.testbit (acquire_value v) 0 = Z.testbit v 1.
Proof. rewrite !acquire_value_bit by lia; split; reflexivity. Qed.

Lemma release_low v : Z.testbit (release_value v) 1 = false.
Proof. rewrite release_value_bit by lia; reflexivity. Qed.

#[local] Arguments Z.testbit : simpl never.

(** Reduce a goal about one step to the two low bits of the words it mentions. *)
Ltac lockword :=
  unfold wait_inv, woken in *; rewrite ?was_owned_bit, ?pending_bit_bit in *; simpl in *;
  repeat match goal with
  | H : os ?s = _ |- _ => rewrite H in *; clear H
  end; simpl in *.

Ltac cases_of s :=
  destruct (fw_owns s), (os s), (pending_flag s), (irq s), (event s); simpl in *;
  try congruence; try tauto.

Lemma fw_step_inv w0 s s' : inv w0 s -> fw_step s s' -> inv w0 s'.
Proof.
  intros [Hu Ho He Hw] Hs.
  destruct (acquire_low (word s)) as [A1 A0]; pose proof (release_low (word s)) as R1.
  destruct Hs; subst; constructor; simpl; try (intros i Hi);
    rewrite ?acquire_upper, ?release_upper by assumption; try (apply Hu; assumption);
    lockword; rewrite ?A1, ?A0, ?R1 in *; try congruence; try tauto.
  all: cases_of s; intuition congruence.
Qed.

Lemma fw_reach_inv w0 s : was_owned w0 = false -> rtc fw_step (start w0) s -> inv w0 s.
Proof.
  intros Hw H; assert (H0 : inv w0 (start w0)).
  { rewrite was_owned_bit in Hw; constructor; auto; exact I. }
  revert H0; induction H; eauto using fw_step_inv.
Qed.
End Exclusion.

(** ** Lemmas: what the operations leave alone *)

Section Frames.
Context {W : Type} {MK : MutexKernel W}.

(** Everything but the pending flag and the kernel. *)
Definition only_pending (s s' : state W) : Prop :=
  mutexes s' = mutexes s /\ set_pending false (ctx s') = set_pending false (ctx s).

#[export] Instance only_pending_refl : Reflexive only_pending.
Proof. intros s; split; reflexivity. Qed.
#[export] Instance only_pending_trans : Transitive only_pending.
Proof. intros s1 s2 s3 [] []; split; congruence. Qed.

Lemma in_world_only {A} (c : SM W A) : steps only_pending (in_world c).
Proof.
  intros s a s'; unfold in_world; destruct (c (world s)) as [[b w]|]; [|discriminate].
  intros [= <- <-]; split; reflexivity.
Qed.

Lemma set_pending_only b : steps only_pending (update_ctx (W := W) (set_pending b)).
Proof. intros s a s' [= <- <-]; split; reflexivity. Qed.

#[local] Hint Resolve in_world_only set_pending_only : steps.
#[local] Hint Extern 1 (Reflexive _) => apply _ : steps.
#[local] Hint Extern 1 (Transitive _) => apply _ : steps.

Lemma try_acquire_only : steps only_pending try_acquire.
Proof.
  unfold try_acquire; apply steps_bind; [apply _|auto with steps|intros [v l]].
  destruct (try_acquire_global_lock_from_firmware _ _) as [[b n]|]; eauto 6 with steps.
Qed.

Lemma acquire_spin_only fuel : forall spins flags, steps only_pending (acquire_spin fuel spins flags).
Proof.
  induction fuel as [|fuel IH]; intros spins flags; cbn [acquire_spin]; [auto with steps|].
  apply steps_bind; [apply _|apply try_acquire_only|intros [|]]; eauto 12 with steps.
Qed.

Lemma acquire_firmware_only : steps only_pending uacpi_acquire_global_lock_from_firmware.
Proof.
  unfold uacpi_acquire_global_lock_from_firmware.
  apply steps_bind; [apply _|auto with steps|intros b; apply steps_if; [auto with steps|]].
  apply steps_bind; [apply _|auto with steps|intros flags].
  apply steps_bind; [apply _|apply acquire_spin_only|intros [c f]]; eauto 8 with steps.
Qed.

Lemma release_firmware_only : steps only_pending uacpi_release_global_lock_to_firmware.
Proof.
  unfold uacpi_release_global_lock_to_firmware.
  apply steps_bind; [apply _|auto with steps|intros b; apply steps_if; [auto with steps|]].
  apply steps_bind; [apply _|auto with steps|intros [v l]].
  destruct (do_release_global_lock_to_firmware _ _) as [[c n]|]; eauto 6 with steps.
Qed.
End Frames.

(** ** What the kernel promises *)

(** A kernel call returns, and the caller is still the same thread. *)
Definition well_behaved {W A} {MK : MutexKernel W} (c : SM W A) : Prop :=
  forall w, exists a w', c w = Some (a, w') /\ get_thread_id w' = get_thread_id w.

Class MutexKernelLaws (W : Type) {MK : MutexKernel W} := {
  acquire_behaves h t : well_behaved (kernel_acquire_mutex h t);
  release_behaves h : well_behaved (kernel_release_mutex h);
  lock_behaves : well_behaved lock_spinlock;
  unlock_behaves f : well_behaved (unlock_spinlock f);
  wait_behaves : well_behaved wait_for_global_lock_event;
  store_behaves v : well_behaved (lock_word_store v);
  rls_behaves : well_behaved write_gbl_rls;
  ns_lock_behaves : well_behaved namespace_write_lock;
  ns_unlock_behaves : well_behaved namespace_write_unlock;
  seen_behaves : well_behaved lock_word_seen;
  (** the lock word does not change for ever between attempts *)
  seen_settles w v l w' : lock_word_seen w = Some ((v, l), w') ->
    exists pre x post, l = pre ++ x :: x :: post
}.

Section Correct.
Context {W : Type} {MK : MutexKernel W} {ML : MutexKernelLaws W}.

Definition me (s : state W) : Z := get_thread_id (world s).

(** [c] returns, with the same thread running and a result that satisfies [Q]. *)
Definition returns {A} (c : SM (state W) A) (Q : A -> state W -> Prop) (s : state W) : Prop :=
  exists a s', c s = Some (a, s') /\ me s' = me s /\ Q a s'.

Lemma returns_bind {A B} (c : SM (state W) A) (k : A -> SM (state W) B) Q s :
  returns c (fun a s1 => returns (k a) Q s1) s -> returns (mbind k c) Q s.
Proof.
  intros (a & s1 & E & Hm & b & s2 & E2 & Hm2 & HQ); exists b, s2.
  rewrite (SM_bind_Some _ _ _ _ _ E); repeat split; [assumption|congruence|assumption].
Qed.

Lemma returns_ret {A} (a : A) (Q : A -> state W -> Prop) s : Q a s -> returns (mret a) Q s.
Proof. intros H; exists a, s; repeat split; assumption. Qed.

Lemma returns_gets {A} (f : state W -> A) (Q : A -> state W -> Prop) s :
  Q (f s) s -> returns (gets_state f) Q s.
Proof. intros H; exists (f s), s; repeat split; assumption. Qed.

Lemma returns_update f (Q : unit -> state W -> Prop) s :
  Q tt {| ctx := f (ctx s); mutexes := mutexes s; world := world s |} -> returns (update_ctx f) Q s.
Proof. intros H; eexists _, _; split; [reflexivity|split; [reflexivity|exact H]]. Qed.

Lemma returns_put p x (Q : unit -> state W -> Prop) s :
  Q tt {| ctx := ctx s; mutexes := <[p := x]> (mutexes s); world := world s |} ->
  returns (put_mutex p x) Q s.
Proof. intros H; eexists _, _; split; [reflexivity|split; [reflexivity|exact H]]. Qed.

Lemma returns_get p x (Q : uacpi_mutex -> state W -> Prop) s :
  mutexes s !! p = Some x -> Q x s -> returns (get_mutex p) Q s.
Proof.
  intros E H; exists x, s; unfold get_mutex; rewrite E; repeat split; assumption.
Qed.

Lemma returns_world {A} (c : SM W A) (Q : A -> state W -> Prop) s : well_behaved c ->
  (forall a w, c (world s) = Some (a, w) -> Q a {| ctx := ctx s; mutexes := mutexes s; world := w |}) ->
  returns (in_world c) Q s.
Proof.
  intros Hc H; destruct (Hc (world s)) as (a & w & E & Et).
  exists a, {| ctx := ctx s; mutexes := mutexes s; world := w |}; unfold in_world; rewrite E.
  repeat split; [exact Et|apply H, E].
Qed.

Lemma returns_impl {A} (c : SM (state W) A) (Q Q' : A -> state W -> Prop) s :
  returns c Q s -> (forall a s', Q a s' -> Q' a s') -> returns c Q' s.
Proof. intros (a & s' & E & Hm & HQ) H; exists a, s'; auto. Qed.

(** A computation within a frame. *)
Lemma returns_steps {A} (c : SM (state W) A) R (Q : A -> state W -> Prop) s :
  steps R c -> returns c Q s -> returns c (fun a s' => Q a s' /\ R s s') s.
Proof. intros HR (a & s' & E & Hm & HQ); exists a, s'; eauto. Qed.

Create HintDb behaves discriminated.
#[local] Hint Resolve acquire_behaves release_behaves lock_behaves unlock_behaves wait_behaves
  store_behaves rls_behaves ns_lock_behaves ns_unlock_behaves seen_behaves : behaves.

(** One step of a computation. *)
Ltac rstep :=
  first [ apply returns_ret | apply returns_bind; rstep
        | apply returns_gets | apply returns_update | apply returns_put
        | apply returns_world; [auto with behaves|intros ? ? ?] ]; cbv beta.

Lemma try_acquire_returns s : returns try_acquire (fun _ _ => True) s.
Proof.
  unfold try_acquire; apply returns_bind, returns_world; [auto with behaves|].
  intros [v l] w E; destruct (seen_settles _ _ _ _ E) as (pre & x & post & ->); simpl fst; simpl snd.
  unfold try_acquire_global_lock_from_firmware.
  destruct (cas_loop_ends acquire_value pre v x post) as [r ->]; simpl.
  rstep; rstep; exact I.
Qed.

(** The loop gives up after 0xFFFF attempts: the fuel is enough. *)
Lemma acquire_spin_returns fuel : forall spins flags s,
  0 <= spins < 0xffff -> spins + Z.of_nat fuel = 0xffff ->
  returns (acquire_spin fuel spins flags) (fun _ _ => True) s.
Proof.
  induction fuel as [|fuel IH]; intros spins flags s Hs Hf; [simpl in Hf; lia|].
  rewrite Nat2Z.inj_succ in Hf; cbn [acquire_spin].
  rewrite (wrap_id 16 (spins + 1)) by (unfold in_w; lia); apply returns_bind.
  eapply returns_impl; [apply try_acquire_returns|]; intros [|] s1 _; [rstep; exact I|].
  destruct (Z.eqb_spec (spins + 1) 0xffff); [rstep; exact I|].
  do 4 rstep; apply IH; lia.
Qed.

Lemma acquire_firmware_returns s :
  returns uacpi_acquire_global_lock_from_firmware (fun ret s' =>
    (ret = UACPI_STATUS_OK \/ ret = UACPI_STATUS_HARDWARE_TIMEOUT) /\ only_pending s s') s.
Proof.
  apply returns_steps; [apply acquire_firmware_only|].
  unfold uacpi_acquire_global_lock_from_firmware; rstep.
  destruct (has_global_lock (ctx s)); simpl negb; [|rstep; auto].
  rstep; apply returns_bind.
  eapply returns_impl; [apply acquire_spin_returns; [lia|reflexivity]|]; intros [b f] s1 _.
  do 3 rstep; destruct b; auto.
Qed.

Lemma release_firmware_returns s :
  returns uacpi_release_global_lock_to_firmware (fun _ s' => only_pending s s') s.
Proof.
  apply returns_impl with (fun _ s' => True /\ only_pending s s'); [|intros ? ? []; assumption].
  apply returns_steps; [apply release_firmware_only|].
  unfold uacpi_release_global_lock_to_firmware; rstep.
  destruct (has_global_lock (ctx s)); simpl negb; [|rstep; exact I].
  apply returns_bind, returns_world; [auto with behaves|]; intros [v l] w E.
  destruct (seen_settles _ _ _ _ E) as (pre & x & post & ->); simpl fst; simpl snd.
  unfold do_release_global_lock_to_firmware.
  destruct (cas_loop_ends release_value pre v x post) as [r ->]; simpl.
  rstep; destruct (negb _); rstep; exact I.
Qed.

(** *** AML mutexes *)

(** The global lock's mutex exists. *)
Definition has_lock_mutex (s : state W) : Prop := is_Some (mutexes s !! global_lock_mutex (ctx s)).

Lemma global_lock_handle_returns (Q : Z -> state W -> Prop) s :
  has_lock_mutex s -> (forall h, Q h s) -> returns global_lock_handle Q s.
Proof.
  intros [y Ey] H; unfold global_lock_handle; rstep.
  apply returns_bind; eapply returns_get; [exact Ey|]; apply returns_ret, H.
Qed.

Lemma native_acquire_returns h t s :
  returns (uacpi_acquire_native_mutex_with_timeout h t) (fun _ s' => only_pending s s') s.
Proof.
  unfold uacpi_acquire_native_mutex_with_timeout; destruct (h =? 0); rstep; split; reflexivity.
Qed.

Lemma native_release_returns h s :
  returns (uacpi_release_native_mutex h) (fun _ s' => only_pending s s') s.
Proof.
  unfold uacpi_release_native_mutex; destruct (h =? 0); repeat rstep; split; reflexivity.
Qed.

Lemma only_pending_mutex (s s' : state W) p : only_pending s s' -> mutexes s' !! p = mutexes s !! p.
Proof. intros [-> _]; reflexivity. Qed.

Lemma only_pending_lock (s s' : state W) : only_pending s s' -> has_lock_mutex s -> has_lock_mutex s'.
Proof.
  unfold has_lock_mutex; intros [-> E]; destruct (ctx s), (ctx s'); inversion E; subst; auto.
Qed.

Definition owned_by (x : uacpi_mutex) (id d : Z) : uacpi_mutex :=
  {| handle := handle x; owner := id; depth := d |}.

Definition set_mutex (p : Z) (x : uacpi_mutex) (s : state W) : state W :=
  {| ctx := ctx s; mutexes := <[p := x]> (mutexes s); world := world s |}.

(** The result of the first acquisition by a thread. *)
Definition first_post (s : state W) (p : Z) (x : uacpi_mutex) (ret : uacpi_status) (s' : state W) :
    Prop :=
  mutexes s' = (if is_ok ret then <[p := owned_by x (me s) 1]> (mutexes s) else mutexes s) /\
  has_lock_mutex s'.

(** The native mutex is held: take the firmware lock if the mutex is the global one. *)
Lemma aml_take_returns s s1 p x :
  mutexes s !! p = Some x -> has_lock_mutex s1 -> mutexes s1 = mutexes s ->
  returns (x ← get_mutex p; h ← global_lock_handle;
    ret ← (if handle x =? h then uacpi_acquire_global_lock_from_firmware else mret UACPI_STATUS_OK);
    if negb (is_ok ret) then uacpi_release_native_mutex (handle x);; mret ret else
    put_mutex p {| handle := handle x; owner := me s; depth := 1 |};; mret UACPI_STATUS_OK)
    (first_post s p x) s1.
Proof.
  intros Ex Hg Em; apply returns_bind; eapply returns_get; [rewrite Em; exact Ex|].
  apply returns_bind, global_lock_handle_returns; [assumption|intros h].
  apply returns_bind, returns_impl with (fun _ s2 => only_pending s1 s2).
  { destruct (handle x =? h); [|apply returns_ret; reflexivity].
    eapply returns_impl; [apply acquire_firmware_returns|]; intros ? ? []; assumption. }
  intros ret s2 H2; pose proof (only_pending_lock _ _ H2 Hg) as Hg2; destruct H2 as [E2 _].
  destruct (is_ok ret) eqn:Eo; simpl negb.
  - do 2 rstep; split; simpl; [rewrite E2, Em; reflexivity|].
    unfold has_lock_mutex; simpl; apply lookup_insert_is_Some'; right; exact Hg2.
  - apply returns_bind; eapply returns_impl; [apply native_release_returns|].
    intros ? s3 H3; rstep; split; [rewrite Eo; destruct H3; congruence|].
    eapply only_pending_lock; [exact H3|exact Hg2].
Qed.

Lemma aml_acquire_first s p x timeout :
  mutexes s !! p = Some x -> has_lock_mutex s -> owner x <> me s ->
  returns (uacpi_acquire_aml_mutex p timeout) (first_post s p x) s.
Proof.
  intros Ex Hg Ho; unfold uacpi_acquire_aml_mutex; rstep.
  apply returns_bind; eapply returns_get; [exact Ex|]; cbv beta.
  destruct (Z.eqb_spec (owner x) (get_thread_id (world s))) as [E|_]; [elim Ho; exact E|].
  rstep; apply returns_bind; eapply returns_impl; [apply native_acquire_returns|].
  intros ret s1 H1; apply returns_bind, returns_impl with (first_post s p x).
  - destruct (is_ok ret) eqn:Eo; simpl negb.
    + apply aml_take_returns; [assumption|eapply only_pending_lock; [exact H1|exact Hg]|].
      destruct H1; assumption.
    + apply returns_ret; split; [rewrite Eo; destruct H1; assumption|].
      eapply only_pending_lock; [exact H1|exact Hg].
  - intros ret' s2 H2; do 2 rstep; exact H2.
Qed.

(** Run [c] up to [n] times, stopping at the first error. *)
Fixpoint repeat_ok {S} (n : nat) (c : SM S uacpi_status) : SM S uacpi_status :=
  match n with O => mret UACPI_STATUS_OK | S n' => try_ok c (repeat_ok n' c) end.

(** A thread that owns the mutex only counts. *)
Lemma aml_acquire_nested s p x timeout : mutexes s !! p = Some x -> owner x = me s ->
  0 <= depth x <= 0xffff ->
  uacpi_acquire_aml_mutex p timeout s =
  if depth x =? 0xffff then Some (UACPI_STATUS_DENIED, s)
  else Some (UACPI_STATUS_OK, set_mutex p (owned_by x (me s) (depth x + 1)) s).
Proof.
  intros Ex Eo Hd; unfold uacpi_acquire_aml_mutex, get_mutex, put_mutex; smunfold.
  rewrite Ex, Eo; unfold me; rewrite Z.eqb_refl; destruct (Z.eqb_spec (depth x) 0xffff); [reflexivity|].
  rewrite wrap_id by (unfold in_w; lia); reflexivity.
Qed.

Lemma set_mutex_twice p x y s : set_mutex p x (set_mutex p y s) = set_mutex p x s.
Proof. unfold set_mutex; simpl; rewrite insert_insert_eq; reflexivity. Qed.

Lemma aml_acquire_again n : forall s p x timeout, mutexes s !! p = Some x -> owner x = me s ->
  0 <= depth x -> depth x + Z.of_nat n <= 0xffff ->
  repeat_ok n (uacpi_acquire_aml_mutex p timeout) s =
  Some (UACPI_STATUS_OK, set_mutex p (owned_by x (me s) (depth x + Z.of_nat n)) s).
Proof.
  induction n as [|n IH]; intros s p x timeout Ex Eo Hd Hn; cbn [repeat_ok].
  - rewrite Z.add_0_r, <- Eo; destruct s as [c m w], x as [h o d]; unfold set_mutex, owned_by; simpl in *.
    rewrite insert_id by assumption; reflexivity.
  - rewrite Nat2Z.inj_succ in *; erewrite try_ok_ok.
    2:{ rewrite (aml_acquire_nested s p x) by (assumption || lia).
        destruct (Z.eqb_spec (depth x) 0xffff); [lia|reflexivity]. }
    erewrite IH; [|apply lookup_insert_eq|reflexivity|simpl; lia|simpl; lia].
    rewrite set_mutex_twice; unfold owned_by; simpl; do 4 f_equal; lia.
Qed.

Lemma aml_release_again n : forall s p x, mutexes s !! p = Some x ->
  1 <= depth x -> depth x + Z.of_nat n <= 0xffff ->
  repeat_ok n (uacpi_release_aml_mutex p)
    (set_mutex p (owned_by x (owner x) (depth x + Z.of_nat n)) s) = Some (UACPI_STATUS_OK, s).
Proof.
  induction n as [|n IH]; intros s p x Ex Hd Hn; cbn [repeat_ok].
  - rewrite Z.add_0_r; destruct s as [c m w], x as [h o d]; unfold set_mutex, owned_by; simpl in *.
    rewrite insert_id by assumption; reflexivity.
  - rewrite Nat2Z.inj_succ in *; erewrite try_ok_ok; [apply (IH s p x); assumption || lia|].
    unfold uacpi_release_aml_mutex, get_mutex, put_mutex, set_mutex at 1; smunfold; simpl.
    rewrite lookup_insert_eq; simpl; rewrite insert_insert_eq.
    destruct (Z.ltb_spec 1 (depth x + Z.succ (Z.of_nat n))); [|lia].
    rewrite wrap_id by (unfold in_w; lia); unfold set_mutex, owned_by; simpl.
    do 5 f_equal; lia.
Qed.

Lemma aml_release_last s p x : mutexes s !! p = Some x -> depth x = 1 -> has_lock_mutex s ->
  returns (uacpi_release_aml_mutex p) (fun ret s' => ret = UACPI_STATUS_OK /\
    mutexes s' = <[p := owned_by x THREAD_ID_NONE 0]> (mutexes s)) s.
Proof.
  intros Ex Ed Hg; unfold uacpi_release_aml_mutex.
  apply returns_bind; eapply returns_get; [exact Ex|]; cbv beta; rstep.
  rewrite Ed; change (1 <? 1) with false; cbv iota.
  apply returns_bind, global_lock_handle_returns.
  { unfold has_lock_mutex; simpl; apply lookup_insert_is_Some'; right; exact Hg. }
  intros h; set (s1 := Build_state _ _ _).
  apply returns_bind, returns_impl with (fun _ s2 => only_pending s1 s2).
  { destruct (handle x =? h); [apply release_firmware_returns|apply returns_ret; reflexivity]. }
  intros ? s2 [E2 _]; apply returns_bind; eapply returns_get.
  { rewrite E2; apply lookup_insert_eq. }
  cbv beta; rstep; apply returns_bind; eapply returns_impl; [apply native_release_returns|].
  intros ? s3 [E3 _]; rstep; split; [reflexivity|].
  rewrite E3; simpl; rewrite E2; simpl; rewrite insert_insert_eq; reflexivity.
Qed.

(** An AML mutex nests and unwinds.  When a thread that does not own the mutex
    asks for it, a failure (a timeout, or a firmware lock that cannot be had) leaves
    every mutex as it was; success makes the thread the owner at depth one.  From
    there up to 65534 further acquisitions only raise the depth and call nothing in
    the kernel, one more is denied and changes nothing, as many releases bring the
    first state back exactly, and the last release gives the mutex up. *)
Theorem aml_mutex_nesting s p x timeout :
  mutexes s !! p = Some x -> has_lock_mutex s -> owner x <> me s ->
  exists ret s1, uacpi_acquire_aml_mutex p timeout s = Some (ret, s1) /\ me s1 = me s /\
    (ret <> UACPI_STATUS_OK -> mutexes s1 = mutexes s) /\
    (ret = UACPI_STATUS_OK ->
       mutexes s1 = <[p := owned_by x (me s) 1]> (mutexes s) /\
       (forall n, Z.of_nat n <= 65534 ->
          let s2 := set_mutex p (owned_by x (me s) (1 + Z.of_nat n)) s1 in
          repeat_ok n (uacpi_acquire_aml_mutex p timeout) s1 = Some (UACPI_STATUS_OK, s2) /\
          (Z.of_nat n = 65534 ->
             uacpi_acquire_aml_mutex p timeout s2 = Some (UACPI_STATUS_DENIED, s2)) /\
          repeat_ok n (uacpi_release_aml_mutex p) s2 = Some (UACPI_STATUS_OK, s1)) /\
       exists s3, uacpi_release_aml_mutex p s1 = Some (UACPI_STATUS_OK, s3) /\
          mutexes s3 = <[p := owned_by x THREAD_ID_NONE 0]> (mutexes s)).
Proof.
  intros Ex Hg Ho; destruct (aml_acquire_first s p x timeout Ex Hg Ho) as (ret & s1 & E & Em & E1 & Hg1).
  exists ret, s1; split; [exact E|split; [exact Em|split]].
  { intros Hr; destruct ret; try contradiction; exact E1. }
  intros ->; simpl in E1; split; [exact E1|].
  assert (Ex1 : mutexes s1 !! p = Some (owned_by x (me s) 1)) by (rewrite E1; apply lookup_insert_eq).
  split.
  - intros n Hn s2; repeat split.
    + rewrite (aml_acquire_again n s1 p _ timeout Ex1); simpl; [|congruence|lia|lia].
      rewrite Em; reflexivity.
    + intros En; unfold s2; rewrite (aml_acquire_nested _ p (owned_by x (me s) (1 + Z.of_nat n)));
        [rewrite En; reflexivity|apply lookup_insert_eq|symmetry; exact Em|simpl; lia].
    + apply (aml_release_again n s1 p _ Ex1); simpl; lia.
  - destruct (aml_release_last s1 p _ Ex1 eq_refl Hg1) as (r & s3 & E3 & _ & -> & Hm).
    exists s3; split; [exact E3|rewrite Hm, E1, insert_insert_eq; reflexivity].
Qed.
End Correct.

(** ** The sequence number *)

Section SeqNumber.
Context {W : Type} {MK : MutexKernel W}.

Lemma native_acquire_only h t : steps only_pending (uacpi_acquire_native_mutex_with_timeout h t).
Proof.
  unfold uacpi_acquire_native_mutex_with_timeout; apply steps_if;
    [apply steps_ret, _|apply in_world_only].
Qed.

Lemma acquire_global_lock_seq timeout (s s' : state W) seq :
  in_w 32 (global_lock_seq_num (ctx s)) ->
  uacpi_acquire_global_lock timeout true s = Some ((UACPI_STATUS_OK, seq), s') ->
  init_level (ctx s') = init_level (ctx s) /\ INIT_LEVEL_SUBSYSTEM_INITIALIZED <= init_level (ctx s) /\
  global_lock_seq_num (ctx s') = seq + 1.
Proof.
  intros Hn; unfold uacpi_acquire_global_lock; cbn [negb]; intros E.
  apply SM_bind_inv in E as (lvl & s1 & [= <- <-] & E).
  destruct (Z.ltb_spec (init_level (ctx s)) INIT_LEVEL_SUBSYSTEM_INITIALIZED); [discriminate|].
  apply SM_bind_inv in E as (h & s1 & Eh & E); unfold global_lock_handle in Eh.
  apply SM_bind_inv in Eh as (p & s2 & [= <- <-] & Eh); apply SM_bind_inv in Eh as (x & s2 & Eg & [= _ <-]).
  assert (s2 = s) as -> by (revert Eg; unfold get_mutex; destruct (mutexes s !! _); congruence).
  apply SM_bind_inv in E as (ret & s3 & E3 & E); apply native_acquire_only in E3.
  destruct (is_ok ret) eqn:Er; cbn [negb] in E; [|destruct ret; discriminate].
  apply SM_bind_inv in E as (ret4 & s4 & E4 & E); apply acquire_firmware_only in E4.
  destruct (is_ok ret4) eqn:Er4; cbn [negb] in E.
  2:{ apply SM_bind_inv in E as (? & ? & _ & E); apply SM_bind_inv in E as (? & ? & _ & E).
      destruct ret4; discriminate. }
  assert (Hc : init_level (ctx s4) = init_level (ctx s) /\
               global_lock_seq_num (ctx s4) = global_lock_seq_num (ctx s)).
  { destruct (transitivity E3 E4) as [_ Ec], (ctx s4), (ctx s); inversion Ec; subst; auto. }
  destruct Hc as [Hl Hq]; revert E; smunfold; unfold update_ctx; smunfold; rewrite Hq.
  intros [= <- <-]; simpl; split; [exact Hl|split; [lia|]].
  destruct (Z.eqb_spec (global_lock_seq_num (ctx s)) 0xffffffff); [reflexivity|].
  apply wrap_id; unfold in_w in *; lia.
Qed.

(** The sequence number that a successful acquisition hands out is one behind the
    one a release expects: releasing with it is always refused, and the lock stays
    taken. *)
Theorem global_lock_seq_mismatch timeout (s s' : state W) seq :
  in_w 32 (global_lock_seq_num (ctx s)) ->
  uacpi_acquire_global_lock timeout true s = Some ((UACPI_STATUS_OK, seq), s') ->
  uacpi_release_global_lock seq s' = Some (UACPI_STATUS_INVALID_ARGUMENT, s').
Proof.
  intros Hn E; destruct (acquire_global_lock_seq _ _ _ _ Hn E) as (El & Hl & Eq).
  unfold uacpi_release_global_lock; smunfold; rewrite El.
  destruct (Z.ltb_spec (init_level (ctx s)) INIT_LEVEL_SUBSYSTEM_INITIALIZED); [lia|]; rewrite Eq.
  destruct (Z.eqb_spec seq (seq + 1)); [lia|]; rewrite orb_true_r; reflexivity.
Qed.
End SeqNumber.

(** ** Mutual exclusion with the firmware *)

(** C18.  The firmware lock excludes and loses no wake-up.  In every interleaving of
    the operating system's loops, its waiting protocol, the interrupt handler and a
    firmware that follows the ACPI protocol: the two never own the lock together;
    the owned bit says exactly whether one of them does; the other bits of the word
    never change; and a thread that waits for the event has it signalled already,
    or the handler will signal it, or the firmware owns the lock with the pending
    bit set and so raises the interrupt when it releases it. *)
Theorem global_lock_excludes_firmware w0 s :
  was_owned w0 = false -> rtc Firmware.fw_step (Firmware.start w0) s ->
  Firmware.fw_owns s && Firmware.holds (Firmware.os s) = false /\
  was_owned (Firmware.word s) = Firmware.fw_owns s || Firmware.holds (Firmware.os s) /\
  (forall i, 2 <= i < 32 -> Z.testbit (Firmware.word s) i = Z.testbit w0 i) /\
  (Firmware.os s = Firmware.Waiting ->
     Firmware.event s = true \/
     Firmware.pending_flag s = true /\
       (Firmware.irq s = true \/
        Firmware.fw_owns s = true /\ Firmware.pending_bit (Firmware.word s) = true)).
Proof.
  intros Hw H; destruct (Exclusion.fw_reach_inv w0 s Hw H) as [Hu Ho He Hi].
  rewrite was_owned_bit; repeat split; try assumption.
  intros E; unfold Exclusion.wait_inv in Hi; rewrite E in Hi; exact Hi.
Qed.

Module Demo.
Import Firmware.

(** The firmware takes the lock, the system contends and waits, the firmware
    releases and raises the interrupt. *)
Definition contended : system :=
  {| word := 0; os := Waiting; fw_owns := false; irq := true; pending_flag := true; event := false |}.

Lemma global_lock_excludes_firmware_witness :
  event contended = true \/ pending_flag contended = true /\
    (irq contended = true \/ fw_owns contended = true /\ pending_bit (word contended) = true).
Proof.
  apply (global_lock_excludes_firmware 0 contended); [reflexivity| |reflexivity].
  eapply rtc_l; [apply fw_acquire; reflexivity|].
  eapply rtc_l; [apply os_read; reflexivity|].
  eapply rtc_l; [eapply os_cas_owned; reflexivity|].
  eapply rtc_l; [apply os_wait; reflexivity|].
  eapply rtc_l; [apply fw_release; reflexivity|apply rtc_refl].
Defined.

(** A kernel whose calls succeed at once. *)
Definition calm : MutexKernel Z := {|
  get_thread_id := fun w => w;
  kernel_acquire_mutex := fun _ _ => mret UACPI_STATUS_OK;
  kernel_release_mutex := fun _ => mret tt;
  kernel_create_mutex := mret (Some 1);
  kernel_free_mutex := fun _ => mret tt;
  lock_spinlock := mret 0;
  unlock_spinlock := fun _ => mret tt;
  wait_for_global_lock_event := mret tt;
  lock_word_seen := mret (0, [0; 0]);
  lock_word_store := fun _ => mret tt;
  write_gbl_rls := mret tt;
  namespace_write_lock := mret tt;
  namespace_write_unlock := mret tt |}.

Lemma calm_laws : @MutexKernelLaws Z calm.
Proof.
  constructor; intros; try (intros w1; eexists _, _; split; reflexivity).
  exists [], 0, []; simpl in *; inversion H; reflexivity.
Qed.

#[local] Existing Instance calm.

Definition s0 : state Z := {|
  ctx := {| init_level := 1; has_global_lock := true; global_lock_pending := false;
            global_lock_mutex := 100; global_lock_seq_num := 5; global_lock_acquired := false |};
  mutexes := {[ 100 := {| handle := 7; owner := THREAD_ID_NONE; depth := 0 |} ]};
  world := 3 |}.

Lemma aml_mutex_nesting_witness :
  exists ret s1, uacpi_acquire_aml_mutex 100 0xffff s0 = Some (ret, s1) /\
    (ret = UACPI_STATUS_OK -> exists s3, uacpi_release_aml_mutex 100 s1 = Some (UACPI_STATUS_OK, s3)).
Proof.
  destruct (@aml_mutex_nesting Z calm calm_laws s0 100 {| handle := 7; owner := THREAD_ID_NONE; depth := 0 |} 0xffff)
    as (ret & s1 & E & _ & _ & H).
  - reflexivity.
  - eexists; reflexivity.
  - discriminate.
  - exists ret, s1; split; [exact E|]; intros Hr; destruct (H Hr) as (_ & _ & s3 & E3 & _); eauto.
Defined.

Example global_lock_seq_mismatch_runs :
  fst <$> ((r ← uacpi_acquire_global_lock 0xffff true; ret ← uacpi_release_global_lock (snd r);
            mret (r, ret)) : SM (state Z) _) s0 =
  Some ((UACPI_STATUS_OK, 5), UACPI_STATUS_INVALID_ARGUMENT).
Proof. vm_compute; reflexivity. Qed.

End Demo.
