(* ===== verification/RwLock.v ===== *)
(** * acpi/uacpi/mutex.c: the readers-writer lock

    The namespace lock: a mutex that guards the reader count and a mutex that the
    writer, or the first reader on behalf of all, holds.  The operations are given
    twice: as the sequential functions of the source, and as a step relation over
    any number of threads, one step per access to the shared state, for the
    theorem on exclusion and progress.  The kernel may fail to acquire a mutex at
    any time. *)

From S2P Require Import Prelude UCore Mutex.

Open Scope word_scope.

Record uacpi_rw_lock := { read_mutex : Z; write_mutex : Z; num_readers : Z }.

Section Operations.
Context {W : Type} {MK : MutexKernel W}.

Abbreviation M := (SM (state W)).

(** Each operation takes the lock's fields and returns their new values. *)
Definition uacpi_rw_lock_init (l : uacpi_rw_lock) : M (uacpi_status * uacpi_rw_lock) :=
  r ← in_world kernel_create_mutex;
  match r with
  | None => mret (UACPI_STATUS_OUT_OF_MEMORY,
      {| read_mutex := 0; write_mutex := write_mutex l; num_readers := num_readers l |})
  | Some r =>
      w ← in_world kernel_create_mutex;
      match w with
      | None =>
          in_world (kernel_free_mutex r);;
          mret (UACPI_STATUS_OUT_OF_MEMORY,
            {| read_mutex := 0; write_mutex := 0; num_readers := num_readers l |})
      | Some w => mret (UACPI_STATUS_OK, {| read_mutex := r; write_mutex := w; num_readers := 0 |})
      end
  end.

Definition uacpi_rw_lock_deinit (l : uacpi_rw_lock) : M (uacpi_status * uacpi_rw_lock) :=
  (if negb (read_mutex l =? 0) then in_world (kernel_free_mutex (read_mutex l)) else mret tt);;
  (if negb (write_mutex l =? 0) then in_world (kernel_free_mutex (write_mutex l)) else mret tt);;
  mret (UACPI_STATUS_OK, {| read_mutex := 0; write_mutex := 0; num_readers := 0 |}).

Definition set_readers (n : Z) (l : uacpi_rw_lock) : uacpi_rw_lock :=
  {| read_mutex := read_mutex l; write_mutex := write_mutex l; num_readers := n |}.

Definition uacpi_rw_lock_read (l : uacpi_rw_lock) : M (uacpi_status * uacpi_rw_lock) :=
  ret ← uacpi_acquire_native_mutex (read_mutex l);
  if negb (is_ok ret) then mret (ret, l) else
  let l' := set_readers (u64 (num_readers l + 1)) l in
  r ← (if num_readers l =? 0 then
         ret ← uacpi_acquire_native_mutex (write_mutex l');
         mret (ret, if negb (is_ok ret) then set_readers 0 l' else l')
       else mret (ret, l'));
  in_world (kernel_release_mutex (read_mutex l));;
  mret r.

Definition uacpi_rw_unlock_read (l : uacpi_rw_lock) : M (uacpi_status * uacpi_rw_lock) :=
  ret ← uacpi_acquire_native_mutex (read_mutex l);
  if negb (is_ok ret) then mret (ret, l) else
  let l' := set_readers (u64 (num_readers l - 1)) l in
  (if num_readers l =? 1 then uacpi_release_native_mutex (write_mutex l');; mret tt else mret tt);;
  in_world (kernel_release_mutex (read_mutex l));;
  mret (ret, l').

Definition uacpi_rw_lock_write (l : uacpi_rw_lock) : M uacpi_status :=
  uacpi_acquire_native_mutex (write_mutex l).

Definition uacpi_rw_unlock_write (l : uacpi_rw_lock) : M uacpi_status :=
  uacpi_release_native_mutex (write_mutex l).
End Operations.

(** ** Threads *)

(** Where a thread is: outside, in [uacpi_rw_lock_read] (waiting for the read mutex,
    holding it, waiting for the write mutex as the first reader, about to release
    the read mutex with or without success), reading, in [uacpi_rw_unlock_read],
    waiting to write, writing. *)
Inductive pc :=
  | Idle | R_wait | R_held | R_first | R_out | R_fail
  | Reading | U_wait | U_held | U_last | U_out
  | W_wait | Writing.

#[export] Instance pc_eq_dec : EqDecision pc.
Proof. solve_decision. Defined.

Record system := {
  rd : bool;            (* read_mutex is held *)
  wr : bool;            (* write_mutex is held *)
  readers : Z;          (* num_readers *)
  lost : Z;             (* how often uacpi_rw_unlock_read has failed *)
  threads : list pc
}.

(** The effect of one access of a thread at [p] on the shared state, and where the
    thread is then; several results where it may go different ways. *)
Inductive act : pc -> bool -> bool -> Z -> pc -> bool -> bool -> Z -> Prop :=
  | call_read r w n : act Idle r w n R_wait r w n
  | read_acquire w n : act R_wait false w n R_held true w n
  | read_first r w : act R_held r w 0 R_first r w 1
  | read_next r w n : n <> 0 -> act R_held r w n R_out r w (u64 (n + 1))
  | read_block r n : act R_first r false n R_out r true n
  | read_done r w n : act R_out r w n Reading false w n
  | read_failed r w n : act R_fail r w n Idle false w n
  | call_unlock r w n : act Reading r w n U_wait r w n
  | unlock_acquire w n : act U_wait false w n U_held true w n
  | unlock_last r w : act U_held r w 1 U_last r w 0
  | unlock_other r w n : n <> 1 -> act U_held r w n U_out r w (u64 (n - 1))
  | unlock_writers r w n : act U_last r w n U_out r false n
  | unlock_done r w n : act U_out r w n Idle false w n
  | call_write r w n : act Idle r w n W_wait r w n
  | write_acquire r n : act W_wait r false n Writing r true n
  | write_done r w n : act Writing r w n Idle r false n.

(** The kernel fails to acquire the mutex that a thread at [p] wants: where the thread is
    then, the reader count, and whether a reader left that is still counted. *)
Inductive act_error : pc -> Z -> pc -> Z -> Z -> Prop :=
  | read_error n : act_error R_wait n Idle n 0
  | first_error n : act_error R_first n R_fail 0 0
  | unlock_error n : act_error U_wait n Idle n 1
  | write_error n : act_error W_wait n Idle n 0.

(** Thread [i] goes on. *)
Inductive thread_goes (i : nat) : system -> system -> Prop :=
  | goes_act l p r w n k p' r' w' n' : l !! i = Some p -> act p r w n p' r' w' n' ->
      thread_goes i {| rd := r; wr := w; readers := n; lost := k; threads := l |}
                    {| rd := r'; wr := w'; readers := n'; lost := k; threads := <[i := p']> l |}.

(** Thread [i] takes one step: it goes on, or meets an error of the kernel. *)
Inductive thread_step (i : nat) (s : system) : system -> Prop :=
  | step_goes s' : thread_goes i s s' -> thread_step i s s'
  | step_error p p' n' d : threads s !! i = Some p -> act_error p (readers s) p' n' d ->
      thread_step i s {| rd := rd s; wr := wr s; readers := n'; lost := lost s + d; threads := <[i := p']> (threads s) |}.

Definition step (s s' : system) : Prop := exists i, thread_step i s s'.

Definition start (k : nat) : system :=
  {| rd := false; wr := false; readers := 0; lost := 0; threads := replicate k Idle |}.

(** ** Counting threads *)

Definition is_at (q p : pc) : Z := if decide (p = q) then 1 else 0.

Fixpoint cnt (q : pc) (l : list pc) : Z :=
  match l with [] => 0 | p :: l' => is_at q p + cnt q l' end.

Lemma cnt_nonneg q l : 0 <= cnt q l.
Proof. induction l; cbn [cnt]; unfold is_at in *; try case_decide; lia. Qed.

Lemma cnt_insert q l : forall i p p', l !! i = Some p ->
  cnt q (<[i := p']> l) = cnt q l - is_at q p + is_at q p'.
Proof.
  induction l as [|x l IH]; intros [|i] p p' E; try discriminate; simpl in *.
  - inversion E; lia.
  - rewrite (IH i p p' E); lia.
Qed.

Lemma cnt_at q l i : l !! i = Some q -> 1 <= cnt q l.
Proof.
  intros E; pose proof (cnt_insert q l i q (if decide (q = Idle) then R_wait else Idle) E) as H.
  pose proof (cnt_nonneg q (<[i := if decide (q = Idle) then R_wait else Idle]> l)) as H0.
  revert H H0; unfold is_at; destruct q; simpl; lia.
Qed.

Lemma cnt_find q l : 0 < cnt q l -> exists i, l !! i = Some q.
Proof.
  induction l as [|p l IH]; simpl; [lia|]; unfold is_at; case_decide as E.
  - exists 0%nat; simpl; congruence.
  - intros H; destruct IH as [i Hi]; [lia|exists (S i); exact Hi].
Qed.

Lemma cnt_two q l i j : l !! i = Some q -> l !! j = Some q -> i <> j -> 2 <= cnt q l.
Proof.
  intros Ei Ej Hne; pose proof (cnt_insert q l i q (if decide (q = Idle) then R_wait else Idle) Ei) as H.
  assert (H1 : 1 <= cnt q (<[i := if decide (q = Idle) then R_wait else Idle]> l)).
  { apply (cnt_at q _ j); rewrite list_lookup_insert_ne; assumption. }
  revert H H1; unfold is_at; destruct q; simpl; lia.
Qed.

Lemma cnt_start q k : cnt q (replicate k Idle) = if decide (q = Idle) then Z.of_nat k else 0.
Proof.
  induction k as [|k IH]; [destruct q; reflexivity|].
  cbn [replicate cnt]; rewrite IH; unfold is_at; destruct q; simpl; lia.
Qed.

Lemma cnt_length l : cnt R_held l + cnt R_first l + cnt R_out l + cnt Reading l + cnt U_wait l +
  cnt U_held l <= Z.of_nat (length l).
Proof.
  induction l as [|p l IH]; [simpl; lia|].
  cbn [cnt length]; rewrite Nat2Z.inj_succ; unfold is_at; destruct p; simpl; lia.
Qed.

(** ** The invariant *)

(** The read mutex is held by one of the threads past its acquisition; the reader
    count is the number of threads between its increment and its decrement and of the
    readers that could not be counted out; the write mutex is held by the writer, by the
    last reader about to release it, or on behalf of the readers. *)
Record inv (s : system) : Prop := {
  inv_rd : Z.b2z (rd s) = cnt R_held (threads s) + cnt R_first (threads s) + cnt R_out (threads s) +
    cnt R_fail (threads s) + cnt U_held (threads s) + cnt U_last (threads s) + cnt U_out (threads s);
  inv_readers : readers s = cnt R_first (threads s) + cnt R_out (threads s) +
    cnt Reading (threads s) + cnt U_wait (threads s) + cnt U_held (threads s) + lost s;
  inv_wr : Z.b2z (wr s) = cnt Writing (threads s) + cnt U_last (threads s) +
    (if (0 <? readers s) && (cnt R_first (threads s) =? 0) then 1 else 0);
  inv_first : 0 < cnt R_first (threads s) -> readers s = 1;
  inv_last : 0 < cnt U_last (threads s) -> readers s = 0;
  inv_lost : 0 <= lost s
}.

Lemma start_inv k : inv (start k).
Proof. constructor; simpl; rewrite ?cnt_start; simpl; lia. Qed.

Lemma b2z_range b : 0 <= Z.b2z b <= 1.
Proof. destruct b; simpl; lia. Qed.

(** Every count, as it was and after a thread moved from one place to another. *)
Ltac count_moves l i E :=
  lazymatch type of E with _ = Some ?p =>
    repeat match goal with
    | |- context [cnt ?q (<[i := ?p']> l)] => rewrite (cnt_insert q l i p p' E)
    end;
    pose proof (cnt_at p l i E)
  end;
  pose proof (cnt_nonneg R_held l); pose proof (cnt_nonneg R_first l);
  pose proof (cnt_nonneg R_out l); pose proof (cnt_nonneg R_fail l);
  pose proof (cnt_nonneg Reading l); pose proof (cnt_nonneg U_wait l);
  pose proof (cnt_nonneg U_held l); pose proof (cnt_nonneg U_last l);
  pose proof (cnt_nonneg U_out l); pose proof (cnt_nonneg Writing l).

Ltac count_cases :=
  repeat match goal with
  | H : context [?x <? ?y] |- _ => destruct (Z.ltb_spec x y); simpl in H
  | H : context [?x =? ?y] |- _ => destruct (Z.eqb_spec x y); simpl in H
  | |- context [?x <? ?y] => destruct (Z.ltb_spec x y); simpl
  | |- context [?x =? ?y] => destruct (Z.eqb_spec x y); simpl
  end.

Lemma goes_inv i s s' : lost s + Z.of_nat (length (threads s)) < 2 ^ 64 -> inv s -> thread_goes i s s' -> inv s'.
Proof.
  intros Hlen [H1 H2 H3 H4 H5 H6] Hs; destruct Hs as [l p r w n k p' r' w' n' E Ha]; simpl in *.
  pose proof (cnt_length l) as Hl; pose proof (b2z_range r); pose proof (b2z_range w).
  destruct Ha; constructor; simpl in *; count_moves l i E; unfold is_at; simpl;
    rewrite ?(wrap_id 64) by (unfold in_w; lia); try lia; count_cases; lia.
Qed.

Lemma error_inv i s p p' n' d : inv s -> threads s !! i = Some p -> act_error p (readers s) p' n' d ->
  inv {| rd := rd s; wr := wr s; readers := n'; lost := lost s + d; threads := <[i := p']> (threads s) |}.
Proof.
  intros [H1 H2 H3 H4 H5 H6] E Ha; destruct s as [r w n k l]; simpl in *.
  pose proof (b2z_range r); pose proof (b2z_range w).
  destruct Ha; constructor; simpl in *; count_moves l i E; unfold is_at; simpl; try lia; count_cases; lia.
Qed.

Lemma step_inv s s' : lost s + Z.of_nat (length (threads s)) < 2 ^ 64 -> inv s -> step s s' -> inv s'.
Proof. intros Hl Hi [i [s1 Hs|p p' n' d E Ha]]; [eapply goes_inv|eapply error_inv]; eassumption. Qed.

Lemma step_length s s' : step s s' -> length (threads s') = length (threads s) /\ lost s <= lost s'.
Proof. intros [i [s1 []|p p' n' d E []]]; simpl; rewrite length_insert; lia. Qed.

Lemma steps_length s s' : rtc step s s' -> length (threads s') = length (threads s) /\ lost s <= lost s'.
Proof. induction 1 as [|s1 s2 s3 H _ IH]; [lia|]; apply step_length in H; lia. Qed.

Lemma reach_inv k s : lost s + Z.of_nat k < 2 ^ 64 -> rtc step (start k) s -> inv s.
Proof.
  intros Hk H; assert (H0 : inv (start k) /\ length (threads (start k)) = k).
  { split; [apply start_inv|apply length_replicate]. }
  induction H as [|s1 s2 s3 H1 H2 IH]; [apply H0|]; apply IH; [exact Hk|].
  destruct H0 as [Hi Hl]; pose proof (step_length _ _ H1); pose proof (steps_length _ _ H2); split; [|lia].
  apply (step_inv s1); [lia|assumption|assumption].
Qed.

Definition can_go (s : system) (i : nat) : Prop := exists s', thread_goes i s s'.

Lemma enabled s i p p' r' w' n' : threads s !! i = Some p ->
  act p (rd s) (wr s) (readers s) p' r' w' n' -> can_go s i.
Proof. intros E Ha; destruct s as [r w n k l]; eexists; econstructor; eassumption. Qed.

(** A thread at one of these places can always go on. *)
Definition runs (p : pc) : bool :=
  match p with
  | R_held | R_out | R_fail | Reading | U_held | U_last | U_out | Writing => true
  | _ => false
  end.

Lemma runs_enabled s i p : threads s !! i = Some p -> runs p = true -> can_go s i.
Proof.
  intros E Hp; destruct p; try discriminate Hp; try (eapply enabled; [exact E|constructor; fail]).
  - destruct (decide (readers s = 0)) as [En|En]; eapply enabled; [exact E|rewrite En; constructor|exact E|constructor; exact En].
  - destruct (decide (readers s = 1)) as [En|En]; eapply enabled; [exact E|rewrite En; constructor|exact E|constructor; exact En].
Qed.

Lemma nobody_runs l : (forall i p, l !! i = Some p -> runs p = false) ->
  forall p, runs p = true -> cnt p l = 0.
Proof.
  intros H p Hp; destruct (decide (0 < cnt p l)) as [Hc|Hc].
  - destruct (cnt_find p l Hc) as [i Hi]; rewrite (H i p Hi) in Hp; discriminate.
  - pose proof (cnt_nonneg p l); lia.
Qed.

Lemma some_runner (l : list pc) : (exists i p, l !! i = Some p /\ runs p = true) \/
  (forall i p, l !! i = Some p -> runs p = false).
Proof.
  induction l as [|x l [(i & p & E & Hp)|H]].
  - right; intros i p E; discriminate.
  - left; exists (S i), p; split; assumption.
  - destruct (runs x) eqn:Ex; [left; exists 0%nat, x; split; [reflexivity|assumption]|].
    right; intros [|i] p E; [inversion E; subst; assumption|exact (H i p E)].
Qed.

(** When nobody runs, a thread that waits can have what it waits for; but a writer waits
    for ever once a reader was not counted out. *)
Lemma waiter_enabled s : inv s -> (forall i p, threads s !! i = Some p -> runs p = false) ->
  (exists i p, threads s !! i = Some p /\ p <> Idle /\ (p = W_wait -> lost s = 0)) ->
  exists i, threads s !! i <> Some Idle /\ can_go s i.
Proof.
  intros [H1 H2 H3 H4 _ H6] Hr (i & p & E & Hp & Hl).
  pose proof (nobody_runs _ Hr) as Z0.
  rewrite (Z0 R_held), (Z0 R_out), (Z0 R_fail), (Z0 U_held), (Z0 U_last), (Z0 U_out) in H1 by reflexivity.
  rewrite (Z0 R_out), (Z0 Reading), (Z0 U_held) in H2 by reflexivity.
  rewrite (Z0 Writing), (Z0 U_last) in H3 by reflexivity.
  pose proof (cnt_nonneg R_first (threads s)); pose proof (cnt_nonneg U_wait (threads s)).
  assert (Hgo : forall j q q' r' w' n', threads s !! j = Some q -> q <> Idle ->
    act q (rd s) (wr s) (readers s) q' r' w' n' -> exists i, threads s !! i <> Some Idle /\ can_go s i).
  { intros j q q' r' w' n' Ej Hq Ha; exists j; split; [congruence|eapply enabled; eassumption]. }
  destruct (decide (0 < cnt R_first (threads s))) as [Hf|Hf].
  { assert (Ewr : wr s = false).
    { destruct (wr s); [|reflexivity]; simpl in H3; revert H3; count_cases; lia. }
    destruct (cnt_find _ _ Hf) as [j Ej].
    eapply Hgo; [exact Ej|discriminate|rewrite Ewr; apply read_block]. }
  assert (Erd : rd s = false) by (destruct (rd s); [simpl in H1; lia|reflexivity]).
  destruct (decide (0 < cnt U_wait (threads s))) as [Hu|Hu].
  { destruct (cnt_find _ _ Hu) as [j Ej]; eapply Hgo; [exact Ej|discriminate|rewrite Erd; constructor]. }
  destruct p; try (specialize (Hr i _ E); discriminate Hr); try (elim Hp; reflexivity).
  - eapply Hgo; [exact E|discriminate|rewrite Erd; constructor].
  - pose proof (cnt_at _ _ _ E); lia.
  - pose proof (cnt_at _ _ _ E); lia.
  - specialize (Hl eq_refl); assert (Ewr : wr s = false).
    { destruct (wr s); [|reflexivity]; simpl in H3; revert H3; count_cases; lia. }
    eapply Hgo; [exact E|discriminate|rewrite Ewr; constructor].
Qed.

(** A writer is alone: no other writer, and nobody reads. *)
Lemma writer_alone s i j p : inv s -> threads s !! i = Some Writing -> threads s !! j = Some p ->
  i <> j -> p <> Writing /\ p <> Reading.
Proof.
  intros [H1 H2 H3 H4 _ H6] Ei Ej Hne; pose proof (b2z_range (wr s)); pose proof (b2z_range (rd s)).
  pose proof (cnt_at _ _ _ Ei); pose proof (cnt_at _ _ _ Ej).
  pose proof (cnt_nonneg R_first (threads s)); pose proof (cnt_nonneg R_out (threads s)).
  pose proof (cnt_nonneg U_wait (threads s)); pose proof (cnt_nonneg U_held (threads s)).
  pose proof (cnt_nonneg U_last (threads s)).
  split; intros ->.
  - pose proof (cnt_two _ _ _ _ Ei Ej Hne); revert H3; count_cases; lia.
  - revert H3; count_cases; lia.
Qed.

(** A reader that was not counted out keeps the write mutex. *)
Lemma lost_keeps_write_mutex s : inv s -> 0 < lost s ->
  wr s = true /\ forall i p, threads s !! i = Some p -> p <> Writing.
Proof.
  intros [H1 H2 H3 H4 H5 H6] Hl; pose proof (b2z_range (wr s)).
  pose proof (cnt_nonneg R_first (threads s)); pose proof (cnt_nonneg R_out (threads s)).
  pose proof (cnt_nonneg Reading (threads s)); pose proof (cnt_nonneg U_wait (threads s)).
  pose proof (cnt_nonneg U_held (threads s)); pose proof (cnt_nonneg U_last (threads s)); pose proof (cnt_nonneg Writing (threads s)).
  assert (E : Z.b2z (wr s) = 1 /\ cnt Writing (threads s) = 0) by (revert H3; count_cases; lia).
  split; [destruct (wr s); [reflexivity|destruct E; discriminate]|].
  intros i p Ei ->; pose proof (cnt_at _ _ _ Ei); lia.
Qed.

(** ** The sequential operations are runs of one thread *)

(** A kernel with the lock's two mutexes.  It blocks on one that is held, and fails as it
    likes: [errors] is what its next acquisitions meet. *)
Record two := { m_read : bool; m_write : bool; errors : list uacpi_status }.

Definition acquires (h : Z) (l : uacpi_rw_lock) (w : two) : option (uacpi_status * two) :=
  if h =? read_mutex l
  then if m_read w then None else Some (UACPI_STATUS_OK, {| m_read := true; m_write := m_write w; errors := tail (errors w) |})
  else if m_write w then None else Some (UACPI_STATUS_OK, {| m_read := m_read w; m_write := true; errors := tail (errors w) |}).

Definition two_mutexes (l : uacpi_rw_lock) : MutexKernel two := {|
  get_thread_id := fun _ => 0;
  kernel_acquire_mutex := fun h _ (w : two) =>
    match errors w with
    | e :: es => if is_ok e then acquires h l w else Some (e, {| m_read := m_read w; m_write := m_write w; errors := es |})
    | [] => acquires h l w
    end;
  kernel_release_mutex := fun h (w : two) =>
    Some (tt, if h =? read_mutex l then {| m_read := false; m_write := m_write w; errors := errors w |}
              else {| m_read := m_read w; m_write := false; errors := errors w |});
  kernel_create_mutex := mret None;
  kernel_free_mutex := fun _ => mret tt;
  lock_spinlock := mret 0;
  unlock_spinlock := fun _ => mret tt;
  wait_for_global_lock_event := mret tt;
  lock_word_seen := undefined;
  lock_word_store := fun _ => undefined;
  write_gbl_rls := mret tt;
  namespace_write_lock := mret tt;
  namespace_write_unlock := mret tt |}.

(** The threads' view of a lock and the kernel. *)
Definition view (l : uacpi_rw_lock) (s : state two) (k : Z) (thr : list pc) : system :=
  {| rd := m_read (world s); wr := m_write (world s); readers := num_readers l; lost := k; threads := thr |}.

Definition two_handles (l : uacpi_rw_lock) : Prop :=
  read_mutex l <> 0 /\ write_mutex l <> 0 /\ write_mutex l <> read_mutex l.

Definition with_two (s : state two) (r w : bool) (es : list uacpi_status) : state two :=
  {| ctx := ctx s; mutexes := mutexes s; world := {| m_read := r; m_write := w; errors := es |} |}.

(** An acquisition blocks on a mutex that is held, takes one that is free, or fails. *)
Definition outcomes (res : option (uacpi_status * state two)) (held : bool) (took : list uacpi_status -> state two) (left : list uacpi_status -> state two) : Prop :=
  (res = None /\ held = true) \/ (held = false /\ exists es, res = Some (UACPI_STATUS_OK, took es)) \/
  exists e es, is_ok e = false /\ res = Some (e, left es).

Lemma acquire_outcomes l h s r w es : two_handles l -> h = read_mutex l \/ h = write_mutex l ->
  outcomes (@uacpi_acquire_native_mutex _ (two_mutexes l) h (with_two s r w es)) (if h =? read_mutex l then r else w)
    (if h =? read_mutex l then with_two s true w else with_two s r true) (with_two s r w).
Proof.
  intros (Hr & Hw & Hd) Hh; assert (E0 : (h =? 0) = false) by (apply Z.eqb_neq; destruct Hh; congruence).
  unfold uacpi_acquire_native_mutex; rewrite E0; unfold in_world, outcomes; cbn [kernel_acquire_mutex two_mutexes world with_two errors].
  destruct es as [|e es]; [|destruct (is_ok e) eqn:Ee; [|right; right; exists e, es; split; [exact Ee|reflexivity]]];
    unfold acquires; cbn [m_read m_write errors tail]; destruct (h =? read_mutex l); destruct r, w;
    solve [left; split; reflexivity|right; left; split; [reflexivity|eexists; reflexivity]].
Qed.

Lemma release_read l s r w es : @kernel_release_mutex _ (two_mutexes l) (read_mutex l) (world (with_two s r w es)) = Some (tt, world (with_two s false w es)).
Proof. cbn [kernel_release_mutex two_mutexes]; rewrite Z.eqb_refl; reflexivity. Qed.

Lemma release_write l s r w es : two_handles l ->
  @uacpi_release_native_mutex _ (two_mutexes l) (write_mutex l) (with_two s r w es) = Some (UACPI_STATUS_OK, with_two s r false es).
Proof.
  intros (Hr & Hw & Hd); apply Z.eqb_neq in Hw, Hd; unfold uacpi_release_native_mutex, in_world; rewrite Hw; smunfold.
  cbn [kernel_release_mutex two_mutexes world with_two]; rewrite Hd; reflexivity.
Qed.

Lemma thread_step_at i thr p r w n k p' r' w' n' q : act p r w n p' r' w' n' -> thr !! i = Some q ->
  thread_step i {| rd := r; wr := w; readers := n; lost := k; threads := <[i := p]> thr |}
                {| rd := r'; wr := w'; readers := n'; lost := k; threads := <[i := p']> thr |}.
Proof.
  intros Ha E; apply step_goes; rewrite <- (list_insert_insert_eq thr i p' p); econstructor; [|exact Ha].
  apply list_lookup_insert_eq; eapply lookup_lt_Some, E.
Qed.

Lemma thread_error_at i thr p r w n k p' n' d q : act_error p n p' n' d -> thr !! i = Some q ->
  thread_step i {| rd := r; wr := w; readers := n; lost := k; threads := <[i := p]> thr |}
                {| rd := r; wr := w; readers := n'; lost := k + d; threads := <[i := p']> thr |}.
Proof.
  intros Ha E; rewrite <- (list_insert_insert_eq thr i p' p).
  apply (step_error i {| rd := r; wr := w; readers := n; lost := k; threads := <[i := p]> thr |} p); [|exact Ha].
  apply list_lookup_insert_eq; eapply lookup_lt_Some, E.
Qed.

(** What an operation did is a run of thread [i], which is then at [goal], or outside when
    it reports an error; [d] more readers are lost with the error.  It does not return
    only while a mutex is held. *)
Definition runs_as (i : nat) (s : system) (res : option ((uacpi_status * uacpi_rw_lock) * state two)) (goal : pc) (d : Z) : Prop :=
  match res with
  | None => rd s = true \/ wr s = true
  | Some ((ret, l'), s') =>
      rtc (thread_step i) s (view l' s' (lost s + if is_ok ret then 0 else d) (<[i := if is_ok ret then goal else Idle]> (threads s)))
  end.

Ltac one_step := eapply rtc_l; [first [eapply thread_step_at; [constructor; try assumption|eassumption]|eapply thread_error_at; [constructor|eassumption]]|].

(** The run from the place where the thread is, in as many steps as it takes. *)
Ltac run_thread Ei := unfold view; cbn [world with_two m_read m_write num_readers set_readers]; rewrite <- Ei at 1.

Lemma with_two_eta s : s = with_two s (m_read (world s)) (m_write (world s)) (errors (world s)).
Proof. destruct s as [c m []]; reflexivity. Qed.

Lemma lock_read_runs l s thr i k : two_handles l -> thr !! i = Some R_wait ->
  runs_as i (view l s k thr) (@uacpi_rw_lock_read _ (two_mutexes l) l s) Reading 0.
Proof.
  intros Hl E; rewrite (with_two_eta s); generalize (m_read (world s)), (m_write (world s)), (errors (world s)); intros r w es.
  unfold uacpi_rw_lock_read; unfold runs_as; pose proof (list_insert_id thr i R_wait E) as Ei; cbn [view lost threads rd wr world with_two m_read m_write].
  unfold mbind at 1, SM_bind at 1; destruct (acquire_outcomes l (read_mutex l) s r w es Hl (or_introl eq_refl)) as [[-> Hr]|[[Hr [es1 ->]]|(e & es1 & He & ->)]]; rewrite ?Z.eqb_refl in *.
  - left; exact Hr.
  - subst r; cbn [is_ok negb]; destruct (Z.eqb_spec (num_readers l) 0) as [En|En].
    + smunfold; cbn [write_mutex set_readers].
      pose proof (acquire_outcomes l (write_mutex l) s true w es1 Hl (or_intror eq_refl)) as Ha; destruct Hl as (Hl1 & Hl2 & Hl3); rewrite (proj2 (Z.eqb_neq _ _) Hl3) in Ha.
      destruct Ha as [[-> Hw]|[[Hw [es2 ->]]|(e & es2 & He & ->)]]; [right; exact Hw| |].
      * subst w; smunfold; unfold in_world; rewrite release_read; cbn [is_ok negb]; run_thread Ei; rewrite En, Z.add_0_r.
        do 4 one_step; apply rtc_refl.
      * smunfold; unfold in_world; rewrite release_read; rewrite He; cbn [negb]; run_thread Ei; rewrite En.
        do 4 one_step; rewrite Z.add_0_r; apply rtc_refl.
    + smunfold; unfold in_world; rewrite release_read; cbn [is_ok]; run_thread Ei; rewrite Z.add_0_r.
      one_step; eapply rtc_l; [eapply thread_step_at; [apply read_next; exact En|exact E]|]; one_step; apply rtc_refl.
  - rewrite He; smunfold; cbn [negb]; rewrite He; run_thread Ei; one_step; apply rtc_refl.
Qed.

Lemma unlock_read_runs l s thr i k : two_handles l -> thr !! i = Some U_wait ->
  runs_as i (view l s k thr) (@uacpi_rw_unlock_read _ (two_mutexes l) l s) Idle 1.
Proof.
  intros Hl E; rewrite (with_two_eta s); generalize (m_read (world s)), (m_write (world s)), (errors (world s)); intros r w es.
  unfold uacpi_rw_unlock_read; unfold runs_as; pose proof (list_insert_id thr i U_wait E) as Ei; cbn [view lost threads rd wr world with_two m_read m_write].
  unfold mbind at 1, SM_bind at 1; destruct (acquire_outcomes l (read_mutex l) s r w es Hl (or_introl eq_refl)) as [[-> Hr]|[[Hr [es1 ->]]|(e & es1 & He & ->)]]; rewrite ?Z.eqb_refl in *.
  - left; exact Hr.
  - subst r; cbn [is_ok negb write_mutex set_readers]; destruct (Z.eqb_spec (num_readers l) 1) as [En|En].
    + smunfold; rewrite (release_write l s true w es1 Hl); smunfold; unfold in_world; rewrite release_read; cbn [is_ok].
      run_thread Ei; rewrite En, Z.add_0_r; do 4 one_step; apply rtc_refl.
    + smunfold; unfold in_world; rewrite release_read; cbn [is_ok]; run_thread Ei; rewrite Z.add_0_r.
      one_step; eapply rtc_l; [eapply thread_step_at; [apply unlock_other; exact En|exact E]|]; one_step; apply rtc_refl.
  - rewrite He; smunfold; cbn [negb]; rewrite He; run_thread Ei; one_step; apply rtc_refl.
Qed.

(** The write operations leave the fields of the lock alone. *)
Definition with_lock (l : uacpi_rw_lock) (r : option (uacpi_status * state two)) : option ((uacpi_status * uacpi_rw_lock) * state two) :=
  match r with Some (ret, s') => Some ((ret, l), s') | None => None end.

Lemma lock_write_runs l s thr i k : two_handles l -> thr !! i = Some W_wait ->
  runs_as i (view l s k thr) (with_lock l (@uacpi_rw_lock_write _ (two_mutexes l) l s)) Writing 0.
Proof.
  intros Hl E; rewrite (with_two_eta s); generalize (m_read (world s)), (m_write (world s)), (errors (world s)); intros r w es.
  unfold uacpi_rw_lock_write, runs_as; pose proof (list_insert_id thr i W_wait E) as Ei; cbn [view lost threads rd wr world with_two m_read m_write].
  pose proof (acquire_outcomes l (write_mutex l) s r w es Hl (or_intror eq_refl)) as Ha; destruct Hl as (Hl1 & Hl2 & Hl3); rewrite (proj2 (Z.eqb_neq _ _) Hl3) in Ha.
  destruct Ha as [[-> Hw]|[[Hw [es1 ->]]|(e & es1 & He & ->)]]; cbn [with_lock]; [right; exact Hw|subst w; cbn [is_ok]; rewrite Z.add_0_r|rewrite He];
    run_thread Ei; one_step; apply rtc_refl.
Qed.

Lemma unlock_write_runs l s thr i k : two_handles l -> thr !! i = Some Writing ->
  runs_as i (view l s k thr) (with_lock l (@uacpi_rw_unlock_write _ (two_mutexes l) l s)) Idle 0.
Proof.
  intros Hl E; rewrite (with_two_eta s); generalize (m_read (world s)), (m_write (world s)), (errors (world s)); intros r w es.
  unfold uacpi_rw_unlock_write, runs_as; pose proof (list_insert_id thr i Writing E) as Ei; rewrite (release_write l s r w es Hl); cbn [view lost threads rd wr world with_two m_read m_write with_lock is_ok].
  rewrite Z.add_0_r; run_thread Ei; one_step; apply rtc_refl.
Qed.

(** ** Theorems *)

(** C19.  The readers-writer lock excludes and does not deadlock.  With any number of
    threads, in every interleaving of their accesses and with every failure of the kernel to
    acquire a mutex, a thread that writes is alone: no other thread reads or writes.
    And while a thread is inside of the lock, some thread that is can go on without a
    failure; only writers that wait are left out of this when [uacpi_rw_unlock_read] has
    failed before ([lost]), because such a reader is never counted out. *)
Theorem rw_lock_exclusion_and_progress k s :
  lost s + Z.of_nat k < 2 ^ 64 -> rtc step (start k) s ->
  (forall i j p, threads s !! i = Some Writing -> threads s !! j = Some p -> i <> j ->
     p <> Writing /\ p <> Reading) /\
  ((exists i p, threads s !! i = Some p /\ p <> Idle /\ (p = W_wait -> lost s = 0)) ->
     exists i, threads s !! i <> Some Idle /\ can_go s i).
Proof.
  intros Hk H; pose proof (reach_inv k s Hk H) as Hi; split.
  - intros i j p; apply writer_alone; assumption.
  - intros Hx; destruct (some_runner (threads s)) as [(i & p & E & Hp)|Hr].
    + exists i; split; [rewrite E; intros [= ->]; discriminate Hp|eapply runs_enabled; eassumption].
    + apply waiter_enabled; assumption.
Qed.

(** C20.  The four operations of the source run as the step relation says, against a kernel
    whose mutexes block while they are held and which fails whenever it likes: what an
    operation did to the lock and the mutexes is a sequence of steps of the calling thread.
    On success this brings it from waiting to reading or writing, or outside again; with an
    error it is outside, and a reader that wanted to leave is lost.  An operation that
    does not return waits for a mutex that is held. *)
Theorem rw_lock_refines_steps l s thr i k : two_handles l ->
  (thr !! i = Some R_wait -> runs_as i (view l s k thr) (@uacpi_rw_lock_read _ (two_mutexes l) l s) Reading 0) /\
  (thr !! i = Some U_wait -> runs_as i (view l s k thr) (@uacpi_rw_unlock_read _ (two_mutexes l) l s) Idle 1) /\
  (thr !! i = Some W_wait -> runs_as i (view l s k thr) (with_lock l (@uacpi_rw_lock_write _ (two_mutexes l) l s)) Writing 0) /\
  (thr !! i = Some Writing -> runs_as i (view l s k thr) (with_lock l (@uacpi_rw_unlock_write _ (two_mutexes l) l s)) Idle 0).
Proof.
  intros Hl; split_and!; intros E; [apply lock_read_runs|apply unlock_read_runs|apply lock_write_runs|apply unlock_write_runs]; assumption.
Qed.

(** After a failed [uacpi_rw_unlock_read] nobody ever writes again: the reader stays
    counted, and the write mutex is held on behalf of the readers for ever. *)
Theorem failed_unlock_excludes_writers k s : lost s + Z.of_nat k < 2 ^ 64 -> rtc step (start k) s -> 0 < lost s ->
  wr s = true /\ forall i p, threads s !! i = Some p -> p <> Writing.
Proof. intros Hk H; apply lost_keeps_write_mutex, (reach_inv k s Hk H). Qed.

Module Demo.

(** One thread reads while another waits to write. *)
Definition busy : system :=
  {| rd := false; wr := true; readers := 1; lost := 0; threads := [Reading; W_wait] |}.

Ltac goes i c := eapply rtc_l; [exists i; apply step_goes; eapply goes_act; [reflexivity|c]|].

Lemma busy_reached : rtc step (start 2) busy.
Proof.
  change (start 2) with {| rd := false; wr := false; readers := 0; lost := 0; threads := [Idle; Idle] |}.
  goes 0%nat ltac:(apply call_read); do 4 (goes 0%nat ltac:(constructor)); goes 1%nat ltac:(apply call_write); apply rtc_refl.
Qed.

Lemma rw_lock_exclusion_and_progress_witness :
  exists i, threads busy !! i <> Some Idle /\ can_go busy i.
Proof.
  apply (rw_lock_exclusion_and_progress 2 busy); [reflexivity|apply busy_reached|].
  exists 0%nat, Reading; split; [reflexivity|split; discriminate].
Defined.

(** The reader leaves and the kernel fails: the lock stays taken, the writer waits. *)
Definition stuck : system :=
  {| rd := false; wr := true; readers := 1; lost := 1; threads := [Idle; W_wait] |}.

Lemma stuck_reached : rtc step (start 2) stuck.
Proof.
  transitivity busy; [exact busy_reached|]; goes 0%nat ltac:(apply call_unlock); apply rtc_once; exists 0%nat.
  exact (step_error 0 {| rd := false; wr := true; readers := 1; lost := 0; threads := [U_wait; W_wait] |} U_wait Idle 1 1 eq_refl (unlock_error 1)).
Qed.

Definition lk : uacpi_rw_lock := {| read_mutex := 1; write_mutex := 2; num_readers := 0 |}.
Definition ks (r w : bool) (es : list uacpi_status) : state two := {|
  ctx := {| init_level := 0; has_global_lock := false; global_lock_pending := false;
            global_lock_mutex := 0; global_lock_seq_num := 0; global_lock_acquired := false |};
  mutexes := ∅; world := {| m_read := r; m_write := w; errors := es |} |}.

(** The write mutex cannot be had: the first reader gives up. *)
Lemma rw_lock_refines_steps_witness :
  rtc (thread_step 0) (view lk (ks false false [UACPI_STATUS_OK; UACPI_STATUS_TIMEOUT]) 0 [R_wait])
    (view lk (ks false false []) 0 [Idle]).
Proof.
  assert (H : two_handles lk) by (repeat split; discriminate).
  exact (proj1 (rw_lock_refines_steps lk (ks false false [UACPI_STATUS_OK; UACPI_STATUS_TIMEOUT]) [R_wait] 0 0 H) eq_refl).
Defined.

End Demo.
