(* ===== verification/CList.v ===== *)
(** * Linked lists of the C sources

    Several components of uACPI keep a singly linked list of heap nodes: a head
    pointer and a [next] pointer in each node, the null pointer ending it.  A heap
    maps the address of a node to its payload and its [next]; [rep h p l] says that
    the list that starts at [p] holds the nodes [l], in order and without sharing.
    The lemmas relate the pointer operations of the sources (walk, update in place,
    push, unlink) to the list they represent. *)

From S2P Require Import Prelude.

Section CList.
Context {A : Type}.

Abbreviation heap := (gmap Z (A * Z)).

(** The nodes from [p] up to, and not including, [q]. *)
Fixpoint seg (h : heap) (p : Z) (l : list (Z * A)) (q : Z) : Prop :=
  match l with
  | [] => p = q
  | (r, a) :: l' => p = r /\ r <> 0 /\ exists n, h !! r = Some (a, n) /\ seg h n l' q
  end.

Definition rep (h : heap) (p : Z) (l : list (Z * A)) : Prop := seg h p l 0 /\ NoDup l.*1.

(** [while (p) { if (f(p)) return p; p = p->next; }]: the first node that satisfies
    [f] (null if none does).  [None] when a pointer leads nowhere. *)
Fixpoint find_from (fuel : nat) (f : A -> bool) (h : heap) (p : Z) : option Z :=
  match fuel with
  | O => None
  | S fuel' =>
      if p =? 0 then Some 0 else
      match h !! p with
      | Some (a, n) => if f a then Some p else find_from fuel' f h n
      | None => None
      end
  end.

(** The same walk that remembers the node before: [(prev, cur)] with [prev] = [cur]
    at the head of the list. *)
Fixpoint find_prev (fuel : nat) (f : A -> bool) (h : heap) (prev cur : Z) : option (Z * Z) :=
  match fuel with
  | O => None
  | S fuel' =>
      if cur =? 0 then Some (prev, 0) else
      match h !! cur with
      | Some (a, n) => if f a then Some (prev, cur) else find_prev fuel' f h cur n
      | None => None
      end
  end.

(** A walk over a list of a heap takes no more steps than the heap has nodes. *)
Definition walk_fuel (h : heap) : nat := S (size h).

(** ** Lists and segments *)

Lemma seg_app h l1 l2 : forall p q, seg h p (l1 ++ l2) q <-> exists m, seg h p l1 m /\ seg h m l2 q.
Proof.
  induction l1 as [|[r a] l1 IH]; intros p q; cbn [app seg].
  - split; [intros H; exists p; auto|intros (m & -> & H); exact H].
  - split.
    + intros (-> & Hr & n & E & H); apply IH in H as (m & H1 & H2); eauto 8.
    + intros (m & (-> & Hr & n & E & H1) & H2); repeat split; [assumption|].
      exists n; split; [assumption|apply IH; eauto].
Qed.

Lemma seg_dom h l : forall p q r, seg h p l q -> r ∈ l.*1 -> is_Some (h !! r) /\ r <> 0.
Proof.
  induction l as [|[s a] l IH]; intros p q r; cbn [fmap list_fmap fst seg]; [intros _ H; inversion H|].
  intros (-> & Hs & n & E & H) [->|Hr]%elem_of_cons; [split; [eauto|assumption]|eauto].
Qed.

(** Nodes outside a segment do not matter to it. *)
Lemma seg_frame h h' l : forall p q, seg h p l q -> (forall r, r ∈ l.*1 -> h' !! r = h !! r) ->
  seg h' p l q.
Proof.
  induction l as [|[s a] l IH]; intros p q; cbn [fmap list_fmap fst seg]; [auto|].
  intros (-> & Hs & n & E & H) Hr; repeat split; [assumption|]; exists n; split.
  - rewrite Hr by left; exact E.
  - apply (IH _ _ H); intros r Hl; apply Hr; right; exact Hl.
Qed.

Lemma rep_size h p l : rep h p l -> (length l <= size h)%nat.
Proof.
  intros [H Hn]; rewrite <- (length_fmap fst), <- (size_list_to_set (C := gset Z)) by exact Hn.
  rewrite <- (size_dom (D := gset Z) h); apply subseteq_size; intros r Hr%elem_of_list_to_set.
  apply elem_of_dom; eapply seg_dom; eassumption.
Qed.

(** ** Walks *)

Definition ptr (o : option (Z * A)) : Z := match o with Some (q, _) => q | None => 0 end.

Lemma find_from_seg f h l : forall fuel p, seg h p l 0 -> (length l < fuel)%nat ->
  find_from fuel f h p = Some (ptr (List.find (fun x => f (snd x)) l)).
Proof.
  induction l as [|[r a] l IH]; intros [|fuel] p; cbn [seg length find_from List.find]; try lia.
  - intros -> _; reflexivity.
  - intros (-> & Hr & n & E & H) Hl; destruct (Z.eqb_spec r 0); [contradiction|].
    rewrite E; simpl; destruct (f a); [reflexivity|apply IH; [assumption|lia]].
Qed.

Lemma find_from_rep f h p l : rep h p l ->
  find_from (walk_fuel h) f h p = Some (ptr (List.find (fun x => f (snd x)) l)).
Proof.
  intros H; apply find_from_seg; [apply H|]; pose proof (rep_size _ _ _ H); unfold walk_fuel; lia.
Qed.

(** Where a walk that remembers the previous node ends. *)
Lemma find_prev_seg f h l : forall fuel prev p, seg h p l 0 -> (length l < fuel)%nat ->
  (forallb (fun x => negb (f (snd x))) l = true /\ exists v, find_prev fuel f h prev p = Some (v, 0)) \/
  (exists l1 q a l2, l = l1 ++ (q, a) :: l2 /\ f a = true /\
     forallb (fun x => negb (f (snd x))) l1 = true /\
     find_prev fuel f h prev p = Some (match last l1 with Some (v, _) => v | None => prev end, q)).
Proof.
  induction l as [|[r a] l IH]; intros [|fuel] prev p; cbn [seg length find_prev forallb]; try lia.
  { intros -> _; left; eauto. }
  intros (-> & Hr & n & E & H) Hl; destruct (Z.eqb_spec r 0); [contradiction|]; rewrite E; simpl.
  destruct (f a) eqn:Ef; [right; exists [], r, a, l; auto|].
  destruct (IH fuel r n H ltac:(lia)) as [[Hn [v Hv]]|(l1 & q & b & l2 & -> & Hb & H1 & Hf)].
  - left; split; [assumption|eauto].
  - right; exists ((r, a) :: l1), q, b, l2; cbn [forallb snd]; rewrite Ef, Hf; repeat split; auto.
    destruct l1 as [|x l1]; [reflexivity|]; change (last ((r, a) :: x :: l1)) with (last (x :: l1)).
    destruct (last (x :: l1)) as [[v w]|] eqn:Ea; [reflexivity|apply last_None in Ea; discriminate].
Qed.

(** ** Updates *)

(** The payload of one node changes. *)
Lemma rep_update h p l1 q a l2 a' n : rep h p (l1 ++ (q, a) :: l2) -> h !! q = Some (a, n) ->
  rep (<[q := (a', n)]> h) p (l1 ++ (q, a') :: l2).
Proof.
  intros [H Hn] E; split; [|rewrite fmap_app in *; exact Hn].
  rewrite fmap_app in Hn; cbn in Hn; apply NoDup_app in Hn as (_ & Hx & [Hq _]%NoDup_cons).
  apply seg_app in H as (m & H1 & -> & Hq0 & n' & E' & H2); rewrite E in E'; inversion E'; subst n'.
  apply seg_app; exists q; split; [|repeat split; [assumption|exists n; split]].
  - eapply seg_frame; [exact H1|]; intros r Hr; apply lookup_insert_ne; intros ->.
    apply (Hx r Hr); left.
  - apply lookup_insert_eq.
  - eapply seg_frame; [exact H2|]; intros r Hr; apply lookup_insert_ne; intros ->; contradiction.
Qed.

Lemma rep_push h p l q a : rep h p l -> h !! q = None -> q <> 0 ->
  rep (<[q := (a, p)]> h) q ((q, a) :: l).
Proof.
  intros [H Hn] E Hq; assert (Hne : q ∉ l.*1).
  { intros Hin; destruct (seg_dom _ _ _ _ _ H Hin) as [[x Hx] _]; congruence. }
  split; [|constructor; assumption].
  repeat split; [assumption|exists p; split; [apply lookup_insert_eq|]].
  eapply seg_frame; [exact H|]; intros r Hr; apply lookup_insert_ne; intros ->; contradiction.
Qed.

(** The first node goes. *)
Lemma rep_pop h q a l n : rep h q ((q, a) :: l) -> h !! q = Some (a, n) -> rep (delete q h) n l.
Proof.
  intros [(_ & Hq & n' & E' & H) Hn] E; rewrite E in E'; inversion E'; subst n'.
  apply NoDup_cons in Hn as [Hne Hn]; split; [|assumption].
  eapply seg_frame; [exact H|]; intros r Hr; apply lookup_delete_ne; intros ->; contradiction.
Qed.

(** A node further on goes: its predecessor's [next] skips it. *)
Lemma rep_unlink h p l1 v b q a l2 n : rep h p (l1 ++ (v, b) :: (q, a) :: l2) ->
  h !! q = Some (a, n) ->
  h !! v = Some (b, q) /\ rep (delete q (<[v := (b, n)]> h)) p (l1 ++ (v, b) :: l2).
Proof.
  intros [H Hn] E; rewrite fmap_app in Hn; cbn in Hn.
  apply NoDup_app in Hn as (Hn1 & Hx & [Hv [Hq Hn2]%NoDup_cons]%NoDup_cons).
  apply seg_app in H as (m & H1 & -> & Hv0 & n' & Ev & -> & Hq0 & n2 & E2 & H2).
  rewrite E in E2; inversion E2; subst n2.
  assert (Hqv : q <> v) by (intros ->; apply Hv; left).
  assert (Hframe : forall r, r <> q -> r <> v -> delete q (<[v := (b, n)]> h) !! r = h !! r).
  { intros r Hrq Hrv; etransitivity; [apply lookup_delete_ne; congruence|].
    apply lookup_insert_ne; congruence. }
  split; [assumption|split].
  - apply seg_app; exists v; split; [|repeat split; [assumption|exists n; split]].
    + eapply seg_frame; [exact H1|]; intros r Hr; apply Hframe; intros ->;
        apply (Hx _ Hr); [right; left|left].
    + etransitivity; [apply lookup_delete_ne; assumption|apply lookup_insert_eq].
    + eapply seg_frame; [exact H2|]; intros r Hr; apply Hframe; intros ->; [exact (Hq Hr)|].
      apply Hv; right; exact Hr.
  - rewrite fmap_app; cbn; apply NoDup_app; repeat split; [assumption| |].
    + intros r Hr [->|Hr2]%elem_of_cons; apply (Hx _ Hr); [left|right; right; exact Hr2].
    + apply NoDup_cons; split; [|assumption]; intros Hr; apply Hv; right; exact Hr.
Qed.

Lemma rep_lookup h p l1 q a l2 : rep h p (l1 ++ (q, a) :: l2) -> q <> 0 /\ exists n, h !! q = Some (a, n).
Proof.
  intros [H _]; apply seg_app in H as (m & _ & -> & Hq & n & E & _); eauto.
Qed.

Lemma rep_next h p l1 q a l2 n : rep h p (l1 ++ (q, a) :: l2) -> h !! q = Some (a, n) ->
  seg h n l2 0.
Proof.
  intros [H _] E; apply seg_app in H as (m & _ & _ & _ & n' & E' & H); congruence.
Qed.
End CList.
