(* ===== verification/Osi.v ===== *)
(** * acpi/uacpi/osi.c: the interfaces that _OSI reports

    A linked list of interfaces: the predefined ones, which are only ever enabled
    and disabled, and those the host installs, which come and go.  The list lives in
    a heap of nodes; an interface is found by its name.  What the kernel answers to
    the calls an operation makes (the mutex and the two allocations) is an argument
    of the operation. *)

From stdpp Require Import strings.
From S2P Require Import Prelude UCore CList.

Open Scope word_scope.

(** [struct registered_interface], without its link; names are the strings that
    the C pointers lead to, and [uacpi_strcmp] of two is zero when they are equal. *)
Record registered_interface := {
  name : string;
  weight : Z;
  kind : Z;
  host_type : Z;
  disabled : bool;
  dynamic : bool
}.

Definition UACPI_INTERFACE_KIND_VENDOR : Z := 1.
Definition UACPI_INTERFACE_KIND_FEATURE : Z := 2.

Definition WINDOWS (s : string) (w : Z) : registered_interface := {|
  name := "Windows " +:+ s; weight := w; kind := UACPI_INTERFACE_KIND_VENDOR; host_type := 0;
  disabled := false; dynamic := false |}.

Definition HOST_FEATURE (s : string) (t : Z) : registered_interface := {|
  name := s; weight := 0; kind := UACPI_INTERFACE_KIND_FEATURE; host_type := t;
  disabled := true; dynamic := false |}.

(** The weights are the values of [enum uacpi_vendor_interface], from 1 on. *)
Definition predefined_interfaces : list registered_interface := [
  WINDOWS "2000" 1; WINDOWS "2001" 2; WINDOWS "2001 SP1" 3; WINDOWS "2001.1" 4;
  WINDOWS "2001 SP2" 5; WINDOWS "2001.1 SP1" 6; WINDOWS "2006" 7; WINDOWS "2006.1" 8;
  WINDOWS "2006 SP1" 9; WINDOWS "2006 SP2" 10; WINDOWS "2009" 11; WINDOWS "2012" 12;
  WINDOWS "2013" 13; WINDOWS "2015" 14; WINDOWS "2016" 15; WINDOWS "2017" 16;
  WINDOWS "2017.2" 17; WINDOWS "2018" 18; WINDOWS "2018.2" 19; WINDOWS "2019" 20;
  WINDOWS "2020" 21; WINDOWS "2021" 22; WINDOWS "2022" 23;
  HOST_FEATURE "Module Device" 1; HOST_FEATURE "Processor Device" 2;
  HOST_FEATURE "3.0 Thermal Model" 3; HOST_FEATURE "3.0 _SCP Extensions" 4;
  HOST_FEATURE "Processor Aggregator Device" 5;
  {| name := "Extended Address Space Descriptor"; weight := 0; kind := 0; host_type := 0;
     disabled := false; dynamic := false |} ].

(** The static variables of the file, the heap, and the balance of the mutex. *)
Record state := {
  nodes : gmap Z (registered_interface * Z);
  registered_interfaces : Z;
  interface_mutex : Z;
  interface_handler : option (string -> bool -> bool);
  latest_queried_interface : Z;
  init_level : Z;
  held : Z    (* acquisitions minus releases of the mutex *)
}.

(** What the kernel answers during one operation. *)
Record answers := {
  acquire_answer : uacpi_status;
  node_memory : option Z;       (* uacpi_kernel_alloc(sizeof( *interface )) *)
  name_memory : bool            (* uacpi_kernel_alloc(name_size) succeeds *)
}.

Abbreviation M := (SM state).

Definition set_nodes (h : gmap Z (registered_interface * Z)) (s : state) : state := {|
  nodes := h; registered_interfaces := registered_interfaces s;
  interface_mutex := interface_mutex s; interface_handler := interface_handler s;
  latest_queried_interface := latest_queried_interface s; init_level := init_level s;
  held := held s |}.

Definition set_head (p : Z) (s : state) : state := {|
  nodes := nodes s; registered_interfaces := p;
  interface_mutex := interface_mutex s; interface_handler := interface_handler s;
  latest_queried_interface := latest_queried_interface s; init_level := init_level s;
  held := held s |}.

Definition set_held (n : Z) (s : state) : state := {|
  nodes := nodes s; registered_interfaces := registered_interfaces s;
  interface_mutex := interface_mutex s; interface_handler := interface_handler s;
  latest_queried_interface := latest_queried_interface s; init_level := init_level s;
  held := n |}.

Definition set_handler (f : option (string -> bool -> bool)) (s : state) : state := {|
  nodes := nodes s; registered_interfaces := registered_interfaces s;
  interface_mutex := interface_mutex s; interface_handler := f;
  latest_queried_interface := latest_queried_interface s; init_level := init_level s;
  held := held s |}.

Definition set_latest (n : Z) (s : state) : state := {|
  nodes := nodes s; registered_interfaces := registered_interfaces s;
  interface_mutex := interface_mutex s; interface_handler := interface_handler s;
  latest_queried_interface := n; init_level := init_level s; held := held s |}.

(** ** Nodes *)

Definition get_node (p : Z) : M (registered_interface * Z) := fun s =>
  match nodes s !! p with Some x => Some (x, s) | None => None end.

Definition put_node (p : Z) (x : registered_interface * Z) : M unit :=
  update_state (fun s => set_nodes (<[p := x]> (nodes s)) s).

Definition free_node (p : Z) : M unit := update_state (fun s => set_nodes (delete p (nodes s)) s).

Definition set_disabled (b : bool) (i : registered_interface) : registered_interface := {|
  name := name i; weight := weight i; kind := kind i; host_type := host_type i;
  disabled := b; dynamic := dynamic i |}.

(** [interface->disabled = b] *)
Definition put_disabled (p : Z) (b : bool) : M unit :=
  x ← get_node p; put_node p (set_disabled b (fst x), snd x).

Definition acquire (k : answers) : M uacpi_status := fun s =>
  if interface_mutex s =? 0 then Some (UACPI_STATUS_INVALID_ARGUMENT, s)
  else Some (acquire_answer k, if is_ok (acquire_answer k) then set_held (held s + 1) s else s).

Definition release : M unit := fun s =>
  Some (tt, if interface_mutex s =? 0 then s else set_held (held s - 1) s).

Definition INIT_LEVEL_SUBSYSTEM_INITIALIZED : Z := 1.

Definition ensure_init_level (k : M uacpi_status) : M uacpi_status :=
  lvl ← gets_state init_level;
  if lvl <? INIT_LEVEL_SUBSYSTEM_INITIALIZED then mret UACPI_STATUS_INIT_LEVEL_MISMATCH else k.

(** Run [c] between the acquisition of the mutex and its release; a failed
    acquisition is the result. *)
Definition with_mutex (k : answers) (c : M uacpi_status) : M uacpi_status :=
  ret ← acquire k;
  if negb (is_ok ret) then mret ret else
  ret ← c; release;; mret ret.

(** ** Operations *)

(** The predefined nodes are an array: node [i] of it is at [base + 24 * i]. *)
Fixpoint link_from (l : list registered_interface) (p : Z) : gmap Z (registered_interface * Z) :=
  match l with
  | [] => ∅
  | i :: l' => <[p := (i, match l' with [] => 0 | _ => p + 24 end)]> (link_from l' (p + 24))
  end.

(** [mutex] is what [uacpi_kernel_create_mutex] returns; [array] are the current
    contents of the static array at [base]. *)
Definition uacpi_initialize_interfaces (base mutex : Z) (array : list registered_interface) :
    M uacpi_status :=
  update_state (fun s => set_head base s);;
  update_state (fun s => {| nodes := nodes s; registered_interfaces := registered_interfaces s;
    interface_mutex := mutex; interface_handler := interface_handler s;
    latest_queried_interface := latest_queried_interface s; init_level := init_level s;
    held := held s |});;
  if mutex =? 0 then mret UACPI_STATUS_OUT_OF_MEMORY else
  update_state (fun s => set_nodes (link_from array base ∪ nodes s) s);;
  mret UACPI_STATUS_OK.

(** The nodes from [next] on: dynamic ones are freed, the others go back to their
    default. *)
Fixpoint deinit_interfaces (fuel : nat) (next_iface : Z) : M unit :=
  match fuel with
  | O => undefined
  | S fuel' =>
      if next_iface =? 0 then mret tt else
      x ← get_node next_iface;
      let iface := next_iface in
      (if dynamic (fst x) then free_node iface
       else put_node iface
         (set_disabled (kind (fst x) =? UACPI_INTERFACE_KIND_FEATURE) (fst x), 0));;
      deinit_interfaces fuel' (snd x)
  end.

Definition uacpi_deinitialize_interfaces : M unit :=
  s ← get_state;
  deinit_interfaces (walk_fuel (nodes s)) (registered_interfaces s);;
  update_state (fun s => {| nodes := nodes s; registered_interfaces := 0; interface_mutex := 0;
    interface_handler := None; latest_queried_interface := 0; init_level := init_level s;
    held := held s |}).

Definition uacpi_latest_queried_vendor_interface : M Z := gets_state latest_queried_interface.

Definition find_interface_unlocked (nm : string) : M Z := fun s =>
  match find_from (walk_fuel (nodes s)) (fun i => bool_decide (name i = nm)) (nodes s)
          (registered_interfaces s) with
  | Some p => Some (p, s)
  | None => None
  end.

Definition find_host_interface_unlocked (type : Z) : M Z := fun s =>
  match find_from (walk_fuel (nodes s)) (fun i => host_type i =? type) (nodes s)
          (registered_interfaces s) with
  | Some p => Some (p, s)
  | None => None
  end.

Definition uacpi_install_interface (k : answers) (nm : string) (knd : Z) : M uacpi_status :=
  ensure_init_level (with_mutex k (
    p ← find_interface_unlocked nm;
    if negb (p =? 0) then
      x ← get_node p;
      (if disabled (fst x) then put_disabled p false else mret tt);;
      mret UACPI_STATUS_ALREADY_EXISTS
    else
    match node_memory k with
    | None => mret UACPI_STATUS_OUT_OF_MEMORY
    | Some p =>
        if negb (name_memory k) then mret UACPI_STATUS_OUT_OF_MEMORY else
        head ← gets_state registered_interfaces;
        put_node p ({| name := nm; weight := 0; kind := u8 knd; host_type := 0;
                       disabled := false; dynamic := true |}, head);;
        update_state (set_head p);;
        mret UACPI_STATUS_OK
    end)).

(** The walk of the loop ends at [cur], with [prev] the node before it. *)
Definition find_with_prev (nm : string) : M (Z * Z) := fun s =>
  match find_prev (walk_fuel (nodes s)) (fun i => bool_decide (name i = nm)) (nodes s)
          (registered_interfaces s) (registered_interfaces s) with
  | Some r => Some (r, s)
  | None => None
  end.

Definition uacpi_uninstall_interface (k : answers) (nm : string) : M uacpi_status :=
  ensure_init_level (
    ret ← acquire k;
    if negb (is_ok ret) then mret ret else
    r ← find_with_prev nm;
    let '(prev, cur) := (r : Z * Z) in
    if cur =? 0 then release;; mret UACPI_STATUS_NOT_FOUND else
    x ← get_node cur;
    if dynamic (fst x) then
      (if prev =? cur then update_state (set_head (snd x))
       else y ← get_node prev; put_node prev (fst y, snd x));;
      release;;
      free_node cur;;
      mret UACPI_STATUS_OK
    else
      ret ← (if negb (disabled (fst x)) then put_disabled cur true;; mret UACPI_STATUS_OK
             else mret UACPI_STATUS_NOT_FOUND);
      release;;
      mret ret).

Definition configure_host_interface (k : answers) (type : Z) (enabled : bool) : M uacpi_status :=
  ensure_init_level (with_mutex k (
    p ← find_host_interface_unlocked type;
    if p =? 0 then mret UACPI_STATUS_NOT_FOUND else
    put_disabled p (negb enabled);; mret UACPI_STATUS_OK)).

Definition uacpi_enable_host_interface (k : answers) (type : Z) : M uacpi_status :=
  configure_host_interface k type true.

Definition uacpi_disable_host_interface (k : answers) (type : Z) : M uacpi_status :=
  configure_host_interface k type false.

Definition uacpi_set_interface_query_handler (k : answers) (handler : option (string -> bool -> bool)) :
    M uacpi_status :=
  ensure_init_level (with_mutex k (
    cur ← gets_state interface_handler;
    match cur, handler with
    | Some _, Some _ => mret UACPI_STATUS_ALREADY_EXISTS
    | _, _ => update_state (set_handler handler);; mret UACPI_STATUS_OK
    end)).

Definition UACPI_INTERFACE_ACTION_DISABLE : Z := 0.

Fixpoint bulk_loop (fuel : nat) (action knd p : Z) : M unit :=
  match fuel with
  | O => undefined
  | S fuel' =>
      if p =? 0 then mret tt else
      x ← get_node p;
      (if negb (Z.land knd (kind (fst x)) =? 0)
       then put_disabled p (action =? UACPI_INTERFACE_ACTION_DISABLE) else mret tt);;
      bulk_loop fuel' action knd (snd x)
  end.

Definition uacpi_bulk_configure_interfaces (k : answers) (action knd : Z) : M uacpi_status :=
  ensure_init_level (with_mutex k (
    s ← get_state;
    bulk_loop (walk_fuel (nodes s)) action knd (registered_interfaces s);;
    mret UACPI_STATUS_OK)).

(** The status and [*out_value] (unchanged, here [None], when the mutex fails). *)
Definition uacpi_handle_osi (k : answers) (str : string) : M (uacpi_status * option bool) :=
  ret ← acquire k;
  if negb (is_ok ret) then mret (ret, None) else
  p ← find_interface_unlocked str;
  is_supported ←
    (if p =? 0 then mret false else
     x ← get_node p;
     latest ← gets_state latest_queried_interface;
     (if latest <? weight (fst x) then update_state (set_latest (weight (fst x))) else mret tt);;
     handler ← gets_state interface_handler;
     mret (match handler with
           | Some f => f str (negb (disabled (fst x)))
           | None => negb (disabled (fst x))
           end));
  release;;
  mret (UACPI_STATUS_OK, Some is_supported).

(** ** Specification

    The interfaces as a list, without pointers or memory. *)

Module Spec.

Section First.
Context {A : Type} (f : A -> bool).

Fixpoint update_first (g : A -> A) (l : list A) : list A :=
  match l with [] => [] | a :: l' => if f a then g a :: l' else a :: update_first g l' end.

Fixpoint remove_first (l : list A) : list A :=
  match l with [] => [] | a :: l' => if f a then l' else a :: remove_first l' end.
End First.

Definition named (nm : string) (i : registered_interface) : bool := bool_decide (name i = nm).
Definition is_host (type : Z) (i : registered_interface) : bool := host_type i =? type.

Definition lookup_named (nm : string) (l : list registered_interface) : option registered_interface :=
  List.find (named nm) l.

Definition install (mem : bool) (nm : string) (knd : Z) (l : list registered_interface) :=
  match lookup_named nm l with
  | Some _ => (UACPI_STATUS_ALREADY_EXISTS, update_first (named nm) (set_disabled false) l)
  | None => if mem then (UACPI_STATUS_OK,
      {| name := nm; weight := 0; kind := u8 knd; host_type := 0; disabled := false;
         dynamic := true |} :: l)
    else (UACPI_STATUS_OUT_OF_MEMORY, l)
  end.

Definition uninstall (nm : string) (l : list registered_interface) :=
  match lookup_named nm l with
  | None => (UACPI_STATUS_NOT_FOUND, l)
  | Some i =>
      if dynamic i then (UACPI_STATUS_OK, remove_first (named nm) l)
      else if disabled i then (UACPI_STATUS_NOT_FOUND, l)
      else (UACPI_STATUS_OK, update_first (named nm) (set_disabled true) l)
  end.

Definition host (type : Z) (enabled : bool) (l : list registered_interface) :=
  match List.find (is_host type) l with
  | None => (UACPI_STATUS_NOT_FOUND, l)
  | Some _ => (UACPI_STATUS_OK, update_first (is_host type) (set_disabled (negb enabled)) l)
  end.

Definition bulk (action knd : Z) (l : list registered_interface) :=
  (UACPI_STATUS_OK, map (fun i =>
     if negb (Z.land knd (kind i) =? 0)
     then set_disabled (action =? UACPI_INTERFACE_ACTION_DISABLE) i else i) l).

Definition supported (nm : string) (l : list registered_interface) : bool :=
  match lookup_named nm l with Some i => negb (disabled i) | None => false end.

End Spec.

(** The operations that change the list. *)
Inductive op :=
  | Install (nm : string) (knd : Z)
  | Uninstall (nm : string)
  | Host (type : Z) (enabled : bool)
  | Bulk (action knd : Z).

Definition run_op (k : answers) (o : op) : M uacpi_status :=
  match o with
  | Install nm knd => uacpi_install_interface k nm knd
  | Uninstall nm => uacpi_uninstall_interface k nm
  | Host type enabled => configure_host_interface k type enabled
  | Bulk action knd => uacpi_bulk_configure_interfaces k action knd
  end.

Definition memory_ok (k : answers) : bool :=
  match node_memory k with Some _ => name_memory k | None => false end.

Definition spec_op (k : answers) (o : op) (l : list registered_interface) :
    uacpi_status * list registered_interface :=
  match o with
  | Install nm knd => Spec.install (memory_ok k) nm knd l
  | Uninstall nm => Spec.uninstall nm l
  | Host type enabled => Spec.host type enabled l
  | Bulk action knd => Spec.bulk action knd l
  end.

(** ** Lemmas *)

(** The list that the pointers of a state represent. *)
Definition listed (s : state) (l : list registered_interface) : Prop :=
  exists pl, rep (nodes s) (registered_interfaces s) pl /\ pl.*2 = l.

Definition ready (s : state) : Prop := 1 <= init_level s /\ interface_mutex s <> 0.

(** What the list operations leave alone: the mutex ends as it was. *)
Definition frame (s s' : state) : Prop :=
  interface_mutex s' = interface_mutex s /\ interface_handler s' = interface_handler s /\
  latest_queried_interface s' = latest_queried_interface s /\ init_level s' = init_level s /\
  held s' = held s.

#[export] Instance frame_refl : Reflexive frame.
Proof. intros s; repeat split. Qed.
#[export] Instance frame_trans : Transitive frame.
Proof. intros s1 s2 s3 (?&?&?&?&?) (?&?&?&?&?); repeat split; congruence. Qed.

(** [c] run from [s] returns [ret], leaves the list [l], and nothing else changes. *)
Definition gives (c : M uacpi_status) (s : state) (r : uacpi_status * list registered_interface) :
    Prop :=
  exists s', c s = Some (fst r, s') /\ listed s' (snd r) /\ frame s s'.

Definition locked (s : state) : state := set_held (held s + 1) s.

Lemma acquire_ready k s : ready s -> acquire_answer k = UACPI_STATUS_OK ->
  acquire k s = Some (UACPI_STATUS_OK, locked s).
Proof.
  intros [_ Hm] Ek; unfold acquire; destruct (Z.eqb_spec (interface_mutex s) 0); [contradiction|].
  rewrite Ek; reflexivity.
Qed.

Lemma ensure_ready c s : ready s -> ensure_init_level c s = c s.
Proof.
  intros [Hl _]; unfold ensure_init_level; smunfold.
  destruct (Z.ltb_spec (init_level s) INIT_LEVEL_SUBSYSTEM_INITIALIZED) as [H|H]; [|reflexivity].
  unfold INIT_LEVEL_SUBSYSTEM_INITIALIZED in H; lia.
Qed.

Lemma release_locked s s1 : interface_mutex s <> 0 -> frame (locked s) s1 ->
  exists s2, release s1 = Some (tt, s2) /\ frame s s2 /\ nodes s2 = nodes s1 /\
    registered_interfaces s2 = registered_interfaces s1.
Proof.
  intros Hm (E1 & E2 & E3 & E4 & E5); unfold release; rewrite E1; simpl.
  destruct (Z.eqb_spec (interface_mutex s) 0); [contradiction|].
  eexists; split; [reflexivity|]; unfold locked, set_held in *; simpl in *; repeat split; simpl; try assumption; lia.
Qed.

Lemma with_mutex_gives k c s r : ready s -> acquire_answer k = UACPI_STATUS_OK ->
  gives c (locked s) r -> gives (ensure_init_level (with_mutex k c)) s r.
Proof.
  intros Hr Ek (s1 & E & (pl & Hl & El) & Hf); unfold gives; rewrite ensure_ready by assumption.
  unfold with_mutex; rewrite (SM_bind_Some _ _ _ _ _ (acquire_ready k s Hr Ek)); cbn [is_ok negb]; cbv beta iota.
  rewrite (SM_bind_Some _ _ _ _ _ E).
  destruct (release_locked s s1 (proj2 Hr) Hf) as (s2 & E2 & Hf2 & En & Eh).
  rewrite (SM_bind_Some _ _ _ _ _ E2); exists s2; repeat split; try apply Hf2.
  exists pl; rewrite En, Eh; auto.
Qed.

Lemma find_split {A B} (f : B -> bool) (l : list (A * B)) :
  (List.find (fun x => f (snd x)) l = None /\ List.find f l.*2 = None) \/
  (exists l1 q a l2, l = l1 ++ (q, a) :: l2 /\ f a = true /\
     forallb (fun b => negb (f b)) l1.*2 = true /\
     List.find (fun x => f (snd x)) l = Some (q, a) /\ List.find f l.*2 = Some a).
Proof.
  induction l as [|[q a] l IH]; [left; auto|]; cbn [List.find snd fmap list_fmap].
  destruct (f a) eqn:E; [right; exists [], q, a, l; auto|].
  destruct IH as [IH|(l1 & r & b & l2 & -> & Hb & H1 & Hf & Hg)]; [left; exact IH|].
  right; exists ((q, a) :: l1), r, b, l2; cbn; rewrite E; auto.
Qed.

Lemma update_first_app {A} (f : A -> bool) g l1 a l2 : forallb (fun b => negb (f b)) l1 = true ->
  f a = true -> Spec.update_first f g (l1 ++ a :: l2) = l1 ++ g a :: l2.
Proof.
  intros H Ha; induction l1 as [|b l1 IH]; cbn in *; [rewrite Ha; reflexivity|].
  apply andb_prop in H as [Hb H]; apply negb_true_iff in Hb; rewrite Hb, IH by assumption; reflexivity.
Qed.

Lemma remove_first_app {A} (f : A -> bool) l1 a l2 : forallb (fun b => negb (f b)) l1 = true ->
  f a = true -> Spec.remove_first f (l1 ++ a :: l2) = l1 ++ l2.
Proof.
  intros H Ha; induction l1 as [|b l1 IH]; cbn in *; [rewrite Ha; reflexivity|].
  apply andb_prop in H as [Hb H]; apply negb_true_iff in Hb; rewrite Hb, IH by assumption; reflexivity.
Qed.

Lemma snd_middle {A B} (l1 : list (A * B)) q a l2 : (l1 ++ (q, a) :: l2).*2 = l1.*2 ++ a :: l2.*2.
Proof. rewrite fmap_app; reflexivity. Qed.

(** A change of one node's [disabled]. *)
Lemma put_disabled_listed s l1 q a l2 b :
  rep (nodes s) (registered_interfaces s) (l1 ++ (q, a) :: l2) ->
  exists s', put_disabled q b s = Some (tt, s') /\
    listed s' (l1.*2 ++ set_disabled b a :: l2.*2) /\ frame s s'.
Proof.
  intros H; destruct (rep_lookup _ _ _ _ _ _ H) as (_ & n & E).
  unfold put_disabled, get_node, put_node; smunfold; rewrite E.
  eexists; split; [reflexivity|split; [|repeat split]].
  exists (l1 ++ (q, set_disabled b a) :: l2); split; [|apply snd_middle].
  apply (rep_update _ _ _ _ _ _ _ _ H E).
Qed.

Lemma get_node_listed s l1 q a l2 : rep (nodes s) (registered_interfaces s) (l1 ++ (q, a) :: l2) ->
  q <> 0 /\ exists n, nodes s !! q = Some (a, n) /\ get_node q s = Some ((a, n), s).
Proof.
  intros H; destruct (rep_lookup _ _ _ _ _ _ H) as (Hq & n & E); split; [assumption|].
  exists n; unfold get_node; rewrite E; auto.
Qed.

Lemma set_disabled_same i : set_disabled (disabled i) i = i.
Proof. destruct i; reflexivity. Qed.

Lemma find_interface_listed nm s pl : rep (nodes s) (registered_interfaces s) pl ->
  find_interface_unlocked nm s =
  Some (ptr (List.find (fun x => Spec.named nm (snd x)) pl), s).
Proof.
  intros H; pose proof (find_from_rep (Spec.named nm) _ _ _ H) as E; unfold Spec.named in *.
  unfold find_interface_unlocked; rewrite E; reflexivity.
Qed.

Lemma find_host_listed type s pl : rep (nodes s) (registered_interfaces s) pl ->
  find_host_interface_unlocked type s =
  Some (ptr (List.find (fun x => Spec.is_host type (snd x)) pl), s).
Proof.
  intros H; pose proof (find_from_rep (Spec.is_host type) _ _ _ H) as E; unfold Spec.is_host in *.
  unfold find_host_interface_unlocked; rewrite E; reflexivity.
Qed.

(** ** Each operation *)

Lemma install_gives k nm knd s l : listed s l ->
  (forall p, node_memory k = Some p -> p <> 0 /\ nodes s !! p = None) ->
  ready s -> acquire_answer k = UACPI_STATUS_OK ->
  gives (uacpi_install_interface k nm knd) s (Spec.install (memory_ok k) nm knd l).
Proof.
  intros (pl & Hl & <-) Hmem Hr Ek; apply with_mutex_gives; [assumption..|].
  unfold gives; set (s1 := locked s).
  change (rep (nodes s1) (registered_interfaces s1) pl) in Hl.
  change (forall p, node_memory k = Some p -> p <> 0 /\ nodes s1 !! p = None) in Hmem; clearbody s1.
  unfold Spec.install, Spec.lookup_named.
  destruct (find_split (Spec.named nm) pl) as [[F1 F2]|(l1 & q & a & l2 & -> & Ha & H1 & F1 & F2)].
  - rewrite F2, (SM_bind_Some _ _ _ 0 s1).
    2:{ rewrite (find_interface_listed nm _ _ Hl), F1; reflexivity. }
    change (negb (0 =? 0)) with false; cbv beta iota; unfold memory_ok.
    destruct (node_memory k) as [p|] eqn:Ep.
    + destruct (Hmem p eq_refl) as [Hp En]; destruct (name_memory k); cbn [negb]; cbv beta iota;
        [|exists s1; repeat split; exists pl; auto].
      smunfold; unfold put_node; smunfold; eexists; split; [reflexivity|split; [|repeat split]].
      eexists ((p, _) :: pl); split; [|reflexivity].
      apply (rep_push _ _ _ _ _ Hl En Hp).
    + exists s1; repeat split; exists pl; auto.
  - rewrite F2, (SM_bind_Some _ _ _ q s1).
    2:{ rewrite (find_interface_listed nm _ _ Hl), F1; reflexivity. }
    destruct (get_node_listed _ _ _ _ _ Hl) as (Hq & n & En & Eg).
    destruct (Z.eqb_spec q 0); [contradiction|]; cbn [negb]; cbv beta iota.
    rewrite (SM_bind_Some _ _ _ _ _ Eg), snd_middle, update_first_app by assumption; simpl fst; simpl snd.
    destruct (disabled a) eqn:Ed.
    + destruct (put_disabled_listed _ _ _ _ _ false Hl) as (s2 & E2 & Hl2 & Hf).
      rewrite (SM_bind_Some _ _ _ _ _ E2); exists s2; auto.
    + rewrite <- Ed, set_disabled_same; exists s1; repeat split; eexists; split; [exact Hl|apply snd_middle].
Qed.

Lemma host_gives k type enabled s l : listed s l -> ready s -> acquire_answer k = UACPI_STATUS_OK ->
  gives (configure_host_interface k type enabled) s (Spec.host type enabled l).
Proof.
  intros (pl & Hl & <-) Hr Ek; apply with_mutex_gives; [assumption..|].
  unfold gives; set (s1 := locked s).
  change (rep (nodes s1) (registered_interfaces s1) pl) in Hl; clearbody s1; unfold Spec.host.
  destruct (find_split (Spec.is_host type) pl) as [[F1 F2]|(l1 & q & a & l2 & -> & Ha & H1 & F1 & F2)];
    rewrite F2, (SM_bind_Some _ _ _ _ _ (find_host_listed type _ _ Hl)), F1; cbn [ptr].
  - exists s1; repeat split; exists pl; auto.
  - destruct (get_node_listed _ _ _ _ _ Hl) as (Hq & _); destruct (Z.eqb_spec q 0); [contradiction|].
    destruct (put_disabled_listed _ _ _ _ _ (negb enabled) Hl) as (s2 & E2 & Hl2 & Hf).
    rewrite (SM_bind_Some _ _ _ _ _ E2); exists s2; repeat split; try apply Hf.
    cbn [snd]; rewrite snd_middle, update_first_app by assumption; exact Hl2.
Qed.

(** Where the walk of an uninstallation ends. *)
Lemma find_with_prev_listed nm s pl : rep (nodes s) (registered_interfaces s) pl ->
  (Spec.lookup_named nm pl.*2 = None /\ exists v, find_with_prev nm s = Some ((v, 0), s)) \/
  (exists l1 q a l2, pl = l1 ++ (q, a) :: l2 /\ Spec.named nm a = true /\
     Spec.lookup_named nm pl.*2 = Some a /\
     forallb (fun b => negb (Spec.named nm b)) l1.*2 = true /\
     find_with_prev nm s =
       Some ((match last l1 with Some (v, _) => v | None => registered_interfaces s end, q), s)).
Proof.
  intros H; unfold find_with_prev.
  assert (Hfuel : (length pl < walk_fuel (nodes s))%nat).
  { pose proof (rep_size _ _ _ H); unfold walk_fuel; lia. }
  destruct (find_prev_seg (Spec.named nm) _ _ _ (registered_interfaces s) _ (proj1 H) Hfuel)
    as [[Hn [v Hv]]|(l1 & q & a & l2 & E & Ha & H1 & Hf)].
  - left; split; [|exists v; unfold Spec.named in Hv; rewrite Hv; reflexivity].
    destruct (find_split (Spec.named nm) pl) as [[_ F]|(l1 & q & a & l2 & -> & Ha & _)]; [exact F|].
    rewrite forallb_app in Hn; cbn in Hn; rewrite Ha, andb_false_r in Hn; discriminate.
  - right; exists l1, q, a, l2; unfold Spec.named in Hf; rewrite Hf.
    assert (H1' : forallb (fun b => negb (Spec.named nm b)) l1.*2 = true).
    { rewrite forallb_forall in *; intros b Hb%list_elem_of_In%list_elem_of_fmap.
      destruct Hb as ([c d] & -> & Hc%list_elem_of_In); exact (H1 _ Hc). }
    repeat split; try assumption; subst pl; rewrite snd_middle; clear -H1' Ha.
    unfold Spec.lookup_named; induction (l1.*2) as [|b l IH]; cbn in *; [rewrite Ha; reflexivity|].
    apply andb_prop in H1' as [Hb H]; apply negb_true_iff in Hb; rewrite Hb; exact (IH H).
Qed.

(** Unlinking a node that the walk found. *)
Lemma unlink_listed s l1 q a l2 n : rep (nodes s) (registered_interfaces s) (l1 ++ (q, a) :: l2) ->
  nodes s !! q = Some (a, n) ->
  exists s', (if match last l1 with Some (v, _) => v | None => registered_interfaces s end =? q
              then update_state (set_head n)
              else y ← get_node match last l1 with Some (v, _) => v | None => registered_interfaces s end;
                   put_node match last l1 with Some (v, _) => v | None => registered_interfaces s end
                     (fst y, n)) s = Some (tt, s') /\
    rep (delete q (nodes s')) (registered_interfaces s') (l1 ++ l2) /\ frame s s'.
Proof.
  intros H E; destruct l1 as [|[v b] l _] using rev_ind; [|rewrite last_snoc].
  - cbn [last]; pose proof H as [(Eh & _) _]; rewrite Eh, Z.eqb_refl.
    exists (set_head n s); repeat split; rewrite Eh in H; apply (rep_pop _ _ _ _ _ H E).
  - rewrite <- app_assoc in H; destruct (rep_unlink _ _ _ _ _ _ _ _ _ H E) as [Ev Hu].
    assert (Hne : v <> q).
    { destruct H as [_ H]; rewrite fmap_app in H; cbn in H; apply NoDup_app in H as (_ & _ & H).
      apply NoDup_cons in H as [H _]; intros ->; apply H; left. }
    destruct (Z.eqb_spec v q); [contradiction|]; unfold get_node, put_node; smunfold; rewrite Ev.
    eexists; split; [reflexivity|split; [|repeat split]]; rewrite <- app_assoc; exact Hu.
Qed.

Lemma uninstall_gives k nm s l : listed s l -> ready s -> acquire_answer k = UACPI_STATUS_OK ->
  gives (uacpi_uninstall_interface k nm) s (Spec.uninstall nm l).
Proof.
  intros (pl & Hl & <-) Hr Ek; unfold gives, uacpi_uninstall_interface; rewrite ensure_ready by assumption.
  rewrite (SM_bind_Some _ _ _ _ _ (acquire_ready k s Hr Ek)); cbn [is_ok negb]; cbv beta iota.
  assert (Hrel : forall s1, frame (locked s) s1 -> exists s2, release s1 = Some (tt, s2) /\
    frame s s2 /\ nodes s2 = nodes s1 /\ registered_interfaces s2 = registered_interfaces s1).
  { intros s1; apply release_locked, Hr. }
  change (rep (nodes (locked s)) (registered_interfaces (locked s)) pl) in Hl.
  assert (Hf0 : frame (locked s) (locked s)) by reflexivity; unfold Spec.uninstall.
  destruct (find_with_prev_listed nm _ _ Hl)
    as [[F [v Hv]]|(l1 & q & a & l2 & -> & Ha & F & H1 & Hv)];
    rewrite F, (SM_bind_Some _ _ _ _ _ Hv); cbv beta iota zeta.
  - destruct (Hrel _ Hf0) as (s2 & E2 & Hf & En & Eh).
    change (0 =? 0) with true; cbv iota; rewrite (SM_bind_Some _ _ _ _ _ E2).
    exists s2; repeat split; try apply Hf; exists pl; rewrite En, Eh; auto.
  - destruct (get_node_listed _ _ _ _ _ Hl) as (Hq & n & En & Eg).
    destruct (Z.eqb_spec q 0); [contradiction|]; rewrite (SM_bind_Some _ _ _ _ _ Eg); cbn [fst snd].
    rewrite snd_middle, remove_first_app, update_first_app by assumption.
    destruct (dynamic a) eqn:Ed; [|destruct (disabled a) eqn:Ex]; cbn [negb fst snd].
    + destruct (unlink_listed _ _ _ _ _ _ Hl En) as (s1 & E1 & Hu & Hf1).
      rewrite (SM_bind_Some _ _ _ _ _ E1).
      destruct (Hrel s1 Hf1) as (s2 & E2 & Hf & En2 & Eh2).
      rewrite (SM_bind_Some _ _ _ _ _ E2); unfold free_node; smunfold.
      eexists; split; [reflexivity|split; [|exact Hf]].
      exists (l1 ++ l2); cbn; rewrite En2, Eh2; split; [exact Hu|apply fmap_app].
    + destruct (Hrel _ Hf0) as (s2 & E2 & Hf & En2 & Eh).
      rewrite (SM_bind_Some _ _ _ UACPI_STATUS_NOT_FOUND (locked s)) by reflexivity.
      rewrite (SM_bind_Some _ _ _ _ _ E2).
      exists s2; repeat split; try apply Hf; eexists; rewrite En2, Eh; split; [exact Hl|apply snd_middle].
    + destruct (put_disabled_listed _ _ _ _ _ true Hl) as (s1 & E1 & (pl1 & Hl1 & El1) & Hf1).
      destruct (Hrel s1 Hf1) as (s2 & E2 & Hf & En2 & Eh2).
      rewrite (SM_bind_Some _ _ _ UACPI_STATUS_OK s1) by (rewrite (SM_bind_Some _ _ _ _ _ E1); reflexivity).
      rewrite (SM_bind_Some _ _ _ _ _ E2).
      exists s2; repeat split; try apply Hf; exists pl1; rewrite En2, Eh2; auto.
Qed.

Definition bulk_one (action knd : Z) (i : registered_interface) : registered_interface :=
  if negb (Z.land knd (kind i) =? 0)
  then set_disabled (action =? UACPI_INTERFACE_ACTION_DISABLE) i else i.

Lemma put_disabled_rep s l1 q a l2 n b :
  rep (nodes s) (registered_interfaces s) (l1 ++ (q, a) :: l2) -> nodes s !! q = Some (a, n) ->
  exists s', put_disabled q b s = Some (tt, s') /\ nodes s' !! q = Some (set_disabled b a, n) /\
    rep (nodes s') (registered_interfaces s') (l1 ++ (q, set_disabled b a) :: l2) /\ frame s s'.
Proof.
  intros H E; unfold put_disabled, get_node, put_node; smunfold; rewrite E.
  eexists; split; [reflexivity|cbn; split; [apply lookup_insert_eq|split; [|repeat split]]].
  apply (rep_update _ _ _ _ _ _ _ _ H E).
Qed.

Lemma bulk_loop_rep action knd rest : forall done s p fuel,
  rep (nodes s) (registered_interfaces s) (done ++ rest) -> seg (nodes s) p rest 0 ->
  (length rest < fuel)%nat ->
  exists s', bulk_loop fuel action knd p s = Some (tt, s') /\
    rep (nodes s') (registered_interfaces s') (done ++ map (fun x => (fst x, bulk_one action knd (snd x))) rest) /\
    frame s s'.
Proof.
  induction rest as [|[q a] rest IH]; intros done s p [|fuel] H Hs Hf; cbn [length] in Hf; try lia;
    cbn [seg] in Hs; cbn [bulk_loop map].
  - subst p; exists s; repeat split; apply H.
  - destruct Hs as (-> & Hq & n & E & _); destruct (Z.eqb_spec q 0); [contradiction|].
    rewrite (SM_bind_Some _ _ _ (a, n) s) by (unfold get_node; rewrite E; reflexivity); cbn [fst snd].
    assert (H1 : exists s1, (if negb (Z.land knd (kind a) =? 0)
        then put_disabled q (action =? UACPI_INTERFACE_ACTION_DISABLE) else mret tt) s = Some (tt, s1) /\
      nodes s1 !! q = Some (bulk_one action knd a, n) /\
      rep (nodes s1) (registered_interfaces s1) (done ++ (q, bulk_one action knd a) :: rest) /\ frame s s1).
    { unfold bulk_one; destruct (negb _); [apply put_disabled_rep; assumption|].
      exists s; repeat split; try assumption; apply H. }
    destruct H1 as (s1 & E1 & En & Hr & Hf1); rewrite (SM_bind_Some _ _ _ _ _ E1).
    pose proof (rep_next _ _ _ _ _ _ _ Hr En) as Hn; rewrite (cons_middle _ done rest) in Hr.
    destruct (IH (done ++ [(q, bulk_one action knd a)]) s1 n fuel) as (s2 & E2 & Hr2 & Hf2);
      [rewrite <- app_assoc; exact Hr|exact Hn|lia|].
    exists s2; split; [exact E2|split; [|etransitivity; eassumption]].
    rewrite <- app_assoc in Hr2; exact Hr2.
Qed.

Lemma bulk_gives k action knd s l : listed s l -> ready s -> acquire_answer k = UACPI_STATUS_OK ->
  gives (uacpi_bulk_configure_interfaces k action knd) s (Spec.bulk action knd l).
Proof.
  intros (pl & Hl & <-) Hr Ek; apply with_mutex_gives; [assumption..|].
  unfold gives; set (s1 := locked s).
  change (rep (nodes s1) (registered_interfaces s1) pl) in Hl; clearbody s1.
  rewrite (SM_bind_Some _ _ _ s1 s1) by reflexivity.
  destruct (bulk_loop_rep action knd pl [] s1 (registered_interfaces s1) (walk_fuel (nodes s1)))
    as (s2 & E2 & Hl2 & Hf); [exact Hl|apply Hl| |].
  { pose proof (rep_size _ _ _ Hl); unfold walk_fuel; lia. }
  rewrite (SM_bind_Some _ _ _ _ _ E2); exists s2; repeat split; try apply Hf.
  eexists; split; [exact Hl2|]; cbn [app snd Spec.bulk fst]; clear.
  induction pl as [|[q a] pl IH]; cbn; [reflexivity|f_equal; exact IH].
Qed.

(** ** Theorems *)

(** What an operation needs: the subsystem is initialised, the mutex is free to be
    taken, and memory the allocator hands out is not in use. *)
Definition call_ok (k : answers) (s : state) : Prop :=
  ready s /\ acquire_answer k = UACPI_STATUS_OK /\
  (forall p, node_memory k = Some p -> p <> 0 /\ nodes s !! p = None).

(** The linked list refines a plain list.  Installing, uninstalling, enabling
    or disabling an interface, alone, by host type or in bulk, walks and rewires the
    nodes so that the list they form, and the status returned on every branch, are
    those of the specification on lists; the walks end, no pointer leads outside the
    nodes, memory failures change nothing, and the mutex and everything else are as
    they were. *)
Theorem osi_refines_list k o s l : call_ok k s -> listed s l -> gives (run_op k o) s (spec_op k o l).
Proof.
  intros (Hr & Ek & Hm) Hl; destruct o; cbn [run_op spec_op].
  - apply install_gives; assumption.
  - apply uninstall_gives; assumption.
  - apply host_gives; assumption.
  - apply bulk_gives; assumption.
Qed.

(** The list that [uacpi_initialize_interfaces] links. *)
Fixpoint array_at (p : Z) (l : list registered_interface) : list (Z * registered_interface) :=
  match l with [] => [] | i :: l' => (p, i) :: array_at (p + 24) l' end.

Lemma array_at_ge l : forall p q, q ∈ (array_at p l).*1 -> p <= q.
Proof.
  induction l as [|i l IH]; intros p q; cbn; [intros H; inversion H|].
  intros [->|H]%elem_of_cons; [lia|]; specialize (IH _ _ H); lia.
Qed.

Lemma link_from_rep l : forall p, 0 < p ->
  seg (link_from l p) (match l with [] => 0 | _ => p end) (array_at p l) 0 /\
  NoDup (array_at p l).*1.
Proof.
  induction l as [|i l IH]; intros p Hp; cbn [array_at link_from]; [split; [reflexivity|constructor]|].
  destruct (IH (p + 24)) as [H Hn]; [lia|].
  assert (Hne : p ∉ (array_at (p + 24) l).*1) by (intros H0%array_at_ge; lia).
  split; [|constructor; assumption]; repeat split; [lia|].
  eexists; split; [apply lookup_insert_eq|]; eapply seg_frame; [exact H|].
  intros r Hr; apply lookup_insert_ne; intros ->; contradiction.
Qed.

Lemma array_at_snd l : forall p, (array_at p l).*2 = l.
Proof. induction l as [|i l IH]; intros p; cbn; [reflexivity|f_equal; apply IH]. Qed.

Lemma initialize_listed base mutex l s : 0 < base -> mutex <> 0 -> l <> [] ->
  exists s', uacpi_initialize_interfaces base mutex l s = Some (UACPI_STATUS_OK, s') /\ listed s' l /\
    interface_mutex s' = mutex /\ init_level s' = init_level s.
Proof.
  intros Hb Hm Hl; unfold uacpi_initialize_interfaces; smunfold.
  destruct (Z.eqb_spec mutex 0); [contradiction|]; eexists; split; [reflexivity|].
  split; [|split; reflexivity]; exists (array_at base l); split; [|apply array_at_snd].
  destruct (link_from_rep l base Hb) as [H Hn]; split; [|assumption]; cbn.
  destruct l as [|i l]; [contradiction|]; eapply seg_frame; [exact H|].
  intros r Hr; destruct (seg_dom _ _ _ _ _ H Hr) as [[x Hx] _].
  rewrite Hx; apply lookup_union_Some_l; exact Hx.
Qed.

(** *** Queries *)

(** _OSI answers [b] for [nm] in state [s], and the query leaves the list alone. *)
Definition answers_osi (s : state) (nm : string) (b : bool) : Prop :=
  forall k, acquire_answer k = UACPI_STATUS_OK ->
    exists s', uacpi_handle_osi k nm s = Some ((UACPI_STATUS_OK, Some b), s') /\
      nodes s' = nodes s /\ registered_interfaces s' = registered_interfaces s /\ held s' = held s.

Lemma handle_osi_answers s l nm : listed s l -> ready s -> interface_handler s = None ->
  answers_osi s nm (Spec.supported nm l).
Proof.
  intros (pl & Hl & <-) Hr Hh k Ek; unfold uacpi_handle_osi.
  rewrite (SM_bind_Some _ _ _ _ _ (acquire_ready k s Hr Ek)); cbn [is_ok negb]; cbv beta iota.
  change (rep (nodes (locked s)) (registered_interfaces (locked s)) pl) in Hl.
  rewrite (SM_bind_Some _ _ _ _ _ (find_interface_listed nm _ _ Hl)); unfold Spec.supported, Spec.lookup_named.
  assert (Hrel : forall n, release (set_latest n (locked s)) = Some (tt, set_held (held s + 1 - 1) (set_latest n s))
     /\ release (locked s) = Some (tt, set_held (held s + 1 - 1) s)).
  { intros n; unfold release; cbn; destruct (Z.eqb_spec (interface_mutex s) 0);
      [destruct Hr; contradiction|split; reflexivity]. }
  destruct (find_split (Spec.named nm) pl) as [[F1 F2]|(l1 & q & a & l2 & -> & Ha & H1 & F1 & F2)];
    rewrite F1, F2; cbn [ptr].
  - change (0 =? 0) with true; cbv iota; rewrite (SM_bind_Some _ _ _ false (locked s)) by reflexivity.
    rewrite (SM_bind_Some _ _ _ _ _ (proj2 (Hrel 0))); eexists; split; [reflexivity|]; cbn; repeat split; lia.
  - destruct (get_node_listed _ _ _ _ _ Hl) as (Hq & n & En & Eg).
    destruct (Z.eqb_spec q 0); [contradiction|].
    set (s2 := if latest_queried_interface s <? weight a then set_latest (weight a) (locked s) else locked s).
    rewrite (SM_bind_Some _ _ _ (negb (disabled a)) s2).
    2:{ rewrite (SM_bind_Some _ _ _ _ _ Eg); unfold s2; smunfold; cbn [fst snd locked set_held latest_queried_interface].
        destruct (_ <? _); cbn; rewrite Hh; reflexivity. }
    unfold s2; destruct (_ <? _).
    + rewrite (SM_bind_Some _ _ _ _ _ (proj1 (Hrel (weight a)))); eexists; split; [reflexivity|].
      cbn; repeat split; lia.
    + rewrite (SM_bind_Some _ _ _ _ _ (proj2 (Hrel 0))); eexists; split; [reflexivity|].
      cbn; repeat split; lia.
Qed.

(** *** What a change does to the answers *)

Lemma named_true nm i : Spec.named nm i = true <-> name i = nm.
Proof. apply bool_decide_eq_true. Qed.

Lemma named_cong nm i j : name i = name j -> Spec.named nm i = Spec.named nm j.
Proof. unfold Spec.named; intros ->; reflexivity. Qed.

Lemma named_other nm nm' i : nm' <> nm -> Spec.named nm i = true -> Spec.named nm' i = false.
Proof.
  intros Hne <-%named_true; apply not_true_is_false; intros H%named_true; congruence.
Qed.

Lemma find_named_other nm nm' f l : nm' <> nm -> (forall i, name (f i) = name i) ->
  List.find (Spec.named nm') (Spec.update_first (Spec.named nm) f l) = List.find (Spec.named nm') l.
Proof.
  intros Hne Hf; induction l as [|a l IH]; cbn; [reflexivity|].
  destruct (Spec.named nm a) eqn:Ea; cbn; [|rewrite IH; reflexivity].
  rewrite (named_cong nm' (f a) a (Hf a)), (named_other nm nm' a Hne Ea); reflexivity.
Qed.

Lemma find_named_update nm f l : (forall i, name (f i) = name i) ->
  List.find (Spec.named nm) (Spec.update_first (Spec.named nm) f l) = f <$> List.find (Spec.named nm) l.
Proof.
  intros Hf; induction l as [|a l IH]; cbn; [reflexivity|].
  destruct (Spec.named nm a) eqn:Ea; cbn; [|rewrite Ea; exact IH].
  rewrite (named_cong nm (f a) a (Hf a)), Ea; reflexivity.
Qed.

Lemma find_named_remove nm l : NoDup (name <$> l) ->
  List.find (Spec.named nm) (Spec.remove_first (Spec.named nm) l) = None.
Proof.
  induction l as [|a l IH]; cbn; [reflexivity|]; intros [Ha Hn]%NoDup_cons.
  destruct (Spec.named nm a) eqn:Ea; cbn; [|rewrite Ea; apply IH, Hn].
  destruct (List.find (Spec.named nm) l) as [b|] eqn:Eb; [|reflexivity].
  apply List.find_some in Eb as [Hin Hb%named_true]; apply named_true in Ea.
  elim Ha; apply list_elem_of_fmap; exists b; split; [congruence|apply list_elem_of_In; exact Hin].
Qed.

Lemma find_named_remove_other nm nm' l : nm' <> nm ->
  List.find (Spec.named nm') (Spec.remove_first (Spec.named nm) l) = List.find (Spec.named nm') l.
Proof.
  intros Hne; induction l as [|a l IH]; cbn; [reflexivity|].
  destruct (Spec.named nm a) eqn:Ea; cbn; [|rewrite IH; reflexivity].
  rewrite (named_other nm nm' a Hne Ea); reflexivity.
Qed.

(** Names stay unique. *)
Lemma update_first_names f g l : (forall i, name (g i) = name i) ->
  name <$> Spec.update_first f g l = name <$> l.
Proof.
  intros Hg; induction l as [|a l IH]; cbn; [reflexivity|].
  destruct (f a); cbn; [rewrite Hg; reflexivity|f_equal; exact IH].
Qed.

Lemma remove_first_names f l : NoDup (name <$> l) -> NoDup (name <$> Spec.remove_first f l).
Proof.
  induction l as [|a l IH]; cbn; [auto|]; intros [Ha Hn]%NoDup_cons; destruct (f a); [assumption|].
  cbn; apply NoDup_cons; split; [|apply IH, Hn]; intros H; apply Ha; clear -H.
  induction l as [|b l IH]; cbn in *; [assumption|]; destruct (f b); [right; exact H|].
  apply elem_of_cons in H as [->|H]; [left|right; apply IH, H].
Qed.

Lemma not_found_names nm l : List.find (Spec.named nm) l = None -> nm ∉ (name <$> l).
Proof.
  intros H (i & -> & Hi%list_elem_of_In)%list_elem_of_fmap.
  pose proof (List.find_none _ _ H i Hi) as Hx; assert (Spec.named (name i) i = true) by (apply named_true; reflexivity).
  congruence.
Qed.

Lemma spec_op_names k o l : NoDup (name <$> l) -> NoDup (name <$> snd (spec_op k o l)).
Proof.
  intros Hn; destruct o as [nm knd|nm|type en|act knd]; cbn [spec_op].
  - unfold Spec.install, Spec.lookup_named; destruct (List.find _ l) eqn:E; cbn [snd].
    + rewrite update_first_names; auto.
    + destruct (memory_ok k); cbn [snd]; [|assumption]; cbn; apply NoDup_cons.
      split; [apply not_found_names|]; assumption.
  - unfold Spec.uninstall; destruct (Spec.lookup_named nm l) as [i|]; [|assumption].
    destruct (dynamic i); [apply remove_first_names; assumption|].
    destruct (disabled i); cbn [snd]; [assumption|rewrite update_first_names; auto].
  - unfold Spec.host; destruct (List.find _ l); cbn [snd]; [rewrite update_first_names; auto|assumption].
  - unfold Spec.bulk; cbn [snd]; replace (name <$> _) with (name <$> l); [assumption|].
    clear; induction l as [|a l IH]; cbn; [reflexivity|]; f_equal; [destruct (negb _); reflexivity|exact IH].
Qed.

Lemma spec_install_supported mem nm knd l : fst (Spec.install mem nm knd l) <> UACPI_STATUS_OUT_OF_MEMORY ->
  Spec.supported nm (snd (Spec.install mem nm knd l)) = true.
Proof.
  unfold Spec.install, Spec.supported, Spec.lookup_named; destruct (List.find _ l) eqn:E; cbn [fst snd].
  - intros _; rewrite find_named_update, E by reflexivity; reflexivity.
  - destruct mem; cbn [fst snd]; [|contradiction]; intros _; cbn.
    rewrite (proj2 (named_true nm _)) by reflexivity; reflexivity.
Qed.

Lemma spec_uninstall_supported nm l : NoDup (name <$> l) ->
  fst (Spec.uninstall nm l) = UACPI_STATUS_OK -> Spec.supported nm (snd (Spec.uninstall nm l)) = false.
Proof.
  intros Hn; unfold Spec.uninstall, Spec.supported; destruct (Spec.lookup_named nm l) as [i|] eqn:E; [|discriminate].
  unfold Spec.lookup_named in *; destruct (dynamic i); cbn [fst snd].
  - intros _; rewrite find_named_remove by assumption; reflexivity.
  - destruct (disabled i); [discriminate|intros _; cbn [snd]].
    rewrite find_named_update, E by reflexivity; reflexivity.
Qed.

Lemma spec_others mem nm nm' knd l : nm' <> nm ->
  Spec.supported nm' (snd (Spec.install mem nm knd l)) = Spec.supported nm' l /\
  Spec.supported nm' (snd (Spec.uninstall nm l)) = Spec.supported nm' l.
Proof.
  intros Hne; unfold Spec.supported, Spec.install, Spec.uninstall, Spec.lookup_named; split.
  - destruct (List.find (Spec.named nm) l); cbn [snd]; [rewrite find_named_other by auto; reflexivity|].
    destruct mem; cbn [snd]; [|reflexivity]; cbn.
    rewrite (named_other nm nm') by (auto || apply named_true; reflexivity); reflexivity.
  - destruct (List.find (Spec.named nm) l) as [i|]; [|reflexivity]; destruct (dynamic i); cbn [snd].
    + rewrite find_named_remove_other by assumption; reflexivity.
    + destruct (disabled i); cbn [snd]; [reflexivity|rewrite find_named_other by auto; reflexivity].
Qed.

(** What was installed is reported, what was uninstalled is not, and nothing
    else changes.  In a state whose interfaces have distinct names, with no query
    handler set: after an installation of [nm] that did not run out of memory, _OSI
    answers true for [nm]; after an uninstallation of [nm] that returned OK, it
    answers false; for every other name it answers as before; and names stay
    distinct. *)
Theorem osi_install_uninstall k nm knd s l :
  call_ok k s -> listed s l -> NoDup (name <$> l) -> interface_handler s = None ->
  (exists ret s1 l1, uacpi_install_interface k nm knd s = Some (ret, s1) /\
     listed s1 l1 /\ NoDup (name <$> l1) /\
     (ret <> UACPI_STATUS_OUT_OF_MEMORY -> answers_osi s1 nm true) /\
     (forall nm' b, nm' <> nm -> b = Spec.supported nm' l -> answers_osi s nm' b /\ answers_osi s1 nm' b)) /\
  (exists ret s1 l1, uacpi_uninstall_interface k nm s = Some (ret, s1) /\
     listed s1 l1 /\ NoDup (name <$> l1) /\
     (ret = UACPI_STATUS_OK -> answers_osi s1 nm false) /\
     (forall nm' b, nm' <> nm -> b = Spec.supported nm' l -> answers_osi s nm' b /\ answers_osi s1 nm' b)).
Proof.
  intros (Hr & Ek & Hm) Hl Hn Hh.
  assert (Hq : forall o r, gives (run_op k o) s r -> forall nm' b, Spec.supported nm' (snd r) = b ->
    forall s1, run_op k o s = Some (fst r, s1) -> answers_osi s1 nm' b).
  { intros o r (s2 & E2 & Hl2 & (F1 & F2 & _ & F4 & _)) nm' b <- s1 E1; rewrite E2 in E1; inversion E1; subst s2.
    apply handle_osi_answers; [assumption|split; [rewrite F4|rewrite F1]; apply Hr|congruence]. }
  pose proof (install_gives k nm knd s l Hl Hm Hr Ek) as Gi.
  pose proof (uninstall_gives k nm s l Hl Hr Ek) as Gu.
  pose proof (spec_op_names k (Install nm knd) l Hn) as Ni; pose proof (spec_op_names k (Uninstall nm) l Hn) as Nu.
  split; [pose proof Gi as (s1 & E1 & Hl1 & Hf)|pose proof Gu as (s1 & E1 & Hl1 & Hf)];
    eexists _, s1, _; (split; [exact E1|split; [exact Hl1|split; [assumption|split]]]).
  - intros Hret; apply (Hq (Install nm knd) _ Gi nm true); [apply spec_install_supported, Hret|exact E1].
  - intros nm' b Hne ->; split; [apply handle_osi_answers; assumption|].
    apply (Hq (Install nm knd) _ Gi); [apply spec_others; assumption|exact E1].
  - intros Hret; apply (Hq (Uninstall nm) _ Gu nm false); [apply spec_uninstall_supported; assumption|exact E1].
  - intros nm' b Hne ->; split; [apply handle_osi_answers; assumption|].
    apply (Hq (Uninstall nm) _ Gu); [apply (spec_others true nm nm' 0); assumption|exact E1].
Qed.

Module Demo.

Definition blank : state := {| nodes := ∅; registered_interfaces := 0; interface_mutex := 0;
  interface_handler := None; latest_queried_interface := 0; init_level := 1; held := 0 |}.

(** The state after the initialisation, with the predefined list at 0x1000. *)
Definition booted : state :=
  match uacpi_initialize_interfaces 0x1000 7 predefined_interfaces blank with
  | Some (_, s) => s
  | None => blank
  end.

Definition kernel : answers :=
  {| acquire_answer := UACPI_STATUS_OK; node_memory := Some 0x9000; name_memory := true |}.

Lemma booted_listed : listed booted predefined_interfaces.
Proof.
  destruct (initialize_listed 0x1000 7 predefined_interfaces blank) as (s & E & Hl & _);
    [lia|discriminate|discriminate|].
  unfold booted; rewrite E; exact Hl.
Qed.

Lemma booted_ok : call_ok kernel booted.
Proof.
  split; [split; vm_compute; discriminate|split; [reflexivity|]].
  intros p [= <-]; split; [discriminate|vm_compute; reflexivity].
Qed.

Lemma predefined_names : NoDup (name <$> predefined_interfaces).
Proof. apply (bool_decide_eq_true (NoDup (name <$> predefined_interfaces))); vm_compute; reflexivity. Qed.

Lemma osi_refines_list_witness :
  gives (run_op kernel (Uninstall "Windows 2015")) booted
    (spec_op kernel (Uninstall "Windows 2015") predefined_interfaces) /\
  fst (spec_op kernel (Uninstall "Windows 2015") predefined_interfaces) = UACPI_STATUS_OK.
Proof.
  split; [apply (osi_refines_list kernel (Uninstall "Windows 2015")); [apply booted_ok|apply booted_listed]|].
  vm_compute; reflexivity.
Defined.

Lemma osi_install_uninstall_witness :
  exists ret s1, uacpi_install_interface kernel "Kitty" 2 booted = Some (ret, s1) /\
    (ret <> UACPI_STATUS_OUT_OF_MEMORY -> answers_osi s1 "Kitty" true).
Proof.
  destruct (osi_install_uninstall kernel "Kitty" 2 booted predefined_interfaces
    booted_ok booted_listed predefined_names eq_refl) as [(ret & s1 & l1 & E & _ & _ & H & _) _].
  exists ret, s1; split; assumption.
Defined.

End Demo.
