(* ===== verification/Registers.v ===== *)
(** * acpi/uacpi/registers.c: the fixed ACPI registers

    The registers of the power-management blocks, each made of one or two mapped
    generic addresses, and the fields within them.  The accesses go through the
    interface [GasOps], which [Gas] implements. *)

From S2P Require Import Prelude CMem UCore Gas.

Open Scope word_scope.

(** ** What registers.c uses of io.c and of the kernel *)

Class GasOps (W G : Type) := {
  map_gas_noalloc : option acpi_gas -> SM W (uacpi_status * option G);
  unmap_gas_nofree : G -> SM W unit;
  gas_read_mapped : G -> SM W (uacpi_status * Z);
  gas_write_mapped : G -> Z -> SM W uacpi_status;
  lock_reg : SM W Z;
  unlock_reg : Z -> SM W unit
}.

(** io.c provides the accesses; the spinlock is the kernel's. *)
#[export] Instance gas_ops {W} {KIO : KernelIO W} : GasOps (bytes * W) (uacpi_mapped_gas (W := W)) := {
  map_gas_noalloc := uacpi_map_gas_noalloc;
  unmap_gas_nofree := uacpi_unmap_gas_nofree;
  gas_read_mapped := uacpi_gas_read_mapped;
  gas_write_mapped := uacpi_gas_write_mapped;
  lock_reg := mret 0;
  unlock_reg := fun _ => mret tt
}.

(** ** The tables *)

Inductive register_kind := REGISTER_KIND_GAS | REGISTER_KIND_IO.

Inductive register_access_kind :=
  | REGISTER_ACCESS_KIND_PRESERVE
  | REGISTER_ACCESS_KIND_WRITE_TO_CLEAR
  | REGISTER_ACCESS_KIND_NORMAL.

(** The values of the two enumerations; the source compares them with each other. *)
Definition kind_value (k : register_kind) : Z :=
  match k with REGISTER_KIND_GAS => 0 | REGISTER_KIND_IO => 1 end.

Definition access_kind_value (k : register_access_kind) : Z :=
  match k with
  | REGISTER_ACCESS_KIND_PRESERVE => 0
  | REGISTER_ACCESS_KIND_WRITE_TO_CLEAR => 1
  | REGISTER_ACCESS_KIND_NORMAL => 2
  end.

(** The members of g_uacpi_rt_ctx that the accessor pointers point to. *)
Inductive accessor :=
  | pm1a_status_blk | pm1b_status_blk | pm1a_enable_blk | pm1b_enable_blk
  | x_pm1a_cnt_blk | x_pm1b_cnt_blk | x_pm_tmr_blk | x_pm2_cnt_blk
  | sleep_control_reg | sleep_status_reg | reset_reg | smi_cmd.

Record register_spec := {
  kind : register_kind;
  access_kind : register_access_kind;
  access_width : Z;
  accessors : option accessor * option accessor;    (* None is the null pointer *)
  write_only_mask : Z;
  preserve_mask : Z
}.

Definition bit (n : Z) : Z := Z.shiftl 1 n.

Definition ACPI_PM1_CNT_PRESERVE_MASK : Z :=
  Z.lor (bit 3) (Z.lor (bit 4) (Z.lor (bit 5) (Z.lor (bit 6) (Z.lor (bit 7) (Z.lor (bit 8)
    (Z.lor (bit 9) (Z.lor (bit 14) (bit 15)))))))).
Definition ACPI_PM2_CNT_PRESERVE_MASK : Z := u64 (Z.lnot (bit 0)).
Definition ACPI_SLP_CNT_PRESERVE_MASK : Z := Z.lor (bit 0) (Z.lor (bit 1) (Z.lor (bit 6) (bit 7))).
Definition ACPI_SLP_STS_PRESERVE_MASK : Z := u64 (Z.lnot (bit 7)).

Definition gas_spec (k : register_access_kind) (a b : option accessor) (wo pres : Z) : register_spec := {|
  kind := REGISTER_KIND_GAS; access_kind := k; access_width := 0; accessors := (a, b);
  write_only_mask := wo; preserve_mask := pres |}.

Definition PM1_STS : Z := 0.
Definition PM1_EN : Z := 1.
Definition PM1_CNT : Z := 2.
Definition PM_TMR : Z := 3.
Definition PM2_CNT : Z := 4.
Definition SLP_CNT : Z := 5.
Definition SLP_STS : Z := 6.
Definition RESET : Z := 7.
Definition SMI_CMD : Z := 8.
Definition UACPI_REGISTER_MAX : Z := SMI_CMD.

Definition g_registers : list register_spec := [
  gas_spec REGISTER_ACCESS_KIND_WRITE_TO_CLEAR (Some pm1a_status_blk) (Some pm1b_status_blk) 0 (bit 11);
  gas_spec REGISTER_ACCESS_KIND_PRESERVE (Some pm1a_enable_blk) (Some pm1b_enable_blk) 0 0;
  gas_spec REGISTER_ACCESS_KIND_PRESERVE (Some x_pm1a_cnt_blk) (Some x_pm1b_cnt_blk)
    (Z.lor (bit 13) (bit 2)) ACPI_PM1_CNT_PRESERVE_MASK;
  gas_spec REGISTER_ACCESS_KIND_PRESERVE (Some x_pm_tmr_blk) None 0 0;
  gas_spec REGISTER_ACCESS_KIND_PRESERVE (Some x_pm2_cnt_blk) None 0 ACPI_PM2_CNT_PRESERVE_MASK;
  gas_spec REGISTER_ACCESS_KIND_PRESERVE (Some sleep_control_reg) None (bit 5) ACPI_SLP_CNT_PRESERVE_MASK;
  gas_spec REGISTER_ACCESS_KIND_WRITE_TO_CLEAR (Some sleep_status_reg) None 0 ACPI_SLP_STS_PRESERVE_MASK;
  gas_spec REGISTER_ACCESS_KIND_NORMAL (Some reset_reg) None 0 0;
  {| kind := REGISTER_KIND_IO; access_kind := REGISTER_ACCESS_KIND_NORMAL; access_width := 1;
     accessors := (Some smi_cmd, None); write_only_mask := 0; preserve_mask := 0 |} ].

Record register_field := { reg : Z; offset : Z; mask : Z }.

Definition one_bit (r o : Z) : register_field := {| reg := r; offset := o; mask := bit o |}.
Definition slp_typ (r o : Z) : register_field := {| reg := r; offset := o; mask := Z.shiftl 7 o |}.

(** In the order of [enum uacpi_register_field]. *)
Definition g_fields : list register_field := [
  one_bit PM1_STS 0;        (* TMR_STS *)
  one_bit PM1_STS 4;        (* BM_STS *)
  one_bit PM1_STS 5;        (* GBL_STS *)
  one_bit PM1_STS 8;        (* PWRBTN_STS *)
  one_bit PM1_STS 9;        (* SLPBTN_STS *)
  one_bit PM1_STS 10;       (* RTC_STS *)
  one_bit PM1_STS 14;       (* PCIEX_WAKE_STS *)
  one_bit SLP_STS 7;        (* HWR_WAK_STS *)
  one_bit PM1_STS 15;       (* WAK_STS *)
  one_bit PM1_EN 0;         (* TMR_EN *)
  one_bit PM1_EN 5;         (* GBL_EN *)
  one_bit PM1_EN 8;         (* PWRBTN_EN *)
  one_bit PM1_EN 9;         (* SLPBTN_EN *)
  one_bit PM1_EN 10;        (* RTC_EN *)
  one_bit PM1_EN 14;        (* PCIEXP_WAKE_DIS *)
  one_bit PM1_CNT 0;        (* SCI_EN *)
  one_bit PM1_CNT 1;        (* BM_RLD *)
  one_bit PM1_CNT 2;        (* GBL_RLS *)
  slp_typ PM1_CNT 10;       (* SLP_TYP *)
  slp_typ SLP_CNT 2;        (* HWR_SLP_TYP *)
  one_bit PM1_CNT 13;       (* SLP_EN *)
  one_bit SLP_CNT 5;        (* HWR_SLP_EN *)
  one_bit PM2_CNT 0 ].      (* ARB_DIS *)

Definition UACPI_REGISTER_FIELD_MAX : Z := 22.

(** ** State *)

Inductive mapping_state :=
  | REGISTER_MAPPING_STATE_NONE
  | REGISTER_MAPPING_STATE_NOT_NEEDED
  | REGISTER_MAPPING_STATE_MAPPED.

Definition state_is_none (s : mapping_state) : bool :=
  match s with REGISTER_MAPPING_STATE_NONE => true | _ => false end.

Section Registers.
Context {W G : Type} {GO : GasOps W G}.

(** One of the two places of a [register_mapping]. *)
Record place := { place_mapping : option G; place_state : mapping_state }.

Definition empty_place : place :=
  {| place_mapping := None; place_state := REGISTER_MAPPING_STATE_NONE |}.

Record state := {
  gases : accessor -> acpi_gas;            (* the structures of the FADT *)
  fadt_smi_cmd : Z;
  mappings : Z -> bool -> place;           (* g_register_mappings[idx], place 0 is false *)
  reg_lock : bool;                         (* g_reg_lock was created *)
  world : W
}.

Abbreviation M := (SM state).

Definition in_world {A} (c : SM W A) : M A := fun s =>
  match c (world s) with
  | Some (a, w') => Some (a, {| gases := gases s; fadt_smi_cmd := fadt_smi_cmd s;
      mappings := mappings s; reg_lock := reg_lock s; world := w' |})
  | None => None
  end.

Definition set_place (r : Z) (idx : bool) (p : place) : M unit := update_state (fun s =>
  {| gases := gases s; fadt_smi_cmd := fadt_smi_cmd s;
     mappings := fun r' idx' => if (r' =? r) && Bool.eqb idx' idx then p else mappings s r' idx';
     reg_lock := reg_lock s; world := world s |}).

Definition get_place (r : Z) (idx : bool) : M place := gets_state (fun s => mappings s r idx).

Definition get_spec (r : Z) : M register_spec :=
  match g_registers !! Z.to_nat r with Some x => mret x | None => undefined end.

(** ** Mapping *)

Definition pick {A} (x : A * A) (idx : bool) : A := if idx then snd x else fst x.

Definition set_not_needed (r : Z) (idx : bool) : M unit :=
  p ← get_place r idx;
  set_place r idx {| place_mapping := place_mapping p; place_state := REGISTER_MAPPING_STATE_NOT_NEEDED |}.

(** [uacpi_map_gas_noalloc(gas, &mapping->mappings[idx])] and the state change. *)
Definition map_at (r : Z) (idx : bool) (gas : acpi_gas) : M uacpi_status :=
  m ← in_world (map_gas_noalloc (Some gas));
  let '(ret, g) := (m : uacpi_status * option G) in
  (if is_ok ret
   then set_place r idx {| place_mapping := g; place_state := REGISTER_MAPPING_STATE_MAPPED |}
   else mret tt);;
  mret ret.

Definition map_one (spec : register_spec) (r : Z) (idx : bool) : M uacpi_status :=
  p ← get_place r idx;
  if negb (state_is_none (place_state p)) then mret UACPI_STATUS_OK else
  match kind spec with
  | REGISTER_KIND_GAS =>
      match pick (accessors spec) idx with
      | None => undefined                 (* gas->address through a null pointer *)
      | Some a =>
          gas ← gets_state (fun s => gases s a);
          if address gas =? 0 then set_not_needed r idx;; mret UACPI_STATUS_OK
          else map_at r idx gas
      end
  | REGISTER_KIND_IO =>
      if idx then set_not_needed r idx;; mret UACPI_STATUS_OK else
      cmd ← gets_state fadt_smi_cmd;
      map_at r idx {| address_space_id := SPACE_SYSTEM_IO;
        register_bit_width := u8 (access_width spec * 8); register_bit_offset := 0;
        access_size := 0; address := cmd |}
  end.

Definition ensure_register_mapped (spec : register_spec) (r : Z) : M uacpi_status :=
  p0 ← get_place r false;
  p1 ← get_place r true;
  let needs_mapping := state_is_none (place_state p0) || state_is_none (place_state p1) in
  if negb needs_mapping then mret UACPI_STATUS_OK else
  flags ← in_world lock_reg;
  ret ← try_ok (map_one spec r false) (map_one spec r true);
  in_world (unlock_reg flags);;
  mret ret.

(** ** Whole registers *)

(** The status and [*out_value] (0 stands for "not written"). *)
Definition do_read_one (r : Z) (idx : bool) : M (uacpi_status * Z) :=
  p ← get_place r idx;
  match place_state p, place_mapping p with
  | REGISTER_MAPPING_STATE_MAPPED, Some g => in_world (gas_read_mapped g)
  | REGISTER_MAPPING_STATE_MAPPED, None => undefined
  | _, _ => mret (UACPI_STATUS_OK, 0)
  end.

Definition do_read_register (spec : register_spec) (r : Z) : M (uacpi_status * Z) :=
  r0 ← do_read_one r false;
  if negb (is_ok (fst r0)) then mret (fst r0, 0) else
  r1 ← do_read_one r true;
  if negb (is_ok (fst r1)) then mret (fst r1, 0) else
  let out_value := Z.lor (snd r0) (snd r1) in
  mret (UACPI_STATUS_OK,
    if negb (write_only_mask spec =? 0)
    then Z.land out_value (u64 (Z.lnot (write_only_mask spec))) else out_value).

Definition uacpi_read_register (reg_enum : Z) : M (uacpi_status * Z) :=
  let idx := u8 reg_enum in
  if UACPI_REGISTER_MAX <? idx then mret (UACPI_STATUS_INVALID_ARGUMENT, 0) else
  spec ← get_spec idx;
  ret ← ensure_register_mapped spec idx;
  if negb (is_ok ret) then mret (ret, 0) else
  do_read_register spec idx.

Definition do_write_one (r : Z) (idx : bool) (in_value : Z) : M uacpi_status :=
  p ← get_place r idx;
  match place_state p, place_mapping p with
  | REGISTER_MAPPING_STATE_MAPPED, Some g => in_world (gas_write_mapped g in_value)
  | REGISTER_MAPPING_STATE_MAPPED, None => undefined
  | _, _ => mret UACPI_STATUS_OK
  end.

Definition access_kind_is_preserve (k : register_access_kind) : bool :=
  match k with REGISTER_ACCESS_KIND_PRESERVE => true | _ => false end.

(** The value that goes to the hardware: reserved bits cleared, or read back. *)
Definition value_to_write (spec : register_spec) (r in_value : Z) : M (uacpi_status * Z) :=
  if preserve_mask spec =? 0 then mret (UACPI_STATUS_OK, in_value) else
  let in_value := Z.land in_value (u64 (Z.lnot (preserve_mask spec))) in
  if access_kind_is_preserve (access_kind spec) then
    data ← do_read_register spec r;
    if negb (is_ok (fst data)) then mret (fst data, 0) else
    mret (UACPI_STATUS_OK, Z.lor in_value (Z.land (snd data) (preserve_mask spec)))
  else mret (UACPI_STATUS_OK, in_value).

Definition do_write_register (spec : register_spec) (r in_value : Z) : M uacpi_status :=
  v ← value_to_write spec r in_value;
  if negb (is_ok (fst v)) then mret (fst v) else
  try_ok (do_write_one r false (snd v)) (do_write_one r true (snd v)).

Definition uacpi_write_register (reg_enum in_value : Z) : M uacpi_status :=
  let idx := u8 reg_enum in
  if UACPI_REGISTER_MAX <? idx then mret UACPI_STATUS_INVALID_ARGUMENT else
  spec ← get_spec idx;
  try_ok (ensure_register_mapped spec idx) (do_write_register spec idx in_value).

Definition uacpi_write_registers (reg_enum in_value0 in_value1 : Z) : M uacpi_status :=
  let idx := u8 reg_enum in
  if UACPI_REGISTER_MAX <? idx then mret UACPI_STATUS_INVALID_ARGUMENT else
  spec ← get_spec idx;
  try_ok (ensure_register_mapped spec idx)
   (try_ok (do_write_one idx false in_value0) (do_write_one idx true in_value1)).

(** ** Fields *)

Definition get_field (idx : Z) : M register_field :=
  match g_fields !! Z.to_nat idx with Some f => mret f | None => undefined end.

Definition uacpi_read_register_field (field_enum : Z) : M (uacpi_status * Z) :=
  let field_idx := u8 field_enum in
  if UACPI_REGISTER_FIELD_MAX <? field_idx then mret (UACPI_STATUS_INVALID_ARGUMENT, 0) else
  field ← get_field field_idx;
  spec ← get_spec (reg field);
  ret ← ensure_register_mapped spec (reg field);
  if negb (is_ok ret) then mret (ret, 0) else
  r ← do_read_register spec (reg field);
  if negb (is_ok (fst r)) then mret (fst r, 0) else
  mret (UACPI_STATUS_OK, Z.shiftr (Z.land (snd r) (mask field)) (offset field)).

(** [~field->mask] is an int, sign-extended to 64 bits. *)
Definition uacpi_write_register_field (field_enum in_value : Z) : M uacpi_status :=
  let field_idx := u8 field_enum in
  if UACPI_REGISTER_FIELD_MAX <? field_idx then mret UACPI_STATUS_INVALID_ARGUMENT else
  field ← get_field field_idx;
  spec ← get_spec (reg field);
  ret ← ensure_register_mapped spec (reg field);
  if negb (is_ok ret) then mret ret else
  let in_value := Z.land (u64 (Z.shiftl in_value (offset field))) (mask field) in
  flags ← in_world lock_reg;
  ret ←
    (if kind_value (kind spec) =? access_kind_value REGISTER_ACCESS_KIND_WRITE_TO_CLEAR then
       if in_value =? 0 then mret UACPI_STATUS_OK
       else do_write_register spec (reg field) in_value
     else
       r ← do_read_register spec (reg field);
       if negb (is_ok (fst r)) then mret (fst r) else
       let data := Z.land (snd r) (u64 (Z.lnot (mask field))) in
       let data := Z.lor data in_value in
       do_write_register spec (reg field) data);
  in_world (unlock_reg flags);;
  mret ret.

(** ** Initialisation *)

(** [created] tells whether [uacpi_kernel_create_spinlock] returned a lock. *)
Definition uacpi_ininitialize_registers (created : bool) : M uacpi_status :=
  update_state (fun s => {| gases := gases s; fadt_smi_cmd := fadt_smi_cmd s;
    mappings := mappings s; reg_lock := created; world := world s |});;
  if negb created then mret UACPI_STATUS_OUT_OF_MEMORY else mret UACPI_STATUS_OK.

Definition unmap_place (p : place) : M unit :=
  match place_state p, place_mapping p with
  | REGISTER_MAPPING_STATE_MAPPED, Some g => in_world (unmap_gas_nofree g)
  | REGISTER_MAPPING_STATE_MAPPED, None => undefined
  | _, _ => mret tt
  end.

Fixpoint unmap_all (rs : list Z) : M unit :=
  match rs with
  | [] => mret tt
  | r :: rs' =>
      p0 ← get_place r false; unmap_place p0;;
      p1 ← get_place r true; unmap_place p1;;
      unmap_all rs'
  end.

Definition uacpi_deinitialize_registers : M unit :=
  update_state (fun s => {| gases := gases s; fadt_smi_cmd := fadt_smi_cmd s;
    mappings := mappings s; reg_lock := false; world := world s |});;
  unmap_all (seqZ 0 (UACPI_REGISTER_MAX + 1));;
  update_state (fun s => {| gases := gases s; fadt_smi_cmd := fadt_smi_cmd s;
    mappings := fun _ _ => empty_place; reg_lock := reg_lock s; world := world s |}).
End Registers.
Arguments state W G : clear implicits.

(** ** Hardware *)

Section Correct.
Context {W G : Type} {GO : GasOps W G}.

(** A register of [width] bits behind a mapped address: reading returns its value
    and a write of [v] changes the value [x] to [effect x v]; the spinlock does not
    touch it. *)
Record hw_reg (g : G) (width : Z) (val : W -> Z) (effect : Z -> Z -> Z) : Prop := {
  hw_range w : in_w width (val w);
  hw_read w : gas_read_mapped g w = Some ((UACPI_STATUS_OK, val w), w);
  hw_write v w : exists w', gas_write_mapped g v w = Some (UACPI_STATUS_OK, w') /\
    val w' = effect (val w) v;
  hw_lock w : exists f w', lock_reg w = Some (f, w') /\ val w' = val w;
  hw_unlock f w : exists w', unlock_reg f w = Some (tt, w') /\ val w' = val w
}.

(** A register that holds what is written, and one whose bits are cleared by ones. *)
Definition holds_value (width : Z) : Z -> Z -> Z := fun _ v => wrap width v.
Definition write_one_clears : Z -> Z -> Z := fun x v => Z.ldiff x v.

(** Register [r] is made of one mapped address. *)
Definition single (s : state W G) (r : Z) (g : G) : Prop :=
  mappings s r false = {| place_mapping := Some g; place_state := REGISTER_MAPPING_STATE_MAPPED |} /\
  place_state (mappings s r true) = REGISTER_MAPPING_STATE_NOT_NEEDED.

Definition with_world (s : state W G) (w : W) : state W G := {|
  gases := gases s; fadt_smi_cmd := fadt_smi_cmd s; mappings := mappings s;
  reg_lock := reg_lock s; world := w |}.

Definition readable (spec : register_spec) (v : Z) : Z :=
  if negb (write_only_mask spec =? 0) then Z.land v (u64 (Z.lnot (write_only_mask spec))) else v.

Definition written (spec : register_spec) (old v : Z) : Z :=
  if preserve_mask spec =? 0 then v else
  let v := Z.land v (u64 (Z.lnot (preserve_mask spec))) in
  if access_kind_is_preserve (access_kind spec)
  then Z.lor v (Z.land (readable spec old) (preserve_mask spec)) else v.

Variables (g : G) (width : Z) (val : W -> Z) (effect : Z -> Z -> Z).
Hypothesis Hhw : hw_reg g width val effect.

Lemma ensure_single spec r s : single s r g -> ensure_register_mapped spec r s = Some (UACPI_STATUS_OK, s).
Proof.
  intros [E0 E1]; unfold ensure_register_mapped, get_place; smunfold; rewrite E0, E1; reflexivity.
Qed.

Lemma in_world_Some {A} (c : SM W A) (s : state W G) a w : c (world s) = Some (a, w) ->
  in_world c s = Some (a, with_world s w).
Proof. intros E; unfold in_world; rewrite E; reflexivity. Qed.

Lemma read_single spec r s : single s r g ->
  do_read_register spec r s = Some ((UACPI_STATUS_OK, readable spec (val (world s))), s).
Proof.
  intros [E0 E1]; unfold do_read_register.
  rewrite (SM_bind_Some _ _ _ (UACPI_STATUS_OK, val (world s)) s).
  2:{ unfold do_read_one, get_place; smunfold; rewrite E0; cbn.
      rewrite (in_world_Some _ _ _ _ (hw_read _ _ _ _ Hhw (world s))); destruct s; reflexivity. }
  cbn [fst is_ok negb]; cbv beta iota; rewrite (SM_bind_Some _ _ _ (UACPI_STATUS_OK, 0) s).
  2:{ unfold do_read_one, get_place; smunfold; rewrite E1; reflexivity. }
  cbn [fst snd is_ok negb]; cbv beta iota zeta; rewrite Z.lor_0_r; reflexivity.
Qed.

Lemma write_single spec r v s : single s r g ->
  exists w', do_write_register spec r v s = Some (UACPI_STATUS_OK, with_world s w') /\
    val w' = effect (val (world s)) (written spec (val (world s)) v).
Proof.
  intros Hs; unfold do_write_register.
  rewrite (SM_bind_Some _ _ _ (UACPI_STATUS_OK, written spec (val (world s)) v) s).
  2:{ unfold value_to_write, written; destruct (preserve_mask spec =? 0); [reflexivity|].
      destruct (access_kind_is_preserve _); [|reflexivity].
      rewrite (SM_bind_Some _ _ _ _ _ (read_single spec r s Hs)); reflexivity. }
  cbn [fst snd is_ok negb]; cbv beta iota; destruct Hs as [E0 E1].
  destruct (hw_write _ _ _ _ Hhw (written spec (val (world s)) v) (world s)) as (w' & Ew & Ev).
  exists w'; split; [|exact Ev]; unfold do_write_one, get_place; erewrite try_ok_ok.
  2:{ smunfold; rewrite E0; cbn; apply in_world_Some, Ew. }
  smunfold; change (mappings (with_world s w')) with (mappings s); rewrite E1; reflexivity.
Qed.

(** What a write of a field does to a register of one address. *)
Lemma write_field_single idx f spec v s :
  0 <= idx <= UACPI_REGISTER_FIELD_MAX -> g_fields !! Z.to_nat idx = Some f ->
  g_registers !! Z.to_nat (reg f) = Some spec -> kind spec = REGISTER_KIND_GAS ->
  single s (reg f) g ->
  exists w', uacpi_write_register_field idx v s = Some (UACPI_STATUS_OK, with_world s w') /\
    val w' = effect (val (world s)) (written spec (val (world s))
      (Z.lor (Z.land (readable spec (val (world s))) (u64 (Z.lnot (mask f))))
             (Z.land (u64 (Z.shiftl v (offset f))) (mask f)))).
Proof.
  intros Hi Ef Es Ek Hs; unfold uacpi_write_register_field, UACPI_REGISTER_FIELD_MAX in *.
  rewrite (wrap_id 8 idx) by (unfold in_w; lia).
  destruct (Z.ltb_spec 22 idx); [lia|]; unfold get_field, get_spec; rewrite Ef.
  rewrite (SM_bind_Some _ _ _ f s) by reflexivity; rewrite Es.
  rewrite (SM_bind_Some _ _ _ spec s), (SM_bind_Some _ _ _ _ _ (ensure_single spec _ s Hs)) by reflexivity.
  cbn [is_ok negb]; cbv beta iota zeta.
  destruct (hw_lock _ _ _ _ Hhw (world s)) as (fl & w1 & El & Ev1).
  rewrite (SM_bind_Some _ _ _ _ _ (in_world_Some _ _ _ _ El)), Ek.
  change (kind_value REGISTER_KIND_GAS =? access_kind_value REGISTER_ACCESS_KIND_WRITE_TO_CLEAR) with false.
  cbv iota; assert (Hs1 : single (with_world s w1) (reg f) g) by exact Hs.
  set (new := Z.lor _ _).
  destruct (write_single spec (reg f) new _ Hs1) as (w2 & E2 & Ev2).
  destruct (hw_unlock _ _ _ _ Hhw fl w2) as (w3 & E3 & Ev3).
  exists w3; split; [|rewrite Ev3, Ev2; cbn; rewrite Ev1; reflexivity].
  erewrite SM_bind_Some.
  2:{ rewrite (SM_bind_Some _ _ _ _ _ (read_single spec _ _ Hs1)); cbn [fst snd is_ok negb world with_world].
      cbv beta iota zeta; rewrite Ev1; exact E2. }
  rewrite (SM_bind_Some _ _ _ tt (with_world s w3)); [reflexivity|].
  unfold in_world; cbn; rewrite E3; reflexivity.
Qed.
End Correct.

(** ** The tables *)

(** What holds of every field: its bits are among those of its mask, start at its
    offset, and are neither reserved nor beyond 16 bits; the write-only bits of its
    register are not reserved. *)
Definition field_consistent (f : register_field) : bool :=
  match g_registers !! Z.to_nat (reg f) with
  | Some spec =>
      match kind spec with REGISTER_KIND_GAS => true | REGISTER_KIND_IO => false end &&
      (Z.land (mask f) (preserve_mask spec) =? 0) &&
      (Z.land (write_only_mask spec) (preserve_mask spec) =? 0) &&
      (mask f =? Z.shiftl (Z.shiftr (mask f) (offset f)) (offset f)) &&
      (Z.shiftr (mask f) (offset f) =? Z.ones (Z.log2 (Z.shiftr (mask f) (offset f)) + 1)) &&
      (0 <? mask f) && (mask f <? 2 ^ 16) && (0 <=? offset f) && (offset f <? 16) &&
      (0 <=? write_only_mask spec) && (0 <=? preserve_mask spec)
  | None => false
  end.

Lemma fields_consistent i f : g_fields !! i = Some f -> field_consistent f = true.
Proof.
  intros E; assert (H : forallb field_consistent g_fields = true) by (vm_compute; reflexivity).
  rewrite forallb_forall in H; apply H, list_elem_of_In, list_elem_of_lookup; eauto.
Qed.

Lemma readable_bit spec v i : 0 <= i < 64 ->
  Z.testbit (readable spec v) i = Z.testbit v i && negb (Z.testbit (write_only_mask spec) i).
Proof.
  intros Hi; unfold readable; destruct (Z.eqb_spec (write_only_mask spec) 0) as [->|]; cbn [negb].
  - rewrite Z.testbit_0_l, andb_true_r; reflexivity.
  - bits_simpl; bool_cases; reflexivity.
Qed.

Lemma written_bit spec old v i : 0 <= i < 64 ->
  Z.testbit (written spec old v) i =
  if Z.testbit (preserve_mask spec) i
  then access_kind_is_preserve (access_kind spec) && Z.testbit (readable spec old) i
  else Z.testbit v i.
Proof.
  intros Hi; unfold written; destruct (Z.eqb_spec (preserve_mask spec) 0) as [->|].
  { rewrite Z.testbit_0_l; reflexivity. }
  destruct (access_kind_is_preserve _); bits_simpl; bool_cases;
    destruct (Z.testbit (preserve_mask spec) i); cbn [negb];
    rewrite ?andb_true_r, ?andb_false_r, ?orb_false_r; reflexivity.
Qed.

Lemma land_0_bit a b i : Z.land a b = 0 -> Z.testbit a i = true -> Z.testbit b i = false.
Proof.
  intros H Ha; pose proof (f_equal (fun z => Z.testbit z i) H) as Hb; cbn beta in Hb.
  rewrite Z.land_spec, Ha, Z.testbit_0_l in Hb; exact Hb.
Qed.

Lemma mask_bit_offset f i : mask f = Z.shiftl (Z.shiftr (mask f) (offset f)) (offset f) ->
  0 <= offset f -> 0 <= i -> Z.testbit (mask f) i = true -> offset f <= i.
Proof.
  intros E Ho Hi H; rewrite E, Z.shiftl_spec in H by lia.
  destruct (Z.lt_ge_cases i (offset f)); [|assumption].
  rewrite Z.testbit_neg_r in H by lia; discriminate.
Qed.

(** The value that [uacpi_write_register_field] writes, bit by bit. *)
Definition new_value (spec : register_spec) (f : register_field) (old v : Z) : Z :=
  written spec old (Z.lor (Z.land (readable spec old) (u64 (Z.lnot (mask f))))
                          (Z.land (u64 (Z.shiftl v (offset f))) (mask f))).

Lemma new_value_bit idx spec f old v i :
  g_fields !! idx = Some f -> g_registers !! Z.to_nat (reg f) = Some spec -> 0 <= i < 64 ->
  access_kind spec = REGISTER_ACCESS_KIND_PRESERVE ->
  Z.testbit (new_value spec f old v) i =
  if Z.testbit (mask f) i then Z.testbit v (i - offset f)
  else Z.testbit old i && negb (Z.testbit (write_only_mask spec) i).
Proof.
  intros Ef Es Hi Ek; pose proof (fields_consistent _ _ Ef) as Hc; unfold field_consistent in Hc.
  rewrite Es, !andb_true_iff, !Z.eqb_eq, !Z.ltb_lt, !Z.leb_le in Hc; destruct Hc as
    ((((((((((_ & Hmp) & Hwp) & Hm) & _) & _) & _) & Ho) & _) & _) & _).
  unfold new_value; rewrite written_bit, Ek by assumption; cbn [access_kind_is_preserve andb].
  destruct (Z.testbit (mask f) i) eqn:Em.
  - rewrite (land_0_bit _ _ _ Hmp Em); bits_simpl; rewrite Em; bool_cases.
    rewrite andb_true_r, andb_false_r; reflexivity.
  - rewrite readable_bit by assumption; destruct (Z.testbit (preserve_mask spec) i); [reflexivity|].
    rewrite Z.lor_spec, !Z.land_spec, readable_bit, Em, andb_false_r, orb_false_r by assumption.
    bits_simpl; rewrite Em; bool_cases; rewrite andb_true_r; reflexivity.
Qed.

(** The field of a value whose bits under the mask are those of [v]. *)
Lemma field_of_value spec f v x : 0 <= offset f -> 0 < mask f < 2 ^ 16 ->
  Z.land (mask f) (write_only_mask spec) = 0 ->
  (forall i, 0 <= i < 16 -> Z.testbit (mask f) i = true -> Z.testbit x i = Z.testbit v (i - offset f)) ->
  Z.shiftr (Z.land (readable spec x) (mask f)) (offset f) = Z.land v (Z.shiftr (mask f) (offset f)).
Proof.
  intros Ho Hm Hwo H; apply Z.bits_inj'; intros j Hj.
  rewrite Z.land_spec, !Z.shiftr_spec, Z.land_spec by lia.
  destruct (Z.testbit (mask f) (j + offset f)) eqn:Em; [|rewrite !andb_false_r; reflexivity].
  assert (Hlt : j + offset f < 16).
  { destruct (Z.lt_ge_cases (j + offset f) 16); [assumption|].
    rewrite (testbit_in_w 16) in Em by (unfold in_w; lia); discriminate. }
  rewrite readable_bit, (H (j + offset f)), (land_0_bit _ _ _ Hwo Em) by (assumption || lia).
  rewrite !andb_true_r; f_equal; lia.
Qed.

Lemma status_masks i f : g_fields !! i = Some f -> reg f = PM1_STS ->
  mask f = 2 ^ offset f /\ 0 <= offset f.
Proof.
  intros E Er; assert (H : forallb (fun f => negb (reg f =? PM1_STS) ||
    ((mask f =? 2 ^ offset f) && (0 <=? offset f))) g_fields = true) by (vm_compute; reflexivity).
  rewrite forallb_forall in H; specialize (H f).
  rewrite Er, Z.eqb_refl in H; cbn [negb orb] in H.
  rewrite andb_true_iff, Z.eqb_eq, Z.leb_le in H; apply H, list_elem_of_In, list_elem_of_lookup; eauto.
Qed.

Section Theorems.
Context {W G : Type} {GO : GasOps W G}.

(** Writing a field of an enable or control register changes that field and
    nothing else.  For every field of the table whose register is of the preserving
    kind, over a register that holds what is written to it: the call succeeds, the
    bits of the field become those of the value, every other bit stays as it was
    (write-only command bits, which read as zero, are written as zero), and reading
    the field back returns the value, if the field can be read at all. *)
Theorem register_field_write_exact (g : G) (width : Z) (val : W -> Z) idx f spec v (s : state W G) :
  hw_reg g width val (holds_value width) -> 16 <= width <= 64 ->
  0 <= idx <= UACPI_REGISTER_FIELD_MAX -> g_fields !! Z.to_nat idx = Some f ->
  g_registers !! Z.to_nat (reg f) = Some spec -> access_kind spec = REGISTER_ACCESS_KIND_PRESERVE ->
  single s (reg f) g ->
  exists s', uacpi_write_register_field idx v s = Some (UACPI_STATUS_OK, s') /\
    (forall i, 0 <= i < width -> Z.testbit (val (world s')) i =
       if Z.testbit (mask f) i then Z.testbit v (i - offset f)
       else Z.testbit (val (world s)) i && negb (Z.testbit (write_only_mask spec) i)) /\
    (Z.land (mask f) (write_only_mask spec) = 0 ->
       uacpi_read_register_field idx s' =
       Some ((UACPI_STATUS_OK, Z.land v (Z.shiftr (mask f) (offset f))), s')).
Proof.
  intros Hhw Hw Hi Ef Es Ek Hs; pose proof (fields_consistent _ _ Ef) as Hc; unfold field_consistent in Hc.
  rewrite Es, !andb_true_iff, !Z.eqb_eq, !Z.ltb_lt, !Z.leb_le in Hc; destruct Hc as
    ((((((((((Hk & Hmp) & Hwp) & Hm) & _) & Hm0) & Hm16) & Ho) & Ho16) & _) & _).
  assert (Egas : kind spec = REGISTER_KIND_GAS) by (destruct (kind spec); [reflexivity|discriminate]).
  destruct (write_field_single g width val _ Hhw idx f spec v s Hi Ef Es Egas Hs) as (w' & E & Ev).
  assert (Hbit : forall i, 0 <= i < width -> Z.testbit (val w') i =
       if Z.testbit (mask f) i then Z.testbit v (i - offset f)
       else Z.testbit (val (world s)) i && negb (Z.testbit (write_only_mask spec) i)).
  { intros i Hiw; rewrite Ev; unfold holds_value; rewrite wrap_testbit by lia.
    destruct (Z.ltb_spec i width); [|lia]; cbn [andb].
    apply (new_value_bit (Z.to_nat idx)); [assumption|assumption|lia|assumption]. }
  exists (with_world s w'); split; [exact E|split; [exact Hbit|intros Hwo]].
  assert (Hs' : single (with_world s w') (reg f) g) by exact Hs.
  unfold uacpi_read_register_field, UACPI_REGISTER_FIELD_MAX in *; rewrite (wrap_id 8 idx) by (unfold in_w; lia).
  destruct (Z.ltb_spec 22 idx); [lia|]; unfold get_field, get_spec; rewrite Ef.
  rewrite (SM_bind_Some _ _ _ f (with_world s w')) by reflexivity; rewrite Es.
  rewrite (SM_bind_Some _ _ _ spec (with_world s w')) by reflexivity.
  rewrite (SM_bind_Some _ _ _ _ _ (ensure_single g spec _ _ Hs')); cbn [is_ok negb]; cbv beta iota.
  rewrite (SM_bind_Some _ _ _ _ _ (read_single g width val _ Hhw spec _ _ Hs')).
  cbn [fst snd is_ok negb world with_world]; cbv beta iota.
  rewrite (field_of_value spec f v (val w')); [reflexivity|assumption|lia|assumption|].
  intros i Hi16 Em; rewrite Hbit, Em by lia; reflexivity.
Qed.

(** Writing one status bit clears all of them.  The test for write-to-clear registers
    in [uacpi_write_register_field] compares the wrong member (the kind of address,
    not the kind of access), so that a status field is read, merged and written back:
    over a register whose bits are cleared by writing ones, every pending status bit
    but the ignored bit 11 is lost, whichever field and value are written. *)
Theorem status_field_write_clears_all (g : G) (val : W -> Z) idx f v (s : state W G) :
  hw_reg g 16 val write_one_clears -> 0 <= idx <= UACPI_REGISTER_FIELD_MAX ->
  g_fields !! Z.to_nat idx = Some f -> reg f = PM1_STS -> single s PM1_STS g ->
  exists s', uacpi_write_register_field idx v s = Some (UACPI_STATUS_OK, s') /\
    forall i, 0 <= i -> i <> 11 -> i <> offset f -> Z.testbit (val (world s')) i = false.
Proof.
  intros Hhw Hi Ef Er Hs; pose proof (fields_consistent _ _ Ef) as Hc.
  destruct (write_field_single g 16 val _ Hhw idx f (gas_spec REGISTER_ACCESS_KIND_WRITE_TO_CLEAR
    (Some pm1a_status_blk) (Some pm1b_status_blk) 0 (bit 11)) v s Hi Ef) as (w' & E & Ev);
    [rewrite Er; reflexivity|reflexivity|rewrite Er; exact Hs|].
  exists (with_world s w'); split; [exact E|]; intros i Hi0 H11 Ho; cbn [world with_world]; rewrite Ev.
  unfold write_one_clears; rewrite Z.ldiff_spec.
  destruct (Z.lt_ge_cases i 16); [|rewrite (testbit_in_w 16 _ i (hw_range _ _ _ _ Hhw _)) by lia; reflexivity].
  rewrite written_bit by lia; cbn [preserve_mask gas_spec].
  change (bit 11) with (2 ^ 11); rewrite pow2_testbit by lia; destruct (Z.eqb_spec i 11); [contradiction|].
  rewrite Z.lor_spec, Z.land_spec, readable_bit by lia; cbn [write_only_mask gas_spec].
  destruct (status_masks _ _ Ef Er) as [Em Ho0].
  assert (Emi : Z.testbit (mask f) i = false) by (rewrite Em, pow2_testbit by lia; lia).
  rewrite Z.land_spec, Emi, andb_false_r, orb_false_r, Z.testbit_0_l, andb_true_r.
  bits_simpl; rewrite Emi; destruct (Z.testbit (val (world s)) i); [|reflexivity].
  bool_cases; reflexivity.
Qed.

(** A register of one address cannot be mapped.  [map_one] reads [gas->address]
    through the accessor of the second place, which is a null pointer for the timer,
    PM2 control, sleep control, sleep status and reset registers: mapping one of
    them for the first time either fails at the first place or dereferences null; it
    never succeeds. *)
Theorem null_accessor_never_mapped (s s' : state W G) r spec ret :
  g_registers !! Z.to_nat r = Some spec -> kind spec = REGISTER_KIND_GAS ->
  snd (accessors spec) = None -> place_state (mappings s r true) = REGISTER_MAPPING_STATE_NONE ->
  ensure_register_mapped spec r s = Some (ret, s') -> ret <> UACPI_STATUS_OK.
Proof.
  intros _ Ek Ea En; unfold ensure_register_mapped, get_place; smunfold; rewrite En, orb_true_r; cbn [negb].
  destruct (in_world lock_reg s) as [[fl s1]|] eqn:E1; [|discriminate].
  assert (M1 : mappings s1 = mappings s).
  { revert E1; unfold in_world; destruct (lock_reg _) as [[? ?]|]; [|discriminate]; intros [= _ <-]; reflexivity. }
  destruct (map_one spec r false s1) as [[r0 s2]|] eqn:E2; [|discriminate].
  assert (M2 : mappings s2 r true = mappings s1 r true).
  { revert E2; unfold map_one, map_at, set_not_needed, set_place, get_place; rewrite Ek; smunfold.
    destruct (state_is_none _); cbn [negb]; [|intros [= _ <-]; reflexivity].
    destruct (pick _ _) as [a|]; [|discriminate]; destruct (address _ =? 0).
    - intros [= _ <-]; cbn; rewrite Z.eqb_refl; reflexivity.
    - unfold in_world; destruct (map_gas_noalloc _ _) as [[[r1 g1] w1]|]; [|discriminate].
      destruct (is_ok r1); intros [= _ <-]; cbn; rewrite ?Z.eqb_refl; reflexivity. }
  destruct (is_ok r0) eqn:E0.
  - destruct (map_one spec r true s2) as [[r3 s3]|] eqn:E3; [|discriminate].
    revert E3; unfold map_one, get_place; smunfold; rewrite M2, M1, En, Ek; cbn [state_is_none negb pick].
    rewrite Ea; discriminate.
  - destruct (in_world (unlock_reg fl) s2) as [[? ?]|]; [|discriminate]; intros Ex Er.
    inversion Ex; subst; discriminate.
Qed.
End Theorems.

Module Demo.

(** A control register that holds what is written to it, and nothing else. *)
#[export] Instance cell_ops : GasOps Z unit := {
  map_gas_noalloc := fun _ => mret (UACPI_STATUS_OK, Some tt);
  unmap_gas_nofree := fun _ => mret tt;
  gas_read_mapped := fun _ w => Some ((UACPI_STATUS_OK, wrap 16 w), w);
  gas_write_mapped := fun _ v _ => Some (UACPI_STATUS_OK, wrap 16 v);
  lock_reg := mret 0;
  unlock_reg := fun _ => mret tt
}.

Lemma cell_hw : hw_reg (GO := cell_ops) tt 16 (wrap 16) (holds_value 16).
Proof.
  constructor; intros; try (apply wrap_range; lia); try (eexists; split; reflexivity); try reflexivity.
  - exists (wrap 16 v); split; [reflexivity|apply wrap_wrap; lia].
  - eexists _, _; split; reflexivity.
Qed.

Definition s0 : state Z unit := {|
  gases := fun _ => {| address_space_id := 0; register_bit_width := 16; register_bit_offset := 0;
                       access_size := 0; address := 0x1000 |};
  fadt_smi_cmd := 0;
  mappings := fun _ idx => if idx
    then {| place_mapping := None; place_state := REGISTER_MAPPING_STATE_NOT_NEEDED |}
    else {| place_mapping := Some tt; place_state := REGISTER_MAPPING_STATE_MAPPED |};
  reg_lock := true; world := 0xc3f9 |}.

(** SLP_TYP of PM1_CNT, field 18. *)
Lemma register_field_write_exact_witness :
  exists s', uacpi_write_register_field 18 5 s0 = Some (UACPI_STATUS_OK, s') /\
    uacpi_read_register_field 18 s' = Some ((UACPI_STATUS_OK, 5), s').
Proof.
  destruct (register_field_write_exact tt 16 (wrap 16) 18 (slp_typ PM1_CNT 10)
    (gas_spec REGISTER_ACCESS_KIND_PRESERVE (Some x_pm1a_cnt_blk) (Some x_pm1b_cnt_blk)
       (Z.lor (bit 13) (bit 2)) ACPI_PM1_CNT_PRESERVE_MASK) 5 s0 cell_hw)
    as (s' & E & _ & H);
    [lia|unfold UACPI_REGISTER_FIELD_MAX; lia|reflexivity|reflexivity|reflexivity|split; reflexivity|].
  exists s'; split; [exact E|apply H; reflexivity].
Defined.

(** A status register with two events pending: acknowledging one loses both. *)
Definition status_ops : GasOps Z unit := {|
  map_gas_noalloc := fun _ => mret (UACPI_STATUS_OK, Some tt);
  unmap_gas_nofree := fun _ => mret tt;
  gas_read_mapped := fun _ w => Some ((UACPI_STATUS_OK, wrap 16 w), w);
  gas_write_mapped := fun _ v w => Some (UACPI_STATUS_OK, Z.ldiff w v);
  lock_reg := mret 0;
  unlock_reg := fun _ => mret tt
|}.

Lemma status_hw : hw_reg (GO := status_ops) tt 16 (wrap 16) write_one_clears.
Proof.
  constructor; intros; try (apply wrap_range; lia); try (eexists; split; reflexivity); try reflexivity.
  - exists (Z.ldiff w v); split; [reflexivity|]; unfold write_one_clears; bitwise.
  - eexists _, _; split; reflexivity.
Qed.

(** Writing TMR_STS loses the power button event. *)
Lemma status_field_write_clears_all_witness :
  exists s', uacpi_write_register_field (GO := status_ops) 0 1 s0 = Some (UACPI_STATUS_OK, s') /\
    Z.testbit (wrap 16 (world s0)) 8 = true /\ Z.testbit (wrap 16 (world s')) 8 = false.
Proof.
  destruct (status_field_write_clears_all (GO := status_ops) tt (wrap 16) 0 (one_bit PM1_STS 0) 1 s0 status_hw)
    as (s' & E & H); [unfold UACPI_REGISTER_FIELD_MAX; lia|reflexivity|reflexivity|split; reflexivity|].
  exists s'; split; [exact E|split; [reflexivity|apply H; [lia|discriminate|discriminate]]].
Defined.

End Demo.
