(* ===== verification/Heap.v ===== *)
(** * mem/virtual.cpp and mem/heap.cpp: kernel address space and heap

    The allocator of kernel virtual addresses, and the calls the C heap asks the
    kernel for memory with ([sbrk], [mmap]).  Both take physical pages from a
    [PageAllocator] and enter them into the kernel's page tables with
    [virtual_map]; the theorems compose the specifications of the two. *)

From S2P Require Import Prelude Machine PhysMem VirtMem.

Open Scope word_scope.

Section Heap.
Context {boot : boot_info} {alloc : PageAllocator}.

(** ** Kernel virtual addresses *)

Definition get_kernel_base_address : Z :=
  match kernel_address_response with Some b => b | None => 0 end.

Definition get_current_page_map_address : K Z :=
  gets (fun s => Z.land (cr3 s) 0xfffffffffffff000 +64 get_higher_half_memory_offset).

Definition initialize_virtual_memory : K unit :=
  let b := get_higher_half_memory_offset +64 get_highest_address in
  modify (set_base_address b);;
  modify (set_remaining_bytes (get_kernel_base_address -64 b));;
  p ← get_current_page_map_address;
  modify (set_kernel_pml4 p).

Definition get_kernel_page_map : K Z := gets kernel_pml4.

Definition set_page_map (new_page_map : Z) : K bool :=
  flags ← gets (fun s => Z.land (cr3 s) 0xfff);
  root ← get_kernel_page_map;
  r ← gets (fun s => virtual_to_physical (mem s) root new_page_map);
  let '(success, physical_address) := (r : bool * Z) in
  if negb success then mret false else
  modify (set_cr3 (Z.lor flags physical_address));;
  mret true.

(** [remaining_bytes - size <= 0] is a comparison of unsigned numbers. *)
Definition allocate_virtual_memory_kernel (size : Z) : K Z :=
  let size := Z.land (size +64 PAGE_SIZE) (u64 (Z.lnot 4095)) in
  rem ← gets remaining_bytes;
  if rem -64 size <=? 0 then halt else
  address ← gets base_address;
  modify (set_base_address (address +64 size));;
  mret (Z.lor address 0xffff000000000000).

(** ** The heap *)

Definition heap_size : Z := 16 * 1024 * 1024 * 1024.

(** One page of the loops of [expand_heap] and [mmap]. *)
Definition back_page (address : Z) : K bool :=
  page_address ← pa_alloc;
  if page_address =? 0 then halt else
  root ← get_kernel_page_map;
  virtual_map root page_address address true false true false false false 0 true.

Fixpoint expand_pages (n : nat) : K unit :=
  match n with
  | O => mret tt
  | S n' =>
      e ← gets heap_end;
      resp ← back_page e;
      if negb resp then halt else
      modify (fun s => set_heap_end (heap_end s +64 PAGE_SIZE) s);;
      expand_pages n'
  end.

Definition expand_heap (page_count : Z) : K unit :=
  e ← gets heap_end;
  st ← gets heap_start;
  if st +64 heap_size <? e +64 page_count *64 PAGE_SIZE then halt else
  expand_pages (Z.to_nat page_count).

(** Addresses rounded up to whole pages; [size] is a long. *)
Definition align_size (size : Z) : Z := Z.land (swrap 64 (size + PAGE_SIZE - 1)) (Z.lnot (PAGE_SIZE - 1)).

Definition INVALID : Z := 2 ^ 64 - 1.    (* reinterpret_cast<void * >(-1) *)

Definition sbrk (size : Z) : K Z :=
  if size <? 0 then mret INVALID else
  old_break ← gets heap_end;
  let page_count := u64 (Z.quot (align_size size) PAGE_SIZE) in
  (if 0 <? page_count then expand_heap page_count else mret tt);;
  mret old_break.

Fixpoint mmap_pages (km_vm : Z) (i : Z) (n : nat) : K unit :=
  match n with
  | O => mret tt
  | S n' =>
      mapped ← back_page (km_vm +64 i *64 PAGE_SIZE);
      if negb mapped then halt else mmap_pages km_vm (i + 1) n'
  end.

Definition mmap (size : Z) : K Z :=
  if size <=? 0 then mret INVALID else
  let aligned_size := align_size size in
  km_vm ← allocate_virtual_memory_kernel (u64 aligned_size);
  if km_vm =? 0 then halt else
  mmap_pages km_vm 0 (Z.to_nat (u64 (Z.quot aligned_size PAGE_SIZE)));;
  mret km_vm.

Definition munmap (ptr size : Z) : K Z := mret (-1).

Definition initialize_heap : K unit :=
  st ← allocate_virtual_memory_kernel heap_size;
  if st =? 0 then halt else
  modify (set_heap_start st);;
  modify (set_heap_end st).

(** ** Taking a page leaves the page tables alone *)

Lemma pt_inv_alloc s s1 root : pt_inv s root -> pa_inv s1 ->
  (forall q, free_frame s1 q -> free_frame s q) ->
  (forall x, (forall q, free_frame s q -> ~ in_page q x) -> mem s1 x = mem s x) ->
  pt_inv s1 root /\
  forall va, virtual_to_physical (mem s1) root va = virtual_to_physical (mem s) root va.
Proof.
  intros Hinv Ha Hf Hm.
  assert (Hent : forall path t i, table_path path -> table_at (mem s) root path = Some t ->
    valid_index i -> mem s1 (entry_addr t i) = mem s (entry_addr t i)).
  { intros path t i Hp Ht Hi; apply Hm; intros q Hq Hin.
    destruct (pi_ok _ _ Hinv path t Hp Ht) as [Hok Hnf]; apply Hnf.
    destruct (free_frame_ok s q (pi_alloc _ _ Hinv) Hq) as [Hq0 _].
    assert (q = t) as <-; [|assumption].
    eapply pages_disjoint; [exact Hq0|apply Hok|exact Hin|apply entry_in_page; assumption]. }
  assert (Htab : forall path, table_path path -> table_at (mem s1) root path = table_at (mem s) root path).
  { apply table_at_ext; intros path t i Hp Ht; destruct (table_path_snoc _ _ Hp) as [Hp' Hi].
    rewrite (Hent path t i); auto. }
  assert (Hinv1 : pt_inv s1 root).
  { split.
    - assumption.
    - apply Hinv.
    - intros q Hq; apply (pi_limit _ _ Hinv), Hf, Hq.
    - intros path t Hp Ht; rewrite Htab in Ht by assumption.
      destruct (pi_ok _ _ Hinv path t Hp Ht) as [? Hn]; split; auto.
    - intros p1 p2 t H1 H2 E1 E2; rewrite Htab in E1, E2 by assumption.
      eapply (pi_inj _ _ Hinv); eassumption.
    - intros path t i Hp Ht; destruct (table_path_snoc _ _ Hp) as [Hp' Hi].
      rewrite Htab in Ht by assumption; rewrite (Hent path t i) by assumption.
      eapply (pi_present _ _ Hinv); eassumption. }
  split; [assumption|]; intros va; rewrite !virtual_to_physical_leaf by assumption.
  destruct (is_canonical va); [|reflexivity]; destruct (va_path_ok va) as [Hp _]; f_equal.
  unfold leaf_entry; rewrite Htab by assumption.
  destruct (table_at (mem s) root (va_path va)) as [t|] eqn:E; [|reflexivity].
  apply (Hent (va_path va)); [assumption|assumption|apply va_leaf_ok].
Qed.

(** One page: either no memory is left, or one free page now backs [va]. *)
Lemma back_page_spec s va : pt_inv s (kernel_pml4 s) -> va mod 4096 = 0 -> is_canonical va = true ->
  (back_page va s = Halted s /\ forall q, ~ free_frame s q) \/
  exists b s', back_page va s = Ret b s' /\ pt_inv s' (kernel_pml4 s) /\ same_globals s s' /\
    (forall q, free_frame s' q -> free_frame s q) /\
    (b = false -> forall q, ~ free_frame s' q) /\
    (b = true -> exists pa, 0 < pa /\ free_frame s (pa + get_higher_half_memory_offset) /\
       ~ free_frame s' (pa + get_higher_half_memory_offset) /\
       forall va', virtual_to_physical (mem s') (kernel_pml4 s) va' =
         if is_canonical va' && (page_number va' =? page_number va)
         then (true, pa + va' mod 4096) else virtual_to_physical (mem s) (kernel_pml4 s) va').
Proof.
  intros Hinv Hva Hc; unfold back_page.
  destruct (pa_alloc_spec s (pi_alloc _ _ Hinv)) as (p & s1 & E & Ha & Hg & Hp).
  destruct Hp as [(-> & -> & Hnone)|(Hpos & Hq & Hf & Hm)].
  { left; erewrite K_bind_Ret by exact E; split; [reflexivity|exact Hnone]. }
  right; erewrite K_bind_Ret by exact E; destruct (Z.eqb_spec p 0); [lia|].
  assert (Hsub : forall q, free_frame s1 q -> free_frame s q) by (intros q H; apply Hf, H).
  destruct (pt_inv_alloc s s1 (kernel_pml4 s) Hinv Ha Hsub Hm) as [Hinv1 Htr].
  assert (Ek : kernel_pml4 s1 = kernel_pml4 s) by apply Hg.
  destruct (free_frame_ok s _ (pi_alloc _ _ Hinv) Hq) as (Hq0 & _ & _).
  pose proof (pi_limit _ _ Hinv _ Hq) as Hlim; destruct (pi_hhdm _ _ Hinv) as [_ Hh].
  destruct (virtual_map_spec s1 (kernel_pml4 s) p va true false true false false false 0)
    as (b & s2 & E2 & I2 & G2 & T2 & F2 & Fr2);
    [assumption|unfold in_w; lia|Z.div_mod_to_equations; lia|assumption|assumption|].
  exists b, s2; split; [|split; [assumption|split; [etransitivity; eassumption|split; [auto|split]]]].
  - unfold get_kernel_page_map; kunfold; rewrite Ek; exact E2.
  - intros ->; exact F2.
  - intros ->; exists p; split; [assumption|split; [assumption|split]].
    + intros Hx%Fr2%Hf; destruct Hx as [_ Hx]; apply Hx; reflexivity.
    + intros va'; rewrite T2, Htr; reflexivity.
Qed.

(** ** Kernel addresses *)

Definition KERNEL_HALF : Z := 0xffff000000000000.

Lemma kernel_half_canonical va : KERNEL_HALF <= va < 2 ^ 64 ->
  is_canonical va = true /\ page_number va = (va - KERNEL_HALF) / 4096.
Proof.
  unfold KERNEL_HALF, is_canonical, page_number; intros H; split.
  - rewrite Z.shiftr_div_pow2 by lia.
    assert (E : va / 2 ^ 48 = 0xffff) by (Z.div_mod_to_equations; lia); rewrite E; reflexivity.
  - Z.div_mod_to_equations; lia.
Qed.

Lemma page_number_next va : KERNEL_HALF <= va -> va + 4096 < 2 ^ 64 ->
  page_number (va + 4096) = page_number va + 1.
Proof.
  intros H1 H2; rewrite !(fun v H => proj2 (kernel_half_canonical v H)) by (unfold KERNEL_HALF in *; lia).
  unfold KERNEL_HALF in *; Z.div_mod_to_equations; lia.
Qed.

(** The page that backs the page of [va], when [pas] back the pages from number [pn] on. *)
Definition backing (pn : Z) (pas : list Z) (va : Z) : option Z :=
  if pn <=? page_number va then pas !! Z.to_nat (page_number va - pn) else None.

(** From [s] to [s'] exactly those pages changed. *)
Definition backs (s s' : kstate) (root pn : Z) (pas : list Z) : Prop :=
  forall va, virtual_to_physical (mem s') root va =
    match (if is_canonical va then backing pn pas va else None) with
    | Some pa => (true, pa + va mod 4096)
    | None => virtual_to_physical (mem s) root va
    end.

Lemma backs_cons s s1 s2 root pn pa pas :
  (forall va, virtual_to_physical (mem s1) root va =
     if is_canonical va && (page_number va =? pn) then (true, pa + va mod 4096)
     else virtual_to_physical (mem s) root va) ->
  backs s1 s2 root (pn + 1) pas -> backs s s2 root pn (pa :: pas).
Proof.
  intros H1 H2 va; rewrite H2; unfold backing; destruct (is_canonical va) eqn:Ec; [|rewrite H1, Ec; reflexivity].
  destruct (Z.leb_spec (pn + 1) (page_number va)) as [Hl|Hl], (Z.leb_spec pn (page_number va)) as [Hl'|Hl']; try lia.
  - replace (Z.to_nat (page_number va - pn)) with (S (Z.to_nat (page_number va - (pn + 1)))) by lia; simpl lookup.
    destruct (pas !! _); [reflexivity|]; rewrite H1, Ec.
    destruct (Z.eqb_spec (page_number va) pn); [lia|reflexivity].
  - replace (page_number va) with pn by lia; rewrite Z.sub_diag, H1, Ec.
    destruct (Z.eqb_spec (page_number va) pn); [reflexivity|lia].
  - rewrite H1, Ec; destruct (Z.eqb_spec (page_number va) pn); [lia|reflexivity].
Qed.

(** Everything but memory, the free list and the end of the heap. *)
Definition same_but_heap_end (s s' : kstate) : Prop :=
  base_address s' = base_address s /\ remaining_bytes s' = remaining_bytes s /\
  kernel_pml4 s' = kernel_pml4 s /\ heap_start s' = heap_start s /\ cr3 s' = cr3 s.

(** The pages [pas] were free before, are not any more, and are distinct. *)
Definition taken (s s' : kstate) (pas : list Z) : Prop :=
  NoDup pas /\ Forall (fun pa => 0 < pa /\ free_frame s (pa + get_higher_half_memory_offset) /\
    ~ free_frame s' (pa + get_higher_half_memory_offset)) pas /\
  (forall q, free_frame s' q -> free_frame s q).

Lemma taken_cons s s1 s2 pa pas :
  0 < pa -> free_frame s (pa + get_higher_half_memory_offset) ->
  ~ free_frame s1 (pa + get_higher_half_memory_offset) ->
  (forall q, free_frame s1 q -> free_frame s q) -> taken s1 s2 pas -> taken s s2 (pa :: pas).
Proof.
  intros Hpos Hf Hn Hs (Hd & Hall & Hs2); split; [|split; [|auto]].
  - apply NoDup_cons; split; [|assumption]; intros Hin.
    rewrite Forall_forall in Hall; destruct (Hall pa Hin) as (_ & Hx & _); contradiction.
  - apply Forall_cons; split; [split; [assumption|split; [assumption|intros Hx; apply Hn, Hs2, Hx]]|].
    eapply Forall_impl; [exact Hall|]; cbn; intros x (Hx & Hx1 & Hx2); auto.
Qed.

Lemma pt_inv_heap_end s e root : pt_inv s root ->
  pt_inv (set_heap_end e s) root /\ forall q, free_frame (set_heap_end e s) q <-> free_frame s q.
Proof.
  intros I; destruct (pa_frame s (set_heap_end e s) (pi_alloc _ _ I) eq_refl) as [Ha Hf]; [reflexivity|].
  split; [|exact Hf]; destruct I; split; auto; intros; rewrite ?Hf in *; eauto.
Qed.

Lemma expand_pages_spec n : forall s, pt_inv s (kernel_pml4 s) -> heap_end s mod 4096 = 0 ->
  KERNEL_HALF <= heap_end s -> heap_end s + Z.of_nat n * 4096 < 2 ^ 64 ->
  (exists s', expand_pages n s = Halted s' /\ forall q, ~ free_frame s' q) \/
  (exists s' pas, expand_pages n s = Ret tt s' /\ pt_inv s' (kernel_pml4 s) /\
     same_but_heap_end s s' /\ heap_end s' = heap_end s + Z.of_nat n * 4096 /\
     length pas = n /\ taken s s' pas /\
     backs s s' (kernel_pml4 s) (page_number (heap_end s)) pas).
Proof.
  induction n as [|n IH]; intros s Hinv Hal Hlo Hhi.
  { right; exists s, []; split; [reflexivity|split; [exact Hinv|split; [repeat split|]]].
    split; [lia|split; [reflexivity|split; [split; [constructor|split; [constructor|auto]]|]]].
    intros va; unfold backing; destruct (is_canonical va); [|reflexivity].
    destruct (page_number (heap_end s) <=? page_number va); reflexivity. }
  rewrite Nat2Z.inj_succ in Hhi.
  destruct (kernel_half_canonical (heap_end s)) as [Hc _]; [unfold KERNEL_HALF in *; lia|].
  cbn [expand_pages].
  destruct (back_page_spec s (heap_end s) Hinv Hal Hc) as [[E1 Hnone]|(b & s1 & E1 & I1 & G1 & Fr1 & B0 & B1)].
  { left; exists s; split; [kunfold; rewrite E1; reflexivity|exact Hnone]. }
  destruct b; [|left; exists s1; split; [kunfold; rewrite E1; reflexivity|apply B0; reflexivity]].
  destruct (B1 eq_refl) as (pa & Hpos & Hf & Hnf & Htr).
  set (s2 := set_heap_end (heap_end s1 +64 PAGE_SIZE) s1).
  destruct (pt_inv_heap_end s1 (heap_end s1 +64 PAGE_SIZE) _ I1) as [I2 Fr2]; fold s2 in I2, Fr2.
  destruct G1 as (G1 & G2 & G3 & G4 & G5 & G6).
  assert (E2 : heap_end s2 = heap_end s + 4096).
  { cbn; rewrite G5; apply wrap_id; unfold in_w, PAGE_SIZE, KERNEL_HALF in *; lia. }
  assert (Hrun : forall r, expand_pages n s2 = r ->
    (e ← gets heap_end; resp ← back_page e;
     if negb resp then halt
     else modify (fun s => set_heap_end (heap_end s +64 PAGE_SIZE) s);; expand_pages n) s = r).
  { intros r <-; kunfold; rewrite E1; reflexivity. }
  destruct (IH s2) as [(s3 & E3 & Hnone)|(s3 & pas & E3 & I3 & G3' & He3 & Hlen & Htk & Hbk)].
  { cbn [kernel_pml4 set_heap_end s2]; rewrite G3; exact I2. }
  { rewrite E2; Z.div_mod_to_equations; lia. }
  { rewrite E2; unfold KERNEL_HALF in *; lia. }
  { rewrite E2; lia. }
  { left; exists s3; split; [apply Hrun, E3|exact Hnone]. }
  right; exists s3, (pa :: pas); split; [apply Hrun, E3|].
  change (kernel_pml4 s2) with (kernel_pml4 s1) in *; rewrite G3 in *.
  split; [exact I3|]; split; [|split; [|split; [|split]]].
  - unfold same_but_heap_end in *; cbn in G3'; intuition congruence.
  - rewrite He3, E2; lia.
  - cbn; congruence.
  - apply (taken_cons s s2); auto; [rewrite Fr2; exact Hnf|intros q; rewrite Fr2; auto].
  - eapply backs_cons; [exact Htr|].
    rewrite <- page_number_next, <- E2 by (unfold KERNEL_HALF in *; lia); exact Hbk.
Qed.

(** ** Rounding *)

Lemma round_down x : Z.land x (Z.lnot 4095) = 4096 * (x / 4096).
Proof.
  change 4095 with (Z.ones 12); rewrite <- Z.ldiff_land, Z.ldiff_ones_r by lia.
  rewrite Z.shiftl_mul_pow2, Z.shiftr_div_pow2 by lia; change (2 ^ 12) with 4096; lia.
Qed.

Lemma align_size_spec size : 0 <= size <= 2 ^ 63 - 4096 ->
  align_size size = 4096 * ((size + 4095) / 4096).
Proof.
  intros H; unfold align_size, PAGE_SIZE; replace (size + 4096 - 1) with (size + 4095) by lia.
  change (4096 - 1) with 4095; rewrite round_down; do 2 f_equal.
  unfold swrap; rewrite wrap_id by (unfold in_w; lia).
  change (64 - 1) with 63; destruct (Z.ltb_spec (size + 4095) (2 ^ 63)); [reflexivity|lia].
Qed.

(** ** The heap grows by fresh pages *)

Record heap_inv (s : kstate) : Prop := {
  hi_tables : pt_inv s (kernel_pml4 s);
  hi_aligned : heap_end s mod 4096 = 0;
  hi_start : KERNEL_HALF <= heap_start s <= heap_end s;
  hi_end : heap_end s <= heap_start s + heap_size;
  hi_limit : heap_start s + heap_size < 2 ^ 64
}.

(** The number of pages that [sbrk size] adds. *)
Definition pages_of (size : Z) : Z := (size + 4095) / 4096.

Lemma pages_of_bounds size : 0 <= size -> size <= pages_of size * 4096 < size + 4096.
Proof. unfold pages_of; intros; Z.div_mod_to_equations; lia. Qed.

Lemma sbrk_eq size s : 0 <= size -> heap_end s + size + 4096 <= 2 ^ 64 -> heap_inv s ->
  sbrk size s =
  if heap_start s + heap_size <? heap_end s + pages_of size * 4096 then Halted s
  else match expand_pages (Z.to_nat (pages_of size)) s with
       | Ret _ s' => Ret (heap_end s) s'
       | Halted s' => Halted s'
       end.
Proof.
  intros Hs Hw [_ _ H1 H2 H3]; pose proof (pages_of_bounds size ltac:(lia)) as Hp.
  unfold sbrk, KERNEL_HALF, heap_size in *; destruct (Z.ltb_spec size 0); [lia|].
  rewrite align_size_spec by lia; fold (pages_of size); unfold PAGE_SIZE.
  rewrite (Z.mul_comm 4096), Z.quot_mul by lia.
  rewrite (wrap_id 64 (pages_of size)) by (unfold in_w; lia).
  destruct (Z.ltb_spec 0 (pages_of size)) as [Hpos|Hpos].
  - unfold expand_heap, heap_size, PAGE_SIZE; kunfold.
    rewrite (wrap_id 64 (pages_of size * 4096)), !(wrap_id 64) by (unfold in_w; lia).
    destruct (Z.ltb_spec (heap_start s + 16 * 1024 * 1024 * 1024) (heap_end s + pages_of size * 4096)); reflexivity.
  - replace (pages_of size) with 0 by lia; kunfold; cbn [Z.to_nat expand_pages].
    destruct (Z.ltb_spec (heap_start s + 16 * 1024 * 1024 * 1024) (heap_end s + 0 * 4096)); [lia|reflexivity].
Qed.

(** ** Theorems *)

(** C21.  [sbrk] grows the kernel heap by whole fresh pages.  From a well-formed heap
    and for a size that does not wrap the address space, it refuses a negative size; when the reserved area would be exceeded the machine
    stops with nothing changed; otherwise, unless physical memory runs out (the
    machine stops, and then no page is free any more), it returns the old break and moves the break up by the size
    rounded up to pages; every new page is backed by its own physical page, taken
    from the free ones, at its place; no other address translates differently; and
    the heap is well formed again. *)
Theorem sbrk_extends_heap size s : heap_inv s -> heap_end s + size + 4096 <= 2 ^ 64 ->
  (size < 0 -> sbrk size s = Ret INVALID s) /\
  (0 <= size -> heap_start s + heap_size < heap_end s + pages_of size * 4096 ->
     sbrk size s = Halted s) /\
  (0 <= size -> heap_end s + pages_of size * 4096 <= heap_start s + heap_size ->
     (exists s', sbrk size s = Halted s' /\ forall q, ~ free_frame s' q) \/
     exists s' pas, sbrk size s = Ret (heap_end s) s' /\ heap_inv s' /\
       heap_end s' = heap_end s + pages_of size * 4096 /\
       size <= heap_end s' - heap_end s < size + 4096 /\
       Z.of_nat (length pas) = pages_of size /\ taken s s' pas /\
       backs s s' (kernel_pml4 s) (page_number (heap_end s)) pas).
Proof.
  intros Hinv Hsz; split; [|split].
  - intros Hn; unfold sbrk; destruct (Z.ltb_spec size 0); [reflexivity|lia].
  - intros Hp Hx; rewrite sbrk_eq by (auto; lia).
    destruct (Z.ltb_spec (heap_start s + heap_size) (heap_end s + pages_of size * 4096)); [reflexivity|lia].
  - intros Hp Hx; rewrite sbrk_eq by (auto; lia); pose proof (pages_of_bounds size Hp) as Hb.
    destruct (Z.ltb_spec (heap_start s + heap_size) (heap_end s + pages_of size * 4096)); [lia|].
    destruct Hinv as [I1 I2 I3 I4 I5].
    destruct (expand_pages_spec (Z.to_nat (pages_of size)) s)
      as [(s' & E & Hnone)|(s' & pas & E & I & G & He & Hl & Ht & Hk)]; rewrite ?Z2Nat.id in * by lia;
      [assumption|assumption|lia|lia|left; exists s'; rewrite E; split; [reflexivity|exact Hnone]|].
    right; exists s', pas; rewrite E; destruct G as (_ & _ & G3 & G4 & _).
    split; [reflexivity|split; [|split; [exact He|split; [lia|split; [lia|split; assumption]]]]].
    split; rewrite ?G3, ?G4, ?He; try assumption; try lia.
    Z.div_mod_to_equations; lia.
Qed.

(** The exhaustion test of the kernel address allocator is an equality: the
    difference of unsigned numbers is never negative, so a request larger than what
    remains is granted; and what remains is never updated.  Apart from that, the
    ranges handed out one after the other do not overlap. *)
Theorem kernel_addresses_never_exhausted size s :
  0 <= size < 2 ^ 63 -> in_w 64 (remaining_bytes s) -> KERNEL_HALF <= base_address s ->
  base_address s + size + 4096 < 2 ^ 64 -> remaining_bytes s <> 4096 * ((size + 4096) / 4096) ->
  exists s', allocate_virtual_memory_kernel size s = Ret (base_address s) s' /\
    remaining_bytes s' = remaining_bytes s /\
    base_address s + size < base_address s' <= base_address s + size + 4096.
Proof.
  intros Hs Hr Hb Hlim Hne; unfold allocate_virtual_memory_kernel, PAGE_SIZE.
  rewrite (wrap_id 64 (size + 4096)) by (unfold in_w; lia).
  assert (E : Z.land (size + 4096) (u64 (Z.lnot 4095)) = 4096 * ((size + 4096) / 4096)).
  { rewrite <- round_down; assert (in_w 64 (size + 4096)) by (unfold in_w; lia); bitwise. }
  rewrite E; set (sz := 4096 * _) in *.
  assert (Hsz : size < sz <= size + 4096) by (unfold sz; Z.div_mod_to_equations; lia).
  assert (Hw : remaining_bytes s -64 sz <> 0).
  { unfold in_w, wrap in *; intros Hz; apply Hne.
    assert (Hm : (remaining_bytes s - sz) mod 2 ^ 64 = 0) by exact Hz; clear -Hm Hr Hsz Hs.
    Z.div_mod_to_equations; lia. }
  kunfold; destruct (Z.leb_spec (remaining_bytes s -64 sz) 0) as [Hle|Hle].
  { pose proof (wrap_range 64 (remaining_bytes s - sz) ltac:(lia)) as [Hx _]; lia. }
  rewrite (wrap_id 64 (base_address s + sz)) by (unfold in_w, KERNEL_HALF in *; lia).
  assert (El : Z.lor (base_address s) 0xffff000000000000 = base_address s).
  { unfold KERNEL_HALF in Hb; assert (in_w 64 (base_address s)) by (unfold in_w; lia).
    assert (Ed : base_address s = Z.lor (Z.shiftl 0xffff 48) (base_address s - 0xffff000000000000)).
    { rewrite lor_shiftl_add by (unfold in_w; lia); lia. }
    change (Z.shiftl 0xffff 48) with 0xffff000000000000 in Ed.
    rewrite Ed, Z.lor_comm, Z.lor_assoc, Z.lor_diag, <- Ed; reflexivity. }
  rewrite El; eexists; split; [reflexivity|]; cbn; lia.
Qed.
End Heap.

Module Demo.
#[local] Existing Instance PhysMem.Demo.boot.

(** An empty heap over page tables with five free pages. *)
Definition h0 : kstate :=
  set_heap_end 0xffffa00000000000 (set_heap_start 0xffffa00000000000 VirtMem.Demo.s0).

Lemma h0_inv : heap_inv h0.
Proof.
  split; [|reflexivity|split; discriminate|discriminate|reflexivity].
  apply pt_inv_heap_end; destruct VirtMem.Demo.s0_inv as [I1 I2 I3 I4 I5 I6].
  destruct (pa_frame VirtMem.Demo.s0 (set_heap_start 0xffffa00000000000 VirtMem.Demo.s0) I1 eq_refl)
    as [Ha Hf]; [reflexivity|].
  split; auto; intros; rewrite ?Hf in *; eauto.
Qed.

Lemma h0_grows : match sbrk 5000 h0 with Ret r _ => r = 0xffffa00000000000 | Halted _ => False end.
Proof. vm_compute; reflexivity. Qed.

Lemma sbrk_extends_heap_witness :
  exists s' pas, sbrk 5000 h0 = Ret 0xffffa00000000000 s' /\ heap_end s' = 0xffffa00000002000 /\
    length pas = 2%nat /\ taken h0 s' pas /\
    backs h0 s' VirtMem.Demo.root (page_number 0xffffa00000000000) pas.
Proof.
  destruct (sbrk_extends_heap 5000 h0 h0_inv) as (_ & _ & H); [discriminate|].
  destruct H as [(s' & E & _)|(s' & pas & E & _ & He & _ & Hl & Ht & Hb)]; [lia|discriminate| |].
  - pose proof h0_grows as Hg; rewrite E in Hg; destruct Hg.
  - exists s', pas; split; [exact E|split; [exact He|split; [|split; assumption]]].
    change (pages_of 5000) with 2 in Hl; lia.
Defined.

End Demo.
