(* ===== verification/Process.v ===== *)
(** * smp/sched.cpp: processes

    The addresses that a process has left, creating a process with its page map and its
    stack, and reading and writing the memory of a process from the kernel: the kernel
    switches to the page map of the process, checks the pages and copies.  With it the
    helpers for ranges of pages of mem/virtual.h. *)

From Stdlib Require Import String.
From S2P Require Import Prelude Machine PhysMem VirtMem Heap.

Open Scope list_scope.
Open Scope word_scope.

Definition ALIGN_DOWN (addr align : Z) : Z := Z.land addr (u64 (Z.lnot (align - 1))).
Definition ALIGN_UP (addr align : Z) : Z := Z.land (u64 (addr + align - 1)) (u64 (Z.lnot (align - 1))).

(** ** The addresses of a process *)

Record vmem_entry := { base : Z; length : Z }.

(** [std::vector<vmem_entry>]: its elements and how many it has room for.  A vector that is
    full moves to new memory when an element is added, and references to its elements
    become invalid. *)
Record vmem := { entries : list vmem_entry; capacity : nat }.

Definition push_back (e : vmem_entry) (v : vmem) : vmem :=
  {| entries := entries v ++ [e]; capacity := if (List.length (entries v) <? capacity v)%nat then capacity v else Nat.max 1 (2 * capacity v) |}.
Definition moves (v : vmem) : bool := negb (List.length (entries v) <? capacity v)%nat.

Definition contains (e : vmem_entry) (requested_base size : Z) : bool :=
  (base e <=? requested_base) && (requested_base +64 size <=? base e +64 length e).

(** The body of the loop for the entry at an index; no result when it writes through a
    reference to an element of a vector that has moved. *)
Definition take_range (v : vmem) (i : nat) (e : vmem_entry) (requested_base size : Z) : option vmem :=
  let remaining_length := (base e +64 length e) -64 (requested_base +64 size) in
  let write (v : vmem) (e : vmem_entry) := {| entries := <[i := e]> (entries v); capacity := capacity v |} in
  if requested_base =? base e then Some (write v {| base := base e +64 size; length := length e -64 size |})
  else if 0 <? remaining_length then
    if moves v then None
    else Some (write (push_back {| base := requested_base +64 size; length := remaining_length |} v) {| base := base e; length := requested_base -64 base e |})
  else Some (write v {| base := base e; length := requested_base -64 base e |}).

(** The first entry that passes the test, with its index. *)
Fixpoint find_entry (test : vmem_entry -> bool) (i : nat) (l : list vmem_entry) : option (nat * vmem_entry) :=
  match l with
  | [] => None
  | e :: l' => if test e then Some (i, e) else find_entry test (S i) l'
  end.

Definition allocate_virtual_memory_at (v : vmem) (requested_base size : Z) : option (bool * Z * vmem) :=
  match find_entry (fun e => contains e requested_base size) 0 (entries v) with
  | Some (i, e) => v' ← take_range v i e requested_base size; Some (true, requested_base, v')
  | None => Some (false, 0, v)
  end.


(** ** Processes *)

Inductive process_level := USER | KERNEL.
#[export] Instance process_level_eq_dec : EqDecision process_level.
Proof. solve_decision. Defined.

(** The registers that are set. *)
Record process_thread := { rip : Z; rsp : Z }.

Record process_context := {
  process_path : string; process_name : string; is_paused : bool; is_being_debugged : bool; debugger_pid : Z;
  p_level : process_level; threads : list process_thread; page_map : Z; available_vmem : vmem }.

Definition stack_size : Z := 1 * 1024 * 1024.
Definition USER_END : Z := 0x80000000.

Section Process.
Context {boot : boot_info} {alloc : PageAllocator}.

(** *** Memory through the current page map *)

(** An address as the processor translates it: where it is in the map of all memory.  An
    address that is not mapped ends in a fault. *)
Definition translate (va : Z) : K Z :=
  root ← get_current_page_map_address;
  r ← gets (fun s => virtual_to_physical (mem s) root va);
  if fst (r : bool * Z) then mret (snd r +64 get_higher_half_memory_offset) else halt.

(** A byte of the word that it is in. *)
Definition word_at (a : Z) : Z := a - a mod 8.
Definition load_byte (a : Z) : K Z := w ← load (word_at a); mret (bf_get (8 * (a mod 8)) 8 w).
Definition store_byte (a v : Z) : K unit := update (word_at a) (bf_set (8 * (a mod 8)) 8 v).

(** [memcpy] to and from the addresses of a process. *)
Fixpoint copy_out (va : Z) (l : list Z) : K unit :=
  match l with
  | [] => mret tt
  | b :: l' => a ← translate va; store_byte a b;; copy_out (va + 1) l'
  end.
Fixpoint copy_in (va : Z) (n : nat) : K (list Z) :=
  match n with
  | O => mret []
  | S n' => a ← translate va; b ← load_byte a; l ← copy_in (va + 1) n'; mret (b :: l)
  end.

(** *** Ranges of pages *)

Fixpoint invalidate_loop (n : nat) (addr : Z) : K unit :=
  match n with O => mret tt | S n' => invalidate_page addr;; invalidate_loop n' (addr + PAGE_SIZE) end.

Definition invalidate_pages_in_range (range_start range_end : Z) : K bool :=
  let range_start := ALIGN_DOWN range_start PAGE_SIZE in
  let range_end := ALIGN_UP range_end PAGE_SIZE in
  if range_end <? range_start then mret false else
  invalidate_loop (Z.to_nat ((range_end - range_start) / PAGE_SIZE)) range_start;;
  mret true.

(** The entry of the last table, when all levels are present. *)
Definition ensure_virtual_memory_flags (m : Z -> Z) (page_map virtual_address : Z) (filter : Z -> bool) : bool :=
  let indexes := split_virtual_address_to_structure virtual_address in
  let pml4e := m (entry_addr page_map (va_pml4 indexes)) in
  if get F_p pml4e =? 0 then false else
  let pdpe := m (entry_addr (table_of pml4e) (va_pdp indexes)) in
  if get F_p pdpe =? 0 then false else
  let pde := m (entry_addr (table_of pdpe) (va_pd indexes)) in
  if get F_p pde =? 0 then false else
  let pte := m (entry_addr (table_of pde) (va_pt indexes)) in
  if get F_p pte =? 0 then false else filter pte.

Fixpoint ensure_loop (n : nat) (m : Z -> Z) (page_map addr : Z) (filter : Z -> bool) : bool :=
  match n with
  | O => true
  | S n' => if negb (ensure_virtual_memory_flags m page_map addr filter) then false else ensure_loop n' m page_map (addr + PAGE_SIZE) filter
  end.

(** The page map is an address of the kernel. *)
Definition ensure_virtual_memory_flags_in_range (page_map range_start range_end : Z) (filter : Z -> bool) : K bool :=
  let range_start := ALIGN_DOWN range_start PAGE_SIZE in
  let range_end := ALIGN_UP range_end PAGE_SIZE in
  if range_end <? range_start then mret false else
  root ← translate page_map;
  gets (fun s => ensure_loop (Z.to_nat ((range_end - range_start) / PAGE_SIZE)) (mem s) root range_start filter).

(** *** Memory of a process *)

(** Pages from [addr] on, with a fresh frame for each. *)
Fixpoint back_pages (n : nat) (map_at addr : Z) (is_supervisor : bool) : K bool :=
  match n with
  | O => mret true
  | S n' =>
      page_address ← pa_alloc;
      if page_address =? 0 then mret false else
      root ← translate map_at;
      virtual_map root page_address addr true true is_supervisor true true false 0 true;;
      back_pages n' map_at (addr +64 PAGE_SIZE) is_supervisor
  end.

Definition is_kernel_level (l : process_level) : bool := bool_decide (l = KERNEL).

Definition allocate_memory_in_process (process : process_context) (at_address page_count : Z) : K bool :=
  if USER_END <? at_address +64 (page_count *64 PAGE_SIZE) then mret false else
  back_pages (Z.to_nat page_count) (page_map process) at_address (is_kernel_level (p_level process)).

(** The upper half of a page map, word by word. *)
Fixpoint copy_upper_half (n : nat) (dst src : Z) : K unit :=
  match n with
  | O => mret tt
  | S n' => w ← load src; store dst w;; copy_upper_half n' (dst +64 8) (src +64 8)
  end.

(** A process, or null when there is no memory for its stack; no result when adding a range
    of addresses writes through a dangling reference. *)
Definition create_process (path name : string) (entry_point : Z) (level : process_level) (start_paused : bool) : K (option process_context) :=
  kvmem ← allocate_virtual_memory_kernel 4096;
  process_page_map ← pa_alloc;
  kernel_map ← get_kernel_page_map;
  virtual_map kernel_map process_page_map kvmem true true true true true false 0 true;;
  root ← translate kvmem;
  memset_zero root 4096;;
  let th0 := {| rip := entry_point; rsp := USER_END - 8 |} in
  let v := push_back {| base := 0; length := USER_END |} {| entries := []; capacity := 0 |} in
  let stack_start_address := USER_END - stack_size in
  match allocate_virtual_memory_at v stack_start_address stack_size with
  | None => halt
  | Some (false, _, _) => mret None
  | Some (true, _, v) =>
      let process := {|
        process_path := path; process_name := name; is_paused := start_paused; is_being_debugged := false; debugger_pid := u64 (-1);
        p_level := level; threads := [th0]; page_map := kvmem; available_vmem := v |} in
      copy_upper_half 256 (root +64 2048) (kernel_map +64 2048);;
      ok ← back_pages (Z.to_nat (stack_size / PAGE_SIZE)) kvmem stack_start_address (is_kernel_level level);
      if negb (ok : bool) then mret None else
      allocate_memory_in_process process 0x10000 1;;
      mret (Some process)
  end.

(** *** Reading and writing *)

(** Both functions up to the copy, which is [body]; [None] when an error was found. *)
Definition in_process {A} (process : process_context) (at_address buffer_size : Z) (filter : Z -> bool) (body : K A) : K (option A) :=
  if (USER_END <=? at_address) || (USER_END <? at_address +64 buffer_size) then mret None else
  original_page_map ← get_current_page_map_address;
  isPMSet ← set_page_map (page_map process);
  if negb (isPMSet : bool) then set_page_map original_page_map;; mret None else
  isInvalidated ← invalidate_pages_in_range at_address (at_address +64 buffer_size);
  if negb (isInvalidated : bool) then set_page_map original_page_map;; mret None else
  isRight ← ensure_virtual_memory_flags_in_range (page_map process) at_address (at_address +64 buffer_size) filter;
  if negb (isRight : bool) then set_page_map original_page_map;; mret None else
  x ← body;
  set_page_map original_page_map;;
  mret (Some x).

Definition process_write (process : process_context) (at_address : Z) (buffer : list Z) : K bool :=
  r ← in_process process at_address (Z.of_nat (List.length buffer)) (fun e => negb (get F_rw e =? 0) && negb (get F_p e =? 0)) (copy_out at_address buffer);
  mret (bool_decide (is_Some r)).

(** Whether it succeeded and the bytes. *)
Definition process_read (process : process_context) (from_address : Z) (buffer_size : nat) : K (bool * list Z) :=
  r ← in_process process from_address (Z.of_nat buffer_size) (fun e => negb (get F_p e =? 0)) (copy_in from_address buffer_size);
  mret (match r with Some l => (true, l) | None => (false, []) end).

End Process.

(** ** The addresses as a set *)

















(** ** Memory of a process *)

Definition OFFSET_BITS : Z := 0xfff.
Definition MAP_BITS : Z := 0xfffffffffffff000.

Lemma map_bits_testbit i : 0 <= i -> Z.testbit MAP_BITS i = (12 <=? i) && (i <? 64).
Proof.
  intros Hi; change MAP_BITS with (Z.shiftl (Z.ones 52) 12); rewrite Z.shiftl_spec by lia; destruct (Z.leb_spec 12 i).
  - rewrite Z.testbit_ones_nonneg by lia; apply eq_bool_prop_intro; rewrite !Is_true_true; cbn; lia.
  - rewrite Z.testbit_neg_r by lia; reflexivity.
Qed.
Lemma offset_bits_testbit i : 0 <= i -> Z.testbit OFFSET_BITS i = (i <? 12).
Proof. intros Hi; change OFFSET_BITS with (Z.ones 12); apply Z.testbit_ones_nonneg; lia. Qed.

(** The page map in the register, with the flags that were there. *)
Lemma register_fields c p : in_w 64 c -> in_w 64 p -> Z.land p OFFSET_BITS = 0 ->
  Z.land (Z.lor (Z.land c OFFSET_BITS) p) MAP_BITS = p /\ Z.land (Z.lor (Z.land c OFFSET_BITS) p) OFFSET_BITS = Z.land c OFFSET_BITS /\
  Z.lor (Z.land c OFFSET_BITS) (Z.land c MAP_BITS) = c.
Proof.
  intros Hc Hp H0; assert (Hl : forall i, 0 <= i < 12 -> Z.testbit p i = false).
  { intros i Hi; pose proof (f_equal (fun z => Z.testbit z i) H0) as H; cbv beta in H; rewrite Z.land_spec, offset_bits_testbit, Z.bits_0 in H by lia.
    rewrite (proj2 (Z.ltb_lt i 12)), andb_true_r in H by lia; exact H. }
  assert (Hh : forall z i, in_w 64 z -> 64 <= i -> Z.testbit z i = false) by (intros z i Hz Hi; apply (testbit_in_w 64); [exact Hz|lia]).
  split_and!; apply Z.bits_inj'; intros i Hi; rewrite ?Z.lor_spec, ?Z.land_spec, ?Z.lor_spec, ?Z.land_spec, ?map_bits_testbit, ?offset_bits_testbit by lia;
    destruct (Z.ltb_spec i 12), (Z.leb_spec 12 i); try lia; cbn [andb orb]; rewrite ?andb_false_r, ?andb_true_r, ?orb_false_r, ?(Hl i) by lia; try reflexivity.
  - destruct (Z.ltb_spec i 64); [rewrite andb_true_r|rewrite andb_false_r, (Hh p i Hp) by lia]; reflexivity.
  - rewrite orb_false_r; reflexivity.
  - destruct (Z.ltb_spec i 64); [rewrite andb_true_r|rewrite andb_false_r, (Hh c i Hc) by lia]; reflexivity.
Qed.

Section Access.
Context {boot : boot_info} {alloc : PageAllocator}.

(** The words that the translation of an address reads. *)
Definition table_words (m : Z -> Z) (root va : Z) : list Z :=
  let ix := split_virtual_address_to_structure va in
  let a1 := entry_addr root (va_pml4 ix) in
  let a2 := entry_addr (table_of (m a1)) (va_pdp ix) in
  let a3 := entry_addr (table_of (m a2)) (va_pd ix) in
  [a1; a2; a3; entry_addr (table_of (m a3)) (va_pt ix)].

Definition same_walk (m m' : Z -> Z) (w : Z * Z) : Prop := Forall (fun a => m' a = m a) (table_words m (fst w) (snd w)).

(** It depends on nothing else. *)
Lemma same_walk_translation m m' root va : same_walk m m' (root, va) ->
  virtual_to_physical m' root va = virtual_to_physical m root va /\ table_words m' root va = table_words m root va /\
  forall f, ensure_virtual_memory_flags m' root va f = ensure_virtual_memory_flags m root va f.
Proof.
  unfold same_walk, table_words; cbn [fst snd]; rewrite !Forall_cons; intros (E1 & E2 & E3 & E4 & _).
  unfold virtual_to_physical, ensure_virtual_memory_flags, table_words; rewrite E1, E2, E3, E4; split_and!; reflexivity.
Qed.

Lemma same_walk_trans m1 m2 m3 w : same_walk m1 m2 w -> same_walk m2 m3 w -> same_walk m1 m3 w.
Proof.
  destruct w as [root va]; intros H1 H2; pose proof (same_walk_translation _ _ _ _ H1) as (_ & E & _); unfold same_walk in *; cbn [fst snd] in *; rewrite E in H2.
  rewrite Forall_forall in *; intros a Ha; rewrite (H2 a Ha); apply H1, Ha.
Qed.

(** *** Bytes *)

Definition byte (m : Z -> Z) (a : Z) : Z := bf_get (8 * (a mod 8)) 8 (m (word_at a)).

Lemma store_byte_run a v s : store_byte a v s = Ret tt (set_mem (upd (mem s) (word_at a) (bf_set (8 * (a mod 8)) 8 v (mem s (word_at a)))) s).
Proof. reflexivity. Qed.

Lemma stored_byte m a v b : byte (upd m (word_at a) (bf_set (8 * (a mod 8)) 8 v (m (word_at a)))) b = if b =? a then u8 v else byte m b.
Proof.
  pose proof (Z.mod_pos_bound a 8 eq_refl) as Ha; pose proof (Z.mod_pos_bound b 8 eq_refl) as Hb; unfold byte; destruct (Z.eqb_spec b a) as [-> |Hne].
  - rewrite upd_eq; apply bf_get_set; lia.
  - unfold upd; destruct (Z.eqb_spec (word_at b) (word_at a)) as [E|E]; [|reflexivity]; rewrite E; apply bf_get_set_other; unfold word_at in E; lia.
Qed.

(** *** One process *)

(** The way to the page map of a process and back: the kernel's tables know both, and the
    process's own tables know where they are. *)
Record known_map (s : kstate) (pm phys : Z) : Prop := {
  map_fits : in_w 64 phys;
  map_aligned : Z.land phys OFFSET_BITS = 0;
  register_fits : in_w 64 (cr3 s);
  map_found : virtual_to_physical (mem s) (kernel_pml4 s) pm = (true, phys);
  map_sees_itself : virtual_to_physical (mem s) (phys +64 get_higher_half_memory_offset) pm = (true, phys);
  way_back : virtual_to_physical (mem s) (kernel_pml4 s) (Z.land (cr3 s) MAP_BITS +64 get_higher_half_memory_offset) = (true, Z.land (cr3 s) MAP_BITS)
}.

Definition relog (l : list Z) (s : kstate) : kstate :=
  mk_kstate (mem s) (head s) (base_address s) (remaining_bytes s) (kernel_pml4 s) (heap_start s) (heap_end s) (cr3 s) l.
(** Inside of the process. *)
Definition entered (phys : Z) (l : list Z) (s : kstate) : kstate := relog l (set_cr3 (Z.lor (Z.land (cr3 s) OFFSET_BITS) phys) s).

Lemma invalidate_loop_run n : forall a s, exists l, invalidate_loop n a s = Ret tt (relog l s).
Proof.
  induction n as [|n IH]; intros a s; [exists (invlpg_log s); destruct s; reflexivity|]; cbn [invalidate_loop].
  destruct (IH (a + PAGE_SIZE) (log_invlpg a s)) as (l & E); exists l; exact E.
Qed.
Lemma invalidate_run x y s : exists l, invalidate_pages_in_range x y s = Ret (negb (ALIGN_UP y PAGE_SIZE <? ALIGN_DOWN x PAGE_SIZE)) (relog l s).
Proof.
  unfold invalidate_pages_in_range; destruct (_ <? _); [exists (invlpg_log s); destruct s; reflexivity|].
  destruct (invalidate_loop_run (Z.to_nat ((ALIGN_UP y PAGE_SIZE - ALIGN_DOWN x PAGE_SIZE) / PAGE_SIZE)) (ALIGN_DOWN x PAGE_SIZE) s) as (l & E); exists l.
  rewrite (K_bind_Ret _ _ _ _ _ E); reflexivity.
Qed.

Lemma set_page_map_run p phys s : virtual_to_physical (mem s) (kernel_pml4 s) p = (true, phys) ->
  set_page_map p s = Ret true (set_cr3 (Z.lor (Z.land (cr3 s) OFFSET_BITS) phys) s).
Proof. intros E; unfold set_page_map, get_kernel_page_map, OFFSET_BITS; kunfold; rewrite E; reflexivity. Qed.

Lemma translate_run s va : translate va s =
  let r := virtual_to_physical (mem s) (Z.land (cr3 s) MAP_BITS +64 get_higher_half_memory_offset) va in
  if fst r then Ret (snd r +64 get_higher_half_memory_offset) s else Halted s.
Proof. unfold translate, get_current_page_map_address, MAP_BITS; kunfold; destruct (virtual_to_physical _ _ va) as [[] pa]; reflexivity. Qed.

Definition range_pages (a n : Z) : nat := Z.to_nat ((ALIGN_UP (a +64 n) PAGE_SIZE - ALIGN_DOWN a PAGE_SIZE) / PAGE_SIZE).
Definition range_ok (a n : Z) : bool :=
  negb ((USER_END <=? a) || (USER_END <? a +64 n)) && negb (ALIGN_UP (a +64 n) PAGE_SIZE <? ALIGN_DOWN a PAGE_SIZE).

Lemma same_walk_refl m w : same_walk m m w.
Proof. apply Forall_forall; reflexivity. Qed.

(** Back in the map that was there before; everything else is as the process left it. *)
Lemma set_back s s1 pm phys l : known_map s pm phys -> kernel_pml4 s1 = kernel_pml4 s -> cr3 s1 = cr3 (entered phys l s) ->
  same_walk (mem s) (mem s1) (kernel_pml4 s, Z.land (cr3 s) MAP_BITS +64 get_higher_half_memory_offset) ->
  set_page_map (Z.land (cr3 s) MAP_BITS +64 get_higher_half_memory_offset) s1 = Ret true (set_cr3 (cr3 s) s1).
Proof.
  intros [Hp Ha Hc _ _ Hb] Ek Ec Hw; destruct (register_fields (cr3 s) phys Hc Hp Ha) as (_ & E2 & E3).
  rewrite (set_page_map_run _ (Z.land (cr3 s) MAP_BITS)); [rewrite Ec; cbn [cr3 entered relog set_cr3]; rewrite E2, E3; reflexivity|].
  rewrite Ek; destruct (same_walk_translation _ _ _ _ Hw) as [-> _]; exact Hb.
Qed.

Lemma current_map c m s : cr3 s = c -> m = Z.land c MAP_BITS +64 get_higher_half_memory_offset -> get_current_page_map_address s = Ret m s.
Proof. intros <- ->; reflexivity. Qed.

Lemma in_process_run {A} p a n filter (body : K A) s phys : known_map s (page_map p) phys -> range_ok a n = true ->
  exists l, in_process p a n filter body s =
    let orig := Z.land (cr3 s) MAP_BITS +64 get_higher_half_memory_offset in
    if ensure_loop (range_pages a n) (mem s) (phys +64 get_higher_half_memory_offset) (ALIGN_DOWN a PAGE_SIZE) filter
    then (x ← body; set_page_map orig;; mret (Some x)) (entered phys l s)
    else (set_page_map orig;; mret None) (entered phys l s).
Proof.
  intros HK Er; pose proof HK as [Hp Ha Hc Hf Hs Hb]; destruct (register_fields (cr3 s) phys Hc Hp Ha) as (E1 & _ & _).
  destruct (invalidate_run a (a +64 n) (set_cr3 (Z.lor (Z.land (cr3 s) OFFSET_BITS) phys) s)) as (l & Ei); exists l.
  unfold range_ok in Er; apply andb_true_iff in Er as [Er1 Er2].
  unfold in_process; rewrite (proj1 (negb_true_iff _) Er1), (K_bind_Ret _ _ _ _ _ (current_map (cr3 s) _ s eq_refl eq_refl)).
  rewrite (K_bind_Ret _ _ _ _ _ (set_page_map_run _ _ _ Hf)); cbn [negb]; rewrite (K_bind_Ret _ _ _ _ _ Ei), Er2; cbn [negb]; fold (entered phys l s).
  assert (Ee : ensure_virtual_memory_flags_in_range (page_map p) a (a +64 n) filter (entered phys l s) =
    Ret (ensure_loop (range_pages a n) (mem s) (phys +64 get_higher_half_memory_offset) (ALIGN_DOWN a PAGE_SIZE) filter) (entered phys l s)).
  { unfold ensure_virtual_memory_flags_in_range; rewrite (proj1 (negb_true_iff _) Er2).
    assert (Et : translate (page_map p) (entered phys l s) = Ret (phys +64 get_higher_half_memory_offset) (entered phys l s)).
    { rewrite translate_run; cbn [cr3 mem entered relog set_cr3]; rewrite E1, Hs; reflexivity. }
    rewrite (K_bind_Ret _ _ _ _ _ Et); reflexivity. }
  rewrite (K_bind_Ret _ _ _ _ _ Ee); destruct (ensure_loop _ _ _ _ _); reflexivity.
Qed.

(** A range that is not one of the user's is refused. *)
Lemma in_process_refused {A} p a n filter (body : K A) s phys : known_map s (page_map p) phys -> range_ok a n = false ->
  exists l, in_process p a n filter body s = Ret None (relog l s).
Proof.
  intros HK Er; pose proof HK as [Hp Ha Hc Hf Hs Hb]; unfold in_process; destruct ((USER_END <=? a) || (USER_END <? a +64 n)) eqn:Eu.
  { exists (invlpg_log s); destruct s; reflexivity. }
  unfold range_ok in Er; rewrite Eu in Er; cbn [negb andb] in Er.
  destruct (invalidate_run a (a +64 n) (set_cr3 (Z.lor (Z.land (cr3 s) OFFSET_BITS) phys) s)) as (l & Ei); exists l.
  rewrite (K_bind_Ret _ _ _ _ _ (current_map (cr3 s) _ s eq_refl eq_refl)), (K_bind_Ret _ _ _ _ _ (set_page_map_run _ _ _ Hf)); cbn [negb].
  rewrite (K_bind_Ret _ _ _ _ _ Ei), Er; cbn [negb]; fold (entered phys l s); rewrite (K_bind_Ret _ _ _ _ _ (set_back s (entered phys l s) _ _ l HK eq_refl eq_refl (same_walk_refl _ _))).
  destruct s; reflexivity.
Qed.

(** *** The copies *)

(** Where the byte at an address of the process is. *)
Definition place_of (m : Z -> Z) (root va : Z) : Z := snd (virtual_to_physical m root va) +64 get_higher_half_memory_offset.
Definition within (va : Z) (n : nat) (v : Z) : Prop := va <= v < va + Z.of_nat n.

Lemma stored_walk m0 m a x w : same_walk m0 m w -> a ∉ table_words m0 (fst w) (snd w) -> same_walk m0 (upd m a x) w.
Proof.
  unfold same_walk; rewrite !Forall_forall; intros H Ha b Hb; rewrite upd_ne by (intros ->; contradiction); apply H, Hb.
Qed.

(** While the translations [W] of the memory [m0] are in place, in the page map at [root]. *)
Definition in_map (m0 : Z -> Z) (root : Z) (W : list (Z * Z)) (s : kstate) : Prop :=
  Z.land (cr3 s) MAP_BITS +64 get_higher_half_memory_offset = root /\ Forall (same_walk m0 (mem s)) W.

Lemma translate_in m0 root W s va : in_map m0 root W s -> (root, va) ∈ W ->
  translate va s = if fst (virtual_to_physical m0 root va) then Ret (place_of m0 root va) s else Halted s.
Proof.
  intros [Er Hw] Hva; rewrite translate_run, Er; rewrite Forall_forall in Hw; destruct (same_walk_translation _ _ _ _ (Hw _ Hva)) as [-> _]; reflexivity.
Qed.

Lemma copy_out_inv m0 root W : forall l va s s', in_map m0 root W s -> (forall v, within va (List.length l) v -> (root, v) ∈ W) ->
  (forall v w, within va (List.length l) v -> w ∈ W -> word_at (place_of m0 root v) ∉ table_words m0 (fst w) (snd w)) -> copy_out va l s = Ret tt s' ->
  exists m', s' = set_mem m' s /\ Forall (same_walk m0 m') W /\ (forall v, within va (List.length l) v -> fst (virtual_to_physical m0 root v) = true) /\
    (NoDup (place_of m0 root <$> seqZ va (Z.of_nat (List.length l))) -> forall i b, l !! i = Some b -> byte m' (place_of m0 root (va + Z.of_nat i)) = u8 b) /\
    (forall d, (forall v, within va (List.length l) v -> d <> place_of m0 root v) -> byte m' d = byte (mem s) d).
Proof.
  induction l as [|b l IH]; intros va s s' HM Hin Hout; cbn [copy_out List.length].
  { intros [= <-]; exists (mem s); destruct s; split_and!; try reflexivity; [apply HM|unfold within; intros; lia|discriminate]. }
  rewrite Nat2Z.inj_succ; intros H; assert (H0 : within va (S (List.length l)) va) by (unfold within; lia).
  assert (Hs : forall v, within (va + 1) (List.length l) v -> within va (S (List.length l)) v) by (unfold within; intros; lia).
  unfold mbind at 1, K_bind at 1 in H; rewrite (translate_in m0 root W s va HM (Hin va H0)) in H; destruct (fst (virtual_to_physical m0 root va)) eqn:Ef; [|discriminate].
  rewrite (K_bind_Ret _ _ _ _ _ (store_byte_run _ b s)) in H.
  set (m1 := upd (mem s) _ _) in H; assert (HM1 : in_map m0 root W (set_mem m1 s)).
  { destruct HM as [Er Hw]; split; [exact Er|]; rewrite Forall_forall in *; intros w Hwm; apply stored_walk; [apply Hw, Hwm|apply Hout; [exact H0|exact Hwm]]. }
  destruct (IH (va + 1) (set_mem m1 s) s' HM1 (fun v Hv => Hin v (Hs v Hv)) (fun v w Hv => Hout v w (Hs v Hv)) H) as (m' & -> & Hw & Hf & Hb & Ho); exists m'.
  split_and!; [reflexivity|exact Hw| | |].
  - intros v Hv; destruct (decide (v = va)) as [-> |Hne]; [exact Ef|apply Hf; unfold within in *; lia].
  - intros Hnd i c Hi; rewrite seqZ_cons in Hnd by lia; replace (Z.succ va) with (va + 1) in Hnd by lia; replace (Z.pred (Z.succ (Z.of_nat (List.length l)))) with (Z.of_nat (List.length l)) in Hnd by lia.
    apply NoDup_cons in Hnd as [Hne Hnd]; destruct i as [|i]; cbn in Hi.
    + injection Hi as ->; rewrite Z.add_0_r, Ho; [unfold m1; cbn [mem set_mem]; rewrite stored_byte, Z.eqb_refl; reflexivity|].
      intros v Hv E; apply Hne; rewrite E; apply list_elem_of_fmap; exists v; split; [reflexivity|apply elem_of_seqZ; unfold within in Hv; lia].
    + rewrite Nat2Z.inj_succ; replace (va + Z.succ (Z.of_nat i)) with (va + 1 + Z.of_nat i) by lia; apply Hb; assumption.
  - intros d Hd; rewrite Ho by (intros v Hv; apply Hd, Hs, Hv); unfold m1; cbn [mem set_mem]; rewrite stored_byte; destruct (Z.eqb_spec d (place_of m0 root va)) as [-> |]; [|reflexivity].
    destruct (Hd va H0); reflexivity.
Qed.

Lemma copy_in_run m0 root W s : in_map m0 root W s -> forall n va, (forall v, within va n v -> (root, v) ∈ W /\ fst (virtual_to_physical m0 root v) = true) ->
  copy_in va n s = Ret ((fun v => byte (mem s) (place_of m0 root v)) <$> seqZ va (Z.of_nat n)) s.
Proof.
  intros HM; induction n as [|n IH]; intros va Hin; [reflexivity|]; cbn [copy_in]; destruct (Hin va) as [Hva Hf]; [unfold within; lia|].
  rewrite seqZ_cons by lia; unfold mbind at 1, K_bind at 1; rewrite (translate_in m0 root W s va HM Hva), Hf.
  replace (Z.pred (Z.of_nat (S n))) with (Z.of_nat n) by lia; replace (Z.succ va) with (va + 1) by lia; unfold load_byte; kunfold.
  rewrite IH by (intros v Hv; apply Hin; unfold within in *; lia); reflexivity.
Qed.

(** *** Both together *)

Fixpoint starts (n : nat) (addr : Z) : list Z := match n with O => [] | S n' => addr :: starts n' (addr + PAGE_SIZE) end.

Lemma ensure_loop_walks m m' root f n : forall addr, Forall (same_walk m m') (pair root <$> starts n addr) -> ensure_loop n m' root addr f = ensure_loop n m root addr f.
Proof.
  induction n as [|n IH]; intros addr H; [reflexivity|]; cbn in H; apply Forall_cons in H as [H1 H2]; cbn [ensure_loop].
  destruct (same_walk_translation _ _ _ _ H1) as (_ & _ & ->); rewrite IH by exact H2; reflexivity.
Qed.
Lemma ensure_loop_weaken m root (f g : Z -> bool) n : (forall e, f e = true -> g e = true) -> forall addr,
  ensure_loop n m root addr f = true -> ensure_loop n m root addr g = true.
Proof.
  intros Hfg; assert (Hw : forall v, ensure_virtual_memory_flags m root v f = true -> ensure_virtual_memory_flags m root v g = true).
  { intros v; unfold ensure_virtual_memory_flags; repeat (destruct (get F_p _ =? 0); [discriminate|]); apply Hfg. }
  induction n as [|n IH]; intros addr; [reflexivity|]; cbn [ensure_loop]; destruct (ensure_virtual_memory_flags m root addr f) eqn:E; [|discriminate].
  rewrite (Hw _ E); apply IH.
Qed.

(** The translations that the two functions use. *)
Definition walks (s : kstate) (pm phys a : Z) (n : nat) : list (Z * Z) :=
  let root := phys +64 get_higher_half_memory_offset in
  [(kernel_pml4 s, pm); (kernel_pml4 s, Z.land (cr3 s) MAP_BITS +64 get_higher_half_memory_offset); (root, pm)] ++
  (pair root <$> seqZ a (Z.of_nat n)) ++ (pair root <$> starts (range_pages a (Z.of_nat n)) (ALIGN_DOWN a PAGE_SIZE)).

(** The range is in frames of its own, and in none of the tables that are read. *)
Record separate (s : kstate) (pm phys a : Z) (n : nat) : Prop := {
  frames_differ : NoDup (place_of (mem s) (phys +64 get_higher_half_memory_offset) <$> seqZ a (Z.of_nat n));
  no_tables : forall v w, within a n v -> w ∈ walks s pm phys a n ->
    word_at (place_of (mem s) (phys +64 get_higher_half_memory_offset) v) ∉ table_words (mem s) (fst w) (snd w)
}.

Lemma known_map_walks s s' pm phys a n : known_map s pm phys -> kernel_pml4 s' = kernel_pml4 s -> cr3 s' = cr3 s ->
  Forall (same_walk (mem s) (mem s')) (walks s pm phys a n) -> known_map s' pm phys.
Proof.
  intros [H1 H2 H3 H4 H5 H6] Ek Ec Hw; apply Forall_app in Hw as [Hw _]; rewrite !Forall_cons in Hw; destruct Hw as (W1 & W2 & W3 & _).
  apply same_walk_translation in W1 as (W1 & _), W2 as (W2 & _), W3 as (W3 & _); split; rewrite ?Ec, ?Ek, ?W1, ?W2, ?W3; assumption.
Qed.

Lemma entered_in_map s pm phys l m0 W : known_map s pm phys -> Forall (same_walk m0 (mem s)) W ->
  in_map m0 (phys +64 get_higher_half_memory_offset) W (entered phys l s).
Proof.
  intros [H1 H2 H3 _ _ _] HW; split; [|exact HW]; cbn [cr3 entered relog set_cr3]; destruct (register_fields (cr3 s) phys H3 H1 H2) as (-> & _); reflexivity.
Qed.

Lemma walks_range s pm phys a n v : within a n v -> (phys +64 get_higher_half_memory_offset, v) ∈ walks s pm phys a n.
Proof.
  intros Hv; unfold walks; apply elem_of_app; right; apply elem_of_app; left; apply list_elem_of_fmap; exists v; split; [reflexivity|].
  apply elem_of_seqZ; exact Hv.
Qed.

(** A write that succeeds: the page map that was there is there again, and memory is as the
    copy left it. *)
Lemma write_inv p a l s s' phys : known_map s (page_map p) phys -> separate s (page_map p) phys a (List.length l) -> process_write p a l s = Ret true s' ->
  let n := Z.of_nat (List.length l) in let root := phys +64 get_higher_half_memory_offset in
  range_ok a n = true /\ ensure_loop (range_pages a n) (mem s) root (ALIGN_DOWN a PAGE_SIZE) (fun e => negb (get F_rw e =? 0) && negb (get F_p e =? 0)) = true /\
  kernel_pml4 s' = kernel_pml4 s /\ cr3 s' = cr3 s /\ Forall (same_walk (mem s) (mem s')) (walks s (page_map p) phys a (List.length l)) /\
  (forall v, within a (List.length l) v -> fst (virtual_to_physical (mem s) root v) = true) /\
  (forall i b, l !! i = Some b -> byte (mem s') (place_of (mem s) root (a + Z.of_nat i)) = u8 b) /\
  (forall d, (forall v, within a (List.length l) v -> d <> place_of (mem s) root v) -> byte (mem s') d = byte (mem s) d).
Proof.
  intros HK [Hnd Hno] H n root; unfold process_write in H; fold n in H; set (filter := fun e : Z => negb (get F_rw e =? 0) && negb (get F_p e =? 0)) in *.
  destruct (range_ok a n) eqn:Er.
  2: { destruct (in_process_refused p a n filter (copy_out a l) s phys HK Er) as (l0 & E); rewrite (K_bind_Ret _ _ _ _ _ E) in H; discriminate H. }
  destruct (in_process_run p a n filter (copy_out a l) s phys HK Er) as (l0 & E); unfold mbind at 1, K_bind at 1 in H; rewrite E in H; clear E; cbv zeta in H.
  fold root in H; destruct (ensure_loop _ _ _ _ _) eqn:Ee.
  2: { rewrite (K_bind_Ret _ _ _ _ _ (set_back s (entered phys l0 s) _ _ l0 HK eq_refl eq_refl (same_walk_refl _ _))) in H; discriminate H. }
  unfold mbind at 1, K_bind at 1 in H; destruct (copy_out a l (entered phys l0 s)) as [[] s2|] eqn:Ec; [|discriminate H].
  assert (HM : in_map (mem s) root (walks s (page_map p) phys a (List.length l)) (entered phys l0 s)).
  { apply (entered_in_map s _ _ _ _ _ HK); apply Forall_forall; intros w _; apply same_walk_refl. }
  destruct (copy_out_inv _ _ _ l a _ s2 HM) as (m' & -> & Hw & Hf & Hb & Ho); [apply walks_range|exact Hno|exact Ec|].
  assert (Hback : same_walk (mem s) m' (kernel_pml4 s, Z.land (cr3 s) MAP_BITS +64 get_higher_half_memory_offset)).
  { rewrite Forall_forall in Hw; apply Hw; unfold walks; right; left. }
  rewrite (K_bind_Ret _ _ _ _ _ (set_back s (set_mem m' (entered phys l0 s)) _ _ l0 HK eq_refl eq_refl Hback)) in H; injection H as <-; cbn [mem set_mem set_cr3 cr3 kernel_pml4].
  split_and!; try reflexivity; auto.
Qed.

(** C10.  What the kernel writes into the memory of a process it reads back from there: the read
    succeeds and gives the bytes.  Both leave the page map that was there before, and the
    write changes no other byte of memory. *)
Theorem process_write_read p a l s s' phys : known_map s (page_map p) phys -> separate s (page_map p) phys a (List.length l) -> Forall (in_w 8) l ->
  process_write p a l s = Ret true s' ->
  cr3 s' = cr3 s /\
  (forall d, (forall v, within a (List.length l) v -> d <> place_of (mem s) (phys +64 get_higher_half_memory_offset) v) -> byte (mem s') d = byte (mem s) d) /\
  exists s'', process_read p a (List.length l) s' = Ret (true, l) s'' /\ cr3 s'' = cr3 s /\ mem s'' = mem s'.
Proof.
  intros HK HS Hl Hwr; destruct (write_inv p a l s s' phys HK HS Hwr) as (Er & Ee & Ek & Ec & Hw & Hf & Hb & Ho); cbv zeta in *.
  split; [exact Ec|split; [exact Ho|]]; pose proof (known_map_walks s s' _ _ _ _ HK Ek Ec Hw) as HK'.
  destruct (in_process_run p a (Z.of_nat (List.length l)) (fun e => negb (get F_p e =? 0)) (copy_in a (List.length l)) s' phys HK' Er) as (l1 & E).
  cbv zeta in E; rewrite (ensure_loop_walks (mem s)) in E.
  2: { unfold walks in Hw; rewrite !Forall_app in Hw; apply Hw. }
  rewrite (ensure_loop_weaken _ _ _ _ _ (fun e H => proj2 (proj1 (andb_true_iff _ _) H)) _ Ee) in E.
  pose proof (copy_in_run _ _ _ _ (entered_in_map s' _ phys l1 _ _ HK' Hw) (List.length l) a (fun v Hv => conj (walks_range s _ _ _ _ _ Hv) (Hf v Hv))) as Er1.
  rewrite (K_bind_Ret _ _ _ _ _ Er1), (K_bind_Ret _ _ _ _ _ (set_back s' (entered phys l1 s') _ _ l1 HK' eq_refl eq_refl (same_walk_refl _ _))) in E.
  exists (set_cr3 (cr3 s') (entered phys l1 s')); split; [|split; [exact Ec|reflexivity]].
  unfold process_read; rewrite (K_bind_Ret _ _ _ _ _ E); cbn [mem entered relog set_cr3]; unfold mret, K_ret; do 2 f_equal.
  apply list_eq; intros i; rewrite list_lookup_fmap; destruct (l !! i) as [b|] eqn:Ei.
  - assert (Hi : (i < List.length l)%nat) by (apply lookup_lt_Some in Ei; exact Ei); rewrite lookup_seqZ_lt by lia; cbn [fmap option_fmap option_map].
    rewrite (Hb i b Ei); f_equal; apply wrap_id; rewrite Forall_lookup in Hl; exact (Hl i b Ei).
  - apply lookup_ge_None in Ei; rewrite lookup_seqZ_ge by lia; reflexivity.
Qed.
End Access.

(** ** Examples *)

Module Demo.
#[local] Instance boot : boot_info := {|
  hhdm_response := Some 0xffff800000000000;
  memmap_response := Some [ {| me_base := 0x100000; me_length := 0x200000; me_type := LIMINE_MEMMAP_USABLE |} ];
  kernel_address_response := Some 0xffffffff80000000
|}.

(** The kernel's tables are at a page of their own, which they map; the addresses of the
    kernel are free. *)
Definition root : Z := 0xffff800000030000.
Definition booted : kstate :=
  PhysMem.Demo.run (initialize_physical_memory;; virtual_map root 0x30000 root true false true false false false 0 true)
    (mk_kstate (fun _ => 0) 0 0xffffa00000000000 0x10000000000 root 0 0 0x30000 []).

(** A process of the user, with its stack. *)
Definition created : outcome (option process_context) := create_process "/init" "init" 0x10000 USER false booted.
Definition given {A} (d : A) (r : outcome (option A)) : bool * A := match r with Ret (Some x) _ => (true, x) | _ => (false, d) end.
Definition nobody : process_context := {|
  process_path := ""; process_name := ""; is_paused := true; is_being_debugged := false; debugger_pid := 0;
  p_level := USER; threads := []; page_map := 0; available_vmem := {| entries := []; capacity := 0 |} |}.
Definition init : process_context := snd (given nobody created).

(** Where an address of a process is and what its page allows. *)
Definition pte_of (s : kstate) (root va : Z) : Z :=
  let i := split_virtual_address_to_structure va in
  mem s (entry_addr (table_of (mem s (entry_addr (table_of (mem s (entry_addr (table_of (mem s (entry_addr root (va_pml4 i)))) (va_pdp i)))) (va_pd i)))) (va_pt i)).
Definition pages_of_init (vas : list Z) (r : outcome (option process_context)) : list (Z * Z * Z) :=
  match r with
  | Ret (Some p) s =>
      let root := snd (virtual_to_physical (mem s) (kernel_pml4 s) (page_map p)) +64 get_higher_half_memory_offset in
      (fun va => let e := pte_of s root va in (get F_p e, get F_us e, get F_nx e)) <$> vas
  | _ => []
  end.

(** The process starts in the page at 0x10000 with an empty stack.  Its pages are there, but
    those of a process of the user are for the supervisor and not executable, the one where
    it starts too; and this page is still among the addresses that are left. *)
Theorem created_process : fst (given nobody created) = true /\
  threads init = [{| rip := 0x10000; rsp := 0x7ffffff8 |}] /\ entries (available_vmem init) = [{| base := 0; length := 0x7ff00000 |}] /\
  pages_of_init [0x10000; 0x11000; 0x7fefffff; 0x7ff00000; 0x7ffff000] created = [(1, 0, 1); (0, 0, 0); (0, 0, 0); (1, 0, 1); (1, 0, 1)].
Proof. vm_compute; auto. Qed.

Definition left_over : vmem := {| entries := [{| base := 0; length := 0x7ff00000 |}]; capacity := 1 |}.

(** The addresses of that process: a range in the middle of an entry is added to a full vector: the entry is then written
    where the vector was. *)
Theorem middle_of_full_vector : allocate_virtual_memory_at (left_over) 0x20000 0x1000 = None.
Proof. vm_compute; reflexivity. Qed.

(** The end of a range is computed modulo 2^64: a range that the process does not have is
    given out, and the entry that is left is longer than before. *)
Theorem range_wraps : match allocate_virtual_memory_at (left_over) (2 ^ 63) (2 ^ 63 + 0x7ff00000) with
  | Some (ok, a, v) => (ok, a, entries v) = (true, 2 ^ 63, [{| base := 0; length := 2 ^ 63 |}]) | None => False end.
Proof. vm_compute; reflexivity. Qed.

(** The end of what is read or written wraps around too: the range is accepted, and none of
    its pages is checked. *)
Theorem wrapped_range_unchecked : range_ok 0x1000 (2 ^ 64 - 0x800) = true /\ range_pages 0x1000 (2 ^ 64 - 0x800) = O.
Proof. vm_compute; auto. Qed.



(** A page map with two pages, made by the functions above. *)
Definition small : K process_context :=
  kvmem ← allocate_virtual_memory_kernel 4096;
  process_page_map ← pa_alloc;
  virtual_map root process_page_map kvmem true true true true true false 0 true;;
  at_map ← translate kvmem;
  memset_zero at_map 4096;;
  copy_upper_half 256 (at_map +64 2048) (root +64 2048);;
  let p := {| process_path := "/init"; process_name := "init"; is_paused := false; is_being_debugged := false; debugger_pid := 0;
    p_level := USER; threads := []; page_map := kvmem; available_vmem := left_over |} in
  allocate_memory_in_process p 0x10000 2;;
  mret p.
Definition value {A} (d : A) (r : outcome A) : A := match r with Ret x _ => x | Halted _ => d end.
Definition p : process_context := value nobody (small booted).
Definition s : kstate := PhysMem.Demo.run small booted.
Definition phys : Z := 0x103000.

Ltac run_check := apply (bool_decide_unpack _); vm_compute; exact I.

Lemma p_known : known_map s (page_map p) phys.
Proof.
  split; [split; [discriminate|reflexivity]|reflexivity|split; run_check|run_check..].
Qed.

Lemma p_separate : separate s (page_map p) phys 0x10ffe 4.
Proof.
  split; [run_check|]; intros v w Hv Hw.
  assert (H : Forall (fun v => Forall (fun w => word_at (place_of (mem s) (phys +64 get_higher_half_memory_offset) v) ∉ table_words (mem s) (fst w) (snd w))
    (walks s (page_map p) phys 0x10ffe 4)) (seqZ 0x10ffe 4)) by run_check.
  rewrite Forall_forall in H; specialize (H v); rewrite Forall_forall in H; apply H, Hw; apply elem_of_seqZ; exact Hv.
Qed.

(** Four bytes over the border of two pages. *)
Definition after : kstate := PhysMem.Demo.run (process_write p 0x10ffe [1; 2; 3; 4]) s.
Lemma ran (c : K bool) s : value false (c s) = true -> c s = Ret true (PhysMem.Demo.run c s).
Proof. unfold PhysMem.Demo.run; destruct (c s) as [[] s'|s']; [reflexivity|discriminate..]. Qed.

Lemma process_write_read_witness : cr3 after = cr3 s /\ exists s'', process_read p 0x10ffe 4 after = Ret (true, [1; 2; 3; 4]) s'' /\ cr3 s'' = cr3 s.
Proof.
  destruct (process_write_read p 0x10ffe [1; 2; 3; 4] s after phys p_known p_separate) as (Hc & _ & s2 & Hr & Hc2 & _).
  - repeat constructor; discriminate.
  - apply ran; vm_compute; reflexivity.
  - split; [exact Hc|exists s2; split; [exact Hr|exact Hc2]].
Defined.

End Demo.
