(* ===== verification/Irq.v ===== *)
(** * hal/irq/irq.cpp and hal/ioapic/ioapic.cpp: interrupt routing

    Per CPU, a bitmap of used vectors and a table of callbacks; [hook_irq] takes a
    vector, resolves the interrupt through the overrides of the MADT, registers the
    callback and programs the redirection entry of the I/O APIC that serves it;
    [dispatch_irq] runs the callbacks of a vector.  An I/O APIC is its index
    register and its register file.  A callback is known by a number; running it is
    recorded. *)

From S2P Require Import Prelude UCore.

Open Scope word_scope.

Definition MAX_CPUS : Z := 256.
Definition INVALID_VECTOR : Z := 0.

Inductive status :=
  | STATUS_SUCCESS | STATUS_FAILURE | STATUS_INVALID_ARGUMENTS | STATUS_OUT_OF_RESOURCES.

Record map_entry_t := {
  irqId : Z;
  vector : Z;
  me_cpu_id : Z;
  callbacks : list Z
}.

(** A static array: all zero. *)
Definition empty_entry : map_entry_t := {| irqId := 0; vector := 0; me_cpu_id := 0; callbacks := [] |}.

Record ioapic := { ioregsel : Z; ioregs : Z -> Z }.

(** What the MADT says. *)
Record io_apic_entry := { io_apic_address : Z; global_system_interrupt_base : Z }.
Record interrupt_source_override_entry := { bus : Z; source : Z; iso_gsi : Z }.

Class madt := {
  io_apics : list io_apic_entry;
  isos : list interrupt_source_override_entry;
  lapic_address : Z;
  hhdm : Z
}.

(** A handle points to an entry of a CPU's table. *)
Definition handle : Type := Z * Z.

Record state := {
  vec : Z -> Z -> Z;                    (* vectors[cpu].vec[i] *)
  mapping : Z -> Z -> map_entry_t;      (* vectors[cpu].mapping[i] *)
  ioapics : Z -> ioapic;                (* by base address *)
  eois : list Z;                        (* end-of-interrupt writes, latest first *)
  interrupts : bool;                    (* the interrupt flag *)
  calls : list (Z * handle)             (* callbacks run, latest first *)
}.

Abbreviation M := (SM state).

Definition set_vec (c i v : Z) (s : state) : state := {|
  vec := fun c' i' => if (c' =? c) && (i' =? i) then v else vec s c' i';
  mapping := mapping s; ioapics := ioapics s; eois := eois s; interrupts := interrupts s;
  calls := calls s |}.

Definition set_mapping (c i : Z) (e : map_entry_t) (s : state) : state := {|
  vec := vec s;
  mapping := fun c' i' => if (c' =? c) && (i' =? i) then e else mapping s c' i';
  ioapics := ioapics s; eois := eois s; interrupts := interrupts s; calls := calls s |}.

Definition set_ioapic (b : Z) (a : ioapic) (s : state) : state := {|
  vec := vec s; mapping := mapping s;
  ioapics := fun b' => if b' =? b then a else ioapics s b';
  eois := eois s; interrupts := interrupts s; calls := calls s |}.

Definition set_interrupts (b : bool) (s : state) : state := {|
  vec := vec s; mapping := mapping s; ioapics := ioapics s; eois := eois s; interrupts := b;
  calls := calls s |}.

Definition log_eoi (a : Z) (s : state) : state := {|
  vec := vec s; mapping := mapping s; ioapics := ioapics s; eois := a :: eois s;
  interrupts := interrupts s; calls := calls s |}.

Definition log_call (c : Z * handle) (s : state) : state := {|
  vec := vec s; mapping := mapping s; ioapics := ioapics s; eois := eois s;
  interrupts := interrupts s; calls := c :: calls s |}.

(** ** I/O APIC registers *)

Definition ioapic_write (base reg value : Z) : M unit :=
  update_state (fun s => set_ioapic base {| ioregsel := reg; ioregs := ioregs (ioapics s base) |} s);;
  update_state (fun s => let a := ioapics s base in
    set_ioapic base {| ioregsel := ioregsel a;
      ioregs := fun r => if r =? ioregsel a then value else ioregs a r |} s).

Definition ioapic_read (base reg : Z) : M Z :=
  update_state (fun s => set_ioapic base {| ioregsel := reg; ioregs := ioregs (ioapics s base) |} s);;
  gets_state (fun s => let a := ioapics s base in ioregs a (ioregsel a)).

Definition IOAPIC_REGISTER_REDIRECTION_BASE : Z := 0x10.

(** The 64 bits of a redirection entry. *)
Definition redirection_value (destination vector delivery_mode : Z)
    (level_triggered physical_destination delivery_status pin_polarity mask_irq : bool) : Z :=
  let dest := if physical_destination then Z.land destination 0x0f else Z.land destination 0xff in
  Z.lor (Z.lor (Z.lor (Z.lor (Z.lor (Z.lor (Z.lor
    (u8 vector)
    (Z.shiftl (wrap 3 delivery_mode) 8))
    (Z.shiftl (Z.b2z (negb physical_destination)) 11))
    (Z.shiftl (Z.b2z delivery_status) 12))
    (Z.shiftl (Z.b2z pin_polarity) 13))
    (Z.shiftl (Z.b2z level_triggered) 15))
    (Z.shiftl (Z.b2z mask_irq) 16))
    (Z.shiftl (u8 dest) 56).

Definition ioapic_set_redirection (base irq destination vector delivery_mode : Z)
    (level_triggered physical_destination delivery_status pin_polarity mask_irq : bool) : M unit :=
  let irq := u8 irq in
  let low_index := IOAPIC_REGISTER_REDIRECTION_BASE + irq * 2 in
  let high_index := IOAPIC_REGISTER_REDIRECTION_BASE + irq * 2 + 1 in
  let redirection := redirection_value destination vector delivery_mode level_triggered
    physical_destination delivery_status pin_polarity mask_irq in
  ioapic_write base high_index (u32 (Z.shiftr redirection 32));;
  ioapic_write base low_index (u32 (Z.land redirection 0xffffffff)).

Definition ioapic_get_redirection (base irq : Z) : M Z :=
  let irq := u8 irq in
  low ← ioapic_read base (IOAPIC_REGISTER_REDIRECTION_BASE + irq * 2);
  high ← ioapic_read base (IOAPIC_REGISTER_REDIRECTION_BASE + irq * 2 + 1);
  mret (Z.lor (Z.shiftl high 32) low).

Definition get_ioapic_max_redirections (base : Z) : M Z :=
  version ← ioapic_read base 0x01;
  mret (u8 (Z.land (Z.shiftr version 16) 0xff + 1)).

(** ** Vectors *)

Definition reserve_cpu (s : state) (c : Z) : state :=
  set_vec c 3 0xff (set_vec c 2 0xff (set_vec c 1 0xff (set_vec c 0 0xff s))).

Definition initialize_irq_vectors : M unit :=
  update_state (fun s => foldl reserve_cpu s (seqZ 0 MAX_CPUS)).

(** The first clear bit of a byte from bit [j] on. *)
Fixpoint free_bit (n : nat) (nibble j : Z) : option Z :=
  match n with
  | O => None
  | S n' => if Z.land nibble (Z.shiftl 1 j) =? 0 then Some j else free_bit n' nibble (j + 1)
  end.

Fixpoint allocate_from (n : nat) (cpu i : Z) : M Z :=
  match n with
  | O => mret INVALID_VECTOR
  | S n' =>
      nibble ← gets_state (fun s => vec s cpu i);
      match (if negb (nibble =? 0xff) then free_bit 8 nibble 0 else None) with
      | Some j =>
          update_state (set_vec cpu i (u8 (Z.lor nibble (Z.shiftl 1 j))));;
          mret (i * 8 + j)
      | None => allocate_from n' cpu (i + 1)
      end
  end.

Definition allocate_vector_on_cpu (cpu_index : Z) : M Z :=
  if MAX_CPUS <=? cpu_index then mret INVALID_VECTOR else allocate_from 32 cpu_index 0.

Definition free_vector_on_cpu (cpu_index v : Z) : M unit :=
  if (MAX_CPUS <=? cpu_index) || (256 <=? v) then mret tt else
  let nibble_index := v / 8 in
  let bit_index := v mod 8 in
  update_state (fun s => set_vec cpu_index nibble_index
    (u8 (Z.lor (vec s cpu_index nibble_index) (Z.shiftl 1 bit_index))) s).

(** ** Hooking *)

Section Routing.
Context {MADT : madt}.

(** The first override of the interrupt on bus 0; [!bus == 0] skips the others. *)
Fixpoint resolve_override (l : list interrupt_source_override_entry) (irq : Z) : Z :=
  match l with
  | [] => irq
  | o :: l' =>
      if source o =? irq then
        if negb (bus o =? 0) then resolve_override l' irq else iso_gsi o
      else resolve_override l' irq
  end.

(** Reads every I/O APIC's version (for a message). *)
Fixpoint initialize_ioapic_from (l : list io_apic_entry) : M unit :=
  match l with
  | [] => mret tt
  | a :: l' => get_ioapic_max_redirections (io_apic_address a +64 hhdm);; initialize_ioapic_from l'
  end.

Definition initialize_ioapic : M unit := initialize_ioapic_from io_apics.

Definition apic_send_eoi (base : Z) : M unit := update_state (log_eoi base).

Definition push_callback (e : map_entry_t) (irq v cpu handler : Z) : map_entry_t := {|
  irqId := irq; vector := v; me_cpu_id := cpu; callbacks := callbacks e ++ [handler] |}.

Fixpoint route (l : list io_apic_entry) (cpu_id v irq handler : Z) : M (option handle) :=
  match l with
  | [] => mret None
  | a :: l' =>
      let address := io_apic_address a +64 hhdm in
      max_redirections ← get_ioapic_max_redirections address;
      let gsi_end := u32 (global_system_interrupt_base a + max_redirections) in
      if (global_system_interrupt_base a <=? irq) && (irq <? gsi_end) then
        update_state (fun s => set_mapping cpu_id v (push_callback (mapping s cpu_id v) irq v cpu_id handler) s);;
        ioapic_set_redirection address (irq -64 global_system_interrupt_base a) cpu_id v 0 false true
          false false false;;
        apic_send_eoi (lapic_address +64 hhdm);;
        mret (Some (cpu_id, v))
      else route l' cpu_id v irq handler
  end.

(** The status and, on success, the handle. *)
Definition hook_irq (is_gsi : bool) (cpu_id irq handler : Z) : M (status * option handle) :=
  update_state (set_interrupts false);;
  if MAX_CPUS <=? cpu_id then
    update_state (set_interrupts true);; mret (STATUS_INVALID_ARGUMENTS, None)
  else
  v ← allocate_vector_on_cpu cpu_id;
  if v =? INVALID_VECTOR then
    update_state (set_interrupts true);; mret (STATUS_OUT_OF_RESOURCES, None)
  else
  let irq := if negb is_gsi then resolve_override isos irq else irq in
  h ← route io_apics cpu_id v irq handler;
  update_state (set_interrupts true);;
  mret (match h with Some h => (STATUS_SUCCESS, Some h) | None => (STATUS_FAILURE, None) end).
End Routing.

(** ** Dispatch *)

Fixpoint run_callbacks (l : list Z) (h : handle) : M unit :=
  match l with [] => mret tt | c :: l' => update_state (log_call (c, h));; run_callbacks l' h end.

(** [for (i = 0; 256 > i; i++)] over the entries of the running CPU. *)
Fixpoint dispatch_from (n : nat) (cpu i v : Z) : M unit :=
  match n with
  | O => mret tt
  | S n' =>
      e ← gets_state (fun s => mapping s cpu i);
      (if (vector e =? v) && negb (bool_decide (callbacks e = []))
       then run_callbacks (callbacks e) (cpu, v) else mret tt);;
      dispatch_from n' cpu (i + 1) v
  end.

Definition dispatch_irq (processor_id v : Z) : M unit := dispatch_from 256 processor_id 0 v.

Definition get_irq_from_handle (h : handle) : M Z := gets_state (fun s => irqId (mapping s (fst h) (snd h))).
Definition get_idt_vector_from_handle (h : handle) : M Z :=
  gets_state (fun s => vector (mapping s (fst h) (snd h))).
Definition get_cpu_id_from_handle (h : handle) : M Z :=
  gets_state (fun s => me_cpu_id (mapping s (fst h) (snd h))).

(** ** Lemmas: the bitmap *)

(** Vector [v] of CPU [c] is taken. *)
Definition used (s : state) (c v : Z) : bool := Z.testbit (vec s c (v / 8)) (v mod 8).

Definition byte_maps (s : state) : Prop := forall c i, in_w 8 (vec s c i).

Lemma land_bit x j : 0 <= j -> (Z.land x (Z.shiftl 1 j) =? 0) = negb (Z.testbit x j).
Proof.
  intros Hj; rewrite Z.shiftl_1_l; destruct (Z.testbit x j) eqn:E; simpl.
  - apply Z.eqb_neq; intros H; pose proof (f_equal (fun z => Z.testbit z j) H) as Hb; cbn beta in Hb.
    rewrite Z.land_spec, E, Z.pow2_bits_true, Z.testbit_0_l in Hb by lia; discriminate.
  - apply Z.eqb_eq; bitwise; subst; rewrite E; reflexivity.
Qed.

Lemma free_bit_spec n : forall nib j, 0 <= j ->
  match free_bit n nib j with
  | Some k => j <= k < j + Z.of_nat n /\ Z.testbit nib k = false /\
      (forall u, j <= u < k -> Z.testbit nib u = true)
  | None => forall u, j <= u < j + Z.of_nat n -> Z.testbit nib u = true
  end.
Proof.
  induction n as [|n IH]; intros nib j Hj; cbn [free_bit]; [intros u Hu; lia|].
  rewrite land_bit by assumption; destruct (Z.testbit nib j) eqn:E; cbn [negb].
  - specialize (IH nib (j + 1) ltac:(lia)); rewrite Nat2Z.inj_succ.
    destruct (free_bit n nib (j + 1)) as [k|].
    + destruct IH as (Hk & Hb & Hl); repeat split; try lia; try assumption.
      intros u Hu; destruct (decide (u = j)) as [->|]; [assumption|apply Hl; lia].
    + intros u Hu; destruct (decide (u = j)) as [->|]; [assumption|apply IH; lia].
  - rewrite Nat2Z.inj_succ; repeat split; try lia; assumption.
Qed.

(** What a byte of the bitmap offers. *)
Lemma byte_free nib : in_w 8 nib ->
  match (if negb (nib =? 0xff) then free_bit 8 nib 0 else None) with
  | Some k => 0 <= k < 8 /\ Z.testbit nib k = false /\ (forall u, 0 <= u < k -> Z.testbit nib u = true)
  | None => forall u, 0 <= u < 8 -> Z.testbit nib u = true
  end.
Proof.
  intros Hn; destruct (Z.eqb_spec nib 0xff) as [->|Hne]; cbn [negb].
  - intros u Hu; change 0xff with (Z.ones 8); apply Z.ones_spec_low; lia.
  - exact (free_bit_spec 8 nib 0 ltac:(lia)).
Qed.

Lemma set_bit_in_w nib j : in_w 8 nib -> 0 <= j < 8 ->
  in_w 8 (u8 (Z.lor nib (Z.shiftl 1 j))) /\
  forall u, 0 <= u < 8 -> Z.testbit (u8 (Z.lor nib (Z.shiftl 1 j))) u = Z.testbit nib u || (u =? j).
Proof.
  intros Hn Hj; split; [apply wrap_range; lia|]; intros u Hu.
  rewrite Z.shiftl_1_l; bits_simpl; bool_cases; reflexivity.
Qed.

(** Marking vector [8 * i + j]. *)
Lemma used_set_vec s c i j : byte_maps s -> 0 <= j < 8 ->
  let s' := set_vec c i (u8 (Z.lor (vec s c i) (Z.shiftl 1 j))) s in
  byte_maps s' /\
  forall c' v, used s' c' v = used s c' v || ((c' =? c) && (v =? i * 8 + j)).
Proof.
  intros Hb Hj s'; destruct (set_bit_in_w (vec s c i) j (Hb c i) Hj) as [Hw Hbit]; split.
  - intros c' i'; unfold s'; cbn; destruct (_ && _); [exact Hw|apply Hb].
  - intros c' v; unfold used, s'; cbn.
    destruct (Z.eqb_spec c' c) as [->|]; cbn [andb]; [|rewrite orb_false_r; reflexivity].
    destruct (Z.eqb_spec (v / 8) i) as [E|E].
    + rewrite Hbit, <- E by (apply Z.mod_pos_bound; lia); f_equal.
      destruct (Z.eqb_spec (v mod 8) j), (Z.eqb_spec v (i * 8 + j)); try reflexivity;
        Z.div_mod_to_equations; lia.
    + destruct (Z.eqb_spec v (i * 8 + j)); [Z.div_mod_to_equations; lia|].
      rewrite orb_false_r; reflexivity.
Qed.

Lemma allocate_from_spec c n : forall i s, byte_maps s -> 0 <= i ->
  (forall v, 0 <= v < i * 8 -> used s c v = true) ->
  (exists v s', allocate_from n c i s = Some (v, s') /\ i * 8 <= v < (i + Z.of_nat n) * 8 /\
     used s c v = false /\ (forall u, 0 <= u < v -> used s c u = true) /\
     s' = set_vec c (v / 8) (u8 (Z.lor (vec s c (v / 8)) (Z.shiftl 1 (v mod 8)))) s) \/
  (allocate_from n c i s = Some (INVALID_VECTOR, s) /\
     forall v, 0 <= v < (i + Z.of_nat n) * 8 -> used s c v = true).
Proof.
  induction n as [|n IH]; intros i s Hb Hi Hlow; cbn [allocate_from].
  { right; split; [reflexivity|]; intros v Hv; apply Hlow; lia. }
  smunfold; pose proof (byte_free (vec s c i) (Hb c i)) as Hf.
  destruct (if negb (vec s c i =? 255) then free_bit 8 (vec s c i) 0 else None) as [j|].
  - left; destruct Hf as (Hj & Hbit & Hl).
    assert (Ed : (i * 8 + j) / 8 = i /\ (i * 8 + j) mod 8 = j) by (Z.div_mod_to_equations; lia).
    destruct Ed as [Ed Em]; eexists _, _; split; [reflexivity|]; rewrite Ed, Em; repeat split; try lia.
    + unfold used; rewrite Ed, Em; exact Hbit.
    + intros u Hu; destruct (Z.lt_ge_cases u (i * 8)); [apply Hlow; lia|]; unfold used.
      replace (u / 8) with i by (Z.div_mod_to_equations; lia); apply Hl; Z.div_mod_to_equations; lia.
  - destruct (IH (i + 1) s Hb ltac:(lia)) as [(v & s' & E & Hv & H)|[E H]].
    + intros v Hv; destruct (Z.lt_ge_cases v (i * 8)); [apply Hlow; lia|]; unfold used.
      replace (v / 8) with i by (Z.div_mod_to_equations; lia); apply Hf; Z.div_mod_to_equations; lia.
    + left; exists v, s'; rewrite Nat2Z.inj_succ; repeat split; try apply H; try lia; exact E.
    + right; split; [exact E|]; intros v Hv; apply H; lia.
Qed.

Lemma allocate_vector_spec c s : byte_maps s -> 0 <= c < MAX_CPUS ->
  (exists v s', allocate_vector_on_cpu c s = Some (v, s') /\ 0 <= v < 256 /\
     used s c v = false /\ (forall u, 0 <= u < v -> used s c u = true) /\ byte_maps s' /\
     (forall c' u, used s' c' u = used s c' u || ((c' =? c) && (u =? v))) /\
     mapping s' = mapping s /\ ioapics s' = ioapics s /\ calls s' = calls s) \/
  (allocate_vector_on_cpu c s = Some (INVALID_VECTOR, s) /\
     forall v, 0 <= v < 256 -> used s c v = true).
Proof.
  intros Hb Hc; unfold allocate_vector_on_cpu; destruct (Z.leb_spec MAX_CPUS c); [lia|].
  destruct (allocate_from_spec c 32 0 s Hb ltac:(lia)) as [(v & s' & E & Hv & Hu & Hl & ->)|[E H1]].
  - intros v Hv; lia.
  - left; exists v; eexists; split; [exact E|]; split; [lia|split; [assumption|split; [assumption|]]].
    destruct (used_set_vec s c (v / 8) (v mod 8) Hb) as [Hb' Hu']; [apply Z.mod_pos_bound; lia|].
    split; [exact Hb'|split; [|repeat split]]; intros c' u; rewrite Hu'; do 3 f_equal.
    Z.div_mod_to_equations; lia.
  - right; split; [exact E|]; intros v Hv; apply H1; lia.
Qed.

(** ** Lemmas: the I/O APIC *)

(** Only index registers differ. *)
Definition same_regs (s s' : state) : Prop :=
  vec s' = vec s /\ mapping s' = mapping s /\ calls s' = calls s /\ eois s' = eois s /\
  interrupts s' = interrupts s /\ forall b r, ioregs (ioapics s' b) r = ioregs (ioapics s b) r.

#[export] Instance same_regs_po : PreOrder same_regs.
Proof.
  split; [intros s; repeat split|].
  intros s1 s2 s3 (A1 & A2 & A3 & A4 & A5 & A6) (B1 & B2 & B3 & B4 & B5 & B6).
  repeat split; try congruence; intros; rewrite B6, A6; reflexivity.
Qed.

Lemma ioapic_read_spec b r s : exists s',
  ioapic_read b r s = Some (ioregs (ioapics s b) r, s') /\ same_regs s s'.
Proof.
  unfold ioapic_read; smunfold; eexists; split; [cbn; rewrite Z.eqb_refl; reflexivity|].
  repeat split; intros b' r'; cbn; destruct (Z.eqb_spec b' b) as [->|]; reflexivity.
Qed.

(** One register of one I/O APIC changes. *)
Definition reg_set (b r v : Z) (s s' : state) : Prop :=
  vec s' = vec s /\ mapping s' = mapping s /\ calls s' = calls s /\ eois s' = eois s /\
  interrupts s' = interrupts s /\
  forall b' r', ioregs (ioapics s' b') r' = if (b' =? b) && (r' =? r) then v else ioregs (ioapics s b') r'.

Lemma ioapic_write_spec b r v s : exists s', ioapic_write b r v s = Some (tt, s') /\ reg_set b r v s s'.
Proof.
  unfold ioapic_write; smunfold; eexists; split; [reflexivity|].
  repeat split; intros b' r'; cbn; rewrite Z.eqb_refl; cbn.
  destruct (Z.eqb_spec b' b) as [->|]; cbn; [|reflexivity]; destruct (r' =? r); reflexivity.
Qed.

Lemma in_w_lor w a b : 0 <= w -> in_w w a -> in_w w b -> in_w w (Z.lor a b).
Proof.
  intros Hw [Ha Ha'] [Hb Hb']; apply in_w_of_testbit; [assumption|apply Z.lor_nonneg; lia|].
  intros i Hi; rewrite Z.lor_spec, !(testbit_in_w w) by (unfold in_w; lia); reflexivity.
Qed.

Lemma in_w_shiftl w k n a : 0 <= n -> 0 <= k -> k + n <= w -> in_w k a -> in_w w (Z.shiftl a n).
Proof.
  intros Hn Hk Hw [Ha Ha']; rewrite Z.shiftl_mul_pow2 by lia; split; [apply Z.mul_nonneg_nonneg; lia|].
  apply Z.lt_le_trans with (2 ^ k * 2 ^ n); [nia|].
  rewrite <- Z.pow_add_r by lia; apply Z.pow_le_mono_r; lia.
Qed.

Lemma in_w_b2z b : in_w 1 (Z.b2z b).
Proof. destruct b; unfold in_w; cbn; lia. Qed.

Lemma redirection_in_w d v m lt ph ds pp mk : in_w 64 (redirection_value d v m lt ph ds pp mk).
Proof.
  unfold redirection_value; repeat (apply in_w_lor; [lia| |]);
    try (apply (in_w_shiftl _ 1); [lia|lia|lia|apply in_w_b2z]).
  - pose proof (wrap_range 8 v ltac:(lia)); unfold in_w in *; lia.
  - apply (in_w_shiftl _ 3); [lia|lia|lia|apply wrap_range; lia].
  - apply (in_w_shiftl _ 8); [lia|lia|lia|apply wrap_range; lia].
Qed.

Lemma join_halves r : in_w 64 r ->
  Z.lor (Z.shiftl (u32 (Z.shiftr r 32)) 32) (u32 (Z.land r 0xffffffff)) = r.
Proof.
  intros Hr; change 0xffffffff with (Z.ones 32); apply Z.bits_inj'; intros i Hi.
  destruct (Z.lt_ge_cases i 32); bits_simpl; bool_cases; rewrite ?andb_true_r, ?orb_false_r; try reflexivity.
  - f_equal; lia.
  - symmetry; apply (testbit_in_w 64); [assumption|lia].
Qed.

Definition redirected (s : state) (b k r : Z) : Prop :=
  ioregs (ioapics s b) (IOAPIC_REGISTER_REDIRECTION_BASE + k * 2) = u32 (Z.land r 0xffffffff) /\
  ioregs (ioapics s b) (IOAPIC_REGISTER_REDIRECTION_BASE + k * 2 + 1) = u32 (Z.shiftr r 32).

Lemma set_redirection_spec b k d v m lt ph ds pp mk s : exists s',
  ioapic_set_redirection b k d v m lt ph ds pp mk s = Some (tt, s') /\
  redirected s' b (u8 k) (redirection_value d v m lt ph ds pp mk) /\
  vec s' = vec s /\ mapping s' = mapping s /\ calls s' = calls s /\ interrupts s' = interrupts s /\
  forall b' r', (b' = b -> r' <> IOAPIC_REGISTER_REDIRECTION_BASE + u8 k * 2 /\
                          r' <> IOAPIC_REGISTER_REDIRECTION_BASE + u8 k * 2 + 1) ->
    ioregs (ioapics s' b') r' = ioregs (ioapics s b') r'.
Proof.
  unfold ioapic_set_redirection; cbv zeta; set (r := redirection_value _ _ _ _ _ _ _ _).
  set (lo := IOAPIC_REGISTER_REDIRECTION_BASE + u8 k * 2).
  destruct (ioapic_write_spec b (lo + 1) (u32 (Z.shiftr r 32)) s) as (s1 & E1 & A1 & A2 & A3 & A4 & A5 & A6).
  destruct (ioapic_write_spec b lo (u32 (Z.land r 0xffffffff)) s1) as (s2 & E2 & B1 & B2 & B3 & B4 & B5 & B6).
  exists s2; rewrite (SM_bind_Some _ _ _ _ _ E1); split; [exact E2|split; [split; fold lo|]].
  - rewrite B6, !Z.eqb_refl; reflexivity.
  - rewrite B6, A6, !Z.eqb_refl; destruct (Z.eqb_spec (lo + 1) lo); [lia|reflexivity].
  - repeat split; try congruence; intros b' r' Hne; rewrite B6, A6.
    destruct (Z.eqb_spec b' b) as [Eb|]; cbn [andb]; [|reflexivity]; destruct (Hne Eb) as [N1 N2].
    destruct (Z.eqb_spec r' lo); [contradiction|]; destruct (Z.eqb_spec r' (lo + 1)); [contradiction|reflexivity].
Qed.

Lemma get_redirection_spec s b k r : redirected s b (u8 k) r -> in_w 64 r ->
  exists s', ioapic_get_redirection b k s = Some (r, s') /\ same_regs s s'.
Proof.
  intros [Hlo Hhi] Hr; unfold ioapic_get_redirection; cbv zeta.
  destruct (ioapic_read_spec b (IOAPIC_REGISTER_REDIRECTION_BASE + u8 k * 2) s) as (s1 & E1 & H1).
  destruct (ioapic_read_spec b (IOAPIC_REGISTER_REDIRECTION_BASE + u8 k * 2 + 1) s1) as (s2 & E2 & H2).
  exists s2; rewrite (SM_bind_Some _ _ _ _ _ E1), (SM_bind_Some _ _ _ _ _ E2).
  split; [|etransitivity; eassumption].
  destruct H1 as (_ & _ & _ & _ & _ & R1); rewrite R1, Hlo, Hhi, join_halves by assumption; reflexivity.
Qed.

(** ** Lemmas: routing *)

Section RoutingLemmas.
Context {MADT : madt}.

(** The I/O APIC [a] serves the interrupt, by its version register. *)
Definition serves (s : state) (a : io_apic_entry) (irq : Z) : bool :=
  let base := io_apic_address a +64 hhdm in
  let max := u8 (Z.land (Z.shiftr (ioregs (ioapics s base) 0x01) 16) 0xff + 1) in
  (global_system_interrupt_base a <=? irq) && (irq <? u32 (global_system_interrupt_base a + max)).

Lemma serves_same s s' a irq : same_regs s s' -> serves s' a irq = serves s a irq.
Proof. intros (_ & _ & _ & _ & _ & H); unfold serves; rewrite H; reflexivity. Qed.

(** The entry that [route] writes for the first I/O APIC that serves the interrupt. *)
Definition hooked (s s' : state) (cpu v irq handler : Z) (a : io_apic_entry) : Prop :=
  vec s' = vec s /\ calls s' = calls s /\
  (forall c i, mapping s' c i = if (c =? cpu) && (i =? v)
     then push_callback (mapping s cpu v) irq v cpu handler else mapping s c i) /\
  redirected s' (io_apic_address a +64 hhdm) (u8 (irq -64 global_system_interrupt_base a))
    (redirection_value cpu v 0 false true false false false).

Lemma route_spec cpu v irq handler l : forall s,
  (forallb (fun a => negb (serves s a irq)) l = true /\
     exists s', route l cpu v irq handler s = Some (None, s') /\ same_regs s s') \/
  (exists a s', List.find (fun a => serves s a irq) l = Some a /\
     route l cpu v irq handler s = Some (Some (cpu, v), s') /\ hooked s s' cpu v irq handler a).
Proof.
  induction l as [|a l IH]; intros s; cbn [route forallb List.find].
  { left; split; [reflexivity|exists s; split; reflexivity]. }
  unfold get_ioapic_max_redirections.
  destruct (ioapic_read_spec (io_apic_address a +64 hhdm) 1 s) as (s1 & E1 & H1).
  erewrite SM_bind_Some by (erewrite SM_bind_Some by exact E1; reflexivity); cbv zeta.
  fold (serves s a irq); destruct (serves s a irq) eqn:Es; cbn [negb andb].
  - right; exists a; erewrite SM_bind_Some by reflexivity.
    set (s2 := set_mapping _ _ _ s1).
    destruct (set_redirection_spec (io_apic_address a +64 hhdm) (irq -64 global_system_interrupt_base a)
      cpu v 0 false true false false false s2) as (s3 & E3 & R3 & V3 & M3 & C3 & I3 & _).
    erewrite SM_bind_Some by exact E3; unfold apic_send_eoi; smunfold; eexists; split; [reflexivity|].
    split; [reflexivity|]; destruct H1 as (HV & HM & HC & _); repeat split; cbn.
    + rewrite V3; exact HV.
    + rewrite C3; exact HC.
    + intros c i; rewrite M3; unfold s2; cbn; rewrite HM; reflexivity.
    + apply R3.
    + apply R3.
  - destruct (IH s1) as [[Hn (s' & E' & H')]|(b & s' & Hf & E' & H')].
    + left; split; [|exists s'; split; [exact E'|etransitivity; eassumption]].
      erewrite <- Hn; clear -H1; induction l as [|b l IHl]; cbn; [reflexivity|].
      rewrite (serves_same s s1) by assumption; f_equal; apply IHl.
    + right; exists b, s'; split; [|split; [exact E'|]].
      * rewrite <- Hf; clear -H1; induction l as [|c l IHl]; cbn; [reflexivity|].
        rewrite (serves_same s s1) by assumption; destruct (serves s c irq); [reflexivity|apply IHl].
      * destruct H' as (V' & C' & M' & R'), H1 as (HV & HM & HC & _); repeat split; try congruence; try apply R'.
        intros c i; rewrite M', HM; reflexivity.
Qed.
End RoutingLemmas.

(** ** Lemmas: dispatch *)

(** A table entry with callbacks is at the place its vector says, on a used vector. *)
Record irq_inv (s : state) : Prop := {
  ii_bytes : byte_maps s;
  ii_reserved : forall c v, 0 <= c < MAX_CPUS -> 0 <= v < 32 -> used s c v = true;
  ii_entry : forall c v, 0 <= c < MAX_CPUS -> 0 <= v < 256 -> callbacks (mapping s c v) <> [] ->
    vector (mapping s c v) = v /\ used s c v = true
}.

Definition with_calls (l : list (Z * handle)) (s : state) : state := {|
  vec := vec s; mapping := mapping s; ioapics := ioapics s; eois := eois s;
  interrupts := interrupts s; calls := l ++ calls s |}.

Lemma run_callbacks_spec l h : forall s,
  run_callbacks l h s = Some (tt, with_calls (rev (map (fun c => (c, h)) l)) s).
Proof.
  induction l as [|c l IH]; intros s; cbn [run_callbacks]; [destruct s; reflexivity|].
  smunfold; rewrite IH; unfold with_calls; cbn; rewrite <- app_assoc; reflexivity.
Qed.

Lemma dispatch_from_spec c v n : forall i s, 0 <= i -> i + Z.of_nat n <= 256 ->
  (forall k, 0 <= k < 256 -> callbacks (mapping s c k) <> [] -> vector (mapping s c k) = k) ->
  dispatch_from n c i v s = Some (tt, with_calls
    (if (i <=? v) && (v <? i + Z.of_nat n)
     then rev (map (fun cb => (cb, (c, v))) (callbacks (mapping s c v))) else []) s).
Proof.
  induction n as [|n IH]; intros i s Hi Hn Hv; cbn [dispatch_from].
  { rewrite Z.add_0_r; destruct (Z.leb_spec i v), (Z.ltb_spec v i); try lia; destruct s; reflexivity. }
  rewrite Nat2Z.inj_succ in *; erewrite SM_bind_Some by reflexivity.
  assert (Hsame : forall s1, mapping s1 = mapping s -> dispatch_from n c (i + 1) v s1 =
    Some (tt, with_calls (if (i + 1 <=? v) && (v <? i + Z.succ (Z.of_nat n))
      then rev (map (fun cb => (cb, (c, v))) (callbacks (mapping s c v))) else []) s1)).
  { intros s1 E; rewrite (IH (i + 1) s1) by (try lia; rewrite E; exact Hv); rewrite E.
    replace (i + 1 + Z.of_nat n) with (i + Z.succ (Z.of_nat n)) by lia; reflexivity. }
  case_bool_decide as Hc; cbn [negb].
  - rewrite andb_false_r; erewrite SM_bind_Some by reflexivity; rewrite Hsame by reflexivity.
    destruct (decide (v = i)) as [->|Hne]; [rewrite Hc; cbn; destruct (_ && _), (_ && _); reflexivity|].
    do 3 f_equal; destruct (Z.leb_spec (i + 1) v), (Z.leb_spec i v); try lia; reflexivity.
  - rewrite (Hv i) by (assumption || lia); rewrite andb_true_r; destruct (Z.eqb_spec i v) as [->|Hne].
    + erewrite SM_bind_Some by apply run_callbacks_spec; rewrite Hsame by reflexivity.
      destruct (Z.leb_spec (v + 1) v), (Z.leb_spec v v), (Z.ltb_spec v (v + Z.succ (Z.of_nat n))); try lia.
      reflexivity.
    + erewrite SM_bind_Some by reflexivity; rewrite Hsame by reflexivity; do 3 f_equal.
      destruct (Z.leb_spec (i + 1) v), (Z.leb_spec i v); try lia; reflexivity.
Qed.

Lemma dispatch_spec s c v : irq_inv s -> 0 <= c < MAX_CPUS -> 0 <= v < 256 ->
  dispatch_irq c v s =
  Some (tt, with_calls (rev (map (fun cb => (cb, (c, v))) (callbacks (mapping s c v)))) s).
Proof.
  intros Hi Hc Hv; unfold dispatch_irq; rewrite dispatch_from_spec; [|lia|lia|].
  - destruct (Z.leb_spec 0 v), (Z.ltb_spec v (0 + Z.of_nat 256)); try lia; reflexivity.
  - intros k Hk Hne; apply (ii_entry _ Hi); assumption.
Qed.


Lemma used_ext s s' : vec s' = vec s -> forall c v, used s' c v = used s c v.
Proof. intros E c v; unfold used; rewrite E; reflexivity. Qed.

Lemma irq_inv_ext s s' : vec s' = vec s -> mapping s' = mapping s -> irq_inv s -> irq_inv s'.
Proof.
  intros Ev Em [H1 H2 H3]; split.
  - intros c i; rewrite Ev; apply H1.
  - intros c v Hc Hv; rewrite (used_ext s) by assumption; auto.
  - intros c v Hc Hv; rewrite Em, (used_ext s) by assumption; auto.
Qed.

(** Taking a vector. *)
Lemma irq_inv_take s s' c v : irq_inv s -> byte_maps s' -> mapping s' = mapping s ->
  (forall c' u, used s' c' u = used s c' u || ((c' =? c) && (u =? v))) -> irq_inv s'.
Proof.
  intros [H1 H2 H3] Hb Em Hu; split; [assumption| |].
  - intros c' u Hc Hv; rewrite Hu, H2 by assumption; reflexivity.
  - intros c' u Hc Hv Hne; rewrite Em in *; destruct (H3 c' u Hc Hv Hne) as [-> Hx].
    rewrite Hu, Hx; auto.
Qed.

Lemma free_no_callbacks s c v : irq_inv s -> 0 <= c < MAX_CPUS -> 0 <= v < 256 -> used s c v = false ->
  callbacks (mapping s c v) = [].
Proof.
  intros Hi Hc Hv Hu; destruct (callbacks (mapping s c v)) as [|x l] eqn:E; [reflexivity|].
  destruct (ii_entry _ Hi c v Hc Hv) as [_ Hx]; [rewrite E; discriminate|congruence].
Qed.

Section Hook.
Context {MADT : madt}.

(** The interrupt that is routed. *)
Definition target_irq (is_gsi : bool) (irq : Z) : Z :=
  if negb is_gsi then resolve_override isos irq else irq.

(** Entering a handler for a vector that was just taken. *)
Lemma irq_inv_hook s s' cpu v irq handler a : irq_inv s -> 0 <= cpu < MAX_CPUS -> 0 <= v < 256 ->
  used s cpu v = true -> hooked s s' cpu v irq handler a -> irq_inv s'.
Proof.
  intros Hi Hc Hv Hu (Ev & _ & Em & _); split.
  - intros c i; rewrite Ev; apply Hi.
  - intros c u; rewrite (used_ext s) by assumption; apply Hi.
  - intros c u Hc' Hu'; rewrite Em, (used_ext s) by assumption.
    destruct (Z.eqb_spec c cpu) as [->|], (Z.eqb_spec u v) as [->|]; cbn [andb]; try apply Hi; try assumption.
    intros _; split; [reflexivity|assumption].
Qed.

(** C22.  A hooked interrupt reaches its handler and nothing else does.  On a
    well-formed state [hook_irq] returns with interrupts enabled and the state well
    formed.  When it succeeds, the vector is the lowest one that was free on the
    CPU, above the exceptions; dispatching that vector there runs exactly the given
    handler, once; all other vectors and CPUs keep their handlers; and the first
    I/O APIC that serves the interrupt, overrides applied, holds a redirection entry
    that reads back with that vector, unmasked, edge-triggered, fixed delivery.  When
    it fails, no handler changed. *)
Theorem hook_irq_delivers is_gsi cpu irq handler s :
  irq_inv s -> 0 <= cpu < MAX_CPUS ->
  exists st h s', hook_irq is_gsi cpu irq handler s = Some ((st, h), s') /\
    irq_inv s' /\ interrupts s' = true /\ calls s' = calls s /\
    match h with
    | None => st <> STATUS_SUCCESS /\ mapping s' = mapping s
    | Some (c, v) => st = STATUS_SUCCESS /\ c = cpu /\ 32 <= v < 256 /\
        used s cpu v = false /\ (forall u, 0 <= u < v -> used s cpu u = true) /\
        dispatch_irq cpu v s' = Some (tt, with_calls [(handler, (cpu, v))] s') /\
        (forall c' u, c' <> cpu \/ u <> v -> mapping s' c' u = mapping s c' u) /\
        exists a s2, List.find (fun a => serves s a (target_irq is_gsi irq)) io_apics = Some a /\
          ioapic_get_redirection (io_apic_address a +64 hhdm)
            (target_irq is_gsi irq -64 global_system_interrupt_base a) s' =
          Some (redirection_value cpu v 0 false true false false false, s2)
    end.
Proof.
  intros Hi Hc; unfold hook_irq; erewrite SM_bind_Some by reflexivity.
  destruct (Z.leb_spec MAX_CPUS cpu); [lia|]; set (s1 := set_interrupts false s).
  assert (Hi1 : irq_inv s1) by (apply (irq_inv_ext s); [reflexivity|reflexivity|assumption]).
  destruct (allocate_vector_spec cpu s1 (ii_bytes _ Hi1) Hc)
    as [(v & s2 & E2 & Hv & Hu & Hl & Hb & Hus & Em & Ea & Ec)|[E2 _]];
    erewrite SM_bind_Some by exact E2.
  2:{ exists STATUS_OUT_OF_RESOURCES, None; eexists; split; [reflexivity|].
      split; [apply (irq_inv_ext s); [reflexivity|reflexivity|assumption]|].
      split; [reflexivity|split; [reflexivity|split; [discriminate|reflexivity]]]. }
  assert (Hv32 : 32 <= v).
  { destruct (Z.lt_ge_cases v 32); [|assumption]; rewrite (ii_reserved _ Hi1 cpu v) in Hu by lia; discriminate. }
  unfold INVALID_VECTOR; destruct (Z.eqb_spec v 0); [lia|]; cbv zeta; fold (target_irq is_gsi irq).
  assert (Hi2 : irq_inv s2) by (eapply irq_inv_take; eassumption).
  destruct (route_spec cpu v (target_irq is_gsi irq) handler io_apics s2)
    as [[_ (s3 & E3 & H3)]|(a & s3 & Hf & E3 & H3)]; erewrite SM_bind_Some by exact E3.
  - exists STATUS_FAILURE, None; eexists; split; [reflexivity|].
    destruct H3 as (V3 & M3 & C3 & _).
    split; [apply (irq_inv_ext s2); [exact V3|exact M3|assumption]|].
    split; [reflexivity|split; [cbn; rewrite C3, Ec; reflexivity|split; [discriminate|]]].
    cbn; rewrite M3, Em; reflexivity.
  - exists STATUS_SUCCESS, (Some (cpu, v)), (set_interrupts true s3); split; [reflexivity|].
    assert (Hu2 : used s2 cpu v = true) by (rewrite Hus, !Z.eqb_refl, orb_true_r; reflexivity).
    assert (Hi3 : irq_inv (set_interrupts true s3)).
    { apply (irq_inv_ext s3); [reflexivity|reflexivity|].
      exact (irq_inv_hook s2 _ _ _ _ _ _ Hi2 Hc Hv Hu2 H3). }
    destruct H3 as (V3 & C3 & M3 & R3).
    split; [exact Hi3|split; [reflexivity|split; [cbn; rewrite C3, Ec; reflexivity|]]].
    split; [reflexivity|split; [reflexivity|split; [lia|split; [exact Hu|split; [exact Hl|split; [|split]]]]]].
    + rewrite dispatch_spec by (assumption || lia); cbn [mapping set_interrupts].
      rewrite M3, !Z.eqb_refl; cbn [andb push_callback callbacks].
      rewrite Em, (free_no_callbacks s1 cpu v) by (assumption || lia); reflexivity.
    + intros c' u Hne; cbn; rewrite M3, Em.
      destruct (Z.eqb_spec c' cpu), (Z.eqb_spec u v); cbn [andb]; try reflexivity; tauto.
    + exists a.
      destruct (get_redirection_spec (set_interrupts true s3) (io_apic_address a +64 hhdm)
        (target_irq is_gsi irq -64 global_system_interrupt_base a) _ R3 (redirection_in_w _ _ _ _ _ _ _ _))
        as (s4 & E4 & _).
      exists s4; split; [|exact E4]; rewrite <- Hf; unfold serves; rewrite Ea; reflexivity.
Qed.
End Hook.

(** Freeing a vector marks it used (the code sets the bit it should clear), so that no
    vector is ever available again. *)
Theorem free_vector_never_frees s c v :
  byte_maps s -> 0 <= c < MAX_CPUS -> 0 <= v < 256 ->
  exists s', free_vector_on_cpu c v s = Some (tt, s') /\
    (forall c' u, used s' c' u = used s c' u || ((c' =? c) && (u =? v))) /\ used s' c v = true.
Proof.
  intros Hb Hc Hv; unfold free_vector_on_cpu, MAX_CPUS in *.
  destruct (Z.leb_spec 256 c), (Z.leb_spec 256 v); try lia; cbn [orb].
  eexists; split; [reflexivity|].
  destruct (used_set_vec s c (v / 8) (v mod 8) Hb) as [_ Hu]; [apply Z.mod_pos_bound; lia|].
  assert (E : v / 8 * 8 + v mod 8 = v) by (Z.div_mod_to_equations; lia); rewrite E in Hu.
  split; [exact Hu|rewrite Hu, !Z.eqb_refl, orb_true_r; reflexivity].
Qed.

(** [initialize_ioapic] reports that all interrupts are masked, but changes no
    redirection entry. *)
Theorem initialize_ioapic_masks_nothing `{madt} s : exists s',
  initialize_ioapic s = Some (tt, s') /\ same_regs s s'.
Proof.
  unfold initialize_ioapic; revert s; induction io_apics as [|a l IH]; intros s.
  { exists s; split; [reflexivity|reflexivity]. }
  cbn [initialize_ioapic_from]; unfold get_ioapic_max_redirections.
  destruct (ioapic_read_spec (io_apic_address a +64 hhdm) 1 s) as (s1 & E1 & H1).
  destruct (IH s1) as (s2 & E2 & H2); exists s2; split; [|etransitivity; eassumption].
  erewrite SM_bind_Some; [exact E2|]; erewrite SM_bind_Some by exact E1; reflexivity.
Qed.

(** An interrupt for a CPU beyond the fifteenth is sent to another one: the
    destination of a physical-mode entry is cut to four bits. *)
Theorem redirection_drops_high_cpus cpu v : 0 <= cpu < 256 ->
  Z.shiftr (redirection_value cpu v 0 false true false false false) 56 = cpu mod 16.
Proof.
  intros Hc; unfold redirection_value; cbn [Z.b2z negb]; change 0x0f with (Z.ones 4).
  rewrite Z.land_ones by lia; change (2 ^ 4) with 16.
  assert (Hd : in_w 8 (cpu mod 16)) by (unfold in_w; Z.div_mod_to_equations; lia).
  rewrite (wrap_id 8 (cpu mod 16)) by assumption; change (wrap 3 0) with 0.
  rewrite !Z.shiftl_0_l, !Z.lor_0_r.
  assert (Hv : in_w 8 (u8 v)) by (apply wrap_range; lia).
  apply Z.bits_inj'; intros i Hi; bits_simpl.
  destruct (Z.ltb_spec (i + 56) 8); [lia|]; cbn [andb orb]; f_equal; lia.
Qed.

Module Demo.

(** One I/O APIC with 24 inputs, and the usual override of the timer. *)
#[export] Instance pc_madt : madt := {|
  io_apics := [{| io_apic_address := 0xfec00000; global_system_interrupt_base := 0 |}];
  isos := [{| bus := 0; source := 0; iso_gsi := 2 |}];
  lapic_address := 0xfee00000; hhdm := 0xffff800000000000 |}.

Definition fresh : state := {|
  vec := fun _ i => if (0 <=? i) && (i <? 4) then 0xff else 0;
  mapping := fun _ _ => empty_entry;
  ioapics := fun _ => {| ioregsel := 0; ioregs := fun r => if r =? 1 then 0x170011 else 0x10000 |};
  eois := []; interrupts := true; calls := [] |}.

Lemma fresh_inv : irq_inv fresh.
Proof.
  split.
  - intros c i; unfold fresh; cbn; destruct (_ && _); unfold in_w; lia.
  - intros c v Hc Hv; unfold used, fresh; cbn [vec].
    destruct (Z.leb_spec 0 (v / 8)), (Z.ltb_spec (v / 8) 4); cbn [andb]; try (Z.div_mod_to_equations; lia).
    change 0xff with (Z.ones 8); apply Z.ones_spec_low, Z.mod_pos_bound; lia.
  - intros c v _ _ H; elim H; reflexivity.
Qed.

Lemma hook_irq_delivers_witness :
  exists st h s', hook_irq false 0 0 77 fresh = Some ((st, h), s') /\ irq_inv s' /\
    match h with
    | Some (c, v) => dispatch_irq c v s' = Some (tt, with_calls [(77, (0, v))] s')
    | None => st <> STATUS_SUCCESS
    end.
Proof.
  destruct (hook_irq_delivers false 0 0 77 fresh fresh_inv) as (st & h & s' & E & I & _ & _ & H);
    [unfold MAX_CPUS; lia|].
  exists st, h, s'; split; [exact E|split; [exact I|]]; destruct h as [[c v]|]; [|apply H].
  destruct H as (_ & -> & _ & _ & _ & H & _); exact H.
Defined.

(** The same, evaluated: the timer is hooked at vector 32 and GSI 2. *)
Example timer_hooked :
  (fun r => (fst r, ioregs (ioapics (snd r) 0xffff8000fec00000) 0x14)) <$> hook_irq false 0 0 77 fresh =
  Some ((STATUS_SUCCESS, Some (0, 32)), 32).
Proof. vm_compute; reflexivity. Qed.

End Demo.
