(* ===== verification/Namespace.v ===== *)
(** * acpi/uacpi/namespace.c: the tree of named objects

    Nodes of the ACPI namespace are linked by [parent], [child] (the first child) and
    [next] (the next sibling) pointers in a heap; the tree is modified under the
    write lock and walked under the read lock of [RwLock].  The objects attached to
    the nodes (types.c), operation-region handlers and the kernel's allocator are the
    interface [Objects].  The tree that a heap holds is a [forest] in the
    first-child/next-sibling form, related to it by [rep]; the theorems are stated
    on forests. *)

From S2P Require Import Prelude UCore Shareable Mutex RwLock.

Open Scope word_scope.

Record namespace_node := {
  shareable_count : Z;
  name : list Z;          (* the four bytes of uacpi_object_name *)
  flags : Z;
  object : Z;
  parent : Z;
  child : Z;
  next : Z
}.

Definition FLAG_ALIAS : Z := 1.
Definition FLAG_DANGLING : Z := 2.
Definition FLAG_TEMPORARY : Z := 4.
Definition NODE_PREDEFINED : Z := 0x80000000.

Definition set_count (c : Z) (n : namespace_node) : namespace_node := {|
  shareable_count := c; name := name n; flags := flags n; object := object n;
  parent := parent n; child := child n; next := next n |}.
Definition set_name (x : list Z) (n : namespace_node) : namespace_node := {|
  shareable_count := shareable_count n; name := x; flags := flags n; object := object n;
  parent := parent n; child := child n; next := next n |}.
Definition set_flags (x : Z) (n : namespace_node) : namespace_node := {|
  shareable_count := shareable_count n; name := name n; flags := x; object := object n;
  parent := parent n; child := child n; next := next n |}.
Definition set_object (x : Z) (n : namespace_node) : namespace_node := {|
  shareable_count := shareable_count n; name := name n; flags := flags n; object := x;
  parent := parent n; child := child n; next := next n |}.
Definition set_parent (x : Z) (n : namespace_node) : namespace_node := {|
  shareable_count := shareable_count n; name := name n; flags := flags n; object := object n;
  parent := x; child := child n; next := next n |}.
Definition set_child (x : Z) (n : namespace_node) : namespace_node := {|
  shareable_count := shareable_count n; name := name n; flags := flags n; object := object n;
  parent := parent n; child := x; next := next n |}.
Definition set_next (x : Z) (n : namespace_node) : namespace_node := {|
  shareable_count := shareable_count n; name := name n; flags := flags n; object := object n;
  parent := parent n; child := child n; next := x |}.

Definition zeroed_node : namespace_node := {|
  shareable_count := 0; name := [0; 0; 0; 0]; flags := 0; object := 0; parent := 0; child := 0; next := 0 |}.

(** The nodes by address, and everything else. *)
Record ns (W : Type) := { nodes : gmap Z namespace_node; world : W }.
Arguments nodes {W}.
Arguments world {W}.

Definition with_nodes {W} (h : gmap Z namespace_node) (s : ns W) : ns W :=
  {| nodes := h; world := world s |}.
Definition with_world {W} (w : W) (s : ns W) : ns W := {| nodes := nodes s; world := w |}.

(** ** Interfaces *)

Class NamespaceLock (W : Type) := {
  uacpi_namespace_lock_init : SM W uacpi_status;
  uacpi_namespace_lock_deinit : SM W uacpi_status;
  uacpi_namespace_read_lock : SM W uacpi_status;
  uacpi_namespace_read_unlock : SM W uacpi_status;
  uacpi_namespace_write_lock : SM W uacpi_status;
  uacpi_namespace_write_unlock : SM W uacpi_status
}.

Class Objects (W : Type) := {
  init_level : W -> Z;
  flag_no_osi : W -> bool;
  (** memory for a node (0 when there is none), for text, for a path *)
  kernel_alloc_node : SM (ns W) Z;
  kernel_alloc : Z -> SM W Z;
  kernel_alloc_path : Z -> SM W (option (list Z));
  uacpi_memcpy_text : Z -> list Z -> SM W unit;
  (** types.c *)
  uacpi_unwrap_internal_reference : Z -> SM W Z;
  object_type : Z -> SM W Z;
  uacpi_create_object : Z -> SM W Z;
  uacpi_create_internal_reference : Z -> Z -> SM W Z;
  uacpi_object_ref : Z -> SM W unit;
  uacpi_object_unref : Z -> SM (ns W) unit;
  object_set_text : Z -> Z -> SM W unit;
  object_set_size : Z -> Z -> SM W unit;
  object_set_integer : Z -> Z -> SM W unit;
  object_set_native_method : Z -> Z -> SM W unit;
  object_mutex : Z -> SM W Z;
  uacpi_mutex_ref : Z -> SM W unit;
  uacpi_mutex_unref : Z -> SM W unit;
  (** g_uacpi_rt_ctx *)
  root_object : SM W Z;
  set_root_object : Z -> SM W unit;
  global_lock_mutex_ptr : SM W Z;
  set_global_lock_mutex : Z -> SM W unit;
  (** opregion.c *)
  uacpi_opregion_uninstall_handler : Z -> SM (ns W) unit
}.

(** The lock that the namespace uses: [uacpi_rw_lock] of mutex.c. *)
Section Lock.
Context {V : Type} {MK : MutexKernel V}.

Definition lock_world : Type := uacpi_rw_lock * Mutex.state V.

(** Run an operation on [&namespace_lock]. *)
Definition on_lock (f : uacpi_rw_lock -> SM (Mutex.state V) (uacpi_status * uacpi_rw_lock)) :
    SM lock_world uacpi_status := fun lw =>
  match f (fst lw) (snd lw) with
  | Some ((ret, l'), w') => Some (ret, (l', w'))
  | None => None
  end.

Definition on_lock_ro (f : uacpi_rw_lock -> SM (Mutex.state V) uacpi_status) : SM lock_world uacpi_status :=
  on_lock (fun l => ret ← f l; mret (ret, l)).

#[export] Instance namespace_lock : NamespaceLock lock_world := {|
  uacpi_namespace_lock_init := on_lock uacpi_rw_lock_init;
  uacpi_namespace_lock_deinit := on_lock uacpi_rw_lock_deinit;
  uacpi_namespace_read_lock := on_lock uacpi_rw_lock_read;
  uacpi_namespace_read_unlock := on_lock uacpi_rw_unlock_read;
  uacpi_namespace_write_lock := on_lock_ro uacpi_rw_lock_write;
  uacpi_namespace_write_unlock := on_lock_ro uacpi_rw_unlock_write |}.
End Lock.

(** ** Operations *)

Inductive uacpi_predefined_namespace := ROOT | GPE | PR | SB | SI | TZ | GL | OS | OSI | REV.

Definition OBJECT_UNINITIALIZED : Z := 0.
Definition OBJECT_INTEGER : Z := 1.
Definition OBJECT_STRING : Z := 2.
Definition OBJECT_DEVICE : Z := 6.
Definition OBJECT_METHOD : Z := 8.
Definition OBJECT_MUTEX : Z := 9.
Definition OBJECT_OPERATION_REGION : Z := 10.
Definition OBJECT_REFERENCE : Z := 20.
Definition OBJECT_ANY_BIT : Z := 0xffffffff.
Definition REFERENCE_KIND_NAMED : Z := 3.
Definition UACPI_REV_VALUE : Z := 2.

Definition CONTINUE : Z := 0.
Definition BREAK : Z := 1.
Definition NEXT_PEER : Z := 2.
Definition MAX_DEPTH_ANY : Z := 0xffffffff.

(** [&predefined_namespaces[ns]]: the static array lies at some non-null address. *)
Definition predefined (ns : uacpi_predefined_namespace) : Z :=
  0x1000 + 56 * match ns with
    ROOT => 0 | GPE => 1 | PR => 2 | SB => 3 | SI => 4 | TZ => 5 | GL => 6 | OS => 7 | OSI => 8 | REV => 9 end.

Definition uacpi_namespace_root : Z := predefined ROOT.

(** [_] is 95 and [\] is 92. *)
Definition predefined_name (ns : uacpi_predefined_namespace) : list Z :=
  match ns with
  | ROOT => [92; 0; 0; 0] | GPE => [95; 71; 80; 69] | PR => [95; 80; 82; 95] | SB => [95; 83; 66; 95]
  | SI => [95; 83; 73; 95] | TZ => [95; 84; 90; 95] | GL => [95; 71; 76; 95] | OS => [95; 79; 83; 95]
  | OSI => [95; 79; 83; 73] | REV => [95; 82; 69; 86]
  end.

(** The order of the loops over the enumeration. *)
Definition all_predefined : list uacpi_predefined_namespace := [ROOT; GPE; PR; SB; SI; TZ; GL; OS; OSI; REV].

(** "Microsoft Windows NT", with its terminator. *)
Definition UACPI_OS_VALUE : list Z :=
  [77; 105; 99; 114; 111; 115; 111; 102; 116; 32; 87; 105; 110; 100; 111; 119; 115; 32; 78; 84; 0].

Definition has_flag (f : Z) (n : namespace_node) : bool := negb (Z.land (flags n) f =? 0).

Section Operations.
Context {W : Type} {NL : NamespaceLock W} {OBJ : Objects W}.

Abbreviation M := (SM (ns W)).

Definition in_world {A} (c : SM W A) : M A := fun s =>
  match c (world s) with Some (a, w) => Some (a, with_world w s) | None => None end.

(** [node->...] *)
Definition get_node (a : Z) : M namespace_node := fun s =>
  match nodes s !! a with Some n => Some (n, s) | None => None end.

Definition put_node (a : Z) (n : namespace_node) : M unit := fun s =>
  Some (tt, with_nodes (<[a := n]> (nodes s)) s).

Definition free_node (a : Z) : M unit := fun s =>
  Some (tt, with_nodes (delete a (nodes s)) s).

Definition update_node (a : Z) (f : namespace_node -> namespace_node) : M unit :=
  n ← get_node a; put_node a (f n).

Definition uacpi_namespace_node_is_alias (node : Z) : M bool :=
  n ← get_node node; mret (has_flag FLAG_ALIAS n).
Definition uacpi_namespace_node_is_dangling (node : Z) : M bool :=
  n ← get_node node; mret (has_flag FLAG_DANGLING n).
Definition uacpi_namespace_node_is_temporary (node : Z) : M bool :=
  n ← get_node node; mret (has_flag FLAG_TEMPORARY n).
Definition uacpi_namespace_node_is_predefined (node : Z) : M bool :=
  n ← get_node node; mret (has_flag NODE_PREDEFINED n).

Definition uacpi_namespace_node_get_object (node : Z) : M Z :=
  if node =? 0 then mret 0 else
  n ← get_node node;
  if object n =? 0 then mret 0 else in_world (uacpi_unwrap_internal_reference (object n)).

Definition object_is_one_of (obj mask : Z) : M bool :=
  t ← in_world (object_type obj); mret (negb (Z.land (u32 (Z.shiftl 1 t)) mask =? 0)).

(** The reference count of a node as the object of shareable.c. *)
Definition on_count {A} (node : Z) (c : SM shareable A) : M (A * Z) :=
  n ← get_node node;
  match c {| reference_count := shareable_count n; freed := 0 |} with
  | Some (a, r) => put_node node (set_count (reference_count r) n);; mret (a, freed r)
  | None => undefined
  end.

Definition free_namespace_node (node : Z) : M unit :=
  p ← uacpi_namespace_node_is_predefined node;
  if negb (p : bool) then free_node node else
  update_node node (set_flags NODE_PREDEFINED);;
  update_node node (set_object 0);;
  update_node node (set_parent 0);;
  update_node node (set_child 0);;
  update_node node (set_next 0).

Definition uacpi_namespace_node_unref (node : Z) : M unit :=
  if node =? 0 then mret tt else
  r ← on_count node (uacpi_shareable_unref_and_delete_if_last false);
  if 0 <? snd r then free_namespace_node node else mret tt.

Definition namespace_node_detach_object (node : Z) : M unit :=
  obj ← uacpi_namespace_node_get_object node;
  if obj =? 0 then mret tt else
  t ← in_world (object_type obj);
  (if t =? OBJECT_OPERATION_REGION then uacpi_opregion_uninstall_handler node else mret tt);;
  n ← get_node node;
  uacpi_object_unref (object n);;
  update_node node (set_object 0).

Definition uacpi_namespace_get_predefined (ns : uacpi_predefined_namespace) : Z := predefined ns.

Definition uacpi_namespace_node_alloc (nm : list Z) : M Z :=
  ret ← kernel_alloc_node;
  if ret =? 0 then mret 0 else
  put_node ret zeroed_node;;
  on_count ret uacpi_shareable_init;;
  update_node ret (set_name nm);;
  mret ret.

(** [while (prev->next != UACPI_NULL) prev = prev->next;] *)
Fixpoint last_sibling (fuel : nat) (prev : Z) : M Z :=
  match fuel with
  | O => undefined
  | S fuel' => n ← get_node prev; if next n =? 0 then mret prev else last_sibling fuel' (next n)
  end.

(** A walk along [next] or [parent] visits each node at most once. *)
Definition walk_fuel : M nat := gets_state (fun s => S (size (nodes s))).

(** The lines that hang [node] behind the last child of [parent]. *)
Definition append_child (parent node : Z) : M unit :=
  p ← get_node parent;
  if child p =? 0 then update_node parent (set_child node)
  else
    fuel ← walk_fuel;
    prev ← last_sibling fuel (child p);
    update_node prev (set_next node).

Definition uacpi_namespace_node_install (parent node : Z) : M uacpi_status :=
  let parent := if parent =? 0 then uacpi_namespace_root else parent in
  d ← uacpi_namespace_node_is_dangling node;
  if (d : bool) then mret UACPI_STATUS_NAMESPACE_NODE_DANGLING else
  append_child parent node;;
  update_node node (set_parent parent);;
  mret UACPI_STATUS_OK.

(** [while (prev != NULL && prev->next != node) prev = prev->next;] *)
Fixpoint find_previous (fuel : nat) (prev node : Z) : M Z :=
  match fuel with
  | O => undefined
  | S fuel' =>
      if prev =? 0 then mret 0 else
      n ← get_node prev;
      if next n =? node then mret prev else find_previous fuel' (next n) node
  end.

(** The lines that take [node] out of its parent's list. *)
Definition unlink_node (node : Z) : M uacpi_status :=
  n ← get_node node;
  prev ← (if parent n =? 0 then mret 0 else p ← get_node (parent n); mret (child p));
  if prev =? node then
    update_node (parent n) (set_child (next n));; mret UACPI_STATUS_OK
  else
    fuel ← walk_fuel;
    prev ← find_previous fuel prev node;
    if prev =? 0 then mret UACPI_STATUS_INTERNAL_ERROR else
    update_node prev (set_next (next n));; mret UACPI_STATUS_OK.

Definition uacpi_namespace_node_uninstall (node : Z) : M uacpi_status :=
  d ← uacpi_namespace_node_is_dangling node;
  if (d : bool) then mret UACPI_STATUS_INTERNAL_ERROR else
  n ← get_node node;
  if negb (child n =? 0) then mret UACPI_STATUS_DENIED else
  namespace_node_detach_object node;;
  ret ← unlink_node node;
  if negb (is_ok ret) then mret ret else
  update_node node (fun n => set_flags (Z.lor (flags n) FLAG_DANGLING) n);;
  uacpi_namespace_node_unref node;;
  mret UACPI_STATUS_OK.

(** [while (node)]: the first sibling with the name. *)
Fixpoint find_sibling (fuel : nat) (node : Z) (nm : list Z) : M Z :=
  match fuel with
  | O => undefined
  | S fuel' =>
      if node =? 0 then mret 0 else
      n ← get_node node;
      if bool_decide (name n = nm) then mret node else find_sibling fuel' (next n) nm
  end.

Definition uacpi_namespace_node_find_sub_node (parent : Z) (nm : list Z) : M Z :=
  let parent := if parent =? 0 then uacpi_namespace_root else parent in
  p ← get_node parent;
  fuel ← walk_fuel;
  find_sibling fuel (child p) nm.

(** ** Paths

    A path is the list of its bytes before the terminator, a cursor the list of the
    bytes that remain. *)

Definition BACKSLASH : Z := 92.
Definition CARET : Z := 94.
Definition DOT : Z := 46.
Definition UNDERSCORE : Z := 95.

(** The loop over the four bytes of a name, [n] of which are left. *)
Fixpoint segment_to_name (n : nat) (cursor : list Z) : list Z * list Z :=
  match n with
  | O => ([], cursor)
  | S n' =>
      match cursor with
      | c :: rest =>
          if c =? DOT then let '(nm, r) := segment_to_name n' cursor in (UNDERSCORE :: nm, r)
          else let '(nm, r) := segment_to_name n' rest in (c :: nm, r)
      | [] => let '(nm, r) := segment_to_name n' [] in (UNDERSCORE :: nm, r)
      end
  end.

(** The first loop of [uacpi_namespace_node_resolve]: a leading [\] or any number of
    [^].  The result is the node, the rest of the path and [single_nameseg], or an
    error. *)
Fixpoint resolve_prefix (path : list Z) (cur_node prev_char : Z) (single_nameseg : bool) :
    M (uacpi_status * (Z * list Z * bool)) :=
  match path with
  | [] => mret (UACPI_STATUS_OK, (cur_node, [], single_nameseg))
  | c :: rest =>
      if c =? BACKSLASH then
        if prev_char =? CARET then mret (UACPI_STATUS_INVALID_ARGUMENT, (cur_node, path, false))
        else mret (UACPI_STATUS_OK, (uacpi_namespace_root, rest, false))
      else if c =? CARET then
        if cur_node =? uacpi_namespace_root
        then mret (UACPI_STATUS_INVALID_ARGUMENT, (cur_node, path, false))
        else n ← get_node cur_node; resolve_prefix rest (parent n) c false
      else mret (UACPI_STATUS_OK, (cur_node, path, single_nameseg))
  end.

(** [while (parent)]: the enclosing scopes, innermost first. *)
Fixpoint search_above (fuel : nat) (parent_ : Z) (nameseg : list Z) : M Z :=
  match fuel with
  | O => undefined
  | S fuel' =>
      if parent_ =? 0 then mret 0 else
      cur_node ← uacpi_namespace_node_find_sub_node parent_ nameseg;
      if negb (cur_node =? 0) then mret cur_node else
      n ← get_node parent_;
      search_above fuel' (parent n) nameseg
  end.

(** [while (bytes_left != 0)]: one name after the other. *)
Fixpoint resolve_segments (fuel : nat) (may_search_above_parent : bool) (parent_ cur_node : Z)
    (cursor : list Z) (single_nameseg : bool) : M Z :=
  match cursor with
  | [] => mret cur_node
  | c :: rest =>
      match fuel with
      | O => undefined
      | S fuel' =>
          let '(nameseg, cursor) := segment_to_name 4 (if c =? DOT then rest else cursor) in
          let single_nameseg := single_nameseg && bool_decide (cursor = []) in
          cur_node ← uacpi_namespace_node_find_sub_node cur_node nameseg;
          if cur_node =? 0 then
            if negb may_search_above_parent || negb single_nameseg then mret 0 else
            p ← get_node parent_;
            fuel ← walk_fuel;
            search_above fuel (parent p) nameseg
          else resolve_segments fuel' may_search_above_parent parent_ cur_node cursor single_nameseg
      end
  end.

(** The lines between taking the lock and releasing it. *)
Definition resolve_body (parent_ : Z) (path : list Z) (may_search_above_parent permanent_only : bool) :
    M (uacpi_status * Z) :=
  r ← resolve_prefix path (if parent_ =? 0 then uacpi_namespace_root else parent_) 0 true;
  let '(ret, (cur_node, cursor, single_nameseg)) := (r : uacpi_status * (Z * list Z * bool)) in
  if negb (is_ok ret) then mret (ret, 0) else
  cur_node ← resolve_segments (length cursor) may_search_above_parent parent_ cur_node cursor single_nameseg;
  if cur_node =? 0 then mret (UACPI_STATUS_NOT_FOUND, 0) else
  t ← uacpi_namespace_node_is_temporary cur_node;
  if (t : bool) && permanent_only then mret (UACPI_STATUS_DENIED, 0)
  else mret (UACPI_STATUS_OK, cur_node).

(** The status and [*out_node], 0 when it is not written. *)
Definition uacpi_namespace_node_resolve (parent_ : Z) (path : list Z)
    (should_lock may_search_above_parent permanent_only : bool) : M (uacpi_status * Z) :=
  ret ← (if should_lock then in_world uacpi_namespace_read_lock else mret UACPI_STATUS_OK);
  if negb (is_ok ret) then mret (ret, 0) else
  r ← resolve_body parent_ path may_search_above_parent permanent_only;
  (if should_lock then in_world uacpi_namespace_read_unlock;; mret tt else mret tt);;
  mret r.

Definition uacpi_namespace_node_find (parent_ : Z) (path : list Z) : M (uacpi_status * Z) :=
  uacpi_namespace_node_resolve parent_ path true false true.

Definition uacpi_namespace_node_resolve_from_aml_namepath (scope : Z) (path : list Z) : M (uacpi_status * Z) :=
  uacpi_namespace_node_resolve scope path true true true.

(** ** Objects of nodes *)

Definition uacpi_namespace_node_get_object_typed (node mask : Z) : M Z :=
  obj ← uacpi_namespace_node_get_object node;
  if obj =? 0 then mret 0 else
  b ← object_is_one_of obj mask;
  if negb (b : bool) then mret 0 else mret obj.

(** [c] under the read lock. *)
Definition read_locked (c : M (uacpi_status * Z)) : M (uacpi_status * Z) :=
  ret ← in_world uacpi_namespace_read_lock;
  if negb (is_ok ret) then mret (ret, 0) else
  r ← c;
  in_world uacpi_namespace_read_unlock;;
  mret r.

Definition uacpi_namespace_node_acquire_object_typed (node mask : Z) : M (uacpi_status * Z) :=
  read_locked (
    obj ← uacpi_namespace_node_get_object node;
    b ← (if obj =? 0 then mret false else object_is_one_of obj mask);
    if negb (b : bool) then mret (UACPI_STATUS_INVALID_ARGUMENT, 0) else
    in_world (uacpi_object_ref obj);;
    mret (UACPI_STATUS_OK, obj)).

Definition uacpi_namespace_node_acquire_object (node : Z) : M (uacpi_status * Z) :=
  uacpi_namespace_node_acquire_object_typed node OBJECT_ANY_BIT.

Definition object_mutate_refcount (obj : Z) (cb : Z -> M unit) : M uacpi_status :=
  t ← in_world (object_type obj);
  if negb (t =? OBJECT_REFERENCE) then cb obj;; mret UACPI_STATUS_OK else
  r ← read_locked (cb obj;; mret (UACPI_STATUS_OK, 0));
  mret (fst r).

Definition uacpi_namespace_node_reacquire_object (obj : Z) : M uacpi_status :=
  object_mutate_refcount obj (fun o => in_world (uacpi_object_ref o)).
Definition uacpi_namespace_node_release_object (obj : Z) : M uacpi_status :=
  object_mutate_refcount obj uacpi_object_unref.

Definition uacpi_namespace_node_name (node : Z) : M (list Z) := n ← get_node node; mret (name n).

Definition uacpi_namespace_node_type_unlocked (node : Z) : M (uacpi_status * Z) :=
  if node =? 0 then mret (UACPI_STATUS_INVALID_ARGUMENT, 0) else
  obj ← uacpi_namespace_node_get_object node;
  if obj =? 0 then mret (UACPI_STATUS_NOT_FOUND, 0) else
  t ← in_world (object_type obj);
  mret (UACPI_STATUS_OK, t).

Definition uacpi_namespace_node_type (node : Z) : M (uacpi_status * Z) :=
  read_locked (uacpi_namespace_node_type_unlocked node).

(** [None]: [*out] is not written. *)
Definition uacpi_namespace_node_is_one_of_unlocked (node mask : Z) : M (uacpi_status * option bool) :=
  if node =? 0 then mret (UACPI_STATUS_INVALID_ARGUMENT, None) else
  obj ← uacpi_namespace_node_get_object node;
  if obj =? 0 then mret (UACPI_STATUS_NOT_FOUND, None) else
  b ← object_is_one_of obj mask;
  mret (UACPI_STATUS_OK, Some b).

Definition uacpi_namespace_node_is_one_of (node mask : Z) : M (uacpi_status * option bool) :=
  ret ← in_world uacpi_namespace_read_lock;
  if negb (is_ok ret) then mret (ret, None) else
  r ← uacpi_namespace_node_is_one_of_unlocked node mask;
  in_world uacpi_namespace_read_unlock;;
  mret r.

Definition uacpi_namespace_node_is (node type : Z) : M (uacpi_status * option bool) :=
  uacpi_namespace_node_is_one_of node (u32 (Z.shiftl 1 type)).

(** ** Walking the tree *)

Definition is_null {A} (p : option A) : bool := match p with None => true | Some _ => false end.

Section ForEach.
Variables (descending_callback ascending_callback : option (Z -> Z -> M Z)).
Variables (type_mask max_depth : Z) (should_lock permanent_only : bool).

(** How a turn of the loop goes on: at [do_next] with a decision and [matches], or
    by leaving with a status, through [out] (which unlocks) or by a plain return. *)
Inductive turn :=
  | Next (decision : Z) (matches : bool)
  | Leave (to_out : bool) (ret : uacpi_status).

(** The loop's body from the test of [matches] to [do_next]. *)
Definition offer_node (node depth : Z) (walking_up matches : bool) : M turn :=
  if negb matches then mret (Next CONTINUE matches) else
  t ← uacpi_namespace_node_is_temporary node;
  if permanent_only && (t : bool) then mret (Next NEXT_PEER matches) else
  match (if walking_up then ascending_callback else descending_callback) with
  | Some cb =>
      ret ← (if should_lock then in_world uacpi_namespace_read_unlock else mret UACPI_STATUS_OK);
      if negb (is_ok ret) then mret (Leave false ret) else
      decision ← cb node depth;
      if decision =? BREAK then mret (Leave true ret) else
      ret ← (if should_lock then in_world uacpi_namespace_read_lock else mret UACPI_STATUS_OK);
      if negb (is_ok ret) then mret (Leave false ret) else
      mret (Next decision matches)
  | None => mret (Next CONTINUE matches)
  end.

(** The loop's body up to [do_next]; [matches] keeps its value when the node has no
    object. *)
Definition visit_node (node depth : Z) (walking_up matches : bool) : M turn :=
  r ← uacpi_namespace_node_is_one_of_unlocked node type_mask;
  offer_node node depth walking_up (default matches (snd (r : uacpi_status * option bool))).

(** [while (depth)] *)
Fixpoint for_each_loop (fuel : nat) (node depth : Z) (walking_up matches : bool) : M (bool * uacpi_status) :=
  if depth =? 0 then mret (true, UACPI_STATUS_OK) else
  match fuel with
  | O => undefined
  | S fuel' =>
      t ← visit_node node depth walking_up matches;
      match t with
      | Leave to_out ret => mret (to_out, ret)
      | Next decision matches =>
          if walking_up then
            n ← get_node node;
            if negb (next n =? 0) then for_each_loop fuel' (next n) depth false matches
            else for_each_loop fuel' (parent n) (u32 (depth - 1)) true matches
          else if decision =? CONTINUE then
            first ← (if negb (depth =? max_depth) then n ← get_node node; mret (child n) else mret 0);
            if negb (first =? 0) then for_each_loop fuel' first (u32 (depth + 1)) false matches
            else for_each_loop fuel' node depth true matches
          else if decision =? NEXT_PEER then for_each_loop fuel' node depth true matches
          else mret (true, UACPI_STATUS_INVALID_ARGUMENT)
      end
  end.

Definition uacpi_namespace_do_for_each_child (node : Z) : M uacpi_status :=
  lvl ← gets_state (fun s => init_level (world s));
  if lvl <? 1 then mret UACPI_STATUS_INIT_LEVEL_MISMATCH else
  if is_null descending_callback && is_null ascending_callback then mret UACPI_STATUS_INVALID_ARGUMENT else
  if (node =? 0) || (max_depth =? 0) then mret UACPI_STATUS_INVALID_ARGUMENT else
  ret ← (if should_lock then in_world uacpi_namespace_read_lock else mret UACPI_STATUS_OK);
  if negb (is_ok ret) then mret ret else
  n ← get_node node;
  fuel ← gets_state (fun s => 2 * size (nodes s))%nat;
  r ← (if child n =? 0 then mret (true, UACPI_STATUS_OK) else for_each_loop fuel (child n) 1 false false);
  (if fst r && should_lock then in_world uacpi_namespace_read_unlock;; mret tt else mret tt);;
  mret (snd r).
End ForEach.

Definition uacpi_namespace_for_each_child_simple (parent_ : Z) (callback : option (Z -> Z -> M Z)) :
    M uacpi_status :=
  uacpi_namespace_do_for_each_child callback None OBJECT_ANY_BIT MAX_DEPTH_ANY true true parent_.

Definition uacpi_namespace_for_each_child (parent_ : Z)
    (descending_callback ascending_callback : option (Z -> Z -> M Z)) (type_mask max_depth : Z) :
    M uacpi_status :=
  uacpi_namespace_do_for_each_child descending_callback ascending_callback type_mask max_depth true true parent_.

(** ** Absolute paths *)

(** [while (node->parent)] *)
Fixpoint depth_loop (fuel : nat) (node depth : Z) : M Z :=
  match fuel with
  | O => undefined
  | S fuel' =>
      n ← get_node node;
      if parent n =? 0 then mret depth else depth_loop fuel' (parent n) (u64 (depth + 1))
  end.

Definition uacpi_namespace_node_depth (node : Z) : M Z := fuel ← walk_fuel; depth_loop fuel node 0.

Definition uacpi_namespace_node_parent (node : Z) : M Z := n ← get_node node; mret (parent n).

(** Stores into the path; outside it they are undefined. *)
Definition store (path : list Z) (offset : Z) (bytes : list Z) : M (list Z) :=
  if (0 <=? offset) && (offset + Z.of_nat (length bytes) <=? Z.of_nat (length path))
  then mret (take (Z.to_nat offset) path ++ bytes ++ drop (Z.to_nat offset + length bytes) path) else undefined.

(** [while (node != uacpi_namespace_root())], from the end of the path to its start. *)
Fixpoint path_loop (fuel : nat) (path : list Z) (offset node : Z) : M (list Z) :=
  if node =? uacpi_namespace_root then mret path else
  match fuel with
  | O => undefined
  | S fuel' =>
      n ← get_node node;
      let offset := u64 (offset - 4) in
      path ← store path offset (name n);
      if negb (parent n =? uacpi_namespace_root) then
        let offset := u64 (offset - 1) in
        path ← store path offset [DOT];
        path_loop fuel' path offset (parent n)
      else path_loop fuel' path offset (parent n)
  end.

(** [None] is the null pointer. *)
Definition uacpi_namespace_node_generate_absolute_path (node : Z) : M (option (list Z)) :=
  d ← uacpi_namespace_node_depth node;
  let depth := u64 (d + 1) in
  let bytes_needed := u64 (1 + u64 ((depth - 1) * 4)) in
  let bytes_needed := u64 (bytes_needed + (if 2 <? depth then depth - 2 else 0)) in
  let bytes_needed := u64 (bytes_needed + 1) in
  path ← in_world (kernel_alloc_path bytes_needed);
  match path with
  | None => mret None
  | Some path =>
      path ← store path 0 [BACKSLASH];
      let offset := bytes_needed - 1 in
      path ← store path offset [0];
      fuel ← walk_fuel;
      path ← path_loop fuel path offset node;
      mret (Some path)
  end.

(** ** Initialisation and shutdown *)

Definition make_object_for_predefined (which : uacpi_predefined_namespace) : M Z :=
  match which with
  | ROOT =>
      root ← in_world (uacpi_create_object OBJECT_DEVICE);
      in_world (set_root_object root);;
      if root =? 0 then mret 0 else in_world (uacpi_create_object OBJECT_UNINITIALIZED)
  | OS =>
      obj ← in_world (uacpi_create_object OBJECT_STRING);
      if obj =? 0 then mret obj else
      text ← in_world (kernel_alloc (Z.of_nat (length UACPI_OS_VALUE)));
      in_world (object_set_text obj text);;
      if text =? 0 then uacpi_object_unref obj;; mret 0 else
      in_world (object_set_size obj (Z.of_nat (length UACPI_OS_VALUE)));;
      in_world (uacpi_memcpy_text text UACPI_OS_VALUE);;
      mret obj
  | REV =>
      obj ← in_world (uacpi_create_object OBJECT_INTEGER);
      if obj =? 0 then mret obj else
      in_world (object_set_integer obj UACPI_REV_VALUE);;
      mret obj
  | GL =>
      obj ← in_world (uacpi_create_object OBJECT_MUTEX);
      (if negb (obj =? 0) then
         m ← in_world (object_mutex obj);
         in_world (uacpi_mutex_ref m);;
         in_world (set_global_lock_mutex m)
       else mret tt);;
      mret obj
  | OSI =>
      obj ← in_world (uacpi_create_object OBJECT_METHOD);
      if obj =? 0 then mret obj else
      in_world (object_set_native_method obj 1);;
      mret obj
  | _ => in_world (uacpi_create_object OBJECT_UNINITIALIZED)
  end.

(** The first loop of [uacpi_initialize_namespace]. *)
Fixpoint create_predefined (l : list uacpi_predefined_namespace) : M uacpi_status :=
  match l with
  | [] => mret UACPI_STATUS_OK
  | which :: l' =>
      let node := predefined which in
      on_count node uacpi_shareable_init;;
      obj ← make_object_for_predefined which;
      if obj =? 0 then mret UACPI_STATUS_OUT_OF_MEMORY else
      ref ← in_world (uacpi_create_internal_reference REFERENCE_KIND_NAMED obj);
      update_node node (set_object ref);;
      if ref =? 0 then uacpi_object_unref obj;; mret UACPI_STATUS_OUT_OF_MEMORY else
      uacpi_object_unref obj;;
      create_predefined l'
  end.

(** The second loop. *)
Fixpoint install_predefined (l : list uacpi_predefined_namespace) : M unit :=
  match l with
  | [] => mret tt
  | which :: l' =>
      no_osi ← gets_state (fun s => flag_no_osi (world s));
      (if match which with OSI => no_osi | _ => false end then mret tt
       else uacpi_namespace_node_install uacpi_namespace_root (predefined which);; mret tt);;
      install_predefined l'
  end.

Definition uacpi_initialize_namespace : M uacpi_status :=
  ret ← in_world uacpi_namespace_lock_init;
  if negb (is_ok ret) then mret ret else
  ret ← create_predefined all_predefined;
  if negb (is_ok ret) then mret ret else
  install_predefined (tail all_predefined);;
  mret UACPI_STATUS_OK.

(** [while (current->child != NULL) uninstall(current->child)] *)
Fixpoint wipe (fuel : nat) (current : Z) : M unit :=
  match fuel with
  | O => undefined
  | S fuel' =>
      n ← get_node current;
      if child n =? 0 then mret tt else
      uacpi_namespace_node_uninstall (child n);;
      wipe fuel' current
  end.

(** [while (depth)] *)
Fixpoint deinit_loop (fuel : nat) (current next_ depth : Z) : M unit :=
  if depth =? 0 then mret tt else
  match fuel with
  | O => undefined
  | S fuel' =>
      next_ ← (if next_ =? 0 then c ← get_node current; mret (child c) else n ← get_node next_; mret (next n));
      if next_ =? 0 then
        fuel ← walk_fuel;
        wipe fuel current;;
        c ← get_node current;
        deinit_loop fuel' (parent c) current (u32 (depth - 1))
      else
        n ← get_node next_;
        if negb (child n =? 0) then deinit_loop fuel' next_ 0 (u32 (depth + 1))
        else deinit_loop fuel' current next_ depth
  end.

Definition uacpi_deinitialize_namespace : M unit :=
  ret ← in_world uacpi_namespace_write_lock;
  fuel ← gets_state (fun s => 2 * size (nodes s))%nat;
  deinit_loop fuel uacpi_namespace_root 0 1;;
  namespace_node_detach_object uacpi_namespace_root;;
  free_namespace_node uacpi_namespace_root;;
  (if is_ok ret then in_world uacpi_namespace_write_unlock;; mret tt else mret tt);;
  root ← in_world root_object;
  uacpi_object_unref root;;
  in_world (set_root_object 0);;
  m ← in_world global_lock_mutex_ptr;
  in_world (uacpi_mutex_unref m);;
  in_world (set_global_lock_mutex 0);;
  in_world uacpi_namespace_lock_deinit;;
  mret tt.
End Operations.

(** ** The tree in the heap *)

(** What a node holds besides its links and its reference count. *)
Record info := { i_name : list Z; i_flags : Z; i_object : Z }.

Definition info_of (n : namespace_node) : info :=
  {| i_name := name n; i_flags := flags n; i_object := object n |}.

(** A list of sibling trees: the first node, its children, the siblings after it. *)
Inductive forest := Leaf | N (a : Z) (i : info) (c k : forest).

Definition ptr (f : forest) : Z := match f with Leaf => 0 | N a _ _ _ => a end.

Fixpoint addrs (f : forest) : list Z :=
  match f with Leaf => [] | N a _ c k => a :: addrs c ++ addrs k end.

Abbreviation heap := (gmap Z namespace_node).

Definition node_at (h : heap) (a : Z) (i : info) (par c k : Z) : Prop := exists n,
  h !! a = Some n /\ info_of n = i /\ parent n = par /\ child n = c /\ next n = k.

Fixpoint rep (h : heap) (par : Z) (f : forest) : Prop :=
  match f with
  | Leaf => True
  | N a i c k => a <> 0 /\ node_at h a i par (ptr c) (ptr k) /\ rep h a c /\ rep h par k
  end.

(** The node at [a] is the same but for its reference count. *)
Definition agree (h h' : heap) (a : Z) : Prop :=
  forall n, h !! a = Some n -> exists rc, h' !! a = Some (set_count rc n).

Lemma agree_eq h h' a : h' !! a = h !! a -> agree h h' a.
Proof. intros E n Hn; exists (shareable_count n); rewrite E, Hn; destruct n; reflexivity. Qed.

Lemma agree_trans h1 h2 h3 a : agree h1 h2 a -> agree h2 h3 a -> agree h1 h3 a.
Proof.
  intros H1 H2 n Hn; destruct (H1 _ Hn) as [rc Hn2]; destruct (H2 _ Hn2) as [rc' Hn3].
  exists rc'; exact Hn3.
Qed.

Lemma node_at_agree h h' a i par c k : agree h h' a -> node_at h a i par c k -> node_at h' a i par c k.
Proof. intros Ha (n & Hn & H); destruct (Ha n Hn) as [rc Hr]; exists (set_count rc n); split; [exact Hr|exact H]. Qed.

Lemma rep_agree h h' par f : rep h par f -> (forall a, In a (addrs f) -> agree h h' a) -> rep h' par f.
Proof.
  revert par; induction f as [|a i c IHc k IHk]; intros par; cbn [rep addrs]; [auto|].
  intros (Ha & Hn & Hc & Hk) H; split; [exact Ha|split; [|split]].
  - eapply node_at_agree; [apply H; left; reflexivity|exact Hn].
  - apply IHc; [exact Hc|]; intros x Hx; apply H; right; apply in_or_app; left; exact Hx.
  - apply IHk; [exact Hk|]; intros x Hx; apply H; right; apply in_or_app; right; exact Hx.
Qed.

Lemma rep_ptr h par f : rep h par f -> (ptr f =? 0) = match f with Leaf => true | _ => false end.
Proof. destruct f; cbn; [reflexivity|]; intros [H _]; apply Z.eqb_neq; exact H. Qed.

Lemma rep_in h par f a : rep h par f -> In a (addrs f) -> a <> 0 /\ is_Some (h !! a).
Proof.
  revert par; induction f as [|b i c IHc k IHk]; intros par; cbn [rep addrs In]; [tauto|].
  intros (Hb & (n & Hn & _) & Hc & Hk) [->|Hin]; [split; [exact Hb|exists n; exact Hn]|].
  apply in_app_or in Hin as [Hin|Hin]; [eapply IHc|eapply IHk]; eassumption.
Qed.

Lemma nodup_size (h : heap) (l : list Z) : List.NoDup l -> (forall x, In x l -> is_Some (h !! x)) ->
  (length l <= size h)%nat.
Proof.
  intros Hnd Hin; rewrite <- (size_dom (D := gset Z) h).
  rewrite <- (size_list_to_set (C := gset Z) l) by (apply NoDup_ListNoDup; exact Hnd).
  apply subseteq_size; intros a Ha; apply elem_of_list_to_set, list_elem_of_In in Ha.
  apply elem_of_dom, Hin, Ha.
Qed.

(** A forest of distinct nodes is no larger than the heap. *)
Lemma forest_size h par f : rep h par f -> List.NoDup (addrs f) -> (length (addrs f) <= size h)%nat.
Proof. intros Hr Hnd; apply nodup_size; [exact Hnd|]; intros x Hx; eapply rep_in; eassumption. Qed.

(** ** Reading through the interface *)

Section Reading.
Context {W : Type} {NL : NamespaceLock W} {OBJ : Objects W}.
Abbreviation M := (SM (ns W)).
Implicit Types s : ns W.

Lemma run_world {A} (c : SM W A) s a w : c (world s) = Some (a, w) ->
  in_world c s = Some (a, with_world w s).
Proof. intros E; unfold in_world; rewrite E; reflexivity. Qed.

Lemma in_world_inv {A} (c : SM W A) s a s' : in_world c s = Some (a, s') ->
  exists w, c (world s) = Some (a, w) /\ s' = with_world w s.
Proof.
  unfold in_world; destruct (c (world s)) as [[b w]|] eqn:E; [|discriminate].
  intros [= <- <-]; exists w; split; reflexivity.
Qed.

(** [in_world] is a morphism of monads. *)
Lemma in_world_bind {A B} (c : SM W A) (k : A -> SM W B) s :
  in_world (mbind k c) s = mbind (fun a => in_world (k a)) (in_world c) s.
Proof.
  unfold in_world, mbind, SM_bind; destruct (c (world s)) as [[a w]|]; [|reflexivity].
  cbn [world with_world]; destruct (k a w) as [[b w']|]; reflexivity.
Qed.

Lemma in_world_ret {A} (a : A) s : in_world (mret a : SM W A) s = Some (a, s).
Proof. destruct s; reflexivity. Qed.

Lemma get_node_at s a n : nodes s !! a = Some n -> get_node a s = Some (n, s).
Proof. intros E; unfold get_node; rewrite E; reflexivity. Qed.

(** The object test on what the node holds. *)
Definition matchesW (mask : Z) (i : info) (m : bool) : SM W bool :=
  if i_object i =? 0 then mret m else
  o ← uacpi_unwrap_internal_reference (i_object i);
  if o =? 0 then mret m else
  t ← object_type o; mret (negb (Z.land (u32 (Z.shiftl 1 t)) mask =? 0)).

Lemma is_one_of_world a n mask m s : a <> 0 -> nodes s !! a = Some n ->
  (r ← uacpi_namespace_node_is_one_of_unlocked a mask;
   mret (default m (snd (r : uacpi_status * option bool)))) s = in_world (matchesW mask (info_of n) m) s.
Proof.
  intros Ha Hn; unfold uacpi_namespace_node_is_one_of_unlocked, uacpi_namespace_node_get_object, matchesW.
  rewrite (proj2 (Z.eqb_neq _ _) Ha); cbn [info_of i_object].
  unfold object_is_one_of, in_world, mbind, SM_bind, mret, SM_ret, get_node; rewrite Hn.
  destruct (object n =? 0); [destruct s; reflexivity|].
  destruct (uacpi_unwrap_internal_reference (object n) (world s)) as [[o w]|]; [|reflexivity].
  destruct (o =? 0); [reflexivity|]; cbn [world with_world].
  destruct (object_type o w) as [[t w']|]; reflexivity.
Qed.

(** A continuation that only looks at the answer. *)
Lemma is_one_of_then {B} a n mask m s (k : bool -> M B) : a <> 0 -> nodes s !! a = Some n ->
  (r ← uacpi_namespace_node_is_one_of_unlocked a mask; k (default m (snd (r : uacpi_status * option bool)))) s =
  (b ← in_world (matchesW mask (info_of n) m); k b) s.
Proof.
  intros Ha Hn; pose proof (is_one_of_world a n mask m s Ha Hn) as E; revert E.
  unfold mbind, SM_bind, mret, SM_ret; intros <-.
  destruct (uacpi_namespace_node_is_one_of_unlocked a mask s) as [[r s1]|]; reflexivity.
Qed.

(** ** Walking: the recursive form *)

Section Walk.
Variables (desc asc : option (Z -> Z -> SM W Z)).
Variables (type_mask max_depth : Z) (should_lock permanent_only : bool).

Definition lift_cb (cb : option (Z -> Z -> SM W Z)) : option (Z -> Z -> M Z) :=
  match cb with Some f => Some (fun n d => in_world (f n d)) | None => None end.

(** What happens at a node that holds [i], on the way down or up. *)
Definition offerW (a : Z) (i : info) (depth : Z) (up m : bool) : SM W turn :=
  if negb m then mret (Next CONTINUE m) else
  if permanent_only && negb (Z.land (i_flags i) FLAG_TEMPORARY =? 0) then mret (Next NEXT_PEER m) else
  match (if up then asc else desc) with
  | Some cb =>
      ret ← (if should_lock then uacpi_namespace_read_unlock else mret UACPI_STATUS_OK);
      if negb (is_ok ret) then mret (Leave false ret) else
      decision ← cb a depth;
      if decision =? BREAK then mret (Leave true ret) else
      ret ← (if should_lock then uacpi_namespace_read_lock else mret UACPI_STATUS_OK);
      if negb (is_ok ret) then mret (Leave false ret) else
      mret (Next decision m)
  | None => mret (Next CONTINUE m)
  end.

Definition visitW (a : Z) (i : info) (depth : Z) (up m : bool) : SM W turn :=
  m ← matchesW type_mask i m; offerW a i depth up m.

(** The walk over a forest by recursion: a node, its children unless told not to or
    too deep, the node again on the way up, the siblings. *)
Fixpoint walk (f : forest) (depth : Z) (m : bool) : SM W turn :=
  match f with
  | Leaf => mret (Next CONTINUE m)
  | N a i c k =>
      t ← visitW a i depth false m;
      match t with
      | Leave o r => mret (Leave o r)
      | Next d m =>
          t ← (if d =? CONTINUE then if negb (depth =? max_depth) then walk c (depth + 1) m else mret (Next CONTINUE m)
               else if d =? NEXT_PEER then mret (Next CONTINUE m)
               else mret (Leave true UACPI_STATUS_INVALID_ARGUMENT));
          match t with
          | Leave o r => mret (Leave o r)
          | Next _ m =>
              t ← visitW a i depth true m;
              match t with Leave o r => mret (Leave o r) | Next _ m => walk k depth m end
          end
      end
  end.

Lemma offer_node_world a n depth up m s : nodes s !! a = Some n ->
  offer_node (lift_cb desc) (lift_cb asc) should_lock permanent_only a depth up m s =
  in_world (offerW a (info_of n) depth up m) s.
Proof.
  intros Hn; unfold offer_node, offerW; destruct m; cbn [negb]; [|symmetry; apply in_world_ret].
  unfold uacpi_namespace_node_is_temporary.
  erewrite SM_bind_Some; [|erewrite SM_bind_Some by (apply get_node_at, Hn); reflexivity].
  cbn [info_of i_flags]; unfold has_flag.
  destruct (permanent_only && _); [symmetry; apply in_world_ret|].
  assert (E : (if up then lift_cb asc else lift_cb desc) = lift_cb (if up then asc else desc))
    by (destruct up; reflexivity).
  rewrite E; destruct (if up then asc else desc) as [cb|]; cbn [lift_cb]; [|symmetry; apply in_world_ret].
  unfold in_world, mbind, SM_bind, mret, SM_ret; destruct s as [h w]; cbn [world with_world nodes].
  destruct should_lock; cbn [world with_world nodes].
  - destruct (uacpi_namespace_read_unlock w) as [[r1 w1]|]; [|reflexivity].
    destruct (negb (is_ok r1)); [reflexivity|]; cbn [world with_world nodes].
    destruct (cb a depth w1) as [[d w2]|]; [|reflexivity]; destruct (d =? BREAK); [reflexivity|].
    cbn [world with_world nodes]; destruct (uacpi_namespace_read_lock w2) as [[r2 w3]|]; [|reflexivity].
    destruct (negb (is_ok r2)); reflexivity.
  - cbn [is_ok negb]; cbv beta iota; cbn [world with_world nodes]; destruct (cb a depth w) as [[d w2]|]; [|reflexivity].
    destruct (d =? BREAK); reflexivity.
Qed.

Lemma visit_node_world a n depth up m s : a <> 0 -> nodes s !! a = Some n ->
  visit_node (lift_cb desc) (lift_cb asc) type_mask should_lock permanent_only a depth up m s =
  in_world (visitW a (info_of n) depth up m) s.
Proof.
  intros Ha Hn; unfold visit_node, visitW.
  rewrite (is_one_of_then a n type_mask m s _ Ha Hn), in_world_bind.
  unfold mbind, SM_bind; destruct (in_world (matchesW _ _ _) s) as [[b s1]|] eqn:E; [|reflexivity].
  apply in_world_inv in E as (w & _ & ->); apply offer_node_world, Hn.
Qed.

(** More fuel does not change a result. *)
Lemma for_each_loop_mono d a fuel fuel' : (fuel <= fuel')%nat -> forall node depth up m s r,
  for_each_loop d a type_mask max_depth should_lock permanent_only fuel node depth up m s = Some r ->
  for_each_loop d a type_mask max_depth should_lock permanent_only fuel' node depth up m s = Some r.
Proof.
  revert fuel'; induction fuel as [|fuel IH]; intros [|fuel'] Hle node depth up m s r; cbn [for_each_loop];
    destruct (depth =? 0); try (intros E; exact E || discriminate); try lia.
  assert (IH' : forall node depth up m s r, _) by (exact (IH fuel' ltac:(lia))); clear IH.
  intros E; apply SM_bind_inv in E as (t & s1 & Et & E); rewrite (SM_bind_Some _ _ _ _ _ Et).
  destruct t as [dec m1|o rt]; [|exact E].
  destruct up.
  { apply SM_bind_inv in E as (n & s2 & En & E); rewrite (SM_bind_Some _ _ _ _ _ En).
    destruct (negb (next n =? 0)); apply IH', E. }
  destruct (dec =? CONTINUE).
  { apply SM_bind_inv in E as (n & s2 & En & E); rewrite (SM_bind_Some _ _ _ _ _ En).
    destruct (negb (n =? 0)); apply IH', E. }
  destruct (dec =? NEXT_PEER); [apply IH', E|exact E].
Qed.

Abbreviation loop := (for_each_loop (lift_cb desc) (lift_cb asc) type_mask max_depth should_lock permanent_only).

(** What the loop does after a forest. *)
Definition after (fuel : nat) (par depth : Z) (t : turn) : M (bool * uacpi_status) :=
  match t with
  | Leave o r => mret (o, r)
  | Next _ m => loop fuel par (u32 (depth - 1)) true m
  end.

Hypothesis max_depth_u32 : in_w 32 max_depth.

(** The turn on the way up, given the walk of the siblings. *)
Lemma loop_up a i c k par depth m s fuel r :
  node_at (nodes s) a i par c (ptr k) -> a <> 0 -> 0 < depth <= max_depth ->
  (k <> Leaf -> forall m s' fuel r, nodes s' = nodes s ->
    (t ← in_world (walk k depth m); after fuel par depth t) s' = Some r ->
    loop (2 * length (addrs k) + fuel) (ptr k) depth false m s' = Some r) ->
  (ptr k =? 0) = match k with Leaf => true | _ => false end ->
  (t ← in_world (visitW a i depth true m);
   match t with
   | Leave o r => mret (o, r)
   | Next _ m => t ← in_world (walk k depth m); after fuel par depth t
   end) s = Some r ->
  loop (S (2 * length (addrs k) + fuel)) a depth true m s = Some r.
Proof.
  intros (n & Hn & <- & Hp & Hc & Hk) Ha Hd IH Hptr E; cbn [for_each_loop].
  rewrite (proj2 (Z.eqb_neq depth 0)) by lia.
  apply SM_bind_inv in E as (t & s1 & Et & E).
  erewrite SM_bind_Some by (rewrite (visit_node_world a n) by assumption; exact Et).
  apply in_world_inv in Et as (w & _ & ->).
  destruct t as [d m1|o rt]; [|exact E].
  erewrite SM_bind_Some by (apply get_node_at; exact Hn); rewrite Hk, Hptr, Hp.
  destruct k as [|b j kc kk]; cbn [negb].
  - cbn [walk] in E; erewrite SM_bind_Some in E by apply in_world_ret; exact E.
  - apply IH; [discriminate|reflexivity|exact E].
Qed.

(** The loop over a forest is the recursive walk, followed by the way up. *)
Lemma loop_walk f : forall par depth m s fuel r,
  rep (nodes s) par f -> f <> Leaf -> 0 < depth <= max_depth ->
  (t ← in_world (walk f depth m); after fuel par depth t) s = Some r ->
  loop (2 * length (addrs f) + fuel) (ptr f) depth false m s = Some r.
Proof.
  induction f as [|a i c IHc k IHk]; intros par depth m s fuel r Hr Hne Hd E; [congruence|clear Hne].
  destruct Hr as (Ha & Hn & Hrc & Hrk); pose proof Hn as (n & Hn' & Hi & Hp & Hcn & Hk).
  assert (Hup : forall m s' r, nodes s' = nodes s ->
    (t ← in_world (visitW a i depth true m);
     match t with
     | Leave o r => mret (o, r)
     | Next _ m => t ← in_world (walk k depth m); after fuel par depth t
     end) s' = Some r ->
    loop (S (2 * length (addrs k) + fuel)) a depth true m s' = Some r).
  { intros m' s' r' Es; apply loop_up with (c := ptr c); rewrite ?Es; try assumption; [|apply (rep_ptr _ _ _ Hrk)].
    intros Hk' m2 s2 fuel2 r2 Es2 E2.
    apply (IHk par); [rewrite Es2; exact Hrk|exact Hk'|exact Hd|exact E2]. }
  cbn [walk] in E; cbn [addrs ptr length]; rewrite length_app.
  replace (2 * S (length (addrs c) + length (addrs k)) + fuel)%nat
    with (S (2 * length (addrs c) + S (2 * length (addrs k) + fuel))) by lia.
  cbn [for_each_loop]; rewrite (proj2 (Z.eqb_neq depth 0)) by lia.
  apply SM_bind_inv in E as (t & s' & Ew & E); apply in_world_inv in Ew as (w' & Ew & ->).
  apply SM_bind_inv in Ew as (t1 & w1 & E1 & Ew).
  erewrite SM_bind_Some
    by (rewrite (visit_node_world a n) by assumption; apply run_world; rewrite Hi; exact E1).
  destruct t1 as [d m1|o rt]; [|injection Ew as <- <-; exact E].
  apply SM_bind_inv in Ew as (t2 & w2 & E2 & Ew).
  (* the way up from the state after the children *)
  assert (Hrest : forall d2 m2 fuel', t2 = Next d2 m2 -> (S (2 * length (addrs k) + fuel) <= fuel')%nat ->
    loop fuel' a depth true m2 (with_world w2 s) = Some r).
  { intros d2 m2 fuel' -> Hf; eapply for_each_loop_mono; [exact Hf|]; apply Hup; [reflexivity|].
    apply SM_bind_inv in Ew as (t3 & w3 & E3 & Ew).
    erewrite SM_bind_Some by (apply run_world; exact E3).
    destruct t3 as [d3 m3|o rt]; [|injection Ew as <- <-; exact E].
    erewrite SM_bind_Some by (apply run_world; exact Ew); exact E. }
  destruct (d =? CONTINUE).
  - destruct (Z.eqb_spec depth max_depth); cbn [negb] in *.
    { injection E2 as <- <-; eapply Hrest; [reflexivity|lia]. }
    erewrite SM_bind_Some by (erewrite SM_bind_Some by (apply get_node_at; exact Hn'); reflexivity).
    rewrite Hcn, (rep_ptr _ _ _ Hrc); destruct c as [|b j cc ck]; cbn [negb].
    { injection E2 as <- <-; eapply Hrest; [reflexivity|lia]. }
    rewrite wrap_id by (unfold in_w in *; lia); apply (IHc a); [exact Hrc|discriminate|lia|].
    erewrite SM_bind_Some by (apply run_world; exact E2).
    destruct t2 as [d2 m2|o rt]; [|injection Ew as <- <-; exact E].
    cbn [after]; rewrite wrap_id by (unfold in_w in *; lia).
    replace (depth + 1 - 1) with depth by lia; eapply Hrest; [reflexivity|lia].
  - destruct (d =? NEXT_PEER); injection E2 as <- <-; [eapply Hrest; [reflexivity|lia]|].
    injection Ew as <- <-; exact E.
Qed.

Lemma in_world_if (b : bool) (c : SM W uacpi_status) s :
  (if b then in_world c else mret UACPI_STATUS_OK) s = in_world (if b then c else mret UACPI_STATUS_OK) s.
Proof. destruct b; [reflexivity|symmetry; apply in_world_ret]. Qed.

Lemma out_world (b : bool) (r : uacpi_status) s ret w :
  ((if b then uacpi_namespace_read_unlock;; mret tt else mret tt);; mret r) (world s) = Some (ret, w) ->
  ((if b then in_world uacpi_namespace_read_unlock;; mret tt else mret tt);; mret r) s =
  Some (ret, with_world w s).
Proof.
  unfold in_world, mbind, SM_bind, mret, SM_ret; destruct s as [h w0], b; cbn [world].
  - destruct (uacpi_namespace_read_unlock w0) as [[u w1]|]; [|discriminate]; intros [= <- <-]; reflexivity.
  - intros [= <- <-]; reflexivity.
Qed.

(** The whole operation by recursion on the forest below the node. *)
Definition for_eachW (c : forest) : SM W uacpi_status :=
  lvl ← gets_state init_level;
  if lvl <? 1 then mret UACPI_STATUS_INIT_LEVEL_MISMATCH else
  if is_null desc && is_null asc then mret UACPI_STATUS_INVALID_ARGUMENT else
  if max_depth =? 0 then mret UACPI_STATUS_INVALID_ARGUMENT else
  ret ← (if should_lock then uacpi_namespace_read_lock else mret UACPI_STATUS_OK);
  if negb (is_ok ret) then mret ret else
  t ← walk c 1 false;
  let '(to_out, ret) := match t with Leave o r => (o, r) | Next _ _ => (true, UACPI_STATUS_OK) end in
  (if to_out && should_lock then uacpi_namespace_read_unlock;; mret tt else mret tt);;
  mret ret.

(** The loop from the first child, with the fuel of the operation. *)
Lemma loop_children p c s t w : rep (nodes s) p c -> List.NoDup (addrs c) -> 0 < max_depth ->
  walk c 1 false (world s) = Some (t, w) ->
  (if ptr c =? 0 then mret (true, UACPI_STATUS_OK) else loop (2 * size (nodes s)) (ptr c) 1 false false) s =
  Some (match t with Leave o r => (o, r) | Next _ _ => (true, UACPI_STATUS_OK) end, with_world w s).
Proof.
  intros Hr Hnd Hm E; rewrite (rep_ptr _ _ _ Hr).
  destruct c as [|a i cc ck]; [injection E as <- <-; destruct s; reflexivity|].
  pose proof (forest_size _ _ _ Hr Hnd) as Hsz.
  apply for_each_loop_mono with (fuel := (2 * length (addrs (N a i cc ck)) + 0)%nat); [lia|].
  apply (loop_walk _ p); [exact Hr|discriminate|lia|].
  erewrite SM_bind_Some by (apply run_world; exact E); destruct t; reflexivity.
Qed.
End Walk.
End Reading.

(** The children of a node of the forest. *)
Fixpoint kids (f : forest) (p : Z) : option forest :=
  match f with
  | Leaf => None
  | N a _ c k => if a =? p then Some c else match kids c p with Some r => Some r | None => kids k p end
  end.

Lemma kids_rep h par f p c : rep h par f -> kids f p = Some c ->
  p <> 0 /\ rep h p c /\ exists n, h !! p = Some n /\ child n = ptr c.
Proof.
  revert par; induction f as [|a i fc IHc k IHk]; intros par; cbn [rep kids]; [discriminate|].
  intros (Ha & (n & Hn & _ & _ & Hc & _) & Hrc & Hrk).
  destruct (Z.eqb_spec a p) as [->|].
  { intros [= <-]; split; [exact Ha|split; [exact Hrc|exists n; split; assumption]]. }
  destruct (kids fc p) eqn:E; [intros [= <-]; apply (IHc a Hrc eq_refl)|intros H; apply (IHk par Hrk H)].
Qed.

Lemma kids_incl f p c : kids f p = Some c -> incl (addrs c) (addrs f).
Proof.
  induction f as [|a i fc IHc k IHk]; cbn [kids addrs]; [discriminate|].
  destruct (a =? p); [intros [= <-]; auto using incl_tl, incl_appl, incl_refl|].
  destruct (kids fc p); intros H; apply incl_tl; [apply incl_appl|apply incl_appr]; auto.
Qed.

Lemma kids_NoDup f p c : kids f p = Some c -> List.NoDup (addrs f) -> List.NoDup (addrs c).
Proof.
  induction f as [|a i fc IHc k IHk]; cbn [kids addrs]; [discriminate|].
  intros H Hnd; apply NoDup_cons_iff in Hnd as [_ Hnd].
  pose proof (NoDup_app_remove_r _ _ Hnd); pose proof (NoDup_app_remove_l _ _ Hnd).
  destruct (a =? p); [injection H as <-; assumption|].
  destruct (kids fc p); [apply IHc|apply IHk]; assumption.
Qed.

(** Every node of the forest satisfies [P]. *)
Fixpoint all_nodes (P : info -> Prop) (f : forest) : Prop :=
  match f with Leaf => True | N _ i c k => P i /\ all_nodes P c /\ all_nodes P k end.

Definition is_dangling (i : info) : bool := negb (Z.land (i_flags i) FLAG_DANGLING =? 0).

(** The namespace holds the tree [f]: the root with its descendants, none of which
    has been uninstalled. *)
Record ns_inv {W} (s : ns W) (f : forest) : Prop := {
  inv_rep : rep (nodes s) 0 f;
  inv_nodup : List.NoDup (addrs f);
  inv_live : all_nodes (fun i => is_dangling i = false) f;
  inv_root : exists i c, f = N uacpi_namespace_root i c Leaf
}.

Lemma for_each_child_walk {W} `{NamespaceLock W, Objects W} desc asc type_mask max_depth
    should_lock permanent_only (s : ns W) f p c ret w :
  ns_inv s f -> kids f p = Some c -> in_w 32 max_depth ->
  for_eachW desc asc type_mask max_depth should_lock permanent_only c (world s) = Some (ret, w) ->
  uacpi_namespace_do_for_each_child (lift_cb desc) (lift_cb asc) type_mask max_depth should_lock
    permanent_only p s = Some (ret, with_world w s).
Proof.
  intros [Hr Hnd _ _] Hk Hmax; destruct (kids_rep _ _ _ _ _ Hr Hk) as (Hp & Hrc & n & Hn & Hc).
  unfold for_eachW, uacpi_namespace_do_for_each_child; intros E.
  apply SM_bind_inv in E as (lvl & w0 & [= <- <-] & E); erewrite SM_bind_Some by reflexivity.
  destruct (init_level (world s) <? 1); [injection E as <- <-; destruct s; reflexivity|].
  assert (Hnull : forall cb : option (Z -> Z -> SM W Z), is_null (lift_cb cb) = is_null cb) by (intros []; reflexivity).
  rewrite !Hnull; destruct (is_null desc && is_null asc); [injection E as <- <-; destruct s; reflexivity|].
  rewrite (proj2 (Z.eqb_neq _ _) Hp); destruct (Z.eqb_spec max_depth 0); cbn [orb];
    [injection E as <- <-; destruct s; reflexivity|].
  apply SM_bind_inv in E as (ret1 & w1 & E1 & E).
  erewrite SM_bind_Some by (rewrite in_world_if; apply run_world, E1).
  destruct (negb (is_ok ret1)); [injection E as <- <-; reflexivity|].
  apply SM_bind_inv in E as (t & w2 & E2 & E).
  erewrite SM_bind_Some by (apply get_node_at; exact Hn); rewrite Hc.
  erewrite SM_bind_Some by reflexivity.
  erewrite SM_bind_Some by (apply (loop_children desc asc type_mask max_depth should_lock permanent_only) with (p := p) (s := with_world w1 s);
    [exact Hmax|exact Hrc|eapply kids_NoDup; eassumption|unfold in_w in *; lia|exact E2]).
  destruct t as [d m|o r]; apply (out_world _ _ (with_world w2 (with_world w1 s))); exact E.
Qed.

(** C23.  Walking the tree with its pointers, in either order, with any callbacks that
    leave the namespace alone, is the recursion over the tree below the start: the
    walk returns, with the status and the effects of the recursion, whatever the
    callbacks answer and whichever lock operations fail. *)
Theorem for_each_child_refines {W} `{NamespaceLock W, Objects W} desc asc type_mask max_depth
    should_lock permanent_only (s : ns W) f p c ret w :
  ns_inv s f -> kids f p = Some c -> in_w 32 max_depth ->
  for_eachW desc asc type_mask max_depth should_lock permanent_only c (world s) = Some (ret, w) ->
  uacpi_namespace_do_for_each_child (lift_cb desc) (lift_cb asc) type_mask max_depth should_lock
    permanent_only p s = Some (ret, with_world w s).
Proof. apply for_each_child_walk. Qed.

(** ** What a plain walk visits *)

Definition is_temp (i : info) : bool := negb (Z.land (i_flags i) FLAG_TEMPORARY =? 0).

(** The nodes with their depths in the order of a walk down; a temporary node is
    skipped with what is below it. *)
Fixpoint visible (f : forest) (d : Z) : list (Z * Z) :=
  match f with
  | Leaf => []
  | N a i c k => (if is_temp i then [] else (a, d) :: visible c (d + 1)) ++ visible k d
  end.

Fixpoint height (f : forest) : Z :=
  match f with Leaf => 0 | N _ _ c k => Z.max (1 + height c) (height k) end.

Lemma height_nonneg f : 0 <= height f.
Proof. induction f; cbn; lia. Qed.

Lemma visible_once f d : sublist (map fst (visible f d)) (addrs f).
Proof.
  revert d; induction f as [|a i c IHc k IHk]; intros d; cbn [visible addrs map]; [constructor|].
  destruct (is_temp i); cbn [app map fst].
  - apply sublist_cons; apply sublist_inserts_l; apply IHk.
  - rewrite map_app; constructor; apply sublist_app; [apply IHc|apply IHk].
Qed.

(** A world whose locks work, whose objects are valid and in which the callback
    records its calls. *)
Record recorder {W} `{NamespaceLock W, Objects W} (log : W -> list (Z * Z)) (valid : Z -> Prop)
    (cb : Z -> Z -> SM W Z) : Prop := {
  rec_cb : forall a d w, exists w', cb a d w = Some (CONTINUE, w') /\ log w' = log w ++ [(a, d)];
  rec_lock : forall w, exists w', uacpi_namespace_read_lock w = Some (UACPI_STATUS_OK, w') /\ log w' = log w;
  rec_unlock : forall w, exists w', uacpi_namespace_read_unlock w = Some (UACPI_STATUS_OK, w') /\ log w' = log w;
  rec_object : forall o w, valid o -> o <> 0 /\ exists o' t w1 w2,
    uacpi_unwrap_internal_reference o w = Some (o', w1) /\ o' <> 0 /\ log w1 = log w /\
    object_type o' w1 = Some (t, w2) /\ 0 <= t < 32 /\ log w2 = log w1
}.

Section Recording.
Context {W : Type} {NL : NamespaceLock W} {OBJ : Objects W}.
Context (log : W -> list (Z * Z)) (valid : Z -> Prop) (cb : Z -> Z -> SM W Z) (R : recorder log valid cb).

Lemma any_bit t : 0 <= t < 32 -> negb (Z.land (u32 (Z.shiftl 1 t)) OBJECT_ANY_BIT =? 0) = true.
Proof.
  intros Ht; change OBJECT_ANY_BIT with (Z.ones 32); rewrite Z.land_ones, Z.shiftl_1_l by lia.
  fold (wrap 32 (u32 (2 ^ t))); rewrite wrap_wrap, wrap_id by (try split; try apply Z.pow_lt_mono_r; lia).
  apply negb_true_iff, Z.eqb_neq; lia.
Qed.

Lemma matches_valid i m w : valid (i_object i) -> exists w',
  matchesW OBJECT_ANY_BIT i m w = Some (true, w') /\ log w' = log w.
Proof.
  intros Hv; destruct (rec_object _ _ _ R (i_object i) w Hv) as (Ho & o & t & w1 & w2 & E1 & Hn & L1 & E2 & Ht & L2).
  exists w2; split; [|congruence]; unfold matchesW; rewrite (proj2 (Z.eqb_neq _ _) Ho).
  erewrite SM_bind_Some by exact E1; rewrite (proj2 (Z.eqb_neq _ _) Hn).
  erewrite SM_bind_Some by exact E2; rewrite any_bit by exact Ht; reflexivity.
Qed.

Abbreviation visit1 := (visitW (Some cb) None OBJECT_ANY_BIT true true).

Lemma visit_down a i d m w : valid (i_object i) -> exists w',
  visit1 a i d false m w = Some (Next (if is_temp i then NEXT_PEER else CONTINUE) true, w') /\
  log w' = log w ++ (if is_temp i then [] else [(a, d)]).
Proof.
  intros Hv; destruct (matches_valid i m w Hv) as (w1 & E1 & L1).
  unfold visitW; erewrite SM_bind_Some by exact E1; unfold offerW; cbn [negb andb].
  fold (is_temp i); destruct (is_temp i); [exists w1; split; [reflexivity|rewrite app_nil_r; exact L1]|].
  destruct (rec_unlock _ _ _ R w1) as (w2 & E2 & L2); erewrite SM_bind_Some by exact E2; cbn [is_ok negb].
  destruct (rec_cb _ _ _ R a d w2) as (w3 & E3 & L3); erewrite SM_bind_Some by exact E3.
  change (CONTINUE =? BREAK) with false; cbv iota.
  destruct (rec_lock _ _ _ R w3) as (w4 & E4 & L4); erewrite SM_bind_Some by exact E4; cbn [is_ok negb].
  exists w4; split; [reflexivity|congruence].
Qed.

Lemma visit_up a i d m w : valid (i_object i) -> exists dd w',
  visit1 a i d true m w = Some (Next dd true, w') /\ log w' = log w.
Proof.
  intros Hv; destruct (matches_valid i m w Hv) as (w1 & E1 & L1).
  unfold visitW; erewrite SM_bind_Some by exact E1; unfold offerW; cbn [negb andb].
  fold (is_temp i); destruct (is_temp i); eexists _, w1; (split; [reflexivity|exact L1]).
Qed.

Lemma walk_visible f : forall d m w, all_nodes (fun i => valid (i_object i)) f ->
  0 < d -> d + height f < MAX_DEPTH_ANY -> exists dd m' w',
  walk (Some cb) None OBJECT_ANY_BIT MAX_DEPTH_ANY true true f d m w = Some (Next dd m', w') /\
  log w' = log w ++ visible f d.
Proof.
  induction f as [|a i c IHc k IHk]; intros d m w; cbn [all_nodes height walk visible].
  { intros _ _ _; eexists _, _, w; split; [reflexivity|rewrite app_nil_r; reflexivity]. }
  intros (Hv & Hc & Hk) Hd Hh.
  destruct (visit_down a i d m w Hv) as (w1 & E1 & L1); erewrite SM_bind_Some by exact E1.
  assert (exists m2 w2, (if (if is_temp i then NEXT_PEER else CONTINUE) =? CONTINUE
      then if negb (d =? MAX_DEPTH_ANY)
           then walk (Some cb) None OBJECT_ANY_BIT MAX_DEPTH_ANY true true c (d + 1) true
           else mret (Next CONTINUE true)
      else if (if is_temp i then NEXT_PEER else CONTINUE) =? NEXT_PEER then mret (Next CONTINUE true)
      else mret (Leave true UACPI_STATUS_INVALID_ARGUMENT)) w1 = Some (m2, w2) /\
    (exists dd b, m2 = Next dd b) /\
    log w2 = log w ++ (if is_temp i then [] else (a, d) :: visible c (d + 1))) as (m2 & w2 & E2 & (dd2 & b2 & ->) & L2).
  { destruct (is_temp i).
    - eexists _, w1; split; [reflexivity|split; [eauto|exact L1]].
    - change (CONTINUE =? CONTINUE) with true; cbv iota.
      rewrite (proj2 (Z.eqb_neq d MAX_DEPTH_ANY)) by (pose proof (height_nonneg c); lia); cbn [negb].
      destruct (IHc (d + 1) true w1 Hc ltac:(lia) ltac:(lia)) as (dd & b & w2 & E2 & L2).
      eexists _, w2; split; [exact E2|split; [eauto|]]; rewrite L2, L1, <- app_assoc; reflexivity. }
  erewrite SM_bind_Some by exact E2.
  destruct (visit_up a i d b2 w2 Hv) as (dd3 & w3 & E3 & L3); erewrite SM_bind_Some by exact E3.
  destruct (IHk d true w3 Hk Hd ltac:(lia)) as (dd4 & b4 & w4 & E4 & L4).
  exists dd4, b4, w4; split; [exact E4|]; rewrite L4, L3, L2, <- app_assoc; reflexivity.
Qed.
End Recording.

(** A plain walk calls its callback exactly once for every permanent node below
    the start, parents before children and siblings in order, with the right depth,
    and returns success with the tree as it was. *)
Theorem for_each_child_simple_visits {W} `{NL : NamespaceLock W, OBJ : Objects W} log valid cb
    (s : ns W) f p c :
  recorder log valid cb -> ns_inv s f -> kids f p = Some c -> 1 <= init_level (world s) ->
  all_nodes (fun i => valid (i_object i)) c -> 1 + height c < MAX_DEPTH_ANY ->
  exists w, uacpi_namespace_for_each_child_simple p (lift_cb (Some cb)) s = Some (UACPI_STATUS_OK, with_world w s) /\
    log w = log (world s) ++ visible c 1 /\ List.NoDup (map fst (visible c 1)).
Proof.
  intros R Hi Hk Hl Hv Hh.
  destruct (rec_lock _ _ _ R (world s)) as (w1 & E1 & L1).
  destruct (walk_visible log valid cb R c 1 false w1 Hv ltac:(lia) Hh) as (dd & m & w2 & E2 & L2).
  destruct (rec_unlock _ _ _ R w2) as (w3 & E3 & L3).
  exists w3; split; [|split; [congruence|]].
  - apply (for_each_child_walk (Some cb) None OBJECT_ANY_BIT MAX_DEPTH_ANY true true s f p c);
      [assumption|assumption|unfold in_w, MAX_DEPTH_ANY; lia|].
    unfold for_eachW; erewrite SM_bind_Some by reflexivity.
    destruct (Z.ltb_spec (init_level (world s)) 1); [lia|]; cbn [is_null andb].
    change (MAX_DEPTH_ANY =? 0) with false; cbv iota.
    erewrite SM_bind_Some by exact E1; cbn [is_ok negb]; erewrite SM_bind_Some by exact E2; cbn [andb].
    erewrite SM_bind_Some; [reflexivity|]; erewrite SM_bind_Some by exact E3; reflexivity.
  - destruct Hi as [_ Hnd _ _]; apply NoDup_ListNoDup; eapply sublist_NoDup; [|apply visible_once].
    apply NoDup_ListNoDup; eapply kids_NoDup; eassumption.
Qed.
