(* ===== verification/NsTree.v ===== *)
(** * acpi/uacpi/namespace.c: changes of the tree

    What installing, uninstalling and shutting down do to the tree that the node
    heap holds ([Namespace.ns_inv]).  The objects that are released on the way are
    behind the interface [Objects], of which [ObjectLaws] says that it leaves
    installed nodes alone. *)

From S2P Require Import Prelude UCore Shareable Namespace.
From Stdlib Require Import Permutation.

(** ** Operations on forests *)

(** Append to a list of siblings. *)
Fixpoint fapp (f g : forest) : forest :=
  match f with Leaf => g | N a i c k => N a i c (fapp k g) end.

(** Replace the children of [p]. *)
Fixpoint set_kids (p : Z) (c' f : forest) : forest :=
  match f with
  | Leaf => Leaf
  | N a i c k => if a =? p then N a i c' k else N a i (set_kids p c' c) (set_kids p c' k)
  end.

(** The sibling at [a], and the siblings without it. *)
Fixpoint sibling (f : forest) (a : Z) : option (info * forest) :=
  match f with
  | Leaf => None
  | N b i c k => if b =? a then Some (i, c) else sibling k a
  end.

Fixpoint drop_sibling (a : Z) (f : forest) : forest :=
  match f with
  | Leaf => Leaf
  | N b i c k => if b =? a then k else N b i c (drop_sibling a k)
  end.

(** Addresses of the last sibling and of the one before [a]. *)
Fixpoint last_of (f : forest) : Z :=
  match f with Leaf => 0 | N a _ _ Leaf => a | N _ _ _ k => last_of k end.

Fixpoint pred_of (f : forest) (a : Z) : Z :=
  match f with Leaf => 0 | N b _ _ k => if ptr k =? a then b else pred_of k a end.

Lemma kids_In f p c : kids f p = Some c -> In p (addrs f).
Proof.
  induction f as [|a i fc IHc k IHk]; cbn [kids addrs In]; [discriminate|].
  destruct (Z.eqb_spec a p) as [->|]; [left; reflexivity|].
  destruct (kids fc p); intros H; right; apply in_or_app; auto.
Qed.

Lemma kids_not_self f p c : List.NoDup (addrs f) -> kids f p = Some c -> ~ In p (addrs c).
Proof.
  induction f as [|a i fc IHc k IHk]; cbn [kids addrs]; [discriminate|].
  intros Hnd; apply NoDup_cons_iff in Hnd as [Ha Hnd].
  pose proof (NoDup_app_remove_r _ _ Hnd); pose proof (NoDup_app_remove_l _ _ Hnd).
  destruct (Z.eqb_spec a p) as [->|].
  { intros [= <-] H1; apply Ha, in_or_app; left; exact H1. }
  destruct (kids fc p); auto.
Qed.

Lemma kids_notin f p : ~ In p (addrs f) -> kids f p = None.
Proof. intros H; destruct (kids f p) eqn:E; [destruct H; eapply kids_In, E|reflexivity]. Qed.

Lemma set_kids_notin p c' f : ~ In p (addrs f) -> set_kids p c' f = f.
Proof.
  induction f as [|a i c IHc k IHk]; cbn [set_kids addrs In]; [reflexivity|]; intros H.
  destruct (Z.eqb_spec a p) as [->|]; [tauto|].
  rewrite IHc, IHk by (intros Hin; apply H; right; apply in_or_app; auto); reflexivity.
Qed.

Lemma ptr_set_kids p c' f : ptr (set_kids p c' f) = ptr f.
Proof. destruct f as [|a i c k]; cbn [set_kids]; [reflexivity|]; destruct (a =? p); reflexivity. Qed.

(** In a forest without repetition, a node occurs in one part only. *)
Lemma addrs_N_NoDup a i c k : List.NoDup (addrs (N a i c k)) ->
  ~ In a (addrs c) /\ ~ In a (addrs k) /\ List.NoDup (addrs c) /\ List.NoDup (addrs k) /\
  (forall x, In x (addrs c) -> ~ In x (addrs k)).
Proof.
  cbn [addrs]; intros H; apply NoDup_cons_iff in H as [Ha H].
  split; [intros Hin; apply Ha, in_or_app; auto|split; [intros Hin; apply Ha, in_or_app; auto|]].
  split; [eapply NoDup_app_remove_r; eassumption|split; [eapply NoDup_app_remove_l; eassumption|]].
  intros x Hx Hk; apply NoDup_ListNoDup, NoDup_app in H as (_ & Hd & _).
  apply (Hd x); apply list_elem_of_In; assumption.
Qed.

Lemma set_kids_perm p c' c f : List.NoDup (addrs f) -> kids f p = Some c ->
  Permutation (addrs (set_kids p c' f) ++ addrs c) (addrs f ++ addrs c').
Proof.
  induction f as [|a i fc IHc k IHk]; cbn [kids set_kids]; [discriminate|].
  intros Hnd; destruct (addrs_N_NoDup _ _ _ _ Hnd) as (_ & _ & Hnc & Hnk & Hdis).
  destruct (Z.eqb_spec a p) as [->|].
  { intros [= ->]; cbn [addrs]; solve_Permutation. }
  destruct (kids fc p) as [r|] eqn:E; intros H; cbn [addrs app]; constructor.
  - injection H as ->; rewrite (set_kids_notin p c' k) by (apply Hdis; eapply kids_In, E).
    rewrite <- !app_assoc, (Permutation_app_comm (addrs k) (addrs c)), app_assoc, (IHc Hnc eq_refl).
    solve_Permutation.
  - rewrite (set_kids_notin p c' fc) by (intros Hin; apply (Hdis _ Hin); eapply kids_In, H).
    rewrite <- !app_assoc, (IHk Hnk H); reflexivity.
Qed.

Lemma addrs_fapp f g : Permutation (addrs (fapp f g)) (addrs f ++ addrs g).
Proof.
  induction f as [|a i c _ k IH]; cbn [fapp addrs app]; [reflexivity|].
  constructor; rewrite IH, app_assoc; reflexivity.
Qed.

Lemma addrs_drop f a i : sibling f a = Some (i, Leaf) ->
  Permutation (addrs f) (a :: addrs (drop_sibling a f)).
Proof.
  induction f as [|b j c _ k IH]; cbn [sibling drop_sibling addrs]; [discriminate|].
  destruct (Z.eqb_spec b a) as [->|]; [intros [= -> ->]; reflexivity|].
  intros H; cbn [addrs]; rewrite (IH H); solve_Permutation.
Qed.

Lemma all_set_kids P p c' f : all_nodes P f -> all_nodes P c' -> all_nodes P (set_kids p c' f).
Proof.
  intros Hf Hc; induction f as [|a i c IHc k IHk]; cbn [set_kids]; [exact I|].
  destruct Hf as (Hi & H1 & H2); destruct (a =? p); cbn; auto.
Qed.

Lemma all_kids P p c f : all_nodes P f -> kids f p = Some c -> all_nodes P c.
Proof.
  induction f as [|a i fc IHc k IHk]; cbn [kids all_nodes]; [discriminate|].
  intros (Hi & H1 & H2); destruct (a =? p); [intros [= <-]; exact H1|].
  destruct (kids fc p); auto.
Qed.

Lemma all_fapp P f g : all_nodes P f -> all_nodes P g -> all_nodes P (fapp f g).
Proof. induction f as [|a i c _ k IH]; cbn [fapp all_nodes]; [auto|]; intros (? & ? & ?) Hg; auto. Qed.

Lemma all_drop P a f : all_nodes P f -> all_nodes P (drop_sibling a f).
Proof.
  induction f as [|b i c _ k IH]; cbn [drop_sibling all_nodes]; [auto|].
  intros (? & ? & ?); destruct (b =? a); cbn; auto.
Qed.

Lemma all_sibling P f a i c : all_nodes P f -> sibling f a = Some (i, c) -> P i /\ all_nodes P c.
Proof.
  induction f as [|b j fc _ k IH]; cbn [sibling all_nodes]; [discriminate|].
  intros (? & ? & ?); destruct (b =? a); [intros [= <- <-]; auto|auto].
Qed.

(** ** The heap of a changed forest *)

Lemma rep_insert_other h par f b n : rep h par f -> ~ In b (addrs f) -> rep (<[b := n]> h) par f.
Proof.
  intros Hr Hb; eapply rep_agree; [exact Hr|]; intros x Hx; apply agree_eq.
  rewrite lookup_insert_ne; [reflexivity|]; intros ->; tauto.
Qed.

(** New children for [p]: the heap has them, [p] points to the first of them, and
    the nodes elsewhere are as before. *)
Lemma rep_set_kids h h' par f p c c' : rep h par f -> List.NoDup (addrs f) -> kids f p = Some c ->
  (forall x, In x (addrs f) -> x <> p -> ~ In x (addrs c) -> agree h h' x) ->
  (forall n, h !! p = Some n -> exists rc, h' !! p = Some (set_count rc (set_child (ptr c') n))) ->
  rep h' p c' -> rep h' par (set_kids p c' f).
Proof.
  intros Hr Hnd Hk Hagree Hp Hc'; revert par Hr.
  induction f as [|a i fc IHc k IHk]; intros par; cbn [rep kids] in *; [discriminate|].
  intros (Ha & Hn & Hrc & Hrk); destruct (addrs_N_NoDup _ _ _ _ Hnd) as (Hac & Hak & Hnc & Hnk & Hdis).
  assert (HC : forall x, In x (addrs fc) -> x <> p -> ~ In x (addrs c) -> agree h h' x)
    by (intros x Hx; apply Hagree; right; apply in_or_app; auto).
  assert (HK : forall x, In x (addrs k) -> x <> p -> ~ In x (addrs c) -> agree h h' x)
    by (intros x Hx; apply Hagree; right; apply in_or_app; auto).
  cbn [set_kids]; destruct (Z.eqb_spec a p) as [->|Hne].
  - injection Hk as ->; cbn [rep]; split; [exact Ha|split; [|split; [exact Hc'|]]].
    + destruct Hn as (n & Hn & Hi & Hpar & _ & Hnext); destruct (Hp n Hn) as [rc Hn'].
      exists (set_count rc (set_child (ptr c') n)); split; [exact Hn'|]; repeat split; assumption.
    + eapply rep_agree; [exact Hrk|]; intros x Hx; apply HK; [exact Hx|intros ->; tauto|].
      intros Hxc; exact (Hdis _ Hxc Hx).
  - assert (Haag : agree h h' a).
    { apply Hagree; [left; reflexivity|exact Hne|].
      destruct (kids fc p) eqn:E; [injection Hk as ->|]; intros Hin;
        [apply Hac, (kids_incl _ _ _ E), Hin|apply Hak, (kids_incl _ _ _ Hk), Hin]. }
    cbn [rep]; rewrite !ptr_set_kids; split; [exact Ha|split; [eapply node_at_agree; eassumption|]].
    destruct (kids fc p) as [r|] eqn:E.
    + injection Hk as ->; pose proof (kids_In _ _ _ E) as Hin; pose proof (kids_incl _ _ _ E) as Hincl.
      split; [apply IHc; auto|]; rewrite set_kids_notin by (apply Hdis; exact Hin).
      eapply rep_agree; [exact Hrk|]; intros x Hx; apply HK; [exact Hx|intros ->; apply (Hdis _ Hin Hx)|].
      intros Hxc; exact (Hdis _ (Hincl _ Hxc) Hx).
    + pose proof (kids_In _ _ _ Hk) as Hin; pose proof (kids_incl _ _ _ Hk) as Hincl.
      split; [|apply IHk; auto]; rewrite set_kids_notin by (intros Hp'; exact (Hdis _ Hp' Hin)).
      eapply rep_agree; [exact Hrc|]; intros x Hx; apply HC; [exact Hx|intros ->; apply (Hdis _ Hx Hin)|].
      intros Hxc; exact (Hdis _ Hx (Hincl _ Hxc)).
Qed.

Lemma last_of_In f : f <> Leaf -> In (last_of f) (addrs f).
Proof.
  induction f as [|a i c _ k IH]; [congruence|]; intros _; cbn [last_of addrs].
  destruct k as [|b j kc kk]; [left; reflexivity|right; apply in_or_app; right; apply IH; discriminate].
Qed.

(** Linking [g] behind the last sibling of [f]. *)
Lemma rep_fapp h par f g : rep h par f -> List.NoDup (addrs f) -> f <> Leaf -> exists n,
  h !! last_of f = Some n /\ forall h',
  (forall x, In x (addrs f) -> x <> last_of f -> h' !! x = h !! x) ->
  h' !! last_of f = Some (set_next (ptr g) n) -> rep h' par g -> rep h' par (fapp f g).
Proof.
  intros Hr Hnd Hne; induction f as [|a i c _ k IH]; [congruence|clear Hne].
  destruct (addrs_N_NoDup _ _ _ _ Hnd) as (Hac & Hak & Hnc & Hnk & Hdis).
  destruct Hr as (Ha & Hn & Hrc & Hrk); destruct k as [|b j kc kk].
  - destruct Hn as (n & Hn & Hi & Hp & Hc & Hx); exists n; split; [exact Hn|].
    cbn [last_of fapp rep addrs]; intros h' Ho Hl Hg; split; [exact Ha|split; [|split; [|exact Hg]]].
    + exists (set_next (ptr g) n); split; [exact Hl|]; repeat split; assumption.
    + eapply rep_agree; [exact Hrc|]; intros x Hx'; apply agree_eq, Ho.
      * right; apply in_or_app; left; exact Hx'.
      * intros ->; tauto.
  - destruct (IH Hrk Hnk ltac:(discriminate)) as (n & Hl & Hg).
    change (last_of (N a i c (N b j kc kk))) with (last_of (N b j kc kk)); exists n; split; [exact Hl|].
    pose proof (last_of_In (N b j kc kk) ltac:(discriminate)) as Hin.
    intros h' Ho Hl' H; change (fapp (N a i c (N b j kc kk)) g) with (N a i c (fapp (N b j kc kk) g)).
    split; [exact Ha|split; [|split]].
    + change (ptr (fapp (N b j kc kk) g)) with (ptr (N b j kc kk)).
      eapply node_at_agree; [apply agree_eq, Ho; [left; reflexivity|]|exact Hn]; intros ->; tauto.
    + eapply rep_agree; [exact Hrc|]; intros x Hx'; apply agree_eq, Ho.
      * right; apply in_or_app; left; exact Hx'.
      * intros ->; exact (Hdis _ Hx' Hin).
    + apply Hg; [|exact Hl'|exact H]; intros x Hx'; apply Ho; right; apply in_or_app; right; exact Hx'.
Qed.

(** ** Installing *)

Section Install.
Context {W : Type} {NL : NamespaceLock W} {OBJ : Objects W}.
Implicit Types s : ns W.

Lemma update_node_at s a n g : nodes s !! a = Some n ->
  update_node a g s = Some (tt, with_nodes (<[a := g n]> (nodes s)) s).
Proof. intros H; unfold update_node; erewrite SM_bind_Some by (apply get_node_at, H); reflexivity. Qed.

Lemma last_sibling_spec f par : forall s fuel, rep (nodes s) par f -> f <> Leaf ->
  (length (addrs f) < fuel)%nat -> last_sibling fuel (ptr f) s = Some (last_of f, s).
Proof.
  induction f as [|a i c _ k IH]; intros s fuel Hr Hne Hf; [congruence|clear Hne].
  destruct Hr as (Ha & (n & Hn & _ & _ & _ & Hx) & _ & Hrk); cbn [addrs length] in Hf; rewrite length_app in Hf.
  destruct fuel as [|fuel]; [lia|]; cbn [last_sibling ptr last_of].
  erewrite SM_bind_Some by (apply get_node_at, Hn); rewrite Hx, (rep_ptr _ _ _ Hrk).
  destruct k as [|b j kc kk]; [reflexivity|]; apply IH; [exact Hrk|discriminate|lia].
Qed.

Lemma set_child_id n : set_child (child n) n = n.
Proof. destruct n; reflexivity. Qed.

Lemma agree_child (h : heap) p n x : h !! p = Some n -> x = child n ->
  exists rc, h !! p = Some (set_count rc (set_child x n)).
Proof. intros Hn ->; exists (shareable_count n); rewrite set_child_id, Hn; destruct n; reflexivity. Qed.

(** Hanging [a] behind the children [c] of [p]: the heap changes in [p] and [c] only,
    and so that [p]'s children are [c] and [a] as soon as the node at [a] is ready. *)
Lemma append_child_spec s p c a : rep (nodes s) p c -> List.NoDup (addrs c) -> ~ In p (addrs c) ->
  ~ In a (addrs c) -> (exists n, nodes s !! p = Some n /\ child n = ptr c) ->
  exists h', append_child p a s = Some (tt, with_nodes h' s) /\
    (forall x, x <> p -> ~ In x (addrs c) -> h' !! x = nodes s !! x) /\
    (forall n i, nodes s !! p = Some n ->
      exists rc, h' !! p = Some (set_count rc (set_child (ptr (fapp c (N a i Leaf Leaf))) n))) /\
    (forall i h2, (forall x, x <> a -> h2 !! x = h' !! x) -> rep h2 p (N a i Leaf Leaf) ->
      rep h2 p (fapp c (N a i Leaf Leaf))).
Proof.
  intros Hr Hnd Hpc Hac (n & Hn & Hc); unfold append_child; erewrite SM_bind_Some by (apply get_node_at, Hn).
  rewrite Hc, (rep_ptr _ _ _ Hr); destruct c as [|b j cc ck].
  - erewrite update_node_at by exact Hn; eexists; split; [reflexivity|]; split; [|split].
    + intros x Hx _; rewrite lookup_insert_ne by congruence; reflexivity.
    + intros n0 i0 Hn0; rewrite lookup_insert_eq; assert (n0 = n) as -> by congruence.
      exists (shareable_count n); destruct n; reflexivity.
    + intros i h2 _ H; exact H.
  - pose proof (last_of_In (N b j cc ck) ltac:(discriminate)) as Hin.
    destruct (rep_fapp _ _ _ Leaf Hr Hnd ltac:(discriminate)) as (nl & Hl & _).
    erewrite SM_bind_Some by reflexivity.
    erewrite SM_bind_Some by (apply last_sibling_spec with (par := p) (f := N b j cc ck);
      [exact Hr|discriminate|pose proof (forest_size _ _ _ Hr Hnd); lia]).
    erewrite update_node_at by exact Hl; eexists; split; [reflexivity|]; split; [|split].
    + intros x _ Hxc; rewrite lookup_insert_ne; [reflexivity|]; intros <-; tauto.
    + intros n0 i0 Hn0; assert (n0 = n) as -> by congruence.
      apply agree_child; [rewrite lookup_insert_ne; [exact Hn|]; intros <-; tauto|symmetry; exact Hc].
    + intros i h2 H2 H; destruct (rep_fapp _ _ _ (N a i Leaf Leaf) Hr Hnd ltac:(discriminate)) as (nl' & Hl' & Hg).
      assert (nl' = nl) as -> by congruence; apply Hg; [| |exact H].
      * intros x Hx Hxl; rewrite H2 by (intros ->; tauto); rewrite lookup_insert_ne by congruence; reflexivity.
      * rewrite H2 by (intros E; apply Hac; rewrite <- E; exact Hin); rewrite lookup_insert_eq; reflexivity.
Qed.

(** The invariant with one more child. *)
Lemma installed_inv s f p c a n h1 : ns_inv s f -> kids f p = Some c -> nodes s !! a = Some n ->
  a <> 0 -> ~ In a (addrs f) -> child n = 0 -> next n = 0 -> is_dangling (info_of n) = false ->
  (forall x, x <> p -> ~ In x (addrs c) -> h1 !! x = nodes s !! x) ->
  (forall n i, nodes s !! p = Some n ->
    exists rc, h1 !! p = Some (set_count rc (set_child (ptr (fapp c (N a i Leaf Leaf))) n))) ->
  (forall i h2, (forall x, x <> a -> h2 !! x = h1 !! x) -> rep h2 p (N a i Leaf Leaf) ->
    rep h2 p (fapp c (N a i Leaf Leaf))) ->
  ns_inv {| nodes := <[a := set_parent p n]> h1; world := world s |}
    (set_kids p (fapp c (N a (info_of n) Leaf Leaf)) f).
Proof.
  intros [Hr Hnd Hlive (ri & rc & ->)] Hk Hn Ha Hnew Hc Hx Hd Hother Hpn Hrep.
  pose proof (kids_In _ _ _ Hk) as Hpin; pose proof (kids_incl _ _ _ Hk) as Hincl.
  assert (Hap : a <> p) by (intros ->; tauto); split; cbn [nodes].
  - eapply rep_set_kids; [exact Hr|exact Hnd|exact Hk| | |].
    + intros x Hxf Hxp Hxc; apply agree_eq; rewrite lookup_insert_ne by (intros <-; tauto).
      apply Hother; assumption.
    + intros n0 Hn0; rewrite lookup_insert_ne by congruence; apply Hpn; exact Hn0.
    + apply Hrep; [intros x Hxa; rewrite lookup_insert_ne by congruence; reflexivity|].
      split; [exact Ha|split; [|split; exact I]]; exists (set_parent p n); rewrite lookup_insert_eq.
      repeat split; assumption.
  - assert (P : Permutation (addrs (set_kids p (fapp c (N a (info_of n) Leaf Leaf)) (N uacpi_namespace_root ri rc Leaf)))
      (a :: addrs (N uacpi_namespace_root ri rc Leaf))).
    { apply (Permutation_app_inv_r (addrs c)).
      rewrite (set_kids_perm p _ c _ Hnd Hk), addrs_fapp; cbn [addrs]; solve_Permutation. }
    eapply Permutation_NoDup; [symmetry; exact P|]; constructor; assumption.
  - apply all_set_kids; [exact Hlive|]; apply all_fapp; [eapply all_kids; eassumption|].
    cbn [all_nodes]; auto.
  - cbn [set_kids]; destruct (_ =? p); eexists _, _; reflexivity.
Qed.

(** What [uacpi_namespace_node_install] does to the tree: [a] becomes the last child. *)
Lemma node_install_spec s f p c a n : ns_inv s f -> kids f p = Some c ->
  nodes s !! a = Some n -> a <> 0 -> ~ In a (addrs f) -> child n = 0 -> next n = 0 ->
  is_dangling (info_of n) = false ->
  exists s', uacpi_namespace_node_install p a s = Some (UACPI_STATUS_OK, s') /\ world s' = world s /\
    ns_inv s' (set_kids p (fapp c (N a (info_of n) Leaf Leaf)) f) /\
    (forall x, x <> a -> ~ In x (addrs f) -> nodes s' !! x = nodes s !! x).
Proof.
  intros Hinv Hk Hn Ha Hnew Hc Hx Hd; pose proof Hinv as [Hr Hnd _ _].
  destruct (kids_rep _ _ _ _ _ Hr Hk) as (Hp & Hrc & np & Hnp & Hcp).
  pose proof (kids_In _ _ _ Hk) as Hpin; pose proof (kids_incl _ _ _ Hk) as Hincl.
  assert (Hap : a <> p) by (intros ->; tauto); assert (Hac : ~ In a (addrs c)) by auto.
  destruct (append_child_spec s p c a Hrc (kids_NoDup _ _ _ Hk Hnd) (kids_not_self _ _ _ Hnd Hk) Hac
    (ex_intro _ np (conj Hnp Hcp))) as (h1 & E1 & Hother & Hpn & Hrep).
  unfold uacpi_namespace_node_install; rewrite (proj2 (Z.eqb_neq _ _) Hp).
  unfold uacpi_namespace_node_is_dangling.
  erewrite SM_bind_Some by (erewrite SM_bind_Some by (apply get_node_at, Hn); reflexivity).
  change (has_flag FLAG_DANGLING n) with (is_dangling (info_of n)); rewrite Hd; cbv iota.
  erewrite SM_bind_Some by exact E1.
  erewrite SM_bind_Some by (apply update_node_at; cbn [nodes with_nodes]; rewrite Hother by assumption; exact Hn).
  eexists; split; [reflexivity|split; [reflexivity|split]]; cbn [nodes with_nodes].
  - apply (installed_inv s f p c a n h1); assumption.
  - intros x Hxa Hxf; rewrite lookup_insert_ne by congruence; apply Hother; [intros ->; tauto|auto].
Qed.
End Install.

(** ** Uninstalling *)

(** The nodes that are not dangling stay, but for their reference counts: each is
    kept alive by the namespace's own reference. *)
Definition quiet {W} (s s' : ns W) : Prop := forall a n,
  nodes s !! a = Some n -> is_dangling (info_of n) = false -> agree (nodes s) (nodes s') a.

Class ObjectLaws (W : Type) `{Objects W} := {
  unref_quiet : forall o (s : ns W), exists s', uacpi_object_unref o s = Some (tt, s') /\ quiet s s';
  handler_quiet : forall a (s : ns W), exists s', uacpi_opregion_uninstall_handler a s = Some (tt, s') /\ quiet s s';
  unwrap_total : forall o (w : W), exists o' w', uacpi_unwrap_internal_reference o w = Some (o', w');
  type_total : forall o (w : W), exists t w', object_type o w = Some (t, w')
}.

Lemma sibling_In f a r : sibling f a = Some r -> In a (addrs f).
Proof.
  induction f as [|b i c _ k IH]; cbn [sibling addrs In]; [discriminate|].
  destruct (Z.eqb_spec b a); [auto|]; intros H; right; apply in_or_app; auto.
Qed.

Lemma sibling_rep h par f a i c : rep h par f -> sibling f a = Some (i, c) ->
  a <> 0 /\ rep h a c /\ exists n, h !! a = Some n /\ info_of n = i /\ parent n = par /\ child n = ptr c.
Proof.
  induction f as [|b j fc _ k IH]; cbn [sibling rep]; [discriminate|].
  intros (Hb & (n & Hn & Hi & Hp & Hc & Hx) & Hrc & Hrk); destruct (Z.eqb_spec b a) as [->|]; [|auto].
  intros [= -> ->]; split; [exact Hb|split; [exact Hrc|exists n; auto]].
Qed.

Lemma pred_of_In f a r : sibling f a = Some r -> ptr f <> a -> List.NoDup (addrs f) ->
  In (pred_of f a) (addrs f) /\ pred_of f a <> a.
Proof.
  induction f as [|b i c _ k IH]; cbn [sibling addrs ptr pred_of]; [discriminate|]; intros Hs Hb Hnd.
  destruct (Z.eqb_spec b a) as [|_]; [contradiction|].
  destruct (addrs_N_NoDup b i c k Hnd) as (_ & Hbk & _ & Hnk & _).
  destruct (Z.eqb_spec (ptr k) a) as [|Hk]; [split; [left; reflexivity|exact Hb]|].
  destruct (IH Hs Hk Hnk) as [H1 H2]; split; [right; apply in_or_app; right; exact H1|exact H2].
Qed.

(** Taking the childless sibling [a], not the first, out of the list. *)
Lemma rep_drop h par f a i : rep h par f -> List.NoDup (addrs f) -> sibling f a = Some (i, Leaf) -> ptr f <> a ->
  exists nb na, h !! pred_of f a = Some nb /\ h !! a = Some na /\ forall h',
  (forall x, In x (addrs f) -> x <> a -> x <> pred_of f a -> agree h h' x) ->
  (exists rc, h' !! pred_of f a = Some (set_count rc (set_next (next na) nb))) ->
  rep h' par (drop_sibling a f) /\ ptr (drop_sibling a f) = ptr f.
Proof.
  intros Hr Hnd Hs Hne; induction f as [|b j c _ k IH]; [discriminate|]; cbn [sibling ptr] in Hs, Hne.
  destruct (Z.eqb_spec b a) as [|_]; [contradiction|].
  destruct (addrs_N_NoDup b j c k Hnd) as (Hbc & Hbk & Hnc & Hnk & Hdis).
  destruct Hr as (Hb & Hn & Hrc & Hrk); cbn [pred_of drop_sibling].
  rewrite (proj2 (Z.eqb_neq _ _) Hne); pose proof (sibling_In _ _ _ Hs) as Hak.
  destruct (Z.eqb_spec (ptr k) a) as [Hka|Hka].
  - destruct k as [|a' ia cc kk]; [discriminate|]; cbn [ptr] in Hka; subst a'.
    cbn [sibling] in Hs; rewrite Z.eqb_refl in Hs; injection Hs as -> ->.
    destruct Hn as (nb & Hnb & Hi & Hp & Hc & Hx); destruct Hrk as (_ & (na & Hna & _ & _ & _ & Hxa) & _ & Hrkk).
    exists nb, na; split; [exact Hnb|split; [exact Hna|]]; intros h' Ho (rc & Hpred).
    cbn [drop_sibling]; rewrite Z.eqb_refl; split; [|reflexivity].
    cbn [rep addrs] in *; split; [exact Hb|split; [|split]].
    + exists (set_count rc (set_next (next na) nb)); split; [exact Hpred|]; repeat split; try assumption.
    + eapply rep_agree; [exact Hrc|]; intros x Hx'; apply Ho.
      * right; apply in_or_app; left; exact Hx'.
      * intros ->; exact (Hdis _ Hx' Hak).
      * intros ->; tauto.
    + apply NoDup_cons_iff in Hnk as [Hakk _].
      eapply rep_agree; [exact Hrkk|]; intros x Hx'; apply Ho.
      * right; apply in_or_app; right; right; exact Hx'.
      * intros ->; apply Hakk; exact Hx'.
      * intros ->; apply Hbk; right; exact Hx'.
  - destruct (IH Hrk Hnk Hs Hka) as (nb & na & Hnb & Hna & H).
    destruct (pred_of_In _ _ _ Hs Hka Hnk) as [Hpin Hpa].
    exists nb, na; split; [exact Hnb|split; [exact Hna|]]; intros h' Ho Hpred.
    destruct (H h') as [Hrep Hptr]; [|exact Hpred|].
    { intros x Hx; apply Ho; right; apply in_or_app; right; exact Hx. }
    split; [|reflexivity]; cbn [rep addrs] in *; rewrite Hptr; split; [exact Hb|split; [|split; [|exact Hrep]]].
    + eapply node_at_agree; [apply Ho; [left; reflexivity|exact Hne|]|exact Hn]; intros ->; tauto.
    + eapply rep_agree; [exact Hrc|]; intros x Hx'; apply Ho.
      * right; apply in_or_app; left; exact Hx'.
      * intros ->; exact (Hdis _ Hx' Hak).
      * intros ->; exact (Hdis _ Hx' Hpin).
Qed.

Section Uninstall.
Context {W : Type} {NL : NamespaceLock W} {OBJ : Objects W} {OL : ObjectLaws W}.
Implicit Types s : ns W.

(** Nodes other than [a] stay as [quiet] says. *)
Definition quiet_but (a : Z) (h h' : heap) : Prop := forall x n, x <> a ->
  h !! x = Some n -> is_dangling (info_of n) = false -> agree h h' x.

Lemma detach_object_spec s a n : a <> 0 -> nodes s !! a = Some n -> is_dangling (info_of n) = false ->
  exists s' rc o, namespace_node_detach_object a s = Some (tt, s') /\
    quiet_but a (nodes s) (nodes s') /\ nodes s' !! a = Some (set_count rc (set_object o n)).
Proof.
  intros Ha Hn Hd; unfold namespace_node_detach_object, uacpi_namespace_node_get_object.
  rewrite (proj2 (Z.eqb_neq _ _) Ha).
  assert (Hsame : exists s' rc o, Some (tt, s) = Some (tt, s') /\
    quiet_but a (nodes s) (nodes s') /\ nodes s' !! a = Some (set_count rc (set_object o n))).
  { exists s, (shareable_count n), (object n); split; [reflexivity|split; [|rewrite Hn; destruct n; reflexivity]].
    intros x nx _ _ _; apply agree_eq; reflexivity. }
  destruct (object n =? 0) eqn:Eo.
  { erewrite SM_bind_Some by (erewrite SM_bind_Some by (apply get_node_at, Hn); rewrite Eo; reflexivity).
    exact Hsame. }
  destruct (unwrap_total (object n) (world s)) as (o & w1 & E1).
  erewrite SM_bind_Some
    by (erewrite SM_bind_Some by (apply get_node_at, Hn); rewrite Eo; apply run_world, E1).
  destruct (o =? 0).
  { destruct Hsame as (s' & rc & o' & [= <-] & Hq & Hn'); exists (with_world w1 s), rc, o'; auto. }
  destruct (type_total o w1) as (t & w2 & E2); erewrite SM_bind_Some by (apply run_world, E2).
  assert (exists s3, (if t =? OBJECT_OPERATION_REGION then uacpi_opregion_uninstall_handler a else mret tt)
    (with_world w2 (with_world w1 s)) = Some (tt, s3) /\ quiet s s3) as (s3 & E3 & Q3).
  { destruct (t =? _); [apply (handler_quiet a (with_world w2 (with_world w1 s)))|].
    eexists; split; [reflexivity|]; intros x nx _ _; apply agree_eq; reflexivity. }
  erewrite SM_bind_Some by exact E3; destruct (Q3 a n Hn Hd n Hn) as [rc3 Hn3].
  erewrite SM_bind_Some by (apply get_node_at, Hn3).
  destruct (unref_quiet (object (set_count rc3 n)) s3) as (s4 & E4 & Q4); erewrite SM_bind_Some by exact E4.
  destruct (Q4 a _ Hn3 Hd _ Hn3) as [rc4 Hn4]; erewrite update_node_at by exact Hn4.
  eexists _, rc4, 0; split; [reflexivity|split; [|apply lookup_insert_eq]]; cbn [nodes with_nodes].
  intros x nx Hx Hnx Hdx; eapply agree_trans; [apply (Q3 x nx Hnx Hdx)|].
  eapply agree_trans; [|apply agree_eq; rewrite lookup_insert_ne by congruence; reflexivity].
  destruct (Q3 x nx Hnx Hdx nx Hnx) as [rcx Hx3]; apply (Q4 x _ Hx3 Hdx).
Qed.

Lemma delete_total (r : shareable) : exists r', uacpi_shareable_unref_and_delete_if_last false r = Some (tt, r').
Proof.
  unfold uacpi_shareable_unref_and_delete_if_last, uacpi_shareable_unref, uacpi_bugged_shareable,
    uacpi_make_shareable_bugged, do_free; smunfold.
  repeat match goal with |- context [if ?b then _ else _] => destruct b end; eexists; reflexivity.
Qed.

(** [c] changes the node at [a] only, if at all. *)
Definition only_node (a : Z) (c : SM (ns W) unit) : Prop := forall s n, nodes s !! a = Some n -> exists s',
  c s = Some (tt, s') /\ world s' = world s /\ (forall x, x <> a -> nodes s' !! x = nodes s !! x).

Lemma only_update a g : only_node a (update_node a g).
Proof.
  intros s n Hn; erewrite update_node_at by exact Hn; eexists; split; [reflexivity|split; [reflexivity|]].
  intros x Hx; cbn [nodes with_nodes]; rewrite lookup_insert_ne by congruence; reflexivity.
Qed.

Lemma free_node_spec a : only_node a (free_namespace_node a).
Proof.
  intros s n Hn; unfold free_namespace_node, uacpi_namespace_node_is_predefined.
  erewrite SM_bind_Some by (erewrite SM_bind_Some by (apply get_node_at, Hn); reflexivity).
  destruct (has_flag NODE_PREDEFINED n); cbn [negb].
  - do 4 (erewrite SM_bind_Some by (apply update_node_at; cbn [nodes with_nodes]; rewrite ?lookup_insert_eq;
      first [exact Hn|reflexivity])).
    erewrite update_node_at by (cbn [nodes with_nodes]; apply lookup_insert_eq).
    eexists; split; [reflexivity|split; [reflexivity|]]; intros x Hx; cbn [nodes with_nodes].
    rewrite !lookup_insert_ne by congruence; reflexivity.
  - eexists; split; [reflexivity|split; [reflexivity|]]; intros x Hx; cbn [nodes with_nodes].
    apply lookup_delete_ne; congruence.
Qed.

Lemma node_unref_spec a : only_node a (uacpi_namespace_node_unref a).
Proof.
  intros s n Hn; unfold uacpi_namespace_node_unref; destruct (a =? 0); [exists s; auto|].
  destruct (delete_total {| reference_count := shareable_count n; freed := 0 |}) as (r & E).
  erewrite SM_bind_Some; [|unfold on_count; erewrite SM_bind_Some by (apply get_node_at, Hn); rewrite E; reflexivity].
  cbn [snd]; destruct (0 <? freed r).
  - edestruct (free_node_spec a (with_nodes (<[a := Namespace.set_count (reference_count r) n]> (nodes s)) s))
      as (s' & E' & Hw & Ho); [apply lookup_insert_eq|].
    exists s'; split; [exact E'|split; [exact Hw|]]; intros x Hx; rewrite Ho by assumption.
    cbn [nodes with_nodes]; rewrite lookup_insert_ne by congruence; reflexivity.
  - eexists; split; [reflexivity|split; [reflexivity|]]; intros x Hx; cbn [nodes with_nodes].
    rewrite lookup_insert_ne by congruence; reflexivity.
Qed.

Lemma find_previous_spec h par f a r : rep h par f -> sibling f a = Some r -> ptr f <> a ->
  forall s fuel, (forall x, In x (addrs f) -> x <> a -> agree h (nodes s) x) ->
  (length (addrs f) < fuel)%nat -> find_previous fuel (ptr f) a s = Some (pred_of f a, s).
Proof.
  intros Hr Hs Hne; induction f as [|b j c _ k IH]; [discriminate|]; cbn [sibling ptr] in Hs, Hne.
  destruct (Z.eqb_spec b a) as [|_]; [contradiction|]; intros s fuel Ho Hf.
  destruct Hr as (Hb & (n & Hn & _ & _ & _ & Hx) & _ & Hrk); cbn [addrs length] in Hf; rewrite length_app in Hf.
  destruct fuel as [|fuel]; [lia|]; cbn [find_previous pred_of ptr]; rewrite (proj2 (Z.eqb_neq _ _) Hb).
  destruct (Ho b (or_introl eq_refl) Hne n Hn) as [rc Hn'].
  erewrite SM_bind_Some by (apply get_node_at, Hn').
  change (next (Namespace.set_count rc n)) with (next n); rewrite Hx.
  destruct (Z.eqb_spec (ptr k) a); [reflexivity|]; apply IH; try assumption; [|lia].
  intros x Hx'; apply Ho; right; apply in_or_app; right; exact Hx'.
Qed.

(** Unlinking the childless node [a] from its siblings [c], after its object was
    detached (the heap [h] is the one before). *)
Record unlinking (h : heap) (s : ns W) (f c : forest) (p a : Z) (i : info) (n np : namespace_node) (rc o rcp : Z) :
    Prop := {
  un_rep : rep h 0 f;
  un_nodup : List.NoDup (addrs f);
  un_kids : kids f p = Some c;
  un_sibling : sibling c a = Some (i, Leaf);
  un_node : h !! a = Some n;
  un_others : forall x, In x (addrs f) -> x <> a -> agree h (nodes s) x;
  un_detached : nodes s !! a = Some (Namespace.set_count rc (set_object o n));
  un_children : rep h p c;
  un_parent : h !! p = Some np /\ child np = ptr c;
  un_parent_now : nodes s !! p = Some (Namespace.set_count rcp np)
}.

(** What the change [cmd] of the links has to achieve. *)
Definition unlinks (s : ns W) (f c : forest) (p a : Z) (cmd : SM (ns W) uacpi_status) : Prop := exists h2,
  cmd s = Some (UACPI_STATUS_OK, with_nodes h2 s) /\ is_Some (h2 !! a) /\
  (forall x, ~ In x (addrs f) -> h2 !! x = nodes s !! x) /\
  forall h', (forall x, x <> a -> h' !! x = h2 !! x) -> rep h' 0 (set_kids p (drop_sibling a c) f).

Lemma unlink_first h s f c p a i n np rc o rcp : unlinking h s f c p a i n np rc o rcp -> ptr c = a ->
  unlinks s f c p a (update_node p (set_child (next n));; mret UACPI_STATUS_OK).
Proof.
  intros [Hr Hnd Hk Hs Hn Ho Hna Hrc [Hnp Hcp] Hnp1] Hca.
  pose proof (kids_NoDup _ _ _ Hk Hnd) as Hndc; pose proof (kids_not_self _ _ _ Hnd Hk) as Hpc.
  pose proof (kids_incl _ _ _ Hk) as Hincl; pose proof (sibling_In _ _ _ Hs) as Hac.
  assert (Hap : p <> a) by (intros ->; tauto); unfold unlinks.
  erewrite SM_bind_Some by (apply update_node_at, Hnp1).
  eexists; split; [reflexivity|split; [rewrite lookup_insert_ne, Hna by congruence; eauto|split]].
  { intros x Hx; apply lookup_insert_ne; intros <-; apply Hx, (kids_In _ _ _ Hk). }
  intros h' Hh'; destruct c as [|a' i' cc k]; [discriminate|]; cbn [ptr] in Hca; subst a'.
  cbn [sibling drop_sibling] in *; rewrite Z.eqb_refl in *; injection Hs as -> ->; cbn [addrs] in *.
  destruct Hrc as (_ & (n1 & Hn1 & _ & _ & _ & Hx) & _ & Hrk); assert (n1 = n) as -> by congruence.
  apply NoDup_cons_iff in Hndc as [Hak _].
  eapply rep_set_kids; [exact Hr|exact Hnd|exact Hk| | |].
  + intros x Hxf Hxp Hxc; assert (x <> a) by (intros ->; apply Hxc; left; reflexivity).
    eapply agree_trans; [apply Ho; assumption|apply agree_eq].
    rewrite Hh', lookup_insert_ne by congruence; reflexivity.
  + intros n0 Hn0; assert (n0 = np) as -> by congruence; exists rcp.
    rewrite Hh', lookup_insert_eq, Hx by congruence; reflexivity.
  + eapply rep_agree; [exact Hrk|]; intros x Hxk.
    assert (x <> a) by (intros ->; tauto); assert (x <> p) by (intros ->; apply Hpc; right; exact Hxk).
    eapply agree_trans; [apply Ho; [apply Hincl; right; exact Hxk|assumption]|apply agree_eq].
    rewrite Hh', lookup_insert_ne by congruence; reflexivity.
Qed.

Lemma unlink_mid h s f c p a i n np rc o rcp : unlinking h s f c p a i n np rc o rcp -> ptr c <> a ->
  unlinks s f c p a (fuel ← walk_fuel; prev ← find_previous fuel (ptr c) a;
    if prev =? 0 then mret UACPI_STATUS_INTERNAL_ERROR else
    update_node prev (set_next (next n));; mret UACPI_STATUS_OK).
Proof.
  intros [Hr Hnd Hk Hs Hn Ho Hna Hrc [Hnp Hcp] Hnp1] Hca.
  pose proof (kids_NoDup _ _ _ Hk Hnd) as Hndc; pose proof (kids_not_self _ _ _ Hnd Hk) as Hpc.
  pose proof (kids_incl _ _ _ Hk) as Hincl; pose proof (sibling_In _ _ _ Hs) as Hac.
  assert (Hap : p <> a) by (intros ->; tauto); unfold unlinks.
  destruct (rep_drop _ _ _ _ _ Hrc Hndc Hs Hca) as (nb & na & Hnb & Hna' & Hdrop).
  assert (na = n) as -> by congruence; destruct (pred_of_In _ _ _ Hs Hca Hndc) as [Hpin Hpa].
  assert (Hpp : pred_of c a <> p) by (intros E; apply Hpc; rewrite <- E; exact Hpin).
  destruct (Ho _ (Hincl _ Hpin) Hpa nb Hnb) as [rcb Hnb1].
  erewrite SM_bind_Some by reflexivity.
  erewrite SM_bind_Some by (eapply find_previous_spec with (h := h) (f := c) (par := p);
    [exact Hrc|exact Hs|exact Hca|intros x Hx; apply Ho, Hincl, Hx|]; apply le_n_S, nodup_size; [exact Hndc|];
    intros x Hx; destruct (Z.eq_dec x a) as [->|Hxa]; [rewrite Hna; eauto|];
    destruct (rep_in _ _ _ _ Hrc Hx) as (_ & nx & Hnx); destruct (Ho x (Hincl _ Hx) Hxa nx Hnx) as [? ->]; eauto).
  rewrite (proj2 (Z.eqb_neq (pred_of c a) 0)) by (eapply rep_in; eassumption).
  erewrite SM_bind_Some by (apply update_node_at, Hnb1).
  eexists; split; [reflexivity|split; [rewrite lookup_insert_ne, Hna by congruence; eauto|split]].
  { intros x Hx; apply lookup_insert_ne; intros <-; apply Hx, Hincl, Hpin. }
  intros h' Hh'; destruct (Hdrop h') as [Hrep Hptr].
  { intros x Hx Hxa Hxp; eapply agree_trans; [apply Ho; [apply Hincl, Hx|assumption]|apply agree_eq].
    rewrite Hh', lookup_insert_ne by congruence; reflexivity. }
  { exists rcb; rewrite Hh', lookup_insert_eq by congruence; reflexivity. }
  eapply rep_set_kids; [exact Hr|exact Hnd|exact Hk| | |exact Hrep].
  + intros x Hxf Hxp Hxc; assert (x <> a) by (intros ->; tauto).
    eapply agree_trans; [apply Ho; assumption|apply agree_eq].
    rewrite Hh' by assumption; apply lookup_insert_ne; intros <-; tauto.
  + intros n0 Hn0; assert (n0 = np) as -> by congruence; exists rcp.
    rewrite Hh', lookup_insert_ne, Hptr, Hnp1 by congruence; rewrite <- Hcp, set_child_id; reflexivity.
Qed.
Lemma unlink_spec h s f p c a i n rc o : rep h 0 f -> List.NoDup (addrs f) -> kids f p = Some c ->
  sibling c a = Some (i, Leaf) -> h !! a = Some n ->
  (forall x, In x (addrs f) -> x <> a -> agree h (nodes s) x) ->
  nodes s !! a = Some (Namespace.set_count rc (set_object o n)) ->
  unlinks s f c p a (unlink_node a).
Proof.
  intros Hr Hnd Hk Hs Hn Ho Hna; destruct (kids_rep _ _ _ _ _ Hr Hk) as (Hp & Hrc & np & Hnp & Hcp).
  destruct (sibling_rep _ _ _ _ _ _ Hrc Hs) as (Ha & _ & n' & Hn' & _ & Hpar & _).
  assert (n' = n) as -> by congruence.
  assert (Hap : p <> a) by (intros ->; eapply kids_not_self; [exact Hnd|exact Hk|eapply sibling_In, Hs]).
  destruct (Ho p (kids_In _ _ _ Hk) Hap np Hnp) as [rcp Hnp1].
  assert (E : unlink_node a s = (if ptr c =? a then update_node p (set_child (next n));; mret UACPI_STATUS_OK
    else fuel ← walk_fuel; prev ← find_previous fuel (ptr c) a;
      if prev =? 0 then mret UACPI_STATUS_INTERNAL_ERROR else
      update_node prev (set_next (next n));; mret UACPI_STATUS_OK) s).
  { unfold unlink_node; erewrite SM_bind_Some by (apply get_node_at, Hna).
    cbn [parent next Namespace.set_count set_object]; rewrite Hpar, (proj2 (Z.eqb_neq _ _) Hp).
    erewrite SM_bind_Some by (erewrite SM_bind_Some by (apply get_node_at, Hnp1); reflexivity).
    cbn [child Namespace.set_count]; rewrite Hcp; reflexivity. }
  unfold unlinks; rewrite E; destruct (Z.eqb_spec (ptr c) a);
    [eapply unlink_first|eapply unlink_mid]; (eassumption || (split; eauto)).
Qed.

(** The node and what the code reads of it first. *)
Lemma uninstall_starts s f p c a i cc : ns_inv s f -> kids f p = Some c -> sibling c a = Some (i, cc) ->
  exists n, nodes s !! a = Some n /\ a <> 0 /\ is_dangling (info_of n) = false /\
  uacpi_namespace_node_uninstall a s =
    (if negb (ptr cc =? 0) then mret UACPI_STATUS_DENIED else
     namespace_node_detach_object a;;
     ret ← unlink_node a;
     if negb (is_ok ret) then mret ret else
     update_node a (fun n => set_flags (Z.lor (flags n) FLAG_DANGLING) n);;
     uacpi_namespace_node_unref a;;
     mret UACPI_STATUS_OK) s.
Proof.
  intros [Hr Hnd Hlive _] Hk Hs; destruct (kids_rep _ _ _ _ _ Hr Hk) as (_ & Hrc & _).
  destruct (sibling_rep _ _ _ _ _ _ Hrc Hs) as (Ha & _ & n & Hn & Hi & _ & Hc).
  destruct (all_sibling _ _ _ _ _ (all_kids _ _ _ _ Hlive Hk) Hs) as [Hd _].
  exists n; rewrite Hi; split; [exact Hn|split; [exact Ha|split; [exact Hd|]]].
  unfold uacpi_namespace_node_uninstall, uacpi_namespace_node_is_dangling.
  erewrite SM_bind_Some by (erewrite SM_bind_Some by (apply get_node_at, Hn); reflexivity).
  change (has_flag FLAG_DANGLING n) with (is_dangling (info_of n)); rewrite Hi, Hd; cbv iota.
  erewrite SM_bind_Some by (apply get_node_at, Hn); rewrite Hc; reflexivity.
Qed.

Lemma node_in_forest s f x : ns_inv s f -> In x (addrs f) ->
  exists n, nodes s !! x = Some n /\ is_dangling (info_of n) = false.
Proof.
  intros [Hr _ Hlive _]; revert Hr Hlive; generalize 0.
  induction f as [|a i c IHc k IHk]; intros par; cbn [rep all_nodes addrs In]; [tauto|].
  intros (_ & (n & Hn & Hi & _) & Hrc & Hrk) (Hd & H1 & H2) [->|H]; [exists n; rewrite Hi; auto|].
  apply in_app_or in H as [H|H]; [apply (IHc a)|apply (IHk par)]; assumption.
Qed.

Lemma uninstall_leaf s f p c a i : ns_inv s f -> kids f p = Some c -> sibling c a = Some (i, Leaf) ->
  exists s', uacpi_namespace_node_uninstall a s = Some (UACPI_STATUS_OK, s') /\
    ns_inv s' (set_kids p (drop_sibling a c) f).
Proof.
  intros Hinv Hk Hs; destruct (uninstall_starts _ _ _ _ _ _ _ Hinv Hk Hs) as (n & Hn & Ha & Hd & ->).
  pose proof Hinv as [Hr Hnd Hlive (ri & rc0 & ->)].
  cbn [ptr Z.eqb negb]; destruct (detach_object_spec s a n Ha Hn Hd) as (s1 & rc & o & E1 & Hq & Hn1).
  erewrite SM_bind_Some by exact E1.
  destruct (unlink_spec (nodes s) s1 _ p c a i n rc o Hr Hnd Hk Hs Hn) as (h2 & E2 & (n2 & Hn2) & _ & Hrep);
    [|exact Hn1|].
  { intros x Hx Hxa; destruct (node_in_forest _ _ _ Hinv Hx) as (nx & Hnx & Hdx); eapply Hq; eassumption. }
  erewrite SM_bind_Some by exact E2; cbn [is_ok negb].
  erewrite SM_bind_Some by (apply update_node_at, Hn2).
  edestruct (node_unref_spec a (with_nodes (<[a := set_flags (Z.lor (flags n2) FLAG_DANGLING) n2]> h2) s1))
    as (s' & E' & _ & Ho); [apply lookup_insert_eq|].
  exists s'; split; [erewrite SM_bind_Some by exact E'; reflexivity|].
  split.
  - apply Hrep; intros x Hx; rewrite Ho by exact Hx; cbn [nodes with_nodes]; apply lookup_insert_ne; congruence.
  - assert (P : Permutation (a :: addrs (set_kids p (drop_sibling a c) (N uacpi_namespace_root ri rc0 Leaf)))
      (addrs (N uacpi_namespace_root ri rc0 Leaf))).
    { apply (Permutation_app_inv_r (addrs (drop_sibling a c))).
      rewrite <- (set_kids_perm p _ c _ Hnd Hk), (addrs_drop _ _ _ Hs); solve_Permutation. }
    apply Permutation_sym in P; apply (Permutation_NoDup P), NoDup_cons_iff in Hnd; apply Hnd.
  - apply all_set_kids; [exact Hlive|]; apply all_drop; eapply all_kids; eassumption.
  - cbn [set_kids]; destruct (_ =? p); eexists _, _; reflexivity.
Qed.
End Uninstall.

(** C7.  Installing a fresh node makes it the last child of its parent and changes
    nothing else; uninstalling removes exactly that node and is refused, without any
    effect, while the node has children.  Both keep the tree well formed. *)
Theorem install_uninstall_refine {W} `{NL : NamespaceLock W, OBJ : Objects W, OL : !ObjectLaws W} (s : ns W) f p c :
  ns_inv s f -> kids f p = Some c ->
  (forall a n, nodes s !! a = Some n -> a <> 0 -> ~ In a (addrs f) -> child n = 0 -> next n = 0 ->
    if is_dangling (info_of n)
    then uacpi_namespace_node_install p a s = Some (UACPI_STATUS_NAMESPACE_NODE_DANGLING, s)
    else exists s', uacpi_namespace_node_install p a s = Some (UACPI_STATUS_OK, s') /\ world s' = world s /\
      ns_inv s' (set_kids p (fapp c (N a (info_of n) Leaf Leaf)) f) /\
      forall x, x <> a -> ~ In x (addrs f) -> nodes s' !! x = nodes s !! x) /\
  (forall a i cc, sibling c a = Some (i, cc) ->
    match cc with
    | Leaf => exists s', uacpi_namespace_node_uninstall a s = Some (UACPI_STATUS_OK, s') /\
        ns_inv s' (set_kids p (drop_sibling a c) f)
    | _ => uacpi_namespace_node_uninstall a s = Some (UACPI_STATUS_DENIED, s)
    end).
Proof.
  intros Hinv Hk; split.
  - intros a n Hn Ha Hnew Hc Hx; destruct (is_dangling (info_of n)) eqn:Hd.
    + destruct Hinv as [Hr _ _ _]; destruct (kids_rep _ _ _ _ _ Hr Hk) as (Hp & _).
      unfold uacpi_namespace_node_install, uacpi_namespace_node_is_dangling; rewrite (proj2 (Z.eqb_neq _ _) Hp).
      erewrite SM_bind_Some by (erewrite SM_bind_Some by (apply get_node_at, Hn); reflexivity).
      change (has_flag FLAG_DANGLING n) with (is_dangling (info_of n)); rewrite Hd; reflexivity.
    + apply (node_install_spec s f p c a n); assumption.
  - intros a i cc Hs; destruct cc as [|b j x y]; [eapply uninstall_leaf; eassumption|].
    destruct (uninstall_starts _ _ _ _ _ _ _ Hinv Hk Hs) as (n & Hn & _ & _ & ->).
    destruct Hinv as [Hr _ _ _]; destruct (kids_rep _ _ _ _ _ Hr Hk) as (_ & Hrc & _).
    destruct (sibling_rep _ _ _ _ _ _ Hrc Hs) as (_ & Hrb & _).
    rewrite (rep_ptr _ _ _ Hrb); reflexivity.
Qed.

(** ** Shutting down *)

Lemma kids_set_kids_same p c' c f : kids f p = Some c -> List.NoDup (addrs f) -> kids (set_kids p c' f) p = Some c'.
Proof.
  induction f as [|a i fc IHc k IHk]; cbn [kids set_kids]; [discriminate|]; intros H Hnd.
  destruct (addrs_N_NoDup _ _ _ _ Hnd) as (_ & _ & Hnc & Hnk & Hdis).
  destruct (Z.eqb_spec a p) as [->|Hne]; [cbn [kids]; rewrite Z.eqb_refl; reflexivity|].
  cbn [kids]; rewrite (proj2 (Z.eqb_neq _ _) Hne).
  destruct (kids fc p) eqn:E; [injection H as ->; rewrite IHc by auto; reflexivity|].
  rewrite (set_kids_notin p c' fc), E by (intros Hin; exact (Hdis _ Hin (kids_In _ _ _ H))); auto.
Qed.

Lemma set_kids_twice p c1 c2 f : List.NoDup (addrs f) -> set_kids p c2 (set_kids p c1 f) = set_kids p c2 f.
Proof.
  induction f as [|a i fc IHc k IHk]; cbn [set_kids]; [reflexivity|]; intros Hnd.
  destruct (addrs_N_NoDup _ _ _ _ Hnd) as (_ & _ & Hnc & Hnk & _).
  destruct (a =? p) eqn:E; cbn [set_kids]; rewrite E; [reflexivity|]; rewrite IHc, IHk by assumption; reflexivity.
Qed.

Lemma set_kids_id p c f : kids f p = Some c -> List.NoDup (addrs f) -> set_kids p c f = f.
Proof.
  induction f as [|a i fc IHc fk IHk]; cbn [kids set_kids]; [reflexivity|]; intros H Hnd.
  destruct (addrs_N_NoDup _ _ _ _ Hnd) as (_ & _ & Hnc & Hnk & Hdis).
  destruct (a =? p); [congruence|]; destruct (kids fc p) eqn:E.
  - injection H as ->; rewrite (IHc eq_refl Hnc), set_kids_notin by (apply Hdis; eapply kids_In, E); reflexivity.
  - rewrite (IHk H Hnk), set_kids_notin by (intros Hin; exact (Hdis _ Hin (kids_In _ _ _ H))); reflexivity.
Qed.

(** A change below [p] shows in the children of [p], *)
Lemma kids_set_kids_below p x c' c f : List.NoDup (addrs f) -> kids f p = Some c -> In x (addrs c) ->
  kids (set_kids x c' f) p = Some (set_kids x c' c).
Proof.
  induction f as [|a i fc IHc k IHk]; [discriminate|]; cbn [kids set_kids]; intros Hnd H Hx.
  destruct (addrs_N_NoDup _ _ _ _ Hnd) as (Hac & Hak & Hnc & Hnk & Hdis).
  assert (Hxa : a <> x).
  { intros ->; destruct (x =? p); [injection H as ->; tauto|].
    destruct (kids fc p) eqn:E; [injection H as ->; apply Hac, (kids_incl _ _ _ E), Hx|].
    apply Hak, (kids_incl _ _ _ H), Hx. }
  rewrite (proj2 (Z.eqb_neq _ _) Hxa); cbn [kids]; destruct (a =? p); [injection H as ->; reflexivity|].
  destruct (kids fc p) as [r|] eqn:E.
  - injection H as ->; rewrite IHc by auto; reflexivity.
  - pose proof (kids_incl _ _ _ H _ Hx) as Hxk.
    rewrite (set_kids_notin x c' fc), E by (intros Hin; exact (Hdis _ Hin Hxk)); auto.
Qed.

(** and is lost when those are replaced. *)
Lemma set_kids_absorb p x c' c2 c f : List.NoDup (addrs f) -> kids f p = Some c -> In x (addrs c) ->
  set_kids p c2 (set_kids x c' f) = set_kids p c2 f.
Proof.
  induction f as [|a i fc IHc k IHk]; [discriminate|]; cbn [kids set_kids]; intros Hnd H Hx.
  destruct (addrs_N_NoDup _ _ _ _ Hnd) as (Hac & Hak & Hnc & Hnk & Hdis).
  destruct (Z.eqb_spec a p) as [->|Hap].
  { injection H as ->; assert (Hxp : p <> x) by (intros ->; tauto).
    rewrite (proj2 (Z.eqb_neq _ _) Hxp); cbn [set_kids]; rewrite Z.eqb_refl.
    rewrite (set_kids_notin x c' k) by (apply Hdis, Hx); reflexivity. }
  assert (Hxa : a <> x).
  { intros ->; destruct (kids fc p) eqn:E; [injection H as ->; apply Hac, (kids_incl _ _ _ E), Hx|].
    apply Hak, (kids_incl _ _ _ H), Hx. }
  rewrite (proj2 (Z.eqb_neq _ _) Hxa); cbn [set_kids]; rewrite (proj2 (Z.eqb_neq _ _) Hap).
  destruct (kids fc p) as [r|] eqn:E.
  - injection H as ->; rewrite IHc by auto.
    rewrite (set_kids_notin x c' k) by (apply Hdis, (kids_incl _ _ _ E), Hx); reflexivity.
  - rewrite (IHk Hnk H Hx).
    rewrite (set_kids_notin x c' fc) by (intros Hin; exact (Hdis _ Hin (kids_incl _ _ _ H _ Hx))); reflexivity.
Qed.

Lemma fapp_assoc f g h : fapp (fapp f g) h = fapp f (fapp g h).
Proof. induction f as [|a i c _ k IH]; cbn [fapp]; [reflexivity|rewrite IH; reflexivity]. Qed.

Lemma fapp_Leaf f : fapp f Leaf = f.
Proof. induction f as [|a i c _ k IH]; cbn [fapp]; [reflexivity|rewrite IH; reflexivity]. Qed.

Lemma last_of_fapp f g : g <> Leaf -> last_of (fapp f g) = last_of g.
Proof.
  intros Hg; induction f as [|a i c _ k IH]; cbn [fapp]; [reflexivity|].
  cbn [last_of]; rewrite IH; destruct k as [|b j kc kk]; cbn [fapp]; [|reflexivity].
  destruct g; [congruence|reflexivity].
Qed.

Lemma set_kids_fapp x c' i c k f : ~ In x (addrs f) -> set_kids x c' (fapp f (N x i c k)) = fapp f (N x i c' k).
Proof.
  induction f as [|a j fc _ fk IH]; cbn [fapp set_kids addrs In]; intros H; [rewrite Z.eqb_refl; reflexivity|].
  destruct (Z.eqb_spec a x) as [->|]; [tauto|].
  rewrite (set_kids_notin x c' fc) by (intros Hin; apply H; right; apply in_or_app; auto).
  rewrite IH by (intros Hin; apply H; right; apply in_or_app; auto); reflexivity.
Qed.

(** The siblings without their children. *)
Fixpoint strip (f : forest) : forest :=
  match f with Leaf => Leaf | N a i _ k => N a i Leaf (strip k) end.

Lemma last_of_strip f : last_of (strip f) = last_of f.
Proof. induction f as [|a i c _ [|b j kc kk] IH]; [reflexivity|reflexivity|exact IH]. Qed.

(** *** Nodes that are gone *)

(** The node at [a] has been uninstalled: it is freed, or marked as dangling while someone
    still refers to it, or, for a predefined one, back in the state it has before it is
    installed. *)
Definition gone (h : heap) (a : Z) : Prop := forall n, h !! a = Some n ->
  is_dangling (info_of n) = true \/ (flags n = NODE_PREDEFINED /\ parent n = 0 /\ object n = 0).

(** [c] brings no node back. *)
Definition keeps_gone {W A} (c : SM (ns W) A) : Prop := forall s r s' a, c s = Some (r, s') -> gone (nodes s) a -> gone (nodes s') a.

Section Gone.
Context {W : Type} {NL : NamespaceLock W} {OBJ : Objects W}.

Lemma gone_ret {A} (x : A) : keeps_gone (W := W) (mret x).
Proof. intros s r s' a [= <- <-]; auto. Qed.
Lemma gone_undefined {A} : keeps_gone (W := W) (A := A) undefined.
Proof. intros s r s' a; discriminate. Qed.
Lemma gone_bind {A B} (c : SM (ns W) A) (k : A -> SM (ns W) B) : keeps_gone c -> (forall x, keeps_gone (k x)) -> keeps_gone (mbind k c).
Proof. intros Hc Hk s r s' a E Ha; apply SM_bind_inv in E as (x & s1 & E1 & E2); eapply Hk, Hc; eassumption. Qed.
Lemma gone_get_node b : keeps_gone (W := W) (get_node b).
Proof. intros s r s' a; unfold get_node; destruct (nodes s !! b); [intros [= <- <-]; auto|discriminate]. Qed.
Lemma gone_gets {A} (f : ns W -> A) : keeps_gone (gets_state f).
Proof. intros s r s' a [= <- <-]; auto. Qed.
Lemma gone_in_world {A} (c : SM W A) : keeps_gone (in_world c).
Proof. intros s r s' a E; apply in_world_inv in E as (w & _ & ->); auto. Qed.

Lemma gone_insert h a b (n n' : namespace_node) : h !! b = Some n ->
  ((is_dangling (info_of n) = true \/ (flags n = NODE_PREDEFINED /\ parent n = 0 /\ object n = 0)) ->
   is_dangling (info_of n') = true \/ (flags n' = NODE_PREDEFINED /\ parent n' = 0 /\ object n' = 0)) -> gone h a -> gone (<[b := n']> h) a.
Proof.
  intros Hn Hk Ha m; destruct (Z.eq_dec a b) as [->|Hne]; [rewrite lookup_insert_eq; intros [= <-]; apply Hk, Ha, Hn|].
  rewrite lookup_insert_ne by congruence; apply Ha.
Qed.

(** Changes of a node that leave it gone. *)
Definition stays (g : namespace_node -> namespace_node) : Prop := forall n,
  (is_dangling (info_of n) = true \/ (flags n = NODE_PREDEFINED /\ parent n = 0 /\ object n = 0)) ->
  is_dangling (info_of (g n)) = true \/ (flags (g n) = NODE_PREDEFINED /\ parent (g n) = 0 /\ object (g n) = 0).

Lemma gone_update b g : stays g -> keeps_gone (W := W) (update_node b g).
Proof.
  intros Hg s r s' a E; unfold update_node in E; apply SM_bind_inv in E as (n & s1 & E1 & E2); unfold get_node in E1.
  destruct (nodes s !! b) as [n0|] eqn:En; [injection E1 as -> ->|discriminate]; injection E2 as _ <-; cbn [nodes with_nodes].
  eapply gone_insert; [exact En|apply Hg].
Qed.

Lemma dangling_lor n : is_dangling (info_of (set_flags (Z.lor (flags n) FLAG_DANGLING) n)) = true.
Proof.
  unfold is_dangling, FLAG_DANGLING; cbn [info_of i_flags set_flags flags]; apply negb_true_iff, Z.eqb_neq; intros E.
  apply (f_equal (fun z => Z.testbit z 1)) in E; rewrite Z.land_spec, Z.lor_spec in E; cbn in E; rewrite orb_true_r in E; discriminate.
Qed.

Lemma stays_child x : stays (set_child x). Proof. intros n H; exact H. Qed.
Lemma stays_next x : stays (set_next x). Proof. intros n H; exact H. Qed.
Lemma stays_object : stays (set_object 0).
Proof. intros n [H|(H1 & H2 & H3)]; [left; exact H|right; split_and!; assumption || reflexivity]. Qed.
Lemma stays_dangling : stays (fun n => set_flags (Z.lor (flags n) FLAG_DANGLING) n).
Proof. intros n _; left; apply dangling_lor. Qed.

(** Freeing a node makes it go, and no other one come. *)
Lemma free_gone b : keeps_gone (W := W) (free_namespace_node b) /\
  forall (s s' : ns W), free_namespace_node b s = Some (tt, s') -> gone (nodes s') b.
Proof.
  assert (H : forall s r s', free_namespace_node (W := W) b s = Some (r, s') -> gone (nodes s') b /\ forall a, gone (nodes s) a -> gone (nodes s') a).
  { intros s r s' E; unfold free_namespace_node, uacpi_namespace_node_is_predefined in E.
    apply SM_bind_inv in E as (p & s1 & E1 & E); apply SM_bind_inv in E1 as (n & s2 & E1 & E2); unfold get_node in E1.
    destruct (nodes s !! b) as [n0|] eqn:En; [injection E1 as -> ->|discriminate]; injection E2 as <- <-.
    destruct (has_flag NODE_PREDEFINED n); cbn [negb] in E.
    - repeat (apply SM_bind_inv in E as (? & ? & E1 & E); erewrite update_node_at in E1 by (cbn [nodes with_nodes]; rewrite ?lookup_insert_eq; first [exact En|reflexivity]);
        injection E1 as <- <-); erewrite update_node_at in E by (cbn [nodes with_nodes]; apply lookup_insert_eq); injection E as _ <-.
      assert (Hg : forall a, a <> b -> gone (nodes s2) a -> gone (<[b := set_next 0 (set_child 0 (set_parent 0 (set_object 0 (set_flags NODE_PREDEFINED n))))]> (nodes s2)) a).
      { intros a Ha H m; rewrite lookup_insert_ne by congruence; apply H. }
      cbn [nodes with_nodes]; rewrite !insert_insert_eq; assert (Hb : gone (<[b := set_next 0 (set_child 0 (set_parent 0 (set_object 0 (set_flags NODE_PREDEFINED n))))]> (nodes s2)) b).
      { intros m; rewrite lookup_insert_eq; intros [= <-]; right; split_and!; reflexivity. }
      split; [exact Hb|]; intros a H; destruct (Z.eq_dec a b) as [->|]; auto.
    - injection E as _ <-; cbn [nodes with_nodes]; split; [intros m; rewrite lookup_delete_eq; discriminate|].
      intros a H m Hm; apply lookup_delete_Some in Hm as [_ Hm]; apply H, Hm. }
  split; [intros s r s' a E; exact (proj2 (H s r s' E) a)|intros s s' E; exact (proj1 (H s tt s' E))].
Qed.

Lemma gone_node_unref b : keeps_gone (W := W) (uacpi_namespace_node_unref b).
Proof.
  unfold uacpi_namespace_node_unref; destruct (b =? 0); [apply gone_ret|]; apply gone_bind; [|intros x; destruct (0 <? snd x); [apply free_gone|apply gone_ret]].
  intros s r s' a E; unfold on_count in E; apply SM_bind_inv in E as (n & s1 & E1 & E2); unfold get_node in E1.
  destruct (nodes s !! b) as [n0|] eqn:En; [injection E1 as -> ->|discriminate].
  destruct (uacpi_shareable_unref_and_delete_if_last _ _) as [[u v]|]; [|discriminate]; injection E2 as _ <-; cbn [nodes with_nodes].
  eapply gone_insert; [exact En|intros H; exact H].
Qed.

Lemma gone_find_previous fuel : forall p b, keeps_gone (W := W) (find_previous fuel p b).
Proof.
  induction fuel as [|fuel IH]; intros p b; cbn [find_previous]; [apply gone_undefined|]; destruct (p =? 0); [apply gone_ret|].
  apply gone_bind; [apply gone_get_node|]; intros n; destruct (next n =? b); [apply gone_ret|apply IH].
Qed.

Lemma gone_unlink b : keeps_gone (W := W) (unlink_node b).
Proof.
  unfold unlink_node; apply gone_bind; [apply gone_get_node|]; intros n; apply gone_bind.
  { destruct (parent n =? 0); [apply gone_ret|apply gone_bind; [apply gone_get_node|intros; apply gone_ret]]. }
  intros q; destruct (q =? b); [apply gone_bind; [apply gone_update, stays_child|intros; apply gone_ret]|].
  apply gone_bind; [apply gone_gets|]; intros fuel; apply gone_bind; [apply gone_find_previous|]; intros q2; destruct (q2 =? 0); [apply gone_ret|].
  apply gone_bind; [apply gone_update, stays_next|intros; apply gone_ret].
Qed.

Context (unref_gone : forall o, keeps_gone (W := W) (uacpi_object_unref o)) (handler_gone : forall a, keeps_gone (W := W) (uacpi_opregion_uninstall_handler a)).

Lemma gone_detach b : keeps_gone (W := W) (namespace_node_detach_object b).
Proof using unref_gone handler_gone.
  unfold namespace_node_detach_object, uacpi_namespace_node_get_object; apply gone_bind.
  { destruct (b =? 0); [apply gone_ret|apply gone_bind; [apply gone_get_node|]]; intros n; destruct (object n =? 0); [apply gone_ret|apply gone_in_world]. }
  intros o; destruct (o =? 0); [apply gone_ret|]; apply gone_bind; [apply gone_in_world|]; intros t.
  apply gone_bind; [destruct (t =? _); [apply handler_gone|apply gone_ret]|]; intros _; apply gone_bind; [apply gone_get_node|]; intros n.
  apply gone_bind; [apply unref_gone|intros _; apply gone_update, stays_object].
Qed.

Lemma gone_uninstall b : keeps_gone (W := W) (uacpi_namespace_node_uninstall b).
Proof using unref_gone handler_gone.
  unfold uacpi_namespace_node_uninstall; apply gone_bind; [apply gone_bind; [apply gone_get_node|intros; apply gone_ret]|]; intros d; destruct d; [apply gone_ret|].
  apply gone_bind; [apply gone_get_node|]; intros n; destruct (negb (child n =? 0)); [apply gone_ret|].
  apply gone_bind; [apply gone_detach|]; intros _; apply gone_bind; [apply gone_unlink|]; intros x; destruct (negb (is_ok x)); [apply gone_ret|].
  apply gone_bind; [apply gone_update, stays_dangling|]; intros _; apply gone_bind; [apply gone_node_unref|intros; apply gone_ret].
Qed.

(** A successful uninstall leaves the node gone. *)
Lemma uninstalled_gone b (s s' : ns W) : uacpi_namespace_node_uninstall b s = Some (UACPI_STATUS_OK, s') -> gone (nodes s') b.
Proof using Type.
  unfold uacpi_namespace_node_uninstall; intros E; apply SM_bind_inv in E as (d & s1 & _ & E); destruct d; [discriminate|].
  apply SM_bind_inv in E as (n & s2 & _ & E); destruct (negb (child n =? 0)); [discriminate|].
  apply SM_bind_inv in E as (u & s3 & _ & E); apply SM_bind_inv in E as (x & s4 & _ & E); destruct (is_ok x) eqn:Ex; cbn [negb] in E; [|injection E as -> _; discriminate Ex].
  apply SM_bind_inv in E as (v & s5 & E5 & E); apply SM_bind_inv in E as (y & s6 & E6 & E); injection E as <-.
  eapply gone_node_unref; [exact E6|]; unfold update_node in E5; apply SM_bind_inv in E5 as (m & s7 & E7 & E5); injection E5 as _ <-.
  intros k; cbn [nodes with_nodes]; rewrite lookup_insert_eq; intros [= <-]; left; apply dangling_lor.
Qed.
End Gone.

Section Deinit.
Context {W : Type} {NL : NamespaceLock W} {OBJ : Objects W} {OL : ObjectLaws W}.
Context (unref_gone : forall o, keeps_gone (W := W) (uacpi_object_unref o)) (handler_gone : forall a, keeps_gone (W := W) (uacpi_opregion_uninstall_handler a)).
Implicit Types s : ns W.

(** Between [s] and [s'] the nodes [l] went, and none came back. *)
Definition goes (l : list Z) s s' : Prop := (forall a, In a l -> gone (nodes s') a) /\ forall a, gone (nodes s) a -> gone (nodes s') a.

Lemma goes_trans l1 l2 s1 s2 s3 : goes l1 s1 s2 -> goes l2 s2 s3 -> goes (l1 ++ l2) s1 s3.
Proof using Type. intros [H1 K1] [H2 K2]; split; [intros a Ha; apply in_app_or in Ha as [Ha|Ha]; auto|auto]. Qed.
Lemma goes_nil s : goes [] s s.
Proof using Type. split; [intros a []|auto]. Qed.

Lemma kids_node s f p c : ns_inv s f -> kids f p = Some c ->
  exists n, nodes s !! p = Some n /\ child n = ptr c /\ (ptr c =? 0) = match c with Leaf => true | _ => false end.
Proof.
  intros [Hr _ _ _] Hk; destruct (kids_rep _ _ _ _ _ Hr Hk) as (_ & Hrc & n & Hn & Hc).
  exists n; split; [exact Hn|split; [exact Hc|exact (rep_ptr _ _ _ Hrc)]].
Qed.

Lemma wipe_spec g : forall s f x fuel, ns_inv s f -> kids f x = Some (strip g) ->
  (length (addrs (strip g)) < fuel)%nat ->
  exists s', wipe fuel x s = Some (tt, s') /\ ns_inv s' (set_kids x Leaf f) /\ goes (addrs (strip g)) s s'.
Proof using All.
  induction g as [|y j gc _ k IH]; intros s f x fuel Hinv Hk Hf; (destruct fuel as [|fuel]; [cbn in Hf; lia|]);
    destruct (kids_node _ _ _ _ Hinv Hk) as (n & Hn & Hc & Hp); cbn [wipe];
    erewrite SM_bind_Some by (apply get_node_at, Hn); rewrite Hc, Hp.
  { exists s; split; [reflexivity|]; cbn [strip] in Hk.
    rewrite (set_kids_id _ _ _ Hk) by apply Hinv; split; [exact Hinv|apply goes_nil]. }
  cbn [strip ptr addrs] in *.
  destruct (uninstall_leaf s f x _ y j Hinv Hk) as (s1 & E1 & Hinv1); [cbn [sibling]; rewrite Z.eqb_refl; reflexivity|].
  erewrite SM_bind_Some by exact E1; cbn [drop_sibling] in Hinv1; rewrite Z.eqb_refl in Hinv1.
  pose proof Hinv as [_ Hnd _ _].
  assert (G1 : goes [y] s s1).
  { split; [intros a [<-|[]]; eapply uninstalled_gone, E1|intros a; eapply gone_uninstall; [apply unref_gone|apply handler_gone|exact E1]]. }
  destruct (IH s1 (set_kids x (strip k) f) x fuel Hinv1) as (s' & E' & Hinv' & G').
  - eapply kids_set_kids_same; eassumption.
  - cbn [length] in Hf; cbn in Hf; lia.
  - exists s'; split; [exact E'|]; rewrite set_kids_twice in Hinv' by exact Hnd; split; [exact Hinv'|exact (goes_trans _ _ _ _ _ G1 G')].
Qed.

(** Turns of the loop that a list of siblings takes. *)
Fixpoint turns (g : forest) : nat :=
  match g with
  | Leaf => 0
  | N _ _ c k => 1 + match c with Leaf => 0 | _ => turns c + 1 end + turns k
  end%nat.

Lemma turns_bound g : (turns g <= 2 * length (addrs g))%nat.
Proof.
  induction g as [|a i c IHc k IHk]; cbn [turns addrs length]; [lia|]; rewrite length_app.
  destruct c; lia.
Qed.

(** The cursor behind the siblings [pre]: the code finds [g] there. *)
Lemma next_sibling_spec s f a pre g : ns_inv s f -> kids f a = Some (fapp pre g) ->
  (if last_of pre =? 0 then c ← get_node a; mret (child c) else n ← get_node (last_of pre); mret (next n)) s =
  Some (ptr g, s).
Proof.
  intros Hinv Hk; pose proof Hinv as [Hr Hnd _ _]; destruct (kids_rep _ _ _ _ _ Hr Hk) as (_ & Hrc & n & Hn & Hc).
  destruct (Z.eqb_spec (last_of pre) 0) as [E0|E0].
  - assert (pre = Leaf) as ->.
    { destruct pre as [|b j pc pk]; [reflexivity|exfalso].
      apply (fun H => proj1 (rep_in _ _ _ (last_of (N b j pc pk)) Hrc H) E0).
      eapply Permutation_in; [symmetry; apply addrs_fapp|apply in_or_app; left; apply last_of_In; discriminate]. }
    erewrite SM_bind_Some by (apply get_node_at, Hn); rewrite Hc; reflexivity.
  - assert (exists n, nodes s !! last_of pre = Some n /\ next n = ptr g) as (m & Hm & Hx).
    { clear - Hrc E0; induction pre as [|b j pc _ pk IH]; [cbn in E0; lia|].
      destruct Hrc as (_ & (m & Hm & _ & _ & _ & Hx) & _ & Hrk); destruct pk as [|b2 j2 c2 k2].
      - exists m; split; [exact Hm|exact Hx].
      - apply IH; [exact Hrk|exact E0]. }
    erewrite SM_bind_Some by (apply get_node_at, Hm); rewrite Hx; reflexivity.
Qed.

(** Everything in [g] went when what is below it and the siblings themselves did. *)
Fixpoint below (g : forest) : list Z := match g with Leaf => [] | N _ _ c k => addrs c ++ below k end.

Lemma below_addrs g a : In a (addrs g) -> In a (below g) \/ In a (addrs (strip g)).
Proof using Type.
  induction g as [|x i c _ k IH]; cbn [addrs below strip In]; [tauto|].
  rewrite !in_app_iff; intros [H|[H|H]]; [auto|auto|]; destruct (IH H); cbn [addrs In]; rewrite ?in_app_iff; tauto.
Qed.
Lemma goes_all g s1 s2 s3 : goes (below g) s1 s2 -> goes (addrs (strip g)) s2 s3 -> goes (addrs g) s1 s3.
Proof using Type.
  intros G1 G2; destruct (goes_trans _ _ _ _ _ G1 G2) as [H K]; split; [|exact K].
  intros a Ha; apply H, in_or_app, below_addrs, Ha.
Qed.

(** The turn that wipes the children of [x] and goes back to its parent. *)
Lemma leave_spec s f x g par d : ns_inv s f -> kids f x = Some (strip g) -> 0 < d < 2 ^ 32 ->
  (forall s', ns_inv s' (set_kids x Leaf f) -> exists n, nodes s' !! x = Some n /\ parent n = par) ->
  exists s', (forall fuel, deinit_loop (S fuel) x (last_of g) d s = deinit_loop fuel par x (d - 1) s') /\
    ns_inv s' (set_kids x Leaf f) /\ goes (addrs (strip g)) s s'.
Proof using All.
  intros Hinv Hk Hd Hpar.
  destruct (wipe_spec g s f x (S (size (nodes s))) Hinv Hk) as (s1 & E1 & Hinv1 & G1).
  { destruct Hinv as [Hr Hnd _ _]; destruct (kids_rep _ _ _ _ _ Hr Hk) as (_ & Hrc & _).
    pose proof (forest_size _ _ _ Hrc (kids_NoDup _ _ _ Hk Hnd)); lia. }
  exists s1; split; [|split; [exact Hinv1|exact G1]]; intros fuel; cbn [deinit_loop]; rewrite (proj2 (Z.eqb_neq d 0)) by lia.
  rewrite <- (last_of_strip g).
  erewrite SM_bind_Some by (apply (next_sibling_spec s f x (strip g) Leaf); [exact Hinv|rewrite fapp_Leaf; exact Hk]).
  cbn [ptr Z.eqb]; erewrite SM_bind_Some by reflexivity.
  erewrite SM_bind_Some by exact E1; destruct (Hpar s1 Hinv1) as (n & Hn & Hp).
  erewrite SM_bind_Some by (apply get_node_at, Hn); rewrite Hp, wrap_id by (unfold in_w; lia); reflexivity.
Qed.

Lemma sibling_fapp x i c k f : ~ In x (addrs f) -> sibling (fapp f (N x i c k)) x = Some (i, c).
Proof.
  induction f as [|a j fc _ fk IH]; cbn [fapp sibling addrs In]; intros H; [rewrite Z.eqb_refl; reflexivity|].
  destruct (Z.eqb_spec a x) as [->|]; [tauto|]; apply IH; intros Hin; apply H; right; apply in_or_app; auto.
Qed.

Lemma kids_of_sibling f x i c : List.NoDup (addrs f) -> sibling f x = Some (i, c) -> kids f x = Some c.
Proof.
  induction f as [|a j fc _ fk IH]; cbn [sibling kids]; [discriminate|]; intros Hnd.
  destruct (addrs_N_NoDup _ _ _ _ Hnd) as (_ & _ & _ & Hnk & Hdis).
  destruct (a =? x); [intros [= _ ->]; reflexivity|]; intros H.
  rewrite (kids_notin fc x) by (intros Hin; exact (Hdis _ Hin (sibling_In _ _ _ H))); apply IH; assumption.
Qed.

(** The children of a child. *)
Lemma kids_trans f p c x c2 : List.NoDup (addrs f) -> kids f p = Some c -> kids c x = Some c2 -> kids f x = Some c2.
Proof.
  induction f as [|a i fc IHc fk IHk]; [discriminate|]; cbn [kids]; intros Hnd H Hx.
  destruct (addrs_N_NoDup _ _ _ _ Hnd) as (Hac & Hak & Hnc & Hnk & Hdis); pose proof (kids_In _ _ _ Hx) as Hin.
  destruct (a =? p); [injection H as ->|destruct (kids fc p) as [r|] eqn:E; [injection H as ->|]].
  - rewrite (proj2 (Z.eqb_neq a x)) by (intros ->; tauto); rewrite Hx; reflexivity.
  - rewrite (proj2 (Z.eqb_neq a x)) by (intros ->; apply Hac, (kids_incl _ _ _ E), Hin).
    rewrite (IHc Hnc eq_refl Hx); reflexivity.
  - pose proof (kids_incl _ _ _ H _ Hin) as Hxk; rewrite (proj2 (Z.eqb_neq a x)) by (intros ->; tauto).
    rewrite (kids_notin fc x) by (intros Hf; exact (Hdis _ Hf Hxk)); auto.
Qed.

(** A child [x] of [a] in the tree, and the tree when the children of [x] change. *)
Lemma child_facts f a pre x i c k : List.NoDup (addrs f) -> kids f a = Some (fapp pre (N x i c k)) ->
  sibling (fapp pre (N x i c k)) x = Some (i, c) /\ kids f x = Some c /\ forall c',
  kids (set_kids x c' f) a = Some (fapp pre (N x i c' k)) /\
  sibling (fapp pre (N x i c' k)) x = Some (i, c') /\
  forall c2, set_kids a c2 (set_kids x c' f) = set_kids a c2 f.
Proof.
  intros Hnd Hk; pose proof (kids_NoDup _ _ _ Hk Hnd) as Hndc.
  assert (Hxpre : ~ In x (addrs pre)).
  { pose proof Hndc as Hn; eapply Permutation_NoDup in Hn; [|apply addrs_fapp].
    intros Hin; apply NoDup_ListNoDup, NoDup_app in Hn as (_ & Hdis & _).
    apply (Hdis x); apply list_elem_of_In; [exact Hin|left; reflexivity]. }
  pose proof (sibling_fapp x i c k pre Hxpre) as Hs; pose proof (sibling_In _ _ _ Hs) as Hin.
  split; [exact Hs|split; [eapply kids_trans; [exact Hnd|exact Hk|eapply kids_of_sibling; eassumption]|]].
  intros c'; split; [|split; [apply sibling_fapp, Hxpre|]].
  - rewrite (kids_set_kids_below _ _ _ _ _ Hnd Hk Hin), set_kids_fapp by exact Hxpre; reflexivity.
  - intros c2; eapply set_kids_absorb; eassumption.
Qed.

Lemma sibling_parent s f a c x r : ns_inv s f -> kids f a = Some c -> sibling c x = Some r ->
  exists n, nodes s !! x = Some n /\ parent n = a.
Proof.
  intros [Hr _ _ _] Hk Hs; destruct r as [i cc]; destruct (kids_rep _ _ _ _ _ Hr Hk) as (_ & Hrc & _).
  destruct (sibling_rep _ _ _ _ _ _ Hrc Hs) as (_ & _ & n & Hn & _ & Hp & _); exists n; auto.
Qed.

(** The turn that finds the child [x] behind [pre]. *)
Lemma enter_spec s f a pre x i c k d fuel : ns_inv s f -> kids f a = Some (fapp pre (N x i c k)) -> 0 < d ->
  deinit_loop (S fuel) a (last_of pre) d s =
  match c with Leaf => deinit_loop fuel a x d s | _ => deinit_loop fuel x 0 (u32 (d + 1)) s end.
Proof.
  intros Hinv Hk Hd; pose proof (next_sibling_spec s f a pre (N x i c k) Hinv Hk) as Enext.
  destruct (child_facts f a pre x i c k (inv_nodup _ _ Hinv) Hk) as (_ & Hkx & _).
  destruct (kids_node _ _ _ _ Hinv Hkx) as (n & Hn & Hc & Hp).
  cbn [deinit_loop]; rewrite (proj2 (Z.eqb_neq d 0)) by lia.
  erewrite SM_bind_Some by exact Enext; cbn [ptr].
  rewrite (proj2 (Z.eqb_neq x 0)) by (eapply (kids_rep (nodes s)); [apply Hinv|exact Hkx]).
  erewrite SM_bind_Some by (apply get_node_at, Hn); rewrite Hc, Hp; destruct c; reflexivity.
Qed.

(** Walking the siblings [g] behind [pre] strips them. *)
Lemma deinit_walk g : forall s f a pre d, ns_inv s f -> kids f a = Some (fapp pre g) ->
  0 < d -> d + height g < 2 ^ 32 -> exists s',
  (forall fuel, deinit_loop (turns g + fuel) a (last_of pre) d s = deinit_loop fuel a (last_of (fapp pre g)) d s') /\
  ns_inv s' (set_kids a (fapp pre (strip g)) f) /\ goes (below g) s s'.
Proof using All.
  induction g as [|x i c IHc k IHk]; intros s f a pre d Hinv Hk Hd Hh.
  { exists s; cbn [strip turns Nat.add below]; rewrite fapp_Leaf in *; split; [reflexivity|].
    rewrite (set_kids_id _ _ _ Hk) by apply Hinv; split; [exact Hinv|apply goes_nil]. }
  cbn [height] in Hh; pose proof (height_nonneg k); pose proof (height_nonneg c).
  destruct (child_facts f a pre x i c k (inv_nodup _ _ Hinv) Hk) as (_ & Hkx & Hch).
  (* the rest, after the children of [x] *)
  assert (Hrest : forall s1 f1, ns_inv s1 f1 -> kids f1 a = Some (fapp pre (N x i Leaf k)) -> exists s',
    (forall fuel, deinit_loop (turns k + fuel) a x d s1 = deinit_loop fuel a (last_of (fapp pre (N x i c k))) d s') /\
    ns_inv s' (set_kids a (fapp pre (N x i Leaf (strip k))) f1) /\ goes (below k) s1 s').
  { intros s1 f1 H1 Hk1; destruct (IHk s1 f1 a (fapp pre (N x i Leaf Leaf)) d H1) as (s' & E' & I' & G');
      [rewrite fapp_assoc; exact Hk1|lia|lia|].
    rewrite !fapp_assoc in *; rewrite last_of_fapp in E' by discriminate.
    exists s'; split; [|split; [exact I'|exact G']]; intros fuel; rewrite last_of_fapp by discriminate.
    change (last_of (N x i c k)) with (last_of (N x i Leaf k)).
    rewrite <- (last_of_fapp pre (N x i Leaf k)) by discriminate; apply E'. }
  assert (Estep : forall fuel, _) by (intros fuel; exact (enter_spec s f a pre x i c k d fuel Hinv Hk Hd)).
  cbn [strip below]; destruct c as [|y j cc ck].
  { destruct (Hrest s f Hinv Hk) as (s' & E' & I' & G'); exists s'; split; [|split; [exact I'|exact G']].
    intros fuel; cbn [turns Nat.add]; rewrite Estep; apply E'. }
  set (c := N y j cc ck) in *.
  destruct (IHc s f x Leaf (d + 1) Hinv Hkx ltac:(lia) ltac:(lia)) as (s1 & E1 & I1 & G1); cbn [fapp] in E1, I1.
  destruct (leave_spec s1 _ x c a (d + 1) I1) as (s2 & E2 & I2 & G2); [|lia| |].
  { eapply kids_set_kids_same; [exact Hkx|apply Hinv]. }
  { rewrite set_kids_twice by apply Hinv; intros s' I'; eapply sibling_parent; [exact I'|apply Hch|apply Hch]. }
  rewrite set_kids_twice in I2 by apply Hinv.
  destruct (Hrest s2 _ I2 (proj1 (Hch Leaf))) as (s' & E' & I' & G'); rewrite (proj2 (proj2 (Hch Leaf))) in I'.
  exists s'; split; [|split; [exact I'|exact (goes_trans _ _ _ _ _ (goes_all c _ _ _ G1 G2) G')]]; intros fuel.
  change (turns (N x i c k)) with (1 + (turns c + 1) + turns k)%nat.
  replace (1 + (turns c + 1) + turns k + fuel)%nat with (S (turns c + S (turns k + fuel))) by lia.
  rewrite Estep, wrap_id by (unfold in_w; lia).
  change 0 with (last_of Leaf) at 1; rewrite E1, E2; replace (d + 1 - 1) with d by lia; apply E'.
Qed.

(** The whole loop. *)
Lemma deinit_loop_empties s ri c : ns_inv s (N uacpi_namespace_root ri c Leaf) -> 1 + height c < 2 ^ 32 ->
  exists s', deinit_loop (2 * size (nodes s)) uacpi_namespace_root 0 1 s = Some (tt, s') /\
    ns_inv s' (N uacpi_namespace_root ri Leaf Leaf) /\ goes (addrs c) s s'.
Proof using All.
  intros Hinv Hh; set (f := N uacpi_namespace_root ri c Leaf) in *.
  assert (Hk : kids f uacpi_namespace_root = Some (fapp Leaf c)) by (cbn; rewrite Z.eqb_refl; reflexivity).
  destruct (deinit_walk c s f _ Leaf 1 Hinv Hk ltac:(lia) Hh) as (s1 & E1 & I1 & G1); cbn [fapp] in E1, I1, Hk.
  destruct (leave_spec s1 _ uacpi_namespace_root c 0 1 I1) as (s2 & E2 & I2 & G2); [|lia| |].
  { eapply kids_set_kids_same; [exact Hk|apply Hinv]. }
  { intros s' [Hr _ _ _]; cbn in Hr; rewrite !Z.eqb_refl in Hr; cbn in Hr; rewrite Z.eqb_refl in Hr.
    destruct Hr as (_ & (n & Hn & _ & Hp & _) & _); exists n; auto. }
  rewrite set_kids_twice in I2 by apply Hinv; cbn in I2; rewrite Z.eqb_refl in I2.
  exists s2; split; [|split; [exact I2|exact (goes_all _ _ _ _ G1 G2)]].
  pose proof (forest_size _ _ _ (inv_rep _ _ Hinv) (inv_nodup _ _ Hinv)) as Hsz; pose proof (turns_bound c) as Ht.
  unfold f in Hsz; cbn [addrs] in Hsz; rewrite app_nil_r in Hsz; cbn [length] in Hsz.
  replace (2 * size (nodes s))%nat with (turns c + S (2 * size (nodes s) - turns c - 1))%nat by lia.
  change 0 with (last_of Leaf) at 1; rewrite E1, E2.
  destruct (2 * size (nodes s) - turns c - 1)%nat; reflexivity.
Qed.
End Deinit.

Definition total {S A} (c : SM S A) : Prop := forall s, exists a s', c s = Some (a, s').

(** What shutting down needs of the rest of the library: calls return, and giving up an
    object or a handler puts no node back into the tree. *)
Record total_env {W} `{NamespaceLock W, Objects W} : Prop := {
  total_write_lock : total (uacpi_namespace_write_lock (W := W));
  total_write_unlock : total (uacpi_namespace_write_unlock (W := W));
  total_lock_deinit : total (uacpi_namespace_lock_deinit (W := W));
  total_root_object : total (root_object (W := W));
  total_set_root : forall o, total (set_root_object (W := W) o);
  total_mutex : total (global_lock_mutex_ptr (W := W));
  total_set_mutex : forall m, total (set_global_lock_mutex (W := W) m);
  total_mutex_unref : forall m, total (uacpi_mutex_unref (W := W) m);
  unref_keeps_gone : forall o, keeps_gone (W := W) (uacpi_object_unref o);
  handler_keeps_gone : forall a, keeps_gone (W := W) (uacpi_opregion_uninstall_handler a)
}.
Arguments total_env W {_ _}.

Lemma total_in_world {W A} (c : SM W A) (s : ns W) : total c -> exists a w, in_world c s = Some (a, with_world w s).
Proof. intros H; destruct (H (world s)) as (a & w & E); exists a, w; apply run_world, E. Qed.

(** Run the next operation of the environment. *)
Ltac next_op H :=
  match goal with |- exists _ _, mbind _ (in_world ?c) ?s = _ /\ _ =>
    let a := fresh "a" in let w := fresh "w" in let E := fresh "E" in
    destruct (total_in_world c s H) as (a & w & E); erewrite SM_bind_Some by exact E; clear E
  end.

Lemma free_predefined {W} (s : ns W) a n : nodes s !! a = Some n -> has_flag NODE_PREDEFINED n = true ->
  exists s', free_namespace_node a s = Some (tt, s') /\
    nodes s' !! a = Some {| shareable_count := shareable_count n; name := name n; flags := NODE_PREDEFINED;
      object := 0; parent := 0; child := 0; next := 0 |}.
Proof.
  intros Hn Hp; unfold free_namespace_node, uacpi_namespace_node_is_predefined.
  erewrite SM_bind_Some by (erewrite SM_bind_Some by (apply get_node_at, Hn); reflexivity); rewrite Hp; cbn [negb].
  do 4 (erewrite SM_bind_Some by (apply update_node_at; cbn [nodes with_nodes]; rewrite ?lookup_insert_eq;
    first [exact Hn|reflexivity])).
  erewrite update_node_at by (cbn [nodes with_nodes]; apply lookup_insert_eq).
  eexists; split; [reflexivity|]; cbn [nodes with_nodes]; rewrite lookup_insert_eq; reflexivity.
Qed.

(** What follows the loop. *)
Definition closing {W} `{NamespaceLock W, Objects W} (ret : uacpi_status) : SM (ns W) unit :=
  namespace_node_detach_object uacpi_namespace_root;;
  free_namespace_node uacpi_namespace_root;;
  (if is_ok ret then in_world uacpi_namespace_write_unlock;; mret tt else mret tt);;
  root ← in_world root_object;
  uacpi_object_unref root;;
  in_world (set_root_object 0);;
  m ← in_world global_lock_mutex_ptr;
  in_world (uacpi_mutex_unref m);;
  in_world (set_global_lock_mutex 0);;
  in_world uacpi_namespace_lock_deinit;;
  mret tt.

Lemma closing_keeps_gone {W} `{NL : NamespaceLock W, OBJ : Objects W} ret : total_env W -> keeps_gone (W := W) (closing ret).
Proof.
  intros T; unfold closing.
  apply gone_bind; [apply gone_detach; apply T|]; intros _; apply gone_bind; [apply free_gone|]; intros _.
  apply gone_bind; [destruct (is_ok ret); [apply gone_bind; [apply gone_in_world|intros _; apply gone_ret]|apply gone_ret]|]; intros _.
  apply gone_bind; [apply gone_in_world|]; intros o; apply gone_bind; [apply T|]; intros _.
  repeat (apply gone_bind; [apply gone_in_world|]; intros ?); apply gone_ret.
Qed.

Lemma closing_resets {W} `{NL : NamespaceLock W, OBJ : Objects W, OL : !ObjectLaws W} (s : ns W) ret ri :
  total_env W -> ns_inv s (N uacpi_namespace_root ri Leaf Leaf) -> negb (Z.land (i_flags ri) NODE_PREDEFINED =? 0) = true ->
  exists s' rc, closing ret s = Some (tt, s') /\
    nodes s' !! uacpi_namespace_root = Some {| shareable_count := rc; name := i_name ri; flags := NODE_PREDEFINED;
      object := 0; parent := 0; child := 0; next := 0 |}.
Proof.
  intros T [(_ & (n & Hn & Hi & Hp & Hc & Hx) & _) _ (Hd & _) _] Hpre; unfold closing.
  destruct (detach_object_spec s uacpi_namespace_root n) as (s3 & rc & o & E3 & _ & Hn3);
    [discriminate|exact Hn|rewrite Hi; exact Hd|].
  erewrite SM_bind_Some by exact E3.
  destruct (free_predefined s3 uacpi_namespace_root _ Hn3) as (s4 & E4 & Hn4).
  { change (negb (Z.land (i_flags (info_of n)) NODE_PREDEFINED =? 0) = true); rewrite Hi; exact Hpre. }
  erewrite SM_bind_Some by exact E4.
  assert (exists w5, (if is_ok ret then in_world uacpi_namespace_write_unlock;; mret tt else mret tt) s4 =
    Some (tt, with_world w5 s4)) as (w5 & E5).
  { destruct (is_ok ret); [|exists (world s4); destruct s4; reflexivity].
    destruct (total_in_world _ s4 (total_write_unlock T)) as (u & w & E); exists w.
    erewrite SM_bind_Some by exact E; reflexivity. }
  erewrite SM_bind_Some by exact E5; next_op (total_root_object T).
  match goal with |- exists _ _, mbind _ (uacpi_object_unref ?o) ?s = _ /\ _ =>
    destruct (unref_quiet o s) as (s6 & E6 & Q6) end.
  erewrite SM_bind_Some by exact E6; edestruct (Q6 _ _ Hn4 eq_refl _ Hn4) as [rc6 Hn6].
  next_op (total_set_root T 0); next_op (total_mutex T).
  match goal with |- exists _ _, mbind _ (in_world (uacpi_mutex_unref ?m)) _ = _ /\ _ =>
    next_op (total_mutex_unref T m) end.
  next_op (total_set_mutex T 0); next_op (total_lock_deinit T).
  eexists _, rc6; split; [reflexivity|]; cbn [nodes with_world]; rewrite Hn6; unfold Namespace.set_count; cbn.
  change (name n) with (i_name (info_of n)); rewrite Hi; reflexivity.
Qed.

(** C24.  Shutting the namespace down terminates and empties the tree: every node that was in
    it has been uninstalled (it is freed; or marked as dangling, when someone still refers
    to it; or, for a predefined node, back in its first state), which the code allows only
    for a node that has no children any more, and the root is as before initialisation.
    The tree is any that fits the depth counter, and calls to the rest of the library return. *)
Theorem deinitialize_namespace_empties {W} `{NL : NamespaceLock W, OBJ : Objects W, OL : !ObjectLaws W} (s : ns W) ri c :
  total_env W -> ns_inv s (N uacpi_namespace_root ri c Leaf) -> 1 + height c < 2 ^ 32 ->
  negb (Z.land (i_flags ri) NODE_PREDEFINED =? 0) = true ->
  exists s' rc, uacpi_deinitialize_namespace s = Some (tt, s') /\ (forall a, In a (addrs c) -> gone (nodes s') a) /\
    nodes s' !! uacpi_namespace_root = Some {| shareable_count := rc; name := i_name ri; flags := NODE_PREDEFINED;
      object := 0; parent := 0; child := 0; next := 0 |}.
Proof.
  intros T Hinv Hh Hpre; change (uacpi_deinitialize_namespace (W := W)) with
    (ret ← in_world uacpi_namespace_write_lock; fuel ← gets_state (fun s : ns W => 2 * size (nodes s))%nat; deinit_loop fuel uacpi_namespace_root 0 1;; closing ret).
  destruct (total_in_world uacpi_namespace_write_lock s (total_write_lock T)) as (ret & w1 & E1).
  erewrite SM_bind_Some by exact E1; erewrite SM_bind_Some by reflexivity.
  destruct (deinit_loop_empties (unref_keeps_gone T) (handler_keeps_gone T) (with_world w1 s) ri c) as (s2 & E2 & I2 & G2 & _); [destruct Hinv; split; assumption|exact Hh|].
  erewrite SM_bind_Some by exact E2; destruct (closing_resets s2 ret ri T I2 Hpre) as (s' & rc & E & Hr).
  exists s', rc; split; [exact E|split; [|exact Hr]]; intros a Ha; exact (closing_keeps_gone ret T _ _ _ _ E (G2 a Ha)).
Qed.

(** ** Starting up *)

(** The predefined nodes are there with their names, not linked to anything. *)
Definition static_node (which : uacpi_predefined_namespace) (n : namespace_node) : Prop :=
  name n = predefined_name which /\ flags n = NODE_PREDEFINED /\ parent n = 0 /\ child n = 0 /\ next n = 0.

Definition static {W} (s : ns W) : Prop := forall which, exists n,
  nodes s !! predefined which = Some n /\ static_node which n.

Lemma predefined_inj a b : predefined a = predefined b -> a = b.
Proof. destruct a, b; intros H; reflexivity || discriminate H. Qed.

Class TotalCreate (W : Type) `{NamespaceLock W, Objects W} : Prop := {
  total_lock_init : total (uacpi_namespace_lock_init (W := W));
  total_create_object : forall t, total (uacpi_create_object (W := W) t);
  total_create_reference : forall k o, total (uacpi_create_internal_reference (W := W) k o);
  total_alloc : forall n, total (kernel_alloc (W := W) n);
  total_text : forall o t, total (object_set_text (W := W) o t);
  total_size : forall o t, total (object_set_size (W := W) o t);
  total_integer : forall o t, total (object_set_integer (W := W) o t);
  total_method : forall o t, total (object_set_native_method (W := W) o t);
  total_memcpy : forall p t, total (uacpi_memcpy_text (W := W) p t);
  total_object_mutex : forall o, total (object_mutex (W := W) o);
  total_mutex_ref : forall m, total (uacpi_mutex_ref (W := W) m);
  total_set_root' : forall o, total (set_root_object (W := W) o);
  total_set_mutex' : forall m, total (set_global_lock_mutex (W := W) m)
}.

Create HintDb okay discriminated.

Section Startup.
Context {W : Type} {NL : NamespaceLock W} {OBJ : Objects W} {OL : ObjectLaws W} {TC : TotalCreate W}.

(** [c] returns and keeps the predefined nodes as they are, but for counts and objects. *)
Definition okay {A} (c : SM (ns W) A) : Prop := forall s, static s -> exists a s', c s = Some (a, s') /\ static s'.

Lemma okay_ret {A} (a : A) : okay (mret a).
Proof. intros s Hs; exists a, s; auto. Qed.

Lemma okay_bind {A B} (c : SM (ns W) A) (k : A -> SM (ns W) B) : okay c -> (forall a, okay (k a)) -> okay (mbind k c).
Proof.
  intros Hc Hk s Hs; destruct (Hc s Hs) as (a & s1 & E1 & H1); destruct (Hk a s1 H1) as (b & s2 & E2 & H2).
  exists b, s2; split; [erewrite SM_bind_Some by exact E1; exact E2|exact H2].
Qed.

Lemma okay_if {A} (b : bool) (c d : SM (ns W) A) : okay c -> okay d -> okay (if b then c else d).
Proof. destruct b; auto. Qed.

Lemma okay_world {A} (c : SM W A) : total c -> okay (in_world c).
Proof. intros H s Hs; destruct (total_in_world c s H) as (a & w & E); exists a, (with_world w s); auto. Qed.

Lemma okay_unref o : okay (uacpi_object_unref o).
Proof.
  intros s Hs; destruct (unref_quiet o s) as (s' & E & Q); exists tt, s'; split; [exact E|].
  intros which; destruct (Hs which) as (n & Hn & Hst); pose proof Hst as (_ & Hf & _).
  destruct (Q _ _ Hn) with (n := n) as [rc Hn']; [unfold is_dangling, info_of; cbn [i_flags]; rewrite Hf; reflexivity|exact Hn|].
  exists (Namespace.set_count rc n); split; [exact Hn'|exact Hst].
Qed.

Lemma static_insert (s : ns W) which n : static s -> static_node which n ->
  static (with_nodes (<[predefined which := n]> (nodes s)) s).
Proof.
  intros Hs Hn w; cbn [nodes with_nodes]; destruct (decide (predefined which = predefined w)) as [E|E].
  - apply predefined_inj in E as ->; exists n; rewrite lookup_insert_eq; auto.
  - rewrite lookup_insert_ne by exact E; apply Hs.
Qed.

Lemma okay_object which o : okay (update_node (predefined which) (set_object o)).
Proof.
  intros s Hs; destruct (Hs which) as (n & Hn & Hst); eexists tt, _; split; [apply update_node_at, Hn|].
  apply static_insert; [exact Hs|exact Hst].
Qed.

Lemma okay_init which : okay (on_count (predefined which) uacpi_shareable_init).
Proof.
  intros s Hs; destruct (Hs which) as (n & Hn & Hst); unfold on_count; eexists _, _; split.
  { erewrite SM_bind_Some by (apply get_node_at, Hn); reflexivity. }
  apply static_insert; [exact Hs|exact Hst].
Qed.

#[local] Hint Resolve okay_ret okay_bind okay_if okay_world okay_unref okay_object okay_init : okay.
#[local] Hint Resolve total_create_object total_create_reference total_alloc total_text total_size
  total_integer total_method total_memcpy total_object_mutex total_mutex_ref total_set_root' total_set_mutex' : okay.

Ltac okay_tac := repeat first [apply okay_object | apply okay_init | apply okay_bind; [|intros ?] | apply okay_if]; eauto with okay.

Lemma okay_make which : okay (make_object_for_predefined which).
Proof. destruct which; cbn [make_object_for_predefined]; okay_tac. Qed.

Lemma okay_create l : okay (create_predefined l).
Proof.
  induction l as [|which l IH]; cbn [create_predefined]; [eauto with okay|].
  pose proof (okay_make which); okay_tac.
Qed.

(** The names of a list of siblings. *)
Fixpoint names (f : forest) : list (list Z) :=
  match f with Leaf => [] | N _ i _ k => i_name i :: names k end.

Lemma names_fapp f g : names (fapp f g) = names f ++ names g.
Proof. induction f as [|a i c _ k IH]; cbn; [reflexivity|rewrite IH; reflexivity]. Qed.

Definition attached (no_osi : bool) (which : uacpi_predefined_namespace) : bool :=
  negb (match which with OSI => no_osi | _ => false end).

(** The nodes of [l] still wait to be installed. *)
Definition waiting (s : ns W) (f : forest) (l : list uacpi_predefined_namespace) : Prop := forall which, In which l ->
  ~ In (predefined which) (addrs f) /\ exists n, nodes s !! predefined which = Some n /\ static_node which n.

Lemma install_predefined_spec l : forall (s : ns W) ri c, ns_inv s (N uacpi_namespace_root ri c Leaf) ->
  waiting s (N uacpi_namespace_root ri c Leaf) l -> List.NoDup l ->
  exists s' c', install_predefined l s = Some (tt, s') /\ ns_inv s' (N uacpi_namespace_root ri c' Leaf) /\
    names c' = names c ++ map predefined_name (List.filter (attached (flag_no_osi (world s))) l).
Proof.
  induction l as [|which l IH]; intros s ri c Hinv Hw Hnd; cbn [install_predefined].
  { exists s, c; split; [reflexivity|split; [exact Hinv|]]; cbn; rewrite app_nil_r; reflexivity. }
  apply NoDup_cons_iff in Hnd as [Hwl Hnd]; erewrite SM_bind_Some by reflexivity; cbn [List.filter].
  destruct (Hw which (or_introl eq_refl)) as (Hnew & n & Hn & Hname & Hf & Hp & Hc & Hx).
  unfold attached at 1; destruct (match which with OSI => _ | _ => _ end); cbn [negb].
  { erewrite SM_bind_Some by reflexivity; apply IH; [exact Hinv| |exact Hnd].
    intros w Hin; apply Hw; right; exact Hin. }
  set (f := N uacpi_namespace_root ri c Leaf) in *.
  assert (Hk : kids f uacpi_namespace_root = Some c) by (cbn; rewrite Z.eqb_refl; reflexivity).
  destruct (node_install_spec s f _ c (predefined which) n Hinv Hk Hn) as (s1 & E1 & Hw1 & I1 & Ho);
    [destruct which; discriminate|exact Hnew|exact Hc|exact Hx|unfold is_dangling, info_of; cbn [i_flags]; rewrite Hf; reflexivity|].
  erewrite SM_bind_Some by (erewrite SM_bind_Some by exact E1; reflexivity).
  cbn [f set_kids] in I1; rewrite Z.eqb_refl in I1.
  destruct (IH s1 ri _ I1) as (s' & c' & E' & I' & Hnames); [|exact Hnd|].
  - intros w Hin; destruct (Hw w (or_intror Hin)) as (Hneww & nw & Hnw & Hst).
    assert (Hne : predefined w <> predefined which) by (intros E; apply predefined_inj in E as ->; tauto).
    split; [|exists nw; rewrite Ho by assumption; auto].
    intros Hin'; apply Hneww; cbn [f addrs] in *; rewrite app_nil_r in *; destruct Hin' as [->|Hin']; [left; reflexivity|].
    right; eapply Permutation_in in Hin'; [|apply addrs_fapp]; apply in_app_or in Hin' as [H|[H|[]]]; [exact H|].
    destruct (Hne (eq_sym H)).
  - exists s', c'; split; [exact E'|split; [exact I'|]].
    rewrite Hnames, names_fapp, Hw1, <- app_assoc; cbn [names map app info_of i_name]; rewrite Hname; reflexivity.
Qed.
End Startup.

(** Initialisation returns; when it reports success the namespace is a
    well-formed tree: the root with the predefined scopes and objects as children, in
    the order of the specification, [_OSI] only when the host has not disabled it. *)
Theorem initialize_namespace_inv {W} `{NL : NamespaceLock W, OBJ : Objects W, OL : !ObjectLaws W, TC : !TotalCreate W}
    (s : ns W) : static s -> exists st s', uacpi_initialize_namespace s = Some (st, s') /\
  (st = UACPI_STATUS_OK -> exists ri c no_osi, ns_inv s' (N uacpi_namespace_root ri c Leaf) /\
    i_name ri = predefined_name ROOT /\
    names c = map predefined_name (List.filter (attached no_osi) [GPE; PR; SB; SI; TZ; GL; OS; OSI; REV])).
Proof.
  intros Hs; unfold uacpi_initialize_namespace.
  destruct (okay_world uacpi_namespace_lock_init total_lock_init s Hs) as (r1 & s1 & E1 & H1).
  erewrite SM_bind_Some by exact E1; destruct (is_ok r1) eqn:Er; cbn [negb].
  2:{ exists r1, s1; split; [reflexivity|]; intros ->; discriminate. }
  destruct (okay_create all_predefined s1 H1) as (r2 & s2 & E2 & H2).
  erewrite SM_bind_Some by exact E2; destruct (is_ok r2) eqn:Er2; cbn [negb].
  2:{ exists r2, s2; split; [reflexivity|]; intros ->; discriminate. }
  destruct (H2 ROOT) as (n & Hn & Hname & Hf & Hp & Hc & Hx).
  destruct (install_predefined_spec (tail all_predefined) s2 (info_of n) Leaf) as (s3 & c & E3 & I3 & Hnames).
  - split; [|repeat constructor; tauto| |eexists _, _; reflexivity].
    + split; [discriminate|split; [|split; exact I]]; exists n; auto.
    + cbn [all_nodes]; split; [unfold is_dangling, info_of; cbn [i_flags]; rewrite Hf; reflexivity|auto].
  - intros which Hin; split; [|apply H2]; cbn [addrs app In]; intros [E|[]].
    apply predefined_inj in E; subst which; cbn in Hin; intuition discriminate.
  - cbn; repeat (constructor; [cbn; intuition discriminate|]); constructor.
  - erewrite SM_bind_Some by exact E3; exists UACPI_STATUS_OK, s3; split; [reflexivity|]; intros _.
    exists (info_of n), c, (flag_no_osi (world s2)); split; [exact I3|split; [exact Hname|exact Hnames]].
Qed.
