(* ===== verification/NsPath.v ===== *)
(** * acpi/uacpi/namespace.c: names and paths

    Finding nodes by path, the search through the enclosing scopes, and the absolute
    path of a node, which leads back to it. *)

From S2P Require Import Prelude UCore Namespace NsTree.

Open Scope word_scope.

(** ** Finding a child *)

Fixpoint find_name (f : forest) (nm : list Z) : Z :=
  match f with
  | Leaf => 0
  | N a i _ k => if bool_decide (i_name i = nm) then a else find_name k nm
  end.

(** No two siblings have the same name. *)
Fixpoint unique_names (f : forest) : Prop :=
  match f with
  | Leaf => True
  | N _ i c k => ~ In (i_name i) (names k) /\ unique_names c /\ unique_names k
  end.

Lemma sibling_name f a i c : sibling f a = Some (i, c) -> In (i_name i) (names f).
Proof.
  induction f as [|b j fc _ k IH]; cbn [sibling names In]; [discriminate|].
  destruct (b =? a); [intros [= -> _]; auto|auto].
Qed.

Lemma find_name_sibling f a i c : unique_names f -> sibling f a = Some (i, c) -> find_name f (i_name i) = a.
Proof.
  induction f as [|b j fc _ k IH]; cbn [sibling find_name unique_names]; [discriminate|].
  intros (Hj & _ & Hk) H; destruct (Z.eqb_spec b a) as [->|].
  - injection H as -> ->; rewrite bool_decide_true by reflexivity; reflexivity.
  - rewrite bool_decide_false; [auto|]; intros E; apply Hj; rewrite E; eapply sibling_name, H.
Qed.

Section Lookup.
Context {W : Type} {NL : NamespaceLock W} {OBJ : Objects W}.
Implicit Types s : ns W.

Lemma find_sibling_spec f par nm : forall s fuel, rep (nodes s) par f -> (length (addrs f) < fuel)%nat ->
  find_sibling fuel (ptr f) nm s = Some (find_name f nm, s).
Proof.
  induction f as [|a i c _ k IH]; intros s [|fuel] Hr Hf; cbn [find_sibling ptr find_name]; try (cbn in Hf; lia);
    [reflexivity|].
  destruct Hr as (Ha & (n & Hn & Hi & _ & _ & Hx) & _ & Hrk); cbn [addrs length] in Hf; rewrite length_app in Hf.
  rewrite (proj2 (Z.eqb_neq _ _) Ha); erewrite SM_bind_Some by (apply get_node_at, Hn).
  rewrite <- Hi; change (i_name (info_of n)) with (name n); rewrite Hx.
  destruct (bool_decide (name n = nm)); [reflexivity|]; apply IH; [exact Hrk|lia].
Qed.

Lemma find_sub_node_spec s f p c nm : ns_inv s f -> kids f p = Some c ->
  uacpi_namespace_node_find_sub_node p nm s = Some (find_name c nm, s).
Proof.
  intros [Hr Hnd _ _] Hk; destruct (kids_rep _ _ _ _ _ Hr Hk) as (Hp & Hrc & n & Hn & Hc).
  unfold uacpi_namespace_node_find_sub_node; rewrite (proj2 (Z.eqb_neq _ _) Hp).
  erewrite SM_bind_Some by (apply get_node_at, Hn); erewrite SM_bind_Some by reflexivity; rewrite Hc.
  eapply find_sibling_spec; [exact Hrc|]; pose proof (forest_size _ _ _ Hrc (kids_NoDup _ _ _ Hk Hnd)); lia.
Qed.

(** ** Trails: the nodes from below the root to a node *)

Fixpoint trail (f : forest) (q : Z) : option (list (Z * info)) :=
  match f with
  | Leaf => None
  | N a i c k =>
      if a =? q then Some [(a, i)] else
      match trail c q with Some l => Some ((a, i) :: l) | None => trail k q end
  end.

Lemma trail_In f q l : trail f q = Some l -> In q (addrs f) /\ l <> [] /\ forall x, In x l -> In (fst x) (addrs f).
Proof.
  revert l; induction f as [|a i c IHc k IHk]; intros l; cbn [trail addrs In]; [discriminate|].
  destruct (Z.eqb_spec a q) as [->|].
  { intros [= <-]; split; [auto|split; [discriminate|]]; intros x [<-|[]]; auto. }
  destruct (trail c q) as [l'|].
  - intros [= <-]; destruct (IHc _ eq_refl) as (H1 & H2 & H3); split; [right; apply in_or_app; auto|].
    split; [discriminate|]; intros x [<-|Hx]; [auto|right; apply in_or_app; auto].
  - intros H; destruct (IHk _ H) as (H1 & H2 & H3); split; [right; apply in_or_app; auto|].
    split; [exact H2|]; intros x Hx; right; apply in_or_app; auto.
Qed.

(** The first node of a trail is a sibling, and the rest leads on below it. *)
Lemma trail_cons f q a i l : List.NoDup (addrs f) -> trail f q = Some ((a, i) :: l) ->
  exists c, sibling f a = Some (i, c) /\ ((l = [] /\ a = q) \/ trail c q = Some l).
Proof.
  intros Hnd; induction f as [|b j c _ k IH]; cbn [trail sibling]; [discriminate|].
  destruct (addrs_N_NoDup _ _ _ _ Hnd) as (_ & Hbk & _ & Hnk & _).
  destruct (Z.eqb_spec b q) as [->|].
  { intros [= -> -> <-]; rewrite Z.eqb_refl; exists c; auto. }
  destruct (trail c q) as [l'|] eqn:E.
  { intros [= -> -> <-]; rewrite Z.eqb_refl; exists c; auto. }
  intros H; destruct (Z.eqb_spec b a) as [->|]; [|auto].
  destruct (trail_In _ _ _ H) as (_ & _ & Hin); destruct (Hbk (Hin _ (or_introl eq_refl))).
Qed.

(** ** Paths *)

(** A name as AML has it: four bytes, none of which ends a segment or a string. *)
Definition good_name (nm : list Z) : Prop :=
  length nm = 4%nat /\ Forall (fun c => c <> DOT /\ c <> 0) nm.

(** The names separated by dots. *)
Fixpoint join (l : list (list Z)) : list Z :=
  match l with [] => [] | [nm] => nm | nm :: l' => nm ++ DOT :: join l' end.

Lemma segment_good n nm rest : length nm = n -> Forall (fun c => c <> DOT /\ c <> 0) nm ->
  segment_to_name n (nm ++ rest) = (nm, rest).
Proof.
  revert nm; induction n as [|n IH]; intros [|c nm]; cbn [length segment_to_name app]; try discriminate; [reflexivity|].
  intros [= Hl] Hf; apply Forall_cons in Hf as [[Hc _] Hf].
  rewrite (proj2 (Z.eqb_neq _ _) Hc), (IH nm Hl Hf); reflexivity.
Qed.

Lemma unique_sibling f a i c : unique_names f -> sibling f a = Some (i, c) -> unique_names c.
Proof.
  induction f as [|b j bc _ k IH]; cbn [sibling unique_names]; [discriminate|]; intros (_ & Hc & Hk).
  destruct (b =? a); [intros [= _ ->]; exact Hc|exact (IH Hk)].
Qed.

(** Following names from [p]. *)
Lemma resolve_segments_trail l : forall s f p c q par may single fuel,
  ns_inv s f -> kids f p = Some c -> unique_names c -> trail c q = Some l ->
  Forall (fun x => good_name (i_name (snd x))) l ->
  forall dot : bool, (length l <= fuel)%nat ->
  resolve_segments fuel may par p ((if dot then [DOT] else []) ++ join (map (fun x => i_name (snd x)) l)) single s =
  Some (q, s).
Proof.
  induction l as [|[a i] l IH]; intros s f p c q par may single fuel Hinv Hk Hu Ht Hg dot Hf.
  { destruct (trail_In _ _ _ Ht) as (_ & H & _); congruence. }
  pose proof (kids_NoDup _ _ _ Hk (inv_nodup _ _ Hinv)) as Hndc.
  destruct (trail_cons _ _ _ _ _ Hndc Ht) as (cc & Hs & Hl).
  apply Forall_cons in Hg as [[Hlen Hgood] Hg]; cbn [snd] in *.
  destruct fuel as [|fuel]; [cbn in Hf; lia|].
  set (rest := match l with [] => [] | _ => DOT :: join (map (fun x => i_name (snd x)) l) end).
  assert (Hj : join (map (fun x => i_name (snd x)) ((a, i) :: l)) = i_name i ++ rest)
    by (unfold rest; destruct l; cbn [map join snd]; [rewrite app_nil_r|]; reflexivity).
  rewrite Hj; pose proof (segment_good 4 (i_name i) rest Hlen Hgood) as Hseg.
  assert (Hstep : resolve_segments (S fuel) may par p ((if dot then [DOT] else []) ++ i_name i ++ rest) single s =
    resolve_segments fuel may par a rest (single && bool_decide (rest = [])) s).
  { destruct (i_name i) as [|c0 nm] eqn:Enm; [discriminate|].
    assert (Hc0 : (c0 =? DOT) = false) by (apply Forall_cons in Hgood as [[H _] _]; apply Z.eqb_neq, H).
    assert (Hsub : uacpi_namespace_node_find_sub_node p (c0 :: nm) s = Some (a, s)).
    { rewrite (find_sub_node_spec s f p c _ Hinv Hk), <- Enm, (find_name_sibling _ _ _ _ Hu Hs); reflexivity. }
    assert (Ha : (a =? 0) = false).
    { destruct (kids_rep _ _ _ _ _ (inv_rep _ _ Hinv) Hk) as (_ & Hrc & _).
      apply Z.eqb_neq; apply (sibling_rep _ _ _ _ _ _ Hrc Hs). }
    destruct dot; cbn [app resolve_segments]; change (DOT =? DOT) with true; rewrite ?Hc0; cbv iota;
      change (c0 :: nm ++ rest) with ((c0 :: nm) ++ rest); rewrite Hseg;
      erewrite SM_bind_Some by exact Hsub; rewrite Ha; reflexivity. }
  rewrite Hstep; unfold rest; destruct Hl as [[-> ->]|Hl]; [destruct fuel; reflexivity|].
  destruct l as [|x l']; [destruct (trail_In _ _ _ Hl) as (_ & H & _); congruence|].
  change (DOT :: join _) with ([DOT] ++ join (map (fun y => i_name (snd y)) (x :: l'))).
  apply (IH s f a cc q par may _ fuel) with (dot := true); try assumption; [| |cbn in *; lia].
  - eapply kids_trans; [apply Hinv|exact Hk|eapply kids_of_sibling; eassumption].
  - eapply unique_sibling; eassumption.
Qed.

(** ** Upwards *)

(** Each node of the list is the parent of the next, the first is a child of [par]. *)
Fixpoint linked (h : heap) (par : Z) (l : list (Z * info)) : Prop :=
  match l with
  | [] => True
  | (a, i) :: l' => (exists n, h !! a = Some n /\ info_of n = i /\ parent n = par) /\ linked h a l'
  end.

Definition end_of (par : Z) (l : list (Z * info)) : Z := match last l with Some x => fst x | None => par end.

Lemma linked_snoc h par l a i : linked h par (l ++ [(a, i)]) ->
  linked h par l /\ exists n, h !! a = Some n /\ info_of n = i /\ parent n = end_of par l.
Proof.
  revert par; induction l as [|[b j] l IH]; intros par; cbn [app linked].
  { intros [H _]; split; [exact I|exact H]. }
  intros [Hb Hl]; destruct (IH b Hl) as [H1 H2]; split; [split; assumption|].
  assert (E : end_of par ((b, j) :: l) = end_of b l); [|rewrite E; exact H2].
  unfold end_of; rewrite last_cons; destruct (last l); reflexivity.
Qed.

Lemma end_of_snoc par l a i : end_of par (l ++ [(a, i)]) = a.
Proof. unfold end_of; rewrite last_snoc; reflexivity. Qed.

Lemma trail_linked h par f q l : rep h par f -> trail f q = Some l -> linked h par l /\ end_of par l = q.
Proof.
  revert par l; induction f as [|a i c IHc k IHk]; intros par l; cbn [rep trail]; [discriminate|].
  intros (_ & (n & Hn & Hi & Hp & _) & Hrc & Hrk); destruct (Z.eqb_spec a q) as [->|].
  { intros [= <-]; split; [cbn; split; [exists n; auto|exact I]|reflexivity]. }
  destruct (trail c q) as [l'|] eqn:E; [|apply IHk; exact Hrk].
  intros [= <-]; destruct (IHc a l' Hrc eq_refl) as [H1 H2].
  split; [split; [exists n; auto|exact H1]|].
  rewrite <- H2; unfold end_of; rewrite last_cons; destruct (last l'); reflexivity.
Qed.

Section Root.
Variables (s : ns W) (nroot : namespace_node).
Hypotheses (Hroot : nodes s !! uacpi_namespace_root = Some nroot) (Hrp : parent nroot = 0).

Definition ok_trail (l : list (Z * info)) : Prop :=
  linked (nodes s) uacpi_namespace_root l /\ Forall (fun x => fst x <> 0 /\ fst x <> uacpi_namespace_root) l.

Lemma ok_trail_snoc l a i : ok_trail (l ++ [(a, i)]) -> ok_trail l /\ a <> uacpi_namespace_root /\
  (exists n, nodes s !! a = Some n /\ info_of n = i /\ parent n = end_of uacpi_namespace_root l) /\
  end_of uacpi_namespace_root l <> 0 /\ (l <> [] -> end_of uacpi_namespace_root l <> uacpi_namespace_root).
Proof.
  intros [Hl Hf]; apply linked_snoc in Hl as [Hl Hn]; apply Forall_app in Hf as [Hf1 Hf2].
  apply Forall_cons in Hf2 as [[_ Ha] _]; split; [split; assumption|split; [exact Ha|split; [exact Hn|]]].
  unfold end_of; destruct (last l) as [x|] eqn:E.
  - apply last_Some_elem_of, list_elem_of_In in E; rewrite Forall_forall in Hf1.
    destruct (Hf1 x) as [H1 H2]; [apply list_elem_of_In; exact E|]; auto.
  - apply last_None in E as ->; split; [discriminate|congruence].
Qed.

Lemma depth_loop_spec l : ok_trail l -> forall fuel d, (length l < fuel)%nat -> 0 <= d ->
  d + Z.of_nat (length l) < 2 ^ 64 ->
  depth_loop fuel (end_of uacpi_namespace_root l) d s = Some (d + Z.of_nat (length l), s).
Proof.
  induction l as [|[a i] l IH] using rev_ind; intros Hok [|fuel] d Hf Hd Hb; try lia; cbn [depth_loop].
  { cbn [end_of last]; erewrite SM_bind_Some by (apply get_node_at, Hroot); rewrite Hrp; cbn.
    rewrite Z.add_0_r; reflexivity. }
  destruct (ok_trail_snoc _ _ _ Hok) as (Hok' & _ & (n & Hn & _ & Hp) & Hne & _).
  rewrite end_of_snoc; erewrite SM_bind_Some by (apply get_node_at, Hn); rewrite Hp, (proj2 (Z.eqb_neq _ _) Hne).
  rewrite length_app in *; cbn [length] in *; rewrite wrap_id by (unfold in_w; lia).
  rewrite IH by (try assumption; lia); do 2 f_equal; lia.
Qed.

Lemma store_spec xs ys zs b off : length ys = length b -> off = Z.of_nat (length xs) ->
  store (xs ++ ys ++ zs) off b s = Some (xs ++ b ++ zs, s).
Proof.
  intros Hl ->; unfold store; rewrite !length_app.
  destruct (Z.leb_spec 0 (Z.of_nat (length xs))), (Z.leb_spec (Z.of_nat (length xs) + Z.of_nat (length b))
    (Z.of_nat (length xs + (length ys + length zs)))); try lia; cbn [andb].
  rewrite Nat2Z.id, take_app_length, <- Hl, drop_app_add, drop_app_length; reflexivity.
Qed.

Lemma join_snoc l nm : join (l ++ [nm]) = match l with [] => nm | _ => join l ++ DOT :: nm end.
Proof.
  induction l as [|x l IH]; [reflexivity|]; destruct l as [|y l]; [reflexivity|].
  change (join ((x :: y :: l) ++ [nm])) with (x ++ DOT :: join ((y :: l) ++ [nm])); rewrite IH.
  change (join (x :: y :: l)) with (x ++ DOT :: join (y :: l)); rewrite <- app_assoc; reflexivity.
Qed.

Abbreviation path_of l := (join (map (fun x : Z * info => i_name (snd x)) l)).

Lemma path_loop_spec l : ok_trail l -> Forall (fun x => length (i_name (snd x)) = 4%nat) l ->
  forall fuel b mid suf, (length l <= fuel)%nat -> length mid = length (path_of l) ->
  1 + Z.of_nat (length mid) < 2 ^ 64 ->
  path_loop fuel (b :: mid ++ suf) (1 + Z.of_nat (length mid)) (end_of uacpi_namespace_root l) s =
  Some (b :: path_of l ++ suf, s).
Proof.
  induction l as [|[a i] l IH] using rev_ind; intros Hok Hg fuel b mid suf Hf Hl Hb.
  { destruct mid; [|discriminate]; destruct fuel; reflexivity. }
  destruct (ok_trail_snoc _ _ _ Hok) as (Hok' & Har & (n & Hn & Hi & Hp) & _ & Hend).
  apply Forall_app in Hg as [Hg Hnm]; apply Forall_cons in Hnm as [Hnm _]; cbn [snd] in Hnm.
  rewrite length_app in Hf; cbn [length] in Hf; destruct fuel as [|fuel]; [lia|].
  rewrite end_of_snoc; cbn [path_loop]; rewrite (proj2 (Z.eqb_neq _ _) Har).
  erewrite SM_bind_Some by (apply get_node_at, Hn).
  rewrite map_app in *; cbn [map snd] in *; rewrite join_snoc in *.
  change (name n) with (i_name (info_of n)); rewrite Hi, Hp; destruct l as [|y l].
  - assert (Hm : length mid = 4%nat) by (rewrite Hl; exact Hnm).
    rewrite (wrap_id 64 (1 + Z.of_nat (length mid) - 4)) by (unfold in_w; lia).
    erewrite SM_bind_Some by (apply (store_spec [b] mid suf); [exact Hl|cbn; lia]).
    cbn [end_of last]; rewrite Z.eqb_refl; cbn [negb]; destruct fuel; reflexivity.
  - change (match map _ (y :: l) with [] => i_name i | _ => _ end) with (path_of (y :: l) ++ DOT :: i_name i) in *.
    rewrite length_app in Hl; cbn [length] in Hl.
    destruct (lookup_lt_is_Some_2 mid (length (path_of (y :: l))) ltac:(lia)) as [x Hx].
    destruct (list_elem_of_split_length _ _ _ Hx) as (m1 & m3 & -> & Hm1); rewrite length_app in *; cbn [length] in *.
    rewrite (wrap_id 64 (1 + Z.of_nat (length m1 + S (length m3)) - 4)) by (unfold in_w; lia).
    rewrite (wrap_id 64 (1 + Z.of_nat (length m1 + S (length m3)) - 4 - 1)) by (unfold in_w; lia).
    replace (b :: (m1 ++ x :: m3) ++ suf) with ((b :: m1 ++ [x]) ++ m3 ++ suf)
      by (cbn; rewrite <- !app_assoc; reflexivity).
    erewrite SM_bind_Some by (apply store_spec; [lia|cbn; rewrite length_app; cbn; lia]).
    rewrite (proj2 (Z.eqb_neq _ _) (Hend ltac:(discriminate))); cbn [negb].
    replace ((b :: m1 ++ [x]) ++ i_name i ++ suf) with ((b :: m1) ++ [x] ++ i_name i ++ suf)
      by (cbn; rewrite <- !app_assoc; reflexivity).
    erewrite SM_bind_Some by (apply store_spec; [reflexivity|cbn; lia]).
    replace (1 + Z.of_nat (length m1 + S (length m3)) - 4 - 1) with (1 + Z.of_nat (length m1)) by lia.
    change ((b :: m1) ++ [DOT] ++ i_name i ++ suf) with (b :: m1 ++ (DOT :: i_name i ++ suf)).
    rewrite IH by (assumption || lia); rewrite <- app_assoc; reflexivity.
Qed.
End Root.

Lemma path_length l : Forall (fun x : Z * info => length (i_name (snd x)) = 4%nat) l -> l <> [] ->
  Z.of_nat (length (join (map (fun x => i_name (snd x)) l))) = 5 * Z.of_nat (length l) - 1.
Proof.
  induction l as [|x l IH]; [congruence|]; intros Hf _; apply Forall_cons in Hf as [Hx Hf].
  destruct l as [|y l]; [cbn [map join length]; rewrite Hx; reflexivity|].
  specialize (IH Hf ltac:(discriminate)); change (join (map _ (x :: y :: l)))
    with (i_name (snd x) ++ DOT :: join (map (fun x => i_name (snd x)) (y :: l))).
  rewrite length_app; cbn [length] in *; lia.
Qed.

(** The trail as the upward walk needs it. *)
Lemma trail_ok s ri c q l : ns_inv s (N uacpi_namespace_root ri c Leaf) -> trail c q = Some l ->
  ok_trail s l /\ end_of uacpi_namespace_root l = q /\
  exists n, nodes s !! uacpi_namespace_root = Some n /\ parent n = 0.
Proof.
  intros [(_ & (n & Hn & _ & Hp & _) & Hrc & _) Hnd _ _] Ht.
  destruct (trail_linked _ _ _ _ _ Hrc Ht) as [Hl He]; destruct (trail_In _ _ _ Ht) as (_ & _ & Hin).
  destruct (addrs_N_NoDup _ _ _ _ Hnd) as (Hrootc & _); split; [split; [exact Hl|]|split; [exact He|exists n; auto]].
  apply Forall_forall; intros x Hx; apply list_elem_of_In in Hx; specialize (Hin x Hx).
  split; [eapply rep_in; eassumption|intros E; apply Hrootc; rewrite <- E; exact Hin].
Qed.

(** The length of a walk up is bounded by the number of nodes. *)
Lemma trail_length f q l : trail f q = Some l -> (length l <= length (addrs f))%nat.
Proof.
  revert l; induction f as [|a i c IHc k IHk]; intros l; cbn [trail addrs length]; [discriminate|].
  rewrite length_app; destruct (a =? q); [intros [= <-]; cbn; lia|].
  destruct (trail c q) as [l'|]; [intros [= <-]; specialize (IHc _ eq_refl); cbn; lia|].
  intros H; specialize (IHk _ H); lia.
Qed.

(** Writing the path into the buffer. *)
Lemma write_path_spec s w l q buf : ok_trail s l -> end_of uacpi_namespace_root l = q ->
  Forall (fun x => length (i_name (snd x)) = 4%nat) l -> (length l <= size (nodes s))%nat ->
  Z.of_nat (length buf) = 2 + Z.of_nat (length (join (map (fun x => i_name (snd x)) l))) ->
  1 + Z.of_nat (length (join (map (fun x => i_name (snd x)) l))) < 2 ^ 64 ->
  (path ← store buf 0 [BACKSLASH];
   path ← store path (1 + Z.of_nat (length (join (map (fun x => i_name (snd x)) l)))) [0];
   fuel ← walk_fuel;
   path ← path_loop fuel path (1 + Z.of_nat (length (join (map (fun x => i_name (snd x)) l)))) q;
   mret (Some path)) (with_world w s) =
  Some (Some (BACKSLASH :: join (map (fun x => i_name (snd x)) l) ++ [0]), with_world w s).
Proof.
  intros Hok <- Hg Hsz Hb H64; set (n := length (join (map (fun x => i_name (snd x)) l))) in *.
  destruct buf as [|b0 rest]; [cbn in Hb; lia|].
  destruct (exists_last (l := rest)) as (mid & z & ->); [intros ->; cbn in Hb; lia|].
  cbn [length] in Hb; rewrite length_app in Hb; cbn [length] in Hb.
  assert (Hm : length mid = n) by lia.
  erewrite SM_bind_Some by (apply (store_spec (with_world w s) [] [b0] (mid ++ [z])); reflexivity).
  erewrite SM_bind_Some by (apply (store_spec (with_world w s) (BACKSLASH :: mid) [z] []);
    [reflexivity|cbn [length]; lia]).
  erewrite SM_bind_Some by reflexivity.
  erewrite SM_bind_Some; [reflexivity|]; rewrite <- Hm.
  change ((BACKSLASH :: mid) ++ [0] ++ []) with (BACKSLASH :: mid ++ [0]).
  apply (path_loop_spec (with_world w s)); [exact Hok|exact Hg|cbn [nodes with_world]; lia|exact Hm|lia].
Qed.

Lemma generate_path_spec s ri c q l : ns_inv s (N uacpi_namespace_root ri c Leaf) -> trail c q = Some l ->
  Forall (fun x => length (i_name (snd x)) = 4%nat) l -> Z.of_nat (length l) < 2 ^ 32 ->
  (forall n w, 0 <= n -> exists buf w', kernel_alloc_path n w = Some (Some buf, w') /\ Z.of_nat (length buf) = n) ->
  exists w', uacpi_namespace_node_generate_absolute_path q s =
    Some (Some (BACKSLASH :: join (map (fun x => i_name (snd x)) l) ++ [0]), with_world w' s).
Proof.
  intros Hinv Ht Hg Hlen Halloc; destruct (trail_ok s ri c q l Hinv Ht) as (Hok & He & nr & Hnr & Hpr).
  destruct (trail_In _ _ _ Ht) as (_ & Hne & _); pose proof (path_length l Hg Hne) as Hpl.
  assert (Hsz : (length l <= size (nodes s))%nat).
  { pose proof (trail_length _ _ _ Ht); pose proof (forest_size _ _ _ (inv_rep _ _ Hinv) (inv_nodup _ _ Hinv)) as H0.
    cbn [addrs] in H0; rewrite app_nil_r in H0; cbn [length] in H0; lia. }
  unfold uacpi_namespace_node_generate_absolute_path, uacpi_namespace_node_depth.
  erewrite SM_bind_Some by (erewrite SM_bind_Some by reflexivity; rewrite <- He;
    apply depth_loop_spec with (nroot := nr); [exact Hnr|exact Hpr|exact Hok|lia|lia|lia]).
  set (k := Z.of_nat (length l)) in *; assert (Hk : 0 < k) by (destruct l; [congruence|cbn in k; lia]).
  rewrite Z.add_0_l, (wrap_id 64 (k + 1)) by (unfold in_w; lia).
  replace (k + 1 - 1) with k by lia; rewrite (wrap_id 64 (k * 4)) by (unfold in_w; lia).
  rewrite (wrap_id 64 (1 + k * 4)) by (unfold in_w; lia).
  replace (if 2 <? k + 1 then k + 1 - 2 else 0) with (k - 1) by (destruct (Z.ltb_spec 2 (k + 1)); lia).
  rewrite (wrap_id 64 (1 + k * 4 + (k - 1))) by (unfold in_w; lia).
  rewrite (wrap_id 64 (1 + k * 4 + (k - 1) + 1)) by (unfold in_w; lia).
  set (need := 1 + k * 4 + (k - 1) + 1); destruct (Halloc need (world s)) as (buf & w' & Ea & Hbuf); [unfold need; lia|].
  erewrite SM_bind_Some by (apply run_world, Ea); exists w'.
  replace (need - 1) with (1 + Z.of_nat (length (join (map (fun x => i_name (snd x)) l)))) by (unfold need; lia).
  apply write_path_spec; [exact Hok|exact He|exact Hg|exact Hsz|unfold need in *; lia|lia].
Qed.

(** ** The search through the enclosing scopes *)

Fixpoint first_hit (f : forest) (scopes : list Z) (nm : list Z) : Z :=
  match scopes with
  | [] => 0
  | p :: scopes' =>
      let q := find_name (default Leaf (kids f p)) nm in
      if q =? 0 then first_hit f scopes' nm else q
  end.

(** The scopes that enclose the end of a trail from the root, innermost first. *)
Definition scopes (l : list (Z * info)) : list Z := rev (map fst l) ++ [uacpi_namespace_root].

Lemma scopes_snoc l a i : scopes (l ++ [(a, i)]) = a :: scopes l.
Proof. unfold scopes; rewrite map_app, rev_app_distr; reflexivity. Qed.

Lemma kids_exists f p : In p (addrs f) -> exists c, kids f p = Some c.
Proof.
  induction f as [|a i c IHc k IHk]; cbn [addrs kids In]; [tauto|]; intros H.
  destruct (Z.eqb_spec a p); [eauto|]; destruct H as [->|H]; [congruence|].
  destruct (kids c p) as [r|] eqn:E; [eauto|]; apply in_app_or in H as [H|H]; [|auto].
  destruct (IHc H); discriminate.
Qed.

Lemma find_sub_node_In s f p nm : ns_inv s f -> In p (addrs f) ->
  uacpi_namespace_node_find_sub_node p nm s = Some (find_name (default Leaf (kids f p)) nm, s).
Proof.
  intros Hinv Hp; destruct (kids_exists f p Hp) as [c Hc]; rewrite Hc; apply (find_sub_node_spec s f p c nm Hinv Hc).
Qed.

Lemma search_above_spec s f nroot nm l : ns_inv s f ->
  nodes s !! uacpi_namespace_root = Some nroot -> parent nroot = 0 ->
  ok_trail s l -> Forall (fun x => In (fst x) (addrs f)) l ->
  forall fuel, (length l + 1 < fuel)%nat ->
  search_above fuel (end_of uacpi_namespace_root l) nm s = Some (first_hit f (scopes l) nm, s).
Proof.
  intros Hinv Hn0 Hp0; induction l as [|[a i] l IH] using rev_ind; intros Hok Hin [|fuel] Hf; try lia.
  - cbn [end_of last search_above]; change (uacpi_namespace_root =? 0) with false; cbv iota.
    destruct (inv_root _ _ Hinv) as (ri & c & Ef).
    erewrite SM_bind_Some by (apply (find_sub_node_In s f); [exact Hinv|rewrite Ef; left; reflexivity]).
    cbn [scopes map rev app first_hit]; destruct (find_name _ nm =? 0) eqn:E; cbn [negb]; [|reflexivity].
    erewrite SM_bind_Some by (apply get_node_at, Hn0); rewrite Hp0.
    destruct fuel; [cbn in Hf; lia|reflexivity].
  - destruct (ok_trail_snoc _ _ _ _ Hok) as (Hok' & Har & (n & Hn & Hi & Hp) & _).
    apply Forall_app in Hin as [Hin Ha]; apply Forall_cons in Ha as [Ha _]; cbn [fst] in Ha.
    rewrite end_of_snoc, scopes_snoc; cbn [search_above first_hit].
    destruct (rep_in _ _ _ _ (inv_rep _ _ Hinv) Ha) as [Ha0 _]; rewrite (proj2 (Z.eqb_neq _ _) Ha0).
    erewrite SM_bind_Some by (apply (find_sub_node_In s f); assumption).
    destruct (find_name _ nm =? 0); cbn [negb]; [|reflexivity].
    erewrite SM_bind_Some by (apply get_node_at, Hn); rewrite Hp; apply IH; [exact Hok'|exact Hin|].
    rewrite length_app in Hf; cbn [length] in Hf; lia.
Qed.

(** What the caller gets for the node that was found, 0 for none. *)
Definition answer (s : ns W) (permanent_only : bool) (q : Z) : uacpi_status * Z :=
  if q =? 0 then (UACPI_STATUS_NOT_FOUND, 0) else
  match nodes s !! q with
  | Some n => if has_flag FLAG_TEMPORARY n && permanent_only then (UACPI_STATUS_DENIED, 0) else (UACPI_STATUS_OK, q)
  | None => (UACPI_STATUS_INTERNAL_ERROR, 0)
  end.

Lemma answer_run s f perm q : ns_inv s f -> q = 0 \/ In q (addrs f) ->
  (if q =? 0 then mret (UACPI_STATUS_NOT_FOUND, 0) else
   t ← uacpi_namespace_node_is_temporary q;
   if (t : bool) && perm then mret (UACPI_STATUS_DENIED, 0) else mret (UACPI_STATUS_OK, q)) s =
  Some (answer s perm q, s).
Proof.
  intros Hinv Hq; unfold answer; destruct (Z.eqb_spec q 0) as [->|Hq0]; [reflexivity|].
  destruct Hq as [|Hq]; [congruence|]; destruct (rep_in _ _ _ _ (inv_rep _ _ Hinv) Hq) as [_ [n Hn]].
  rewrite Hn; unfold uacpi_namespace_node_is_temporary.
  erewrite SM_bind_Some by (erewrite SM_bind_Some by (apply get_node_at, Hn); reflexivity).
  destruct (has_flag FLAG_TEMPORARY n && perm); reflexivity.
Qed.

Lemma find_name_In f nm : find_name f nm = 0 \/ In (find_name f nm) (addrs f).
Proof.
  induction f as [|a i c _ k IH]; cbn [find_name addrs]; [auto|].
  destruct (bool_decide _); [right; left; reflexivity|].
  destruct IH as [IH|IH]; [auto|right; right; apply in_or_app; auto].
Qed.

Lemma first_hit_In f ps nm : first_hit f ps nm = 0 \/ In (first_hit f ps nm) (addrs f).
Proof.
  induction ps as [|p ps IH]; cbn [first_hit]; [auto|]; destruct (_ =? 0) eqn:E; [exact IH|].
  destruct (kids f p) as [c|] eqn:Ek; cbn [default] in *; [|discriminate].
  destruct (find_name_In c nm) as [H|H]; [auto|right]; apply (kids_incl _ _ _ Ek); exact H.
Qed.

(** A path of one name without prefix. *)
Lemma single_name_prefix nm p s : good_name nm -> hd 0 nm <> BACKSLASH -> hd 0 nm <> CARET ->
  resolve_prefix nm p 0 true s = Some ((UACPI_STATUS_OK, (p, nm, true)), s).
Proof.
  destruct nm as [|c nm]; intros [Hl _]; [discriminate|]; cbn [hd resolve_prefix]; intros H1 H2.
  rewrite (proj2 (Z.eqb_neq _ _) H1), (proj2 (Z.eqb_neq _ _) H2); reflexivity.
Qed.

Lemma resolve_name_spec s ri c p l nm may perm : ns_inv s (N uacpi_namespace_root ri c Leaf) ->
  (p = uacpi_namespace_root /\ l = [] \/ trail c p = Some l) ->
  good_name nm -> hd 0 nm <> BACKSLASH -> hd 0 nm <> CARET ->
  uacpi_namespace_node_resolve p nm false may perm s =
  Some (answer s perm (first_hit (N uacpi_namespace_root ri c Leaf) (if may then scopes l else [p]) nm), s).
Proof.
  intros Hinv Hl Hg Hb Hc; set (f := N uacpi_namespace_root ri c Leaf) in *.
  assert (Hpin : In p (addrs f)).
  { unfold f; cbn [addrs In]; destruct Hl as [[-> _]|Hl]; [auto|right; apply in_or_app; left; eapply trail_In, Hl]. }
  destruct (rep_in _ _ _ _ (inv_rep _ _ Hinv) Hpin) as [Hp0 [np Hnp]].
  unfold uacpi_namespace_node_resolve; erewrite SM_bind_Some by reflexivity; cbn [is_ok negb].
  enough (E : resolve_body p nm may perm s = Some (answer s perm (first_hit f (if may then scopes l else [p]) nm), s))
    by (erewrite SM_bind_Some by exact E; reflexivity).
  unfold resolve_body; rewrite (proj2 (Z.eqb_neq _ _) Hp0).
  erewrite SM_bind_Some by (apply single_name_prefix; assumption); cbn [is_ok negb].
  erewrite SM_bind_Some; [apply (answer_run s f perm); [exact Hinv|apply first_hit_In]|].
  destruct Hg as [Hlen Hgood]; pose proof (segment_good 4 nm [] Hlen Hgood) as Hseg; rewrite app_nil_r in Hseg.
  destruct nm as [|c0 nm]; [discriminate|]; cbn [length resolve_segments].
  rewrite (proj2 (Z.eqb_neq c0 DOT)) by (apply Forall_cons in Hgood as [[H _] _]; exact H).
  rewrite Hseg; rewrite (bool_decide_true ([] = [])) by reflexivity; cbn [andb].
  erewrite SM_bind_Some by (apply (find_sub_node_In s f); assumption).
  destruct (find_name (default Leaf (kids f p)) (c0 :: nm) =? 0) eqn:E0.
  2:{ replace (first_hit f (if may then scopes l else [p]) (c0 :: nm))
        with (find_name (default Leaf (kids f p)) (c0 :: nm)); [destruct (length nm); reflexivity|].
      destruct may; [|cbn [first_hit]; rewrite E0; reflexivity].
      destruct Hl as [[-> ->]|Hl]; [cbn [scopes map rev app first_hit]; rewrite E0; reflexivity|].
      destruct (trail_ok s ri c p l Hinv Hl) as (_ & He & _).
      destruct l as [|[a i] l _] using rev_ind; [destruct (trail_In _ _ _ Hl) as (_ & H & _); congruence|].
      rewrite end_of_snoc in He; rewrite scopes_snoc, He; cbn [first_hit]; rewrite E0; reflexivity. }
  destruct may; cbn [negb orb]; [|cbn [first_hit]; rewrite E0; reflexivity].
  erewrite SM_bind_Some by (apply get_node_at, Hnp); erewrite SM_bind_Some by reflexivity.
  destruct (inv_rep _ _ Hinv) as (_ & (nr & Hnr & _ & Hpr & _) & _).
  destruct Hl as [[-> ->]|Hl].
  { rewrite Hnr in Hnp; injection Hnp as <-; rewrite Hpr; cbn [scopes map rev app first_hit]; rewrite E0; reflexivity. }
  destruct (trail_ok s ri c p l Hinv Hl) as (Hok & He & _).
  pose proof (trail_length _ _ _ Hl) as Hlen'; destruct (trail_In _ _ _ Hl) as (_ & Hne & Hall).
  destruct l as [|[a i] l _] using rev_ind; [congruence|].
  destruct (ok_trail_snoc _ _ _ _ Hok) as (Hok' & _ & (n & Hn & _ & Hpn) & _).
  rewrite end_of_snoc in He; subst a; rewrite Hn in Hnp; injection Hnp as <-.
  rewrite Hpn, scopes_snoc; cbn [first_hit]; rewrite E0.
  apply search_above_spec with (nroot := nr); try assumption.
  - apply Forall_forall; intros x Hx; apply list_elem_of_In in Hx; right; apply in_or_app; left; apply Hall.
    apply in_or_app; left; exact Hx.
  - pose proof (forest_size _ _ _ (inv_rep _ _ Hinv) (inv_nodup _ _ Hinv)) as Hsz.
    unfold f in Hsz; cbn [addrs] in Hsz; rewrite app_nil_r in Hsz; rewrite length_app in Hlen'; cbn [length] in *; lia.
Qed.
End Lookup.

Lemma join_clean l : Forall good_name l -> ~ In 0 (join l).
Proof.
  induction l as [|nm l IH]; [tauto|]; intros H; apply Forall_cons in H as [[_ Hn] Hl]; rewrite Forall_forall in Hn.
  assert (H0 : ~ In 0 nm) by (intros Hin; apply list_elem_of_In, Hn in Hin as [_ H0]; congruence).
  destruct l as [|nm' l]; [exact H0|]; change (join (nm :: nm' :: l)) with (nm ++ DOT :: join (nm' :: l)).
  intros Hin; apply in_app_or in Hin as [Hin|[Hin|Hin]]; [auto|discriminate|exact (IH Hl Hin)].
Qed.

Section RoundTrip.
Context {W : Type} {NL : NamespaceLock W} {OBJ : Objects W}.
Implicit Types s : ns W.

Lemma resolve_absolute s ri c q l par may perm : ns_inv s (N uacpi_namespace_root ri c Leaf) -> unique_names c ->
  trail c q = Some l -> Forall (fun x => good_name (i_name (snd x))) l ->
  uacpi_namespace_node_resolve par (BACKSLASH :: join (map (fun x => i_name (snd x)) l)) false may perm s =
  Some (answer s perm q, s).
Proof.
  intros Hinv Hu Ht Hg; unfold uacpi_namespace_node_resolve; erewrite SM_bind_Some by reflexivity; cbn [is_ok negb].
  set (path := join _).
  enough (E : resolve_body par (BACKSLASH :: path) may perm s = Some (answer s perm q, s))
    by (erewrite SM_bind_Some by exact E; reflexivity).
  unfold resolve_body; cbn [resolve_prefix]; change (BACKSLASH =? BACKSLASH) with true; cbv iota.
  erewrite SM_bind_Some by reflexivity; cbn [is_ok negb].
  assert (Hlen : (length l <= length path)%nat).
  { destruct (trail_In _ _ _ Ht) as (_ & Hne & _).
    pose proof (path_length l ltac:(eapply Forall_impl; [exact Hg|intros x [H _]; exact H]) Hne) as H; fold path in H.
    destruct l; [congruence|]; cbn [length] in *; lia. }
  erewrite SM_bind_Some by (apply (resolve_segments_trail l s _ uacpi_namespace_root c q par may false _ Hinv
    eq_refl Hu Ht Hg false Hlen)).
  eapply answer_run; [exact Hinv|right; right; apply in_or_app; left; eapply trail_In, Ht].
Qed.
End RoundTrip.

(** The absolute path of a node is the names on the way to it after a backslash,
    separated by dots and terminated, and resolving it from any scope finds that
    node again. *)
Theorem absolute_path_roundtrip {W} `{NL : NamespaceLock W, OBJ : Objects W} (s : ns W) ri c q l scope may perm :
  ns_inv s (N uacpi_namespace_root ri c Leaf) -> unique_names c -> trail c q = Some l ->
  Forall (fun x => good_name (i_name (snd x))) l -> Z.of_nat (length l) < 2 ^ 32 ->
  (forall n w, 0 <= n -> exists buf w', kernel_alloc_path n w = Some (Some buf, w') /\ Z.of_nat (length buf) = n) ->
  exists path w', uacpi_namespace_node_generate_absolute_path q s = Some (Some (path ++ [0]), with_world w' s) /\
    path = BACKSLASH :: join (map (fun x => i_name (snd x)) l) /\ ~ In 0 path /\
    uacpi_namespace_node_resolve scope path false may perm (with_world w' s) = Some (answer s perm q, with_world w' s).
Proof.
  intros Hinv Hu Ht Hg Hlen Ha.
  destruct (generate_path_spec s ri c q l Hinv Ht) as (w' & E); [|exact Hlen|exact Ha|].
  { eapply Forall_impl; [exact Hg|intros x [H _]; exact H]. }
  exists (BACKSLASH :: join (map (fun x => i_name (snd x)) l)), w'; split; [exact E|split; [reflexivity|split]].
  - intros [H|H]; [discriminate|]; revert H; apply join_clean, Forall_map; exact Hg.
  - apply (resolve_absolute (with_world w' s) ri c q l); try assumption; destruct Hinv; split; assumption.
Qed.

(** A plain name is looked up among the children of the scope; when searching
    upwards is allowed, the scopes that enclose it follow, innermost first, up to the
    root, and the first that has a child of that name gives the answer.  A temporary
    node is denied to callers that want permanent ones. *)
Theorem name_search_rule {W} `{NL : NamespaceLock W, OBJ : Objects W} (s : ns W) ri c p l nm may perm :
  ns_inv s (N uacpi_namespace_root ri c Leaf) ->
  (p = uacpi_namespace_root /\ l = [] \/ trail c p = Some l) ->
  good_name nm -> hd 0 nm <> BACKSLASH -> hd 0 nm <> CARET ->
  uacpi_namespace_node_resolve p nm false may perm s =
  Some (answer s perm (first_hit (N uacpi_namespace_root ri c Leaf) (if may then scopes l else [p]) nm), s).
Proof. apply resolve_name_spec. Qed.
