(* ===== verification/NsDemo.v ===== *)
(** * acpi/uacpi/namespace.c on concrete trees

    The theorems on the namespace applied to a small tree, and what the code does where
    it departs from its intent. *)

From S2P Require Import Prelude UCore Shareable Mutex RwLock Namespace NsTree NsPath.

Open Scope word_scope.

Module Demo.

(** Objects that exist and never fail; the world is anything. *)
Definition objects (W : Type) : Objects W := {|
  Namespace.init_level := fun _ => 1;
  flag_no_osi := fun _ => false;
  kernel_alloc_node := fun s => Some (0x5000, s);
  kernel_alloc := fun _ => mret 0x7000;
  kernel_alloc_path := fun n => mret (Some (repeat 0 (Z.to_nat n)));
  uacpi_memcpy_text := fun _ _ => mret tt;
  uacpi_unwrap_internal_reference := fun o => mret o;
  object_type := fun _ => mret OBJECT_DEVICE;
  uacpi_create_object := fun _ => mret 0x8000;
  uacpi_create_internal_reference := fun _ _ => mret 0x8000;
  uacpi_object_ref := fun _ => mret tt;
  uacpi_object_unref := fun _ => mret tt;
  object_set_text := fun _ _ => mret tt;
  object_set_size := fun _ _ => mret tt;
  object_set_integer := fun _ _ => mret tt;
  object_set_native_method := fun _ _ => mret tt;
  object_mutex := fun _ => mret 0x9000;
  uacpi_mutex_ref := fun _ => mret tt;
  uacpi_mutex_unref := fun _ => mret tt;
  root_object := mret 0x8000;
  set_root_object := fun _ => mret tt;
  global_lock_mutex_ptr := mret 0x9000;
  set_global_lock_mutex := fun _ => mret tt;
  uacpi_opregion_uninstall_handler := fun _ => mret tt |}.

(** The world of the walks: the calls that the callback has seen. *)
Definition log : Type := list (Z * Z).

#[local] Instance free_lock : NamespaceLock log := {|
  uacpi_namespace_lock_init := mret UACPI_STATUS_OK;
  uacpi_namespace_lock_deinit := mret UACPI_STATUS_OK;
  uacpi_namespace_read_lock := mret UACPI_STATUS_OK;
  uacpi_namespace_read_unlock := mret UACPI_STATUS_OK;
  uacpi_namespace_write_lock := mret UACPI_STATUS_OK;
  uacpi_namespace_write_unlock := mret UACPI_STATUS_OK |}.

#[local] Instance log_objects : Objects log := objects log.

#[local] Instance log_laws : ObjectLaws log.
Proof.
  split; intros; eexists; try (eexists; reflexivity);
    (split; [reflexivity|intros ? ? ? ?; apply agree_eq; reflexivity]).
Qed.

Lemma log_env : total_env log.
Proof. split; intros; first [apply gone_ret|intros w; eexists _, _; reflexivity]. Qed.

#[local] Instance log_create : TotalCreate log.
Proof. split; intros; intros w; eexists _, _; reflexivity. Qed.

(** [\] with [\_SB_], that with [DEV0] and the temporary [TMP0]. *)
Definition DEV0 : list Z := [68; 69; 86; 48].
Definition TMP0 : list Z := [84; 77; 80; 48].

Definition mk (nm : list Z) (fl par c k : Z) : namespace_node := {|
  shareable_count := 1; name := nm; flags := fl; object := 0x8000; parent := par; child := c; next := k |}.

Definition tree : ns log := {|
  nodes := {[ predefined ROOT := mk (predefined_name ROOT) NODE_PREDEFINED 0 (predefined SB) 0;
              predefined SB := mk (predefined_name SB) NODE_PREDEFINED (predefined ROOT) 0x5000 0;
              0x5000 := mk DEV0 0 (predefined SB) 0 0x6000;
              0x6000 := mk TMP0 FLAG_TEMPORARY (predefined SB) 0 0;
              0x7000 := mk DEV0 0 0 0 0 ]};
  world := [] |}.

Definition in_ (nm : list Z) (fl : Z) : info := {| i_name := nm; i_flags := fl; i_object := 0x8000 |}.

Definition below_sb : forest := N 0x5000 (in_ DEV0 0) Leaf (N 0x6000 (in_ TMP0 FLAG_TEMPORARY) Leaf Leaf).
Definition below_root : forest := N (predefined SB) (in_ (predefined_name SB) NODE_PREDEFINED) below_sb Leaf.
Definition whole : forest := N (predefined ROOT) (in_ (predefined_name ROOT) NODE_PREDEFINED) below_root Leaf.

Lemma tree_inv : ns_inv tree whole.
Proof.
  split.
  - cbn [rep whole below_root below_sb ptr]; repeat split; try discriminate; eexists; repeat split; vm_compute; reflexivity.
  - cbn; repeat constructor; cbn; intuition discriminate.
  - repeat split.
  - eexists _, _; reflexivity.
Qed.

Definition note : Z -> Z -> SM log Z := fun a d l => Some (CONTINUE, l ++ [(a, d)]).

Lemma note_recorder : recorder (fun l : log => l) (fun o => o = 0x8000) note.
Proof.
  split; intros; try (eexists; split; reflexivity).
  subst; split; [discriminate|]; exists 0x8000, OBJECT_DEVICE, w, w; repeat split; discriminate.
Qed.

Lemma for_each_child_refines_witness :
  uacpi_namespace_do_for_each_child (lift_cb (Some note)) (lift_cb (Some note)) OBJECT_ANY_BIT 2 true true
    (predefined ROOT) tree =
  Some (UACPI_STATUS_OK, with_world [(predefined SB, 1); (0x5000, 2); (0x5000, 2); (predefined SB, 1)] tree).
Proof.
  apply (for_each_child_refines (Some note) (Some note) OBJECT_ANY_BIT 2 true true tree whole (predefined ROOT) below_root);
    [apply tree_inv|reflexivity|split; [discriminate|reflexivity]|vm_compute; reflexivity].
Defined.

Lemma for_each_child_simple_visits_witness : exists w,
  uacpi_namespace_for_each_child_simple (predefined ROOT) (lift_cb (Some note)) tree =
    Some (UACPI_STATUS_OK, with_world w tree) /\
  w = [(predefined SB, 1); (0x5000, 2)] /\ List.NoDup (map fst (visible below_root 1)).
Proof.
  apply (for_each_child_simple_visits (fun l => l) (fun o => o = 0x8000) note tree whole (predefined ROOT) below_root);
    [apply note_recorder|apply tree_inv|reflexivity|discriminate|repeat split|reflexivity].
Defined.

Lemma install_uninstall_refine_witness :
  (exists s', uacpi_namespace_node_install (predefined SB) 0x7000 tree = Some (UACPI_STATUS_OK, s') /\
     ns_inv s' (set_kids (predefined SB) (fapp below_sb (N 0x7000 (in_ DEV0 0) Leaf Leaf)) whole)) /\
  (exists s', uacpi_namespace_node_uninstall 0x5000 tree = Some (UACPI_STATUS_OK, s') /\
     ns_inv s' (set_kids (predefined SB) (N 0x6000 (in_ TMP0 FLAG_TEMPORARY) Leaf Leaf) whole)).
Proof.
  pose proof (install_uninstall_refine tree whole (predefined SB) below_sb tree_inv eq_refl) as [Hi Hu]; split.
  - destruct (Hi 0x7000 (mk DEV0 0 0 0 0)) as (s' & E & _ & I & _);
      [reflexivity|discriminate|vm_compute; intuition discriminate|reflexivity|reflexivity|].
    exists s'; split; [exact E|exact I].
  - destruct (Hu 0x5000 (in_ DEV0 0) Leaf eq_refl) as (s' & E & I); exists s'; split; [exact E|exact I].
Defined.

Lemma deinitialize_namespace_empties_witness :
  exists s' rc, uacpi_deinitialize_namespace tree = Some (tt, s') /\ (forall a, In a (addrs below_root) -> gone (nodes s') a) /\
    nodes s' !! predefined ROOT = Some {| shareable_count := rc; name := predefined_name ROOT; flags := NODE_PREDEFINED;
      object := 0; parent := 0; child := 0; next := 0 |}.
Proof.
  apply (deinitialize_namespace_empties tree (in_ (predefined_name ROOT) NODE_PREDEFINED) below_root);
    [apply log_env|apply tree_inv|reflexivity|reflexivity].
Defined.

(** The predefined nodes as the program starts. *)
Definition boot : ns log := {|
  nodes := list_to_map (map (fun w => (predefined w, {| shareable_count := 0; name := predefined_name w;
    flags := NODE_PREDEFINED; object := 0; parent := 0; child := 0; next := 0 |})) all_predefined);
  world := [] |}.

Lemma boot_static : static boot.
Proof. intros []; eexists; (split; [vm_compute; reflexivity|repeat split]). Qed.

Lemma initialize_namespace_inv_witness : exists st s', uacpi_initialize_namespace boot = Some (st, s') /\
  (st = UACPI_STATUS_OK -> exists ri c no_osi, ns_inv s' (N uacpi_namespace_root ri c Leaf) /\
    i_name ri = predefined_name ROOT /\
    names c = map predefined_name (List.filter (attached no_osi) [GPE; PR; SB; SI; TZ; GL; OS; OSI; REV])).
Proof. apply (initialize_namespace_inv boot), boot_static. Defined.

(** [\_SB_.DEV0] *)
Lemma absolute_path_roundtrip_witness : exists path w',
  uacpi_namespace_node_generate_absolute_path 0x5000 tree = Some (Some (path ++ [0]), with_world w' tree) /\
  path = [92; 95; 83; 66; 95; 46; 68; 69; 86; 48] /\ ~ In 0 path /\
  uacpi_namespace_node_resolve 0x6000 path false false true (with_world w' tree) =
    Some ((UACPI_STATUS_OK, 0x5000), with_world w' tree).
Proof.
  apply (absolute_path_roundtrip tree (in_ (predefined_name ROOT) NODE_PREDEFINED) below_root 0x5000
    [(predefined SB, in_ (predefined_name SB) NODE_PREDEFINED); (0x5000, in_ DEV0 0)] 0x6000 false true).
  - apply tree_inv.
  - cbn; intuition discriminate.
  - reflexivity.
  - repeat constructor; discriminate.
  - reflexivity.
  - intros n w Hn; eexists _, w; split; [reflexivity|]; rewrite repeat_length; apply Z2Nat.id, Hn.
Defined.

(** From [\_SB_.DEV0] the name [DEV0] is found one scope up. *)
Lemma name_search_rule_witness :
  uacpi_namespace_node_resolve 0x5000 DEV0 false true true tree = Some ((UACPI_STATUS_OK, 0x5000), tree).
Proof.
  apply (name_search_rule tree (in_ (predefined_name ROOT) NODE_PREDEFINED) below_root 0x5000
    [(predefined SB, in_ (predefined_name SB) NODE_PREDEFINED); (0x5000, in_ DEV0 0)] DEV0 true true);
    [apply tree_inv|right; reflexivity|repeat constructor; discriminate|discriminate|discriminate].
Defined.

(** ** Departures from the intent *)

(** A walk that its callback stops with BREAK releases the read lock before the call
    and once more on the way out: with the lock of mutex.c the number of readers
    goes from 0 to 2^64 - 1. *)
#[local] Existing Instance Mutex.Demo.calm.
#[local] Instance lock_objects : Objects (lock_world (V := Z)) := objects _.

Definition locked_tree : ns (lock_world (V := Z)) := {|
  nodes := nodes tree;
  world := ({| read_mutex := 1; write_mutex := 2; num_readers := 0 |}, Mutex.Demo.s0) |}.

Theorem break_unlocks_twice : exists s',
  uacpi_namespace_for_each_child_simple (predefined ROOT) (Some (fun _ _ => mret BREAK)) locked_tree =
    Some (UACPI_STATUS_OK, s') /\ num_readers (fst (world s')) = 2 ^ 64 - 1.
Proof. eexists; split; vm_compute; reflexivity. Qed.

(** A node without an object is offered to the callback when the node before it
    matched: the variable [matches] keeps its value.  Here the walk asks for devices. *)
Definition bare : ns log := {|
  nodes := <[0x6000 := {| shareable_count := 1; name := TMP0; flags := 0; object := 0; parent := predefined SB;
                          child := 0; next := 0 |}]> (nodes tree);
  world := [] |}.

Theorem objectless_node_inherits_match :
  uacpi_namespace_for_each_child (predefined ROOT) (lift_cb (Some note)) None (2 ^ OBJECT_DEVICE) MAX_DEPTH_ANY bare =
  Some (UACPI_STATUS_OK, with_world [(predefined SB, 1); (0x5000, 2); (0x6000, 2)] bare).
Proof. vm_compute; reflexivity. Qed.

(** An AML path of one unknown name, resolved from the null scope (which stands for the
    root), reads the parent of the null scope. *)
Theorem null_scope_search_is_undefined :
  uacpi_namespace_node_resolve_from_aml_namepath 0 DEV0 tree = None.
Proof. vm_compute; reflexivity. Qed.
End Demo.
