(* ===== verification/ResTables.v ===== *)
(** * acpi/uacpi/resources.c: layouts, instructions and tables

    A device's resources exist in two forms: packed descriptors in an AML byte stream
    (the structures of acpi.h) and native structures (resources.h).  The conversion
    is driven by tables of small instructions, one program per kind of resource.
    This file holds the structures with their layout, the instruction set and the
    tables; offsets are computed from the declarations by the rules of the C ABI. *)

From Stdlib Require Import Strings.String.
From S2P Require Import Prelude.

Open Scope string_scope.
Open Scope Z_scope.

(** ** Layout of structures *)

(** A member with its size, its alignment and, for a nested structure or union, its
    own members with their offsets. *)
Record member := Mem { m_name : string; m_size : Z; m_align : Z; m_inner : list (string * Z) }.

Definition align_to (a x : Z) : Z := (x + a - 1) / a * a.

Fixpoint inner_offset (l : list (string * Z)) (base : Z) (f : string) : option Z :=
  match l with
  | [] => None
  | (g, o) :: l' => if String.eqb g f then Some (base + o) else inner_offset l' base f
  end.

(** offsetof *)
Fixpoint offset_from (l : list member) (pos : Z) (f : string) : option Z :=
  match l with
  | [] => None
  | m :: l' =>
      let at_ := align_to (m_align m) pos in
      if String.eqb (m_name m) f then Some at_ else
      match inner_offset (m_inner m) at_ f with
      | Some o => Some o
      | None => offset_from l' (at_ + m_size m) f
      end
  end.

Definition offsetof (l : list member) (f : string) : Z := default (-1) (offset_from l 0 f).

(** sizeof *)
Definition end_of_members (l : list member) : Z :=
  fold_left (fun pos m => align_to (m_align m) pos + m_size m) l 0.
Definition struct_align (l : list member) : Z := fold_left (fun a m => Z.max a (m_align m)) l 1.
Definition sizeof (l : list member) : Z := align_to (struct_align l) (end_of_members l).

(** Members of packed structures. *)
Definition packed (l : list (string * Z)) : list member := map (fun x => Mem (fst x) (snd x) 1 []) l.

(** Members with their natural alignment. *)
Definition n8 (f : string) : member := Mem f 1 1 [].
Definition n16 (f : string) : member := Mem f 2 2 [].
Definition n32 (f : string) : member := Mem f 4 4 [].
Definition n64 (f : string) : member := Mem f 8 8 [].
Definition nptr (f : string) : member := Mem f 8 8 [].
(** A flexible array member of elements of [a] bytes. *)
Definition flex (f : string) (a : Z) : member := Mem f 0 a [].

(** ** The descriptors of acpi.h *)

Definition acpi_small_item := packed [("type_and_length", 1)].
Definition acpi_large_item := packed [("type", 1); ("length", 2)].
Definition small := ("common", 1).
Definition large := ("common", 3).

Definition acpi_resource_irq := packed [small; ("irq_mask", 2); ("flags", 1)].
Definition acpi_resource_dma := packed [small; ("channel_mask", 1); ("flags", 1)].
Definition acpi_resource_start_dependent := packed [small; ("flags", 1)].
Definition acpi_resource_end_dependent := packed [small].
Definition acpi_resource_io := packed
  [small; ("information", 1); ("minimum", 2); ("maximum", 2); ("alignment", 1); ("length", 1)].
Definition acpi_resource_fixed_io := packed [small; ("address", 2); ("length", 1)].
Definition acpi_resource_fixed_dma := packed [small; ("request_line", 2); ("channel", 2); ("transfer_width", 1)].
Definition acpi_resource_vendor_defined_type0 := packed [small; ("byte_data", 0)].
Definition acpi_resource_end_tag := packed [small; ("checksum", 1)].
Definition acpi_resource_memory24 := packed
  [large; ("information", 1); ("minimum", 2); ("maximum", 2); ("alignment", 2); ("length", 2)].
Definition acpi_resource_vendor_defined_type1 := packed [large; ("byte_data", 0)].
Definition acpi_resource_memory32 := packed
  [large; ("information", 1); ("minimum", 4); ("maximum", 4); ("alignment", 4); ("length", 4)].
Definition acpi_resource_fixed_memory32 := packed [large; ("information", 1); ("address", 4); ("length", 4)].
(** struct acpi_resource_address, the common part of the address descriptors *)
Definition acpi_resource_address : list (string * Z) :=
  [large; ("common.type", 1); ("common.flags", 1); ("common.type_flags", 1)].
Definition ranges (w : Z) : list (string * Z) :=
  [("granularity", w); ("minimum", w); ("maximum", w); ("translation_offset", w); ("length", w)].
Definition acpi_resource_address64 := packed (acpi_resource_address ++ ranges 8).
Definition acpi_resource_address32 := packed (acpi_resource_address ++ ranges 4).
Definition acpi_resource_address16 := packed (acpi_resource_address ++ ranges 2).
Definition acpi_resource_address64_extended := packed
  (acpi_resource_address ++ [("revision_id", 1); ("rsvd", 1)] ++ ranges 8 ++ [("attributes", 8)]).
Definition acpi_resource_extended_irq := packed [large; ("flags", 1); ("num_irqs", 1); ("irqs", 0)].
Definition acpi_resource_generic_register := packed
  [large; ("address_space_id", 1); ("bit_width", 1); ("bit_offset", 1); ("access_size", 1); ("address", 8)].
Definition acpi_resource_gpio_connection := packed
  [large; ("revision_id", 1); ("type", 1); ("general_flags", 2); ("connection_flags", 2); ("pull_configuration", 1);
   ("drive_strength", 2); ("debounce_timeout", 2); ("pin_table_offset", 2); ("source_index", 1); ("source_offset", 2);
   ("vendor_data_offset", 2); ("vendor_data_length", 2)].
Definition acpi_resource_serial : list (string * Z) :=
  [large; ("revision_id", 1); ("source_index", 1); ("type", 1); ("flags", 1); ("type_specific_flags", 2);
   ("type_specific_revision_id", 1); ("type_data_length", 2)].
Definition acpi_resource_serial_i2c := packed (acpi_resource_serial ++ [("connection_speed", 4); ("slave_address", 2)]).
Definition acpi_resource_serial_spi := packed (acpi_resource_serial ++
  [("connection_speed", 4); ("data_bit_length", 1); ("phase", 1); ("polarity", 1); ("device_selection", 2)]).
Definition acpi_resource_serial_uart := packed (acpi_resource_serial ++
  [("baud_rate", 4); ("rx_fifo", 2); ("tx_fifo", 2); ("parity", 1); ("lines_enabled", 1)]).
Definition acpi_resource_serial_csi2 := packed acpi_resource_serial.
Definition acpi_resource_pin_function := packed
  [large; ("revision_id", 1); ("flags", 2); ("pull_configuration", 1); ("function_number", 2); ("pin_table_offset", 2);
   ("source_index", 1); ("source_offset", 2); ("vendor_data_offset", 2); ("vendor_data_length", 2)].
Definition acpi_resource_pin_configuration := packed
  [large; ("revision_id", 1); ("flags", 2); ("type", 1); ("value", 4); ("pin_table_offset", 2); ("source_index", 1);
   ("source_offset", 2); ("vendor_data_offset", 2); ("vendor_data_length", 2)].
Definition acpi_resource_pin_group := packed
  [large; ("revision_id", 1); ("flags", 2); ("pin_table_offset", 2); ("source_lable_offset", 2);
   ("vendor_data_offset", 2); ("vendor_data_length", 2)].
Definition acpi_resource_pin_group_function := packed
  [large; ("revision_id", 1); ("flags", 2); ("function", 2); ("source_index", 1); ("source_offset", 2);
   ("source_lable_offset", 2); ("vendor_data_offset", 2); ("vendor_data_length", 2)].
Definition acpi_resource_pin_group_configuration := packed
  [large; ("revision_id", 1); ("flags", 2); ("type", 1); ("value", 4); ("source_index", 1); ("source_offset", 2);
   ("source_lable_offset", 2); ("vendor_data_offset", 2); ("vendor_data_length", 2)].
Definition acpi_resource_clock_input := packed
  [large; ("revision_id", 1); ("flags", 2); ("divisor", 2); ("numerator", 4); ("source_index", 1)].

(** ** The native structures of resources.h *)

Definition uacpi_resource_source : list (string * Z) :=
  [("source.index", 0); ("source.index_present", 1); ("source.length", 2); ("source.string", 8)].
Definition source : member := Mem "source" 16 8 uacpi_resource_source.
Definition label : member := Mem "label" 16 8 [("label.length", 0); ("label.string", 8)].

Definition uacpi_resource_irq :=
  [n8 "length_kind"; n8 "triggering"; n8 "polarity"; n8 "sharing"; n8 "wake_capability"; n8 "num_irqs"; flex "irqs" 1].
Definition uacpi_resource_extended_irq :=
  [n8 "direction"; n8 "triggering"; n8 "polarity"; n8 "sharing"; n8 "wake_capability"; n8 "num_irqs"; source;
   flex "irqs" 4].
Definition uacpi_resource_dma :=
  [n8 "transfer_type"; n8 "bus_master_status"; n8 "channel_speed"; n8 "num_channels"; flex "channels" 1].
Definition uacpi_resource_fixed_dma := [n16 "request_line"; n16 "channel"; n8 "transfer_width"].
Definition uacpi_resource_io := [n8 "decode_type"; n16 "minimum"; n16 "maximum"; n8 "alignment"; n8 "length"].
Definition uacpi_resource_fixed_io := [n16 "address"; n8 "length"].
(** uacpi_address_attribute is a union. *)
Definition uacpi_resource_address_common :=
  [Mem "common.attribute" 4 1
     [("common.attribute.memory.write_status", 0); ("common.attribute.memory.caching", 1);
      ("common.attribute.memory.range_type", 2); ("common.attribute.memory.translation", 3);
      ("common.attribute.io.range_type", 0); ("common.attribute.io.translation", 1);
      ("common.attribute.io.translation_type", 2); ("common.attribute.type_specific", 0)];
   n8 "common.type"; n8 "common.direction"; n8 "common.decode_type"; n8 "common.fixed_min_address";
   n8 "common.fixed_max_address"].
Definition native_ranges (n : string -> member) :=
  [n "granularity"; n "minimum"; n "maximum"; n "translation_offset"; n "address_length"].
Definition uacpi_resource_address16 := (uacpi_resource_address_common ++ native_ranges n16 ++ [source])%list.
Definition uacpi_resource_address32 := (uacpi_resource_address_common ++ native_ranges n32 ++ [source])%list.
Definition uacpi_resource_address64 := (uacpi_resource_address_common ++ native_ranges n64 ++ [source])%list.
Definition uacpi_resource_address64_extended :=
  (uacpi_resource_address_common ++ [n8 "revision_id"] ++ native_ranges n64 ++ [n64 "attributes"])%list.
Definition uacpi_resource_memory24 :=
  [n8 "write_status"; n16 "minimum"; n16 "maximum"; n16 "alignment"; n16 "length"].
Definition uacpi_resource_memory32 :=
  [n8 "write_status"; n32 "minimum"; n32 "maximum"; n32 "alignment"; n32 "length"].
Definition uacpi_resource_fixed_memory32 := [n8 "write_status"; n32 "address"; n32 "length"].
Definition uacpi_resource_start_dependent := [n8 "length_kind"; n8 "compatibility"; n8 "performance"].
Definition uacpi_resource_vendor := [n8 "length"; flex "data" 1].
Definition uacpi_resource_generic_register :=
  [n8 "address_space_id"; n8 "bit_width"; n8 "bit_offset"; n8 "access_size"; n64 "address"].
(** The anonymous union of the connection flags. *)
Definition uacpi_resource_gpio_connection :=
  [n8 "revision_id"; n8 "type"; n8 "direction";
   Mem "" 4 2 [("interrupt.triggering", 0); ("interrupt.polarity", 1); ("interrupt.sharing", 2);
     ("interrupt.wake_capability", 3); ("io.restriction", 0); ("io.sharing", 1); ("type_specific", 0)];
   n8 "pull_configuration"; n16 "drive_strength"; n16 "debounce_timeout"; n16 "vendor_data_length";
   n16 "pin_table_length"; source; nptr "pin_table"; nptr "vendor_data"].
Definition uacpi_resource_serial_bus_common :=
  [n8 "revision_id"; n8 "type"; n8 "mode"; n8 "direction"; n8 "sharing"; n8 "type_revision_id";
   n16 "type_data_length"; n16 "vendor_data_length"; source; nptr "vendor_data"].
Definition uacpi_resource_i2c_connection :=
  (uacpi_resource_serial_bus_common ++ [n8 "addressing_mode"; n16 "slave_address"; n32 "connection_speed"])%list.
Definition uacpi_resource_spi_connection :=
  (uacpi_resource_serial_bus_common ++ [n8 "wire_mode"; n8 "device_polarity"; n8 "data_bit_length"; n8 "phase";
   n8 "polarity"; n16 "device_selection"; n32 "connection_speed"])%list.
Definition uacpi_resource_uart_connection :=
  (uacpi_resource_serial_bus_common ++ [n8 "stop_bits"; n8 "data_bits"; n8 "endianness"; n8 "parity";
   n8 "lines_enabled"; n8 "flow_control"; n32 "baud_rate"; n16 "rx_fifo"; n16 "tx_fifo"])%list.
Definition uacpi_resource_csi2_connection :=
  (uacpi_resource_serial_bus_common ++ [n8 "phy_type"; n8 "local_port"])%list.
Definition uacpi_resource_pin_function :=
  [n8 "revision_id"; n8 "sharing"; n8 "pull_configuration"; n16 "function_number"; n16 "pin_table_length";
   n16 "vendor_data_length"; source; nptr "pin_table"; nptr "vendor_data"].
Definition uacpi_resource_pin_configuration :=
  [n8 "revision_id"; n8 "sharing"; n8 "direction"; n8 "type"; n32 "value"; n16 "pin_table_length";
   n16 "vendor_data_length"; source; nptr "pin_table"; nptr "vendor_data"].
Definition uacpi_resource_pin_group :=
  [n8 "revision_id"; n8 "direction"; n16 "pin_table_length"; n16 "vendor_data_length"; label; nptr "pin_table";
   nptr "vendor_data"].
Definition uacpi_resource_pin_group_function :=
  [n8 "revision_id"; n8 "sharing"; n8 "direction"; n16 "function"; n16 "vendor_data_length"; source; label;
   nptr "vendor_data"].
Definition uacpi_resource_pin_group_configuration :=
  [n8 "revision_id"; n8 "sharing"; n8 "direction"; n8 "type"; n32 "value"; n16 "vendor_data_length"; source; label;
   nptr "vendor_data"].
Definition uacpi_resource_clock_input :=
  [n8 "revision_id"; n8 "frequency"; n8 "scale"; n16 "divisor"; n32 "numerator"; source].

(** The sizes that acpi.h asserts. *)
Theorem packed_sizes_as_asserted :
  map sizeof [acpi_resource_irq; acpi_resource_dma; acpi_resource_start_dependent; acpi_resource_end_dependent;
    acpi_resource_io; acpi_resource_fixed_io; acpi_resource_fixed_dma; acpi_resource_vendor_defined_type0;
    acpi_resource_end_tag; acpi_large_item; acpi_resource_memory24; acpi_resource_vendor_defined_type1;
    acpi_resource_memory32; acpi_resource_fixed_memory32; packed acpi_resource_address; acpi_resource_address64;
    acpi_resource_address32; acpi_resource_address16; acpi_resource_address64_extended; acpi_resource_extended_irq;
    acpi_resource_generic_register; acpi_resource_gpio_connection; packed acpi_resource_serial;
    acpi_resource_serial_i2c; acpi_resource_serial_spi; acpi_resource_serial_uart; acpi_resource_serial_csi2;
    acpi_resource_pin_function; acpi_resource_pin_configuration; acpi_resource_pin_group;
    acpi_resource_pin_group_function; acpi_resource_pin_group_configuration; acpi_resource_clock_input] =
  [4; 3; 2; 1; 8; 4; 6; 1; 2; 3; 12; 3; 20; 12; 6; 46; 26; 16; 56; 5; 15; 23; 12; 18; 21; 22; 12; 18; 20; 14; 17; 20; 13].
Proof. vm_compute; reflexivity. Qed.

(** ** Kinds of resources *)

Inductive uacpi_aml_resource :=
  | UACPI_AML_RESOURCE_TYPE_INVALID
  | UACPI_AML_RESOURCE_IRQ | UACPI_AML_RESOURCE_DMA | UACPI_AML_RESOURCE_START_DEPENDENT
  | UACPI_AML_RESOURCE_END_DEPENDENT | UACPI_AML_RESOURCE_IO | UACPI_AML_RESOURCE_FIXED_IO
  | UACPI_AML_RESOURCE_FIXED_DMA | UACPI_AML_RESOURCE_VENDOR_TYPE0 | UACPI_AML_RESOURCE_END_TAG
  | UACPI_AML_RESOURCE_MEMORY24 | UACPI_AML_RESOURCE_GENERIC_REGISTER | UACPI_AML_RESOURCE_VENDOR_TYPE1
  | UACPI_AML_RESOURCE_MEMORY32 | UACPI_AML_RESOURCE_FIXED_MEMORY32 | UACPI_AML_RESOURCE_ADDRESS32
  | UACPI_AML_RESOURCE_ADDRESS16 | UACPI_AML_RESOURCE_EXTENDED_IRQ | UACPI_AML_RESOURCE_ADDRESS64
  | UACPI_AML_RESOURCE_ADDRESS64_EXTENDED | UACPI_AML_RESOURCE_GPIO_CONNECTION | UACPI_AML_RESOURCE_PIN_FUNCTION
  | UACPI_AML_RESOURCE_SERIAL_CONNECTION | UACPI_AML_RESOURCE_PIN_CONFIGURATION | UACPI_AML_RESOURCE_PIN_GROUP
  | UACPI_AML_RESOURCE_PIN_GROUP_FUNCTION | UACPI_AML_RESOURCE_PIN_GROUP_CONFIGURATION
  | UACPI_AML_RESOURCE_CLOCK_INPUT.

#[export] Instance aml_resource_eq_dec : EqDecision uacpi_aml_resource.
Proof. solve_decision. Defined.

Definition all_aml_resources : list uacpi_aml_resource :=
  [UACPI_AML_RESOURCE_IRQ; UACPI_AML_RESOURCE_DMA; UACPI_AML_RESOURCE_START_DEPENDENT;
   UACPI_AML_RESOURCE_END_DEPENDENT; UACPI_AML_RESOURCE_IO; UACPI_AML_RESOURCE_FIXED_IO;
   UACPI_AML_RESOURCE_FIXED_DMA; UACPI_AML_RESOURCE_VENDOR_TYPE0; UACPI_AML_RESOURCE_END_TAG;
   UACPI_AML_RESOURCE_MEMORY24; UACPI_AML_RESOURCE_GENERIC_REGISTER; UACPI_AML_RESOURCE_VENDOR_TYPE1;
   UACPI_AML_RESOURCE_MEMORY32; UACPI_AML_RESOURCE_FIXED_MEMORY32; UACPI_AML_RESOURCE_ADDRESS32;
   UACPI_AML_RESOURCE_ADDRESS16; UACPI_AML_RESOURCE_EXTENDED_IRQ; UACPI_AML_RESOURCE_ADDRESS64;
   UACPI_AML_RESOURCE_ADDRESS64_EXTENDED; UACPI_AML_RESOURCE_GPIO_CONNECTION; UACPI_AML_RESOURCE_PIN_FUNCTION;
   UACPI_AML_RESOURCE_SERIAL_CONNECTION; UACPI_AML_RESOURCE_PIN_CONFIGURATION; UACPI_AML_RESOURCE_PIN_GROUP;
   UACPI_AML_RESOURCE_PIN_GROUP_FUNCTION; UACPI_AML_RESOURCE_PIN_GROUP_CONFIGURATION;
   UACPI_AML_RESOURCE_CLOCK_INPUT].

(** uacpi_resource_type: the native types are stored in memory as their numbers. *)
Definition UACPI_RESOURCE_TYPE_IRQ : Z := 0.
Definition UACPI_RESOURCE_TYPE_EXTENDED_IRQ : Z := 1.
Definition UACPI_RESOURCE_TYPE_DMA : Z := 2.
Definition UACPI_RESOURCE_TYPE_FIXED_DMA : Z := 3.
Definition UACPI_RESOURCE_TYPE_IO : Z := 4.
Definition UACPI_RESOURCE_TYPE_FIXED_IO : Z := 5.
Definition UACPI_RESOURCE_TYPE_ADDRESS16 : Z := 6.
Definition UACPI_RESOURCE_TYPE_ADDRESS32 : Z := 7.
Definition UACPI_RESOURCE_TYPE_ADDRESS64 : Z := 8.
Definition UACPI_RESOURCE_TYPE_ADDRESS64_EXTENDED : Z := 9.
Definition UACPI_RESOURCE_TYPE_MEMORY24 : Z := 10.
Definition UACPI_RESOURCE_TYPE_MEMORY32 : Z := 11.
Definition UACPI_RESOURCE_TYPE_FIXED_MEMORY32 : Z := 12.
Definition UACPI_RESOURCE_TYPE_START_DEPENDENT : Z := 13.
Definition UACPI_RESOURCE_TYPE_END_DEPENDENT : Z := 14.
Definition UACPI_RESOURCE_TYPE_VENDOR_SMALL : Z := 15.
Definition UACPI_RESOURCE_TYPE_VENDOR_LARGE : Z := 16.
Definition UACPI_RESOURCE_TYPE_GENERIC_REGISTER : Z := 17.
Definition UACPI_RESOURCE_TYPE_GPIO_CONNECTION : Z := 18.
Definition UACPI_RESOURCE_TYPE_SERIAL_I2C_CONNECTION : Z := 19.
Definition UACPI_RESOURCE_TYPE_SERIAL_SPI_CONNECTION : Z := 20.
Definition UACPI_RESOURCE_TYPE_SERIAL_UART_CONNECTION : Z := 21.
Definition UACPI_RESOURCE_TYPE_SERIAL_CSI2_CONNECTION : Z := 22.
Definition UACPI_RESOURCE_TYPE_PIN_FUNCTION : Z := 23.
Definition UACPI_RESOURCE_TYPE_PIN_CONFIGURATION : Z := 24.
Definition UACPI_RESOURCE_TYPE_PIN_GROUP : Z := 25.
Definition UACPI_RESOURCE_TYPE_PIN_GROUP_FUNCTION : Z := 26.
Definition UACPI_RESOURCE_TYPE_PIN_GROUP_CONFIGURATION : Z := 27.
Definition UACPI_RESOURCE_TYPE_CLOCK_INPUT : Z := 28.
Definition UACPI_RESOURCE_TYPE_END_TAG : Z := 29.
Definition UACPI_RESOURCE_TYPE_MAX : Z := UACPI_RESOURCE_TYPE_END_TAG.

Definition ACPI_LARGE_ITEM : Z := 0x80.
Definition ACPI_SMALL_ITEM_NAME_IDX : Z := 3.
Definition ACPI_SMALL_ITEM_NAME_MASK : Z := 15.
Definition ACPI_SMALL_ITEM_LENGTH_MASK : Z := 7.
Definition ACPI_LARGE_ITEM_NAME_MASK : Z := 127.

(** type_to_aml_resource *)
Definition type_to_aml_resource (t : uacpi_aml_resource) : Z :=
  match t with
  | UACPI_AML_RESOURCE_TYPE_INVALID => 0
  | UACPI_AML_RESOURCE_IRQ => 0x04 | UACPI_AML_RESOURCE_DMA => 0x05 | UACPI_AML_RESOURCE_START_DEPENDENT => 0x06
  | UACPI_AML_RESOURCE_END_DEPENDENT => 0x07 | UACPI_AML_RESOURCE_IO => 0x08 | UACPI_AML_RESOURCE_FIXED_IO => 0x09
  | UACPI_AML_RESOURCE_FIXED_DMA => 0x0a | UACPI_AML_RESOURCE_VENDOR_TYPE0 => 0x0e
  | UACPI_AML_RESOURCE_END_TAG => 0x0f
  | UACPI_AML_RESOURCE_MEMORY24 => 0x01 | UACPI_AML_RESOURCE_GENERIC_REGISTER => 0x02
  | UACPI_AML_RESOURCE_VENDOR_TYPE1 => 0x04 | UACPI_AML_RESOURCE_MEMORY32 => 0x05
  | UACPI_AML_RESOURCE_FIXED_MEMORY32 => 0x06 | UACPI_AML_RESOURCE_ADDRESS32 => 0x07
  | UACPI_AML_RESOURCE_ADDRESS16 => 0x08 | UACPI_AML_RESOURCE_EXTENDED_IRQ => 0x09
  | UACPI_AML_RESOURCE_ADDRESS64 => 0x0a | UACPI_AML_RESOURCE_ADDRESS64_EXTENDED => 0x0b
  | UACPI_AML_RESOURCE_GPIO_CONNECTION => 0x0c | UACPI_AML_RESOURCE_PIN_FUNCTION => 0x0d
  | UACPI_AML_RESOURCE_SERIAL_CONNECTION => 0x0e | UACPI_AML_RESOURCE_PIN_CONFIGURATION => 0x0f
  | UACPI_AML_RESOURCE_PIN_GROUP => 0x10 | UACPI_AML_RESOURCE_PIN_GROUP_FUNCTION => 0x11
  | UACPI_AML_RESOURCE_PIN_GROUP_CONFIGURATION => 0x12 | UACPI_AML_RESOURCE_CLOCK_INPUT => 0x13
  end.

Definition LARGE_RESOURCE_BASE : Z := 0x0f + 1.

(** aml_resource_to_type: small items by their name, large ones from
    [LARGE_RESOURCE_BASE] on; every other entry is 0. *)
Definition aml_resource_to_type (i : Z) : uacpi_aml_resource :=
  if i =? 0x04 then UACPI_AML_RESOURCE_IRQ else
  if i =? 0x05 then UACPI_AML_RESOURCE_DMA else
  if i =? 0x06 then UACPI_AML_RESOURCE_START_DEPENDENT else
  if i =? 0x07 then UACPI_AML_RESOURCE_END_DEPENDENT else
  if i =? 0x08 then UACPI_AML_RESOURCE_IO else
  if i =? 0x09 then UACPI_AML_RESOURCE_FIXED_IO else
  if i =? 0x0a then UACPI_AML_RESOURCE_FIXED_DMA else
  if i =? 0x0e then UACPI_AML_RESOURCE_VENDOR_TYPE0 else
  if i =? 0x0f then UACPI_AML_RESOURCE_END_TAG else
  if i =? LARGE_RESOURCE_BASE + 0x01 then UACPI_AML_RESOURCE_MEMORY24 else
  if i =? LARGE_RESOURCE_BASE + 0x02 then UACPI_AML_RESOURCE_GENERIC_REGISTER else
  if i =? LARGE_RESOURCE_BASE + 0x04 then UACPI_AML_RESOURCE_VENDOR_TYPE1 else
  if i =? LARGE_RESOURCE_BASE + 0x05 then UACPI_AML_RESOURCE_MEMORY32 else
  if i =? LARGE_RESOURCE_BASE + 0x06 then UACPI_AML_RESOURCE_FIXED_MEMORY32 else
  if i =? LARGE_RESOURCE_BASE + 0x07 then UACPI_AML_RESOURCE_ADDRESS32 else
  if i =? LARGE_RESOURCE_BASE + 0x08 then UACPI_AML_RESOURCE_ADDRESS16 else
  if i =? LARGE_RESOURCE_BASE + 0x09 then UACPI_AML_RESOURCE_EXTENDED_IRQ else
  if i =? LARGE_RESOURCE_BASE + 0x0b then UACPI_AML_RESOURCE_ADDRESS64_EXTENDED else
  if i =? LARGE_RESOURCE_BASE + 0x0a then UACPI_AML_RESOURCE_ADDRESS64 else
  if i =? LARGE_RESOURCE_BASE + 0x0c then UACPI_AML_RESOURCE_GPIO_CONNECTION else
  if i =? LARGE_RESOURCE_BASE + 0x0d then UACPI_AML_RESOURCE_PIN_FUNCTION else
  if i =? LARGE_RESOURCE_BASE + 0x0e then UACPI_AML_RESOURCE_SERIAL_CONNECTION else
  if i =? LARGE_RESOURCE_BASE + 0x0f then UACPI_AML_RESOURCE_PIN_CONFIGURATION else
  if i =? LARGE_RESOURCE_BASE + 0x10 then UACPI_AML_RESOURCE_PIN_GROUP else
  if i =? LARGE_RESOURCE_BASE + 0x11 then UACPI_AML_RESOURCE_PIN_GROUP_FUNCTION else
  if i =? LARGE_RESOURCE_BASE + 0x12 then UACPI_AML_RESOURCE_PIN_GROUP_CONFIGURATION else
  if i =? LARGE_RESOURCE_BASE + 0x13 then UACPI_AML_RESOURCE_CLOCK_INPUT else
  UACPI_AML_RESOURCE_TYPE_INVALID.

(** native_resource_to_type, by the number of the native type. *)
Definition native_resource_to_type (t : Z) : uacpi_aml_resource :=
  nth (Z.to_nat t)
    [UACPI_AML_RESOURCE_IRQ; UACPI_AML_RESOURCE_EXTENDED_IRQ; UACPI_AML_RESOURCE_DMA; UACPI_AML_RESOURCE_FIXED_DMA;
     UACPI_AML_RESOURCE_IO; UACPI_AML_RESOURCE_FIXED_IO; UACPI_AML_RESOURCE_ADDRESS16; UACPI_AML_RESOURCE_ADDRESS32;
     UACPI_AML_RESOURCE_ADDRESS64; UACPI_AML_RESOURCE_ADDRESS64_EXTENDED; UACPI_AML_RESOURCE_MEMORY24;
     UACPI_AML_RESOURCE_MEMORY32; UACPI_AML_RESOURCE_FIXED_MEMORY32; UACPI_AML_RESOURCE_START_DEPENDENT;
     UACPI_AML_RESOURCE_END_DEPENDENT; UACPI_AML_RESOURCE_VENDOR_TYPE0; UACPI_AML_RESOURCE_VENDOR_TYPE1;
     UACPI_AML_RESOURCE_GENERIC_REGISTER; UACPI_AML_RESOURCE_GPIO_CONNECTION; UACPI_AML_RESOURCE_SERIAL_CONNECTION;
     UACPI_AML_RESOURCE_SERIAL_CONNECTION; UACPI_AML_RESOURCE_SERIAL_CONNECTION;
     UACPI_AML_RESOURCE_SERIAL_CONNECTION; UACPI_AML_RESOURCE_PIN_FUNCTION; UACPI_AML_RESOURCE_PIN_CONFIGURATION;
     UACPI_AML_RESOURCE_PIN_GROUP; UACPI_AML_RESOURCE_PIN_GROUP_FUNCTION;
     UACPI_AML_RESOURCE_PIN_GROUP_CONFIGURATION; UACPI_AML_RESOURCE_CLOCK_INPUT; UACPI_AML_RESOURCE_END_TAG]
    UACPI_AML_RESOURCE_TYPE_INVALID.

(** ** Instructions *)

Inductive uacpi_resource_convert_opcode :=
  | END | PACKED_ARRAY_8 | PACKED_ARRAY_16 | BIT_FIELD_1 | BIT_FIELD_2 | BIT_FIELD_3 | BIT_FIELD_6
  | FIELD_8 | FIELD_16 | FIELD_32 | FIELD_64 | SKIP_IF_AML_SIZE_LESS_THAN | SKIP_IF_NOT_EQUALS | SET_TO_IMM
  | LOAD_AML_SIZE_32 | LOAD_8_STORE | LOAD_8_NATIVE | LOAD_16_NATIVE | LOAD_IMM
  | RESOURCE_SOURCE | RESOURCE_SOURCE_NO_INDEX | RESOURCE_LABEL | LOAD_PIN_TABLE_LENGTH | PIN_TABLE | VENDOR_DATA
  | SERIAL_TYPE_SPECIFIC | UNREACHABLE.

(** Three unions: [aml_offset] is also arg0, [native_offset] arg1, [imm] arg2 and the
    bit index. *)
Record uacpi_resource_convert_instruction := OP {
  code : uacpi_resource_convert_opcode; aml_offset : Z; native_offset : Z; imm : Z }.

Definition arg0 := aml_offset.
Definition arg2 := imm.

Definition UACPI_RESOURCE_LENGTH_KIND_DONT_CARE : Z := 0.
Definition UACPI_RESOURCE_LENGTH_KIND_ONE_LESS : Z := 1.
Definition UACPI_RESOURCE_LENGTH_KIND_FULL : Z := 2.
Definition UACPI_TRIGGERING_EDGE : Z := 1.
Definition UACPI_POLARITY_ACTIVE_HIGH : Z := 0.
Definition UACPI_EXCLUSIVE : Z := 0.
Definition UACPI_ACCEPTABLE : Z := 1.
Definition UACPI_RANGE_MEMORY : Z := 0.
Definition UACPI_RANGE_IO : Z := 1.
Definition UACPI_GPIO_CONNECTION_INTERRUPT : Z := 0.
Definition UACPI_GPIO_CONNECTION_IO : Z := 1.
Definition ACPI_SERIAL_TYPE_I2C : Z := 1.
Definition ACPI_SERIAL_TYPE_SPI : Z := 2.
Definition ACPI_SERIAL_TYPE_UART : Z := 3.
Definition ACPI_SERIAL_TYPE_CSI2 : Z := 4.

(** [mv c sa fa sn fn i] is OP(c, AML_F(sa, fa), NATIVE_F(sn, fn), IMM(i)). *)
Definition mv c sa fa sn fn i := OP c (offsetof sa fa) (offsetof sn fn) i.
(** Instructions without one of the offsets. *)
Definition skip c arg i := OP c arg 0 i.
Definition nat_only c sn fn i := OP c 0 (offsetof sn fn) i.
Definition END_ := OP END 0 0 0.

Definition convert_irq_to_native := Eval vm_compute in
  let A := acpi_resource_irq in let N := uacpi_resource_irq in
  [mv PACKED_ARRAY_16 A "irq_mask" N "irqs" (offsetof N "num_irqs");
   skip SKIP_IF_AML_SIZE_LESS_THAN 3 6;
   nat_only SET_TO_IMM N "length_kind" UACPI_RESOURCE_LENGTH_KIND_FULL;
   mv BIT_FIELD_1 A "flags" N "triggering" 0;
   mv BIT_FIELD_1 A "flags" N "polarity" 3;
   mv BIT_FIELD_1 A "flags" N "sharing" 4;
   mv BIT_FIELD_1 A "flags" N "wake_capability" 5;
   END_;
   nat_only SET_TO_IMM N "length_kind" UACPI_RESOURCE_LENGTH_KIND_ONE_LESS;
   nat_only SET_TO_IMM N "triggering" UACPI_TRIGGERING_EDGE;
   END_].

Definition convert_irq_to_aml := Eval vm_compute in
  let A := acpi_resource_irq in let N := uacpi_resource_irq in
  [mv PACKED_ARRAY_16 A "irq_mask" N "irqs" (offsetof N "num_irqs");
   skip SKIP_IF_AML_SIZE_LESS_THAN 3 4;
   mv BIT_FIELD_1 A "flags" N "triggering" 0;
   mv BIT_FIELD_1 A "flags" N "polarity" 3;
   mv BIT_FIELD_1 A "flags" N "sharing" 4;
   mv BIT_FIELD_1 A "flags" N "wake_capability" 5;
   END_].

Definition convert_dma := Eval vm_compute in
  let A := acpi_resource_dma in let N := uacpi_resource_dma in
  [mv PACKED_ARRAY_8 A "channel_mask" N "channels" (offsetof N "num_channels");
   mv BIT_FIELD_2 A "flags" N "transfer_type" 0;
   mv BIT_FIELD_1 A "flags" N "bus_master_status" 2;
   mv BIT_FIELD_2 A "flags" N "channel_speed" 5;
   END_].

Definition convert_start_dependent_to_native := Eval vm_compute in
  let A := acpi_resource_start_dependent in let N := uacpi_resource_start_dependent in
  [skip SKIP_IF_AML_SIZE_LESS_THAN 1 4;
   nat_only SET_TO_IMM N "length_kind" UACPI_RESOURCE_LENGTH_KIND_FULL;
   mv BIT_FIELD_2 A "flags" N "compatibility" 0;
   mv BIT_FIELD_2 A "flags" N "performance" 2;
   END_;
   nat_only SET_TO_IMM N "length_kind" UACPI_RESOURCE_LENGTH_KIND_ONE_LESS;
   nat_only SET_TO_IMM N "compatibility" UACPI_ACCEPTABLE;
   nat_only SET_TO_IMM N "performance" UACPI_ACCEPTABLE;
   END_].

Definition convert_start_dependent_to_aml := Eval vm_compute in
  let A := acpi_resource_start_dependent in let N := uacpi_resource_start_dependent in
  [skip SKIP_IF_AML_SIZE_LESS_THAN 1 1;
   mv BIT_FIELD_2 A "flags" N "compatibility" 0;
   mv BIT_FIELD_2 A "flags" N "performance" 2;
   END_].

Definition convert_io := Eval vm_compute in
  let A := acpi_resource_io in let N := uacpi_resource_io in
  [mv BIT_FIELD_1 A "information" N "decode_type" 0;
   mv FIELD_16 A "minimum" N "minimum" 0;
   mv FIELD_16 A "maximum" N "maximum" 0;
   mv FIELD_8 A "alignment" N "alignment" 0;
   mv FIELD_8 A "length" N "length" 0;
   END_].

Definition convert_fixed_io := Eval vm_compute in
  let A := acpi_resource_fixed_io in let N := uacpi_resource_fixed_io in
  [mv FIELD_16 A "address" N "address" 0; mv FIELD_8 A "length" N "length" 0; END_].

Definition convert_fixed_dma := Eval vm_compute in
  let A := acpi_resource_fixed_dma in let N := uacpi_resource_fixed_dma in
  [mv FIELD_16 A "request_line" N "request_line" 0;
   mv FIELD_16 A "channel" N "channel" 0;
   mv FIELD_8 A "transfer_width" N "transfer_width" 0;
   END_].

Definition convert_vendor_type0 := Eval vm_compute in
  [nat_only LOAD_AML_SIZE_32 uacpi_resource_vendor "length" 0;
   mv FIELD_8 acpi_resource_vendor_defined_type0 "byte_data" uacpi_resource_vendor "data" 0;
   END_].

Definition convert_vendor_type1 := Eval vm_compute in
  [nat_only LOAD_AML_SIZE_32 uacpi_resource_vendor "length" 0;
   mv FIELD_8 acpi_resource_vendor_defined_type1 "byte_data" uacpi_resource_vendor "data" 0;
   END_].

Definition convert_memory24 := Eval vm_compute in
  let A := acpi_resource_memory24 in let N := uacpi_resource_memory24 in
  [mv BIT_FIELD_1 A "information" N "write_status" 0; mv FIELD_16 A "minimum" N "minimum" 4; END_].

Definition convert_memory32 := Eval vm_compute in
  let A := acpi_resource_memory32 in let N := uacpi_resource_memory32 in
  [mv BIT_FIELD_1 A "information" N "write_status" 0; mv FIELD_32 A "minimum" N "minimum" 4; END_].

Definition convert_fixed_memory32 := Eval vm_compute in
  let A := acpi_resource_fixed_memory32 in let N := uacpi_resource_fixed_memory32 in
  [mv BIT_FIELD_1 A "information" N "write_status" 0;
   mv FIELD_32 A "address" N "address" 0;
   mv FIELD_32 A "length" N "length" 0;
   END_].

Definition convert_generic_register := Eval vm_compute in
  let A := acpi_resource_generic_register in let N := uacpi_resource_generic_register in
  [mv FIELD_8 A "address_space_id" N "address_space_id" 4; mv FIELD_64 A "address" N "address" 0; END_].

Definition CONVERT_TYPE_SPECIFIC_FLAGS A N :=
  [mv LOAD_8_STORE A "common.type" N "common.type" 0;
   skip SKIP_IF_NOT_EQUALS UACPI_RANGE_MEMORY 5;
   mv BIT_FIELD_1 A "common.type_flags" N "common.attribute.memory.write_status" 0;
   mv BIT_FIELD_2 A "common.type_flags" N "common.attribute.memory.caching" 1;
   mv BIT_FIELD_2 A "common.type_flags" N "common.attribute.memory.range_type" 3;
   mv BIT_FIELD_1 A "common.type_flags" N "common.attribute.memory.translation" 5;
   END_;
   skip SKIP_IF_NOT_EQUALS UACPI_RANGE_IO 4;
   mv BIT_FIELD_2 A "common.type_flags" N "common.attribute.io.range_type" 0;
   mv BIT_FIELD_1 A "common.type_flags" N "common.attribute.io.translation_type" 4;
   mv BIT_FIELD_1 A "common.type_flags" N "common.attribute.io.translation" 5;
   END_;
   mv FIELD_8 A "common.type_flags" N "common.attribute.type_specific" 0xff;
   END_].

Definition CONVERT_GENERAL_ADDRESS_FLAGS A N :=
  [mv BIT_FIELD_1 A "common.flags" N "common.direction" 0;
   mv BIT_FIELD_1 A "common.flags" N "common.decode_type" 1;
   mv BIT_FIELD_1 A "common.flags" N "common.fixed_min_address" 2;
   mv BIT_FIELD_1 A "common.flags" N "common.fixed_max_address" 3].

Definition DEFINE_ADDRESS_CONVERSION field A N :=
  (CONVERT_GENERAL_ADDRESS_FLAGS A N ++
   [mv field A "granularity" N "granularity" 5; nat_only RESOURCE_SOURCE N "source" 0] ++
   CONVERT_TYPE_SPECIFIC_FLAGS A N)%list.

Definition convert_address16 := Eval vm_compute in
  DEFINE_ADDRESS_CONVERSION FIELD_16 acpi_resource_address16 uacpi_resource_address16.
Definition convert_address32 := Eval vm_compute in
  DEFINE_ADDRESS_CONVERSION FIELD_32 acpi_resource_address32 uacpi_resource_address32.
Definition convert_address64 := Eval vm_compute in
  DEFINE_ADDRESS_CONVERSION FIELD_64 acpi_resource_address64 uacpi_resource_address64.

Definition convert_address64_extended := Eval vm_compute in
  let A := acpi_resource_address64_extended in let N := uacpi_resource_address64_extended in
  (CONVERT_GENERAL_ADDRESS_FLAGS A N ++
   [mv FIELD_8 A "revision_id" N "revision_id" 0; mv FIELD_64 A "granularity" N "granularity" 6] ++
   CONVERT_TYPE_SPECIFIC_FLAGS A N)%list.

Definition convert_extended_irq := Eval vm_compute in
  let A := acpi_resource_extended_irq in let N := uacpi_resource_extended_irq in
  [mv BIT_FIELD_1 A "flags" N "direction" 0;
   mv BIT_FIELD_1 A "flags" N "triggering" 1;
   mv BIT_FIELD_1 A "flags" N "polarity" 2;
   mv BIT_FIELD_1 A "flags" N "sharing" 3;
   mv BIT_FIELD_1 A "flags" N "wake_capability" 4;
   mv LOAD_8_STORE A "num_irqs" N "num_irqs" 4;
   nat_only RESOURCE_SOURCE N "source" 0;
   mv FIELD_8 A "irqs" N "irqs" 0;
   END_].

Definition convert_clock_input := Eval vm_compute in
  let A := acpi_resource_clock_input in let N := uacpi_resource_clock_input in
  [mv FIELD_8 A "revision_id" N "revision_id" 0;
   mv BIT_FIELD_1 A "flags" N "frequency" 0;
   mv BIT_FIELD_2 A "flags" N "scale" 1;
   mv FIELD_16 A "divisor" N "divisor" 0;
   mv FIELD_32 A "numerator" N "numerator" 0;
   mv FIELD_8 A "source_index" N "source.index" 0;
   nat_only RESOURCE_SOURCE_NO_INDEX N "source" 0;
   END_].

Definition DECODE_SOURCE_INDEX A N := mv FIELD_8 A "source_index" N "source.index" 0.

Definition DECODE_RES_PIN_TBL_AND_VENDOR_DATA A N res_opcode offset_field res_field :=
  [mv LOAD_PIN_TABLE_LENGTH A offset_field N "pin_table_length" 0;
   mv res_opcode A offset_field N res_field (offsetof A "vendor_data_offset");
   mv PIN_TABLE A "pin_table_offset" N "pin_table_length" (offsetof N "pin_table");
   mv VENDOR_DATA A "vendor_data_offset" N "vendor_data_length" (offsetof N "vendor_data")].

Definition convert_gpio_connection := Eval vm_compute in
  let A := acpi_resource_gpio_connection in let N := uacpi_resource_gpio_connection in
  ([mv FIELD_8 A "revision_id" N "revision_id" 0;
    mv BIT_FIELD_1 A "general_flags" N "direction" 0;
    mv FIELD_8 A "pull_configuration" N "pull_configuration" 0;
    mv FIELD_16 A "drive_strength" N "drive_strength" 2;
    DECODE_SOURCE_INDEX A N] ++
   DECODE_RES_PIN_TBL_AND_VENDOR_DATA A N RESOURCE_SOURCE_NO_INDEX "source_offset" "source" ++
   [mv LOAD_8_STORE A "type" N "type" 0;
    skip SKIP_IF_NOT_EQUALS UACPI_GPIO_CONNECTION_INTERRUPT 5;
    mv BIT_FIELD_1 A "connection_flags" N "interrupt.triggering" 0;
    mv BIT_FIELD_2 A "connection_flags" N "interrupt.polarity" 1;
    mv BIT_FIELD_1 A "connection_flags" N "interrupt.sharing" 3;
    mv BIT_FIELD_1 A "connection_flags" N "interrupt.wake_capability" 4;
    END_;
    skip SKIP_IF_NOT_EQUALS UACPI_GPIO_CONNECTION_IO 3;
    mv BIT_FIELD_2 A "connection_flags" N "io.restriction" 0;
    mv BIT_FIELD_1 A "connection_flags" N "io.sharing" 3;
    END_;
    mv FIELD_16 A "connection_flags" N "type_specific" 0xff;
    END_])%list.

Definition convert_pin_function := Eval vm_compute in
  let A := acpi_resource_pin_function in let N := uacpi_resource_pin_function in
  ([mv FIELD_8 A "revision_id" N "revision_id" 0;
    mv BIT_FIELD_1 A "flags" N "sharing" 0;
    mv FIELD_8 A "pull_configuration" N "pull_configuration" 0;
    mv FIELD_16 A "function_number" N "function_number" 0;
    DECODE_SOURCE_INDEX A N] ++
   DECODE_RES_PIN_TBL_AND_VENDOR_DATA A N RESOURCE_SOURCE_NO_INDEX "source_offset" "source" ++ [END_])%list.

Definition convert_pin_configuration := Eval vm_compute in
  let A := acpi_resource_pin_configuration in let N := uacpi_resource_pin_configuration in
  ([mv FIELD_8 A "revision_id" N "revision_id" 0;
    mv BIT_FIELD_1 A "flags" N "sharing" 0;
    mv BIT_FIELD_1 A "flags" N "direction" 1;
    mv FIELD_8 A "type" N "type" 0;
    mv FIELD_32 A "value" N "value" 0;
    DECODE_SOURCE_INDEX A N] ++
   DECODE_RES_PIN_TBL_AND_VENDOR_DATA A N RESOURCE_SOURCE_NO_INDEX "source_offset" "source" ++ [END_])%list.

Definition convert_pin_group := Eval vm_compute in
  let A := acpi_resource_pin_group in let N := uacpi_resource_pin_group in
  ([mv FIELD_8 A "revision_id" N "revision_id" 0;
    mv BIT_FIELD_1 A "flags" N "direction" 0] ++
   DECODE_RES_PIN_TBL_AND_VENDOR_DATA A N RESOURCE_LABEL "source_lable_offset" "label" ++ [END_])%list.

Definition DECODE_PIN_GROUP_RES_SOURCES A N :=
  [DECODE_SOURCE_INDEX A N;
   mv RESOURCE_SOURCE_NO_INDEX A "source_offset" N "source" (offsetof A "source_lable_offset");
   nat_only LOAD_16_NATIVE N "source.length" 0;
   mv RESOURCE_LABEL A "source_lable_offset" N "label" (offsetof A "vendor_data_offset");
   mv VENDOR_DATA A "vendor_data_offset" N "vendor_data_length" (offsetof N "vendor_data")].

Definition convert_pin_group_function := Eval vm_compute in
  let A := acpi_resource_pin_group_function in let N := uacpi_resource_pin_group_function in
  ([mv FIELD_8 A "revision_id" N "revision_id" 0;
    mv BIT_FIELD_1 A "flags" N "sharing" 0;
    mv BIT_FIELD_1 A "flags" N "direction" 1;
    mv FIELD_16 A "function" N "function" 0] ++
   DECODE_PIN_GROUP_RES_SOURCES A N ++ [END_])%list.

Definition convert_pin_group_configuration := Eval vm_compute in
  let A := acpi_resource_pin_group_configuration in let N := uacpi_resource_pin_group_configuration in
  ([mv FIELD_8 A "revision_id" N "revision_id" 0;
    mv BIT_FIELD_1 A "flags" N "sharing" 0;
    mv BIT_FIELD_1 A "flags" N "direction" 1;
    mv FIELD_8 A "type" N "type" 0;
    mv FIELD_32 A "value" N "value" 0] ++
   DECODE_PIN_GROUP_RES_SOURCES A N ++ [END_])%list.

Definition convert_generic_serial_bus := Eval vm_compute in
  let A := packed acpi_resource_serial in let N := uacpi_resource_serial_bus_common in
  [mv FIELD_8 A "revision_id" N "revision_id" 0;
   mv FIELD_8 A "type_specific_revision_id" N "type_revision_id" 0;
   mv FIELD_8 A "source_index" N "source.index" 0;
   mv FIELD_16 A "type_data_length" N "type_data_length" 0;
   mv BIT_FIELD_1 A "flags" N "mode" 0;
   mv BIT_FIELD_1 A "flags" N "direction" 1;
   mv BIT_FIELD_1 A "flags" N "sharing" 2;
   mv SERIAL_TYPE_SPECIFIC A "type" N "type" 0;
   nat_only RESOURCE_SOURCE_NO_INDEX N "source" 0;
   nat_only LOAD_8_NATIVE N "type" 0;
   skip SKIP_IF_NOT_EQUALS ACPI_SERIAL_TYPE_I2C 4;
   mv BIT_FIELD_1 A "type_specific_flags" uacpi_resource_i2c_connection "addressing_mode" 0;
   mv FIELD_32 acpi_resource_serial_i2c "connection_speed" uacpi_resource_i2c_connection "connection_speed" 0xff;
   mv FIELD_16 acpi_resource_serial_i2c "slave_address" uacpi_resource_i2c_connection "slave_address" 0;
   END_;
   skip SKIP_IF_NOT_EQUALS ACPI_SERIAL_TYPE_SPI 5;
   mv BIT_FIELD_1 A "type_specific_flags" uacpi_resource_spi_connection "wire_mode" 0;
   mv BIT_FIELD_1 A "type_specific_flags" uacpi_resource_spi_connection "device_polarity" 1;
   mv FIELD_32 acpi_resource_serial_spi "connection_speed" uacpi_resource_spi_connection "connection_speed" 0xff;
   mv FIELD_8 acpi_resource_serial_spi "data_bit_length" uacpi_resource_spi_connection "data_bit_length" 5;
   END_;
   skip SKIP_IF_NOT_EQUALS ACPI_SERIAL_TYPE_UART 8;
   mv BIT_FIELD_2 A "type_specific_flags" uacpi_resource_uart_connection "flow_control" 0;
   mv BIT_FIELD_2 A "type_specific_flags" uacpi_resource_uart_connection "stop_bits" 2;
   mv BIT_FIELD_3 A "type_specific_flags" uacpi_resource_uart_connection "data_bits" 4;
   mv BIT_FIELD_1 A "type_specific_flags" uacpi_resource_uart_connection "endianness" 7;
   mv FIELD_32 acpi_resource_serial_uart "baud_rate" uacpi_resource_uart_connection "baud_rate" 0xff;
   mv FIELD_16 acpi_resource_serial_uart "rx_fifo" uacpi_resource_uart_connection "rx_fifo" 2;
   mv FIELD_8 acpi_resource_serial_uart "parity" uacpi_resource_uart_connection "parity" 2;
   END_;
   skip SKIP_IF_NOT_EQUALS ACPI_SERIAL_TYPE_CSI2 3;
   mv BIT_FIELD_2 A "type_specific_flags" uacpi_resource_csi2_connection "phy_type" 0;
   mv BIT_FIELD_6 A "type_specific_flags" uacpi_resource_csi2_connection "local_port" 2;
   END_;
   OP UNREACHABLE 0 0 0].

(** ** The table of resources *)

Inductive uacpi_aml_resource_size_kind := SIZE_KIND_FIXED | SIZE_KIND_FIXED_OR_ONE_LESS | SIZE_KIND_VARIABLE.
Inductive uacpi_aml_resource_kind := KIND_SMALL | KIND_LARGE.

(** The functions that the table points to. *)
Inductive extra_size_function :=
  | p_extra_size_for_native_irq_or_dma | p_extra_size_for_native_vendor
  | p_extra_size_for_native_address_or_clock_input | p_extra_size_for_extended_irq
  | p_extra_size_for_native_gpio_or_pins | p_extra_size_for_native_pin_group | p_extra_size_for_serial_connection.
Inductive aml_size_function :=
  | p_size_for_aml_irq | p_size_for_aml_start_dependent | p_size_for_aml_vendor
  | p_size_for_aml_address_or_clock_input | p_size_for_aml_extended_irq | p_size_for_aml_gpio_or_pins
  | p_size_for_aml_pin_group | p_aml_size_for_serial_connection.

Record uacpi_resource_spec := {
  type : uacpi_aml_resource;
  native_type : Z;
  resource_kind : uacpi_aml_resource_kind;
  size_kind : uacpi_aml_resource_size_kind;
  aml_size : Z;
  native_size : Z;
  extra_size_for_native : option extra_size_function;
  size_for_aml : option aml_size_function;
  to_native : option (list uacpi_resource_convert_instruction);
  to_aml : option (list uacpi_resource_convert_instruction)
}.

Definition SMALL_ITEM_HEADER_SIZE : Z := sizeof acpi_small_item.
Definition LARGE_ITEM_HEADER_SIZE : Z := sizeof acpi_large_item.
Definition NATIVE_RESOURCE_HEADER_SIZE : Z := 8.

Definition aml_resource_kind_to_header_size (k : uacpi_aml_resource_kind) : Z :=
  match k with KIND_SMALL => SMALL_ITEM_HEADER_SIZE | KIND_LARGE => LARGE_ITEM_HEADER_SIZE end.

Definition DEFINE_SMALL_AML_RESOURCE t nt A N sk extra size tn ta : uacpi_resource_spec := {|
  type := t; native_type := nt; resource_kind := KIND_SMALL; size_kind := sk;
  aml_size := sizeof A - SMALL_ITEM_HEADER_SIZE; native_size := sizeof N + NATIVE_RESOURCE_HEADER_SIZE;
  extra_size_for_native := extra; size_for_aml := size; to_native := tn; to_aml := ta |}.

Definition DEFINE_SMALL_AML_RESOURCE_NO_NATIVE_REPR t nt A sk : uacpi_resource_spec := {|
  type := t; native_type := nt; resource_kind := KIND_SMALL; size_kind := sk;
  aml_size := sizeof A - SMALL_ITEM_HEADER_SIZE; native_size := NATIVE_RESOURCE_HEADER_SIZE;
  extra_size_for_native := None; size_for_aml := None; to_native := None; to_aml := None |}.

Definition DEFINE_LARGE_AML_RESOURCE t nt A N sk extra size tn ta : uacpi_resource_spec := {|
  type := t; native_type := nt; resource_kind := KIND_LARGE; size_kind := sk;
  aml_size := sizeof A - LARGE_ITEM_HEADER_SIZE; native_size := sizeof N + NATIVE_RESOURCE_HEADER_SIZE;
  extra_size_for_native := extra; size_for_aml := size; to_native := tn; to_aml := ta |}.

(** aml_resources; the entry of the invalid type is all zeroes. *)
Definition aml_resources (t : uacpi_aml_resource) : uacpi_resource_spec := Eval vm_compute in
  match t with
  | UACPI_AML_RESOURCE_TYPE_INVALID => {|
      type := t; native_type := 0; resource_kind := KIND_SMALL; size_kind := SIZE_KIND_FIXED; aml_size := 0;
      native_size := 0; extra_size_for_native := None; size_for_aml := None; to_native := None; to_aml := None |}
  | UACPI_AML_RESOURCE_IRQ =>
      DEFINE_SMALL_AML_RESOURCE UACPI_AML_RESOURCE_IRQ UACPI_RESOURCE_TYPE_IRQ acpi_resource_irq uacpi_resource_irq
        SIZE_KIND_FIXED_OR_ONE_LESS (Some p_extra_size_for_native_irq_or_dma) (Some p_size_for_aml_irq)
        (Some convert_irq_to_native) (Some convert_irq_to_aml)
  | UACPI_AML_RESOURCE_DMA =>
      DEFINE_SMALL_AML_RESOURCE UACPI_AML_RESOURCE_DMA UACPI_RESOURCE_TYPE_DMA acpi_resource_dma uacpi_resource_dma
        SIZE_KIND_FIXED (Some p_extra_size_for_native_irq_or_dma) None (Some convert_dma) (Some convert_dma)
  | UACPI_AML_RESOURCE_START_DEPENDENT =>
      DEFINE_SMALL_AML_RESOURCE UACPI_AML_RESOURCE_START_DEPENDENT UACPI_RESOURCE_TYPE_START_DEPENDENT
        acpi_resource_start_dependent uacpi_resource_start_dependent SIZE_KIND_FIXED_OR_ONE_LESS
        None (Some p_size_for_aml_start_dependent)
        (Some convert_start_dependent_to_native) (Some convert_start_dependent_to_aml)
  | UACPI_AML_RESOURCE_END_DEPENDENT =>
      DEFINE_SMALL_AML_RESOURCE_NO_NATIVE_REPR UACPI_AML_RESOURCE_END_DEPENDENT UACPI_RESOURCE_TYPE_END_DEPENDENT
        acpi_resource_end_dependent SIZE_KIND_FIXED
  | UACPI_AML_RESOURCE_IO =>
      DEFINE_SMALL_AML_RESOURCE UACPI_AML_RESOURCE_IO UACPI_RESOURCE_TYPE_IO acpi_resource_io uacpi_resource_io
        SIZE_KIND_FIXED None None (Some convert_io) (Some convert_io)
  | UACPI_AML_RESOURCE_FIXED_IO =>
      DEFINE_SMALL_AML_RESOURCE UACPI_AML_RESOURCE_FIXED_IO UACPI_RESOURCE_TYPE_FIXED_IO acpi_resource_fixed_io
        uacpi_resource_fixed_io SIZE_KIND_FIXED None None (Some convert_fixed_io) (Some convert_fixed_io)
  | UACPI_AML_RESOURCE_FIXED_DMA =>
      DEFINE_SMALL_AML_RESOURCE UACPI_AML_RESOURCE_FIXED_DMA UACPI_RESOURCE_TYPE_FIXED_DMA acpi_resource_fixed_dma
        uacpi_resource_fixed_dma SIZE_KIND_FIXED None None (Some convert_fixed_dma) (Some convert_fixed_dma)
  | UACPI_AML_RESOURCE_VENDOR_TYPE0 =>
      DEFINE_SMALL_AML_RESOURCE UACPI_AML_RESOURCE_VENDOR_TYPE0 UACPI_RESOURCE_TYPE_VENDOR_SMALL
        acpi_resource_vendor_defined_type0 uacpi_resource_vendor SIZE_KIND_VARIABLE
        (Some p_extra_size_for_native_vendor) (Some p_size_for_aml_vendor)
        (Some convert_vendor_type0) (Some convert_vendor_type0)
  | UACPI_AML_RESOURCE_END_TAG =>
      DEFINE_SMALL_AML_RESOURCE_NO_NATIVE_REPR UACPI_AML_RESOURCE_END_TAG UACPI_RESOURCE_TYPE_END_TAG
        acpi_resource_end_tag SIZE_KIND_FIXED
  | UACPI_AML_RESOURCE_MEMORY24 =>
      DEFINE_LARGE_AML_RESOURCE UACPI_AML_RESOURCE_MEMORY24 UACPI_RESOURCE_TYPE_MEMORY24 acpi_resource_memory24
        uacpi_resource_memory24 SIZE_KIND_FIXED None None (Some convert_memory24) (Some convert_memory24)
  | UACPI_AML_RESOURCE_GENERIC_REGISTER =>
      DEFINE_LARGE_AML_RESOURCE UACPI_AML_RESOURCE_GENERIC_REGISTER UACPI_RESOURCE_TYPE_GENERIC_REGISTER
        acpi_resource_generic_register uacpi_resource_generic_register SIZE_KIND_FIXED None None
        (Some convert_generic_register) (Some convert_generic_register)
  | UACPI_AML_RESOURCE_VENDOR_TYPE1 =>
      DEFINE_LARGE_AML_RESOURCE UACPI_AML_RESOURCE_VENDOR_TYPE1 UACPI_RESOURCE_TYPE_VENDOR_LARGE
        acpi_resource_vendor_defined_type1 uacpi_resource_vendor SIZE_KIND_VARIABLE
        (Some p_extra_size_for_native_vendor) (Some p_size_for_aml_vendor)
        (Some convert_vendor_type1) (Some convert_vendor_type1)
  | UACPI_AML_RESOURCE_MEMORY32 =>
      DEFINE_LARGE_AML_RESOURCE UACPI_AML_RESOURCE_MEMORY32 UACPI_RESOURCE_TYPE_MEMORY32 acpi_resource_memory32
        uacpi_resource_memory32 SIZE_KIND_FIXED None None (Some convert_memory32) (Some convert_memory32)
  | UACPI_AML_RESOURCE_FIXED_MEMORY32 =>
      DEFINE_LARGE_AML_RESOURCE UACPI_AML_RESOURCE_FIXED_MEMORY32 UACPI_RESOURCE_TYPE_FIXED_MEMORY32
        acpi_resource_fixed_memory32 uacpi_resource_fixed_memory32 SIZE_KIND_FIXED None None
        (Some convert_fixed_memory32) (Some convert_fixed_memory32)
  | UACPI_AML_RESOURCE_ADDRESS32 =>
      DEFINE_LARGE_AML_RESOURCE UACPI_AML_RESOURCE_ADDRESS32 UACPI_RESOURCE_TYPE_ADDRESS32 acpi_resource_address32
        uacpi_resource_address32 SIZE_KIND_VARIABLE (Some p_extra_size_for_native_address_or_clock_input)
        (Some p_size_for_aml_address_or_clock_input) (Some convert_address32) (Some convert_address32)
  | UACPI_AML_RESOURCE_ADDRESS16 =>
      DEFINE_LARGE_AML_RESOURCE UACPI_AML_RESOURCE_ADDRESS16 UACPI_RESOURCE_TYPE_ADDRESS16 acpi_resource_address16
        uacpi_resource_address16 SIZE_KIND_VARIABLE (Some p_extra_size_for_native_address_or_clock_input)
        (Some p_size_for_aml_address_or_clock_input) (Some convert_address16) (Some convert_address16)
  | UACPI_AML_RESOURCE_EXTENDED_IRQ =>
      DEFINE_LARGE_AML_RESOURCE UACPI_AML_RESOURCE_EXTENDED_IRQ UACPI_RESOURCE_TYPE_EXTENDED_IRQ
        acpi_resource_extended_irq uacpi_resource_extended_irq SIZE_KIND_VARIABLE
        (Some p_extra_size_for_extended_irq) (Some p_size_for_aml_extended_irq)
        (Some convert_extended_irq) (Some convert_extended_irq)
  | UACPI_AML_RESOURCE_ADDRESS64 =>
      DEFINE_LARGE_AML_RESOURCE UACPI_AML_RESOURCE_ADDRESS64 UACPI_RESOURCE_TYPE_ADDRESS64 acpi_resource_address64
        uacpi_resource_address64 SIZE_KIND_VARIABLE (Some p_extra_size_for_native_address_or_clock_input)
        (Some p_size_for_aml_address_or_clock_input) (Some convert_address64) (Some convert_address64)
  | UACPI_AML_RESOURCE_ADDRESS64_EXTENDED =>
      DEFINE_LARGE_AML_RESOURCE UACPI_AML_RESOURCE_ADDRESS64_EXTENDED UACPI_RESOURCE_TYPE_ADDRESS64_EXTENDED
        acpi_resource_address64_extended uacpi_resource_address64_extended SIZE_KIND_FIXED None None
        (Some convert_address64_extended) (Some convert_address64_extended)
  | UACPI_AML_RESOURCE_GPIO_CONNECTION =>
      DEFINE_LARGE_AML_RESOURCE UACPI_AML_RESOURCE_GPIO_CONNECTION UACPI_RESOURCE_TYPE_GPIO_CONNECTION
        acpi_resource_gpio_connection uacpi_resource_gpio_connection SIZE_KIND_VARIABLE
        (Some p_extra_size_for_native_gpio_or_pins) (Some p_size_for_aml_gpio_or_pins)
        (Some convert_gpio_connection) (Some convert_gpio_connection)
  | UACPI_AML_RESOURCE_PIN_FUNCTION =>
      DEFINE_LARGE_AML_RESOURCE UACPI_AML_RESOURCE_PIN_FUNCTION UACPI_RESOURCE_TYPE_PIN_FUNCTION
        acpi_resource_pin_function uacpi_resource_pin_function SIZE_KIND_VARIABLE
        (Some p_extra_size_for_native_gpio_or_pins) (Some p_size_for_aml_gpio_or_pins)
        (Some convert_pin_function) (Some convert_pin_function)
  | UACPI_AML_RESOURCE_SERIAL_CONNECTION =>
      DEFINE_LARGE_AML_RESOURCE UACPI_AML_RESOURCE_SERIAL_CONNECTION 0 (packed acpi_resource_serial)
        uacpi_resource_serial_bus_common SIZE_KIND_VARIABLE
        (Some p_extra_size_for_serial_connection) (Some p_aml_size_for_serial_connection)
        (Some convert_generic_serial_bus) (Some convert_generic_serial_bus)
  | UACPI_AML_RESOURCE_PIN_CONFIGURATION =>
      DEFINE_LARGE_AML_RESOURCE UACPI_AML_RESOURCE_PIN_CONFIGURATION UACPI_RESOURCE_TYPE_PIN_CONFIGURATION
        acpi_resource_pin_configuration uacpi_resource_pin_configuration SIZE_KIND_VARIABLE
        (Some p_extra_size_for_native_gpio_or_pins) (Some p_size_for_aml_gpio_or_pins)
        (Some convert_pin_configuration) (Some convert_pin_configuration)
  | UACPI_AML_RESOURCE_PIN_GROUP =>
      DEFINE_LARGE_AML_RESOURCE UACPI_AML_RESOURCE_PIN_GROUP UACPI_RESOURCE_TYPE_PIN_GROUP acpi_resource_pin_group
        uacpi_resource_pin_group SIZE_KIND_VARIABLE (Some p_extra_size_for_native_gpio_or_pins)
        (Some p_size_for_aml_gpio_or_pins) (Some convert_pin_group) (Some convert_pin_group)
  | UACPI_AML_RESOURCE_PIN_GROUP_FUNCTION =>
      DEFINE_LARGE_AML_RESOURCE UACPI_AML_RESOURCE_PIN_GROUP_FUNCTION UACPI_RESOURCE_TYPE_PIN_GROUP_FUNCTION
        acpi_resource_pin_group_function uacpi_resource_pin_group_function SIZE_KIND_VARIABLE
        (Some p_extra_size_for_native_pin_group) (Some p_size_for_aml_pin_group)
        (Some convert_pin_group_function) (Some convert_pin_group_function)
  | UACPI_AML_RESOURCE_PIN_GROUP_CONFIGURATION =>
      DEFINE_LARGE_AML_RESOURCE UACPI_AML_RESOURCE_PIN_GROUP_CONFIGURATION
        UACPI_RESOURCE_TYPE_PIN_GROUP_CONFIGURATION
        acpi_resource_pin_group_configuration uacpi_resource_pin_group_configuration SIZE_KIND_VARIABLE
        (Some p_extra_size_for_native_pin_group) (Some p_size_for_aml_pin_group)
        (Some convert_pin_group_configuration) (Some convert_pin_group_configuration)
  | UACPI_AML_RESOURCE_CLOCK_INPUT =>
      DEFINE_LARGE_AML_RESOURCE UACPI_AML_RESOURCE_CLOCK_INPUT UACPI_RESOURCE_TYPE_CLOCK_INPUT
        acpi_resource_clock_input uacpi_resource_clock_input SIZE_KIND_VARIABLE
        (Some p_extra_size_for_native_address_or_clock_input) (Some p_size_for_aml_address_or_clock_input)
        (Some convert_clock_input) (Some convert_clock_input)
  end.

(** AML_SERIAL_RESOURCE_EXTRA_SIZE and NATIVE_SERIAL_RESOURCE_EXTRA_SIZE, by serial
    type; [None] is outside the arrays. *)
Definition aml_serial_resource_to_extra_aml_size (t : Z) : option Z :=
  if t =? 0 then Some 0 else
  if t =? ACPI_SERIAL_TYPE_I2C then Some (sizeof acpi_resource_serial_i2c - sizeof (packed acpi_resource_serial)) else
  if t =? ACPI_SERIAL_TYPE_SPI then Some (sizeof acpi_resource_serial_spi - sizeof (packed acpi_resource_serial)) else
  if t =? ACPI_SERIAL_TYPE_UART then Some (sizeof acpi_resource_serial_uart - sizeof (packed acpi_resource_serial)) else
  if t =? ACPI_SERIAL_TYPE_CSI2 then Some (sizeof acpi_resource_serial_csi2 - sizeof (packed acpi_resource_serial)) else
  None.

Definition aml_serial_resource_to_extra_native_size (t : Z) : option Z :=
  if t =? 0 then Some 0 else
  if t =? ACPI_SERIAL_TYPE_I2C then
    Some (sizeof uacpi_resource_i2c_connection - sizeof uacpi_resource_serial_bus_common) else
  if t =? ACPI_SERIAL_TYPE_SPI then
    Some (sizeof uacpi_resource_spi_connection - sizeof uacpi_resource_serial_bus_common) else
  if t =? ACPI_SERIAL_TYPE_UART then
    Some (sizeof uacpi_resource_uart_connection - sizeof uacpi_resource_serial_bus_common) else
  if t =? ACPI_SERIAL_TYPE_CSI2 then
    Some (sizeof uacpi_resource_csi2_connection - sizeof uacpi_resource_serial_bus_common) else
  None.
