(* ===== verification/Resources.v ===== *)
(** * acpi/uacpi/resources.c: conversion of device resources

    The walks over AML descriptors and native resources, the sizes of both forms and
    the interpreter of the conversion programs of [ResTables], in both directions.
    Descriptors and native resources are bytes in one memory, pointers are
    addresses; a read or write outside the mapped bytes has no result. *)

From Stdlib Require Import Strings.String.
From S2P Require Import Prelude CMem UStdlib UCore ResTables.

Open Scope string_scope.
Open Scope Z_scope.
Open Scope word_scope.

Section Memory.
Context {T : Type}.
Abbreviation M := (SM (bytes * T)).

(** Operations on the memory, the rest of the state unchanged. *)
Definition rd (n : nat) (p : Z) : M Z := fun s =>
  match load_le (fst s) p n with Some v => Some (v, s) | None => None end.
Definition on_mem (f : bytes -> option bytes) : M unit := fun s =>
  match f (fst s) with Some m => Some (tt, (m, snd s)) | None => None end.
Definition wr (n : nat) (p v : Z) : M unit := on_mem (fun m => store_le m p n v).
Definition memcpy (dst src count : Z) : M unit := on_mem (fun m => uacpi_memcpy m dst src count).
Definition get_user : M T := fun s => Some (snd s, s).
Definition set_user (u : T) : M unit := fun s => Some (tt, (fst s, u)).
Definition of_option {A} (o : option A) : M A := fun s => match o with Some a => Some (a, s) | None => None end.

(** ** Sizes *)

(** UACPI_ALIGN_UP(x, sizeof(void * ), uacpi_size) *)
Definition align_native (x : Z) : Z := Z.land (x +64 7) (u64 (Z.lnot 7)).

Definition aml_size_with_header (spec : uacpi_resource_spec) : Z :=
  aml_size spec + aml_resource_kind_to_header_size (resource_kind spec).

(** [for (i = 0; i < total_bits; ++i) num_bits += !!(mask & (1 << i));] *)
Definition count_bits (total_bits mask : Z) : Z :=
  fold_left (fun n i => u8 (n + (if Z.land mask (Z.shiftl 1 i) =? 0 then 0 else 1))) (seqZ 0 total_bits) 0.

Definition extra_size_for_native_irq_or_dma (spec : uacpi_resource_spec) (data size : Z) : M Z :=
  if bool_decide (type spec = UACPI_AML_RESOURCE_IRQ) then
    mask ← rd 2 (data + offsetof acpi_resource_irq "irq_mask"); mret (count_bits 16 mask)
  else
    mask ← rd 1 (data + offsetof acpi_resource_dma "channel_mask"); mret (count_bits 8 mask).

(** A member of a native resource: behind the type and the length. *)
Definition NATIVE_OFFSET (res offset : Z) : Z := res + offset + 8.

Definition size_for_aml_irq (spec : uacpi_resource_spec) (resource : Z) : M Z :=
  let field f := rd 1 (NATIVE_OFFSET resource (offsetof uacpi_resource_irq f)) in
  let size := aml_size_with_header spec in
  length_kind ← field "length_kind";
  if (length_kind =? UACPI_RESOURCE_LENGTH_KIND_ONE_LESS) || (length_kind =? UACPI_RESOURCE_LENGTH_KIND_DONT_CARE) then
    triggering ← field "triggering";
    if negb (triggering =? UACPI_TRIGGERING_EDGE) then mret size else
    polarity ← field "polarity";
    if negb (polarity =? UACPI_POLARITY_ACTIVE_HIGH) then mret size else
    sharing ← field "sharing";
    if negb (sharing =? UACPI_EXCLUSIVE) then mret size else
    mret (size -64 1)
  else mret size.

Definition size_for_aml_start_dependent (spec : uacpi_resource_spec) (resource : Z) : M Z :=
  let field f := rd 1 (NATIVE_OFFSET resource (offsetof uacpi_resource_start_dependent f)) in
  let size := aml_size_with_header spec in
  length_kind ← field "length_kind";
  if (length_kind =? UACPI_RESOURCE_LENGTH_KIND_ONE_LESS) || (length_kind =? UACPI_RESOURCE_LENGTH_KIND_DONT_CARE) then
    compatibility ← field "compatibility";
    if negb (compatibility =? UACPI_ACCEPTABLE) then mret size else
    performance ← field "performance";
    if negb (performance =? UACPI_ACCEPTABLE) then mret size else
    mret (size -64 1)
  else mret size.

Definition extra_size_for_native_vendor (spec : uacpi_resource_spec) (data size : Z) : M Z := mret size.

(** [resource->type] and [resource->length]. *)
Definition get_type (resource : Z) : M Z := rd 4 resource.
Definition set_type (resource t : Z) : M unit := wr 4 resource t.
Definition get_length (resource : Z) : M Z := rd 4 (resource + 4).
Definition set_length (resource l : Z) : M unit := wr 4 (resource + 4) l.

Definition size_for_aml_vendor (spec : uacpi_resource_spec) (resource : Z) : M Z :=
  size ← rd 1 (NATIVE_OFFSET resource (offsetof uacpi_resource_vendor "length"));
  t ← get_type resource;
  if (7 <? size) || (t =? UACPI_RESOURCE_TYPE_VENDOR_LARGE) then
    (if negb (t =? UACPI_RESOURCE_TYPE_VENDOR_LARGE)
     then set_type resource UACPI_RESOURCE_TYPE_VENDOR_LARGE else mret tt);;
    mret (size + aml_resource_kind_to_header_size KIND_LARGE)
  else mret (size + aml_resource_kind_to_header_size KIND_SMALL).

Definition extra_size_for_resource_source (base_size reported_size : Z) : Z :=
  if reported_size <=? base_size then 0 else align_native (reported_size -64 base_size -64 1).

(** A uacpi_resource_source at [source]. *)
Definition SOURCE_INDEX : Z := 0.
Definition SOURCE_INDEX_PRESENT : Z := 1.
Definition SOURCE_LENGTH : Z := 2.
Definition SOURCE_STRING : Z := 8.

Definition size_for_aml_resource_source (source : Z) (with_index : bool) : M Z :=
  length ← rd 2 (source + SOURCE_LENGTH);
  present ← rd 1 (source + SOURCE_INDEX_PRESENT);
  (if negb (length =? 0) && (present =? 0) then wr 1 (source + SOURCE_INDEX_PRESENT) 1 else mret tt);;
  if with_index then
    present ← rd 1 (source + SOURCE_INDEX_PRESENT);
    mret (length +64 present)
  else mret length.

Definition extra_size_for_native_address_or_clock_input (spec : uacpi_resource_spec) (data size : Z) : M Z :=
  mret (extra_size_for_resource_source (aml_size spec) size).

Definition size_for_aml_address_or_clock_input (spec : uacpi_resource_spec) (resource : Z) : M Z :=
  t ← get_type resource;
  let sized N has_index :=
    s ← size_for_aml_resource_source (NATIVE_OFFSET resource (offsetof N "source")) has_index;
    mret (aml_size_with_header spec +64 s) in
  if t =? UACPI_RESOURCE_TYPE_ADDRESS16 then sized uacpi_resource_address16 true else
  if t =? UACPI_RESOURCE_TYPE_ADDRESS32 then sized uacpi_resource_address32 true else
  if t =? UACPI_RESOURCE_TYPE_ADDRESS64 then sized uacpi_resource_address64 true else
  if t =? UACPI_RESOURCE_TYPE_CLOCK_INPUT then sized uacpi_resource_clock_input false else
  mret 0.

Definition extra_size_for_extended_irq (spec : uacpi_resource_spec) (data size : Z) : M Z :=
  num_irqs ← rd 1 (data + offsetof acpi_resource_extended_irq "num_irqs");
  let extra_size := num_irqs * 4 in
  mret (extra_size +64 extra_size_for_resource_source (aml_size spec) (size -64 extra_size)).

Definition size_for_aml_extended_irq (spec : uacpi_resource_spec) (resource : Z) : M Z :=
  num_irqs ← rd 1 (NATIVE_OFFSET resource (offsetof uacpi_resource_extended_irq "num_irqs"));
  s ← size_for_aml_resource_source (NATIVE_OFFSET resource (offsetof uacpi_resource_extended_irq "source")) true;
  mret (aml_size_with_header spec + num_irqs * 4 +64 s).

Definition extra_size_for_native_gpio_or_pins (spec : uacpi_resource_spec) (data size : Z) : M Z :=
  let sized A :=
    pin_table_offset ← rd 2 (data + offsetof A "pin_table_offset");
    mret (size -64 (pin_table_offset -64 LARGE_ITEM_HEADER_SIZE)) in
  match type spec with
  | UACPI_AML_RESOURCE_GPIO_CONNECTION => sized acpi_resource_gpio_connection
  | UACPI_AML_RESOURCE_PIN_FUNCTION => sized acpi_resource_pin_function
  | UACPI_AML_RESOURCE_PIN_CONFIGURATION => sized acpi_resource_pin_configuration
  | UACPI_AML_RESOURCE_PIN_GROUP => sized acpi_resource_pin_group
  | _ => mret 0
  end.

Definition size_for_aml_gpio_or_pins (spec : uacpi_resource_spec) (resource : Z) : M Z :=
  let sized N (src : string) :=
    source_length ← rd 2 (NATIVE_OFFSET resource (offsetof N src));
    pin_table_length ← rd 2 (NATIVE_OFFSET resource (offsetof N "pin_table_length"));
    vendor_length ← rd 2 (NATIVE_OFFSET resource (offsetof N "vendor_data_length"));
    mret (aml_size_with_header spec + source_length + pin_table_length * 2 + vendor_length) in
  match type spec with
  | UACPI_AML_RESOURCE_GPIO_CONNECTION => sized uacpi_resource_gpio_connection "source.length"
  | UACPI_AML_RESOURCE_PIN_FUNCTION => sized uacpi_resource_pin_function "source.length"
  | UACPI_AML_RESOURCE_PIN_CONFIGURATION => sized uacpi_resource_pin_configuration "source.length"
  | UACPI_AML_RESOURCE_PIN_GROUP => sized uacpi_resource_pin_group "label.length"
  | _ => mret 0
  end.

Definition extra_size_for_native_pin_group (spec : uacpi_resource_spec) (data size : Z) : M Z :=
  let sized A :=
    source_offset ← rd 2 (data + offsetof A "source_offset");
    mret (size -64 (source_offset -64 LARGE_ITEM_HEADER_SIZE)) in
  match type spec with
  | UACPI_AML_RESOURCE_PIN_GROUP_FUNCTION => sized acpi_resource_pin_group_function
  | UACPI_AML_RESOURCE_PIN_GROUP_CONFIGURATION => sized acpi_resource_pin_group_configuration
  | _ => mret 0
  end.

Definition size_for_aml_pin_group (spec : uacpi_resource_spec) (resource : Z) : M Z :=
  let sized N :=
    source_length ← rd 2 (NATIVE_OFFSET resource (offsetof N "source.length"));
    label_length ← rd 2 (NATIVE_OFFSET resource (offsetof N "label.length"));
    vendor_length ← rd 2 (NATIVE_OFFSET resource (offsetof N "vendor_data_length"));
    mret (aml_size_with_header spec + source_length + label_length + vendor_length) in
  match type spec with
  | UACPI_AML_RESOURCE_PIN_GROUP_FUNCTION => sized uacpi_resource_pin_group_function
  | UACPI_AML_RESOURCE_PIN_GROUP_CONFIGURATION => sized uacpi_resource_pin_group_configuration
  | _ => mret 0
  end.

Definition extra_size_for_serial_connection (spec : uacpi_resource_spec) (data size : Z) : M Z :=
  t ← rd 1 (data + offsetof (packed acpi_resource_serial) "type");
  a ← of_option (aml_serial_resource_to_extra_aml_size t);
  n ← of_option (aml_serial_resource_to_extra_native_size t);
  mret (size -64 aml_size spec -64 a +64 n).

Definition aml_size_for_serial_connection (spec : uacpi_resource_spec) (resource : Z) : M Z :=
  let N := uacpi_resource_serial_bus_common in
  t ← rd 1 (NATIVE_OFFSET resource (offsetof N "type"));
  a ← of_option (aml_serial_resource_to_extra_aml_size t);
  vendor ← rd 2 (NATIVE_OFFSET resource (offsetof N "vendor_data_length"));
  src ← rd 2 (NATIVE_OFFSET resource (offsetof N "source.length"));
  mret (aml_size_with_header spec + a + vendor + src).

(** Calls through the table. *)
Definition call_extra_size (f : extra_size_function) : uacpi_resource_spec -> Z -> Z -> M Z :=
  match f with
  | p_extra_size_for_native_irq_or_dma => extra_size_for_native_irq_or_dma
  | p_extra_size_for_native_vendor => extra_size_for_native_vendor
  | p_extra_size_for_native_address_or_clock_input => extra_size_for_native_address_or_clock_input
  | p_extra_size_for_extended_irq => extra_size_for_extended_irq
  | p_extra_size_for_native_gpio_or_pins => extra_size_for_native_gpio_or_pins
  | p_extra_size_for_native_pin_group => extra_size_for_native_pin_group
  | p_extra_size_for_serial_connection => extra_size_for_serial_connection
  end.

Definition call_aml_size (f : aml_size_function) : uacpi_resource_spec -> Z -> M Z :=
  match f with
  | p_size_for_aml_irq => size_for_aml_irq
  | p_size_for_aml_start_dependent => size_for_aml_start_dependent
  | p_size_for_aml_vendor => size_for_aml_vendor
  | p_size_for_aml_address_or_clock_input => size_for_aml_address_or_clock_input
  | p_size_for_aml_extended_irq => size_for_aml_extended_irq
  | p_size_for_aml_gpio_or_pins => size_for_aml_gpio_or_pins
  | p_size_for_aml_pin_group => size_for_aml_pin_group
  | p_aml_size_for_serial_connection => aml_size_for_serial_connection
  end.

Definition native_size_for_aml_resource (data size : Z) (spec : uacpi_resource_spec) : M Z :=
  extra ← (match extra_size_for_native spec with Some f => call_extra_size f spec data size | None => mret 0 end);
  mret (align_native (native_size spec +64 extra)).

Definition aml_size_for_native_resource (resource : Z) (spec : uacpi_resource_spec) : M Z :=
  match size_for_aml spec with Some f => call_aml_size f spec resource | None => mret (aml_size_with_header spec) end.

(** ** The walk over AML descriptors *)

Definition get_aml_resource_type (raw_byte : Z) : uacpi_aml_resource :=
  if negb (Z.land raw_byte ACPI_LARGE_ITEM =? 0)
  then aml_resource_to_type (LARGE_RESOURCE_BASE + Z.land raw_byte ACPI_LARGE_ITEM_NAME_MASK)
  else aml_resource_to_type (Z.land (Z.shiftr raw_byte ACPI_SMALL_ITEM_NAME_IDX) ACPI_SMALL_ITEM_NAME_MASK).

(** The status and the size, 0 when it is not written. *)
Definition get_aml_resource_size (data bytes_left : Z) : M (uacpi_status * Z) :=
  b ← rd 1 data;
  let checked size bytes_left :=
    if bytes_left <? size then mret (UACPI_STATUS_AML_INVALID_RESOURCE, 0) else mret (UACPI_STATUS_OK, size) in
  if negb (Z.land b ACPI_LARGE_ITEM =? 0) then
    if bytes_left <? 3 then mret (UACPI_STATUS_AML_INVALID_RESOURCE, 0) else
    size ← rd 2 (data + 1);
    checked size (bytes_left -64 aml_resource_kind_to_header_size KIND_LARGE)
  else checked (Z.land b ACPI_SMALL_ITEM_LENGTH_MASK) (bytes_left -64 aml_resource_kind_to_header_size KIND_SMALL).

Definition validate_aml_serial_type (t : Z) : uacpi_status :=
  if (t <? ACPI_SERIAL_TYPE_I2C) || (ACPI_SERIAL_TYPE_CSI2 <? t) then UACPI_STATUS_AML_INVALID_RESOURCE
  else UACPI_STATUS_OK.

(** The switch over [spec->size_kind]: does the size fit? *)
Definition size_fits (spec : uacpi_resource_spec) (resource_size : Z) : bool :=
  match size_kind spec with
  | SIZE_KIND_FIXED => resource_size =? aml_size spec
  | SIZE_KIND_VARIABLE => aml_size spec <=? resource_size
  | SIZE_KIND_FIXED_OR_ONE_LESS => (resource_size =? aml_size spec) || (resource_size =? aml_size spec - 1)
  end.

Definition DECISION_CONTINUE : Z := 0.
Definition DECISION_BREAK : Z := 1.

Section ForEachAml.
Variable cb : Z -> Z -> uacpi_resource_spec -> M Z.

(** [while (bytes_left)]; a turn uses up at least a byte. *)
Fixpoint for_each_aml_loop (fuel : nat) (data bytes_left : Z) : M uacpi_status :=
  if bytes_left =? 0 then mret UACPI_STATUS_NO_RESOURCE_END_TAG else
  match fuel with
  | O => undefined
  | S fuel' =>
      b ← rd 1 data;
      let t := get_aml_resource_type b in
      if bool_decide (t = UACPI_AML_RESOURCE_TYPE_INVALID) then mret UACPI_STATUS_AML_INVALID_RESOURCE else
      r ← get_aml_resource_size data bytes_left;
      let '(ret, resource_size) := (r : uacpi_status * Z) in
      if negb (is_ok ret) then mret ret else
      let spec := aml_resources t in
      if negb (size_fits spec resource_size) then mret UACPI_STATUS_AML_INVALID_RESOURCE else
      ret ← (if bool_decide (type spec = UACPI_AML_RESOURCE_SERIAL_CONNECTION)
             then st ← rd 1 (data + offsetof (packed acpi_resource_serial) "type"); mret (validate_aml_serial_type st)
             else mret UACPI_STATUS_OK);
      if negb (is_ok ret) then mret ret else
      decision ← cb data resource_size spec;
      if decision =? DECISION_BREAK then mret UACPI_STATUS_OK else
      if decision =? DECISION_CONTINUE then
        let total_size := resource_size + aml_resource_kind_to_header_size (resource_kind spec) in
        if bool_decide (t = UACPI_AML_RESOURCE_END_TAG) then mret UACPI_STATUS_OK else
        for_each_aml_loop fuel' (data + total_size) (bytes_left -64 total_size)
      else mret UACPI_STATUS_INTERNAL_ERROR
  end.

(** The view is [length] bytes at [data]. *)
Definition uacpi_for_each_aml_resource (data length : Z) : M uacpi_status :=
  for_each_aml_loop (Z.to_nat length) data length.
End ForEachAml.
End Memory.

(** ** Conversion *)

(** struct resource_conversion_ctx; [buf] is the union of the cursor and the size. *)
Record resource_conversion_ctx := { buf : Z; st : uacpi_status; just_one : bool }.

Definition with_buf (b : Z) (c : resource_conversion_ctx) : resource_conversion_ctx :=
  {| buf := b; st := st c; just_one := just_one c |}.
Definition with_st (x : uacpi_status) (c : resource_conversion_ctx) : resource_conversion_ctx :=
  {| buf := buf c; st := x; just_one := just_one c |}.

Abbreviation C := (SM (bytes * resource_conversion_ctx)).

Definition conditional_continue : C Z :=
  c ← get_user; mret (if just_one c then DECISION_BREAK else DECISION_CONTINUE).

(** The variables of a conversion. *)
Record locals := {
  pc : Z; accumulator : Z; resource_end : Z; base_aml_size : Z; base_aml_size_with_header : Z }.

Definition with_pc (x : Z) (l : locals) : locals := {| pc := x; accumulator := accumulator l;
  resource_end := resource_end l; base_aml_size := base_aml_size l;
  base_aml_size_with_header := base_aml_size_with_header l |}.
Definition with_acc (x : Z) (l : locals) : locals := {| pc := pc l; accumulator := x;
  resource_end := resource_end l; base_aml_size := base_aml_size l;
  base_aml_size_with_header := base_aml_size_with_header l |}.

(** What an instruction does next: the following one, or return a decision. *)
Inductive outcome := Go (l : locals) | Return (decision : Z).

Definition fail (x : uacpi_status) : C outcome :=
  c ← get_user; set_user (with_st x c);; mret (Return DECISION_BREAK).

Definition field_bytes (c : uacpi_resource_convert_opcode) : Z :=
  match c with FIELD_8 => 1 | FIELD_16 => 2 | FIELD_32 => 4 | FIELD_64 => 8 | _ => 0 end.

Definition bit_field_width (c : uacpi_resource_convert_opcode) : Z :=
  match c with BIT_FIELD_1 => 1 | BIT_FIELD_2 => 2 | BIT_FIELD_3 => 3 | BIT_FIELD_6 => 6 | _ => 0 end.

(** CONVERSION_OPCODES_COMMON(native_buf) *)
Definition common_opcode (insn : uacpi_resource_convert_instruction) (l : locals) (aml_size src dst native_buf : Z) :
    C outcome :=
  match code insn with
  | END => d ← conditional_continue; mret (Return d)
  | FIELD_8 | FIELD_16 | FIELD_32 | FIELD_64 =>
      let acc := if imm insn =? 0xff then 0 else u32 (accumulator l + imm insn) in
      memcpy dst src (u32 (field_bytes (code insn) * Z.max 1 acc));;
      mret (Go (with_acc 0 l))
  | SKIP_IF_AML_SIZE_LESS_THAN => mret (Go (if aml_size <? arg0 insn then with_pc (u8 (pc l + imm insn)) l else l))
  | SKIP_IF_NOT_EQUALS =>
      mret (Go (if negb (arg0 insn =? accumulator l) then with_pc (u8 (pc l + imm insn)) l else l))
  | SET_TO_IMM => wr 1 dst (imm insn);; mret (Go l)
  | LOAD_IMM => mret (Go (with_acc (imm insn) l))
  | LOAD_8_STORE =>
      v ← rd 1 src;
      wr 1 dst v;;
      mret (Go (with_acc (if negb (imm insn =? 0) then u32 (v * imm insn) else v) l))
  | LOAD_8_NATIVE => v ← rd 1 native_buf; mret (Go (with_acc v l))
  | LOAD_16_NATIVE => v ← rd 2 native_buf; mret (Go (with_acc v l))
  | _ => fail UACPI_STATUS_INTERNAL_ERROR
  end.

(** [for (i = 0, j = 0; i < max_bit; ++i)]: the indices of the set bits to [dst]. *)
Fixpoint unpack_bits {T} (bits : list Z) (value dst j : Z) : SM (bytes * T) Z :=
  match bits with
  | [] => mret j
  | i :: bits' =>
      if Z.land value (Z.shiftl 1 i) =? 0 then unpack_bits bits' value dst j
      else wr 1 (dst + j) i;; unpack_bits bits' value dst (j + 1)
  end.

(** [while (offset++ < max_offset) if (src_string[length++] == 0) break;], with [n]
    characters before the limit. *)
Fixpoint scan_string {T} (n : nat) (src_string length : Z) : SM (bytes * T) Z :=
  match n with
  | O => mret length
  | S n' => c ← rd 1 (src_string + length);
      if c =? 0 then mret (length + 1) else scan_string n' src_string (length + 1)
  end.

Definition aml_serial_to_native_type (t : Z) : Z :=
  u32 (t - ACPI_SERIAL_TYPE_I2C + UACPI_RESOURCE_TYPE_SERIAL_I2C_CONNECTION).

Section ToNative.
Variables (data aml_size header_size resource : Z).

(** CHECK_AML_OFFSET: is the offset inside the variable part? *)
Definition check_aml_offset (l : locals) (offset : Z) : bool :=
  negb (aml_size + header_size <? offset) && negb (offset <? base_aml_size_with_header l).

Definition is_label (c : uacpi_resource_convert_opcode) : bool := match c with RESOURCE_LABEL => true | _ => false end.
Definition is_source (c : uacpi_resource_convert_opcode) : bool := match c with RESOURCE_SOURCE => true | _ => false end.

(** RESOURCE_SOURCE, RESOURCE_SOURCE_NO_INDEX and RESOURCE_LABEL below the upper bound. *)
Definition source_to_native (insn : uacpi_resource_convert_instruction) (l : locals) (dst max_offset : Z) : C outcome :=
  let offset := base_aml_size_with_header l + accumulator l in
  (if negb (is_label (code insn)) then wr 1 (dst + SOURCE_INDEX_PRESENT) 1 else mret tt);;
  if max_offset <=? offset then
    (if is_source (code insn) then wr 1 (dst + SOURCE_INDEX_PRESENT) 0 else mret tt);;
    mret (Go l)
  else
    let src_string := data + offset in
    (if is_source (code insn) then memcpy (dst + SOURCE_INDEX) src_string 1 else mret tt);;
    let skip := if is_source (code insn) then 1 else 0 in
    let src_string := src_string + skip in
    let offset := offset + skip in
    if offset =? max_offset then mret (Go l) else
    length ← scan_string (Z.to_nat (max_offset - offset)) src_string 0;
    last ← rd 1 (src_string + length - 1);
    if negb (last =? 0) then fail UACPI_STATUS_AML_INVALID_RESOURCE else
    let dst_string := resource_end l + accumulator l in
    memcpy dst_string src_string length;;
    wr 2 (dst + (if is_label (code insn) then 0 else SOURCE_LENGTH)) length;;
    wr 8 (dst + SOURCE_STRING) dst_string;;
    mret (Go l).

Definition vendor_data_to_native (insn : uacpi_resource_convert_instruction) (l : locals) (src dst : Z) : C outcome :=
  data_offset ← rd 2 src;
  if negb (check_aml_offset l data_offset) then fail UACPI_STATUS_AML_INVALID_RESOURCE else
  let vendor_data := data + data_offset in
  let data_offset := u16 (data_offset - header_size) in
  let length := aml_size -64 data_offset in
  if length =? 0 then mret (Go l) else
  wr 2 dst length;;
  let native_dst := resource_end l + u16 (data_offset - base_aml_size l) in
  memcpy native_dst vendor_data length;;
  wr 8 (NATIVE_OFFSET resource (arg2 insn)) native_dst;;
  mret (Go l).

Definition serial_to_native (l : locals) (src : Z) : C outcome :=
  let N := uacpi_resource_serial_bus_common in
  serial_type ← rd 1 src;
  wr 1 (NATIVE_OFFSET resource (offsetof N "type")) serial_type;;
  set_type resource (aml_serial_to_native_type serial_type);;
  native_extra ← of_option (aml_serial_resource_to_extra_native_size serial_type);
  extra_size ← of_option (aml_serial_resource_to_extra_aml_size serial_type);
  let l := {| pc := pc l; accumulator := accumulator l; resource_end := resource_end l + native_extra;
              base_aml_size := u16 (base_aml_size l + extra_size);
              base_aml_size_with_header := u32 (base_aml_size_with_header l + extra_size) |} in
  type_data_length ← rd 2 (NATIVE_OFFSET resource (offsetof N "type_data_length"));
  let type_length := u8 type_data_length in
  if type_length <? extra_size then fail UACPI_STATUS_AML_INVALID_RESOURCE else
  let l := with_acc (type_length - extra_size) l in
  if accumulator l =? 0 then mret (Go l) else
  wr 2 (NATIVE_OFFSET resource (offsetof N "vendor_data_length")) (accumulator l);;
  wr 8 (NATIVE_OFFSET resource (offsetof N "vendor_data")) (resource_end l);;
  memcpy (resource_end l) (data + base_aml_size_with_header l) (accumulator l);;
  mret (Go l).

(** The switch of [do_aml_resource_to_native]. *)
Definition opcode_to_native (insn : uacpi_resource_convert_instruction) (l : locals) : C outcome :=
  let src := data + aml_offset insn in
  let dst := NATIVE_OFFSET resource (native_offset insn) in
  match code insn with
  | PACKED_ARRAY_8 | PACKED_ARRAY_16 =>
      let wide := match code insn with PACKED_ARRAY_16 => true | _ => false end in
      value ← rd (if wide then 2 else 1) src;
      j ← unpack_bits (seqZ 0 (if wide then 16 else 8)) value dst 0;
      wr 1 (NATIVE_OFFSET resource (arg2 insn)) j;;
      mret (Go l)
  | BIT_FIELD_1 | BIT_FIELD_2 | BIT_FIELD_3 | BIT_FIELD_6 =>
      v ← rd 1 src;
      wr 1 dst (Z.land (Z.shiftr v (imm insn)) (Z.ones (bit_field_width (code insn))));;
      mret (Go l)
  | LOAD_AML_SIZE_32 => wr 4 dst aml_size;; mret (Go (with_acc aml_size l))
  | RESOURCE_SOURCE | RESOURCE_SOURCE_NO_INDEX | RESOURCE_LABEL =>
      if negb (arg2 insn =? 0) then
        max_offset ← rd 2 (data + arg2 insn);
        if negb (check_aml_offset l max_offset) then fail UACPI_STATUS_AML_INVALID_RESOURCE
        else source_to_native insn l dst max_offset
      else source_to_native insn l dst (aml_size + header_size)
  | LOAD_PIN_TABLE_LENGTH =>
      v ← rd 2 src;
      if negb (check_aml_offset l v) then fail UACPI_STATUS_AML_INVALID_RESOURCE else
      mret (Go (with_acc (v - base_aml_size_with_header l) l))
  | PIN_TABLE =>
      memcpy (resource_end l) (data + base_aml_size_with_header l) (accumulator l);;
      wr 2 dst (accumulator l / 2);;
      wr 8 (NATIVE_OFFSET resource (arg2 insn)) (resource_end l);;
      mret (Go l)
  | VENDOR_DATA => vendor_data_to_native insn l src dst
  | SERIAL_TYPE_SPECIFIC => serial_to_native l src
  | _ => common_opcode insn l aml_size src dst dst
  end.
End ToNative.

(** [for (;;) insn = &insns[pc++]; ...]; outside the program there is nothing to
    execute. *)
Fixpoint run_program (step : uacpi_resource_convert_instruction -> locals -> C outcome)
    (insns : list uacpi_resource_convert_instruction) (fuel : nat) (l : locals) : C Z :=
  match fuel with
  | O => undefined
  | S fuel' =>
      match nth_error insns (Z.to_nat (pc l)) with
      | None => undefined
      | Some insn =>
          o ← step insn (with_pc (u8 (pc l + 1)) l);
          match o with Return d => mret d | Go l => run_program step insns fuel' l end
      end
  end.

Definition do_aml_resource_to_native (data aml_size_ : Z) (spec : uacpi_resource_spec) : C Z :=
  ctx ← get_user;
  let resource := buf ctx in
  let header_size := aml_resource_kind_to_header_size (resource_kind spec) in
  set_type resource (native_type spec);;
  n ← native_size_for_aml_resource data aml_size_ spec;
  set_length resource n;;
  len ← get_length resource;
  set_user (with_buf (buf ctx + len) ctx);;
  match to_native spec with
  | None => conditional_continue
  | Some insns =>
      run_program (opcode_to_native data aml_size_ header_size resource) insns (length insns)
        {| pc := 0; accumulator := 0; resource_end := resource + native_size spec; base_aml_size := aml_size spec;
           base_aml_size_with_header := aml_size spec + header_size |}
  end.

Definition accumulate_native_buffer_size (data resource_size : Z) (spec : uacpi_resource_spec) : C Z :=
  size_for_this ← native_size_for_aml_resource data resource_size spec;
  ctx ← get_user;
  if (size_for_this =? 0) || (buf ctx +64 size_for_this <? buf ctx) then
    set_user (with_st UACPI_STATUS_AML_INVALID_RESOURCE ctx);; mret DECISION_BREAK
  else
    set_user (with_buf (buf ctx +64 size_for_this) ctx);; conditional_continue.

(** [opaque] is the pointer to the end tag, null at first. *)
Definition find_end (data resource_size : Z) (spec : uacpi_resource_spec) : SM (bytes * Z) Z :=
  if negb (bool_decide (type spec = UACPI_AML_RESOURCE_END_TAG)) then mret DECISION_CONTINUE else
  set_user data;; mret DECISION_BREAK.

(** ** The walk over native resources *)

Section ForEachNative.
Context {T : Type}.
Variable cb : Z -> SM (bytes * T) Z.

Fixpoint for_each_resource_loop (fuel : nat) (current bytes_left : Z) : SM (bytes * T) uacpi_status :=
  if bytes_left =? 0 then mret UACPI_STATUS_NO_RESOURCE_END_TAG else
  match fuel with
  | O => undefined
  | S fuel' =>
      if bytes_left <? 4 then mret UACPI_STATUS_INVALID_ARGUMENT else
      t ← get_type current;
      if UACPI_RESOURCE_TYPE_MAX <? t then mret UACPI_STATUS_INVALID_ARGUMENT else
      len ← get_length current;
      if bytes_left <? len then mret UACPI_STATUS_INVALID_ARGUMENT else
      decision ← cb current;
      t ← get_type current;
      if (decision =? DECISION_BREAK) || (t =? UACPI_RESOURCE_TYPE_END_TAG) then mret UACPI_STATUS_OK else
      len ← get_length current;
      for_each_resource_loop fuel' (current + len) (bytes_left -64 len)
  end.

(** A uacpi_resources is its length and the address of its entries. *)
Definition uacpi_for_each_resource (length entries : Z) : SM (bytes * T) uacpi_status :=
  for_each_resource_loop (Z.to_nat length) entries length.
End ForEachNative.

Definition resource_spec_from_native (t : Z) : uacpi_resource_spec := aml_resources (native_resource_to_type t).

Section ToAml.
Variables (resource dst_base : Z) (spec : uacpi_resource_spec) (aml_size : Z).

(** [for (i = 0; i < *array_size; ++i) mask |= 1 << src[i];] *)
Fixpoint pack_bits (n : nat) (src i mask : Z) : C Z :=
  match n with
  | O => mret mask
  | S n' =>
      v ← rd 1 (src + i);
      if 31 <? v then undefined else pack_bits n' src (i + 1) (u16 (Z.lor mask (Z.shiftl 1 v)))
  end.

Definition source_to_aml (insn : uacpi_resource_convert_instruction) (l : locals) (src dst : Z) : C outcome :=
  let source_offset := base_aml_size_with_header l + accumulator l in
  (if negb (aml_offset insn =? 0) then wr 2 dst source_offset else mret tt);;
  present ← (if is_source (code insn) then rd 1 (src + SOURCE_INDEX_PRESENT) else mret 0);
  let with_index := negb (present =? 0) in
  (if (with_index : bool) then memcpy (dst_base + source_offset) (src + SOURCE_INDEX) 1 else mret tt);;
  let dst_string := dst_base + source_offset + (if with_index then 1 else 0) in
  length ← rd 2 (src + (if is_label (code insn) then 0 else SOURCE_LENGTH));
  src_string ← rd 8 (src + SOURCE_STRING);
  if length =? 0 then mret (Go l) else
  if src_string =? 0 then fail UACPI_STATUS_INVALID_ARGUMENT else
  memcpy dst_string src_string length;;
  mret (Go l).

Definition vendor_data_to_aml (insn : uacpi_resource_convert_instruction) (l : locals) (src dst : Z) : C outcome :=
  vendor_data ← rd 8 (NATIVE_OFFSET resource (arg2 insn));
  vendor_data_length ← rd 2 src;
  if vendor_data =? 0 then
    if negb (vendor_data_length =? 0) then fail UACPI_STATUS_INVALID_ARGUMENT else
    wr 2 dst (aml_size + aml_resource_kind_to_header_size (resource_kind spec));;
    mret (Go l)
  else
    let data_offset := u16 (vendor_data - resource_end l) in
    let vendor_data_offset := u16 (data_offset + base_aml_size_with_header l) in
    wr 2 dst vendor_data_offset;;
    wr 2 (dst + 2) vendor_data_length;;
    memcpy (dst_base + vendor_data_offset) vendor_data vendor_data_length;;
    mret (Go l).

Definition serial_to_aml (l : locals) (src dst : Z) : C outcome :=
  serial_type ← rd 1 src;
  wr 1 dst serial_type;;
  let ret := validate_aml_serial_type serial_type in
  c ← get_user;
  set_user (with_st ret c);;
  if negb (is_ok ret) then mret (Return DECISION_BREAK) else
  t ← get_type resource;
  if negb (t =? aml_serial_to_native_type serial_type) then fail UACPI_STATUS_INVALID_ARGUMENT else
  native_extra ← of_option (aml_serial_resource_to_extra_native_size serial_type);
  extra_size ← of_option (aml_serial_resource_to_extra_aml_size serial_type);
  vendor ← rd 2 (NATIVE_OFFSET resource (offsetof uacpi_resource_serial_bus_common "vendor_data_length"));
  let l := {| pc := pc l; accumulator := vendor; resource_end := resource_end l + native_extra;
              base_aml_size := base_aml_size l;
              base_aml_size_with_header := u32 (base_aml_size_with_header l + extra_size) |} in
  if vendor =? 0 then mret (Go l) else
  memcpy (dst_base + base_aml_size_with_header l) (resource_end l) vendor;;
  mret (Go l).

(** The switch of [do_native_resource_to_aml]. *)
Definition opcode_to_aml (insn : uacpi_resource_convert_instruction) (l : locals) : C outcome :=
  let src := NATIVE_OFFSET resource (native_offset insn) in
  let dst := dst_base + aml_offset insn in
  match code insn with
  | PACKED_ARRAY_8 | PACKED_ARRAY_16 =>
      array_size ← rd 1 (NATIVE_OFFSET resource (arg2 insn));
      mask ← pack_bits (Z.to_nat array_size) src 0 0;
      wr (match code insn with PACKED_ARRAY_16 => 2 | _ => 1 end) dst mask;;
      mret (Go l)
  | BIT_FIELD_1 | BIT_FIELD_2 | BIT_FIELD_3 | BIT_FIELD_6 =>
      d ← rd 1 dst;
      v ← rd 1 src;
      wr 1 dst (Z.lor d (Z.shiftl v (imm insn)));;
      mret (Go l)
  | LOAD_AML_SIZE_32 => mret (Go (with_acc aml_size l))
  | RESOURCE_SOURCE | RESOURCE_SOURCE_NO_INDEX | RESOURCE_LABEL => source_to_aml insn l src dst
  | LOAD_PIN_TABLE_LENGTH => v ← rd 2 src; mret (Go (with_acc (v * 2) l))
  | PIN_TABLE =>
      wr 2 dst (base_aml_size_with_header l);;
      memcpy (dst_base + base_aml_size_with_header l) (resource_end l) (accumulator l);;
      mret (Go l)
  | VENDOR_DATA => vendor_data_to_aml insn l src dst
  | SERIAL_TYPE_SPECIFIC => serial_to_aml l src dst
  | _ => common_opcode insn l aml_size src dst src
  end.

(** The header of a descriptor of [aml_size] bytes. *)
Definition write_header : C unit :=
  match resource_kind spec with
  | KIND_LARGE =>
      wr 1 dst_base (Z.lor ACPI_LARGE_ITEM (type_to_aml_resource (type spec)));;
      wr 2 (dst_base + 1) aml_size
  | KIND_SMALL =>
      wr 1 dst_base (Z.shiftl (type_to_aml_resource (type spec)) ACPI_SMALL_ITEM_NAME_IDX);;
      v ← rd 1 dst_base;
      wr 1 dst_base (Z.lor v aml_size)
  end.
End ToAml.

Definition do_native_resource_to_aml (resource : Z) : C Z :=
  ctx ← get_user;
  t ← get_type resource;
  let spec := resource_spec_from_native t in
  n ← aml_size_for_native_resource resource spec;
  let dst_base := buf ctx in
  set_user (with_buf (buf ctx + u32 n) ctx);;
  let header_size := aml_resource_kind_to_header_size (resource_kind spec) in
  let aml_size_ := u32 (u32 n - header_size) in
  write_header dst_base spec aml_size_;;
  match to_aml spec with
  | None => mret DECISION_CONTINUE
  | Some insns =>
      run_program (opcode_to_aml resource dst_base spec aml_size_) insns (length insns)
        {| pc := 0; accumulator := 0; resource_end := resource + native_size spec; base_aml_size := 0;
           base_aml_size_with_header := aml_size spec + header_size |}
  end.

Definition accumulate_aml_buffer_size (resource : Z) : C Z :=
  t ← get_type resource;
  size_for_this ← aml_size_for_native_resource resource (resource_spec_from_native t);
  ctx ← get_user;
  if (size_for_this =? 0) || (buf ctx +64 size_for_this <? buf ctx) then
    set_user (with_st UACPI_STATUS_INVALID_ARGUMENT ctx);; mret DECISION_BREAK
  else
    set_user (with_buf (buf ctx +64 size_for_this) ctx);; mret DECISION_CONTINUE.

(** ** The operations of the file *)

(** The kernel's allocator, objects and evaluation (types.c, uacpi.c). *)
Class ResourceHost (W : Type) := {
  uacpi_kernel_alloc_zeroed : Z -> SM (bytes * W) Z;
  uacpi_free : Z -> Z -> SM (bytes * W) unit;
  (** the compound literal INLINE_END_TAG lives at this address *)
  inline_end_tag : Z;
  uacpi_create_buffer_object : SM (bytes * W) Z;
  (** obj->buffer->data and ->size *)
  object_set_buffer : Z -> Z -> Z -> SM (bytes * W) unit;
  object_buffer_view : Z -> SM (bytes * W) (Z * Z);
  object_unref : Z -> SM (bytes * W) unit;
  node_is_device : Z -> SM (bytes * W) (uacpi_status * bool);
  uacpi_eval_simple_buffer : Z -> list Z -> SM (bytes * W) (uacpi_status * Z);
  uacpi_eval_SRS : Z -> Z -> SM (bytes * W) uacpi_status
}.

Section Host.
Context {W : Type} {RH : ResourceHost W}.
Abbreviation H := (SM (bytes * W)).

(** Run a walk with its own user data. *)
Definition with_user {U A} (u : U) (c : SM (bytes * U) A) : H (A * U) := fun s =>
  match c (fst s, u) with Some (a, (m, u')) => Some ((a, u'), (m, snd s)) | None => None end.

Definition uacpi_find_aml_resource_end_tag (data length : Z) : H (uacpi_status * Z) :=
  if length =? 0 then mret (UACPI_STATUS_OK, 0) else
  r ← with_user 0 (uacpi_for_each_aml_resource find_end data length);
  if negb (is_ok (fst r)) then mret (fst r, 0) else mret (UACPI_STATUS_OK, snd r - data).

Definition MAX_BUFFER : Z := 5 * 1024 * 1024.
Definition UACPI_RESOURCES_SIZE : Z := 16.

(** uacpi_free_resources and uacpi_free_resource *)
Definition uacpi_free_resources (resources : Z) : H unit :=
  if resources =? 0 then mret tt else
  n ← rd 8 resources; uacpi_free resources (UACPI_RESOURCES_SIZE +64 n).
Definition uacpi_free_resource (resource : Z) : H unit :=
  if resource =? 0 then mret tt else n ← get_length resource; uacpi_free resource n.

Definition uacpi_native_resources_from_aml (data length : Z) : H (uacpi_status * Z) :=
  r ← with_user {| buf := 0; st := UACPI_STATUS_OK; just_one := false |}
        (uacpi_for_each_aml_resource accumulate_native_buffer_size data length);
  let '(ret, ctx) := (r : uacpi_status * resource_conversion_ctx) in
  if negb (is_ok ret) then mret (ret, 0) else
  if negb (is_ok (st ctx)) then mret (st ctx, 0) else
  if MAX_BUFFER <? buf ctx then mret (UACPI_STATUS_INTERNAL_ERROR, 0) else
  resources ← uacpi_kernel_alloc_zeroed (buf ctx + UACPI_RESOURCES_SIZE);
  if resources =? 0 then mret (UACPI_STATUS_OUT_OF_MEMORY, 0) else
  wr 8 resources (buf ctx);;
  wr 8 (resources + 8) (resources + UACPI_RESOURCES_SIZE);;
  r ← with_user {| buf := resources + UACPI_RESOURCES_SIZE; st := UACPI_STATUS_OK; just_one := false |}
        (uacpi_for_each_aml_resource do_aml_resource_to_native data length);
  if negb (is_ok (fst r)) then uacpi_free_resources resources;; mret (fst r, 0)
  else mret (UACPI_STATUS_OK, resources).

Definition uacpi_get_resource_from_buffer (data length : Z) : H (uacpi_status * Z) :=
  r ← with_user {| buf := 0; st := UACPI_STATUS_OK; just_one := true |}
        (uacpi_for_each_aml_resource accumulate_native_buffer_size data length);
  let '(ret, ctx) := (r : uacpi_status * resource_conversion_ctx) in
  if negb (is_ok ret) then mret (ret, 0) else
  resource ← uacpi_kernel_alloc_zeroed (buf ctx);
  if resource =? 0 then mret (UACPI_STATUS_OUT_OF_MEMORY, 0) else
  r ← with_user {| buf := resource; st := UACPI_STATUS_OK; just_one := true |}
        (uacpi_for_each_aml_resource do_aml_resource_to_native data length);
  if negb (is_ok (fst r)) then uacpi_free_resource resource;; mret (fst r, 0)
  else mret (UACPI_STATUS_OK, resource).

Definition eval_resource_helper (node : Z) (method : list Z) : H (uacpi_status * Z) :=
  r ← node_is_device node;
  if negb (is_ok (fst r)) then mret (fst r, 0) else
  if negb (snd r) then mret (UACPI_STATUS_INVALID_ARGUMENT, 0) else
  uacpi_eval_simple_buffer node method.

Definition extract_native_resources_from_method (device : Z) (method : list Z) : H (uacpi_status * Z) :=
  r ← eval_resource_helper device method;
  if negb (is_ok (fst r)) then mret (fst r, 0) else
  v ← object_buffer_view (snd r);
  out ← uacpi_native_resources_from_aml (fst v) (snd v);
  object_unref (snd r);;
  mret out.

(** "_CRS" and "_PRS" *)
Definition uacpi_get_current_resources (device : Z) : H (uacpi_status * Z) :=
  extract_native_resources_from_method device [95; 67; 82; 83].
Definition uacpi_get_possible_resources (device : Z) : H (uacpi_status * Z) :=
  extract_native_resources_from_method device [95; 80; 82; 83].
Definition uacpi_get_device_resources (device : Z) (method : list Z) : H (uacpi_status * Z) :=
  extract_native_resources_from_method device method.

(** The callback works on the memory and the world. *)
Definition uacpi_for_each_device_resource (device : Z) (method : list Z) (cb : Z -> H Z) : H uacpi_status :=
  r ← extract_native_resources_from_method device method;
  if negb (is_ok (fst r)) then mret (fst r) else
  length ← rd 8 (snd r);
  entries ← rd 8 (snd r + 8);
  ret ← uacpi_for_each_resource cb length entries;
  uacpi_free_resources (snd r);;
  mret ret.

(** A fresh INLINE_END_TAG. *)
Definition make_end_tag {T} : SM (bytes * T) unit :=
  set_type inline_end_tag UACPI_RESOURCE_TYPE_END_TAG;; set_length inline_end_tag 0.

(** [f] on every resource, and on an end tag when there is none. *)
Definition for_each_and_end_tag (f : Z -> C Z) (length entries : Z) : C uacpi_status :=
  ret ← uacpi_for_each_resource f length entries;
  if bool_decide (ret = UACPI_STATUS_NO_RESOURCE_END_TAG)
  then make_end_tag;; f inline_end_tag;; mret UACPI_STATUS_OK else mret ret.

Definition native_resources_to_aml (length entries aml_buffer : Z) : H uacpi_status :=
  r ← with_user {| buf := aml_buffer; st := UACPI_STATUS_OK; just_one := false |}
        (for_each_and_end_tag do_native_resource_to_aml length entries);
  if negb (is_ok (fst r)) then mret (fst r) else mret (st (snd r)).

Definition uacpi_native_resources_to_aml (resources : Z) : H (uacpi_status * Z) :=
  length ← rd 8 resources;
  entries ← rd 8 (resources + 8);
  r ← with_user {| buf := 0; st := UACPI_STATUS_OK; just_one := false |}
        (for_each_and_end_tag accumulate_aml_buffer_size length entries);
  let '(ret, ctx) := (r : uacpi_status * resource_conversion_ctx) in
  if negb (is_ok ret) then mret (ret, 0) else
  if negb (is_ok (st ctx)) then mret (st ctx, 0) else
  if MAX_BUFFER <? buf ctx then mret (UACPI_STATUS_INTERNAL_ERROR, 0) else
  buffer ← uacpi_kernel_alloc_zeroed (buf ctx);
  if buffer =? 0 then mret (UACPI_STATUS_OUT_OF_MEMORY, 0) else
  obj ← uacpi_create_buffer_object;
  if obj =? 0 then uacpi_free buffer (buf ctx);; mret (UACPI_STATUS_OUT_OF_MEMORY, 0) else
  object_set_buffer obj buffer (buf ctx);;
  ret ← native_resources_to_aml length entries buffer;
  if negb (is_ok ret) then object_unref obj;; mret (ret, 0) else mret (UACPI_STATUS_OK, obj).

Definition uacpi_set_resources (device resources : Z) : H uacpi_status :=
  r ← uacpi_native_resources_to_aml resources;
  if negb (is_ok (fst r)) then mret (fst r) else
  ret ← uacpi_eval_SRS device (snd r);
  object_unref (snd r);;
  mret ret.
End Host.
