(* ===== verification/ResWalk.v ===== *)
(** * acpi/uacpi/resources.c: the walk over descriptors is a parser

    The iteration over an AML byte stream calls its callback on exactly the items of
    a pure parser of the bytes, and what it hands to the callback lies inside the
    stream. *)

From Stdlib Require Import Strings.String.
From S2P Require Import Prelude CMem UStdlib UCore ResTables Resources.

Open Scope string_scope.
Open Scope Z_scope.
Open Scope word_scope.

(** The bytes [l] are stored at [p]. *)
Definition bytes_at (m : bytes) (p : Z) (l : list Z) : Prop :=
  forall i c, l !! i = Some c -> m !! (p + Z.of_nat i) = Some c.

Lemma bytes_at_cons m p c l : bytes_at m p (c :: l) <-> m !! p = Some c /\ bytes_at m (p + 1) l.
Proof.
  split.
  - intros H; split; [specialize (H 0%nat c eq_refl); rewrite Z.add_0_r in H; exact H|].
    intros i x Hx; rewrite <- (H (S i) x Hx); f_equal; lia.
  - intros [H1 H2] [|i] x; cbn [lookup]; [intros [= <-]; rewrite Z.add_0_r; exact H1|].
    intros Hx; rewrite <- (H2 i x Hx); f_equal; lia.
Qed.

Lemma bytes_at_drop m p l n : bytes_at m p l -> bytes_at m (p + Z.of_nat n) (drop n l).
Proof.
  intros H i c; rewrite lookup_drop; intros Hc; rewrite <- (H _ _ Hc); f_equal; lia.
Qed.

(** ** The parser *)

(** Where an item starts, how many bytes follow its header, and what it is. *)
Definition item : Type := Z * Z * uacpi_aml_resource.

Definition item_size (l : list Z) : option Z :=
  match l with
  | b :: rest =>
      if negb (Z.land b ACPI_LARGE_ITEM =? 0) then
        match rest with
        | lo :: hi :: rest' =>
            let size := Z.lor lo (Z.shiftl hi 8) in
            if Z.of_nat (List.length rest') <? size then None else Some size
        | _ => None
        end
      else let size := Z.land b ACPI_SMALL_ITEM_LENGTH_MASK in
        if Z.of_nat (List.length rest) <? size then None else Some size
  | [] => None
  end.

Definition total_size (t : uacpi_aml_resource) (size : Z) : Z :=
  size + aml_resource_kind_to_header_size (resource_kind (aml_resources t)).

Definition serial_ok (t : uacpi_aml_resource) (l : list Z) : bool :=
  if bool_decide (t = UACPI_AML_RESOURCE_SERIAL_CONNECTION)
  then match l !! 5%nat with Some c => is_ok (validate_aml_serial_type c) | None => false end else true.

(** The items up to the first that is not well formed or the end tag, and the status
    that the walk ends with. *)
Fixpoint parse (fuel : nat) (off : Z) (l : list Z) : list item * uacpi_status :=
  match l, fuel with
  | [], _ => ([], UACPI_STATUS_NO_RESOURCE_END_TAG)
  | _, O => ([], UACPI_STATUS_INTERNAL_ERROR)
  | b :: _, S fuel' =>
      let t := get_aml_resource_type b in
      if bool_decide (t = UACPI_AML_RESOURCE_TYPE_INVALID) then ([], UACPI_STATUS_AML_INVALID_RESOURCE) else
      match item_size l with
      | None => ([], UACPI_STATUS_AML_INVALID_RESOURCE)
      | Some size =>
          if negb (size_fits (aml_resources t) size) || negb (serial_ok t l)
          then ([], UACPI_STATUS_AML_INVALID_RESOURCE)
          else if bool_decide (t = UACPI_AML_RESOURCE_END_TAG) then ([(off, size, t)], UACPI_STATUS_OK)
          else let '(rest, ret) := parse fuel' (off + total_size t size) (drop (Z.to_nat (total_size t size)) l) in
               ((off, size, t) :: rest, ret)
      end
  end.

Definition parse_resources (l : list Z) : list item * uacpi_status := parse (List.length l) 0 l.

Section Walk.
Context {T : Type}.
Implicit Types s : bytes * T.

(** The callbacks of the items in order. *)
Fixpoint walk_items (cb : Z -> Z -> uacpi_resource_spec -> SM (bytes * T) Z) (data : Z) (items : list item)
    (ret : uacpi_status) : SM (bytes * T) uacpi_status :=
  match items with
  | [] => mret ret
  | (off, size, t) :: items' =>
      decision ← cb (data + off) size (aml_resources t);
      if decision =? DECISION_BREAK then mret UACPI_STATUS_OK else
      if decision =? DECISION_CONTINUE then walk_items cb data items' ret else mret UACPI_STATUS_INTERNAL_ERROR
  end.

(** [c] leaves the bytes [l] at [p] alone. *)
Definition leaves {A} (p : Z) (l : list Z) (c : SM (bytes * T) A) : Prop := forall s a s',
  bytes_at (fst s) p l -> c s = Some (a, s') -> bytes_at (fst s') p l.

Lemma rd1 p s b : fst s !! p = Some b -> rd 1 p s = Some (b, s).
Proof. intros E; unfold rd, load_le, load8; rewrite E; cbn; rewrite Z.lor_0_r; reflexivity. Qed.

Lemma rd2 p s lo hi : fst s !! p = Some lo -> fst s !! (p + 1) = Some hi ->
  rd 2 p s = Some (Z.lor lo (Z.shiftl hi 8), s).
Proof. intros E1 E2; unfold rd, load_le, load8; rewrite E1; cbn; rewrite E2; cbn; rewrite Z.lor_0_r; reflexivity. Qed.

Lemma get_size_spec data l s : bytes_at (fst s) data l -> l <> [] -> Z.of_nat (List.length l) < 2 ^ 64 ->
  get_aml_resource_size data (Z.of_nat (List.length l)) s =
  Some (match item_size l with Some n => (UACPI_STATUS_OK, n) | None => (UACPI_STATUS_AML_INVALID_RESOURCE, 0) end, s).
Proof.
  destruct l as [|b l]; [congruence|]; intros H _ Hn; apply bytes_at_cons in H as [Hb H].
  unfold get_aml_resource_size; erewrite SM_bind_Some by (apply rd1, Hb); cbn [item_size].
  destruct (negb (Z.land b ACPI_LARGE_ITEM =? 0)).
  - destruct l as [|lo [|hi l]]; [reflexivity|reflexivity|].
    apply bytes_at_cons in H as [Hlo H]; apply bytes_at_cons in H as [Hhi H]; cbn [List.length] in *.
    destruct (Z.ltb_spec (Z.of_nat (S (S (S (List.length l))))) 3); [lia|].
    erewrite SM_bind_Some by (apply rd2; eassumption).
    change (aml_resource_kind_to_header_size KIND_LARGE) with 3; rewrite wrap_id by (unfold in_w; lia).
    replace (Z.of_nat (S (S (S (List.length l)))) - 3) with (Z.of_nat (List.length l)) by lia.
    destruct (_ <? _); reflexivity.
  - change (aml_resource_kind_to_header_size KIND_SMALL) with 1; cbn [List.length] in *.
    rewrite wrap_id by (unfold in_w; lia).
    replace (Z.of_nat (S (List.length l)) - 1) with (Z.of_nat (List.length l)) by lia; destruct (_ <? _); reflexivity.
Qed.
End Walk.

(** ** What the parser accepts *)

(** The entry of the table for a raw byte is of the kind that the byte says. *)
Definition entry_consistent (b : Z) : bool :=
  bool_decide (get_aml_resource_type b = UACPI_AML_RESOURCE_TYPE_INVALID) ||
  (match resource_kind (aml_resources (get_aml_resource_type b)), negb (Z.land b ACPI_LARGE_ITEM =? 0) with
   | KIND_LARGE, true | KIND_SMALL, false => true
   | _, _ => false
   end && bool_decide (type (aml_resources (get_aml_resource_type b)) = get_aml_resource_type b)).

Lemma entries_consistent b : in_w 8 b -> get_aml_resource_type b <> UACPI_AML_RESOURCE_TYPE_INVALID ->
  resource_kind (aml_resources (get_aml_resource_type b)) =
    (if negb (Z.land b ACPI_LARGE_ITEM =? 0) then KIND_LARGE else KIND_SMALL) /\
  type (aml_resources (get_aml_resource_type b)) = get_aml_resource_type b.
Proof.
  intros Hb Ht; assert (H : entry_consistent b = true).
  { apply (forallb_range _ 0 256); [vm_compute; reflexivity|unfold in_w in Hb; lia]. }
  unfold entry_consistent in H; rewrite bool_decide_false in H by exact Ht; cbn [orb] in H.
  apply andb_true_iff in H as [H1 H2]; apply bool_decide_eq_true in H2; split; [|exact H2].
  destruct (resource_kind _), (negb _); try discriminate; reflexivity.
Qed.

Definition bytes_ok_list (l : list Z) : Prop := Forall (in_w 8) l.

Lemma item_size_bounds b l n : bytes_ok_list (b :: l) ->
  get_aml_resource_type b <> UACPI_AML_RESOURCE_TYPE_INVALID -> item_size (b :: l) = Some n ->
  0 <= n < 2 ^ 16 /\ 0 < total_size (get_aml_resource_type b) n <= Z.of_nat (List.length (b :: l)).
Proof.
  intros Hok Ht; apply Forall_cons in Hok as [Hb Hok]; destruct (entries_consistent b Hb Ht) as [Hk _].
  unfold total_size; rewrite Hk; cbn [item_size]; destruct (negb _).
  - destruct l as [|lo [|hi l]]; [discriminate|discriminate|].
    apply Forall_cons in Hok as [Hlo Hok]; apply Forall_cons in Hok as [Hhi Hok]; unfold in_w in *.
    rewrite Z.lor_comm, lor_shiftl_add by (unfold in_w; lia).
    destruct (Z.ltb_spec (Z.of_nat (List.length l)) (hi * 2 ^ 8 + lo)); [discriminate|]; intros [= <-].
    change (aml_resource_kind_to_header_size KIND_LARGE) with 3; cbn [List.length]; lia.
  - destruct (Z.ltb_spec (Z.of_nat (List.length l)) (Z.land b ACPI_SMALL_ITEM_LENGTH_MASK)); [discriminate|].
    intros [= <-]; change ACPI_SMALL_ITEM_LENGTH_MASK with (Z.ones 3) in *; rewrite Z.land_ones in * by lia.
    pose proof (Z.mod_pos_bound b (2 ^ 3) ltac:(lia)).
    change (aml_resource_kind_to_header_size KIND_SMALL) with 1; cbn [List.length]; lia.
Qed.

(** The types that come out of the raw bytes, with their entries. *)
Lemma serial_size_fits n : size_fits (aml_resources UACPI_AML_RESOURCE_SERIAL_CONNECTION) n = true -> 9 <= n.
Proof. apply Z.leb_le. Qed.

(** ** The refinement *)

Section Refinement.
Context {T : Type} (cb : Z -> Z -> uacpi_resource_spec -> SM (bytes * T) Z).
Implicit Types s : bytes * T.

(** The check of the serial type. *)
Lemma serial_check data l t s : bytes_at (fst s) data l ->
  (t = UACPI_AML_RESOURCE_SERIAL_CONNECTION -> (5 < List.length l)%nat) -> type (aml_resources t) = t ->
  exists ret, (if bool_decide (type (aml_resources t) = UACPI_AML_RESOURCE_SERIAL_CONNECTION)
   then st ← rd 1 (data + offsetof (packed acpi_resource_serial) "type"); mret (validate_aml_serial_type st)
   else mret UACPI_STATUS_OK) s = Some (ret, s) /\
  is_ok ret = serial_ok t l /\ (is_ok ret = false -> ret = UACPI_STATUS_AML_INVALID_RESOURCE).
Proof.
  intros H Hlen Ht; unfold serial_ok; rewrite Ht; case_bool_decide as Es.
  - specialize (Hlen Es); destruct (lookup_lt_is_Some_2 l 5 ltac:(lia)) as [c Hc]; rewrite Hc.
    erewrite SM_bind_Some by (apply rd1; change (data + offsetof (packed acpi_resource_serial) "type")
      with (data + Z.of_nat 5); apply (H _ _ Hc)).
    eexists; split; [reflexivity|split; [reflexivity|]]; unfold validate_aml_serial_type.
    destruct (_ || _); [reflexivity|discriminate].
  - eexists; split; [reflexivity|split; [reflexivity|discriminate]].
Qed.

Variables (data : Z) (L : list Z).
Hypotheses (Hok : bytes_ok_list L) (HL : Z.of_nat (List.length L) < 2 ^ 64)
  (Hcb : forall d n spec, leaves data L (cb d n spec)).

Lemma drop_ok k : bytes_ok_list (drop k L).
Proof. apply Forall_drop, Hok. Qed.

Lemma for_each_aml_loop_parse fuel : forall k s, bytes_at (fst s) data L -> (List.length (drop k L) <= fuel)%nat ->
  for_each_aml_loop cb fuel (data + Z.of_nat k) (Z.of_nat (List.length (drop k L))) s =
  walk_items cb data (fst (parse fuel (Z.of_nat k) (drop k L))) (snd (parse fuel (Z.of_nat k) (drop k L))) s.
Proof.
  induction fuel as [|fuel IH]; intros k s Hs Hf;
    pose proof (bytes_at_drop _ _ _ k Hs) as Hd; pose proof (drop_ok k) as Hdok;
    assert (Hlen : (List.length (drop k L) <= List.length L)%nat) by (rewrite length_drop; lia);
    destruct (drop k L) as [|b l] eqn:El; try reflexivity; [cbn in Hf; lia|].
  assert (Hnz : (Z.of_nat (List.length (b :: l)) =? 0) = false) by (apply Z.eqb_neq; cbn [List.length]; lia).
  assert (Hmod : Z.of_nat (List.length (b :: l)) < 2 ^ 64) by lia.
  cbn [for_each_aml_loop parse]; rewrite Hnz.
  erewrite SM_bind_Some by (apply rd1; apply bytes_at_cons in Hd as [Hd0 _]; exact Hd0).
  case_bool_decide as Et; [reflexivity|].
  erewrite SM_bind_Some by (apply (get_size_spec _ (b :: l)); [exact Hd|discriminate|exact Hmod]).
  destruct (item_size (b :: l)) as [n|] eqn:En; [|reflexivity]; cbn [is_ok negb].
  destruct (item_size_bounds b l n Hdok Et En) as [Hn Htot].
  apply Forall_cons in Hdok as [Hb _]; destruct (entries_consistent b Hb Et) as [_ Hty].
  set (t := get_aml_resource_type b) in *; destruct (size_fits (aml_resources t) n) eqn:Efit; [|reflexivity]; cbn [negb orb].
  destruct (serial_check (data + Z.of_nat k) (b :: l) t s Hd) as (ret & Er & Hret & Hbad); [|exact Hty|].
  { intros Es; rewrite Es in Efit, Htot; apply serial_size_fits in Efit.
    change (total_size UACPI_AML_RESOURCE_SERIAL_CONNECTION n) with (n + 3) in Htot; lia. }
  erewrite SM_bind_Some by exact Er; clear Er; rewrite <- Hret; destruct (is_ok ret) eqn:Eok; cbn [negb].
  2:{ rewrite (Hbad eq_refl); reflexivity. }
  case_bool_decide as Eend.
  { cbn [fst snd walk_items]; unfold mbind, SM_bind.
    destruct (cb (data + Z.of_nat k) n (aml_resources t) s) as [[d s1]|]; [|reflexivity].
    destruct (d =? DECISION_BREAK); [reflexivity|]; destruct (d =? DECISION_CONTINUE); reflexivity. }
  set (tot := total_size t n) in *.
  assert (Edrop : drop (Z.to_nat tot) (b :: l) = drop (k + Z.to_nat tot) L) by (rewrite <- El, drop_drop; reflexivity).
  rewrite Edrop; replace (Z.of_nat k + tot) with (Z.of_nat (k + Z.to_nat tot)) by lia.
  destruct (parse fuel _ (drop (k + Z.to_nat tot) L)) as [rest ret'] eqn:Ep; cbn [fst snd walk_items].
  unfold mbind, SM_bind; destruct (cb (data + Z.of_nat k) n (aml_resources t) s) as [[d s1]|] eqn:Ecb; [|reflexivity].
  destruct (d =? DECISION_BREAK); [reflexivity|]; destruct (d =? DECISION_CONTINUE); [|reflexivity].
  assert (Hrest : List.length (drop (k + Z.to_nat tot) L) = (List.length (b :: l) - Z.to_nat tot)%nat)
    by (rewrite <- Edrop, length_drop; reflexivity).
  fold (total_size t n); fold tot; rewrite wrap_id by (unfold in_w; lia).
  replace (data + Z.of_nat k + tot) with (data + Z.of_nat (k + Z.to_nat tot)) by lia.
  replace (Z.of_nat (List.length (b :: l)) - tot) with (Z.of_nat (List.length (drop (k + Z.to_nat tot) L))) by lia.
  rewrite IH; [rewrite Ep; reflexivity|eapply Hcb; eassumption|cbn [List.length] in *; lia].
Qed.
End Refinement.

(** ** The items lie in the stream *)

Definition item_in (n : Z) (it : item) : Prop :=
  let '(off, size, t) := it in
  0 <= off /\ 0 <= size /\ off + total_size t size <= n /\ t <> UACPI_AML_RESOURCE_TYPE_INVALID /\
  size_fits (aml_resources t) size = true.

Lemma parse_items_in fuel : forall k L, bytes_ok_list L ->
  Forall (item_in (Z.of_nat k + Z.of_nat (List.length L))) (fst (parse fuel (Z.of_nat k) L)).
Proof.
  induction fuel as [|fuel IH]; intros k [|b l] Hok; cbn [parse]; try constructor.
  case_bool_decide as Et; [constructor|]; destruct (item_size (b :: l)) as [n|] eqn:En; [|constructor].
  destruct (item_size_bounds b l n Hok Et En) as [Hn Htot].
  set (t := get_aml_resource_type b) in *; destruct (size_fits (aml_resources t) n) eqn:Ef; [|constructor].
  destruct (serial_ok t (b :: l)); [|constructor]; cbn [negb orb].
  assert (Hhead : item_in (Z.of_nat k + Z.of_nat (List.length (b :: l))) (Z.of_nat k, n, t))
    by (unfold item_in; repeat split; try lia; assumption).
  case_bool_decide; [constructor; [exact Hhead|constructor]|].
  set (tot := total_size t n) in *; replace (Z.of_nat k + tot) with (Z.of_nat (k + Z.to_nat tot)) by lia.
  specialize (IH (k + Z.to_nat tot)%nat (drop (Z.to_nat tot) (b :: l))).
  destruct (parse fuel _ (drop (Z.to_nat tot) (b :: l))) as [rest ret]; cbn [fst]; constructor; [exact Hhead|].
  eapply Forall_impl; [apply IH; apply Forall_drop; exact Hok|]; intros [[off size] t'] Hit; unfold item_in in *.
  rewrite length_drop in Hit; cbn [List.length] in *; destruct Hit as (? & ? & ? & ? & ?); repeat split; try lia; assumption.
Qed.

(** C25.  Walking an AML resource stream terminates and is a fold over the items of a
    pure parser: with any callback that leaves the stream alone, the callback is
    called on exactly these items in order until it stops the walk, and the status
    is that of the parser.  Every item that a callback sees lies wholly inside the
    stream and has a size that its kind admits. *)
Theorem for_each_aml_resource_parses {T} (cb : Z -> Z -> uacpi_resource_spec -> SM (bytes * T) Z) data L (s : bytes * T) :
  bytes_ok_list L -> Z.of_nat (List.length L) < 2 ^ 64 -> bytes_at (fst s) data L ->
  (forall d n spec, leaves data L (cb d n spec)) ->
  uacpi_for_each_aml_resource cb data (Z.of_nat (List.length L)) s =
    walk_items cb data (fst (parse_resources L)) (snd (parse_resources L)) s /\
  Forall (item_in (Z.of_nat (List.length L))) (fst (parse_resources L)).
Proof.
  intros Hok HL Hs Hcb; split; [|apply (parse_items_in _ 0); exact Hok].
  unfold uacpi_for_each_aml_resource; rewrite Nat2Z.id.
  pose proof (for_each_aml_loop_parse cb data L Hok HL Hcb (List.length L) 0 s Hs) as E.
  rewrite drop_0, Z.add_0_r in E; apply E; lia.
Qed.
