(* ===== verification/ResConvert.v ===== *)
(** * acpi/uacpi/resources.c: conversions that only move bits

    Most kinds of resources are converted by programs that copy fields and bit fields
    between the two forms.  Such a program is a list of moves of bits; when the moves
    are disjoint on both sides, which is a computation on the table, converting a
    descriptor to its native form and back gives every bit that the program knows of
    back. *)

From Stdlib Require Import Strings.String.
From S2P Require Import Prelude CMem UStdlib UCore ResTables Resources ResWalk.

Open Scope string_scope.
Open Scope Z_scope.
Open Scope word_scope.

(** ** Moves *)

(** [mv_w] bits from bit [mv_a] of the descriptor to bit [mv_n] of the native
    structure, where the bits up to [mv_z] are cleared. *)
Record move := { mv_a : Z; mv_n : Z; mv_w : Z; mv_z : Z }.

Definition is_field (c : uacpi_resource_convert_opcode) : bool := 0 <? field_bytes c.
Definition is_bit_field (c : uacpi_resource_convert_opcode) : bool := 0 <? bit_field_width c.
Definition is_load (c : uacpi_resource_convert_opcode) : bool := match c with LOAD_8_STORE => true | _ => false end.

(** The instructions that move bits when the accumulator holds [acc], how many bytes
    they touch, and what the accumulator holds afterwards ([v] is the byte loaded). *)
Definition moving (acc : Z) (i : uacpi_resource_convert_instruction) : bool :=
  (is_field (code i) && (0 <=? imm i) && (imm i <=? 0xff) && (0 <=? acc) && (acc <=? 0xffff)) ||
  (is_bit_field (code i) && (0 <=? imm i) && (imm i + bit_field_width (code i) <=? 8)) ||
  is_load (code i).

Definition span (acc : Z) (i : uacpi_resource_convert_instruction) : Z :=
  if is_field (code i) then field_bytes (code i) * Z.max 1 (if imm i =? 0xff then 0 else acc + imm i) else 1.

Definition next_acc (acc v : Z) (i : uacpi_resource_convert_instruction) : Z :=
  if is_field (code i) then 0 else
  if is_load (code i) then if negb (imm i =? 0) then u32 (v * imm i) else v else acc.

Definition move_of (acc : Z) (i : uacpi_resource_convert_instruction) : move :=
  if is_bit_field (code i)
  then {| mv_a := 8 * aml_offset i + imm i; mv_n := 8 * native_offset i; mv_w := bit_field_width (code i); mv_z := 8 |}
  else {| mv_a := 8 * aml_offset i; mv_n := 8 * native_offset i; mv_w := 8 * span acc i; mv_z := 8 * span acc i |}.

(** Does the instruction stay inside the two structures? *)
Definition fits (asize nsize acc : Z) (i : uacpi_resource_convert_instruction) : bool :=
  (0 <=? aml_offset i) && (aml_offset i + span acc i <=? asize) && (0 <=? native_offset i) &&
  (native_offset i + span acc i <=? nsize).

Lemma fits_spec asize nsize acc i : fits asize nsize acc i = true ->
  0 <= aml_offset i /\ aml_offset i + span acc i <= asize /\ 0 <= native_offset i /\ native_offset i + span acc i <= nsize.
Proof. unfold fits; rewrite !andb_true_iff, !Z.leb_le; tauto. Qed.

(** The three shapes of a moving instruction. *)
Lemma moving_cases acc i : moving acc i = true ->
  (is_field (code i) = true /\ is_bit_field (code i) = false /\ 0 <= imm i <= 0xff /\ 0 <= acc <= 0xffff) \/
  (is_bit_field (code i) = true /\ is_field (code i) = false /\ is_load (code i) = false /\
    0 <= imm i /\ 0 < bit_field_width (code i) /\ imm i + bit_field_width (code i) <= 8) \/
  (code i = LOAD_8_STORE /\ is_field (code i) = false /\ is_bit_field (code i) = false).
Proof.
  unfold moving; intros H; apply orb_true_iff in H as [H|H]; [apply orb_true_iff in H as [H|H]|].
  - rewrite !andb_true_iff, !Z.leb_le in H; left; repeat split; try apply H; destruct (code i); cbn in *; intuition discriminate.
  - rewrite !andb_true_iff, !Z.leb_le in H; right; left; destruct H as [[H H2] H3].
    destruct (code i); try discriminate; repeat split; try exact H2; try exact H3; reflexivity.
  - right; right; destruct (code i); try discriminate; auto.
Qed.

Lemma span_pos acc i : moving acc i = true -> 0 < span acc i < 2 ^ 32.
Proof.
  intros H; unfold span; destruct (moving_cases acc i H) as [(E & _ & Hi & Ha)|[(_ & -> & _)|(_ & -> & _)]]; [|lia..].
  rewrite E; destruct (imm i =? 0xff), (code i); try discriminate E; cbn [field_bytes]; lia.
Qed.

(** One range of bits copied, the bits behind it cleared. *)
Definition moved (m m' : bytes) (p q w z : Z) : Prop :=
  same_dom m m' /\ bytes_ok m' /\
  forall k, bitat m' k = if within p w k then bitat m (q + (k - p)) else if within p z k then false else bitat m k.

Lemma memcpy_moved {T} (m : bytes) (u : T) d s n : bytes_ok m -> 0 <= n -> owned m d n -> owned m s n ->
  apart d n s n -> exists m', memcpy d s n (m, u) = Some (tt, (m', u)) /\ moved m m' (8 * d) (8 * s) (8 * n) (8 * n).
Proof.
  intros Hok Hn Hd Hs Hap; destruct (memcpy_spec m d s n) as (m' & E & Hc); [assumption..|unfold apart in Hap; lia|].
  exists m'; split; [unfold memcpy, on_mem; cbn [fst snd]; rewrite E; reflexivity|].
  split; [eapply copied_same_dom; eassumption|split; [eapply copied_ok; eassumption|]].
  intros k; rewrite (bitat_copy m m' d s n Hc); destruct (withinP (8 * d) (8 * n) k); [f_equal; lia|reflexivity].
Qed.

Lemma wr1 {T} (m : bytes) (u : T) p v : is_Some (m !! p) -> wr 1 p v (m, u) = Some (tt, (<[p := u8 v]> m, u)).
Proof.
  intros [b E]; unfold wr, on_mem; cbn [fst snd store_le]; unfold store8; rewrite E; cbn [mbind option_bind].
  rewrite wrap_wrap by lia; reflexivity.
Qed.

(** ** One instruction *)

Section Step.
Variables (data aml_size_ header_size resource dst_base : Z) (spec : uacpi_resource_spec).
Implicit Types (l : locals) (u : resource_conversion_ctx).

(** A field, in either direction. *)
Lemma common_field i l m u size src dst buf_ : is_field (code i) = true -> moving (accumulator l) i = true ->
  bytes_ok m -> owned m src (span (accumulator l) i) -> owned m dst (span (accumulator l) i) ->
  apart dst (span (accumulator l) i) src (span (accumulator l) i) ->
  exists m', common_opcode i l size src dst buf_ (m, u) = Some (Go (with_acc 0 l), (m', u)) /\
    moved m m' (8 * dst) (8 * src) (8 * span (accumulator l) i) (8 * span (accumulator l) i).
Proof.
  intros Ef Hst Hok Hs Hd Hap; pose proof (span_pos _ i Hst) as Hsp.
  destruct (memcpy_moved m u dst src (span (accumulator l) i)) as (m' & E & Hm); [assumption|lia|assumption..|].
  exists m'; split; [|exact Hm].
  assert (Ecount : u32 (field_bytes (code i) * Z.max 1 (if imm i =? 0xff then 0 else u32 (accumulator l + imm i))) =
    span (accumulator l) i).
  { destruct (moving_cases _ i Hst) as [(_ & _ & Hi & Ha)|[(_ & H & _)|(_ & H & _)]]; [|congruence..].
    rewrite (wrap_id 32 (accumulator l + imm i)) by (unfold in_w; lia).
    unfold span in Hsp |- *; rewrite Ef in *; apply wrap_id; unfold in_w; lia. }
  unfold common_opcode; destruct (code i) eqn:Ec; try discriminate; rewrite Ecount;
    (erewrite SM_bind_Some by exact E); reflexivity.
Qed.

(** A byte that is also loaded. *)
Lemma common_load i l m u size src dst buf_ v : code i = LOAD_8_STORE -> bytes_ok m -> m !! src = Some v ->
  is_Some (m !! dst) ->
  exists m', common_opcode i l size src dst buf_ (m, u) = Some (Go (with_acc (next_acc (accumulator l) v i) l), (m', u)) /\
    moved m m' (8 * dst) (8 * src) 8 8.
Proof.
  intros Ec Hok Hv Hd; assert (Hvw : in_w 8 v) by eauto; unfold common_opcode, next_acc; rewrite Ec; cbn [is_field is_load field_bytes].
  erewrite SM_bind_Some by (apply rd1; exact Hv); erewrite SM_bind_Some by (apply wr1; exact Hd).
  eexists; split; [reflexivity|]; split; [apply same_dom_insert, Hd|split; [apply bytes_ok_insert, Hok|]].
  intros k; rewrite bitat_insert by exact Hd; destruct (withinP (8 * dst) 8 k) as [Hk|Hk]; [|reflexivity].
  rewrite wrap_id by exact Hvw; rewrite (bitat_in m src v) by (try exact Hv; lia); f_equal; lia.
Qed.

(** A bit field of the descriptor into a byte of the native structure. *)
Lemma bits_to_byte m u src dst sh w : bytes_ok m -> is_Some (m !! src) -> is_Some (m !! dst) ->
  0 <= sh -> 0 < w -> sh + w <= 8 ->
  exists m', (v ← rd 1 src; wr 1 dst (Z.land (Z.shiftr v sh) (Z.ones w))) (m, u : resource_conversion_ctx) = Some (tt, (m', u)) /\
    moved m m' (8 * dst) (8 * src + sh) w 8.
Proof.
  intros Hok [b Hb] Hd Hsh Hw H8; assert (Hbw : in_w 8 b) by eauto.
  erewrite SM_bind_Some by (apply rd1; exact Hb); rewrite wr1 by exact Hd.
  eexists; split; [reflexivity|]; split; [apply same_dom_insert, Hd|split; [apply bytes_ok_insert, Hok|]].
  intros k; rewrite bitat_insert by exact Hd.
  destruct (withinP (8 * dst) 8 k) as [Hk|Hk], (withinP (8 * dst) w k) as [Hk'|Hk']; try lia; try reflexivity.
  - rewrite (bitat_in m src b) by (try exact Hb; lia); bits_simpl.
    destruct (Z.ltb_spec (k - 8 * dst) 8), (Z.leb_spec 0 (k - 8 * dst)), (Z.ltb_spec (k - 8 * dst) w); try lia.
    cbn [andb]; rewrite andb_true_r; f_equal; lia.
  - bits_simpl; destruct (Z.ltb_spec (k - 8 * dst) w); [lia|]; rewrite !andb_false_r; reflexivity.
Qed.

(** And back, into bits that are still clear. *)
Lemma byte_to_bits m u src dst sh w : bytes_ok m -> is_Some (m !! src) -> is_Some (m !! dst) ->
  0 <= sh -> 0 < w -> sh + w <= 8 ->
  (forall k, 8 * src + w <= k < 8 * src + 8 -> bitat m k = false) ->
  (forall k, 8 * dst + sh <= k < 8 * dst + sh + w -> bitat m k = false) ->
  exists m', (d ← rd 1 dst; v ← rd 1 src; wr 1 dst (Z.lor d (Z.shiftl v sh))) (m, u : resource_conversion_ctx) =
      Some (tt, (m', u)) /\
    moved m m' (8 * dst + sh) (8 * src) w w.
Proof.
  intros Hok [b Hb] [d Hd] Hsh Hw H8 Hhigh Hclear; assert (Hbw : in_w 8 b) by eauto; assert (Hdw : in_w 8 d) by eauto.
  erewrite SM_bind_Some by (apply rd1; exact Hd); erewrite SM_bind_Some by (apply rd1; exact Hb).
  rewrite wr1 by (eexists; exact Hd); eexists; split; [reflexivity|].
  split; [apply same_dom_insert; eexists; exact Hd|split; [apply bytes_ok_insert, Hok|]].
  intros k; rewrite bitat_insert by (eexists; exact Hd).
  destruct (withinP (8 * dst) 8 k) as [Hk|Hk].
  2:{ destruct (withinP (8 * dst + sh) w k); [lia|reflexivity]. }
  bits_simpl; destruct (Z.ltb_spec (k - 8 * dst) 8); [|lia]; cbn [andb].
  rewrite <- (bitat_in m dst d) by (try exact Hd; lia).
  destruct (withinP (8 * dst + sh) w k) as [Hk'|Hk'].
  - rewrite (Hclear k) by lia; cbn [orb].
    rewrite (bitat_in m src b) by (try exact Hb; lia); f_equal; lia.
  - assert (E : Z.testbit b (k - 8 * dst - sh) = false); [|rewrite E, orb_false_r; reflexivity].
    destruct (Z.lt_ge_cases (k - 8 * dst - sh) 0); [apply Z.testbit_neg_r; lia|].
    rewrite <- (Hhigh (8 * src + (k - 8 * dst - sh))) by lia.
    rewrite (bitat_in m src b) by (try exact Hb; lia); f_equal; lia.
Qed.

(** One instruction towards the native structure: [asize] bytes of descriptor at
    [data], [nsize] bytes of native structure behind the header at [resource]. *)
Lemma opcode_to_native_moves i l m u asize nsize v : moving (accumulator l) i = true ->
  fits asize nsize (accumulator l) i = true -> (is_load (code i) = true -> m !! (data + aml_offset i) = Some v) ->
  bytes_ok m -> owned m data asize -> owned m (resource + 8) nsize -> apart data asize (resource + 8) nsize ->
  let mv := move_of (accumulator l) i in
  exists m', opcode_to_native data aml_size_ header_size resource i l (m, u) =
      Some (Go (with_acc (next_acc (accumulator l) v i) l), (m', u)) /\
    moved m m' (8 * (resource + 8) + mv_n mv) (8 * data + mv_a mv) (mv_w mv) (mv_z mv).
Proof.
  intros Hst Hfit Hv Hok Ha Hn Hap; pose proof (span_pos _ i Hst) as Hsp; apply fits_spec in Hfit as (H1 & H2 & H3 & H4).
  assert (Hs : owned m (data + aml_offset i) (span (accumulator l) i)) by (eapply owned_sub; [exact Ha|lia..]).
  assert (Hd : owned m (NATIVE_OFFSET resource (native_offset i)) (span (accumulator l) i))
    by (unfold NATIVE_OFFSET; eapply owned_sub; [exact Hn|lia..]).
  assert (Eb : 8 * (resource + 8) + 8 * native_offset i = 8 * NATIVE_OFFSET resource (native_offset i)) by (unfold NATIVE_OFFSET; lia).
  cbv zeta; unfold move_of; destruct (moving_cases _ i Hst) as [(Ef & Eg & _)|[(Eg & Ef & El & Hi0 & Hw & Hi8)|(Ec & Ef & Eg)]];
    rewrite Eg; cbn [mv_a mv_n mv_w mv_z]; rewrite ?Eb.
  - destruct (common_field i l m u aml_size_ (data + aml_offset i) (NATIVE_OFFSET resource (native_offset i))
      (NATIVE_OFFSET resource (native_offset i))) as (m' & E & Hm); try assumption.
    { unfold apart, NATIVE_OFFSET in *; lia. }
    exists m'; split; [|rewrite <- Z.mul_add_distr_l; exact Hm].
    unfold next_acc; rewrite Ef; unfold opcode_to_native; destruct (code i) eqn:Ec; try discriminate; exact E.
  - destruct (bits_to_byte m u (data + aml_offset i) (NATIVE_OFFSET resource (native_offset i)) (imm i)
      (bit_field_width (code i))) as (m' & E & Hm); [assumption|apply Hs; lia|apply Hd; lia|lia..|].
    exists m'; split; [|rewrite Z.add_assoc, <- Z.mul_add_distr_l; exact Hm].
    unfold next_acc; rewrite Ef, El; replace (with_acc (accumulator l) l) with l by (destruct l; reflexivity).
    apply SM_bind_inv in E as (b & s1 & E1 & E2); unfold opcode_to_native; destruct (code i) eqn:Ec; try discriminate;
      (erewrite SM_bind_Some by exact E1; erewrite SM_bind_Some by exact E2; reflexivity).
  - destruct (common_load i l m u aml_size_ (data + aml_offset i) (NATIVE_OFFSET resource (native_offset i))
      (NATIVE_OFFSET resource (native_offset i)) v Ec Hok) as (m' & E & Hm); [apply Hv; rewrite Ec; reflexivity|apply Hd; lia|].
    exists m'; split; [unfold opcode_to_native; rewrite Ec; exact E|].
    unfold span; rewrite Ef; rewrite <- Z.mul_add_distr_l; exact Hm.
Qed.

(** And back. *)
Lemma opcode_to_aml_moves i l m u asize nsize v : moving (accumulator l) i = true ->
  fits asize nsize (accumulator l) i = true ->
  (is_load (code i) = true -> m !! NATIVE_OFFSET resource (native_offset i) = Some v) ->
  bytes_ok m -> owned m dst_base asize -> owned m (resource + 8) nsize -> apart dst_base asize (resource + 8) nsize ->
  let mv := move_of (accumulator l) i in
  (forall k, mv_n mv + mv_w mv <= k < mv_n mv + mv_z mv -> bitat m (8 * (resource + 8) + k) = false) ->
  (forall k, mv_a mv <= k < mv_a mv + mv_w mv -> bitat m (8 * dst_base + k) = false) ->
  exists m', opcode_to_aml resource dst_base spec aml_size_ i l (m, u) =
      Some (Go (with_acc (next_acc (accumulator l) v i) l), (m', u)) /\
    moved m m' (8 * dst_base + mv_a mv) (8 * (resource + 8) + mv_n mv) (mv_w mv) (mv_w mv).
Proof.
  intros Hst Hfit Hv Hok Ha Hn Hap; pose proof (span_pos _ i Hst) as Hsp; apply fits_spec in Hfit as (H1 & H2 & H3 & H4).
  assert (Hd : owned m (dst_base + aml_offset i) (span (accumulator l) i)) by (eapply owned_sub; [exact Ha|lia..]).
  assert (Hs : owned m (NATIVE_OFFSET resource (native_offset i)) (span (accumulator l) i))
    by (unfold NATIVE_OFFSET; eapply owned_sub; [exact Hn|lia..]).
  assert (Eb : 8 * (resource + 8) + 8 * native_offset i = 8 * NATIVE_OFFSET resource (native_offset i)) by (unfold NATIVE_OFFSET; lia).
  cbv zeta; unfold move_of; destruct (moving_cases _ i Hst) as [(Ef & Eg & _)|[(Eg & Ef & El & Hi0 & Hw & Hi8)|(Ec & Ef & Eg)]];
    rewrite Eg; cbn [mv_a mv_n mv_w mv_z]; rewrite ?Eb; intros Hhigh Hclear.
  - destruct (common_field i l m u aml_size_ (NATIVE_OFFSET resource (native_offset i)) (dst_base + aml_offset i)
      (NATIVE_OFFSET resource (native_offset i))) as (m' & E & Hm); try assumption.
    { unfold apart, NATIVE_OFFSET in *; lia. }
    exists m'; split; [|rewrite <- Z.mul_add_distr_l; exact Hm].
    unfold next_acc; rewrite Ef; unfold opcode_to_aml; destruct (code i) eqn:Ec; try discriminate; exact E.
  - destruct (byte_to_bits m u (NATIVE_OFFSET resource (native_offset i)) (dst_base + aml_offset i) (imm i)
      (bit_field_width (code i))) as (m' & E & Hm); [assumption|apply Hs; lia|apply Hd; lia|lia..| | |].
    + intros k Hk; rewrite <- (Hhigh (k - 8 * (resource + 8))) by lia; f_equal; lia.
    + intros k Hk; rewrite <- (Hclear (k - 8 * dst_base)) by lia; f_equal; lia.
    + exists m'; split; [|rewrite Z.add_assoc, <- Z.mul_add_distr_l; exact Hm].
      unfold next_acc; rewrite Ef, El; replace (with_acc (accumulator l) l) with l by (destruct l; reflexivity).
      apply SM_bind_inv in E as (d & s1 & E1 & E); apply SM_bind_inv in E as (b & s2 & E2 & E3).
      unfold opcode_to_aml; destruct (code i) eqn:Ec; try discriminate;
        (erewrite SM_bind_Some by exact E1; erewrite SM_bind_Some by exact E2; erewrite SM_bind_Some by exact E3; reflexivity).
  - destruct (common_load i l m u aml_size_ (NATIVE_OFFSET resource (native_offset i)) (dst_base + aml_offset i)
      (NATIVE_OFFSET resource (native_offset i)) v Ec Hok) as (m' & E & Hm); [apply Hv; rewrite Ec; reflexivity|apply Hd; lia|].
    exists m'; split; [unfold opcode_to_aml; rewrite Ec; exact E|].
    unfold span; rewrite Ef; rewrite <- Z.mul_add_distr_l; exact Hm.
Qed.
End Step.

(** ** Lists of moves *)

(** A bit of the native structure after the moves, given the bits of the descriptor. *)
Fixpoint native_bit (ms : list move) (f : Z -> bool) (x : Z) (d : bool) : bool :=
  match ms with
  | [] => d
  | mv :: ms' =>
      if within (mv_n mv) (mv_w mv) x then f (mv_a mv + (x - mv_n mv))
      else if within (mv_n mv) (mv_z mv) x then false else native_bit ms' f x d
  end.

(** A bit of the descriptor after the moves back. *)
Fixpoint aml_bit (ms : list move) (g : Z -> bool) (x : Z) (d : bool) : bool :=
  match ms with
  | [] => d
  | mv :: ms' => if within (mv_a mv) (mv_w mv) x then g (mv_n mv + (x - mv_a mv)) else aml_bit ms' g x d
  end.

Definition covered (ms : list move) (x : Z) : bool := existsb (fun mv => within (mv_a mv) (mv_w mv) x) ms.

Fixpoint disjointb (lo len : move -> Z) (ms : list move) : bool :=
  match ms with
  | [] => true
  | mv :: ms' => forallb (fun y => (lo mv + len mv <=? lo y) || (lo y + len y <=? lo mv)) ms' && disjointb lo len ms'
  end.

Definition in_range (asize nsize : Z) (mv : move) : Prop :=
  0 <= mv_a mv /\ mv_a mv + mv_w mv <= 8 * asize /\ 0 <= mv_n mv /\ mv_n mv + mv_z mv <= 8 * nsize /\
  0 <= mv_w mv <= mv_z mv.

Lemma move_in_range asize nsize acc i : moving acc i = true -> fits asize nsize acc i = true ->
  in_range asize nsize (move_of acc i).
Proof.
  intros Hst Hfit; pose proof (span_pos acc i Hst) as Hsp; apply fits_spec in Hfit as (H1 & H2 & H3 & H4).
  unfold in_range, move_of; destruct (moving_cases _ i Hst) as [(Ef & Eg & _)|[(Eg & Ef & El & Hi0 & Hw & Hi8)|(Ec & Ef & Eg)]];
    rewrite Eg; cbn [mv_a mv_n mv_w mv_z]; unfold span in *; rewrite ?Ef in *; lia.
Qed.

Lemma disjointb_spec lo len mv ms x : disjointb lo len (mv :: ms) = true -> lo mv <= x < lo mv + len mv ->
  Forall (fun y => ~ (lo y <= x < lo y + len y)) ms /\ disjointb lo len ms = true.
Proof.
  intros H Hx; cbn [disjointb] in H; apply andb_true_iff in H as [H1 H2]; split; [|exact H2].
  rewrite forallb_forall in H1; apply Forall_forall; intros y Hy; apply list_elem_of_In in Hy.
  specialize (H1 y Hy); apply orb_true_iff in H1 as [H1|H1]; apply Z.leb_le in H1; lia.
Qed.

Lemma native_bit_out ms f x d : Forall (fun y => mv_w y <= mv_z y /\ ~ (mv_n y <= x < mv_n y + mv_z y)) ms -> native_bit ms f x d = d.
Proof.
  induction ms as [|mv ms IH]; [reflexivity|]; intros H; apply Forall_cons in H as [[Hw Hx] H]; cbn [native_bit].
  destruct (withinP (mv_n mv) (mv_w mv) x), (withinP (mv_n mv) (mv_z mv) x); try lia; auto.
Qed.

Lemma native_bit_ext asize nsize ms f g x d : Forall (in_range asize nsize) ms ->
  (forall a, 0 <= a < 8 * asize -> f a = g a) -> native_bit ms f x d = native_bit ms g x d.
Proof.
  intros H Hfg; induction ms as [|mv ms IH]; [reflexivity|]; apply Forall_cons in H as [Hr H]; cbn [native_bit].
  unfold in_range in Hr; destruct (withinP (mv_n mv) (mv_w mv) x); [apply Hfg; lia|].
  destruct (within _ _ x); [reflexivity|apply IH, H].
Qed.

Lemma disjointb_other asize nsize ms y mv x : Forall (in_range asize nsize) ms -> disjointb mv_n mv_z (y :: ms) = true ->
  In mv ms -> mv_n mv <= x < mv_n mv + mv_z mv -> ~ (mv_n y <= x < mv_n y + mv_z y) /\ disjointb mv_n mv_z ms = true.
Proof.
  intros H Hd Hin Hx; split.
  - intros Hy; destruct (disjointb_spec mv_n mv_z y ms x Hd Hy) as [Hf _]; rewrite Forall_forall in Hf.
    exact (Hf mv (proj2 (list_elem_of_In _ _) Hin) Hx).
  - cbn [disjointb] in Hd; apply andb_true_iff in Hd as [_ Hd]; exact Hd.
Qed.

(** The bits behind a moved field are clear. *)
Lemma native_bit_high asize nsize ms mv f x d : Forall (in_range asize nsize) ms -> disjointb mv_n mv_z ms = true ->
  In mv ms -> mv_n mv + mv_w mv <= x < mv_n mv + mv_z mv -> native_bit ms f x d = false.
Proof.
  intros H Hd Hin Hx; induction ms as [|y ms IH]; [destruct Hin|]; apply Forall_cons in H as [Hr H]; cbn [native_bit].
  unfold in_range in Hr; destruct Hin as [->|Hin].
  - destruct (withinP (mv_n mv) (mv_w mv) x), (withinP (mv_n mv) (mv_z mv) x); try lia; reflexivity.
  - assert (0 <= mv_w mv) by (rewrite Forall_forall in H; apply H, list_elem_of_In; exact Hin).
    destruct (disjointb_other asize nsize ms y mv x H Hd Hin ltac:(lia)) as [Hy Hd'].
    destruct (withinP (mv_n y) (mv_w y) x), (withinP (mv_n y) (mv_z y) x); try lia; auto.
Qed.

(** What was moved is there. *)
Lemma native_bit_in asize nsize ms mv f x d : Forall (in_range asize nsize) ms -> disjointb mv_n mv_z ms = true ->
  In mv ms -> mv_n mv <= x < mv_n mv + mv_w mv -> native_bit ms f x d = f (mv_a mv + (x - mv_n mv)).
Proof.
  intros H Hd Hin Hx; induction ms as [|y ms IH]; [destruct Hin|]; apply Forall_cons in H as [Hr H]; cbn [native_bit].
  unfold in_range in Hr; destruct Hin as [->|Hin].
  - destruct (withinP (mv_n mv) (mv_w mv) x); [reflexivity|lia].
  - assert (mv_w mv <= mv_z mv) by (rewrite Forall_forall in H; apply H, list_elem_of_In; exact Hin).
    destruct (disjointb_other asize nsize ms y mv x H Hd Hin ltac:(lia)) as [Hy Hd'].
    destruct (withinP (mv_n y) (mv_w y) x), (withinP (mv_n y) (mv_z y) x); try lia; auto.
Qed.

(** There and back. *)
Lemma moves_roundtrip asize nsize ms f x d d0 : Forall (in_range asize nsize) ms -> disjointb mv_n mv_z ms = true ->
  forall ms', incl ms' ms ->
  aml_bit ms' (fun y => native_bit ms f y (d y)) x d0 = if covered ms' x then f x else d0.
Proof.
  intros H Hd ms'; induction ms' as [|mv ms' IH]; intros Hincl; [reflexivity|]; cbn [aml_bit covered existsb].
  destruct (withinP (mv_a mv) (mv_w mv) x) as [Hx|Hx]; cbn [orb].
  - rewrite (native_bit_in asize nsize ms mv f _ _ H Hd) by (lia || (apply Hincl; left; reflexivity)); f_equal; lia.
  - apply IH; intros y Hy; apply Hincl; right; exact Hy.
Qed.

(** ** The path of a program

    With the byte [v] in the member that a program loads and [size] the descriptor's
    size, the moves that it makes from [pc] on, if it only moves bits.  A resource
    source that is absent leaves the 16 bytes of its native structure clear. *)

Definition absent_source (i : uacpi_resource_convert_instruction) : move :=
  {| mv_a := 0; mv_n := 8 * native_offset i; mv_w := 0; mv_z := 128 |}.

Definition is_absent (nsize acc : Z) (i : uacpi_resource_convert_instruction) : bool :=
  is_source (code i) && (aml_offset i =? 0) && (imm i =? 0) && (acc =? 0) && (0 <=? native_offset i) &&
  (native_offset i + 16 <=? nsize).

Fixpoint trace (asize nsize size v : Z) (insns : list uacpi_resource_convert_instruction) (fuel : nat) (pc acc : Z) :
    option (list move) :=
  match fuel with
  | O => None
  | S fuel' =>
      match nth_error insns (Z.to_nat pc) with
      | None => None
      | Some i =>
          let pc := u8 (pc + 1) in
          match code i with
          | END => Some []
          | SKIP_IF_NOT_EQUALS =>
              trace asize nsize size v insns fuel' (if negb (arg0 i =? acc) then u8 (pc + imm i) else pc) acc
          | SKIP_IF_AML_SIZE_LESS_THAN =>
              trace asize nsize size v insns fuel' (if size <? arg0 i then u8 (pc + imm i) else pc) acc
          | _ =>
              if moving acc i && fits asize nsize acc i then
                ms ← trace asize nsize size v insns fuel' pc (next_acc acc v i); Some (move_of acc i :: ms)
              else if is_absent nsize acc i then
                ms ← trace asize nsize size v insns fuel' pc acc; Some (absent_source i :: ms)
              else None
          end
      end
  end.

Lemma trace_in_range asize nsize size v insns fuel : 0 <= asize -> forall pc acc ms,
  trace asize nsize size v insns fuel pc acc = Some ms -> Forall (in_range asize nsize) ms.
Proof.
  intros Has; induction fuel as [|fuel IH]; intros pc acc ms; cbn [trace]; [discriminate|].
  destruct (nth_error insns (Z.to_nat pc)) as [i|]; [|discriminate].
  assert (Hgen : (if moving acc i && fits asize nsize acc i then
                ms ← trace asize nsize size v insns fuel (u8 (pc + 1)) (next_acc acc v i); Some (move_of acc i :: ms)
              else if is_absent nsize acc i then
                ms ← trace asize nsize size v insns fuel (u8 (pc + 1)) acc; Some (absent_source i :: ms)
              else None) = Some ms -> Forall (in_range asize nsize) ms).
  { destruct (moving acc i && fits asize nsize acc i) eqn:Em.
    - apply andb_true_iff in Em as [Em Ef]; destruct (trace _ _ _ _ _ fuel _ _) as [ms'|] eqn:Et; [|discriminate].
      intros [= <-]; constructor; [apply move_in_range; assumption|eapply IH, Et].
    - destruct (is_absent nsize acc i) eqn:Ea; [|discriminate].
      destruct (trace _ _ _ _ _ fuel _ _) as [ms'|] eqn:Et; [|discriminate]; intros [= <-].
      unfold is_absent in Ea; rewrite !andb_true_iff, !Z.leb_le in Ea.
      constructor; [unfold in_range, absent_source; cbn; lia|eapply IH, Et]. }
  destruct (code i); try exact Hgen; [intros [= <-]; constructor|eapply IH..].
Qed.

(** ** Running a program *)

Lemma byte_bits m m' a : bytes_ok m -> bytes_ok m' -> same_dom m m' ->
  (forall i, 0 <= i < 8 -> bitat m' (8 * a + i) = bitat m (8 * a + i)) -> m' !! a = m !! a.
Proof.
  intros H1 H2 Hd Hb; specialize (Hd a); destruct (m !! a) as [x|] eqn:E, (m' !! a) as [y|] eqn:E'.
  - f_equal; apply Z.bits_inj'; intros i Hi; destruct (Z.lt_ge_cases i 8).
    + specialize (Hb i ltac:(lia)); rewrite (bitat_at m' a i y), (bitat_at m a i x) in Hb by (assumption || lia); exact Hb.
    + rewrite (testbit_in_w 8 x), (testbit_in_w 8 y) by (eauto; lia); reflexivity.
  - destruct (proj1 Hd); [eexists; reflexivity|discriminate].
  - destruct (proj2 Hd); [eexists; reflexivity|discriminate].
  - reflexivity.
Qed.

Lemma rd_zero {T} (m : bytes) (u : T) n p : bytes_ok m -> owned m p (Z.of_nat n) ->
  (forall k, 8 * p <= k < 8 * p + 8 * Z.of_nat n -> bitat m k = false) -> rd n p (m, u) = Some (0, (m, u)).
Proof.
  intros Hok Ho Hz; destruct (load_le_bits m n Hok p Ho) as (x & E & Hx & Hb).
  unfold rd; cbn [fst]; rewrite E; assert (x = 0) as ->; [|reflexivity].
  apply Z.bits_inj'; intros i Hi; rewrite Hb, Z.testbit_0_l by lia.
  destruct (Z.ltb_spec i (8 * Z.of_nat n)); [cbn [andb]; apply Hz; lia|reflexivity].
Qed.

Lemma rd_some {T} (m : bytes) (u : T) n p : bytes_ok m -> owned m p (Z.of_nat n) ->
  exists x, rd n p (m, u) = Some (x, (m, u)).
Proof.
  intros Hok Ho; destruct (load_le_bits m n Hok p Ho) as (x & E & _); exists x; unfold rd; cbn [fst]; rewrite E; reflexivity.
Qed.

Lemma moved_nothing m p q : bytes_ok m -> moved m m p q 0 0.
Proof.
  intros H; split; [reflexivity|split; [exact H|]]; intros k; destruct (withinP p 0 k); [lia|reflexivity].
Qed.

Lemma is_absent_spec nsize acc i : is_absent nsize acc i = true ->
  code i = RESOURCE_SOURCE /\ aml_offset i = 0 /\ imm i = 0 /\ acc = 0 /\ 0 <= native_offset i /\ native_offset i + 16 <= nsize.
Proof.
  unfold is_absent; rewrite !andb_true_iff, !Z.leb_le, !Z.eqb_eq; intros [[[[[H1 H2] H3] H4] H5] H6].
  destruct (code i); try discriminate; auto 6.
Qed.

Lemma run_step step insns fuel l i s l1 s1 : nth_error insns (Z.to_nat (pc l)) = Some i ->
  step i (with_pc (u8 (pc l + 1)) l) s = Some (Go l1, s1) ->
  run_program step insns (S fuel) l s = run_program step insns fuel l1 s1.
Proof. intros E1 E2; cbn [run_program]; rewrite E1; erewrite SM_bind_Some by exact E2; reflexivity. Qed.

Section Run.
Variables (data aml_size_ header_size resource dst_base asize nsize v : Z) (spec : uacpi_resource_spec)
  (insns : list uacpi_resource_convert_instruction).
Implicit Types (l : locals) (u : resource_conversion_ctx).

Definition loads_in : bool :=
  forallb (fun i => negb (is_load (code i)) ||
    ((0 <=? aml_offset i) && (aml_offset i <? asize) && (0 <=? native_offset i) && (native_offset i <? nsize))) insns.

Hypotheses (Hloads : loads_in = true) (Has : 0 <= asize).

Lemma load_in i : In i insns -> is_load (code i) = true ->
  0 <= aml_offset i < asize /\ 0 <= native_offset i < nsize.
Proof.
  intros Hin Hl; unfold loads_in in Hloads; rewrite forallb_forall in Hloads; specialize (Hloads i Hin); cbv beta in Hloads.
  rewrite Hl in Hloads; cbn [negb orb] in Hloads; rewrite !andb_true_iff, !Z.leb_le, !Z.ltb_lt in Hloads; lia.
Qed.

Lemma absent_to_native i l m u : is_absent nsize (accumulator l) i = true ->
  base_aml_size_with_header l = aml_size_ + header_size -> bytes_ok m -> owned m (resource + 8) nsize ->
  (forall x, mv_n (absent_source i) <= x < mv_n (absent_source i) + 128 -> bitat m (8 * (resource + 8) + x) = false) ->
  exists m', opcode_to_native data aml_size_ header_size resource i l (m, u) = Some (Go l, (m', u)) /\
    moved m m' (8 * (resource + 8) + mv_n (absent_source i)) (8 * data) 0 128.
Proof.
  intros Ha Hbase Hok Hn Hz; apply is_absent_spec in Ha as (Ec & Ea & Ei & Eacc & H1 & H2).
  set (p := NATIVE_OFFSET resource (native_offset i) + 1).
  assert (Hp : is_Some (m !! p)) by (apply Hn; unfold p, NATIVE_OFFSET; lia).
  exists (<[p := 0]> m); split.
  - unfold opcode_to_native, source_to_native; rewrite Ec; unfold arg2; rewrite Ei; cbn [Z.eqb negb is_label is_source].
    rewrite Eacc, Hbase, Z.add_0_r, Z.leb_refl; unfold SOURCE_INDEX_PRESENT; fold p.
    erewrite SM_bind_Some by (apply wr1; exact Hp).
    erewrite SM_bind_Some by (apply wr1; apply (same_dom_insert m p _ Hp), Hp).
    rewrite insert_insert_eq; reflexivity.
  - split; [apply same_dom_insert, Hp|split; [apply (bytes_ok_insert m p 0 Hok)|]].
    intros k; rewrite bitat_insert by exact Hp.
    destruct (withinP (8 * (resource + 8) + mv_n (absent_source i)) 0 k); [lia|].
    destruct (withinP (8 * (resource + 8) + mv_n (absent_source i)) 128 k) as [Hk|Hk].
    + destruct (within (8 * p) 8 k); [apply Z.testbit_0_l|].
      rewrite <- (Hz (k - 8 * (resource + 8))) by lia; f_equal; lia.
    + destruct (withinP (8 * p) 8 k); [|reflexivity].
      unfold p, NATIVE_OFFSET, absent_source in *; cbn [mv_n] in *; lia.
Qed.

Lemma absent_to_aml i l m u : is_absent nsize (accumulator l) i = true -> bytes_ok m -> owned m (resource + 8) nsize ->
  (forall x, mv_n (absent_source i) <= x < mv_n (absent_source i) + 128 -> bitat m (8 * (resource + 8) + x) = false) ->
  opcode_to_aml resource dst_base spec aml_size_ i l (m, u) = Some (Go l, (m, u)).
Proof.
  intros Ha Hok Hn Hz; apply is_absent_spec in Ha as (Ec & Ea & Ei & Eacc & H1 & H2).
  set (p := NATIVE_OFFSET resource (native_offset i)) in *.
  assert (Hown : owned m p 16) by (unfold p, NATIVE_OFFSET; eapply owned_sub; [exact Hn|lia..]).
  assert (Hbits : forall k, 8 * p <= k < 8 * p + 128 -> bitat m k = false).
  { intros k Hk; rewrite <- (Hz (k - 8 * (resource + 8))) by (unfold p, NATIVE_OFFSET, absent_source in *; cbn [mv_n]; lia).
    f_equal; lia. }
  unfold opcode_to_aml, source_to_aml; rewrite Ec, Ea; cbn [Z.eqb negb is_label is_source]; fold p.
  unfold SOURCE_INDEX_PRESENT, SOURCE_LENGTH, SOURCE_STRING.
  erewrite SM_bind_Some by reflexivity.
  erewrite SM_bind_Some by (apply rd_zero; [exact Hok|eapply owned_sub; [exact Hown|lia..]|intros; apply Hbits; lia]).
  cbn [Z.eqb negb]; erewrite SM_bind_Some by reflexivity.
  erewrite SM_bind_Some by (apply rd_zero; [exact Hok|eapply owned_sub; [exact Hown|lia..]|intros; apply Hbits; lia]).
  destruct (rd_some m u 8 (p + 8) Hok) as [x Ex]; [eapply owned_sub; [exact Hown|lia..]|].
  erewrite SM_bind_Some by exact Ex; reflexivity.
Qed.

(** *** Towards the native structure *)

Abbreviation N0 := (8 * (resource + 8)).
Abbreviation A0 := (8 * data).
Abbreviation B0 := (8 * dst_base).

Lemma moved_aml_same m m1 mv a : apart data asize (resource + 8) nsize -> in_range asize nsize mv ->
  moved m m1 (N0 + mv_n mv) (A0 + mv_a mv) (mv_w mv) (mv_z mv) -> 0 <= a < 8 * asize -> bitat m1 (A0 + a) = bitat m (A0 + a).
Proof.
  intros Hap Hr (_ & _ & Hb) Ha; unfold apart, in_range in *; rewrite Hb.
  destruct (withinP (N0 + mv_n mv) (mv_w mv) (A0 + a)), (withinP (N0 + mv_n mv) (mv_z mv) (A0 + a)); try lia; reflexivity.
Qed.

Lemma native_moves_cons m m1 m2 mv ms : apart data asize (resource + 8) nsize ->
  Forall (in_range asize nsize) (mv :: ms) -> disjointb mv_n mv_z (mv :: ms) = true ->
  moved m m1 (N0 + mv_n mv) (A0 + mv_a mv) (mv_w mv) (mv_z mv) ->
  (forall k, bitat m2 k = native_bit ms (fun a => bitat m1 (A0 + a)) (k - N0) (bitat m1 k)) ->
  forall k, bitat m2 k = native_bit (mv :: ms) (fun a => bitat m (A0 + a)) (k - N0) (bitat m k).
Proof.
  intros Hap Hrs Hd Hmv H k; apply Forall_cons in Hrs as [Hr Hrs]; rewrite H.
  rewrite (native_bit_ext asize nsize ms _ (fun a => bitat m (A0 + a))) by (assumption || (intros a Ha; eapply moved_aml_same; eassumption)).
  cbn [native_bit]; destruct Hmv as (_ & _ & Hb); rewrite Hb; unfold in_range in Hr.
  destruct (withinP (mv_n mv) (mv_z mv) (k - N0)) as [Hk|Hk].
  - destruct (disjointb_spec mv_n mv_z mv ms (k - N0) Hd Hk) as [Hout _].
    rewrite native_bit_out.
    2:{ rewrite Forall_forall in *; intros y Hy; split; [apply Hrs, Hy|apply Hout, Hy]. }
    destruct (withinP (N0 + mv_n mv) (mv_w mv) k), (withinP (mv_n mv) (mv_w mv) (k - N0)),
      (withinP (N0 + mv_n mv) (mv_z mv) k); try lia; try reflexivity; f_equal; lia.
  - destruct (withinP (N0 + mv_n mv) (mv_w mv) k), (withinP (mv_n mv) (mv_w mv) (k - N0)),
      (withinP (N0 + mv_n mv) (mv_z mv) k); try lia; reflexivity.
Qed.

(** The native bits of the moves to come stay clear. *)
Lemma native_clear_cons m m1 mv ms : disjointb mv_n mv_z (mv :: ms) = true ->
  Forall (in_range asize nsize) (mv :: ms) -> moved m m1 (N0 + mv_n mv) (A0 + mv_a mv) (mv_w mv) (mv_z mv) ->
  (forall y x, In y (mv :: ms) -> mv_n y <= x < mv_n y + mv_z y -> bitat m (N0 + x) = false) ->
  forall y x, In y ms -> mv_n y <= x < mv_n y + mv_z y -> bitat m1 (N0 + x) = false.
Proof.
  intros Hd Hrs (_ & _ & Hb) Hz y x Hy Hx; apply Forall_cons in Hrs as [Hr Hrs].
  destruct (disjointb_other asize nsize ms mv y x Hrs Hd Hy Hx) as [Hn _]; unfold in_range in Hr; rewrite Hb.
  destruct (withinP (N0 + mv_n mv) (mv_w mv) (N0 + x)), (withinP (N0 + mv_n mv) (mv_z mv) (N0 + x)); try lia.
  apply (Hz y); [right; exact Hy|exact Hx].
Qed.

Definition to_native_ready l m ms : Prop :=
  base_aml_size_with_header l = aml_size_ + header_size /\
  (forall i, In i insns -> is_load (code i) = true -> m !! (data + aml_offset i) = Some v) /\
  bytes_ok m /\ owned m data asize /\ owned m (resource + 8) nsize /\ disjointb mv_n mv_z ms = true /\
  (forall y x, In y ms -> mv_n y <= x < mv_n y + mv_z y -> bitat m (N0 + x) = false).

Definition to_native_done l m u fuel ms : Prop := exists m',
  run_program (opcode_to_native data aml_size_ header_size resource) insns fuel l (m, u) =
    Some (if just_one u then DECISION_BREAK else DECISION_CONTINUE, (m', u)) /\
  same_dom m m' /\ bytes_ok m' /\
  forall k, bitat m' k = native_bit ms (fun a => bitat m (A0 + a)) (k - N0) (bitat m k).

(** After one move the rest of the program can run. *)
Lemma native_after l l1 m m1 mv ms : apart data asize (resource + 8) nsize ->
  to_native_ready l m (mv :: ms) -> Forall (in_range asize nsize) (mv :: ms) ->
  base_aml_size_with_header l1 = base_aml_size_with_header l ->
  moved m m1 (N0 + mv_n mv) (A0 + mv_a mv) (mv_w mv) (mv_z mv) -> to_native_ready l1 m1 ms.
Proof.
  intros Hap (Hb & Hl & Hok & Ha & Hn & Hd & Hz) Hrs Hb1 Hmv; pose proof Hmv as (Hdom & Hok1 & _).
  split; [congruence|split; [|split; [exact Hok1|split; [rewrite <- Hdom; exact Ha|split; [rewrite <- Hdom; exact Hn|split]]]]].
  - intros i Hi Hli; rewrite <- (Hl i Hi Hli); destruct (load_in i Hi Hli) as [Hia _].
    apply byte_bits; [assumption..|]; intros j Hj; apply Forall_cons in Hrs as [Hr _].
    replace (8 * (data + aml_offset i) + j) with (A0 + (8 * aml_offset i + j)) by lia.
    eapply moved_aml_same; [exact Hap|exact Hr|exact Hmv|lia].
  - cbn [disjointb] in Hd; apply andb_true_iff in Hd as [_ Hd]; exact Hd.
  - eapply native_clear_cons; eassumption.
Qed.

(** What the head of the trace says of the instruction. *)
Lemma trace_step fuel p acc ms i : trace asize nsize aml_size_ v insns (S fuel) p acc = Some ms ->
  nth_error insns (Z.to_nat p) = Some i ->
  (code i = END /\ ms = []) \/
  (code i = SKIP_IF_NOT_EQUALS /\
    trace asize nsize aml_size_ v insns fuel (if negb (arg0 i =? acc) then u8 (u8 (p + 1) + imm i) else u8 (p + 1)) acc = Some ms) \/
  (code i = SKIP_IF_AML_SIZE_LESS_THAN /\
    trace asize nsize aml_size_ v insns fuel (if aml_size_ <? arg0 i then u8 (u8 (p + 1) + imm i) else u8 (p + 1)) acc = Some ms) \/
  (exists ms', moving acc i = true /\ fits asize nsize acc i = true /\ ms = move_of acc i :: ms' /\
    trace asize nsize aml_size_ v insns fuel (u8 (p + 1)) (next_acc acc v i) = Some ms') \/
  (exists ms', is_absent nsize acc i = true /\ ms = absent_source i :: ms' /\
    trace asize nsize aml_size_ v insns fuel (u8 (p + 1)) acc = Some ms').
Proof.
  intros Ht Ei; cbn [trace] in Ht; rewrite Ei in Ht.
  assert (Hgen : (if moving acc i && fits asize nsize acc i then
                ms ← trace asize nsize aml_size_ v insns fuel (u8 (p + 1)) (next_acc acc v i); Some (move_of acc i :: ms)
              else if is_absent nsize acc i then
                ms ← trace asize nsize aml_size_ v insns fuel (u8 (p + 1)) acc; Some (absent_source i :: ms)
              else None) = Some ms ->
    (exists ms', moving acc i = true /\ fits asize nsize acc i = true /\ ms = move_of acc i :: ms' /\
      trace asize nsize aml_size_ v insns fuel (u8 (p + 1)) (next_acc acc v i) = Some ms') \/
    (exists ms', is_absent nsize acc i = true /\ ms = absent_source i :: ms' /\
      trace asize nsize aml_size_ v insns fuel (u8 (p + 1)) acc = Some ms')).
  { destruct (moving acc i && fits asize nsize acc i) eqn:Em.
    - apply andb_true_iff in Em as [Em Ef]; destruct (trace _ _ _ _ _ fuel _ _) as [ms'|] eqn:Et; [|discriminate].
      intros [= <-]; left; exists ms'; auto.
    - destruct (is_absent nsize acc i) eqn:Ea; [|discriminate].
      destruct (trace _ _ _ _ _ fuel _ _) as [ms'|] eqn:Et; [|discriminate]; intros [= <-]; right; exists ms'; auto. }
  destruct (code i); try (right; right; right; exact (Hgen Ht)); [left; split; congruence|right; right; left; auto|right; left; auto].
Qed.

Lemma run_to_native fuel : apart data asize (resource + 8) nsize -> forall l m u ms,
  trace asize nsize aml_size_ v insns fuel (pc l) (accumulator l) = Some ms ->
  to_native_ready l m ms -> to_native_done l m u fuel ms.
Proof.
  intros Hap; induction fuel as [|fuel IH]; intros l m u ms Ht Hr; [discriminate|].
  pose proof (trace_in_range _ _ _ _ _ _ Has _ _ _ Ht) as Hrs.
  destruct (nth_error insns (Z.to_nat (pc l))) as [i|] eqn:Ei; [|cbn [trace] in Ht; rewrite Ei in Ht; discriminate].
  pose proof (nth_error_In _ _ Ei) as Hin; set (l0 := with_pc (u8 (pc l + 1)) l).
  assert (Hskip : forall l1, base_aml_size_with_header l1 = base_aml_size_with_header l ->
      trace asize nsize aml_size_ v insns fuel (pc l1) (accumulator l1) = Some ms ->
      opcode_to_native data aml_size_ header_size resource i l0 (m, u) = Some (Go l1, (m, u)) ->
      to_native_done l m u (S fuel) ms).
  { intros l1 Hb1 Ht1 E; destruct (IH l1 m u ms Ht1) as (m2 & E2 & H2); [destruct Hr as [Hb Hr]; split; [congruence|exact Hr]|].
    exists m2; split; [erewrite run_step by (exact Ei || exact E); exact E2|exact H2]. }
  assert (Hmove : forall mv ms' l1 m1, base_aml_size_with_header l1 = base_aml_size_with_header l -> ms = mv :: ms' ->
      trace asize nsize aml_size_ v insns fuel (pc l1) (accumulator l1) = Some ms' ->
      opcode_to_native data aml_size_ header_size resource i l0 (m, u) = Some (Go l1, (m1, u)) ->
      moved m m1 (N0 + mv_n mv) (A0 + mv_a mv) (mv_w mv) (mv_z mv) -> to_native_done l m u (S fuel) ms).
  { intros mv ms' l1 m1 Hb1 -> Ht1 E Hmv.
    destruct (IH l1 m1 u ms' Ht1) as (m2 & E2 & D2 & Ok2 & B2); [eapply native_after; eassumption|].
    exists m2; split; [erewrite run_step by (exact Ei || exact E); exact E2|].
    split; [etransitivity; [apply Hmv|exact D2]|split; [exact Ok2|]].
    eapply native_moves_cons; try eassumption; apply Hr. }
  destruct (trace_step _ _ _ _ _ Ht Ei) as [[Ec ->]|[[Ec Ht']|[[Ec Ht']|[(ms' & Em & Ef & Ems & Ht')|(ms' & Ea & Ems & Ht')]]]].
  - exists m; split; [|split; [reflexivity|split; [apply Hr|intros k; reflexivity]]].
    cbn [run_program]; rewrite Ei; unfold opcode_to_native, common_opcode; rewrite Ec; reflexivity.
  - apply (Hskip (if negb (arg0 i =? accumulator l) then with_pc (u8 (pc l0 + imm i)) l0 else l0)).
    + destruct (negb _); reflexivity.
    + destruct (negb _); exact Ht'.
    + unfold opcode_to_native, common_opcode; rewrite Ec; reflexivity.
  - apply (Hskip (if aml_size_ <? arg0 i then with_pc (u8 (pc l0 + imm i)) l0 else l0)).
    + destruct (_ <? _); reflexivity.
    + destruct (_ <? _); exact Ht'.
    + unfold opcode_to_native, common_opcode; rewrite Ec; reflexivity.
  - destruct Hr as (Hb & Hl & Hok & Ha & Hn & Hd & Hz).
    destruct (opcode_to_native_moves data aml_size_ header_size resource i l0 m u asize nsize v) as (m1 & E1 & Hm1);
      [assumption|assumption|auto|assumption..|].
    exact (Hmove _ ms' (with_acc (next_acc (accumulator l) v i) l0) m1 eq_refl Ems Ht' E1 Hm1).
  - destruct Hr as (Hb & Hl & Hok & Ha & Hn & Hd & Hz).
    destruct (absent_to_native i l0 m u Ea Hb Hok Hn) as (m1 & E1 & Hm1).
    { intros x Hx; apply (Hz (absent_source i)); [rewrite Ems; left; reflexivity|exact Hx]. }
    apply (Hmove (absent_source i) ms' l0 m1 eq_refl Ems Ht' E1).
    cbn [absent_source mv_a mv_w mv_z] in *; rewrite Z.add_0_r; exact Hm1.
Qed.

(** *** And back *)

Lemma moved_native_same m m1 mv y : apart dst_base asize (resource + 8) nsize -> in_range asize nsize mv ->
  moved m m1 (B0 + mv_a mv) (N0 + mv_n mv) (mv_w mv) (mv_w mv) -> 0 <= y < 8 * nsize -> bitat m1 (N0 + y) = bitat m (N0 + y).
Proof.
  intros Hap Hr (_ & _ & Hb) Hy; unfold apart, in_range in *; rewrite Hb.
  destruct (withinP (B0 + mv_a mv) (mv_w mv) (N0 + y)); [lia|reflexivity].
Qed.

Lemma aml_bit_ext ms f g x d : Forall (in_range asize nsize) ms -> (forall y, 0 <= y < 8 * nsize -> f y = g y) ->
  aml_bit ms f x d = aml_bit ms g x d.
Proof.
  intros H Hfg; induction ms as [|mv ms IH]; [reflexivity|]; apply Forall_cons in H as [Hr H]; cbn [aml_bit].
  unfold in_range in Hr; destruct (withinP (mv_a mv) (mv_w mv) x); [apply Hfg; lia|apply IH, H].
Qed.

Lemma aml_bit_out ms g x d : Forall (fun y => ~ (mv_a y <= x < mv_a y + mv_w y)) ms -> aml_bit ms g x d = d.
Proof.
  induction ms as [|mv ms IH]; [reflexivity|]; intros H; apply Forall_cons in H as [Hx H]; cbn [aml_bit].
  destruct (withinP (mv_a mv) (mv_w mv) x); [lia|auto].
Qed.

Lemma aml_moves_cons m m1 m2 mv ms : apart dst_base asize (resource + 8) nsize ->
  Forall (in_range asize nsize) (mv :: ms) -> disjointb mv_a mv_w (mv :: ms) = true ->
  moved m m1 (B0 + mv_a mv) (N0 + mv_n mv) (mv_w mv) (mv_w mv) ->
  (forall k, bitat m2 k = aml_bit ms (fun y => bitat m1 (N0 + y)) (k - B0) (bitat m1 k)) ->
  forall k, bitat m2 k = aml_bit (mv :: ms) (fun y => bitat m (N0 + y)) (k - B0) (bitat m k).
Proof.
  intros Hap Hrs Hd Hmv H k; apply Forall_cons in Hrs as [Hr Hrs]; rewrite H.
  rewrite (aml_bit_ext ms _ (fun y => bitat m (N0 + y))) by (assumption || (intros y Hy; eapply moved_native_same; eassumption)).
  cbn [aml_bit]; destruct Hmv as (_ & _ & Hb); rewrite Hb.
  destruct (withinP (mv_a mv) (mv_w mv) (k - B0)) as [Hk|Hk].
  - destruct (disjointb_spec mv_a mv_w mv ms (k - B0) Hd Hk) as [Hout _]; rewrite aml_bit_out by exact Hout.
    destruct (withinP (B0 + mv_a mv) (mv_w mv) k); [f_equal; lia|lia].
  - destruct (withinP (B0 + mv_a mv) (mv_w mv) k); [lia|reflexivity].
Qed.

Definition to_aml_ready m ms : Prop :=
  (forall i, In i insns -> is_load (code i) = true -> m !! NATIVE_OFFSET resource (native_offset i) = Some v) /\
  bytes_ok m /\ owned m dst_base asize /\ owned m (resource + 8) nsize /\ disjointb mv_a mv_w ms = true /\
  (forall y x, In y ms -> mv_n y + mv_w y <= x < mv_n y + mv_z y -> bitat m (N0 + x) = false) /\
  (forall y x, In y ms -> mv_a y <= x < mv_a y + mv_w y -> bitat m (B0 + x) = false).

Definition to_aml_done l m u fuel ms : Prop := exists m',
  run_program (opcode_to_aml resource dst_base spec aml_size_) insns fuel l (m, u) =
    Some (if just_one u then DECISION_BREAK else DECISION_CONTINUE, (m', u)) /\
  same_dom m m' /\ bytes_ok m' /\
  forall k, bitat m' k = aml_bit ms (fun y => bitat m (N0 + y)) (k - B0) (bitat m k).

Lemma aml_after m m1 mv ms : apart dst_base asize (resource + 8) nsize ->
  to_aml_ready m (mv :: ms) -> Forall (in_range asize nsize) (mv :: ms) ->
  moved m m1 (B0 + mv_a mv) (N0 + mv_n mv) (mv_w mv) (mv_w mv) -> to_aml_ready m1 ms.
Proof.
  intros Hap (Hl & Hok & Ha & Hn & Hd & Hh & Hz) Hrs Hmv; pose proof Hmv as (Hdom & Hok1 & Hb).
  pose proof Hrs as Hrs'; apply Forall_cons in Hrs' as [Hr Hrs'].
  split; [|split; [exact Hok1|split; [rewrite <- Hdom; exact Ha|split; [rewrite <- Hdom; exact Hn|split; [|split]]]]].
  - intros i Hi Hli; rewrite <- (Hl i Hi Hli); destruct (load_in i Hi Hli) as [_ Hin].
    apply byte_bits; [assumption..|]; intros j Hj; unfold NATIVE_OFFSET.
    replace (8 * (resource + native_offset i + 8) + j) with (N0 + (8 * native_offset i + j)) by lia.
    eapply moved_native_same; [exact Hap|exact Hr|exact Hmv|lia].
  - cbn [disjointb] in Hd; apply andb_true_iff in Hd as [_ Hd]; exact Hd.
  - intros y x Hy Hx; rewrite Forall_forall in Hrs'; pose proof (Hrs' y (proj2 (list_elem_of_In _ _) Hy)) as Hry.
    unfold in_range in Hry; rewrite (moved_native_same m m1 mv x Hap Hr Hmv) by lia.
    apply (Hh y); [right; exact Hy|exact Hx].
  - intros y x Hy Hx; rewrite Hb; destruct (withinP (B0 + mv_a mv) (mv_w mv) (B0 + x)) as [Hk|Hk].
    + destruct (disjointb_spec mv_a mv_w mv ms x Hd ltac:(lia)) as [Hout _]; rewrite Forall_forall in Hout.
      destruct (Hout y (proj2 (list_elem_of_In _ _) Hy) Hx).
    + apply (Hz y); [right; exact Hy|exact Hx].
Qed.

Lemma run_to_aml fuel : apart dst_base asize (resource + 8) nsize -> forall l m u ms,
  trace asize nsize aml_size_ v insns fuel (pc l) (accumulator l) = Some ms ->
  to_aml_ready m ms -> to_aml_done l m u fuel ms.
Proof.
  intros Hap; induction fuel as [|fuel IH]; intros l m u ms Ht Hr; [discriminate|].
  pose proof (trace_in_range _ _ _ _ _ _ Has _ _ _ Ht) as Hrs.
  destruct (nth_error insns (Z.to_nat (pc l))) as [i|] eqn:Ei; [|cbn [trace] in Ht; rewrite Ei in Ht; discriminate].
  pose proof (nth_error_In _ _ Ei) as Hin; set (l0 := with_pc (u8 (pc l + 1)) l).
  assert (Hskip : forall l1, trace asize nsize aml_size_ v insns fuel (pc l1) (accumulator l1) = Some ms ->
      opcode_to_aml resource dst_base spec aml_size_ i l0 (m, u) = Some (Go l1, (m, u)) ->
      to_aml_done l m u (S fuel) ms).
  { intros l1 Ht1 E; destruct (IH l1 m u ms Ht1 Hr) as (m2 & E2 & H2).
    exists m2; split; [erewrite run_step by (exact Ei || exact E); exact E2|exact H2]. }
  assert (Hmove : forall mv ms' l1 m1, ms = mv :: ms' ->
      trace asize nsize aml_size_ v insns fuel (pc l1) (accumulator l1) = Some ms' ->
      opcode_to_aml resource dst_base spec aml_size_ i l0 (m, u) = Some (Go l1, (m1, u)) ->
      moved m m1 (B0 + mv_a mv) (N0 + mv_n mv) (mv_w mv) (mv_w mv) -> to_aml_done l m u (S fuel) ms).
  { intros mv ms' l1 m1 -> Ht1 E Hmv.
    destruct (IH l1 m1 u ms' Ht1) as (m2 & E2 & D2 & Ok2 & B2); [eapply aml_after; eassumption|].
    exists m2; split; [erewrite run_step by (exact Ei || exact E); exact E2|].
    split; [etransitivity; [apply Hmv|exact D2]|split; [exact Ok2|]].
    eapply aml_moves_cons; try eassumption; apply Hr. }
  destruct (trace_step _ _ _ _ _ Ht Ei) as [[Ec ->]|[[Ec Ht']|[[Ec Ht']|[(ms' & Em & Ef & Ems & Ht')|(ms' & Ea & Ems & Ht')]]]].
  - exists m; split; [|split; [reflexivity|split; [apply Hr|intros k; reflexivity]]].
    cbn [run_program]; rewrite Ei; unfold opcode_to_aml, common_opcode; rewrite Ec; reflexivity.
  - apply (Hskip (if negb (arg0 i =? accumulator l) then with_pc (u8 (pc l0 + imm i)) l0 else l0)).
    + destruct (negb _); exact Ht'.
    + unfold opcode_to_aml, common_opcode; rewrite Ec; reflexivity.
  - apply (Hskip (if aml_size_ <? arg0 i then with_pc (u8 (pc l0 + imm i)) l0 else l0)).
    + destruct (_ <? _); exact Ht'.
    + unfold opcode_to_aml, common_opcode; rewrite Ec; reflexivity.
  - destruct Hr as (Hl & Hok & Ha & Hn & Hd & Hh & Hz).
    destruct (opcode_to_aml_moves aml_size_ resource dst_base spec i l0 m u asize nsize v) as (m1 & E1 & Hm1);
      [assumption|assumption|auto|assumption..| | |].
    + intros k Hk; apply (Hh (move_of (accumulator l) i)); [rewrite Ems; left; reflexivity|exact Hk].
    + intros k Hk; apply (Hz (move_of (accumulator l) i)); [rewrite Ems; left; reflexivity|exact Hk].
    + exact (Hmove _ ms' (with_acc (next_acc (accumulator l) v i) l0) m1 Ems Ht' E1 Hm1).
  - destruct Hr as (Hl & Hok & Ha & Hn & Hd & Hh & Hz).
    apply (Hmove (absent_source i) ms' l0 m Ems Ht').
    + apply absent_to_aml; [assumption..|].
      intros x Hx; apply (Hh (absent_source i)); [rewrite Ems; left; reflexivity|cbn [absent_source mv_n mv_w mv_z] in *; lia].
    + apply moved_nothing, Hok.
Qed.
End Run.
