(* ===== verification/ResRound.v ===== *)
(** * acpi/uacpi/resources.c: descriptors to native resources and back

    For the kinds of resources whose programs only move bits the conversion to the
    native form followed by the conversion back gives the header and every bit that
    the program knows of back; the other bits of the new descriptor are clear. *)

From Stdlib Require Import Strings.String.
From S2P Require Import Prelude CMem UStdlib UCore ResTables Resources ResWalk ResConvert.

Open Scope string_scope.
Open Scope Z_scope.
Open Scope word_scope.

(** ** The kinds *)

(** Descriptors of a fixed size, and address spaces without a resource source. *)
Definition moved_kinds : list uacpi_aml_resource :=
  [UACPI_AML_RESOURCE_IO; UACPI_AML_RESOURCE_FIXED_IO; UACPI_AML_RESOURCE_FIXED_DMA; UACPI_AML_RESOURCE_MEMORY24;
   UACPI_AML_RESOURCE_MEMORY32; UACPI_AML_RESOURCE_FIXED_MEMORY32; UACPI_AML_RESOURCE_GENERIC_REGISTER;
   UACPI_AML_RESOURCE_ADDRESS16; UACPI_AML_RESOURCE_ADDRESS32; UACPI_AML_RESOURCE_ADDRESS64;
   UACPI_AML_RESOURCE_ADDRESS64_EXTENDED].

Definition program (t : uacpi_aml_resource) : list uacpi_resource_convert_instruction :=
  match to_native (aml_resources t) with Some l => l | None => [] end.

(** Bytes of the header, of the whole descriptor and of the native resource. *)
Definition hdr (t : uacpi_aml_resource) : Z := aml_resource_kind_to_header_size (resource_kind (aml_resources t)).
Definition aml_length (t : uacpi_aml_resource) : Z := aml_size_with_header (aml_resources t).
Definition native_length (t : uacpi_aml_resource) : Z := align_native (native_size (aml_resources t)).

(** The moves of a descriptor with byte [v] at offset 3, the only one that a program
    of these kinds loads (an address space's type), and the bits it knows of. *)
Definition moves (t : uacpi_aml_resource) (v : Z) : option (list move) :=
  trace (aml_length t) (native_length t - 8) (aml_size (aml_resources t)) v (program t) (List.length (program t)) 0 0.

Definition known_bit (t : uacpi_aml_resource) (v x : Z) : bool :=
  (x <? 8 * hdr t) || match moves t v with Some ms => covered ms x | None => false end.

Definition has_load (t : uacpi_aml_resource) : bool := existsb (fun i => is_load (code i)) (program t).

Definition is_address (t : uacpi_aml_resource) : bool :=
  match t with
  | UACPI_AML_RESOURCE_ADDRESS16 | UACPI_AML_RESOURCE_ADDRESS32 | UACPI_AML_RESOURCE_ADDRESS64 => true
  | _ => false
  end.

(** Offset of the resource source of an address space. *)
Definition source_offset (t : uacpi_aml_resource) : Z :=
  match t with
  | UACPI_AML_RESOURCE_ADDRESS16 => offsetof uacpi_resource_address16 "source"
  | UACPI_AML_RESOURCE_ADDRESS32 => offsetof uacpi_resource_address32 "source"
  | _ => offsetof uacpi_resource_address64 "source"
  end.

(** What the tables have to satisfy for the argument, as a computation. *)
Definition moves_ok (t : uacpi_aml_resource) (v : Z) : bool :=
  match moves t v with
  | None => false
  | Some ms =>
      disjointb mv_n mv_z ms && disjointb mv_a mv_w ms &&
      forallb (fun mv => (mv_w mv =? 0) || (8 * hdr t <=? mv_a mv)) ms &&
      (negb (has_load t) || existsb (fun mv => (mv_a mv =? 24) && (mv_n mv =? 32) && (mv_w mv =? 8)) ms) &&
      (negb (is_address t) ||
        existsb (fun mv => (mv_n mv =? 8 * source_offset t) && (mv_w mv =? 0) && (mv_z mv =? 128)) ms)
  end.

Definition kind_ok (t : uacpi_aml_resource) : bool :=
  loads_in (aml_length t) (native_length t - 8) (program t) &&
  forallb (fun i => negb (is_load (code i)) || ((aml_offset i =? 3) && (native_offset i =? 4))) (program t) &&
  (4 <=? aml_length t) && (hdr t <=? aml_length t) && (aml_length t <? 256) && (native_length t <? 256) && (16 <=? native_length t) &&
  forallb (moves_ok t) (seqZ 0 256).

Lemma kinds_ok : forallb kind_ok moved_kinds = true.
Proof. vm_compute; reflexivity. Qed.

(** The programs are the same in both directions and the native type names the kind. *)
Lemma kinds_programs t : In t moved_kinds -> let spec := aml_resources t in
  to_native spec = Some (program t) /\ to_aml spec = Some (program t) /\ native_type spec < 2 ^ 32 /\ 0 <= native_type spec /\
  resource_spec_from_native (native_type spec) = spec /\ type spec = t.
Proof.
  cbv zeta; intros H; repeat (destruct H as [<-|H]; [split; [reflexivity|split; [reflexivity|vm_compute; repeat split; congruence]]|]).
  destruct H.
Qed.

Record kind_facts (t : uacpi_aml_resource) : Prop := {
  kf_loads : loads_in (aml_length t) (native_length t - 8) (program t) = true;
  kf_load : forall i, In i (program t) -> is_load (code i) = true -> aml_offset i = 3 /\ native_offset i = 4;
  kf_size : 4 <= aml_length t < 256;
  kf_hdr : hdr t <= aml_length t;
  kf_native : 16 <= native_length t < 256;
  kf_moves : forall v, in_w 8 v -> moves_ok t v = true }.

Lemma kind_has_facts t : In t moved_kinds -> kind_facts t.
Proof.
  intros H; pose proof kinds_ok as Hk; rewrite forallb_forall in Hk; specialize (Hk t H); unfold kind_ok in Hk.
  rewrite !andb_true_iff, !Z.leb_le, !Z.ltb_lt, !forallb_forall in Hk; destruct Hk as [[[[[[[H1 H2] H3] H4] H5] H6] H7] H8].
  split; [exact H1| |lia|exact H4|lia|].
  - intros i Hi Hl; specialize (H2 i Hi); cbv beta in H2; rewrite Hl in H2; cbn [negb orb] in H2; lia.
  - intros v Hv; apply H8; apply list_elem_of_In, elem_of_seqZ; unfold in_w in Hv; lia.
Qed.

(** ** Bits of integers in memory *)

Lemma wr_bits {T} (m : bytes) (u : T) n p v : bytes_ok m -> owned m p (Z.of_nat n) ->
  exists m', wr n p v (m, u) = Some (tt, (m', u)) /\ same_dom m m' /\ bytes_ok m' /\
    forall k, bitat m' k = if within (8 * p) (8 * Z.of_nat n) k then Z.testbit v (k - 8 * p) else bitat m k.
Proof.
  intros Hok Ho; destruct (store_le_spec n m p v Ho) as (m' & E & Hd & Hok' & Hb).
  exists m'; split; [unfold wr, on_mem; cbn [fst snd]; rewrite E; reflexivity|auto].
Qed.

Lemma rd_bits {T} (m : bytes) (u : T) n p v : bytes_ok m -> owned m p (Z.of_nat n) -> in_w (8 * Z.of_nat n) v ->
  (forall i, 0 <= i < 8 * Z.of_nat n -> bitat m (8 * p + i) = Z.testbit v i) -> rd n p (m, u) = Some (v, (m, u)).
Proof.
  intros Hok Ho Hv Hb; destruct (load_le_bits m n Hok p Ho) as (x & E & Hx & Hbx).
  unfold rd; cbn [fst]; rewrite E; do 2 f_equal; apply Z.bits_inj'; intros i Hi; rewrite Hbx by lia.
  destruct (Z.ltb_spec i (8 * Z.of_nat n)); [apply Hb; lia|].
  symmetry; apply (testbit_in_w (8 * Z.of_nat n)); [exact Hv|lia].
Qed.

(** ** To the native form *)

Lemma moved_native_length {T} t data (s : bytes * T) : In t moved_kinds ->
  native_size_for_aml_resource data (aml_size (aml_resources t)) (aml_resources t) s = Some (native_length t, s).
Proof. intros H; repeat (destruct H as [<-|H]; [reflexivity|]); destruct H. Qed.

Definition decision (ctx : resource_conversion_ctx) : Z := if just_one ctx then DECISION_BREAK else DECISION_CONTINUE.

(** Bit [k] of a native resource at [resource] that holds the bits [f] of a descriptor. *)
Definition native_image (t : uacpi_aml_resource) (ms : list move) (resource : Z) (f : Z -> bool) (d : Z -> bool) (k : Z) : bool :=
  if within (8 * resource) 32 k then Z.testbit (native_type (aml_resources t)) (k - 8 * resource)
  else if within (8 * (resource + 4)) 32 k then Z.testbit (native_length t) (k - 8 * (resource + 4))
  else native_bit ms f (k - 8 * (resource + 8)) (d k).

Lemma moves_facts t v : In t moved_kinds -> in_w 8 v -> exists ms, moves t v = Some ms /\
  Forall (in_range (aml_length t) (native_length t - 8)) ms /\ disjointb mv_n mv_z ms = true /\
  disjointb mv_a mv_w ms = true /\ (forall mv, In mv ms -> mv_w mv = 0 \/ 8 * hdr t <= mv_a mv) /\
  (has_load t = true -> exists mv, In mv ms /\ mv_a mv = 24 /\ mv_n mv = 32 /\ mv_w mv = 8) /\
  (is_address t = true -> exists mv, In mv ms /\ mv_n mv = 8 * source_offset t /\ mv_w mv = 0 /\ mv_z mv = 128).
Proof.
  intros Ht Hv; destruct (kind_has_facts t Ht) as [_ _ Hs _ _ Hm]; specialize (Hm v Hv); unfold moves_ok in Hm.
  destruct (moves t v) as [ms|] eqn:E; [|discriminate]; exists ms; split; [reflexivity|].
  split; [unfold moves in E; eapply trace_in_range, E; lia|].
  rewrite !andb_true_iff, !forallb_forall in Hm; destruct Hm as [[[[H1 H2] H3] H4] H5].
  split; [exact H1|split; [exact H2|split; [|split]]].
  - intros mv Hin; specialize (H3 mv Hin); cbv beta in H3; lia.
  - intros Hl; rewrite Hl in H4; cbn [negb orb] in H4; apply existsb_exists in H4 as (mv & Hin & Hmv).
    exists mv; split; [exact Hin|lia].
  - intros Hl; rewrite Hl in H5; cbn [negb orb] in H5; apply existsb_exists in H5 as (mv & Hin & Hmv).
    exists mv; split; [exact Hin|lia].
Qed.

Lemma to_native_moved t data resource m ctx v : In t moved_kinds -> bytes_ok m ->
  owned m data (aml_length t) -> owned m resource (native_length t) -> apart data (aml_length t) resource (native_length t) ->
  (forall k, 8 * (resource + 8) <= k < 8 * (resource + native_length t) -> bitat m k = false) ->
  m !! (data + 3) = Some v -> buf ctx = resource ->
  exists m' ms, moves t v = Some ms /\
    do_aml_resource_to_native data (aml_size (aml_resources t)) (aml_resources t) (m, ctx) =
      Some (decision ctx, (m', with_buf (resource + native_length t) ctx)) /\
    same_dom m m' /\ bytes_ok m' /\
    forall k, bitat m' k = native_image t ms resource (fun a => bitat m (8 * data + a)) (bitat m) k.
Proof.
  intros Ht Hok Ha Hn Hap Hz Hv Hbuf; destruct (kind_has_facts t Ht) as [Hloads Hload Hs Hh Hns _].
  destruct (kinds_programs t Ht) as (Ep & _ & Hnt & Hnt0 & _ & _).
  destruct (moves_facts t v Ht ltac:(eauto)) as (ms & Ems & Hrs & Hdn & Hda & _).
  destruct (wr_bits m ctx 4 resource (native_type (aml_resources t)) Hok) as (m1 & E1 & D1 & Ok1 & B1);
    [eapply owned_sub; [exact Hn|lia..]|].
  destruct (wr_bits m1 ctx 4 (resource + 4) (native_length t) Ok1) as (m2 & E2 & D2 & Ok2 & B2);
    [rewrite <- D1; eapply owned_sub; [exact Hn|lia..]|].
  assert (D : same_dom m m2) by (etransitivity; eassumption).
  assert (El : rd 4 (resource + 4) (m2, ctx) = Some (native_length t, (m2, ctx))).
  { apply rd_bits; [exact Ok2|rewrite <- D; eapply owned_sub; [exact Hn|lia..]|unfold in_w; lia|].
    intros i Hi; rewrite B2; destruct (withinP (8 * (resource + 4)) (8 * Z.of_nat 4) (8 * (resource + 4) + i)); [f_equal; lia|lia]. }
  assert (Hlow : forall k, ~ (8 * resource <= k < 8 * (resource + 8)) -> bitat m2 k = bitat m k).
  { intros k Hk; rewrite B2, B1; destruct (withinP (8 * (resource + 4)) (8 * Z.of_nat 4) k); [lia|].
    destruct (withinP (8 * resource) (8 * Z.of_nat 4) k); [lia|reflexivity]. }
  set (u := with_buf (resource + native_length t) ctx).
  destruct (run_to_native data (aml_size (aml_resources t)) (hdr t) resource (aml_length t) (native_length t - 8) v (program t)
    Hloads ltac:(lia) (List.length (program t))) with
      (l := {| pc := 0; accumulator := 0; resource_end := resource + native_size (aml_resources t);
        base_aml_size := aml_size (aml_resources t); base_aml_size_with_header := aml_size (aml_resources t) + hdr t |})
      (m := m2) (u := u) (ms := ms) as (m3 & E3 & D3 & Ok3 & B3).
  - unfold apart in *; lia.
  - exact Ems.
  - split; [reflexivity|split; [|split; [exact Ok2|split; [rewrite <- D; exact Ha|split; [|split; [exact Hdn|]]]]]].
    + intros i Hi Hli; destruct (Hload i Hi Hli) as [-> _]; rewrite <- Hv.
      apply byte_bits; [exact Hok|exact Ok2|exact D|]; intros j Hj; apply Hlow; unfold apart in *; lia.
    + rewrite <- D; eapply owned_sub; [exact Hn|lia..].
    + intros y x Hy Hx; rewrite Forall_forall in Hrs; specialize (Hrs y (proj2 (list_elem_of_In _ _) Hy)).
      unfold in_range in Hrs; rewrite Hlow by lia; apply Hz; lia.
  - exists m3, ms; split; [exact Ems|split; [|split; [etransitivity; eassumption|split; [exact Ok3|]]]].
    + unfold do_aml_resource_to_native; erewrite SM_bind_Some by reflexivity; cbn [snd]; rewrite Hbuf; unfold set_type, set_length, get_length.
      erewrite SM_bind_Some by exact E1; erewrite SM_bind_Some by (apply moved_native_length, Ht).
      erewrite SM_bind_Some by exact E2; erewrite SM_bind_Some by exact El; erewrite SM_bind_Some by reflexivity.
      rewrite Ep; exact E3.
    + intros k; rewrite B3; unfold native_image.
      assert (Hout : 8 * resource <= k < 8 * (resource + 8) ->
        native_bit ms (fun a => bitat m2 (8 * data + a)) (k - 8 * (resource + 8)) (bitat m2 k) = bitat m2 k).
      { intros Hk; apply native_bit_out; rewrite Forall_forall in *; intros y Hy; specialize (Hrs y Hy); unfold in_range in Hrs; lia. }
      destruct (withinP (8 * resource) 32 k).
      { rewrite Hout, B2, B1 by lia; destruct (withinP (8 * (resource + 4)) (8 * Z.of_nat 4) k); [lia|].
        destruct (withinP (8 * resource) (8 * Z.of_nat 4) k); [reflexivity|lia]. }
      destruct (withinP (8 * (resource + 4)) 32 k).
      { rewrite Hout, B2 by lia; destruct (withinP (8 * (resource + 4)) (8 * Z.of_nat 4) k); [reflexivity|lia]. }
      rewrite (Hlow k) by lia; apply (native_bit_ext (aml_length t) (native_length t - 8)); [exact Hrs|].
      intros a Haa; apply Hlow; unfold apart in *; lia.
Qed.

(** ** Back to a descriptor *)

(** The header of a descriptor of kind [t], as an integer. *)
Definition header (t : uacpi_aml_resource) : Z :=
  let spec := aml_resources t in
  match resource_kind spec with
  | KIND_LARGE => Z.lor (Z.lor ACPI_LARGE_ITEM (type_to_aml_resource t)) (Z.shiftl (aml_size spec) 8)
  | KIND_SMALL => Z.lor (Z.shiftl (type_to_aml_resource t) ACPI_SMALL_ITEM_NAME_IDX) (aml_size spec)
  end.

Lemma type_byte_small t : In t moved_kinds -> 0 <= type_to_aml_resource t < 0x80 /\
  match resource_kind (aml_resources t) with KIND_SMALL => type_to_aml_resource t < 16 /\ aml_size (aml_resources t) < 8 | KIND_LARGE => True end.
Proof.
  intros H; repeat (destruct H as [<-|H]; [vm_compute; intuition discriminate|]); destruct H.
Qed.

Lemma write_header_bits t dst m u : In t moved_kinds -> bytes_ok m -> owned m dst (hdr t) ->
  exists m', write_header dst (aml_resources t) (aml_size (aml_resources t)) (m, u) = Some (tt, (m', u)) /\
    same_dom m m' /\ bytes_ok m' /\
    forall k, bitat m' k = if within (8 * dst) (8 * hdr t) k then Z.testbit (header t) (k - 8 * dst) else bitat m k.
Proof.
  intros Ht Hok Ho; pose proof (type_byte_small t Ht) as [Htb Hsm]; destruct (kinds_programs t Ht) as (_ & _ & _ & _ & _ & Ety).
  unfold write_header, header, hdr in *; rewrite Ety; destruct (resource_kind (aml_resources t)); cbn [aml_resource_kind_to_header_size] in *;
    [change SMALL_ITEM_HEADER_SIZE with 1 in *|change LARGE_ITEM_HEADER_SIZE with 3 in *].
  - set (b := Z.shiftl (type_to_aml_resource t) ACPI_SMALL_ITEM_NAME_IDX).
    assert (Hb : 0 <= b < 256) by (unfold b, ACPI_SMALL_ITEM_NAME_IDX; rewrite Z.shiftl_mul_pow2 by lia; lia).
    destruct (wr_bits m u 1 dst b Hok Ho) as (m1 & E1 & D1 & Ok1 & B1).
    assert (Er : rd 1 dst (m1, u) = Some (b, (m1, u))).
    { apply rd_bits; [exact Ok1|rewrite <- D1; exact Ho|unfold in_w; lia|].
      intros i Hi; rewrite B1; destruct (withinP (8 * dst) (8 * Z.of_nat 1) (8 * dst + i)); [f_equal; lia|lia]. }
    destruct (wr_bits m1 u 1 dst (Z.lor b (aml_size (aml_resources t))) Ok1) as (m2 & E2 & D2 & Ok2 & B2);
      [rewrite <- D1; exact Ho|].
    exists m2; split; [|split; [etransitivity; eassumption|split; [exact Ok2|]]].
    { erewrite SM_bind_Some by exact E1; erewrite SM_bind_Some by exact Er; exact E2. }
    intros k; rewrite B2, B1; change (8 * Z.of_nat 1) with 8; change (8 * 1) with 8.
    destruct (withinP (8 * dst) 8 k); reflexivity.
  - set (b := Z.lor ACPI_LARGE_ITEM (type_to_aml_resource t)).
    assert (Hb : in_w 8 b) by (unfold b; change ACPI_LARGE_ITEM with (Z.shiftl 1 7); rewrite lor_shiftl_add by (unfold in_w; lia); unfold in_w; lia).
    destruct (wr_bits m u 1 dst b Hok) as (m1 & E1 & D1 & Ok1 & B1); [eapply owned_sub; [exact Ho|lia..]|].
    destruct (wr_bits m1 u 2 (dst + 1) (aml_size (aml_resources t)) Ok1) as (m2 & E2 & D2 & Ok2 & B2);
      [rewrite <- D1; eapply owned_sub; [exact Ho|lia..]|].
    exists m2; split; [|split; [etransitivity; eassumption|split; [exact Ok2|]]].
    { erewrite SM_bind_Some by exact E1; exact E2. }
    intros k; rewrite B2, B1; change (8 * Z.of_nat 1) with 8; change (8 * 3) with 24;
      change (8 * Z.of_nat 2) with 16.
    destruct (withinP (8 * (dst + 1)) 16 k), (withinP (8 * dst) 24 k), (withinP (8 * dst) 8 k); try lia; try reflexivity; bits_simpl.
    + cbn [orb]; f_equal; lia.
    + rewrite orb_false_r; reflexivity.
Qed.

Lemma moved_aml_length t resource m u : In t moved_kinds -> bytes_ok m -> owned m resource (native_length t) ->
  rd 4 resource (m, u) = Some (native_type (aml_resources t), (m, u)) ->
  (is_address t = true -> forall x, 8 * source_offset t <= x < 8 * source_offset t + 128 -> bitat m (8 * (resource + 8) + x) = false) ->
  aml_size_for_native_resource resource (aml_resources t) (m, u : resource_conversion_ctx) = Some (aml_length t, (m, u)).
Proof.
  intros Ht Hok Ho Ety Hz; assert (Hsrc : is_address t = true -> size_for_aml_resource_source (NATIVE_OFFSET resource (source_offset t)) true (m, u) =
    Some (0, (m, u))).
  { intros Ea; specialize (Hz Ea).
    assert (Hin : 0 <= source_offset t /\ source_offset t + 16 + 8 <= native_length t).
    { destruct t; try discriminate Ea; vm_compute; intuition discriminate. }
    assert (Hrd : forall n a, 0 <= a -> a + Z.of_nat n <= 16 ->
      rd n (NATIVE_OFFSET resource (source_offset t) + a) (m, u) = Some (0, (m, u))).
    { intros n a Ha1 Ha2; apply rd_zero; [exact Hok|unfold NATIVE_OFFSET; eapply owned_sub; [exact Ho|lia..]|].
      intros k Hk; unfold NATIVE_OFFSET in Hk; rewrite <- (Hz (k - 8 * (resource + 8))) by lia; f_equal; lia. }
    unfold size_for_aml_resource_source, SOURCE_LENGTH, SOURCE_INDEX_PRESENT.
    erewrite SM_bind_Some by (apply Hrd; lia); erewrite SM_bind_Some by (apply Hrd; lia).
    cbn [Z.eqb negb andb]; erewrite SM_bind_Some by reflexivity; erewrite SM_bind_Some by (apply Hrd; lia); reflexivity. }
  destruct (is_address t) eqn:Ea.
  - specialize (Hsrc eq_refl); destruct t; try discriminate Ea;
      unfold aml_size_for_native_resource; cbn [size_for_aml aml_resources DEFINE_LARGE_AML_RESOURCE call_aml_size];
      unfold size_for_aml_address_or_clock_input, get_type; (erewrite SM_bind_Some by exact Ety);
      cbv zeta; repeat match goal with |- context [if ?a =? ?b then _ else _] =>
        let v := eval vm_compute in (a =? b) in change (a =? b) with v; cbv iota end; unfold source_offset in Hsrc;
      (erewrite SM_bind_Some by exact Hsrc); reflexivity.
  - repeat (destruct Ht as [<-|Ht]; [first [discriminate Ea|reflexivity]|]); destruct Ht.
Qed.

Lemma to_aml_moved t resource dst m ctx v ms : In t moved_kinds -> in_w 8 v -> moves t v = Some ms -> bytes_ok m ->
  owned m dst (aml_length t) -> owned m resource (native_length t) -> apart dst (aml_length t) resource (native_length t) ->
  rd 4 resource (m, ctx) = Some (native_type (aml_resources t), (m, ctx)) ->
  (has_load t = true -> m !! NATIVE_OFFSET resource 4 = Some v) ->
  (forall y x, In y ms -> mv_n y + mv_w y <= x < mv_n y + mv_z y -> bitat m (8 * (resource + 8) + x) = false) ->
  (forall k, 8 * dst <= k < 8 * (dst + aml_length t) -> bitat m k = false) -> buf ctx = dst ->
  exists m', do_native_resource_to_aml resource (m, ctx) = Some (decision ctx, (m', with_buf (dst + aml_length t) ctx)) /\
    same_dom m m' /\ bytes_ok m' /\
    forall k, bitat m' k = if within (8 * dst) (8 * hdr t) k then Z.testbit (header t) (k - 8 * dst)
      else aml_bit ms (fun y => bitat m (8 * (resource + 8) + y)) (k - 8 * dst) (bitat m k).
Proof.
  intros Ht Hv Ems Hok Ha Hn Hap Ety Hl Hh Hz Hbuf; destruct (kind_has_facts t Ht) as [Hloads Hload Hs Hhd Hns _].
  destruct (kinds_programs t Ht) as (_ & Ep & _ & _ & Espec & _).
  destruct (moves_facts t v Ht Hv) as (ms' & Ems' & Hrs & _ & Hda & Hhdr & _ & Hsrc); replace ms' with ms in * by congruence.
  assert (Hasz : aml_length t = aml_size (aml_resources t) + hdr t) by reflexivity.
  assert (Hh0 : 0 < hdr t) by (unfold hdr; destruct (resource_kind (aml_resources t)); reflexivity).
  set (u := with_buf (dst + aml_length t) ctx).
  destruct (write_header_bits t dst m u Ht Hok) as (m1 & E1 & D1 & Ok1 & B1); [eapply owned_sub; [exact Ha|lia..]|].
  assert (Hsame : forall k, ~ (8 * dst <= k < 8 * dst + 8 * hdr t) -> bitat m1 k = bitat m k).
  { intros k Hk; rewrite B1; destruct (withinP (8 * dst) (8 * hdr t) k); [lia|reflexivity]. }
  destruct (run_to_aml (aml_size (aml_resources t)) resource dst (aml_length t) (native_length t - 8) v (aml_resources t) (program t)
    Hloads ltac:(lia) (List.length (program t))) with
      (l := {| pc := 0; accumulator := 0; resource_end := resource + native_size (aml_resources t);
        base_aml_size := 0; base_aml_size_with_header := aml_size (aml_resources t) + hdr t |})
      (m := m1) (u := u) (ms := ms) as (m2 & E2 & D2 & Ok2 & B2).
  - unfold apart in *; lia.
  - exact Ems.
  - split; [|split; [exact Ok1|split; [rewrite <- D1; exact Ha|split; [rewrite <- D1; eapply owned_sub; [exact Hn|lia..]|
      split; [exact Hda|split]]]]].
    + intros i Hi Hli; destruct (Hload i Hi Hli) as [_ ->]; rewrite <- Hl.
      2:{ apply existsb_exists; exists i; auto. }
      apply byte_bits; [exact Hok|exact Ok1|exact D1|]; intros j Hj; apply Hsame; unfold apart, NATIVE_OFFSET in *; lia.
    + intros y x Hy Hx; pose proof Hrs as Hry; rewrite Forall_forall in Hry; specialize (Hry y (proj2 (list_elem_of_In _ _) Hy)).
      unfold in_range in Hry; rewrite Hsame; [apply (Hh y x Hy Hx)|unfold apart in *; lia].
    + intros y x Hy Hx; pose proof Hrs as Hry; rewrite Forall_forall in Hry; specialize (Hry y (proj2 (list_elem_of_In _ _) Hy)).
      unfold in_range in Hry; destruct (Hhdr y Hy); [lia|]; rewrite Hsame by lia; apply Hz; lia.
  - exists m2; split; [|split; [etransitivity; eassumption|split; [exact Ok2|]]].
    + unfold do_native_resource_to_aml; erewrite SM_bind_Some by reflexivity; cbn [snd]; unfold get_type.
      erewrite SM_bind_Some by exact Ety; rewrite Espec, Hbuf.
      erewrite SM_bind_Some.
      2:{ apply (moved_aml_length t); [exact Ht|exact Hok|exact Hn|exact Ety|].
          intros Hadr x Hx; destruct (Hsrc Hadr) as (mv & Hin & E & Ew & Ez); apply (Hh mv); [exact Hin|lia]. }
      rewrite !(wrap_id 32 (aml_length t)) by (unfold in_w; lia).
      erewrite SM_bind_Some by reflexivity; fold (hdr t); fold u; cbn [fst].
      replace (u32 (aml_length t - hdr t)) with (aml_size (aml_resources t)) by (rewrite wrap_id; [lia|unfold in_w; lia]).
      erewrite SM_bind_Some by exact E1; rewrite Ep; exact E2.
    + intros k; rewrite B2; destruct (withinP (8 * dst) (8 * hdr t) k) as [Hk|Hk].
      * rewrite aml_bit_out.
        2:{ apply Forall_forall; intros y Hy; destruct (Hhdr y (proj1 (list_elem_of_In _ _) Hy)); lia. }
        rewrite B1; destruct (withinP (8 * dst) (8 * hdr t) k); [reflexivity|lia].
      * rewrite (Hsame k) by lia; eapply aml_bit_ext; [exact Hrs|].
        intros y Hy; apply Hsame; unfold apart in *; lia.
Qed.

(** ** There and back *)

(** The header that the walk accepted is the one that is written. *)
Lemma header_unique t b n : In t moved_kinds -> in_w 8 b -> get_aml_resource_type b = t ->
  n = aml_size (aml_resources t) ->
  match resource_kind (aml_resources t) with KIND_LARGE => Z.lor b (Z.shiftl n 8) | KIND_SMALL => b end = header t \/
  (resource_kind (aml_resources t) = KIND_SMALL /\ Z.land b ACPI_SMALL_ITEM_LENGTH_MASK <> n).
Proof.
  intros Ht Hb Et ->.
  assert (Hall : forallb (fun b => negb (bool_decide (In (get_aml_resource_type b) moved_kinds)) ||
    let t := get_aml_resource_type b in let n := aml_size (aml_resources t) in
    match resource_kind (aml_resources t) with KIND_LARGE => Z.lor b (Z.shiftl n 8) =? header t
      | KIND_SMALL => (b =? header t) || negb (Z.land b ACPI_SMALL_ITEM_LENGTH_MASK =? n) end) (seqZ 0 256) = true)
    by (vm_compute; reflexivity).
  rewrite forallb_forall in Hall; specialize (Hall b); rewrite Et in Hall.
  assert (Hin : In b (seqZ 0 256)) by (apply list_elem_of_In, elem_of_seqZ; unfold in_w in Hb; lia).
  specialize (Hall Hin); rewrite bool_decide_eq_true_2 in Hall by exact Ht; cbn [negb orb] in Hall; cbv zeta in Hall.
  destruct (resource_kind (aml_resources t)); [|left; lia].
  apply orb_true_iff in Hall as [Hall|Hall]; [left; lia|right; split; [reflexivity|lia]].
Qed.

Lemma header_read t data left m u b : In t moved_kinds -> bytes_ok m -> owned m data (aml_length t) ->
  m !! data = Some b -> get_aml_resource_type b = t ->
  get_aml_resource_size data left (m, u : resource_conversion_ctx) = Some ((UACPI_STATUS_OK, aml_size (aml_resources t)), (m, u)) ->
  forall x, 0 <= x < 8 * hdr t -> bitat m (8 * data + x) = Z.testbit (header t) x.
Proof.
  intros Ht Hok Ho Hb Et Es x Hx; assert (Hbw : in_w 8 b) by eauto.
  destruct (kind_has_facts t Ht) as [_ _ Hs Hhd _ _].
  assert (Hne : get_aml_resource_type b <> UACPI_AML_RESOURCE_TYPE_INVALID).
  { rewrite Et; intros ->; repeat (destruct Ht as [Ht|Ht]; [discriminate|]); destruct Ht. }
  pose proof (entries_consistent b Hbw Hne) as [Hc _]; rewrite Et in Hc.
  pose proof (header_unique t b _ Ht Hbw Et eq_refl) as Hu.
  unfold get_aml_resource_size in Es; erewrite SM_bind_Some in Es by (apply rd1; exact Hb); cbv zeta in Es.
  unfold hdr in *; rewrite Hc in Hu, Hx, Hhd; destruct (negb (Z.land b ACPI_LARGE_ITEM =? 0)); cbn [aml_resource_kind_to_header_size] in Hx, Hhd.
  - change LARGE_ITEM_HEADER_SIZE with 3 in *; destruct Hu as [<-|[H _]]; [|discriminate].
    destruct (left <? 3); [discriminate|]; apply SM_bind_inv in Es as (n & s & En & Es).
    assert (n = aml_size (aml_resources t)) as -> by (destruct (_ <? n) in Es; [discriminate|injection Es; auto]).
    destruct (load_le_bits m 2 Hok (data + 1)) as (y & Ey & Hy & By); [eapply owned_sub; [exact Ho|lia..]|].
    unfold rd in En; cbn [fst] in En; rewrite Ey in En; injection En as -> <-.
    bits_simpl; destruct (Z.lt_ge_cases x 8).
    + rewrite (bitat_at m data x b) by (assumption || lia); bits_simpl; rewrite orb_false_r; reflexivity.
    + rewrite (testbit_in_w 8 b) by (assumption || lia); cbn [orb]; rewrite By by lia.
      destruct (Z.ltb_spec (x - 8) (8 * Z.of_nat 2)); [cbn [andb]; f_equal; lia|lia].
  - change SMALL_ITEM_HEADER_SIZE with 1 in *.
    assert (Hn : Z.land b ACPI_SMALL_ITEM_LENGTH_MASK = aml_size (aml_resources t))
      by (destruct (_ <? _) in Es; [discriminate|injection Es; auto]).
    destruct Hu as [<-|[_ H]]; [|congruence]; apply bitat_at; [lia|exact Hb].
Qed.

(** A native image changes nothing outside the native resource. *)
Lemma native_image_out t ms resource f d k : Forall (in_range (aml_length t) (native_length t - 8)) ms -> 16 <= native_length t ->
  ~ (8 * resource <= k < 8 * (resource + native_length t)) -> native_image t ms resource f d k = d k.
Proof.
  intros Hrs Hn Hk; unfold native_image; destruct (withinP (8 * resource) 32 k); [lia|].
  destruct (withinP (8 * (resource + 4)) 32 k); [lia|]; apply native_bit_out.
  rewrite Forall_forall in *; intros y Hy; specialize (Hrs y Hy); unfold in_range in Hrs; lia.
Qed.

Lemma native_image_in t ms resource f d y : 0 <= y ->
  native_image t ms resource f d (8 * (resource + 8) + y) = native_bit ms f y (d (8 * (resource + 8) + y)).
Proof.
  intros Hy; unfold native_image; destruct (withinP (8 * resource) 32 (8 * (resource + 8) + y)); [lia|].
  destruct (withinP (8 * (resource + 4)) 32 (8 * (resource + 8) + y)); [lia|]; f_equal; lia.
Qed.

(** The byte that the programs load is in the native image, too. *)
Lemma native_image_load t ms v data resource m m1 : In t moved_kinds -> moves t v = Some ms -> has_load t = true ->
  bytes_ok m1 -> is_Some (m1 !! NATIVE_OFFSET resource 4) -> in_w 8 v -> m !! (data + 3) = Some v ->
  (forall k, bitat m1 k = native_image t ms resource (fun a => bitat m (8 * data + a)) (bitat m) k) ->
  m1 !! NATIVE_OFFSET resource 4 = Some v.
Proof.
  intros Ht Ems Hl Ok1 [c1 Hc1] Hvw Hv B1; destruct (moves_facts t v Ht Hvw) as (ms' & Ems' & Hrs & Hdn & _ & _ & Hld & _).
  replace ms' with ms in * by congruence; destruct (Hld Hl) as (mv & Hin & E24 & E32 & E8); rewrite Hc1; f_equal.
  apply Z.bits_inj'; intros i Hi; destruct (Z.lt_ge_cases i 8).
  2:{ rewrite (testbit_in_w 8 c1), (testbit_in_w 8 v) by (eauto; lia); reflexivity. }
  rewrite <- (bitat_at m1 (NATIVE_OFFSET resource 4) i c1), <- (bitat_at m (data + 3) i v) by (assumption || lia).
  replace (8 * NATIVE_OFFSET resource 4 + i) with (8 * (resource + 8) + (32 + i)) by (unfold NATIVE_OFFSET; lia).
  rewrite B1, native_image_in by lia.
  rewrite (native_bit_in (aml_length t) (native_length t - 8) ms mv) by (assumption || lia); f_equal; lia.
Qed.

(** C26.  Round trip of descriptors.  A descriptor of one of the kinds whose programs
    only move bits (I/O and memory ranges, fixed DMA, generic registers, address spaces
    without a resource source), whose header passes the checks of the walk, is converted
    to the native form in cleared memory, and that is converted back to a descriptor in
    cleared memory.  Both conversions return and continue (or break after one resource
    when asked to), they advance the cursor by the sizes that the buffers were made
    for, and the new descriptor has the header and every bit that the program knows of;
    its reserved bits are clear. *)
Theorem descriptor_roundtrip t data resource dst left m ctx b v :
  In t moved_kinds -> bytes_ok m ->
  owned m data (aml_length t) -> owned m resource (native_length t) -> owned m dst (aml_length t) ->
  apart data (aml_length t) resource (native_length t) -> apart dst (aml_length t) resource (native_length t) ->
  (forall k, 8 * resource <= k < 8 * (resource + native_length t) -> bitat m k = false) ->
  (forall k, 8 * dst <= k < 8 * (dst + aml_length t) -> bitat m k = false) ->
  m !! data = Some b -> get_aml_resource_type b = t ->
  get_aml_resource_size data left (m, ctx) = Some ((UACPI_STATUS_OK, aml_size (aml_resources t)), (m, ctx)) ->
  m !! (data + 3) = Some v -> buf ctx = resource ->
  exists m1 m2,
    do_aml_resource_to_native data (aml_size (aml_resources t)) (aml_resources t) (m, ctx) =
      Some (decision ctx, (m1, with_buf (resource + native_length t) ctx)) /\
    do_native_resource_to_aml resource (m1, with_buf dst ctx) =
      Some (decision ctx, (m2, with_buf (dst + aml_length t) ctx)) /\
    same_dom m m2 /\
    (forall x, 0 <= x < 8 * aml_length t ->
      bitat m2 (8 * dst + x) = known_bit t v x && bitat m (8 * data + x)).
Proof.
  intros Ht Hok Ha Hn Hd Hap1 Hap2 Hz1 Hz2 Hb Et Es Hv Hbuf; assert (Hvw : in_w 8 v) by eauto.
  destruct (to_native_moved t data resource m ctx v) as (m1 & ms & Ems & E1 & D1 & Ok1 & B1); try assumption.
  { intros k Hk; apply Hz1; lia. }
  destruct (moves_facts t v Ht Hvw) as (ms' & Ems' & Hrs & Hdn & _); replace ms' with ms in * by congruence.
  destruct (kind_has_facts t Ht) as [_ _ Hs Hhd Hns _]; destruct (kinds_programs t Ht) as (_ & _ & Hnt & Hnt0 & _ & _).
  destruct (to_aml_moved t resource dst m1 (with_buf dst ctx) v ms) as (m2 & E2 & D2 & Ok2 & B2); try assumption; try reflexivity.
  - rewrite <- D1; exact Hd.
  - rewrite <- D1; exact Hn.
  - apply rd_bits; [exact Ok1|rewrite <- D1; eapply owned_sub; [exact Hn|lia..]|unfold in_w; lia|].
    intros i Hi; rewrite B1; unfold native_image; destruct (withinP (8 * resource) 32 (8 * resource + i)); [f_equal; lia|lia].
  - intros Hl; eapply native_image_load; try eassumption; apply D1, Hn; unfold NATIVE_OFFSET; lia.
  - intros y x Hy Hx; pose proof Hrs as Hry; rewrite Forall_forall in Hry; specialize (Hry y (proj2 (list_elem_of_In _ _) Hy)).
    unfold in_range in Hry; rewrite B1, native_image_in by lia.
    apply (native_bit_high (aml_length t) (native_length t - 8) ms y); assumption.
  - intros k Hk; rewrite B1, native_image_out; [apply Hz2, Hk|exact Hrs|lia|unfold apart in *; lia].
  - exists m1, m2; split; [exact E1|split; [exact E2|split; [etransitivity; eassumption|]]].
    intros x Hx; rewrite B2; unfold known_bit; rewrite Ems.
    destruct (withinP (8 * dst) (8 * hdr t) (8 * dst + x)) as [Hk|Hk], (Z.ltb_spec x (8 * hdr t)); try lia; cbn [orb].
    + replace (8 * dst + x - 8 * dst) with x by lia; symmetry; eapply header_read; eassumption || lia.
    + replace (8 * dst + x - 8 * dst) with x by lia.
      erewrite aml_bit_ext; [|exact Hrs|intros y Hy; rewrite B1, native_image_in by lia; reflexivity].
      rewrite (moves_roundtrip (aml_length t) (native_length t - 8)) by (assumption || apply incl_refl).
      destruct (covered ms x); [reflexivity|].
      rewrite B1, native_image_out; [apply Hz2; lia|exact Hrs|lia|unfold apart in *; lia].
Qed.
