(* ===== verification/ResDemo.v ===== *)
(** * acpi/uacpi/resources.c: runs on concrete buffers

    The theorems on resources applied to concrete descriptors, and runs that show
    where the conversion goes wrong. *)

From Stdlib Require Import Strings.String.
From S2P Require Import Prelude CMem UStdlib UCore ResTables Resources ResWalk ResConvert ResRound.

Open Scope string_scope.
Open Scope Z_scope.
Open Scope word_scope.

Module Demo.

(** The bytes of [l] at [p]. *)
Definition mem_of (p : Z) (l : list Z) : bytes := list_to_map (zip (seqZ p (Z.of_nat (List.length l))) l).

Definition zeros (n : Z) : list Z := repeat 0 (Z.to_nat n).

(** A host whose allocator hands out fresh memory and whose objects are one buffer. *)
Record world := { next_free : Z; object : Z * Z }.

#[export] Instance demo_host : ResourceHost world := {
  uacpi_kernel_alloc_zeroed n := fun s =>
    let p := next_free (snd s) in
    Some (p, (mem_of p (zeros n) ∪ fst s, {| next_free := p + n + 64; object := object (snd s) |}));
  uacpi_free _ _ := mret tt;
  inline_end_tag := 64;
  uacpi_create_buffer_object := mret 1;
  object_set_buffer _ p n := fun s => Some (tt, (fst s, {| next_free := next_free (snd s); object := (p, n) |}));
  object_buffer_view _ := fun s => Some (object (snd s), s);
  object_unref _ := mret tt;
  node_is_device _ := mret (UACPI_STATUS_OK, true);
  uacpi_eval_simple_buffer _ _ := mret (UACPI_STATUS_OK, 1);
  uacpi_eval_SRS _ _ := mret UACPI_STATUS_OK }.

Definition AT : Z := 0x1000.
Definition END_TAG : list Z := [0x79; 0].

Definition start (l : list Z) : bytes * world :=
  (mem_of 64 (zeros 8) ∪ mem_of AT l, {| next_free := 0x2000; object := (AT, Z.of_nat (List.length l)) |}).

Definition from_aml (l : list Z) := uacpi_native_resources_from_aml AT (Z.of_nat (List.length l)) (start l).

(** The bytes of [n] addresses, -1 for an unmapped one. *)
Definition dump (m : bytes) (p n : Z) : list Z := map (fun a => default (-1) (m !! a)) (seqZ p n).

(** Converted and converted back. *)
Definition round (l : list Z) : option (list Z) :=
  match from_aml l with
  | Some ((UACPI_STATUS_OK, r), s) =>
      match uacpi_native_resources_to_aml r s with
      | Some ((UACPI_STATUS_OK, _), s') => Some (dump (fst s') (fst (object (snd s'))) (snd (object (snd s'))))
      | _ => None
      end
  | _ => None
  end.

Definition irq_desc : list Z := [0x23; 0x03; 0x00; 0x18].
Definition io_desc : list Z := [0x47; 0x01; 0xf8; 0x03; 0xf8; 0x03; 0x01; 0x08].

Definition gpio_desc : list Z :=
  [0x8c; 34; 0; 1; 0; 1; 0; 0x13; 0; 1; 0xe8; 0x03; 0x32; 0; 23; 0; 0; 27; 0; 33; 0; 4; 0; 5; 0; 6; 0; 92; 95; 83; 66; 71; 0; 1; 2; 3; 4].

(** An address space with a resource source: index 2 and a path. *)
Definition address_desc : list Z :=
  [0x88; 18; 0; 1; 0x0c; 0x03; 0; 0; 0; 0x10; 0xff; 0x1f; 0; 0; 0; 0x10; 2; 92; 80; 67; 0].

Example composed_round : round (irq_desc ++ io_desc ++ address_desc ++ gpio_desc ++ END_TAG)%list =
  Some (irq_desc ++ io_desc ++ address_desc ++ gpio_desc ++ END_TAG)%list.
Proof. vm_compute; reflexivity. Qed.


(** ** Witnesses *)

Definition owned_b (m : bytes) (p n : Z) : bool := forallb (fun a => bool_decide (is_Some (m !! a))) (seqZ p n).
Definition clear_b (m : bytes) (lo n : Z) : bool := forallb (fun k => negb (bitat m k)) (seqZ lo n).
Definition bytes_ok_b (m : bytes) : bool := forallb (fun x => (0 <=? snd x) && (snd x <? 256)) (map_to_list m).

Lemma owned_b_ok m p n : owned_b m p n = true -> owned m p n.
Proof. intros H a Ha; apply (bool_decide_eq_true_1 (is_Some (m !! a))), (forallb_range _ _ _ _ H Ha). Qed.

Lemma clear_b_ok m lo n : clear_b m lo n = true -> forall k, lo <= k < lo + n -> bitat m k = false.
Proof. intros H k Hk; apply negb_true_iff, (forallb_range _ _ _ _ H Hk). Qed.

Lemma bytes_ok_b_ok m : bytes_ok_b m = true -> bytes_ok m.
Proof.
  unfold bytes_ok_b; rewrite forallb_forall; intros H a b Hb.
  specialize (H (a, b) (proj1 (list_elem_of_In _ _) (proj2 (elem_of_map_to_list m a b) Hb))); cbn [snd] in H; unfold in_w; lia.
Qed.

Definition bytes_at_b (m : bytes) (p : Z) (l : list Z) : bool :=
  forallb (fun i => bool_decide (m !! (p + Z.of_nat i) = l !! i)) (List.seq 0 (List.length l)).

Lemma bytes_at_b_ok m p l : bytes_at_b m p l = true -> bytes_at m p l.
Proof.
  unfold bytes_at_b; rewrite forallb_forall; intros H i c Hc; rewrite <- Hc.
  apply (bool_decide_eq_true_1 (m !! (p + Z.of_nat i) = l !! i)), H, in_seq.
  apply lookup_lt_Some in Hc; lia.
Qed.

(** The walk over three descriptors counts them. *)
Definition count_cb (data size : Z) (spec : uacpi_resource_spec) : SM (bytes * Z) Z :=
  n ← get_user; set_user (n + 1);; mret DECISION_CONTINUE.

Definition walked : list Z := (irq_desc ++ io_desc ++ END_TAG)%list.

Lemma for_each_aml_resource_parses_witness :
  uacpi_for_each_aml_resource count_cb AT 14 (mem_of AT walked, 0) =
    walk_items count_cb AT (fst (parse_resources walked)) (snd (parse_resources walked)) (mem_of AT walked, 0) /\
  walk_items count_cb AT (fst (parse_resources walked)) (snd (parse_resources walked)) (mem_of AT walked, 0) =
    Some (UACPI_STATUS_OK, (mem_of AT walked, 3)).
Proof.
  split; [|vm_compute; reflexivity].
  refine (proj1 (for_each_aml_resource_parses count_cb AT walked (mem_of AT walked, 0) _ _ _ _)).
  - repeat constructor; unfold in_w; lia.
  - vm_compute; reflexivity.
  - apply bytes_at_b_ok; vm_compute; reflexivity.
  - intros d n spec s' a s'' H E; unfold count_cb in E; injection E as <- <-; exact H.
Defined.

(** An I/O range there and back. *)
Definition io_mem : bytes := mem_of AT io_desc ∪ mem_of 0x2000 (zeros 16) ∪ mem_of 0x3000 (zeros 8).
Definition io_ctx : resource_conversion_ctx := {| buf := 0x2000; st := UACPI_STATUS_OK; just_one := false |}.

Lemma descriptor_roundtrip_witness : exists m1 m2,
  do_aml_resource_to_native AT 7 (aml_resources UACPI_AML_RESOURCE_IO) (io_mem, io_ctx) =
    Some (DECISION_CONTINUE, (m1, with_buf 0x2010 io_ctx)) /\
  do_native_resource_to_aml 0x2000 (m1, with_buf 0x3000 io_ctx) =
    Some (DECISION_CONTINUE, (m2, with_buf 0x3008 io_ctx)) /\
  same_dom io_mem m2 /\
  forall x, 0 <= x < 64 -> bitat m2 (8 * 0x3000 + x) = known_bit UACPI_AML_RESOURCE_IO 3 x && bitat io_mem (8 * AT + x).
Proof.
  apply (descriptor_roundtrip UACPI_AML_RESOURCE_IO AT 0x2000 0x3000 8 io_mem io_ctx 0x47 3); try (vm_compute; reflexivity).
  - left; reflexivity.
  - apply bytes_ok_b_ok; vm_compute; reflexivity.
  - apply owned_b_ok; vm_compute; reflexivity.
  - apply owned_b_ok; vm_compute; reflexivity.
  - apply owned_b_ok; vm_compute; reflexivity.
  - vm_compute; left; discriminate.
  - vm_compute; right; discriminate.
  - apply (clear_b_ok io_mem (8 * 0x2000) 128); vm_compute; reflexivity.
  - apply (clear_b_ok io_mem (8 * 0x3000) 64); vm_compute; reflexivity.
Defined.

(** The bits of an I/O descriptor that do not survive are the reserved ones. *)
Example io_reserved_bits :
  filter (fun x => negb (known_bit UACPI_AML_RESOURCE_IO 0 x)) (seqZ 0 64) = [9; 10; 11; 12; 13; 14; 15].
Proof. vm_compute; reflexivity. Qed.

(** ** Where it goes wrong *)

Definition bad_address : list Z :=
  [0x88; 18; 0; 1; 0x0c; 0x03; 0; 0; 0; 0x10; 0xff; 0x1f; 0; 0; 0; 0x10; 2; 92; 80; 67; 65].

(** A resource source whose path is not terminated stops the conversion; the status that
    says so is dropped, and the resource behind it is left as 16 zero bytes in a list that is
    reported as converted (its type 0 reads as an interrupt). *)
Theorem conversion_failure_is_reported_ok :
  option_map (fun r => (fst r, dump (fst (snd r)) (0x2000 + 16 + 56) 16)) (from_aml (bad_address ++ io_desc ++ END_TAG)%list) =
    Some ((UACPI_STATUS_OK, 0x2000), zeros 16).
Proof. vm_compute; reflexivity. Qed.

(** An extended interrupt descriptor of 6 bytes that says it holds 255 interrupts: the size
    of its native form wraps around to 40 bytes, and the conversion copies 1020 bytes from
    behind the descriptor into it. *)
Definition many_irqs : list Z := [0x89; 6; 0; 1; 255; 4; 0; 0; 0].

Theorem extended_irq_size_wraps :
  option_map fst (native_size_for_aml_resource AT 6 (aml_resources UACPI_AML_RESOURCE_EXTENDED_IRQ) (start many_irqs)) = Some 40 /\
  from_aml (many_irqs ++ END_TAG)%list = None.
Proof. split; vm_compute; reflexivity. Qed.

(** A GPIO descriptor that puts its pin table at its end, while the pins are copied from
    behind the fixed part: no room is made for them. *)
Definition late_pin_table : list Z :=
  [0x8c; 34; 0; 1; 0; 1; 0; 0x13; 0; 1; 0xe8; 0x03; 0x32; 0; 37; 0; 0; 27; 0; 33; 0; 4; 0; 5; 0; 6; 0; 92; 95; 83; 66; 71; 0; 1; 2; 3; 4].

Theorem gpio_trusts_pin_table_offset :
  option_map fst (native_size_for_aml_resource AT 34 (aml_resources UACPI_AML_RESOURCE_GPIO_CONNECTION) (start late_pin_table)) =
    Some (align_native (native_size (aml_resources UACPI_AML_RESOURCE_GPIO_CONNECTION))) /\
  from_aml (late_pin_table ++ END_TAG)%list = None.
Proof. split; vm_compute; reflexivity. Qed.

(** Vendor data of 300 bytes: the length is kept in a byte, 44 bytes come back. *)
Definition vendor_desc (n : Z) : list Z := [0x84; Z.land n 255; Z.shiftr n 8] ++ map (fun i => Z.land i 255) (seqZ 1 n).

Theorem vendor_length_is_a_byte :
  round (vendor_desc 300 ++ END_TAG)%list = Some (vendor_desc 44 ++ END_TAG)%list.
Proof. vm_compute; reflexivity. Qed.

(** An SPI connection: the device selection 0x1234 is read as 0x0012, because five bytes are
    copied over a structure that has a byte of padding before the 16-bit member. *)
Definition spi_desc : list Z :=
  [0x8e; 23; 0; 1; 0; 2; 2; 0; 0; 1; 9; 0; 0x40; 0x42; 0x0f; 0; 8; 0; 1; 0x34; 0x12; 92; 83; 80; 73; 0].

Theorem spi_device_selection_misplaced :
  option_map (fun r => (fst r,
    load_le (fst (snd r)) (NATIVE_OFFSET 0x2010 (offsetof uacpi_resource_spi_connection "device_selection")) 2))
    (from_aml (spi_desc ++ END_TAG)%list) = Some ((UACPI_STATUS_OK, 0x2000), Some 0x0012).
Proof. vm_compute; reflexivity. Qed.

(** A native resource of length zero that is no end tag: the walk never leaves it, however
    long it runs, and calls the callback again and again. *)
Definition stuck : bytes := mem_of AT (zeros 8).

Theorem zero_length_resource_never_passed fuel :
  for_each_resource_loop (fun _ => mret DECISION_CONTINUE) fuel AT 8 (stuck, tt) = None.
Proof.
  induction fuel as [|fuel IH]; [reflexivity|].
  cbn [for_each_resource_loop]; cbn [Z.eqb Z.ltb Z.compare Pos.compare Pos.compare_cont].
  assert (Ht : forall p, p = AT \/ p = AT + 4 -> rd 4 p (stuck, tt) = Some (0, (stuck, tt))) by (intros p [->| ->]; reflexivity).
  unfold get_type, get_length; erewrite SM_bind_Some by (apply Ht; left; reflexivity); cbn [Z.ltb].
  change (UACPI_RESOURCE_TYPE_MAX <? 0) with false; cbv iota.
  erewrite SM_bind_Some by (apply Ht; right; reflexivity); change (8 <? 0) with false; cbv iota.
  erewrite SM_bind_Some by reflexivity; erewrite SM_bind_Some by (apply Ht; left; reflexivity).
  change ((DECISION_CONTINUE =? DECISION_BREAK) || (0 =? UACPI_RESOURCE_TYPE_END_TAG)) with false; cbv iota.
  erewrite SM_bind_Some by (apply Ht; right; reflexivity); exact IH.
Qed.
End Demo.
