(* ===== verification/Tables.v ===== *)
(** * acpi/uacpi/tables.c: ACPI tables

    The array of installed tables (internal/dynamic_array.h), installation from
    physical and virtual memory with the host's overrides, references and mappings,
    searches, loading and the sanitised copy of the FADT.  Tables are bytes in the
    memory that the kernel maps; mapping, allocation, mutexes, the installation
    handler and the interpreter are the class [TableHost].  An entry of the array is
    named by its index, since no pointer to an entry is kept across an allocation. *)

From Stdlib Require Import Strings.String.
From S2P Require Import Prelude CMem UStdlib UCore Gas ResTables Resources.

Open Scope string_scope.
Open Scope Z_scope.
Open Scope word_scope.

(** ** Data *)

(** struct acpi_sdt_hdr *)
Record acpi_sdt_hdr := {
  h_signature : list Z; h_length : Z; h_revision : Z; h_checksum : Z; h_oemid : list Z; h_oem_table_id : list Z;
  h_oem_revision : Z; h_creator_id : Z; h_creator_revision : Z }.

#[export] Instance acpi_sdt_hdr_eq_dec : EqDecision acpi_sdt_hdr.
Proof. solve_decision. Defined.

Definition SDT_HDR_SIZE : Z := 36.

(** "RSDT", "XSDT", "DSDT", "FACP" and "FACS" *)
Definition ACPI_RSDT_SIGNATURE : list Z := [82; 83; 68; 84].
Definition ACPI_XSDT_SIGNATURE : list Z := [88; 83; 68; 84].
Definition ACPI_DSDT_SIGNATURE : list Z := [68; 83; 68; 84].
Definition ACPI_FADT_SIGNATURE : list Z := [70; 65; 67; 80].
Definition ACPI_FACS_SIGNATURE : list Z := [70; 65; 67; 83].

Inductive uacpi_table_origin :=
  | ORIGIN_FIRMWARE_VIRTUAL | ORIGIN_FIRMWARE_PHYSICAL | ORIGIN_HOST_VIRTUAL | ORIGIN_HOST_PHYSICAL.

#[export] Instance uacpi_table_origin_eq_dec : EqDecision uacpi_table_origin.
Proof. solve_decision. Defined.

Definition UACPI_TABLE_LOADED : Z := 1.
Definition UACPI_TABLE_CSUM_VERIFIED : Z := 2.
Definition UACPI_TABLE_INVALID : Z := 4.

(** struct uacpi_installed_table *)
Record uacpi_installed_table := {
  t_phys_addr : Z; t_hdr : acpi_sdt_hdr; t_ptr : Z; t_reference_count : Z; t_flags : Z; t_origin : uacpi_table_origin }.

#[export] Instance uacpi_installed_table_eq_dec : EqDecision uacpi_installed_table.
Proof. solve_decision. Defined.

Definition INSTALLED_TABLE_SIZE : Z := 64.

Definition with_ptr (p : Z) (t : uacpi_installed_table) : uacpi_installed_table :=
  {| t_phys_addr := t_phys_addr t; t_hdr := t_hdr t; t_ptr := p; t_reference_count := t_reference_count t;
     t_flags := t_flags t; t_origin := t_origin t |}.
Definition with_refs (n : Z) (t : uacpi_installed_table) : uacpi_installed_table :=
  {| t_phys_addr := t_phys_addr t; t_hdr := t_hdr t; t_ptr := t_ptr t; t_reference_count := n;
     t_flags := t_flags t; t_origin := t_origin t |}.
Definition with_flags (n : Z) (t : uacpi_installed_table) : uacpi_installed_table :=
  {| t_phys_addr := t_phys_addr t; t_hdr := t_hdr t; t_ptr := t_ptr t; t_reference_count := t_reference_count t;
     t_flags := n; t_origin := t_origin t |}.

(** struct table_array: the elements in order, the first 16 of them inline, and the
    buffer of the others with its capacity. *)
Record table_array := { elements : list uacpi_installed_table; dynamic_storage : Z; dynamic_capacity : Z }.

#[export] Instance table_array_eq_dec : EqDecision table_array.
Proof. solve_decision. Defined.

Definition UACPI_STATIC_TABLE_ARRAY_LEN : Z := 16.
Definition table_array_inline_capacity (a : table_array) : Z := UACPI_STATIC_TABLE_ARRAY_LEN.
Definition table_array_size (a : table_array) : Z := Z.of_nat (List.length (elements a)).
Definition table_array_capacity (a : table_array) : Z := table_array_inline_capacity a +64 dynamic_capacity a.
Definition table_array_at (a : table_array) (idx : Z) : option uacpi_installed_table :=
  if table_array_size a <=? idx then None else elements a !! Z.to_nat idx.

(** struct uacpi_table and uacpi_table_identifiers *)
Record uacpi_table := { ut_ptr : Z; ut_index : Z }.
Record uacpi_table_identifiers := { id_signature : list Z; id_oemid : list Z; id_oem_table_id : list Z }.

(** struct acpi_fadt; a GAS is 12 bytes. *)
Definition acpi_fadt := packed
  [("signature", 4); ("hdr.length", 4); ("hdr.revision", 1); ("hdr.rest", 27);
   ("firmware_ctrl", 4); ("dsdt", 4); ("int_model", 1); ("preferred_pm_profile", 1); ("sci_int", 2);
   ("smi_cmd", 4); ("acpi_enable", 1); ("acpi_disable", 1); ("s4bios_req", 1); ("pstate_cnt", 1);
   ("pm1a_evt_blk", 4); ("pm1b_evt_blk", 4); ("pm1a_cnt_blk", 4); ("pm1b_cnt_blk", 4); ("pm2_cnt_blk", 4);
   ("pm_tmr_blk", 4); ("gpe0_blk", 4); ("gpe1_blk", 4); ("pm1_evt_len", 1); ("pm1_cnt_len", 1);
   ("pm2_cnt_len", 1); ("pm_tmr_len", 1); ("gpe0_blk_len", 1); ("gpe1_blk_len", 1); ("gpe1_base", 1);
   ("cst_cnt", 1); ("p_lvl2_lat", 2); ("p_lvl3_lat", 2); ("flush_size", 2); ("flush_stride", 2);
   ("duty_offset", 1); ("duty_width", 1); ("day_alrm", 1); ("mon_alrm", 1); ("century", 1);
   ("iapc_boot_arch", 2); ("rsvd", 1); ("flags", 4); ("reset_reg", 12); ("reset_value", 1);
   ("arm_boot_arch", 2); ("fadt_minor_verison", 1); ("x_firmware_ctrl", 8); ("x_dsdt", 8);
   ("x_pm1a_evt_blk", 12); ("x_pm1b_evt_blk", 12); ("x_pm1a_cnt_blk", 12); ("x_pm1b_cnt_blk", 12);
   ("x_pm2_cnt_blk", 12); ("x_pm_tmr_blk", 12); ("x_gpe0_blk", 12); ("x_gpe1_blk", 12);
   ("sleep_control_reg", 12); ("sleep_status_reg", 12); ("hypervisor_vendor_identity", 8)].

Definition FADT_SIZE : Z := sizeof acpi_fadt.
Definition fadt_offset (f : string) : Z := offsetof acpi_fadt f.

(** The part of struct uacpi_runtime_context that the file uses. *)
Record runtime_context := {
  fadt : bytes; facs : Z; pm1a_status_blk : acpi_gas; pm1b_status_blk : acpi_gas; pm1a_enable_blk : acpi_gas;
  pm1b_enable_blk : acpi_gas; rt_flags : Z; is_rev1 : bool; is_hardware_reduced : bool; init_level : Z }.

Record table_state := {
  tables : table_array; early_table_access : bool; installation_handler : Z; table_mutex : Z; rt : runtime_context }.

#[export] Instance acpi_gas_eq_dec : EqDecision acpi_gas.
Proof. solve_decision. Defined.

#[export] Instance runtime_context_eq_dec : EqDecision runtime_context.
Proof. solve_decision. Defined.

#[export] Instance table_state_eq_dec : EqDecision table_state.
Proof. solve_decision. Defined.

Definition set_tables (x : table_array) (s : table_state) : table_state :=
  {| tables := x; early_table_access := early_table_access s; installation_handler := installation_handler s;
     table_mutex := table_mutex s; rt := rt s |}.
Definition set_early (x : bool) (s : table_state) : table_state :=
  {| tables := tables s; early_table_access := x; installation_handler := installation_handler s;
     table_mutex := table_mutex s; rt := rt s |}.
Definition set_handler (x : Z) (s : table_state) : table_state :=
  {| tables := tables s; early_table_access := early_table_access s; installation_handler := x;
     table_mutex := table_mutex s; rt := rt s |}.
Definition set_mutex (x : Z) (s : table_state) : table_state :=
  {| tables := tables s; early_table_access := early_table_access s; installation_handler := installation_handler s;
     table_mutex := x; rt := rt s |}.
Definition set_rt (f : runtime_context -> runtime_context) (s : table_state) : table_state :=
  {| tables := tables s; early_table_access := early_table_access s; installation_handler := installation_handler s;
     table_mutex := table_mutex s; rt := f (rt s) |}.

Definition set_fadt (x : bytes) (c : runtime_context) : runtime_context :=
  {| fadt := x; facs := facs c; pm1a_status_blk := pm1a_status_blk c; pm1b_status_blk := pm1b_status_blk c;
     pm1a_enable_blk := pm1a_enable_blk c; pm1b_enable_blk := pm1b_enable_blk c; rt_flags := rt_flags c;
     is_rev1 := is_rev1 c; is_hardware_reduced := is_hardware_reduced c; init_level := init_level c |}.
Definition set_facs (x : Z) (c : runtime_context) : runtime_context :=
  {| fadt := fadt c; facs := x; pm1a_status_blk := pm1a_status_blk c; pm1b_status_blk := pm1b_status_blk c;
     pm1a_enable_blk := pm1a_enable_blk c; pm1b_enable_blk := pm1b_enable_blk c; rt_flags := rt_flags c;
     is_rev1 := is_rev1 c; is_hardware_reduced := is_hardware_reduced c; init_level := init_level c |}.
Definition set_rev1 (x : bool) (c : runtime_context) : runtime_context :=
  {| fadt := fadt c; facs := facs c; pm1a_status_blk := pm1a_status_blk c; pm1b_status_blk := pm1b_status_blk c;
     pm1a_enable_blk := pm1a_enable_blk c; pm1b_enable_blk := pm1b_enable_blk c; rt_flags := rt_flags c;
     is_rev1 := x; is_hardware_reduced := is_hardware_reduced c; init_level := init_level c |}.
Definition set_reduced (x : bool) (c : runtime_context) : runtime_context :=
  {| fadt := fadt c; facs := facs c; pm1a_status_blk := pm1a_status_blk c; pm1b_status_blk := pm1b_status_blk c;
     pm1a_enable_blk := pm1a_enable_blk c; pm1b_enable_blk := pm1b_enable_blk c; rt_flags := rt_flags c;
     is_rev1 := is_rev1 c; is_hardware_reduced := x; init_level := init_level c |}.
Definition set_pm1a (x y : acpi_gas) (c : runtime_context) : runtime_context :=
  {| fadt := fadt c; facs := facs c; pm1a_status_blk := x; pm1b_status_blk := pm1b_status_blk c;
     pm1a_enable_blk := y; pm1b_enable_blk := pm1b_enable_blk c; rt_flags := rt_flags c;
     is_rev1 := is_rev1 c; is_hardware_reduced := is_hardware_reduced c; init_level := init_level c |}.
Definition set_pm1b (x y : acpi_gas) (c : runtime_context) : runtime_context :=
  {| fadt := fadt c; facs := facs c; pm1a_status_blk := pm1a_status_blk c; pm1b_status_blk := x;
     pm1a_enable_blk := pm1a_enable_blk c; pm1b_enable_blk := y; rt_flags := rt_flags c;
     is_rev1 := is_rev1 c; is_hardware_reduced := is_hardware_reduced c; init_level := init_level c |}.

(** ** The FADT *)

Definition gas_at (m : bytes) (p : Z) : option acpi_gas :=
  space ← load_le m p 1; width ← load_le m (p + 1) 1; offset ← load_le m (p + 2) 1; acc ← load_le m (p + 3) 1;
  addr ← load_le m (p + 4) 8;
  Some {| address_space_id := space; register_bit_width := width; register_bit_offset := offset; access_size := acc;
          address := addr |}.

Definition put_gas (m : bytes) (p : Z) (g : acpi_gas) : option bytes :=
  m ← store_le m p 1 (address_space_id g); m ← store_le m (p + 1) 1 (register_bit_width g);
  m ← store_le m (p + 2) 1 (register_bit_offset g); m ← store_le m (p + 3) 1 (access_size g);
  store_le m (p + 4) 8 (address g).

Definition UACPI_ADDRESS_SPACE_SYSTEM_IO : Z := 1.

Definition gas_init_system_io (address byte_size : Z) : acpi_gas :=
  {| address_space_id := UACPI_ADDRESS_SPACE_SYSTEM_IO; register_bit_width := Z.min 255 (u8 byte_size * 8);
     register_bit_offset := 0; access_size := 0; address := u64 address |}.

(** struct register_description *)
Record register_description := { rd_offset : Z; rd_xoffset : Z; rd_length_offset : Z }.

Definition register_named (f x len : string) : register_description :=
  {| rd_offset := fadt_offset f; rd_xoffset := fadt_offset x; rd_length_offset := fadt_offset len |}.

Definition fadt_registers : list register_description := Eval vm_compute in
  [register_named "pm1a_evt_blk" "x_pm1a_evt_blk" "pm1_evt_len";
   register_named "pm1b_evt_blk" "x_pm1b_evt_blk" "pm1_evt_len";
   register_named "pm1a_cnt_blk" "x_pm1a_cnt_blk" "pm1_cnt_len";
   register_named "pm1b_cnt_blk" "x_pm1b_cnt_blk" "pm1_cnt_len";
   register_named "pm2_cnt_blk" "x_pm2_cnt_blk" "pm2_cnt_len";
   register_named "pm_tmr_blk" "x_pm_tmr_blk" "pm_tmr_len";
   register_named "gpe0_blk" "x_gpe0_blk" "gpe0_blk_len";
   register_named "gpe1_blk" "x_gpe1_blk" "gpe1_blk_len"].

(** The body of the loop for one register, and the loop. *)
Definition convert_register (m : bytes) (desc : register_description) : option bytes :=
  legacy_addr ← load_le m (rd_offset desc) 4;
  length ← load_le m (rd_length_offset desc) 1;
  gas ← gas_at m (rd_xoffset desc);
  if negb (address gas =? 0) then Some m
  else put_gas m (rd_xoffset desc) (gas_init_system_io legacy_addr length).

Fixpoint convert_registers (m : bytes) (l : list register_description) : option bytes :=
  match l with [] => Some m | d :: l' => m ← convert_register m d; convert_registers m l' end.

Definition convert_registers_to_gas (m : bytes) : option bytes := convert_registers m fadt_registers.

(** Two halves of an event block; nothing is written when the block has no address. *)
Definition split_one_block (src dst0 dst1 : acpi_gas) : acpi_gas * acpi_gas :=
  if address src =? 0 then (dst0, dst1) else
  let byte_length := register_bit_width src / 8 / 2 in
  (gas_init_system_io (address src) byte_length, gas_init_system_io (address src +64 byte_length) byte_length).

Definition split_event_blocks (c : runtime_context) : option runtime_context :=
  a ← gas_at (fadt c) (fadt_offset "x_pm1a_evt_blk");
  let '(s, e) := split_one_block a (pm1a_status_blk c) (pm1a_enable_blk c) in
  let c := set_pm1a s e c in
  b ← gas_at (fadt c) (fadt_offset "x_pm1b_evt_blk");
  let '(s, e) := split_one_block b (pm1b_status_blk c) (pm1b_enable_blk c) in
  Some (set_pm1b s e c).

Definition fadt_version_sizes : list Z := [116; 132; 244; 244; 268; 276].

(** The first index whose size is not below the length, 6 when there is none. *)
Fixpoint find_revision (sizes : list Z) (length rev : Z) : Z :=
  match sizes with
  | [] => rev
  | s :: sizes' => if length <=? s then rev else find_revision sizes' length (rev + 1)
  end.

Definition fadt_ensure_correct_revision (m : bytes) : option bytes :=
  current_rev ← load_le m (fadt_offset "hdr.revision") 1;
  length ← load_le m (fadt_offset "hdr.length") 4;
  let rev := find_revision fadt_version_sizes length 0 in
  if rev =? 6 then store_le m (fadt_offset "hdr.revision") 1 rev else
  let rev := rev + 1 in
  if negb (current_rev =? rev) && negb ((rev =? 3) && (current_rev =? 4))
  then store_le m (fadt_offset "hdr.revision") 1 rev else Some m.

(** [fadt->hdr.revision <= 2] *)
Definition clear_reserved (m : bytes) : option bytes :=
  rev ← load_le m (fadt_offset "hdr.revision") 1;
  if rev <=? 2 then
    m ← store_le m (fadt_offset "preferred_pm_profile") 1 0;
    m ← store_le m (fadt_offset "pstate_cnt") 1 0;
    m ← store_le m (fadt_offset "cst_cnt") 1 0;
    store_le m (fadt_offset "iapc_boot_arch") 2 0
  else Some m.

(** [if (!fadt->x_dsdt) fadt->x_dsdt = fadt->dsdt] *)
Definition choose_dsdt (m : bytes) : option bytes :=
  x ← load_le m (fadt_offset "x_dsdt") 8;
  if x =? 0 then d ← load_le m (fadt_offset "dsdt") 4; store_le m (fadt_offset "x_dsdt") 8 d else Some m.

(** [if (fadt->firmware_ctrl) fadt->x_firmware_ctrl = fadt->firmware_ctrl] *)
Definition choose_facs (m : bytes) : option bytes :=
  x ← load_le m (fadt_offset "firmware_ctrl") 4;
  if x =? 0 then Some m else store_le m (fadt_offset "x_firmware_ctrl") 8 x.

Definition ACPI_HW_REDUCED_ACPI : Z := 0x100000.

(** [n] bytes of [src] at [p] over the beginning of the FADT. *)
Fixpoint copy_to_fadt (n : nat) (src : bytes) (p off : Z) (dst : bytes) : option bytes :=
  match n with
  | O => Some dst
  | S n' => b ← load8 src p; dst ← store8 dst off b; copy_to_fadt n' src (p + 1) (off + 1) dst
  end.

(** ** The host *)

Definition DISPOSITION_ALLOW : Z := 0.
Definition DISPOSITION_DENY : Z := 1.
Definition DISPOSITION_VIRTUAL_OVERRIDE : Z := 2.
Definition DISPOSITION_PHYSICAL_OVERRIDE : Z := 3.

Class TableHost (W : Type) := {
  uacpi_kernel_map : Z -> Z -> SM (bytes * W) Z;
  uacpi_kernel_unmap : Z -> Z -> SM (bytes * W) unit;
  uacpi_kernel_get_rsdp : SM (bytes * W) (uacpi_status * Z);
  uacpi_kernel_alloc : Z -> SM (bytes * W) Z;
  table_free : Z -> Z -> SM (bytes * W) unit;
  uacpi_kernel_create_mutex : SM (bytes * W) Z;
  uacpi_kernel_free_mutex : Z -> SM (bytes * W) unit;
  uacpi_kernel_acquire_mutex : Z -> SM (bytes * W) uacpi_status;
  uacpi_kernel_release_mutex : Z -> SM (bytes * W) unit;
  (** the handler at an address, on a mapped table: the disposition and the address *)
  call_installation_handler : Z -> Z -> SM (bytes * W) (Z * Z);
  uacpi_execute_table : Z -> Z -> SM (bytes * W) uacpi_status }.

Section Tables.
Context {W : Type} {TH : TableHost W}.
Abbreviation TM := (SM (bytes * (W * table_state))).

Definition host {A} (c : SM (bytes * W) A) : TM A := fun s =>
  match c (fst s, fst (snd s)) with Some (a, (m, w)) => Some (a, (m, (w, snd (snd s)))) | None => None end.
Definition gets {A} (f : table_state -> A) : TM A := gets_state (fun s => f (snd (snd s))).
Definition modify (f : table_state -> table_state) : TM unit :=
  update_state (fun s => (fst s, (fst (snd s), f (snd (snd s))))).
Definition modify_rt (f : runtime_context -> runtime_context) : TM unit := modify (set_rt f).

(** A computation on the FADT. *)
Definition on_fadt (f : bytes -> option bytes) : TM unit :=
  m ← gets (fun s => fadt (rt s));
  match f m with Some m' => modify_rt (set_fadt m') | None => undefined end.
Definition fadt_field (f : string) (n : nat) : TM Z :=
  m ← gets (fun s => fadt (rt s)); of_option (load_le m (fadt_offset f) n).

Definition uacpi_check_flag (flag : Z) : TM bool :=
  f ← gets (fun s => rt_flags (rt s)); mret (Z.land f flag =? flag).

Definition UACPI_FLAG_BAD_CSUM_FATAL : Z := 1.
Definition UACPI_FLAG_BAD_TBL_SIGNATURE_FATAL : Z := 2.
Definition UACPI_FLAG_BAD_XSDT : Z := 4.
Definition UACPI_FLAG_PROACTIVE_TBL_CSUM : Z := 32.

Definition uacpi_acquire_native_mutex_may_be_null : TM uacpi_status :=
  mtx ← gets table_mutex;
  if mtx =? 0 then mret UACPI_STATUS_OK else host (uacpi_kernel_acquire_mutex mtx).
Definition uacpi_release_native_mutex_may_be_null : TM unit :=
  mtx ← gets table_mutex;
  if mtx =? 0 then mret tt else host (uacpi_kernel_release_mutex mtx).

(** [if (!early_table_access) UACPI_ENSURE_INIT_LEVEL_AT_LEAST(SUBSYSTEM_INITIALIZED)]:
    may the operation go on? *)
Definition level_ok : TM bool :=
  early ← gets early_table_access;
  level ← gets (fun s => init_level (rt s));
  mret (early || (1 <=? level)).

(** *** Reading headers *)

Fixpoint rd_list (n : nat) (p : Z) : TM (list Z) :=
  match n with O => mret [] | S n' => b ← rd 1 p; l ← rd_list n' (p + 1); mret (b :: l) end.

Definition read_hdr (p : Z) : TM acpi_sdt_hdr :=
  signature ← rd_list 4 p; length ← rd 4 (p + 4); revision ← rd 1 (p + 8); checksum ← rd 1 (p + 9);
  oemid ← rd_list 6 (p + 10); oem_table_id ← rd_list 8 (p + 16); oem_revision ← rd 4 (p + 24);
  creator_id ← rd 4 (p + 28); creator_revision ← rd 4 (p + 32);
  mret {| h_signature := signature; h_length := length; h_revision := revision; h_checksum := checksum; h_oemid := oemid;
          h_oem_table_id := oem_table_id; h_oem_revision := oem_revision; h_creator_id := creator_id;
          h_creator_revision := creator_revision |}.

(** [for (i = 0; i < size; ++i) csum += bytes[i]] *)
Fixpoint checksum_loop (n : nat) (p csum : Z) : TM Z :=
  match n with O => mret csum | S n' => b ← rd 1 p; checksum_loop n' (p + 1) (u8 (csum + b)) end.

Definition table_checksum (table size : Z) : TM Z := checksum_loop (Z.to_nat size) table 0.

Definition uacpi_verify_table_checksum (table size : Z) : TM uacpi_status :=
  csum ← table_checksum table size;
  if negb (csum =? 0) then
    fatal ← uacpi_check_flag UACPI_FLAG_BAD_CSUM_FATAL;
    mret (if (fatal : bool) then UACPI_STATUS_BAD_CHECKSUM else UACPI_STATUS_OK)
  else mret UACPI_STATUS_OK.

Definition uacpi_signatures_match (lhs rhs : list Z) : bool := bool_decide (lhs = rhs).

Definition uacpi_check_table_signature (signature expect : list Z) : TM uacpi_status :=
  if negb (uacpi_signatures_match signature expect) then
    fatal ← uacpi_check_flag UACPI_FLAG_BAD_TBL_SIGNATURE_FATAL;
    mret (if (fatal : bool) then UACPI_STATUS_INVALID_SIGNATURE else UACPI_STATUS_OK)
  else mret UACPI_STATUS_OK.

(** *** The array *)

(** What an entry holds before it is filled in. *)
Definition fresh_entry : uacpi_installed_table :=
  {| t_phys_addr := 0; t_ptr := 0; t_reference_count := 0; t_flags := 0; t_origin := ORIGIN_FIRMWARE_VIRTUAL;
     t_hdr := {| h_signature := []; h_length := 0; h_revision := 0; h_checksum := 0; h_oemid := []; h_oem_table_id := [];
                 h_oem_revision := 0; h_creator_id := 0; h_creator_revision := 0 |} |}.

(** The bytes of the next buffer. *)
Definition grown_bytes (a : table_array) : Z :=
  if dynamic_capacity a =? 0 then u64 (INSTALLED_TABLE_SIZE * table_array_inline_capacity a)
  else
    let bytes := u64 (dynamic_capacity a / 2 * INSTALLED_TABLE_SIZE) in
    let bytes := if bytes =? 0 then INSTALLED_TABLE_SIZE else bytes in
    bytes +64 u64 (dynamic_capacity a * INSTALLED_TABLE_SIZE).

Definition push (t : uacpi_installed_table) (a : table_array) : table_array :=
  {| elements := elements a ++ [t]; dynamic_storage := dynamic_storage a; dynamic_capacity := dynamic_capacity a |}.

(** Is there an entry? *)
Definition table_array_alloc : TM bool :=
  a ← gets tables;
  let inline_cap := table_array_inline_capacity a in
  ok ← (if inline_cap <=? table_array_size a then
          let dynamic_size := table_array_size a - inline_cap in
          if dynamic_size =? dynamic_capacity a then
            let bytes := grown_bytes a in
            new_buf ← host (uacpi_kernel_alloc bytes);
            if new_buf =? 0 then mret false else
            (if dynamic_storage a =? 0 then mret tt
             else host (table_free (dynamic_storage a) (u64 (dynamic_size * INSTALLED_TABLE_SIZE))));;
            modify (set_tables {| elements := elements a; dynamic_storage := new_buf;
                                  dynamic_capacity := bytes / INSTALLED_TABLE_SIZE |});;
            mret true
          else mret true
        else mret true);
  if (ok : bool) then a ← gets tables; modify (set_tables (push fresh_entry a));; mret true else mret false.

Definition table_array_clear : TM unit :=
  a ← gets tables;
  (if dynamic_storage a =? 0 then mret tt
   else host (table_free (dynamic_storage a) (u64 (dynamic_capacity a * INSTALLED_TABLE_SIZE))));;
  modify (set_tables {| elements := []; dynamic_storage := 0; dynamic_capacity := 0 |}).

(** The entry at an index, and its new contents. *)
Definition get_table (idx : Z) : TM uacpi_installed_table :=
  a ← gets tables; of_option (table_array_at a idx).
Definition put_table (idx : Z) (t : uacpi_installed_table) : TM unit :=
  a ← gets tables;
  modify (set_tables {| elements := <[Z.to_nat idx := t]> (elements a); dynamic_storage := dynamic_storage a;
                        dynamic_capacity := dynamic_capacity a |}).

(** The status and the index. *)
Definition table_alloc : TM (uacpi_status * Z) :=
  early ← gets early_table_access;
  a ← gets tables;
  if (early : bool) && (table_array_size a =? table_array_capacity a) then mret (UACPI_STATUS_OUT_OF_MEMORY, 0) else
  ok ← table_array_alloc;
  if negb ok then mret (UACPI_STATUS_OUT_OF_MEMORY, 0) else
  a ← gets tables;
  mret (UACPI_STATUS_OK, table_array_size a - 1).

Definition get_external_table_header (phys_addr : Z) : TM (uacpi_status * acpi_sdt_hdr) :=
  virt ← host (uacpi_kernel_map phys_addr SDT_HDR_SIZE);
  if virt =? 0 then mret (UACPI_STATUS_MAPPING_FAILED, t_hdr fresh_entry) else
  h ← read_hdr virt;
  host (uacpi_kernel_unmap virt SDT_HDR_SIZE);;
  mret (UACPI_STATUS_OK, h).

(** *** References *)

Definition is_physical (o : uacpi_table_origin) : bool :=
  match o with ORIGIN_HOST_PHYSICAL | ORIGIN_FIRMWARE_PHYSICAL => true | _ => false end.

Definition has_flag (t : uacpi_installed_table) (f : Z) : bool := negb (Z.land (t_flags t) f =? 0).

(** [if (reference_count != 0xFFFF) reference_count++] *)
Definition count_reference (idx : Z) : TM uacpi_status :=
  t ← get_table idx;
  (if negb (t_reference_count t =? 0xffff) then put_table idx (with_refs (t_reference_count t + 1) t) else mret tt);;
  mret UACPI_STATUS_OK.

Definition table_ref_unlocked (idx : Z) : TM uacpi_status :=
  t ← get_table idx;
  if t_reference_count t =? 0 then
    if has_flag t UACPI_TABLE_INVALID then mret UACPI_STATUS_INVALID_ARGUMENT else
    if negb (is_physical (t_origin t)) then count_reference idx else
    p ← host (uacpi_kernel_map (t_phys_addr t) (h_length (t_hdr t)));
    put_table idx (with_ptr p t);;
    if p =? 0 then mret UACPI_STATUS_MAPPING_FAILED else
    if negb (has_flag t UACPI_TABLE_CSUM_VERIFIED) then
      ret ← uacpi_verify_table_checksum p (h_length (t_hdr t));
      if negb (is_ok ret) then
        host (uacpi_kernel_unmap p (h_length (t_hdr t)));;
        put_table idx (with_ptr 0 (with_flags (Z.lor (t_flags t) UACPI_TABLE_INVALID) t));;
        mret ret
      else
        put_table idx (with_ptr p (with_flags (Z.lor (t_flags t) UACPI_TABLE_CSUM_VERIFIED) t));;
        count_reference idx
    else count_reference idx
  else count_reference idx.

Definition table_unref_unlocked (idx : Z) : TM uacpi_status :=
  t ← get_table idx;
  if t_reference_count t =? 0 then mret UACPI_STATUS_INVALID_ARGUMENT else
  if t_reference_count t =? 0xffff then mret UACPI_STATUS_OK else
  (if (t_reference_count t =? 1) && is_physical (t_origin t) then
     host (uacpi_kernel_unmap (t_ptr t) (h_length (t_hdr t)));;
     put_table idx (with_ptr 0 t)
   else mret tt);;
  t ← get_table idx;
  put_table idx (with_refs (t_reference_count t - 1) t);;
  mret UACPI_STATUS_OK.

(** *** Installation

    Installing the FADT installs the DSDT it points to, and an override installs
    another table: [rec] is the installation, run with a smaller stack. *)

Inductive table_source := Physical (phys : Z) (expected_signature : option (list Z)) | Virtual (virt : Z).

Abbreviation result := (uacpi_status * option uacpi_table)%type.

Section Install.
Variable rec : table_source -> uacpi_table_origin -> bool -> TM result.

Definition accepted (ret : uacpi_status) : bool :=
  bool_decide (ret = UACPI_STATUS_OK) || bool_decide (ret = UACPI_STATUS_OVERRIDDEN).

Definition initialize_fadt (virt : Z) : TM uacpi_status :=
  h_len ← rd 4 (virt + 4);
  mem ← gets_state fst;
  on_fadt (copy_to_fadt (Z.to_nat (Z.min FADT_SIZE h_len)) mem virt 0);;
  flags ← fadt_field "flags" 4;
  modify_rt (set_reduced (negb (Z.land flags ACPI_HW_REDUCED_ACPI =? 0)));;
  on_fadt fadt_ensure_correct_revision;;
  on_fadt clear_reserved;;
  on_fadt choose_dsdt;;
  x_dsdt ← fadt_field "x_dsdt" 8;
  ret ← (if negb (x_dsdt =? 0)
         then r ← rec (Physical x_dsdt (Some ACPI_DSDT_SIGNATURE)) ORIGIN_FIRMWARE_PHYSICAL false; mret (fst r)
         else mret UACPI_STATUS_OK);
  if negb (accepted ret) then mret ret else
  on_fadt choose_facs;;
  reduced ← gets (fun s => is_hardware_reduced (rt s));
  (if negb reduced then
     on_fadt convert_registers_to_gas;;
     c ← gets rt;
     match split_event_blocks c with Some c' => modify_rt (fun _ => c') | None => undefined end
   else mret tt);;
  mret UACPI_STATUS_OK.

(** The checksum and, for the FADT, its contents: the status and the flags. *)
Definition verify_contents (hdr : acpi_sdt_hdr) (phys_addr virt_addr : Z) (is_fadt : bool) : TM (uacpi_status * Z) :=
  mapping ← (if virt_addr =? 0 then host (uacpi_kernel_map phys_addr (h_length hdr)) else mret virt_addr);
  if mapping =? 0 then mret (UACPI_STATUS_MAPPING_FAILED, 0) else
  ret ← uacpi_verify_table_checksum mapping (h_length hdr);
  r ← (if is_ok ret then
         ret ← (if is_fadt then initialize_fadt mapping else mret ret);
         mret (ret, UACPI_TABLE_CSUM_VERIFIED)
       else mret (ret, 0));
  (if virt_addr =? 0 then host (uacpi_kernel_unmap mapping (h_length hdr)) else mret tt);;
  mret r.

Definition verify_and_install_table (hdr : acpi_sdt_hdr) (phys_addr virt_addr : Z) (origin : uacpi_table_origin) (want : bool) :
    TM result :=
  let is_fadt := uacpi_signatures_match (h_signature hdr) ACPI_FADT_SIGNATURE in
  proactive ← uacpi_check_flag UACPI_FLAG_PROACTIVE_TBL_CSUM;
  r ← (if uacpi_signatures_match (h_signature hdr) ACPI_FACS_SIGNATURE then mret (UACPI_STATUS_OK, UACPI_TABLE_CSUM_VERIFIED)
       else if (proactive : bool) || is_fadt || want then verify_contents hdr phys_addr virt_addr is_fadt
       else mret (UACPI_STATUS_OK, 0));
  let '(ret, flags) := (r : uacpi_status * Z) in
  if negb (is_ok ret) then mret (ret, None) else
  (if uacpi_signatures_match (h_signature hdr) ACPI_DSDT_SIGNATURE
   then modify_rt (set_rev1 (h_revision hdr <? 2)) else mret tt);;
  r ← table_alloc;
  let '(ret, idx) := (r : uacpi_status * Z) in
  if negb (is_ok ret) then mret (ret, None) else
  put_table idx {| t_phys_addr := phys_addr; t_hdr := hdr; t_ptr := virt_addr; t_reference_count := if want then 1 else 0;
                   t_flags := flags; t_origin := origin |};;
  mret (UACPI_STATUS_OK, if want then Some {| ut_ptr := virt_addr; ut_index := idx |} else None).

Definition handle_table_override (disposition address : Z) (want : bool) : TM result :=
  if disposition =? DISPOSITION_VIRTUAL_OVERRIDE then rec (Virtual address) ORIGIN_HOST_VIRTUAL want else
  if disposition =? DISPOSITION_PHYSICAL_OVERRIDE then rec (Physical address None) ORIGIN_HOST_PHYSICAL want else
  mret (UACPI_STATUS_INTERNAL_ERROR, None).

(** A successful override is reported as such. *)
Definition overridden (r : result) : result :=
  (if is_ok (fst r) then UACPI_STATUS_OVERRIDDEN else fst r, snd r).

Definition table_install_physical_with_origin_unlocked (phys : Z) (origin : uacpi_table_origin)
    (expected_signature : option (list Z)) (want : bool) : TM result :=
  r ← get_external_table_header phys;
  let '(ret, hdr) := (r : uacpi_status * acpi_sdt_hdr) in
  if negb (is_ok ret) then mret (ret, None) else
  if h_length hdr <? SDT_HDR_SIZE then mret (UACPI_STATUS_INVALID_TABLE_LENGTH, None) else
  ret ← (match expected_signature with
         | Some sig => uacpi_check_table_signature (h_signature hdr) sig
         | None => mret UACPI_STATUS_OK
         end);
  if negb (is_ok ret) then mret (ret, None) else
  handler ← gets installation_handler;
  virt ← (if negb (handler =? 0) || want then host (uacpi_kernel_map phys (h_length hdr)) else mret 0);
  if (negb (handler =? 0) || want) && (virt =? 0) then mret (UACPI_STATUS_MAPPING_FAILED, None) else
  r ← (if bool_decide (origin = ORIGIN_FIRMWARE_PHYSICAL) && negb (handler =? 0) then
         d ← host (call_installation_handler handler virt);
         let '(disposition, override) := (d : Z * Z) in
         if disposition =? DISPOSITION_ALLOW then verify_and_install_table hdr phys virt origin want else
         if disposition =? DISPOSITION_DENY then mret (UACPI_STATUS_DENIED, None) else
         r ← handle_table_override disposition override want; mret (overridden r)
       else verify_and_install_table hdr phys virt origin want);
  if is_ok (fst r) && want then mret r else
  (if negb (virt =? 0) then host (uacpi_kernel_unmap virt (h_length hdr)) else mret tt);;
  mret (UACPI_STATUS_OK, snd r).

Definition table_install_with_origin_unlocked (virt : Z) (origin : uacpi_table_origin) (want : bool) : TM result :=
  hdr ← read_hdr virt;
  if h_length hdr <? SDT_HDR_SIZE then mret (UACPI_STATUS_INVALID_TABLE_LENGTH, None) else
  handler ← gets installation_handler;
  if bool_decide (origin = ORIGIN_FIRMWARE_VIRTUAL) && negb (handler =? 0) then
    d ← host (call_installation_handler handler virt);
    let '(disposition, override) := (d : Z * Z) in
    if disposition =? DISPOSITION_ALLOW then verify_and_install_table hdr 0 virt origin want else
    if disposition =? DISPOSITION_DENY then mret (UACPI_STATUS_DENIED, None) else
    r ← handle_table_override disposition override want; mret (overridden r)
  else verify_and_install_table hdr 0 virt origin want.
End Install.

(** An installation with a stack for [depth] nested ones. *)
Fixpoint install_unlocked (depth : nat) (src : table_source) (origin : uacpi_table_origin) (want : bool) : TM result :=
  match depth with
  | O => undefined
  | S d =>
      match src with
      | Physical phys expected => table_install_physical_with_origin_unlocked (install_unlocked d) phys origin expected want
      | Virtual virt => table_install_with_origin_unlocked (install_unlocked d) virt origin want
      end
  end.

Variable depth : nat.

Definition uacpi_table_install_physical_with_origin (phys : Z) (origin : uacpi_table_origin) (want : bool) : TM result :=
  ret ← uacpi_acquire_native_mutex_may_be_null;
  if negb (is_ok ret) then mret (ret, None) else
  r ← install_unlocked depth (Physical phys None) origin want;
  uacpi_release_native_mutex_may_be_null;;
  mret r.

Definition uacpi_table_install_with_origin (virt : Z) (origin : uacpi_table_origin) (want : bool) : TM result :=
  ret ← uacpi_acquire_native_mutex_may_be_null;
  if negb (is_ok ret) then mret (ret, None) else
  r ← install_unlocked depth (Virtual virt) origin want;
  uacpi_release_native_mutex_may_be_null;;
  mret r.

Definition uacpi_table_install (virt : Z) (want : bool) : TM result :=
  ok ← level_ok;
  if negb ok then mret (UACPI_STATUS_INIT_LEVEL_MISMATCH, None)
  else uacpi_table_install_with_origin virt ORIGIN_HOST_VIRTUAL want.

Definition uacpi_table_install_physical (addr : Z) (want : bool) : TM result :=
  ok ← level_ok;
  if negb ok then mret (UACPI_STATUS_INIT_LEVEL_MISMATCH, None)
  else uacpi_table_install_physical_with_origin addr ORIGIN_HOST_PHYSICAL want.

(** *** Walks and searches *)

Section ForEach.
Context {U : Type}.
Variable cb : U -> Z -> TM (Z * U).

(** [for (idx = base_idx; idx < size; ++idx)], with [n] tables left at first. *)
Fixpoint for_each_table_loop (n : nat) (idx : Z) (user : U) : TM U :=
  a ← gets tables;
  if table_array_size a <=? idx then mret user else
  match n with
  | O => undefined
  | S n' =>
      t ← get_table idx;
      if has_flag t UACPI_TABLE_INVALID then for_each_table_loop n' (idx + 1) user else
      d ← cb user idx;
      let '(dec, user) := (d : Z * U) in
      if dec =? DECISION_BREAK then mret user else for_each_table_loop n' (idx + 1) user
  end.

Definition uacpi_for_each_table (base_idx : Z) (user : U) : TM (uacpi_status * U) :=
  ok ← level_ok;
  if negb ok then mret (UACPI_STATUS_INIT_LEVEL_MISMATCH, user) else
  ret ← uacpi_acquire_native_mutex_may_be_null;
  if negb (is_ok ret) then mret (ret, user) else
  a ← gets tables;
  user ← for_each_table_loop (Z.to_nat (table_array_size a - base_idx)) base_idx user;
  uacpi_release_native_mutex_may_be_null;;
  mret (ret, user).
End ForEach.

(** The union of struct table_search_ctx, told apart by search_type. *)
Inductive search := SEARCH_TYPE_BY_ID (id : uacpi_table_identifiers) | SEARCH_TYPE_MATCH (match_cb : uacpi_installed_table -> bool).

Definition ignored (l : list Z) : bool := match l with 0 :: _ => true | _ => false end.

Definition matches (how : search) (t : uacpi_installed_table) : bool :=
  match how with
  | SEARCH_TYPE_BY_ID id =>
      uacpi_signatures_match (id_signature id) (h_signature (t_hdr t)) &&
      (ignored (id_oemid id) || bool_decide (id_oemid id = h_oemid (t_hdr t))) &&
      (ignored (id_oem_table_id id) || bool_decide (id_oem_table_id id = h_oem_table_id (t_hdr t)))
  | SEARCH_TYPE_MATCH match_cb => match_cb t
  end.

(** The status and the table found so far. *)
Definition do_search_tables (how : search) (ctx : result) (idx : Z) : TM (Z * result) :=
  t ← get_table idx;
  if negb (matches how t) then mret (DECISION_CONTINUE, ctx) else
  ret ← table_ref_unlocked idx;
  if is_ok ret then
    t ← get_table idx;
    mret (DECISION_BREAK, (ret, Some {| ut_ptr := t_ptr t; ut_index := idx |}))
  else if bool_decide (ret = UACPI_STATUS_BAD_CHECKSUM) then mret (DECISION_CONTINUE, ctx)
  else mret (DECISION_BREAK, (ret, snd ctx)).

Definition search_tables (how : search) (base_idx : Z) : TM result :=
  r ← uacpi_for_each_table (do_search_tables how) base_idx (UACPI_STATUS_NOT_FOUND, None);
  let '(ret, ctx) := (r : uacpi_status * result) in
  if negb (is_ok ret) then mret (ret, None) else mret ctx.

Definition uacpi_table_match (base_idx : Z) (cb : uacpi_installed_table -> bool) : TM result :=
  search_tables (SEARCH_TYPE_MATCH cb) base_idx.
Definition find_table (base_idx : Z) (id : uacpi_table_identifiers) : TM result :=
  search_tables (SEARCH_TYPE_BY_ID id) base_idx.

Definition signature_only (signature : list Z) : uacpi_table_identifiers :=
  {| id_signature := signature; id_oemid := [0; 0; 0; 0; 0; 0]; id_oem_table_id := [0; 0; 0; 0; 0; 0; 0; 0] |}.

Definition uacpi_table_find_by_signature (signature : list Z) : TM result :=
  ok ← level_ok;
  if negb ok then mret (UACPI_STATUS_INIT_LEVEL_MISMATCH, None) else find_table 0 (signature_only signature).

Definition uacpi_table_find (id : uacpi_table_identifiers) : TM result :=
  ok ← level_ok;
  if negb ok then mret (UACPI_STATUS_INIT_LEVEL_MISMATCH, None) else find_table 0 id.

(** *** Control requests *)

Definition TABLE_CTL_SET_FLAGS : Z := 1.
Definition TABLE_CTL_CLEAR_FLAGS : Z := 2.
Definition TABLE_CTL_VALIDATE_SET_FLAGS : Z := 4.
Definition TABLE_CTL_VALIDATE_CLEAR_FLAGS : Z := 8.
Definition TABLE_CTL_GET : Z := 16.
Definition TABLE_CTL_PUT : Z := 32.

Record table_ctl_request := { r_type : Z; r_expect_set : Z; r_expect_clear : Z; r_set : Z; r_clear : Z }.

Definition asks (req : table_ctl_request) (what : Z) : bool := negb (Z.land (r_type req) what =? 0).

(** After the checks: the reference, the flags; the status and [out_tbl]. *)
Definition table_ctl_apply (idx : Z) (req : table_ctl_request) : TM (uacpi_status * Z) :=
  r ← (if asks req TABLE_CTL_GET then
         ret ← table_ref_unlocked idx;
         if negb (is_ok ret) then mret (ret, 0) else t ← get_table idx; mret (ret, t_ptr t)
       else mret (UACPI_STATUS_OK, 0));
  let '(ret, out_tbl) := (r : uacpi_status * Z) in
  if negb (is_ok ret) then mret (ret, out_tbl) else
  ret ← (if asks req TABLE_CTL_PUT then table_unref_unlocked idx else mret UACPI_STATUS_OK);
  if negb (is_ok ret) then mret (ret, out_tbl) else
  t ← get_table idx;
  let flags := if asks req TABLE_CTL_SET_FLAGS then Z.lor (t_flags t) (r_set req) else t_flags t in
  let flags := if asks req TABLE_CTL_CLEAR_FLAGS then Z.land flags (u8 (Z.lnot (r_clear req))) else flags in
  put_table idx (with_flags flags t);;
  mret (UACPI_STATUS_OK, out_tbl).

Definition table_ctl (idx : Z) (req : table_ctl_request) : TM (uacpi_status * Z) :=
  ok ← level_ok;
  if negb ok then mret (UACPI_STATUS_INIT_LEVEL_MISMATCH, 0) else
  ret ← uacpi_acquire_native_mutex_may_be_null;
  if negb (is_ok ret) then mret (ret, 0) else
  a ← gets tables;
  if table_array_size a <=? idx then uacpi_release_native_mutex_may_be_null;; mret (UACPI_STATUS_INVALID_ARGUMENT, 0) else
  t ← get_table idx;
  if has_flag t UACPI_TABLE_INVALID then mret (UACPI_STATUS_INVALID_ARGUMENT, 0) else
  r ← (if asks req TABLE_CTL_VALIDATE_SET_FLAGS && negb (Z.land (t_flags t) (r_expect_set req) =? r_expect_set req)
       then mret (UACPI_STATUS_INVALID_ARGUMENT, 0)
       else if asks req TABLE_CTL_VALIDATE_CLEAR_FLAGS && negb (Z.land (t_flags t) (r_expect_clear req) =? 0)
       then mret (UACPI_STATUS_ALREADY_EXISTS, 0)
       else table_ctl_apply idx req);
  uacpi_release_native_mutex_may_be_null;;
  mret r.

Definition request (what : Z) : table_ctl_request :=
  {| r_type := what; r_expect_set := 0; r_expect_clear := 0; r_set := 0; r_clear := 0 |}.

Definition uacpi_table_load_with_cause (idx cause : Z) : TM uacpi_status :=
  r ← table_ctl idx {| r_type := Z.lor (Z.lor TABLE_CTL_SET_FLAGS TABLE_CTL_VALIDATE_CLEAR_FLAGS) TABLE_CTL_GET;
    r_expect_set := 0; r_expect_clear := UACPI_TABLE_LOADED; r_set := UACPI_TABLE_LOADED; r_clear := 0 |};
  if negb (is_ok (fst r)) then mret (fst r) else
  ret ← host (uacpi_execute_table (snd r) cause);
  table_ctl idx {| r_type := TABLE_CTL_PUT; r_expect_set := 0; r_expect_clear := UACPI_TABLE_LOADED;
                   r_set := UACPI_TABLE_LOADED; r_clear := 0 |};;
  mret ret.

Definition UACPI_TABLE_LOAD_CAUSE_HOST : Z := 3.
Definition uacpi_table_load (idx : Z) : TM uacpi_status := uacpi_table_load_with_cause idx UACPI_TABLE_LOAD_CAUSE_HOST.

Definition uacpi_table_mark_as_loaded (idx : Z) : TM unit :=
  table_ctl idx {| r_type := TABLE_CTL_SET_FLAGS; r_expect_set := 0; r_expect_clear := 0; r_set := UACPI_TABLE_LOADED;
                   r_clear := 0 |};; mret tt.

Definition uacpi_table_ref (tbl : uacpi_table) : TM uacpi_status :=
  r ← table_ctl (ut_index tbl) (request TABLE_CTL_GET); mret (fst r).
Definition uacpi_table_unref (tbl : uacpi_table) : TM uacpi_status :=
  r ← table_ctl (ut_index tbl) (request TABLE_CTL_PUT); mret (fst r).

Definition uacpi_table_find_next_with_same_signature (tbl : uacpi_table) : TM result :=
  ok ← level_ok;
  if negb ok then mret (UACPI_STATUS_INIT_LEVEL_MISMATCH, Some tbl) else
  if ut_ptr tbl =? 0 then mret (UACPI_STATUS_INVALID_ARGUMENT, Some tbl) else
  signature ← rd_list 4 (ut_ptr tbl);
  uacpi_table_unref tbl;;
  r ← find_table (ut_index tbl +64 1) (signature_only signature);
  mret (fst r, match snd r with Some t => Some t | None => Some tbl end).

(** *** Initialisation *)

(** [for (i = 0; i < entry_bytes; i += entry_size)], with [n] entries left. *)
Fixpoint install_entries (n : nat) (p : Z) (entry_size : nat) : TM uacpi_status :=
  match n with
  | O => mret UACPI_STATUS_OK
  | S n' =>
      entry ← rd entry_size p;
      if entry =? 0 then install_entries n' (p + Z.of_nat entry_size) entry_size else
      r ← uacpi_table_install_physical_with_origin entry ORIGIN_FIRMWARE_PHYSICAL false;
      if negb (accepted (fst r)) then mret (fst r) else install_entries n' (p + Z.of_nat entry_size) entry_size
  end.

Definition initialize_from_rxsdt (rxsdt_addr : Z) (entry_size : nat) : TM uacpi_status :=
  rxsdt ← host (uacpi_kernel_map rxsdt_addr SDT_HDR_SIZE);
  if rxsdt =? 0 then mret UACPI_STATUS_MAPPING_FAILED else
  hdr ← read_hdr rxsdt;
  ret ← uacpi_check_table_signature (h_signature hdr)
          (if Nat.eqb entry_size 8 then ACPI_XSDT_SIGNATURE else ACPI_RSDT_SIGNATURE);
  host (uacpi_kernel_unmap rxsdt SDT_HDR_SIZE);;
  if negb (is_ok ret) then mret ret else
  let map_len := h_length hdr in
  if map_len <? SDT_HDR_SIZE + Z.of_nat entry_size then mret UACPI_STATUS_INVALID_TABLE_LENGTH else
  let entry_bytes := Z.land (map_len - SDT_HDR_SIZE) (u64 (Z.lnot (Z.of_nat entry_size - 1))) in
  rxsdt ← host (uacpi_kernel_map rxsdt_addr map_len);
  if rxsdt =? 0 then mret UACPI_STATUS_MAPPING_FAILED else
  ret ← uacpi_verify_table_checksum rxsdt map_len;
  ret ← (if is_ok ret then install_entries (Z.to_nat (entry_bytes / Z.of_nat entry_size)) (rxsdt + SDT_HDR_SIZE) entry_size
         else mret ret);
  host (uacpi_kernel_unmap rxsdt map_len);;
  mret ret.

Definition RSDP_SIZE : Z := 36.

Definition initialize_from_rsdp : TM uacpi_status :=
  modify_rt (set_rev1 true);;
  r ← host uacpi_kernel_get_rsdp;
  let '(ret, rsdp_phys) := (r : uacpi_status * Z) in
  if negb (is_ok ret) then mret ret else
  rsdp ← host (uacpi_kernel_map rsdp_phys RSDP_SIZE);
  if rsdp =? 0 then mret UACPI_STATUS_MAPPING_FAILED else
  revision ← rd 1 (rsdp + 15);
  rsdt_addr ← rd 4 (rsdp + 16);
  xsdt_addr ← (if 1 <? revision then rd 8 (rsdp + 24) else mret 0);
  bad_xsdt ← uacpi_check_flag UACPI_FLAG_BAD_XSDT;
  let use_xsdt := (1 <? revision) && negb (xsdt_addr =? 0) && negb bad_xsdt in
  let rxsdt := if use_xsdt then xsdt_addr else rsdt_addr in
  host (uacpi_kernel_unmap rsdp RSDP_SIZE);;
  if rxsdt =? 0 then mret UACPI_STATUS_INVALID_ARGUMENT
  else initialize_from_rxsdt rxsdt (if use_xsdt then 8 else 4)%nat.

(** What the shutdown does for one entry. *)
Definition release_entry (t : uacpi_installed_table) : TM unit :=
  match t_origin t with
  | ORIGIN_FIRMWARE_VIRTUAL => host (table_free (t_ptr t) (h_length (t_hdr t)))
  | ORIGIN_FIRMWARE_PHYSICAL | ORIGIN_HOST_PHYSICAL =>
      if negb (t_reference_count t =? 0) then host (uacpi_kernel_unmap (t_ptr t) (h_length (t_hdr t))) else mret tt
  | ORIGIN_HOST_VIRTUAL => mret tt
  end.

Fixpoint release_entries (l : list uacpi_installed_table) : TM unit :=
  match l with [] => mret tt | t :: l' => release_entry t;; release_entries l' end.

Definition uacpi_deinitialize_tables : TM unit :=
  a ← gets tables;
  release_entries (elements a);;
  early ← gets early_table_access;
  (if (early : bool) then
     modify (set_tables {| elements := []; dynamic_storage := 0; dynamic_capacity := 0 |});; modify (set_early false)
   else table_array_clear);;
  mtx ← gets table_mutex;
  (if negb (mtx =? 0) then host (uacpi_kernel_free_mutex mtx) else mret tt);;
  modify (set_handler 0);;
  modify (set_mutex 0).

Definition uacpi_setup_early_table_access (temporary_buffer buffer_size : Z) : TM uacpi_status :=
  level ← gets (fun s => init_level (rt s));
  if negb (level =? 0) then mret UACPI_STATUS_INIT_LEVEL_MISMATCH else
  early ← gets early_table_access;
  if (early : bool) then mret UACPI_STATUS_INIT_LEVEL_MISMATCH else
  if buffer_size <? INSTALLED_TABLE_SIZE then mret UACPI_STATUS_INVALID_ARGUMENT else
  a ← gets tables;
  modify (set_tables {| elements := elements a; dynamic_storage := temporary_buffer;
                        dynamic_capacity := buffer_size / INSTALLED_TABLE_SIZE |});;
  modify (set_early true);;
  ret ← initialize_from_rsdp;
  (if negb (is_ok ret) then uacpi_deinitialize_tables else mret tt);;
  mret ret.

(** The temporary buffer is replaced by memory of the heap: the status. *)
Definition leave_early_access : TM uacpi_status :=
  uacpi_for_each_table (fun _ _ => mret (DECISION_CONTINUE, tt)) 0 tt;;
  a ← gets tables;
  let num_tables := table_array_size a in
  ret ← (if table_array_inline_capacity a <? num_tables then
           let num_tables := num_tables - table_array_inline_capacity a in
           new_buf ← host (uacpi_kernel_alloc (u64 (INSTALLED_TABLE_SIZE * num_tables)));
           if new_buf =? 0 then mret UACPI_STATUS_OUT_OF_MEMORY else
           modify (set_tables {| elements := elements a; dynamic_storage := new_buf; dynamic_capacity := num_tables |});;
           mret UACPI_STATUS_OK
         else
           modify (set_tables {| elements := elements a; dynamic_storage := 0; dynamic_capacity := 0 |});;
           mret UACPI_STATUS_OK);
  if negb (is_ok ret) then mret ret else
  modify (set_early false);;
  mret UACPI_STATUS_OK.

(** The FACS is mapped for good; its address is the table's, even when none was
    returned ([tbl] is then not initialised). *)
Definition install_facs : TM uacpi_status :=
  reduced ← gets (fun s => is_hardware_reduced (rt s));
  if (reduced : bool) then mret UACPI_STATUS_OK else
  x_firmware_ctrl ← fadt_field "x_firmware_ctrl" 8;
  if x_firmware_ctrl =? 0 then mret UACPI_STATUS_OK else
  r ← install_unlocked depth (Physical x_firmware_ctrl (Some ACPI_FACS_SIGNATURE)) ORIGIN_FIRMWARE_PHYSICAL true;
  let '(ret, tbl) := (r : result) in
  if negb (accepted ret) then mret ret else
  match tbl with Some t => modify_rt (set_facs (ut_ptr t));; mret UACPI_STATUS_OK | None => undefined end.

Definition uacpi_initialize_tables : TM uacpi_status :=
  early ← gets early_table_access;
  ret ← (if (early : bool) then leave_early_access else initialize_from_rsdp);
  if negb (is_ok ret) then mret ret else
  ret ← install_facs;
  if negb (is_ok ret) then mret ret else
  mtx ← host uacpi_kernel_create_mutex;
  modify (set_mutex mtx);;
  if mtx =? 0 then mret UACPI_STATUS_OUT_OF_MEMORY else mret UACPI_STATUS_OK.

Definition uacpi_set_table_installation_handler (handler : Z) : TM uacpi_status :=
  ret ← uacpi_acquire_native_mutex_may_be_null;
  if negb (is_ok ret) then mret ret else
  old ← gets installation_handler;
  (if negb (old =? 0) && negb (handler =? 0) then mret tt else modify (set_handler handler));;
  uacpi_release_native_mutex_may_be_null;;
  mret ret.

(** The FADT is the one of the runtime context; the status. *)
Definition uacpi_table_fadt : TM uacpi_status :=
  ok ← level_ok; mret (if (ok : bool) then UACPI_STATUS_OK else UACPI_STATUS_INIT_LEVEL_MISMATCH).
End Tables.
