(* ===== verification/TableRefs.v ===== *)
(** * acpi/uacpi/tables.c: references and mappings

    A physical table is mapped while it is referenced.  Whatever is done with tables,
    the mappings that exist beyond those of referenced tables stay the same: nothing
    is left mapped and nothing is unmapped that is in use, on every path, errors and
    overrides included; and the shutdown releases every mapping. *)

From stdpp Require Import gmultiset.
From S2P Require Import Prelude CMem UStdlib UCore Gas ResTables Resources Tables.

Open Scope Z_scope.
Open Scope word_scope.

(** What the kernel does with mappings: [live] are the mappings with their lengths. *)
Class TableHostLaws (W : Type) {TH : TableHost W} := {
  live : W -> gmultiset (Z * Z);
  map_live p n m w v m' w' : uacpi_kernel_map p n (m, w) = Some (v, (m', w')) ->
    live w' = if v =? 0 then live w else live w ⊎ {[+ (v, n) +]};
  unmap_live v n m w m' w' : uacpi_kernel_unmap v n (m, w) = Some (tt, (m', w')) -> live w' = live w ∖ {[+ (v, n) +]};
  rsdp_live : steps (fun s s' => live (snd s') = live (snd s)) uacpi_kernel_get_rsdp;
  alloc_live n : steps (fun s s' => live (snd s') = live (snd s)) (uacpi_kernel_alloc n);
  free_live p n : steps (fun s s' => live (snd s') = live (snd s)) (table_free p n);
  create_mutex_live : steps (fun s s' => live (snd s') = live (snd s)) uacpi_kernel_create_mutex;
  free_mutex_live h : steps (fun s s' => live (snd s') = live (snd s)) (uacpi_kernel_free_mutex h);
  acquire_live h : steps (fun s s' => live (snd s') = live (snd s)) (uacpi_kernel_acquire_mutex h);
  release_live h : steps (fun s s' => live (snd s') = live (snd s)) (uacpi_kernel_release_mutex h);
  handler_live h p : steps (fun s s' => live (snd s') = live (snd s)) (call_installation_handler h p);
  execute_live p c : steps (fun s s' => live (snd s') = live (snd s)) (uacpi_execute_table p c) }.

Section Refs.
Context {W : Type} {TH : TableHost W} {TL : TableHostLaws W}.
Abbreviation TM := (SM (bytes * (W * table_state))).
Abbreviation state := (bytes * (W * table_state))%type.

(** ** Triples *)

Definition triple {A} (P : state -> Prop) (c : TM A) (Q : A -> state -> Prop) : Prop :=
  forall s a s', P s -> c s = Some (a, s') -> Q a s'.

Lemma triple_bind {A B} P (c : TM A) (k : A -> TM B) Q R :
  triple P c Q -> (forall a, triple (Q a) (k a) R) -> triple P (mbind k c) R.
Proof. intros Hc Hk s b s' HP E; apply SM_bind_inv in E as (a & s1 & E1 & E2); exact (Hk a _ _ _ (Hc _ _ _ HP E1) E2). Qed.

Lemma triple_ret {A} (P : state -> Prop) (a : A) Q : (forall s, P s -> Q a s) -> triple P (mret a) Q.
Proof. intros H s b s' HP [= <- <-]; auto. Qed.

Lemma triple_conseq {A} (P P' : state -> Prop) (c : TM A) (Q Q' : A -> state -> Prop) :
  triple P' c Q' -> (forall s, P s -> P' s) -> (forall a s, Q' a s -> Q a s) -> triple P c Q.
Proof. intros H HP HQ s a s' Hs E; eauto. Qed.

Lemma keeps_bind {A B} P (c : TM A) (k : A -> TM B) : keeps P c -> (forall a, keeps P (k a)) -> keeps P (mbind k c).
Proof. intros Hc Hk; exact (triple_bind P c k (fun _ => P) (fun _ => P) Hc Hk). Qed.

Lemma keeps_ret {A} (P : state -> Prop) (a : A) : keeps P (mret a : TM A).
Proof. intros s b s' H [= <- <-]; exact H. Qed.

Lemma keeps_undefined {A} (P : state -> Prop) : keeps P (undefined : TM A).
Proof. intros s b s' H E; discriminate. Qed.

Lemma keeps_if {A} P (b : bool) (c d : TM A) : keeps P c -> keeps P d -> keeps P (if b then c else d).
Proof. destruct b; auto. Qed.

(** ** The invariant *)

(** The mapping that an entry stands for. *)
Definition holds (t : uacpi_installed_table) : gmultiset (Z * Z) :=
  if is_physical (t_origin t) && negb (t_reference_count t =? 0) then {[+ (t_ptr t, h_length (t_hdr t)) +]} else ∅.

Fixpoint held (l : list uacpi_installed_table) : gmultiset (Z * Z) :=
  match l with [] => ∅ | t :: l' => holds t ⊎ held l' end.

Definition entries (s : state) : list uacpi_installed_table := elements (tables (snd (snd s))).
Definition mappings (s : state) : gmultiset (Z * Z) := live (fst (snd s)).

(** The mappings are those of the referenced tables and [base]. *)
Definition balanced (base : gmultiset (Z * Z)) (s : state) : Prop :=
  mappings s = base ⊎ held (entries s) /\ Forall (fun t => in_w 16 (t_reference_count t)) (entries s).

Lemma held_app l l' : held (l ++ l') = held l ⊎ held l'.
Proof. induction l as [|t l IH]; simpl; [multiset_solver|rewrite IH; multiset_solver]. Qed.

Lemma held_insert l i t t' : l !! i = Some t -> held (<[i := t']> l) ⊎ holds t = held l ⊎ holds t'.
Proof.
  revert i; induction l as [|x l IH]; intros [|i] E; try discriminate; simpl in *.
  - injection E as <-; multiset_solver.
  - specialize (IH i E); multiset_solver.
Qed.

(** ** Computations that leave the tables and the mappings alone *)

Definition same (s s' : state) : Prop := mappings s' = mappings s /\ entries s' = entries s.

#[local] Instance same_refl : Reflexive same.
Proof. intros s; split; reflexivity. Qed.
#[local] Instance same_trans : Transitive same.
Proof. intros s1 s2 s3 [H1 H2] [H3 H4]; split; congruence. Qed.

Lemma same_balanced base s s' : same s s' -> balanced base s -> balanced base s'.
Proof. intros [H1 H2] [H3 H4]; split; [rewrite H1, H2; exact H3|rewrite H2; exact H4]. Qed.

Lemma steps_keeps {A} base (c : TM A) : steps same c -> keeps (balanced base) c.
Proof. intros H s a s' Hs E; exact (same_balanced _ _ _ (H _ _ _ E) Hs). Qed.

Lemma host_same {A} (c : SM (bytes * W) A) : steps (fun s s' => live (snd s') = live (snd s)) c -> steps same (host c).
Proof.
  intros H [m [w t]] a s'; unfold host; cbn [fst snd]; destruct (c (m, w)) as [[a' [m' w']]|] eqn:E; [|discriminate].
  intros [= <- <-]; split; [exact (H _ _ _ E)|reflexivity].
Qed.

Lemma gets_same {A} (f : table_state -> A) : steps same (gets f : TM A).
Proof. intros s a s' [= <- <-]; reflexivity. Qed.

Lemma gets_state_same {A} (f : state -> A) : steps same (gets_state f).
Proof. intros s a s' [= <- <-]; reflexivity. Qed.

Lemma rd_same n p : steps same (rd n p : TM Z).
Proof. intros s a s'; unfold rd; destruct (load_le _ _ _); [|discriminate]; intros [= <- <-]; reflexivity. Qed.

Lemma of_option_same {A} (o : option A) : steps same (of_option o : TM A).
Proof. intros s a s'; unfold of_option; destruct o; [|discriminate]; intros [= <- <-]; reflexivity. Qed.

Lemma modify_same (f : table_state -> table_state) : (forall s, elements (tables (f s)) = elements (tables s)) ->
  steps same (modify f : TM unit).
Proof. intros H s a s' [= <- <-]; split; [reflexivity|apply H]. Qed.

Create HintDb same discriminated.
Create HintDb keeps discriminated.
#[local] Hint Resolve steps_ret steps_undefined steps_if gets_same gets_state_same rd_same of_option_same host_same modify_same
  rsdp_live alloc_live free_live create_mutex_live free_mutex_live acquire_live release_live handler_live execute_live : same.
#[local] Hint Extern 1 (Reflexive _) => apply _ : same.

(** Prove that a computation leaves tables and mappings alone. *)
Ltac same_tac := repeat first
  [ progress intros
  | apply steps_bind; [apply _| | ]
  | match goal with
    | |- steps _ (if _ then _ else _) => apply steps_if
    | |- steps _ (match ?x with _ => _ end) => destruct x
    end
  | solve [auto with same] ].

Lemma rd_list_same n p : steps same (rd_list n p : TM (list Z)).
Proof. revert p; induction n as [|n IH]; intros p; cbn [rd_list]; same_tac; apply IH. Qed.
#[local] Hint Resolve rd_list_same : same.

Lemma read_hdr_same p : steps same (read_hdr p : TM acpi_sdt_hdr).
Proof. unfold read_hdr; same_tac. Qed.

Lemma check_flag_same f : steps same (uacpi_check_flag f : TM bool).
Proof. unfold uacpi_check_flag; same_tac. Qed.
#[local] Hint Resolve read_hdr_same check_flag_same : same.

Lemma checksum_loop_same n p c : steps same (checksum_loop n p c : TM Z).
Proof. revert p c; induction n as [|n IH]; intros p c; cbn [checksum_loop]; same_tac; apply IH. Qed.
#[local] Hint Resolve checksum_loop_same : same.

Lemma verify_checksum_same p n : steps same (uacpi_verify_table_checksum p n : TM uacpi_status).
Proof. unfold uacpi_verify_table_checksum, table_checksum; same_tac. Qed.

Lemma check_signature_same a b : steps same (uacpi_check_table_signature a b : TM uacpi_status).
Proof. unfold uacpi_check_table_signature; same_tac. Qed.

Lemma modify_rt_same f : steps same (modify_rt f : TM unit).
Proof. apply modify_same; reflexivity. Qed.
#[local] Hint Resolve verify_checksum_same check_signature_same modify_rt_same : same.

Lemma on_fadt_same f : steps same (on_fadt f : TM unit).
Proof. unfold on_fadt; same_tac. Qed.

Lemma fadt_field_same f n : steps same (fadt_field f n : TM Z).
Proof. unfold fadt_field; same_tac. Qed.

Lemma acquire_same : steps same (uacpi_acquire_native_mutex_may_be_null : TM uacpi_status).
Proof. unfold uacpi_acquire_native_mutex_may_be_null; same_tac. Qed.

Lemma release_same : steps same (uacpi_release_native_mutex_may_be_null : TM unit).
Proof. unfold uacpi_release_native_mutex_may_be_null; same_tac. Qed.

Lemma level_ok_same : steps same (level_ok : TM bool).
Proof. unfold level_ok; same_tac. Qed.

Lemma get_table_same idx : steps same (get_table idx : TM uacpi_installed_table).
Proof. unfold get_table; same_tac. Qed.
#[local] Hint Resolve on_fadt_same fadt_field_same acquire_same release_same level_ok_same get_table_same : same.

(** ** Mapping and unmapping *)

Lemma map_triple base p n : triple (balanced base) (host (uacpi_kernel_map p n))
  (fun v => balanced (if v =? 0 then base else base ⊎ {[+ (v, n) +]})).
Proof.
  intros [m [w t]] v s' [H1 H2] E; unfold host in E; cbn [fst snd] in E.
  destruct (uacpi_kernel_map p n (m, w)) as [[v' [m' w']]|] eqn:Em; [|discriminate]; injection E as <- <-.
  apply map_live in Em; split; [|exact H2]; unfold mappings, entries in *; cbn [fst snd] in *; rewrite Em.
  destruct (v' =? 0); [exact H1|rewrite H1; multiset_solver].
Qed.

Lemma unmap_triple base v n : triple (balanced (base ⊎ {[+ (v, n) +]})) (host (uacpi_kernel_unmap v n)) (fun _ => balanced base).
Proof.
  intros [m [w t]] x s' [H1 H2] E; unfold host in E; cbn [fst snd] in E.
  destruct (uacpi_kernel_unmap v n (m, w)) as [[[] [m' w']]|] eqn:Em; [|discriminate]; injection E as <- <-.
  apply unmap_live in Em; split; [|exact H2]; unfold mappings, entries in *; cbn [fst snd] in *; rewrite Em, H1; multiset_solver.
Qed.

(** ** Entries *)

Lemma get_table_inv idx s t s' : get_table idx s = Some (t, s') -> s' = s /\ entries s !! Z.to_nat idx = Some t.
Proof.
  unfold get_table, gets, gets_state, of_option, table_array_at, mbind, SM_bind; cbv beta iota.
  destruct (_ <=? _); [discriminate|]; unfold entries; destruct (elements _ !! _) eqn:E; [|discriminate].
  intros [= <- <-]; split; reflexivity.
Qed.

Lemma put_table_inv base idx t t0 s a s' : put_table idx t s = Some (a, s') -> entries s !! Z.to_nat idx = Some t0 ->
  in_w 16 (t_reference_count t) -> balanced (base ⊎ holds t) s ->
  balanced (base ⊎ holds t0) s' /\ entries s' !! Z.to_nat idx = Some t.
Proof.
  intros E Hi Hr [H1 H2]; unfold put_table, gets, gets_state, modify, update_state, mbind, SM_bind in E; cbv beta iota in E.
  injection E as <- <-; unfold balanced, mappings, entries in *; cbn [fst snd tables elements set_tables] in *.
  split; [|apply list_lookup_insert_eq; eapply lookup_lt_Some, Hi].
  split; [rewrite H1; pose proof (held_insert _ _ _ t Hi); multiset_solver|apply Forall_insert; assumption].
Qed.

(** A change that keeps the mapping of the entry. *)
Lemma put_table_same base idx t t0 s a s' : put_table idx t s = Some (a, s') -> entries s !! Z.to_nat idx = Some t0 ->
  in_w 16 (t_reference_count t) -> holds t = holds t0 -> balanced base s ->
  balanced base s' /\ entries s' !! Z.to_nat idx = Some t.
Proof.
  intros E Hi Hr Hh [H1 H2]; unfold put_table, gets, gets_state, modify, update_state, mbind, SM_bind in E; cbv beta iota in E.
  injection E as <- <-; unfold balanced, mappings, entries in *; cbn [fst snd tables elements set_tables] in *.
  split; [|apply list_lookup_insert_eq; eapply lookup_lt_Some, Hi].
  split; [rewrite H1; pose proof (held_insert _ _ _ t Hi) as H; rewrite Hh in H; multiset_solver|apply Forall_insert; assumption].
Qed.

Lemma balanced_refs base s idx t : balanced base s -> entries s !! idx = Some t -> in_w 16 (t_reference_count t).
Proof. intros [_ H] E; rewrite Forall_lookup in H; exact (H _ _ E). Qed.

Lemma holds_referenced t : t_reference_count t <> 0 -> holds t = if is_physical (t_origin t) then {[+ (t_ptr t, h_length (t_hdr t)) +]} else ∅.
Proof. intros H; unfold holds; destruct (Z.eqb_spec (t_reference_count t) 0); [congruence|]; rewrite andb_true_r; reflexivity. Qed.

Lemma holds_unreferenced t : t_reference_count t = 0 -> holds t = ∅.
Proof. intros H; unfold holds; rewrite H, andb_false_r; reflexivity. Qed.

(** One more reference. *)
Lemma count_reference_balanced base idx t s a s' : entries s !! Z.to_nat idx = Some t ->
  balanced (if t_reference_count t =? 0 then base ⊎ holds (with_refs 1 t) else base) s ->
  count_reference idx s = Some (a, s') -> balanced base s'.
Proof.
  intros Hi Hb E; unfold count_reference in E; apply SM_bind_inv in E as (t1 & s1 & E1 & E).
  apply get_table_inv in E1 as [-> Hi1]; rewrite Hi in Hi1; injection Hi1 as <-.
  pose proof (balanced_refs _ _ _ _ Hb Hi) as Hr; apply SM_bind_inv in E as ([] & s1 & E1 & E); injection E as <- <-.
  destruct (Z.eqb_spec (t_reference_count t) 0xffff) as [Hx|Hx]; cbn [negb] in E1.
  - injection E1 as <-; destruct (Z.eqb_spec (t_reference_count t) 0); [lia|exact Hb].
  - assert (Hr1 : in_w 16 (t_reference_count t + 1)) by (unfold in_w in *; lia).
    destruct (Z.eqb_spec (t_reference_count t) 0) as [H0|H0].
    + destruct (put_table_inv base _ _ _ _ _ _ E1 Hi Hr1) as [H _]; [rewrite H0; exact Hb|].
      rewrite (holds_unreferenced t H0) in H; replace base with (base ⊎ ∅) by multiset_solver; exact H.
    + assert (Eh : holds (with_refs (t_reference_count t + 1) t) = holds t).
      { rewrite !holds_referenced; [reflexivity|exact H0|cbn; unfold in_w in Hr; lia]. }
      eapply put_table_same; eassumption.
Qed.

(** ** References *)

Lemma put_table_eff idx t s a s' : put_table idx t s = Some (a, s') ->
  mappings s' = mappings s /\ entries s' = <[Z.to_nat idx := t]> (entries s).
Proof. intros E; unfold put_table, gets, gets_state, modify, update_state, mbind, SM_bind in E; injection E as <- <-; split; reflexivity. Qed.

Lemma host_entries {A} (c : SM (bytes * W) A) s a s' : host c s = Some (a, s') -> entries s' = entries s.
Proof. unfold host; destruct (c _) as [[? [? ?]]|]; [|discriminate]; intros [= _ <-]; reflexivity. Qed.

Lemma unmap_eff v n s a s' : host (uacpi_kernel_unmap v n) s = Some (a, s') ->
  mappings s' = mappings s ∖ {[+ (v, n) +]} /\ entries s' = entries s.
Proof.
  destruct s as [m [w t]]; unfold host; cbn [fst snd]; destruct (uacpi_kernel_unmap v n (m, w)) as [[[] [m' w']]|] eqn:Em; [|discriminate].
  intros [= <- <-]; split; [exact (unmap_live _ _ _ _ _ _ Em)|reflexivity].
Qed.

Lemma put_unreferenced base idx t t0 s a s' : put_table idx t s = Some (a, s') -> entries s !! Z.to_nat idx = Some t0 ->
  t_reference_count t0 = 0 -> t_reference_count t = 0 -> balanced base s ->
  balanced base s' /\ entries s' !! Z.to_nat idx = Some t.
Proof.
  intros E Hi H0 H1 Hb; eapply put_table_same; [exact E|exact Hi|rewrite H1; unfold in_w; lia| |exact Hb].
  rewrite !holds_unreferenced by assumption; reflexivity.
Qed.

Lemma table_ref_balanced base idx : keeps (balanced base) (table_ref_unlocked idx).
Proof.
  intros s a s' Hb E; unfold table_ref_unlocked in E; apply SM_bind_inv in E as (t & s1 & E1 & E).
  apply get_table_inv in E1 as [-> Hi]; pose proof (balanced_refs _ _ _ _ Hb Hi) as Hr.
  destruct (Z.eqb_spec (t_reference_count t) 0) as [H0|H0].
  2:{ eapply count_reference_balanced; [exact Hi| |exact E]; destruct (Z.eqb_spec (t_reference_count t) 0); [congruence|exact Hb]. }
  destruct (has_flag t UACPI_TABLE_INVALID); [injection E as <- <-; exact Hb|].
  destruct (is_physical (t_origin t)) eqn:Hp; cbn [negb] in E.
  2:{ eapply count_reference_balanced; [exact Hi| |exact E]; rewrite H0; cbn [Z.eqb].
      unfold holds; cbn [with_refs t_origin]; rewrite Hp; cbn [andb]; replace (base ⊎ ∅) with base by multiset_solver; exact Hb. }
  apply SM_bind_inv in E as (p & s1 & E1 & E); pose proof (map_triple base _ _ _ _ _ Hb E1) as Hb1.
  assert (Hi1 : entries s1 !! Z.to_nat idx = Some t).
  { rewrite (host_entries _ _ _ _ E1); exact Hi. }
  apply SM_bind_inv in E as ([] & s2 & E2 & E).
  destruct (put_unreferenced _ _ _ _ _ _ _ E2 Hi1 H0 H0 Hb1) as [Hb2 Hi2].
  destruct (p =? 0) eqn:Ep; [injection E as <- <-; exact Hb2|].
  assert (Hcount : forall t1 s3, t_reference_count t1 = 0 -> t_origin t1 = t_origin t -> t_hdr t1 = t_hdr t -> t_ptr t1 = p ->
    entries s3 !! Z.to_nat idx = Some t1 -> balanced (base ⊎ {[+ (p, h_length (t_hdr t)) +]}) s3 ->
    count_reference idx s3 = Some (a, s') -> balanced base s').
  { intros t1 s3 R1 O1 L1 P1 Hi3 Hb3 E3; eapply count_reference_balanced; [exact Hi3| |exact E3].
    rewrite R1; cbn [Z.eqb]; unfold holds; cbn [with_refs t_origin t_ptr t_hdr t_reference_count]; rewrite O1, Hp, L1, P1; exact Hb3. }
  destruct (has_flag t UACPI_TABLE_CSUM_VERIFIED); cbn [negb] in E.
  { apply (Hcount (with_ptr p t) s2); try reflexivity; assumption. }
  apply SM_bind_inv in E as (ret & s3 & E3 & E); pose proof (verify_checksum_same _ _ _ _ _ E3) as Hs3.
  pose proof (same_balanced _ _ _ Hs3 Hb2) as Hb3; destruct Hs3 as [_ Hs3]; rewrite <- Hs3 in Hi2.
  destruct (is_ok ret); cbn [negb] in E.
  - apply SM_bind_inv in E as ([] & s4 & E4 & E).
    destruct (put_unreferenced _ _ _ _ _ _ _ E4 Hi2 H0 H0 Hb3) as [Hb4 Hi4].
    eapply Hcount; [| | | |exact Hi4|exact Hb4|exact E]; reflexivity || exact H0.
  - apply SM_bind_inv in E as ([] & s4 & E4 & E); pose proof (unmap_triple _ _ _ _ _ _ Hb3 E4) as Hb4.
    assert (Hi4 : entries s4 !! Z.to_nat idx = Some (with_ptr p t)).
    { rewrite (host_entries _ _ _ _ E4); exact Hi2. }
    apply SM_bind_inv in E as ([] & s5 & E5 & E); injection E as <- <-.
    exact (proj1 (put_unreferenced _ _ _ _ _ _ _ E5 Hi4 H0 H0 Hb4)).
Qed.

Lemma table_unref_balanced base idx : keeps (balanced base) (table_unref_unlocked idx).
Proof.
  intros s a s' Hb E; unfold table_unref_unlocked in E; apply SM_bind_inv in E as (t & s1 & E1 & E).
  apply get_table_inv in E1 as [-> Hi]; pose proof (balanced_refs _ _ _ _ Hb Hi) as Hr.
  destruct (Z.eqb_spec (t_reference_count t) 0) as [H0|H0]; [injection E as <- <-; exact Hb|].
  destruct (Z.eqb_spec (t_reference_count t) 0xffff) as [Hx|Hx]; [injection E as <- <-; exact Hb|].
  apply SM_bind_inv in E as ([] & s1 & E1 & E); apply SM_bind_inv in E as (t2 & s2 & E2 & E).
  apply get_table_inv in E2 as [-> Hi2]; apply SM_bind_inv in E as ([] & s3 & E3 & E); injection E as <- <-.
  pose proof (put_table_eff _ _ _ _ _ E3) as [M3 N3]; destruct Hb as [Hm Hf]; pose proof (lookup_lt_Some _ _ _ Hi) as Hlt.
  destruct ((t_reference_count t =? 1) && is_physical (t_origin t)) eqn:Hc.
  - apply andb_true_iff in Hc as [H1 Hp]; apply Z.eqb_eq in H1; apply SM_bind_inv in E1 as ([] & s4 & E4 & E1).
    apply unmap_eff in E4 as [M4 N4]; apply put_table_eff in E1 as [M1 N1].
    rewrite N1, N4, list_lookup_insert_eq in Hi2 by exact Hlt; injection Hi2 as <-.
    rewrite N1, N4, list_insert_insert_eq in N3; cbn [with_ptr t_reference_count] in N3; rewrite H1 in N3.
    pose proof (held_insert _ _ _ (with_refs (1 - 1) (with_ptr 0 t)) Hi) as Hh; rewrite <- N3 in Hh.
    rewrite (holds_referenced t H0), Hp, (holds_unreferenced (with_refs (1 - 1) (with_ptr 0 t))) in Hh by reflexivity.
    split; [rewrite M3, M1, M4, Hm; multiset_solver|rewrite N3; apply Forall_insert; [exact Hf|cbn; unfold in_w; lia]].
  - injection E1 as <-; rewrite Hi in Hi2; injection Hi2 as <-.
    assert (Hr1 : in_w 16 (t_reference_count t - 1)) by (unfold in_w in *; lia).
    refine (proj1 (put_table_same _ _ _ _ _ _ _ E3 Hi Hr1 _ (conj Hm Hf))).
    unfold holds; cbn [with_refs t_origin t_ptr t_hdr t_reference_count].
    destruct (is_physical (t_origin t)); [|reflexivity]; rewrite andb_true_r in Hc.
    destruct (Z.eqb_spec (t_reference_count t - 1) 0), (Z.eqb_spec (t_reference_count t) 0); try lia; reflexivity.
Qed.

(** ** Installation *)

Lemma keeps_triple {A} P (c : TM A) : keeps P c -> triple P c (fun _ => P).
Proof. intros H; exact H. Qed.

(** Prove that a computation keeps the balance, from what is known of its parts. *)
Ltac keeps_tac := repeat (cbv beta zeta;
  lazymatch goal with
  | |- forall _, _ => intros ?
  | |- keeps _ (mret _) => apply keeps_ret
  | |- keeps _ undefined => apply keeps_undefined
  | |- keeps _ (mbind _ _) => apply keeps_bind
  | |- keeps _ (if _ then _ else _) => apply keeps_if
  | |- keeps _ (match ?x with _ => _ end) => destruct x
  | |- keeps _ _ => first [solve [eauto 3 with keeps]|apply steps_keeps; solve [auto 3 with same]]
  end).

Lemma table_array_alloc_eff s ok s' : table_array_alloc s = Some (ok, s') ->
  mappings s' = mappings s /\ entries s' = if (ok : bool) then entries s ++ [fresh_entry] else entries s.
Proof.
  intros E; unfold table_array_alloc in E; apply SM_bind_inv in E as (a & s1 & E1 & E); injection E1 as <- <-.
  apply SM_bind_inv in E as (ok1 & s1 & E1 & E).
  assert (Hs : same s s1).
  { destruct (_ <=? _) in E1; [|injection E1 as _ <-; reflexivity].
    destruct (_ =? _) in E1; [|injection E1 as _ <-; reflexivity].
    apply SM_bind_inv in E1 as (b & s2 & E2 & E1); pose proof (host_same _ (alloc_live _) _ _ _ E2) as H2.
    destruct (b =? 0); [injection E1 as _ <-; exact H2|].
    apply SM_bind_inv in E1 as ([] & s3 & E3 & E1).
    assert (H3 : same s2 s3) by (destruct (_ =? 0) in E3; [injection E3 as <-; reflexivity|exact (host_same _ (free_live _ _) _ _ _ E3)]).
    apply SM_bind_inv in E1 as ([] & s4 & E4 & E1); injection E1 as _ <-; injection E4 as <-.
    assert (H : same s s3) by (etransitivity; eassumption).
    destruct H as [HA HB]; split; [exact HA|reflexivity]. }
  destruct Hs as [Hm He]; destruct ok1; [|injection E as <- <-; split; assumption].
  apply SM_bind_inv in E as (a & s2 & E2 & E); injection E2 as <- <-.
  apply SM_bind_inv in E as ([] & s2 & E2 & E); injection E as <- <-; injection E2 as <-.
  split; [exact Hm|unfold entries in *; cbn; rewrite He; reflexivity].
Qed.

Lemma table_alloc_triple base : triple (balanced base) table_alloc (fun r s => balanced base s /\
  (is_ok (fst r) = true -> entries s !! Z.to_nat (snd r) = Some fresh_entry)).
Proof.
  intros s r s' Hb E; unfold table_alloc in E; apply SM_bind_inv in E as (early & s1 & E1 & E); injection E1 as <- <-.
  apply SM_bind_inv in E as (a & s1 & E1 & E); injection E1 as <- <-.
  destruct (_ && _) in E; [injection E as <- <-; split; [exact Hb|discriminate]|].
  apply SM_bind_inv in E as (ok & s1 & E1 & E); apply table_array_alloc_eff in E1 as [Hm He].
  destruct ok; cbn [negb] in E.
  - apply SM_bind_inv in E as (a & s2 & E2 & E); injection E2 as <- <-; injection E as <- <-; cbn [fst snd].
    destruct Hb as [H1 H2]; split; [split|].
    + rewrite Hm, He, held_app, H1; cbn [held]; rewrite holds_unreferenced by reflexivity; multiset_solver.
    + rewrite He; apply Forall_app; split; [exact H2|constructor; [unfold in_w; cbn; lia|constructor]].
    + intros _; unfold entries, table_array_size in *; rewrite He, length_app; cbn [List.length].
      replace (Z.to_nat (Z.of_nat (List.length (elements (tables s.2.2)) + 1) - 1)) with (List.length (elements (tables s.2.2))) by lia.
      apply list_lookup_middle; reflexivity.
  - injection E as <- <-; split; [|discriminate]; eapply same_balanced; [|exact Hb]; split; assumption.
Qed.

Lemma external_header_balanced base p : keeps (balanced base) (get_external_table_header p).
Proof.
  unfold get_external_table_header; apply (triple_bind _ _ _ _ (fun _ => balanced base) (map_triple base _ _)); intros v; cbv beta.
  destruct (v =? 0); [apply triple_ret; auto|].
  eapply triple_bind; [apply steps_keeps, read_hdr_same|]; intros h; cbv beta.
  eapply triple_bind; [apply unmap_triple|]; intros []; apply triple_ret; auto.
Qed.

Definition origin_fits (src : table_source) (origin : uacpi_table_origin) : Prop :=
  is_physical origin = match src with Physical _ _ => true | Virtual _ => false end.

Section Install.
Variable rec : table_source -> uacpi_table_origin -> bool -> TM (uacpi_status * option uacpi_table).
Hypothesis rec_balanced : forall src origin want base, origin_fits src origin -> keeps (balanced base) (rec src origin want).

Lemma dsdt_balanced base p e : keeps (balanced base) (rec (Physical p e) ORIGIN_FIRMWARE_PHYSICAL false).
Proof. apply rec_balanced; reflexivity. Qed.
#[local] Hint Resolve dsdt_balanced : keeps.

Lemma initialize_fadt_balanced base virt : keeps (balanced base) (initialize_fadt rec virt).
Proof. unfold initialize_fadt; keeps_tac. Qed.

Lemma verify_contents_balanced base hdr phys virt f : keeps (balanced base) (verify_contents rec hdr phys virt f).
Proof.
  unfold verify_contents; set (b1 := fun v => if (virt =? 0) && negb (v =? 0) then base ⊎ {[+ (v, h_length hdr) +]} else base).
  apply triple_bind with (Q := fun v => balanced (b1 v)).
  { destruct (virt =? 0) eqn:Ev; [|apply triple_ret; intros s Hs; unfold b1; exact Hs].
    intros s v s' Hs E; pose proof (map_triple base _ _ _ _ _ Hs E) as H; cbv beta in H; unfold b1; cbn [andb].
    destruct (v =? 0); exact H. }
  intros v; destruct (v =? 0) eqn:E0.
  { apply triple_ret; intros s; unfold b1; rewrite E0, andb_false_r; auto. }
  eapply triple_bind; [apply steps_keeps, verify_checksum_same|]; intros ret; cbv beta.
  eapply triple_bind with (Q := fun _ => balanced (b1 v)).
  { apply keeps_triple, keeps_if; [|apply keeps_ret]; apply keeps_bind; [apply keeps_if; [apply initialize_fadt_balanced|apply keeps_ret]|].
    intros; apply keeps_ret. }
  intros r; cbv beta; apply triple_bind with (Q := fun _ => balanced base); [|intros; apply triple_ret; auto].
  unfold b1; destruct (virt =? 0); cbn [andb]; [rewrite E0; apply unmap_triple|apply triple_ret; auto].
Qed.

(** A table that is returned keeps the mapping that it was installed with. *)
Definition installed (base : gmultiset (Z * Z)) hdr virt origin (want : bool)
    (r : uacpi_status * option uacpi_table) (s : state) : Prop :=
  if is_ok (fst r) && want && is_physical origin
  then forall b, base = b ⊎ {[+ (virt, h_length hdr) +]} -> balanced b s else balanced base s.

Lemma verify_and_install_triple base hdr phys virt origin want :
  triple (balanced base) (verify_and_install_table rec hdr phys virt origin want) (installed base hdr virt origin want).
Proof.
  unfold verify_and_install_table; eapply triple_bind; [apply steps_keeps, check_flag_same|]; intros pro; cbv beta.
  eapply triple_bind with (Q := fun _ => balanced base).
  { apply keeps_triple, keeps_if; [apply keeps_ret|apply keeps_if; [apply verify_contents_balanced|apply keeps_ret]]. }
  assert (Hfail : forall x, is_ok x = false -> triple (balanced base) (mret (x, None)) (installed base hdr virt origin want)).
  { intros x Hx; apply triple_ret; intros s; unfold installed; cbn [fst]; rewrite Hx; auto. }
  intros [ret flags]; cbv beta iota; destruct (is_ok ret) eqn:Eok; cbn [negb]; [|apply Hfail, Eok].
  eapply triple_bind; [apply steps_keeps; same_tac|]; intros []; cbv beta.
  eapply triple_bind; [apply table_alloc_triple|]; intros [ret2 idx]; cbv beta iota; cbn [fst snd].
  destruct (is_ok ret2) eqn:Eok2; cbn [negb].
  2:{ intros s r s' [H _] E; exact (Hfail _ Eok2 _ _ _ H E). }
  intros s r s' [Hb Hi] E; specialize (Hi eq_refl); apply SM_bind_inv in E as ([] & s1 & E1 & E); injection E as <- <-.
  unfold installed; cbn [fst is_ok andb].
  set (t := {| t_phys_addr := phys |}) in E1; assert (Hr : in_w 16 (t_reference_count t)) by (destruct want; unfold in_w; cbn; lia).
  assert (He : holds fresh_entry = ∅) by reflexivity.
  destruct want; cbn [andb].
  - destruct (is_physical origin) eqn:Hp.
    + intros b ->; destruct (put_table_inv b idx t fresh_entry s tt s1 E1 Hi Hr) as [H _].
      * unfold holds; cbn; rewrite Hp; exact Hb.
      * rewrite He in H; replace b with (b ⊎ ∅) by multiset_solver; exact H.
    + refine (proj1 (put_table_same _ _ _ _ _ _ _ E1 Hi Hr _ Hb)); rewrite He; unfold holds; cbn; rewrite Hp; reflexivity.
  - exact (proj1 (put_unreferenced _ _ _ _ _ _ _ E1 Hi eq_refl eq_refl Hb)).
Qed.

Lemma override_balanced base d addr want : keeps (balanced base) (handle_table_override rec d addr want).
Proof.
  unfold handle_table_override; apply keeps_if; [apply rec_balanced; reflexivity|].
  apply keeps_if; [apply rec_balanced; reflexivity|apply keeps_ret].
Qed.

Lemma overridden_not_ok r : is_ok (fst (overridden r)) = false.
Proof. unfold overridden; cbn [fst]; destruct (is_ok (fst r)) eqn:E; [reflexivity|exact E]. Qed.

(** The installation of a mapped table, whatever the handler says. *)
Lemma install_mapped_triple base hdr phys virt origin want handler : is_physical origin = true ->
  (want = true -> (virt =? 0) = false) ->
  triple (balanced (if virt =? 0 then base else base ⊎ {[+ (virt, h_length hdr) +]}))
    (if bool_decide (origin = ORIGIN_FIRMWARE_PHYSICAL) && negb (handler =? 0) then
         d ← host (call_installation_handler handler virt);
         let '(disposition, override) := (d : Z * Z) in
         if disposition =? DISPOSITION_ALLOW then verify_and_install_table rec hdr phys virt origin want else
         if disposition =? DISPOSITION_DENY then mret (UACPI_STATUS_DENIED, None) else
         r ← handle_table_override rec disposition override want; mret (overridden r)
       else verify_and_install_table rec hdr phys virt origin want)
    (fun r => balanced (if is_ok (fst r) && want || (virt =? 0) then base else base ⊎ {[+ (virt, h_length hdr) +]})).
Proof.
  intros Hp Hw; set (b1 := if virt =? 0 then base else _).
  assert (Hv : triple (balanced b1) (verify_and_install_table rec hdr phys virt origin want)
    (fun r => balanced (if is_ok (fst r) && want || (virt =? 0) then base else base ⊎ {[+ (virt, h_length hdr) +]}))).
  { intros s r s' Hs E; pose proof (verify_and_install_triple b1 hdr phys virt origin want s r s' Hs E) as H.
    unfold installed in H; rewrite Hp, andb_true_r in H; destruct (is_ok (fst r) && want) eqn:Ew; cbn [orb].
    - apply andb_true_iff in Ew as [_ Ew]; apply H; unfold b1; rewrite (Hw Ew); reflexivity.
    - unfold b1 in H; destruct (virt =? 0); exact H. }
  destruct (_ && _); [|exact Hv].
  eapply triple_bind; [apply steps_keeps; auto with same|]; intros [disposition override]; cbv beta iota.
  destruct (disposition =? _); [exact Hv|]; destruct (disposition =? _).
  - apply triple_ret; intros s Hs; cbn [fst is_ok andb orb]; exact Hs.
  - eapply triple_bind; [apply keeps_triple, override_balanced|]; intros r; apply triple_ret; intros s Hs.
    rewrite overridden_not_ok; cbn [andb orb]; exact Hs.
Qed.

Lemma physical_balanced base phys origin expected want : is_physical origin = true ->
  keeps (balanced base) (table_install_physical_with_origin_unlocked rec phys origin expected want).
Proof.
  intros Hp; unfold table_install_physical_with_origin_unlocked.
  apply keeps_bind; [apply external_header_balanced|]; intros [ret hdr].
  apply keeps_if; [apply keeps_ret|]; apply keeps_if; [apply keeps_ret|].
  apply keeps_bind; [destruct expected; [apply steps_keeps; auto with same|apply keeps_ret]|]; intros ret2.
  apply keeps_if; [apply keeps_ret|]; apply keeps_bind; [apply steps_keeps; auto with same|]; intros handler.
  set (b1 := fun v => if v =? 0 then base else base ⊎ {[+ (v, h_length hdr) +]}).
  apply (triple_bind _ _ _ (fun v => balanced (b1 v)) (fun _ => balanced base)).
  { destruct (_ || _); [apply map_triple|apply triple_ret; intros s Hs; exact Hs]. }
  intros virt; destruct (_ && (virt =? 0)) eqn:Ec.
  { apply andb_true_iff in Ec as [_ Ec]; apply triple_ret; intros s; unfold b1; rewrite Ec; auto. }
  assert (Hw : want = true -> (virt =? 0) = false).
  { intros ->; rewrite orb_true_r in Ec; exact Ec. }
  eapply triple_bind; [apply (install_mapped_triple base hdr phys virt origin want handler Hp Hw)|]; intros r; cbv beta.
  destruct (is_ok (fst r) && want); cbn [orb]; [apply triple_ret; auto|].
  apply triple_bind with (Q := fun _ => balanced base); [|intros; apply triple_ret; auto].
  destruct (virt =? 0); cbn [negb]; [apply triple_ret; auto|apply unmap_triple].
Qed.

#[local] Hint Resolve override_balanced : keeps.

Lemma virtual_balanced base virt origin want : is_physical origin = false ->
  keeps (balanced base) (table_install_with_origin_unlocked rec virt origin want).
Proof.
  intros Hp; assert (Hv : forall hdr, keeps (balanced base) (verify_and_install_table rec hdr 0 virt origin want)).
  { intros hdr s r s' Hs E; pose proof (verify_and_install_triple base hdr 0 virt origin want s r s' Hs E) as H.
    unfold installed in H; rewrite Hp, andb_false_r in H; exact H. }
  unfold table_install_with_origin_unlocked; keeps_tac.
Qed.
End Install.

Lemma install_balanced depth src origin want base : origin_fits src origin -> keeps (balanced base) (install_unlocked depth src origin want).
Proof.
  revert src origin want base; induction depth as [|depth IH]; intros src origin want base H; cbn [install_unlocked];
    [apply keeps_undefined|]; destruct src; [apply physical_balanced|apply virtual_balanced]; auto.
Qed.

(** ** The operations *)

Variable depth : nat.

#[local] Hint Resolve table_ref_balanced table_unref_balanced : keeps.

Lemma for_each_balanced {U} (cb : U -> Z -> TM (Z * U)) base b u : (forall u i, keeps (balanced base) (cb u i)) ->
  keeps (balanced base) (uacpi_for_each_table cb b u).
Proof.
  intros Hcb; assert (Hloop : forall n b u, keeps (balanced base) (for_each_table_loop cb n b u)).
  { induction n as [|n IH]; intros b' u'; cbn [for_each_table_loop]; keeps_tac. }
  unfold uacpi_for_each_table; keeps_tac.
Qed.

Lemma search_balanced base how b : keeps (balanced base) (search_tables how b).
Proof.
  unfold search_tables; keeps_tac; apply for_each_balanced; intros u i; unfold do_search_tables; keeps_tac.
Qed.

(** Flags do not matter for mappings. *)
Lemma put_flags_balanced {A} base idx f (k : TM A) : keeps (balanced base) k ->
  keeps (balanced base) (t ← get_table idx; put_table idx (with_flags (f t) t);; k).
Proof.
  intros Hk; apply (triple_bind _ _ _ (fun t s => balanced base s /\ entries s !! Z.to_nat idx = Some t) (fun _ => balanced base)).
  - intros s t s' Hb E; apply get_table_inv in E as [-> Hi]; split; assumption.
  - intros t; apply (triple_bind _ _ _ (fun _ => balanced base) (fun _ => balanced base)); [|intros []; apply keeps_triple, Hk].
    intros s a s' [Hb Hi] E.
    refine (proj1 (put_table_same base _ _ _ _ _ _ E Hi _ _ Hb)); [exact (balanced_refs _ _ _ _ Hb Hi)|reflexivity].
Qed.

Lemma table_ctl_apply_balanced base idx req : keeps (balanced base) (table_ctl_apply idx req).
Proof.
  unfold table_ctl_apply; apply keeps_bind; [keeps_tac|]; intros [ret out]; apply keeps_if; [keeps_tac|].
  apply keeps_bind; [keeps_tac|]; intros ret2; apply keeps_if; [keeps_tac|].
  set (f := fun t => let flags := if asks req TABLE_CTL_SET_FLAGS then Z.lor (t_flags t) (r_set req) else t_flags t in
    if asks req TABLE_CTL_CLEAR_FLAGS then Z.land flags (u8 (Z.lnot (r_clear req))) else flags).
  exact (put_flags_balanced base idx f (mret (UACPI_STATUS_OK, out)) (keeps_ret _ _)).
Qed.
#[local] Hint Resolve table_ctl_apply_balanced : keeps.

Lemma table_ctl_balanced base idx req : keeps (balanced base) (table_ctl idx req).
Proof. unfold table_ctl; keeps_tac. Qed.

#[local] Hint Resolve search_balanced table_ctl_balanced : keeps.

Lemma install_physical_balanced base phys origin want : is_physical origin = true ->
  keeps (balanced base) (uacpi_table_install_physical_with_origin depth phys origin want).
Proof.
  intros H; pose proof (fun b => install_balanced depth (Physical phys None) origin want b H).
  unfold uacpi_table_install_physical_with_origin; keeps_tac.
Qed.

Lemma install_virtual_balanced base virt origin want : is_physical origin = false ->
  keeps (balanced base) (uacpi_table_install_with_origin depth virt origin want).
Proof.
  intros H; pose proof (fun b => install_balanced depth (Virtual virt) origin want b H).
  unfold uacpi_table_install_with_origin; keeps_tac.
Qed.
#[local] Hint Resolve install_physical_balanced install_virtual_balanced : keeps.

(** ** Start and shutdown *)

Lemma install_entries_balanced base n p e : keeps (balanced base) (install_entries depth n p e).
Proof. revert p; induction n as [|n IH]; intros p; cbn [install_entries]; keeps_tac. Qed.
#[local] Hint Resolve install_entries_balanced : keeps.

(** A mapping that is undone. *)
Lemma mapped_keeps {A} base p n (none : TM A) (k : Z -> TM A) : keeps (balanced base) none ->
  (forall v, triple (balanced (base ⊎ {[+ (v, n) +]})) (k v) (fun _ => balanced base)) ->
  keeps (balanced base) (v ← host (uacpi_kernel_map p n); if v =? 0 then none else k v).
Proof.
  intros Hn Hk; apply (triple_bind _ _ _ _ (fun _ => balanced base) (map_triple base p n)); intros v.
  destruct (v =? 0); [apply keeps_triple, Hn|apply Hk].
Qed.

Lemma unmap_then {A} base v n (k : TM A) : keeps (balanced base) k ->
  triple (balanced (base ⊎ {[+ (v, n) +]})) (host (uacpi_kernel_unmap v n);; k) (fun _ => balanced base).
Proof. intros Hk; eapply triple_bind; [apply unmap_triple|]; intros []; apply keeps_triple, Hk. Qed.

Lemma keep_then {A B} b (c : TM A) (k : A -> TM B) Q : keeps (balanced b) c ->
  (forall a, triple (balanced b) (k a) Q) -> triple (balanced b) (mbind k c) Q.
Proof. intros Hc Hk; eapply triple_bind; [apply keeps_triple, Hc|exact Hk]. Qed.

Lemma rxsdt_balanced base p e : keeps (balanced base) (initialize_from_rxsdt depth p e).
Proof.
  unfold initialize_from_rxsdt; apply mapped_keeps; [keeps_tac|]; intros v.
  apply keep_then; [keeps_tac|]; intros hdr; apply keep_then; [keeps_tac|]; intros ret; apply unmap_then.
  apply keeps_if; [keeps_tac|]; cbv zeta; apply keeps_if; [keeps_tac|].
  apply mapped_keeps; [keeps_tac|]; intros v2.
  apply keep_then; [keeps_tac|]; intros ret2; apply keep_then; [keeps_tac|]; intros ret3; apply unmap_then; keeps_tac.
Qed.

Lemma rsdp_balanced base : keeps (balanced base) (initialize_from_rsdp depth).
Proof.
  pose proof rxsdt_balanced; unfold initialize_from_rsdp; apply keeps_bind; [keeps_tac|]; intros [].
  apply keeps_bind; [keeps_tac|]; intros [ret p]; apply keeps_if; [keeps_tac|].
  apply mapped_keeps; [keeps_tac|]; intros v.
  do 4 (apply keep_then; [keeps_tac|]; intros ?); cbv zeta; apply unmap_then; keeps_tac.
Qed.

(** The entries' mappings are given up. *)
Lemma release_entries_eff l : forall s a s' base, release_entries l s = Some (a, s') ->
  mappings s = base ⊎ held l -> mappings s' = base /\ entries s' = entries s.
Proof.
  induction l as [|t l IH]; intros s a s' base E Hm; cbn [release_entries held] in *.
  { injection E as _ <-; split; [rewrite Hm; multiset_solver|reflexivity]. }
  apply SM_bind_inv in E as ([] & s1 & E1 & E).
  assert (H1 : mappings s1 = base ⊎ held l /\ entries s1 = entries s).
  { unfold release_entry, holds in *; destruct (t_origin t); cbn [is_physical andb] in Hm.
    - pose proof (host_same _ (free_live _ _) _ _ _ E1) as [HA HB]; rewrite HA; split; [rewrite Hm; multiset_solver|exact HB].
    - destruct (t_reference_count t =? 0); cbn [negb] in *.
      + injection E1 as <-; split; [rewrite Hm; multiset_solver|reflexivity].
      + apply unmap_eff in E1 as [HA HB]; rewrite HA; split; [rewrite Hm; multiset_solver|exact HB].
    - injection E1 as <-; split; [rewrite Hm; multiset_solver|reflexivity].
    - destruct (t_reference_count t =? 0); cbn [negb] in *.
      + injection E1 as <-; split; [rewrite Hm; multiset_solver|reflexivity].
      + apply unmap_eff in E1 as [HA HB]; rewrite HA; split; [rewrite Hm; multiset_solver|exact HB]. }
  destruct H1 as [H1 H2]; destruct (IH _ _ _ _ E H1) as [H3 H4]; split; [exact H3|congruence].
Qed.

Lemma clear_eff s a s' : table_array_clear s = Some (a, s') -> mappings s' = mappings s /\ entries s' = [].
Proof.
  intros E; unfold table_array_clear in E; apply SM_bind_inv in E as (x & s1 & E1 & E); injection E1 as <- <-.
  apply SM_bind_inv in E as ([] & s1 & E1 & E); injection E as _ <-.
  assert (H : same s s1) by (destruct (_ =? 0) in E1; [injection E1 as <-; reflexivity|exact (host_same _ (free_live _ _) _ _ _ E1)]).
  destruct H as [H _]; split; [exact H|reflexivity].
Qed.

Lemma deinitialize_eff base s a s' : balanced base s -> uacpi_deinitialize_tables s = Some (a, s') ->
  mappings s' = base /\ entries s' = [].
Proof.
  intros [Hm _] E; unfold uacpi_deinitialize_tables in E; apply SM_bind_inv in E as (x & s1 & E1 & E); injection E1 as <- <-.
  apply SM_bind_inv in E as ([] & s1 & E1 & E); destruct (release_entries_eff _ _ _ _ base E1 Hm) as [H1 _].
  apply SM_bind_inv in E as (early & s2 & E2 & E); injection E2 as <- <-.
  apply SM_bind_inv in E as ([] & s2 & E2 & E).
  assert (H2 : mappings s2 = base /\ entries s2 = []).
  { destruct (early_table_access _).
    - apply SM_bind_inv in E2 as ([] & s3 & E3 & E2); injection E3 as <-; injection E2 as <-; split; [exact H1|reflexivity].
    - destruct (clear_eff _ _ _ E2) as [HA HB]; split; [congruence|exact HB]. }
  assert (H3 : same s2 s').
  { revert E; match goal with |- ?c s2 = _ -> _ => assert (Hc : steps same c) by same_tac end; apply Hc. }
  destruct H2 as [HA HB], H3 as [HC HD]; split; congruence.
Qed.

Lemma deinitialize_balanced base : keeps (balanced base) uacpi_deinitialize_tables.
Proof.
  intros s a s' Hb E; destruct (deinitialize_eff base s a s' Hb E) as [H1 H2]; split; rewrite H2; [|constructor].
  rewrite H1; cbn [held]; multiset_solver.
Qed.
#[local] Hint Resolve deinitialize_balanced rsdp_balanced : keeps.

Lemma setup_early_balanced base p n : keeps (balanced base) (uacpi_setup_early_table_access depth p n).
Proof.
  unfold uacpi_setup_early_table_access; apply keeps_bind; [keeps_tac|]; intros level; apply keeps_if; [keeps_tac|].
  apply keeps_bind; [keeps_tac|]; intros early; apply keeps_if; [keeps_tac|]; apply keeps_if; [keeps_tac|].
  intros s r s' Hb E; apply SM_bind_inv in E as (a & s1 & E1 & E); injection E1 as <- <-.
  apply SM_bind_inv in E as ([] & s1 & E1 & E); injection E1 as <-.
  revert E; match goal with |- ?c _ = _ -> _ => assert (Hc : keeps (balanced base) c) by keeps_tac end.
  apply Hc; exact Hb.
Qed.

Lemma leave_early_balanced base : keeps (balanced base) leave_early_access.
Proof.
  unfold leave_early_access; apply keeps_bind; [apply for_each_balanced; keeps_tac|]; intros u.
  intros s r s' Hb E; apply SM_bind_inv in E as (a & s1 & E1 & E); injection E1 as <- <-; cbv zeta in E.
  apply SM_bind_inv in E as (ret & s1 & E1 & E).
  assert (H1 : same s s1).
  { destruct (_ <? _) in E1.
    - apply SM_bind_inv in E1 as (b & s2 & E2 & E1); pose proof (host_same _ (alloc_live _) _ _ _ E2) as [HA HB].
      destruct (b =? 0); [injection E1 as _ <-; split; assumption|].
      apply SM_bind_inv in E1 as ([] & s3 & E3 & E1); injection E1 as _ <-; injection E3 as <-; split; [exact HA|reflexivity].
    - apply SM_bind_inv in E1 as ([] & s3 & E3 & E1); injection E1 as _ <-; injection E3 as <-; split; reflexivity. }
  revert E; match goal with |- ?c _ = _ -> _ => assert (Hc : keeps (balanced base) c) by keeps_tac end.
  apply Hc; exact (same_balanced _ _ _ H1 Hb).
Qed.

Lemma install_facs_balanced base : keeps (balanced base) (install_facs depth).
Proof.
  pose proof (fun x b => install_balanced depth (Physical x (Some ACPI_FACS_SIGNATURE)) ORIGIN_FIRMWARE_PHYSICAL true b eq_refl).
  unfold install_facs; keeps_tac.
Qed.
#[local] Hint Resolve leave_early_balanced install_facs_balanced setup_early_balanced : keeps.

Lemma initialize_tables_balanced base : keeps (balanced base) (uacpi_initialize_tables depth).
Proof. unfold uacpi_initialize_tables; keeps_tac. Qed.
#[local] Hint Resolve initialize_tables_balanced : keeps.

(** The calls of the interface. *)
Inductive table_call :=
  | Call_setup_early (buffer size : Z) | Call_initialize | Call_set_handler (handler : Z)
  | Call_install (virt : Z) (want : bool) | Call_install_physical (addr : Z) (want : bool)
  | Call_install_firmware (addr : Z) (want : bool)
  | Call_find (id : uacpi_table_identifiers) | Call_find_by_signature (signature : list Z)
  | Call_find_next (tbl : uacpi_table) | Call_match (base_idx : Z) (cb : uacpi_installed_table -> bool)
  | Call_ref (tbl : uacpi_table) | Call_unref (tbl : uacpi_table)
  | Call_load (idx cause : Z) | Call_mark_as_loaded (idx : Z) | Call_fadt.

Definition call (c : table_call) : TM unit :=
  match c with
  | Call_setup_early p n => uacpi_setup_early_table_access depth p n;; mret tt
  | Call_initialize => uacpi_initialize_tables depth;; mret tt
  | Call_set_handler h => uacpi_set_table_installation_handler h;; mret tt
  | Call_install v w => uacpi_table_install depth v w;; mret tt
  | Call_install_physical a w => uacpi_table_install_physical depth a w;; mret tt
  | Call_install_firmware a w => uacpi_table_install_physical_with_origin depth a ORIGIN_FIRMWARE_PHYSICAL w;; mret tt
  | Call_find id => uacpi_table_find id;; mret tt
  | Call_find_by_signature sig => uacpi_table_find_by_signature sig;; mret tt
  | Call_find_next t => uacpi_table_find_next_with_same_signature t;; mret tt
  | Call_match b cb => uacpi_table_match b cb;; mret tt
  | Call_ref t => uacpi_table_ref t;; mret tt
  | Call_unref t => uacpi_table_unref t;; mret tt
  | Call_load i x => uacpi_table_load_with_cause i x;; mret tt
  | Call_mark_as_loaded i => uacpi_table_mark_as_loaded i
  | Call_fadt => uacpi_table_fadt;; mret tt
  end.

Fixpoint calls (l : list table_call) : TM unit := match l with [] => mret tt | c :: l' => call c;; calls l' end.

Lemma call_balanced base c : keeps (balanced base) (call c).
Proof.
  destruct c; cbn [call]; unfold uacpi_set_table_installation_handler, uacpi_table_install, uacpi_table_install_physical,
    uacpi_table_find, uacpi_table_find_by_signature, uacpi_table_find_next_with_same_signature, find_table, uacpi_table_match,
    uacpi_table_ref, uacpi_table_unref, uacpi_table_load_with_cause, uacpi_table_mark_as_loaded, uacpi_table_fadt; keeps_tac.
Qed.

(** C27.  Mappings of tables.  Start with any tables and mappings where the mappings
    are those of the referenced physical tables and others.  Make any sequence of
    calls of the interface: set-up and initialisation from firmware, installation
    with any answers of the host's handler, searches, references, loading, with any
    failures of mapping, allocation, checksums and locks.  The mappings are then again
    those of the referenced physical tables and the same others, so that no mapping
    is leaked and none is removed under a reference; and after the shutdown exactly
    the others are left and no table is installed. *)
Theorem table_mappings_balanced base l s s' : balanced base s -> calls l s = Some (tt, s') ->
  balanced base s' /\
  forall a s'', uacpi_deinitialize_tables s' = Some (a, s'') -> mappings s'' = base /\ entries s'' = [].
Proof.
  intros Hb E; assert (Hb' : balanced base s').
  { revert E; assert (Hc : keeps (balanced base) (calls l)); [|apply Hc, Hb].
    induction l as [|c l IH]; cbn [calls]; keeps_tac; apply call_balanced. }
  split; [exact Hb'|intros a s'' E'; exact (deinitialize_eff _ _ _ _ Hb' E')].
Qed.
End Refs.
