(* ===== verification/TableSpec.v ===== *)
(** * acpi/uacpi/tables.c: checksums, searches and the FADT

    What a checksum is, which table a search finds, and what the sanitised FADT holds. *)

From Stdlib Require Import Strings.String.
From S2P Require Import Prelude CMem UStdlib UCore Gas ResTables Resources ResWalk Tables.

Open Scope string_scope.
Open Scope Z_scope.
Open Scope word_scope.

Section Spec.
Context {W : Type} {TH : TableHost W}.
Abbreviation TM := (SM (bytes * (W * table_state))).
Abbreviation state := (bytes * (W * table_state))%type.

Definition flag_set (s : state) (f : Z) : bool := Z.land (rt_flags (rt (snd (snd s)))) f =? f.

(** ** Checksums *)

Lemma checksum_loop_sum l : forall p c (s : state), bytes_at (fst s) p l ->
  checksum_loop (List.length l) p c s = Some (fold_left (fun a b => u8 (a + b)) l c, s).
Proof.
  induction l as [|b l IH]; intros p c s H; cbn [List.length checksum_loop fold_left]; [reflexivity|].
  apply bytes_at_cons in H as [Hb H]; erewrite SM_bind_Some by (apply rd1, Hb); apply IH, H.
Qed.

Lemma fold_u8_sum l : forall c, in_w 8 c -> fold_left (fun a b => u8 (a + b)) l c = (c + fold_right Z.add 0 l) mod 256.
Proof.
  induction l as [|b l IH]; intros c Hc; cbn [fold_left fold_right].
  - rewrite Z.add_0_r, Z.mod_small; [reflexivity|unfold in_w in Hc; lia].
  - rewrite IH by (apply wrap_range; lia); unfold wrap; rewrite Zplus_mod_idemp_l; f_equal; lia.
Qed.

(** Checksums.  The check of a table of bytes [l] returns, and it fails exactly
    when the sum of the bytes is not a multiple of 256 and bad checksums are fatal; it
    changes nothing. *)
Theorem verify_checksum_sums l p (s : state) : bytes_at (fst s) p l ->
  uacpi_verify_table_checksum p (Z.of_nat (List.length l)) s =
    Some (if negb (fold_right Z.add 0 l mod 256 =? 0) && flag_set s UACPI_FLAG_BAD_CSUM_FATAL
          then UACPI_STATUS_BAD_CHECKSUM else UACPI_STATUS_OK, s).
Proof.
  intros H; unfold uacpi_verify_table_checksum, table_checksum; rewrite Nat2Z.id.
  erewrite SM_bind_Some by (apply checksum_loop_sum, H); rewrite fold_u8_sum by (unfold in_w; lia); rewrite Z.add_0_l.
  destruct (_ =? 0); cbn [negb andb]; [reflexivity|].
  erewrite SM_bind_Some by reflexivity; unfold flag_set; destruct (_ =? _); reflexivity.
Qed.

(** ** Searches *)

(** The first valid entry from [i] on that matches. *)
Fixpoint first_match (how : search) (i : Z) (l : list uacpi_installed_table) : option Z :=
  match l with
  | [] => None
  | t :: l' => if negb (has_flag t UACPI_TABLE_INVALID) && matches how t then Some i else first_match how (i + 1) l'
  end.

Definition entries_of (s : state) : list uacpi_installed_table := elements (tables (snd (snd s))).

(** What the search does about the entry it found: take a reference, or go on behind
    it when its checksum is bad. *)
Definition found (i : Z) (again : Z -> TM (uacpi_status * option uacpi_table)) : TM (uacpi_status * option uacpi_table) :=
  ret ← table_ref_unlocked i;
  if is_ok ret then t ← get_table i; mret (ret, Some {| ut_ptr := t_ptr t; ut_index := i |})
  else if bool_decide (ret = UACPI_STATUS_BAD_CHECKSUM) then again (i + 1) else mret (ret, None).

Lemma get_table_eq i t (s : state) : 0 <= i -> entries_of s !! Z.to_nat i = Some t -> get_table i s = Some (t, s).
Proof.
  intros Hi H; unfold get_table, gets, gets_state, of_option, table_array_at, table_array_size, mbind, SM_bind; cbv beta iota.
  pose proof (lookup_lt_Some _ _ _ H); unfold entries_of in *; destruct (Z.leb_spec (Z.of_nat (List.length (elements (tables s.2.2)))) i); [lia|].
  rewrite H; reflexivity.
Qed.

Lemma search_loop_first how n : forall i ctx (s : state), 0 <= i -> n = Z.to_nat (Z.of_nat (List.length (entries_of s)) - i) ->
  snd ctx = None ->
  for_each_table_loop (do_search_tables how) n i ctx s =
    match first_match how i (drop (Z.to_nat i) (entries_of s)) with
    | None => Some (ctx, s)
    | Some j => found j (fun k => for_each_table_loop (do_search_tables how) (Z.to_nat (Z.of_nat (List.length (entries_of s)) - k)) k ctx) s
    end.
Proof.
  induction n as [|n IH]; intros i ctx s Hi Hn Hc; cbn [for_each_table_loop]; (erewrite SM_bind_Some by reflexivity);
    unfold table_array_size; fold (entries_of s).
  - destruct (Z.leb_spec (Z.of_nat (List.length (entries_of s))) i); [|lia].
    rewrite drop_ge by lia; reflexivity.
  - destruct (Z.leb_spec (Z.of_nat (List.length (entries_of s))) i); [lia|].
    destruct (lookup_lt_is_Some_2 (entries_of s) (Z.to_nat i)) as [t Ht]; [lia|].
    erewrite SM_bind_Some by (apply get_table_eq; eassumption); rewrite (drop_S _ _ _ Ht); cbn [first_match].
    replace (S (Z.to_nat i)) with (Z.to_nat (i + 1)) by lia.
    destruct (has_flag t UACPI_TABLE_INVALID); cbn [negb andb]; [apply IH; [lia|lia|exact Hc]|].
    assert (Ed : do_search_tables how ctx i s = if matches how t then
        (ret ← table_ref_unlocked i;
         if is_ok ret then t ← get_table i; mret (DECISION_BREAK, (ret, Some {| ut_ptr := t_ptr t; ut_index := i |}))
         else if bool_decide (ret = UACPI_STATUS_BAD_CHECKSUM) then mret (DECISION_CONTINUE, ctx)
         else mret (DECISION_BREAK, (ret, snd ctx))) s
      else Some ((DECISION_CONTINUE, ctx), s)).
    { unfold do_search_tables; erewrite SM_bind_Some by (apply get_table_eq; eassumption); destruct (matches how t); reflexivity. }
    destruct (matches how t).
    2:{ erewrite SM_bind_Some by exact Ed; apply IH; [lia|lia|exact Hc]. }
    unfold found, mbind, SM_bind in *; rewrite Ed; destruct (table_ref_unlocked i s) as [[ret s1]|]; [|reflexivity].
    destruct (is_ok ret); [destruct (get_table i s1) as [[t1 s2]|]; reflexivity|].
    destruct (bool_decide _); [|rewrite Hc; reflexivity].
    change (DECISION_CONTINUE =? DECISION_BREAK) with false; cbv iota; do 2 f_equal; lia.
Qed.

(** What a reference leaves alone. *)
Definition frame (s s' : state) : Prop :=
  List.length (entries_of s') = List.length (entries_of s) /\ table_mutex (snd (snd s')) = table_mutex (snd (snd s)) /\
  early_table_access (snd (snd s')) = early_table_access (snd (snd s)) /\ rt (snd (snd s')) = rt (snd (snd s)).

#[local] Instance frame_refl : Reflexive frame.
Proof. intros s; repeat split. Qed.
#[local] Instance frame_trans : Transitive frame.
Proof. intros s1 s2 s3 (A1 & A2 & A3 & A4) (B1 & B2 & B3 & B4); repeat split; congruence. Qed.

Lemma host_frame {A} (c : SM (bytes * W) A) : steps frame (host c).
Proof. intros s a s'; unfold host; destruct (c _) as [[? [? ?]]|]; [|discriminate]; intros [= _ <-]; repeat split. Qed.

Lemma get_table_frame i : steps frame (get_table i : TM uacpi_installed_table).
Proof.
  intros s a s'; unfold get_table, gets, gets_state, of_option, mbind, SM_bind; cbv beta iota.
  destruct (table_array_at _ _); [|discriminate]; intros [= _ <-]; reflexivity.
Qed.

Lemma put_table_frame i t : steps frame (put_table i t : TM unit).
Proof.
  intros s a s' [= _ <-]; repeat split; unfold entries_of; cbn; apply length_insert.
Qed.

Lemma rd_frame n p : steps frame (rd n p : TM Z).
Proof. intros s a s'; unfold rd; destruct (load_le _ _ _); [|discriminate]; intros [= _ <-]; reflexivity. Qed.
Create HintDb frame discriminated.
#[local] Hint Resolve host_frame get_table_frame put_table_frame rd_frame : frame.

Ltac frame_tac := repeat lazymatch goal with
  | |- forall _, _ => intros ?
  | |- steps _ (mret _) => apply steps_ret; apply _
  | |- steps _ (gets_state _) => apply steps_gets; apply _
  | |- steps _ (mbind _ _) => apply steps_bind; [apply _| |]
  | |- steps _ (if _ then _ else _) => apply steps_if
  | |- _ => solve [auto with frame]
  end.

Lemma verify_frame p n : steps frame (uacpi_verify_table_checksum p n : TM uacpi_status).
Proof.
  assert (H : forall k q c, steps frame (checksum_loop k q c : TM Z)).
  { induction k as [|k IH]; intros q c; cbn [checksum_loop]; frame_tac; apply IH. }
  unfold uacpi_verify_table_checksum, table_checksum, uacpi_check_flag, gets; frame_tac; apply H.
Qed.
#[local] Hint Resolve verify_frame : frame.

Lemma table_ref_frame i : steps frame (table_ref_unlocked i : TM uacpi_status).
Proof. unfold table_ref_unlocked, count_reference; frame_tac. Qed.

(** Nothing prevents a search: the subsystem is up (or early access is on), and there
    is no mutex yet. *)
Definition searchable (s : state) : Prop :=
  early_table_access (snd (snd s)) || (1 <=? init_level (rt (snd (snd s)))) = true /\ table_mutex (snd (snd s)) = 0.

Lemma searchable_frame s s' : frame s s' -> searchable s -> searchable s'.
Proof. intros (_ & H2 & H3 & H4) [H5 H6]; split; [rewrite H3, H4; exact H5|rewrite H2; exact H6]. Qed.

(** The search is the walk when nothing prevents it. *)
Lemma search_tables_loop how base (s : state) : searchable s -> search_tables how base s =
  match for_each_table_loop (do_search_tables how) (Z.to_nat (Z.of_nat (List.length (entries_of s)) - base)) base
    (UACPI_STATUS_NOT_FOUND, None) s with
  | Some (r, s') => match uacpi_release_native_mutex_may_be_null s' with Some (_, s'') => Some (r, s'') | None => None end
  | None => None
  end.
Proof.
  intros [H1 H2]; unfold search_tables, uacpi_for_each_table, level_ok, uacpi_acquire_native_mutex_may_be_null, gets.
  unfold mbind, SM_bind, gets_state, mret, SM_ret; cbv beta iota; rewrite H1; cbn [negb]; cbv beta iota; rewrite H2; cbn [negb Z.eqb is_ok]; cbv beta iota.
  unfold table_array_size; fold (entries_of s).
  destruct (for_each_table_loop _ _ _ _ s) as [[r s']|]; [|reflexivity].
  destruct (uacpi_release_native_mutex_may_be_null s') as [[u s'']|]; reflexivity.
Qed.

Lemma release_nothing (s : state) : table_mutex (snd (snd s)) = 0 -> uacpi_release_native_mutex_may_be_null s = Some (tt, s).
Proof.
  intros H; unfold uacpi_release_native_mutex_may_be_null, gets, gets_state, mbind, SM_bind; cbv beta iota; rewrite H; reflexivity.
Qed.

(** Searches.  A search from index [base] on looks at the entries in order, skips
    the invalid ones and those that do not match, and takes the first that does: when
    there is none it reports that and changes nothing; otherwise it takes a reference and
    returns the mapped table with its index.  A table whose checksum turns out to be bad
    is passed over, and any other failure ends the search. *)
Theorem search_takes_first_match how base (s : state) : 0 <= base -> searchable s ->
  search_tables how base s =
    match first_match how base (drop (Z.to_nat base) (entries_of s)) with
    | None => Some ((UACPI_STATUS_NOT_FOUND, None), s)
    | Some i => found i (search_tables how) s
    end.
Proof.
  intros Hb Hs; rewrite (search_tables_loop how base s Hs), (search_loop_first how _ base) by (reflexivity || exact Hb).
  destruct (first_match _ _ _) as [i|]; [|rewrite release_nothing by apply Hs; reflexivity].
  unfold found, mbind, SM_bind; destruct (table_ref_unlocked i s) as [[ret s1]|] eqn:Er; [|reflexivity].
  pose proof (table_ref_frame i _ _ _ Er) as Hf; pose proof (searchable_frame _ _ Hf Hs) as Hs1.
  destruct (is_ok ret).
  - destruct (get_table i s1) as [[t s2]|] eqn:Eg; [|reflexivity].
    pose proof (searchable_frame _ _ (get_table_frame i _ _ _ Eg) Hs1) as Hs2; cbn; rewrite release_nothing by apply Hs2; reflexivity.
  - destruct (bool_decide _); [|cbn; rewrite release_nothing by apply Hs1; reflexivity].
    rewrite (search_tables_loop how (i + 1) s1 Hs1); destruct Hf as [Hl _]; rewrite Hl; reflexivity.
Qed.
End Spec.

(** ** The registers of the FADT *)

(** Bytes outside a store, and what a load depends on. *)
Lemma store_le_outside n : forall m p v m' a, store_le m p n v = Some m' -> ~ (p <= a < p + Z.of_nat n) -> m' !! a = m !! a.
Proof.
  induction n as [|n IH]; intros m p v m' a E Ha; cbn [store_le] in E; [congruence|].
  unfold store8 in E; destruct (m !! p) eqn:Ep; cbn [mbind option_bind] in E; [|discriminate].
  rewrite (IH _ _ _ _ _ E) by lia; apply lookup_insert_ne; lia.
Qed.

Lemma load_le_ext n : forall m m' p, (forall a, p <= a < p + Z.of_nat n -> m' !! a = m !! a) -> load_le m' p n = load_le m p n.
Proof.
  induction n as [|n IH]; intros m m' p H; cbn [load_le]; [reflexivity|]; unfold load8; rewrite H by lia.
  destruct (m !! p); cbn [mbind option_bind]; [|reflexivity]; rewrite (IH m m'); [reflexivity|]; intros a Ha; apply H; lia.
Qed.

(** A store in owned memory, and the load of what was stored. *)
Lemma store_le_owned m p n v : bytes_ok m -> owned m p (Z.of_nat n) -> in_w (8 * Z.of_nat n) v ->
  exists m', store_le m p n v = Some m' /\ same_dom m m' /\ bytes_ok m' /\ load_le m' p n = Some v /\
    forall a, ~ (p <= a < p + Z.of_nat n) -> m' !! a = m !! a.
Proof.
  intros Hok Ho Hv; destruct (store_le_spec n m p v Ho) as (m' & E & Hd & Hok' & Hb); specialize (Hok' Hok).
  exists m'; split; [exact E|split; [exact Hd|split; [exact Hok'|split; [|intros a Ha; eapply store_le_outside; eassumption]]]].
  destruct (load_le_bits m' n Hok' p) as (x & -> & Hx & Bx); [rewrite <- Hd; exact Ho|]; f_equal.
  apply Z.bits_inj'; intros i Hi; rewrite Bx, Hb by lia.
  destruct (Z.ltb_spec i (8 * Z.of_nat n)), (withinP (8 * p) (8 * Z.of_nat n) (8 * p + i)); try lia; cbn [andb].
  - f_equal; lia.
  - symmetry; apply (testbit_in_w (8 * Z.of_nat n)); [exact Hv|lia].
Qed.

Definition gas_ok (g : acpi_gas) : Prop :=
  in_w 8 (address_space_id g) /\ in_w 8 (register_bit_width g) /\ in_w 8 (register_bit_offset g) /\
  in_w 8 (access_size g) /\ in_w 64 (address g).

(** [m'] is [m] with other bytes in the [n] at [p]. *)
Definition changed_at (m m' : bytes) (p n : Z) : Prop :=
  same_dom m m' /\ bytes_ok m' /\ forall a, ~ (p <= a < p + n) -> m' !! a = m !! a.

Lemma put_gas_spec m p g : bytes_ok m -> owned m p 12 -> gas_ok g ->
  exists m', put_gas m p g = Some m' /\ changed_at m m' p 12 /\ gas_at m' p = Some g.
Proof.
  intros Hok Ho (G1 & G2 & G3 & G4 & G5); unfold put_gas, gas_at.
  destruct (store_le_owned m p 1 (address_space_id g) Hok) as (m1 & E1 & D1 & O1 & L1 & B1); [eapply owned_sub; [exact Ho|lia..]|exact G1|].
  destruct (store_le_owned m1 (p + 1) 1 (register_bit_width g) O1) as (m2 & E2 & D2 & O2 & L2 & B2);
    [rewrite <- D1; eapply owned_sub; [exact Ho|lia..]|exact G2|].
  destruct (store_le_owned m2 (p + 2) 1 (register_bit_offset g) O2) as (m3 & E3 & D3 & O3 & L3 & B3);
    [rewrite <- D2, <- D1; eapply owned_sub; [exact Ho|lia..]|exact G3|].
  destruct (store_le_owned m3 (p + 3) 1 (access_size g) O3) as (m4 & E4 & D4 & O4 & L4 & B4);
    [rewrite <- D3, <- D2, <- D1; eapply owned_sub; [exact Ho|lia..]|exact G4|].
  destruct (store_le_owned m4 (p + 4) 8 (address g) O4) as (m5 & E5 & D5 & O5 & L5 & B5);
    [rewrite <- D4, <- D3, <- D2, <- D1; eapply owned_sub; [exact Ho|lia..]|exact G5|].
  exists m5; rewrite E1; cbn [mbind option_bind]; rewrite E2; cbn [mbind option_bind]; rewrite E3; cbn [mbind option_bind];
    rewrite E4; cbn [mbind option_bind]; split; [exact E5|split].
  - split; [do 4 (etransitivity; [eassumption|]); exact D5|split; [exact O5|]].
    intros a Ha; rewrite B5, B4, B3, B2, B1 by lia; reflexivity.
  - rewrite (load_le_ext 1 m1 m5 p) by (intros a Ha; rewrite B5, B4, B3, B2 by lia; reflexivity).
    rewrite (load_le_ext 1 m2 m5 (p + 1)) by (intros a Ha; rewrite B5, B4, B3 by lia; reflexivity).
    rewrite (load_le_ext 1 m3 m5 (p + 2)) by (intros a Ha; rewrite B5, B4 by lia; reflexivity).
    rewrite (load_le_ext 1 m4 m5 (p + 3)) by (intros a Ha; rewrite B5 by lia; reflexivity).
    rewrite L1, L2, L3, L4, L5; destruct g; reflexivity.
Qed.

Lemma gas_at_owned m p : bytes_ok m -> owned m p 12 -> exists g, gas_at m p = Some g /\ gas_ok g.
Proof.
  intros Hok Ho; unfold gas_at.
  destruct (load_le_bits m 1 Hok p) as (a & -> & Ha & _); [eapply owned_sub; [exact Ho|lia..]|].
  destruct (load_le_bits m 1 Hok (p + 1)) as (b & -> & Hb & _); [eapply owned_sub; [exact Ho|lia..]|].
  destruct (load_le_bits m 1 Hok (p + 2)) as (c & -> & Hc & _); [eapply owned_sub; [exact Ho|lia..]|].
  destruct (load_le_bits m 1 Hok (p + 3)) as (d & -> & Hd & _); [eapply owned_sub; [exact Ho|lia..]|].
  destruct (load_le_bits m 8 Hok (p + 4)) as (e & -> & He & _); [eapply owned_sub; [exact Ho|lia..]|].
  eexists; split; [reflexivity|repeat split; try apply Ha; try apply Hb; try apply Hc; try apply Hd; apply He].
Qed.

Lemma gas_at_ext m m' p : (forall a, p <= a < p + 12 -> m' !! a = m !! a) -> gas_at m' p = gas_at m p.
Proof.
  intros H; unfold gas_at; rewrite !(load_le_ext _ m m') by (intros a Ha; apply H; lia); reflexivity.
Qed.

(** The sanitised register of a description. *)
Definition sanitised (m : bytes) (d : register_description) : option acpi_gas :=
  legacy ← load_le m (rd_offset d) 4; len ← load_le m (rd_length_offset d) 1; gas ← gas_at m (rd_xoffset d);
  Some (if address gas =? 0 then gas_init_system_io legacy len else gas).

Definition desc_in (d : register_description) : Prop :=
  0 <= rd_offset d /\ rd_offset d + 4 <= FADT_SIZE /\ 0 <= rd_length_offset d < FADT_SIZE /\ 0 <= rd_xoffset d /\
  rd_xoffset d + 12 <= FADT_SIZE.

Lemma convert_register_spec m d : bytes_ok m -> owned m 0 FADT_SIZE -> desc_in d ->
  exists m' g, convert_register m d = Some m' /\ changed_at m m' (rd_xoffset d) 12 /\
    sanitised m d = Some g /\ gas_at m' (rd_xoffset d) = Some g.
Proof.
  intros Hok Ho (H1 & H2 & H3 & H4 & H5); unfold convert_register, sanitised.
  destruct (load_le_bits m 4 Hok (rd_offset d)) as (x & -> & Hx & _); [eapply owned_sub; [exact Ho|lia..]|].
  destruct (load_le_bits m 1 Hok (rd_length_offset d)) as (y & -> & Hy & _); [eapply owned_sub; [exact Ho|lia..]|].
  assert (Hg : owned m (rd_xoffset d) 12) by (eapply owned_sub; [exact Ho|lia..]).
  destruct (gas_at_owned m (rd_xoffset d) Hok Hg) as (g & Eg & Hgo); rewrite Eg; cbn [mbind option_bind].
  destruct (Z.eqb_spec (address g) 0) as [H0|H0]; cbn [negb].
  - destruct (put_gas_spec m (rd_xoffset d) (gas_init_system_io x y) Hok Hg) as (m' & E & Hc & G).
    { unfold gas_ok, gas_init_system_io; cbn; assert (in_w 8 (u8 y)) by (apply wrap_range; lia).
      assert (in_w 64 (u64 x)) by (apply wrap_range; lia); unfold in_w, UACPI_ADDRESS_SPACE_SYSTEM_IO in *; lia. }
    exists m', (gas_init_system_io x y); auto.
  - exists m, g; split; [reflexivity|split; [split; [reflexivity|split; [exact Hok|reflexivity]]|split; [reflexivity|exact Eg]]].
Qed.

Definition apartb (p n q k : Z) : bool := (p + n <=? q) || (q + k <=? p).

(** A register that is written lies apart from what the later ones read and write. *)
Fixpoint descs_apart (l : list register_description) : bool :=
  match l with
  | [] => true
  | d :: l' => forallb (fun e => apartb (rd_xoffset d) 12 (rd_xoffset e) 12 && apartb (rd_xoffset d) 12 (rd_offset e) 4 &&
      apartb (rd_xoffset d) 12 (rd_length_offset e) 1) l' && descs_apart l'
  end.

Lemma sanitised_ext m m' p d : changed_at m m' p 12 -> apartb p 12 (rd_xoffset d) 12 = true -> apartb p 12 (rd_offset d) 4 = true ->
  apartb p 12 (rd_length_offset d) 1 = true -> sanitised m' d = sanitised m d.
Proof.
  unfold apartb; intros (_ & _ & Hb) H1 H2 H3; unfold sanitised.
  rewrite (load_le_ext 4 m m'), (load_le_ext 1 m m'), (gas_at_ext m m'); [reflexivity|intros a Ha; apply Hb; lia..].
Qed.

Lemma convert_registers_spec l : forall m, bytes_ok m -> owned m 0 FADT_SIZE -> Forall desc_in l -> descs_apart l = true ->
  exists m', convert_registers m l = Some m' /\ same_dom m m' /\ bytes_ok m' /\
    (forall d, In d l -> exists g, sanitised m d = Some g /\ gas_at m' (rd_xoffset d) = Some g) /\
    forall a, (forall d, In d l -> ~ (rd_xoffset d <= a < rd_xoffset d + 12)) -> m' !! a = m !! a.
Proof.
  induction l as [|d l IH]; intros m Hok Ho Hin Hap; cbn [convert_registers].
  { exists m; split; [reflexivity|split; [reflexivity|split; [exact Hok|split; [intros d []|reflexivity]]]]. }
  apply Forall_cons in Hin as [Hd Hin]; cbn [descs_apart] in Hap; apply andb_true_iff in Hap as [Ha Hap].
  rewrite forallb_forall in Ha; destruct (convert_register_spec m d Hok Ho Hd) as (m1 & g & E1 & C1 & S1 & G1).
  pose proof C1 as (D1 & O1 & B1); destruct (IH m1 O1) as (m2 & E2 & D2 & O2 & G2 & B2); [rewrite <- D1; exact Ho|exact Hin|exact Hap|].
  exists m2; rewrite E1; split; [exact E2|split; [etransitivity; eassumption|split; [exact O2|split]]].
  - intros e [<-|He].
    + exists g; split; [exact S1|]; rewrite <- G1; apply gas_at_ext; intros a Hx; apply B2; intros e He.
      specialize (Ha e He); cbv beta in Ha; unfold apartb in Ha; lia.
    + destruct (G2 e He) as (g' & S2 & G2'); exists g'; split; [|exact G2']; rewrite <- S2; symmetry.
      specialize (Ha e He); cbv beta in Ha; rewrite !andb_true_iff in Ha; destruct Ha as [[Ha1 Ha2] Ha3].
      eapply sanitised_ext; eassumption.
  - intros a H; rewrite B2 by (intros e He; apply H; right; exact He); apply B1; apply H; left; reflexivity.
Qed.

Lemma fadt_descs : Forall desc_in fadt_registers /\ descs_apart fadt_registers = true.
Proof. split; [repeat constructor; vm_compute; discriminate|vm_compute; reflexivity]. Qed.

(** Registers of the FADT.  The conversion of the legacy registers returns on every
    FADT, and afterwards each of the eight extended registers is the one that the firmware
    gave or, when that has no address, a system I/O register at the legacy address with
    eight bits per byte of its length (at most 255); no other byte of the FADT changes. *)
Theorem fadt_registers_sanitised m : bytes_ok m -> owned m 0 FADT_SIZE ->
  exists m', convert_registers_to_gas m = Some m' /\ same_dom m m' /\
    (forall d, In d fadt_registers -> exists g, sanitised m d = Some g /\ gas_at m' (rd_xoffset d) = Some g) /\
    forall a, (forall d, In d fadt_registers -> ~ (rd_xoffset d <= a < rd_xoffset d + 12)) -> m' !! a = m !! a.
Proof.
  intros Hok Ho; destruct fadt_descs as [H1 H2].
  destruct (convert_registers_spec fadt_registers m Hok Ho H1 H2) as (m' & E & D & _ & G & B).
  exists m'; auto.
Qed.

(** ** The revision of the FADT *)

(** Is [rev] the revision whose FADT has room for [length] bytes and no more than needed? *)
Definition revision_fits (rev length : Z) : bool :=
  ((rev =? 1) && (length <=? 116)) || ((rev =? 2) && (116 <? length) && (length <=? 132)) ||
  (((rev =? 3) || (rev =? 4)) && (132 <? length) && (length <=? 244)) ||
  ((rev =? 5) && (244 <? length) && (length <=? 268)) || ((rev =? 6) && (268 <? length)).

(** Revision of the FADT.  Whatever revision and length the firmware claims, the
    revision afterwards fits the length, a claimed one that fits is kept, and nothing else
    in the FADT changes. *)
Theorem fadt_revision_corrected m rev length : bytes_ok m -> owned m 0 FADT_SIZE ->
  load_le m (fadt_offset "hdr.revision") 1 = Some rev -> load_le m (fadt_offset "hdr.length") 4 = Some length ->
  exists m' rev', fadt_ensure_correct_revision m = Some m' /\
    load_le m' (fadt_offset "hdr.revision") 1 = Some rev' /\ revision_fits rev' length = true /\
    (revision_fits rev length = true -> rev' = rev) /\
    forall a, a <> fadt_offset "hdr.revision" -> m' !! a = m !! a.
Proof.
  intros Hok Ho Er El; unfold fadt_ensure_correct_revision; rewrite Er, El; cbn [mbind option_bind].
  assert (Hput : forall r, in_w 8 r -> revision_fits r length = true -> (revision_fits rev length = true -> r = rev) ->
    exists m' rev', store_le m (fadt_offset "hdr.revision") 1 r = Some m' /\
      load_le m' (fadt_offset "hdr.revision") 1 = Some rev' /\ revision_fits rev' length = true /\
      (revision_fits rev length = true -> rev' = rev) /\ forall a, a <> fadt_offset "hdr.revision" -> m' !! a = m !! a).
  { intros r Hr Hf Hk; destruct (store_le_owned m (fadt_offset "hdr.revision") 1 r Hok) as (m' & E & _ & _ & L & B);
      [eapply owned_sub; [exact Ho|vm_compute; discriminate..]|exact Hr|].
    exists m', r; split; [exact E|split; [exact L|split; [exact Hf|split; [exact Hk|intros a Ha; apply B; lia]]]]. }
  unfold revision_fits in *; cbn [find_revision fadt_version_sizes].
  destruct (Z.leb_spec length 116); [|destruct (Z.leb_spec length 132); [|destruct (Z.leb_spec length 244);
    [|destruct (Z.leb_spec length 244); [lia|destruct (Z.leb_spec length 268); [|destruct (Z.leb_spec length 276)]]]]];
    cbn [Z.add Pos.add Z.eqb Pos.eqb Pos.succ Pos.add_carry];
    repeat match goal with
    | |- context [if ?b then store_le _ _ _ _ else Some _] => destruct b eqn:?
    | |- context [if ?b then Some _ else store_le _ _ _ _] => destruct b eqn:?
    end;
    first [apply Hput; [unfold in_w; lia|lia|lia] | exists m, rev; split; [reflexivity|split; [exact Er|split; [lia|split; [auto|reflexivity]]]]].
Qed.
