(* ===== verification/TableDemo.v ===== *)
(** * acpi/uacpi/tables.c: runs on a concrete firmware

    A host whose physical memory is mapped where it is, the theorems on tables applied
    to it, and runs that show where the code goes wrong. *)

From Stdlib Require Import Strings.String.
From stdpp Require Import gmultiset.
From S2P Require Import Prelude CMem UStdlib UCore Gas ResTables Resources ResWalk Tables TableRefs TableSpec.

Open Scope string_scope.
Open Scope Z_scope.
Open Scope word_scope.

Module Demo.

(** The mappings, whether the mutex is taken, and what the handler answers. *)
Record world := { maps : gmultiset (Z * Z); locked : bool; answer : Z * Z; next_buffer : Z }.

Definition set_maps (x : gmultiset (Z * Z)) (w : world) : world :=
  {| maps := x; locked := locked w; answer := answer w; next_buffer := next_buffer w |}.
Definition set_locked (x : bool) (w : world) : world :=
  {| maps := maps w; locked := x; answer := answer w; next_buffer := next_buffer w |}.

(** Physical memory is mapped at its own address; a second acquisition never returns. *)
#[export] Instance identity_host : TableHost world := {
  uacpi_kernel_map p n := fun s => Some (p, (fst s, if p =? 0 then snd s else set_maps (maps (snd s) ⊎ {[+ (p, n) +]}) (snd s)));
  uacpi_kernel_unmap p n := fun s => Some (tt, (fst s, set_maps (maps (snd s) ∖ {[+ (p, n) +]}) (snd s)));
  uacpi_kernel_get_rsdp := mret (UACPI_STATUS_OK, 0x100);
  uacpi_kernel_alloc n := fun s => Some (next_buffer (snd s), s);
  table_free _ _ := mret tt;
  uacpi_kernel_create_mutex := mret 1;
  uacpi_kernel_free_mutex _ := mret tt;
  uacpi_kernel_acquire_mutex _ := fun s => if locked (snd s) then None else Some (UACPI_STATUS_OK, (fst s, set_locked true (snd s)));
  uacpi_kernel_release_mutex _ := fun s => Some (tt, (fst s, set_locked false (snd s)));
  call_installation_handler _ _ := fun s => Some (answer (snd s), s);
  uacpi_execute_table _ _ := mret UACPI_STATUS_OK }.

#[export] Instance identity_laws : TableHostLaws world.
Proof.
  refine {| live := maps |}; try (intros; intros s a s' E; injection E as _ <-; reflexivity).
  - intros p n m w v m' w' E; injection E as <- <- <-; cbn [snd]; destruct (p =? 0); reflexivity.
  - intros v n m w m' w' E; injection E as <- <-; reflexivity.
  - intros h s a s'; cbn; destruct (locked (snd s)); [discriminate|]; intros E; injection E as _ <-; reflexivity.
Defined.

(** Bytes at an address. *)
Definition mem_of (p : Z) (l : list Z) : bytes := list_to_map (zip (seqZ p (Z.of_nat (List.length l))) l).
Definition zeros (n : Z) : list Z := repeat 0 (Z.to_nat n).
Definition le (n : nat) (v : Z) : list Z := map (fun i => Z.land (Z.shiftr v (8 * i)) 255) (seqZ 0 (Z.of_nat n)).

(** A table with its checksum byte; [body] follows the header. *)
Definition table (signature : list Z) (revision : Z) (body : list Z) : list Z :=
  let raw c := (signature ++ le 4 (36 + Z.of_nat (List.length body)) ++ [revision; c] ++ zeros 6 ++ zeros 8 ++ zeros 12 ++ body)%list in
  raw ((- fold_right Z.add 0 (raw 0)) mod 256).

Definition rt0 (flags level : Z) : runtime_context :=
  let g := {| address_space_id := 0; register_bit_width := 0; register_bit_offset := 0; access_size := 0; address := 0 |} in
  {| fadt := mem_of 0 (zeros FADT_SIZE); facs := 0; pm1a_status_blk := g; pm1b_status_blk := g; pm1a_enable_blk := g;
     pm1b_enable_blk := g; rt_flags := flags; is_rev1 := false; is_hardware_reduced := false; init_level := level |}.

Definition ts0 (flags level handler mutex : Z) : table_state :=
  {| tables := {| elements := []; dynamic_storage := 0; dynamic_capacity := 0 |}; early_table_access := false;
     installation_handler := handler; table_mutex := mutex; rt := rt0 flags level |}.

Definition w0 : world := {| maps := ∅; locked := false; answer := (0, 0); next_buffer := 0x9000 |}.

(** *** A small firmware: RSDP, RSDT, FADT, DSDT, FACS and an SSDT *)

Definition SSDT : list Z := [83; 83; 68; 84].

Definition the_fadt : list Z := table ACPI_FADT_SIGNATURE 6
  (le 4 0x600 ++ le 4 0x500 ++ [0; 2] ++ zeros 10 ++ le 4 0x400 ++ zeros 28 ++ [4; 2; 0; 0; 0; 0; 0; 0] ++ zeros 180)%list.

Definition firmware : bytes :=
  mem_of 0x100 ([82; 83; 68; 32; 80; 84; 82; 32] ++ zeros 7 ++ [0] ++ le 4 0x200 ++ zeros 16)%list ∪
  mem_of 0x200 (table ACPI_RSDT_SIGNATURE 1 (le 4 0x300 ++ le 4 0x700)%list) ∪
  mem_of 0x300 the_fadt ∪
  mem_of 0x500 (table ACPI_DSDT_SIGNATURE 2 [1; 2; 3]) ∪
  mem_of 0x600 (ACPI_FACS_SIGNATURE ++ le 4 64 ++ zeros 56)%list ∪
  mem_of 0x700 (table SSDT 2 [9; 9; 9; 9]).

Definition boot : bytes * (world * table_state) := (firmware, (w0, ts0 1 0 0 0)).

(** What the tests look at: signatures, reference counts, flags and the mappings. *)
Definition summary (s : bytes * (world * table_state)) : list (list Z * Z * Z) * list (Z * Z) :=
  (map (fun t => (h_signature (t_hdr t), t_reference_count t, t_flags t)) (elements (tables (snd (snd s)))),
   gmultiset_elements (maps (fst (snd s)))).

Example boot_run : option_map (fun r => (fst r, summary (snd r))) (uacpi_initialize_tables 4 boot) =
  Some (UACPI_STATUS_OK,
    ([(ACPI_DSDT_SIGNATURE, 0, 0); (ACPI_FADT_SIGNATURE, 0, 2); (SSDT, 0, 0); (ACPI_FACS_SIGNATURE, 1, 2)], [(0x600, 64)])).
Proof. vm_compute; reflexivity. Qed.

(** ** Witnesses *)

Abbreviation st := (bytes * (world * table_state))%type.

(** The state after a run, the one before when there is none. *)
Definition after {A} (c : SM st A) (s : st) : st := match c s with Some (_, s') => s' | None => s end.

Definition up : st := (firmware, (w0, ts0 1 1 0 0)).

Definition some_calls : list table_call :=
  [Call_initialize; Call_find_by_signature SSDT; Call_find_by_signature ACPI_DSDT_SIGNATURE;
   Call_unref {| ut_ptr := 0x500; ut_index := 0 |}; Call_install_physical 0x700 true; Call_load 2 3].

Definition used : st := after (calls 4 some_calls) up.

Example used_summary : summary used =
  ([(ACPI_DSDT_SIGNATURE, 0, 2); (ACPI_FADT_SIGNATURE, 0, 2); (SSDT, 1, 3); (ACPI_FACS_SIGNATURE, 1, 2); (SSDT, 1, 2)],
   [(0x700, 40); (0x700, 40); (0x600, 64)]).
Proof. vm_compute; reflexivity. Qed.

Lemma table_mappings_balanced_witness : balanced ∅ up /\ calls 4 some_calls up = Some (tt, used) /\ balanced ∅ used.
Proof.
  assert (Hb : balanced ∅ up) by (split; [vm_compute; reflexivity|constructor]).
  assert (Hc : calls 4 some_calls up = Some (tt, used)).
  { assert (H : bool_decide (is_Some (calls 4 some_calls up)) = true) by (vm_compute; reflexivity).
    unfold used, after; destruct (calls 4 some_calls up) as [[[] s]|]; [reflexivity|discriminate]. }
  split; [exact Hb|split; [exact Hc|exact (proj1 (table_mappings_balanced 4 ∅ some_calls up used Hb Hc))]].
Defined.

Definition bytes_at_b (m : bytes) (p : Z) (l : list Z) : bool :=
  forallb (fun i => bool_decide (m !! (p + Z.of_nat i) = l !! i)) (List.seq 0 (List.length l)).

Lemma bytes_at_b_sound m p l : bytes_at_b m p l = true -> bytes_at m p l.
Proof.
  unfold bytes_at_b; rewrite forallb_forall; intros H i c Hc; rewrite <- Hc.
  apply (bool_decide_eq_true_1 (m !! (p + Z.of_nat i) = l !! i)), H, in_seq; apply lookup_lt_Some in Hc; lia.
Qed.

Lemma verify_checksum_sums_witness :
  uacpi_verify_table_checksum 0x600 8 up = Some (UACPI_STATUS_BAD_CHECKSUM, up).
Proof.
  apply (verify_checksum_sums [70; 65; 67; 83; 64; 0; 0; 0] 0x600 up); apply bytes_at_b_sound; vm_compute; reflexivity.
Defined.

(** The tables of the firmware without a mutex. *)
Definition discovered : st := after (initialize_from_rsdp 4) up.

Lemma search_takes_first_match_witness :
  search_tables (SEARCH_TYPE_BY_ID (signature_only SSDT)) 0 discovered =
  found 2 (search_tables (SEARCH_TYPE_BY_ID (signature_only SSDT))) discovered.
Proof.
  rewrite (search_takes_first_match (SEARCH_TYPE_BY_ID (signature_only SSDT)) 0 discovered); [|lia|split; vm_compute; reflexivity].
  replace (first_match _ 0 _) with (Some 2) by (vm_compute; reflexivity); reflexivity.
Defined.

Definition fadt_mem : bytes := mem_of 0 the_fadt.

Lemma fadt_mem_ok : bytes_ok fadt_mem /\ owned fadt_mem 0 FADT_SIZE.
Proof.
  split.
  - intros a b Hb; assert (H : forallb (fun x => (0 <=? snd x) && (snd x <? 256)) (map_to_list fadt_mem) = true) by (vm_compute; reflexivity).
    rewrite forallb_forall in H; specialize (H (a, b) (proj1 (list_elem_of_In _ _) (proj2 (elem_of_map_to_list fadt_mem a b) Hb))).
    cbn [snd] in H; unfold in_w; lia.
  - assert (H : forallb (fun a => bool_decide (is_Some (fadt_mem !! a))) (seqZ 0 FADT_SIZE) = true) by (vm_compute; reflexivity).
    intros a Ha; apply (bool_decide_eq_true_1 (is_Some (fadt_mem !! a))), (forallb_range _ _ _ _ H Ha).
Qed.

Lemma fadt_registers_sanitised_witness : exists m', convert_registers_to_gas fadt_mem = Some m' /\
  gas_at m' (fadt_offset "x_pm1a_evt_blk") = Some (gas_init_system_io 0x400 4).
Proof.
  destruct (fadt_registers_sanitised fadt_mem (proj1 fadt_mem_ok) (proj2 fadt_mem_ok)) as (m' & E & _ & H & _).
  exists m'; split; [exact E|]; destruct (H _ (or_introl eq_refl)) as (g & Hs & Hg).
  vm_compute in Hs; injection Hs as <-; exact Hg.
Defined.

Lemma fadt_revision_corrected_witness : exists m' rev', fadt_ensure_correct_revision fadt_mem = Some m' /\
  load_le m' (fadt_offset "hdr.revision") 1 = Some rev' /\ rev' = 6.
Proof.
  destruct (fadt_revision_corrected fadt_mem 6 276 (proj1 fadt_mem_ok) (proj2 fadt_mem_ok)) as (m' & r & E & L & _ & K & _);
    [vm_compute; reflexivity..|].
  exists m', r; split; [exact E|split; [exact L|apply K; reflexivity]].
Defined.

(** ** Where it goes wrong *)

(** A table that failed its checksum is marked invalid.  Asking for a reference to it by
    its index fails without releasing the mutex of the tables, and the next call on
    tables never gets it. *)
Definition bad_table : uacpi_installed_table :=
  {| t_phys_addr := 0x700; t_hdr := t_hdr fresh_entry; t_ptr := 0; t_reference_count := 0; t_flags := UACPI_TABLE_INVALID;
     t_origin := ORIGIN_FIRMWARE_PHYSICAL |}.

Definition with_bad : st :=
  (firmware, (w0, set_tables {| elements := [bad_table]; dynamic_storage := 0; dynamic_capacity := 0 |} (ts0 1 1 0 1))).

Theorem invalid_table_keeps_mutex :
  option_map fst (uacpi_table_ref {| ut_ptr := 0; ut_index := 0 |} with_bad) = Some UACPI_STATUS_INVALID_ARGUMENT /\
  locked (fst (snd (after (uacpi_table_ref {| ut_ptr := 0; ut_index := 0 |}) with_bad))) = true /\
  uacpi_table_find_by_signature SSDT (after (uacpi_table_ref {| ut_ptr := 0; ut_index := 0 |}) with_bad) = None.
Proof. repeat split; vm_compute; reflexivity. Qed.

(** Installing a table from physical memory reports success when its checksum is bad and
    that is fatal, and when the host denies it; no table is returned or installed. *)
Definition corrupt : st := (<[0x725 := 1]> firmware, (w0, ts0 1 1 0 0)).
Definition denying : st :=
  (firmware, ({| maps := ∅; locked := false; answer := (DISPOSITION_DENY, 0); next_buffer := 0 |}, ts0 1 1 7 0)).

Theorem failed_install_is_reported_ok :
  option_map (fun r => (fst r, summary (snd r))) (uacpi_table_install_physical 4 0x700 true corrupt) =
    Some ((UACPI_STATUS_OK, None), ([], [])) /\
  option_map (fun r => (fst r, summary (snd r))) (uacpi_table_install_physical_with_origin 4 0x700 ORIGIN_FIRMWARE_PHYSICAL true denying) =
    Some ((UACPI_STATUS_OK, None), ([], [])).
Proof. split; vm_compute; reflexivity. Qed.

(** The FACS of a host that denies it: the address that is kept was never written. *)
Theorem denied_facs_is_read_uninitialised :
  option_map fst (install_facs 4 (after (initialize_from_rsdp 4) up)) = Some UACPI_STATUS_OK /\
  install_facs 4 (fst (after (initialize_from_rsdp 4) up),
    (fst (snd denying), set_handler 7 (snd (snd (after (initialize_from_rsdp 4) up))))) = None.
Proof. split; vm_compute; reflexivity. Qed.

(** A FADT that names itself as the DSDT.  Wrong signatures are only warned about, so it
    is installed as the DSDT, initialised as a FADT and installed again: however deep the
    stack is, the installation does not return. *)
Definition looping_fadt : list Z := table ACPI_FADT_SIGNATURE 6
  (zeros 4 ++ le 4 0x300 ++ zeros 232)%list.

(** This host does not count its mappings. *)
#[local] Instance plain_host : TableHost unit := {
  uacpi_kernel_map p _ := mret p; uacpi_kernel_unmap _ _ := mret tt; uacpi_kernel_get_rsdp := mret (UACPI_STATUS_OK, 0x100);
  uacpi_kernel_alloc _ := mret 0; table_free _ _ := mret tt; uacpi_kernel_create_mutex := mret 1;
  uacpi_kernel_free_mutex _ := mret tt; uacpi_kernel_acquire_mutex _ := mret UACPI_STATUS_OK;
  uacpi_kernel_release_mutex _ := mret tt; call_installation_handler _ _ := mret (0, 0);
  uacpi_execute_table _ _ := mret UACPI_STATUS_OK }.

Abbreviation pst := (bytes * (unit * table_state))%type.

Definition looping : pst := (mem_of 0x300 looping_fadt, (tt, ts0 0 1 0 0)).

(** The state in which the FADT has been copied and checked. *)
Definition entered : pst :=
  match initialize_fadt (fun _ _ _ => mret (UACPI_STATUS_DENIED, None)) 0x300 looping with Some (_, s) => s | None => looping end.

(** What is done before the DSDT is installed. *)
Definition enter : SM pst Z :=
  h_len ← rd 4 (0x300 + 4); mem ← gets_state fst;
  on_fadt (copy_to_fadt (Z.to_nat (Z.min FADT_SIZE h_len)) mem 0x300 0);; flags ← fadt_field "flags" 4;
  modify_rt (set_reduced (negb (Z.land flags ACPI_HW_REDUCED_ACPI =? 0)));; on_fadt fadt_ensure_correct_revision;;
  on_fadt clear_reserved;; on_fadt choose_dsdt;; fadt_field "x_dsdt" 8.

Lemma initialize_fadt_enter rec s s' : enter s = Some (0x300, s') ->
  rec (Physical 0x300 (Some ACPI_DSDT_SIGNATURE)) ORIGIN_FIRMWARE_PHYSICAL false s' = None ->
  initialize_fadt rec 0x300 s = None.
Proof.
  intros E H; unfold enter in E; unfold initialize_fadt.
  do 8 (apply SM_bind_inv in E as (? & ? & ? & E); erewrite SM_bind_Some by eassumption).
  erewrite SM_bind_Some by exact E; apply SM_bind_None; change (negb (0x300 =? 0)) with true; cbv iota; apply SM_bind_None, H.
Qed.

(** Equality of states is decided by running both sides. *)
Ltac by_dec := match goal with |- ?P => apply (bool_decide_eq_true_1 P); vm_compute; reflexivity end.

Lemma looping_step rec s : s = looping \/ s = entered ->
  rec (Physical 0x300 (Some ACPI_DSDT_SIGNATURE)) ORIGIN_FIRMWARE_PHYSICAL false entered = None ->
  table_install_physical_with_origin_unlocked rec 0x300 ORIGIN_FIRMWARE_PHYSICAL (Some ACPI_DSDT_SIGNATURE) false s = None.
Proof.
  intros Hs H.
  assert (Ee : enter s = Some (0x300, entered)).
  { destruct Hs as [->| ->]; by_dec. }
  set (h := match get_external_table_header 0x300 looping with Some ((_, h), _) => h | None => t_hdr fresh_entry end).
  assert (Eh : get_external_table_header 0x300 s = Some ((UACPI_STATUS_OK, h), s)).
  { destruct Hs as [->| ->]; by_dec. }
  assert (Esig : uacpi_check_table_signature (h_signature h) ACPI_DSDT_SIGNATURE s = Some (UACPI_STATUS_OK, s)).
  { destruct Hs as [->| ->]; by_dec. }
  assert (Ecs : uacpi_verify_table_checksum 0x300 276 s = Some (UACPI_STATUS_OK, s)).
  { destruct Hs as [->| ->]; by_dec. }
  assert (Ef : uacpi_check_flag UACPI_FLAG_PROACTIVE_TBL_CSUM s = Some (false, s)).
  { destruct Hs as [->| ->]; by_dec. }
  assert (Em : gets installation_handler s = Some (0, s)).
  { destruct Hs as [->| ->]; by_dec. }
  assert (Hh : h_length h = 276 /\ h_signature h = ACPI_FADT_SIGNATURE) by (split; vm_compute; reflexivity).
  clearbody h; destruct Hh as [Hl Hsig], s as [m [u t]].
  unfold table_install_physical_with_origin_unlocked; erewrite SM_bind_Some by exact Eh; cbv iota beta; cbn [is_ok negb].
  rewrite Hl; change (276 <? SDT_HDR_SIZE) with false; cbv iota.
  erewrite SM_bind_Some by exact Esig; cbn [is_ok negb]; erewrite SM_bind_Some by exact Em.
  erewrite SM_bind_Some by reflexivity; cbn [Z.eqb negb orb andb]; cbv iota; apply SM_bind_None.
  rewrite andb_false_r; unfold verify_and_install_table; erewrite SM_bind_Some by exact Ef; apply SM_bind_None.
  rewrite Hsig; change (uacpi_signatures_match ACPI_FADT_SIGNATURE ACPI_FACS_SIGNATURE) with false.
  change (uacpi_signatures_match ACPI_FADT_SIGNATURE ACPI_FADT_SIGNATURE) with true; cbn [orb]; unfold verify_contents.
  erewrite SM_bind_Some by reflexivity; change (0x300 =? 0) with false; cbv iota; rewrite Hl.
  cbn [fst snd]; erewrite SM_bind_Some by exact Ecs; cbn [is_ok]; apply SM_bind_None, SM_bind_None.
  eapply initialize_fadt_enter; [exact Ee|exact H].
Qed.

Theorem fadt_as_its_own_dsdt_never_installs depth :
  install_unlocked depth (Physical 0x300 (Some ACPI_DSDT_SIGNATURE)) ORIGIN_FIRMWARE_PHYSICAL false looping = None.
Proof.
  destruct depth as [|depth]; [reflexivity|]; cbn [install_unlocked]; apply looping_step; [left; reflexivity|].
  induction depth as [|depth IH]; [reflexivity|]; cbn [install_unlocked]; apply looping_step; [right; reflexivity|exact IH].
Qed.
End Demo.
