(* ===== verification/Events.v ===== *)
(** * acpi/uacpi/event.c: fixed and general-purpose events

    Fixed events are five bits of the PM1 registers, read and written through
    [Registers].  General-purpose events (GPEs) come in blocks of 8-bit register
    pairs (status and enable), reached through the mapped addresses of [GasOps];
    each event has a handler (an AML method, a native function or a list of devices
    to notify) and a count of users.  Blocks, interrupt contexts and handlers live in
    heaps of their own, linked by pointers as in the source; an event is pointed to by
    its block and its index.  The kernel, the namespace and the execution of methods
    are the interface [EventHost], the recursive lock is [EventLock], which [Mutex]
    implements. *)

From S2P Require Import Prelude UCore CList UText Namespace Gas Mutex Registers.

Open Scope word_scope.

(** ** Data *)

Definition UACPI_EVENT_DISABLED : Z := 0.
Definition UACPI_EVENT_ENABLED : Z := 1.

Definition UACPI_FIXED_EVENT_GLOBAL_LOCK : Z := 0.
Definition UACPI_FIXED_EVENT_TIMER_STATUS : Z := 1.
Definition UACPI_FIXED_EVENT_POWER_BUTTON : Z := 2.
Definition UACPI_FIXED_EVENT_SLEEP_BUTTON : Z := 3.
Definition UACPI_FIXED_EVENT_RTC : Z := 4.
Definition UACPI_FIXED_EVENT_MAX : Z := UACPI_FIXED_EVENT_RTC.

Definition UACPI_INTERRUPT_NOT_HANDLED : Z := 0.
Definition UACPI_INTERRUPT_HANDLED : Z := 1.
Definition UACPI_GPE_REENABLE : Z := 128.

Definition ACPI_PM1_STS_CLEAR : Z := 1.

(** Indices into [g_fields]. *)
Record fixed_event := { enable_field : Z; status_field : Z; enable_mask : Z; status_mask : Z }.

Definition fixed_events : list fixed_event := [
  {| status_field := 2; enable_field := 10; enable_mask := bit 5; status_mask := bit 5 |};
  {| status_field := 0; enable_field := 9; enable_mask := bit 0; status_mask := bit 0 |};
  {| status_field := 3; enable_field := 11; enable_mask := bit 8; status_mask := bit 8 |};
  {| status_field := 4; enable_field := 12; enable_mask := bit 9; status_mask := bit 9 |};
  {| status_field := 5; enable_field := 13; enable_mask := bit 10; status_mask := bit 10 |} ].

(** A pointer to an interrupt handler: null, the one of this file, or the host's. *)
Inductive interrupt_handler := NO_HANDLER | HANDLE_GLOBAL_LOCK | HOST_HANDLER (cb : Z).

Record fixed_event_handler := { fh_handler : interrupt_handler; fh_ctx : Z }.

Definition no_fixed_handler : fixed_event_handler := {| fh_handler := NO_HANDLER; fh_ctx := 0 |}.

Inductive gpe_handler_type :=
  | GPE_HANDLER_TYPE_NONE
  | GPE_HANDLER_TYPE_AML_HANDLER
  | GPE_HANDLER_TYPE_NATIVE_HANDLER
  | GPE_HANDLER_TYPE_NATIVE_HANDLER_RAW
  | GPE_HANDLER_TYPE_IMPLICIT_NOTIFY.

#[export] Instance gpe_handler_type_eq_dec : EqDecision gpe_handler_type.
Proof. solve_decision. Defined.

Definition is_native (t : gpe_handler_type) : bool :=
  match t with GPE_HANDLER_TYPE_NATIVE_HANDLER | GPE_HANDLER_TYPE_NATIVE_HANDLER_RAW => true | _ => false end.

(** The handlers that uACPI runs by itself. *)
Definition is_automatic (t : gpe_handler_type) : bool :=
  match t with GPE_HANDLER_TYPE_AML_HANDLER | GPE_HANDLER_TYPE_IMPLICIT_NOTIFY => true | _ => false end.

Definition UACPI_GPE_TRIGGERING_LEVEL : Z := 0.
Definition UACPI_GPE_TRIGGERING_EDGE : Z := 1.
Definition UACPI_GPE_TRIGGERING_MAX : Z := UACPI_GPE_TRIGGERING_EDGE.

Record gpe_native_handler := {
  n_cb : Z; n_ctx : Z; previous_handler : Z; previous_triggering : Z;
  previous_handler_type : gpe_handler_type; previously_enabled : bool }.

Definition EVENTS_PER_GPE_REGISTER : Z := 8.

(** [any_handler] is the union of the pointers; [e_reg] is the index of the register in
    the block ([None] is the null pointer). *)
Record gp_event := {
  any_handler : Z; e_reg : option Z; e_idx : Z; num_users : Z; handler_type : gpe_handler_type;
  triggering : Z; wake : bool; block_interrupts : bool }.

Definition zeroed_event : gp_event := {|
  any_handler := 0; e_reg := None; e_idx := 0; num_users := 0; handler_type := GPE_HANDLER_TYPE_NONE;
  triggering := 0; wake := false; block_interrupts := false |}.

Section Data.
Context {W G : Type}.

(** The two mapped addresses are [None] while they are zeroed. *)
Record gpe_register := {
  r_status : option G; r_enable : option G; runtime_mask : Z; wake_mask : Z; masked_mask : Z;
  current_mask : Z; r_base_idx : Z }.

Definition zeroed_register : gpe_register := {|
  r_status := None; r_enable := None; runtime_mask := 0; wake_mask := 0; masked_mask := 0;
  current_mask := 0; r_base_idx := 0 |}.

(** [registers] and [events] are [None] while the pointers are null. *)
Record gpe_block := {
  b_prev : Z; b_next : Z; device_node : Z; registers : option (list gpe_register);
  events : option (list gp_event); irq_ctx : Z; num_registers : Z; num_events : Z; b_base_idx : Z }.

Record gpe_interrupt_ctx := { c_prev : Z; c_next : Z; gpe_head : Z; irq_handle : Z; irq : Z }.

(** What the file uses of g_uacpi_rt_ctx, the FADT included. *)
Record event_rt := {
  rt_init_level : Z; rt_hardware_reduced : bool; rt_has_global_lock : bool; rt_global_lock_pending : bool;
  rt_global_lock_event : Z; rt_global_lock_spinlock : Z; rt_sci_handle : Z; rt_sci_handle_valid : bool;
  rt_facs : Z; rt_sci_int : Z; rt_x_gpe0_blk : acpi_gas; rt_gpe0_blk_len : Z; rt_x_gpe1_blk : acpi_gas;
  rt_gpe1_blk_len : Z; rt_gpe1_base : Z }.

(** The static variables and the heaps. *)
Record event_state := {
  g_gpe_state_slock : Z;
  g_gpes_finalized : bool;
  fixed_event_handlers : list fixed_event_handler;
  g_gpe_interrupt_head : Z;
  blocks : gmap Z gpe_block;
  ctxs : gmap Z gpe_interrupt_ctx;
  natives : gmap Z gpe_native_handler;
  implicits : gmap Z (Z * Z);             (* device and next *)
  ert : event_rt }.

Record st := { ev : event_state; regs : Registers.state W G }.

Definition set_slock (x : Z) (s : event_state) : event_state := {|
  g_gpe_state_slock := x; g_gpes_finalized := g_gpes_finalized s; fixed_event_handlers := fixed_event_handlers s;
  g_gpe_interrupt_head := g_gpe_interrupt_head s; blocks := blocks s; ctxs := ctxs s; natives := natives s;
  implicits := implicits s; ert := ert s |}.
Definition set_finalized (x : bool) (s : event_state) : event_state := {|
  g_gpe_state_slock := g_gpe_state_slock s; g_gpes_finalized := x; fixed_event_handlers := fixed_event_handlers s;
  g_gpe_interrupt_head := g_gpe_interrupt_head s; blocks := blocks s; ctxs := ctxs s; natives := natives s;
  implicits := implicits s; ert := ert s |}.
Definition set_fixed (x : list fixed_event_handler) (s : event_state) : event_state := {|
  g_gpe_state_slock := g_gpe_state_slock s; g_gpes_finalized := g_gpes_finalized s; fixed_event_handlers := x;
  g_gpe_interrupt_head := g_gpe_interrupt_head s; blocks := blocks s; ctxs := ctxs s; natives := natives s;
  implicits := implicits s; ert := ert s |}.
Definition set_head (x : Z) (s : event_state) : event_state := {|
  g_gpe_state_slock := g_gpe_state_slock s; g_gpes_finalized := g_gpes_finalized s;
  fixed_event_handlers := fixed_event_handlers s; g_gpe_interrupt_head := x; blocks := blocks s; ctxs := ctxs s;
  natives := natives s; implicits := implicits s; ert := ert s |}.
Definition set_blocks (x : gmap Z gpe_block) (s : event_state) : event_state := {|
  g_gpe_state_slock := g_gpe_state_slock s; g_gpes_finalized := g_gpes_finalized s;
  fixed_event_handlers := fixed_event_handlers s; g_gpe_interrupt_head := g_gpe_interrupt_head s; blocks := x;
  ctxs := ctxs s; natives := natives s; implicits := implicits s; ert := ert s |}.
Definition set_ctxs (x : gmap Z gpe_interrupt_ctx) (s : event_state) : event_state := {|
  g_gpe_state_slock := g_gpe_state_slock s; g_gpes_finalized := g_gpes_finalized s;
  fixed_event_handlers := fixed_event_handlers s; g_gpe_interrupt_head := g_gpe_interrupt_head s; blocks := blocks s;
  ctxs := x; natives := natives s; implicits := implicits s; ert := ert s |}.
Definition set_natives (x : gmap Z gpe_native_handler) (s : event_state) : event_state := {|
  g_gpe_state_slock := g_gpe_state_slock s; g_gpes_finalized := g_gpes_finalized s;
  fixed_event_handlers := fixed_event_handlers s; g_gpe_interrupt_head := g_gpe_interrupt_head s; blocks := blocks s;
  ctxs := ctxs s; natives := x; implicits := implicits s; ert := ert s |}.
Definition set_implicits (x : gmap Z (Z * Z)) (s : event_state) : event_state := {|
  g_gpe_state_slock := g_gpe_state_slock s; g_gpes_finalized := g_gpes_finalized s;
  fixed_event_handlers := fixed_event_handlers s; g_gpe_interrupt_head := g_gpe_interrupt_head s; blocks := blocks s;
  ctxs := ctxs s; natives := natives s; implicits := x; ert := ert s |}.
Definition set_ert (f : event_rt -> event_rt) (s : event_state) : event_state := {|
  g_gpe_state_slock := g_gpe_state_slock s; g_gpes_finalized := g_gpes_finalized s;
  fixed_event_handlers := fixed_event_handlers s; g_gpe_interrupt_head := g_gpe_interrupt_head s; blocks := blocks s;
  ctxs := ctxs s; natives := natives s; implicits := implicits s; ert := f (ert s) |}.

Definition set_global_lock (has pending : bool) (e spinlock : Z) (x : event_rt) : event_rt := {|
  rt_init_level := rt_init_level x; rt_hardware_reduced := rt_hardware_reduced x; rt_has_global_lock := has;
  rt_global_lock_pending := pending; rt_global_lock_event := e; rt_global_lock_spinlock := spinlock;
  rt_sci_handle := rt_sci_handle x; rt_sci_handle_valid := rt_sci_handle_valid x; rt_facs := rt_facs x;
  rt_sci_int := rt_sci_int x; rt_x_gpe0_blk := rt_x_gpe0_blk x; rt_gpe0_blk_len := rt_gpe0_blk_len x;
  rt_x_gpe1_blk := rt_x_gpe1_blk x; rt_gpe1_blk_len := rt_gpe1_blk_len x; rt_gpe1_base := rt_gpe1_base x |}.
Definition set_sci (handle : Z) (valid : bool) (x : event_rt) : event_rt := {|
  rt_init_level := rt_init_level x; rt_hardware_reduced := rt_hardware_reduced x;
  rt_has_global_lock := rt_has_global_lock x; rt_global_lock_pending := rt_global_lock_pending x;
  rt_global_lock_event := rt_global_lock_event x; rt_global_lock_spinlock := rt_global_lock_spinlock x;
  rt_sci_handle := handle; rt_sci_handle_valid := valid; rt_facs := rt_facs x; rt_sci_int := rt_sci_int x;
  rt_x_gpe0_blk := rt_x_gpe0_blk x; rt_gpe0_blk_len := rt_gpe0_blk_len x; rt_x_gpe1_blk := rt_x_gpe1_blk x;
  rt_gpe1_blk_len := rt_gpe1_blk_len x; rt_gpe1_base := rt_gpe1_base x |}.

Definition set_masks (runtime wake masked current : Z) (r : gpe_register) : gpe_register := {|
  r_status := r_status r; r_enable := r_enable r; runtime_mask := runtime; wake_mask := wake;
  masked_mask := masked; current_mask := current; r_base_idx := r_base_idx r |}.
Definition set_masked (x : Z) (r : gpe_register) : gpe_register :=
  set_masks (runtime_mask r) (wake_mask r) x (current_mask r) r.
Definition set_current (x : Z) (r : gpe_register) : gpe_register :=
  set_masks (runtime_mask r) (wake_mask r) (masked_mask r) x r.
Definition set_wake_mask (x : Z) (r : gpe_register) : gpe_register :=
  set_masks (runtime_mask r) x (masked_mask r) (current_mask r) r.
Definition set_gases (status enable : option G) (base : Z) (r : gpe_register) : gpe_register := {|
  r_status := status; r_enable := enable; runtime_mask := runtime_mask r; wake_mask := wake_mask r;
  masked_mask := masked_mask r; current_mask := current_mask r; r_base_idx := base |}.

Definition set_registers (l : list gpe_register) (b : gpe_block) : gpe_block := {|
  b_prev := b_prev b; b_next := b_next b; device_node := device_node b; registers := Some l; events := events b;
  irq_ctx := irq_ctx b; num_registers := num_registers b; num_events := num_events b; b_base_idx := b_base_idx b |}.
Definition set_events (l : list gp_event) (b : gpe_block) : gpe_block := {|
  b_prev := b_prev b; b_next := b_next b; device_node := device_node b; registers := registers b; events := Some l;
  irq_ctx := irq_ctx b; num_registers := num_registers b; num_events := num_events b; b_base_idx := b_base_idx b |}.
Definition set_links (n ctx : Z) (b : gpe_block) : gpe_block := {|
  b_prev := b_prev b; b_next := n; device_node := device_node b; registers := registers b; events := events b;
  irq_ctx := ctx; num_registers := num_registers b; num_events := num_events b; b_base_idx := b_base_idx b |}.

Definition set_gpe_head (x : Z) (c : gpe_interrupt_ctx) : gpe_interrupt_ctx := {|
  c_prev := c_prev c; c_next := c_next c; gpe_head := x; irq_handle := irq_handle c; irq := irq c |}.
Definition set_c_next (x : Z) (c : gpe_interrupt_ctx) : gpe_interrupt_ctx := {|
  c_prev := c_prev c; c_next := x; gpe_head := gpe_head c; irq_handle := irq_handle c; irq := irq c |}.
End Data.
Arguments gpe_register G : clear implicits.
Arguments gpe_block G : clear implicits.
Arguments event_state G : clear implicits.
Arguments st W G : clear implicits.

Definition set_users (n : Z) (e : gp_event) : gp_event := {|
  any_handler := any_handler e; e_reg := e_reg e; e_idx := e_idx e; num_users := n; handler_type := handler_type e;
  triggering := triggering e; wake := wake e; block_interrupts := block_interrupts e |}.
Definition set_handler (h : Z) (t : gpe_handler_type) (trig : Z) (e : gp_event) : gp_event := {|
  any_handler := h; e_reg := e_reg e; e_idx := e_idx e; num_users := num_users e; handler_type := t;
  triggering := trig; wake := wake e; block_interrupts := block_interrupts e |}.
Definition set_wake (b : bool) (e : gp_event) : gp_event := {|
  any_handler := any_handler e; e_reg := e_reg e; e_idx := e_idx e; num_users := num_users e;
  handler_type := handler_type e; triggering := triggering e; wake := b; block_interrupts := block_interrupts e |}.
Definition set_block (b : bool) (e : gp_event) : gp_event := {|
  any_handler := any_handler e; e_reg := e_reg e; e_idx := e_idx e; num_users := num_users e;
  handler_type := handler_type e; triggering := triggering e; wake := wake e; block_interrupts := b |}.
Definition set_place_of (reg idx : Z) (e : gp_event) : gp_event := {|
  any_handler := any_handler e; e_reg := Some reg; e_idx := idx; num_users := num_users e;
  handler_type := handler_type e; triggering := triggering e; wake := wake e; block_interrupts := block_interrupts e |}.

(** A pointer to an event: its block and its index there. *)
Abbreviation event_ptr := (Z * Z)%type.

(** ** Interfaces *)

(** Work that is queued for later, and the entries of interrupt handlers. *)
Inductive work := RUN_GPE_HANDLER (p : event_ptr) | RESTORE_GPE (p : event_ptr).
Inductive irq_entry := HANDLE_SCI (ctx : Z) | HANDLE_GPES (ctx : Z).

Class EventHost (W G : Type) := {
  (** memory for a structure of the given size (0 when there is none) *)
  kernel_alloc_struct : Z -> SM (st W G) Z;
  call_gpe_handler : Z -> Z -> Z -> Z -> SM (st W G) Z;        (* function, context, device, index *)
  call_interrupt_handler : Z -> Z -> SM (st W G) Z;
  kernel_install_interrupt_handler : Z -> irq_entry -> SM W (uacpi_status * Z);
  kernel_uninstall_interrupt_handler : Z -> SM W unit;
  kernel_schedule_work : work -> SM W uacpi_status;
  (** work in flight may run to its end *)
  kernel_wait_for_work_completion : SM (st W G) unit;
  kernel_create_spinlock : SM W Z;
  kernel_free_spinlock : Z -> SM W unit;
  kernel_lock_spinlock : Z -> SM W Z;
  kernel_unlock_spinlock : Z -> Z -> SM W unit;
  kernel_create_event : SM W Z;
  kernel_signal_event : Z -> SM W unit;
  (** namespace.c, notify.c and the interpreter *)
  ns_write_lock : SM W uacpi_status;
  ns_write_unlock : SM W unit;
  node_is_method : Z -> SM W bool;
  node_is_device : Z -> SM W (uacpi_status * bool);
  execute_method : Z -> SM (st W G) uacpi_status;
  notify_all : Z -> Z -> SM (st W G) uacpi_status;
  (** the methods below a node that a walk over it passes to its callback, by name *)
  methods_below : Z -> SM W (list (Z * list Z))
}.

Class EventLock (W : Type) := {
  event_lock_init : SM W uacpi_status;
  event_lock_deinit : SM W unit;
  event_lock_acquire : SM W uacpi_status;
  event_lock_release : SM W unit
}.

(** [g_event_lock]: the recursive lock of mutex.c. *)
Section Lock.
Context {V : Type} {MK : MutexKernel V}.

Definition on_event_lock (f : uacpi_recursive_lock -> SM (Mutex.state V) (uacpi_status * uacpi_recursive_lock)) :
    SM (uacpi_recursive_lock * Mutex.state V) uacpi_status := fun lw =>
  match f (fst lw) (snd lw) with Some ((ret, l'), w') => Some (ret, (l', w')) | None => None end.

#[export] Instance recursive_event_lock : EventLock (uacpi_recursive_lock * Mutex.state V) := {|
  event_lock_init := on_event_lock uacpi_recursive_lock_init;
  event_lock_deinit := on_event_lock uacpi_recursive_lock_deinit;; mret tt;
  event_lock_acquire := on_event_lock uacpi_recursive_lock_acquire;
  event_lock_release := on_event_lock uacpi_recursive_lock_release;; mret tt |}.
End Lock.

(** ** Operations *)

Section Operations.
Context {W G : Type} {GO : GasOps W G} {EH : EventHost W G} {EL : EventLock W}.

Abbreviation M := (SM (st W G)).

(** Operations of registers.c and of the world below it. *)
Definition in_regs {A} (c : SM (Registers.state W G) A) : M A := fun s =>
  match c (regs s) with Some (a, r) => Some (a, {| ev := ev s; regs := r |}) | None => None end.
Definition host {A} (c : SM W A) : M A := in_regs (Registers.in_world c).

Definition gets {A} (f : event_state G -> A) : M A := gets_state (fun s => f (ev s)).
Definition modify (f : event_state G -> event_state G) : M unit :=
  update_state (fun s => {| ev := f (ev s); regs := regs s |}).
Definition of_opt {A} (o : option A) : M A := match o with Some a => mret a | None => undefined end.

Definition get_block (b : Z) : M (gpe_block G) := m ← gets blocks; of_opt (m !! b).
Definition put_block (b : Z) (x : gpe_block G) : M unit := modify (fun s => set_blocks (<[b := x]> (blocks s)) s).
Definition get_ctx (c : Z) : M gpe_interrupt_ctx := m ← gets ctxs; of_opt (m !! c).
Definition put_ctx (c : Z) (x : gpe_interrupt_ctx) : M unit := modify (fun s => set_ctxs (<[c := x]> (ctxs s)) s).
Definition get_native (p : Z) : M gpe_native_handler := m ← gets natives; of_opt (m !! p).
Definition put_native (p : Z) (x : gpe_native_handler) : M unit :=
  modify (fun s => set_natives (<[p := x]> (natives s)) s).
Definition free_native (p : Z) : M unit := modify (fun s => set_natives (delete p (natives s)) s).

(** [&block->registers[i]] and [&block->events[i]]; outside the arrays undefined. *)
Definition nth_at {A} (l : option (list A)) (i : Z) : option A :=
  l ← l; if i <? 0 then None else l !! Z.to_nat i.

Definition get_register (b i : Z) : M (gpe_register G) := x ← get_block b; of_opt (nth_at (registers x) i).
Definition put_register (b i : Z) (r : gpe_register G) : M unit :=
  x ← get_block b; l ← of_opt (registers x); put_block b (set_registers (<[Z.to_nat i := r]> l) x).

Definition get_event (p : event_ptr) : M gp_event := x ← get_block (fst p); of_opt (nth_at (events x) (snd p)).
Definition put_event (p : event_ptr) (e : gp_event) : M unit :=
  x ← get_block (fst p); l ← of_opt (events x); put_block (fst p) (set_events (<[Z.to_nat (snd p) := e]> l) x).
Definition update_event (p : event_ptr) (f : gp_event -> gp_event) : M unit := e ← get_event p; put_event p (f e).

(** [event->reg] *)
Definition reg_of (p : event_ptr) : M Z := e ← get_event p; of_opt (e_reg e).
Definition event_register (p : event_ptr) : M (gpe_register G) := i ← reg_of p; get_register (fst p) i.
Definition update_event_register (p : event_ptr) (f : gpe_register G -> gpe_register G) : M unit :=
  i ← reg_of p; r ← get_register (fst p) i; put_register (fst p) i (f r).

(** Accesses to the hardware through a mapped address of a register. *)
Definition read_gas (g : option G) : M (uacpi_status * Z) := g ← of_opt g; host (gas_read_mapped g).
Definition write_gas (g : option G) (v : Z) : M uacpi_status := g ← of_opt g; host (gas_write_mapped g v).

(** UACPI_ENSURE_INIT_LEVEL_AT_LEAST *)
Definition ensure_level {A} (lvl : Z) (fail : uacpi_status -> A) (k : M A) : M A :=
  l ← gets (fun s => rt_init_level (ert s));
  if l <? lvl then mret (fail UACPI_STATUS_INIT_LEVEL_MISMATCH) else k.

Definition LEVEL_SUBSYSTEM_INITIALIZED : Z := 1.
Definition LEVEL_NAMESPACE_LOADED : Z := 2.

(** A body between the acquisition of [g_event_lock] and its release. *)
Definition locked {A} (fail : uacpi_status -> A) (k : M A) : M A :=
  ret ← host event_lock_acquire;
  if negb (is_ok ret) then mret (fail ret) else
  r ← k; host event_lock_release;; mret r.

(** *** Fixed events *)

Definition fixed_event_at (i : Z) : M fixed_event := of_opt (if i <? 0 then None else fixed_events !! Z.to_nat i).
Definition fixed_handler_at (i : Z) : M fixed_event_handler :=
  l ← gets fixed_event_handlers; of_opt (if i <? 0 then None else l !! Z.to_nat i).
Definition put_fixed_handler (i : Z) (h : fixed_event_handler) : M unit :=
  modify (fun s => set_fixed (<[Z.to_nat i := h]> (fixed_event_handlers s)) s).

(** [for (i = 0; i < UACPI_FIXED_EVENT_MAX; ++i)] *)
Definition fixed_indices : list Z := seqZ 0 UACPI_FIXED_EVENT_MAX.

Fixpoint disable_fixed (l : list Z) : M unit :=
  match l with
  | [] => mret tt
  | i :: l' =>
      e ← fixed_event_at i;
      in_regs (uacpi_write_register_field (enable_field e) UACPI_EVENT_DISABLED);; disable_fixed l'
  end.

Definition initialize_fixed_events : M uacpi_status := disable_fixed fixed_indices;; mret UACPI_STATUS_OK.

Definition set_event (event value : Z) : M uacpi_status :=
  e ← fixed_event_at event;
  ret ← in_regs (uacpi_write_register_field (enable_field e) value);
  if negb (is_ok ret) then mret ret else
  r ← in_regs (uacpi_read_register_field (enable_field e));
  let '(ret, raw_value) := (r : uacpi_status * Z) in
  if negb (is_ok ret) then mret ret else
  if negb (raw_value =? value) then mret UACPI_STATUS_HARDWARE_TIMEOUT else mret UACPI_STATUS_OK.

(** What the operations on a fixed event check first. *)
Definition checked_event {A} (event : Z) (fail : uacpi_status -> A) (reduced : uacpi_status) (k : M A) : M A :=
  ensure_level LEVEL_SUBSYSTEM_INITIALIZED fail (
    if (event <? 0) || (UACPI_FIXED_EVENT_MAX <? event) then mret (fail UACPI_STATUS_INVALID_ARGUMENT) else
    hw_reduced ← gets (fun s => rt_hardware_reduced (ert s));
    if (hw_reduced : bool) then mret (fail reduced) else k).

Definition is_no_handler (h : interrupt_handler) : bool := match h with NO_HANDLER => true | _ => false end.

Definition uacpi_enable_fixed_event (event : Z) : M uacpi_status :=
  checked_event event id UACPI_STATUS_OK (locked id (
    h ← fixed_handler_at event;
    if is_no_handler (fh_handler h) then mret UACPI_STATUS_NO_HANDLER else set_event event UACPI_EVENT_ENABLED)).

Definition uacpi_disable_fixed_event (event : Z) : M uacpi_status :=
  checked_event event id UACPI_STATUS_OK (locked id (set_event event UACPI_EVENT_DISABLED)).

Definition uacpi_clear_fixed_event (event : Z) : M uacpi_status :=
  checked_event event id UACPI_STATUS_OK (
    e ← fixed_event_at event;
    in_regs (uacpi_write_register_field (status_field e) ACPI_PM1_STS_CLEAR)).

Definition handle_global_lock : M Z :=
  has ← gets (fun s => rt_has_global_lock (ert s));
  if negb has then mret UACPI_INTERRUPT_HANDLED else
  spinlock ← gets (fun s => rt_global_lock_spinlock (ert s));
  flags ← host (kernel_lock_spinlock spinlock);
  pending ← gets (fun s => rt_global_lock_pending (ert s));
  (if (pending : bool) then
     e ← gets (fun s => rt_global_lock_event (ert s));
     host (kernel_signal_event e);;
     modify (set_ert (fun x => set_global_lock (rt_has_global_lock x) false (rt_global_lock_event x)
       (rt_global_lock_spinlock x) x))
   else mret tt);;
  host (kernel_unlock_spinlock spinlock flags);;
  mret UACPI_INTERRUPT_HANDLED.

(** [evh->handler(evh->ctx)] *)
Definition run_handler (h : interrupt_handler) (ctx : Z) : M Z :=
  match h with
  | NO_HANDLER => undefined
  | HANDLE_GLOBAL_LOCK => handle_global_lock
  | HOST_HANDLER cb => call_interrupt_handler cb ctx
  end.

Definition dispatch_fixed_event (e : fixed_event) (event : Z) : M Z :=
  ret ← in_regs (uacpi_write_register_field (status_field e) ACPI_PM1_STS_CLEAR);
  if negb (is_ok ret) then mret UACPI_INTERRUPT_NOT_HANDLED else
  evh ← fixed_handler_at event;
  if is_no_handler (fh_handler evh) then
    in_regs (uacpi_write_register_field (enable_field e) UACPI_EVENT_DISABLED);;
    mret UACPI_INTERRUPT_NOT_HANDLED
  else run_handler (fh_handler evh) (fh_ctx evh).

Fixpoint dispatch_fixed (l : list Z) (status enable int_ret : Z) : M Z :=
  match l with
  | [] => mret int_ret
  | i :: l' =>
      e ← fixed_event_at i;
      if (Z.land status (status_mask e) =? 0) || (Z.land enable (enable_mask e) =? 0)
      then dispatch_fixed l' status enable int_ret
      else r ← dispatch_fixed_event e i; dispatch_fixed l' status enable (Z.lor int_ret r)
  end.

Definition handle_fixed_events : M Z :=
  r ← in_regs (uacpi_read_register PM1_STS);
  if negb (is_ok (fst r)) then mret UACPI_INTERRUPT_NOT_HANDLED else
  e ← in_regs (uacpi_read_register PM1_EN);
  if negb (is_ok (fst e)) then mret UACPI_INTERRUPT_NOT_HANDLED else
  dispatch_fixed fixed_indices (snd r) (snd e) UACPI_INTERRUPT_NOT_HANDLED.

Definition uacpi_install_fixed_event_handler (event : Z) (handler : interrupt_handler) (user : Z) : M uacpi_status :=
  checked_event event id UACPI_STATUS_OK (locked id (
    h ← fixed_handler_at event;
    if negb (is_no_handler (fh_handler h)) then mret UACPI_STATUS_ALREADY_EXISTS else
    put_fixed_handler event {| fh_handler := handler; fh_ctx := user |};;
    ret ← set_event event UACPI_EVENT_ENABLED;
    (if negb (is_ok ret) then put_fixed_handler event no_fixed_handler else mret tt);;
    mret ret)).

Definition uacpi_uninstall_fixed_event_handler (event : Z) : M uacpi_status :=
  checked_event event id UACPI_STATUS_OK (locked id (
    ret ← set_event event UACPI_EVENT_DISABLED;
    if negb (is_ok ret) then mret ret else
    kernel_wait_for_work_completion;;
    put_fixed_handler event no_fixed_handler;;
    mret ret)).

Definition UACPI_EVENT_INFO_ENABLED : Z := 1.
Definition UACPI_EVENT_INFO_ENABLED_FOR_WAKE : Z := 2.
Definition UACPI_EVENT_INFO_MASKED : Z := 4.
Definition UACPI_EVENT_INFO_HAS_HANDLER : Z := 8.
Definition UACPI_EVENT_INFO_HW_ENABLED : Z := 16.
Definition UACPI_EVENT_INFO_HW_STATUS : Z := 32.

Definition flag_if (b : bool) (flag info : Z) : Z := if b then Z.lor info flag else info.

(** [None]: [*out_info] is not written. *)
Definition uacpi_fixed_event_info (event : Z) : M (uacpi_status * option Z) :=
  checked_event event (fun ret => (ret, None)) UACPI_STATUS_NOT_FOUND (locked (fun ret => (ret, None)) (
    h ← fixed_handler_at event;
    let info := flag_if (negb (is_no_handler (fh_handler h))) UACPI_EVENT_INFO_HAS_HANDLER 0 in
    e ← fixed_event_at event;
    r ← in_regs (uacpi_read_register_field (enable_field e));
    if negb (is_ok (fst r)) then mret (fst r, None) else
    let info := flag_if (negb (snd r =? 0)) (Z.lor UACPI_EVENT_INFO_ENABLED UACPI_EVENT_INFO_HW_ENABLED) info in
    r ← in_regs (uacpi_read_register_field (status_field e));
    if negb (is_ok (fst r)) then mret (fst r, None) else
    mret (UACPI_STATUS_OK, Some (flag_if (negb (snd r =? 0)) UACPI_EVENT_INFO_HW_STATUS info)))).

(** *** The state of a GPE *)

(** [1 << (event->idx - event->reg->base_idx)]; other shifts are undefined. *)
Definition gpe_get_mask (p : event_ptr) : M Z :=
  e ← get_event p; r ← event_register p;
  let n := e_idx e - r_base_idx r in
  if (0 <=? n) && (n <? 31) then mret (u8 (Z.shiftl 1 n)) else undefined.

Inductive gpe_state := GPE_STATE_ENABLED | GPE_STATE_ENABLED_CONDITIONALLY | GPE_STATE_DISABLED.

Definition is_disabled (x : gpe_state) : bool := match x with GPE_STATE_DISABLED => true | _ => false end.
Definition is_conditional (x : gpe_state) : bool := match x with GPE_STATE_ENABLED_CONDITIONALLY => true | _ => false end.

(** The read and write of the enable register under the spinlock. *)
Definition change_enable (r : gpe_register G) (event_bit : Z) (on : bool) : M uacpi_status :=
  slock ← gets g_gpe_state_slock;
  flags ← host (kernel_lock_spinlock slock);
  v ← read_gas (r_enable r);
  ret ← (if negb (is_ok (fst v)) then mret (fst v) else
         write_gas (r_enable r) (if on then Z.lor (snd v) event_bit else Z.ldiff (snd v) event_bit));
  host (kernel_unlock_spinlock slock flags);;
  mret ret.

Definition set_gpe_state (p : event_ptr) (x : gpe_state) : M uacpi_status :=
  event_bit ← gpe_get_mask p;
  r ← event_register p;
  if negb (is_disabled x) && negb (Z.land (masked_mask r) event_bit =? 0) then mret UACPI_STATUS_OK else
  if is_conditional x && (Z.land (current_mask r) event_bit =? 0) then mret UACPI_STATUS_OK else
  change_enable r event_bit (negb (is_disabled x)).

Definition clear_gpe (p : event_ptr) : M uacpi_status :=
  r ← event_register p; m ← gpe_get_mask p; write_gas (r_status r) m.

Definition restore_gpe (p : event_ptr) : M uacpi_status :=
  e ← get_event p;
  ret ← (if triggering e =? UACPI_GPE_TRIGGERING_LEVEL then clear_gpe p else mret UACPI_STATUS_OK);
  if negb (is_ok ret) then mret ret else
  ret ← set_gpe_state p GPE_STATE_ENABLED_CONDITIONALLY;
  update_event p (set_block false);;
  mret ret.

Definition async_restore_gpe (p : event_ptr) : M unit := restore_gpe p;; mret tt.

Definition implicit_fuel : M nat := gets (fun s => S (size (implicits s))).

(** [while (handler) { uacpi_notify_all(handler->device, 2); handler = handler->next; }] *)
Fixpoint notify_implicit (fuel : nat) (handler : Z) : M unit :=
  match fuel with
  | O => undefined
  | S fuel' =>
      if handler =? 0 then mret tt else
      m ← gets implicits; h ← of_opt (m !! handler);
      notify_all (fst h) 2;;
      m ← gets implicits; h ← of_opt (m !! handler);
      notify_implicit fuel' (snd h)
  end.

(** The switch over the handlers that uACPI runs by itself. *)
Definition run_automatic (e : gp_event) : M unit :=
  match handler_type e with
  | GPE_HANDLER_TYPE_AML_HANDLER =>
      ok ← host (node_is_method (any_handler e));
      if (ok : bool) then execute_method (any_handler e);; mret tt else mret tt
  | GPE_HANDLER_TYPE_IMPLICIT_NOTIFY => fuel ← implicit_fuel; notify_implicit fuel (any_handler e)
  | _ => mret tt
  end.

(** What is done under the lock of the namespace. *)
Definition handle_locked (p : event_ptr) : M unit :=
  ret ← host ns_write_lock;
  if negb (is_ok ret) then mret tt else
  e ← get_event p; run_automatic e;; host ns_write_unlock.

Definition async_run_gpe_handler (p : event_ptr) : M unit :=
  handle_locked p;;
  ret ← host (kernel_schedule_work (RESTORE_GPE p));
  if negb (is_ok ret) then async_restore_gpe p else mret tt.

Definition call_native (p : event_ptr) (device : Z) : M Z :=
  e ← get_event p; h ← get_native (any_handler e); call_gpe_handler (n_cb h) (n_ctx h) device (e_idx e).

(** The switch at the end of [dispatch_gpe]. *)
Definition run_gpe (p : event_ptr) (device : Z) : M unit :=
  e ← get_event p;
  match handler_type e with
  | GPE_HANDLER_TYPE_NATIVE_HANDLER =>
      int_ret ← call_native p device;
      if Z.land int_ret UACPI_GPE_REENABLE =? 0 then mret tt else restore_gpe p;; mret tt
  | GPE_HANDLER_TYPE_AML_HANDLER | GPE_HANDLER_TYPE_IMPLICIT_NOTIFY =>
      host (kernel_schedule_work (RUN_GPE_HANDLER p));; mret tt
  | _ => mret tt
  end.

Definition dispatch_gpe (device : Z) (p : event_ptr) : M Z :=
  e ← get_event p;
  if bool_decide (handler_type e = GPE_HANDLER_TYPE_NATIVE_HANDLER_RAW) then call_native p device else
  ret ← set_gpe_state p GPE_STATE_DISABLED;
  if negb (is_ok ret) then mret UACPI_INTERRUPT_NOT_HANDLED else
  update_event p (set_block true);;
  ret ← (if triggering e =? UACPI_GPE_TRIGGERING_EDGE then clear_gpe p else mret UACPI_STATUS_OK);
  if negb (is_ok ret) then
    set_gpe_state p GPE_STATE_ENABLED_CONDITIONALLY;; mret UACPI_INTERRUPT_NOT_HANDLED
  else
  run_gpe p device;;
  mret UACPI_INTERRUPT_HANDLED.

(** *** Interrupts *)

(** [for (j = 0; j < EVENTS_PER_GPE_REGISTER; ++j)] over the bits of [active]. *)
Fixpoint detect_events (n : nat) (j : Z) (b i active int_ret : Z) : M Z :=
  match n with
  | O => mret int_ret
  | S n' =>
      if Z.land active (Z.shiftl 1 j) =? 0 then detect_events n' (j + 1) b i active int_ret else
      x ← get_block b;
      r ← dispatch_gpe (device_node x) (b, j + i * EVENTS_PER_GPE_REGISTER);
      detect_events n' (j + 1) b i active (Z.lor int_ret r)
  end.

(** The registers from [i] on, [n] of which are left; [false] when the function returns
    because a register cannot be read. *)
Fixpoint detect_registers (n : nat) (b i int_ret : Z) : M (bool * Z) :=
  match n with
  | O => mret (true, int_ret)
  | S n' =>
      r ← get_register b i;
      if (runtime_mask r =? 0) && (wake_mask r =? 0) then detect_registers n' b (i + 1) int_ret else
      status ← read_gas (r_status r);
      if negb (is_ok (fst status)) then mret (false, int_ret) else
      enable ← read_gas (r_enable r);
      if negb (is_ok (fst enable)) then mret (false, int_ret) else
      if snd status =? 0 then detect_registers n' b (i + 1) int_ret else
      int_ret ← detect_events 8 0 b i (Z.land (snd status) (snd enable)) int_ret;
      detect_registers n' b (i + 1) int_ret
  end.

(** [while (block)] *)
Fixpoint detect_blocks (fuel : nat) (b int_ret : Z) : M Z :=
  match fuel with
  | O => undefined
  | S fuel' =>
      if b =? 0 then mret int_ret else
      x ← get_block b;
      r ← detect_registers (Z.to_nat (num_registers x)) b 0 int_ret;
      let '(go_on, int_ret) := (r : bool * Z) in
      if negb go_on then mret int_ret else
      x ← get_block b;
      detect_blocks fuel' (b_next x) int_ret
  end.

(** A walk over blocks or contexts visits each at most once. *)
Definition block_fuel : M nat := gets (fun s => S (size (blocks s))).
Definition ctx_fuel : M nat := gets (fun s => S (size (ctxs s))).

Definition detect_gpes (b : Z) : M Z := fuel ← block_fuel; detect_blocks fuel b UACPI_INTERRUPT_NOT_HANDLED.

Definition maybe_dispatch_gpe (gpe_device : Z) (p : event_ptr) : M uacpi_status :=
  r ← event_register p;
  status ← read_gas (r_status r);
  if negb (is_ok (fst status)) then mret (fst status) else
  m ← gpe_get_mask p;
  if Z.land (snd status) m =? 0 then mret (fst status) else
  dispatch_gpe gpe_device p;; mret (fst status).

Definition handle_gpes (ctx : Z) : M Z :=
  if ctx =? 0 then mret UACPI_INTERRUPT_NOT_HANDLED else
  c ← get_ctx ctx; detect_gpes (gpe_head c).

Definition handle_sci (ctx : Z) : M Z :=
  x ← handle_fixed_events; y ← handle_gpes ctx;
  mret (Z.lor (Z.lor UACPI_INTERRUPT_NOT_HANDLED x) y).

(** *** Blocks and interrupt contexts *)

(** [while (entry)]: the context of an interrupt, 0 when there is none. *)
Fixpoint find_ctx (fuel : nat) (entry irq_ : Z) : M Z :=
  match fuel with
  | O => undefined
  | S fuel' =>
      if entry =? 0 then mret 0 else
      c ← get_ctx entry; if irq c =? irq_ then mret entry else find_ctx fuel' (c_next c) irq_
  end.

Definition sizeof_ctx : Z := 40.
Definition sizeof_block : Z := 56.
Definition sizeof_native : Z := 32.
Definition sizeof_implicit : Z := 16.

Definition find_or_create_gpe_interrupt_ctx (irq_ : Z) : M (uacpi_status * Z) :=
  head ← gets g_gpe_interrupt_head;
  fuel ← ctx_fuel;
  found ← find_ctx fuel head irq_;
  if negb (found =? 0) then mret (UACPI_STATUS_OK, found) else
  entry ← kernel_alloc_struct sizeof_ctx;
  if entry =? 0 then mret (UACPI_STATUS_OUT_OF_MEMORY, 0) else
  sci_int ← gets (fun s => rt_sci_int (ert s));
  r ← (if negb (irq_ =? sci_int) then host (kernel_install_interrupt_handler irq_ (HANDLE_GPES entry))
       else mret (UACPI_STATUS_OK, 0));
  let '(ret, handle) := (r : uacpi_status * Z) in
  if negb (is_ok ret) then mret (ret, 0) else
  head ← gets g_gpe_interrupt_head;
  put_ctx entry {| c_prev := 0; c_next := head; gpe_head := 0; irq_handle := handle; irq := irq_ |};;
  modify (set_head entry);;
  mret (UACPI_STATUS_OK, entry).

(** [while (handler)]: the nodes of the list are freed. *)
Fixpoint release_implicit (fuel : nat) (handler : Z) : M unit :=
  match fuel with
  | O => undefined
  | S fuel' =>
      if handler =? 0 then mret tt else
      m ← gets implicits; h ← of_opt (m !! handler);
      modify (fun s => set_implicits (delete handler (implicits s)) s);;
      release_implicit fuel' (snd h)
  end.

Definition gpe_release_implicit_notify_handlers (p : event_ptr) : M unit :=
  e ← get_event p; fuel ← implicit_fuel;
  release_implicit fuel (any_handler e);;
  update_event p (fun e => set_handler 0 (handler_type e) (triggering e) e).

Inductive gpe_block_action :=
  | GPE_BLOCK_ACTION_DISABLE_ALL
  | GPE_BLOCK_ACTION_ENABLE_ALL_FOR_RUNTIME
  | GPE_BLOCK_ACTION_ENABLE_ALL_FOR_WAKE
  | GPE_BLOCK_ACTION_CLEAR_ALL.

Definition action_value (action : gpe_block_action) (r : gpe_register G) : option Z :=
  match action with
  | GPE_BLOCK_ACTION_DISABLE_ALL => Some 0
  | GPE_BLOCK_ACTION_ENABLE_ALL_FOR_RUNTIME => Some (Z.ldiff (runtime_mask r) (masked_mask r))
  | GPE_BLOCK_ACTION_ENABLE_ALL_FOR_WAKE => Some (wake_mask r)
  | GPE_BLOCK_ACTION_CLEAR_ALL => None
  end.

Fixpoint apply_action (n : nat) (b i : Z) (action : gpe_block_action) : M uacpi_status :=
  match n with
  | O => mret UACPI_STATUS_OK
  | S n' =>
      r ← get_register b i;
      ret ← (match action_value action r with
             | None => write_gas (r_status r) 0xff
             | Some value => put_register b i (set_current value r);; write_gas (r_enable r) value
             end);
      if negb (is_ok ret) then mret ret else apply_action n' b (i + 1) action
  end.

Definition gpe_block_apply_action (b : Z) (action : gpe_block_action) : M uacpi_status :=
  x ← get_block b; apply_action (Z.to_nat (num_registers x)) b 0 action.

Fixpoint mask_registers (n : nat) (b i : Z) : M unit :=
  match n with
  | O => mret tt
  | S n' =>
      r ← get_register b i;
      (if current_mask r =? 0 then mret tt else
       put_register b i (set_masked 0xff r);;
       kernel_wait_for_work_completion;;
       r ← get_register b i;
       write_gas (r_enable r) 0;;
       kernel_wait_for_work_completion);;
      mask_registers n' b (i + 1)
  end.

Definition gpe_block_mask_safe (b : Z) : M unit :=
  x ← get_block b; mask_registers (Z.to_nat (num_registers x)) b 0.

Definition unmap_if (g : option G) : M unit :=
  match g with Some g => host (unmap_gas_nofree g) | None => mret tt end.

Fixpoint unmap_registers (n : nat) (b i : Z) : M unit :=
  match n with
  | O => mret tt
  | S n' =>
      r ← get_register b i; unmap_if (r_enable r);; unmap_if (r_status r);; unmap_registers n' b (i + 1)
  end.

Definition set_next_block (b n : Z) : M unit := x ← get_block b; put_block b (set_links n (irq_ctx x) x).

(** [while (prev_block)]: the block is taken out of the list of its context. *)
Fixpoint unlink_block (fuel : nat) (prev b next : Z) : M unit :=
  match fuel with
  | O => undefined
  | S fuel' =>
      if prev =? 0 then mret tt else
      x ← get_block prev;
      if b_next x =? b then set_next_block prev next else unlink_block fuel' (b_next x) b next
  end.

(** The context of a block that goes: it is freed with its last block. *)
Definition leave_ctx (b ctx : Z) : M unit :=
  c ← get_ctx ctx;
  x ← get_block b;
  (if b =? gpe_head c then put_ctx ctx (set_gpe_head (b_next x) c)
   else fuel ← block_fuel; unlink_block fuel (gpe_head c) b (b_next x));;
  c ← get_ctx ctx;
  if negb (gpe_head c =? 0) then mret tt else
  (if negb (c_prev c =? 0) then p ← get_ctx (c_prev c); put_ctx (c_prev c) (set_c_next (c_next c) p) else mret tt);;
  sci_int ← gets (fun s => rt_sci_int (ert s));
  (if negb (irq c =? sci_int) then host (kernel_uninstall_interrupt_handler (irq_handle c)) else mret tt);;
  modify (fun s => set_ctxs (delete ctx (ctxs s)) s).

Fixpoint release_handlers (n : nat) (b i : Z) : M unit :=
  match n with
  | O => mret tt
  | S n' =>
      e ← get_event (b, i);
      (match handler_type e with
       | GPE_HANDLER_TYPE_NATIVE_HANDLER | GPE_HANDLER_TYPE_NATIVE_HANDLER_RAW => free_native (any_handler e)
       | GPE_HANDLER_TYPE_IMPLICIT_NOTIFY => gpe_release_implicit_notify_handlers (b, i)
       | _ => mret tt
       end);;
      release_handlers n' b (i + 1)
  end.

Definition uninstall_gpe_block (b : Z) : M unit :=
  x ← get_block b;
  (match registers x with
   | Some _ => gpe_block_mask_safe b;; unmap_registers (Z.to_nat (num_registers x)) b 0
   | None => mret tt
   end);;
  x ← get_block b;
  (if negb (b_prev x =? 0) then set_next_block (b_prev x) (b_next x) else mret tt);;
  (if negb (irq_ctx x =? 0) then leave_ctx b (irq_ctx x) else mret tt);;
  x ← get_block b;
  (match events x with Some _ => release_handlers (Z.to_nat (num_events x)) b 0 | None => mret tt end);;
  modify (fun s => set_blocks (delete b (blocks s)) s).

(** The pointer, which may lead one past the array ([None] is the null pointer). *)
Definition gpe_from_block (b idx : Z) : M (option event_ptr) :=
  x ← get_block b;
  if idx <? b_base_idx x then mret None else
  let offset := u16 (idx - b_base_idx x) in
  if num_events x <? offset then mret None else mret (Some (b, offset)).

(** *** AML handlers *)

(** [Some] triggering for names of the form _Lxx and _Exx. *)
Definition method_triggering (nm : list Z) : option Z :=
  match nm with
  | 95 :: 76 :: _ => Some UACPI_GPE_TRIGGERING_LEVEL
  | 95 :: 69 :: _ => Some UACPI_GPE_TRIGGERING_EDGE
  | _ => None
  end.

(** One method of the walk; the number of events that were matched. *)
Definition do_match_gpe_methods (b node : Z) (nm : list Z) (matched_count : Z) : M Z :=
  match method_triggering nm with
  | None => mret matched_count
  | Some trig =>
      let '(ret, idx) := uacpi_string_to_integer (drop 2 nm) UACPI_BASE_HEX in
      if negb (is_ok ret) then mret matched_count else
      event ← gpe_from_block b (u16 idx);
      match event with
      | None => mret matched_count
      | Some p =>
          e ← get_event p;
          match handler_type e with
          | GPE_HANDLER_TYPE_IMPLICIT_NOTIFY | GPE_HANDLER_TYPE_NONE =>
              (if bool_decide (handler_type e = GPE_HANDLER_TYPE_IMPLICIT_NOTIFY)
               then gpe_release_implicit_notify_handlers p else mret tt);;
              update_event p (set_handler node GPE_HANDLER_TYPE_AML_HANDLER trig);;
              mret (u32 (matched_count + 1))
          | _ => mret matched_count
          end
      end
  end.

Fixpoint match_methods (b : Z) (l : list (Z * list Z)) (matched_count : Z) : M Z :=
  match l with
  | [] => mret matched_count
  | (node, nm) :: l' => c ← do_match_gpe_methods b node nm matched_count; match_methods b l' c
  end.

Fixpoint match_blocks (fuel : nat) (b matched_count : Z) : M Z :=
  match fuel with
  | O => undefined
  | S fuel' =>
      if b =? 0 then mret matched_count else
      x ← get_block b;
      l ← host (methods_below (device_node x));
      c ← match_methods b l matched_count;
      x ← get_block b;
      match_blocks fuel' (b_next x) c
  end.

Fixpoint match_ctxs (fuel : nat) (ctx matched_count : Z) : M Z :=
  match fuel with
  | O => undefined
  | S fuel' =>
      if ctx =? 0 then mret matched_count else
      c ← get_ctx ctx;
      bf ← block_fuel;
      n ← match_blocks bf (gpe_head c) matched_count;
      c ← get_ctx ctx;
      match_ctxs fuel' (c_next c) n
  end.

Definition uacpi_events_match_post_dynamic_table_load : M unit :=
  host ns_write_unlock;;
  ret ← host event_lock_acquire;
  (if negb (is_ok ret) then mret tt else
   head ← gets g_gpe_interrupt_head; fuel ← ctx_fuel; match_ctxs fuel head 0;; mret tt);;
  host event_lock_release;;
  host ns_write_lock;; mret tt.

(** *** Creating a block *)

(** The eight events of register [i], from [event] on. *)
Fixpoint init_events (n : nat) (b i base event : Z) (j : Z) : M unit :=
  match n with
  | O => mret tt
  | S n' =>
      update_event (b, event) (set_place_of i (u16 (base + j)));; init_events n' b i base (event + 1) (j + 1)
  end.

Definition gpe_gas (address address_space_id : Z) : acpi_gas := {|
  address_space_id := address_space_id; register_bit_width := 8; register_bit_offset := 0; access_size := 0;
  address := address |}.

Definition init_register (b i base_idx address address_space_id num_registers : Z) : M uacpi_status :=
  let base := u16 (base_idx + u64 (i * EVENTS_PER_GPE_REGISTER)) in
  r ← get_register b i;
  put_register b i (set_gases (r_status r) (r_enable r) base r);;
  let addr := address +64 i in
  m ← host (map_gas_noalloc (Some (gpe_gas addr address_space_id)));
  if negb (is_ok (fst m)) then mret (fst m) else
  r ← get_register b i;
  put_register b i (set_gases (snd m) (r_enable r) base r);;
  m ← host (map_gas_noalloc (Some (gpe_gas (addr +64 num_registers) address_space_id)));
  if negb (is_ok (fst m)) then mret (fst m) else
  r ← get_register b i;
  put_register b i (set_gases (r_status r) (snd m) base r);;
  init_events 8 b i base (i * EVENTS_PER_GPE_REGISTER) 0;;
  r ← get_register b i;
  ret ← write_gas (r_enable r) 0;
  if negb (is_ok ret) then mret ret else write_gas (r_status r) 0xff.

Fixpoint init_registers (n : nat) (b i base_idx address address_space_id num_registers : Z) : M uacpi_status :=
  match n with
  | O => mret UACPI_STATUS_OK
  | S n' =>
      ret ← init_register b i base_idx address address_space_id num_registers;
      if negb (is_ok ret) then mret ret
      else init_registers n' b (i + 1) base_idx address address_space_id num_registers
  end.

Definition sizeof_register : Z := 88.
Definition sizeof_event : Z := 24.

(** The arrays, the registers and the interrupt context of a new block: the status. *)
Definition set_up_block (b device irq_ base_idx address address_space_id num_registers_ : Z) : M uacpi_status :=
  arr ← kernel_alloc_struct (num_registers_ * sizeof_register);
  if arr =? 0 then mret UACPI_STATUS_OUT_OF_MEMORY else
  x ← get_block b;
  put_block b (set_registers (replicate (Z.to_nat num_registers_) zeroed_register) x);;
  let n := u16 (num_registers_ * EVENTS_PER_GPE_REGISTER) in
  x ← get_block b;
  put_block b {| b_prev := b_prev x; b_next := b_next x; device_node := device_node x; registers := registers x;
    events := events x; irq_ctx := irq_ctx x; num_registers := num_registers x; num_events := n;
    b_base_idx := b_base_idx x |};;
  arr ← kernel_alloc_struct (n * sizeof_event);
  if arr =? 0 then mret UACPI_STATUS_OUT_OF_MEMORY else
  x ← get_block b;
  put_block b (set_events (replicate (Z.to_nat n) zeroed_event) x);;
  ret ← init_registers (Z.to_nat num_registers_) b 0 base_idx address address_space_id num_registers_;
  if negb (is_ok ret) then mret ret else
  r ← find_or_create_gpe_interrupt_ctx irq_;
  let '(ret, ctx) := (r : uacpi_status * Z) in
  if negb (is_ok ret) then mret ret else
  c ← get_ctx ctx;
  x ← get_block b;
  put_block b (set_links (gpe_head c) ctx x);;
  put_ctx ctx (set_gpe_head b c);;
  mret UACPI_STATUS_OK.

Definition create_gpe_block (device irq_ base_idx address address_space_id num_registers_ : Z) : M uacpi_status :=
  b ← kernel_alloc_struct sizeof_block;
  if b =? 0 then mret UACPI_STATUS_OUT_OF_MEMORY else
  put_block b {| b_prev := 0; b_next := 0; device_node := device; registers := None; events := None; irq_ctx := 0;
    num_registers := num_registers_; num_events := 0; b_base_idx := base_idx |};;
  ret ← set_up_block b device irq_ base_idx address address_space_id num_registers_;
  if negb (is_ok ret) then uninstall_gpe_block b;; mret ret else
  l ← host (methods_below device);
  match_methods b l 0;;
  mret UACPI_STATUS_OK.

(** *** Iteration over blocks *)

Section ForEachBlock.
Context {U : Type}.
(** The callback: the decision ([true] to go on) and the new context. *)
Variable cb : Z -> U -> M (bool * U).

Fixpoint for_each_block_of (fuel : nat) (b : Z) (u : U) : M (bool * U) :=
  match fuel with
  | O => undefined
  | S fuel' =>
      if b =? 0 then mret (true, u) else
      r ← cb b u;
      let '(go_on, u) := (r : bool * U) in
      if negb go_on then mret (false, u) else
      x ← get_block b; for_each_block_of fuel' (b_next x) u
  end.

Fixpoint for_each_ctx (fuel : nat) (ctx : Z) (u : U) : M U :=
  match fuel with
  | O => undefined
  | S fuel' =>
      if ctx =? 0 then mret u else
      c ← get_ctx ctx;
      bf ← block_fuel;
      r ← for_each_block_of bf (gpe_head c) u;
      let '(go_on, u) := (r : bool * U) in
      if negb go_on then mret u else
      c ← get_ctx ctx; for_each_ctx fuel' (c_next c) u
  end.

Definition for_each_gpe_block (u : U) : M U :=
  head ← gets g_gpe_interrupt_head; fuel ← ctx_fuel; for_each_ctx fuel head u.
End ForEachBlock.

(** [out_block] and [out_event] of a search. *)
Definition do_find_gpe (gpe_device idx : Z) (b : Z) (u : Z * option event_ptr) : M (bool * (Z * option event_ptr)) :=
  x ← get_block b;
  if negb (device_node x =? gpe_device) then mret (true, u) else
  e ← gpe_from_block b idx;
  mret (match e with None => true | Some _ => false end, (b, e)).

Definition get_gpe (gpe_device idx : Z) : M (option event_ptr) :=
  r ← for_each_gpe_block (do_find_gpe gpe_device idx) (0, None); mret (snd r).

(** *** Users *)

Definition gp_event_toggle_masks (p : event_ptr) (set_on : bool) : M unit :=
  this_mask ← gpe_get_mask p;
  update_event_register p (fun r =>
    let m := if set_on then Z.lor (runtime_mask r) this_mask else Z.ldiff (runtime_mask r) this_mask in
    set_masks m (wake_mask r) (masked_mask r) m r).

Definition gpe_remove_user (p : event_ptr) : M uacpi_status :=
  e ← get_event p;
  if num_users e =? 0 then mret UACPI_STATUS_INVALID_ARGUMENT else
  put_event p (set_users (num_users e - 1) e);;
  if negb (num_users e - 1 =? 0) then mret UACPI_STATUS_OK else
  gp_event_toggle_masks p false;;
  ret ← set_gpe_state p GPE_STATE_DISABLED;
  (if negb (is_ok ret) then
     gp_event_toggle_masks p true;; update_event p (fun e => set_users (num_users e + 1) e)
   else mret tt);;
  mret ret.

Definition gpe_add_user (p : event_ptr) (clear_if_first : bool) : M uacpi_status :=
  e ← get_event p;
  if num_users e =? 0xff then mret UACPI_STATUS_INVALID_ARGUMENT else
  put_event p (set_users (num_users e + 1) e);;
  if negb (num_users e + 1 =? 1) then mret UACPI_STATUS_OK else
  (if clear_if_first then clear_gpe p;; mret tt else mret tt);;
  gp_event_toggle_masks p true;;
  ret ← set_gpe_state p GPE_STATE_ENABLED;
  (if negb (is_ok ret) then
     gp_event_toggle_masks p false;; update_event p (fun e => set_users (num_users e - 1) e)
   else mret tt);;
  mret ret.

Definition gpe_needs_polling (p : event_ptr) : M bool :=
  e ← get_event p; mret (negb (num_users e =? 0) && (triggering e =? UACPI_GPE_TRIGGERING_EDGE)).

Definition gpe_mask_unmask (p : event_ptr) (should_mask : bool) : M uacpi_status :=
  m ← gpe_get_mask p;
  r ← event_register p;
  if should_mask then
    if negb (Z.land (masked_mask r) m =? 0) then mret UACPI_STATUS_INVALID_ARGUMENT else
    update_event_register p (fun r => set_masked (Z.lor (masked_mask r) m) r);;
    kernel_wait_for_work_completion;;
    set_gpe_state p GPE_STATE_DISABLED;;
    kernel_wait_for_work_completion;;
    mret UACPI_STATUS_OK
  else
    if Z.land (masked_mask r) m =? 0 then mret UACPI_STATUS_INVALID_ARGUMENT else
    update_event_register p (fun r => set_masked (Z.ldiff (masked_mask r) m) r);;
    e ← get_event p;
    (if negb (block_interrupts e) && negb (num_users e =? 0)
     then set_gpe_state p GPE_STATE_ENABLED_CONDITIONALLY;; mret tt else mret tt);;
    mret UACPI_STATUS_OK.

Definition gpe_mask_safe (p : event_ptr) : M bool :=
  r ← event_register p; m ← gpe_get_mask p;
  if Z.land (current_mask r) m =? 0 then mret false else gpe_mask_unmask p true;; mret true.

(** *** Finalisation *)

(** Over the events [i ..], [n] of which are left; whether polling is needed. *)
Fixpoint enable_aml_events (n : nat) (b i : Z) (poll_blocks : bool) : M bool :=
  match n with
  | O => mret poll_blocks
  | S n' =>
      e ← get_event (b, i);
      if wake e || negb (bool_decide (handler_type e = GPE_HANDLER_TYPE_AML_HANDLER))
      then enable_aml_events n' b (i + 1) poll_blocks else
      ret ← gpe_add_user (b, i) false;
      if negb (is_ok ret) then enable_aml_events n' b (i + 1) poll_blocks else
      p ← gpe_needs_polling (b, i);
      enable_aml_events n' b (i + 1) (poll_blocks || p)
  end.

Definition do_initialize_gpe_block (b : Z) (poll_blocks : bool) : M (bool * bool) :=
  x ← get_block b;
  p ← enable_aml_events (Z.to_nat (num_registers x * EVENTS_PER_GPE_REGISTER)) b 0 poll_blocks; mret (true, p).

Definition uacpi_finalize_gpe_initialization : M uacpi_status :=
  ensure_level LEVEL_NAMESPACE_LOADED id (locked id (
    done ← gets g_gpes_finalized;
    if (done : bool) then mret UACPI_STATUS_OK else
    modify (set_finalized true);;
    poll_blocks ← for_each_gpe_block do_initialize_gpe_block false;
    (if (poll_blocks : bool) then
       head ← gets g_gpe_interrupt_head; c ← get_ctx head; detect_gpes (gpe_head c);; mret tt
     else mret tt);;
    mret UACPI_STATUS_OK)).

(** *** Public operations on an event *)

(** The device and the event. *)
Definition sanitize_device_and_find_gpe (gpe_device idx : Z) : M (uacpi_status * Z * event_ptr) :=
  let gpe_device := if gpe_device =? 0 then uacpi_namespace_get_predefined GPE else gpe_device in
  e ← get_gpe gpe_device idx;
  match e with
  | None => mret (UACPI_STATUS_NOT_FOUND, gpe_device, (0, 0))
  | Some p => mret (UACPI_STATUS_OK, gpe_device, p)
  end.

(** The frame of the operations: level, lock, search. *)
Definition on_gpe {A} (gpe_device idx : Z) (fail : uacpi_status -> A) (k : Z -> event_ptr -> M A) : M A :=
  locked fail (
    r ← sanitize_device_and_find_gpe gpe_device idx;
    let '(ret, device, p) := (r : uacpi_status * Z * event_ptr) in
    if negb (is_ok ret) then mret (fail ret) else k device p).

Abbreviation loaded := (ensure_level LEVEL_NAMESPACE_LOADED id).

Definition install_native (p : event_ptr) (trig : Z) (type : gpe_handler_type) (handler ctx : Z) : M uacpi_status :=
  e ← get_event p;
  if is_native (handler_type e) then mret UACPI_STATUS_ALREADY_EXISTS else
  native_handler ← kernel_alloc_struct sizeof_native;
  if native_handler =? 0 then mret UACPI_STATUS_OUT_OF_MEMORY else
  e ← get_event p;
  let was enabled := {| n_cb := handler; n_ctx := ctx; previous_handler := any_handler e;
    previous_handler_type := handler_type e; previous_triggering := triggering e; previously_enabled := enabled |} in
  put_native native_handler (was false);;
  did_mask ← gpe_mask_safe p;
  e ← get_event p;
  (if is_automatic (handler_type e) && negb (num_users e =? 0)
   then put_native native_handler (was true);; gpe_remove_user p;; mret tt else mret tt);;
  update_event p (set_handler native_handler type trig);;
  (if (did_mask : bool) then gpe_mask_unmask p false;; mret tt else mret tt);;
  mret UACPI_STATUS_OK.

Definition do_install_gpe_handler (gpe_device idx trig : Z) (type : gpe_handler_type) (handler ctx : Z) : M uacpi_status :=
  loaded (
    if UACPI_GPE_TRIGGERING_MAX <? trig then mret UACPI_STATUS_INVALID_ARGUMENT else
    on_gpe gpe_device idx id (fun _ p => install_native p trig type handler ctx)).

Definition uacpi_install_gpe_handler (gpe_device idx trig handler ctx : Z) : M uacpi_status :=
  do_install_gpe_handler gpe_device idx trig GPE_HANDLER_TYPE_NATIVE_HANDLER handler ctx.
Definition uacpi_install_gpe_handler_raw (gpe_device idx trig handler ctx : Z) : M uacpi_status :=
  do_install_gpe_handler gpe_device idx trig GPE_HANDLER_TYPE_NATIVE_HANDLER_RAW handler ctx.

Definition uninstall_native (device : Z) (p : event_ptr) (handler : Z) : M uacpi_status :=
  e ← get_event p;
  if negb (is_native (handler_type e)) then mret UACPI_STATUS_NOT_FOUND else
  let native_handler := any_handler e in
  h ← get_native native_handler;
  if negb (n_cb h =? handler) then mret UACPI_STATUS_INVALID_ARGUMENT else
  did_mask ← gpe_mask_safe p;
  h ← get_native native_handler;
  update_event p (set_handler (previous_handler h) (previous_handler_type h) (previous_triggering h));;
  (if is_automatic (previous_handler_type h) && previously_enabled h then gpe_add_user p false;; mret tt else mret tt);;
  free_native native_handler;;
  (if (did_mask : bool) then gpe_mask_unmask p false;; mret tt else mret tt);;
  polling ← gpe_needs_polling p;
  (if (polling : bool) then maybe_dispatch_gpe device p;; mret tt else mret tt);;
  mret UACPI_STATUS_OK.

Definition uacpi_uninstall_gpe_handler (gpe_device idx handler : Z) : M uacpi_status :=
  loaded (on_gpe gpe_device idx id (fun device p => uninstall_native device p handler)).

Definition enable_event (device : Z) (p : event_ptr) : M uacpi_status :=
  e ← get_event p;
  if bool_decide (handler_type e = GPE_HANDLER_TYPE_NONE) then mret UACPI_STATUS_NO_HANDLER else
  ret ← gpe_add_user p true;
  if negb (is_ok ret) then mret ret else
  polling ← gpe_needs_polling p;
  (if (polling : bool) then maybe_dispatch_gpe device p;; mret tt else mret tt);;
  mret ret.

Definition uacpi_enable_gpe (gpe_device idx : Z) : M uacpi_status := loaded (on_gpe gpe_device idx id enable_event).
Definition uacpi_disable_gpe (gpe_device idx : Z) : M uacpi_status :=
  loaded (on_gpe gpe_device idx id (fun _ p => gpe_remove_user p)).
Definition uacpi_clear_gpe (gpe_device idx : Z) : M uacpi_status :=
  loaded (on_gpe gpe_device idx id (fun _ p => clear_gpe p)).

Definition gpe_suspend_resume (gpe_device idx : Z) (x : gpe_state) : M uacpi_status :=
  loaded (on_gpe gpe_device idx id (fun _ p => update_event p (set_block (is_disabled x));; set_gpe_state p x)).

Definition uacpi_suspend_gpe (gpe_device idx : Z) : M uacpi_status := gpe_suspend_resume gpe_device idx GPE_STATE_DISABLED.
Definition uacpi_resume_gpe (gpe_device idx : Z) : M uacpi_status := gpe_suspend_resume gpe_device idx GPE_STATE_ENABLED.

Definition uacpi_finish_handling_gpe (gpe_device idx : Z) : M uacpi_status :=
  loaded (on_gpe gpe_device idx id (fun device _ =>
    e ← get_gpe device idx;
    match e with None => mret UACPI_STATUS_NOT_FOUND | Some p => restore_gpe p end)).

Definition gpe_get_mask_unmask (gpe_device idx : Z) (should_mask : bool) : M uacpi_status :=
  loaded (on_gpe gpe_device idx id (fun _ p => gpe_mask_unmask p should_mask)).

Definition uacpi_mask_gpe (gpe_device idx : Z) : M uacpi_status := gpe_get_mask_unmask gpe_device idx true.
Definition uacpi_unmask_gpe (gpe_device idx : Z) : M uacpi_status := gpe_get_mask_unmask gpe_device idx false.

(** *** Wake events *)

(** [while (implicit_handler)]: is the device on the list? *)
Fixpoint has_implicit (fuel : nat) (handler device : Z) : M bool :=
  match fuel with
  | O => undefined
  | S fuel' =>
      if handler =? 0 then mret false else
      m ← gets implicits; h ← of_opt (m !! handler);
      if fst h =? device then mret true else has_implicit fuel' (snd h) device
  end.

(** The device is put at the head of the list; without memory nothing happens. *)
Definition add_implicit (p : event_ptr) (device : Z) : M uacpi_status :=
  e ← get_event p; fuel ← implicit_fuel;
  found ← has_implicit fuel (any_handler e) device;
  if (found : bool) then mret UACPI_STATUS_ALREADY_EXISTS else
  h ← kernel_alloc_struct sizeof_implicit;
  (if h =? 0 then mret tt else
   e ← get_event p;
   modify (fun s => set_implicits (<[h := (device, any_handler e)]> (implicits s)) s);;
   update_event p (fun e => set_handler h (handler_type e) (triggering e) e));;
  mret UACPI_STATUS_OK.

(** The block for a wake device. *)
Definition configure_wake (p : event_ptr) (wake_device : Z) : M uacpi_status :=
  e ← get_event p;
  (match handler_type e with
   | GPE_HANDLER_TYPE_NONE =>
       update_event p (fun e =>
         set_handler (any_handler e) GPE_HANDLER_TYPE_IMPLICIT_NOTIFY UACPI_GPE_TRIGGERING_LEVEL e)
   | GPE_HANDLER_TYPE_AML_HANDLER => gpe_remove_user p;; mret tt
   | _ => mret tt
   end);;
  e ← get_event p;
  if bool_decide (handler_type e = GPE_HANDLER_TYPE_IMPLICIT_NOTIFY) then add_implicit p wake_device
  else mret UACPI_STATUS_OK.

Definition setup_wake (p : event_ptr) (wake_device : Z) : M uacpi_status :=
  did_mask ← gpe_mask_safe p;
  ret ← (if wake_device =? 0 then mret UACPI_STATUS_OK else configure_wake p wake_device);
  (if is_ok ret then update_event p (set_wake true) else mret tt);;
  (if (did_mask : bool) then gpe_mask_unmask p false;; mret tt else mret tt);;
  mret ret.

Definition uacpi_setup_gpe_for_wake (gpe_device idx wake_device : Z) : M uacpi_status :=
  loaded (
    r ← (if (wake_device =? 0) || (wake_device =? uacpi_namespace_root) then mret (UACPI_STATUS_OK, true)
         else host (node_is_device wake_device));
    let '(ret, is_dev) := (r : uacpi_status * bool) in
    if negb (is_ok ret) then mret ret else
    if negb is_dev then mret UACPI_STATUS_INVALID_ARGUMENT else
    on_gpe gpe_device idx id (fun _ p => setup_wake p wake_device)).

Definition gpe_enable_disable_for_wake (gpe_device idx : Z) (enabled : bool) : M uacpi_status :=
  loaded (on_gpe gpe_device idx id (fun _ p =>
    e ← get_event p;
    if negb (wake e) then mret UACPI_STATUS_INVALID_ARGUMENT else
    m ← gpe_get_mask p;
    update_event_register p (fun r =>
      set_wake_mask (if enabled then Z.lor (wake_mask r) m else Z.land (wake_mask r) m) r);;
    mret UACPI_STATUS_OK)).

Definition uacpi_enable_gpe_for_wake (gpe_device idx : Z) : M uacpi_status := gpe_enable_disable_for_wake gpe_device idx true.
Definition uacpi_disable_gpe_for_wake (gpe_device idx : Z) : M uacpi_status := gpe_enable_disable_for_wake gpe_device idx false.

(** *** All events *)

Definition do_for_all_gpes (action : gpe_block_action) (b : Z) (_ : uacpi_status) : M (bool * uacpi_status) :=
  ret ← gpe_block_apply_action b action; mret (is_ok ret, ret).

Definition for_all_gpes_locked (action : gpe_block_action) : M uacpi_status :=
  loaded (locked id (for_each_gpe_block (do_for_all_gpes action) UACPI_STATUS_OK)).

Definition uacpi_disable_all_gpes : M uacpi_status := for_all_gpes_locked GPE_BLOCK_ACTION_DISABLE_ALL.
Definition uacpi_enable_all_runtime_gpes : M uacpi_status := for_all_gpes_locked GPE_BLOCK_ACTION_ENABLE_ALL_FOR_RUNTIME.
Definition uacpi_enable_all_wake_gpes : M uacpi_status := for_all_gpes_locked GPE_BLOCK_ACTION_ENABLE_ALL_FOR_WAKE.

Definition PM1_STATUS_BITS : Z :=
  Z.lor (bit 0) (Z.lor (bit 4) (Z.lor (bit 5) (Z.lor (bit 8) (Z.lor (bit 9) (Z.lor (bit 10) (Z.lor (bit 14) (bit 15))))))).

Definition uacpi_clear_all_events : M uacpi_status :=
  loaded (locked id (
    ret ← in_regs (uacpi_write_register PM1_STS PM1_STATUS_BITS);
    if negb (is_ok ret) then mret ret else
    for_each_gpe_block (do_for_all_gpes GPE_BLOCK_ACTION_CLEAR_ALL) UACPI_STATUS_OK)).

Definition event_info (p : event_ptr) : M (uacpi_status * option Z) :=
  e ← get_event p;
  m ← gpe_get_mask p;
  r ← event_register p;
  let info := flag_if (negb (bool_decide (handler_type e = GPE_HANDLER_TYPE_NONE))) UACPI_EVENT_INFO_HAS_HANDLER 0 in
  let info := flag_if (negb (Z.land (runtime_mask r) m =? 0)) UACPI_EVENT_INFO_ENABLED info in
  let info := flag_if (negb (Z.land (masked_mask r) m =? 0)) UACPI_EVENT_INFO_MASKED info in
  let info := flag_if (negb (Z.land (wake_mask r) m =? 0)) UACPI_EVENT_INFO_ENABLED_FOR_WAKE info in
  v ← read_gas (r_enable r);
  if negb (is_ok (fst v)) then mret (fst v, None) else
  let info := flag_if (negb (Z.land (snd v) m =? 0)) UACPI_EVENT_INFO_HW_ENABLED info in
  v ← read_gas (r_status r);
  if negb (is_ok (fst v)) then mret (fst v, None) else
  mret (fst v, Some (flag_if (negb (Z.land (snd v) m =? 0)) UACPI_EVENT_INFO_HW_STATUS info)).

Definition uacpi_gpe_info (gpe_device idx : Z) : M (uacpi_status * option Z) :=
  ensure_level LEVEL_NAMESPACE_LOADED (fun ret => (ret, None))
    (on_gpe gpe_device idx (fun ret => (ret, None)) (fun _ p => event_info p)).

(** *** Initialisation and shutdown *)

(** The two blocks of the FADT. *)
Definition initialize_gpes : M uacpi_status :=
  let gpe_node := uacpi_namespace_get_predefined GPE in
  rt ← gets ert;
  gpe0_regs ← (if negb (address (rt_x_gpe0_blk rt) =? 0) && negb (rt_gpe0_blk_len rt =? 0) then
      let n := rt_gpe0_blk_len rt / 2 in
      create_gpe_block gpe_node (rt_sci_int rt) 0 (address (rt_x_gpe0_blk rt)) (address_space_id (rt_x_gpe0_blk rt)) n;;
      mret n
    else mret 0);
  (if negb (address (rt_x_gpe1_blk rt) =? 0) && negb (rt_gpe1_blk_len rt =? 0) then
     if rt_gpe1_base rt <? gpe0_regs * EVENTS_PER_GPE_REGISTER then mret tt else
     create_gpe_block gpe_node (rt_sci_int rt) (rt_gpe1_base rt) (address (rt_x_gpe1_blk rt))
       (address_space_id (rt_x_gpe1_blk rt)) (rt_gpe1_blk_len rt / 2);;
     mret tt
   else mret tt);;
  mret UACPI_STATUS_OK.

(** [k] when the node is a device. *)
Definition on_device (gpe_device : Z) (k : M uacpi_status) : M uacpi_status :=
  loaded (
    r ← host (node_is_device gpe_device);
    let '(ret, is_dev) := (r : uacpi_status * bool) in
    if negb (is_ok ret) then mret ret else
    if negb is_dev then mret UACPI_STATUS_INVALID_ARGUMENT else locked id k).

Definition uacpi_install_gpe_block (gpe_device address address_space num_registers_ irq_ : Z) : M uacpi_status :=
  on_device gpe_device (
    e ← get_gpe gpe_device 0;
    match e with
    | Some _ => mret UACPI_STATUS_ALREADY_EXISTS
    | None => create_gpe_block gpe_device irq_ 0 address (u8 address_space) num_registers_
    end).

Definition uacpi_uninstall_gpe_block (gpe_device : Z) : M uacpi_status :=
  on_device gpe_device (
    r ← for_each_gpe_block (do_find_gpe gpe_device 0) (0, None);
    if fst (r : Z * option event_ptr) =? 0 then mret UACPI_STATUS_NOT_FOUND else
    uninstall_gpe_block (fst r);; mret UACPI_STATUS_OK).

Definition uacpi_initialize_events_early : M uacpi_status :=
  hw_reduced ← gets (fun s => rt_hardware_reduced (ert s));
  if (hw_reduced : bool) then mret UACPI_STATUS_OK else
  slock ← host kernel_create_spinlock;
  modify (set_slock slock);;
  if slock =? 0 then mret UACPI_STATUS_OUT_OF_MEMORY else
  ret ← host event_lock_init;
  if negb (is_ok ret) then mret ret else initialize_fixed_events.

(** The global lock's event and spinlock, and the handler of its release. *)
Definition initialize_global_lock : M uacpi_status :=
  e ← host kernel_create_event;
  modify (set_ert (fun x => set_global_lock (rt_has_global_lock x) (rt_global_lock_pending x) e
    (rt_global_lock_spinlock x) x));;
  if e =? 0 then mret UACPI_STATUS_OUT_OF_MEMORY else
  l ← host kernel_create_spinlock;
  modify (set_ert (fun x => set_global_lock (rt_has_global_lock x) (rt_global_lock_pending x)
    (rt_global_lock_event x) l x));;
  if l =? 0 then mret UACPI_STATUS_OUT_OF_MEMORY else
  ret ← uacpi_install_fixed_event_handler UACPI_FIXED_EVENT_GLOBAL_LOCK HANDLE_GLOBAL_LOCK 0;
  if is_ok ret then
    facs ← gets (fun s => rt_facs (ert s));
    if facs =? 0 then uacpi_uninstall_fixed_event_handler UACPI_FIXED_EVENT_GLOBAL_LOCK;; mret ret else
    modify (set_ert (fun x => set_global_lock true (rt_global_lock_pending x) (rt_global_lock_event x)
      (rt_global_lock_spinlock x) x));;
    mret ret
  else if bool_decide (ret = UACPI_STATUS_HARDWARE_TIMEOUT) then mret UACPI_STATUS_OK else mret ret.

Definition uacpi_initialize_events : M uacpi_status :=
  hw_reduced ← gets (fun s => rt_hardware_reduced (ert s));
  if (hw_reduced : bool) then mret UACPI_STATUS_OK else
  ret ← initialize_gpes;
  if negb (is_ok ret) then mret ret else
  sci_int ← gets (fun s => rt_sci_int (ert s));
  head ← gets g_gpe_interrupt_head;
  r ← host (kernel_install_interrupt_handler sci_int (HANDLE_SCI head));
  let '(ret, handle) := (r : uacpi_status * Z) in
  if negb (is_ok ret) then mret ret else
  modify (set_ert (set_sci handle true));;
  initialize_global_lock.

Fixpoint uninstall_blocks (fuel : nat) (b : Z) : M unit :=
  match fuel with
  | O => undefined
  | S fuel' =>
      if b =? 0 then mret tt else
      x ← get_block b; uninstall_gpe_block b;; uninstall_blocks fuel' (b_next x)
  end.

Fixpoint uninstall_ctxs (fuel : nat) (ctx : Z) : M unit :=
  match fuel with
  | O => undefined
  | S fuel' =>
      if ctx =? 0 then mret tt else
      c ← get_ctx ctx; bf ← block_fuel;
      uninstall_blocks bf (gpe_head c);; uninstall_ctxs fuel' (c_next c)
  end.

Fixpoint uninstall_fixed (l : list Z) : M unit :=
  match l with
  | [] => mret tt
  | i :: l' =>
      h ← fixed_handler_at i;
      (if is_no_handler (fh_handler h) then mret tt else uacpi_uninstall_fixed_event_handler i;; mret tt);;
      uninstall_fixed l'
  end.

Definition uacpi_deinitialize_events : M unit :=
  head ← gets g_gpe_interrupt_head;
  modify (set_finalized false);;
  rt ← gets ert;
  (if rt_sci_handle_valid rt then
     host (kernel_uninstall_interrupt_handler (rt_sci_handle rt));;
     modify (set_ert (fun x => set_sci (rt_sci_handle x) false x))
   else mret tt);;
  fuel ← ctx_fuel;
  uninstall_ctxs fuel head;;
  uninstall_fixed fixed_indices;;
  slock ← gets g_gpe_state_slock;
  (if slock =? 0 then mret tt else host (kernel_free_spinlock slock);; modify (set_slock 0));;
  host event_lock_deinit;;
  modify (set_head 0).
End Operations.
