(* ===== verification/EventSpec.v ===== *)
(** * Events: the state of a general-purpose event

    What each operation of [Events] does to the state of one event, seen as a record
    of bits ([view]): its users, whether it is masked, enabled in software and in
    hardware, pending, and being handled.  Hardware that works is the class
    [GpeHardware]; callbacks of the host may do anything that keeps the invariant. *)

From S2P Require Import Prelude UCore Namespace Gas Mutex Registers Events.

Open Scope word_scope.

(** ** Monad *)

Lemma bind_ok {S A B} (c : SM S A) (k : A -> SM S B) s a s1 r : c s = Some (a, s1) -> k a s1 = r -> mbind k c s = r.
Proof. intros E <-; apply SM_bind_Some, E. Qed.

(** Run the first step of a computation by a lemma that gives its result. *)
Tactic Notation "step" uconstr(H) := eapply bind_ok; [eapply H; eassumption|]; cbv beta.

(** ** Registers and events of a state *)

Section View.
Context {W G : Type}.

Definition ev_at (s : st W G) (p : event_ptr) : option gp_event :=
  x ← blocks (ev s) !! fst p; nth_at (events x) (snd p).
Definition reg_at (s : st W G) (b i : Z) : option (gpe_register G) :=
  x ← blocks (ev s) !! b; nth_at (registers x) i.

Definition event_shape (e : gp_event) : option Z * Z := (e_reg e, e_idx e).
Definition reg_shape (r : gpe_register G) : option G * option G * Z := (r_status r, r_enable r, r_base_idx r).
Definition block_links (x : gpe_block G) : Z * Z * Z * Z * Z := (b_next x, device_node x, num_registers x, num_events x, b_base_idx x).

(** The same blocks with the same registers and events. *)
Record same_shape (s s' : st W G) : Prop := {
  ss_events p : event_shape <$> ev_at s' p = event_shape <$> ev_at s p;
  ss_regs b i : reg_shape <$> reg_at s' b i = reg_shape <$> reg_at s b i;
  ss_links b : block_links <$> blocks (ev s') !! b = block_links <$> blocks (ev s) !! b;
  ss_ctxs : ctxs (ev s') = ctxs (ev s);
  ss_head : g_gpe_interrupt_head (ev s') = g_gpe_interrupt_head (ev s) }.

#[export] Instance same_shape_refl : Reflexive same_shape.
Proof. constructor; reflexivity. Qed.
#[export] Instance same_shape_trans : Transitive same_shape.
Proof. intros s1 s2 s3 [] []; constructor; intros; etransitivity; eauto. Qed.

(** Event [j] of a block is bit [j mod 8] of its register [j / 8], and no two registers
    share a mapped address; [is_status] tells the two kinds apart. *)
Record laid_out (is_status : G -> bool) (s : st W G) : Prop := {
  lo_event b j e : ev_at s (b, j) = Some e -> exists r gs ge, e_reg e = Some (j / 8) /\ reg_at s b (j / 8) = Some r /\
    r_status r = Some gs /\ r_enable r = Some ge /\ e_idx e = r_base_idx r + j mod 8;
  lo_enable b i r b' i' r' : reg_at s b i = Some r -> reg_at s b' i' = Some r' -> r_enable r = r_enable r' ->
    b = b' /\ i = i';
  lo_status b i r b' i' r' : reg_at s b i = Some r -> reg_at s b' i' = Some r' -> r_status r = r_status r' ->
    b = b' /\ i = i';
  lo_kind b i r g : reg_at s b i = Some r ->
    (r_status r = Some g -> is_status g = true) /\ (r_enable r = Some g -> is_status g = false) }.

Lemma fmap_some_eq {A B} (f : A -> B) (x y : option A) a : f <$> x = f <$> y -> x = Some a -> exists b, y = Some b /\ f a = f b.
Proof. intros H ->; destruct y as [b|]; [|discriminate]; injection H as H; eauto. Qed.

Lemma laid_out_shape k s s' : same_shape s s' -> laid_out k s -> laid_out k s'.
Proof.
  intros HS HL.
  assert (HR : forall b i r', reg_at s' b i = Some r' -> exists r, reg_at s b i = Some r /\ reg_shape r = reg_shape r').
  { intros b i r' E; destruct (fmap_some_eq _ _ _ _ (ss_regs _ _ HS b i) E) as (r & ? & ?); eauto. }
  constructor.
  - intros b j e' E; destruct (fmap_some_eq _ _ _ _ (ss_events _ _ HS (b, j)) E) as (e & Ee & He).
    destruct (lo_event _ _ HL _ _ _ Ee) as (r & gs & ge & H1 & H2 & H3 & H4 & H5).
    destruct (fmap_some_eq _ _ _ _ (eq_sym (ss_regs _ _ HS b (j / 8))) H2) as (r' & Er & Hr).
    unfold event_shape in He; unfold reg_shape in Hr; exists r', gs, ge; repeat split; congruence.
  - intros b i r b' i' r' (r1 & E1 & H1)%HR (r2 & E2 & H2)%HR H; unfold reg_shape in *.
    eapply (lo_enable _ _ HL); [exact E1|exact E2|congruence].
  - intros b i r b' i' r' (r1 & E1 & H1)%HR (r2 & E2 & H2)%HR H; unfold reg_shape in *.
    eapply (lo_status _ _ HL); [exact E1|exact E2|congruence].
  - intros b i r g (r1 & E1 & H1)%HR; unfold reg_shape in *; destruct (lo_kind _ _ HL _ _ _ g E1).
    split; intros ?; [apply H|apply H0]; congruence.
Qed.

(** Only the blocks changed. *)
Definition only_blocks (s s' : st W G) : Prop := regs s' = regs s /\ ev s' = set_blocks (blocks (ev s')) (ev s).

Lemma get_event_run s p e : ev_at s p = Some e -> get_event p s = Some (e, s).
Proof.
  unfold ev_at, get_event, get_block; intros E; destruct (blocks (ev s) !! fst p) as [x|] eqn:Eb; [|discriminate]; cbn in E.
  unfold gets, of_opt; smunfold; rewrite Eb; smunfold; rewrite E; reflexivity.
Qed.

Lemma get_event_inv s p e s' : get_event p s = Some (e, s') -> s' = s /\ ev_at s p = Some e.
Proof.
  unfold ev_at, get_event, get_block, gets, of_opt; smunfold.
  destruct (blocks (ev s) !! fst p) as [x|]; smunfold; [|discriminate].
  cbn; destruct (nth_at _ _); smunfold; [|discriminate]; intros [= <- <-]; auto.
Qed.

Lemma get_register_run s b i r : reg_at s b i = Some r -> get_register b i s = Some (r, s).
Proof.
  unfold reg_at, get_register, get_block; intros E; destruct (blocks (ev s) !! b) as [x|] eqn:Eb; [|discriminate]; cbn in E.
  unfold gets, of_opt; smunfold; rewrite Eb; smunfold; rewrite E; reflexivity.
Qed.

Lemma nth_at_insert {A} (l : list A) i j a b : nth_at (Some l) i = Some a ->
  nth_at (Some (<[Z.to_nat i := b]> l)) j = if decide (j = i) then Some b else nth_at (Some l) j.
Proof.
  unfold nth_at; cbn; destruct (Z.ltb_spec i 0); [discriminate|]; intros E.
  destruct (decide (j = i)) as [->|Hj].
  - rewrite (proj2 (Z.ltb_ge i 0)) by lia; apply list_lookup_insert_eq; apply lookup_lt_Some in E; exact E.
  - destruct (Z.ltb_spec j 0); [reflexivity|]; apply list_lookup_insert_ne; lia.
Qed.

Lemma put_event_run s p e e' : ev_at s p = Some e -> exists s', put_event p e' s = Some (tt, s') /\ only_blocks s s' /\
  (forall q, ev_at s' q = if decide (q = p) then Some e' else ev_at s q) /\
  (forall b i, reg_at s' b i = reg_at s b i) /\
  (forall b, block_links <$> blocks (ev s') !! b = block_links <$> blocks (ev s) !! b).
Proof.
  destruct p as [b j]; unfold ev_at; cbn [fst snd]; destruct (blocks (ev s) !! b) as [x|] eqn:Eb; [|discriminate].
  cbn [mbind option_bind]; destruct (events x) as [l|] eqn:El; [|discriminate]; intros E.
  unfold put_event, get_block, put_block, gets, modify, of_opt; smunfold; cbn [fst snd]; rewrite Eb; smunfold.
  rewrite El; smunfold; eexists; split; [reflexivity|]; cbn [ev blocks set_blocks fst snd]; split; [split; reflexivity|].
  repeat split.
  - intros [b' j']; cbn [fst snd]; destruct (decide (b' = b)) as [->|Hb].
    + rewrite lookup_insert_eq, Eb; cbn [mbind option_bind events registers set_events set_registers]; rewrite El, (nth_at_insert l j j' e e' E).
      destruct (decide (j' = j)) as [->|Hj]; [rewrite decide_True by reflexivity|rewrite decide_False by congruence]; reflexivity.
    + rewrite lookup_insert_ne by congruence; rewrite decide_False by congruence; reflexivity.
  - intros b' i; unfold reg_at; cbn [ev blocks set_blocks]; destruct (decide (b' = b)) as [->|Hb].
    + rewrite lookup_insert_eq, Eb; reflexivity.
    + rewrite lookup_insert_ne by congruence; reflexivity.
  - intros b'; destruct (decide (b' = b)) as [->|Hb].
    + rewrite lookup_insert_eq, Eb; reflexivity.
    + rewrite lookup_insert_ne by congruence; reflexivity.
Qed.

Lemma put_register_run s b i r r' : reg_at s b i = Some r -> exists s', put_register b i r' s = Some (tt, s') /\
  only_blocks s s' /\ (forall q, ev_at s' q = ev_at s q) /\
  (forall b' i', reg_at s' b' i' = if decide ((b', i') = (b, i)) then Some r' else reg_at s b' i') /\
  (forall b, block_links <$> blocks (ev s') !! b = block_links <$> blocks (ev s) !! b).
Proof.
  unfold reg_at; destruct (blocks (ev s) !! b) as [x|] eqn:Eb; [|discriminate].
  cbn [mbind option_bind]; destruct (registers x) as [l|] eqn:El; [|discriminate]; intros E.
  unfold put_register, get_block, put_block, gets, modify, of_opt; smunfold; rewrite Eb; smunfold.
  rewrite El; smunfold; eexists; split; [reflexivity|]; cbn [ev blocks set_blocks fst snd]; split; [split; reflexivity|].
  repeat split.
  - intros [b' j]; unfold ev_at; cbn [ev blocks set_blocks fst snd]; destruct (decide (b' = b)) as [->|Hb].
    + rewrite lookup_insert_eq, Eb; reflexivity.
    + rewrite lookup_insert_ne by congruence; reflexivity.
  - intros b' i'; destruct (decide (b' = b)) as [->|Hb].
    + rewrite lookup_insert_eq, Eb; cbn [mbind option_bind events registers set_events set_registers]; rewrite El, (nth_at_insert l i i' r r' E).
      destruct (decide (i' = i)) as [->|Hj]; [rewrite decide_True by reflexivity|rewrite decide_False by congruence]; reflexivity.
    + rewrite lookup_insert_ne by congruence; rewrite decide_False by congruence; reflexivity.
  - intros b'; destruct (decide (b' = b)) as [->|Hb].
    + rewrite lookup_insert_eq, Eb; reflexivity.
    + rewrite lookup_insert_ne by congruence; reflexivity.
Qed.
End View.

(** ** Hardware that works *)

(** Every mapped register is read as it is; an enable register holds what is written
    and a one written to a status register clears the bit; registers do not affect each
    other, nor do the spinlocks. *)
Class GpeHardware (W G : Type) {GO : GasOps W G} {EH : EventHost W G} := {
  hw : G -> W -> Z;
  is_status : G -> bool;
  gh_read g w : gas_read_mapped g w = Some ((UACPI_STATUS_OK, hw g w), w);
  gh_write g v w : exists w', gas_write_mapped g v w = Some (UACPI_STATUS_OK, w') /\
    hw g w' = (if is_status g then Z.ldiff (hw g w) v else u8 v) /\ (forall g', g' <> g -> hw g' w' = hw g' w);
  gh_lock l w : exists f w', kernel_lock_spinlock l w = Some (f, w') /\ (forall g, hw g w' = hw g w);
  gh_unlock l f w : exists w', kernel_unlock_spinlock l f w = Some (tt, w') /\ (forall g, hw g w' = hw g w) }.

(** What is known of an event. *)
Record gview := {
  v_event : gp_event;
  v_run : bool;        (* enabled at run time *)
  v_cur : bool;        (* as the registers were last set up *)
  v_masked : bool;
  v_on : bool;         (* the enable bit in hardware *)
  v_pend : bool        (* the status bit in hardware *) }.

Definition with_event (f : gp_event -> gp_event) (v : gview) : gview := {|
  v_event := f (v_event v); v_run := v_run v; v_cur := v_cur v; v_masked := v_masked v; v_on := v_on v; v_pend := v_pend v |}.
Definition with_run (x : bool) (v : gview) : gview := {|
  v_event := v_event v; v_run := x; v_cur := x; v_masked := v_masked v; v_on := v_on v; v_pend := v_pend v |}.
Definition with_masked (x : bool) (v : gview) : gview := {|
  v_event := v_event v; v_run := v_run v; v_cur := v_cur v; v_masked := x; v_on := v_on v; v_pend := v_pend v |}.
Definition with_on (x : bool) (v : gview) : gview := {|
  v_event := v_event v; v_run := v_run v; v_cur := v_cur v; v_masked := v_masked v; v_on := x; v_pend := v_pend v |}.
Definition with_pend (x : bool) (v : gview) : gview := {|
  v_event := v_event v; v_run := v_run v; v_cur := v_cur v; v_masked := v_masked v; v_on := v_on v; v_pend := x |}.

Section Effects.
Context {W G : Type} {GO : GasOps W G} {EH : EventHost W G} {EL : EventLock W} {HW : GpeHardware W G}.

Definition value (g : G) (s : st W G) : Z := hw g (Registers.world (regs s)).

Definition view_of (e : gp_event) (r : gpe_register G) (on pend : Z) : gview :=
  let k := e_idx e - r_base_idx r in {|
    v_event := e; v_run := Z.testbit (runtime_mask r) k; v_cur := Z.testbit (current_mask r) k;
    v_masked := Z.testbit (masked_mask r) k; v_on := Z.testbit on k; v_pend := Z.testbit pend k |}.

Definition view (s : st W G) (p : event_ptr) : option gview :=
  e ← ev_at s p; i ← e_reg e; r ← reg_at s (fst p) i; gs ← r_status r; ge ← r_enable r;
  Some (view_of e r (value ge s) (value gs s)).

(** Registers hold what is enabled at run time (they are not set up for a sleep). *)
Definition tuned (s : st W G) : Prop := forall b i r, reg_at s b i = Some r -> current_mask r = runtime_mask r.

(** Everything but the blocks, the contexts and the hardware. *)
Definition rest (s : st W G) := (g_gpe_state_slock (ev s), g_gpes_finalized (ev s), fixed_event_handlers (ev s),
  natives (ev s), implicits (ev s), ert (ev s)).

(** [p] is now seen as [v] and nothing else changed that can be seen. *)
Record changes (p : event_ptr) (v : gview) (s s' : st W G) : Prop := {
  ch_shape : same_shape s s';
  ch_view : view s' p = Some v;
  ch_other q : q <> p -> view s' q = view s q;
  ch_tuned : tuned s -> tuned s';
  ch_rest : rest s' = rest s }.

Lemma changes_trans p v1 v2 s1 s2 s3 : changes p v1 s1 s2 -> changes p v2 s2 s3 -> changes p v2 s1 s3.
Proof.
  intros [H1 H2 H3 H7 H9] [H4 H5 H6 H8 H10]; constructor; [etransitivity; eassumption|assumption| |auto|congruence].
  intros q Hq; rewrite H6, H3 by assumption; reflexivity.
Qed.

Lemma changes_refl p v s : view s p = Some v -> changes p v s s.
Proof. intros; constructor; [reflexivity|assumption|reflexivity|auto|reflexivity]. Qed.

(** What stands behind a view. *)
Record seen (s : st W G) (p : event_ptr) (v : gview) (e : gp_event) (r : gpe_register G) (gs ge : G) : Prop := {
  se_event : ev_at s p = Some e;
  se_place : e_reg e = Some (snd p / 8);
  se_reg : reg_at s (fst p) (snd p / 8) = Some r;
  se_status : r_status r = Some gs;
  se_enable : r_enable r = Some ge;
  se_bit : e_idx e = r_base_idx r + snd p mod 8;
  se_view : v = view_of e r (value ge s) (value gs s) }.

Lemma view_seen s p v : laid_out is_status s -> view s p = Some v -> exists e r gs ge, seen s p v e r gs ge.
Proof.
  destruct p as [b j]; intros HL; unfold view; destruct (ev_at s (b, j)) as [e|] eqn:E; [|discriminate].
  destruct (lo_event _ _ HL _ _ _ E) as (r & gs & ge & H1 & H2 & H3 & H4 & H5).
  cbn [mbind option_bind]; rewrite H1; cbn [mbind option_bind fst]; rewrite H2; cbn [mbind option_bind]; rewrite H3, H4.
  intros [= <-]; exists e, r, gs, ge; constructor; cbn; auto.
Qed.

Lemma seen_view s p v e r gs ge : seen s p v e r gs ge -> view s p = Some v.
Proof.
  intros [H1 H2 H3 H4 H5 _ ->]; unfold view; rewrite H1; cbn [mbind option_bind]; rewrite H2; cbn [mbind option_bind].
  rewrite H3; cbn [mbind option_bind]; rewrite H4, H5; reflexivity.
Qed.

(** The view of an event depends on the event, its register and the two values. *)
Lemma view_ext s s' p : ev_at s' p = ev_at s p ->
  (forall b i, reg_at s' b i = reg_at s b i) -> (forall g, value g s' = value g s) -> view s' p = view s p.
Proof.
  intros H1 H2 H3; unfold view; rewrite H1; destruct (ev_at s p) as [e|]; [|reflexivity]; cbn [mbind option_bind].
  destruct (e_reg e) as [i|]; [|reflexivity]; cbn [mbind option_bind]; rewrite H2.
  destruct (reg_at s (fst p) i) as [r|]; [|reflexivity]; cbn [mbind option_bind].
  destruct (r_status r) as [gs|]; [|reflexivity]; destruct (r_enable r) as [ge|]; [|reflexivity]; cbn [mbind option_bind].
  rewrite !H3; reflexivity.
Qed.

Lemma same_shape_put (s s' : st W G) : only_blocks s s' ->
  (forall p, event_shape <$> ev_at s' p = event_shape <$> ev_at s p) ->
  (forall b i, reg_shape <$> reg_at s' b i = reg_shape <$> reg_at s b i) ->
  (forall b, block_links <$> blocks (ev s') !! b = block_links <$> blocks (ev s) !! b) -> same_shape s s'.
Proof. intros [_ E] H1 H2 H3; constructor; try assumption; rewrite E; reflexivity. Qed.

Lemma only_blocks_value s s' g : only_blocks s s' -> value g s' = value g s.
Proof. intros [E _]; unfold value; rewrite E; reflexivity. Qed.

Lemma only_blocks_rest s s' : only_blocks s s' -> rest s' = rest s.
Proof. intros [_ E]; unfold rest; rewrite E; reflexivity. Qed.

(** *** The event's own fields *)

Lemma put_event_changes s p v e e' : laid_out is_status s -> view s p = Some v -> ev_at s p = Some e ->
  event_shape e' = event_shape e ->
  exists s', put_event p e' s = Some (tt, s') /\ only_blocks s s' /\ changes p (with_event (fun _ => e') v) s s'.
Proof.
  intros HL Hv He Hs; destruct (put_event_run s p e e' He) as (s' & E & Ho & H1 & H2 & H3).
  exists s'; split; [exact E|split; [exact Ho|]].
  assert (Hval : forall g, value g s' = value g s) by (intros; apply only_blocks_value, Ho).
  constructor.
  - apply (same_shape_put s s' Ho); [|intros; rewrite H2; reflexivity|exact H3].
    intros q; rewrite H1; destruct (decide (q = p)) as [->|]; [|reflexivity]; rewrite He; cbn; rewrite Hs; reflexivity.
  - destruct (view_seen s p v HL Hv) as (e0 & r & gs & ge & [S1 S2 S3 S4 S5 S6 ->]).
    rewrite He in S1; injection S1 as <-; unfold event_shape in Hs; injection Hs as Hr Hi.
    unfold view; rewrite H1, decide_True by reflexivity; cbn [mbind option_bind]; rewrite Hr, S2; cbn [mbind option_bind].
    rewrite H2, S3; cbn [mbind option_bind]; rewrite S4, S5; cbn [mbind option_bind]; rewrite !Hval.
    unfold view_of, with_event; cbn; rewrite Hi; reflexivity.
  - intros q Hq; apply view_ext; [rewrite H1, decide_False by exact Hq; reflexivity|exact H2|exact Hval].
  - intros Ht b i r; rewrite H2; apply Ht.
  - apply only_blocks_rest, Ho.
Qed.

Lemma update_event_changes s p v f : laid_out is_status s -> view s p = Some v ->
  (forall e, event_shape (f e) = event_shape e) ->
  exists s', update_event p f s = Some (tt, s') /\ only_blocks s s' /\ changes p (with_event f v) s s'.
Proof.
  intros HL Hv Hf; destruct (view_seen s p v HL Hv) as (e & r & gs & ge & HS).
  destruct (put_event_changes s p v e (f e) HL Hv (se_event _ _ _ _ _ _ _ HS) (Hf e)) as (s' & E & Ho & Hc).
  exists s'; split; [|split; [exact Ho|]].
  - unfold update_event; eapply bind_ok; [apply get_event_run, (se_event _ _ _ _ _ _ _ HS)|exact E].
  - replace (with_event f v) with (with_event (fun _ => f e) v); [exact Hc|].
    rewrite (se_view _ _ _ _ _ _ _ HS); reflexivity.
Qed.
(** *** Registers *)

Abbreviation bit_no p := (snd (p : event_ptr) mod 8).

Lemma event_register_run s p v e r gs ge : seen s p v e r gs ge -> event_register p s = Some (r, s).
Proof.
  intros [H1 H2 H3 _ _ _ _]; unfold event_register, reg_of; eapply bind_ok.
  - eapply bind_ok; [apply get_event_run, H1|]; rewrite H2; reflexivity.
  - apply get_register_run, H3.
Qed.

Lemma u8_bit k : 0 <= k < 8 -> u8 (Z.shiftl 1 k) = Z.shiftl 1 k.
Proof.
  intros Hk; rewrite Z.shiftl_1_l; apply wrap_id; split; [apply Z.pow_nonneg; lia|apply Z.pow_lt_mono_r; lia].
Qed.

Lemma gpe_get_mask_run s p v e r gs ge : seen s p v e r gs ge -> gpe_get_mask p s = Some (Z.shiftl 1 (bit_no p), s).
Proof.
  intros HS; unfold gpe_get_mask; eapply bind_ok; [apply get_event_run, (se_event _ _ _ _ _ _ _ HS)|].
  eapply bind_ok; [apply (event_register_run _ _ _ _ _ _ _ HS)|]; cbv beta zeta; rewrite (se_bit _ _ _ _ _ _ _ HS).
  assert (Hk : 0 <= bit_no p < 8) by (apply Z.mod_pos_bound; lia).
  replace (r_base_idx r + bit_no p - r_base_idx r) with (bit_no p) by lia.
  rewrite (proj2 (Z.leb_le 0 _)), (proj2 (Z.ltb_lt _ 31)) by lia; cbn [andb]; rewrite u8_bit by exact Hk; reflexivity.
Qed.

Lemma one_testbit k i : 0 <= k -> 0 <= i -> Z.testbit (Z.shiftl 1 k) i = bool_decide (i = k).
Proof. intros Hk Hi; rewrite Z.shiftl_1_l, Z.pow2_bits_eqb by lia; case_bool_decide; lia. Qed.

Lemma land_bit_zero m k : 0 <= k -> (Z.land m (Z.shiftl 1 k) =? 0) = negb (Z.testbit m k).
Proof.
  intros Hk; destruct (Z.testbit m k) eqn:E; cbn [negb].
  - apply Z.eqb_neq; intros H; apply (f_equal (fun x => Z.testbit x k)) in H.
    rewrite Z.land_spec, E, one_testbit, bool_decide_true, Z.bits_0 in H by (reflexivity || lia); discriminate.
  - apply Z.eqb_eq, Z.bits_inj'; intros i Hi; rewrite Z.land_spec, one_testbit, Z.bits_0 by lia.
    case_bool_decide; subst; rewrite ?E, ?andb_false_r; reflexivity.
Qed.

(** Bits other than the event's are left alone by [f]. *)
Definition keeps_others (k : Z) (r r' : gpe_register G) : Prop :=
  reg_shape r' = reg_shape r /\ (current_mask r = runtime_mask r -> current_mask r' = runtime_mask r') /\
  forall i, 0 <= i < 8 -> i <> k -> Z.testbit (runtime_mask r') i = Z.testbit (runtime_mask r) i /\
    Z.testbit (current_mask r') i = Z.testbit (current_mask r) i /\ Z.testbit (masked_mask r') i = Z.testbit (masked_mask r) i.

Lemma same_bit_same_event (p q : event_ptr) : fst q = fst p -> snd q / 8 = snd p / 8 -> bit_no q = bit_no p -> q = p.
Proof.
  destruct p as [b j], q as [b' j']; cbn; intros -> H1 H2; f_equal.
  rewrite (Z.div_mod j' 8), (Z.div_mod j 8), H1, H2 by lia; reflexivity.
Qed.

(** The register [r] of [p] becomes [r'] and the two registers of hardware hold new values. *)
Lemma register_changes s s' p v e r gs ge r' : laid_out is_status s -> seen s p v e r gs ge ->
  keeps_others (bit_no p) r r' -> same_shape s s' -> rest s' = rest s -> (forall q, ev_at s' q = ev_at s q) ->
  (forall b i, reg_at s' b i = if decide ((b, i) = (fst p, snd p / 8)) then Some r' else reg_at s b i) ->
  (forall g, g <> gs -> g <> ge -> value g s' = value g s) ->
  (forall g, (g = gs \/ g = ge) -> forall i, 0 <= i < 8 -> i <> bit_no p -> Z.testbit (value g s') i = Z.testbit (value g s) i) ->
  changes p (view_of e r' (value ge s') (value gs s')) s s'.
Proof.
  intros HL HS (Hsh & Ht & Hk) Hss Hre H1 H2 H3 H4; unfold reg_shape in Hsh; injection Hsh as Ha Hb Hc; constructor; [exact Hss| | | |exact Hre].
  - unfold view; rewrite H1, (se_event _ _ _ _ _ _ _ HS); cbn [mbind option_bind].
    rewrite (se_place _ _ _ _ _ _ _ HS); cbn [mbind option_bind]; rewrite H2, decide_True by reflexivity; cbn [mbind option_bind].
    rewrite Ha, Hb, (se_status _ _ _ _ _ _ _ HS), (se_enable _ _ _ _ _ _ _ HS); reflexivity.
  - intros q Hq; unfold view; rewrite H1; destruct (ev_at s q) as [e'|] eqn:Eq; [|reflexivity]; cbn [mbind option_bind].
    destruct q as [b' j']; destruct (lo_event _ _ HL _ _ _ Eq) as (rq & gsq & geq & P1 & P2 & P3 & P4 & P5).
    rewrite P1; cbn [mbind option_bind fst]; rewrite H2, P2; assert (Hj : 0 <= j' mod 8 < 8) by (apply Z.mod_pos_bound; lia).
    destruct (decide ((b', j' / 8) = (fst p, snd p / 8))) as [Heq|Hne].
    + injection Heq as Hb1 Hj1; subst b'; rewrite Hj1, (se_reg _ _ _ _ _ _ _ HS) in P2; injection P2 as <-.
      assert (Hbit : j' mod 8 <> bit_no p) by (intros Hx; apply Hq, same_bit_same_event; cbn; auto).
      cbn [mbind option_bind]; rewrite Ha, Hb, P3, P4; cbn [mbind option_bind]; f_equal.
      rewrite (se_status _ _ _ _ _ _ _ HS) in P3; injection P3 as <-; rewrite (se_enable _ _ _ _ _ _ _ HS) in P4; injection P4 as <-.
      unfold view_of; rewrite Hc, P5; replace (r_base_idx r + j' mod 8 - r_base_idx r) with (j' mod 8) by lia.
      destruct (Hk (j' mod 8) Hj Hbit) as (-> & -> & ->); rewrite !H4 by auto; reflexivity.
    + cbn [mbind option_bind]; rewrite P3, P4; cbn [mbind option_bind].
      assert (Hgs : gsq <> gs /\ geq <> ge /\ gsq <> ge /\ geq <> gs).
      { pose proof (se_reg _ _ _ _ _ _ _ HS) as Er; pose proof (se_status _ _ _ _ _ _ _ HS) as Es; pose proof (se_enable _ _ _ _ _ _ _ HS) as Ee.
        pose proof (proj1 (lo_kind _ _ HL _ _ _ gs Er) Es); pose proof (proj2 (lo_kind _ _ HL _ _ _ ge Er) Ee).
        pose proof (proj1 (lo_kind _ _ HL _ _ _ gsq P2) P3); pose proof (proj2 (lo_kind _ _ HL _ _ _ geq P2) P4).
        repeat split; intros ->; try congruence.
        - destruct (lo_status _ _ HL _ _ _ _ _ _ P2 Er); [congruence|]; apply Hne; congruence.
        - destruct (lo_enable _ _ HL _ _ _ _ _ _ P2 Er); [congruence|]; apply Hne; congruence. }
      rewrite !H3 by tauto; reflexivity.
  - intros Htu b i r0; rewrite H2; destruct (decide _); [|apply Htu]; intros [= <-]; apply Ht, (Htu _ _ _ (se_reg _ _ _ _ _ _ _ HS)).
Qed.

Lemma update_event_register_changes s p v e r gs ge f : laid_out is_status s -> seen s p v e r gs ge ->
  keeps_others (bit_no p) r (f r) ->
  exists s', update_event_register p f s = Some (tt, s') /\ only_blocks s s' /\
    changes p (view_of e (f r) (value ge s) (value gs s)) s s'.
Proof.
  intros HL HS Hf; destruct (put_register_run s (fst p) (snd p / 8) r (f r) (se_reg _ _ _ _ _ _ _ HS)) as (s' & E & Ho & H1 & H2 & H3).
  exists s'; split; [|split; [exact Ho|]].
  - unfold update_event_register, reg_of; eapply bind_ok.
    { eapply bind_ok; [apply get_event_run, (se_event _ _ _ _ _ _ _ HS)|]; rewrite (se_place _ _ _ _ _ _ _ HS); reflexivity. }
    eapply bind_ok; [apply get_register_run, (se_reg _ _ _ _ _ _ _ HS)|exact E].
  - assert (Hval : forall g, value g s' = value g s) by (intros; apply only_blocks_value, Ho).
    rewrite <- (Hval ge), <- (Hval gs); apply (register_changes s s' p v e r gs ge (f r) HL HS Hf).
    + apply (same_shape_put s s' Ho); [intros; rewrite H1; reflexivity| |exact H3].
      intros b i; rewrite H2; destruct (decide _) as [[= -> ->]|]; [|reflexivity].
      rewrite (se_reg _ _ _ _ _ _ _ HS); cbn; rewrite (proj1 Hf); reflexivity.
    + apply only_blocks_rest, Ho.
    + exact H1.
    + intros b i; apply H2.
    + intros; apply Hval.
    + intros; rewrite Hval; reflexivity.
Qed.

(** *** Hardware *)

Definition set_world (w : W) (s : st W G) : st W G := {| ev := ev s; regs := Registers.with_world (regs s) w |}.

Lemma host_run {A} (c : SM W A) s a w : c (Registers.world (regs s)) = Some (a, w) -> host c s = Some (a, set_world w s).
Proof. intros E; unfold host, in_regs, Registers.in_world; rewrite E; reflexivity. Qed.

(** Only the hardware changed. *)
Lemma hardware_changes s w p v e r gs ge : laid_out is_status s -> seen s p v e r gs ge ->
  (forall g, g <> gs -> g <> ge -> hw g w = value g s) ->
  (forall g, (g = gs \/ g = ge) -> forall i, 0 <= i < 8 -> i <> bit_no p -> Z.testbit (hw g w) i = Z.testbit (value g s) i) ->
  changes p (view_of e r (hw ge w) (hw gs w)) s (set_world w s).
Proof.
  intros HL HS H1 H2; apply (register_changes s (set_world w s) p v e r gs ge r HL HS); try reflexivity; try assumption.
  - split; [reflexivity|split; [auto|]]; intros; auto.
  - constructor; reflexivity.
  - intros b i; destruct (decide _) as [[= -> ->]|]; [exact (se_reg _ _ _ _ _ _ _ HS)|reflexivity].
Qed.

Lemma seen_world s w p v e r gs ge : seen s p v e r gs ge -> (forall g, hw g w = value g s) -> seen (set_world w s) p v e r gs ge.
Proof.
  intros [H1 H2 H3 H4 H5 H6 H7] Hw; constructor; try assumption.
  rewrite H7; unfold value in *; cbn; rewrite !Hw; reflexivity.
Qed.

Lemma seen_bit s p v e r gs ge : seen s p v e r gs ge -> e_idx e - r_base_idx r = bit_no p.
Proof. intros HS; rewrite (se_bit _ _ _ _ _ _ _ HS); lia. Qed.

Lemma read_gas_run s g : read_gas (Some g) s = Some ((UACPI_STATUS_OK, value g s), set_world (Registers.world (regs s)) s).
Proof.
  unfold read_gas; eapply bind_ok; [reflexivity|]; apply host_run, gh_read.
Qed.

Lemma set_world_id (s : st W G) : set_world (Registers.world (regs s)) s = s.
Proof. destruct s as [x [? ? ? ? ?]]; reflexivity. Qed.

Lemma set_set_world (s : st W G) w w' : set_world w (set_world w' s) = set_world w s.
Proof. reflexivity. Qed.

Lemma change_enable_run s p v e r gs ge on : laid_out is_status s -> seen s p v e r gs ge ->
  exists w, change_enable r (Z.shiftl 1 (bit_no p)) on s = Some (UACPI_STATUS_OK, set_world w s) /\
    changes p (with_on on v) s (set_world w s).
Proof.
  intros HL HS; unfold change_enable; rewrite (se_enable _ _ _ _ _ _ _ HS).
  set (x := if on then Z.lor (value ge s) (Z.shiftl 1 (bit_no p)) else Z.ldiff (value ge s) (Z.shiftl 1 (bit_no p))).
  destruct (gh_lock (g_gpe_state_slock (ev s)) (Registers.world (regs s))) as (f & w1 & E1 & H1).
  destruct (gh_write ge x w1) as (w2 & E2 & H2 & H3).
  destruct (gh_unlock (g_gpe_state_slock (ev s)) f w2) as (w3 & E3 & H4).
  assert (Hge : is_status ge = false) by (eapply (lo_kind _ _ HL); [apply (se_reg _ _ _ _ _ _ _ HS)|apply (se_enable _ _ _ _ _ _ _ HS)]).
  assert (Hgs : is_status gs = true) by (eapply (lo_kind _ _ HL); [apply (se_reg _ _ _ _ _ _ _ HS)|apply (se_status _ _ _ _ _ _ _ HS)]).
  rewrite Hge in H2; exists w3; assert (Hk : 0 <= bit_no p < 8) by (apply Z.mod_pos_bound; lia).
  assert (Hx : hw ge w3 = u8 x) by (rewrite H4, H2; reflexivity).
  assert (Hb : forall i, 0 <= i < 8 -> Z.testbit (hw ge w3) i = if decide (i = bit_no p) then on else Z.testbit (value ge s) i).
  { intros i Hi; rewrite Hx, wrap_testbit, (proj2 (Z.ltb_lt i 8)) by lia; cbn [andb]; unfold x; destruct on;
      rewrite ?Z.lor_spec, ?Z.ldiff_spec, one_testbit by lia; case_bool_decide; destruct (decide (i = bit_no p));
      try contradiction; cbn [negb]; rewrite ?orb_true_r, ?orb_false_r, ?andb_true_r, ?andb_false_r; reflexivity. }
  split.
  - eapply bind_ok; [reflexivity|]; eapply bind_ok; [apply host_run, E1|]; eapply bind_ok; [apply read_gas_run|].
    cbn [fst snd is_ok negb]; eapply bind_ok.
    { unfold write_gas; eapply bind_ok; [reflexivity|]; apply host_run; cbn.
      unfold value; cbn; rewrite (H1 ge); exact E2. }
    eapply bind_ok; [apply host_run, E3|reflexivity].
  - replace (with_on on v) with (view_of e r (hw ge w3) (hw gs w3)).
    + apply (hardware_changes s w3 p v e r gs ge HL HS).
      * intros g Hg1 Hg2; unfold value; rewrite H4, H3, H1 by assumption; reflexivity.
      * intros g [->| ->] i Hi Hne; [unfold value; rewrite H4, H3, H1 by congruence; reflexivity|].
        rewrite Hb, decide_False by assumption; reflexivity.
    + rewrite (se_view _ _ _ _ _ _ _ HS); unfold view_of, with_on; cbn; rewrite (seen_bit _ _ _ _ _ _ _ HS).
      rewrite (Hb (bit_no p) Hk), decide_True by reflexivity; unfold value; rewrite (H4 gs), (H3 gs), (H1 gs) by congruence; reflexivity.
Qed.

(** What [set_gpe_state] makes of an event. *)
Definition apply_state (x : gpe_state) (v : gview) : gview :=
  if is_disabled x then with_on false v
  else if v_masked v then v
  else if is_conditional x && negb (v_cur v) then v else with_on true v.

Lemma set_gpe_state_run s p v x : laid_out is_status s -> view s p = Some v ->
  exists w, set_gpe_state p x s = Some (UACPI_STATUS_OK, set_world w s) /\ changes p (apply_state x v) s (set_world w s).
Proof.
  intros HL Hv; destruct (view_seen s p v HL Hv) as (e & r & gs & ge & HS).
  assert (Hk : 0 <= bit_no p < 8) by (apply Z.mod_pos_bound; lia).
  assert (Hm : v_masked v = Z.testbit (masked_mask r) (bit_no p) /\ v_cur v = Z.testbit (current_mask r) (bit_no p)).
  { rewrite (se_view _ _ _ _ _ _ _ HS); unfold view_of; cbn; rewrite (seen_bit _ _ _ _ _ _ _ HS); auto. }
  destruct Hm as [Hm Hc]; destruct (change_enable_run s p v e r gs ge (negb (is_disabled x)) HL HS) as (w & Ew & Cw).
  assert (Hid : changes p v s (set_world (Registers.world (regs s)) s)) by (rewrite set_world_id; apply changes_refl, Hv).
  assert (Hrun : forall w y c, (if negb (is_disabled x) && negb (Z.land (masked_mask r) (Z.shiftl 1 (bit_no p)) =? 0) then mret UACPI_STATUS_OK else
      if is_conditional x && (Z.land (current_mask r) (Z.shiftl 1 (bit_no p)) =? 0) then mret UACPI_STATUS_OK else
      change_enable r (Z.shiftl 1 (bit_no p)) (negb (is_disabled x))) s = Some (y, set_world w s) -> changes p c s (set_world w s) ->
      set_gpe_state p x s = Some (y, set_world w s) /\ changes p c s (set_world w s)).
  { intros w' y c Hy Hcw; split; [|exact Hcw]; unfold set_gpe_state; eapply bind_ok; [apply (gpe_get_mask_run _ _ _ _ _ _ _ HS)|].
    eapply bind_ok; [apply (event_register_run _ _ _ _ _ _ _ HS)|exact Hy]. }
  rewrite !land_bit_zero, <- Hm, <- Hc in Hrun by lia; unfold apply_state.
  destruct (is_disabled x) eqn:Ed; cbn [negb andb] in *.
  { exists w; apply Hrun; [|exact Cw]; destruct x; try discriminate; exact Ew. }
  destruct (v_masked v) eqn:Em; cbn [negb] in *.
  { eexists; apply Hrun; [rewrite set_world_id; reflexivity|exact Hid]. }
  destruct (is_conditional x && negb (v_cur v)) eqn:Ec.
  { eexists; apply Hrun; [rewrite set_world_id; reflexivity|exact Hid]. }
  exists w; apply Hrun; [exact Ew|exact Cw].
Qed.

Lemma clear_gpe_run s p v : laid_out is_status s -> view s p = Some v ->
  exists w, clear_gpe p s = Some (UACPI_STATUS_OK, set_world w s) /\ changes p (with_pend false v) s (set_world w s).
Proof.
  intros HL Hv; destruct (view_seen s p v HL Hv) as (e & r & gs & ge & HS).
  assert (Hk : 0 <= bit_no p < 8) by (apply Z.mod_pos_bound; lia).
  assert (Hge : is_status ge = false) by (eapply (lo_kind _ _ HL); [apply (se_reg _ _ _ _ _ _ _ HS)|apply (se_enable _ _ _ _ _ _ _ HS)]).
  assert (Hgs : is_status gs = true) by (eapply (lo_kind _ _ HL); [apply (se_reg _ _ _ _ _ _ _ HS)|apply (se_status _ _ _ _ _ _ _ HS)]).
  destruct (gh_write gs (Z.shiftl 1 (bit_no p)) (Registers.world (regs s))) as (w & E & H1 & H2); rewrite Hgs in H1.
  assert (Hb : forall i, 0 <= i < 8 -> Z.testbit (hw gs w) i = if decide (i = bit_no p) then false else Z.testbit (value gs s) i).
  { intros i Hi; rewrite H1, Z.ldiff_spec, one_testbit by lia; case_bool_decide; destruct (decide _); try contradiction;
      cbn [negb]; rewrite ?andb_false_r, ?andb_true_r; reflexivity. }
  exists w; split.
  - unfold clear_gpe; eapply bind_ok; [apply (event_register_run _ _ _ _ _ _ _ HS)|].
    eapply bind_ok; [apply (gpe_get_mask_run _ _ _ _ _ _ _ HS)|]; rewrite (se_status _ _ _ _ _ _ _ HS).
    unfold write_gas; eapply bind_ok; [reflexivity|]; apply host_run, E.
  - replace (with_pend false v) with (view_of e r (hw ge w) (hw gs w)).
    + apply (hardware_changes s w p v e r gs ge HL HS).
      * intros g Hg1 Hg2; apply H2; assumption.
      * intros g [->| ->] i Hi Hne; [rewrite Hb, decide_False by assumption|unfold value; rewrite (H2 ge) by congruence]; reflexivity.
    + rewrite (se_view _ _ _ _ _ _ _ HS); unfold view_of, with_pend; cbn; rewrite (seen_bit _ _ _ _ _ _ _ HS).
      rewrite (Hb (bit_no p) Hk), decide_True by reflexivity; unfold value; rewrite (H2 ge) by congruence; reflexivity.
Qed.

(** After a change the layout is as before and the view is the new one. *)
Lemma changes_laid_out p v s s' : laid_out is_status s -> changes p v s s' -> laid_out is_status s'.
Proof. intros HL H; eapply laid_out_shape; [apply H|exact HL]. Qed.

(** What [restore_gpe] makes of an event. *)
Definition restored (v : gview) : gview :=
  with_event (set_block false) (apply_state GPE_STATE_ENABLED_CONDITIONALLY
    (if triggering (v_event v) =? UACPI_GPE_TRIGGERING_LEVEL then with_pend false v else v)).

Lemma restore_gpe_run s p v : laid_out is_status s -> view s p = Some v ->
  exists s', restore_gpe p s = Some (UACPI_STATUS_OK, s') /\ changes p (restored v) s s'.
Proof.
  intros HL Hv; destruct (view_seen s p v HL Hv) as (e & r & gs & ge & HS); unfold restored.
  replace (v_event v) with e by (rewrite (se_view _ _ _ _ _ _ _ HS); reflexivity).
  set (v1 := if triggering e =? _ then with_pend false v else v).
  assert (H1 : exists w, (if triggering e =? UACPI_GPE_TRIGGERING_LEVEL then clear_gpe p else mret UACPI_STATUS_OK) s =
      Some (UACPI_STATUS_OK, set_world w s) /\ changes p v1 s (set_world w s)).
  { unfold v1; destruct (triggering e =? _); [apply clear_gpe_run; assumption|].
    exists (Registers.world (regs s)); rewrite set_world_id; split; [reflexivity|apply changes_refl, Hv]. }
  destruct H1 as (w1 & E1 & C1).
  destruct (set_gpe_state_run (set_world w1 s) p v1 GPE_STATE_ENABLED_CONDITIONALLY
    (changes_laid_out _ _ _ _ HL C1) (ch_view _ _ _ _ C1)) as (w2 & E2 & C2).
  assert (C12 := changes_trans _ _ _ _ _ _ C1 C2).
  destruct (update_event_changes _ p _ (set_block false) (changes_laid_out _ _ _ _ HL C12) (ch_view _ _ _ _ C12))
    as (s3 & E3 & _ & C3); [intros; reflexivity|].
  exists s3; split; [|exact (changes_trans _ _ _ _ _ _ C12 C3)]; unfold restore_gpe.
  eapply bind_ok; [apply get_event_run, (se_event _ _ _ _ _ _ _ HS)|]; eapply bind_ok; [exact E1|]; cbn [is_ok negb].
  eapply bind_ok; [exact E2|]; eapply bind_ok; [exact E3|reflexivity].
Qed.

(** *** Users *)

Lemma toggle_masks_run s p v on : laid_out is_status s -> tuned s -> view s p = Some v ->
  exists s', gp_event_toggle_masks p on s = Some (tt, s') /\ only_blocks s s' /\ changes p (with_run on v) s s'.
Proof.
  intros HL Ht Hv; destruct (view_seen s p v HL Hv) as (e & r & gs & ge & HS).
  assert (Hk : 0 <= bit_no p < 8) by (apply Z.mod_pos_bound; lia).
  set (m := if on then Z.lor (runtime_mask r) (Z.shiftl 1 (bit_no p)) else Z.ldiff (runtime_mask r) (Z.shiftl 1 (bit_no p))).
  assert (Hm : forall i, 0 <= i < 8 -> Z.testbit m i = if decide (i = bit_no p) then on else Z.testbit (runtime_mask r) i).
  { intros i Hi; unfold m; destruct on; rewrite ?Z.lor_spec, ?Z.ldiff_spec, one_testbit by lia; case_bool_decide;
      destruct (decide _); try contradiction; cbn [negb]; rewrite ?orb_true_r, ?orb_false_r, ?andb_true_r, ?andb_false_r; reflexivity. }
  pose proof (Ht _ _ _ (se_reg _ _ _ _ _ _ _ HS)) as Hcr.
  destruct (update_event_register_changes s p v e r gs ge (fun r =>
      let m := if on then Z.lor (runtime_mask r) (Z.shiftl 1 (bit_no p)) else Z.ldiff (runtime_mask r) (Z.shiftl 1 (bit_no p)) in
      set_masks m (wake_mask r) (masked_mask r) m r) HL HS) as (s' & E & Ho & C).
  - split; [reflexivity|split; [reflexivity|]]; cbn; fold m; intros i Hi Hne; rewrite Hcr, Hm, decide_False by assumption; auto.
  - exists s'; split; [|split; [exact Ho|]].
    + unfold gp_event_toggle_masks; eapply bind_ok; [apply (gpe_get_mask_run _ _ _ _ _ _ _ HS)|exact E].
    + replace (with_run on v) with (view_of e (set_masks m (wake_mask r) (masked_mask r) m r) (value ge s) (value gs s)); [exact C|].
      rewrite (se_view _ _ _ _ _ _ _ HS); unfold view_of, with_run; cbn; rewrite (seen_bit _ _ _ _ _ _ _ HS).
      rewrite Hm, decide_True by (assumption || reflexivity); reflexivity.
Qed.

(** What the first user and the last one change. *)
Definition first_user (clear : bool) (v : gview) : gview :=
  let v := with_event (set_users 1) v in
  apply_state GPE_STATE_ENABLED (with_run true (if clear then with_pend false v else v)).
Definition last_user (v : gview) : gview := with_on false (with_run false (with_event (set_users 0) v)).

Definition user_added (clear : bool) (v : gview) : gview :=
  if num_users (v_event v) =? 0 then first_user clear v
  else if num_users (v_event v) =? 0xff then v
  else with_event (set_users (num_users (v_event v) + 1)) v.
Definition user_removed (v : gview) : gview :=
  if num_users (v_event v) =? 0 then v
  else if num_users (v_event v) =? 1 then last_user v
  else with_event (set_users (num_users (v_event v) - 1)) v.

Lemma gpe_add_user_run s p v clear : laid_out is_status s -> tuned s -> view s p = Some v ->
  0 <= num_users (v_event v) ->
  exists s', gpe_add_user p clear s =
      Some (if num_users (v_event v) =? 0xff then UACPI_STATUS_INVALID_ARGUMENT else UACPI_STATUS_OK, s') /\
    changes p (user_added clear v) s s'.
Proof.
  intros HL Ht Hv Hn; destruct (view_seen s p v HL Hv) as (e & r & gs & ge & HS).
  assert (He : v_event v = e) by (rewrite (se_view _ _ _ _ _ _ _ HS); reflexivity); unfold user_added, gpe_add_user; rewrite He in *.
  destruct (Z.eqb_spec (num_users e) 0xff) as [Hff|Hff].
  { exists s; split; [|rewrite (proj2 (Z.eqb_neq (num_users e) 0)) by lia; apply changes_refl, Hv].
    eapply bind_ok; [apply get_event_run, (se_event _ _ _ _ _ _ _ HS)|]; rewrite Hff; reflexivity. }
  destruct (put_event_changes s p v e (set_users (num_users e + 1) e) HL Hv (se_event _ _ _ _ _ _ _ HS) eq_refl) as (s1 & E1 & _ & C1).
  replace (with_event (fun _ => set_users (num_users e + 1) e) v) with (with_event (set_users (num_users e + 1)) v) in C1
    by (unfold with_event; rewrite He; reflexivity).
  destruct (Z.eqb_spec (num_users e) 0) as [H0|H0].
  2: { exists s1; split; [|exact C1]; eapply bind_ok; [apply get_event_run, (se_event _ _ _ _ _ _ _ HS)|].
       rewrite (proj2 (Z.eqb_neq _ _) Hff); eapply bind_ok; [exact E1|]; rewrite (proj2 (Z.eqb_neq (num_users e + 1) 1)) by lia; reflexivity. }
  rewrite H0 in C1, E1; change (0 + 1) with 1 in C1, E1; set (v1 := with_event (set_users 1) v) in *.
  assert (HL1 := changes_laid_out _ _ _ _ HL C1).
  assert (H2 : exists w, (if clear then clear_gpe p;; mret tt else mret tt) s1 = Some (tt, set_world w s1) /\
      changes p (if clear then with_pend false v1 else v1) s1 (set_world w s1)).
  { destruct clear.
    - destruct (clear_gpe_run s1 p v1 HL1 (ch_view _ _ _ _ C1)) as (w & E & C); exists w; split; [|exact C].
      eapply bind_ok; [exact E|reflexivity].
    - exists (Registers.world (regs s1)); rewrite set_world_id; split; [reflexivity|apply changes_refl, (ch_view _ _ _ _ C1)]. }
  destruct H2 as (w & E2 & C2); assert (C12 := changes_trans _ _ _ _ _ _ C1 C2).
  destruct (toggle_masks_run _ p _ true (changes_laid_out _ _ _ _ HL C12) (ch_tuned _ _ _ _ C12 Ht) (ch_view _ _ _ _ C12)) as (s3 & E3 & _ & C3).
  assert (C13 := changes_trans _ _ _ _ _ _ C12 C3).
  destruct (set_gpe_state_run s3 p _ GPE_STATE_ENABLED (changes_laid_out _ _ _ _ HL C13) (ch_view _ _ _ _ C13)) as (w4 & E4 & C4).
  exists (set_world w4 s3); split; [|exact (changes_trans _ _ _ _ _ _ C13 C4)].
  eapply bind_ok; [apply get_event_run, (se_event _ _ _ _ _ _ _ HS)|]; rewrite H0; cbn [Z.eqb].
  eapply bind_ok; [exact E1|]; cbn [Z.eqb negb Z.add Pos.eqb]; eapply bind_ok; [exact E2|]; eapply bind_ok; [exact E3|].
  eapply bind_ok; [exact E4|]; reflexivity.
Qed.

Lemma gpe_remove_user_run s p v : laid_out is_status s -> tuned s -> view s p = Some v ->
  exists s', gpe_remove_user p s =
      Some (if num_users (v_event v) =? 0 then UACPI_STATUS_INVALID_ARGUMENT else UACPI_STATUS_OK, s') /\
    changes p (user_removed v) s s'.
Proof.
  intros HL Ht Hv; destruct (view_seen s p v HL Hv) as (e & r & gs & ge & HS).
  assert (He : v_event v = e) by (rewrite (se_view _ _ _ _ _ _ _ HS); reflexivity); unfold user_removed, gpe_remove_user; rewrite He in *.
  destruct (Z.eqb_spec (num_users e) 0) as [H0|H0].
  { exists s; split; [|apply changes_refl, Hv].
    eapply bind_ok; [apply get_event_run, (se_event _ _ _ _ _ _ _ HS)|]; rewrite H0; reflexivity. }
  destruct (put_event_changes s p v e (set_users (num_users e - 1) e) HL Hv (se_event _ _ _ _ _ _ _ HS) eq_refl) as (s1 & E1 & _ & C1).
  replace (with_event (fun _ => set_users (num_users e - 1) e) v) with (with_event (set_users (num_users e - 1)) v) in C1
    by (unfold with_event; rewrite He; reflexivity).
  destruct (Z.eqb_spec (num_users e) 1) as [H1|H1].
  2: { exists s1; split; [|exact C1]; eapply bind_ok; [apply get_event_run, (se_event _ _ _ _ _ _ _ HS)|].
       rewrite (proj2 (Z.eqb_neq _ _) H0); eapply bind_ok; [exact E1|]; rewrite (proj2 (Z.eqb_neq (num_users e - 1) 0)) by lia; reflexivity. }
  rewrite H1 in C1, E1; change (1 - 1) with 0 in C1, E1.
  destruct (toggle_masks_run _ p _ false (changes_laid_out _ _ _ _ HL C1) (ch_tuned _ _ _ _ C1 Ht) (ch_view _ _ _ _ C1)) as (s3 & E3 & _ & C3).
  assert (C13 := changes_trans _ _ _ _ _ _ C1 C3).
  destruct (set_gpe_state_run s3 p _ GPE_STATE_DISABLED (changes_laid_out _ _ _ _ HL C13) (ch_view _ _ _ _ C13)) as (w4 & E4 & C4).
  exists (set_world w4 s3); split; [|exact (changes_trans _ _ _ _ _ _ C13 C4)].
  eapply bind_ok; [apply get_event_run, (se_event _ _ _ _ _ _ _ HS)|]; rewrite H1; cbn [Z.eqb].
  eapply bind_ok; [exact E1|]; cbn [Z.eqb negb Z.sub Z.add Z.opp Z.pos_sub]; eapply bind_ok; [exact E3|].
  eapply bind_ok; [exact E4|]; reflexivity.
Qed.

(** *** Masks *)

Lemma mask_bit_run s p v (on : bool) : laid_out is_status s -> view s p = Some v ->
  exists s', update_event_register p (fun r =>
      set_masked (if on then Z.lor (masked_mask r) (Z.shiftl 1 (bit_no p)) else Z.ldiff (masked_mask r) (Z.shiftl 1 (bit_no p))) r) s =
    Some (tt, s') /\ only_blocks s s' /\ changes p (with_masked on v) s s'.
Proof.
  intros HL Hv; destruct (view_seen s p v HL Hv) as (e & r & gs & ge & HS).
  assert (Hk : 0 <= bit_no p < 8) by (apply Z.mod_pos_bound; lia).
  set (f := fun r : gpe_register G => set_masked (if on then Z.lor (masked_mask r) (Z.shiftl 1 (bit_no p)) else Z.ldiff (masked_mask r) (Z.shiftl 1 (bit_no p))) r).
  assert (Hm : forall i, 0 <= i < 8 -> Z.testbit (masked_mask (f r)) i = if decide (i = bit_no p) then on else Z.testbit (masked_mask r) i).
  { intros i Hi; unfold f; cbn; destruct on; rewrite ?Z.lor_spec, ?Z.ldiff_spec, one_testbit by lia; case_bool_decide;
      destruct (decide _); try contradiction; cbn [negb]; rewrite ?orb_true_r, ?orb_false_r, ?andb_true_r, ?andb_false_r; reflexivity. }
  destruct (update_event_register_changes s p v e r gs ge f HL HS) as (s' & E & Ho & C).
  - split; [reflexivity|split; [auto|]]; intros i Hi Hne; rewrite Hm, decide_False by assumption; auto.
  - exists s'; split; [exact E|split; [exact Ho|]].
    replace (with_masked on v) with (view_of e (f r) (value ge s) (value gs s)); [exact C|].
    rewrite (se_view _ _ _ _ _ _ _ HS); unfold view_of, with_masked; change (r_base_idx (f r)) with (r_base_idx r).
    rewrite (seen_bit _ _ _ _ _ _ _ HS), Hm, decide_True by (assumption || reflexivity); reflexivity.
Qed.

(** What unmasking makes of an event. *)
Definition unmasked (v : gview) : gview :=
  let v := with_masked false v in
  if negb (block_interrupts (v_event v)) && negb (num_users (v_event v) =? 0)
  then apply_state GPE_STATE_ENABLED_CONDITIONALLY v else v.

Lemma mask_bit_test s p v e r gs ge : seen s p v e r gs ge ->
  (Z.land (masked_mask r) (Z.shiftl 1 (bit_no p)) =? 0) = negb (v_masked v) /\
  (Z.land (current_mask r) (Z.shiftl 1 (bit_no p)) =? 0) = negb (v_cur v).
Proof.
  intros HS; assert (Hk : 0 <= bit_no p < 8) by (apply Z.mod_pos_bound; lia); rewrite !land_bit_zero by lia.
  rewrite (se_view _ _ _ _ _ _ _ HS); unfold view_of; cbn; rewrite (seen_bit _ _ _ _ _ _ _ HS); auto.
Qed.

Lemma unmask_run s p v : laid_out is_status s -> view s p = Some v ->
  exists s', gpe_mask_unmask p false s =
      Some (if v_masked v then UACPI_STATUS_OK else UACPI_STATUS_INVALID_ARGUMENT, s') /\
    changes p (if v_masked v then unmasked v else v) s s'.
Proof.
  intros HL Hv; destruct (view_seen s p v HL Hv) as (e & r & gs & ge & HS).
  assert (Ht := proj1 (mask_bit_test _ _ _ _ _ _ _ HS)); unfold gpe_mask_unmask.
  destruct (v_masked v) eqn:Em.
  2: { exists s; split; [|apply changes_refl, Hv]; eapply bind_ok; [apply (gpe_get_mask_run _ _ _ _ _ _ _ HS)|].
       eapply bind_ok; [apply (event_register_run _ _ _ _ _ _ _ HS)|]; rewrite Ht; reflexivity. }
  destruct (mask_bit_run s p v false HL Hv) as (s1 & E1 & _ & C1); assert (HL1 := changes_laid_out _ _ _ _ HL C1).
  destruct (view_seen s1 p _ HL1 (ch_view _ _ _ _ C1)) as (e1 & r1 & gs1 & ge1 & HS1).
  assert (He1 : v_event v = e1) by (transitivity (v_event (with_masked false v)); [reflexivity|rewrite (se_view _ _ _ _ _ _ _ HS1); reflexivity]).
  set (b := negb (block_interrupts e1) && negb (num_users e1 =? 0)).
  assert (H2 : exists s2, (if b then set_gpe_state p GPE_STATE_ENABLED_CONDITIONALLY;; mret tt else mret tt) s1 = Some (tt, s2) /\
      changes p (if b then apply_state GPE_STATE_ENABLED_CONDITIONALLY (with_masked false v) else with_masked false v) s1 s2).
  { destruct b.
    - destruct (set_gpe_state_run s1 p _ GPE_STATE_ENABLED_CONDITIONALLY HL1 (ch_view _ _ _ _ C1)) as (w & E & C).
      exists (set_world w s1); split; [eapply bind_ok; [exact E|reflexivity]|exact C].
    - exists s1; split; [reflexivity|apply changes_refl, (ch_view _ _ _ _ C1)]. }
  destruct H2 as (s2 & E2 & C2); exists s2; split.
  - eapply bind_ok; [apply (gpe_get_mask_run _ _ _ _ _ _ _ HS)|]; eapply bind_ok; [apply (event_register_run _ _ _ _ _ _ _ HS)|].
    rewrite Ht; cbv iota; eapply bind_ok; [exact E1|]; eapply bind_ok; [apply get_event_run, (se_event _ _ _ _ _ _ _ HS1)|].
    fold b; eapply bind_ok; [exact E2|reflexivity].
  - unfold unmasked; cbn [v_event with_masked]; rewrite He1; fold b; exact (changes_trans _ _ _ _ _ _ C1 C2).
Qed.
End Effects.
