(* ===== verification/EventInv.v ===== *)
(** * Events: the invariant of general-purpose events

    An event that is masked is disabled in hardware; one that is in use, neither masked
    nor being handled, is enabled; the bits that say an event is in use agree with its
    count of users.  Every operation on events, every interrupt and every piece of
    queued work keeps this, whatever the callbacks of the host do to events through
    these operations. *)

From S2P Require Import Prelude UCore Namespace Gas Mutex Registers Events EventSpec.

Open Scope word_scope.

Section Invariant.
Context {W G : Type} {GO : GasOps W G} {EH : EventHost W G} {EL : EventLock W} {HW : GpeHardware W G}.

(** [excused]: the event may be masked and still enabled, as while it is being masked. *)
Record ok_view (excused : Prop) (v : gview) : Prop := {
  ok_users : 0 <= num_users (v_event v) <= 0xff;
  ok_run : v_run v = negb (num_users (v_event v) =? 0);
  ok_cur : v_cur v = v_run v;
  ok_live : v_run v = true -> v_masked v = false -> block_interrupts (v_event v) = false -> v_on v = true;
  ok_mask : v_masked v = true -> v_on v = true -> excused }.

Record inv (X : event_ptr -> Prop) (s : st W G) : Prop := {
  inv_layout : laid_out is_status s;
  inv_tuned : tuned s;
  inv_view p v : view s p = Some v -> ok_view (X p) v }.

Definition nobody (p : event_ptr) : Prop := False.

(** What every step keeps. *)
Definition kept (s s' : st W G) : Prop := forall X, inv X s -> inv X s' /\ same_shape s s'.

#[export] Instance kept_refl : Reflexive kept.
Proof. intros s X H; split; [exact H|reflexivity]. Qed.
#[export] Instance kept_trans : Transitive kept.
Proof.
  intros s1 s2 s3 H1 H2 X H; destruct (H1 X H) as [H3 S1]; destruct (H2 X H3) as [H4 S2].
  split; [exact H4|etransitivity; eassumption].
Qed.

(** A change of one event's view to an acceptable one. *)
Lemma changes_inv X p v s s' : changes p v s s' -> inv X s -> ok_view (X p) v -> inv X s'.
Proof.
  intros C [H1 H2 H3] Hv; constructor; [eapply changes_laid_out; eassumption|apply C, H2|].
  intros q v'; destruct (decide (q = p)) as [->|Hq].
  - rewrite (ch_view _ _ _ _ C); intros [= <-]; exact Hv.
  - rewrite (ch_other _ _ _ _ C q Hq); apply H3.
Qed.

(** An event that can be read has a view, one that cannot stops every operation. *)
Lemma ev_at_view X s p e : inv X s -> ev_at s p = Some e -> exists v, view s p = Some v /\ v_event v = e.
Proof.
  destruct p as [b j]; intros HI E; destruct (lo_event _ _ (inv_layout _ _ HI) _ _ _ E) as (r & gs & ge & H1 & H2 & H3 & H4 & _).
  unfold view; rewrite E; cbn [mbind option_bind]; rewrite H1; cbn [mbind option_bind fst]; rewrite H2; cbn [mbind option_bind].
  rewrite H3, H4; eexists; split; reflexivity.
Qed.

Lemma get_event_none (s : st W G) p : ev_at s p = None -> get_event p s = None.
Proof.
  intros E; destruct (get_event p s) as [[e s']|] eqn:E1; [|reflexivity].
  apply get_event_inv in E1 as [_ E1]; congruence.
Qed.

Definition stops {A} (p : event_ptr) (c : SM (st W G) A) : Prop := forall s, ev_at s p = None -> c s = None.

Lemma stops_get {B} p (k : gp_event -> SM (st W G) B) : stops p (mbind k (get_event p)).
Proof. intros s E; apply SM_bind_None, get_event_none, E. Qed.

Lemma stops_bind {A B} p (c : SM (st W G) A) (k : A -> SM (st W G) B) : stops p c -> stops p (mbind k c).
Proof. intros H s E; apply SM_bind_None, H, E. Qed.

(** The operations that are described exactly keep the invariant when the view they lead
    to is acceptable. *)
Lemma exact_kept {A} p (c : SM (st W G) A) (f : gview -> gview) : stops p c ->
  (forall s v, laid_out is_status s -> tuned s -> view s p = Some v -> 0 <= num_users (v_event v) ->
     exists a s', c s = Some (a, s') /\ changes p (f v) s s') ->
  (forall x v, ok_view x v -> ok_view x (f v)) -> steps kept c.
Proof.
  intros Hs Hc Hf s a s' E X HI; destruct (ev_at s p) as [e|] eqn:Ee; [|rewrite (Hs s Ee) in E; discriminate].
  destruct (ev_at_view X s p e HI Ee) as (v & Hv & _); assert (Hok := inv_view _ _ HI _ _ Hv).
  destruct (Hc s v (inv_layout _ _ HI) (inv_tuned _ _ HI) Hv (proj1 (ok_users _ _ Hok))) as (a' & s1 & E1 & C).
  rewrite E1 in E; injection E as <- <-; split; [eapply changes_inv; [exact C|exact HI|apply Hf, Hok]|apply C].
Qed.

Ltac view_cases := repeat match goal with
  | |- context [if ?b then _ else _] => destruct b eqn:?; cbn [v_event v_run v_cur v_masked v_on v_pend num_users block_interrupts] in *
  end.

(** *** Acceptable views *)

Lemma ok_pend x b v : ok_view x v -> ok_view x (with_pend b v).
Proof. intros []; constructor; assumption. Qed.

Lemma ok_event x f v : (forall e, num_users (f e) = num_users e /\ block_interrupts (f e) = block_interrupts e) ->
  ok_view x v -> ok_view x (with_event f v).
Proof.
  intros Hf []; destruct (Hf (v_event v)) as [H1 H2]; constructor; cbn; rewrite ?H1, ?H2; assumption.
Qed.

Lemma ok_blocked x v : ok_view x v -> ok_view x (with_on false (with_event (set_block true) v)).
Proof. intros []; constructor; cbn; auto; discriminate. Qed.

Lemma ok_masked x v : v_masked v = true -> ok_view True v -> ok_view x (with_on false v).
Proof. intros Hm []; constructor; cbn; auto; [congruence|discriminate]. Qed.

Lemma ok_excused (x : Prop) v : ok_view x v -> ok_view True v.
Proof. intros []; constructor; auto. Qed.

Lemma ok_masking x v : ok_view x v -> ok_view True (with_masked true v).
Proof. intros []; constructor; cbn; auto; discriminate. Qed.

(** Enabling an event that is not being handled. *)
Lemma ok_enabled x v cond : ok_view x (with_event (set_block true) v) ->
  ok_view x (with_event (set_block false) (apply_state (if cond : bool then GPE_STATE_ENABLED_CONDITIONALLY else GPE_STATE_ENABLED) v)).
Proof.
  intros [H1 H2 H3 H4 H5]; cbn in *; unfold apply_state.
  destruct cond, (v_masked v) eqn:Em, (v_cur v) eqn:Ec; constructor; cbn; auto; intros; congruence.
Qed.

Lemma ok_block x v : ok_view x v -> ok_view x (with_event (set_block true) v).
Proof. intros []; constructor; cbn; auto; discriminate. Qed.

Lemma ok_unblocked x v : ok_view x (with_event (set_block false) v) -> block_interrupts (v_event v) = false -> ok_view x v.
Proof. intros [H1 H2 H3 H4 H5] Hb; constructor; cbn in *; auto. Qed.

Lemma ok_first_user x c v : num_users (v_event v) = 0 -> ok_view x v -> ok_view x (first_user c v).
Proof.
  intros Hn [H1 H2 H3 H4 H5]; unfold first_user, apply_state; destruct c; cbn;
    destruct (v_masked v) eqn:Em; constructor; cbn; auto; intros; try lia; congruence.
Qed.

Lemma ok_user_added x c v : ok_view x v -> ok_view x (user_added c v).
Proof.
  intros H; unfold user_added; destruct (Z.eqb_spec (num_users (v_event v)) 0); [apply ok_first_user; assumption|].
  destruct (Z.eqb_spec (num_users (v_event v)) 0xff); [exact H|]; destruct H as [H1 H2 H3 H4 H5]; constructor; cbn; auto; [lia|].
  rewrite H2, (proj2 (Z.eqb_neq _ 0)), (proj2 (Z.eqb_neq _ 0)) by lia; reflexivity.
Qed.

Lemma ok_user_removed x v : ok_view x v -> ok_view x (user_removed v).
Proof.
  intros H; unfold user_removed; destruct (Z.eqb_spec (num_users (v_event v)) 0); [exact H|].
  destruct (Z.eqb_spec (num_users (v_event v)) 1); destruct H as [H1 H2 H3 H4 H5].
  - constructor; cbn; auto; intros; try lia; discriminate.
  - constructor; cbn; auto; [lia|]; rewrite H2, (proj2 (Z.eqb_neq _ 0)), (proj2 (Z.eqb_neq _ 0)) by lia; reflexivity.
Qed.

Lemma ok_restored x v : ok_view x v -> ok_view x (restored v).
Proof.
  intros H; unfold restored; apply (ok_enabled x _ true), ok_block; destruct (_ =? _); [apply ok_pend|]; exact H.
Qed.

Lemma ok_unmasked x v : ok_view x v -> ok_view x (if v_masked v then unmasked v else v).
Proof.
  intros H; destruct (v_masked v) eqn:Em; [|exact H]; unfold unmasked, apply_state; cbn.
  destruct H as [H1 H2 H3 H4 H5]; destruct (block_interrupts (v_event v)) eqn:Eb, (num_users (v_event v) =? 0) eqn:En,
    (v_cur v) eqn:Ec; cbn in *; constructor; cbn; rewrite ?En; auto; intros; congruence.
Qed.
(** *** What the host's functions may do *)

Definition quiet (w w' : W) : Prop := forall g, hw g w' = hw g w.

(** In-flight work does not unmask or mask anything. *)
Definition same_masks (s s' : st W G) : Prop :=
  forall p v v', view s p = Some v -> view s' p = Some v' -> v_masked v' = v_masked v.

Class EventHostLaws := {
  el_gpe cb ctx d i : steps kept (call_gpe_handler cb ctx d i);
  el_wait : steps kept kernel_wait_for_work_completion;
  el_wait_masks : steps same_masks kernel_wait_for_work_completion;
  el_method n : steps kept (execute_method n);
  el_notify d v : steps kept (notify_all d v);
  el_alloc n : steps kept (kernel_alloc_struct n);
  el_schedule w : steps quiet (kernel_schedule_work w);
  el_ns_lock : steps quiet ns_write_lock;
  el_ns_unlock : steps quiet ns_write_unlock;
  el_is_method n : steps quiet (node_is_method n);
  el_is_device n : steps quiet (node_is_device n);
  el_acquire : steps quiet event_lock_acquire;
  el_release : steps quiet event_lock_release }.

Context {LAWS : EventHostLaws}.

(** Steps that do not touch blocks. *)
Lemma quiet_kept s s' : blocks (ev s') = blocks (ev s) -> ctxs (ev s') = ctxs (ev s) ->
  g_gpe_interrupt_head (ev s') = g_gpe_interrupt_head (ev s) -> (forall g, value g s' = value g s) -> kept s s'.
Proof.
  intros Hb Hc Hh Hv X [H1 H2 H3].
  assert (He : forall p, ev_at s' p = ev_at s p) by (intros; unfold ev_at; rewrite Hb; reflexivity).
  assert (Hr : forall b i, reg_at s' b i = reg_at s b i) by (intros; unfold reg_at; rewrite Hb; reflexivity).
  assert (HS : same_shape s s') by (constructor; intros; rewrite ?He, ?Hr, ?Hb; auto).
  split; [|exact HS]; constructor; [eapply laid_out_shape; eassumption|intros b i r; rewrite Hr; apply H2|].
  intros p v; rewrite (view_ext s s' p (He p) Hr Hv); apply H3.
Qed.

Lemma host_kept {A} (c : SM W A) : steps quiet c -> steps kept (host c).
Proof.
  intros Hc s a s'; unfold host, in_regs, Registers.in_world; destruct (c _) as [[x w]|] eqn:E; [|discriminate].
  intros [= <- <-]; apply quiet_kept; try reflexivity; intros g; apply (Hc _ _ _ E).
Qed.

Lemma gets_kept {A} (f : event_state G -> A) : steps kept (gets f).
Proof. apply steps_gets; exact _. Qed.

Lemma of_opt_kept {A} (o : option A) : steps kept (of_opt o).
Proof. destruct o; [apply steps_ret; exact _|apply steps_undefined]. Qed.

(** Updates of the statics and of the heaps of handlers. *)
Lemma modify_kept f : (forall x, blocks (f x) = blocks x /\ ctxs (f x) = ctxs x /\ g_gpe_interrupt_head (f x) = g_gpe_interrupt_head x) ->
  steps kept (modify f).
Proof. intros Hf s a s' [= <- <-]; destruct (Hf (ev s)) as (H1 & H2 & H3); apply quiet_kept; auto. Qed.

Create HintDb kept discriminated.

Lemma kept_ret {A} (a : A) : steps kept (mret a : SM (st W G) A).
Proof. apply steps_ret; exact _. Qed.
Lemma kept_bind {A B} (c : SM (st W G) A) (k : A -> SM (st W G) B) :
  steps kept c -> (forall a, steps kept (k a)) -> steps kept (mbind k c).
Proof. apply steps_bind; exact _. Qed.
Lemma kept_if {A} (b : bool) (c d : SM (st W G) A) : steps kept c -> steps kept d -> steps kept (if b then c else d).
Proof. apply steps_if. Qed.

Lemma get_event_kept p : steps kept (get_event p).
Proof. intros s e s' E; apply get_event_inv in E as [-> _]; reflexivity. Qed.

Lemma get_block_kept b : steps kept (get_block b).
Proof. apply kept_bind; [apply gets_kept|intros; apply of_opt_kept]. Qed.
Lemma get_ctx_kept b : steps kept (get_ctx b).
Proof. apply kept_bind; [apply gets_kept|intros; apply of_opt_kept]. Qed.
Lemma get_native_kept b : steps kept (get_native b).
Proof. apply kept_bind; [apply gets_kept|intros; apply of_opt_kept]. Qed.
Lemma get_register_kept b i : steps kept (get_register b i).
Proof. apply kept_bind; [apply get_block_kept|intros; apply of_opt_kept]. Qed.
Lemma reg_of_kept p : steps kept (reg_of p).
Proof. apply kept_bind; [apply get_event_kept|intros; apply of_opt_kept]. Qed.
Lemma event_register_kept p : steps kept (event_register p).
Proof. apply kept_bind; [apply reg_of_kept|intros; apply get_register_kept]. Qed.
Lemma gpe_get_mask_kept p : steps kept (gpe_get_mask p).
Proof.
  apply kept_bind; [apply get_event_kept|intros]; apply kept_bind; [apply event_register_kept|intros].
  apply kept_if; [apply kept_ret|apply steps_undefined].
Qed.
Lemma read_gas_kept g : steps kept (read_gas g).
Proof.
  apply kept_bind; [apply of_opt_kept|intros g']; apply host_kept; intros w a w'; rewrite gh_read; intros [= <- <-] ?; reflexivity.
Qed.

(** *** The operations on one event *)

Lemma stops_mask {B} p (k : Z -> SM (st W G) B) : stops p (mbind k (gpe_get_mask p)).
Proof. apply stops_bind, stops_get. Qed.
Lemma stops_event_register {B} p (k : gpe_register G -> SM (st W G) B) : stops p (mbind k (event_register p)).
Proof. apply stops_bind, stops_bind, stops_get. Qed.

Lemma update_event_kept p f : (forall e, event_shape (f e) = event_shape e) ->
  (forall e, num_users (f e) = num_users e /\ block_interrupts (f e) = block_interrupts e) -> steps kept (update_event p f).
Proof.
  intros Hs Hf; apply (exact_kept p _ (with_event f)); [apply stops_get| |intros; apply ok_event; assumption].
  intros s v HL _ Hv _; destruct (update_event_changes s p v f HL Hv Hs) as (s' & E & _ & C); eauto.
Qed.

Lemma put_event_kept p f : (forall e, event_shape (f e) = event_shape e) ->
  (forall e, num_users (f e) = num_users e /\ block_interrupts (f e) = block_interrupts e) ->
  steps kept (e ← get_event p; put_event p (f e)).
Proof. apply update_event_kept. Qed.

Lemma clear_gpe_kept p : steps kept (clear_gpe p).
Proof.
  apply (exact_kept p _ (with_pend false)); [apply stops_event_register| |intros; apply ok_pend; assumption].
  intros s v HL _ Hv _; destruct (clear_gpe_run s p v HL Hv) as (w & E & C); eauto.
Qed.

Lemma restore_gpe_kept p : steps kept (restore_gpe p).
Proof.
  apply (exact_kept p _ restored); [apply stops_get| |apply ok_restored].
  intros s v HL _ Hv _; destruct (restore_gpe_run s p v HL Hv) as (s' & E & C); eauto.
Qed.

Lemma gpe_add_user_kept p clear : steps kept (gpe_add_user p clear).
Proof.
  apply (exact_kept p _ (user_added clear)); [apply stops_get| |intros; apply ok_user_added; assumption].
  intros s v HL Ht Hv Hn; destruct (gpe_add_user_run s p v clear HL Ht Hv Hn) as (s' & E & C); eauto.
Qed.

Lemma gpe_remove_user_kept p : steps kept (gpe_remove_user p).
Proof.
  apply (exact_kept p _ user_removed); [apply stops_get| |apply ok_user_removed].
  intros s v HL Ht Hv _; destruct (gpe_remove_user_run s p v HL Ht Hv) as (s' & E & C); eauto.
Qed.

Lemma unmask_kept p : steps kept (gpe_mask_unmask p false).
Proof.
  apply (exact_kept p _ (fun v => if v_masked v then unmasked v else v)); [apply stops_mask| |apply ok_unmasked].
  intros s v HL _ Hv _; destruct (unmask_run s p v HL Hv) as (s' & E & C); eauto.
Qed.

(** Disabling together with the flag that says why. *)
Lemma block_run s p v : laid_out is_status s -> view s p = Some v ->
  exists s', (update_event p (set_block true);; set_gpe_state p GPE_STATE_DISABLED) s = Some (UACPI_STATUS_OK, s') /\
    changes p (with_on false (with_event (set_block true) v)) s s'.
Proof.
  intros HL Hv; destruct (update_event_changes s p v (set_block true) HL Hv) as (s1 & E1 & _ & C1); [reflexivity|].
  destruct (set_gpe_state_run s1 p _ GPE_STATE_DISABLED (changes_laid_out _ _ _ _ HL C1) (ch_view _ _ _ _ C1)) as (w & E2 & C2).
  exists (set_world w s1); split; [eapply bind_ok; [exact E1|exact E2]|exact (changes_trans _ _ _ _ _ _ C1 C2)].
Qed.

Lemma disable_then_block_run s p v : laid_out is_status s -> view s p = Some v ->
  exists w s', set_gpe_state p GPE_STATE_DISABLED s = Some (UACPI_STATUS_OK, set_world w s) /\
    update_event p (set_block true) (set_world w s) = Some (tt, s') /\
    changes p (with_on false (with_event (set_block true) v)) s s'.
Proof.
  intros HL Hv; destruct (set_gpe_state_run s p v GPE_STATE_DISABLED HL Hv) as (w & E1 & C1).
  destruct (update_event_changes _ p _ (set_block true) (changes_laid_out _ _ _ _ HL C1) (ch_view _ _ _ _ C1)) as (s2 & E2 & _ & C2); [reflexivity|].
  exists w, s2; split; [exact E1|split; [exact E2|exact (changes_trans _ _ _ _ _ _ C1 C2)]].
Qed.

Lemma resume_run s p v : laid_out is_status s -> view s p = Some v ->
  exists s', (update_event p (set_block false);; set_gpe_state p GPE_STATE_ENABLED) s = Some (UACPI_STATUS_OK, s') /\
    changes p (with_event (set_block false) (apply_state GPE_STATE_ENABLED v)) s s'.
Proof.
  intros HL Hv; destruct (update_event_changes s p v (set_block false) HL Hv) as (s1 & E1 & _ & C1); [reflexivity|].
  destruct (set_gpe_state_run s1 p _ GPE_STATE_ENABLED (changes_laid_out _ _ _ _ HL C1) (ch_view _ _ _ _ C1)) as (w & E2 & C2).
  exists (set_world w s1); split; [eapply bind_ok; [exact E1|exact E2]|].
  replace (with_event (set_block false) (apply_state GPE_STATE_ENABLED v))
    with (apply_state GPE_STATE_ENABLED (with_event (set_block false) v)); [exact (changes_trans _ _ _ _ _ _ C1 C2)|].
  unfold apply_state; cbn; destruct (v_masked v); reflexivity.
Qed.

Lemma suspend_resume_kept p x : x <> GPE_STATE_ENABLED_CONDITIONALLY ->
  steps kept (update_event p (set_block (is_disabled x));; set_gpe_state p x).
Proof.
  intros Hx; destruct x; [| congruence |]; cbn [is_disabled].
  - apply (exact_kept p _ (fun v => with_event (set_block false) (apply_state GPE_STATE_ENABLED v)));
      [apply stops_bind, stops_get| |intros; apply (ok_enabled _ _ false), ok_block; assumption].
    intros s v HL _ Hv _; destruct (resume_run s p v HL Hv) as (s' & E & C); eauto.
  - apply (exact_kept p _ (fun v => with_on false (with_event (set_block true) v)));
      [apply stops_bind, stops_get| |intros; apply ok_blocked; assumption].
    intros s v HL _ Hv _; destruct (block_run s p v HL Hv) as (s' & E & C); eauto.
Qed.

(** Masking waits for work in flight before and after the event is disabled. *)
Lemma inv_excuse X p s v s' : changes p (with_masked true v) s s' -> inv X s -> view s p = Some v ->
  inv (fun q => X q \/ q = p) s'.
Proof.
  intros C HI Hv; constructor; [eapply changes_laid_out; [apply HI|exact C]|apply C, HI|].
  intros q v'; destruct (decide (q = p)) as [->|Hq].
  - rewrite (ch_view _ _ _ _ C); intros [= <-]; destruct (ok_masking _ _ (inv_view _ _ HI _ _ Hv)).
    constructor; auto.
  - rewrite (ch_other _ _ _ _ C q Hq); intros Hv'; destruct (inv_view _ _ HI _ _ Hv'); constructor; auto.
Qed.

Lemma inv_unexcuse X p s v s' : changes p (with_on false v) s s' -> inv (fun q => X q \/ q = p) s -> view s p = Some v ->
  v_masked v = true -> inv X s'.
Proof.
  intros C HI Hv Hm; constructor; [eapply changes_laid_out; [apply HI|exact C]|apply C, HI|].
  intros q v'; destruct (decide (q = p)) as [->|Hq].
  - rewrite (ch_view _ _ _ _ C); intros [= <-]; apply ok_masked; [exact Hm|].
    eapply ok_excused, (inv_view _ _ HI), Hv.
  - rewrite (ch_other _ _ _ _ C q Hq); intros Hv'; destruct (inv_view _ _ HI _ _ Hv') as [? ? ? ? H5]; constructor; auto.
    intros; destruct (H5 ltac:(assumption) ltac:(assumption)); [assumption|contradiction].
Qed.

Lemma same_shape_ev s s' p e : same_shape s s' -> ev_at s p = Some e -> exists e', ev_at (W := W) (G := G) s' p = Some e'.
Proof. intros HS E; destruct (fmap_some_eq _ _ _ _ (eq_sym (ss_events _ _ HS p)) E) as (e' & ? & _); eauto. Qed.

Lemma mask_kept p : steps kept (gpe_mask_unmask p true).
Proof.
  intros s a s' E X HI; unfold gpe_mask_unmask in E.
  destruct (ev_at s p) as [e|] eqn:Ee; [|rewrite (stops_mask _ _ s Ee) in E; discriminate].
  destruct (ev_at_view X s p e HI Ee) as (v & Hv & _).
  destruct (view_seen s p v (inv_layout _ _ HI) Hv) as (e0 & r & gs & ge & HS).
  rewrite (SM_bind_Some _ _ _ _ _ (gpe_get_mask_run _ _ _ _ _ _ _ HS)) in E; cbv beta in E; rewrite (SM_bind_Some _ _ _ _ _ (event_register_run _ _ _ _ _ _ _ HS)) in E.
  rewrite (proj1 (mask_bit_test _ _ _ _ _ _ _ HS)) in E; destruct (v_masked v) eqn:Em; cbn [negb] in E.
  { injection E as <- <-; split; [exact HI|reflexivity]. }
  destruct (mask_bit_run s p v true (inv_layout _ _ HI) Hv) as (s1 & E1 & _ & C1); rewrite (SM_bind_Some _ _ _ _ _ E1) in E.
  apply SM_bind_inv in E as (u & s2 & E2 & E); assert (HI1 := inv_excuse X p s v s1 C1 HI Hv).
  destruct (el_wait _ _ _ E2 _ HI1) as [HI2 S2].
  destruct (view_seen s1 p _ (inv_layout _ _ HI1) (ch_view _ _ _ _ C1)) as (e1 & r1 & gs1 & ge1 & HS1).
  destruct (same_shape_ev _ _ _ _ S2 (se_event _ _ _ _ _ _ _ HS1)) as (e2 & Ee2).
  destruct (ev_at_view _ s2 p e2 HI2 Ee2) as (v2 & Hv2 & _).
  assert (Hm2 : v_masked v2 = true) by (rewrite (el_wait_masks _ _ _ E2 p _ _ (ch_view _ _ _ _ C1) Hv2); reflexivity).
  destruct (set_gpe_state_run s2 p v2 GPE_STATE_DISABLED (inv_layout _ _ HI2) Hv2) as (w & E3 & C3).
  rewrite (SM_bind_Some _ _ _ _ _ E3) in E; apply SM_bind_inv in E as (u' & s4 & E4 & E); injection E as <- <-.
  destruct (el_wait _ _ _ E4 X (inv_unexcuse X p s2 v2 _ C3 HI2 Hv2 Hm2)) as [HI4 S4].
  split; [exact HI4|]; etransitivity; [apply C1|]; etransitivity; [exact S2|]; etransitivity; [apply C3|exact S4].
Qed.

Lemma gpe_mask_unmask_kept p b : steps kept (gpe_mask_unmask p b).
Proof. destruct b; [apply mask_kept|apply unmask_kept]. Qed.

Hint Resolve kept_ret kept_if kept_bind gets_kept of_opt_kept get_event_kept get_block_kept get_ctx_kept get_native_kept
  get_register_kept reg_of_kept event_register_kept gpe_get_mask_kept read_gas_kept clear_gpe_kept restore_gpe_kept
  gpe_add_user_kept gpe_remove_user_kept gpe_mask_unmask_kept host_kept el_gpe el_wait el_method el_notify el_alloc
  el_schedule el_ns_lock el_ns_unlock el_is_method el_is_device el_acquire el_release : kept.
Hint Extern 1 (steps kept undefined) => apply steps_undefined : kept.
Hint Extern 1 (steps kept (let '(_, _) := ?x in _)) => destruct x : kept.

Ltac kept := repeat first
  [ progress intros
  | match goal with
    | |- steps kept (mbind _ _) => apply kept_bind
    | |- steps kept (if _ then _ else _) => apply kept_if
    | |- steps kept (mret _) => apply kept_ret
    | |- steps kept undefined => apply steps_undefined
    | |- steps kept (match ?x with _ => _ end) => destruct x
    end
  | solve [auto with kept nocore] | assumption ].

Lemma gpe_mask_safe_kept p : steps kept (gpe_mask_safe p).
Proof. unfold gpe_mask_safe; kept. Qed.

Lemma gpe_needs_polling_kept p : steps kept (gpe_needs_polling p).
Proof. unfold gpe_needs_polling; kept. Qed.

Lemma call_native_kept p d : steps kept (call_native p d).
Proof. unfold call_native; kept. Qed.

Lemma run_gpe_kept p d : steps kept (run_gpe p d).
Proof. pose proof call_native_kept; unfold run_gpe; kept. Qed.

Lemma dispatch_gpe_kept d p : steps kept (dispatch_gpe d p).
Proof.
  intros s a s' E X HI; apply SM_bind_inv in E as (e & s0 & Ee & E); apply get_event_inv in Ee as [-> Ee].
  case_bool_decide; [apply (call_native_kept _ _ _ _ _ E X HI)|].
  destruct (ev_at_view X s p e HI Ee) as (v & Hv & _).
  destruct (disable_then_block_run s p v (inv_layout _ _ HI) Hv) as (w & s1 & E1 & E2 & C).
  rewrite (SM_bind_Some _ _ _ _ _ E1) in E; cbn [is_ok negb] in E; rewrite (SM_bind_Some _ _ _ _ _ E2) in E.
  assert (HI1 := changes_inv X p _ s s1 C HI (ok_blocked _ _ (inv_view _ _ HI _ _ Hv))).
  apply SM_bind_inv in E as (ret & s2 & E3 & E).
  assert (H2 : inv X s2 /\ same_shape s1 s2 /\ ret = UACPI_STATUS_OK).
  { destruct (triggering e =? UACPI_GPE_TRIGGERING_EDGE).
    - destruct (clear_gpe_run s1 p _ (inv_layout _ _ HI1) (ch_view _ _ _ _ C)) as (w3 & E4 & C4).
      rewrite E4 in E3; injection E3 as <- <-; split; [|split; [apply C4|reflexivity]].
      apply (changes_inv X p _ s1 _ C4 HI1), ok_pend, (inv_view _ _ HI1), (ch_view _ _ _ _ C).
    - injection E3 as <- <-; split; [exact HI1|split; reflexivity]. }
  destruct H2 as (HI2 & S2 & ->); cbn [is_ok negb] in E; apply SM_bind_inv in E as (u & s3 & E5 & E); injection E as <- <-.
  destruct (run_gpe_kept _ _ _ _ _ E5 X HI2) as [HI3 S3].
  split; [exact HI3|]; etransitivity; [apply C|]; etransitivity; [exact S2|exact S3].
Qed.
Hint Resolve gpe_mask_safe_kept gpe_needs_polling_kept dispatch_gpe_kept : kept.

(** *** Interrupts and queued work *)

Lemma detect_events_kept n : forall j b i active int_ret, steps kept (detect_events n j b i active int_ret).
Proof. induction n as [|n IH]; intros; cbn [detect_events]; kept. Qed.

Lemma detect_registers_kept n : forall b i int_ret, steps kept (detect_registers n b i int_ret).
Proof. pose proof detect_events_kept; induction n as [|n IH]; intros; cbn [detect_registers]; kept. Qed.

Lemma detect_blocks_kept fuel : forall b int_ret, steps kept (detect_blocks fuel b int_ret).
Proof. pose proof detect_registers_kept; induction fuel as [|fuel IH]; intros; cbn [detect_blocks]; kept. Qed.

Lemma detect_gpes_kept b : steps kept (detect_gpes b).
Proof. pose proof detect_blocks_kept; unfold detect_gpes, block_fuel; kept. Qed.

Lemma handle_gpes_kept ctx : steps kept (handle_gpes ctx).
Proof. pose proof detect_gpes_kept; unfold handle_gpes; kept. Qed.

Lemma maybe_dispatch_gpe_kept d p : steps kept (maybe_dispatch_gpe d p).
Proof. unfold maybe_dispatch_gpe; kept. Qed.

Lemma notify_implicit_kept fuel : forall h, steps kept (notify_implicit fuel h).
Proof. induction fuel as [|fuel IH]; intros; cbn [notify_implicit]; kept. Qed.

Lemma async_run_gpe_handler_kept p : steps kept (async_run_gpe_handler p).
Proof. pose proof notify_implicit_kept; unfold async_run_gpe_handler, handle_locked, run_automatic, implicit_fuel, async_restore_gpe; kept. Qed.
Hint Resolve detect_gpes_kept handle_gpes_kept maybe_dispatch_gpe_kept : kept.

(** *** Searches and the public operations *)

Lemma for_each_block_of_kept {U} (cb : Z -> U -> SM (st W G) (bool * U)) : (forall b u, steps kept (cb b u)) ->
  forall fuel b u, steps kept (for_each_block_of cb fuel b u).
Proof. intros Hcb; induction fuel as [|fuel IH]; intros; cbn [for_each_block_of]; kept. Qed.

Lemma for_each_gpe_block_kept {U} (cb : Z -> U -> SM (st W G) (bool * U)) u : (forall b u, steps kept (cb b u)) ->
  steps kept (for_each_gpe_block cb u).
Proof.
  intros Hcb; pose proof (for_each_block_of_kept cb Hcb); unfold for_each_gpe_block, ctx_fuel; kept.
  revert a u; induction a0 as [|fuel IH]; intros; cbn [for_each_ctx]; unfold block_fuel; kept.
Qed.

Lemma do_find_gpe_kept d i b u : steps kept (do_find_gpe d i b u).
Proof. unfold do_find_gpe, gpe_from_block; kept. Qed.

Lemma get_gpe_kept d i : steps kept (get_gpe d i).
Proof. unfold get_gpe; kept; apply for_each_gpe_block_kept; intros; apply do_find_gpe_kept. Qed.

Lemma locked_kept {A} (fail : uacpi_status -> A) k : steps kept k -> steps kept (locked fail k).
Proof. intros; unfold locked; kept. Qed.

Lemma ensure_level_kept {A} l (fail : uacpi_status -> A) k : steps kept k -> steps kept (ensure_level l fail k).
Proof. intros; unfold ensure_level; kept. Qed.

Lemma on_gpe_kept {A} d i (fail : uacpi_status -> A) k : (forall d p, steps kept (k d p)) -> steps kept (on_gpe d i fail k).
Proof.
  intros; unfold on_gpe, sanitize_device_and_find_gpe; apply locked_kept; pose proof (get_gpe_kept); kept.
Qed.
Hint Resolve get_gpe_kept : kept.

Lemma loaded_on_gpe_kept {A} l d i (fail fail' : uacpi_status -> A) k : (forall d p, steps kept (k d p)) ->
  steps kept (ensure_level l fail (on_gpe d i fail' k)).
Proof. intros; apply ensure_level_kept, on_gpe_kept; assumption. Qed.

Lemma set_handler_kept p h t trig : steps kept (update_event p (set_handler h t trig)).
Proof. apply update_event_kept; intros; [reflexivity|split; reflexivity]. Qed.

Lemma put_native_kept p x : steps kept (put_native p x).
Proof. apply modify_kept; intros; repeat split. Qed.
Lemma free_native_kept p : steps kept (free_native p).
Proof. apply modify_kept; intros; repeat split. Qed.
Hint Resolve set_handler_kept put_native_kept free_native_kept : kept.

Lemma install_native_kept p trig t h c : steps kept (install_native p trig t h c).
Proof. unfold install_native; kept. Qed.

Lemma uninstall_native_kept d p h : steps kept (uninstall_native d p h).
Proof. unfold uninstall_native; kept. Qed.

Lemma enable_event_kept d p : steps kept (enable_event d p).
Proof. unfold enable_event; kept. Qed.

Lemma has_implicit_kept fuel : forall h d, steps kept (has_implicit fuel h d).
Proof. induction fuel as [|fuel IH]; intros; cbn [has_implicit]; kept. Qed.

Lemma add_implicit_kept p d : steps kept (add_implicit p d).
Proof.
  pose proof has_implicit_kept; unfold add_implicit, implicit_fuel; kept.
  - apply modify_kept; intros; repeat split.
  - apply update_event_kept; intros; [reflexivity|split; reflexivity].
Qed.

Lemma configure_wake_kept p d : steps kept (configure_wake p d).
Proof.
  pose proof add_implicit_kept; unfold configure_wake; kept; apply update_event_kept; intros; [reflexivity|split; reflexivity].
Qed.

Lemma setup_wake_kept p d : steps kept (setup_wake p d).
Proof.
  pose proof configure_wake_kept; unfold setup_wake; kept; apply update_event_kept; intros; [reflexivity|split; reflexivity].
Qed.

Lemma wake_mask_kept p (f : gpe_register G -> Z) : steps kept (update_event_register p (fun r => set_wake_mask (f r) r)).
Proof.
  apply (exact_kept p _ (fun v => v)); [apply stops_bind, stops_get| |auto].
  intros s v HL _ Hv _; destruct (view_seen s p v HL Hv) as (e & r & gs & ge & HS).
  destruct (update_event_register_changes s p v e r gs ge (fun r => set_wake_mask (f r) r) HL HS) as (s' & E & _ & C).
  - split; [reflexivity|split; auto].
  - exists tt, s'; split; [exact E|]; rewrite (se_view _ _ _ _ _ _ _ HS); exact C.
Qed.
Hint Resolve install_native_kept uninstall_native_kept enable_event_kept setup_wake_kept wake_mask_kept : kept.

Lemma enable_aml_events_kept n : forall b i poll, steps kept (enable_aml_events n b i poll).
Proof. induction n as [|n IH]; intros; cbn [enable_aml_events]; kept. Qed.

Lemma finalize_kept : steps kept uacpi_finalize_gpe_initialization.
Proof.
  pose proof enable_aml_events_kept; unfold uacpi_finalize_gpe_initialization; apply ensure_level_kept, locked_kept; kept.
  - apply modify_kept; intros; repeat split.
  - apply for_each_gpe_block_kept; intros; unfold do_initialize_gpe_block; kept.
Qed.

(** *** Runs *)

Inductive gpe_op :=
  | OP_ENABLE (device idx : Z) | OP_DISABLE (device idx : Z) | OP_CLEAR (device idx : Z)
  | OP_SUSPEND (device idx : Z) | OP_RESUME (device idx : Z) | OP_FINISH (device idx : Z)
  | OP_MASK (device idx : Z) | OP_UNMASK (device idx : Z)
  | OP_INSTALL (device idx trig handler ctx : Z) | OP_INSTALL_RAW (device idx trig handler ctx : Z)
  | OP_UNINSTALL (device idx handler : Z)
  | OP_SETUP_WAKE (device idx wake_device : Z) | OP_ENABLE_WAKE (device idx : Z) | OP_DISABLE_WAKE (device idx : Z)
  | OP_FINALIZE | OP_INTERRUPT (ctx : Z) | OP_WORK (w : work).

Definition run_work (w : work) : SM (st W G) unit :=
  match w with RUN_GPE_HANDLER p => async_run_gpe_handler p | RESTORE_GPE p => async_restore_gpe p end.

Definition run_op (op : gpe_op) : SM (st W G) unit :=
  match op with
  | OP_ENABLE d i => uacpi_enable_gpe d i;; mret tt
  | OP_DISABLE d i => uacpi_disable_gpe d i;; mret tt
  | OP_CLEAR d i => uacpi_clear_gpe d i;; mret tt
  | OP_SUSPEND d i => uacpi_suspend_gpe d i;; mret tt
  | OP_RESUME d i => uacpi_resume_gpe d i;; mret tt
  | OP_FINISH d i => uacpi_finish_handling_gpe d i;; mret tt
  | OP_MASK d i => uacpi_mask_gpe d i;; mret tt
  | OP_UNMASK d i => uacpi_unmask_gpe d i;; mret tt
  | OP_INSTALL d i t h c => uacpi_install_gpe_handler d i t h c;; mret tt
  | OP_INSTALL_RAW d i t h c => uacpi_install_gpe_handler_raw d i t h c;; mret tt
  | OP_UNINSTALL d i h => uacpi_uninstall_gpe_handler d i h;; mret tt
  | OP_SETUP_WAKE d i w => uacpi_setup_gpe_for_wake d i w;; mret tt
  | OP_ENABLE_WAKE d i => uacpi_enable_gpe_for_wake d i;; mret tt
  | OP_DISABLE_WAKE d i => uacpi_disable_gpe_for_wake d i;; mret tt
  | OP_FINALIZE => uacpi_finalize_gpe_initialization;; mret tt
  | OP_INTERRUPT ctx => handle_gpes ctx;; mret tt
  | OP_WORK w => run_work w
  end.

Fixpoint run_ops (l : list gpe_op) : SM (st W G) unit :=
  match l with [] => mret tt | op :: l' => run_op op;; run_ops l' end.

Lemma do_install_kept d i t ty h c : steps kept (do_install_gpe_handler d i t ty h c).
Proof.
  unfold do_install_gpe_handler; apply ensure_level_kept, kept_if; [apply kept_ret|apply on_gpe_kept; intros; auto with kept].
Qed.

Lemma setup_gpe_for_wake_kept d i w : steps kept (uacpi_setup_gpe_for_wake d i w).
Proof.
  unfold uacpi_setup_gpe_for_wake; apply ensure_level_kept; kept; apply on_gpe_kept; intros; auto with kept.
Qed.

Lemma for_wake_kept d i b : steps kept (gpe_enable_disable_for_wake d i b).
Proof.
  unfold gpe_enable_disable_for_wake; apply loaded_on_gpe_kept; kept.
Qed.

Lemma run_op_kept op : steps kept (run_op op).
Proof.
  destruct op; cbn [run_op]; try apply kept_bind; try (intros; apply kept_ret);
    try (apply loaded_on_gpe_kept; intros; solve [auto with kept]);
    try solve [apply do_install_kept|apply setup_gpe_for_wake_kept|apply for_wake_kept|apply finalize_kept|apply handle_gpes_kept].
  - apply loaded_on_gpe_kept; intros; apply suspend_resume_kept; discriminate.
  - apply loaded_on_gpe_kept; intros; apply (suspend_resume_kept p GPE_STATE_ENABLED); discriminate.
  - apply loaded_on_gpe_kept; kept.
  - destruct w; cbn [run_work]; [apply async_run_gpe_handler_kept|unfold async_restore_gpe; kept].
Qed.

(** C29.  While the system runs, the state of general-purpose events is kept by every sequence
    of the operations of [gpe_op], the calls on a single event, the final initialisation,
    interrupts and queued work: an event that is masked is disabled in hardware; one with
    users that is neither masked nor being handled is enabled in hardware; and the runtime
    bit of an event is set exactly while it has users, of which there are at most 255.
    Registers hold what is written to them ([GpeHardware]) and handlers keep this state.
    The calls for a sleep transition, which disable every event, enable those that wake the
    system or enable the used ones again, are not operations of this kind. *)
Theorem gpe_invariant_kept l s s' : inv nobody s -> run_ops l s = Some (tt, s') -> inv nobody s'.
Proof.
  intros HI E; assert (K : steps kept (run_ops l)); [|apply (K _ _ _ E nobody HI)].
  clear HI E s s'; induction l as [|op l IH]; cbn [run_ops]; [apply kept_ret|apply kept_bind; [apply run_op_kept|auto]].
Qed.
End Invariant.
Arguments EventHostLaws W G {GO EH EL HW}.
