(* ===== verification/EventLive.v ===== *)
(** * Events: users, handlers and queued work

    Exact behaviour of the operations on an event when the host is quiet: users are
    counted, installing a native handler and removing it leaves no trace, and every
    event that was handed over to a queued handler is enabled again once the queue has
    been worked off, in whatever order that happens. *)

From S2P Require Import Prelude UCore CList Namespace Gas Mutex Registers Events EventSpec EventInv.

Open Scope word_scope.

Section Users.
Context {W G : Type} {GO : GasOps W G} {EH : EventHost W G} {EL : EventLock W} {HW : GpeHardware W G}.

(** [n] times the same operation; the status of the last one that failed. *)
Fixpoint times (n : nat) (c : SM (st W G) uacpi_status) : SM (st W G) uacpi_status :=
  match n with O => mret UACPI_STATUS_OK | S n' => try_ok c (times n' c) end.

Lemma times_add n : forall s p v clear, laid_out is_status s -> tuned s -> view s p = Some v ->
  0 < num_users (v_event v) -> num_users (v_event v) + Z.of_nat n <= 0xff ->
  exists s', times n (gpe_add_user p clear) s = Some (UACPI_STATUS_OK, s') /\
    changes p (with_event (set_users (num_users (v_event v) + Z.of_nat n)) v) s s'.
Proof.
  induction n as [|n IH]; intros s p v clear HL Ht Hv H0 Hn; cbn [times].
  - exists s; split; [reflexivity|]; replace (with_event _ v) with v; [apply changes_refl, Hv|].
    destruct v as [[] ? ? ? ? ?]; unfold with_event, set_users; cbn; rewrite Z.add_0_r; reflexivity.
  - destruct (gpe_add_user_run s p v clear HL Ht Hv ltac:(lia)) as (s1 & E1 & C1).
    rewrite (proj2 (Z.eqb_neq _ 0xff)) in E1 by lia; unfold user_added in C1.
    rewrite (proj2 (Z.eqb_neq _ 0)), (proj2 (Z.eqb_neq _ 0xff)) in C1 by lia.
    destruct (IH s1 p _ clear (changes_laid_out _ _ _ _ HL C1) (ch_tuned _ _ _ _ C1 Ht) (ch_view _ _ _ _ C1)) as (s2 & E2 & C2);
      [cbn; lia|cbn; lia|].
    exists s2; split; [rewrite (try_ok_ok _ _ _ _ E1); exact E2|].
    replace (with_event (set_users (num_users (v_event v) + Z.of_nat (S n))) v) with
      (with_event (set_users (num_users (v_event (with_event (set_users (num_users (v_event v) + 1)) v)) + Z.of_nat n))
        (with_event (set_users (num_users (v_event v) + 1)) v)); [exact (changes_trans _ _ _ _ _ _ C1 C2)|].
    unfold with_event, set_users; cbn; do 2 f_equal; lia.
Qed.

Lemma times_remove n : forall s p v, laid_out is_status s -> tuned s -> view s p = Some v ->
  Z.of_nat n < num_users (v_event v) ->
  exists s', times n (gpe_remove_user p) s = Some (UACPI_STATUS_OK, s') /\
    changes p (with_event (set_users (num_users (v_event v) - Z.of_nat n)) v) s s'.
Proof.
  induction n as [|n IH]; intros s p v HL Ht Hv Hn; cbn [times].
  - exists s; split; [reflexivity|]; replace (with_event _ v) with v; [apply changes_refl, Hv|].
    destruct v as [[] ? ? ? ? ?]; unfold with_event, set_users; cbn; rewrite Z.sub_0_r; reflexivity.
  - destruct (gpe_remove_user_run s p v HL Ht Hv) as (s1 & E1 & C1).
    rewrite (proj2 (Z.eqb_neq _ 0)) in E1 by lia; unfold user_removed in C1.
    rewrite (proj2 (Z.eqb_neq _ 0)), (proj2 (Z.eqb_neq _ 1)) in C1 by lia.
    destruct (IH s1 p _ (changes_laid_out _ _ _ _ HL C1) (ch_tuned _ _ _ _ C1 Ht) (ch_view _ _ _ _ C1)) as (s2 & E2 & C2); [cbn; lia|].
    exists s2; split; [rewrite (try_ok_ok _ _ _ _ E1); exact E2|].
    replace (with_event (set_users (num_users (v_event v) - Z.of_nat (S n))) v) with
      (with_event (set_users (num_users (v_event (with_event (set_users (num_users (v_event v) - 1)) v)) - Z.of_nat n))
        (with_event (set_users (num_users (v_event v) - 1)) v)); [exact (changes_trans _ _ _ _ _ _ C1 C2)|].
    unfold with_event, set_users; cbn; do 2 f_equal; lia.
Qed.

(** The users of an event are counted: of [n] users that enable an unused event
    that is not masked (up to 255 of them), as long as some remain the event is enabled in
    hardware, and the last one to leave disables it; one more than 255 is refused and
    changes nothing, and so is leaving an unused event. *)
Theorem gpe_users_counted s p v n m clear : inv nobody s -> view s p = Some v -> num_users (v_event v) = 0 ->
  v_masked v = false -> (0 < n <= 255)%nat -> (m < n)%nat ->
  (exists s1, times n (gpe_add_user p clear) s = Some (UACPI_STATUS_OK, s1) /\
     (n = 255%nat -> exists s1', gpe_add_user p clear s1 = Some (UACPI_STATUS_INVALID_ARGUMENT, s1') /\ changes p (
        with_event (set_users 255) (first_user clear v)) s s1') /\
     exists s2, times m (gpe_remove_user p) s1 = Some (UACPI_STATUS_OK, s2) /\
       changes p (with_event (set_users (Z.of_nat (n - m))) (first_user clear v)) s s2 /\ v_on (first_user clear v) = true /\
       (m = (n - 1)%nat -> exists s3, gpe_remove_user p s2 = Some (UACPI_STATUS_OK, s3) /\
          changes p (last_user (first_user clear v)) s s3 /\
          exists s4, gpe_remove_user p s3 = Some (UACPI_STATUS_INVALID_ARGUMENT, s4) /\ changes p (last_user (first_user clear v)) s s4)).
Proof.
  intros HI Hv H0 Hm Hn Hmn; assert (HL := inv_layout _ _ HI); assert (Ht := inv_tuned _ _ HI).
  destruct n as [|n]; [lia|]; set (v1 := first_user clear v).
  assert (Hv1 : forall k, with_event (set_users k) v1 = with_event (set_users k) v1 /\ num_users (v_event v1) = 1).
  { intros k; split; [reflexivity|]; unfold v1, first_user, apply_state; cbn; destruct clear; cbn; rewrite Hm; reflexivity. }
  destruct (Hv1 0) as [_ Hu1]; clear Hv1.
  destruct (gpe_add_user_run s p v clear HL Ht Hv ltac:(lia)) as (s0 & E0 & C0).
  rewrite H0 in E0; cbn [Z.eqb] in E0; unfold user_added in C0; rewrite H0 in C0; cbn [Z.eqb] in C0; fold v1 in C0.
  destruct (times_add n s0 p v1 clear (changes_laid_out _ _ _ _ HL C0) (ch_tuned _ _ _ _ C0 Ht) (ch_view _ _ _ _ C0)) as (s1 & E1 & C1); [lia|lia|].
  rewrite Hu1 in C1; replace (1 + Z.of_nat n) with (Z.of_nat (S n)) in C1 by lia.
  assert (C01 := changes_trans _ _ _ _ _ _ C0 C1); assert (HL1 := changes_laid_out _ _ _ _ HL C01).
  exists s1; split; [cbn [times]; rewrite (try_ok_ok _ _ _ _ E0); exact E1|split].
  - intros Hn255; destruct (gpe_add_user_run s1 p _ clear HL1 (ch_tuned _ _ _ _ C01 Ht) (ch_view _ _ _ _ C01) ltac:(cbn; lia)) as (s1' & E & C).
    rewrite Hn255 in *; cbn in E; unfold user_added in C; cbn in C; exists s1'; split; [exact E|exact (changes_trans _ _ _ _ _ _ C01 C)].
  - destruct (times_remove m s1 p _ HL1 (ch_tuned _ _ _ _ C01 Ht) (ch_view _ _ _ _ C01)) as (s2 & E2 & C2); [cbn; lia|].
    change (num_users (v_event (with_event (set_users (Z.of_nat (S n))) v1))) with (Z.of_nat (S n)) in C2.
    replace (with_event (set_users (Z.of_nat (S n) - Z.of_nat m)) (with_event (set_users (Z.of_nat (S n))) v1))
      with (with_event (set_users (Z.of_nat (S n - m))) v1) in C2 by (rewrite Nat2Z.inj_sub by lia; reflexivity).
    assert (C02 := changes_trans _ _ _ _ _ _ C01 C2); exists s2; split; [exact E2|split; [exact C02|split]].
    { unfold v1, first_user, apply_state; destruct clear; cbn; rewrite Hm; reflexivity. }
    intros ->; replace (S n - (S n - 1))%nat with 1%nat in * by lia.
    destruct (gpe_remove_user_run s2 p _ (changes_laid_out _ _ _ _ HL C02) (ch_tuned _ _ _ _ C02 Ht) (ch_view _ _ _ _ C02)) as (s3 & E3 & C3).
    cbn in E3; unfold user_removed in C3; cbn [v_event with_event set_users num_users Z.of_nat Pos.of_succ_nat Z.eqb Pos.eqb] in C3.
    assert (C03 : changes p (last_user v1) s s3) by exact (changes_trans _ _ _ _ _ _ C02 C3).
    exists s3; split; [exact E3|split; [exact C03|]].
    destruct (gpe_remove_user_run s3 p _ (changes_laid_out _ _ _ _ HL C03) (ch_tuned _ _ _ _ C03 Ht) (ch_view _ _ _ _ C03)) as (s4 & E4 & C4).
    exists s4; split; [exact E4|exact (changes_trans _ _ _ _ _ _ C03 C4)].
Qed.
End Users.

Section RoundTrip.
Context {W G : Type} {GO : GasOps W G} {EH : EventHost W G} {EL : EventLock W} {HW : GpeHardware W G}.

(** A quiet host: there is memory, and no work is in flight. *)
Context (alloc_native : forall s : st W G, exists h w, kernel_alloc_struct sizeof_native s = Some (h, set_world w s) /\
  h <> 0 /\ natives (ev s) !! h = None /\ quiet (Registers.world (regs s)) w).
Context (wait_idle : forall s : st W G, kernel_wait_for_work_completion s = Some (tt, s)).

(** [p] is seen as [v] in [s'], other events as in [s], and [n] are the native handlers. *)
Record becomes (p : event_ptr) (v : gview) (n : gmap Z gpe_native_handler) (s s' : st W G) : Prop := {
  be_layout : laid_out is_status s';
  be_tuned : tuned s';
  be_shape : same_shape s s';
  be_view : view s' p = Some v;
  be_other q : q <> p -> view s' q = view s q;
  be_natives : natives (ev s') = n }.

Lemma becomes_changes p v v' n s s1 s2 : becomes p v n s s1 -> changes p v' s1 s2 -> becomes p v' n s s2.
Proof.
  intros [H1 H2 H3 H4 H5 H6] C; constructor; [eapply changes_laid_out; eassumption|apply C, H2| |apply C| |].
  - etransitivity; [exact H3|apply C].
  - intros q Hq; rewrite (ch_other _ _ _ _ C q Hq); apply H5, Hq.
  - rewrite <- H6; pose proof (ch_rest _ _ _ _ C) as R; unfold rest in R; congruence.
Qed.

Lemma becomes_self p v s : inv nobody s -> view s p = Some v -> becomes p v (natives (ev s)) s s.
Proof. intros HI Hv; constructor; try reflexivity; [apply HI|apply HI|exact Hv]. Qed.

(** Changes that cannot be seen. *)
Lemma becomes_silent p v n n' s s1 s2 : becomes p v n s s1 -> blocks (ev s2) = blocks (ev s1) -> ctxs (ev s2) = ctxs (ev s1) ->
  g_gpe_interrupt_head (ev s2) = g_gpe_interrupt_head (ev s1) -> (forall g, value g s2 = value g s1) -> natives (ev s2) = n' ->
  becomes p v n' s s2.
Proof.
  intros [H1 H2 H3 H4 H5 H6] Hb Hc Hh Hv Hn.
  assert (He : forall q, ev_at s2 q = ev_at s1 q) by (intros; unfold ev_at; rewrite Hb; reflexivity).
  assert (Hr : forall b i, reg_at s2 b i = reg_at s1 b i) by (intros; unfold reg_at; rewrite Hb; reflexivity).
  assert (HS : same_shape s1 s2) by (constructor; intros; rewrite ?He, ?Hr, ?Hb; auto).
  assert (Hvw : forall q, view s2 q = view s1 q) by (intros q; apply view_ext; auto).
  constructor; [eapply laid_out_shape; eassumption|intros b i r; rewrite Hr; apply H2| |rewrite Hvw; exact H4| |exact Hn].
  - etransitivity; eassumption.
  - intros q Hq; rewrite Hvw; auto.
Qed.

Lemma put_native_becomes p v n s s1 a x : becomes p v n s s1 -> exists s2, put_native a x s1 = Some (tt, s2) /\ becomes p v (<[a := x]> n) s s2.
Proof.
  intros B; eexists; split; [reflexivity|]; eapply becomes_silent; [exact B|reflexivity..|]; cbn; rewrite (be_natives _ _ _ _ _ B); reflexivity.
Qed.

Lemma free_native_becomes p v n s s1 a : becomes p v n s s1 -> exists s2, free_native a s1 = Some (tt, s2) /\ becomes p v (delete a n) s s2.
Proof.
  intros B; eexists; split; [reflexivity|]; eapply becomes_silent; [exact B|reflexivity..|]; cbn; rewrite (be_natives _ _ _ _ _ B); reflexivity.
Qed.

Lemma becomes_event p v n s s1 : becomes p v n s s1 -> get_event p s1 = Some (v_event v, s1).
Proof.
  intros B; destruct (view_seen s1 p v (be_layout _ _ _ _ _ B) (be_view _ _ _ _ _ B)) as (e & r & gs & ge & HS).
  rewrite (se_view _ _ _ _ _ _ _ HS); apply get_event_run, (se_event _ _ _ _ _ _ _ HS).
Qed.

(** Masking with no work in flight. *)
Definition silenced (v : gview) : gview := with_on false (with_masked true v).

Lemma mask_safe_becomes p v n s s1 : becomes p v n s s1 -> v_masked v = false ->
  exists s2, gpe_mask_safe p s1 = Some (v_cur v, s2) /\ becomes p (if v_cur v then silenced v else v) n s s2.
Proof.
  intros B Hm; assert (HL := be_layout _ _ _ _ _ B); assert (Hv := be_view _ _ _ _ _ B).
  destruct (view_seen s1 p v HL Hv) as (e & r & gs & ge & HS); destruct (mask_bit_test _ _ _ _ _ _ _ HS) as [T1 T2].
  unfold gpe_mask_safe; rewrite (SM_bind_Some _ _ _ _ _ (event_register_run _ _ _ _ _ _ _ HS)).
  rewrite (SM_bind_Some _ _ _ _ _ (gpe_get_mask_run _ _ _ _ _ _ _ HS)), T2; destruct (v_cur v); cbn [negb].
  2: { exists s1; split; [reflexivity|exact B]. }
  destruct (mask_bit_run s1 p v true HL Hv) as (s2 & E2 & _ & C2).
  destruct (set_gpe_state_run s2 p _ GPE_STATE_DISABLED (changes_laid_out _ _ _ _ HL C2) (ch_view _ _ _ _ C2)) as (w & E3 & C3).
  exists (set_world w s2); split; [|exact (becomes_changes _ _ _ _ _ _ _ (becomes_changes _ _ _ _ _ _ _ B C2) C3)].
  eapply bind_ok; [|reflexivity]; unfold gpe_mask_unmask.
  rewrite (SM_bind_Some _ _ _ _ _ (gpe_get_mask_run _ _ _ _ _ _ _ HS)), (SM_bind_Some _ _ _ _ _ (event_register_run _ _ _ _ _ _ _ HS)).
  rewrite T1, Hm; cbn [negb]; rewrite (SM_bind_Some _ _ _ _ _ E2), (SM_bind_Some _ _ _ _ _ (wait_idle s2)).
  rewrite (SM_bind_Some _ _ _ _ _ E3), (SM_bind_Some _ _ _ _ _ (wait_idle _)); reflexivity.
Qed.

Lemma unmask_becomes p v n s s1 (did : bool) : becomes p v n s s1 -> (did = true -> v_masked v = true) ->
  exists s2, (if did then gpe_mask_unmask p false;; mret tt else mret tt) s1 = Some (tt, s2) /\
    becomes p (if did then unmasked v else v) n s s2.
Proof.
  intros B Hd; destruct did; [|exists s1; split; [reflexivity|exact B]].
  destruct (unmask_run s1 p v (be_layout _ _ _ _ _ B) (be_view _ _ _ _ _ B)) as (s2 & E & C); rewrite (Hd eq_refl) in E, C.
  exists s2; split; [eapply bind_ok; [exact E|reflexivity]|exact (becomes_changes _ _ _ _ _ _ _ B C)].
Qed.

Lemma update_becomes p v n s s1 f : becomes p v n s s1 -> (forall e, event_shape (f e) = event_shape e) ->
  exists s2, update_event p f s1 = Some (tt, s2) /\ becomes p (with_event f v) n s s2.
Proof.
  intros B Hf; destruct (update_event_changes s1 p v f (be_layout _ _ _ _ _ B) (be_view _ _ _ _ _ B) Hf) as (s2 & E & _ & C).
  exists s2; split; [exact E|exact (becomes_changes _ _ _ _ _ _ _ B C)].
Qed.

(** The native handler that is kept while it is installed. *)
Definition saved (e : gp_event) (handler ctx : Z) : gpe_native_handler := {|
  n_cb := handler; n_ctx := ctx; previous_handler := any_handler e; previous_handler_type := handler_type e;
  previous_triggering := triggering e;
  previously_enabled := is_automatic (handler_type e) && negb (num_users e =? 0) |}.

Definition installed (a trig : Z) (t : gpe_handler_type) (v : gview) : gview :=
  let v1 := if v_cur v then silenced v else v in
  let v2 := if is_automatic (handler_type (v_event v)) && negb (num_users (v_event v) =? 0) then user_removed v1 else v1 in
  let v3 := with_event (set_handler a t trig) v2 in
  if v_cur v then unmasked v3 else v3.

Lemma install_native_run p v s trig t handler ctx : inv nobody s -> view s p = Some v ->
  is_native (handler_type (v_event v)) = false -> v_masked v = false ->
  exists a s', install_native p trig t handler ctx s = Some (UACPI_STATUS_OK, s') /\ natives (ev s) !! a = None /\
    becomes p (installed a trig t v) (<[a := saved (v_event v) handler ctx]> (natives (ev s))) s s'.
Proof.
  intros HI Hv Hnat Hm; assert (B0 := becomes_self p v s HI Hv); unfold install_native.
  destruct (alloc_native s) as (a & w & Ea & Ha & Hf & Hq).
  assert (B1 : becomes p v (natives (ev s)) s (set_world w s)).
  { eapply becomes_silent; [exact B0|reflexivity..| |reflexivity]; intros g; apply Hq. }
  set (was enabled := {| n_cb := handler; n_ctx := ctx; previous_handler := any_handler (v_event v);
    previous_handler_type := handler_type (v_event v); previous_triggering := triggering (v_event v); previously_enabled := enabled |}).
  destruct (put_native_becomes _ _ _ _ _ a (was false) B1) as (s2 & E2 & B2).
  destruct (mask_safe_becomes _ _ _ _ _ B2 Hm) as (s3 & E3 & B3).
  set (v1 := if v_cur v then silenced v else v) in *; assert (Hev : v_event v1 = v_event v) by (unfold v1; destruct (v_cur v); reflexivity).
  set (auto := is_automatic (handler_type (v_event v)) && negb (num_users (v_event v) =? 0)) in *.
  assert (H4 : exists s4, (if auto then put_native a (was true);; gpe_remove_user p;; mret tt else mret tt) s3 = Some (tt, s4) /\
      becomes p (if auto then user_removed v1 else v1) (<[a := saved (v_event v) handler ctx]> (natives (ev s))) s s4).
  { unfold saved; fold auto; destruct auto.
    - destruct (put_native_becomes _ _ _ _ _ a (was true) B3) as (s4 & E4 & B4); rewrite insert_insert_eq in B4.
      destruct (gpe_remove_user_run s4 p _ (be_layout _ _ _ _ _ B4) (be_tuned _ _ _ _ _ B4) (be_view _ _ _ _ _ B4)) as (s5 & E5 & C5).
      exists s5; split; [|exact (becomes_changes _ _ _ _ _ _ _ B4 C5)].
      eapply bind_ok; [exact E4|]; eapply bind_ok; [exact E5|reflexivity].
    - exists s3; split; [reflexivity|exact B3]. }
  destruct H4 as (s4 & E4 & B4).
  destruct (update_becomes _ _ _ _ _ (set_handler a t trig) B4) as (s5 & E5 & B5); [reflexivity|].
  destruct (unmask_becomes _ _ _ _ _ (v_cur v) B5) as (s6 & E6 & B6).
  { intros Hc; cbn; unfold v1; rewrite Hc; destruct auto; [|reflexivity]; unfold user_removed; cbn.
    destruct (_ =? 0); [reflexivity|]; destruct (_ =? 1); reflexivity. }
  exists a, s6; split; [|split; [exact Hf|exact B6]].
  rewrite (SM_bind_Some _ _ _ _ _ (becomes_event _ _ _ _ _ B0)), Hnat, (SM_bind_Some _ _ _ _ _ Ea).
  rewrite (proj2 (Z.eqb_neq a 0) Ha), (SM_bind_Some _ _ _ _ _ (becomes_event _ _ _ _ _ B1)); cbv zeta; fold was.
  rewrite (SM_bind_Some _ _ _ _ _ E2), (SM_bind_Some _ _ _ _ _ E3), (SM_bind_Some _ _ _ _ _ (becomes_event _ _ _ _ _ B3)), Hev.
  fold auto; rewrite (SM_bind_Some _ _ _ _ _ E4), (SM_bind_Some _ _ _ _ _ E5), (SM_bind_Some _ _ _ _ _ E6); reflexivity.
Qed.


Definition uninstalled (h : gpe_native_handler) (v : gview) : gview :=
  let v1 := if v_cur v then silenced v else v in
  let v2 := with_event (set_handler (previous_handler h) (previous_handler_type h) (previous_triggering h)) v1 in
  let v3 := if is_automatic (previous_handler_type h) && previously_enabled h then user_added false v2 else v2 in
  if v_cur v then unmasked v3 else v3.

Lemma user_added_masked v : v_masked (user_added false v) = v_masked v.
Proof.
  unfold user_added, first_user, apply_state; destruct (_ =? 0); [cbn; destruct (v_masked v) eqn:E; cbn; congruence|].
  destruct (_ =? _); reflexivity.
Qed.

Lemma uninstalled_fields h v : v_pend (uninstalled h v) = v_pend v /\
  triggering (v_event (uninstalled h v)) = previous_triggering h.
Proof.
  unfold uninstalled, unmasked, user_added, first_user, apply_state, silenced.
  destruct (v_cur v), (is_automatic _ && _); cbn;
    repeat (match goal with |- context [if ?b then _ else _] => destruct b end; cbn); auto.
Qed.

(** An event that is not pending is not dispatched. *)
Lemma maybe_dispatch_idle s p v device : laid_out is_status s -> view s p = Some v -> v_pend v = false ->
  maybe_dispatch_gpe device p s = Some (UACPI_STATUS_OK, s).
Proof.
  intros HL Hv Hp; destruct (view_seen s p v HL Hv) as (e & r & gs & ge & HS); unfold maybe_dispatch_gpe.
  assert (Hk : 0 <= snd p mod 8 < 8) by (apply Z.mod_pos_bound; lia).
  rewrite (SM_bind_Some _ _ _ _ _ (event_register_run _ _ _ _ _ _ _ HS)), (se_status _ _ _ _ _ _ _ HS).
  rewrite (SM_bind_Some _ _ _ _ _ (read_gas_run s gs)), set_world_id; cbn [fst snd is_ok negb].
  rewrite (SM_bind_Some _ _ _ _ _ (gpe_get_mask_run _ _ _ _ _ _ _ HS)), land_bit_zero by lia.
  replace (Z.testbit (value gs s) (snd p mod 8)) with (v_pend v); [rewrite Hp; reflexivity|].
  rewrite (se_view _ _ _ _ _ _ _ HS); cbn; rewrite (seen_bit _ _ _ _ _ _ _ HS); reflexivity.
Qed.

Lemma uninstall_native_run p v s device a h : inv nobody s -> view s p = Some v ->
  is_native (handler_type (v_event v)) = true -> any_handler (v_event v) = a -> natives (ev s) !! a = Some h -> v_masked v = false ->
  (v_pend v = false \/ previous_triggering h <> UACPI_GPE_TRIGGERING_EDGE) ->
  exists s', uninstall_native device p (n_cb h) s = Some (UACPI_STATUS_OK, s') /\
    becomes p (uninstalled h v) (delete a (natives (ev s))) s s'.
Proof.
  intros HI Hv Hnat Ha Hn Hm Hp; assert (B0 := becomes_self p v s HI Hv); unfold uninstall_native.
  destruct (mask_safe_becomes _ _ _ _ _ B0 Hm) as (s1 & E1 & B1).
  set (v1 := if v_cur v then silenced v else v) in *.
  destruct (update_becomes _ _ _ _ _ (set_handler (previous_handler h) (previous_handler_type h) (previous_triggering h)) B1)
    as (s2 & E2 & B2); [reflexivity|]; set (v2 := with_event _ v1) in *.
  set (auto := is_automatic (previous_handler_type h) && previously_enabled h).
  assert (Hu : 0 <= num_users (v_event v2)).
  { unfold v2; cbn; pose proof (ok_users _ _ (inv_view _ _ HI _ _ Hv)); unfold v1; destruct (v_cur v); cbn; lia. }
  assert (H3 : exists s3, (if auto then gpe_add_user p false;; mret tt else mret tt) s2 = Some (tt, s3) /\
      becomes p (if auto then user_added false v2 else v2) (natives (ev s)) s s3).
  { destruct auto; [|exists s2; split; [reflexivity|exact B2]].
    destruct (gpe_add_user_run s2 p v2 false (be_layout _ _ _ _ _ B2) (be_tuned _ _ _ _ _ B2) (be_view _ _ _ _ _ B2) Hu) as (s3 & E3 & C3).
    exists s3; split; [eapply bind_ok; [exact E3|reflexivity]|exact (becomes_changes _ _ _ _ _ _ _ B2 C3)]. }
  destruct H3 as (s3 & E3 & B3); destruct (free_native_becomes _ _ _ _ _ a B3) as (s4 & E4 & B4).
  destruct (unmask_becomes _ _ _ _ _ (v_cur v) B4) as (s5 & E5 & B5).
  { intros Hc; assert (Hm2 : v_masked v2 = true) by (unfold v2, v1; rewrite Hc; reflexivity).
    destruct auto; [rewrite user_added_masked|]; exact Hm2. }
  change (becomes p (uninstalled h v) (delete a (natives (ev s))) s s5) in B5.
  assert (N1 : get_native a s = Some (h, s)) by (unfold get_native, gets, of_opt; smunfold; rewrite Hn; reflexivity).
  assert (N2 : get_native a s1 = Some (h, s1)).
  { unfold get_native, gets, of_opt; smunfold; rewrite (be_natives _ _ _ _ _ B1), Hn; reflexivity. }
  rewrite (SM_bind_Some _ _ _ _ _ (becomes_event _ _ _ _ _ B0)), Hnat; cbn [negb]; rewrite Ha.
  rewrite (SM_bind_Some _ _ _ _ _ N1), Z.eqb_refl; cbn [negb]; rewrite (SM_bind_Some _ _ _ _ _ E1), (SM_bind_Some _ _ _ _ _ N2).
  rewrite (SM_bind_Some _ _ _ _ _ E2); fold auto; rewrite (SM_bind_Some _ _ _ _ _ E3), (SM_bind_Some _ _ _ _ _ E4), (SM_bind_Some _ _ _ _ _ E5).
  assert (Q : exists b, gpe_needs_polling p s5 = Some (b, s5) /\ (b = true -> v_pend v = false)).
  { unfold gpe_needs_polling; rewrite (SM_bind_Some _ _ _ _ _ (becomes_event _ _ _ _ _ B5)); eexists; split; [reflexivity|].
    rewrite (proj2 (uninstalled_fields h v)); intros [_ Hb%Z.eqb_eq]%andb_true_iff; destruct Hp as [Hp|Hp]; [exact Hp|contradiction]. }
  destruct Q as ([|] & EQ & HQ); rewrite (SM_bind_Some _ _ _ _ _ EQ); [|exists s5; split; [reflexivity|exact B5]].
  exists s5; split; [|exact B5]; eapply bind_ok; [|reflexivity]; eapply bind_ok; [|reflexivity].
  apply (maybe_dispatch_idle s5 p _ device (be_layout _ _ _ _ _ B5) (be_view _ _ _ _ _ B5)).
  rewrite (proj1 (uninstalled_fields h v)); apply HQ; reflexivity.
Qed.

(** What installing makes of an acceptable event, and that uninstalling undoes it. *)
Lemma installed_facts a trig t handler ctx v : ok_view False v -> v_masked v = false -> block_interrupts (v_event v) = false ->
  is_native t = true ->
  ok_view False (installed a trig t v) /\ is_native (handler_type (v_event (installed a trig t v))) = true /\
  any_handler (v_event (installed a trig t v)) = a /\ v_masked (installed a trig t v) = false /\
  v_pend (installed a trig t v) = v_pend v /\ uninstalled (saved (v_event v) handler ctx) (installed a trig t v) = v.
Proof.
  destruct v as [[h r i n ty tr wk bl] run cur masked on pend]; intros [H1 H2 H3 H4 _] Hm Hb Ht; cbn in *; subst masked bl cur run.
  assert (Hon : n = 0 \/ (n <> 0 /\ on = true)).
  { destruct (Z.eqb_spec n 0); [auto|right; split; [assumption|apply H4; auto]]. }
  clear H4; destruct Hon as [->|[H0 ->]].
  { unfold installed, saved, uninstalled; cbn; rewrite andb_false_r; cbn; rewrite andb_false_r; cbn; repeat split; cbn; auto; lia. }
  assert (E0 : (n =? 0) = false) by (apply Z.eqb_neq, H0).
  set (v := {| v_event := _ |}).
  set (now k on' := {| v_event := {| any_handler := a; e_reg := r; e_idx := i; num_users := k; handler_type := t; triggering := trig;
    wake := wk; block_interrupts := false |}; v_run := on'; v_cur := on'; v_masked := false; v_on := on'; v_pend := pend |}).
  assert (EI : installed a trig t v = if is_automatic ty then now (n - 1) (negb (n =? 1)) else now n true).
  { unfold installed, silenced, user_removed, v; cbn; rewrite ?E0; cbn; rewrite ?E0; destruct (is_automatic ty); cbn; rewrite ?E0; cbn.
    - destruct (Z.eqb_spec n 1) as [->|H5]; [reflexivity|]; unfold unmasked, apply_state; cbn.
      rewrite (proj2 (Z.eqb_neq (n - 1) 0)) by lia; reflexivity.
    - unfold unmasked, apply_state; cbn; rewrite E0; reflexivity. }
  rewrite EI; unfold uninstalled, saved; cbn; rewrite E0; destruct (is_automatic ty) eqn:Ety; cbn.
  2: { split; [constructor; cbn; rewrite ?E0; auto; discriminate|]; repeat split; auto; unfold v, unmasked, apply_state; cbn; rewrite ?E0; reflexivity. }
  destruct (Z.eqb_spec n 1) as [->|H5]; cbn.
  { split; [constructor; cbn; auto; try discriminate; lia|]; repeat split; auto. }
  assert (E1 : (n - 1 =? 0) = false) by (apply Z.eqb_neq; lia); assert (E2 : (n - 1 =? 255) = false) by (apply Z.eqb_neq; lia).
  split; [constructor; cbn; rewrite ?E1; auto; try discriminate; lia|]; repeat split; auto.
  unfold v, user_added, silenced; cbn; rewrite ?E1; cbn; rewrite ?E1, ?E2; unfold unmasked, apply_state; cbn.
  replace (n - 1 + 1) with n by lia; rewrite ?E0; reflexivity.
Qed.

(** With no work in flight, installing a native handler for an event that is neither
    masked nor being handled, and uninstalling it, succeed and leave no trace: every event
    is as it was, with its handler, its users and its bits in hardware, and the native
    handler is gone.  (An edge-triggered event that is pending would be polled, hence the
    condition.) *)
Theorem install_uninstall_restores p v s device trig t handler ctx : inv nobody s -> view s p = Some v ->
  is_native (handler_type (v_event v)) = false -> is_native t = true -> v_masked v = false ->
  block_interrupts (v_event v) = false -> (v_pend v = false \/ triggering (v_event v) <> UACPI_GPE_TRIGGERING_EDGE) ->
  exists a s1 s2, install_native p trig t handler ctx s = Some (UACPI_STATUS_OK, s1) /\
    natives (ev s1) !! a = Some (saved (v_event v) handler ctx) /\
    uninstall_native device p handler s1 = Some (UACPI_STATUS_OK, s2) /\
    (forall q, view s2 q = view s q) /\ same_shape s s2 /\ natives (ev s2) = natives (ev s).
Proof.
  intros HI Hv Hn Ht Hm Hb Hp.
  destruct (install_native_run p v s trig t handler ctx HI Hv Hn Hm) as (a & s1 & E1 & Hf & B1).
  assert (Hok := inv_view _ _ HI _ _ Hv).
  destruct (installed_facts a trig t handler ctx v Hok Hm Hb Ht) as (Hi & Hi1 & Hi2 & Hi3 & Hi4 & Hi5).
  assert (Hn1 : natives (ev s1) !! a = Some (saved (v_event v) handler ctx)) by (rewrite (be_natives _ _ _ _ _ B1); apply lookup_insert_eq).
  assert (HI1 : inv nobody s1).
  { constructor; [apply B1|apply B1|]; intros q v'; destruct (decide (q = p)) as [->|Hq].
    - rewrite (be_view _ _ _ _ _ B1); intros [= <-]; exact Hi.
    - rewrite (be_other _ _ _ _ _ B1 q Hq); apply (inv_view _ _ HI). }
  destruct (uninstall_native_run p _ s1 device a _ HI1 (be_view _ _ _ _ _ B1) Hi1 Hi2 Hn1 Hi3) as (s2 & E2 & B2).
  { rewrite Hi4; exact Hp. }
  exists a, s1, s2; split; [exact E1|split; [exact Hn1|split; [exact E2|split; [|split]]]].
  - intros q; destruct (decide (q = p)) as [->|Hq]; [rewrite (be_view _ _ _ _ _ B2), Hi5; symmetry; exact Hv|].
    rewrite (be_other _ _ _ _ _ B2 q Hq); apply (be_other _ _ _ _ _ B1 q Hq).
  - etransitivity; [apply B1|apply B2].
  - rewrite (be_natives _ _ _ _ _ B2), (be_natives _ _ _ _ _ B1); apply delete_insert_id, Hf.
Qed.
End RoundTrip.
