(* ===== verification/EventDrain.v ===== *)
(** * Events: queued work is worked off

    An event whose handler uACPI runs by itself is disabled and flagged while its handler
    is queued.  The host runs queued work in any order; whichever order it takes, the queue
    becomes empty and every such event is enabled again. *)

From S2P Require Import Prelude UCore CList Namespace Gas Mutex Registers Events EventSpec EventInv.

Open Scope word_scope.

Section Drain.
Context {W G : Type} {GO : GasOps W G} {EH : EventHost W G} {EL : EventLock W} {HW : GpeHardware W G}.
Context {LAWS : EventHostLaws W G}.

(** ** The host's queue *)

Context (queue : W -> list work) (set_queue : list work -> W -> W).

Definition todo (s : st W G) : list work := queue (Registers.world (regs s)).

(** A function of the host that returns and that neither touches events nor the queue. *)
Definition tame {A} (c : SM W A) : Prop := forall w, exists a w', c w = Some (a, w') /\ quiet w w' /\ queue w' = queue w.

(** What methods and notification handlers may do while they run: they may enable, disable,
    mask and unmask events, but do not replace handlers, suspend events or queue work. *)
Record calm (s s' : st W G) : Prop := {
  ca_kept : kept s s';
  ca_todo : todo s' = todo s;
  ca_implicits : implicits (ev s') = implicits (ev s);
  ca_events p v' : view s' p = Some v' -> exists v, view s p = Some v /\
    any_handler (v_event v') = any_handler (v_event v) /\ handler_type (v_event v') = handler_type (v_event v) /\
    (block_interrupts (v_event v') = true -> block_interrupts (v_event v) = true) }.

Definition calmly {A} (c : SM (st W G) A) : Prop :=
  forall s, inv nobody s -> exists a s', c s = Some (a, s') /\ calm s s'.

Context (queue_set : forall l w, queue (set_queue l w) = l /\ quiet w (set_queue l w)).
Context (queue_write : forall g v, steps (fun w w' => queue w' = queue w) (gas_write_mapped g v)).
Context (queue_lock : forall l, steps (fun w w' => queue w' = queue w) (kernel_lock_spinlock l)).
Context (queue_unlock : forall l f, steps (fun w w' => queue w' = queue w) (kernel_unlock_spinlock l f)).
Context (tame_ns_lock : tame ns_write_lock) (tame_ns_unlock : tame ns_write_unlock).
Context (tame_is_method : forall n, tame (node_is_method n)).
Context (calm_method : forall n, calmly (execute_method n)) (calm_notify : forall d v, calmly (notify_all d v)).
(** Work is queued, or the host says it is not. *)
Context (schedules : forall x w, exists ret w', kernel_schedule_work x w = Some (ret, w') /\ quiet w w' /\
  queue w' = if is_ok ret then queue w ++ [x] else queue w).

(** One piece of work leaves the queue, wherever it stands there, and runs. *)
Inductive drain_step (s s' : st W G) : Prop :=
  drain l1 x l2 : todo s = l1 ++ x :: l2 ->
    run_work x (set_world (set_queue (l1 ++ l2) (Registers.world (regs s))) s) = Some (tt, s') -> drain_step s s'.

(** Every run gets to [P], whatever is picked: none gets stuck and none goes on forever. *)
Inductive inevitably (P : st W G -> Prop) (s : st W G) : Prop :=
  | now : P s -> inevitably P s
  | later : (exists s', drain_step s s') -> (forall s', drain_step s s' -> inevitably P s') -> inevitably P s.

Definition target (x : work) : event_ptr := match x with RUN_GPE_HANDLER p | RESTORE_GPE p => p end.
Definition weight (x : work) : nat := match x with RUN_GPE_HANDLER _ => 2 | RESTORE_GPE _ => 1 end.
Definition load (l : list work) : nat := sum_list_with weight l.

(** Automatic events that are flagged have work queued, except those of [X]. *)
Record drainable (X : event_ptr -> Prop) (s : st W G) : Prop := {
  dr_inv : inv nobody s;
  dr_target x : x ∈ todo s -> is_Some (view s (target x));
  dr_waiting p v : view s p = Some v -> is_automatic (handler_type (v_event v)) = true ->
    block_interrupts (v_event v) = true -> X p \/ exists x, x ∈ todo s /\ target x = p;
  dr_implicit p v : view s p = Some v -> handler_type (v_event v) = GPE_HANDLER_TYPE_IMPLICIT_NOTIFY ->
    exists l : list (Z * Z), CList.rep (implicits (ev s)) (any_handler (v_event v)) l }.

(** Nothing is left to do, and no automatic event is left disabled. *)
Record served (s : st W G) : Prop := {
  sv_todo : todo s = [];
  sv_event p v : view s p = Some v -> is_automatic (handler_type (v_event v)) = true ->
    block_interrupts (v_event v) = false /\ (num_users (v_event v) <> 0 -> v_masked v = false -> v_on v = true) }.

(** ** Steps *)

#[export] Instance calm_refl : Reflexive calm.
Proof. intros s; constructor; [reflexivity|reflexivity|reflexivity|intros p v' E; exists v'; auto]. Qed.
#[export] Instance calm_trans : Transitive calm.
Proof.
  intros s1 s2 s3 [H1 H2 H3 H4] [H5 H6 H7 H8]; constructor; [etransitivity; eassumption|congruence|congruence|].
  intros p v3 E3; destruct (H8 p v3 E3) as (v2 & E2 & ? & ? & ?); destruct (H4 p v2 E2) as (v1 & E1 & ? & ? & ?).
  exists v1; split; [exact E1|split; [congruence|split; [congruence|auto]]].
Qed.

Lemma view_kept X s s' p v : inv X s -> kept s s' -> view s p = Some v -> is_Some (view s' p).
Proof.
  intros HI HK Hv; destruct (HK X HI) as [HI' HS]; destruct (view_seen s p v (inv_layout _ _ HI) Hv) as (e & r & gs & ge & S0).
  destruct (same_shape_ev _ _ _ _ HS (se_event _ _ _ _ _ _ _ S0)) as (e' & Ee').
  destruct (ev_at_view X s' p e' HI' Ee') as (v' & Hv' & _); eauto.
Qed.

Lemma calm_drainable X s s' : calm s s' -> drainable X s -> drainable X s'.
Proof.
  intros [H1 H2 H3 H4] [D1 D2 D3 D4]; constructor; [apply (H1 nobody D1)| | |].
  - intros x; rewrite H2; intros [v Hv]%D2; exact (view_kept _ _ _ _ _ D1 H1 Hv).
  - intros p v' E Ha Hb; destruct (H4 p v' E) as (v & Ev & _ & Ht & Hk); rewrite H2; apply (D3 p v Ev); [congruence|auto].
  - intros p v' E Ht; destruct (H4 p v' E) as (v & Ev & Hh & Ht' & _); rewrite H3, Hh; apply (D4 p v Ev); congruence.
Qed.

(** Steps of the host alone: events are seen as before. *)
Lemma view_quiet s w p : quiet (Registers.world (regs s)) w -> view (set_world w s) p = view s p.
Proof. intros Hq; apply view_ext; [reflexivity|reflexivity|intros g; apply Hq]. Qed.

Lemma world_kept s w : quiet (Registers.world (regs s)) w -> kept s (set_world w s).
Proof. intros Hq; apply quiet_kept; try reflexivity; intros g; apply Hq. Qed.

Lemma tame_calm {A} (c : SM W A) : tame c -> calmly (host c).
Proof.
  intros Hc s _; destruct (Hc (Registers.world (regs s))) as (a & w & E & Hq & Hd).
  exists a, (set_world w s); split; [apply host_run, E|]; constructor; [apply world_kept, Hq|exact Hd|reflexivity|].
  intros p v'; rewrite view_quiet by exact Hq; eauto.
Qed.

Lemma calm_bind {A B} (c : SM (st W G) A) (k : A -> SM (st W G) B) : calmly c -> (forall a, calmly (k a)) -> calmly (mbind k c).
Proof.
  intros Hc Hk s HI; destruct (Hc s HI) as (a & s1 & E1 & C1); destruct (Hk a s1 (proj1 (ca_kept _ _ C1 _ HI))) as (b & s2 & E2 & C2).
  exists b, s2; split; [rewrite (SM_bind_Some _ _ _ _ _ E1); exact E2|etransitivity; eassumption].
Qed.

Lemma calm_ret {A} (a : A) : calmly (mret a).
Proof. intros s _; exists a, s; split; [reflexivity|reflexivity]. Qed.

(** Notifying the devices of a list. *)
Lemma notify_calm l : forall fuel h s, inv nobody s -> CList.seg (implicits (ev s)) h l 0 -> (length l < fuel)%nat ->
  exists s', notify_implicit fuel h s = Some (tt, s') /\ calm s s'.
Proof.
  induction l as [|[q d] l IH]; intros [|fuel] h s HI HS Hf; cbn in Hf; try lia; cbn [notify_implicit].
  - cbn in HS; subst h; exists s; split; reflexivity.
  - cbn in HS; destruct HS as (-> & H0 & n & Hq & HS); rewrite (proj2 (Z.eqb_neq q 0) H0).
    destruct (calm_notify d 2 s HI) as (a & s1 & E1 & C1).
    destruct (IH fuel n s1 (proj1 (ca_kept _ _ C1 _ HI))) as (s2 & E2 & C2); [rewrite (ca_implicits _ _ C1); exact HS|lia|].
    exists s2; split; [|etransitivity; eassumption].
    unfold gets, of_opt; smunfold; rewrite Hq; smunfold; cbn [fst snd]; rewrite E1, (ca_implicits _ _ C1), Hq; exact E2.
Qed.

(** A change of one event that does not flag it. *)
Lemma changes_calm X p v v' s s' : inv X s -> changes p v' s s' -> view s p = Some v -> todo s' = todo s -> kept s s' ->
  any_handler (v_event v') = any_handler (v_event v) -> handler_type (v_event v') = handler_type (v_event v) ->
  (block_interrupts (v_event v') = true -> block_interrupts (v_event v) = true) -> calm s s'.
Proof.
  intros HI C Hv Hd HK H1 H2 H3; constructor; [exact HK|exact Hd| |].
  - pose proof (ch_rest _ _ _ _ C) as R; unfold rest in R; congruence.
  - intros q w; destruct (decide (q = p)) as [->|Hq].
    + rewrite (ch_view _ _ _ _ C); intros [= <-]; exists v; auto.
    + rewrite (ch_other _ _ _ _ C q Hq); intros E; exists w; auto.
Qed.

(** *** Restoring an event *)

Definition same_todo (s s' : st W G) : Prop := todo s' = todo s.

#[export] Instance same_todo_refl : Reflexive same_todo.
Proof. intros s; reflexivity. Qed.
#[export] Instance same_todo_trans : Transitive same_todo.
Proof. intros s1 s2 s3 H1 H2; unfold same_todo in *; congruence. Qed.

Lemma todo_bind {A B} (c : SM (st W G) A) (k : A -> SM (st W G) B) :
  steps same_todo c -> (forall a, steps same_todo (k a)) -> steps same_todo (mbind k c).
Proof. apply steps_bind; exact _. Qed.

Lemma host_todo {A} (c : SM W A) : steps (fun w w' => queue w' = queue w) c -> steps same_todo (host c).
Proof.
  intros Hc s a s'; unfold host, in_regs, Registers.in_world; destruct (c _) as [[x w]|] eqn:E; [|discriminate].
  intros [= <- <-]; exact (Hc _ _ _ E).
Qed.

Lemma get_event_todo p : steps same_todo (get_event p).
Proof. intros s e s' E; apply get_event_inv in E as [-> _]; reflexivity. Qed.

Lemma of_opt_todo {A} (o : option A) : steps same_todo (of_opt o).
Proof. destruct o; [apply steps_ret; exact _|apply steps_undefined]. Qed.

Lemma block_todo b : steps same_todo (get_block b).
Proof. apply todo_bind; [apply steps_gets; exact _|intros; apply of_opt_todo]. Qed.

Ltac same_todo := repeat first
  [ progress intros
  | match goal with
    | |- steps same_todo (mbind _ _) => apply todo_bind
    | |- steps same_todo (if _ then _ else _) => apply steps_if
    | |- steps same_todo (mret _) => apply steps_ret; exact _
    | |- steps same_todo undefined => apply steps_undefined
    | |- steps same_todo (get_event _) => apply get_event_todo
    | |- steps same_todo (get_block _) => apply block_todo
    | |- steps same_todo (of_opt _) => apply of_opt_todo
    | |- steps same_todo (gets _) => apply steps_gets; exact _
    | |- steps same_todo (host _) => apply host_todo
    | |- steps same_todo (modify _) => intros ? ? ? [= <- <-]; reflexivity
    end
  | assumption ].

Lemma write_gas_todo g v : steps same_todo (write_gas g v).
Proof. unfold write_gas; same_todo; apply queue_write. Qed.

Lemma read_gas_todo g : steps same_todo (read_gas g).
Proof. unfold read_gas; same_todo; intros w a' w'; rewrite gh_read; intros [= <- <-]; reflexivity. Qed.

Lemma set_gpe_state_todo p x : steps same_todo (set_gpe_state p x).
Proof.
  pose proof read_gas_todo; pose proof write_gas_todo.
  unfold set_gpe_state, change_enable, gpe_get_mask, event_register, reg_of, get_register; same_todo; auto.
Qed.

Lemma clear_gpe_todo p : steps same_todo (clear_gpe p).
Proof. pose proof write_gas_todo; unfold clear_gpe, gpe_get_mask, event_register, reg_of, get_register; same_todo; auto. Qed.

Lemma update_event_todo p f : steps same_todo (update_event p f).
Proof. unfold update_event, put_event, put_block; same_todo. Qed.

Lemma restore_gpe_todo p : steps same_todo (restore_gpe p).
Proof.
  pose proof set_gpe_state_todo; pose proof clear_gpe_todo; pose proof update_event_todo; unfold restore_gpe; same_todo; auto.
Qed.

Lemma restored_event v : v_event (restored v) = set_block false (v_event v).
Proof.
  unfold restored, apply_state; cbn; destruct (_ =? _); cbn; destruct (v_masked v); cbn; try reflexivity; destruct (v_cur v); reflexivity.
Qed.

(** The event was the exception, or it was not; now it is not flagged. *)
Lemma restore_drains X p s : drainable (fun q => X q \/ q = p) s -> is_Some (view s p) ->
  exists s', async_restore_gpe p s = Some (tt, s') /\ drainable X s' /\ todo s' = todo s.
Proof.
  intros HD [v Hv]; assert (HI := dr_inv _ _ HD); destruct (restore_gpe_run s p v (inv_layout _ _ HI) Hv) as (s' & E & C).
  assert (Hd : todo s' = todo s) by (apply (restore_gpe_todo p s _ s' E)).
  assert (HC : calm s s').
  { eapply (changes_calm nobody p v (restored v)); try eassumption; [apply (restore_gpe_kept p s _ s' E)|..]; rewrite restored_event; cbn; auto; discriminate. }
  exists s'; split; [unfold async_restore_gpe; rewrite (SM_bind_Some _ _ _ _ _ E); reflexivity|split; [|exact Hd]].
  destruct (calm_drainable _ _ _ HC HD) as [D1 D2 D3 D4]; constructor; [exact D1|exact D2| |exact D4].
  intros q w Hw Ha Hb; destruct (D3 q w Hw Ha Hb) as [[HX| ->]|HX]; [left; exact HX| |right; exact HX].
  rewrite (ch_view _ _ _ _ C) in Hw; injection Hw as <-; rewrite restored_event in Hb; discriminate.
Qed.

(** *** Running a handler *)

Lemma handler_calm X p s : drainable X s -> is_Some (view s p) -> exists u s', handle_locked p s = Some (u, s') /\ calm s s'.
Proof.
  intros HD [v Hv]; destruct (tame_calm _ tame_ns_lock s (dr_inv _ _ HD)) as (ret & s1 & E1 & C1); unfold handle_locked.
  assert (HD1 := calm_drainable _ _ _ C1 HD); assert (HI1 := dr_inv _ _ HD1); destruct (is_ok ret) eqn:Er.
  2: { exists tt, s1; split; [rewrite (SM_bind_Some _ _ _ _ _ E1), Er; reflexivity|exact C1]. }
  destruct (view_kept _ _ _ _ _ (dr_inv _ _ HD) (ca_kept _ _ C1) Hv) as [v1 Hv1].
  destruct (view_seen s1 p v1 (inv_layout _ _ HI1) Hv1) as (e & r & gs & ge & HS).
  assert (He : v_event v1 = e) by (rewrite (se_view _ _ _ _ _ _ _ HS); reflexivity).
  assert (H2 : exists s2, run_automatic e s1 = Some (tt, s2) /\ calm s1 s2).
  { unfold run_automatic; destruct (handler_type e) eqn:Et; try (exists s1; split; reflexivity).
    - assert (HC : calmly (ok ← host (node_is_method (any_handler e));
        if (ok : bool) then execute_method (any_handler e);; mret tt else mret tt)).
      { apply calm_bind; [apply tame_calm, tame_is_method|]; intros [|]; [|apply calm_ret].
        apply calm_bind; [apply calm_method|intros; apply calm_ret]. }
      destruct (HC s1 HI1) as ([] & s2 & E & C); eauto.
    - destruct (dr_implicit _ _ HD1 p v1 Hv1) as [l Hl]; [rewrite He; exact Et|]; rewrite He in Hl.
      destruct (notify_calm l (S (size (implicits (ev s1)))) (any_handler e) s1 HI1 (proj1 Hl)) as (s2 & E & C); [|eauto].
      pose proof (rep_size _ _ _ Hl); lia. }
  destruct H2 as (s2 & E2 & C2); assert (C12 : calm s s2) by (etransitivity; eassumption).
  destruct (tame_calm _ tame_ns_unlock s2 (proj1 (ca_kept _ _ C12 _ (dr_inv _ _ HD)))) as (u & s3 & E3 & C3).
  exists u, s3; split; [|etransitivity; eassumption].
  rewrite (SM_bind_Some _ _ _ _ _ E1), Er; cbn [negb]; rewrite (SM_bind_Some _ _ _ _ _ (get_event_run _ _ _ (se_event _ _ _ _ _ _ _ HS))).
  rewrite (SM_bind_Some _ _ _ _ _ E2); exact E3.
Qed.

Lemma load_app l1 l2 : load (l1 ++ l2) = (load l1 + load l2)%nat.
Proof. apply sum_list_with_app. Qed.

(** A piece of work leaves the queue: its event is now the exception. *)
Lemma take_drainable s l1 x l2 : drainable nobody s -> todo s = l1 ++ x :: l2 ->
  drainable (fun q => nobody q \/ q = target x) (set_world (set_queue (l1 ++ l2) (Registers.world (regs s))) s).
Proof.
  intros [D1 D2 D3 D4] Ht; destruct (queue_set (l1 ++ l2) (Registers.world (regs s))) as [Hq Hw].
  set (s0 := set_world _ s); assert (H0 : todo s0 = l1 ++ l2) by exact Hq.
  constructor.
  - apply (world_kept s _ Hw nobody D1).
  - intros y; rewrite H0; unfold s0; rewrite (view_quiet s _ _ Hw); intros Hy; apply D2; rewrite Ht.
    apply elem_of_app in Hy; apply elem_of_app; rewrite elem_of_cons; tauto.
  - intros p v; unfold s0; rewrite (view_quiet s _ _ Hw); intros Hv Ha Hb; destruct (D3 p v Hv Ha Hb) as [[]|(y & Hy & <-)].
    fold s0; rewrite H0; rewrite Ht in Hy; apply elem_of_app in Hy; rewrite elem_of_cons in Hy; destruct Hy as [Hy|[->|Hy]];
      [right|left; right; reflexivity|right]; exists y; (split; [|reflexivity]); apply elem_of_app; auto.
  - intros p v; unfold s0; rewrite (view_quiet s _ _ Hw); apply D4.
Qed.

(** Work that is queued takes care of its event. *)
Lemma schedule_drainable X x s w : drainable (fun q => X q \/ q = target x) s -> is_Some (view s (target x)) ->
  quiet (Registers.world (regs s)) w -> queue w = todo s ++ [x] -> drainable X (set_world w s).
Proof.
  intros [D1 D2 D3 D4] Hx Hq Hd; constructor.
  - apply (world_kept s _ Hq nobody D1).
  - intros y; change (todo (set_world w s)) with (queue w); rewrite Hd, (view_quiet s _ _ Hq), elem_of_app, list_elem_of_singleton.
    intros [Hy| ->]; [apply D2, Hy|exact Hx].
  - intros p v; change (todo (set_world w s)) with (queue w); rewrite Hd, (view_quiet s _ _ Hq); intros Hv Ha Hb.
    destruct (D3 p v Hv Ha Hb) as [[HX| ->]|(y & Hy & <-)]; [left; exact HX|right; exists x|right; exists y];
      (split; [|reflexivity]); apply elem_of_app; [right; left|left; exact Hy].
  - intros p v; rewrite (view_quiet s _ _ Hq); apply D4.
Qed.

Lemma run_drains X p s : drainable (fun q => X q \/ q = p) s -> is_Some (view s p) ->
  exists s', async_run_gpe_handler p s = Some (tt, s') /\ drainable X s' /\ (load (todo s') <= 1 + load (todo s))%nat.
Proof.
  intros HD Hp; destruct (handler_calm _ p s HD Hp) as (u & s1 & E1 & C1); assert (HD1 := calm_drainable _ _ _ C1 HD).
  assert (Hp1 : is_Some (view s1 p)) by (destruct Hp as [v Hv]; eapply view_kept; [apply HD|apply C1|exact Hv]).
  destruct (schedules (RESTORE_GPE p) (Registers.world (regs s1))) as (ret & w & E2 & Hq & Hd).
  assert (ES := host_run _ _ _ _ E2); unfold async_run_gpe_handler; destruct (is_ok ret) eqn:Er; cbv iota in Hd.
  - exists (set_world w s1); split; [|split].
    + rewrite (SM_bind_Some _ _ _ _ _ E1), (SM_bind_Some _ _ _ _ _ ES), Er; reflexivity.
    + exact (schedule_drainable X (RESTORE_GPE p) s1 w HD1 Hp1 Hq Hd).
    + change (todo (set_world w s1)) with (queue w); rewrite Hd, load_app; change (queue _) with (todo s1).
      rewrite (ca_todo _ _ C1); cbn; lia.
  - assert (C2 : calm s1 (set_world w s1)).
    { constructor; [apply world_kept, Hq|exact Hd|reflexivity|]; intros q v'; rewrite view_quiet by exact Hq; eauto. }
    destruct (restore_drains X p (set_world w s1) (calm_drainable _ _ _ C2 HD1)) as (s2 & E3 & HD2 & Ht2).
    { rewrite view_quiet by exact Hq; exact Hp1. }
    exists s2; split; [|split; [exact HD2|]].
    + rewrite (SM_bind_Some _ _ _ _ _ E1), (SM_bind_Some _ _ _ _ _ ES), Er; exact E3.
    + rewrite Ht2; change (todo (set_world w s1)) with (queue w); rewrite Hd; change (queue _) with (todo s1).
      rewrite (ca_todo _ _ C1); lia.
Qed.

(** Whatever is picked runs to its end, and there is less to do. *)
Lemma work_drains s l1 x l2 : drainable nobody s -> todo s = l1 ++ x :: l2 ->
  exists s', run_work x (set_world (set_queue (l1 ++ l2) (Registers.world (regs s))) s) = Some (tt, s') /\
    drainable nobody s' /\ (load (todo s') < load (todo s))%nat.
Proof.
  intros HD Ht; assert (HD0 := take_drainable s l1 x l2 HD Ht).
  destruct (queue_set (l1 ++ l2) (Registers.world (regs s))) as [Hq Hw]; set (s0 := set_world _ s) in *.
  assert (H0 : todo s0 = l1 ++ l2) by exact Hq.
  assert (Hv : is_Some (view s0 (target x))).
  { unfold s0; rewrite (view_quiet s _ _ Hw); apply (dr_target _ _ HD); rewrite Ht; apply elem_of_app; right; left. }
  assert (HL : load (todo s) = (load (todo s0) + weight x)%nat).
  { rewrite Ht, H0, !load_app; cbn; unfold load; lia. }
  destruct x as [p|p]; cbn [target run_work weight] in *.
  - destruct (run_drains nobody p s0 HD0 Hv) as (s' & E & HD' & Hl); exists s'; split; [exact E|split; [exact HD'|lia]].
  - destruct (restore_drains nobody p s0 HD0 Hv) as (s' & E & HD' & Hl); exists s'; split; [exact E|split; [exact HD'|rewrite Hl; lia]].
Qed.

Lemma drained_served s : drainable nobody s -> todo s = [] -> served s.
Proof.
  intros [D1 D2 D3 D4] Ht; constructor; [exact Ht|]; intros p v Hv Ha.
  assert (Hb : block_interrupts (v_event v) = false).
  { destruct (block_interrupts (v_event v)) eqn:Eb; [|reflexivity]; destruct (D3 p v Hv Ha Eb) as [[]|(x & Hx & _)].
    rewrite Ht in Hx; apply not_elem_of_nil in Hx; destruct Hx. }
  split; [exact Hb|]; intros Hu Hm; destruct (inv_view _ _ D1 p v Hv) as [_ H2 _ H4 _]; apply H4; auto.
  rewrite H2, (proj2 (Z.eqb_neq _ 0) Hu); reflexivity.
Qed.

Lemma inevitably_served n : forall s, (load (todo s) < n)%nat -> drainable nobody s -> inevitably served s.
Proof.
  induction n as [|n IH]; intros s Hn HD; [lia|]; destruct (todo s) as [|x l] eqn:Et; [apply now, drained_served; assumption|].
  apply later.
  - destruct (work_drains s [] x l HD Et) as (s' & E & _); exists s'; exact (drain s s' [] x l Et E).
  - intros s' [l1 y l2 Hy Hr]; destruct (work_drains s l1 y l2 HD Hy) as (s2 & E & HD2 & Hl).
    rewrite E in Hr; injection Hr as <-; apply IH; [rewrite Et in Hl; lia|exact HD2].
Qed.

(** *** Interrupts *)

(** Handing an automatic event over to the queue: it is flagged, then its handler is queued. *)
Lemma dispatch_automatic_run s p v device s1 r : inv nobody s -> view s p = Some v ->
  is_automatic (handler_type (v_event v)) = true -> dispatch_gpe device p s = Some (r, s1) ->
  exists s3 v3 ret w, changes p v3 s s3 /\ v_event v3 = set_block true (v_event v) /\ s1 = set_world w s3 /\
    quiet (Registers.world (regs s3)) w /\ queue w = if is_ok ret then todo s ++ [RUN_GPE_HANDLER p] else todo s.
Proof.
  intros HI Hv Ha E; destruct (view_seen s p v (inv_layout _ _ HI) Hv) as (e & rg & gs & ge & HS).
  assert (He : v_event v = e) by (rewrite (se_view _ _ _ _ _ _ _ HS); reflexivity); rewrite He in Ha.
  unfold dispatch_gpe in E; rewrite (SM_bind_Some _ _ _ _ _ (get_event_run _ _ _ (se_event _ _ _ _ _ _ _ HS))) in E.
  rewrite bool_decide_eq_false_2 in E by (intros Ht; rewrite Ht in Ha; discriminate).
  destruct (disable_then_block_run s p v (inv_layout _ _ HI) Hv) as (w & s2 & E1 & E2 & C).
  rewrite (SM_bind_Some _ _ _ _ _ E1) in E; cbn [is_ok negb] in E; rewrite (SM_bind_Some _ _ _ _ _ E2) in E.
  assert (HL2 := changes_laid_out _ _ _ _ (inv_layout _ _ HI) C).
  assert (T2 : todo s2 = todo s) by (transitivity (todo (set_world w s)); [apply (update_event_todo _ _ _ _ _ E2)|apply (set_gpe_state_todo _ _ _ _ _ E1)]).
  apply SM_bind_inv in E as (ret & s3 & E3 & E).
  assert (H3 : exists v3, changes p v3 s s3 /\ v_event v3 = set_block true (v_event v) /\ ret = UACPI_STATUS_OK /\ todo s3 = todo s).
  { destruct (triggering e =? UACPI_GPE_TRIGGERING_EDGE).
    - destruct (clear_gpe_run s2 p _ HL2 (ch_view _ _ _ _ C)) as (w3 & E4 & C4); assert (T3 := clear_gpe_todo _ _ _ _ E3).
      rewrite E4 in E3; injection E3 as <- <-; eexists; split; [exact (changes_trans _ _ _ _ _ _ C C4)|].
      split; [reflexivity|split; [reflexivity|unfold same_todo in T3; congruence]].
    - injection E3 as <- <-; eexists; split; [exact C|]; auto. }
  destruct H3 as (v3 & C3 & He3 & -> & T3); cbn [is_ok negb] in E; apply SM_bind_inv in E as (u & s4 & E5 & E); injection E as <- <-.
  destruct (view_seen s3 p v3 (changes_laid_out _ _ _ _ (inv_layout _ _ HI) C3) (ch_view _ _ _ _ C3)) as (e3 & r3 & gs3 & ge3 & HS3).
  assert (Ht3 : e3 = set_block true e) by (rewrite <- He, <- He3, (se_view _ _ _ _ _ _ _ HS3); reflexivity).
  unfold run_gpe in E5; rewrite (SM_bind_Some _ _ _ _ _ (get_event_run _ _ _ (se_event _ _ _ _ _ _ _ HS3))), Ht3 in E5.
  destruct (schedules (RUN_GPE_HANDLER p) (Registers.world (regs s3))) as (ret & w4 & E6 & Hq & Hd); exists s3, v3, ret, w4.
  split; [exact C3|split; [exact He3|split; [|split; [exact Hq|rewrite <- T3; exact Hd]]]]; cbn [handler_type set_block] in E5.
  destruct (handler_type e); try discriminate; rewrite (SM_bind_Some _ _ _ _ _ (host_run _ _ _ _ E6)) in E5; injection E5 as <- <-; reflexivity.
Qed.

Lemma dispatch_drainable s p v device s1 r : drainable nobody s -> view s p = Some v ->
  is_automatic (handler_type (v_event v)) = true -> dispatch_gpe device p s = Some (r, s1) ->
  RUN_GPE_HANDLER p ∈ todo s1 -> drainable nobody s1.
Proof.
  intros HD Hv Ha E Hin; assert (HI := dr_inv _ _ HD); assert (HK := dispatch_gpe_kept _ _ _ _ _ E).
  destruct (dispatch_automatic_run s p v device s1 r HI Hv Ha E) as (s3 & v3 & ret & w4 & C3 & He3 & -> & Hq & Hd).
  assert (Himp : implicits (ev s3) = implicits (ev s)) by (pose proof (ch_rest _ _ _ _ C3) as R; unfold rest in R; congruence).
  assert (Hv4 : forall q v', view (set_world w4 s3) q = Some v' -> exists v0, view s q = Some v0 /\
     any_handler (v_event v') = any_handler (v_event v0) /\ handler_type (v_event v') = handler_type (v_event v0) /\ (q <> p -> v' = v0)).
  { intros q v'; rewrite view_quiet by exact Hq; destruct (decide (q = p)) as [->|Hne].
    - rewrite (ch_view _ _ _ _ C3); intros [= <-]; exists v; rewrite He3; repeat split; auto; congruence.
    - rewrite (ch_other _ _ _ _ C3 q Hne); intros Hv'; exists v'; auto. }
  assert (Hsub : forall x, x ∈ queue w4 <-> x ∈ todo s \/ is_ok ret = true /\ x = RUN_GPE_HANDLER p).
  { intros x; rewrite Hd; destruct (is_ok ret); rewrite ?elem_of_app, ?list_elem_of_singleton; intuition discriminate. }
  constructor; [apply (HK nobody HI)|..].
  - intros x [Hx|[_ ->]]%Hsub; [destruct (dr_target _ _ HD x Hx) as [v0 Hv0]|]; eapply view_kept; eauto.
  - intros q v' Hv' Ha' Hb'; right; destruct (decide (q = p)) as [->|Hne]; [exists (RUN_GPE_HANDLER p); split; [exact Hin|reflexivity]|].
    destruct (Hv4 q v' Hv') as (v0 & Hv0 & _ & _ & Heq); rewrite (Heq Hne) in *.
    destruct (dr_waiting _ _ HD q v0 Hv0 Ha' Hb') as [[]|(x & Hx & Hxq)]; exists x; split; [apply Hsub; left; exact Hx|exact Hxq].
  - intros q v' Hv' Ht'; destruct (Hv4 q v' Hv') as (v0 & Hv0 & Hh & Ht0 & _); rewrite Hh; cbn [ev set_world]; rewrite Himp.
    apply (dr_implicit _ _ HD q v0 Hv0); congruence.
Qed.

(** C28.  When an interrupt hands a general-purpose event over to the host's queue, then in
    whichever order the host runs what is queued, every piece of work runs to its end, the
    queue becomes empty, and by then every event whose handler uACPI runs by itself is no
    longer flagged as being handled and, when it has users and is not masked, is enabled
    in hardware again; as long as the methods and notification handlers return, and do not
    themselves queue work, suspend events or replace handlers. *)
Theorem gpes_are_served s p v device r s1 : drainable nobody s -> view s p = Some v ->
  is_automatic (handler_type (v_event v)) = true -> dispatch_gpe device p s = Some (r, s1) ->
  RUN_GPE_HANDLER p ∈ todo s1 -> inevitably served s1.
Proof.
  intros HD Hv Ha E Hin; eapply inevitably_served; [apply Nat.lt_succ_diag_r|exact (dispatch_drainable _ _ _ _ _ _ HD Hv Ha E Hin)].
Qed.
End Drain.
