(* ===== verification/EventDemo.v ===== *)
(** * acpi/uacpi/event.c: runs on a concrete machine

    A machine with one block of two pairs of registers, the theorems on events applied
    to it, and runs that show where the code goes wrong. *)

From S2P Require Import Prelude UCore CList Namespace Gas Mutex Registers Events EventSpec EventInv EventLive EventDrain.

Open Scope word_scope.

Module Demo.

(** The hardware by address, the queue of the host and the handlers it was asked to run. *)
Record world := { cells : gmap Z Z; waiting : list work; calls : list Z }.

Definition set_cells (x : gmap Z Z) (w : world) : world := {| cells := x; waiting := waiting w; calls := calls w |}.
Definition set_waiting (x : list work) (w : world) : world := {| cells := cells w; waiting := x; calls := calls w |}.
Definition set_calls (x : list Z) (w : world) : world := {| cells := cells w; waiting := waiting w; calls := x |}.

Definition cell (g : Z) (w : world) : Z := default 0 (cells w !! g).

(** Of four addresses the first two are status registers. *)
Definition status_address (g : Z) : bool := g mod 4 <? 2.

(** Hardware with registers of [width] bits. *)
Definition machine (width : Z) : GasOps world Z := {|
  map_gas_noalloc := fun gas => mret (UACPI_STATUS_OK, address <$> gas);
  unmap_gas_nofree := fun _ => mret tt;
  gas_read_mapped := fun g w => Some ((UACPI_STATUS_OK, cell g w), w);
  gas_write_mapped := fun g v w =>
    Some (UACPI_STATUS_OK, set_cells (<[g := if status_address g then Z.ldiff (cell g w) v else wrap width v]> (cells w)) w);
  lock_reg := mret 0;
  unlock_reg := fun _ => mret tt |}.

#[export] Instance byte_machine : GasOps world Z := machine 8.

(** An address that no heap uses. *)
Definition above {A} (m : gmap Z A) : Z := map_fold (fun k _ acc => Z.max (k + 1) acc) 1 m.
Definition unused (s : event_state Z) : Z :=
  Z.max (above (blocks s)) (Z.max (above (ctxs s)) (Z.max (above (natives s)) (above (implicits s)))).

(** Method [_L03] stands for events of level 3, [_E05] for edges of 5; handlers leave a
    trace, then say the event may be enabled again. *)
#[export] Instance machine_host : EventHost world Z := {|
  kernel_alloc_struct := fun _ s => Some (unused (ev s), s);
  call_gpe_handler := fun cb _ _ _ s =>
    Some (129, {| ev := ev s; regs := Registers.with_world (regs s) (set_calls (calls (Registers.world (regs s)) ++ [cb]) (Registers.world (regs s))) |});
  call_interrupt_handler := fun cb _ s =>
    Some (1, {| ev := ev s; regs := Registers.with_world (regs s) (set_calls (calls (Registers.world (regs s)) ++ [cb]) (Registers.world (regs s))) |});
  kernel_install_interrupt_handler := fun _ _ => mret (UACPI_STATUS_OK, 9);
  kernel_uninstall_interrupt_handler := fun _ => mret tt;
  kernel_schedule_work := fun x w => Some (UACPI_STATUS_OK, set_waiting (waiting w ++ [x]) w);
  kernel_wait_for_work_completion := mret tt;
  kernel_create_spinlock := mret 1;
  kernel_free_spinlock := fun _ => mret tt;
  kernel_lock_spinlock := fun _ => mret 0;
  kernel_unlock_spinlock := fun _ _ => mret tt;
  kernel_create_event := mret 1;
  kernel_signal_event := fun _ => mret tt;
  ns_write_lock := mret UACPI_STATUS_OK;
  ns_write_unlock := mret tt;
  node_is_method := fun _ => mret true;
  node_is_device := fun _ => mret (UACPI_STATUS_OK, true);
  execute_method := fun _ => mret UACPI_STATUS_OK;
  notify_all := fun _ _ => mret UACPI_STATUS_OK;
  methods_below := fun _ => mret [(0x77, [95; 76; 48; 51]); (0x78, [95; 69; 48; 53])] |}.

#[export] Instance no_lock : EventLock world := {|
  event_lock_init := mret UACPI_STATUS_OK; event_lock_deinit := mret tt;
  event_lock_acquire := mret UACPI_STATUS_OK; event_lock_release := mret tt |}.

#[export] Instance machine_works : GpeHardware world Z.
Proof.
  refine {| hw := cell; is_status := status_address |}; try reflexivity.
  - intros g v w; eexists; split; [reflexivity|]; unfold cell; cbn [cells set_cells]; split.
    + rewrite lookup_insert_eq; cbn; destruct (status_address g); reflexivity.
    + intros g' Hg; rewrite lookup_insert_ne by congruence; reflexivity.
  - intros l w; exists 0, w; split; reflexivity.
  - intros l f w; exists w; split; reflexivity.
Defined.

Lemma above_unused {A} (m : gmap Z A) k : above m <= k -> m !! k = None.
Proof.
  intros Hk; destruct (m !! k) as [x|] eqn:E; [|reflexivity]; exfalso; revert k x E Hk; unfold above.
  refine (map_fold_weak_ind (fun acc m => forall k x, m !! k = Some x -> acc <= k -> False) _ 1 _ _ m).
  - intros k x; rewrite lookup_empty; discriminate.
  - intros i y m' acc Hi IH k x; destruct (decide (i = k)) as [->|Hne]; [rewrite lookup_insert_eq; lia|].
    rewrite lookup_insert_ne by exact Hne; intros E Hk; apply (IH k x E); lia.
Qed.

Lemma unused_native (s : event_state Z) : unused s <> 0 /\ natives s !! unused s = None.
Proof.
  split; [|apply above_unused; unfold unused; lia].
  assert (H : forall A (m : gmap Z A), 1 <= above m); [|pose proof (H _ (blocks s)); unfold unused; lia].
  intros A m; unfold above; apply (map_fold_weak_ind (fun acc _ => 1 <= acc)); intros; lia.
Qed.

(** ** A machine that was set up *)

Definition no_gas : acpi_gas := {| address_space_id := 0; register_bit_width := 0; register_bit_offset := 0; access_size := 0; address := 0 |}.

Definition fadt : event_rt := {|
  rt_init_level := 2; rt_hardware_reduced := false; rt_has_global_lock := false; rt_global_lock_pending := false;
  rt_global_lock_event := 0; rt_global_lock_spinlock := 0; rt_sci_handle := 0; rt_sci_handle_valid := false; rt_facs := 0;
  rt_sci_int := 9; rt_x_gpe0_blk := gpe_gas 0x800 1; rt_gpe0_blk_len := 4; rt_x_gpe1_blk := no_gas; rt_gpe1_blk_len := 0;
  rt_gpe1_base := 0 |}.

Definition cold (w : world) : st world Z := {|
  ev := {| g_gpe_state_slock := 1; g_gpes_finalized := false; fixed_event_handlers := replicate 5 no_fixed_handler;
    g_gpe_interrupt_head := 0; blocks := ∅; ctxs := ∅; natives := ∅; implicits := ∅; ert := fadt |};
  regs := {| gases := fun _ => no_gas; fadt_smi_cmd := 0;
    mappings := fun r second => if second
      then {| place_mapping := None; place_state := REGISTER_MAPPING_STATE_NOT_NEEDED |}
      else {| place_mapping := Some (0x1000 + 2 * r); place_state := REGISTER_MAPPING_STATE_MAPPED |};
    reg_lock := true; Registers.world := w |} |}.

Definition state_of {A} (r : option (A * st world Z)) : st world Z :=
  match r with Some (_, s) => s | None => cold {| cells := ∅; waiting := []; calls := [] |} end.

Definition powered : st world Z := cold {| cells := ∅; waiting := []; calls := [] |}.
Definition booted : st world Z := state_of (initialize_gpes powered).

(** The block it finds, at address 1: its registers and its events. *)
Definition the_block : gpe_block Z := Eval vm_compute in
  match blocks (ev booted) !! 1 with Some x => x | None =>
    {| b_prev := 0; b_next := 0; device_node := 0; registers := None; events := None; irq_ctx := 0; num_registers := 0; num_events := 0; b_base_idx := 0 |} end.

Lemma booted_blocks : blocks (ev booted) = {[1 := the_block]}.
Proof. vm_compute; reflexivity. Qed.

Lemma nth_at_range {A} (l : list A) i a : nth_at (Some l) i = Some a -> i ∈ seqZ 0 (Z.of_nat (length l)).
Proof.
  unfold nth_at; cbn; destruct (Z.ltb_spec i 0); [discriminate|]; intros E%lookup_lt_Some; apply elem_of_seqZ; lia.
Qed.

(** Events and registers of a machine with this block. *)
Lemma one_block_event (s : st world Z) x l b j e : blocks (ev s) = {[1 := x]} -> events x = Some l -> ev_at s (b, j) = Some e ->
  b = 1 /\ j ∈ seqZ 0 (Z.of_nat (length l)).
Proof.
  intros Hb Hx; unfold ev_at; rewrite Hb; cbn [fst snd]; destruct (decide (b = 1)) as [->|Hne].
  - rewrite lookup_singleton_eq; cbn [mbind option_bind]; rewrite Hx; intros E; split; [reflexivity|eapply nth_at_range, E].
  - rewrite lookup_singleton_ne by congruence; discriminate.
Qed.

Lemma one_block_reg (s : st world Z) x l b i r : blocks (ev s) = {[1 := x]} -> registers x = Some l -> reg_at s b i = Some r ->
  b = 1 /\ i ∈ seqZ 0 (Z.of_nat (length l)).
Proof.
  intros Hb Hx; unfold reg_at; rewrite Hb; destruct (decide (b = 1)) as [->|Hne].
  - rewrite lookup_singleton_eq; cbn [mbind option_bind]; rewrite Hx; intros E; split; [reflexivity|eapply nth_at_range, E].
  - rewrite lookup_singleton_ne by congruence; discriminate.
Qed.

(** The layout and the invariant of such a machine, by evaluation. *)
Definition event_fits (s : st world Z) (j : Z) : bool :=
  match ev_at s (1, j), reg_at s 1 (j / 8) with
  | Some e, Some r => bool_decide (e_reg e = Some (j / 8)) && (e_idx e =? r_base_idx r + j mod 8)
  | _, _ => false
  end.

Definition reg_fits (s : st world Z) (i : Z) : bool :=
  match reg_at s 1 i with
  | Some r => bool_decide (r_status r = Some (0x800 + i)) && bool_decide (r_enable r = Some (0x802 + i)) &&
      (current_mask r =? runtime_mask r)
  | None => false
  end.

Definition view_fits (v : gview) : bool :=
  (0 <=? num_users (v_event v)) && (num_users (v_event v) <=? 0xff) &&
  Bool.eqb (v_run v) (negb (num_users (v_event v) =? 0)) && Bool.eqb (v_cur v) (v_run v) &&
  implb (v_run v && negb (v_masked v) && negb (block_interrupts (v_event v))) (v_on v) && negb (v_masked v && v_on v).

Definition fits (s : st world Z) : bool :=
  forallb (event_fits s) (seqZ 0 16) && forallb (reg_fits s) (seqZ 0 2) &&
  forallb (fun j => match view s (1, j) with Some v => view_fits v | None => false end) (seqZ 0 16).

Lemma view_fits_ok v : view_fits v = true -> ok_view False v.
Proof.
  unfold view_fits; rewrite !andb_true_iff, !Z.leb_le, !Bool.eqb_true_iff; intros [[[[[H1 H2] H3] H4] H5] H6].
  constructor; auto; destruct (v_run v), (v_masked v), (v_on v), (block_interrupts _); cbn in *; congruence.
Qed.

Lemma fits_inv s x le lr : blocks (ev s) = {[1 := x]} -> events x = Some le -> registers x = Some lr ->
  length le = 16%nat -> length lr = 2%nat -> fits s = true -> inv nobody s.
Proof.
  intros Hb He Hr Hle Hlr; unfold fits; rewrite !andb_true_iff, !forallb_forall; intros [[F1 F2] F3].
  assert (RE : forall b j e, ev_at s (b, j) = Some e -> b = 1 /\ In j (seqZ 0 16)).
  { intros b j e E; destruct (one_block_event s x le b j e Hb He E) as [-> Hj]; rewrite Hle in Hj; split; [reflexivity|apply list_elem_of_In, Hj]. }
  assert (RR : forall b i r, reg_at s b i = Some r -> b = 1 /\ In i (seqZ 0 2) /\ r_status r = Some (0x800 + i) /\ r_enable r = Some (0x802 + i) /\
      current_mask r = runtime_mask r).
  { intros b i r E; destruct (one_block_reg s x lr b i r Hb Hr E) as [-> Hi]; rewrite Hlr in Hi; apply list_elem_of_In in Hi.
    pose proof (F2 i Hi) as F; unfold reg_fits in F; rewrite E in F; rewrite !andb_true_iff, !bool_decide_eq_true, Z.eqb_eq in F; tauto. }
  constructor; [constructor| |].
  - intros b j e E; destruct (RE b j e E) as [-> Hj]; pose proof (F1 j Hj) as F; unfold event_fits in F; rewrite E in F.
    destruct (reg_at s 1 (j / 8)) as [r|] eqn:Er; [|discriminate]; rewrite andb_true_iff, bool_decide_eq_true, Z.eqb_eq in F.
    destruct (RR 1 (j / 8) r Er) as (_ & _ & H1 & H2 & _); eexists r, _, _; repeat split; try eassumption; tauto.
  - intros b i r b' i' r' E E' H; destruct (RR _ _ _ E) as (-> & _ & _ & H1 & _); destruct (RR _ _ _ E') as (-> & _ & _ & H2 & _).
    split; [reflexivity|rewrite H1, H2 in H; injection H as H; lia].
  - intros b i r b' i' r' E E' H; destruct (RR _ _ _ E) as (-> & _ & H1 & _); destruct (RR _ _ _ E') as (-> & _ & H2 & _).
    split; [reflexivity|rewrite H1, H2 in H; injection H as H; lia].
  - intros b i r g E; destruct (RR _ _ _ E) as (-> & Hi & H1 & H2 & _); rewrite H1, H2.
    cbn in Hi; destruct Hi as [<-|[<-|[]]]; split; intros [= <-]; reflexivity.
  - intros b i r E; apply (RR b i r E).
  - intros [b j] v Hv; assert (E : exists e, ev_at s (b, j) = Some e).
    { unfold view in Hv; destruct (ev_at s (b, j)) as [e|]; [eauto|discriminate]. }
    destruct E as [e E]; destruct (RE b j e E) as [-> Hj]; pose proof (F3 j Hj) as F; rewrite Hv in F; apply view_fits_ok, F.
Qed.

Lemma booted_inv : inv nobody booted.
Proof.
  refine (fits_inv booted the_block _ _ booted_blocks eq_refl eq_refl _ _ _); vm_compute; reflexivity.
Qed.

Lemma call_kept (s : st world Z) (cb : Z) :
  kept s {| ev := ev s; regs := Registers.with_world (regs s) (set_calls (calls (Registers.world (regs s)) ++ [cb]) (Registers.world (regs s))) |}.
Proof. apply quiet_kept; try reflexivity. Qed.

#[export] Instance machine_laws : EventHostLaws world Z.
Proof.
  constructor; intros; try (apply kept_ret); try (apply steps_ret; intros ? ?; reflexivity).
  - intros s a s' [= <- <-]; apply call_kept.
  - intros s a s' [= <- <-] p v v' E E'; rewrite E in E'; injection E' as <-; reflexivity.
  - intros s a s' [= <- <-]; reflexivity.
  - intros s a s' [= <- <-] g; reflexivity.
Defined.

(** The machine is initialised, event 3 arrives, its method runs and it is enabled again. *)
Definition raise (p : Z) (s : st world Z) : st world Z :=
  set_world (set_cells (<[0x800 + p / 8 := Z.lor (cell (0x800 + p / 8) (Registers.world (regs s))) (Z.shiftl 1 (p mod 8))]>
    (cells (Registers.world (regs s)))) (Registers.world (regs s))) s.

Definition a_day : list gpe_op := [OP_FINALIZE; OP_INTERRUPT 2; OP_MASK 0 5; OP_WORK (RUN_GPE_HANDLER (1, 3)); OP_INSTALL 0 7 1 0x99 0;
  OP_ENABLE 0 7; OP_WORK (RESTORE_GPE (1, 3)); OP_UNMASK 0 5; OP_UNINSTALL 0 7 0x99].

Lemma gpe_invariant_kept_witness : inv nobody booted /\ exists s', run_ops a_day (raise 3 booted) = Some (tt, s') /\ inv nobody s'.
Proof.
  split; [exact booted_inv|exists (state_of (run_ops a_day (raise 3 booted))); split; [vm_compute; reflexivity|]].
  apply (gpe_invariant_kept a_day (raise 3 booted)); [|vm_compute; reflexivity].
  refine (fits_inv (raise 3 booted) the_block _ _ booted_blocks eq_refl eq_refl _ _ _); vm_compute; reflexivity.
Defined.

(** Three users of event 7, two of which leave, then the last. *)
Lemma gpe_users_counted_witness : exists v s1 s2 s3,
  times 3 (gpe_add_user (1, 7) true) booted = Some (UACPI_STATUS_OK, s1) /\
  times 2 (gpe_remove_user (1, 7)) s1 = Some (UACPI_STATUS_OK, s2) /\ view s2 (1, 7) = Some v /\ v_on v = true /\
  gpe_remove_user (1, 7) s2 = Some (UACPI_STATUS_OK, s3).
Proof.
  destruct (view booted (1, 7)) as [v|] eqn:Ev; [|vm_compute in Ev; discriminate].
  assert (Hv : v_masked v = false /\ num_users (v_event v) = 0) by (vm_compute in Ev; injection Ev as <-; split; reflexivity).
  destruct (gpe_users_counted booted (1, 7) v 3 2 true booted_inv Ev (proj2 Hv) (proj1 Hv)) as (s1 & E1 & _ & s2 & E2 & C & Hon & H); [lia|lia|].
  destruct (H eq_refl) as (s3 & E3 & _); eexists _, s1, s2, s3; split; [exact E1|split; [exact E2|split; [apply (ch_view _ _ _ _ C)|]]].
  split; [exact Hon|exact E3].
Defined.

(** The machine after finalisation: the events with methods are enabled. *)
Definition running : st world Z := state_of (uacpi_finalize_gpe_initialization booted).
Definition running_block : gpe_block Z := Eval vm_compute in
  match blocks (ev running) !! 1 with Some x => x | None => the_block end.

Lemma running_blocks : blocks (ev running) = {[1 := running_block]}.
Proof. vm_compute; reflexivity. Qed.

Lemma running_inv : inv nobody running.
Proof. refine (fits_inv running running_block _ _ running_blocks eq_refl eq_refl _ _ _); vm_compute; reflexivity. Qed.

Lemma alloc_native (s : st world Z) : exists h w, kernel_alloc_struct sizeof_native s = Some (h, set_world w s) /\
  h <> 0 /\ natives (ev s) !! h = None /\ quiet (Registers.world (regs s)) w.
Proof.
  exists (unused (ev s)), (Registers.world (regs s)); rewrite set_world_id.
  split; [reflexivity|split; [apply unused_native|split; [apply unused_native|intros g; reflexivity]]].
Qed.

(** A native handler over the method of event 3, and back. *)
Lemma install_uninstall_restores_witness : exists a s1 s2,
  install_native (1, 3) 1 GPE_HANDLER_TYPE_NATIVE_HANDLER 0x99 0 running = Some (UACPI_STATUS_OK, s1) /\
  is_Some (natives (ev s1) !! a) /\ uninstall_native 4152 (1, 3) 0x99 s1 = Some (UACPI_STATUS_OK, s2) /\
  view s2 (1, 3) = view running (1, 3).
Proof.
  destruct (view running (1, 3)) as [v|] eqn:Ev; [|vm_compute in Ev; discriminate].
  assert (Hv : is_native (handler_type (v_event v)) = false /\ v_masked v = false /\ block_interrupts (v_event v) = false /\ v_pend v = false)
    by (vm_compute in Ev; injection Ev as <-; repeat split; reflexivity).
  destruct (install_uninstall_restores alloc_native (fun _ => eq_refl) (1, 3) v running 4152 1 GPE_HANDLER_TYPE_NATIVE_HANDLER 0x99 0
    running_inv Ev (proj1 Hv) eq_refl (proj1 (proj2 Hv)) (proj1 (proj2 (proj2 Hv))) (or_introl (proj2 (proj2 (proj2 Hv)))))
    as (a & s1 & s2 & E1 & Hn & E2 & H & _).
  exists a, s1, s2; split; [exact E1|split; [eexists; exact Hn|split; [exact E2|rewrite H; exact Ev]]].
Defined.

(** *** The queue *)

Lemma mret_tame {A} (a : A) : tame waiting (mret a).
Proof. intros w; exists a, w; split; [reflexivity|split; [intros g; reflexivity|reflexivity]]. Qed.

Lemma mret_calm {A} (a : A) : calmly waiting (mret a).
Proof. apply calm_ret. Qed.

Lemma running_drainable : drainable waiting nobody running.
Proof.
  constructor; [exact running_inv|intros x Hx; vm_compute in Hx; apply not_elem_of_nil in Hx; destruct Hx|..]; intros [b j] v Hv.
  - intros _ Hb; exfalso; destruct (view_seen _ _ _ (inv_layout _ _ running_inv) Hv) as (e & r & gs & ge & HS).
    destruct (one_block_event running running_block _ b j e running_blocks eq_refl (se_event _ _ _ _ _ _ _ HS)) as [-> Hj%list_elem_of_In].
    cbn in Hj; repeat (destruct Hj as [<-|Hj]; [vm_compute in Hv; injection Hv as <-; discriminate|]); destruct Hj.
  - intros Ht; exfalso; destruct (view_seen _ _ _ (inv_layout _ _ running_inv) Hv) as (e & r & gs & ge & HS).
    destruct (one_block_event running running_block _ b j e running_blocks eq_refl (se_event _ _ _ _ _ _ _ HS)) as [-> Hj%list_elem_of_In].
    cbn in Hj; repeat (destruct Hj as [<-|Hj]; [vm_compute in Hv; injection Hv as <-; discriminate|]); destruct Hj.
Qed.

(** Event 3 arrives. *)
Lemma gpes_are_served_witness : exists r s1, dispatch_gpe 4152 (1, 3) running = Some (r, s1) /\
  waiting (Registers.world (regs s1)) = [RUN_GPE_HANDLER (1, 3)] /\ inevitably waiting set_waiting (served waiting) s1.
Proof.
  exists 1, (state_of (dispatch_gpe 4152 (1, 3) running)).
  assert (E : dispatch_gpe 4152 (1, 3) running = Some (1, state_of (dispatch_gpe 4152 (1, 3) running))) by (vm_compute; reflexivity).
  assert (Ew : waiting (Registers.world (regs (state_of (dispatch_gpe 4152 (1, 3) running)))) = [RUN_GPE_HANDLER (1, 3)]) by (vm_compute; reflexivity).
  split; [exact E|split; [exact Ew|]].
  destruct (view running (1, 3)) as [v|] eqn:Ev; [|vm_compute in Ev; discriminate].
  refine (gpes_are_served waiting set_waiting _ _ _ _ _ _ _ _ _ _ running (1, 3) v 4152 1 _ running_drainable Ev _ E _).
  - intros l w; split; [reflexivity|intros g; reflexivity].
  - intros g x w a w' [= <- <-]; reflexivity.
  - intros l w a w' [= <- <-]; reflexivity.
  - intros l f w a w' [= <- <-]; reflexivity.
  - apply mret_tame.
  - apply mret_tame.
  - intros n; apply mret_tame.
  - intros n; apply mret_calm.
  - intros d x; apply mret_calm.
  - intros x w; eexists _, _; split; [reflexivity|split; [intros g; reflexivity|reflexivity]].
  - vm_compute in Ev; injection Ev as <-; reflexivity.
  - unfold todo; rewrite Ew; left.
Defined.

(** ** Where the code goes wrong *)

(** The index one past the last event of a block is taken for an event: the run goes
    outside the array.  The next index is refused. *)
Lemma gpe_past_the_block : uacpi_gpe_info 0 15 running = Some ((UACPI_STATUS_OK, Some 0), running) /\
  uacpi_gpe_info 0 16 running = None /\ uacpi_gpe_info 0 17 running = Some ((UACPI_STATUS_NOT_FOUND, None), running).
Proof. vm_compute; repeat split; reflexivity. Qed.

(** Events 3 and 4 may wake the system; disabling that for event 4 disables it for event 3
    and leaves it enabled for event 4. *)
Lemma disable_for_wake_keeps_it :
  let wake_events := uacpi_setup_gpe_for_wake 0 3 0;; uacpi_setup_gpe_for_wake 0 4 0;;
    uacpi_enable_gpe_for_wake 0 3;; uacpi_enable_gpe_for_wake 0 4 in
  let mask s := match s with Some (_, s) => wake_mask <$> reg_at s 1 0 | None => None end in
  mask (wake_events running) = Some 0x18 /\ mask ((wake_events;; uacpi_disable_gpe_for_wake 0 4) running) = Some 0x10.
Proof. vm_compute; split; reflexivity. Qed.

(** The alarm of the real-time clock has a handler, is enabled and pending; the interrupt
    is not handled and the handler does not run, while the timer's does. *)
Lemma rtc_never_dispatched :
  let go event status := (uacpi_install_fixed_event_handler (GO := machine 16) event (HOST_HANDLER 7) 0;;
    handle_fixed_events (GO := machine 16)) (cold {| cells := {[0x1000 := status]}; waiting := []; calls := [] |}) in
  let seen r := match r with Some (a, s) => Some (a, calls (Registers.world (regs s))) | None => None end in
  seen (go UACPI_FIXED_EVENT_TIMER_STATUS (bit 0)) = Some (UACPI_INTERRUPT_HANDLED, [7]) /\
  seen (go UACPI_FIXED_EVENT_RTC (bit 10)) = Some (UACPI_INTERRUPT_NOT_HANDLED, []).
Proof. vm_compute; split; reflexivity. Qed.

(** The only block of an interrupt is uninstalled: its context is freed and stays the head
    of the list, so that the next search follows a dangling pointer. *)
Lemma uninstall_leaves_context :
  exists s, uacpi_uninstall_gpe_block 4152 running = Some (UACPI_STATUS_OK, s) /\ g_gpe_interrupt_head (ev s) = 2 /\
    ctxs (ev s) !! 2 = None /\ uacpi_install_gpe_block 4152 0x800 1 2 9 s = None /\ uacpi_enable_gpe 0 3 s = None.
Proof.
  exists (state_of (uacpi_uninstall_gpe_block 4152 running)); split; [vm_compute; reflexivity|].
  repeat split; vm_compute; reflexivity.
Qed.

(** An event that the host masked: installing a handler unmasks and enables it. *)
Lemma install_unmasks :
  let masked s := match s with Some (_, s) => (fun v => (v_masked v, v_on v)) <$> view s (1, 3) | None => None end in
  masked ((uacpi_enable_gpe 0 3;; uacpi_mask_gpe 0 3) running) = Some (true, false) /\
  masked ((uacpi_enable_gpe 0 3;; uacpi_mask_gpe 0 3;; uacpi_install_gpe_handler 0 3 0 0x99 0) running) = Some (false, true).
Proof. vm_compute; split; reflexivity. Qed.

(** A masked event is enabled with the events that wake the system. *)
Lemma wake_enables_masked :
  let masked s := match s with Some (_, s) => (fun v => (v_masked v, v_on v)) <$> view s (1, 4) | None => None end in
  masked ((uacpi_setup_gpe_for_wake 0 4 0;; uacpi_enable_gpe_for_wake 0 4;; uacpi_mask_gpe 0 4;; uacpi_enable_all_wake_gpes) running)
    = Some (true, true).
Proof. vm_compute; reflexivity. Qed.

(** A block of 8192 registers has room for no event, and the first of its 65536 events is
    written all the same. *)
Lemma large_block_overruns : uacpi_install_gpe_block 5000 0x2000 1 8192 9 powered = None /\
  u16 (8192 * EVENTS_PER_GPE_REGISTER) = 0 /\
  exists s, uacpi_install_gpe_block 5000 0x2000 1 2 9 powered = Some (UACPI_STATUS_OK, s).
Proof.
  split; [vm_compute; reflexivity|split; [reflexivity|exists (state_of (uacpi_install_gpe_block 5000 0x2000 1 2 9 powered))]].
  vm_compute; reflexivity.
Qed.

(** The handler cannot be queued: the event stays disabled and flagged, with nothing left
    that would enable it. *)
Definition full_queue : EventHost world Z :=
  {| kernel_alloc_struct := kernel_alloc_struct; call_gpe_handler := call_gpe_handler; call_interrupt_handler := call_interrupt_handler;
     kernel_install_interrupt_handler := kernel_install_interrupt_handler;
     kernel_uninstall_interrupt_handler := kernel_uninstall_interrupt_handler;
     kernel_schedule_work := fun _ => mret UACPI_STATUS_OUT_OF_MEMORY;
     kernel_wait_for_work_completion := kernel_wait_for_work_completion; kernel_create_spinlock := kernel_create_spinlock;
     kernel_free_spinlock := kernel_free_spinlock; kernel_lock_spinlock := kernel_lock_spinlock;
     kernel_unlock_spinlock := kernel_unlock_spinlock; kernel_create_event := kernel_create_event;
     kernel_signal_event := kernel_signal_event; ns_write_lock := ns_write_lock; ns_write_unlock := ns_write_unlock;
     node_is_method := node_is_method; node_is_device := node_is_device; execute_method := execute_method;
     notify_all := notify_all; methods_below := methods_below |}.

Lemma unqueued_event_lost :
  exists s v, dispatch_gpe (EH := full_queue) 4152 (1, 3) running = Some (UACPI_INTERRUPT_HANDLED, s) /\ view s (1, 3) = Some v /\
    block_interrupts (v_event v) = true /\ v_on v = false /\ waiting (Registers.world (regs s)) = [].
Proof.
  exists (state_of (dispatch_gpe (EH := full_queue) 4152 (1, 3) running)).
  destruct (view (state_of (dispatch_gpe (EH := full_queue) 4152 (1, 3) running)) (1, 3)) as [v|] eqn:Ev; [|vm_compute in Ev; discriminate].
  exists v; split; [vm_compute; reflexivity|split; [reflexivity|]]; vm_compute in Ev; injection Ev as <-.
  split; [reflexivity|split; [reflexivity|vm_compute; reflexivity]].
Qed.

(** A lock that cannot be taken is released all the same. *)
Definition busy_lock : EventLock world := {|
  event_lock_init := mret UACPI_STATUS_OK; event_lock_deinit := mret tt; event_lock_acquire := mret UACPI_STATUS_TIMEOUT;
  event_lock_release := fun w => Some (tt, set_calls (calls w ++ [0xdead]) w) |}.

Lemma releases_what_it_did_not_take :
  exists s, uacpi_events_match_post_dynamic_table_load (EL := busy_lock) running = Some (tt, s) /\
    calls (Registers.world (regs s)) = [0xdead].
Proof.
  exists (state_of (uacpi_events_match_post_dynamic_table_load (EL := busy_lock) running)); split; vm_compute; reflexivity.
Qed.
End Demo.
