(* ===== verification/Objects.v ===== *)
(** * acpi/uacpi/types.c: AML objects

    An object has a type, flags and a union that holds a value or points to storage
    (a buffer, a package, a mutex ...).  Objects and storages carry a reference count;
    a reference to a reference object counts for the whole chain below it.  The heap
    maps addresses to cells; reading a cell as something it is not, or one that was
    freed, is undefined.  The kernel, the namespace and the tables are the interface
    [ObjectHost]. *)

From S2P Require Import Prelude UCore FieldUnit Shareable.

Open Scope word_scope.

(** ** Data *)

Inductive uacpi_object_type :=
  | OBJECT_UNINITIALIZED | OBJECT_INTEGER | OBJECT_STRING | OBJECT_BUFFER | OBJECT_PACKAGE | OBJECT_FIELD_UNIT
  | OBJECT_DEVICE | OBJECT_EVENT | OBJECT_METHOD | OBJECT_MUTEX | OBJECT_OPERATION_REGION | OBJECT_POWER_RESOURCE
  | OBJECT_PROCESSOR | OBJECT_THERMAL_ZONE | OBJECT_BUFFER_FIELD | OBJECT_DEBUG | OBJECT_REFERENCE
  | OBJECT_BUFFER_INDEX.

#[export] Instance uacpi_object_type_eq_dec : EqDecision uacpi_object_type.
Proof. solve_decision. Defined.

Definition type_value (t : uacpi_object_type) : Z :=
  match t with
  | OBJECT_UNINITIALIZED => 0 | OBJECT_INTEGER => 1 | OBJECT_STRING => 2 | OBJECT_BUFFER => 3 | OBJECT_PACKAGE => 4
  | OBJECT_FIELD_UNIT => 5 | OBJECT_DEVICE => 6 | OBJECT_EVENT => 7 | OBJECT_METHOD => 8 | OBJECT_MUTEX => 9
  | OBJECT_OPERATION_REGION => 10 | OBJECT_POWER_RESOURCE => 11 | OBJECT_PROCESSOR => 12 | OBJECT_THERMAL_ZONE => 13
  | OBJECT_BUFFER_FIELD => 14 | OBJECT_DEBUG => 16 | OBJECT_REFERENCE => 20 | OBJECT_BUFFER_INDEX => 21
  end.

Definition type_bit (t : uacpi_object_type) : Z := Z.shiftl 1 (type_value t).

(** [flags] of a reference and of a string. *)
Definition UACPI_REFERENCE_KIND_REFOF : Z := 0.
Definition UACPI_REFERENCE_KIND_LOCAL : Z := 1.
Definition UACPI_REFERENCE_KIND_ARG : Z := 2.
Definition UACPI_REFERENCE_KIND_NAMED : Z := 3.
Definition UACPI_REFERENCE_KIND_PKG_INDEX : Z := 4.
Definition UACPI_STRING_KIND_NORMAL : Z := 0.
Definition UACPI_STRING_KIND_PATH : Z := 1.

Record buffer_field := { backing : Z; bit_index : Z; bit_length : Z; force_buffer : bool }.

(** The union of an object by the member it was last written through; a zeroed union is
    [D_INTEGER 0]. *)
Inductive data :=
  | D_INTEGER (v : Z)
  | D_POINTER (p : Z)
  | D_BUFFER_FIELD (f : buffer_field)
  | D_BUFFER_INDEX (idx buffer : Z)
  | D_POWER_RESOURCE (system_level resource_order : Z).

Record object := { o_type : uacpi_object_type; o_flags : Z; o_data : data }.

Record mutex := { m_handle : Z; m_owner : Z; m_depth : Z; sync_level : Z }.

Record control_method := {
  code : list Z; m_mutex : Z; m_sync_level : Z; m_args : Z; is_serialized : bool; named_objects_persist : bool; native_call : bool;
  owns_code : bool }.

Record operation_region := {
  r_handler : Z; r_user_context : Z; r_space : Z; state_flags : Z; r_offset : Z; r_length : Z; table_idx : Z;
  r_next : Z }.

(** What a field unit points to. *)
Inductive field_links :=
  | LINKS_NORMAL (region : Z)
  | LINKS_INDEX (index data : Z)
  | LINKS_BANK (bank_region bank_selection bank_value : Z).

(** The other members are those that fields have in [FieldUnit]. *)
Record field_unit := { links : field_links; connection : Z; geometry : field_props }.
Definition zeroed_props : field_props := {|
  byte_offset := 0; FieldUnit.bit_length := 0; pin_offset := 0; bit_offset_within_first_byte := 0; access_width_bytes := 0;
  access_length := 0; attributes := 0; update_rule := UACPI_UPDATE_RULE_PRESERVE; lock_rule := false |}.

(** A device, a processor or a thermal zone: the two lists of handlers come first. *)
Record handlers := {
  address_space_head : Z; notify_head : Z; p_id : Z; p_block_address : Z; p_block_length : Z }.

Record address_space_handler := {
  callback : Z; user_context : Z; h_next : Z; regions : Z; h_space : Z; h_flags : Z }.

Record notify_handler := { n_callback : Z; n_user_context : Z; n_next : Z }.

(** [b_data] is [None] for the null pointer; the array of a package is a list of
    pointers to objects. *)
Inductive cell :=
  | C_OBJECT (o : object)
  | C_BUFFER (b_data : option (list Z)) (b_size : Z)
  | C_PACKAGE (objects : list Z)
  | C_MUTEX (m : mutex)
  | C_EVENT (handle : Z)
  | C_METHOD (m : control_method)
  | C_REGION (r : operation_region)
  | C_FIELD_UNIT (f : field_unit)
  | C_HANDLERS (h : handlers)
  | C_ASPACE (h : address_space_handler).

Abbreviation heap := (gmap Z (Z * cell)).

Section State.
Context {W : Type}.
Record ost := { cells : heap; notifies : gmap Z notify_handler; oworld : W }.
Definition set_cells (x : heap) (s : ost) : ost := {| cells := x; notifies := notifies s; oworld := oworld s |}.
Definition set_notifies (x : gmap Z notify_handler) (s : ost) : ost := {| cells := cells s; notifies := x; oworld := oworld s |}.
Definition set_oworld (x : W) (s : ost) : ost := {| cells := cells s; notifies := notifies s; oworld := x |}.
End State.
Arguments ost W : clear implicits.

Class ObjectHost (W : Type) := {
  (** a structure of the given size: its address, 0 when there is no memory *)
  alloc_struct : Z -> SM (ost W) Z;
  (** an array of bytes with what it contains ([None]: no memory) *)
  alloc_bytes : Z -> SM W (option (list Z));
  create_mutex : SM W Z;
  release_mutex : Z -> SM W unit;
  create_event : SM W Z;
  release_event : Z -> SM W unit;
  table_unref : Z -> SM W unit;
  node_unref : Z -> SM W unit;
  aml_bitness : SM W (uacpi_status * Z);
  resolve_namepath : Z -> list Z -> SM W (uacpi_status * Z)
}.

(** A dynamic array with inline storage: its elements, the last one first, and how many
    fit into the storage outside. *)
Record dynamic_array (A : Type) := { items : list A; outside : Z }.
Arguments items {A} _.
Arguments outside {A} _.

Definition no_items {A} : dynamic_array A := {| items := []; outside := 0 |}.

Abbreviation free_queue := (dynamic_array Z).
Abbreviation pkg_copy_reqs := (dynamic_array (Z * Z)).

Section Operations.
Context {W : Type} {OH : ObjectHost W}.

Abbreviation M := (SM (ost W)).

Definition host {A} (c : SM W A) : M A := fun s =>
  match c (oworld s) with Some (a, w) => Some (a, set_oworld w s) | None => None end.

Definition of_opt {A} (o : option A) : M A := match o with Some a => mret a | None => undefined end.

(** *** The heap *)

Definition get_cell (a : Z) : M (Z * cell) := h ← gets_state cells; of_opt (h !! a).
Definition put_cell (a : Z) (c : Z * cell) : M unit := update_state (fun s => set_cells (<[a := c]> (cells s)) s).
Definition write_cell (a : Z) (c : cell) : M unit := x ← get_cell a; put_cell a (fst x, c).

(** [uacpi_free]; freeing what is not there is undefined. *)
Definition free_cell (a : Z) : M unit := _ ← get_cell a; update_state (fun s => set_cells (delete a (cells s)) s).

(** The operations of shareable.c on the count of a cell. *)
Definition on_count {A} (c : SM shareable A) (a : Z) : M A :=
  x ← get_cell a;
  match c {| reference_count := fst x; freed := 0 |} with
  | Some (r, n) => put_cell a (reference_count n, snd x);; mret r
  | None => undefined
  end.

Definition shareable_ref : Z -> M Z := on_count uacpi_shareable_ref.
Definition shareable_unref : Z -> M Z := on_count uacpi_shareable_unref.
Definition bugged_shareable : Z -> M bool := on_count uacpi_bugged_shareable.
Definition make_shareable_bugged : Z -> M unit := on_count uacpi_make_shareable_bugged.
Definition shareable_refcount : Z -> M Z := on_count uacpi_shareable_refcount.

Definition shareable_unref_and_delete_if_last (a : Z) (do_free : Z -> M unit) : M unit :=
  if a =? 0 then mret tt else
  bugged ← bugged_shareable a;
  if (bugged : bool) then mret tt else
  c ← shareable_unref a;
  if c =? 1 then do_free a else mret tt.

Definition get_object (a : Z) : M object := x ← get_cell a; match snd x with C_OBJECT o => mret o | _ => undefined end.
Definition get_buffer (a : Z) : M (option (list Z) * Z) :=
  x ← get_cell a; match snd x with C_BUFFER d n => mret (d, n) | _ => undefined end.
Definition get_package (a : Z) : M (list Z) := x ← get_cell a; match snd x with C_PACKAGE l => mret l | _ => undefined end.
Definition get_mutex (a : Z) : M mutex := x ← get_cell a; match snd x with C_MUTEX m => mret m | _ => undefined end.

Definition set_object (a : Z) (o : object) : M unit := write_cell a (C_OBJECT o).
Definition set_type (a : Z) (t : uacpi_object_type) : M unit :=
  o ← get_object a; set_object a {| o_type := t; o_flags := o_flags o; o_data := o_data o |}.
Definition set_flags (a : Z) (f : Z) : M unit :=
  o ← get_object a; set_object a {| o_type := o_type o; o_flags := f; o_data := o_data o |}.
Definition set_data (a : Z) (d : data) : M unit :=
  o ← get_object a; set_object a {| o_type := o_type o; o_flags := o_flags o; o_data := d |}.

(** A member of the union that is a pointer, and the other members; a zeroed union can be
    read as any of them. *)
Definition pointer_of (d : data) : option Z :=
  match d with D_POINTER p => Some p | D_INTEGER v => if v =? 0 then Some 0 else None | _ => None end.
Definition integer_of (d : data) : option Z := match d with D_INTEGER v => Some v | _ => None end.
Definition buffer_field_of (d : data) : option buffer_field :=
  match d with
  | D_BUFFER_FIELD f => Some f
  | D_INTEGER v => if v =? 0 then Some {| backing := 0; bit_index := 0; bit_length := 0; force_buffer := false |} else None
  | _ => None
  end.
Definition buffer_index_of (d : data) : option (Z * Z) :=
  match d with D_BUFFER_INDEX i b => Some (i, b) | D_INTEGER v => if v =? 0 then Some (0, 0) else None | _ => None end.

Definition get_pointer (a : Z) : M Z := o ← get_object a; of_opt (pointer_of (o_data o)).

Definition is_reference (o : object) : bool := match o_type o with OBJECT_REFERENCE => true | _ => false end.

(** *** Construction *)

Definition sizeof_object : Z := 32.
Definition sizeof_buffer : Z := 24.
Definition sizeof_package : Z := 24.
Definition sizeof_mutex : Z := 32.
Definition sizeof_event : Z := 16.
Definition sizeof_method : Z := 32.
Definition sizeof_region : Z := 64.
Definition sizeof_field_unit : Z := 64.
Definition sizeof_processor : Z := 40.
Definition sizeof_device : Z := 24.
Definition sizeof_thermal_zone : Z := 24.

(** A structure in the heap with a count of one: its address, or null. *)
Definition new_cell (size : Z) (c : cell) : M Z :=
  a ← alloc_struct size;
  if a =? 0 then mret 0 else put_cell a (1, c);; mret a.

(** A buffer of its own: null when there is no memory. *)
Definition new_buffer (initial_size : Z) : M Z :=
  buf ← new_cell sizeof_buffer (C_BUFFER None 0);
  if buf =? 0 then mret 0 else
  if initial_size =? 0 then mret buf else
  d ← host (alloc_bytes initial_size);
  match d with
  | None => free_cell buf;; mret 0
  | Some l => write_cell buf (C_BUFFER (Some l) initial_size);; mret buf
  end.

Definition buffer_alloc (obj initial_size : Z) : M bool :=
  buf ← new_buffer initial_size;
  if buf =? 0 then mret false else set_data obj (D_POINTER buf);; mret true.

Definition empty_buffer_or_string_alloc (obj : Z) : M bool := buffer_alloc obj 0.

(** [uacpi_create_object(UACPI_OBJECT_UNINITIALIZED)], which has no constructor to run. *)
Definition create_bare (t : uacpi_object_type) : M Z :=
  new_cell sizeof_object (C_OBJECT {| o_type := t; o_flags := 0; o_data := D_INTEGER 0 |}).

(** The elements from [i] on are created, up to the first that cannot be. *)
Fixpoint fill_slots (n : nat) (i : nat) (pkg : Z) : M bool :=
  match n with
  | O => mret true
  | S n' =>
      o ← create_bare OBJECT_UNINITIALIZED;
      l ← get_package pkg;
      write_cell pkg (C_PACKAGE (<[i := o]> l));;
      if o =? 0 then mret false else fill_slots n' (S i) pkg
  end.

Definition uacpi_package_fill (pkg num_elements : Z) (prealloc_objects : bool) : M bool :=
  if num_elements =? 0 then mret true else
  arr ← host (alloc_bytes (u64 (num_elements * 8)));
  match arr with
  | None => mret false
  | Some _ =>
      write_cell pkg (C_PACKAGE (replicate (Z.to_nat num_elements) 0));;
      if prealloc_objects then fill_slots (Z.to_nat num_elements) 0 pkg else mret true
  end.

Definition new_package (initial_size : Z) (prealloc : bool) : M Z :=
  pkg ← new_cell sizeof_package (C_PACKAGE []);
  if pkg =? 0 then mret 0 else
  ok ← uacpi_package_fill pkg initial_size prealloc;
  if negb ok then free_cell pkg;; mret 0 else mret pkg.

Definition package_alloc (obj initial_size : Z) (prealloc : bool) : M bool :=
  pkg ← new_package initial_size prealloc;
  if pkg =? 0 then mret false else set_data obj (D_POINTER pkg);; mret true.

Definition empty_package_alloc (obj : Z) : M bool := package_alloc obj 0 false.

Definition UACPI_THREAD_ID_NONE : Z := 0xffffffffffffffff.

Definition uacpi_create_mutex : M Z :=
  m ← alloc_struct sizeof_mutex;
  if m =? 0 then mret 0 else
  h ← host create_mutex;
  if h =? 0 then mret 0 else
  put_cell m (1, C_MUTEX {| m_handle := h; m_owner := UACPI_THREAD_ID_NONE; m_depth := 0; sync_level := 0 |});;
  mret m.

Definition mutex_alloc (obj : Z) : M bool :=
  m ← uacpi_create_mutex; set_data obj (D_POINTER m);; mret (negb (m =? 0)).

Definition event_alloc (obj : Z) : M bool :=
  e ← alloc_struct sizeof_event;
  if e =? 0 then mret false else
  h ← host create_event;
  if h =? 0 then mret false else
  put_cell e (1, C_EVENT h);; set_data obj (D_POINTER e);; mret true.

(** A zeroed structure behind an object. *)
Definition storage_alloc (obj size : Z) (c : cell) : M bool :=
  a ← new_cell size c;
  if a =? 0 then mret false else set_data obj (D_POINTER a);; mret true.

Definition no_handlers : handlers := {|
  address_space_head := 0; notify_head := 0; p_id := 0; p_block_address := 0; p_block_length := 0 |}.

Definition method_alloc (obj : Z) : M bool :=
  storage_alloc obj sizeof_method (C_METHOD {| code := []; m_mutex := 0; m_sync_level := 0; m_args := 0; is_serialized := false; named_objects_persist := false; native_call := false; owns_code := false |}).
Definition op_region_alloc (obj : Z) : M bool :=
  storage_alloc obj sizeof_region (C_REGION {| r_handler := 0; r_user_context := 0; r_space := 0; state_flags := 0;
    r_offset := 0; r_length := 0; table_idx := 0; r_next := 0 |}).
Definition field_unit_alloc (obj : Z) : M bool :=
  storage_alloc obj sizeof_field_unit (C_FIELD_UNIT {| links := LINKS_NORMAL 0; connection := 0; geometry := zeroed_props |}).
Definition processor_alloc (obj : Z) : M bool := storage_alloc obj sizeof_processor (C_HANDLERS no_handlers).
Definition device_alloc (obj : Z) : M bool := storage_alloc obj sizeof_device (C_HANDLERS no_handlers).
Definition thermal_zone_alloc (obj : Z) : M bool := storage_alloc obj sizeof_thermal_zone (C_HANDLERS no_handlers).

Definition object_constructor_table (t : uacpi_object_type) : option (Z -> M bool) :=
  match t with
  | OBJECT_STRING | OBJECT_BUFFER => Some empty_buffer_or_string_alloc
  | OBJECT_PACKAGE => Some empty_package_alloc
  | OBJECT_FIELD_UNIT => Some field_unit_alloc
  | OBJECT_MUTEX => Some mutex_alloc
  | OBJECT_EVENT => Some event_alloc
  | OBJECT_OPERATION_REGION => Some op_region_alloc
  | OBJECT_METHOD => Some method_alloc
  | OBJECT_PROCESSOR => Some processor_alloc
  | OBJECT_DEVICE => Some device_alloc
  | OBJECT_THERMAL_ZONE => Some thermal_zone_alloc
  | _ => None
  end.

Definition uacpi_create_object (t : uacpi_object_type) : M Z :=
  ret ← create_bare t;
  if ret =? 0 then mret 0 else
  match object_constructor_table t with
  | None => mret ret
  | Some ctor => ok ← ctor ret; if negb ok then free_cell ret;; mret 0 else mret ret
  end.
(** *** Queues of packages *)

(** The size of the next storage in bytes. *)
Definition next_bytes (inline_cap type_size capacity : Z) : Z :=
  if capacity =? 0 then u64 (type_size * inline_cap)
  else
    let bytes := u64 (capacity / 2 * type_size) in
    (if bytes =? 0 then type_size else bytes) +64 u64 (capacity * type_size).

Definition array_push {A} (inline_cap type_size : Z) (q : dynamic_array A) (x : A) : M (bool * dynamic_array A) :=
  let n := Z.of_nat (length (items q)) in
  cap ← (if (inline_cap <=? n) && (n - inline_cap =? outside q) then
           let bytes := next_bytes inline_cap type_size (outside q) in
           p ← host (alloc_bytes bytes);
           mret (match p with Some _ => Some (bytes / type_size) | None => None end)
         else mret (Some (outside q)));
  match cap with
  | Some c => mret (true, {| items := x :: items q; outside := c |})
  | None => mret (false, q)
  end.

Definition free_queue_push : free_queue -> Z -> M (bool * free_queue) := array_push 4 8.

(** *** Release *)

(** Chains, lists of handlers and the packages of a queue are no longer than the heap. *)
Definition cells_fuel : M nat := gets_state (fun s => S (size (cells s))).

Definition free_buffer (a : Z) : M unit := _ ← get_buffer a; free_cell a.

Definition free_mutex (a : Z) : M unit := m ← get_mutex a; host (release_mutex (m_handle m));; free_cell a.

Definition uacpi_mutex_unref (a : Z) : M unit :=
  if a =? 0 then mret tt else shareable_unref_and_delete_if_last a free_mutex.

Definition free_event (a : Z) : M unit :=
  x ← get_cell a;
  match snd x with C_EVENT h => host (release_event h);; free_cell a | _ => undefined end.

Definition get_aspace (a : Z) : M address_space_handler :=
  x ← get_cell a; match snd x with C_ASPACE h => mret h | _ => undefined end.

Definition free_address_space_handler (a : Z) : M unit := _ ← get_aspace a; free_cell a.

Fixpoint free_address_space_handlers (fuel : nat) (a : Z) : M unit :=
  match fuel with
  | O => undefined
  | S fuel' =>
      if a =? 0 then mret tt else
      h ← get_aspace a;
      shareable_unref_and_delete_if_last a free_address_space_handler;;
      free_address_space_handlers fuel' (h_next h)
  end.

Fixpoint free_device_notify_handlers (fuel : nat) (a : Z) : M unit :=
  match fuel with
  | O => undefined
  | S fuel' =>
      if a =? 0 then mret tt else
      m ← gets_state notifies; h ← of_opt (m !! a);
      update_state (fun s => set_notifies (delete a (notifies s)) s);;
      free_device_notify_handlers fuel' (n_next h)
  end.

Definition get_handlers (a : Z) : M handlers :=
  x ← get_cell a; match snd x with C_HANDLERS h => mret h | _ => undefined end.

Definition free_handlers (a : Z) : M unit :=
  h ← get_handlers a;
  fuel ← cells_fuel;
  free_address_space_handlers fuel (address_space_head h);;
  nf ← gets_state (fun s => S (size (notifies s)));
  free_device_notify_handlers nf (notify_head h).

Definition uacpi_address_space_handler_unref (a : Z) : M unit :=
  shareable_unref_and_delete_if_last a free_address_space_handler.

Definition UACPI_ADDRESS_SPACE_PCC : Z := 10.
Definition UACPI_ADDRESS_SPACE_TABLE_DATA : Z := 0xda1a.

Definition free_op_region (a : Z) : M unit :=
  x ← get_cell a;
  match snd x with
  | C_REGION r =>
      (if r_space r =? UACPI_ADDRESS_SPACE_TABLE_DATA then host (table_unref (table_idx r)) else mret tt);;
      free_cell a
  | _ => undefined
  end.

Definition free_device (a : Z) : M unit := free_handlers a;; free_cell a.
Definition free_processor (a : Z) : M unit := free_handlers a;; free_cell a.
Definition free_thermal_zone (a : Z) : M unit := free_handlers a;; free_cell a.

Definition free_method (a : Z) : M unit :=
  x ← get_cell a;
  match snd x with
  | C_METHOD m => shareable_unref_and_delete_if_last (m_mutex m) free_mutex;; free_cell a
  | _ => undefined
  end.

Definition uacpi_method_unref (a : Z) : M unit := shareable_unref_and_delete_if_last a free_method.

(** The inner object of a reference, null for other objects. *)
Definition next_in_chain (o : object) : option Z :=
  if is_reference o then pointer_of (o_data o) else Some 0.

Section Free.
(** The release of an object, one level further down. *)
Variable release_object : Z -> M unit.

Definition free_plain_no_recurse (o : Z) (q : free_queue) : M free_queue :=
  x ← get_object o;
  match o_type x with
  | OBJECT_PACKAGE =>
      p ← of_opt (pointer_of (o_data x));
      c ← shareable_unref p;
      if 1 <? c then mret q else
      r ← free_queue_push q p;
      free_cell o;; mret (snd r)
  | _ => release_object o;; mret q
  end.

Definition unref_plain_no_recurse (o : Z) (q : free_queue) : M free_queue :=
  c ← shareable_unref o;
  if 1 <? c then mret q else free_plain_no_recurse o q.

Fixpoint unref_chain_no_recurse (fuel : nat) (o : Z) (q : free_queue) : M free_queue :=
  match fuel with
  | O => undefined
  | S fuel' =>
      if o =? 0 then mret q else
      x ← get_object o;
      next_obj ← of_opt (next_in_chain x);
      c ← shareable_unref o;
      q ← (if 1 <? c then mret q else
           if is_reference x then free_cell o;; mret q else free_plain_no_recurse o q);
      unref_chain_no_recurse fuel' next_obj q
  end.

Definition unref_object_no_recurse (o : Z) (q : free_queue) : M free_queue :=
  x ← get_object o;
  if is_reference x then fuel ← cells_fuel; unref_chain_no_recurse fuel o q
  else unref_plain_no_recurse o q.

(** [for (i = 0; i < pkg->count; ++i)] *)
Fixpoint unref_slots (l : list Z) (q : free_queue) : M free_queue :=
  match l with
  | [] => mret q
  | o :: l' => q ← unref_object_no_recurse o q; unref_slots l' q
  end.

(** [while (free_queue_size(&queue) != 0)] *)
Fixpoint free_queued (fuel : nat) (q : free_queue) : M unit :=
  match fuel with
  | O => undefined
  | S fuel' =>
      match items q with
      | [] => mret tt
      | p :: rest =>
          l ← get_package p;
          q ← unref_slots l {| items := rest; outside := outside q |};
          free_cell p;;
          free_queued fuel' q
      end
  end.

Definition free_package (p : Z) : M unit :=
  fuel ← cells_fuel;
  r ← free_queue_push no_items p;
  free_queued fuel (snd r).

Fixpoint free_chain (fuel : nat) (o : Z) : M unit :=
  match fuel with
  | O => undefined
  | S fuel' =>
      if o =? 0 then mret tt else
      x ← get_object o;
      next_obj ← of_opt (next_in_chain x);
      c ← shareable_refcount o;
      (if c =? 0 then release_object o else mret tt);;
      free_chain fuel' next_obj
  end.

(** The loop of [uacpi_object_unref]; [false] when it returns early. *)
Fixpoint unref_chain (fuel : nat) (o : Z) : M bool :=
  match fuel with
  | O => undefined
  | S fuel' =>
      if o =? 0 then mret true else
      bugged ← bugged_shareable o;
      if (bugged : bool) then mret false else
      shareable_unref o;;
      x ← get_object o;
      next_obj ← of_opt (next_in_chain x);
      unref_chain fuel' next_obj
  end.

Definition object_unref (o : Z) : M unit :=
  if o =? 0 then mret tt else
  fuel ← cells_fuel;
  done ← unref_chain fuel o;
  if negb done then mret tt else
  c ← shareable_refcount o;
  if c =? 0 then free_chain fuel o else mret tt.

Fixpoint free_field_unit (fuel : nat) (a : Z) : M unit :=
  match fuel with
  | O => undefined
  | S fuel' =>
      x ← get_cell a;
      match snd x with
      | C_FIELD_UNIT f =>
          (if connection f =? 0 then mret tt else object_unref (connection f));;
          (match links f with
           | LINKS_NORMAL region => host (node_unref region)
           | LINKS_BANK bank_region bank_selection _ =>
               host (node_unref bank_region);;
               shareable_unref_and_delete_if_last bank_selection (free_field_unit fuel')
           | LINKS_INDEX index data =>
               shareable_unref_and_delete_if_last index (free_field_unit fuel');;
               shareable_unref_and_delete_if_last data (free_field_unit fuel')
           end);;
          free_cell a
      | _ => undefined
      end
  end.

Definition free_object_storage (a : Z) : M unit :=
  o ← get_object a;
  let storage (do_free : Z -> M unit) := p ← of_opt (pointer_of (o_data o)); shareable_unref_and_delete_if_last p do_free in
  match o_type o with
  | OBJECT_STRING | OBJECT_BUFFER => storage free_buffer
  | OBJECT_BUFFER_FIELD =>
      f ← of_opt (buffer_field_of (o_data o)); shareable_unref_and_delete_if_last (backing f) free_buffer
  | OBJECT_BUFFER_INDEX =>
      i ← of_opt (buffer_index_of (o_data o)); shareable_unref_and_delete_if_last (snd i) free_buffer
  | OBJECT_METHOD => p ← of_opt (pointer_of (o_data o)); uacpi_method_unref p
  | OBJECT_PACKAGE => storage free_package
  | OBJECT_FIELD_UNIT => fuel ← cells_fuel; storage (free_field_unit fuel)
  | OBJECT_MUTEX => p ← of_opt (pointer_of (o_data o)); uacpi_mutex_unref p
  | OBJECT_EVENT => storage free_event
  | OBJECT_OPERATION_REGION => storage free_op_region
  | OBJECT_PROCESSOR => storage free_processor
  | OBJECT_DEVICE => storage free_device
  | OBJECT_THERMAL_ZONE => storage free_thermal_zone
  | _ => mret tt
  end.

Definition free_object_with (a : Z) : M unit := free_object_storage a;; free_cell a.
End Free.

Fixpoint free_object (fuel : nat) (a : Z) : M unit :=
  match fuel with
  | O => undefined
  | S fuel' => free_object_with (free_object fuel') a
  end.

(** Objects are released inside objects at most as deep as the heap has cells. *)
Definition with_free {A} (k : (Z -> M unit) -> M A) : M A := fuel ← cells_fuel; k (free_object fuel).

Definition uacpi_object_unref (o : Z) : M unit := with_free (fun f => object_unref f o).

(** *** References *)

(** Over the chain of an object. *)
Fixpoint on_chain (f : Z -> M unit) (fuel : nat) (o : Z) : M unit :=
  match fuel with
  | O => undefined
  | S fuel' =>
      if o =? 0 then mret tt else
      f o;;
      x ← get_object o;
      next_obj ← of_opt (next_in_chain x);
      on_chain f fuel' next_obj
  end.

Definition make_chain_bugged (o : Z) : M unit := fuel ← cells_fuel; on_chain make_shareable_bugged fuel o.

Definition uacpi_object_ref (o : Z) : M unit := fuel ← cells_fuel; on_chain (fun a => shareable_ref a;; mret tt) fuel o.

(** [while (n--)] *)
Fixpoint repeatedly (n : nat) (c : M unit) : M unit :=
  match n with O => mret tt | S n' => c;; repeatedly n' c end.

Definition uacpi_object_attach_child (parent child : Z) : M unit :=
  set_data parent (D_POINTER child);;
  bugged ← bugged_shareable parent;
  if (bugged : bool) then make_chain_bugged child else
  n ← shareable_refcount parent;
  repeatedly (Z.to_nat n) (uacpi_object_ref child).

Definition uacpi_object_detach_child (parent : Z) : M unit :=
  child ← get_pointer parent;
  set_data parent (D_POINTER 0);;
  bugged ← bugged_shareable parent;
  if (bugged : bool) then mret tt else
  n ← shareable_refcount parent;
  repeatedly (Z.to_nat n) (uacpi_object_unref child).

Fixpoint unwrap (fuel : nat) (o : Z) : M Z :=
  match fuel with
  | O => undefined
  | S fuel' =>
      x ← get_object o;
      if negb (is_reference x) || ((o_flags x =? UACPI_REFERENCE_KIND_REFOF) || (o_flags x =? UACPI_REFERENCE_KIND_PKG_INDEX))
      then mret o
      else p ← of_opt (pointer_of (o_data x)); unwrap fuel' p
  end.

Definition uacpi_unwrap_internal_reference (o : Z) : M Z := fuel ← cells_fuel; unwrap fuel o.

(** *** Assignment *)

Inductive uacpi_assign_behavior := ASSIGN_BEHAVIOR_DEEP_COPY | ASSIGN_BEHAVIOR_SHALLOW_COPY.

(** [uacpi_memcpy_zerout] into a fresh array. *)
Definition bytes_zerout (dst_size : Z) (src : list Z) (src_size : Z) : list Z :=
  take (Z.to_nat (Z.min dst_size src_size)) src ++ replicate (Z.to_nat (dst_size - src_size)) 0.

Definition store_bytes (buf buf_size : Z) (src : list Z) (src_size : Z) : M unit :=
  if buf_size =? 0 then mret tt else write_cell buf (C_BUFFER (Some (bytes_zerout buf_size src src_size)) buf_size).

Definition buffer_alloc_and_store (obj buf_size : Z) (src : list Z) (src_size : Z) : M uacpi_status :=
  ok ← buffer_alloc obj buf_size;
  if negb ok then mret UACPI_STATUS_OUT_OF_MEMORY else
  buf ← get_pointer obj;
  store_bytes buf buf_size src src_size;;
  mret UACPI_STATUS_OK.

(** Share the storage of [src]. *)
Definition share (dst p : Z) : M uacpi_status :=
  set_data dst (D_POINTER p);; shareable_ref p;; mret UACPI_STATUS_OK.

Definition assign_buffer (dst : Z) (src : object) (behavior : uacpi_assign_behavior) : M uacpi_status :=
  p ← of_opt (pointer_of (o_data src));
  match behavior with
  | ASSIGN_BEHAVIOR_SHALLOW_COPY => share dst p
  | ASSIGN_BEHAVIOR_DEEP_COPY =>
      b ← get_buffer p; buffer_alloc_and_store dst (snd b) (default [] (fst b)) (snd b)
  end.

Definition assign_mutex (dst : Z) (src : object) (behavior : uacpi_assign_behavior) : M uacpi_status :=
  p ← of_opt (pointer_of (o_data src));
  match behavior with
  | ASSIGN_BEHAVIOR_DEEP_COPY =>
      ok ← mutex_alloc dst;
      if negb ok then mret UACPI_STATUS_OUT_OF_MEMORY else
      m ← get_mutex p;
      q ← get_pointer dst;
      n ← get_mutex q;
      write_cell q (C_MUTEX {| m_handle := m_handle n; m_owner := m_owner n; m_depth := m_depth n; sync_level := sync_level m |});;
      mret UACPI_STATUS_OK
  | ASSIGN_BEHAVIOR_SHALLOW_COPY => share dst p
  end.

Definition assign_event (dst : Z) (src : object) (behavior : uacpi_assign_behavior) : M uacpi_status :=
  match behavior with
  | ASSIGN_BEHAVIOR_DEEP_COPY =>
      ok ← event_alloc dst; mret (if (ok : bool) then UACPI_STATUS_OK else UACPI_STATUS_OUT_OF_MEMORY)
  | ASSIGN_BEHAVIOR_SHALLOW_COPY => p ← of_opt (pointer_of (o_data src)); share dst p
  end.

Section Assign.
(** [deep_copy_package] of a package into an object. *)
Variable copy_package : Z -> Z -> M uacpi_status.

Definition assign_package (dst : Z) (src : object) (behavior : uacpi_assign_behavior) : M uacpi_status :=
  p ← of_opt (pointer_of (o_data src));
  match behavior with
  | ASSIGN_BEHAVIOR_SHALLOW_COPY => share dst p
  | ASSIGN_BEHAVIOR_DEEP_COPY => copy_package dst p
  end.

(** The first switch: what the object held is released. *)
Definition clear_destination (dst : Z) : M unit :=
  o ← get_object dst;
  match o_type o with
  | OBJECT_REFERENCE => uacpi_object_detach_child dst
  | OBJECT_STRING | OBJECT_BUFFER | OBJECT_METHOD | OBJECT_PACKAGE | OBJECT_MUTEX | OBJECT_EVENT | OBJECT_PROCESSOR
  | OBJECT_DEVICE | OBJECT_THERMAL_ZONE => with_free (fun f => free_object_storage f dst)
  | _ => mret tt
  end.

(** The second one. *)
Definition copy_contents (dst : Z) (src : object) (behavior : uacpi_assign_behavior) : M uacpi_status :=
  match o_type src with
  | OBJECT_UNINITIALIZED | OBJECT_DEBUG => mret UACPI_STATUS_OK
  | OBJECT_BUFFER | OBJECT_STRING => set_flags dst (o_flags src);; assign_buffer dst src behavior
  | OBJECT_BUFFER_FIELD =>
      f ← of_opt (buffer_field_of (o_data src));
      set_data dst (D_BUFFER_FIELD f);; shareable_ref (backing f);; mret UACPI_STATUS_OK
  | OBJECT_BUFFER_INDEX =>
      i ← of_opt (buffer_index_of (o_data src));
      set_data dst (D_BUFFER_INDEX (fst i) (snd i));; shareable_ref (snd i);; mret UACPI_STATUS_OK
  | OBJECT_INTEGER => v ← of_opt (integer_of (o_data src)); set_data dst (D_INTEGER v);; mret UACPI_STATUS_OK
  | OBJECT_MUTEX => assign_mutex dst src behavior
  | OBJECT_EVENT => assign_event dst src behavior
  | OBJECT_PACKAGE => assign_package dst src behavior
  | OBJECT_REFERENCE =>
      p ← of_opt (pointer_of (o_data src)); uacpi_object_attach_child dst p;; mret UACPI_STATUS_OK
  | OBJECT_METHOD | OBJECT_OPERATION_REGION | OBJECT_FIELD_UNIT | OBJECT_PROCESSOR | OBJECT_DEVICE | OBJECT_THERMAL_ZONE =>
      p ← of_opt (pointer_of (o_data src)); share dst p
  | OBJECT_POWER_RESOURCE => mret UACPI_STATUS_UNIMPLEMENTED
  end.

(** [read_src] yields the source: an object of the heap, or one on the stack. *)
Definition object_assign (dst : Z) (read_src : M object) (behavior : uacpi_assign_behavior) : M uacpi_status :=
  clear_destination dst;;
  src ← read_src;
  ret ← copy_contents dst src behavior;
  (if is_ok ret then set_type dst (o_type src) else mret tt);;
  mret ret.

Definition assign_object (dst src : Z) (behavior : uacpi_assign_behavior) : M uacpi_status :=
  if src =? dst then mret UACPI_STATUS_OK else object_assign dst (get_object src) behavior.
End Assign.

(** *** Copies of packages *)

Definition pkg_copy_reqs_push (q : pkg_copy_reqs) (dst pkg : Z) : M (bool * pkg_copy_reqs) := array_push 2 16 q (dst, pkg).

(** The elements are copied one by one; packages among them are left for later.  The
    assignment is never to a package, so it does not copy one. *)
Fixpoint copy_slots (l : list (Z * Z)) (q : pkg_copy_reqs) : M (uacpi_status * pkg_copy_reqs) :=
  match l with
  | [] => mret (UACPI_STATUS_OK, q)
  | (src_obj, dst_obj) :: l' =>
      x ← get_object src_obj;
      src_obj ← (if is_reference x && (o_flags x =? UACPI_REFERENCE_KIND_PKG_INDEX)
                 then of_opt (pointer_of (o_data x)) else mret src_obj);
      x ← get_object src_obj;
      match o_type x with
      | OBJECT_PACKAGE =>
          p ← of_opt (pointer_of (o_data x));
          r ← pkg_copy_reqs_push q dst_obj p;
          let '(ok, q) := (r : bool * pkg_copy_reqs) in
          if negb ok then mret (UACPI_STATUS_OUT_OF_MEMORY, q) else copy_slots l' q
      | _ =>
          st ← assign_object (fun _ _ => undefined) dst_obj src_obj ASSIGN_BEHAVIOR_DEEP_COPY;
          if negb (is_ok st) then mret (st, q) else copy_slots l' q
      end
  end.

Definition deep_copy_package_no_recurse (dst src : Z) (q : pkg_copy_reqs) : M (uacpi_status * pkg_copy_reqs) :=
  l ← get_package src;
  ok ← package_alloc dst (Z.of_nat (length l)) true;
  if negb ok then mret (UACPI_STATUS_OUT_OF_MEMORY, q) else
  set_type dst OBJECT_PACKAGE;;
  p ← get_pointer dst;
  ds ← get_package p;
  copy_slots (zip l ds) q.

(** [while (pkg_copy_reqs_size(&reqs) != 0)]; one round per package of the tree. *)
Fixpoint copy_queued (fuel : nat) (q : pkg_copy_reqs) : M uacpi_status :=
  match fuel with
  | O => undefined
  | S fuel' =>
      match items q with
      | [] => mret UACPI_STATUS_OK
      | (dst, src) :: rest =>
          r ← deep_copy_package_no_recurse dst src {| items := rest; outside := outside q |};
          let '(ret, q) := (r : uacpi_status * pkg_copy_reqs) in
          if negb (is_ok ret) then mret ret else copy_queued fuel' q
      end
  end.

Definition deep_copy_package (fuel : nat) (dst src : Z) : M uacpi_status :=
  r ← pkg_copy_reqs_push no_items dst src; copy_queued fuel (snd r).

(** The number of packages in the tree that a deep copy may go through. *)
Variable copy_fuel : nat.

Definition uacpi_object_assign : Z -> Z -> uacpi_assign_behavior -> M uacpi_status :=
  assign_object (deep_copy_package copy_fuel).

(** The source is a literal. *)
Definition assign_literal (dst : Z) (src : object) (behavior : uacpi_assign_behavior) : M uacpi_status :=
  object_assign (deep_copy_package copy_fuel) dst (mret src) behavior.

(** *** The interface *)

Definition uacpi_object_get_type (o : Z) : M uacpi_object_type := x ← get_object o; mret (o_type x).
Definition uacpi_object_get_type_bit (o : Z) : M Z := t ← uacpi_object_get_type o; mret (type_bit t).
Definition uacpi_object_is (o : Z) (t : uacpi_object_type) : M bool :=
  x ← uacpi_object_get_type o; mret (bool_decide (x = t)).
Definition uacpi_object_is_one_of (o type_mask : Z) : M bool :=
  b ← uacpi_object_get_type_bit o; mret (negb (Z.land b type_mask =? 0)).

(** TYPE_CHECK_USER_OBJ_RET *)
Definition type_check {A} (o type_bits : Z) (fail : A) (k : M A) : M A :=
  ok ← (if o =? 0 then mret false else uacpi_object_is_one_of o type_bits);
  if negb ok then mret fail else k.

(** The second component is [None] when nothing is written through the pointer. *)
Definition bad_argument {A} : uacpi_status * option A := (UACPI_STATUS_INVALID_ARGUMENT, None).

Definition uacpi_object_get_integer (o : Z) : M (uacpi_status * option Z) :=
  type_check o (type_bit OBJECT_INTEGER) bad_argument (
    x ← get_object o; v ← of_opt (integer_of (o_data x)); mret (UACPI_STATUS_OK, Some v)).

Definition uacpi_object_assign_integer (o value : Z) : M uacpi_status :=
  if o =? 0 then mret UACPI_STATUS_INVALID_ARGUMENT else
  assign_literal o {| o_type := OBJECT_INTEGER; o_flags := 0; o_data := D_INTEGER value |} ASSIGN_BEHAVIOR_DEEP_COPY.

(** A view: the buffer, its bytes and the length. *)
Definition uacpi_buffer_to_view (buf : Z) : M (Z * list Z * Z) := b ← get_buffer buf; mret (buf, default [] (fst b), snd b).

Definition uacpi_object_do_get_string_or_buffer (o mask : Z) : M (uacpi_status * option (Z * list Z * Z)) :=
  type_check o mask bad_argument (p ← get_pointer o; v ← uacpi_buffer_to_view p; mret (UACPI_STATUS_OK, Some v)).

Definition uacpi_object_get_string_or_buffer (o : Z) : M (uacpi_status * option (Z * list Z * Z)) :=
  uacpi_object_do_get_string_or_buffer o (Z.lor (type_bit OBJECT_STRING) (type_bit OBJECT_BUFFER)).
Definition uacpi_object_get_string (o : Z) : M (uacpi_status * option (Z * list Z * Z)) :=
  uacpi_object_do_get_string_or_buffer o (type_bit OBJECT_STRING).
Definition uacpi_object_get_buffer (o : Z) : M (uacpi_status * option (Z * list Z * Z)) :=
  uacpi_object_do_get_string_or_buffer o (type_bit OBJECT_BUFFER).

Definition uacpi_object_is_aml_namepath (o : Z) : M bool :=
  type_check o (type_bit OBJECT_STRING) false (x ← get_object o; mret (o_flags x =? UACPI_STRING_KIND_PATH)).

Definition uacpi_object_resolve_as_aml_namepath (o scope : Z) : M (uacpi_status * option Z) :=
  ok ← uacpi_object_is_aml_namepath o;
  if negb ok then mret bad_argument else
  p ← get_pointer o; b ← get_buffer p;
  r ← host (resolve_namepath scope (default [] (fst b)));
  mret (if is_ok (fst r) then (fst r, Some (snd r)) else (fst r, None)).

(** [in.const_bytes[in.length - 1] != 0x00] *)
Definition needs_terminator (bytes : list Z) : bool := match last bytes with Some c => negb (c =? 0) | None => true end.

Definition uacpi_object_do_assign_buffer (o : Z) (bytes : list Z) (t : uacpi_object_type) : M uacpi_status :=
  let len := Z.of_nat (length bytes) in
  if o =? 0 then mret UACPI_STATUS_INVALID_ARGUMENT else
  let dst_buf_size := if bool_decide (t = OBJECT_STRING) && needs_terminator bytes then len + 1 else len in
  buf ← new_buffer dst_buf_size;
  if buf =? 0 then mret UACPI_STATUS_OUT_OF_MEMORY else
  store_bytes buf dst_buf_size bytes len;;
  ret ← assign_literal o {| o_type := t; o_flags := 0; o_data := D_POINTER buf |} ASSIGN_BEHAVIOR_SHALLOW_COPY;
  shareable_unref_and_delete_if_last buf free_buffer;;
  mret ret.

Definition uacpi_object_assign_string (o : Z) (bytes : list Z) : M uacpi_status :=
  uacpi_object_do_assign_buffer o bytes OBJECT_STRING.
Definition uacpi_object_assign_buffer (o : Z) (bytes : list Z) : M uacpi_status :=
  uacpi_object_do_assign_buffer o bytes OBJECT_BUFFER.

Definition uacpi_object_create_uninitialized : M Z := uacpi_create_object OBJECT_UNINITIALIZED.

Definition uacpi_object_create_integer (value : Z) : M Z :=
  o ← uacpi_create_object OBJECT_INTEGER;
  if o =? 0 then mret 0 else set_data o (D_INTEGER value);; mret o.

Inductive uacpi_overflow_behavior := UACPI_OVERFLOW_ALLOW | UACPI_OVERFLOW_TRUNCATE | UACPI_OVERFLOW_DISALLOW.

Definition uacpi_object_create_integer_safe (value : Z) (behavior : uacpi_overflow_behavior) : M (uacpi_status * option Z) :=
  r ← host aml_bitness;
  let '(ret, bitness) := (r : uacpi_status * Z) in
  if negb (is_ok ret) then mret (ret, None) else
  let create (value : Z) :=
    o ← uacpi_object_create_integer value;
    mret (if o =? 0 then (UACPI_STATUS_OUT_OF_MEMORY, None) else (ret, Some o)) in
  let large := (bitness =? 32) && (0xffffffff <? value) in
  match behavior with
  | UACPI_OVERFLOW_ALLOW => create value
  | UACPI_OVERFLOW_TRUNCATE => create (if large then Z.land value 0xffffffff else value)
  | UACPI_OVERFLOW_DISALLOW => if large then mret bad_argument else create value
  end.

Definition uacpi_object_do_create_string_or_buffer (bytes : list Z) (t : uacpi_object_type) : M Z :=
  o ← uacpi_create_object OBJECT_UNINITIALIZED;
  if o =? 0 then mret 0 else
  ret ← uacpi_object_do_assign_buffer o bytes t;
  if negb (is_ok ret) then uacpi_object_unref o;; mret 0 else mret o.

Definition uacpi_object_create_string (bytes : list Z) : M Z := uacpi_object_do_create_string_or_buffer bytes OBJECT_STRING.
Definition uacpi_object_create_buffer (bytes : list Z) : M Z := uacpi_object_do_create_string_or_buffer bytes OBJECT_BUFFER.
(** The characters of [str] and its terminator. *)
Definition uacpi_object_create_cstring (str : list Z) : M Z := uacpi_object_create_string (str ++ [0]).

Definition uacpi_object_get_package (o : Z) : M (uacpi_status * option (list Z)) :=
  type_check o (type_bit OBJECT_PACKAGE) bad_argument (
    p ← get_pointer o; l ← get_package p; mret (UACPI_STATUS_OK, Some l)).

Definition uacpi_object_create_reference (child : Z) : M Z :=
  if child =? 0 then mret 0 else
  o ← uacpi_create_object OBJECT_REFERENCE;
  if o =? 0 then mret 0 else
  uacpi_object_attach_child o child;; set_flags o UACPI_REFERENCE_KIND_ARG;; mret o.

Definition uacpi_object_assign_reference (o child : Z) : M uacpi_status :=
  if (o =? 0) || (child =? 0) then mret UACPI_STATUS_INVALID_ARGUMENT else
  ret ← assign_literal o {| o_type := OBJECT_UNINITIALIZED; o_flags := 0; o_data := D_INTEGER 0 |} ASSIGN_BEHAVIOR_DEEP_COPY;
  if negb (is_ok ret) then mret ret else
  set_type o OBJECT_REFERENCE;;
  uacpi_object_attach_child o child;;
  set_flags o UACPI_REFERENCE_KIND_ARG;;
  mret UACPI_STATUS_OK.

Definition uacpi_object_get_dereferenced (o : Z) : M (uacpi_status * option Z) :=
  type_check o (type_bit OBJECT_REFERENCE) bad_argument (
    p ← get_pointer o; shareable_ref p;; mret (UACPI_STATUS_OK, Some p)).

Definition uacpi_object_get_processor_info (o : Z) : M (uacpi_status * option (Z * Z * Z)) :=
  type_check o (type_bit OBJECT_PROCESSOR) bad_argument (
    p ← get_pointer o; h ← get_handlers p;
    mret (UACPI_STATUS_OK, Some (p_id h, p_block_address h, p_block_length h))).

Definition uacpi_object_get_power_resource_info (o : Z) : M (uacpi_status * option (Z * Z)) :=
  type_check o (type_bit OBJECT_POWER_RESOURCE) bad_argument (
    x ← get_object o;
    match o_data x with
    | D_POWER_RESOURCE level order => mret (UACPI_STATUS_OK, Some (level, order))
    | D_INTEGER v => if v =? 0 then mret (UACPI_STATUS_OK, Some (0, 0)) else undefined
    | _ => undefined
    end).

(** The elements are stored one by one, each with a reference of its own. *)
Fixpoint store_slots (pkg : Z) (i : nat) (objects : list Z) : M unit :=
  match objects with
  | [] => mret tt
  | x :: l' =>
      l ← get_package pkg; write_cell pkg (C_PACKAGE (<[i := x]> l));;
      uacpi_object_ref x;; store_slots pkg (S i) l'
  end.

Definition uacpi_object_assign_package (o : Z) (objects : list Z) : M uacpi_status :=
  if o =? 0 then mret UACPI_STATUS_INVALID_ARGUMENT else
  pkg ← new_package (Z.of_nat (length objects)) false;
  if pkg =? 0 then mret UACPI_STATUS_OUT_OF_MEMORY else
  set_type o OBJECT_PACKAGE;;
  store_slots pkg 0 objects;;
  ret ← assign_literal o {| o_type := OBJECT_PACKAGE; o_flags := 0; o_data := D_POINTER pkg |} ASSIGN_BEHAVIOR_SHALLOW_COPY;
  with_free (fun f => shareable_unref_and_delete_if_last pkg (free_package f));;
  mret ret.

Definition uacpi_object_create_package (objects : list Z) : M Z :=
  o ← uacpi_object_create_uninitialized;
  if o =? 0 then mret 0 else
  ret ← uacpi_object_assign_package o objects;
  if negb (is_ok ret) then uacpi_object_unref o;; mret 0 else mret o.

Definition uacpi_create_internal_reference (kind child : Z) : M Z :=
  o ← uacpi_create_object OBJECT_REFERENCE;
  if o =? 0 then mret 0 else
  set_flags o kind;; uacpi_object_attach_child o child;; mret o.
End Operations.
