(* ===== verification/ObjCount.v ===== *)
(** * Objects: reference counts

    In a well-formed heap the count of every cell is the number of references to it: those
    held outside, and those of the cells that are alive themselves, where a reference
    object passes on its own count.  A cell whose count is zero refers to nothing. *)

From S2P Require Import Prelude UCore Shareable Objects.

Open Scope word_scope.

(** ** Sums over maps and occurrences in lists *)

Section Sums.
Context {A : Type}.

Definition msum (f : Z -> A -> Z) (m : gmap Z A) : Z := map_fold (fun k a acc => f k a + acc) 0 m.

Lemma msum_insert f (m : gmap Z A) k a : m !! k = None -> msum f (<[k := a]> m) = f k a + msum f m.
Proof.
  intros H; unfold msum; apply (map_fold_insert_L (fun k a acc => f k a + acc)); [intros; lia|exact H].
Qed.

Lemma msum_delete f (m : gmap Z A) k a : m !! k = Some a -> msum f m = f k a + msum f (delete k m).
Proof.
  intros H; rewrite <- (insert_delete_id m k a H) at 1; apply msum_insert, lookup_delete_eq.
Qed.

Lemma msum_update f (m : gmap Z A) k a b : m !! k = Some a -> msum f (<[k := b]> m) = msum f m - f k a + f k b.
Proof.
  intros H; rewrite (msum_delete f (<[k := b]> m) k b) by apply lookup_insert_eq.
  rewrite delete_insert_eq, (msum_delete f m k a H); lia.
Qed.

Lemma msum_nonneg f (m : gmap Z A) : (forall k a, m !! k = Some a -> 0 <= f k a) -> 0 <= msum f m.
Proof.
  induction m as [|k a m Hk IH] using map_ind; intros H; [reflexivity|]; rewrite msum_insert by exact Hk.
  pose proof (H k a (lookup_insert_eq _ _ _)); enough (0 <= msum f m) by lia; apply IH; intros k' a' E; apply H.
  rewrite lookup_insert_ne; [exact E|congruence].
Qed.

Lemma msum_ge f (m : gmap Z A) k a : m !! k = Some a -> (forall k a, m !! k = Some a -> 0 <= f k a) -> f k a <= msum f m.
Proof.
  intros H Hf; rewrite (msum_delete f m k a H); enough (0 <= msum f (delete k m)) by lia.
  apply msum_nonneg; intros k' a' [_ E]%lookup_delete_Some; apply (Hf k' a' E).
Qed.
End Sums.

Fixpoint occ (a : Z) (l : list Z) : Z := match l with [] => 0 | x :: l' => (if x =? a then 1 else 0) + occ a l' end.

Lemma occ_app a l1 l2 : occ a (l1 ++ l2) = occ a l1 + occ a l2.
Proof. induction l1 as [|x l1 IH]; cbn; [reflexivity|rewrite IH; lia]. Qed.

Lemma occ_nonneg a l : 0 <= occ a l.
Proof. induction l as [|x l IH]; cbn; [lia|destruct (x =? a); lia]. Qed.

Lemma occ_pos a l : 0 < occ a l <-> a ∈ l.
Proof.
  induction l as [|x l IH]; cbn; [rewrite elem_of_nil; lia|]; rewrite elem_of_cons; pose proof (occ_nonneg a l).
  destruct (Z.eqb_spec x a); intuition lia.
Qed.

Lemma occ_zero a l : a ∉ l -> occ a l = 0.
Proof. intros H; pose proof (occ_nonneg a l); pose proof (proj1 (occ_pos a l)); destruct (Z.eq_dec (occ a l) 0); [lia|]; exfalso; apply H; apply H1; lia. Qed.

(** ** What a cell refers to *)

Definition nonnull (l : list Z) : list Z := filter (fun p => p <> 0) l.

Lemma occ_nonnull a l : a <> 0 -> occ a (nonnull l) = occ a l.
Proof.
  intros Ha; unfold nonnull; induction l as [|x l IH]; [reflexivity|]; rewrite filter_cons; destruct (decide (x <> 0)) as [H|H]; cbn; rewrite IH.
  - reflexivity.
  - destruct (Z.eqb_spec x a); [exfalso; apply H; congruence|lia].
Qed.

(** The pointers of an object by its type. *)
Definition object_pointers (o : object) : list Z :=
  match o_type o with
  | OBJECT_STRING | OBJECT_BUFFER | OBJECT_PACKAGE | OBJECT_MUTEX | OBJECT_EVENT | OBJECT_METHOD | OBJECT_REFERENCE =>
      match pointer_of (o_data o) with Some p => [p] | None => [] end
  | OBJECT_BUFFER_FIELD => match buffer_field_of (o_data o) with Some f => [backing f] | None => [] end
  | OBJECT_BUFFER_INDEX => match buffer_index_of (o_data o) with Some i => [snd i] | None => [] end
  | _ => []
  end.

Definition pointers (c : cell) : list Z :=
  nonnull (match c with
           | C_OBJECT o => object_pointers o
           | C_PACKAGE l => l
           | C_METHOD m => [m_mutex m]
           | _ => []
           end).

Definition passes_on (c : cell) : bool := match c with C_OBJECT o => is_reference o | _ => false end.

(** How often a cell with count [n] refers to [x]. *)
Definition held_by (n : Z) (c : cell) (x : Z) : Z := (if passes_on c then n else 1) * occ x (pointers c).

Lemma held_by_nonneg n c x : 0 <= n -> 0 <= held_by n c x.
Proof. intros; unfold held_by; pose proof (occ_nonneg x (pointers c)); destruct (passes_on c); nia. Qed.

(** ** Well-formed heaps *)

Definition content (h : heap) (a : Z) : option cell := snd <$> h !! a.

Definition is_object (h : heap) (a : Z) : Prop := exists o, content h a = Some (C_OBJECT o).
Definition is_buffer (h : heap) (a : Z) : Prop := exists d n, content h a = Some (C_BUFFER d n).
Definition is_mutex (h : heap) (a : Z) : Prop := exists m, content h a = Some (C_MUTEX m).

(** An object whose union is what its type says, and storages that hold what they should:
    strings, buffers and the data objects that AML computes with. *)
Definition typed (h : heap) (c : cell) : Prop :=
  match c with
  | C_OBJECT o =>
      match o_type o with
      | OBJECT_UNINITIALIZED | OBJECT_DEBUG | OBJECT_POWER_RESOURCE => True
      | OBJECT_INTEGER => exists v, o_data o = D_INTEGER v
      | OBJECT_STRING | OBJECT_BUFFER => exists p, pointer_of (o_data o) = Some p /\ is_buffer h p
      | OBJECT_BUFFER_FIELD => exists f, buffer_field_of (o_data o) = Some f /\ is_buffer h (backing f)
      | OBJECT_BUFFER_INDEX => exists i, buffer_index_of (o_data o) = Some i /\ is_buffer h (snd i)
      | OBJECT_PACKAGE => exists p l, pointer_of (o_data o) = Some p /\ content h p = Some (C_PACKAGE l)
      | OBJECT_MUTEX => exists p, pointer_of (o_data o) = Some p /\ is_mutex h p
      | OBJECT_EVENT => exists p e, pointer_of (o_data o) = Some p /\ content h p = Some (C_EVENT e)
      | OBJECT_METHOD => exists p m, pointer_of (o_data o) = Some p /\ content h p = Some (C_METHOD m)
      | OBJECT_REFERENCE => exists p, pointer_of (o_data o) = Some p /\ (p = 0 \/ is_object h p)
      | _ => False
      end
  | C_PACKAGE l => Forall (is_object h) l
  | C_METHOD m => m_mutex m = 0 \/ is_mutex h (m_mutex m)
  | C_BUFFER _ _ | C_MUTEX _ | C_EVENT _ => True
  | _ => False
  end.

(** The objects from [a] along references, down to an object that is none or to null. *)
Inductive chain (h : heap) : Z -> list Z -> Prop :=
  | chain_end : chain h 0 []
  | chain_next a o b l : a <> 0 -> content h a = Some (C_OBJECT o) -> next_in_chain o = Some b -> chain h b l ->
      chain h a (a :: l).

(** Is there always memory for the queue of packages that wait to be freed? *)
Class Memory := ample : Prop.

(** An object of a nested package that is freed while the package is shared is lost; so is
    a package when there is no memory to queue it. *)
Definition leaked {MEM : Memory} (c : cell) : Prop :=
  (exists o, c = C_OBJECT o /\ o_type o = OBJECT_PACKAGE) \/ (~ ample /\ exists l, c = C_PACKAGE l).

(** References of the cells that are alive; those of [D], an object that is being
    overwritten, do not count. *)
Definition holders (D : Z) (h : heap) (x : Z) : Z :=
  msum (fun a nc => if (a =? D) || (fst nc <=? 0) then 0 else held_by (fst nc) (snd nc) x) h.

(** [R] are the references held outside, [Z0] the cells with count zero that are still to
    be freed; [D] refers to nothing along its chain. *)
Record wf {MEM : Memory} (D : Z) (R Z0 : list Z) (h : heap) : Prop := {
  wf_null : h !! 0 = None;
  wf_count a n c : h !! a = Some (n, c) -> n = occ a R + holders D h a /\ n < BUGGED_REFCOUNT;
  wf_root a : a ∈ R -> is_Some (h !! a);
  wf_typed a n c : a <> D -> h !! a = Some (n, c) -> 0 < n -> typed h c;
  wf_chain a n o : h !! a = Some (n, C_OBJECT o) -> 0 < n -> exists l, chain h a l;
  wf_stale : D <> 0 -> exists n o, h !! D = Some (n, C_OBJECT o) /\ next_in_chain o = Some 0;
  wf_zero a c : h !! a = Some (0, c) -> a ∈ Z0 \/ leaked c;
  wf_kept a : a ∈ Z0 -> exists c, h !! a = Some (0, c);
  wf_nodup : NoDup Z0 }.

Lemma holders_part D (h : heap) x : forall a nc, h !! a = Some nc ->
  0 <= (if (a =? D) || (fst nc <=? 0) then 0 else held_by (fst nc) (snd nc) x).
Proof.
  intros a nc _; destruct (_ || _) eqn:E; [lia|]; apply orb_false_iff in E as [_ E%Z.leb_gt]; apply held_by_nonneg; lia.
Qed.

Lemma holders_nonneg D h x : 0 <= holders D h x.
Proof. apply msum_nonneg, holders_part. Qed.

Lemma wf_count_nonneg {MEM : Memory} D R Z0 h a n c : wf D R Z0 h -> h !! a = Some (n, c) -> 0 <= n.
Proof. intros H E; destruct (wf_count _ _ _ _ H _ _ _ E) as [-> _]; pose proof (occ_nonneg a R); pose proof (holders_nonneg D h a); lia. Qed.

(** What a live cell refers to is alive. *)
Lemma pointed_live {MEM : Memory} D R Z0 h a n c p m c' : wf D R Z0 h -> a <> D -> h !! a = Some (n, c) -> 0 < n -> p ∈ pointers c ->
  h !! p = Some (m, c') -> 0 < m.
Proof.
  intros H Ha E Hn Hp Ep; destruct (wf_count _ _ _ _ H _ _ _ Ep) as [-> _]; pose proof (occ_nonneg p R).
  assert (Hge : held_by n c p <= holders D h p).
  { pose proof (msum_ge _ h a (n, c) E (holders_part D h p)) as Hge; cbn [fst snd] in Hge.
    rewrite (proj2 (Z.eqb_neq a D) Ha), (proj2 (Z.leb_gt n 0) Hn) in Hge; exact Hge. }
  apply occ_pos in Hp; unfold held_by in Hge; destruct (passes_on c); nia.
Qed.

Lemma root_live {MEM : Memory} D R Z0 h a : wf D R Z0 h -> a ∈ R -> exists n c, h !! a = Some (n, c) /\ 0 < n < BUGGED_REFCOUNT.
Proof.
  intros H Hr; destruct (wf_root _ _ _ _ H a Hr) as [[n c] E]; exists n, c; split; [exact E|].
  destruct (wf_count _ _ _ _ H _ _ _ E) as [Hn Hb]; apply occ_pos in Hr; pose proof (holders_nonneg D h a); lia.
Qed.

Lemma in_pointers c p : p ∈ pointers c -> p <> 0.
Proof. unfold pointers, nonnull; intros H%list_elem_of_filter; apply H. Qed.

(** Typing, chains and kinds do not depend on counts; they follow the contents of what is
    pointed to. *)
Definition same_content (h h' : heap) : Prop := forall a, content h' a = content h a.

Lemma typed_content h h' c : (forall p, p ∈ pointers c -> content h' p = content h p) -> h !! 0 = None -> typed h c -> typed h' c.
Proof.
  intros Hp H0; assert (Hc0 : content h 0 = None) by (unfold content; rewrite H0; reflexivity).
  assert (F : forall l p x, (forall p, p ∈ nonnull l -> content h' p = content h p) -> p ∈ l -> content h p = Some x -> content h' p = Some x).
  { intros l p x Hl Hi E; rewrite Hl; [exact E|]; apply list_elem_of_filter; split; [intros ->; congruence|exact Hi]. }
  destruct c as [o| | l | | |m| | | |]; cbn [typed]; auto.
  - specialize (F (object_pointers o)); unfold object_pointers in F; unfold pointers, object_pointers in Hp.
    destruct (o_type o); auto.
    + intros (p & E & d & n & Hb); rewrite E in F, Hp; exists p; split; [exact E|exists d, n; apply F; [exact Hp|left|exact Hb]].
    + intros (p & E & d & n & Hb); rewrite E in F, Hp; exists p; split; [exact E|exists d, n; apply F; [exact Hp|left|exact Hb]].
    + intros (p & l & E & Hb); rewrite E in F, Hp; exists p, l; split; [exact E|apply F; [exact Hp|left|exact Hb]].
    + intros (p & l & E & Hb); rewrite E in F, Hp; exists p, l; split; [exact E|apply F; [exact Hp|left|exact Hb]].
    + intros (p & l & E & Hb); rewrite E in F, Hp; exists p, l; split; [exact E|apply F; [exact Hp|left|exact Hb]].
    + intros (p & E & m & Hb); rewrite E in F, Hp; exists p; split; [exact E|exists m; apply F; [exact Hp|left|exact Hb]].
    + intros (f & E & d & n & Hb); rewrite E in F, Hp; exists f; split; [exact E|exists d, n; apply F; [exact Hp|left|exact Hb]].
    + intros (p & E & [->|[x Hb]]); [exists 0; auto|].
      rewrite E in F, Hp; exists p; split; [exact E|right; exists x; apply F; [exact Hp|left|exact Hb]].
    + intros (i & E & d & n & Hb); rewrite E in F, Hp; exists i; split; [exact E|exists d, n; apply F; [exact Hp|left|exact Hb]].
  - rewrite !Forall_forall; intros H p Hi; destruct (H p Hi) as [o Ho]; exists o; eapply F; [exact Hp|exact Hi|exact Ho].
  - intros [Hm|[x Hm]]; [left; exact Hm|right; exists x; eapply F; [exact Hp|left|exact Hm]].
Qed.

Lemma chain_content h h' a l : (forall b c, content h' b = Some c -> content h b = Some c) -> chain h' a l -> chain h a l.
Proof. intros Hc; induction 1 as [|a o b l Ha E Hn _ IH]; [constructor|econstructor; eauto]. Qed.

Lemma chain_fun h a l1 : chain h a l1 -> forall l2, chain h a l2 -> l1 = l2.
Proof.
  induction 1 as [|a o b l Ha E Hn _ IH]; intros l2 H2; inversion H2 as [|a' o' b' l' Ha' E' Hn' H']; subst; try congruence.
  assert (o' = o) as -> by congruence; rewrite Hn in Hn'; injection Hn' as <-; f_equal; apply IH, H'.
Qed.

Lemma chain_suffix h a l : chain h a l -> forall b, b ∈ l -> exists l1 l2, l = l1 ++ l2 /\ chain h b l2 /\ l2 <> [].
Proof.
  induction 1 as [|a o b l Ha E Hn Hc IH]; intros x Hx; [apply not_elem_of_nil in Hx; destruct Hx|].
  apply elem_of_cons in Hx as [->|Hx].
  - exists [], (a :: l); split; [reflexivity|split; [econstructor; eauto|discriminate]].
  - destruct (IH x Hx) as (l1 & l2 & -> & Hc2 & Hn2); exists (a :: l1), l2; auto.
Qed.

Lemma chain_nodup h a l : chain h a l -> NoDup l.
Proof.
  induction 1 as [|a o b l Ha E Hn Hc IH]; constructor; [|exact IH].
  intros Hi; destruct (chain_suffix _ _ _ Hc a Hi) as (l1 & l2 & -> & Hc2 & _).
  pose proof (chain_fun h a _ Hc2 (a :: l1 ++ l2)) as Hl.
  assert (Hx : chain h a (a :: l1 ++ l2)) by (econstructor; eauto); apply Hl in Hx; apply (f_equal length) in Hx; cbn in Hx.
  rewrite length_app in Hx; lia.
Qed.

Lemma chain_size h a l : chain h a l -> (length l <= size h)%nat.
Proof.
  intros Hc; rewrite <- (size_list_to_set (C := gset Z) l) by (eapply chain_nodup, Hc).
  rewrite <- (size_dom (D := gset Z) h); apply subseteq_size; intros r Hr%elem_of_list_to_set.
  destruct (chain_suffix _ _ _ Hc r Hr) as (l1 & l2 & _ & Hc2 & Hne); destruct Hc2 as [|a' o b l2 _ E _ _]; [congruence|].
  unfold content in E; apply elem_of_dom; destruct (h !! a') as [x|]; [eauto|discriminate].
Qed.

(** ** Changing a count, freeing a cell *)

(** The references that are given up when a count falls from [n]. *)
Definition released (D a n : Z) (c : cell) : list Z :=
  if a =? D then [] else if passes_on c then pointers c else if n =? 1 then pointers c else [].

Lemma content_insert (h : heap) a n m c : h !! a = Some (n, c) -> same_content h (<[a := (m, c)]> h).
Proof.
  intros E b; unfold content; destruct (decide (a = b)) as [<-|H]; [rewrite lookup_insert_eq, E; reflexivity|].
  rewrite lookup_insert_ne by exact H; reflexivity.
Qed.

Lemma occ_pointers_zero c : occ 0 (pointers c) = 0.
Proof. apply occ_zero; intros H; apply in_pointers in H; congruence. Qed.

Lemma holders_dec D (h : heap) a n c x : h !! a = Some (n, c) -> 0 < n ->
  holders D (<[a := (n - 1, c)]> h) x = holders D h x - occ x (released D a n c).
Proof.
  intros E Hn; unfold holders; rewrite (msum_update _ h a (n, c) (n - 1, c) E); cbn [fst snd]; unfold released.
  destruct (a =? D); cbn [orb]; [cbn; lia|]; rewrite (proj2 (Z.leb_gt n 0)) by lia.
  unfold held_by; destruct (passes_on c).
  - destruct (Z.leb_spec (n - 1) 0); [|nia]; replace n with 1 by lia; lia.
  - destruct (Z.leb_spec (n - 1) 0), (Z.eqb_spec n 1); try lia; cbn [occ]; lia.
Qed.

(** Where a step leaves the contents of cells as they were and lowers counts. *)
Definition lowers (h h' : heap) : Prop := forall a n' c, h' !! a = Some (n', c) -> exists n, h !! a = Some (n, c) /\ n' <= n.

#[export] Instance lowers_refl : Reflexive lowers.
Proof. intros h a n c E; exists n; split; [exact E|lia]. Qed.
#[export] Instance lowers_trans : Transitive lowers.
Proof.
  intros h1 h2 h3 H1 H2 a n c E; destruct (H2 a n c E) as (n2 & E2 & ?); destruct (H1 a n2 c E2) as (n1 & E1 & ?).
  exists n1; split; [exact E1|lia].
Qed.

Lemma lowers_content h h' b c : lowers h h' -> content h' b = Some c -> content h b = Some c.
Proof.
  unfold content; intros H E; destruct (h' !! b) as [[n' c']|] eqn:E'; [|discriminate]; injection E as <-.
  destruct (H b n' c' E') as (n & -> & _); reflexivity.
Qed.

Lemma lowers_chain h h' a l l' : lowers h h' -> chain h a l -> chain h' a l' -> l' = l.
Proof.
  intros H Hl Hl'; eapply chain_fun; [eapply chain_content; [|exact Hl']|exact Hl]; intros b c; apply lowers_content, H.
Qed.

Lemma typed_pointers h c p : typed h c -> p ∈ pointers c -> exists x, content h p = Some x.
Proof.
  intros Ht [Hp0 Hp]%list_elem_of_filter; destruct c as [o| | l | | |m| | | |]; cbn in Ht, Hp; try (apply not_elem_of_nil in Hp; destruct Hp).
  - unfold object_pointers in Hp; destruct (o_type o); try (apply not_elem_of_nil in Hp; destruct Hp).
    all: destruct Ht as (x & Ht); repeat match goal with
      | H : exists _, _ |- _ => destruct H
      | H : _ /\ _ |- _ => destruct H
      | H : is_buffer _ _ |- _ => destruct H
      | H : is_mutex _ _ |- _ => destruct H
      end.
    all: match goal with H : _ = Some ?y |- _ => rewrite H in Hp; apply list_elem_of_singleton in Hp; subst p end; eauto.
    destruct H0 as [->|[y Hy]]; [congruence|eauto].
  - rewrite Forall_forall in Ht; destruct (Ht p Hp) as [o Ho]; eauto.
  - apply list_elem_of_singleton in Hp; subst p; destruct Ht as [Ht|[x Hx]]; [congruence|eauto].
Qed.

Section Steps.
Context {MEM : Memory} (D : Z) (R : list Z) (guard : D <> 0 -> D ∈ R).

(** One reference to [a] is given up. *)
Lemma dec_wf P Z0 h a n c : wf D (a :: P ++ R) Z0 h -> h !! a = Some (n, c) ->
  wf D (released D a n c ++ P ++ R) (if n =? 1 then a :: Z0 else Z0) (<[a := (n - 1, c)]> h) /\
  lowers h (<[a := (n - 1, c)]> h) /\ 0 < n < BUGGED_REFCOUNT.
Proof.
  intros [W1 W2 W3 W4 W5 W6 W7 W8 W9] E; destruct (W2 a n c E) as [Hn Hb]; cbn [occ] in Hn; rewrite Z.eqb_refl, occ_app in Hn.
  pose proof (occ_nonneg a P); pose proof (occ_nonneg a R); pose proof (holders_nonneg D h a); assert (Hn0 : 0 < n) by lia.
  assert (Ha0 : a <> 0) by (intros ->; congruence).
  set (h' := <[a := (n - 1, c)]> h); assert (HC : same_content h h') by (apply content_insert with n, E).
  assert (HO : forall b, a <> b -> h' !! b = h !! b) by (intros; apply lookup_insert_ne; assumption).
  assert (HA : h' !! a = Some (n - 1, c)) by apply lookup_insert_eq.
  assert (HL : lowers h h').
  { intros b m x; destruct (decide (a = b)) as [<-|Hne]; [rewrite HA; intros [= <- <-]; exists n; split; [exact E|lia]|].
    rewrite HO by exact Hne; intros Eb; exists m; split; [exact Eb|lia]. }
  split; [|split; [exact HL|lia]].
  constructor.
  - rewrite HO by congruence; exact W1.
  - intros b m x Eb; unfold h'; rewrite (holders_dec D h a n c b E Hn0), !occ_app; destruct (decide (a = b)) as [<-|Hne].
    + rewrite HA in Eb; injection Eb as <- <-; lia.
    + rewrite HO in Eb by exact Hne; destruct (W2 b m x Eb) as [Hm ?]; cbn [occ] in Hm.
      rewrite (proj2 (Z.eqb_neq a b) Hne), occ_app in Hm; lia.
  - intros b Hb'; assert (HS : is_Some (h !! b)).
    { apply elem_of_app in Hb' as [Hb'|Hb']; [|apply W3; right; exact Hb']; unfold released in Hb'.
      destruct (Z.eqb_spec a D) as [|HaD]; [apply not_elem_of_nil in Hb'; destruct Hb'|].
      assert (Hp : b ∈ pointers c) by (destruct (passes_on c); [exact Hb'|]; destruct (n =? 1); [exact Hb'|apply not_elem_of_nil in Hb'; destruct Hb']).
      destruct (typed_pointers h c b (W4 a n c HaD E Hn0) Hp) as [x Hx]; unfold content in Hx; destruct (h !! b); [eauto|discriminate]. }
    destruct (decide (a = b)) as [<-|Hne]; [rewrite HA; eauto|rewrite HO by exact Hne; exact HS].
  - intros b m x HbD Eb Hm; apply (typed_content h h'); [intros p _; apply HC|exact W1|].
    destruct (HL b m x Eb) as (m' & Eb' & ?); apply (W4 b m' x HbD Eb'); lia.
  - intros b m o Eb Hm; destruct (HL b m _ Eb) as (m' & Eb' & ?); destruct (W5 b m' o Eb') as [l Hl]; [lia|].
    exists l; eapply chain_content; [|exact Hl]; intros x y; rewrite HC; auto.
  - intros HD0; destruct (W6 HD0) as (m & o & Em & Ho); destruct (decide (a = D)) as [HaD|Hne].
    + rewrite HaD in *; rewrite Em in E; injection E as -> <-; eauto.
    + rewrite HO by exact Hne; eauto.
  - intros b x Eb; destruct (decide (a = b)) as [<-|Hne].
    + rewrite HA in Eb; injection Eb as Eb _; rewrite (proj2 (Z.eqb_eq n 1)) by lia; left; left.
    + rewrite HO in Eb by exact Hne; destruct (W7 b x Eb) as [Hz|Hz]; [left|right; exact Hz]; destruct (n =? 1); [right|]; exact Hz.
  - intros b Hb'; assert (Hz : b ∈ Z0 -> exists x, h' !! b = Some (0, x)).
    { intros Hz; destruct (W8 b Hz) as [x Ex]; destruct (decide (a = b)) as [<-|Hne]; [rewrite E in Ex; injection Ex as; lia|].
      rewrite HO by exact Hne; eauto. }
    destruct (Z.eqb_spec n 1) as [->|]; [|auto]; apply elem_of_cons in Hb' as [->|Hb']; [eauto|auto].
  - destruct (Z.eqb_spec n 1); [|exact W9]; constructor; [|exact W9].
    intros Hz; destruct (W8 a Hz) as [x Ex]; rewrite E in Ex; injection Ex as; lia.
Qed.

(** A cell with count zero is freed. *)
Lemma del_wf P Z0 h a : wf D (P ++ R) (a :: Z0) h -> wf D (P ++ R) Z0 (delete a h) /\ lowers h (delete a h).
Proof.
  intros HW; assert (HW' := HW); destruct HW as [W1 W2 W3 W4 W5 W6 W7 W8 W9]; destruct (W8 a ltac:(left)) as [c E].
  apply NoDup_cons in W9 as [Hz9 W9]; assert (Ha0 : a <> 0) by (intros ->; congruence).
  destruct (W2 a 0 c E) as [Hn _]; pose proof (occ_nonneg a (P ++ R)); pose proof (holders_nonneg D h a).
  assert (HaR : a ∉ P ++ R) by (intros Hi%occ_pos; lia).
  assert (HaD : a <> D).
  { intros ->; apply HaR; apply elem_of_app; right; apply guard, Ha0. }
  assert (HO : forall b, b <> a -> delete a h !! b = h !! b) by (intros; apply lookup_delete_ne; congruence).
  assert (HS : forall b x, delete a h !! b = Some x -> b <> a /\ h !! b = Some x) by (intros b x [? ?]%lookup_delete_Some; split; [congruence|assumption]).
  assert (HL : lowers h (delete a h)).
  { intros b m x [_ Eb]%HS; exists m; split; [exact Eb|lia]. }
  assert (HH : forall x, holders D (delete a h) x = holders D h x).
  { intros x; unfold holders; rewrite (msum_delete _ h a (0, c) E); cbn [fst]; rewrite orb_true_r; lia. }
  assert (HP : forall b m x p, b <> D -> h !! b = Some (m, x) -> 0 < m -> p ∈ pointers x -> p <> a).
  { intros b m x p HbD Eb Hm Hp ->; pose proof (pointed_live D _ _ h b m x a 0 c HW' HbD Eb Hm Hp E); lia. }
  split; [|exact HL]; constructor.
  - rewrite HO by congruence; exact W1.
  - intros b m x [_ Eb]%HS; rewrite HH; apply (W2 b m x Eb).
  - intros b Hb; rewrite HO; [apply W3, Hb|intros ->; contradiction].
  - intros b m x HbD [_ Eb]%HS Hm; apply (typed_content h); [|exact W1|apply (W4 b m x HbD Eb Hm)].
    intros p Hp; unfold content; rewrite HO; [reflexivity|apply (HP b m x p HbD Eb Hm Hp)].
  - intros b m o [Hba Eb]%HS Hm; destruct (W5 b m o Eb Hm) as [l Hl]; exists l; clear HS.
    assert (G : forall b l, chain h b l -> forall m o, h !! b = Some (m, C_OBJECT o) -> 0 < m -> b <> a -> chain (delete a h) b l).
    { clear b m o l Hba Eb Hm Hl; intros b l Hl; induction Hl as [|b o b' l Hb0 Hc Hnx Hl IH]; intros m o' Eb Hm Hba; [constructor|].
      assert (o' = o) as -> by (unfold content in Hc; rewrite Eb in Hc; injection Hc as ->; reflexivity).
      apply (chain_next _ b o b' l Hb0); [unfold content; rewrite HO by exact Hba; exact Hc|exact Hnx|].
      destruct (decide (b' = 0)) as [->|Hb'0]; [inversion Hl; subst; [constructor|congruence]|].
      unfold next_in_chain in Hnx; destruct (is_reference o) eqn:Er; [|congruence].
      assert (HbD : b <> D).
      { intros ->; destruct (W6 Hb0) as (m2 & o2 & E2 & N2); rewrite Eb in E2; injection E2 as -> ->.
        unfold next_in_chain in N2; rewrite Er in N2; congruence. }
      assert (Hp : b' ∈ pointers (C_OBJECT o)).
      { unfold pointers, nonnull; apply list_elem_of_filter; split; [exact Hb'0|]; unfold object_pointers, is_reference in *.
        destruct (o_type o); try discriminate; rewrite Hnx; left. }
      inversion Hl as [|b1 o1 b2 l1 _ Hc1 Hn1 _]; subst; [congruence|]; unfold content in Hc1.
      destruct (h !! b') as [[m1 x1]|] eqn:E1; [|discriminate]; injection Hc1 as ->.
      apply (IH m1 o1 eq_refl); [apply (pointed_live D _ _ h b m _ b' m1 _ HW' HbD Eb Hm Hp E1)|apply (HP b m _ b' HbD Eb Hm Hp)]. }
    exact (G b l Hl m o Eb Hm Hba).
  - intros HD0; destruct (W6 HD0) as (m & o & Em & Ho); exists m, o; rewrite HO by congruence; auto.
  - intros b x [Hba Eb]%HS; destruct (W7 b x Eb) as [Hz|Hz]; [left|right; exact Hz]; apply elem_of_cons in Hz as [|]; [contradiction|assumption].
  - intros b Hb; destruct (W8 b ltac:(right; exact Hb)) as [x Ex]; exists x; rewrite HO; [exact Ex|intros ->; contradiction].
  - exact W9.
Qed.

(** A cell that is lost. *)
Lemma leak_wf P Z0 h a n c : wf D (P ++ R) (a :: Z0) h -> h !! a = Some (n, c) -> leaked c -> wf D (P ++ R) Z0 h.
Proof.
  intros [W1 W2 W3 W4 W5 W6 W7 W8 W9] E Hc; constructor; auto.
  - intros b x Eb; destruct (W7 b x Eb) as [Hz|Hz]; [|right; exact Hz]; apply elem_of_cons in Hz as [->|Hz]; [right|left; exact Hz].
    rewrite E in Eb; injection Eb as _ <-; exact Hc.
  - intros b Hb; apply W8; right; exact Hb.
  - apply NoDup_cons in W9 as [_ W9]; exact W9.
Qed.
End Steps.
