(* ===== verification/ObjFree.v ===== *)
(** * Objects: giving up a reference

    Dropping a reference to an object of a well-formed heap touches only what is there,
    comes to an end, and leaves a heap in which every count is exact again and all that is
    no longer referred to is gone. *)

From S2P Require Import Prelude UCore Shareable Objects ObjCount.

Open Scope word_scope.

(** ** Counts of live cells *)

Definition live_cells (h : heap) : nat := size (filter (fun x => 0 < fst (snd x)) h).

Lemma live_size h : (live_cells h <= size h)%nat.
Proof. apply map_size_filter. Qed.

Lemma live_size_lt h a c : h !! a = Some (0, c) -> (live_cells h < size h)%nat.
Proof.
  intros E; unfold live_cells; rewrite <- !(size_dom (D := gset Z)); apply subset_size; split.
  - intros b; rewrite !elem_of_dom; intros [x [Hx _]%map_lookup_filter_Some]; eauto.
  - intros H; assert (Ha : a ∈ dom h) by (apply elem_of_dom; eauto); apply H, elem_of_dom in Ha as [x [Hx Hp]%map_lookup_filter_Some].
    rewrite E in Hx; injection Hx as <-; cbn in Hp; lia.
Qed.

Lemma lowers_live h h' : lowers h h' -> (live_cells h' <= live_cells h)%nat.
Proof.
  intros H; unfold live_cells; rewrite <- !(size_dom (D := gset Z)); apply subseteq_size; intros a.
  rewrite !elem_of_dom; intros [[n c] E]; apply map_lookup_filter_Some in E as [E Hn]; cbn in Hn.
  destruct (H a n c E) as (m & Em & ?); exists (m, c); apply map_lookup_filter_Some; split; [exact Em|cbn; lia].
Qed.

Lemma dec_live (h : heap) a n c : h !! a = Some (n, c) -> n = 1 -> Nat.lt (live_cells (<[a := (n - 1, c)]> h)) (live_cells h).
Proof.
  intros E ->; unfold live_cells; rewrite <- !(size_dom (D := gset Z)); apply subset_size; split.
  - intros b; rewrite !elem_of_dom; intros [x [Hx Hp]%map_lookup_filter_Some]; exists x; apply map_lookup_filter_Some.
    apply lookup_insert_Some in Hx as [[<- <-]|[_ Hx]]; [cbn in Hp; lia|split; assumption].
  - intros H; assert (Ha : a ∈ dom (filter (fun x : Z * (Z * cell) => 0 < fst (snd x)) h)).
    { apply elem_of_dom; exists (1, c); apply map_lookup_filter_Some; split; [exact E|cbn; lia]. }
    apply H, elem_of_dom in Ha as [x [Hx Hp]%map_lookup_filter_Some]; rewrite lookup_insert_eq in Hx; injection Hx as <-; cbn in Hp; lia.
Qed.

Section Release.
Context {W : Type} {OH : ObjectHost W}.

(** The functions of the host that freeing uses return. *)
Class ReleaseLaws := {
  rl_bytes n w : exists r w', alloc_bytes n w = Some (r, w');
  rl_mutex m w : exists w', release_mutex m w = Some (tt, w');
  rl_event e w : exists w', release_event e w = Some (tt, w') }.
Context {RL : ReleaseLaws}.

(** There is always memory. *)
Definition plenty : Prop := forall n w r w', alloc_bytes n w = Some (r, w') -> r <> None.

#[local] Instance memory : Memory := plenty.

Context (D : Z) (R : list Z) (guard : D <> 0 -> D ∈ R).

(** ** Single operations *)

Lemma set_cells_id (s : ost W) : set_cells (cells s) s = s.
Proof. destruct s; reflexivity. Qed.

Lemma get_cell_run (s : ost W) a x : cells s !! a = Some x -> get_cell a s = Some (x, s).
Proof. intros E; unfold get_cell, of_opt; smunfold; rewrite E; reflexivity. Qed.

Lemma get_object_run (s : ost W) a n o : cells s !! a = Some (n, C_OBJECT o) -> get_object a s = Some (o, s).
Proof. intros E; unfold get_object; rewrite (SM_bind_Some _ _ _ _ _ (get_cell_run _ _ _ E)); reflexivity. Qed.

Lemma free_cell_run (s : ost W) a x : cells s !! a = Some x -> free_cell a s = Some (tt, set_cells (delete a (cells s)) s).
Proof. intros E; unfold free_cell; rewrite (SM_bind_Some _ _ _ _ _ (get_cell_run _ _ _ E)); reflexivity. Qed.

Lemma unref_run (s : ost W) a n c : cells s !! a = Some (n, c) -> 0 < n < BUGGED_REFCOUNT ->
  shareable_unref a s = Some (n, set_cells (<[a := (n - 1, c)]> (cells s)) s).
Proof.
  intros E Hn; unfold shareable_unref, on_count; rewrite (SM_bind_Some _ _ _ _ _ (get_cell_run _ _ _ E)); cbn [fst snd].
  rewrite (unref_live {| reference_count := n; freed := 0 |} Hn); reflexivity.
Qed.

Lemma bugged_run (s : ost W) a n c : cells s !! a = Some (n, c) -> 0 < n < BUGGED_REFCOUNT -> bugged_shareable a s = Some (false, s).
Proof.
  intros E [H1 H2]; unfold bugged_shareable, on_count; rewrite (SM_bind_Some _ _ _ _ _ (get_cell_run _ _ _ E)); cbn [fst snd].
  unfold uacpi_bugged_shareable; smunfold; cbn [reference_count]; rewrite (proj2 (Z.eqb_neq n 0)) by lia; cbn [reference_count].
  unfold put_cell; smunfold; rewrite (insert_id _ _ _ E), set_cells_id, (proj2 (Z.eqb_neq n BUGGED_REFCOUNT)) by lia; reflexivity.
Qed.

Lemma refcount_run (s : ost W) a n c : cells s !! a = Some (n, c) -> shareable_refcount a s = Some (n, s).
Proof.
  intros E; unfold shareable_refcount, on_count; rewrite (SM_bind_Some _ _ _ _ _ (get_cell_run _ _ _ E)); cbn [fst snd].
  unfold uacpi_shareable_refcount, put_cell; smunfold; cbn [reference_count]; rewrite (insert_id _ _ _ E), set_cells_id; reflexivity.
Qed.

Lemma on_host_run {A} (c : SM W A) (s : ost W) a w : c (oworld s) = Some (a, w) -> host c s = Some (a, set_oworld w s).
Proof. intros E; unfold host; rewrite E; reflexivity. Qed.

(** Outside references in any order. *)
Lemma wf_perm R1 R2 Z1 Z2 h : R1 ≡ₚ R2 -> Z1 ≡ₚ Z2 -> wf D R1 Z1 h -> wf D R2 Z2 h.
Proof.
  intros HR HZ [W1 W2 W3 W4 W5 W6 W7 W8 W9].
  assert (HO : forall a, occ a R1 = occ a R2).
  { intros a; clear -HR; induction HR; cbn; lia. }
  constructor; [exact W1| | |exact W4|exact W5|exact W6| | |rewrite <- HZ; exact W9].
  - intros a n c E; rewrite <- HO; apply (W2 a n c E).
  - intros a Ha; apply W3; rewrite HR; exact Ha.
  - intros a c E; destruct (W7 a c E) as [H|H]; [left; rewrite <- HZ; exact H|right; exact H].
  - intros a Ha; apply W8; rewrite HZ; exact Ha.
Qed.

(** ** Storages *)

(** [do_free] frees a cell with content [c] and gives up what it refers to. *)
Definition frees (f : nat) (c : cell) (do_free : Z -> SM (ost W) unit) : Prop := forall p P Z0 s,
  wf D (pointers c ++ P ++ R) (p :: Z0) (cells s) -> cells s !! p = Some (0, c) -> typed (cells s) c ->
  (live_cells (cells s) < f)%nat ->
  exists L s', do_free p s = Some (tt, s') /\ wf D (L ++ P ++ R) Z0 (cells s') /\ lowers (cells s) (cells s') /\ (plenty -> L = []).

Lemma not_stale h Z0 P p n c : wf D (P ++ R) Z0 h -> h !! p = Some (n, c) -> (forall o, c <> C_OBJECT o) -> p <> D.
Proof.
  intros HW E Hc ->; assert (HD : D <> 0) by (intros H0; rewrite H0, (wf_null _ _ _ _ HW) in E; discriminate).
  destruct (wf_stale _ _ _ _ HW HD) as (m & o & Em & _); rewrite E in Em; injection Em as _ ->; apply (Hc o); reflexivity.
Qed.

Lemma unref_delete_spec f p P Z0 (s : ost W) (n : Z) c do_free : wf D (p :: P ++ R) Z0 (cells s) -> cells s !! p = Some (n, c) ->
  (forall o, c <> C_OBJECT o) -> frees f c do_free -> (live_cells (cells s) <= f)%nat ->
  exists (L : list Z) (s' : ost W), shareable_unref_and_delete_if_last p do_free s = Some (tt, s') /\ wf D (L ++ P ++ R) Z0 (cells s') /\ lowers (cells s) (cells s') /\ (plenty -> L = []).
Proof.
  intros HW E Hc Hf Hl; destruct (dec_wf D R P Z0 (cells s) p n c HW E) as (HW1 & HL1 & Hn).
  assert (Hp0 : p <> 0) by (intros ->; rewrite (wf_null _ _ _ _ HW) in E; discriminate).
  assert (HpD : p <> D) by (eapply (not_stale _ _ (p :: P)); [exact HW|exact E|exact Hc]).
  assert (Hr : passes_on c = false) by (destruct c; try reflexivity; exfalso; eapply Hc; reflexivity).
  unfold shareable_unref_and_delete_if_last; rewrite (proj2 (Z.eqb_neq p 0) Hp0).
  rewrite (SM_bind_Some _ _ _ _ _ (bugged_run _ _ _ _ E Hn)), (SM_bind_Some _ _ _ _ _ (unref_run _ _ _ _ E Hn)).
  unfold released in HW1; rewrite (proj2 (Z.eqb_neq p D) HpD), Hr in HW1; destruct (Z.eqb_spec n 1) as [Hn1|Hn1].
  2: { exists [], (set_cells (<[p := (n - 1, c)]> (cells s)) s); split; [reflexivity|split; [exact HW1|split; [exact HL1|reflexivity]]]. }
  set (s1 := set_cells _ s); destruct (Hf p P Z0 s1) as (L & s2 & E2 & HW2 & HL2 & Hp2); [exact HW1| | | |].
  - unfold s1; cbn; rewrite lookup_insert_eq; do 2 f_equal; lia.
  - apply (typed_content (cells s)); [intros q _; apply content_insert with n, E|apply HW|].
    apply (wf_typed _ _ _ _ HW p n c HpD E); lia.
  - eapply Nat.lt_le_trans; [apply (dec_live (cells s) p n c E Hn1)|exact Hl].
  - exists L, s2; split; [exact E2|split; [exact HW2|split; [etransitivity; eassumption|exact Hp2]]].
Qed.

Lemma free_leaf f c do_free : pointers c = [] ->
  (forall p (s : ost W), cells s !! p = Some (0, c) -> exists w, do_free p s = Some (tt, set_cells (delete p (cells s)) (set_oworld w s))) ->
  frees f c do_free.
Proof.
  intros Hp Hf p P Z0 s HW E _ _; rewrite Hp in HW; destruct (Hf p s E) as (w & Ef); destruct (del_wf D R guard P Z0 (cells s) p HW) as [HW' HL].
  exists [], (set_cells (delete p (cells s)) (set_oworld w s)); split; [exact Ef|split; [exact HW'|split; [exact HL|reflexivity]]].
Qed.

Lemma set_oworld_id (s : ost W) : set_oworld (oworld s) s = s.
Proof. destruct s; reflexivity. Qed.

Lemma free_buffer_frees f d n : frees f (C_BUFFER d n) free_buffer.
Proof.
  apply free_leaf; [reflexivity|]; intros p s E; exists (oworld s); rewrite set_oworld_id; unfold free_buffer, get_buffer.
  rewrite (SM_bind_Some _ _ _ (d, n) s); [apply (free_cell_run _ _ _ E)|].
  rewrite (SM_bind_Some _ _ _ _ _ (get_cell_run _ _ _ E)); reflexivity.
Qed.

Lemma free_mutex_frees f m : frees f (C_MUTEX m) free_mutex.
Proof.
  apply free_leaf; [reflexivity|]; intros p s E; destruct (rl_mutex (m_handle m) (oworld s)) as (w & Ew); exists w; unfold free_mutex.
  rewrite (SM_bind_Some _ _ _ m s) by (unfold get_mutex; rewrite (SM_bind_Some _ _ _ _ _ (get_cell_run _ _ _ E)); reflexivity).
  rewrite (SM_bind_Some _ _ _ _ _ (on_host_run _ _ _ _ Ew)); apply (free_cell_run (set_oworld w s) p _ E).
Qed.

Lemma free_event_frees f e : frees f (C_EVENT e) free_event.
Proof.
  apply free_leaf; [reflexivity|]; intros p s E; destruct (rl_event e (oworld s)) as (w & Ew); exists w; unfold free_event.
  rewrite (SM_bind_Some _ _ _ _ _ (get_cell_run _ _ _ E)); cbn [snd].
  rewrite (SM_bind_Some _ _ _ _ _ (on_host_run _ _ _ _ Ew)); apply (free_cell_run (set_oworld w s) p _ E).
Qed.

(** Finish by freeing a cell that is still there with count zero. *)
Lemma finish_free p P Z0 (s s1 : ost W) L : wf D (L ++ P ++ R) (p :: Z0) (cells s1) -> lowers (cells s) (cells s1) -> (plenty -> L = []) ->
  exists L' s', free_cell p s1 = Some (tt, s') /\ wf D (L' ++ P ++ R) Z0 (cells s') /\ lowers (cells s) (cells s') /\ (plenty -> L' = []).
Proof.
  intros HW HL Hp; destruct (wf_kept _ _ _ _ HW p ltac:(left)) as [c E]; rewrite app_assoc in HW.
  destruct (del_wf D R guard (L ++ P) Z0 (cells s1) p HW) as [HW' HL']; rewrite <- app_assoc in HW'.
  exists L, (set_cells (delete p (cells s1)) s1); split; [apply (free_cell_run _ _ _ E)|split; [exact HW'|]].
  split; [etransitivity; eassumption|exact Hp].
Qed.

Lemma free_method_frees f m : frees f (C_METHOD m) free_method.
Proof.
  intros p P Z0 s HW E Ht Hl; unfold free_method; rewrite (SM_bind_Some _ _ _ _ _ (get_cell_run _ _ _ E)); cbn [snd].
  assert (H1 : exists L s1, shareable_unref_and_delete_if_last (m_mutex m) free_mutex s = Some (tt, s1) /\
      wf D (L ++ P ++ R) (p :: Z0) (cells s1) /\ lowers (cells s) (cells s1) /\ (plenty -> L = [])).
  { cbn [typed] in Ht; destruct (Z.eqb_spec (m_mutex m) 0) as [E0|E0].
    - exists [], s; unfold shareable_unref_and_delete_if_last; rewrite E0; split; [reflexivity|].
      replace (pointers (C_METHOD m)) with (@nil Z) in HW by (unfold pointers, nonnull; rewrite E0; reflexivity).
      split; [exact HW|split; [reflexivity|reflexivity]].
    - destruct Ht as [|[x Hx]]; [contradiction|].
      replace (pointers (C_METHOD m)) with [m_mutex m] in HW by (unfold pointers, nonnull; rewrite filter_cons_True by exact E0; reflexivity).
      unfold content in Hx; destruct (cells s !! m_mutex m) as [[n c]|] eqn:Em; [|discriminate]; injection Hx as ->.
      apply (unref_delete_spec f (m_mutex m) P (p :: Z0) s n (C_MUTEX x) free_mutex HW Em); [discriminate|apply free_mutex_frees|lia]. }
  destruct H1 as (L & s1 & E1 & HW1 & HL1 & Hp1); rewrite (SM_bind_Some _ _ _ _ _ E1); exact (finish_free p P Z0 s s1 L HW1 HL1 Hp1).
Qed.

(** ** Packages *)

(** Packages that wait to be freed, with their elements. *)
Definition obj_if (h : heap) (a : Z) : Prop := a <> 0 /\ forall c, content h a = Some c -> exists o, c = C_OBJECT o.

Definition queued (h : heap) (qs : list (Z * list Z)) : Prop :=
  Forall (fun x => content h (fst x) = Some (C_PACKAGE (snd x)) /\ Forall (obj_if h) (snd x)) qs.

Definition elements (qs : list (Z * list Z)) : list Z := concat (map snd qs).

Lemma obj_if_lowers h h' a : lowers h h' -> obj_if h a -> obj_if h' a.
Proof. intros HL [H0 H]; split; [exact H0|]; intros c E; apply H; eapply lowers_content; eassumption. Qed.

Lemma queued_lowers R' Z0 h h' qs : lowers h h' -> wf D R' Z0 h' -> (forall p, p ∈ map fst qs -> p ∈ Z0) -> queued h qs -> queued h' qs.
Proof.
  intros HL HW; induction qs as [|[p l] qs IH]; intros Hz Hq; [constructor|]; apply Forall_cons in Hq as [[Hc Ho] Hq]; cbn [fst snd] in *.
  apply Forall_cons; split; [|apply IH; [intros q Hq'; apply Hz; right; exact Hq'|exact Hq]]; cbn [fst snd]; split.
  - destruct (wf_kept _ _ _ _ HW p ltac:(apply Hz; left)) as [c E]; destruct (HL p 0 c E) as (n & En & _).
    unfold content in *; rewrite E; rewrite En in Hc; exact Hc.
  - eapply Forall_impl; [exact Ho|]; intros a; apply obj_if_lowers, HL.
Qed.

Lemma nonnull_objects h l : Forall (obj_if h) l -> nonnull l = l.
Proof.
  unfold nonnull; induction 1 as [|a l [H0 _] _ IH]; [reflexivity|]; rewrite filter_cons_True by exact H0; rewrite IH; reflexivity.
Qed.

Lemma typed_objects h l : h !! 0 = None -> Forall (is_object h) l -> Forall (obj_if h) l.
Proof.
  intros H0 Hl; eapply Forall_impl; [exact Hl|]; intros a [o Ho]; split; [intros ->; unfold content in Ho; rewrite H0 in Ho; discriminate|].
  intros c E; rewrite Ho in E; injection E as <-; eauto.
Qed.

Lemma queue_push_run (q : free_queue) p (s : ost W) : exists b q' w, free_queue_push q p s = Some ((b, q'), set_oworld w s) /\
  items q' = (if b then p :: items q else items q) /\ (plenty -> b = true).
Proof.
  unfold free_queue_push, array_push; destruct ((4 <=? _) && _) eqn:Eb.
  - destruct (rl_bytes (next_bytes 4 8 (outside q)) (oworld s)) as ([l|] & w & Ew).
    + exists true, {| items := p :: items q; outside := next_bytes 4 8 (outside q) / 8 |}, w; split; [|split; reflexivity].
      rewrite (SM_bind_Some _ _ _ (Some (next_bytes 4 8 (outside q) / 8)) (set_oworld w s)); [reflexivity|].
      rewrite (SM_bind_Some _ _ _ _ _ (on_host_run _ _ _ _ Ew)); reflexivity.
    + eexists false, q, w; split; [|split; [reflexivity|]].
      * rewrite (SM_bind_Some _ _ _ None (set_oworld w s)); [reflexivity|].
        rewrite (SM_bind_Some _ _ _ _ _ (on_host_run _ _ _ _ Ew)); reflexivity.
      * intros Hp; exfalso; apply (Hp _ _ _ _ Ew); reflexivity.
  - exists true, {| items := p :: items q; outside := outside q |}, (oworld s); rewrite set_oworld_id; split; [reflexivity|split; reflexivity].
Qed.

(** What an object refers to when its count has become zero: a reference has given up its
    inner object before. *)
Definition own_pointers (c : cell) : list Z := if passes_on c then [] else pointers c.

Definition releases (f : nat) (release : Z -> SM (ost W) unit) : Prop := forall o x P Z0 s,
  wf D (own_pointers (C_OBJECT x) ++ P ++ R) (o :: Z0) (cells s) -> cells s !! o = Some (0, C_OBJECT x) ->
  typed (cells s) (C_OBJECT x) -> (live_cells (cells s) < f)%nat ->
  exists L s', release o s = Some (tt, s') /\ wf D (L ++ P ++ R) Z0 (cells s') /\ lowers (cells s) (cells s') /\ (plenty -> L = []).

Section Packages.
Context (f : nat) (release : Z -> SM (ost W) unit) (release_ok : releases f release).

(** A step that may add packages [new] to the queue [qs]. *)
Definition queues (qs : list (Z * list Z)) (P Z0 : list Z) (s : ost W) (r : option (free_queue * ost W)) : Prop :=
  exists L new q' s', r = Some (q', s') /\ items q' = map fst (new ++ qs) /\
    wf D (L ++ elements new ++ P ++ R) (map fst (new ++ qs) ++ Z0) (cells s') /\ lowers (cells s) (cells s') /\
    queued (cells s') (new ++ qs) /\ (length new + live_cells (cells s') <= live_cells (cells s))%nat /\ (plenty -> L = []).

Lemma queues_same qs P Z0 (s s' : ost W) q : items q = map fst qs -> wf D (P ++ R) (map fst qs ++ Z0) (cells s') ->
  lowers (cells s) (cells s') -> queued (cells s) qs -> queues qs P Z0 s (Some (q, s')).
Proof.
  intros Hq HW HL Hqs; exists [], [], q, s'; split; [reflexivity|split; [exact Hq|split; [exact HW|split; [exact HL|split; [|split; [|reflexivity]]]]]].
  - eapply queued_lowers; [exact HL|exact HW|intros p Hp; apply elem_of_app; left; exact Hp|exact Hqs].
  - cbn; apply lowers_live, HL.
Qed.

Lemma elements_app q1 q2 : elements (q1 ++ q2) = elements q1 ++ elements q2.
Proof. unfold elements; rewrite map_app, concat_app; reflexivity. Qed.

Lemma queues_trans qs P P1 Z0 (s s1 : ost W) (c : SM (ost W) free_queue) q1 new1 L1 (k : free_queue -> SM (ost W) free_queue) :
  c s = Some (q1, s1) -> items q1 = map fst (new1 ++ qs) -> lowers (cells s) (cells s1) ->
  (length new1 + live_cells (cells s1) <= live_cells (cells s))%nat -> (plenty -> L1 = []) -> P1 ≡ₚ L1 ++ elements new1 ++ P ->
  queues (new1 ++ qs) P1 Z0 s1 (k q1 s1) -> queues qs P Z0 s (mbind k c s).
Proof.
  intros E Hq HL Hl Hp HP (L2 & new2 & q2 & s2 & E2 & Hq2 & HW2 & HL2 & Hqs2 & Hl2 & Hp2).
  exists (L2 ++ L1), (new2 ++ new1), q2, s2; rewrite <- !app_assoc in *.
  split; [rewrite (SM_bind_Some _ _ _ _ _ E); exact E2|split; [exact Hq2|split; [|split; [etransitivity; eassumption|split; [exact Hqs2|split]]]]].
  - eapply wf_perm; [|reflexivity|exact HW2]; rewrite HP, elements_app, <- !app_assoc.
    apply Permutation_app_head; rewrite !(app_assoc (elements new2)), (Permutation_app_comm (elements new2) L1), <- !app_assoc; reflexivity.
  - rewrite length_app; lia.
  - intros HP'; rewrite (Hp HP'), (Hp2 HP'); reflexivity.
Qed.

Lemma free_plain_spec o x q qs P Z0 s : wf D (own_pointers (C_OBJECT x) ++ P ++ R) (o :: map fst qs ++ Z0) (cells s) ->
  cells s !! o = Some (0, C_OBJECT x) -> typed (cells s) (C_OBJECT x) -> (live_cells (cells s) < f)%nat ->
  is_reference x = false -> queued (cells s) qs -> items q = map fst qs ->
  queues qs P Z0 s (free_plain_no_recurse release o q s).
Proof.
  intros HW E Ht Hl Hx Hqs Hq; unfold free_plain_no_recurse; rewrite (SM_bind_Some _ _ _ _ _ (get_object_run _ _ _ _ E)).
  assert (Hother : queues qs P Z0 s ((release o;; mret q) s)).
  { destruct (release_ok o x P (map fst qs ++ Z0) s HW E Ht Hl) as (L & s1 & E1 & HW1 & HL1 & Hp1).
    rewrite (SM_bind_Some _ _ _ _ _ E1); exists L, [], q, s1; split; [reflexivity|split; [exact Hq|split; [exact HW1|split; [exact HL1|split; [|split; [|exact Hp1]]]]]].
    - eapply queued_lowers; [exact HL1|exact HW1|intros p Hp; apply elem_of_app; left; exact Hp|exact Hqs].
    - cbn; apply lowers_live, HL1. }
  destruct (o_type x) eqn:Et; try exact Hother; clear Hother.
  cbn [typed] in Ht; rewrite Et in Ht; destruct Ht as (p & l & Ep & Hc); rewrite Ep.
  assert (Hp0 : p <> 0) by (intros ->; unfold content in Hc; rewrite (wf_null _ _ _ _ HW) in Hc; discriminate).
  replace (own_pointers (C_OBJECT x)) with [p] in HW.
  2: { unfold own_pointers, pointers, object_pointers, passes_on; rewrite Hx, Et, Ep; unfold nonnull; rewrite filter_cons_True by exact Hp0; reflexivity. }
  unfold content in Hc; destruct (cells s !! p) as [[n c]|] eqn:En; [|discriminate]; injection Hc as ->.
  destruct (dec_wf D R P _ (cells s) p n _ HW En) as (HW1 & HL1 & Hn).
  assert (HpD : p <> D) by (eapply (not_stale _ _ ([p] ++ P)); [exact HW|exact En|discriminate]).
  assert (Hop : o <> p) by (intros ->; rewrite E in En; discriminate).
  rewrite (SM_bind_Some _ _ _ p s) by reflexivity; rewrite (SM_bind_Some _ _ _ _ _ (unref_run _ _ _ _ En Hn)).
  set (s1 := set_cells _ s) in *; assert (Eo : cells s1 !! o = Some (0, C_OBJECT x)) by (unfold s1; cbn; rewrite lookup_insert_ne by congruence; exact E).
  unfold released in HW1; rewrite (proj2 (Z.eqb_neq p D) HpD) in HW1; cbn [passes_on] in HW1.
  destruct (Z.ltb_spec 1 n) as [Hn1|Hn1].
  { rewrite (proj2 (Z.eqb_neq n 1)) in HW1 by lia.
    apply (queues_same qs P Z0 s s1 q Hq); [|exact HL1|exact Hqs].
    eapply leak_wf; [exact HW1|exact Eo|left; exists x; split; [reflexivity|exact Et]]. }
  assert (n = 1) as -> by lia; cbn [Z.eqb Pos.eqb] in HW1.
  assert (Hlo : Forall (obj_if (cells s)) l).
  { apply typed_objects; [apply HW|]; apply (wf_typed _ _ _ _ HW p 1 _ HpD En); lia. }
  replace (pointers (C_PACKAGE l)) with l in HW1 by (symmetry; exact (nonnull_objects _ _ Hlo)).
  destruct (queue_push_run q p s1) as (b & q' & w & E2 & Hq' & Hb); rewrite (SM_bind_Some _ _ _ _ _ E2).
  assert (HW2 : wf D ((l ++ P) ++ R) (p :: map fst qs ++ Z0) (delete o (cells s1)) /\ lowers (cells s1) (delete o (cells s1))).
  { apply (del_wf D R guard (l ++ P)); eapply wf_perm; [|apply perm_swap|exact HW1]; rewrite app_assoc; reflexivity. }
  destruct HW2 as [HW2 HL2]; assert (HL : lowers (cells s) (delete o (cells s1))) by (etransitivity; eassumption).
  rewrite (SM_bind_Some _ _ _ _ _ (free_cell_run (set_oworld w s1) o _ Eo)); cbn [snd].
  assert (Hlive : (S (live_cells (delete o (cells s1))) <= live_cells (cells s))%nat).
  { eapply Nat.le_lt_trans; [apply lowers_live, HL2|]; apply (dec_live (cells s) p 1 _ En eq_refl). }
  destruct b.
  - exists [], [(p, l)], q', (set_cells (delete o (cells s1)) (set_oworld w s1)); split; [reflexivity|]; rewrite Hq', Hq.
    split; [reflexivity|]; assert (HW3 : wf D ([] ++ elements [(p, l)] ++ P ++ R) (map fst ([(p, l)] ++ qs) ++ Z0) (delete o (cells s1))).
    { unfold elements; cbn; rewrite app_nil_r, app_assoc; exact HW2. }
    split; [exact HW3|split; [exact HL|split; [|split; [exact Hlive|reflexivity]]]].
    eapply (queued_lowers _ _ (cells s)); [exact HL|exact HW3|intros a Ha; apply elem_of_app; left; exact Ha|].
    apply Forall_cons; split; [|exact Hqs]; cbn [fst snd]; split; [unfold content; rewrite En; reflexivity|exact Hlo].
  - exists l, [], q', (set_cells (delete o (cells s1)) (set_oworld w s1)); split; [reflexivity|]; rewrite Hq'.
    split; [exact Hq|]; assert (Hnp : ~ plenty) by (intros Hp; specialize (Hb Hp); discriminate).
    assert (Ep' : delete o (cells s1) !! p = Some (1 - 1, C_PACKAGE l)) by (rewrite lookup_delete_ne by exact Hop; apply lookup_insert_eq).
    assert (HW3 : wf D (l ++ elements [] ++ P ++ R) (map fst ([] ++ qs) ++ Z0) (delete o (cells s1))).
    { cbn; rewrite app_assoc; eapply leak_wf; [exact HW2|exact Ep'|right; split; [exact Hnp|eauto]]. }
    split; [exact HW3|split; [exact HL|split; [|split; [exact (lowers_live _ _ HL)|contradiction]]]].
    eapply (queued_lowers _ _ (cells s)); [exact HL|exact HW3|intros a Ha; apply elem_of_app; left; exact Ha|exact Hqs].
Qed.


Lemma released_object a n x : released D a n (C_OBJECT x) =
  if a =? D then [] else if is_reference x then pointers (C_OBJECT x) else if n =? 1 then pointers (C_OBJECT x) else [].
Proof. reflexivity. Qed.

Lemma reference_pointers x b : is_reference x = true -> next_in_chain x = Some b -> pointers (C_OBJECT x) = nonnull [b].
Proof.
  unfold next_in_chain, is_reference, pointers, object_pointers; destruct (o_type x); try discriminate; intros _ ->; reflexivity.
Qed.

Lemma plain_next x b : is_reference x = false -> next_in_chain x = Some b -> b = 0.
Proof. unfold next_in_chain; intros ->; congruence. Qed.

(** The object that is being overwritten ends its chain. *)
Lemma stale_next P Z0 h a n x b : wf D (P ++ R) Z0 h -> h !! a = Some (n, C_OBJECT x) -> a = D -> next_in_chain x = Some b -> b = 0.
Proof.
  intros HW E -> Hb; assert (HD : D <> 0) by (intros H0; rewrite H0, (wf_null _ _ _ _ HW) in E; discriminate).
  destruct (wf_stale _ _ _ _ HW HD) as (m & o & Em & Ho); rewrite E in Em; injection Em as -> ->; congruence.
Qed.

(** What is pending after the count of an object in a chain has been lowered. *)
Lemma dec_object P Z0 h a n x b : wf D (a :: P ++ R) Z0 h -> h !! a = Some (n, C_OBJECT x) -> next_in_chain x = Some b ->
  wf D ((nonnull [b] ++ (if n =? 1 then own_pointers (C_OBJECT x) else [])) ++ P ++ R) (if n =? 1 then a :: Z0 else Z0) (<[a := (n - 1, C_OBJECT x)]> h) /\
  lowers h (<[a := (n - 1, C_OBJECT x)]> h) /\ 0 < n < BUGGED_REFCOUNT /\ (n = 1 -> a <> D).
Proof.
  intros HW E Hb; destruct (dec_wf D R P Z0 h a n _ HW E) as (HW1 & HL & Hn).
  assert (HD : n = 1 -> a <> D).
  { intros Hn1 ->; destruct (wf_count _ _ _ _ HW D n _ E) as [Hc _]; cbn [occ] in Hc; rewrite Z.eqb_refl, occ_app in Hc.
    assert (HD : D <> 0) by (intros H0; rewrite H0, (wf_null _ _ _ _ HW) in E; discriminate).
    pose proof (proj2 (occ_pos D R) (guard HD)); pose proof (occ_nonneg D P); pose proof (holders_nonneg D h D); lia. }
  split; [|split; [exact HL|split; [exact Hn|exact HD]]]; rewrite released_object in HW1.
  destruct (Z.eqb_spec a D) as [Ha|Ha].
  - rewrite (stale_next (a :: P) Z0 h a n x b HW E Ha Hb).
    destruct (Z.eqb_spec n 1) as [Hn1|Hn1]; [exfalso; exact (HD Hn1 Ha)|exact HW1].
  - unfold own_pointers; cbn [passes_on]; destruct (is_reference x) eqn:Er.
    + rewrite (reference_pointers x b Er Hb) in HW1; destruct (n =? 1); rewrite app_nil_r; exact HW1.
    + rewrite (plain_next x b Er Hb); cbn [nonnull filter list_filter app decide]; destruct (n =? 1); exact HW1.
Qed.

Lemma unref_chain_spec l : forall fuel o q qs P Z0 s, wf D (nonnull [o] ++ P ++ R) (map fst qs ++ Z0) (cells s) ->
  chain (cells s) o l -> (length l < fuel)%nat -> (live_cells (cells s) <= f)%nat -> queued (cells s) qs -> items q = map fst qs ->
  queues qs P Z0 s (unref_chain_no_recurse release fuel o q s).
Proof.
  induction l as [|o' l IH]; intros [|fuel] o q qs P Z0 s HW Hc Hf Hl Hqs Hq; cbn in Hf; try lia; cbn [unref_chain_no_recurse].
  { inversion Hc; subst; apply queues_same; [exact Hq|exact HW|reflexivity|exact Hqs]. }
  inversion Hc as [|a x b l' Ha Ex Hb Hc']; subst o' l' a; rewrite (proj2 (Z.eqb_neq o 0) Ha).
  unfold nonnull in HW; rewrite filter_cons_True in HW by exact Ha; cbn [app filter list_filter] in HW.
  unfold content in Ex; destruct (cells s !! o) as [[n c]|] eqn:E; [|discriminate]; injection Ex as ->.
  rewrite (SM_bind_Some _ _ _ _ _ (get_object_run _ _ _ _ E)), Hb, (SM_bind_Some _ _ _ b s) by reflexivity.
  destruct (dec_object P _ _ o n x b HW E Hb) as (HW1 & HL1 & Hn & HD); rewrite (SM_bind_Some _ _ _ _ _ (unref_run _ _ _ _ E Hn)).
  set (s1 := set_cells (<[o := (n - 1, C_OBJECT x)]> (cells s)) s).
  (* the rest of the chain *)
  assert (Hrest : forall s2 L new q1 , lowers (cells s) (cells s2) -> items q1 = map fst (new ++ qs) ->
      wf D (nonnull [b] ++ (L ++ elements new ++ P) ++ R) (map fst (new ++ qs) ++ Z0) (cells s2) -> queued (cells s2) (new ++ qs) ->
      queues (new ++ qs) (L ++ elements new ++ P) Z0 s2 (unref_chain_no_recurse release fuel b q1 s2)).
  { intros s2 L new q1 HL2 Hq2 HW2 Hqs2; apply (IH fuel b q1 (new ++ qs)); auto; [|lia|].
    - destruct (decide (b = 0)) as [->|Hb0]; [inversion Hc'; subst; [constructor|congruence]|].
      assert (Hbr : b ∈ nonnull [b] ++ (L ++ elements new ++ P) ++ R) by (apply elem_of_app; left; apply list_elem_of_filter; split; [exact Hb0|left]).
      destruct (root_live _ _ _ _ b HW2 Hbr) as (m & c & Eb & Hm); inversion Hc' as [|? y ? ? ? Ey _ _]; subst; [congruence|].
      assert (c = C_OBJECT y) as ->.
      { pose proof (lowers_content _ _ b c HL2 ltac:(unfold content; rewrite Eb; reflexivity)); congruence. }
      destruct (wf_chain _ _ _ _ HW2 b m y Eb ltac:(lia)) as [l2 Hl2]; rewrite (lowers_chain _ _ _ _ _ HL2 Hc' Hl2) in Hl2; exact Hl2.
    - etransitivity; [apply lowers_live, HL2|exact Hl]. }
  destruct (Z.ltb_spec 1 n) as [Hn1|Hn1].
  { rewrite (proj2 (Z.eqb_neq n 1)) in HW1 by lia; rewrite app_nil_r in HW1.
    assert (Hqs1 : queued (cells s1) qs) by (eapply queued_lowers; [exact HL1|exact HW1|intros p Hp; apply elem_of_app; left; exact Hp|exact Hqs]).
    eapply (queues_trans qs P P Z0 s s1 (fun _ => Some (q, s1)) q [] []);
      [reflexivity|exact Hq|exact HL1|cbn; apply lowers_live, HL1|reflexivity|reflexivity|].
    apply (Hrest s1 [] [] q HL1 Hq HW1 Hqs1). }
  assert (n = 1) as -> by lia; specialize (HD eq_refl); cbn [Z.eqb Pos.eqb] in HW1.
  destruct (is_reference x) eqn:Er.
  - unfold own_pointers in HW1; cbn [passes_on] in HW1; rewrite Er, app_nil_r in HW1.
    assert (Eo : cells s1 !! o = Some (0, C_OBJECT x)) by apply lookup_insert_eq.
    rewrite app_assoc in HW1; destruct (del_wf D R guard (nonnull [b] ++ P) _ _ o HW1) as [HW2 HL2]; rewrite <- app_assoc in HW2.
    assert (HL : lowers (cells s) (delete o (cells s1))) by (etransitivity; eassumption).
    set (s2 := set_cells (delete o (cells s1)) s1).
    assert (Hqs2 : queued (cells s2) qs) by (eapply queued_lowers; [exact HL|exact HW2|intros p Hp; apply elem_of_app; left; exact Hp|exact Hqs]).
    rewrite (SM_bind_Some _ _ _ q s2) by (rewrite (SM_bind_Some _ _ _ _ _ (free_cell_run s1 o _ Eo)); reflexivity).
    eapply (queues_trans qs P P Z0 s s2 (fun _ => Some (q, s2)) q [] []);
      [reflexivity|exact Hq|exact HL|cbn; apply lowers_live, HL|reflexivity|reflexivity|].
    apply (Hrest s2 [] [] q HL Hq HW2 Hqs2).
  - rewrite (plain_next x b Er Hb) in *; cbn [nonnull filter list_filter app] in HW1.
    assert (Hq1 : queues qs P Z0 s1 (free_plain_no_recurse release o q s1)).
    { apply (free_plain_spec o x q qs P Z0 s1); [exact HW1|apply lookup_insert_eq| | |exact Er| |exact Hq].
      - apply (typed_content (cells s)); [intros p _; apply content_insert with 1, E|apply HW|apply (wf_typed _ _ _ _ HW o 1 _ HD E); lia].
      - eapply Nat.lt_le_trans; [apply (dec_live (cells s) o 1 _ E eq_refl)|exact Hl].
      - eapply queued_lowers; [exact HL1|exact HW1|intros p Hp; right; apply elem_of_app; left; exact Hp|exact Hqs]. }
    destruct Hq1 as (L & new & q1 & s2 & E2 & Hq2 & HW2 & HL2 & Hqs2 & Hl2 & Hp2); rewrite (SM_bind_Some _ _ _ _ _ E2).
    assert (HL : lowers (cells s) (cells s2)) by (etransitivity; eassumption).
    eapply (queues_trans qs P (L ++ elements new ++ P) Z0 s s2 (fun _ => Some (q1, s2)) q1 new L);
      [reflexivity|exact Hq2|exact HL| |exact Hp2|reflexivity|].
    + etransitivity; [exact Hl2|apply lowers_live, HL1].
    + apply (Hrest s2 L new q1 HL Hq2); [|exact Hqs2]; rewrite <- !app_assoc; exact HW2.
Qed.

Lemma unref_plain_chain o x n q (s : ost W) : cells s !! o = Some (n, C_OBJECT x) -> is_reference x = false -> o <> 0 ->
  unref_plain_no_recurse release o q s = unref_chain_no_recurse release 2 o q s.
Proof.
  intros E Er Ho; cbn [unref_chain_no_recurse]; rewrite (proj2 (Z.eqb_neq o 0) Ho), (SM_bind_Some _ _ _ _ _ (get_object_run _ _ _ _ E)).
  unfold next_in_chain; rewrite Er, (SM_bind_Some _ _ _ 0 s) by reflexivity; unfold unref_plain_no_recurse; smunfold.
  destruct (shareable_unref o s) as [[c s1]|]; [|reflexivity]; destruct (1 <? c); [reflexivity|].
  destruct (free_plain_no_recurse release o q s1) as [[q2 s2]|]; reflexivity.
Qed.

Lemma unref_object_spec o q qs P Z0 s : wf D (o :: P ++ R) (map fst qs ++ Z0) (cells s) -> obj_if (cells s) o ->
  (live_cells (cells s) <= f)%nat -> queued (cells s) qs -> items q = map fst qs ->
  queues qs P Z0 s (unref_object_no_recurse release o q s).
Proof.
  intros HW [Ho Hc] Hl Hqs Hq; destruct (root_live _ _ _ _ o HW ltac:(left)) as (n & c & E & Hn).
  destruct (Hc c) as [x ->]; [unfold content; rewrite E; reflexivity|].
  destruct (wf_chain _ _ _ _ HW o n x E ltac:(lia)) as [l Hch]; unfold unref_object_no_recurse.
  rewrite (SM_bind_Some _ _ _ _ _ (get_object_run _ _ _ _ E)).
  assert (HN : nonnull [o] = [o]) by (unfold nonnull; rewrite filter_cons_True by exact Ho; reflexivity).
  assert (HW' : wf D (nonnull [o] ++ P ++ R) (map fst qs ++ Z0) (cells s)) by (rewrite HN; exact HW).
  destruct (is_reference x) eqn:Er.
  - rewrite (SM_bind_Some _ _ _ (S (size (cells s))) s) by reflexivity.
    apply (unref_chain_spec l); auto; pose proof (chain_size _ _ _ Hch); lia.
  - rewrite (unref_plain_chain o x n q s E Er Ho); apply (unref_chain_spec l); auto.
    inversion Hch as [|a y b l' _ Ey Hb Hc']; subst; [cbn; lia|].
    unfold content in Ey; rewrite E in Ey; injection Ey as <-; rewrite (plain_next x b Er Hb) in Hc'; inversion Hc'; subst; [cbn; lia|congruence].
Qed.

Lemma unref_slots_spec l : forall q qs P Z0 s, wf D (l ++ P ++ R) (map fst qs ++ Z0) (cells s) -> Forall (obj_if (cells s)) l ->
  (live_cells (cells s) <= f)%nat -> queued (cells s) qs -> items q = map fst qs -> queues qs P Z0 s (unref_slots release l q s).
Proof.
  induction l as [|o l IH]; intros q qs P Z0 s HW Hol Hl Hqs Hq; cbn [unref_slots].
  { apply queues_same; [exact Hq|exact HW|reflexivity|exact Hqs]. }
  apply Forall_cons in Hol as [Ho Hol]; cbn [app] in HW; rewrite app_assoc in HW.
  destruct (unref_object_spec o q qs (l ++ P) Z0 s HW Ho Hl Hqs Hq) as (L & new & q1 & s1 & E1 & Hq1 & HW1 & HL1 & Hqs1 & Hl1 & Hp1).
  apply (queues_trans qs P (L ++ elements new ++ P) Z0 s s1 _ q1 new L _ E1 Hq1 HL1 Hl1 Hp1); [reflexivity|].
  apply IH; auto.
  - eapply wf_perm; [|reflexivity|exact HW1]; solve_Permutation.
  - eapply Forall_impl; [exact Hol|]; intros a; apply obj_if_lowers, HL1.
  - etransitivity; [apply lowers_live, HL1|exact Hl].
Qed.

Lemma free_queued_spec fuel : forall q qs P Z0 s, wf D (elements qs ++ P ++ R) (map fst qs ++ Z0) (cells s) ->
  (live_cells (cells s) <= f)%nat -> queued (cells s) qs -> items q = map fst qs -> (length qs + live_cells (cells s) < fuel)%nat ->
  exists L s', free_queued release fuel q s = Some (tt, s') /\ wf D (L ++ P ++ R) Z0 (cells s') /\ lowers (cells s) (cells s') /\ (plenty -> L = []).
Proof.
  induction fuel as [|fuel IH]; intros q qs P Z0 s HW Hl Hqs Hq Hf; [lia|]; cbn [free_queued]; rewrite Hq.
  destruct qs as [|[p l] qs]; cbn [map fst].
  { exists [], s; split; [reflexivity|split; [exact HW|split; reflexivity]]. }
  apply Forall_cons in Hqs as [[Hc Hol] Hqs]; cbn [fst snd] in Hc, Hol; unfold content in Hc.
  destruct (cells s !! p) as [[n c]|] eqn:E; [|discriminate]; injection Hc as ->.
  rewrite (SM_bind_Some _ _ _ l s) by (unfold get_package; rewrite (SM_bind_Some _ _ _ _ _ (get_cell_run _ _ _ E)); reflexivity).
  set (q0 := {| items := map fst qs; outside := outside q |}); unfold elements in HW; cbn [map snd concat fst] in HW; fold (elements qs) in HW.
  destruct (unref_slots_spec l q0 qs (elements qs ++ P) (p :: Z0) s) as (L & new & q1 & s1 & E1 & Hq1 & HW1 & HL1 & Hqs1 & Hl1 & Hp1); auto.
  { eapply wf_perm; [| |exact HW]; [rewrite <- !app_assoc; reflexivity|apply Permutation_middle]. }
  rewrite (SM_bind_Some _ _ _ _ _ E1).
  assert (HW2 : wf D ((L ++ elements (new ++ qs) ++ P) ++ R) (p :: map fst (new ++ qs) ++ Z0) (cells s1)).
  { eapply wf_perm; [| |exact HW1]; [rewrite elements_app, <- !app_assoc; reflexivity|symmetry; apply Permutation_middle]. }
  destruct (wf_kept _ _ _ _ HW2 p ltac:(left)) as [c Ep]; rewrite (SM_bind_Some _ _ _ _ _ (free_cell_run _ _ _ Ep)).
  destruct (del_wf D R guard _ _ _ p HW2) as [HW3 HL3]; set (s2 := set_cells (delete p (cells s1)) s1).
  assert (HL : lowers (cells s) (cells s2)) by (etransitivity; eassumption).
  assert (Hqs2 : queued (cells s2) (new ++ qs)).
  { eapply queued_lowers; [exact HL3|exact HW3|intros a Ha; apply elem_of_app; left; exact Ha|exact Hqs1]. }
  destruct (IH q1 (new ++ qs) (L ++ P) Z0 s2) as (L2 & s3 & E3 & HW4 & HL4 & Hp4); auto.
  - eapply wf_perm; [|reflexivity|exact HW3]; solve_Permutation.
  - etransitivity; [apply lowers_live, HL|exact Hl].
  - pose proof (lowers_live _ _ HL3); cbn [length] in Hf; rewrite length_app; change (cells s2) with (delete p (cells s1)); lia.
  - exists (L2 ++ L), s3; split; [exact E3|split; [rewrite <- !app_assoc in *; exact HW4|split; [etransitivity; eassumption|]]].
    intros HP; rewrite (Hp1 HP), (Hp4 HP); reflexivity.
Qed.

Lemma free_package_frees l : frees f (C_PACKAGE l) (free_package release).
Proof.
  intros p P Z0 s HW E Ht Hl; unfold free_package; rewrite (SM_bind_Some _ _ _ (S (size (cells s))) s) by reflexivity.
  rewrite (SM_bind_Some _ _ _ (true, {| items := [p]; outside := 0 |}) s) by reflexivity; cbn [snd].
  pose proof (typed_objects _ _ (wf_null _ _ _ _ HW) Ht) as Hol.
  apply (free_queued_spec _ _ [(p, l)]); [| lia | | reflexivity | cbn [length]; pose proof (live_size_lt _ _ _ E); lia].
  - unfold elements; cbn; rewrite app_nil_r; unfold pointers in HW; rewrite (nonnull_objects _ _ Hol) in HW; exact HW.
  - apply Forall_cons; split; [|constructor]; cbn [fst snd]; split; [unfold content; rewrite E; reflexivity|exact Hol].
Qed.
End Packages.

(** ** Objects *)

(** Storage behind an object with count zero. *)
Lemma storage_spec f p P Z0 (s : ost W) c do_free : wf D (nonnull [p] ++ P ++ R) Z0 (cells s) -> content (cells s) p = Some c ->
  (forall o, c <> C_OBJECT o) -> frees f c do_free -> (live_cells (cells s) <= f)%nat ->
  exists L s', shareable_unref_and_delete_if_last p do_free s = Some (tt, s') /\ wf D (L ++ P ++ R) Z0 (cells s') /\ lowers (cells s) (cells s') /\ (plenty -> L = []).
Proof.
  intros HW Hc Ho Hf Hl; assert (Hp : p <> 0) by (intros ->; unfold content in Hc; rewrite (wf_null _ _ _ _ HW) in Hc; discriminate).
  unfold content in Hc; destruct (cells s !! p) as [[n c']|] eqn:E; [|discriminate]; injection Hc as ->.
  unfold nonnull in HW; rewrite filter_cons_True in HW by exact Hp; exact (unref_delete_spec f p P Z0 s n c do_free HW E Ho Hf Hl).
Qed.

Lemma free_object_storage_spec f release o x n P Z0 s : releases f release ->
  wf D (own_pointers (C_OBJECT x) ++ P ++ R) Z0 (cells s) -> cells s !! o = Some (n, C_OBJECT x) ->
  typed (cells s) (C_OBJECT x) -> (live_cells (cells s) <= f)%nat ->
  exists L s', free_object_storage release o s = Some (tt, s') /\ wf D (L ++ P ++ R) Z0 (cells s') /\ lowers (cells s) (cells s') /\ (plenty -> L = []).
Proof.
  intros Hr HW E Ht Hl; unfold free_object_storage; rewrite (SM_bind_Some _ _ _ _ _ (get_object_run _ _ _ _ E)).
  unfold own_pointers in HW; cbn [passes_on] in HW; unfold is_reference, pointers, object_pointers in HW; cbn [typed] in Ht.
  destruct (o_type x); try (exists [], s; split; [reflexivity|split; [exact HW|split; reflexivity]]); try contradiction.
  all: try (destruct Ht as (p & Ep & d & m & Hb); rewrite Ep in *; rewrite (SM_bind_Some _ _ _ p s) by reflexivity;
            eapply storage_spec; [exact HW|exact Hb|discriminate|apply free_buffer_frees|exact Hl]).
  - destruct Ht as (p & l & Ep & Hb); rewrite Ep in *; rewrite (SM_bind_Some _ _ _ p s) by reflexivity.
    eapply storage_spec; [exact HW|exact Hb|discriminate|apply free_package_frees, Hr|exact Hl].
  - destruct Ht as (p & e & Ep & Hb); rewrite Ep in *; rewrite (SM_bind_Some _ _ _ p s) by reflexivity.
    eapply storage_spec; [exact HW|exact Hb|discriminate|apply free_event_frees|exact Hl].
  - destruct Ht as (p & e & Ep & Hb); rewrite Ep in *; rewrite (SM_bind_Some _ _ _ p s) by reflexivity.
    eapply storage_spec; [exact HW|exact Hb|discriminate|apply free_method_frees|exact Hl].
  - destruct Ht as (p & Ep & m & Hb); rewrite Ep in *; rewrite (SM_bind_Some _ _ _ p s) by reflexivity; unfold uacpi_mutex_unref.
    assert (Hp : p <> 0) by (intros ->; unfold content in Hb; rewrite (wf_null _ _ _ _ HW) in Hb; discriminate).
    rewrite (proj2 (Z.eqb_neq p 0) Hp); eapply storage_spec; [exact HW|exact Hb|discriminate|apply free_mutex_frees|exact Hl].
Qed.

Lemma free_object_releases f : releases f (free_object f).
Proof.
  induction f as [|f IH]; intros o x P Z0 s HW E Ht Hl; [lia|]; cbn [free_object]; unfold free_object_with.
  destruct (free_object_storage_spec f _ o x 0 P (o :: Z0) s IH HW E Ht ltac:(lia)) as (L & s1 & E1 & HW1 & HL1 & Hp1).
  rewrite (SM_bind_Some _ _ _ _ _ E1); exact (finish_free o P Z0 s s1 L HW1 HL1 Hp1).
Qed.

Lemma free_reference f o x n (s : ost W) : cells s !! o = Some (n, C_OBJECT x) -> is_reference x = true ->
  free_object (S f) o s = free_cell o s.
Proof.
  intros E Hr; cbn [free_object]; unfold free_object_with, free_object_storage.
  rewrite (SM_bind_Some _ _ _ tt s); [reflexivity|]; rewrite (SM_bind_Some _ _ _ _ _ (get_object_run _ _ _ _ E)).
  unfold is_reference in Hr; destruct (o_type x); try discriminate; reflexivity.
Qed.

(** ** Chains *)

(** The objects of a list whose count is zero, and what they still refer to. *)
Definition zeros (h : heap) (l : list Z) : list Z := filter (fun a => fst <$> h !! a = Some 0) l.

Definition due (h : heap) (a : Z) : list Z := match h !! a with Some (n, c) => if n =? 0 then own_pointers c else [] | None => [] end.
Definition dues (h : heap) (l : list Z) : list Z := concat (map (due h) l).

Lemma zeros_cons h a l n c : h !! a = Some (n, c) -> zeros h (a :: l) = (if n =? 0 then [a] else []) ++ zeros h l.
Proof.
  intros E; unfold zeros; rewrite filter_cons; case_decide as H; rewrite E in H; cbn in H.
  - injection H as ->; reflexivity.
  - destruct (Z.eqb_spec n 0) as [->|]; [congruence|reflexivity].
Qed.

Lemma dues_cons h a l n c : h !! a = Some (n, c) -> dues h (a :: l) = (if n =? 0 then own_pointers c else []) ++ dues h l.
Proof. intros E; unfold dues, due; cbn; rewrite E; reflexivity. Qed.

Lemma zeros_agree h h' l : (forall a, a ∈ l -> h' !! a = h !! a) -> zeros h' l = zeros h l /\ dues h' l = dues h l.
Proof.
  induction l as [|a l IH]; intros H; [split; reflexivity|]; destruct IH as [IH1 IH2]; [intros b Hb; apply H; right; exact Hb|].
  unfold zeros, dues in *; rewrite !filter_cons, IH1, (H a ltac:(left)); split; [reflexivity|]; cbn; rewrite IH2; unfold due at 1 3.
  rewrite (H a ltac:(left)); reflexivity.
Qed.

Lemma chain_same h h' a l : (forall b, b ∈ l -> content h' b = content h b) -> chain h a l -> chain h' a l.
Proof.
  intros Hl Hc; induction Hc as [|a o b l Ha E Hn _ IH]; [constructor|]; apply (chain_next h' a o b l Ha); [|exact Hn|].
  - rewrite Hl; [exact E|left].
  - apply IH; intros x Hx; apply Hl; right; exact Hx.
Qed.

(** The object below a reference is referred to at least as often. *)
Lemma below_count P Z0 h a n x b m c : wf D (b :: P ++ R) Z0 h -> a <> D -> h !! a = Some (n, C_OBJECT x) -> 0 < n ->
  next_in_chain x = Some b -> b <> 0 -> h !! b = Some (m, c) -> n < m.
Proof.
  intros HW HaD E Hn Hb Hb0 Em; destruct (wf_count _ _ _ _ HW b m c Em) as [Hm _]; cbn [occ] in Hm; rewrite Z.eqb_refl in Hm.
  assert (Er : is_reference x = true) by (destruct (is_reference x) eqn:Er; [reflexivity|]; rewrite (plain_next x b Er Hb) in Hb0; congruence).
  pose proof (msum_ge _ h a _ E (holders_part D h b)) as Hge; cbn [fst snd] in Hge; fold (holders D h b) in Hge.
  rewrite (proj2 (Z.eqb_neq a D) HaD), (proj2 (Z.leb_gt n 0) Hn) in Hge; cbn [orb] in Hge; unfold held_by in Hge; cbn [passes_on] in Hge.
  rewrite Er, (reference_pointers x b Er Hb), occ_nonnull in Hge by exact Hb0; cbn [occ] in Hge; rewrite Z.eqb_refl in Hge.
  pose proof (occ_nonneg b (P ++ R)); lia.
Qed.

Lemma unref_chain_run l : forall fuel o P Z0 (s : ost W), wf D (nonnull [o] ++ P ++ R) Z0 (cells s) -> chain (cells s) o l -> (length l < fuel)%nat ->
  exists s', unref_chain fuel o s = Some (true, s') /\
    wf D (dues (cells s') l ++ P ++ R) (zeros (cells s') l ++ Z0) (cells s') /\ lowers (cells s) (cells s') /\
    same_content (cells s) (cells s') /\ (forall a, a ∉ l -> cells s' !! a = cells s !! a) /\
    (forall a, a ∈ l -> exists n x, cells s !! a = Some (n, C_OBJECT x) /\ cells s' !! a = Some (n - 1, C_OBJECT x) /\ 0 < n /\ (n = 1 -> a <> D)) /\
    (forall n c, cells s !! o = Some (n, c) -> 1 < n -> zeros (cells s') l = [] /\ dues (cells s') l = []).
Proof.
  induction l as [|o' l IH]; intros [|fuel] o P Z0 s HW Hc Hf; cbn in Hf; try lia; cbn [unref_chain].
  { inversion Hc; subst; exists s; split; [reflexivity|split; [exact HW|split; [reflexivity|]]].
    split; [intros a; reflexivity|split; [reflexivity|split; [intros a Ha%not_elem_of_nil; destruct Ha|split; reflexivity]]]. }
  pose proof (chain_nodup _ _ _ Hc) as Hnd; apply NoDup_cons in Hnd as [Hnl _].
  inversion Hc as [|a x b l' Ha Ex Hb Hc']; subst o' l' a; rewrite (proj2 (Z.eqb_neq o 0) Ha).
  unfold nonnull in HW; rewrite filter_cons_True in HW by exact Ha; cbn [app filter list_filter] in HW.
  unfold content in Ex; destruct (cells s !! o) as [[n c]|] eqn:E; [|discriminate]; injection Ex as ->.
  destruct (dec_object P _ _ o n x b HW E Hb) as (HW1 & HL1 & Hn & HD).
  rewrite (SM_bind_Some _ _ _ _ _ (bugged_run _ _ _ _ E Hn)), (SM_bind_Some _ _ _ _ _ (unref_run _ _ _ _ E Hn)).
  set (s1 := set_cells (<[o := (n - 1, C_OBJECT x)]> (cells s)) s).
  assert (Eo : cells s1 !! o = Some (n - 1, C_OBJECT x)) by apply lookup_insert_eq.
  rewrite (SM_bind_Some _ _ _ _ _ (get_object_run _ _ _ _ Eo)), Hb, (SM_bind_Some _ _ _ b s1) by reflexivity.
  assert (HC1 : same_content (cells s) (cells s1)) by (apply content_insert with n, E).
  destruct (IH fuel b ((if n =? 1 then own_pointers (C_OBJECT x) else []) ++ P) (if n =? 1 then o :: Z0 else Z0) s1) as (s2 & E2 & HW2 & HL2 & HC2 & HO2 & HX2 & HG2).
  { rewrite <- !app_assoc in *; exact HW1. }
  { apply (chain_same (cells s)); [intros y _; apply HC1|exact Hc']. }
  { lia. }
  exists s2; split; [exact E2|]; rewrite <- (HO2 o Hnl) in Eo; rewrite (zeros_cons _ _ _ _ _ Eo), (dues_cons _ _ _ _ _ Eo).
  replace (n - 1 =? 0) with (n =? 1) by (destruct (Z.eqb_spec n 1), (Z.eqb_spec (n - 1) 0); lia).
  split; [|split; [etransitivity; eassumption|split; [intros a; rewrite HC2; apply HC1|split; [|split]]]].
  - eapply wf_perm; [| |exact HW2]; destruct (n =? 1); solve_Permutation.
  - intros a Hal; apply not_elem_of_cons in Hal as [Hao Hal]; rewrite (HO2 a Hal); apply lookup_insert_ne; congruence.
  - intros a Hal; apply elem_of_cons in Hal as [->|Hal]; [exists n, x; auto 6 with lia|].
    destruct (HX2 a Hal) as (k & y & Ek & Ek' & Hk & HkD); exists k, y; unfold s1 in Ek; cbn in Ek.
    rewrite lookup_insert_ne in Ek by (intros ->; contradiction); auto.
  - intros n' c' [= <- <-] Hn1; rewrite (proj2 (Z.eqb_neq n 1)) by lia; cbn [app].
    destruct (decide (b = 0)) as [->|Hb0]; [inversion Hc'; subst; [split; reflexivity|congruence]|].
    inversion Hc' as [|? y ? ? _ Ey _ _]; subst; [congruence|]; unfold content in Ey.
    rewrite (proj2 (Z.eqb_neq n 1)) in HW1 by lia; rewrite app_nil_r in HW1; unfold nonnull in HW1.
    rewrite filter_cons_True in HW1 by exact Hb0; cbn [app filter list_filter] in HW1.
    destruct (cells s1 !! b) as [[m c]|] eqn:Em.
    2: { destruct (root_live _ _ _ _ b HW1 ltac:(left)) as (? & ? & Ebb & _); unfold s1 in Em; cbn in Em; congruence. }
    apply (HG2 m c eq_refl); destruct (decide (o = D)) as [HoD|HoD].
    + exfalso; apply Hb0; exact (stale_next (o :: P) Z0 (cells s) o n x b HW E HoD Hb).
    + assert (n - 1 < m); [|lia]; eapply below_count; [exact HW1|exact HoD|apply lookup_insert_eq|lia|exact Hb|exact Hb0|exact Em].
Qed.

Lemma free_chain_spec f l : forall fuel o P Z0 (s : ost W), wf D (dues (cells s) l ++ P ++ R) (zeros (cells s) l ++ Z0) (cells s) ->
  chain (cells s) o l -> (length l < fuel)%nat -> (live_cells (cells s) < S f)%nat ->
  (forall a x, a ∈ l -> cells s !! a = Some (0, C_OBJECT x) -> is_reference x = false -> typed (cells s) (C_OBJECT x)) ->
  exists L s', free_chain (free_object (S f)) fuel o s = Some (tt, s') /\ wf D (L ++ P ++ R) Z0 (cells s') /\ lowers (cells s) (cells s') /\ (plenty -> L = []).
Proof.
  induction l as [|o' l IH]; intros [|fuel] o P Z0 s HW Hc Hf Hl Ht; cbn in Hf; try lia; cbn [free_chain].
  { inversion Hc; subst; exists [], s; split; [reflexivity|split; [exact HW|split; [reflexivity|reflexivity]]]. }
  pose proof (chain_nodup _ _ _ Hc) as Hnd; apply NoDup_cons in Hnd as [Hnl _].
  inversion Hc as [|a x b l' Ha Ex Hb Hc']; subst o' l' a; rewrite (proj2 (Z.eqb_neq o 0) Ha).
  unfold content in Ex; destruct (cells s !! o) as [[n c]|] eqn:E; [|discriminate]; injection Ex as ->.
  rewrite (SM_bind_Some _ _ _ _ _ (get_object_run _ _ _ _ E)), Hb, (SM_bind_Some _ _ _ b s) by reflexivity.
  rewrite (SM_bind_Some _ _ _ _ _ (refcount_run _ _ _ _ E)).
  rewrite (zeros_cons _ _ _ _ _ E), (dues_cons _ _ _ _ _ E) in HW; destruct (Z.eqb_spec n 0) as [->|Hn0].
  2: { destruct (IH fuel b P Z0 s HW Hc' ltac:(lia) Hl) as (L & s2 & E2 & R2); [intros y z Hy; apply Ht; right; exact Hy|].
       exists L, s2; split; [exact E2|exact R2]. }
  destruct (is_reference x) eqn:Er.
  - rewrite (SM_bind_Some _ _ _ tt (set_cells (delete o (cells s)) s)) by (rewrite (free_reference f o x 0 s E Er); apply (free_cell_run _ _ _ E)).
    unfold own_pointers in HW; cbn [passes_on] in HW; rewrite Er in HW; cbn [app] in HW; rewrite app_assoc in HW.
    destruct (del_wf D R guard _ _ _ o HW) as [HW1 HL1]; set (s1 := set_cells (delete o (cells s)) s); rewrite <- app_assoc in HW1.
    assert (HO : forall y, y <> o -> cells s1 !! y = cells s !! y) by (intros; apply lookup_delete_ne; congruence).
    assert (Hne : forall y, y ∈ l -> y <> o) by (intros y Hy ->; contradiction).
    destruct (zeros_agree (cells s) (cells s1) l) as [Hz Hd]; [intros y Hy; apply HO, Hne, Hy|].
    destruct (IH fuel b P Z0 s1) as (L & s2 & E2 & HW2 & HL2 & Hp2).
    + rewrite Hz, Hd; exact HW1.
    + apply (chain_same (cells s)); [|exact Hc']; intros y Hy; unfold content; rewrite HO by (apply Hne, Hy); reflexivity.
    + lia.
    + eapply Nat.le_lt_trans; [apply lowers_live, HL1|exact Hl].
    + intros y z Hy Ez Ezr; rewrite HO in Ez by (apply Hne, Hy); apply (typed_content (cells s)); [|apply HW|apply (Ht y z ltac:(right; exact Hy) Ez Ezr)].
      intros p Hp; unfold content; rewrite HO; [reflexivity|]; intros ->.
      assert (Hin : o ∈ dues (cells s) l).
      { unfold dues; apply list_elem_of_In, in_concat; exists (due (cells s) y); split; [apply in_map, list_elem_of_In, Hy|].
        unfold due; rewrite Ez; cbn [Z.eqb]; apply list_elem_of_In; unfold own_pointers; cbn [passes_on]; rewrite Ezr; exact Hp. }
      destruct (root_live _ _ _ _ o HW) as (m & c & Em & Hm); [rewrite <- app_assoc; apply elem_of_app; left; exact Hin|].
      rewrite E in Em; injection Em as <- _; lia.
    + exists L, s2; split; [exact E2|split; [exact HW2|split; [etransitivity; eassumption|exact Hp2]]].
  - assert (b = 0) as -> by exact (plain_next x b Er Hb); inversion Hc' as [|]; subst; [|congruence].
    change (dues (cells s) []) with (@nil Z) in HW; change (zeros (cells s) []) with (@nil Z) in HW; rewrite app_nil_r in HW.
    destruct (free_object_releases (S f) o x P Z0 s HW E (Ht o x ltac:(left) E Er) Hl) as (L & s1 & E1 & HW1 & R1).
    rewrite (SM_bind_Some _ _ _ _ _ E1); exists L, s1; split; [|split; [exact HW1|exact R1]].
    destruct fuel; [cbn in Hf; lia|reflexivity].
Qed.

Lemma object_unref_spec f o P Z0 (s : ost W) : wf D (nonnull [o] ++ P ++ R) Z0 (cells s) -> (o = 0 \/ is_object (cells s) o) ->
  (live_cells (cells s) <= f)%nat ->
  exists L s', object_unref (free_object (S f)) o s = Some (tt, s') /\ wf D (L ++ P ++ R) Z0 (cells s') /\ lowers (cells s) (cells s') /\ (plenty -> L = []).
Proof.
  intros HW Ho Hl; unfold object_unref; destruct (Z.eqb_spec o 0) as [->|Ho0].
  { exists [], s; split; [reflexivity|split; [exact HW|split; reflexivity]]. }
  destruct Ho as [|[x Hx]]; [contradiction|]; unfold content in Hx; destruct (cells s !! o) as [[n c]|] eqn:E; [|discriminate]; injection Hx as ->.
  assert (HN : nonnull [o] = [o]) by (unfold nonnull; rewrite filter_cons_True by exact Ho0; reflexivity).
  assert (Hn : 0 < n) by (rewrite HN in HW; destruct (root_live _ _ _ _ o HW ltac:(left)) as (m & c & Em & Hm); rewrite E in Em; injection Em as <- _; lia).
  destruct (wf_chain _ _ _ _ HW o n x E Hn) as [l Hc]; pose proof (chain_size _ _ _ Hc) as Hsz.
  rewrite (SM_bind_Some _ _ _ (S (size (cells s))) s) by reflexivity.
  destruct (unref_chain_run l (S (size (cells s))) o P Z0 s HW Hc ltac:(lia)) as (s1 & E1 & HW1 & HL1 & HC1 & HO1 & HX1 & HG1).
  rewrite (SM_bind_Some _ _ _ _ _ E1); cbn [negb].
  assert (Hol : o ∈ l) by (destruct Hc; [congruence|left]).
  destruct (HX1 o Hol) as (n' & x' & En & E2 & _ & _); rewrite E in En; injection En as <- <-.
  rewrite (SM_bind_Some _ _ _ _ _ (refcount_run _ _ _ _ E2)); destruct (Z.eqb_spec (n - 1) 0) as [Hm|Hm].
  - destruct (free_chain_spec f l (S (size (cells s))) o P Z0 s1) as (L & s2 & E3 & HW3 & HL3 & Hp3); [exact HW1| |lia| | |].
    + apply (chain_same (cells s)); [intros y _; apply HC1|exact Hc].
    + pose proof (lowers_live _ _ HL1); lia.
    + intros a y Ha Ea _; destruct (HX1 a Ha) as (k & z & Ek & Ek' & Hk & HkD); rewrite Ea in Ek'; injection Ek' as Hk1 <-.
      apply (typed_content (cells s)); [intros p _; apply HC1|apply HW|apply (wf_typed _ _ _ _ HW a k _ (HkD ltac:(lia)) Ek Hk)].
    + exists L, s2; split; [exact E3|split; [exact HW3|split; [etransitivity; eassumption|exact Hp3]]].
  - destruct (HG1 n _ E ltac:(lia)) as [Hz Hd]; rewrite Hz, Hd in HW1.
    exists [], s1; split; [reflexivity|split; [exact HW1|split; [exact HL1|reflexivity]]].
Qed.
End Release.
