(* ===== verification/ObjRefs.v ===== *)
(** * Objects: taking references and changing contents

    How a well-formed heap changes when a reference is taken, when a cell is new and when
    an object gives up what it refers to or takes something over. *)

From S2P Require Import Prelude UCore Shareable Objects ObjCount ObjFree.

Open Scope word_scope.

(** ** Counts that rise *)

Definition bump1 (x : Z * cell) : Z * cell := (fst x + 1, snd x).

(** One more reference to each of [l]. *)
Fixpoint bump (l : list Z) (h : heap) : heap := match l with [] => h | a :: l' => alter bump1 a (bump l' h) end.

Lemma bump_alter l a h : bump l (alter bump1 a h) = alter bump1 a (bump l h).
Proof.
  induction l as [|b l IH]; [reflexivity|]; cbn; rewrite IH; destruct (decide (a = b)) as [->|H]; [reflexivity|apply alter_alter_ne; congruence].
Qed.

Lemma bump_other l h a : a ∉ l -> bump l h !! a = h !! a.
Proof.
  induction l as [|b l IH]; intros H; [reflexivity|]; apply not_elem_of_cons in H as [Hb Hl]; cbn; rewrite lookup_alter_ne by congruence; apply IH, Hl.
Qed.

Lemma bump_insert l h a x : a ∉ l -> bump l (<[a := x]> h) = <[a := x]> (bump l h).
Proof.
  induction l as [|b l IH]; intros H; [reflexivity|]; apply not_elem_of_cons in H as [Hb Hl]; cbn; rewrite IH by exact Hl.
  apply alter_insert_ne; congruence.
Qed.

Lemma bump_content l h : same_content h (bump l h).
Proof.
  induction l as [|b l IH]; intros a; [reflexivity|]; cbn; rewrite <- IH; unfold content; destruct (decide (b = a)) as [->|H].
  - rewrite lookup_alter_eq; destruct (bump l h !! a) as [[n c]|]; reflexivity.
  - rewrite lookup_alter_ne by exact H; reflexivity.
Qed.

Lemma bump_lookup l h a n c : bump l h !! a = Some (n, c) -> exists m, h !! a = Some (m, c) /\ m <= n.
Proof.
  revert n; induction l as [|b l IH]; intros n E; [exists n; split; [exact E|lia]|]; cbn in E.
  destruct (decide (b = a)) as [->|H].
  - rewrite lookup_alter_eq in E; destruct (bump l h !! a) as [[m d]|] eqn:Em; [|discriminate]; cbn in E; injection E as <- <-.
    destruct (IH m eq_refl) as (k & Ek & ?); exists k; split; [exact Ek|lia].
  - rewrite lookup_alter_ne in E by exact H; apply IH, E.
Qed.

(** Counts stay below the reserved value when [k] more references are taken. *)
Definition room (k : Z) (h : heap) : Prop := forall a n c, h !! a = Some (n, c) -> n + k < BUGGED_REFCOUNT.

Lemma occ_nodup a l : NoDup l -> occ a l <= 1.
Proof.
  induction 1 as [|b l Hb Hl IH]; cbn; [lia|]; destruct (Z.eqb_spec b a) as [->|]; [|lia]; rewrite (occ_zero a l Hb); lia.
Qed.

Lemma bump_count l h a n c : h !! a = Some (n, c) -> bump l h !! a = Some (n + occ a l, c).
Proof.
  intros E; induction l as [|b l IH]; cbn; [rewrite E; do 2 f_equal; lia|]; destruct (Z.eqb_spec b a) as [->|H].
  - rewrite lookup_alter_eq, IH; cbn; unfold bump1; cbn; do 2 f_equal; lia.
  - rewrite lookup_alter_ne, IH by exact H; do 2 f_equal; lia.
Qed.

Lemma bump_room k l h : NoDup l -> room (k + 1) h -> room k (bump l h).
Proof.
  intros Hl Hr a n c E; destruct (bump_lookup l h a n c E) as (m & Em & _); rewrite (bump_count l h a m c Em) in E; injection E as <-.
  pose proof (Hr a m c Em); pose proof (occ_nodup a l Hl); lia.
Qed.

(** The objects of [l] can take [k] more references. *)
Definition steady (k : Z) (h : heap) (l : list Z) : Prop := forall a, a ∈ l -> exists n x, h !! a = Some (n, C_OBJECT x) /\ 0 < n /\ n + k < BUGGED_REFCOUNT.

Lemma steady_le k k' h l : k' <= k -> steady k h l -> steady k' h l.
Proof. intros Hk H a Ha; destruct (H a Ha) as (n & x & E & ? & ?); exists n, x; split; [exact E|lia]. Qed.

Lemma steady_bump k h l : NoDup l -> steady (k + 1) h l -> steady k (bump l h) l.
Proof.
  intros Hl H a Ha; destruct (H a Ha) as (n & x & E & ? & ?); exists (n + occ a l), x; split; [apply bump_count, E|].
  pose proof (occ_nodup a l Hl); pose proof (occ_nonneg a l); lia.
Qed.

Section Counts.
Context {MEM : Memory} (D : Z).

Lemma holders_inc (h : heap) a n c x : h !! a = Some (n, c) -> 0 < n ->
  holders D (<[a := (n + 1, c)]> h) x = holders D h x + (if (a =? D) || negb (passes_on c) then 0 else occ x (pointers c)).
Proof.
  intros E Hn; unfold holders; rewrite (msum_update _ h a (n, c) (n + 1, c) E); cbn [fst snd].
  rewrite (proj2 (Z.leb_gt n 0)), (proj2 (Z.leb_gt (n + 1) 0)) by lia; destruct (a =? D); cbn [orb]; [lia|].
  unfold held_by; destruct (passes_on c); cbn [negb]; lia.
Qed.

(** A reference to an object takes over one to the object below it. *)
Definition below (c : cell) : option Z := match c with C_OBJECT x => next_in_chain x | _ => Some 0 end.

Lemma inc_wf R Z0 h a n c0 b : wf D (nonnull [b] ++ R) Z0 h -> h !! a = Some (n, c0) -> 0 < n -> n + 1 < BUGGED_REFCOUNT ->
  below c0 = Some b -> wf D (a :: R) Z0 (alter bump1 a h).
Proof.
  intros [W1 W2 W3 W4 W5 W6 W7 W8 W9] E Hn Hb Hx.
  assert (Hal : alter bump1 a h = <[a := (n + 1, c0)]> h).
  { apply map_eq; intros y; destruct (decide (a = y)) as [->|Hy].
    - rewrite lookup_alter_eq, lookup_insert_eq, E; reflexivity.
    - rewrite lookup_alter_ne, lookup_insert_ne by exact Hy; reflexivity. }
  rewrite Hal; set (h' := <[a := (n + 1, c0)]> h).
  assert (Ha0 : a <> 0) by (intros ->; congruence).
  assert (HC : same_content h h') by (apply content_insert with n, E).
  assert (HO : forall y, a <> y -> h' !! y = h !! y) by (intros; apply lookup_insert_ne; assumption).
  assert (HA : h' !! a = Some (n + 1, c0)) by apply lookup_insert_eq.
  assert (HD : a = D -> b = 0).
  { intros HaD; assert (HD : D <> 0) by congruence; destruct (W6 HD) as (m & o & Em & Ho); rewrite HaD, Em in E; injection E as -> <-; cbn in Hx; congruence. }
  assert (HH : forall y, y <> 0 -> occ y (nonnull [b]) + holders D h y = holders D h' y).
  { intros y Hy; unfold h'; rewrite (holders_inc h a n _ y E Hn).
    assert (Hz : b = 0 -> occ y (nonnull [b]) = 0) by (intros ->; reflexivity).
    destruct (Z.eqb_spec a D) as [HaD|HaD]; cbn [orb]; [rewrite Hz by auto; lia|].
    destruct c0 as [x| | | | | | | | |]; cbn [passes_on below] in *; cbn [negb]; try (rewrite Hz by congruence; lia).
    destruct (is_reference x) eqn:Er; cbn [negb].
    - rewrite (reference_pointers x b Er Hx); lia.
    - rewrite Hz by exact (plain_next x b Er Hx); lia. }
  assert (HX : forall y m c, h' !! y = Some (m, c) -> 0 < m -> exists k, h !! y = Some (k, c) /\ 0 < k).
  { intros y m c Ey Hm; destruct (decide (a = y)) as [<-|Hy]; [rewrite HA in Ey; injection Ey as _ <-; eauto|].
    rewrite HO in Ey by exact Hy; eauto. }
  constructor.
  - rewrite HO by exact Ha0; exact W1.
  - intros y m c Ey; assert (Hy0 : y <> 0) by (intros ->; rewrite HO in Ey by congruence; congruence); rewrite <- (HH y Hy0); cbn [occ].
    destruct (Z.eqb_spec a y) as [<-|Hy].
    + rewrite HA in Ey; injection Ey as <- <-; destruct (W2 a n _ E) as [Hc _]; rewrite occ_app in Hc; lia.
    + rewrite HO in Ey by exact Hy; destruct (W2 y m c Ey) as [Hc ?]; rewrite occ_app in Hc; lia.
  - intros y Hy; apply elem_of_cons in Hy as [->|Hy]; [rewrite HA; eauto|].
    destruct (decide (a = y)) as [<-|Hne]; [rewrite HA; eauto|rewrite HO by exact Hne]; apply W3, elem_of_app; right; exact Hy.
  - intros y m c HyD Ey Hm; destruct (HX y m c Ey Hm) as (k & Ek & Hk); apply (typed_content h); [intros p _; apply HC|exact W1|eauto].
  - intros y m o Ey Hm; destruct (HX y m _ Ey Hm) as (k & Ek & Hk); destruct (W5 y k o Ek Hk) as [l Hl].
    exists l; apply (chain_same h); [intros z _; apply HC|exact Hl].
  - intros HD0; destruct (W6 HD0) as (m & o & Em & Ho); destruct (decide (a = D)) as [HaD|Hne].
    + exists (n + 1), o; rewrite <- HaD; rewrite HaD, Em in E; injection E as -> <-; auto.
    + exists m, o; rewrite HO by exact Hne; auto.
  - intros y c Ey; destruct (decide (a = y)) as [<-|Hne]; [rewrite HA in Ey; injection Ey as; lia|rewrite HO in Ey by exact Hne; apply (W7 y c Ey)].
  - intros y Hy; destruct (W8 y Hy) as [c Ec]; exists c; rewrite HO; [exact Ec|intros ->; rewrite E in Ec; injection Ec as; lia].
  - exact W9.
Qed.

(** A reference to every object of a chain. *)
Lemma bump_wf R Z0 h o l : wf D R Z0 h -> chain h o l -> steady 1 h l -> wf D (nonnull [o] ++ R) Z0 (bump l h).
Proof.
  intros HW Hc; induction Hc as [|a x b l Ha E Hn Hc IH]; intros Hl; [exact HW|].
  assert (Hnd : a ∉ l) by (pose proof (chain_nodup h a (a :: l)) as Hnd; apply NoDup_cons in Hnd as [? _]; [assumption|econstructor; eassumption]).
  unfold nonnull; rewrite filter_cons_True by exact Ha; cbn [app bump filter list_filter].
  unfold content in E; destruct (h !! a) as [[n c]|] eqn:Ea; [|discriminate]; injection E as ->.
  destruct (Hl a ltac:(left)) as (n' & x' & Ea' & H0 & H1); rewrite Ea in Ea'; injection Ea' as <- <-.
  eapply inc_wf; [|rewrite bump_other by exact Hnd; exact Ea|lia|lia|exact Hn].
  apply IH; intros y Hy; apply Hl; right; exact Hy.
Qed.

(** Objects below a live one are alive. *)
Lemma chain_live R Z0 h o l : wf D R Z0 h -> chain h o l -> (forall n c, h !! o = Some (n, c) -> 0 < n) ->
  forall a n c, a ∈ l -> h !! a = Some (n, c) -> 0 < n.
Proof.
  intros HW Hc; induction Hc as [|o x b l Ho E Hn Hc IH]; intros Hlo a n c Hal Ea; [apply not_elem_of_nil in Hal; destruct Hal|].
  unfold content in E; destruct (h !! o) as [[m d]|] eqn:Eo; [|discriminate]; injection E as ->.
  apply elem_of_cons in Hal as [->|Hal]; [apply (Hlo n c); rewrite <- Eo; exact Ea|].
  apply (IH) with a c; [|exact Hal|exact Ea]; intros k d Ek.
  assert (Hb0 : b <> 0) by (intros ->; rewrite (wf_null _ _ _ _ HW) in Ek; discriminate).
  assert (Er : is_reference x = true) by (destruct (is_reference x) eqn:Er; [reflexivity|]; rewrite (plain_next x b Er Hn) in Hb0; congruence).
  assert (HoD : o <> D).
  { intros ->; destruct (wf_stale _ _ _ _ HW Ho) as (m' & o' & Em & Hx); rewrite Eo in Em; injection Em as -> ->; congruence. }
  eapply (pointed_live D); [exact HW|exact HoD|exact Eo|apply (Hlo m _ eq_refl)| |exact Ek].
  rewrite (reference_pointers x b Er Hn); apply list_elem_of_filter; split; [exact Hb0|left].
Qed.
End Counts.

(** ** Contents that change *)

Lemma msum_ext {A} (f g : Z -> A -> Z) (m : gmap Z A) : (forall k a, m !! k = Some a -> f k a = g k a) -> msum f m = msum g m.
Proof.
  induction m as [|k a m Hk IH] using map_ind; intros H; [reflexivity|]; rewrite !msum_insert by exact Hk.
  rewrite (H k a (lookup_insert_eq _ _ _)), IH; [reflexivity|]; intros k' a' E; apply H; rewrite lookup_insert_ne; [exact E|congruence].
Qed.

(** What a cell with count [n] refers to, as often as it counts. *)
Definition acquires (n : Z) (c : cell) : list Z := if passes_on c then concat (replicate (Z.to_nat n) (pointers c)) else pointers c.

Lemma occ_acquires n c x : 0 <= n -> occ x (acquires n c) = held_by n c x.
Proof.
  intros Hn; unfold acquires, held_by; destruct (passes_on c); [|lia]; rewrite <- (Z2Nat.id n Hn) at 2.
  induction (Z.to_nat n) as [|k IH]; cbn [replicate concat]; [cbn; lia|]; rewrite occ_app, IH; lia.
Qed.

Lemma in_acquires n c x : x ∈ acquires n c -> x ∈ pointers c.
Proof.
  unfold acquires; destruct (passes_on c); [|auto]; intros H%list_elem_of_In; apply in_concat in H as (l & Hl%list_elem_of_In & Hx%list_elem_of_In).
  apply elem_of_replicate in Hl as [-> _]; exact Hx.
Qed.

(** Objects may turn into objects. *)
Definition same_kind (h h' : heap) : Prop := forall a c, content h a = Some c ->
  content h' a = Some c \/ exists o o', c = C_OBJECT o /\ content h' a = Some (C_OBJECT o').

Lemma kind_object h h' a : same_kind h h' -> is_object h a -> is_object h' a.
Proof. intros HK [o Ho]; destruct (HK a _ Ho) as [H|(o1 & o2 & _ & H)]; eexists; exact H. Qed.

Lemma kind_other h h' a c : same_kind h h' -> content h a = Some c -> (forall o, c <> C_OBJECT o) -> content h' a = Some c.
Proof. intros HK E Hc; destruct (HK a _ E) as [H|(o1 & o2 & H & _)]; [exact H|exfalso; exact (Hc o1 H)]. Qed.

Lemma typed_kind h h' c : same_kind h h' -> typed h c -> typed h' c.
Proof.
  intros HK; assert (HB : forall p, is_buffer h p -> is_buffer h' p).
  { intros p (d & n & H); exists d, n; apply (kind_other h h' p _ HK H); discriminate. }
  assert (HM : forall p, is_mutex h p -> is_mutex h' p).
  { intros p (m & H); exists m; apply (kind_other h h' p _ HK H); discriminate. }
  destruct c as [o| | l | | |m| | | |]; cbn [typed]; auto.
  - destruct (o_type o); auto.
    1, 2: intros (p & E & H); eauto.
    + intros (p & l & E & H); exists p, l; split; [exact E|apply (kind_other h h' p _ HK H); discriminate].
    + intros (p & e & E & H); exists p, e; split; [exact E|apply (kind_other h h' p _ HK H); discriminate].
    + intros (p & m & E & H); exists p, m; split; [exact E|apply (kind_other h h' p _ HK H); discriminate].
    + intros (p & E & H); eauto.
    + intros (f & E & H); eauto.
    + intros (p & E & [H|H]); exists p; split; [exact E|left; exact H|exact E|right; exact (kind_object h h' p HK H)].
    + intros (i & E & H); eauto.
  - intros H; eapply Forall_impl; [exact H|]; intros a; apply kind_object, HK.
  - intros [H|H]; [left; exact H|right; apply HM, H].
Qed.

Lemma insert_kind (h : heap) a n m o o' : h !! a = Some (n, C_OBJECT o) -> same_kind h (<[a := (m, C_OBJECT o')]> h).
Proof.
  intros E b c Hb; unfold content in *; destruct (decide (a = b)) as [<-|H].
  - rewrite E in Hb; injection Hb as <-; right; exists o, o'; rewrite lookup_insert_eq; auto.
  - rewrite lookup_insert_ne by exact H; left; exact Hb.
Qed.

Section Contents.
Context {MEM : Memory}.

(** The object [D] gives up what it refers to. *)
Lemma enter_wf R Z0 h D n x x' : wf 0 R Z0 h -> h !! D = Some (n, C_OBJECT x) -> 0 < n -> next_in_chain x' = Some 0 ->
  wf D (acquires n (C_OBJECT x) ++ R) Z0 (<[D := (n, C_OBJECT x')]> h).
Proof.
  intros [W1 W2 W3 W4 W5 W6 W7 W8 W9] E Hn Hx; set (h' := <[D := (n, C_OBJECT x')]> h).
  assert (HD : D <> 0) by (intros ->; congruence).
  assert (HK : same_kind h h') by (apply insert_kind with n x, E).
  assert (HO : forall y, D <> y -> h' !! y = h !! y) by (intros; apply lookup_insert_ne; assumption).
  assert (HA : h' !! D = Some (n, C_OBJECT x')) by apply lookup_insert_eq.
  assert (HH : forall y, holders 0 h y = occ y (acquires n (C_OBJECT x)) + holders D h' y).
  { intros y; unfold holders, h'; rewrite (msum_delete _ h D _ E), <- insert_delete_eq, msum_insert by apply lookup_delete_eq; cbn [fst snd].
    rewrite (proj2 (Z.eqb_neq D 0) HD), (proj2 (Z.leb_gt n 0) Hn), Z.eqb_refl, occ_acquires by lia; cbn [orb]; f_equal.
    rewrite Z.add_0_l; apply msum_ext; intros k [m c] [Hk Ek]%lookup_delete_Some; cbn [fst snd].
    rewrite (proj2 (Z.eqb_neq k 0)), (proj2 (Z.eqb_neq k D)) by congruence; reflexivity. }
  constructor.
  - rewrite HO by exact HD; exact W1.
  - intros y m c Ey; rewrite occ_app; destruct (decide (D = y)) as [<-|Hy].
    + rewrite HA in Ey; injection Ey as <- <-; destruct (W2 D n _ E) as [Hc ?]; rewrite HH in Hc; lia.
    + rewrite HO in Ey by exact Hy; destruct (W2 y m c Ey) as [Hc ?]; rewrite HH in Hc; lia.
  - intros y Hy; assert (HS : is_Some (h !! y)).
    { apply elem_of_app in Hy as [Hy|Hy]; [|apply W3, Hy]; apply in_acquires in Hy.
      destruct (typed_pointers h _ y (W4 D n _ HD E Hn) Hy) as [c Hc]; unfold content in Hc; destruct (h !! y); [eauto|discriminate]. }
    destruct (decide (D = y)) as [<-|Hne]; [rewrite HA; eauto|rewrite HO by exact Hne; exact HS].
  - intros y m c HyD Ey Hm; rewrite HO in Ey by congruence; apply (typed_kind h h' c HK), (W4 y m c); [intros ->; congruence|exact Ey|exact Hm].
  - intros y m o Ey Hm; assert (HE : exists k o', h !! y = Some (k, C_OBJECT o') /\ 0 < k).
    { destruct (decide (D = y)) as [<-|Hne]; [eauto|rewrite HO in Ey by exact Hne; eauto]. }
    destruct HE as (k & o' & Ek & Hk); destruct (W5 y k o' Ek Hk) as [l Hl]; clear -Hl HD HA HO Hx.
    induction Hl as [|a z b l Ha Ez Hz _ [l' IH]]; [exists []; constructor|]; destruct (decide (D = a)) as [<-|Hne].
    + exists [D]; econstructor; [exact Ha|unfold content; rewrite HA; reflexivity|exact Hx|constructor].
    + exists (a :: l'); econstructor; [exact Ha|unfold content; rewrite HO by exact Hne; exact Ez|exact Hz|exact IH].
  - intros _; exists n, x'; auto.
  - intros y c Ey; destruct (decide (D = y)) as [<-|Hne]; [rewrite HA in Ey; injection Ey as; lia|rewrite HO in Ey by exact Hne; apply (W7 y c Ey)].
  - intros y Hy; destruct (W8 y Hy) as [c Ec]; exists c; rewrite HO; [exact Ec|intros ->; rewrite E in Ec; injection Ec as; lia].
  - exact W9.
Qed.

(** The object [D] takes references over. *)
Lemma leave_wf R Z0 h D n c0 x' b l : D <> 0 -> wf D (acquires n (C_OBJECT x') ++ R) Z0 h -> h !! D = Some (n, c0) -> 0 < n ->
  typed h (C_OBJECT x') -> next_in_chain x' = Some b -> chain h b l -> D ∉ l -> wf 0 R Z0 (<[D := (n, C_OBJECT x')]> h).
Proof.
  intros HD HW E Hn Ht Hx Hl HDl; destruct HW as [W1 W2 W3 W4 W5 W6 W7 W8 W9]; set (h' := <[D := (n, C_OBJECT x')]> h).
  destruct (W6 HD) as (n' & x & E' & _); rewrite E in E'; injection E' as <- ->.
  assert (HK : same_kind h h') by (apply insert_kind with n x, E).
  assert (HO : forall y, D <> y -> h' !! y = h !! y) by (intros; apply lookup_insert_ne; assumption).
  assert (HA : h' !! D = Some (n, C_OBJECT x')) by apply lookup_insert_eq.
  assert (HH : forall y, holders 0 h' y = occ y (acquires n (C_OBJECT x')) + holders D h y).
  { intros y; unfold holders, h'; rewrite (msum_delete _ h D _ E), <- insert_delete_eq, msum_insert by apply lookup_delete_eq; cbn [fst snd].
    rewrite (proj2 (Z.eqb_neq D 0) HD), (proj2 (Z.leb_gt n 0) Hn), Z.eqb_refl, occ_acquires by lia; cbn [orb]; f_equal.
    rewrite Z.add_0_l; apply msum_ext; intros k [m c] [Hk Ek]%lookup_delete_Some; cbn [fst snd].
    rewrite (proj2 (Z.eqb_neq k 0)), (proj2 (Z.eqb_neq k D)) by congruence; reflexivity. }
  assert (HLD : chain h' D (D :: l)).
  { econstructor; [exact HD|unfold content; rewrite HA; reflexivity|exact Hx|]; apply (chain_same h); [|exact Hl].
    intros y Hy; unfold content; rewrite HO; [reflexivity|intros ->; contradiction]. }
  constructor.
  - rewrite HO by exact HD; exact W1.
  - intros y m c Ey; rewrite HH; destruct (decide (D = y)) as [<-|Hy].
    + rewrite HA in Ey; injection Ey as <- <-; destruct (W2 D n _ E) as [Hc ?]; rewrite occ_app in Hc; lia.
    + rewrite HO in Ey by exact Hy; destruct (W2 y m c Ey) as [Hc ?]; rewrite occ_app in Hc; lia.
  - intros y Hy; destruct (decide (D = y)) as [<-|Hne]; [rewrite HA; eauto|rewrite HO by exact Hne; apply W3, elem_of_app; right; exact Hy].
  - intros y m c _ Ey Hm; apply (typed_kind h h' c HK); destruct (decide (D = y)) as [<-|Hne].
    + rewrite HA in Ey; injection Ey as <- <-; exact Ht.
    + rewrite HO in Ey by exact Hne; apply (W4 y m c); [congruence|exact Ey|exact Hm].
  - intros y m o Ey Hm; destruct (decide (D = y)) as [<-|Hyne]; [eauto|]; rewrite HO in Ey by exact Hyne.
    destruct (W5 y m o Ey Hm) as [ly Hly]; clear -Hly HLD HO.
    induction Hly as [|a z b' l' Ha Ez Hz _ [l2 IH]]; [exists []; constructor|]; destruct (decide (D = a)) as [<-|Hne]; [eauto|].
    exists (a :: l2); econstructor; [exact Ha|unfold content; rewrite HO by exact Hne; exact Ez|exact Hz|exact IH].
  - intros H; congruence.
  - intros y c Ey; destruct (decide (D = y)) as [<-|Hne]; [rewrite HA in Ey; injection Ey as; lia|rewrite HO in Ey by exact Hne; apply (W7 y c Ey)].
  - intros y Hy; destruct (W8 y Hy) as [c Ec]; exists c; rewrite HO; [exact Ec|intros ->; rewrite E in Ec; injection Ec as; lia].
  - exact W9.
Qed.

Lemma holders_none D R Z0 h a : wf D R Z0 h -> h !! a = None -> holders D h a = 0.
Proof.
  intros HW Ha; unfold holders; rewrite (msum_ext _ (fun _ _ => 0)).
  { induction h as [|k v h Hk _] using map_ind; [reflexivity|]; clear; unfold msum.
    induction (<[k := v]> h) as [|k' v' m Hk IH] using map_ind; [reflexivity|]; rewrite map_fold_insert_L; [exact IH|intros; lia|exact Hk]. }
  intros k [n c] E; cbn [fst snd]; destruct (_ || _) eqn:Eb; [reflexivity|]; apply orb_false_iff in Eb as [HkD%Z.eqb_neq Hn%Z.leb_gt].
  unfold held_by; rewrite (occ_zero a (pointers c)); [destruct (passes_on c); lia|]; intros Hp.
  destruct (typed_pointers h c a (wf_typed _ _ _ _ HW k n c HkD E Hn) Hp) as [y Hy]; unfold content in Hy; rewrite Ha in Hy; discriminate.
Qed.

(** A new cell. *)
Lemma new_wf D R Z0 h a c : wf D (pointers c ++ R) Z0 h -> h !! a = None -> a <> 0 -> typed h c ->
  (forall o, c = C_OBJECT o -> next_in_chain o = Some 0) -> wf D (a :: R) Z0 (<[a := (1, c)]> h).
Proof.
  intros HW Ha Ha0 Ht Ho; pose proof (holders_none D _ _ h a HW Ha) as HHa; destruct HW as [W1 W2 W3 W4 W5 W6 W7 W8 W9]; set (h' := <[a := (1, c)]> h).
  assert (HO : forall y, a <> y -> h' !! y = h !! y) by (intros; apply lookup_insert_ne; assumption).
  assert (HA : h' !! a = Some (1, c)) by apply lookup_insert_eq.
  assert (HS : forall y z, h !! y = Some z -> h' !! y = Some z) by (intros y z Ey; rewrite HO; [exact Ey|intros ->; congruence]).
  assert (HaD : a <> D).
  { intros ->; destruct (W6 Ha0) as (m & o & Em & _); congruence. }
  assert (HC : forall y d, content h y = Some d -> content h' y = Some d).
  { intros y d Hy; unfold content in *; destruct (h !! y) as [z|] eqn:Ey; [|discriminate]; rewrite (HS y z Ey); exact Hy. }
  assert (HT : forall d, typed h d -> typed h' d) by (intros d; apply typed_kind; intros y e Hy; left; apply HC, Hy).
  assert (HH : forall y, holders D h' y = occ y (pointers c) + holders D h y).
  { intros y; unfold holders, h'; rewrite msum_insert by exact Ha; cbn [fst snd]; rewrite (proj2 (Z.eqb_neq a D) HaD); cbn [orb Z.leb Z.compare].
    unfold held_by; destruct (passes_on c); lia. }
  assert (Hp : occ a (pointers c) = 0).
  { apply occ_zero; intros Hp; destruct (W3 a ltac:(apply elem_of_app; left; exact Hp)); congruence. }
  assert (HaR : occ a R = 0).
  { apply occ_zero; intros Hi; destruct (W3 a ltac:(apply elem_of_app; right; exact Hi)); congruence. }
  constructor.
  - rewrite HO by exact Ha0; exact W1.
  - intros y m d Ey; rewrite HH; cbn [occ]; destruct (Z.eqb_spec a y) as [<-|Hy].
    + rewrite HA in Ey; injection Ey as <- <-; unfold BUGGED_REFCOUNT; lia.
    + rewrite HO in Ey by exact Hy; destruct (W2 y m d Ey) as [Hc ?]; rewrite occ_app in Hc; lia.
  - intros y Hy; apply elem_of_cons in Hy as [->|Hy]; [rewrite HA; eauto|].
    destruct (W3 y ltac:(apply elem_of_app; right; exact Hy)) as [z Ez]; rewrite (HS y z Ez); eauto.
  - intros y m d HyD Ey Hm; apply HT; destruct (decide (a = y)) as [<-|Hne]; [rewrite HA in Ey; injection Ey as _ <-; exact Ht|].
    rewrite HO in Ey by exact Hne; apply (W4 y m d HyD Ey Hm).
  - intros y m o Ey Hm; destruct (decide (a = y)) as [<-|Hne].
    + rewrite HA in Ey; injection Ey as _ ->; exists [a]; econstructor; [exact Ha0|unfold content; rewrite HA; reflexivity|exact (Ho o eq_refl)|constructor].
    + rewrite HO in Ey by exact Hne; destruct (W5 y m o Ey Hm) as [l Hl]; exists l; eapply chain_content; [exact HC|exact Hl].
  - intros HD0; destruct (W6 HD0) as (m & o & Em & Hx); exists m, o; split; [apply HS, Em|exact Hx].
  - intros y d Ey; destruct (decide (a = y)) as [<-|Hne]; [rewrite HA in Ey; discriminate|rewrite HO in Ey by exact Hne; apply (W7 y d Ey)].
  - intros y Hy; destruct (W8 y Hy) as [d Ed]; exists d; apply HS, Ed.
  - exact W9.
Qed.
End Contents.
