(* ===== verification/ObjApi.v ===== *)
(** * Objects: the interface

    The operations that clients call, on a well-formed heap: taking and giving up
    references, creating objects and assigning to them. *)

From S2P Require Import Prelude UCore Shareable Objects ObjCount ObjFree ObjRefs.

Open Scope word_scope.

(** ** Runs *)

(** Take [k] references to each of [l]. *)
Fixpoint bumps (k : nat) (l : list Z) (h : heap) : heap := match k with O => h | S k' => bumps k' l (bump l h) end.

Lemma bumps_other k l : forall h a, a ∉ l -> bumps k l h !! a = h !! a.
Proof. induction k as [|k IH]; intros h a Ha; [reflexivity|]; cbn; rewrite IH by exact Ha; apply bump_other, Ha. Qed.

Lemma bumps_insert k l : forall h a x, a ∉ l -> bumps k l (<[a := x]> h) = <[a := x]> (bumps k l h).
Proof. induction k as [|k IH]; intros h a x Ha; [reflexivity|]; cbn; rewrite bump_insert by exact Ha; apply IH, Ha. Qed.

Lemma bumps_content k l : forall h, same_content h (bumps k l h).
Proof. induction k as [|k IH]; intros h a; [reflexivity|]; cbn; rewrite IH; apply bump_content. Qed.

Section Runs.
Context {W : Type} {OH : ObjectHost W}.

Lemma ref_run (s : ost W) a n c : cells s !! a = Some (n, c) -> 0 < n < BUGGED_REFCOUNT ->
  shareable_ref a s = Some (n, set_cells (alter bump1 a (cells s)) s).
Proof.
  intros E Hn; unfold shareable_ref, on_count; rewrite (SM_bind_Some _ _ _ _ _ (get_cell_run _ _ _ E)); cbn [fst snd].
  rewrite (ref_live {| reference_count := n; freed := 0 |} Hn); unfold put_cell; smunfold; cbn [reference_count set_count].
  rewrite (alter_alt_Some _ _ _ _ E); reflexivity.
Qed.

Lemma on_chain_ref_run l : forall fuel o (s : ost W), chain (cells s) o l -> steady 1 (cells s) l -> (length l < fuel)%nat ->
  on_chain (fun a => shareable_ref a;; mret tt) fuel o s = Some (tt, set_cells (bump l (cells s)) s).
Proof.
  induction l as [|o' l IH]; intros [|fuel] o s Hc Hl Hf; cbn in Hf; try lia; cbn [on_chain].
  { inversion Hc; subst; cbn; rewrite set_cells_id; reflexivity. }
  pose proof (chain_nodup _ _ _ Hc) as Hnd; apply NoDup_cons in Hnd as [Hnl _].
  inversion Hc as [|a x b l' Ha Ex Hb Hc']; subst o' l' a; rewrite (proj2 (Z.eqb_neq o 0) Ha).
  destruct (Hl o ltac:(left)) as (n & x' & E & Hn & Hn1); unfold content in Ex; rewrite E in Ex; injection Ex as ->.
  set (s1 := set_cells (alter bump1 o (cells s)) s).
  rewrite (SM_bind_Some _ _ _ tt s1) by (rewrite (SM_bind_Some _ _ _ _ _ (ref_run s o n _ E ltac:(lia))); reflexivity).
  assert (Eo : cells s1 !! o = Some (n + 1, C_OBJECT x)) by (unfold s1; cbn; rewrite lookup_alter_eq, E; reflexivity).
  rewrite (SM_bind_Some _ _ _ _ _ (get_object_run _ _ _ _ Eo)), Hb, (SM_bind_Some _ _ _ b s1) by reflexivity.
  rewrite IH; [cbn [bump s1 cells set_cells]; rewrite bump_alter; reflexivity| | |lia].
  - apply (chain_same (cells s)); [|exact Hc']; intros y _; exact (bump_content [o] (cells s) y).
  - intros y Hy; destruct (Hl y ltac:(right; exact Hy)) as (m & z & Em & ?); exists m, z; split; [|assumption].
    unfold s1; cbn; rewrite lookup_alter_ne; [exact Em|intros ->; contradiction].
Qed.

Lemma object_ref_run o l (s : ost W) : chain (cells s) o l -> steady 1 (cells s) l ->
  uacpi_object_ref o s = Some (tt, set_cells (bump l (cells s)) s).
Proof.
  intros Hc Hl; unfold uacpi_object_ref; rewrite (SM_bind_Some _ _ _ (S (size (cells s))) s) by reflexivity.
  apply on_chain_ref_run; [exact Hc|exact Hl|pose proof (chain_size _ _ _ Hc); lia].
Qed.

Lemma refs_run o l k : forall (s : ost W), chain (cells s) o l -> steady (Z.of_nat k) (cells s) l ->
  repeatedly k (uacpi_object_ref o) s = Some (tt, set_cells (bumps k l (cells s)) s).
Proof.
  induction k as [|k IH]; intros s Hc Hl; cbn [repeatedly bumps]; [rewrite set_cells_id; reflexivity|].
  rewrite (SM_bind_Some _ _ _ _ _ (object_ref_run o l s Hc ltac:(apply (steady_le (Z.of_nat (S k))); [lia|exact Hl]))).
  rewrite IH; [reflexivity| |].
  - apply (chain_same (cells s)); [intros y _; apply bump_content|exact Hc].
  - apply steady_bump; [eapply chain_nodup, Hc|]; apply (steady_le (Z.of_nat (S k))); [lia|exact Hl].
Qed.

Lemma write_run (s : ost W) a n c c' : cells s !! a = Some (n, c) -> write_cell a c' s = Some (tt, set_cells (<[a := (n, c')]> (cells s)) s).
Proof. intros E; unfold write_cell; rewrite (SM_bind_Some _ _ _ _ _ (get_cell_run _ _ _ E)); reflexivity. Qed.

Lemma set_data_run (s : ost W) a n o d : cells s !! a = Some (n, C_OBJECT o) ->
  set_data a d s = Some (tt, set_cells (<[a := (n, C_OBJECT {| o_type := o_type o; o_flags := o_flags o; o_data := d |})]> (cells s)) s).
Proof. intros E; unfold set_data; rewrite (SM_bind_Some _ _ _ _ _ (get_object_run _ _ _ _ E)); apply write_run with (C_OBJECT o), E. Qed.

Lemma set_type_run (s : ost W) a n o t : cells s !! a = Some (n, C_OBJECT o) ->
  set_type a t s = Some (tt, set_cells (<[a := (n, C_OBJECT {| o_type := t; o_flags := o_flags o; o_data := o_data o |})]> (cells s)) s).
Proof. intros E; unfold set_type; rewrite (SM_bind_Some _ _ _ _ _ (get_object_run _ _ _ _ E)); apply write_run with (C_OBJECT o), E. Qed.

Lemma set_flags_run (s : ost W) a n o f : cells s !! a = Some (n, C_OBJECT o) ->
  set_flags a f s = Some (tt, set_cells (<[a := (n, C_OBJECT {| o_type := o_type o; o_flags := f; o_data := o_data o |})]> (cells s)) s).
Proof. intros E; unfold set_flags; rewrite (SM_bind_Some _ _ _ _ _ (get_object_run _ _ _ _ E)); apply write_run with (C_OBJECT o), E. Qed.

(** [uacpi_object_attach_child] on a parent outside the chain of the child. *)
Lemma attach_run (s : ost W) parent child n x l : cells s !! parent = Some (n, C_OBJECT x) -> 0 < n < BUGGED_REFCOUNT ->
  chain (cells s) child l -> parent ∉ l -> steady n (cells s) l ->
  uacpi_object_attach_child parent child s = Some (tt, set_cells
    (<[parent := (n, C_OBJECT {| o_type := o_type x; o_flags := o_flags x; o_data := D_POINTER child |})]> (bumps (Z.to_nat n) l (cells s))) s).
Proof.
  intros E Hn Hc Hp Hl; unfold uacpi_object_attach_child; rewrite (SM_bind_Some _ _ _ _ _ (set_data_run _ _ _ _ (D_POINTER child) E)).
  set (x' := {| o_type := o_type x; o_flags := o_flags x; o_data := D_POINTER child |}); set (s1 := set_cells _ s).
  assert (E1 : cells s1 !! parent = Some (n, C_OBJECT x')) by apply lookup_insert_eq.
  rewrite (SM_bind_Some _ _ _ _ _ (bugged_run _ _ _ _ E1 Hn)), (SM_bind_Some _ _ _ _ _ (refcount_run _ _ _ _ E1)).
  assert (HO : forall y, y ∈ l -> cells s1 !! y = cells s !! y).
  { intros y Hy; unfold s1; cbn; apply lookup_insert_ne; intros ->; contradiction. }
  rewrite (refs_run child l); [unfold s1; cbn [cells set_cells]; rewrite bumps_insert by exact Hp; reflexivity| |].
  - apply (chain_same (cells s)); [|exact Hc]; intros y Hy; unfold content; rewrite HO by exact Hy; reflexivity.
  - rewrite Z2Nat.id by lia; intros y Hy; rewrite HO by exact Hy; apply Hl, Hy.
Qed.

(** *** Memory *)

(** A structure is allocated where there is none yet. *)
Class AllocLaws :=
  al_struct n s : exists a s', alloc_struct n s = Some (a, s') /\ cells s' = cells s /\ notifies s' = notifies s /\ (a = 0 \/ cells s !! a = None).
Context {AL : AllocLaws} {RL : @ReleaseLaws W OH}.

(** No allocation ever fails. *)
Definition abundant : Prop := (forall n s a s', alloc_struct n s = Some (a, s') -> a <> 0) /\ plenty.

Lemma new_cell_run n c (s : ost W) : exists a s', new_cell n c s = Some (a, s') /\
  ((a = 0 /\ cells s' = cells s /\ ~ abundant) \/ (a <> 0 /\ cells s !! a = None /\ cells s' = <[a := (1, c)]> (cells s))).
Proof.
  unfold new_cell; destruct (al_struct n s) as (a & s1 & E & Hc & _ & Ha); rewrite (SM_bind_Some _ _ _ _ _ E).
  destruct (Z.eqb_spec a 0) as [->|Ha0]; [exists 0, s1; split; [reflexivity|left; split_and!; [reflexivity|exact Hc|intros [HA _]; exact (HA _ _ _ _ E eq_refl)]]|].
  exists a, (set_cells (<[a := (1, c)]> (cells s1)) s1); split; [reflexivity|]; right; split; [exact Ha0|split; [destruct Ha; [contradiction|assumption]|]].
  cbn; rewrite Hc; reflexivity.
Qed.

(** A buffer of [n] bytes and nothing else, or nothing. *)
Lemma new_buffer_run n (s : ost W) : 0 <= n -> exists a s', new_buffer n s = Some (a, s') /\
  ((a = 0 /\ cells s' = cells s /\ ~ abundant) \/
   (a <> 0 /\ cells s !! a = None /\ exists d, cells s' = <[a := (1, C_BUFFER d n)]> (cells s) /\ (n = 0 -> d = None))).
Proof.
  intros Hn; unfold new_buffer; destruct (new_cell_run sizeof_buffer (C_BUFFER None 0) s) as (a & s1 & E1 & [(-> & Hs & Hab)|(Ha & Hf & Hs)]).
  { rewrite (SM_bind_Some _ _ _ _ _ E1); exists 0, s1; split; [reflexivity|left; auto]. }
  rewrite (SM_bind_Some _ _ _ _ _ E1), (proj2 (Z.eqb_neq a 0) Ha); destruct (Z.eqb_spec n 0) as [->|Hn0].
  { exists a, s1; split; [reflexivity|right]; split; [exact Ha|split; [exact Hf|exists None; auto]]. }
  destruct (rl_bytes n (oworld s1)) as (r & w & Ew); rewrite (SM_bind_Some _ _ _ _ _ (on_host_run _ _ _ _ Ew)).
  assert (Ea : cells (set_oworld w s1) !! a = Some (1, C_BUFFER None 0)) by (cbn; rewrite Hs; apply lookup_insert_eq).
  destruct r as [l|].
  - rewrite (SM_bind_Some _ _ _ _ _ (write_run _ _ _ _ (C_BUFFER (Some l) n) Ea)); eexists a, _; split; [reflexivity|right].
    split; [exact Ha|split; [exact Hf|exists (Some l)]]; cbn; rewrite Hs, insert_insert_eq; split; [reflexivity|congruence].
  - rewrite (SM_bind_Some _ _ _ _ _ (free_cell_run _ _ _ Ea)); eexists 0, _; split; [reflexivity|left]; split; [reflexivity|split; [|intros [_ HP]; exact (HP _ _ _ _ Ew eq_refl)]].
    cbn; rewrite Hs, delete_insert_eq, delete_id by exact Hf; reflexivity.
Qed.
End Runs.
Arguments AllocLaws W {OH}.

(** ** Releasing what an object holds *)

Section Api.
Context {W : Type} {OH : ObjectHost W} {RL : @ReleaseLaws W OH} {AL : AllocLaws W}.
#[local] Existing Instance memory.

Lemma object_unref_run D R (guard : D <> 0 -> D ∈ R) o P (s : ost W) : wf D (nonnull [o] ++ P ++ R) [] (cells s) -> (o = 0 \/ is_object (cells s) o) ->
  exists L s', uacpi_object_unref o s = Some (tt, s') /\ wf D (L ++ P ++ R) [] (cells s') /\ lowers (cells s) (cells s') /\ (plenty -> L = []).
Proof.
  intros HW Ho; unfold uacpi_object_unref, with_free; rewrite (SM_bind_Some _ _ _ (S (size (cells s))) s) by reflexivity.
  apply (object_unref_spec D R guard (size (cells s)) o P [] s HW Ho), live_size.
Qed.

Lemma lowers_is_object R Z0 D h h' o : lowers h h' -> wf D R Z0 h' -> o ∈ R -> is_object h o -> is_object h' o.
Proof.
  intros HL HW Ho [x Hx]; destruct (root_live _ _ _ _ o HW Ho) as (n & c & E & _).
  assert (Hc : content h' o = Some c) by (unfold content; rewrite E; reflexivity).
  rewrite (lowers_content _ _ _ _ HL Hc) in Hx; injection Hx as ->; exists x; exact Hc.
Qed.

Lemma unrefs_run D R (guard : D <> 0 -> D ∈ R) o k : forall P (s : ost W), wf D (concat (replicate k (nonnull [o])) ++ P ++ R) [] (cells s) ->
  (o = 0 \/ is_object (cells s) o) ->
  exists L s', repeatedly k (uacpi_object_unref o) s = Some (tt, s') /\ wf D (L ++ P ++ R) [] (cells s') /\ lowers (cells s) (cells s') /\ (plenty -> L = []).
Proof.
  induction k as [|k IH]; intros P s HW Ho; cbn [repeatedly replicate concat] in *; [exists [], s; split; [reflexivity|split; [exact HW|split; reflexivity]]|].
  rewrite <- app_assoc, (app_assoc _ P) in HW.
  destruct (object_unref_run D R guard o _ s HW Ho) as (L & s1 & E1 & HW1 & HL1 & Hp1); rewrite (SM_bind_Some _ _ _ _ _ E1).
  destruct k as [|k]; [exists L, s1; cbn in *; split; [reflexivity|split; [exact HW1|split; [exact HL1|exact Hp1]]]|].
  destruct (IH (L ++ P) s1) as (L2 & s2 & E2 & HW2 & HL2 & Hp2).
  - eapply wf_perm; [|reflexivity|exact HW1]; solve_Permutation.
  - destruct Ho as [Ho|Ho]; [left; exact Ho|]; destruct (Z.eq_dec o 0) as [|Ho0]; [left; assumption|right].
    eapply lowers_is_object; [exact HL1|exact HW1| |exact Ho]; cbn [replicate concat]; unfold nonnull; rewrite filter_cons_True by exact Ho0; set_solver.
  - exists (L2 ++ L), s2; split; [exact E2|split; [rewrite <- !app_assoc in *; exact HW2|split; [etransitivity; eassumption|]]].
    intros Hp; rewrite (Hp1 Hp), (Hp2 Hp); reflexivity.
Qed.

(** The references of buffer fields and of indices into buffers are not given up. *)
Definition clearable (t : uacpi_object_type) : Prop := t <> OBJECT_BUFFER_FIELD /\ t <> OBJECT_BUFFER_INDEX.

(** A destination whose contents are gone. *)
Definition cleared (R : list Z) (dst : Z) (s s' : ost W) : Prop := exists L n n' x',
  (exists c, cells s !! dst = Some (n, c)) /\ wf dst (L ++ R) [] (cells s') /\ lowers (<[dst := (n, C_OBJECT x')]> (cells s)) (cells s') /\
  cells s' !! dst = Some (n', C_OBJECT x') /\ 0 < n' < BUGGED_REFCOUNT /\ (plenty -> L = []).

Lemma cleared_intro R dst s s' n c0 x' L : cells s !! dst = Some (n, c0) -> dst ∈ R -> wf dst (L ++ R) [] (cells s') -> lowers (<[dst := (n, C_OBJECT x')]> (cells s)) (cells s') ->
  (plenty -> L = []) -> cleared R dst s s'.
Proof.
  intros E0 Hd HW HL Hp; destruct (root_live _ _ _ _ dst HW ltac:(apply elem_of_app; right; exact Hd)) as (n' & c & E & Hn).
  exists L, n, n', x'; destruct (HL dst n' c E) as (m & Em & _); rewrite lookup_insert_eq in Em; injection Em as _ <-; eauto 8.
Qed.

Lemma detach_run R dst (s : ost W) n x : wf 0 R [] (cells s) -> dst ∈ R -> cells s !! dst = Some (n, C_OBJECT x) -> o_type x = OBJECT_REFERENCE ->
  exists s', uacpi_object_detach_child dst s = Some (tt, s') /\ cleared R dst s s'.
Proof.
  intros HW Hd E Ht; destruct (root_live _ _ _ _ dst HW Hd) as (m & c & Em & Hn); rewrite E in Em; injection Em as <- <-.
  assert (Hd0 : dst <> 0) by (intros ->; rewrite (wf_null _ _ _ _ HW) in E; discriminate).
  pose proof (wf_typed _ _ _ _ HW dst n _ Hd0 E ltac:(lia)) as Hty; cbn [typed] in Hty; rewrite Ht in Hty; destruct Hty as (p & Ep & Hp).
  unfold uacpi_object_detach_child, get_pointer; rewrite (SM_bind_Some _ _ _ p s).
  2: { rewrite (SM_bind_Some _ _ _ _ _ (get_object_run _ _ _ _ E)), Ep; reflexivity. }
  rewrite (SM_bind_Some _ _ _ _ _ (set_data_run _ _ _ _ (D_POINTER 0) E)).
  set (x' := {| o_type := o_type x; o_flags := o_flags x; o_data := D_POINTER 0 |}); set (s1 := set_cells _ s).
  assert (E1 : cells s1 !! dst = Some (n, C_OBJECT x')) by apply lookup_insert_eq.
  rewrite (SM_bind_Some _ _ _ _ _ (bugged_run _ _ _ _ E1 Hn)), (SM_bind_Some _ _ _ _ _ (refcount_run _ _ _ _ E1)).
  assert (HW1 : wf dst (acquires n (C_OBJECT x) ++ R) [] (cells s1)).
  { apply (enter_wf R [] (cells s) dst n x x' HW E ltac:(lia)); unfold next_in_chain, is_reference, x'; cbn; rewrite Ht; reflexivity. }
  unfold acquires, passes_on, is_reference, pointers, object_pointers in HW1; rewrite Ht, Ep in HW1.
  destruct (unrefs_run dst R ltac:(auto) p (Z.to_nat n) [] s1 HW1) as (L & s2 & E2 & HW2 & HL2 & Hp2).
  { destruct Hp as [Hp|Hp]; [left; exact Hp|right; exact (kind_object _ _ _ (insert_kind _ _ _ n _ x' E) Hp)]. }
  exists s2; split; [exact E2|]; apply (cleared_intro R dst s s2 n _ x' L E Hd HW2 HL2 Hp2).
Qed.

Lemma clear_run R dst (s : ost W) n x : wf 0 R [] (cells s) -> dst ∈ R -> cells s !! dst = Some (n, C_OBJECT x) -> clearable (o_type x) ->
  exists s', clear_destination dst s = Some (tt, s') /\ cleared R dst s s'.
Proof.
  intros HW Hd E [Hcf Hci]; destruct (root_live _ _ _ _ dst HW Hd) as (m & c & Em & Hn); rewrite E in Em; injection Em as <- <-.
  assert (Hd0 : dst <> 0) by (intros ->; rewrite (wf_null _ _ _ _ HW) in E; discriminate).
  unfold clear_destination; rewrite (SM_bind_Some _ _ _ _ _ (get_object_run _ _ _ _ E)).
  destruct (is_reference x) eqn:Er.
  { assert (Ht : o_type x = OBJECT_REFERENCE) by (unfold is_reference in Er; destruct (o_type x); congruence); rewrite Ht.
    exact (detach_run R dst s n x HW Hd E Ht). }
  assert (HW1 : wf dst (own_pointers (C_OBJECT x) ++ [] ++ R) [] (cells s)).
  { pose proof (enter_wf R [] (cells s) dst n x x HW E ltac:(lia) ltac:(unfold next_in_chain; rewrite Er; reflexivity)) as HW1.
    rewrite insert_id in HW1 by exact E; unfold acquires, own_pointers in *; cbn [passes_on] in *; rewrite Er in *; exact HW1. }
  pose proof (wf_typed _ _ _ _ HW dst n _ Hd0 E ltac:(lia)) as Hty.
  assert (Hkeep : pointers (C_OBJECT x) = [] -> exists s', (mret tt : SM (ost W) unit) s = Some (tt, s') /\ cleared R dst s s').
  { intros Hp; exists s; split; [reflexivity|]; apply (cleared_intro R dst s s n _ x [] E Hd); [|rewrite insert_id by exact E; reflexivity|reflexivity].
    unfold own_pointers in HW1; rewrite Hp in HW1; destruct (passes_on (C_OBJECT x)); exact HW1. }
  assert (Hstore : exists s', with_free (fun f => free_object_storage f dst) s = Some (tt, s') /\ cleared R dst s s').
  { unfold with_free; rewrite (SM_bind_Some _ _ _ (S (size (cells s))) s) by reflexivity.
    destruct (free_object_storage_spec dst R ltac:(auto) (S (size (cells s))) _ dst x n [] [] s (free_object_releases dst R ltac:(auto) _) HW1 E Hty) as (L & s1 & E1 & HW2 & HL2 & Hp2).
    { pose proof (live_size (cells s)); lia. }
    exists s1; split; [exact E1|]; apply (cleared_intro R dst s s1 n _ x L E Hd HW2); [rewrite insert_id by exact E; exact HL2|exact Hp2]. }
  cbn [typed] in Hty; unfold is_reference in Er.
  destruct (o_type x) eqn:Et; try exact Hstore; try (apply Hkeep; unfold pointers, object_pointers; rewrite Et; reflexivity); contradiction || discriminate.
Qed.

(** *** Assignment *)

(** What the copy needs of the source is still there. *)
Lemma cleared_content R dst (s s' : ost W) a c : cleared R dst s s' -> a ∈ R -> content (cells s) a = Some c -> a <> dst -> content (cells s') a = Some c.
Proof.
  intros (L & n & n' & x' & _ & HW & HL & _) Ha Hc Hne; destruct (root_live _ _ _ _ a HW ltac:(apply elem_of_app; right; exact Ha)) as (m & d & E & _).
  assert (Hd : content (cells s') a = Some d) by (unfold content; rewrite E; reflexivity).
  rewrite Hd; pose proof (lowers_content _ _ _ _ HL Hd) as Hd'; unfold content in Hc, Hd'; rewrite lookup_insert_ne in Hd' by congruence; congruence.
Qed.

(** The heap that an assignment leaves: the destination holds the new contents, the other
    objects that are held what they held before. *)
Definition assigned (R : list Z) (dst : Z) (h h' : heap) (x : object) : Prop := exists L n,
  wf 0 (L ++ R) [] h' /\ h' !! dst = Some (n, C_OBJECT x) /\ (plenty -> L = []) /\
  (forall a c, a ∈ R -> a <> dst -> content h a = Some c -> content h' a = Some c).

Lemma content_ne (h : heap) a b x : a <> b -> content (<[a := x]> h) b = content h b.
Proof. intros H; unfold content; rewrite lookup_insert_ne by exact H; reflexivity. Qed.


Lemma assign_plain_run R dst (s s1 : ost W) v x : cleared R dst s s1 -> dst <> 0 ->
  (o_type x = OBJECT_INTEGER /\ o_data x = D_INTEGER v \/ o_type x = OBJECT_UNINITIALIZED \/ o_type x = OBJECT_DEBUG) ->
  forall n c, cells s1 !! dst = Some (n, c) -> assigned R dst (cells s) (<[dst := (n, C_OBJECT x)]> (cells s1)) x.
Proof.
  intros H1 Hd Hx n c E'; pose proof H1 as (L & m & n' & x' & _ & HW & HL & E & Hn & Hp); rewrite E in E'; injection E' as <- <-.
  exists L, n'; split; [|split; [apply lookup_insert_eq|split; [exact Hp|]]].
  2: { intros a d Ha Hne Hc; rewrite content_ne by congruence; exact (cleared_content R dst s s1 a d H1 Ha Hc Hne). }
  assert (Hpt : pointers (C_OBJECT x) = [] /\ is_reference x = false /\ typed (cells s1) (C_OBJECT x)).
  { unfold pointers, object_pointers, is_reference; cbn [typed]; destruct Hx as [[-> ->]|[->| ->]]; split; eauto. }
  destruct Hpt as (Hp1 & Hr & Ht); apply (leave_wf (L ++ R) [] (cells s1) dst n' (C_OBJECT x') x 0 [] Hd); [|exact E|lia|exact Ht| |constructor|apply not_elem_of_nil].
  - unfold acquires; cbn [passes_on]; rewrite Hr, Hp1; exact HW.
  - unfold next_in_chain; rewrite Hr; reflexivity.
Qed.

Lemma assign_shared R dst (s s1 : ost W) p m c x : cleared R dst s s1 -> dst <> 0 -> cells s1 !! p = Some (m, c) -> (forall o, c <> C_OBJECT o) ->
  0 < m -> m + 1 < BUGGED_REFCOUNT -> pointers (C_OBJECT x) = [p] -> is_reference x = false -> typed (cells s1) (C_OBJECT x) ->
  forall n d, cells s1 !! dst = Some (n, d) -> assigned R dst (cells s) (<[dst := (n, C_OBJECT x)]> (alter bump1 p (cells s1))) x.
Proof.
  intros H1 Hd Ep Hc Hm Hm1 Hpx Hr Ht n d E'; pose proof H1 as (L & m' & n' & x' & _ & HW & HL & E & Hn & Hp); rewrite E in E'; injection E' as <- <-.
  exists L, n'; split; [|split; [apply lookup_insert_eq|split; [exact Hp|]]].
  2: { intros a e Ha Hne He; rewrite content_ne by congruence; etransitivity; [exact (bump_content [p] (cells s1) a)|].
       exact (cleared_content R dst s s1 a e H1 Ha He Hne). }
  assert (Hpd : p <> dst) by (intros ->; rewrite E in Ep; injection Ep as _ <-; eapply Hc; reflexivity).
  assert (HW1 : wf dst (p :: L ++ R) [] (alter bump1 p (cells s1))).
  { apply (inc_wf dst _ _ _ p m c 0); [exact HW|exact Ep|lia|lia|]; destruct c; try reflexivity; exfalso; eapply Hc; reflexivity. }
  apply (leave_wf (L ++ R) [] _ dst n' (C_OBJECT x') x 0 [] Hd); [| |lia| | |constructor|apply not_elem_of_nil].
  - unfold acquires; cbn [passes_on]; rewrite Hr, Hpx; exact HW1.
  - rewrite lookup_alter_ne by exact Hpd; exact E.
  - apply (typed_content (cells s1)); [intros q _; exact (bump_content [p] (cells s1) q)|apply HW|exact Ht].
  - unfold next_in_chain; rewrite Hr; reflexivity.
Qed.

Lemma install_run (s : ost W) dst d p n x m c : cells s !! dst = Some (n, C_OBJECT x) -> cells s !! p = Some (m, c) -> p <> dst -> 0 < m < BUGGED_REFCOUNT ->
  (set_data dst d;; shareable_ref p;; mret UACPI_STATUS_OK) s =
  Some (UACPI_STATUS_OK, set_cells (<[dst := (n, C_OBJECT {| o_type := o_type x; o_flags := o_flags x; o_data := d |})]> (alter bump1 p (cells s))) s).
Proof.
  intros E Ep Hne Hm; rewrite (SM_bind_Some _ _ _ _ _ (set_data_run _ _ _ _ d E)); set (s1 := set_cells _ s).
  assert (E1 : cells s1 !! p = Some (m, c)) by (unfold s1; cbn; rewrite lookup_insert_ne by congruence; exact Ep).
  rewrite (SM_bind_Some _ _ _ _ _ (ref_run _ _ _ _ E1 Hm)); unfold s1; cbn; rewrite alter_insert_ne by congruence; reflexivity.
Qed.

Lemma share_run (s : ost W) dst p n x m c : cells s !! dst = Some (n, C_OBJECT x) -> cells s !! p = Some (m, c) -> p <> dst -> 0 < m < BUGGED_REFCOUNT ->
  share dst p s = Some (UACPI_STATUS_OK, set_cells (<[dst := (n, C_OBJECT {| o_type := o_type x; o_flags := o_flags x; o_data := D_POINTER p |})]> (alter bump1 p (cells s))) s).
Proof. apply install_run. Qed.

Lemma cleared_dst R dst (s s1 : ost W) : cleared R dst s s1 -> exists n x, cells s1 !! dst = Some (n, C_OBJECT x) /\ 0 < n < BUGGED_REFCOUNT.
Proof. intros (L & m & n & x & _ & _ & _ & E & Hn & _); eauto. Qed.

Lemma assign_integer_run fuel R dst v (s : ost W) n x : wf 0 R [] (cells s) -> dst ∈ R -> cells s !! dst = Some (n, C_OBJECT x) -> clearable (o_type x) ->
  exists s' y, uacpi_object_assign_integer fuel dst v s = Some (UACPI_STATUS_OK, s') /\ assigned R dst (cells s) (cells s') y /\ o_type y = OBJECT_INTEGER /\ o_data y = D_INTEGER v.
Proof.
  intros HW Hd E Hc; assert (Hd0 : dst <> 0) by (intros ->; rewrite (wf_null _ _ _ _ HW) in E; discriminate).
  unfold uacpi_object_assign_integer, assign_literal, object_assign; rewrite (proj2 (Z.eqb_neq dst 0) Hd0).
  destruct (clear_run R dst s n x HW Hd E Hc) as (s1 & E1 & H1); rewrite (SM_bind_Some _ _ _ _ _ E1).
  destruct (cleared_dst _ _ _ _ H1) as (n1 & x1 & Ed & Hn1); set (src := {| o_type := OBJECT_INTEGER; o_flags := 0; o_data := D_INTEGER v |}).
  rewrite (SM_bind_Some _ _ _ src s1) by reflexivity; unfold copy_contents; cbn [o_type src o_data integer_of].
  pose proof (set_data_run s1 dst n1 x1 (D_INTEGER v) Ed) as E2; set (s2 := set_cells _ s1) in E2.
  rewrite (SM_bind_Some _ _ _ UACPI_STATUS_OK s2) by (rewrite (SM_bind_Some _ _ _ v s1) by reflexivity; rewrite (SM_bind_Some _ _ _ _ _ E2); reflexivity).
  cbn [is_ok]; assert (E3 : cells s2 !! dst = Some (n1, C_OBJECT {| o_type := o_type x1; o_flags := o_flags x1; o_data := D_INTEGER v |})) by apply lookup_insert_eq.
  rewrite (SM_bind_Some _ _ _ _ _ (set_type_run s2 dst _ _ OBJECT_INTEGER E3)); unfold s2; cbn [cells set_cells o_flags o_data]; rewrite insert_insert_eq.
  eexists _, {| o_type := OBJECT_INTEGER; o_flags := o_flags x1; o_data := D_INTEGER v |}; split; [reflexivity|split; [|split; reflexivity]].
  eapply assign_plain_run; [exact H1|exact Hd0|left; split; reflexivity|exact Ed].
Qed.

(** What a string or a buffer is written with. *)
Definition written_size (t : uacpi_object_type) (bytes : list Z) : Z :=
  if bool_decide (t = OBJECT_STRING) && needs_terminator bytes then Z.of_nat (length bytes) + 1 else Z.of_nat (length bytes).
Definition written_bytes (t : uacpi_object_type) (bytes : list Z) : option (list Z) :=
  if written_size t bytes =? 0 then None else Some (bytes_zerout (written_size t bytes) bytes (Z.of_nat (length bytes))).

Lemma written_size_nonneg t bytes : 0 <= written_size t bytes.
Proof. unfold written_size; destruct (_ && _); lia. Qed.

(** The fresh buffer that is about to be assigned. *)
Lemma fresh_buffer_run t bytes (s : ost W) : exists buf s1, new_buffer (written_size t bytes) s = Some (buf, s1) /\
  ((buf = 0 /\ cells s1 = cells s /\ ~ abundant) \/
   (buf <> 0 /\ cells s !! buf = None /\ exists s2, store_bytes buf (written_size t bytes) bytes (Z.of_nat (length bytes)) s1 = Some (tt, s2) /\
      cells s2 = <[buf := (1, C_BUFFER (written_bytes t bytes) (written_size t bytes))]> (cells s))).
Proof.
  destruct (new_buffer_run (written_size t bytes) s (written_size_nonneg t bytes)) as (buf & s1 & E1 & [(-> & Hs & Hab)|(Hb & Hf & d & Hs & Hd)]).
  { exists 0, s1; split; [exact E1|left; auto]. }
  exists buf, s1; split; [exact E1|right; split; [exact Hb|split; [exact Hf|]]]; unfold store_bytes, written_bytes.
  destruct (Z.eqb_spec (written_size t bytes) 0) as [H0|H0].
  - exists s1; split; [reflexivity|]; rewrite Hs, (Hd H0); reflexivity.
  - assert (Eb : cells s1 !! buf = Some (1, C_BUFFER d (written_size t bytes))) by (rewrite Hs; apply lookup_insert_eq).
    eexists; split; [apply (write_run _ _ _ _ _ Eb)|]; cbn; rewrite Hs, insert_insert_eq; reflexivity.
Qed.

Definition string_type (t : uacpi_object_type) : Prop := t = OBJECT_STRING \/ t = OBJECT_BUFFER.

Lemma string_pointers t f p : string_type t -> p <> 0 ->
  pointers (C_OBJECT {| o_type := t; o_flags := f; o_data := D_POINTER p |}) = [p] /\ is_reference {| o_type := t; o_flags := f; o_data := D_POINTER p |} = false.
Proof.
  intros Ht Hp; unfold pointers, object_pointers, is_reference; cbn [o_type o_data pointer_of].
  destruct Ht as [-> | ->]; unfold nonnull; rewrite filter_cons_True by exact Hp; split; reflexivity.
Qed.

(** The assignment of a fresh buffer to an object. *)
Lemma assign_fresh_run fuel R dst t buf d k (s : ost W) n x : wf 0 (buf :: R) [] (cells s) -> dst ∈ R -> cells s !! dst = Some (n, C_OBJECT x) ->
  clearable (o_type x) -> cells s !! buf = Some (1, C_BUFFER d k) -> string_type t ->
  let y := {| o_type := t; o_flags := 0; o_data := D_POINTER buf |} in
  exists s1 s2, assign_literal fuel dst y ASSIGN_BEHAVIOR_SHALLOW_COPY s = Some (UACPI_STATUS_OK, s1) /\
    shareable_unref_and_delete_if_last buf free_buffer s1 = Some (tt, s2) /\
    assigned R dst (cells s) (cells s2) y /\ content (cells s2) buf = Some (C_BUFFER d k).
Proof.
  intros HW Hd E Hc Eb Ht y; assert (Hd0 : dst <> 0) by (intros ->; rewrite (wf_null _ _ _ _ HW) in E; discriminate).
  assert (Hb0 : buf <> 0) by (intros ->; rewrite (wf_null _ _ _ _ HW) in Eb; discriminate).
  assert (Hbd : buf <> dst) by congruence.
  unfold assign_literal, object_assign; destruct (clear_run (buf :: R) dst s n x HW ltac:(right; exact Hd) E Hc) as (s1 & E1 & H1).
  rewrite (SM_bind_Some _ _ _ _ _ E1), (SM_bind_Some _ _ _ y s1) by reflexivity; destruct (cleared_dst _ _ _ _ H1) as (n1 & x1 & Ed & Hn1).
  assert (Eb1 : cells s1 !! buf = Some (1, C_BUFFER d k)).
  { destruct H1 as (L & m & n' & x' & _ & HW1 & HL1 & _); destruct (root_live _ _ _ _ buf HW1 ltac:(apply elem_of_app; right; left)) as (j & c & Ej & Hj).
    destruct (HL1 buf j c Ej) as (j' & Ej' & ?); rewrite lookup_insert_ne, Eb in Ej' by congruence; injection Ej' as <- <-; rewrite Ej; do 2 f_equal; lia. }
  set (s2 := set_cells (<[dst := (n1, C_OBJECT {| o_type := o_type x1; o_flags := 0; o_data := D_POINTER buf |})]> (alter bump1 buf (cells s1))) s1).
  assert (E2 : copy_contents (deep_copy_package fuel) dst y ASSIGN_BEHAVIOR_SHALLOW_COPY s1 = Some (UACPI_STATUS_OK, s2)).
  { assert (E2 : (set_flags dst 0;; assign_buffer dst y ASSIGN_BEHAVIOR_SHALLOW_COPY) s1 = Some (UACPI_STATUS_OK, s2)).
    { rewrite (SM_bind_Some _ _ _ _ _ (set_flags_run _ _ _ _ 0 Ed)); unfold assign_buffer; set (s3 := set_cells _ s1).
      rewrite (SM_bind_Some _ _ _ buf s3) by reflexivity; assert (Ed3 : cells s3 !! dst = Some (n1, C_OBJECT {| o_type := o_type x1; o_flags := 0; o_data := o_data x1 |})) by apply lookup_insert_eq.
      rewrite (share_run s3 dst buf _ _ 1 (C_BUFFER d k) Ed3); [|unfold s3; cbn; rewrite lookup_insert_ne by congruence; exact Eb1|exact Hbd|unfold BUGGED_REFCOUNT; lia].
      unfold s2, s3; cbn [cells set_cells o_type o_flags]; rewrite alter_insert_ne, insert_insert_eq by congruence; reflexivity. }
    unfold copy_contents, y in *; destruct Ht as [-> | ->]; exact E2. }
  rewrite (SM_bind_Some _ _ _ _ _ E2); cbn [is_ok].
  assert (Ed2 : cells s2 !! dst = Some (n1, C_OBJECT {| o_type := o_type x1; o_flags := 0; o_data := D_POINTER buf |})) by apply lookup_insert_eq.
  rewrite (SM_bind_Some _ _ _ _ _ (set_type_run s2 dst _ _ t Ed2)); cbn [o_flags o_data]; set (s4 := set_cells _ s2).
  assert (H4 : cells s4 = <[dst := (n1, C_OBJECT y)]> (alter bump1 buf (cells s1))) by (unfold s4, s2; cbn; rewrite insert_insert_eq; reflexivity).
  destruct (string_pointers t 0 buf Ht Hb0) as [Hpy Hry].
  assert (HA : assigned (buf :: R) dst (cells s) (cells s4) y).
  { rewrite H4; eapply (assign_shared (buf :: R) dst s s1 buf 1); [exact H1|exact Hd0|exact Eb1|discriminate|lia|unfold BUGGED_REFCOUNT; lia|exact Hpy|exact Hry| |exact Ed].
    assert (Hib : is_buffer (cells s1) buf) by (exists d, k; unfold content; rewrite Eb1; reflexivity).
    cbn [typed]; unfold y; cbn [o_type o_data pointer_of]; destruct Ht as [-> | ->]; exists buf; auto. }
  assert (Eb4 : cells s4 !! buf = Some (2, C_BUFFER d k)) by (rewrite H4, lookup_insert_ne, lookup_alter_eq, Eb1 by congruence; reflexivity).
  destruct HA as (L & n4 & HW4 & Ed4 & Hp4 & HK4).
  destruct (unref_delete_spec 0 R (size (cells s4)) buf L [] s4 2 (C_BUFFER d k) free_buffer) as (L5 & s5 & E5 & HW5 & HL5 & Hp5).
  - eapply wf_perm; [|reflexivity|exact HW4]; solve_Permutation.
  - exact Eb4.
  - discriminate.
  - apply free_buffer_frees; congruence.
  - apply live_size.
  - exists s4, s5; split; [reflexivity|split; [exact E5|]].
    destruct (root_live _ _ _ _ dst HW5 ltac:(rewrite !elem_of_app; auto)) as (n5 & c5 & Ed5 & Hn5).
    destruct (HL5 dst n5 c5 Ed5) as (m5 & Em5 & _); rewrite Ed4 in Em5; injection Em5 as _ <-.
    split; [exists (L5 ++ L), n5; rewrite <- app_assoc; split; [exact HW5|split; [exact Ed5|split; [intros Hp; rewrite (Hp5 Hp), (Hp4 Hp); reflexivity|]]]|].
    { intros a c Ha Hne Hca; apply (HK4 a c ltac:(right; exact Ha) Hne) in Hca.
      destruct (root_live _ _ _ _ a HW5 ltac:(rewrite !elem_of_app; auto)) as (j & e & Ej & _).
      assert (He : content (cells s5) a = Some e) by (unfold content; rewrite Ej; reflexivity).
      rewrite (lowers_content _ _ _ _ HL5 He) in Hca; congruence. }
    destruct (typed_pointers (cells s5) (C_OBJECT y) buf) as [c Hcb]; [apply (wf_typed _ _ _ _ HW5 dst n5 _ Hd0 Ed5); lia|unfold y; rewrite Hpy; left|].
    rewrite Hcb; pose proof (lowers_content _ _ _ _ HL5 Hcb) as Hcb4; unfold content in Hcb4; rewrite Eb4 in Hcb4; injection Hcb4 as <-; reflexivity.
Qed.

Lemma do_assign_buffer_run fuel R dst t bytes (s : ost W) n x : wf 0 R [] (cells s) -> dst ∈ R -> cells s !! dst = Some (n, C_OBJECT x) ->
  clearable (o_type x) -> string_type t -> exists ret s', uacpi_object_do_assign_buffer fuel dst bytes t s = Some (ret, s') /\
    ((ret = UACPI_STATUS_OUT_OF_MEMORY /\ cells s' = cells s /\ ~ abundant) \/
     (ret = UACPI_STATUS_OK /\ exists buf, assigned R dst (cells s) (cells s') {| o_type := t; o_flags := 0; o_data := D_POINTER buf |} /\
        content (cells s') buf = Some (C_BUFFER (written_bytes t bytes) (written_size t bytes)))).
Proof.
  intros HW Hd E Hc Ht; assert (Hd0 : dst <> 0) by (intros ->; rewrite (wf_null _ _ _ _ HW) in E; discriminate).
  unfold uacpi_object_do_assign_buffer; rewrite (proj2 (Z.eqb_neq dst 0) Hd0); fold (written_size t bytes).
  destruct (fresh_buffer_run t bytes s) as (buf & s1 & E1 & [(-> & Hs & Hab)|(Hb & Hf & s2 & E2 & Hs2)]); rewrite (SM_bind_Some _ _ _ _ _ E1).
  { exists UACPI_STATUS_OUT_OF_MEMORY, s1; split; [reflexivity|left; auto]. }
  rewrite (proj2 (Z.eqb_neq buf 0) Hb), (SM_bind_Some _ _ _ _ _ E2).
  assert (HW2 : wf 0 (buf :: R) [] (cells s2)) by (rewrite Hs2; apply new_wf; [exact HW|exact Hf|exact Hb|exact I|discriminate]).
  assert (Hbd : buf <> dst) by congruence.
  destruct (assign_fresh_run fuel R dst t buf (written_bytes t bytes) (written_size t bytes) s2 n x HW2 Hd) as (s3 & s4 & E3 & E4 & HA & HB); auto.
  - rewrite Hs2, lookup_insert_ne by exact Hbd; exact E.
  - rewrite Hs2; apply lookup_insert_eq.
  - rewrite (SM_bind_Some _ _ _ _ _ E3), (SM_bind_Some _ _ _ _ _ E4); exists UACPI_STATUS_OK, s4; split; [reflexivity|right; split; [reflexivity|exists buf; split; [|exact HB]]].
    destruct HA as (L & n4 & HW4 & Ed4 & Hp4 & HK4); exists L, n4; split; [exact HW4|split; [exact Ed4|split; [exact Hp4|]]].
    intros a c Ha Hne Hca; apply (HK4 a c Ha Hne); rewrite Hs2, content_ne; [exact Hca|]; intros ->; unfold content in Hca; rewrite Hf in Hca; discriminate.
Qed.

(** *** References *)

Lemma bumps_wf D k : forall R Z0 h o l, wf D R Z0 h -> chain h o l -> steady (Z.of_nat k) h l ->
  wf D (concat (replicate k (nonnull [o])) ++ R) Z0 (bumps k l h).
Proof.
  induction k as [|k IH]; intros R Z0 h o l HW Hc Hl; [exact HW|]; cbn [replicate concat bumps].
  assert (HW1 : wf D (nonnull [o] ++ R) Z0 (bump l h)) by (apply bump_wf; [exact HW|exact Hc|apply (steady_le (Z.of_nat (S k))); [lia|exact Hl]]).
  eapply wf_perm; [| reflexivity |apply (IH _ Z0 _ o l HW1)].
  - solve_Permutation.
  - apply (chain_same h); [intros y _; apply bump_content|exact Hc].
  - apply steady_bump; [eapply chain_nodup, Hc|apply (steady_le (Z.of_nat (S k))); [lia|exact Hl]].
Qed.

Lemma steady_live D R Z0 h o l k : wf D R Z0 h -> chain h o l -> (o = 0 \/ exists n c, h !! o = Some (n, c) /\ 0 < n) -> room k h -> steady k h l.
Proof.
  intros HW Hc Ho Hr a Ha; destruct (chain_suffix _ _ _ Hc a Ha) as (l1 & l2 & _ & Hc2 & Hne); inversion Hc2 as [|a' x b l' Ha0 Ex _ _]; subst; [congruence|].
  unfold content in Ex; destruct (h !! a) as [[n c]|] eqn:E; [|discriminate]; injection Ex as ->; exists n, x; split; [reflexivity|].
  split; [|exact (Hr a n _ E)]; apply (chain_live D R Z0 h o l HW Hc) with a (C_OBJECT x); [|exact Ha|exact E].
  intros m c Em; destruct Ho as [->|(m' & c' & Em' & ?)]; [rewrite (wf_null _ _ _ _ HW) in Em; discriminate|]; rewrite Em in Em'; injection Em' as <- _; assumption.
Qed.

(** A reference takes its child over, as often as it counts itself. *)
Lemma attach_wf R dst child n c0 x l h : dst <> 0 -> wf dst R [] h -> h !! dst = Some (n, c0) -> 0 < n -> chain h child l -> dst ∉ l -> steady n h l ->
  (child = 0 \/ is_object h child) -> o_type x = OBJECT_REFERENCE -> o_data x = D_POINTER child ->
  wf 0 R [] (<[dst := (n, C_OBJECT x)]> (bumps (Z.to_nat n) l h)).
Proof.
  intros Hd HW E Hn Hc Hdl Hl Hch Ht Hx; rewrite <- (Z2Nat.id n) in Hl by lia.
  pose proof (bumps_wf dst (Z.to_nat n) R [] h child l HW Hc Hl) as HW1; pose proof (bumps_content (Z.to_nat n) l h) as HC.
  assert (Hr : is_reference x = true) by (unfold is_reference; rewrite Ht; reflexivity).
  assert (Hnx : next_in_chain x = Some child) by (unfold next_in_chain; rewrite Hr, Hx; reflexivity).
  eapply (leave_wf R [] _ dst n c0 x child l Hd); [| |exact Hn| |exact Hnx| |exact Hdl].
  - unfold acquires; cbn [passes_on]; rewrite Hr, (reference_pointers x child Hr Hnx); exact HW1.
  - rewrite bumps_other by exact Hdl; exact E.
  - cbn [typed]; rewrite Ht, Hx; exists child; split; [reflexivity|]; destruct Hch as [Hch|[y Hy]]; [left; exact Hch|right; exists y; rewrite HC; exact Hy].
  - apply (chain_same h); [intros y _; apply HC|exact Hc].
Qed.

Lemma room_lowers k dst n x (h h' : heap) c : h !! dst = Some (n, c) -> lowers (<[dst := (n, C_OBJECT x)]> h) h' -> room k h -> room k h'.
Proof.
  intros E HL Hr a m d Ea; destruct (HL a m d Ea) as (m' & Em & ?); destruct (decide (dst = a)) as [<-|Hne].
  - rewrite lookup_insert_eq in Em; injection Em as <- _; pose proof (Hr dst n c E); lia.
  - rewrite lookup_insert_ne in Em by exact Hne; pose proof (Hr a m' d Em); lia.
Qed.

(** The chain of an object that is held does not change when another one is cleared. *)
Lemma cleared_chain R dst (s s1 : ost W) a l : cleared R dst s s1 -> a ∈ R -> is_object (cells s) a -> a <> dst -> chain (cells s) a l -> dst ∉ l ->
  chain (cells s1) a l.
Proof.
  intros H1 Ha [x Hx] Hne Hc Hdl; pose proof (cleared_content R dst s s1 a _ H1 Ha Hx Hne) as Hx1.
  destruct H1 as (L & n & n' & x' & _ & HW & HL & _); destruct (root_live _ _ _ _ a HW ltac:(apply elem_of_app; right; exact Ha)) as (m & c & E & Hm).
  unfold content in Hx1; rewrite E in Hx1; injection Hx1 as ->; destruct (wf_chain _ _ _ _ HW a m x E ltac:(lia)) as [l' Hl'].
  enough (l' = l) as -> by exact Hl'; eapply lowers_chain; [exact HL| |exact Hl'].
  apply (chain_same (cells s)); [|exact Hc]; intros y Hy; unfold content; rewrite lookup_insert_ne; [reflexivity|intros ->; contradiction].
Qed.

Lemma reset_run fuel R dst (s : ost W) n x : wf 0 R [] (cells s) -> dst ∈ R -> cells s !! dst = Some (n, C_OBJECT x) -> clearable (o_type x) ->
  exists s1 s' y n1, assign_literal fuel dst {| o_type := OBJECT_UNINITIALIZED; o_flags := 0; o_data := D_INTEGER 0 |} ASSIGN_BEHAVIOR_DEEP_COPY s = Some (UACPI_STATUS_OK, s') /\
    cleared R dst s s1 /\ cells s' = <[dst := (n1, C_OBJECT y)]> (cells s1) /\ o_type y = OBJECT_UNINITIALIZED /\ 0 < n1 < BUGGED_REFCOUNT /\
    (exists d, cells s1 !! dst = Some (n1, d)).
Proof.
  intros HW Hd E Hc; unfold assign_literal, object_assign.
  destruct (clear_run R dst s n x HW Hd E Hc) as (s1 & E1 & H1); rewrite (SM_bind_Some _ _ _ _ _ E1).
  destruct (cleared_dst _ _ _ _ H1) as (n1 & x1 & Ed & Hn1).
  rewrite (SM_bind_Some _ _ _ {| o_type := OBJECT_UNINITIALIZED; o_flags := 0; o_data := D_INTEGER 0 |} s1) by reflexivity.
  rewrite (SM_bind_Some _ _ _ UACPI_STATUS_OK s1) by reflexivity; cbn [is_ok o_type].
  rewrite (SM_bind_Some _ _ _ _ _ (set_type_run s1 dst _ _ OBJECT_UNINITIALIZED Ed)).
  eexists s1, _, {| o_type := OBJECT_UNINITIALIZED; o_flags := o_flags x1; o_data := o_data x1 |}, n1; split; [reflexivity|].
  split; [exact H1|split; [reflexivity|split; [reflexivity|split; [exact Hn1|eauto]]]].
Qed.

Lemma assign_reference_run fuel R dst child (s : ost W) n x l : wf 0 R [] (cells s) -> dst ∈ R -> cells s !! dst = Some (n, C_OBJECT x) -> clearable (o_type x) ->
  child ∈ R -> is_object (cells s) child -> chain (cells s) child l -> dst ∉ l -> room n (cells s) ->
  exists s', uacpi_object_assign_reference fuel dst child s = Some (UACPI_STATUS_OK, s') /\
    assigned R dst (cells s) (cells s') {| o_type := OBJECT_REFERENCE; o_flags := UACPI_REFERENCE_KIND_ARG; o_data := D_POINTER child |}.
Proof.
  intros HW Hd E Hcl Hch Hob Hc Hdl Hr; assert (Hd0 : dst <> 0) by (intros ->; rewrite (wf_null _ _ _ _ HW) in E; discriminate).
  assert (Hc0 : child <> 0) by (intros ->; destruct Hob as [y Hy]; unfold content in Hy; rewrite (wf_null _ _ _ _ HW) in Hy; discriminate).
  assert (Hcd : child <> dst) by (intros ->; apply Hdl; destruct Hc; [congruence|left]).
  unfold uacpi_object_assign_reference; rewrite (proj2 (Z.eqb_neq dst 0) Hd0), (proj2 (Z.eqb_neq child 0) Hc0); cbn [orb].
  destruct (reset_run fuel R dst s n x HW Hd E Hcl) as (s1 & s2 & y & n1 & E2 & H1 & Hs2 & Hy & Hn1 & d & Ed).
  rewrite (SM_bind_Some _ _ _ _ _ E2); cbn [is_ok negb]; assert (Ed2 : cells s2 !! dst = Some (n1, C_OBJECT y)) by (rewrite Hs2; apply lookup_insert_eq).
  rewrite (SM_bind_Some _ _ _ _ _ (set_type_run s2 dst _ _ OBJECT_REFERENCE Ed2)); set (y3 := {| o_type := OBJECT_REFERENCE; o_flags := o_flags y; o_data := o_data y |}); set (s3 := set_cells _ s2).
  assert (H3 : cells s3 = <[dst := (n1, C_OBJECT y3)]> (cells s1)) by (unfold s3; cbn; rewrite Hs2, insert_insert_eq; reflexivity).
  pose proof (cleared_chain R dst s s1 child l H1 Hch Hob Hcd Hc Hdl) as Hc1.
  assert (Hob1 : is_object (cells s1) child) by (destruct Hob as [z Hz]; exists z; exact (cleared_content R dst s s1 child _ H1 Hch Hz Hcd)).
  pose proof H1 as (L & m & n' & x' & [c0 Em0] & HW1 & HL1 & Ed1 & Hn' & Hp1); rewrite Ed1 in Ed; injection Ed as -> <-.
  destruct (HL1 dst n1 _ Ed1) as (m' & Em & Hm); rewrite lookup_insert_eq in Em; injection Em as <-.
  assert (Hl1 : steady n1 (cells s1) l).
  { eapply steady_live; [exact HW1|exact Hc1| |].
    - right; destruct (root_live _ _ _ _ child HW1 ltac:(apply elem_of_app; right; exact Hch)) as (j & c & Ej & ?); exists j, c; split; [exact Ej|lia].
    - intros a k c Ek; pose proof (room_lowers n dst m x' (cells s) (cells s1) c0 Em0 HL1 Hr a k c Ek); rewrite E in Em0; injection Em0 as <- _; lia. }
  assert (HO3 : forall a, a ∈ l -> cells s3 !! a = cells s1 !! a) by (intros a Ha; rewrite H3; apply lookup_insert_ne; intros ->; contradiction).
  rewrite (SM_bind_Some _ _ _ _ _ (attach_run s3 dst child n1 y3 l ltac:(rewrite H3; apply lookup_insert_eq) Hn1
    ltac:(apply (chain_same (cells s1)); [intros a Ha; unfold content; rewrite HO3 by exact Ha; reflexivity|exact Hc1]) Hdl
    ltac:(intros a Ha; rewrite HO3 by exact Ha; apply Hl1, Ha))).
  set (s4 := set_cells _ s3).
  assert (Ed4 : cells s4 !! dst = Some (n1, C_OBJECT {| o_type := OBJECT_REFERENCE; o_flags := o_flags y; o_data := D_POINTER child |})) by apply lookup_insert_eq.
  rewrite (SM_bind_Some _ _ _ _ _ (set_flags_run s4 dst _ _ UACPI_REFERENCE_KIND_ARG Ed4)); eexists; split; [reflexivity|].
  exists L, n1; split; [|split; [apply lookup_insert_eq|split; [exact Hp1|]]].
  2: { intros a c Ha Hne Hca; cbn [cells set_cells s4]; rewrite !content_ne, (bumps_content (Z.to_nat n1) l _ a), H3, content_ne by congruence.
       exact (cleared_content R dst s s1 a c H1 Ha Hca Hne). }
  cbn [cells set_cells s4 o_type o_data]; rewrite H3, bumps_insert, !insert_insert_eq by exact Hdl.
  eapply attach_wf; [exact Hd0|exact HW1|exact Ed1|lia|exact Hc1|exact Hdl|exact Hl1|right; exact Hob1|reflexivity|reflexivity].
Qed.

(** *** Shallow copies *)

Lemma typed_like h x y : o_type y = o_type x -> o_data y = o_data x -> typed h (C_OBJECT x) -> typed h (C_OBJECT y).
Proof. intros Ht Hd; cbn [typed]; rewrite Ht, Hd; auto. Qed.

Lemma pointers_like x y : o_type y = o_type x -> o_data y = o_data x ->
  pointers (C_OBJECT y) = pointers (C_OBJECT x) /\ is_reference y = is_reference x /\ next_in_chain y = next_in_chain x.
Proof. intros Ht Hd; unfold next_in_chain, pointers, object_pointers, is_reference; rewrite Ht, Hd; auto. Qed.

(** A source that is held, once the destination is cleared. *)
Definition source (R : list Z) (dst src : Z) (x : object) (s s1 : ost W) : Prop :=
  cleared R dst s s1 /\ dst <> 0 /\ room 1 (cells s1) /\ typed (cells s1) (C_OBJECT x) /\
  exists n, cells s1 !! src = Some (n, C_OBJECT x) /\ 0 < n /\ src <> dst.

(** The result of copying [x]. *)
Definition copied (R : list Z) (dst : Z) (s : ost W) (x : object) (r : option (uacpi_status * ost W)) : Prop := exists s' y,
  r = Some (UACPI_STATUS_OK, s') /\ assigned R dst (cells s) (cells s') y /\ o_type y = o_type x /\
  (o_type x <> OBJECT_UNINITIALIZED -> o_type x <> OBJECT_DEBUG -> o_data y = o_data x \/ pointer_of (o_data x) = Some 0 /\ o_data y = D_POINTER 0).

Definition finish (dst : Z) (x : object) (ret : uacpi_status) : SM (ost W) uacpi_status :=
  (if is_ok ret then set_type dst (o_type x) else mret tt);; mret ret.

Lemma finish_shared R dst src x s s1 p c copy : source R dst src x s s1 -> pointers (C_OBJECT x) = [p] -> is_reference x = false ->
  content (cells s1) p = Some c -> (forall o, c <> C_OBJECT o) ->
  (forall n z m, cells s1 !! dst = Some (n, C_OBJECT z) -> cells s1 !! p = Some (m, c) -> p <> dst -> 0 < m < BUGGED_REFCOUNT ->
     exists f, copy s1 = Some (UACPI_STATUS_OK, set_cells (<[dst := (n, C_OBJECT {| o_type := o_type z; o_flags := f; o_data := o_data x |})]> (alter bump1 p (cells s1))) s1)) ->
  copied R dst s x (mbind (finish dst x) copy s1).
Proof.
  intros (H1 & Hd & Hr & Ht & n & Es & Hn & Hsd) Hpx Hrf Hc Hco Hcopy; destruct (cleared_dst _ _ _ _ H1) as (n1 & x1 & Ed & Hn1).
  unfold content in Hc; destruct (cells s1 !! p) as [[m c']|] eqn:Ep; [|discriminate]; injection Hc as ->.
  assert (Hm : 0 < m).
  { destruct H1 as (L & k & n' & x' & _ & HW & _); apply (pointed_live dst _ _ _ src n _ p m c HW Hsd Es Hn); [rewrite Hpx; left|exact Ep]. }
  assert (Hpd : p <> dst) by (intros ->; rewrite Ed in Ep; injection Ep as _ <-; eapply Hco; reflexivity).
  pose proof (Hr p m c Ep) as Hm1; destruct (Hcopy n1 x1 m Ed eq_refl Hpd ltac:(lia)) as [f Ef]; rewrite (SM_bind_Some _ _ _ _ _ Ef).
  unfold finish; cbn [is_ok]; set (s2 := set_cells _ s1).
  assert (Ed2 : cells s2 !! dst = Some (n1, C_OBJECT {| o_type := o_type x1; o_flags := f; o_data := o_data x |})) by apply lookup_insert_eq.
  rewrite (SM_bind_Some _ _ _ _ _ (set_type_run s2 dst _ _ (o_type x) Ed2)); cbn [o_flags o_data].
  set (y := {| o_type := o_type x; o_flags := f; o_data := o_data x |}); destruct (pointers_like x y eq_refl eq_refl) as (Hpy & Hry & _).
  eexists _, y; split; [reflexivity|split; [|split; [reflexivity|left; reflexivity]]].
  unfold s2; cbn [cells set_cells]; rewrite insert_insert_eq.
  eapply (assign_shared R dst s s1 p m c); [exact H1|exact Hd|exact Ep|exact Hco|exact Hm|lia|congruence|congruence|exact (typed_like _ _ y eq_refl eq_refl Ht)|exact Ed].
Qed.

Lemma finish_plain R dst src x s s1 copy : source R dst src x s s1 ->
  (o_type x = OBJECT_INTEGER \/ o_type x = OBJECT_UNINITIALIZED \/ o_type x = OBJECT_DEBUG) ->
  (forall n z, cells s1 !! dst = Some (n, C_OBJECT z) ->
     exists d, copy s1 = Some (UACPI_STATUS_OK, set_cells (<[dst := (n, C_OBJECT {| o_type := o_type z; o_flags := o_flags z; o_data := d |})]> (cells s1)) s1) /\
       (o_type x = OBJECT_INTEGER -> d = o_data x)) ->
  copied R dst s x (mbind (finish dst x) copy s1).
Proof.
  intros (H1 & Hd & Hr & Ht & n & Es & Hn & Hsd) Hx Hcopy; destruct (cleared_dst _ _ _ _ H1) as (n1 & x1 & Ed & Hn1).
  destruct (Hcopy n1 x1 Ed) as (d & Ef & Hdx); rewrite (SM_bind_Some _ _ _ _ _ Ef); unfold finish; cbn [is_ok]; set (s2 := set_cells _ s1).
  assert (Ed2 : cells s2 !! dst = Some (n1, C_OBJECT {| o_type := o_type x1; o_flags := o_flags x1; o_data := d |})) by apply lookup_insert_eq.
  rewrite (SM_bind_Some _ _ _ _ _ (set_type_run s2 dst _ _ (o_type x) Ed2)); cbn [o_flags o_data].
  eexists _, {| o_type := o_type x; o_flags := o_flags x1; o_data := d |}; split; [reflexivity|split; [|split; [reflexivity|]]].
  - unfold s2; cbn [cells set_cells]; rewrite insert_insert_eq.
    assert (Hv : exists v, o_type x = OBJECT_INTEGER /\ d = D_INTEGER v \/ o_type x = OBJECT_UNINITIALIZED \/ o_type x = OBJECT_DEBUG).
    { cbn [typed] in Ht; destruct Hx as [Hx|Hx]; [|exists 0; auto]; rewrite Hx in Ht; destruct Ht as [v Hv]; exists v; rewrite (Hdx Hx), Hv; auto. }
    destruct Hv as [v Hv]; eapply (assign_plain_run R dst s s1 v); [exact H1|exact Hd|exact Hv|exact Ed].
  - intros Hu Hdb; left; cbn; apply Hdx; destruct Hx as [Hx|[Hx|Hx]]; [exact Hx|contradiction|contradiction].
Qed.

Lemma finish_reference R dst src x s s1 p l n : source R dst src x s s1 -> o_type x = OBJECT_REFERENCE -> pointer_of (o_data x) = Some p ->
  chain (cells s1) p l -> dst ∉ l -> (exists z, cells s1 !! dst = Some (n, C_OBJECT z)) -> room n (cells s1) ->
  exists s' y, mbind (finish dst x) (uacpi_object_attach_child dst p;; mret UACPI_STATUS_OK) s1 = Some (UACPI_STATUS_OK, s') /\
    assigned R dst (cells s) (cells s') y /\ o_type y = OBJECT_REFERENCE /\ o_data y = D_POINTER p.
Proof.
  intros (H1 & Hd & _ & Ht & ns & Es & Hns & Hsd) Hx Hp Hc Hdl [z Ed] Hr.
  pose proof H1 as (L & m & n' & x' & _ & HW & HL & Ed' & Hn & HP); rewrite Ed' in Ed; injection Ed as -> ->.
  assert (Hrx : is_reference x = true) by (unfold is_reference; rewrite Hx; reflexivity).
  cbn [typed] in Ht; rewrite Hx in Ht; destruct Ht as (p' & Hp' & Hpo); rewrite Hp in Hp'; injection Hp' as <-.
  assert (Hl : steady n (cells s1) l).
  { eapply steady_live; [exact HW|exact Hc| |exact Hr]; destruct Hpo as [Hpo|[y Hy]]; [left; exact Hpo|right].
    unfold content in Hy; destruct (cells s1 !! p) as [[mp cp]|] eqn:Ep; [|discriminate]; exists mp, cp; split; [reflexivity|].
    eapply (pointed_live dst); [exact HW|exact Hsd|exact Es|exact Hns| |exact Ep].
    rewrite (reference_pointers x p Hrx) by (unfold next_in_chain; rewrite Hrx; exact Hp); apply list_elem_of_filter; split; [intros ->|left].
    rewrite (wf_null _ _ _ _ HW) in Ep; discriminate. }
  rewrite (SM_bind_Some _ _ _ UACPI_STATUS_OK _) by (rewrite (SM_bind_Some _ _ _ _ _ (attach_run s1 dst p n z l Ed' Hn Hc Hdl Hl)); reflexivity).
  unfold finish; cbn [is_ok]; set (s2 := set_cells _ s1).
  assert (Ed2 : cells s2 !! dst = Some (n, C_OBJECT {| o_type := o_type z; o_flags := o_flags z; o_data := D_POINTER p |})) by apply lookup_insert_eq.
  rewrite (SM_bind_Some _ _ _ _ _ (set_type_run s2 dst _ _ (o_type x) Ed2)); cbn [o_flags o_data]; rewrite Hx.
  eexists _, {| o_type := OBJECT_REFERENCE; o_flags := o_flags z; o_data := D_POINTER p |}; split; [reflexivity|split; [|split; reflexivity]].
  exists L, n; unfold s2; cbn [cells set_cells]; rewrite insert_insert_eq; split; [|split; [apply lookup_insert_eq|split; [exact HP|]]].
  2: { intros a c Ha Hne Hca; rewrite content_ne, (bumps_content (Z.to_nat n) l _ a) by congruence; exact (cleared_content R dst s s1 a c H1 Ha Hca Hne). }
  eapply attach_wf; [exact Hd|exact HW|exact Ed'|lia|exact Hc|exact Hdl|exact Hl|exact Hpo|reflexivity|reflexivity].
Qed.

Lemma pointer_data d p : pointer_of d = Some p -> p <> 0 -> d = D_POINTER p.
Proof. destruct d as [v| | | |]; cbn; try congruence; destruct (v =? 0); congruence. Qed.

Lemma field_data d f : buffer_field_of d = Some f -> backing f <> 0 -> d = D_BUFFER_FIELD f.
Proof. destruct d as [v| | | |]; cbn; try congruence; destruct (v =? 0); [|congruence]; intros [= <-]; cbn; congruence. Qed.

Lemma index_data d i : buffer_index_of d = Some i -> snd i <> 0 -> d = D_BUFFER_INDEX (fst i) (snd i).
Proof. destruct d as [v| | | |]; cbn; try congruence; [destruct (v =? 0); [|congruence]|]; intros [= <-]; cbn; congruence. Qed.

(** An object whose storage is shared through its pointer. *)
Lemma copy_pointer R dst src x s s1 p c copy : source R dst src x s s1 -> pointer_of (o_data x) = Some p -> content (cells s1) p = Some c ->
  (forall o, c <> C_OBJECT o) -> object_pointers x = [p] -> is_reference x = false ->
  (copy = share dst p \/ exists f, copy = (set_flags dst f;; share dst p)) -> copied R dst s x (mbind (finish dst x) copy s1).
Proof.
  intros HS Hp Hc Hco Hox Hrx Hcopy.
  assert (Hp0 : p <> 0).
  { destruct HS as ((L & m & n' & x' & _ & HW & _) & _); intros ->; unfold content in Hc; rewrite (wf_null _ _ _ _ HW) in Hc; discriminate. }
  eapply (finish_shared R dst src x s s1 p c); [exact HS| |exact Hrx|exact Hc|exact Hco|].
  { unfold pointers; rewrite Hox; unfold nonnull; rewrite filter_cons_True by exact Hp0; reflexivity. }
  intros n z m Ed Ep Hpd Hm; rewrite (pointer_data _ _ Hp Hp0); destruct Hcopy as [->|[f ->]].
  - exists (o_flags z); apply (share_run s1 dst p n z m c Ed Ep Hpd Hm).
  - exists f; rewrite (SM_bind_Some _ _ _ _ _ (set_flags_run s1 dst n z f Ed)); set (s2 := set_cells _ s1).
    rewrite (share_run s2 dst p n {| o_type := o_type z; o_flags := f; o_data := o_data z |} m c); [|apply lookup_insert_eq| |exact Hpd|exact Hm].
    + unfold s2; cbn [cells set_cells o_type o_flags]; rewrite alter_insert_ne, insert_insert_eq by congruence; reflexivity.
    + unfold s2; cbn; rewrite lookup_insert_ne by congruence; exact Ep.
Qed.

Lemma copy_shallow fuel R dst src x s s1 n : source R dst src x s s1 -> o_type x <> OBJECT_POWER_RESOURCE ->
  (exists z, cells s1 !! dst = Some (n, C_OBJECT z)) -> room n (cells s1) -> (exists l, chain (cells s1) src l /\ dst ∉ l) ->
  copied R dst s x (mbind (finish dst x) (copy_contents (deep_copy_package fuel) dst x ASSIGN_BEHAVIOR_SHALLOW_COPY) s1).
Proof.
  intros HS Hpr Hdst Hr Hch; pose proof HS as (H1 & Hd0 & _ & Ht & _); unfold copy_contents, assign_buffer, assign_mutex, assign_event, assign_package.
  assert (Hn0 : forall p, content (cells s1) p <> None -> p <> 0).
  { intros p Hp ->; destruct H1 as (L & m & n' & x' & _ & HW & _); apply Hp; unfold content; rewrite (wf_null _ _ _ _ HW); reflexivity. }
  cbn [typed] in Ht; destruct (o_type x) eqn:Et; try contradiction.
  all: try (eapply finish_plain; [exact HS|rewrite Et; auto|]; intros m z Ed; exists (o_data z); split; [|congruence]; destruct z; cbn; rewrite insert_id by exact Ed; rewrite set_cells_id; reflexivity).
  { destruct Ht as [v Hv]; rewrite Hv; eapply finish_plain; [exact HS|rewrite Et; auto|]; intros m z Ed; exists (D_INTEGER v); split; [|intros _; symmetry; exact Hv].
    rewrite (SM_bind_Some _ _ _ v s1) by reflexivity; rewrite (SM_bind_Some _ _ _ _ _ (set_data_run s1 dst m z (D_INTEGER v) Ed)); reflexivity. }
  1, 2: destruct Ht as (p & Hp & d & k & Hb); rewrite Hp; eapply (copy_pointer R dst src x s s1 p _ _ HS Hp Hb); [discriminate|
    unfold object_pointers; rewrite Et, Hp; reflexivity|unfold is_reference; rewrite Et; reflexivity|right; exists (o_flags x); reflexivity].
  1, 2, 3: destruct Ht as (p & y & Hp & Hb); rewrite Hp; eapply (copy_pointer R dst src x s s1 p _ _ HS Hp Hb); [discriminate|
    unfold object_pointers; rewrite Et, Hp; reflexivity|unfold is_reference; rewrite Et; reflexivity|left; reflexivity].
  - destruct Ht as (p & Hp & y & Hb); rewrite Hp; eapply (copy_pointer R dst src x s s1 p _ _ HS Hp Hb); [discriminate|
    unfold object_pointers; rewrite Et, Hp; reflexivity|unfold is_reference; rewrite Et; reflexivity|left; reflexivity].
  - destruct Ht as (f & Hf & d & k & Hb); rewrite Hf; assert (Hb0 : backing f <> 0) by (apply Hn0; congruence).
    eapply (finish_shared R dst src x s s1 (backing f)); [exact HS| |unfold is_reference; rewrite Et; reflexivity|exact Hb|discriminate|].
    + unfold pointers, object_pointers; rewrite Et, Hf; unfold nonnull; rewrite filter_cons_True by exact Hb0; reflexivity.
    + intros m z j Ed Ep Hpd Hj; rewrite (field_data _ _ Hf Hb0); exists (o_flags z); rewrite (SM_bind_Some _ _ _ f s1) by reflexivity.
      exact (install_run s1 dst (D_BUFFER_FIELD f) _ m z j _ Ed Ep Hpd Hj).
  - destruct Hch as (l & Hl & Hdl); pose proof HS as (_ & _ & _ & _ & k & Es & Hk & Hsd); inversion Hl as [|a y b l' Ha Ey Hb Hc']; subst.
    { destruct H1 as (L & m & n' & x' & _ & HW & _); rewrite (wf_null _ _ _ _ HW) in Es; discriminate. }
    unfold content in Ey; rewrite Es in Ey; injection Ey as <-; unfold next_in_chain, is_reference in Hb; rewrite Et in Hb; rewrite Hb.
    destruct (finish_reference R dst src x s s1 b l' n HS Et Hb Hc' ltac:(apply not_elem_of_cons in Hdl; tauto) Hdst Hr) as (s' & y & E & HA & Hty & Hdy).
    exists s', y; split; [exact E|split; [exact HA|split; [congruence|intros _ _]]].
    destruct (Z.eq_dec b 0) as [->|Hb0]; [right; auto|left; rewrite Hdy; symmetry; apply pointer_data; assumption].
  - destruct Ht as (i & Hi & d & k & Hb); rewrite Hi; assert (Hb0 : snd i <> 0) by (apply Hn0; congruence).
    eapply (finish_shared R dst src x s s1 (snd i)); [exact HS| |unfold is_reference; rewrite Et; reflexivity|exact Hb|discriminate|].
    + unfold pointers, object_pointers; rewrite Et, Hi; unfold nonnull; rewrite filter_cons_True by exact Hb0; reflexivity.
    + intros m z j Ed Ep Hpd Hj; rewrite (index_data _ _ Hi Hb0); exists (o_flags z); rewrite (SM_bind_Some _ _ _ i s1) by reflexivity.
      exact (install_run s1 dst (D_BUFFER_INDEX (fst i) (snd i)) _ m z j _ Ed Ep Hpd Hj).
Qed.

(** [uacpi_object_assign] with shared storage; a reference must not come to refer to itself. *)
Lemma assign_shallow_run fuel R dst src (s : ost W) n xd x : wf 0 R [] (cells s) -> dst ∈ R -> src ∈ R -> src <> dst ->
  cells s !! dst = Some (n, C_OBJECT xd) -> clearable (o_type xd) -> content (cells s) src = Some (C_OBJECT x) -> o_type x <> OBJECT_POWER_RESOURCE ->
  room n (cells s) -> (forall l, chain (cells s) src l -> dst ∉ l) ->
  copied R dst s x (uacpi_object_assign fuel dst src ASSIGN_BEHAVIOR_SHALLOW_COPY s).
Proof.
  intros HW Hd Hs Hsd E Hcl Hx Hpr Hr Hac; unfold uacpi_object_assign, assign_object, object_assign; rewrite (proj2 (Z.eqb_neq src dst) Hsd).
  destruct (clear_run R dst s n xd HW Hd E Hcl) as (s1 & E1 & H1); rewrite (SM_bind_Some _ _ _ _ _ E1).
  pose proof (cleared_content R dst s s1 src _ H1 Hs Hx Hsd) as Hx1.
  assert (HH : exists n1 z, cells s1 !! dst = Some (n1, C_OBJECT z) /\ room n1 (cells s1) /\ 0 < n1).
  { destruct H1 as (L & m & n1 & z & [c0 Em0] & _ & HL & Ed & Hn1 & _); exists n1, z; split; [exact Ed|split; [|lia]].
    destruct (HL dst n1 _ Ed) as (m' & Em & Hm); rewrite lookup_insert_eq in Em; injection Em as <-; rewrite E in Em0; injection Em0 as <- <-.
    intros a k c Ek; pose proof (room_lowers n dst n z (cells s) (cells s1) _ E HL Hr a k c Ek); lia. }
  destruct HH as (n1 & z & Ed & Hr1 & Hn1).
  assert (HS : source R dst src x s s1).
  { pose proof H1 as (L & m & n' & x' & _ & HW1 & _); destruct (root_live _ _ _ _ src HW1 ltac:(apply elem_of_app; right; exact Hs)) as (k & c & Ek & Hk).
    unfold content in Hx1; rewrite Ek in Hx1; injection Hx1 as ->.
    split; [exact H1|split; [intros ->; rewrite (wf_null _ _ _ _ HW) in E; discriminate|split; [intros a j c Ej; pose proof (Hr1 a j c Ej); lia|]]].
    split; [apply (wf_typed _ _ _ _ HW1 src k _ Hsd Ek); lia|exists k; split; [exact Ek|split; [lia|exact Hsd]]]. }
  unfold content in Hx1; destruct (cells s1 !! src) as [[k c]|] eqn:Es; [|discriminate]; injection Hx1 as ->.
  rewrite (SM_bind_Some _ _ _ _ _ (get_object_run _ _ _ _ Es)).
  change (copied R dst s x (mbind (finish dst x) (copy_contents (deep_copy_package fuel) dst x ASSIGN_BEHAVIOR_SHALLOW_COPY) s1)).
  apply (copy_shallow fuel R dst src x s s1 n1 HS Hpr); [eauto|exact Hr1|].
  destruct (root_live _ _ _ _ src HW Hs) as (j & c & Ej & Hj); pose proof Hx as Hx'; unfold content in Hx'; rewrite Ej in Hx'; injection Hx' as ->.
  destruct (wf_chain _ _ _ _ HW src j x Ej ltac:(lia)) as [l Hl]; exists l; split; [|apply Hac, Hl].
  apply (cleared_chain R dst s s1 src l H1 Hs); [exists x; exact Hx|exact Hsd|exact Hl|apply Hac, Hl].
Qed.
End Api.
