(* ===== verification/ObjMake.v ===== *)
(** * Objects: creation, and clients

    The operations that create objects, and a client that keeps a list of the references
    it holds: whatever it does, every count stays exact and every object is what its type
    says. *)

From S2P Require Import Prelude UCore Shareable Objects ObjCount ObjFree ObjRefs ObjApi.

Open Scope word_scope.

Section Create.
Context {W : Type} {OH : ObjectHost W} {RL : @ReleaseLaws W OH} {AL : AllocLaws W}.
#[local] Existing Instance memory.

Definition bare (t : uacpi_object_type) : object := {| o_type := t; o_flags := 0; o_data := D_INTEGER 0 |}.

Lemma create_run t (s : ost W) : object_constructor_table (W := W) t = None -> exists o s', uacpi_create_object t s = Some (o, s') /\
  ((o = 0 /\ cells s' = cells s /\ ~ abundant) \/ (o <> 0 /\ cells s !! o = None /\ cells s' = <[o := (1, C_OBJECT (bare t))]> (cells s))).
Proof.
  intros Ht; unfold uacpi_create_object, create_bare; destruct (new_cell_run sizeof_object (C_OBJECT (bare t)) s) as (o & s1 & E1 & H1).
  exists o, s1; split; [|exact H1]; unfold bare in E1; rewrite (SM_bind_Some _ _ _ _ _ E1), Ht; destruct (o =? 0) eqn:E; [|reflexivity].
  apply Z.eqb_eq in E as ->; reflexivity.
Qed.

(** An object that refers to nothing and that nobody else holds. *)
Lemma unref_fresh_run (s : ost W) o x : cells s !! o = Some (1, C_OBJECT x) -> o <> 0 -> o_type x = OBJECT_UNINITIALIZED ->
  exists s', uacpi_object_unref o s = Some (tt, s') /\ cells s' = delete o (cells s).
Proof.
  intros E Ho Hx; assert (Hsz : exists k, size (cells s) = S k).
  { destruct (size (cells s)) eqn:Es; [|eauto]; apply map_size_empty_iff in Es; rewrite Es, lookup_empty in E; discriminate. }
  destruct Hsz as [k Hk]; unfold uacpi_object_unref, with_free, object_unref; rewrite (SM_bind_Some _ _ _ (S (size (cells s))) s) by reflexivity.
  rewrite (proj2 (Z.eqb_neq o 0) Ho), (SM_bind_Some _ _ _ (S (size (cells s))) s) by reflexivity; rewrite Hk.
  set (s1 := set_cells (<[o := (1 - 1, C_OBJECT x)]> (cells s)) s); assert (Eo : cells s1 !! o = Some (0, C_OBJECT x)) by apply lookup_insert_eq.
  assert (Hnx : next_in_chain x = Some 0) by (unfold next_in_chain, is_reference; rewrite Hx; reflexivity).
  rewrite (SM_bind_Some _ _ _ true s1).
  2: { cbn [unref_chain]; rewrite (proj2 (Z.eqb_neq o 0) Ho).
       rewrite (SM_bind_Some _ _ _ _ _ (bugged_run _ _ _ _ E ltac:(unfold BUGGED_REFCOUNT; lia))), (SM_bind_Some _ _ _ _ _ (unref_run _ _ _ _ E ltac:(unfold BUGGED_REFCOUNT; lia))).
       fold s1; rewrite (SM_bind_Some _ _ _ _ _ (get_object_run _ _ _ _ Eo)), Hnx, (SM_bind_Some _ _ _ 0 s1) by reflexivity; reflexivity. }
  cbn [negb]; rewrite (SM_bind_Some _ _ _ _ _ (refcount_run _ _ _ _ Eo)); cbn [Z.eqb free_chain].
  rewrite (proj2 (Z.eqb_neq o 0) Ho), (SM_bind_Some _ _ _ _ _ (get_object_run _ _ _ _ Eo)), Hnx, (SM_bind_Some _ _ _ 0 s1) by reflexivity.
  rewrite (SM_bind_Some _ _ _ _ _ (refcount_run _ _ _ _ Eo)); cbn [Z.eqb].
  exists (set_cells (delete o (cells s1)) s1); split; [|unfold s1; cbn; rewrite delete_insert_eq; reflexivity].
  rewrite (SM_bind_Some _ _ _ tt (set_cells (delete o (cells s1)) s1)); [reflexivity|]; cbn [free_object]; unfold free_object_with.
  rewrite (SM_bind_Some _ _ _ tt s1); [apply (free_cell_run _ _ _ Eo)|]; unfold free_object_storage.
  rewrite (SM_bind_Some _ _ _ _ _ (get_object_run _ _ _ _ Eo)), Hx; reflexivity.
Qed.

(** What a function that creates an object yields: the object is held by the caller, or
    there was no memory and nothing has changed. *)
Definition created (R : list Z) (s : ost W) (r : option (Z * ost W)) (good : Z -> heap -> Prop) : Prop := exists o s', r = Some (o, s') /\
  ((o = 0 /\ cells s' = cells s /\ ~ abundant) \/
   (o <> 0 /\ cells s !! o = None /\ exists L, wf 0 (L ++ o :: R) [] (cells s') /\ (plenty -> L = []) /\ good o (cells s') /\
      (forall a c, a ∈ R -> content (cells s) a = Some c -> content (cells s') a = Some c))).

Lemma content_fresh (h : heap) o x a c : h !! o = None -> content h a = Some c -> content (<[o := x]> h) a = Some c.
Proof. intros Hf Hc; rewrite content_ne; [exact Hc|]; intros ->; unfold content in Hc; rewrite Hf in Hc; discriminate. Qed.


Lemma bare_wf R t (h : heap) o : wf 0 R [] h -> h !! o = None -> o <> 0 -> t = OBJECT_UNINITIALIZED \/ t = OBJECT_INTEGER \/ t = OBJECT_REFERENCE ->
  wf 0 (o :: R) [] (<[o := (1, C_OBJECT (bare t))]> h).
Proof.
  intros HW Hf Ho Ht; apply new_wf; [|exact Hf|exact Ho| |].
  - destruct Ht as [->|[->| ->]]; exact HW.
  - destruct Ht as [->|[->| ->]]; cbn; [exact I|eauto|exists 0; auto].
  - intros y [= <-]; destruct Ht as [->|[->| ->]]; reflexivity.
Qed.

Lemma create_uninitialized_run R (s : ost W) : wf 0 R [] (cells s) ->
  created R s (uacpi_object_create_uninitialized s) (fun o h => content h o = Some (C_OBJECT (bare OBJECT_UNINITIALIZED))).
Proof.
  intros HW; destruct (create_run OBJECT_UNINITIALIZED s eq_refl) as (o & s1 & E1 & [H1|(Ho & Hf & Hs)]); exists o, s1; split; auto; right.
  split; [exact Ho|split; [exact Hf|exists []]]; rewrite Hs; split; [apply bare_wf; auto|split; [reflexivity|split; [unfold content; rewrite lookup_insert_eq; reflexivity|]]].
  intros a c _; apply content_fresh, Hf.
Qed.

Lemma create_integer_run R v (s : ost W) : wf 0 R [] (cells s) ->
  created R s (uacpi_object_create_integer v s) (fun o h => content h o = Some (C_OBJECT {| o_type := OBJECT_INTEGER; o_flags := 0; o_data := D_INTEGER v |})).
Proof.
  intros HW; unfold uacpi_object_create_integer; destruct (create_run OBJECT_INTEGER s eq_refl) as (o & s1 & E1 & [(-> & H1 & Hab)|(Ho & Hf & Hs)]); rewrite (SM_bind_Some _ _ _ _ _ E1).
  { exists 0, s1; split; [reflexivity|left; auto]. }
  assert (Eo : cells s1 !! o = Some (1, C_OBJECT (bare OBJECT_INTEGER))) by (rewrite Hs; apply lookup_insert_eq).
  rewrite (proj2 (Z.eqb_neq o 0) Ho), (SM_bind_Some _ _ _ _ _ (set_data_run _ _ _ _ (D_INTEGER v) Eo)); cbn [bare o_type o_flags].
  eexists o, _; split; [reflexivity|right; split; [exact Ho|split; [exact Hf|exists []]]]; cbn [cells set_cells app]; rewrite Hs, insert_insert_eq.
  split; [|split; [reflexivity|split; [unfold content; rewrite lookup_insert_eq; reflexivity|intros a c _; apply content_fresh, Hf]]].
  apply new_wf; [exact HW|exact Hf|exact Ho|cbn; eauto|intros y [= <-]; reflexivity].
Qed.

(** The bytes that a string or a buffer object holds. *)
Definition holds_bytes (t : uacpi_object_type) (bytes : list Z) (o : Z) (h : heap) : Prop := exists f buf,
  content h o = Some (C_OBJECT {| o_type := t; o_flags := f; o_data := D_POINTER buf |}) /\
  content h buf = Some (C_BUFFER (written_bytes t bytes) (written_size t bytes)).

Lemma create_bytes_run fuel R t bytes (s : ost W) : wf 0 R [] (cells s) -> string_type t ->
  created R s (uacpi_object_do_create_string_or_buffer fuel bytes t s) (holds_bytes t bytes).
Proof.
  intros HW Ht; unfold uacpi_object_do_create_string_or_buffer.
  destruct (create_run OBJECT_UNINITIALIZED s eq_refl) as (o & s1 & E1 & [(-> & H1 & Hab)|(Ho & Hf & Hs)]); rewrite (SM_bind_Some _ _ _ _ _ E1).
  { exists 0, s1; split; [reflexivity|left; auto]. }
  assert (Eo : cells s1 !! o = Some (1, C_OBJECT (bare OBJECT_UNINITIALIZED))) by (rewrite Hs; apply lookup_insert_eq).
  assert (HW1 : wf 0 (o :: R) [] (cells s1)) by (rewrite Hs; apply bare_wf; auto).
  rewrite (proj2 (Z.eqb_neq o 0) Ho).
  destruct (do_assign_buffer_run fuel (o :: R) o t bytes s1 1 (bare OBJECT_UNINITIALIZED) HW1 ltac:(left) Eo) as (ret & s2 & E2 & H2); [split; discriminate|exact Ht|].
  rewrite (SM_bind_Some _ _ _ _ _ E2); destruct H2 as [(-> & H2 & Hab)|[-> (buf & (L & n & HW2 & En & Hp & HK) & Hb)]]; cbn [is_ok negb].
  - assert (Eo2 : cells s2 !! o = Some (1, C_OBJECT (bare OBJECT_UNINITIALIZED))) by (rewrite H2; exact Eo).
    destruct (unref_fresh_run s2 o _ Eo2 Ho eq_refl) as (s3 & E3 & H3); rewrite (SM_bind_Some _ _ _ _ _ E3).
    exists 0, s3; split; [reflexivity|left; split; [reflexivity|split; [|exact Hab]]]; rewrite H3, H2, Hs, delete_insert_eq; apply delete_id, Hf.
  - exists o, s2; split; [reflexivity|right; split; [exact Ho|split; [exact Hf|exists L]]]; split; [exact HW2|split; [exact Hp|split]].
    + exists 0, buf; split; [unfold content; rewrite En; reflexivity|exact Hb].
    + intros a c Ha Hc; apply HK; [right; exact Ha| |rewrite Hs; apply content_fresh; assumption].
      intros ->; unfold content in Hc; rewrite Hf in Hc; discriminate.
Qed.

Lemma create_reference_run R child (s : ost W) : wf 0 R [] (cells s) -> child ∈ R -> is_object (cells s) child -> room 1 (cells s) ->
  created R s (uacpi_object_create_reference child s)
    (fun o h => content h o = Some (C_OBJECT {| o_type := OBJECT_REFERENCE; o_flags := UACPI_REFERENCE_KIND_ARG; o_data := D_POINTER child |})).
Proof.
  intros HW Hch [x Hx] Hr; assert (Hc0 : child <> 0) by (intros ->; unfold content in Hx; rewrite (wf_null _ _ _ _ HW) in Hx; discriminate).
  unfold uacpi_object_create_reference; rewrite (proj2 (Z.eqb_neq child 0) Hc0).
  destruct (create_run OBJECT_REFERENCE s eq_refl) as (o & s1 & E1 & [(-> & H1 & Hab)|(Ho & Hf & Hs)]); rewrite (SM_bind_Some _ _ _ _ _ E1).
  { exists 0, s1; split; [reflexivity|left; auto]. }
  rewrite (proj2 (Z.eqb_neq o 0) Ho); assert (Eo : cells s1 !! o = Some (1, C_OBJECT (bare OBJECT_REFERENCE))) by (rewrite Hs; apply lookup_insert_eq).
  destruct (root_live _ _ _ _ child HW Hch) as (n & c & Ec & Hn); unfold content in Hx; rewrite Ec in Hx; injection Hx as ->.
  destruct (wf_chain _ _ _ _ HW child n x Ec ltac:(lia)) as [l Hl].
  assert (Hol : o ∉ l).
  { intros Hi; destruct (steady_live _ _ _ _ _ _ 1 HW Hl ltac:(right; exists n, (C_OBJECT x); split; [exact Ec|lia]) Hr o Hi) as (? & ? & ? & _); congruence. }
  assert (HW1 : wf 0 (o :: R) [] (cells s1)) by (rewrite Hs; apply bare_wf; auto).
  assert (HW2 : wf o (o :: R) [] (cells s1)).
  { pose proof (enter_wf (o :: R) [] (cells s1) o 1 _ (bare OBJECT_REFERENCE) HW1 Eo ltac:(lia) eq_refl) as HW2.
    rewrite insert_id in HW2 by exact Eo; exact HW2. }
  assert (HO : forall y, y ∈ l -> cells s1 !! y = cells s !! y) by (intros y Hy; rewrite Hs; apply lookup_insert_ne; intros ->; contradiction).
  assert (Hl1 : chain (cells s1) child l) by (apply (chain_same (cells s)); [intros y Hy; unfold content; rewrite HO by exact Hy; reflexivity|exact Hl]).
  assert (Hst : steady 1 (cells s1) l).
  { intros y Hy; rewrite HO by exact Hy; apply (steady_live _ _ _ _ _ _ 1 HW Hl); [right; exists n, (C_OBJECT x); split; [exact Ec|lia]|exact Hr|exact Hy]. }
  rewrite (SM_bind_Some _ _ _ _ _ (attach_run s1 o child 1 _ l Eo ltac:(unfold BUGGED_REFCOUNT; lia) Hl1 Hol Hst)); set (s2 := set_cells _ s1).
  assert (Eo2 : cells s2 !! o = Some (1, C_OBJECT {| o_type := OBJECT_REFERENCE; o_flags := 0; o_data := D_POINTER child |})) by apply lookup_insert_eq.
  rewrite (SM_bind_Some _ _ _ _ _ (set_flags_run s2 o _ _ UACPI_REFERENCE_KIND_ARG Eo2)); eexists o, _; split; [reflexivity|right].
  split; [exact Ho|split; [exact Hf|exists []]]; cbn [cells set_cells o_type o_data]; split; [|split; [reflexivity|split; [unfold content; rewrite lookup_insert_eq; reflexivity|]]].
  2: { intros a e Ha He; unfold s2; cbn [cells set_cells]; assert (Hoa : o <> a) by (intros ->; unfold content in He; rewrite Hf in He; discriminate).
       rewrite !content_ne, (bumps_content (Z.to_nat 1) l _ a), Hs, content_ne by exact Hoa; exact He. }
  unfold s2; cbn [cells set_cells app]; rewrite insert_insert_eq.
  eapply attach_wf; [exact Ho|exact HW2|exact Eo|lia|exact Hl1|exact Hol|exact Hst| |reflexivity|reflexivity].
  right; exists x; unfold content; rewrite Hs, lookup_insert_ne, Ec by congruence; reflexivity.
Qed.

(** *** Packages *)

Lemma new_package_run k (s : ost W) : exists pkg s', new_package (Z.of_nat k) false s = Some (pkg, s') /\
  ((pkg = 0 /\ cells s' = cells s /\ ~ abundant) \/ (pkg <> 0 /\ cells s !! pkg = None /\ cells s' = <[pkg := (1, C_PACKAGE (replicate k 0))]> (cells s))).
Proof.
  unfold new_package, uacpi_package_fill; destruct (new_cell_run sizeof_package (C_PACKAGE []) s) as (pkg & s1 & E1 & [(-> & Hs & Hab)|(Hp & Hf & Hs)]); rewrite (SM_bind_Some _ _ _ _ _ E1).
  { exists 0, s1; split; [reflexivity|left; auto]. }
  rewrite (proj2 (Z.eqb_neq pkg 0) Hp); assert (Ep : cells s1 !! pkg = Some (1, C_PACKAGE [])) by (rewrite Hs; apply lookup_insert_eq).
  destruct (Z.eqb_spec (Z.of_nat k) 0) as [Hk|Hk].
  { assert (k = O) as -> by lia; exists pkg, s1; split; [reflexivity|right; auto]. }
  destruct (rl_bytes (u64 (Z.of_nat k * 8)) (oworld s1)) as (r & w & Ew); destruct r as [arr|].
  - rewrite (SM_bind_Some _ _ _ true (set_cells (<[pkg := (1, C_PACKAGE (replicate k 0))]> (cells s)) (set_oworld w s1))).
    2: { rewrite (SM_bind_Some _ _ _ _ _ (on_host_run _ _ _ _ Ew)), (SM_bind_Some _ _ _ _ _ (write_run (set_oworld w s1) _ _ _ _ Ep)), Nat2Z.id.
         cbn; rewrite Hs, insert_insert_eq; reflexivity. }
    eexists pkg, _; split; [reflexivity|right; auto].
  - rewrite (SM_bind_Some _ _ _ false (set_oworld w s1)) by (rewrite (SM_bind_Some _ _ _ _ _ (on_host_run _ _ _ _ Ew)); reflexivity); cbn [negb].
    rewrite (SM_bind_Some _ _ _ _ _ (free_cell_run (set_oworld w s1) _ _ Ep)); eexists 0, _; split; [reflexivity|left; split; [reflexivity|split; [|intros [_ HP]; exact (HP _ _ _ _ Ew eq_refl)]]].
    cbn; rewrite Hs, delete_insert_eq; apply delete_id, Hf.
Qed.

(** Two cells beside a heap. *)
Definition beside (pkg o : Z) (l : list Z) (co : cell) (b : heap) : heap := <[o := (1, co)]> (<[pkg := (1, C_PACKAGE l)]> b).

Lemma store_slots_run pkg o co R objs : forall done b (s : ost W), cells s = beside pkg o (done ++ replicate (length objs) 0) co b ->
  b !! pkg = None -> b !! o = None -> o <> pkg -> wf 0 (done ++ R) [] b -> Forall (fun a => a ∈ R /\ is_object b a) objs -> room (Z.of_nat (length objs)) b ->
  exists b' s', store_slots pkg (length done) objs s = Some (tt, s') /\ cells s' = beside pkg o (done ++ objs) co b' /\
    b' !! pkg = None /\ b' !! o = None /\ wf 0 (done ++ objs ++ R) [] b' /\ same_content b b'.
Proof.
  induction objs as [|x objs IH]; intros done b s Hs Hp Ho Hop HW Hob Hr; cbn [store_slots].
  { exists b, s; split; [reflexivity|]; cbn in Hs |- *; rewrite app_nil_r in Hs |- *; split; [exact Hs|split; [exact Hp|split; [exact Ho|split; [exact HW|intros a; reflexivity]]]]. }
  apply Forall_cons in Hob as [[HxR [y Hy]] Hob]; cbn [length replicate] in Hs, Hr.
  assert (Ep : cells s !! pkg = Some (1, C_PACKAGE (done ++ 0 :: replicate (length objs) 0))) by (rewrite Hs; unfold beside; rewrite lookup_insert_ne by exact Hop; apply lookup_insert_eq).
  rewrite (SM_bind_Some _ _ _ (done ++ 0 :: replicate (length objs) 0) s) by (unfold get_package; rewrite (SM_bind_Some _ _ _ _ _ (get_cell_run _ _ _ Ep)); reflexivity).
  rewrite (SM_bind_Some _ _ _ _ _ (write_run _ _ _ _ _ Ep)); set (s1 := set_cells _ s).
  assert (Hs1 : cells s1 = beside pkg o ((done ++ [x]) ++ replicate (length objs) 0) co b).
  { unfold s1; cbn [cells set_cells]; rewrite Hs; unfold beside; rewrite insert_insert_ne, insert_insert_eq by congruence; do 4 f_equal.
    rewrite <- (Nat.add_0_r (length done)), insert_app_r, <- app_assoc; reflexivity. }
  destruct (root_live _ _ _ _ x HW ltac:(apply elem_of_app; right; exact HxR)) as (n & c & Ex & Hn).
  unfold content in Hy; rewrite Ex in Hy; injection Hy as ->; destruct (wf_chain _ _ _ _ HW x n y Ex ltac:(lia)) as [l Hl].
  assert (Hst : steady 1 b l).
  { eapply steady_live; [exact HW|exact Hl|right; exists n, (C_OBJECT y); split; [exact Ex|lia]|]; intros a k d E; pose proof (Hr a k d E); lia. }
  assert (Hin : forall a, a ∈ l -> a <> pkg /\ a <> o) by (intros a Ha; destruct (Hst a Ha) as (? & ? & ? & _); split; congruence).
  assert (HO : forall a, a ∈ l -> cells s1 !! a = b !! a).
  { intros a Ha; destruct (Hin a Ha); rewrite Hs1; unfold beside; rewrite !lookup_insert_ne by congruence; reflexivity. }
  assert (Hl1 : chain (cells s1) x l) by (apply (chain_same b); [intros a Ha; unfold content; rewrite HO by exact Ha; reflexivity|exact Hl]).
  rewrite (SM_bind_Some _ _ _ _ _ (object_ref_run x l s1 Hl1 ltac:(intros a Ha; rewrite HO by exact Ha; apply Hst, Ha))); set (s2 := set_cells _ s1).
  assert (Hs2 : cells s2 = beside pkg o ((done ++ [x]) ++ replicate (length objs) 0) co (bump l b)).
  { unfold s2; cbn [cells set_cells]; rewrite Hs1; unfold beside; rewrite !bump_insert; [reflexivity|intros Hi; destruct (Hin _ Hi); congruence|intros Hi; destruct (Hin _ Hi); congruence]. }
  assert (Hx0 : x <> 0) by (intros ->; rewrite (wf_null _ _ _ _ HW) in Ex; discriminate).
  pose proof (bump_wf 0 _ _ _ x l HW Hl Hst) as HW1; unfold nonnull in HW1; rewrite filter_cons_True in HW1 by exact Hx0; cbn [app filter list_filter] in HW1.
  destruct (IH (done ++ [x]) (bump l b) s2 Hs2) as (b' & s3 & E3 & Hs3 & Hp3 & Ho3 & HW3 & HC3).
  - rewrite bump_other; [exact Hp|intros Hi; destruct (Hin _ Hi); congruence].
  - rewrite bump_other; [exact Ho|intros Hi; destruct (Hin _ Hi); congruence].
  - exact Hop.
  - eapply wf_perm; [|reflexivity|exact HW1]; solve_Permutation.
  - eapply Forall_impl; [exact Hob|]; intros a [Ha [z Hz]]; split; [exact Ha|exists z; rewrite (bump_content l b a); exact Hz].
  - apply bump_room; [eapply chain_nodup, Hl|]; intros a k d E; pose proof (Hr a k d E); lia.
  - exists b', s3; split; [rewrite length_app in E3; cbn in E3; rewrite Nat.add_1_r in E3; exact E3|]; rewrite <- !app_assoc in *.
    split; [exact Hs3|split; [exact Hp3|split; [exact Ho3|split; [exact HW3|intros a; rewrite (HC3 a); apply bump_content]]]].
Qed.

(** The assignment of a new package to a new object, whose union is still zero. *)
Lemma assign_new_package_run fuel pkg o objs b (s : ost W) :
  let new := {| o_type := OBJECT_PACKAGE; o_flags := 0; o_data := D_POINTER pkg |} in
  cells s = beside pkg o objs (C_OBJECT (bare OBJECT_PACKAGE)) b -> o <> pkg -> pkg <> 0 ->
  exists s1 s2, assign_literal fuel o new ASSIGN_BEHAVIOR_SHALLOW_COPY s = Some (UACPI_STATUS_OK, s1) /\
    with_free (fun f => shareable_unref_and_delete_if_last pkg (free_package f)) s1 = Some (tt, s2) /\
    cells s2 = beside pkg o objs (C_OBJECT new) b.
Proof.
  intros new Hs Hop Hp0; unfold assign_literal, object_assign.
  assert (Eo : cells s !! o = Some (1, C_OBJECT (bare OBJECT_PACKAGE))) by (rewrite Hs; apply lookup_insert_eq).
  assert (Ep : cells s !! pkg = Some (1, C_PACKAGE objs)) by (rewrite Hs; unfold beside; rewrite lookup_insert_ne by exact Hop; apply lookup_insert_eq).
  assert (HB : 0 < 1 < BUGGED_REFCOUNT) by (unfold BUGGED_REFCOUNT; lia).
  rewrite (SM_bind_Some _ _ _ tt s).
  2: { unfold clear_destination; rewrite (SM_bind_Some _ _ _ _ _ (get_object_run _ _ _ _ Eo)); cbn [bare o_type]; unfold with_free.
       rewrite (SM_bind_Some _ _ _ (S (size (cells s))) s) by reflexivity; unfold free_object_storage.
       rewrite (SM_bind_Some _ _ _ _ _ (get_object_run _ _ _ _ Eo)); reflexivity. }
  rewrite (SM_bind_Some _ _ _ new s) by reflexivity.
  set (s1 := set_cells (<[o := (1, C_OBJECT new)]> (alter bump1 pkg (cells s))) s).
  rewrite (SM_bind_Some _ _ _ UACPI_STATUS_OK s1).
  2: { unfold copy_contents, assign_package; cbn [new o_type o_data pointer_of]; rewrite (SM_bind_Some _ _ _ pkg s) by reflexivity.
       exact (share_run s o pkg 1 _ 1 _ Eo Ep (not_eq_sym Hop) HB). }
  cbn [is_ok]; assert (Eo1 : cells s1 !! o = Some (1, C_OBJECT new)) by apply lookup_insert_eq.
  rewrite (SM_bind_Some _ _ _ _ _ (set_type_run s1 o _ _ OBJECT_PACKAGE Eo1)); set (s2 := set_cells _ s1).
  assert (Ep2 : cells s2 !! pkg = Some (2, C_PACKAGE objs)).
  { unfold s2, s1; cbn [cells set_cells]; rewrite !lookup_insert_ne, lookup_alter_eq, Ep by exact Hop; reflexivity. }
  exists s2; eexists; split; [reflexivity|]; unfold with_free; rewrite (SM_bind_Some _ _ _ (S (size (cells s2))) s2) by reflexivity.
  unfold shareable_unref_and_delete_if_last; rewrite (proj2 (Z.eqb_neq pkg 0) Hp0).
  rewrite (SM_bind_Some _ _ _ _ _ (bugged_run _ _ _ _ Ep2 ltac:(unfold BUGGED_REFCOUNT; lia))), (SM_bind_Some _ _ _ _ _ (unref_run _ _ _ _ Ep2 ltac:(unfold BUGGED_REFCOUNT; lia))).
  split; [reflexivity|]; unfold s2, s1; cbn [cells set_cells o_flags o_data new]; rewrite insert_insert_eq, Hs; unfold beside.
  apply map_eq; intros a; destruct (decide (pkg = a)) as [<-|Ha]; [rewrite lookup_insert_eq, lookup_insert_ne, lookup_insert_eq by exact Hop; reflexivity|].
  rewrite lookup_insert_ne by exact Ha; destruct (decide (o = a)) as [<-|Hoa]; [rewrite !lookup_insert_eq; reflexivity|].
  rewrite !lookup_insert_ne, lookup_alter_ne, !lookup_insert_ne by assumption; reflexivity.
Qed.

(** The elements of a package object. *)
Definition holds_objects (objs : list Z) (o : Z) (h : heap) : Prop := exists f pkg,
  content h o = Some (C_OBJECT {| o_type := OBJECT_PACKAGE; o_flags := f; o_data := D_POINTER pkg |}) /\ content h pkg = Some (C_PACKAGE objs).

Lemma create_package_run fuel R objs (s : ost W) : wf 0 R [] (cells s) -> Forall (fun a => a ∈ R /\ is_object (cells s) a) objs ->
  room (Z.of_nat (length objs)) (cells s) -> created R s (uacpi_object_create_package fuel objs s) (holds_objects objs).
Proof.
  intros HW Hob Hr; unfold uacpi_object_create_package, uacpi_object_create_uninitialized.
  destruct (create_run OBJECT_UNINITIALIZED s eq_refl) as (o & s1 & E1 & [(-> & H1 & Hab)|(Ho & Hf & Hs)]); rewrite (SM_bind_Some _ _ _ _ _ E1).
  { exists 0, s1; split; [reflexivity|left; auto]. }
  rewrite (proj2 (Z.eqb_neq o 0) Ho); unfold uacpi_object_assign_package at 1; rewrite (proj2 (Z.eqb_neq o 0) Ho).
  destruct (new_package_run (length objs) s1) as (pkg & s2 & E2 & [(-> & H2 & Hab)|(Hp & Hpf & Hs2)]).
  - assert (Eo : cells s2 !! o = Some (1, C_OBJECT (bare OBJECT_UNINITIALIZED))) by (rewrite H2, Hs; apply lookup_insert_eq).
    rewrite (SM_bind_Some _ _ _ UACPI_STATUS_OUT_OF_MEMORY s2) by (rewrite (SM_bind_Some _ _ _ _ _ E2); reflexivity); cbn [is_ok negb].
    destruct (unref_fresh_run s2 o _ Eo Ho eq_refl) as (s3 & E3 & H3); rewrite (SM_bind_Some _ _ _ _ _ E3).
    exists 0, s3; split; [reflexivity|left; split; [reflexivity|split; [|exact Hab]]]; rewrite H3, H2, Hs, delete_insert_eq; apply delete_id, Hf.
  - assert (Hop : o <> pkg) by (intros ->; rewrite Hs, lookup_insert_eq in Hpf; discriminate).
    rewrite Hs, lookup_insert_ne in Hpf by exact Hop.
    assert (Eo : cells s2 !! o = Some (1, C_OBJECT (bare OBJECT_UNINITIALIZED))) by (rewrite Hs2, lookup_insert_ne, Hs by congruence; apply lookup_insert_eq).
    set (s3 := set_cells (<[o := (1, C_OBJECT (bare OBJECT_PACKAGE))]> (cells s2)) s2).
    assert (Hs3 : cells s3 = beside pkg o ([] ++ replicate (length objs) 0) (C_OBJECT (bare OBJECT_PACKAGE)) (cells s)).
    { unfold s3, beside; cbn [cells set_cells app]; rewrite Hs2, Hs, (insert_insert_ne _ pkg o), insert_insert_eq by congruence; reflexivity. }
    destruct (store_slots_run pkg o (C_OBJECT (bare OBJECT_PACKAGE)) R objs [] (cells s) s3 Hs3 Hpf Hf Hop HW Hob Hr) as (b & s4 & E4 & Hs4 & Hp4 & Ho4 & HW4 & HC4).
    destruct (assign_new_package_run fuel pkg o objs b s4 Hs4 Hop Hp) as (s5 & s6 & E5 & E6 & Hs6).
    rewrite (SM_bind_Some _ _ _ UACPI_STATUS_OK s6).
    2: { rewrite (SM_bind_Some _ _ _ _ _ E2), (proj2 (Z.eqb_neq pkg 0) Hp), (SM_bind_Some _ _ _ _ _ (set_type_run s2 o _ _ OBJECT_PACKAGE Eo)).
         cbn [bare o_flags o_data length] in E4 |- *; fold (bare OBJECT_PACKAGE) s3; rewrite (SM_bind_Some _ _ _ _ _ E4), (SM_bind_Some _ _ _ _ _ E5), (SM_bind_Some _ _ _ _ _ E6); reflexivity. }
    cbn [is_ok negb]; exists o, s6; split; [reflexivity|right; split; [exact Ho|split; [exact Hf|exists []]]]; rewrite Hs6; unfold beside.
    assert (HT : Forall (is_object b) objs) by (eapply Forall_impl; [exact Hob|]; intros a [_ [z Hz]]; exists z; rewrite (HC4 a); exact Hz).
    assert (HW5 : wf 0 (pkg :: R) [] (<[pkg := (1, C_PACKAGE objs)]> b)).
    { apply new_wf; [|exact Hp4|exact Hp|exact HT|discriminate]; unfold pointers; rewrite (nonnull_objects b objs (typed_objects b objs (wf_null _ _ _ _ HW4) HT)); exact HW4. }
    split; [|split; [reflexivity|split]].
    + apply new_wf; [|rewrite lookup_insert_ne by congruence; exact Ho4|exact Ho| |intros y [= <-]; reflexivity].
      * unfold pointers, object_pointers, nonnull; cbn [o_type o_data pointer_of]; rewrite filter_cons_True by exact Hp; exact HW5.
      * cbn [typed o_type o_data pointer_of]; exists pkg, objs; split; [reflexivity|unfold content; rewrite lookup_insert_eq; reflexivity].
    + exists 0, pkg; unfold content; rewrite lookup_insert_eq, lookup_insert_ne, lookup_insert_eq by exact Hop; split; reflexivity.
    + intros a c Ha Hc; rewrite <- (HC4 a) in Hc; apply content_fresh; [rewrite lookup_insert_ne by congruence; exact Ho4|apply content_fresh; [exact Hp4|exact Hc]].
Qed.
End Create.
