(* ===== verification/ObjClient.v ===== *)
(** * Objects: clients

    A client keeps a list of the references it holds and calls the functions of the
    interface on the objects in it. *)

From S2P Require Import Prelude UCore Shareable Objects ObjCount ObjFree ObjRefs ObjApi ObjMake.

Open Scope word_scope.

Fixpoint drop_one (a : Z) (l : list Z) : list Z :=
  match l with [] => [] | x :: l' => if x =? a then l' else x :: drop_one a l' end.

Lemma drop_one_perm a l : a ∈ l -> l ≡ₚ a :: drop_one a l.
Proof.
  induction l as [|x l IH]; intros H; [apply not_elem_of_nil in H; destruct H|]; cbn; destruct (Z.eqb_spec x a) as [->|Hne]; [reflexivity|].
  apply elem_of_cons in H as [->|H]; [congruence|]; rewrite (IH H) at 1; apply perm_swap.
Qed.

Inductive object_op :=
  | CREATE_UNINITIALIZED
  | CREATE_INTEGER (v : Z)
  | CREATE_STRING (bytes : list Z)
  | CREATE_BUFFER (bytes : list Z)
  | CREATE_PACKAGE (objects : list Z)
  | CREATE_REFERENCE (child : Z)
  | REF (o : Z)
  | UNREF (o : Z)
  | ASSIGN_INTEGER (o v : Z)
  | ASSIGN_STRING (o : Z) (bytes : list Z)
  | ASSIGN_BUFFER (o : Z) (bytes : list Z)
  | ASSIGN_REFERENCE (o child : Z)
  | ASSIGN_SHARED (dst src : Z)
  | CREATE_CSTRING (str : list Z)
  | GET_TYPE (o : Z)
  | GET_INTEGER (o : Z)
  | GET_STRING_OR_BUFFER (o : Z)
  | GET_PACKAGE (o : Z)
  | GET_DEREFERENCED (o : Z).

Section Client.
Context {W : Type} {OH : ObjectHost W}.

(** [fuel] is for deep copies, which these operations do not make. *)
Definition run_object_op (fuel : nat) (op : object_op) (R : list Z) : SM (ost W) (list Z) :=
  let create (c : SM (ost W) Z) := o ← c; mret (if o =? 0 then R else o :: R) in
  let assign (c : SM (ost W) uacpi_status) := _ ← c; mret R in
  let look {A : Type} (c : SM (ost W) A) := _ ← c; mret R in
  match op with
  | CREATE_UNINITIALIZED => create uacpi_object_create_uninitialized
  | CREATE_INTEGER v => create (uacpi_object_create_integer v)
  | CREATE_STRING bytes => create (uacpi_object_create_string fuel bytes)
  | CREATE_BUFFER bytes => create (uacpi_object_create_buffer fuel bytes)
  | CREATE_PACKAGE objects => create (uacpi_object_create_package fuel objects)
  | CREATE_REFERENCE child => create (uacpi_object_create_reference child)
  | REF o => uacpi_object_ref o;; mret (o :: R)
  | UNREF o => uacpi_object_unref o;; mret (drop_one o R)
  | ASSIGN_INTEGER o v => assign (uacpi_object_assign_integer fuel o v)
  | ASSIGN_STRING o bytes => assign (uacpi_object_assign_string fuel o bytes)
  | ASSIGN_BUFFER o bytes => assign (uacpi_object_assign_buffer fuel o bytes)
  | ASSIGN_REFERENCE o child => assign (uacpi_object_assign_reference fuel o child)
  | ASSIGN_SHARED dst src => assign (uacpi_object_assign fuel dst src ASSIGN_BEHAVIOR_SHALLOW_COPY)
  | CREATE_CSTRING str => create (uacpi_object_create_cstring fuel str)
  | GET_TYPE o => look (uacpi_object_get_type o)
  | GET_INTEGER o => look (uacpi_object_get_integer o)
  | GET_STRING_OR_BUFFER o => look (uacpi_object_get_string_or_buffer o)
  | GET_PACKAGE o => look (uacpi_object_get_package o)
  | GET_DEREFERENCED o => x ← uacpi_object_get_dereferenced o; mret (match snd x with Some p => p :: R | None => R end)
  end.

(** An object that may be assigned to; [k] is how often its contents will count. *)
Definition overwritable (R : list Z) (h : heap) (o : Z) : Prop := o ∈ R /\ forall n x, h !! o = Some (n, C_OBJECT x) -> clearable (o_type x) /\ room n h.

(** The references of [a] do not lead back to [dst]. *)
Definition apart (h : heap) (a dst : Z) : Prop := forall l, chain h a l -> dst ∉ l.

(** A reference to an object that is not a reference itself. *)
Definition refers_to_plain (h : heap) (o : Z) : Prop := forall x p, content h o = Some (C_OBJECT x) -> o_type x = OBJECT_REFERENCE ->
  pointer_of (o_data x) = Some p -> p <> 0 /\ forall y, content h p = Some (C_OBJECT y) -> o_type y <> OBJECT_REFERENCE.

(** A client uses what it holds, no count reaches the reserved value, and no reference
    comes to refer to itself.  A power resource is not assigned. *)
Definition allowed (R : list Z) (h : heap) (op : object_op) : Prop :=
  match op with
  | CREATE_UNINITIALIZED | CREATE_INTEGER _ | CREATE_STRING _ | CREATE_BUFFER _ => True
  | CREATE_PACKAGE objects => Forall (fun a => a ∈ R) objects /\ room (Z.of_nat (length objects)) h
  | CREATE_REFERENCE child => child ∈ R /\ room 1 h
  | REF o => o ∈ R /\ room 1 h
  | UNREF o => o ∈ R
  | ASSIGN_INTEGER o _ | ASSIGN_STRING o _ | ASSIGN_BUFFER o _ => overwritable R h o
  | ASSIGN_REFERENCE o child => overwritable R h o /\ child ∈ R /\ apart h child o
  | ASSIGN_SHARED dst src => overwritable R h dst /\ src ∈ R /\ src <> dst /\ apart h src dst /\
      (forall x, content h src = Some (C_OBJECT x) -> o_type x <> OBJECT_POWER_RESOURCE)
  | CREATE_CSTRING _ => True
  | GET_TYPE o | GET_INTEGER o | GET_STRING_OR_BUFFER o | GET_PACKAGE o => o ∈ R
  | GET_DEREFERENCED o => o ∈ R /\ room 1 h /\ refers_to_plain h o
  end.

#[local] Existing Instance memory.

(** The references [L] are lost when there is no memory to free a package. *)
Definition client (R : list Z) (h : heap) : Prop := exists L, wf 0 (L ++ R) [] h /\ Forall (is_object h) R /\ (plenty -> L = []).

Inductive reachable (fuel : nat) : list Z -> ost W -> Prop :=
  | reach_start s : cells s = ∅ -> reachable fuel [] s
  | reach_step R s op R' s' : reachable fuel R s -> allowed R (cells s) op -> run_object_op fuel op R s = Some (R', s') -> reachable fuel R' s'.

Lemma client_empty : client [] ∅.
Proof.
  exists []; split; [|split; [apply Forall_nil; exact I|intros _; reflexivity]]; split; try (intros *; rewrite lookup_empty; discriminate).
  - apply lookup_empty.
  - intros a Ha; apply not_elem_of_nil in Ha; destruct Ha.
  - congruence.
  - intros a Ha; apply not_elem_of_nil in Ha; destruct Ha.
  - constructor.
Qed.

Lemma kept_objects R h h' : (forall a c, a ∈ R -> content h a = Some c -> content h' a = Some c) -> Forall (is_object h) R -> Forall (is_object h') R.
Proof. intros HK; rewrite !Forall_forall; intros H a Ha; destruct (H a Ha) as [o Ho]; exists o; apply HK; assumption. Qed.

Context {RL : @ReleaseLaws W OH} {AL : AllocLaws W}.

Lemma created_client R L (s : ost W) (c : SM (ost W) Z) good : Forall (is_object (cells s)) R -> (plenty -> L = []) -> wf 0 (L ++ R) [] (cells s) ->
  created (L ++ R) s (c s) good -> (forall o h, good o h -> is_object h o) ->
  exists R' s', (o ← c; mret (if o =? 0 then R else o :: R)) s = Some (R', s') /\ client R' (cells s').
Proof.
  intros HO HP HW (o & s' & E & [(-> & H & _)|(Ho & Hf & L' & HW' & HP' & Hg & HK)]) Hgood; rewrite (SM_bind_Some _ _ _ _ _ E).
  - exists R, s'; split; [reflexivity|exists L; rewrite H; auto].
  - rewrite (proj2 (Z.eqb_neq o 0) Ho); exists (o :: R), s'; split; [reflexivity|exists (L' ++ L)]; split; [|split].
    + eapply wf_perm; [|reflexivity|exact HW']; solve_Permutation.
    + apply Forall_cons; split; [eapply Hgood, Hg|]; eapply kept_objects; [|exact HO]; intros a d Ha; apply HK, elem_of_app; right; exact Ha.
    + intros P; rewrite (HP P), (HP' P); reflexivity.
Qed.

Lemma assigned_client R L dst (s s' : ost W) x : Forall (is_object (cells s)) R -> (plenty -> L = []) -> assigned (L ++ R) dst (cells s) (cells s') x -> client R (cells s').
Proof.
  intros HO HP (L' & n & HW & E & HP' & HK); exists (L' ++ L); rewrite <- app_assoc; split; [exact HW|split].
  - apply Forall_forall; intros a Ha; destruct (decide (a = dst)) as [->|Hne]; [exists x; unfold content; rewrite E; reflexivity|].
    rewrite Forall_forall in HO; destruct (HO a Ha) as [y Hy]; exists y; apply HK; [apply elem_of_app; right; exact Ha|exact Hne|exact Hy].
  - intros P; rewrite (HP P), (HP' P); reflexivity.
Qed.

Lemma held_object R L (h : heap) a : wf 0 (L ++ R) [] h -> Forall (is_object h) R -> a ∈ R -> exists n x, h !! a = Some (n, C_OBJECT x) /\ 0 < n.
Proof.
  intros HW HO Ha; rewrite Forall_forall in HO; destruct (HO a Ha) as [x Hx]; destruct (root_live _ _ _ _ a HW ltac:(apply elem_of_app; right; exact Ha)) as (n & c & E & Hn).
  unfold content in Hx; rewrite E in Hx; injection Hx as ->; exists n, x; split; [exact E|lia].
Qed.

Lemma string_object t bytes o h : holds_bytes t bytes o h -> is_object h o.
Proof. intros (f & buf & H & _); eexists; exact H. Qed.

(** *** Looking at an object *)

Lemma type_check_run {A} o bits (fail : A) k (s : ost W) n x : o <> 0 -> cells s !! o = Some (n, C_OBJECT x) ->
  type_check o bits fail k s = if Z.land (type_bit (o_type x)) bits =? 0 then Some (fail, s) else k s.
Proof.
  intros Ho E; unfold type_check, uacpi_object_is_one_of, uacpi_object_get_type_bit, uacpi_object_get_type; rewrite (proj2 (Z.eqb_neq o 0) Ho).
  rewrite (SM_bind_Some _ _ _ (negb (Z.land (type_bit (o_type x)) bits =? 0)) s).
  - destruct (_ =? 0); reflexivity.
  - do 3 (erewrite SM_bind_Some; [reflexivity|]); exact (get_object_run _ _ _ _ E).
Qed.

Lemma pointer_run o (s : ost W) n x p : cells s !! o = Some (n, C_OBJECT x) -> pointer_of (o_data x) = Some p -> get_pointer o s = Some (p, s).
Proof. intros E Ep; unfold get_pointer; rewrite (SM_bind_Some _ _ _ _ _ (get_object_run _ _ _ _ E)), Ep; reflexivity. Qed.

Lemma cell_of_content (h : heap) a c : content h a = Some c -> exists n, h !! a = Some (n, c).
Proof. unfold content; destruct (h !! a) as [[n d]|]; [intros [= ->]; eauto|discriminate]. Qed.

Lemma one_type t t' : Z.land (type_bit t) (type_bit t') <> 0 -> t = t'.
Proof. destruct t, t'; vm_compute; congruence. Qed.
Lemma text_type t : Z.land (type_bit t) (Z.lor (type_bit OBJECT_STRING) (type_bit OBJECT_BUFFER)) <> 0 -> t = OBJECT_STRING \/ t = OBJECT_BUFFER.
Proof. destruct t; vm_compute; auto; congruence. Qed.

(** A live object can be looked at, whatever its type is; nothing changes. *)
Definition can_look (o : Z) (s : ost W) : Prop :=
  (exists a, uacpi_object_get_type o s = Some (a, s)) /\ (exists a, uacpi_object_get_integer o s = Some (a, s)) /\
  (exists a, uacpi_object_get_string_or_buffer o s = Some (a, s)) /\ (exists a, uacpi_object_get_package o s = Some (a, s)).

Lemma looks_run R L o (s : ost W) : wf 0 (L ++ R) [] (cells s) -> Forall (is_object (cells s)) R -> o ∈ R -> can_look o s.
Proof.
  intros HW HO Hin; destruct (held_object R L _ o HW HO Hin) as (n & x & E & Hn); assert (Ho : o <> 0) by (intros ->; rewrite (wf_null _ _ _ _ HW) in E; discriminate).
  pose proof (wf_typed _ _ _ _ HW o n _ Ho E Hn) as Ht; unfold can_look, uacpi_object_get_integer, uacpi_object_get_string_or_buffer, uacpi_object_do_get_string_or_buffer, uacpi_object_get_package.
  rewrite !(type_check_run o _ _ _ s n x Ho E); split; [|split; [|split]].
  - unfold uacpi_object_get_type; rewrite (SM_bind_Some _ _ _ _ _ (get_object_run _ _ _ _ E)); eauto.
  - destruct (Z.eqb_spec (Z.land (type_bit (o_type x)) (type_bit OBJECT_INTEGER)) 0) as [_|H]; [eauto|]; apply one_type in H; cbn [typed] in Ht; rewrite H in Ht.
    destruct Ht as [v Hv]; rewrite (SM_bind_Some _ _ _ _ _ (get_object_run _ _ _ _ E)), Hv; eexists; reflexivity.
  - destruct (Z.eqb_spec (Z.land (type_bit (o_type x)) (Z.lor (type_bit OBJECT_STRING) (type_bit OBJECT_BUFFER))) 0) as [_|H]; [eauto|].
    assert (Hb : exists p, pointer_of (o_data x) = Some p /\ is_buffer (cells s) p) by (cbn [typed] in Ht; apply text_type in H as [H|H]; rewrite H in Ht; exact Ht).
    destruct Hb as (p & Hp & d & m & Hc); apply cell_of_content in Hc as [k Hk]; rewrite (SM_bind_Some _ _ _ _ _ (pointer_run o s n x p E Hp)).
    unfold uacpi_buffer_to_view, get_buffer; erewrite SM_bind_Some; [eexists; reflexivity|]; erewrite SM_bind_Some; [reflexivity|].
    rewrite (SM_bind_Some _ _ _ _ _ (get_cell_run _ _ _ Hk)); reflexivity.
  - destruct (Z.eqb_spec (Z.land (type_bit (o_type x)) (type_bit OBJECT_PACKAGE)) 0) as [_|H]; [eauto|]; apply one_type in H; cbn [typed] in Ht; rewrite H in Ht.
    destruct Ht as (p & l & Hp & Hc); apply cell_of_content in Hc as [k Hk]; rewrite (SM_bind_Some _ _ _ _ _ (pointer_run o s n x p E Hp)).
    unfold get_package; erewrite SM_bind_Some; [eexists; reflexivity|]; rewrite (SM_bind_Some _ _ _ _ _ (get_cell_run _ _ _ Hk)); reflexivity.
Qed.

(** The object behind a reference is held as well then. *)
Lemma dereferenced_run R L o (s : ost W) : wf 0 (L ++ R) [] (cells s) -> Forall (is_object (cells s)) R -> o ∈ R -> room 1 (cells s) -> refers_to_plain (cells s) o ->
  exists ret r s', uacpi_object_get_dereferenced o s = Some ((ret, r), s') /\
    match r with
    | None => s' = s
    | Some p => wf 0 (p :: L ++ R) [] (cells s') /\ Forall (is_object (cells s')) (p :: R)
    end.
Proof.
  intros HW HO Ho Hr Hpl; destruct (held_object R L _ o HW HO Ho) as (n & x & E & Hn); assert (Ho0 : o <> 0) by (intros ->; rewrite (wf_null _ _ _ _ HW) in E; discriminate).
  unfold uacpi_object_get_dereferenced; rewrite (type_check_run o _ _ _ s n x Ho0 E).
  destruct (Z.eqb_spec (Z.land (type_bit (o_type x)) (type_bit OBJECT_REFERENCE)) 0) as [_|Ht]; [eexists _, None, s; split; reflexivity|]; apply one_type in Ht.
  pose proof (wf_typed _ _ _ _ HW o n _ Ho0 E Hn) as HT; cbn [typed] in HT; rewrite Ht in HT; destruct HT as (p & Hp & _).
  assert (Ex : content (cells s) o = Some (C_OBJECT x)) by (unfold content; rewrite E; reflexivity); destruct (Hpl x p Ex Ht Hp) as [Hp0 Hpp].
  destruct (wf_chain _ _ _ _ HW o n x E Hn) as [l Hl]; inversion Hl as [|o' x' b l' _ Ex' Hb Hl']; subst; [contradiction|].
  rewrite Ex in Ex'; injection Ex' as <-; unfold next_in_chain, is_reference in Hb; rewrite Ht, Hp in Hb; injection Hb as <-.
  inversion Hl' as [|p' y b l'' _ Ey Hb Hl'']; subst; [contradiction|]; unfold next_in_chain, is_reference in Hb; pose proof (Hpp y Ey) as Hy.
  assert (b = 0) as -> by (destruct (o_type y); congruence); inversion Hl''; subst; [|contradiction].
  assert (Hst : steady 1 (cells s) [p]).
  { intros a Ha; apply (steady_live _ _ _ _ _ _ 1 HW Hl); [right; exists n, (C_OBJECT x); split; [exact E|exact Hn]|exact Hr|right; exact Ha]. }
  destruct (Hst p (list_elem_of_here _ _)) as (m & z & Em & Hm & Hm').
  rewrite (SM_bind_Some _ _ _ _ _ (pointer_run o s n x p E Hp)), (SM_bind_Some _ _ _ _ _ (ref_run s p m _ Em ltac:(lia))).
  pose proof (bump_wf 0 _ _ _ p [p] HW Hl' Hst) as HW1; unfold nonnull in HW1; rewrite filter_cons_True in HW1 by exact Hp0; cbn [bump app filter list_filter] in HW1.
  eexists _, (Some p), _; split; [reflexivity|]; cbn [cells set_cells]; split; [exact HW1|].
  eapply (Forall_impl (is_object (cells s))); [apply Forall_cons; split; [exists y; exact Ey|exact HO]|]; intros a [w Hw]; exists w; rewrite <- Hw; exact (bump_content [p] (cells s) a).
Qed.

(** Every operation that is allowed is defined and keeps the heap well formed. *)
Lemma client_step fuel R s op : client R (cells s) -> allowed R (cells s) op -> exists R' s', run_object_op fuel op R s = Some (R', s') /\ client R' (cells s').
Proof.
  intros (L & HW & HO & HP) HA; assert (HLR : forall a, a ∈ R -> a ∈ L ++ R) by (intros a Ha; apply elem_of_app; right; exact Ha).
  assert (HObj : forall a, a ∈ R -> is_object (cells s) a) by (apply Forall_forall, HO).
  assert (HLook : forall o, o ∈ R -> can_look o s) by (intros o; exact (looks_run R L o s HW HO)).
  destruct op as [|v|bytes|bytes|objs|child|o|o|o v|o bytes|o bytes|o child|dst src|str|o|o|o|o|o]; cbn [run_object_op allowed] in *.
  - eapply created_client; [exact HO|exact HP|exact HW|apply create_uninitialized_run, HW|intros y h' Hy; eexists; exact Hy].
  - eapply created_client; [exact HO|exact HP|exact HW|apply create_integer_run, HW|intros y h' Hy; eexists; exact Hy].
  - eapply created_client; [exact HO|exact HP|exact HW|apply create_bytes_run; [exact HW|left; reflexivity]|apply string_object].
  - eapply created_client; [exact HO|exact HP|exact HW|apply create_bytes_run; [exact HW|right; reflexivity]|apply string_object].
  - destruct HA as [HA Hr]; eapply created_client; [exact HO|exact HP|exact HW|apply create_package_run; [exact HW| |exact Hr]|].
    + eapply Forall_impl; [exact HA|]; intros a Ha; split; [apply HLR, Ha|apply HObj, Ha].
    + intros a h (f & pkg & H & _); eexists; exact H.
  - destruct HA as [HA Hr]; eapply created_client; [exact HO|exact HP|exact HW|apply create_reference_run; auto|intros y h' Hy; eexists; exact Hy].
  - destruct HA as [HA Hr]; destruct (held_object R L _ o HW HO HA) as (n & x & E & Hn); destruct (wf_chain _ _ _ _ HW o n x E Hn) as [l Hl].
    assert (Hst : steady 1 (cells s) l) by (eapply steady_live; [exact HW|exact Hl|right; eauto|exact Hr]).
    rewrite (SM_bind_Some _ _ _ _ _ (object_ref_run o l s Hl Hst)); eexists _, _; split; [reflexivity|exists L; cbn [cells set_cells]].
    assert (Ho0 : o <> 0) by (intros ->; rewrite (wf_null _ _ _ _ HW) in E; discriminate).
    pose proof (bump_wf 0 _ _ _ o l HW Hl Hst) as HW1; unfold nonnull in HW1; rewrite filter_cons_True in HW1 by exact Ho0.
    split; [eapply wf_perm; [|reflexivity|exact HW1]; cbn; solve_Permutation|split; [|exact HP]].
    eapply (Forall_impl (is_object (cells s))); [apply Forall_cons; split; [apply HObj, HA|exact HO]|]; intros a [y Hy]; exists y; rewrite (bump_content l _ a); exact Hy.
  - destruct (held_object R L _ o HW HO HA) as (n & x & E & Hn); assert (Ho0 : o <> 0) by (intros ->; rewrite (wf_null _ _ _ _ HW) in E; discriminate).
    destruct (object_unref_run 0 (drop_one o R) ltac:(congruence) o L s) as (L' & s1 & E1 & HW1 & HL1 & HP1).
    + eapply wf_perm; [|reflexivity|exact HW]; unfold nonnull; rewrite filter_cons_True by exact Ho0; rewrite (drop_one_perm o R HA) at 1; cbn; solve_Permutation.
    + right; apply HObj, HA.
    + rewrite (SM_bind_Some _ _ _ _ _ E1); exists (drop_one o R), s1; split; [reflexivity|exists (L' ++ L)]; rewrite <- app_assoc; split; [exact HW1|split].
      * apply Forall_forall; intros a Ha; eapply lowers_is_object; [exact HL1|exact HW1|rewrite !elem_of_app; auto|].
        apply HObj; rewrite (drop_one_perm o R HA); right; exact Ha.
      * intros P; rewrite (HP P), (HP1 P); reflexivity.
  - destruct HA as [Ho HA]; destruct (held_object R L _ o HW HO Ho) as (n & x & E & Hn); destruct (HA n x E) as [Hc Hr].
    destruct (assign_integer_run fuel (L ++ R) o v s n x HW (HLR o Ho) E Hc) as (s1 & y & E1 & H1 & _).
    rewrite (SM_bind_Some _ _ _ _ _ E1); exists R, s1; split; [reflexivity|eapply assigned_client; eassumption].
  - destruct HA as [Ho HA]; destruct (held_object R L _ o HW HO Ho) as (n & x & E & Hn); destruct (HA n x E) as [Hc Hr].
    destruct (do_assign_buffer_run fuel (L ++ R) o OBJECT_STRING bytes s n x HW (HLR o Ho) E Hc ltac:(left; reflexivity)) as (ret & s1 & E1 & H1).
    unfold uacpi_object_assign_string; rewrite (SM_bind_Some _ _ _ _ _ E1); exists R, s1; split; [reflexivity|].
    destruct H1 as [(_ & H1 & _)|[_ (buf & H1 & _)]]; [exists L; rewrite H1; auto|eapply assigned_client; eassumption].
  - destruct HA as [Ho HA]; destruct (held_object R L _ o HW HO Ho) as (n & x & E & Hn); destruct (HA n x E) as [Hc Hr].
    destruct (do_assign_buffer_run fuel (L ++ R) o OBJECT_BUFFER bytes s n x HW (HLR o Ho) E Hc ltac:(right; reflexivity)) as (ret & s1 & E1 & H1).
    unfold uacpi_object_assign_buffer; rewrite (SM_bind_Some _ _ _ _ _ E1); exists R, s1; split; [reflexivity|].
    destruct H1 as [(_ & H1 & _)|[_ (buf & H1 & _)]]; [exists L; rewrite H1; auto|eapply assigned_client; eassumption].
  - destruct HA as ([Ho HA] & Hch & Hap); destruct (held_object R L _ o HW HO Ho) as (n & x & E & Hn); destruct (HA n x E) as [Hc Hr].
    destruct (held_object R L _ child HW HO Hch) as (m & y & Em & Hm); destruct (wf_chain _ _ _ _ HW child m y Em Hm) as [l Hl].
    destruct (assign_reference_run fuel (L ++ R) o child s n x l HW (HLR o Ho) E Hc (HLR child Hch) (HObj child Hch) Hl (Hap l Hl) Hr) as (s1 & E1 & H1).
    rewrite (SM_bind_Some _ _ _ _ _ E1); exists R, s1; split; [reflexivity|eapply assigned_client; eassumption].
  - destruct HA as ([Ho HA] & Hsr & Hne & Hap & Hpr); destruct (held_object R L _ dst HW HO Ho) as (n & x & E & Hn); destruct (HA n x E) as [Hc Hr].
    destruct (HObj src Hsr) as [y Hy].
    destruct (assign_shallow_run fuel (L ++ R) dst src s n x y HW (HLR dst Ho) (HLR src Hsr) Hne E Hc Hy (Hpr y Hy) Hr Hap) as (s1 & z & E1 & H1 & _).
    rewrite (SM_bind_Some _ _ _ _ _ E1); exists R, s1; split; [reflexivity|eapply assigned_client; eassumption].
  - eapply created_client; [exact HO|exact HP|exact HW|apply create_bytes_run; [exact HW|left; reflexivity]|apply string_object].
  - destruct (HLook o HA) as ([a Ha] & _); rewrite (SM_bind_Some _ _ _ _ _ Ha); exists R, s; split; [reflexivity|exists L; auto].
  - destruct (HLook o HA) as (_ & [a Ha] & _); rewrite (SM_bind_Some _ _ _ _ _ Ha); exists R, s; split; [reflexivity|exists L; auto].
  - destruct (HLook o HA) as (_ & _ & [a Ha] & _); rewrite (SM_bind_Some _ _ _ _ _ Ha); exists R, s; split; [reflexivity|exists L; auto].
  - destruct (HLook o HA) as (_ & _ & _ & [a Ha]); rewrite (SM_bind_Some _ _ _ _ _ Ha); exists R, s; split; [reflexivity|exists L; auto].
  - destruct HA as (Ho & Hr & Hpl); destruct (dereferenced_run R L o s HW HO Ho Hr Hpl) as (ret & [p|] & s1 & E1 & H1); rewrite (SM_bind_Some _ _ _ _ _ E1); cbn [snd].
    + destruct H1 as [HW1 HO1]; exists (p :: R), s1; split; [reflexivity|exists L]; split; [eapply wf_perm; [|reflexivity|exact HW1]; solve_Permutation|auto].
    + subst s1; exists R, s; split; [reflexivity|exists L; auto].
Qed.

Lemma reachable_client fuel R s : reachable fuel R s -> client R (cells s).
Proof.
  induction 1 as [s Hs|R s op R' s' _ IH HA E]; [rewrite Hs; apply client_empty|].
  destruct (client_step fuel R s op IH HA) as (R1 & s1 & E1 & H1); rewrite E1 in E; injection E as <- <-; exact H1.
Qed.

(** ** Theorems *)

(** C6.  Whatever a client has done before with the calls of [object_op], each further one of
    them returns: nothing that was freed is touched, no storage is taken for another kind,
    the walks along references and packages come to an end, and what the client holds is
    alive.  The client uses objects that it holds, no count reaches the reserved value, no
    reference comes to refer to itself, what is assigned to is neither a buffer field nor a
    buffer index, what is shared with it is no power resource, and what the client
    dereferences refers to an object that is no reference.  Deep
    copies, and packages that are assigned to an object, are not among the calls. *)
Theorem objects_never_stuck fuel R s op : reachable fuel R s -> allowed R (cells s) op ->
  exists R' s', run_object_op fuel op R s = Some (R', s') /\ Forall (fun o => exists n x, cells s' !! o = Some (n, C_OBJECT x) /\ 0 < n) R'.
Proof.
  intros HR HA; destruct (client_step fuel R s op (reachable_client fuel R s HR) HA) as (R' & s' & E & L & HW & HO & _).
  exists R', s'; split; [exact E|]; apply Forall_forall; intros a Ha; exact (held_object R' L (cells s') a HW HO Ha).
Qed.

(** C2.  When there is memory for the queue of packages to free, the count of every cell is the
    number of references to it after any sequence of the calls of [object_op] that [allowed]
    admits: those the client holds and those of the live cells, where a reference object
    passes on its own count; a cell that nothing refers to is gone, unless it is a package
    object. *)
Theorem reference_counts_exact fuel R s : plenty -> reachable fuel R s -> forall a n c, cells s !! a = Some (n, c) ->
  n = occ a R + holders 0 (cells s) a /\ n < BUGGED_REFCOUNT /\ (n = 0 -> exists o, c = C_OBJECT o /\ o_type o = OBJECT_PACKAGE).
Proof.
  intros HP HR a n c E; destruct (reachable_client fuel R s HR) as (L & HW & _ & HL); rewrite (HL HP) in HW.
  destruct (wf_count _ _ _ _ HW a n c E) as [Hn Hb]; split; [exact Hn|split; [exact Hb|intros ->]].
  destruct (wf_zero _ _ _ _ HW a c E) as [Hz|[Hz|[Hz _]]]; [apply not_elem_of_nil in Hz; destruct Hz|exact Hz|contradiction].
Qed.

(** C30.  In every heap that clients bring about with the calls of [object_op] that [allowed]
    admits, the union of each live object is what its type says, and what it points to is
    storage of that kind; an allocation that fails on the way changes nothing in this. *)
Theorem objects_match_type fuel R s a n c : reachable fuel R s -> cells s !! a = Some (n, c) -> 0 < n -> typed (cells s) c.
Proof.
  intros HR E Hn; destruct (reachable_client fuel R s HR) as (L & HW & _); apply (wf_typed _ _ _ _ HW a n c); [|exact E|exact Hn].
  intros ->; rewrite (wf_null _ _ _ _ HW) in E; discriminate.
Qed.

Lemma bytes_zerout_exact bytes : bytes_zerout (Z.of_nat (length bytes)) bytes (Z.of_nat (length bytes)) = bytes.
Proof. unfold bytes_zerout; rewrite Z.min_id, Nat2Z.id, take_ge, Z.sub_diag by lia; cbn; apply app_nil_r. Qed.

Lemma bytes_zerout_terminated bytes : bytes_zerout (Z.of_nat (length bytes) + 1) bytes (Z.of_nat (length bytes)) = bytes ++ [0].
Proof.
  unfold bytes_zerout; rewrite Z.min_r, Nat2Z.id, take_ge by lia; replace (Z.of_nat (length bytes) + 1 - Z.of_nat (length bytes)) with 1 by lia; reflexivity.
Qed.

Definition terminated (bytes : list Z) : list Z := if needs_terminator bytes then bytes ++ [0] else bytes.

Lemma written_string bytes : default [] (written_bytes OBJECT_STRING bytes) = terminated bytes /\ written_size OBJECT_STRING bytes = Z.of_nat (length (terminated bytes)).
Proof.
  unfold written_bytes, written_size, terminated; rewrite bool_decide_eq_true_2 by reflexivity; cbn [andb].
  destruct (needs_terminator bytes) eqn:E; rewrite ?length_app; cbn [length].
  - rewrite (proj2 (Z.eqb_neq _ 0)) by lia; rewrite bytes_zerout_terminated; split; [reflexivity|lia].
  - rewrite bytes_zerout_exact; destruct bytes; [discriminate|split; reflexivity].
Qed.

Lemma written_buffer bytes : default [] (written_bytes OBJECT_BUFFER bytes) = bytes /\ written_size OBJECT_BUFFER bytes = Z.of_nat (length bytes).
Proof.
  unfold written_bytes, written_size; rewrite bool_decide_eq_false_2 by discriminate; cbn [andb]; rewrite bytes_zerout_exact; split; [|reflexivity]; destruct bytes; reflexivity.
Qed.

Lemma get_bytes_run t mask bytes o (s : ost W) : holds_bytes t bytes o (cells s) -> o <> 0 -> Z.land (type_bit t) mask <> 0 ->
  exists buf, uacpi_object_do_get_string_or_buffer o mask s =
    Some ((UACPI_STATUS_OK, Some (buf, default [] (written_bytes t bytes), written_size t bytes)), s).
Proof.
  intros (f & buf & Ho & Hb) Ho0 Hm; exists buf; unfold content in Ho, Hb.
  destruct (cells s !! o) as [[n c]|] eqn:Eo; [|discriminate]; injection Ho as ->; destruct (cells s !! buf) as [[m d]|] eqn:Eb; [|discriminate]; injection Hb as ->.
  unfold uacpi_object_do_get_string_or_buffer, type_check, uacpi_object_is_one_of, uacpi_object_get_type_bit, uacpi_object_get_type.
  rewrite (proj2 (Z.eqb_neq o 0) Ho0); rewrite (SM_bind_Some _ _ _ true s).
  2: { unfold get_object; smunfold; unfold get_cell, of_opt; smunfold; rewrite Eo; cbn; rewrite (proj2 (Z.eqb_neq _ 0) Hm); reflexivity. }
  cbn [negb]; unfold get_pointer; rewrite (SM_bind_Some _ _ _ buf s) by (rewrite (SM_bind_Some _ _ _ _ _ (get_object_run _ _ _ _ Eo)); reflexivity).
  unfold uacpi_buffer_to_view, get_buffer; rewrite (SM_bind_Some _ _ _ (buf, default [] (written_bytes t bytes), written_size t bytes) s); [reflexivity|].
  rewrite (SM_bind_Some _ _ _ (written_bytes t bytes, written_size t bytes) s); [reflexivity|].
  rewrite (SM_bind_Some _ _ _ _ _ (get_cell_run _ _ _ Eb)); reflexivity.
Qed.

(** A string object that was created is read back with the bytes it was created from and a
    terminator, a buffer object with exactly its bytes. *)
Theorem string_create_get fuel R s bytes o s' : reachable fuel R s -> o <> 0 ->
  (uacpi_object_create_string fuel bytes s = Some (o, s') ->
     exists buf, uacpi_object_get_string o s' = Some ((UACPI_STATUS_OK, Some (buf, terminated bytes, Z.of_nat (length (terminated bytes)))), s')) /\
  (uacpi_object_create_buffer fuel bytes s = Some (o, s') ->
     exists buf, uacpi_object_get_buffer o s' = Some ((UACPI_STATUS_OK, Some (buf, bytes, Z.of_nat (length bytes))), s')).
Proof.
  intros HR Ho; destruct (reachable_client fuel R s HR) as (L & HW & _); split; intros E.
  - destruct (create_bytes_run fuel (L ++ R) OBJECT_STRING bytes s HW ltac:(left; reflexivity)) as (o' & s1 & E1 & H1).
    unfold uacpi_object_create_string in E; rewrite E1 in E; injection E as -> ->; destruct H1 as [[? _]|(_ & _ & L1 & _ & _ & Hh & _)]; [contradiction|].
    destruct (get_bytes_run OBJECT_STRING (type_bit OBJECT_STRING) bytes o s' Hh Ho ltac:(discriminate)) as [buf Hg]; exists buf.
    destruct (written_string bytes) as [H1 H2]; rewrite H1, H2 in Hg; exact Hg.
  - destruct (create_bytes_run fuel (L ++ R) OBJECT_BUFFER bytes s HW ltac:(right; reflexivity)) as (o' & s1 & E1 & H1).
    unfold uacpi_object_create_buffer in E; rewrite E1 in E; injection E as -> ->; destruct H1 as [[? _]|(_ & _ & L1 & _ & _ & Hh & _)]; [contradiction|].
    destruct (get_bytes_run OBJECT_BUFFER (type_bit OBJECT_BUFFER) bytes o s' Hh Ho ltac:(discriminate)) as [buf Hg]; exists buf.
    destruct (written_buffer bytes) as [H1 H2]; rewrite H1, H2 in Hg; exact Hg.
Qed.

(** A call that creates an object returns null and has changed nothing, which only happens
    when an allocation failed, or it returns a new object with the contents. *)
Definition all_or_nothing (s : ost W) (r : option (Z * ost W)) (good : Z -> heap -> Prop) : Prop := exists o s', r = Some (o, s') /\
  (o = 0 /\ cells s' = cells s /\ ~ abundant \/ o <> 0 /\ cells s !! o = None /\ good o (cells s')).

Lemma created_all R (s : ost W) r good : created R s r good -> all_or_nothing s r good.
Proof. intros (o & s' & E & [H|(Ho & Hf & L & _ & _ & Hg & _)]); exists o, s'; auto 8. Qed.

(** C31.  Strings, buffers and packages are created, and strings and buffers are assigned, all or
    nothing: the call reports success and the object has exactly the contents that were
    asked for, or it reports that there is no memory (a null object, OUT_OF_MEMORY) and
    every object and its storage is as it was; it only does so when an allocation failed.
    (Arrays of bytes that no storage refers to are not part of the heap.) *)
Theorem objects_out_of_memory fuel R s : reachable fuel R s ->
  (forall bytes, all_or_nothing s (uacpi_object_create_string fuel bytes s) (holds_bytes OBJECT_STRING bytes) /\
     all_or_nothing s (uacpi_object_create_buffer fuel bytes s) (holds_bytes OBJECT_BUFFER bytes)) /\
  (forall objs, allowed R (cells s) (CREATE_PACKAGE objs) -> all_or_nothing s (uacpi_object_create_package fuel objs s) (holds_objects objs)) /\
  (forall o t bytes, string_type t -> overwritable R (cells s) o -> exists ret s', uacpi_object_do_assign_buffer fuel o bytes t s = Some (ret, s') /\
     (ret = UACPI_STATUS_OUT_OF_MEMORY /\ cells s' = cells s /\ ~ abundant \/ ret = UACPI_STATUS_OK /\ holds_bytes t bytes o (cells s'))).
Proof.
  intros HR; destruct (reachable_client fuel R s HR) as (L & HW & HO & _); split; [|split].
  - intros bytes; split; apply (created_all (L ++ R)), create_bytes_run; try exact HW; [left|right]; reflexivity.
  - intros objs [HA Hr]; apply (created_all (L ++ R)), create_package_run; [exact HW| |exact Hr].
    rewrite Forall_forall in HO; eapply Forall_impl; [exact HA|]; intros a Ha; split; [apply elem_of_app; right; exact Ha|apply HO, Ha].
  - intros o t bytes Ht [Ho HA]; destruct (held_object R L _ o HW HO Ho) as (n & x & Eo & Hn); destruct (HA n x Eo) as [Hc _].
    destruct (do_assign_buffer_run fuel (L ++ R) o t bytes s n x HW ltac:(apply elem_of_app; right; exact Ho) Eo Hc Ht) as (r & s1 & E1 & H1).
    exists r, s1; split; [exact E1|]; destruct H1 as [H1|[-> (buf & (L' & k & _ & Ek & _) & Hb)]]; [left; exact H1|right; split; [reflexivity|]].
    exists 0, buf; split; [unfold content; rewrite Ek; reflexivity|exact Hb].
Qed.
End Client.
