(* ===== verification/ObjDemo.v ===== *)
(** * acpi/uacpi/types.c: runs on a concrete machine

    A machine with a counter for addresses and a limit on how many structures it hands
    out, the theorems on objects applied to it, and runs that show where the code goes
    wrong. *)

From S2P Require Import Prelude UCore Shareable Objects ObjCount ObjFree ObjRefs ObjApi ObjMake ObjClient.

Open Scope word_scope.

Module Demo.

(** The next address, and how many structures are left. *)
Record world := { next : Z; left : Z }.

#[export] Instance machine : ObjectHost world := {|
  alloc_struct := fun _ s =>
    let w := oworld s in
    let s' := set_oworld {| next := next w + 16; left := left w - 1 |} s in
    if (left w <=? 0) || bool_decide (is_Some (cells s !! next w)) then Some (0, s') else Some (next w, s');
  alloc_bytes := fun n => mret (Some (replicate (Z.to_nat n) 0xcc));
  create_mutex := mret 1;
  release_mutex := fun _ => mret tt;
  create_event := mret 1;
  release_event := fun _ => mret tt;
  table_unref := fun _ => mret tt;
  node_unref := fun _ => mret tt;
  aml_bitness := mret (UACPI_STATUS_OK, 64);
  resolve_namepath := fun _ _ => mret (UACPI_STATUS_NOT_FOUND, 0) |}.

#[export] Instance machine_release : ReleaseLaws.
Proof. split; intros; cbn; eauto. Qed.

#[export] Instance machine_alloc : AllocLaws world.
Proof.
  intros n s; cbn; destruct (_ || _) eqn:E; eexists _, _; split; [reflexivity|cbn; auto|reflexivity|cbn; split; [reflexivity|split; [reflexivity|right]]].
  apply orb_false_iff in E as [_ E%bool_decide_eq_false_1]; apply eq_None_not_Some, E.
Qed.

Lemma machine_plenty : plenty.
Proof. intros n w r w' [= <- <-]; discriminate. Qed.

Definition start (n : Z) : ost world := {| cells := ∅; notifies := ∅; oworld := {| next := 16; left := n |} |}.

(** ** Clients *)

Definition step (x : list Z * ost world) (op : object_op) : list Z * ost world :=
  match run_object_op 0 op (fst x) (snd x) with Some y => y | None => x end.

Lemma reach_op x op : reachable 0 (fst x) (snd x) -> allowed (fst x) (cells (snd x)) op -> is_Some (run_object_op 0 op (fst x) (snd x)) ->
  reachable 0 (fst (step x op)) (snd (step x op)).
Proof.
  intros HR HA [[R' s'] E]; unfold step; rewrite E; eapply reach_step; eassumption.
Qed.

Lemma room_check k (h : heap) : bool_decide (map_Forall (fun _ x => fst x + k < BUGGED_REFCOUNT) h) = true -> room k h.
Proof. intros H%bool_decide_eq_true_1 a n c E; exact (H a (n, c) E). Qed.

(** A string, a reference to it, a package of both. *)
Definition x0 : list Z * ost world := ([], start 100).
Definition x1 := step x0 (CREATE_STRING [104; 105]).
Definition x2 := step x1 (CREATE_REFERENCE 16).
Definition x3 := step x2 (CREATE_PACKAGE [16; 48]).
Definition x4 := step x3 (UNREF 16).

Lemma reach_x1 : reachable 0 (fst x1) (snd x1).
Proof. apply reach_op; [apply reach_start; reflexivity|exact I|vm_compute; eauto]. Qed.

Lemma reach_x2 : reachable 0 (fst x2) (snd x2).
Proof. apply reach_op; [apply reach_x1|split; [vm_compute; left|apply room_check; vm_compute; reflexivity]|vm_compute; eauto]. Qed.

Lemma reach_x3 : reachable 0 (fst x3) (snd x3).
Proof.
  apply reach_op; [apply reach_x2|split; [|apply room_check; vm_compute; reflexivity]|vm_compute; eauto].
  change (fst x2) with [48; 16]; rewrite !Forall_cons, !elem_of_cons; auto.
Qed.

Lemma reach_x4 : reachable 0 (fst x4) (snd x4).
Proof. apply reach_op; [apply reach_x3| |vm_compute; eauto]; change (fst x3) with [64; 48; 16]; cbn; rewrite !elem_of_cons; auto. Qed.

(** ** The theorems on this machine *)

Lemma objects_never_stuck_witness : exists R' s', run_object_op 0 (UNREF 64) (fst x4) (snd x4) = Some (R', s') /\
  Forall (fun o => exists n x, cells s' !! o = Some (n, C_OBJECT x) /\ 0 < n) R'.
Proof. apply (objects_never_stuck 0 (fst x4) (snd x4) (UNREF 64) reach_x4); vm_compute; left. Defined.

Lemma reference_counts_exact_witness : 3 = occ 16 (fst x4) + holders 0 (cells (snd x4)) 16 /\ 3 < BUGGED_REFCOUNT /\
  (3 = 0 -> exists o, C_OBJECT {| o_type := OBJECT_STRING; o_flags := 0; o_data := D_POINTER 32 |} = C_OBJECT o /\ o_type o = OBJECT_PACKAGE).
Proof. apply (reference_counts_exact 0 (fst x4) (snd x4) machine_plenty reach_x4 16 3); vm_compute; reflexivity. Defined.

Lemma objects_match_type_witness : typed (cells (snd x4)) (C_OBJECT {| o_type := OBJECT_PACKAGE; o_flags := 0; o_data := D_POINTER 80 |}).
Proof. apply (objects_match_type 0 (fst x4) (snd x4) 64 1 _ reach_x4); [vm_compute; reflexivity|reflexivity]. Defined.

Definition abc : ost world := match uacpi_object_create_string 0 [97; 98; 99] (snd x4) with Some (_, s) => s | None => snd x4 end.

Lemma string_create_get_witness : exists buf, uacpi_object_get_string 96 abc = Some ((UACPI_STATUS_OK, Some (buf, [97; 98; 99; 0], 4)), abc).
Proof.
  apply (proj1 (string_create_get 0 (fst x4) (snd x4) [97; 98; 99] 96 abc reach_x4 ltac:(discriminate))); vm_compute; reflexivity.
Defined.

(** With one structure left, the object is allocated and its buffer is not. *)
Definition poor : ost world := match uacpi_object_create_string 0 [97] (start 1) with Some (_, s) => s | None => start 1 end.

Lemma objects_out_of_memory_witness : all_or_nothing (start 1) (uacpi_object_create_string 0 [97] (start 1)) (holds_bytes OBJECT_STRING [97]) /\
  all_or_nothing (snd x4) (uacpi_object_create_string 0 [97] (snd x4)) (holds_bytes OBJECT_STRING [97]).
Proof.
  split; [exact (proj1 (proj1 (objects_out_of_memory 0 [] (start 1) (reach_start 0 (start 1) eq_refl)) [97]))|].
  exact (proj1 (proj1 (objects_out_of_memory 0 (fst x4) (snd x4) reach_x4) [97])).
Defined.

Example poor_keeps_nothing : uacpi_object_create_string 0 [97] (start 1) = Some (0, poor) /\ cells poor = ∅.
Proof. split; vm_compute; reflexivity. Qed.

(** ** Where the code goes wrong *)

Definition and_then {A B} (r : option (A * ost world)) (k : A -> SM (ost world) B) : option (B * ost world) :=
  match r with Some (a, s) => k a s | None => None end.

(** An integer that is assigned a package: its type is changed first, so that its value is
    taken for the address of a package and freed. *)
Theorem integer_freed_as_package : and_then (uacpi_object_create_integer 5 (start 100)) (fun o => uacpi_object_assign_package 0 o []) = None.
Proof. vm_compute; reflexivity. Qed.

(** A string, a reference to it and a reference to that.  What the outer one refers to is
    asked for and given back, then both references are given up: the string is gone,
    though the client that created it still holds it. *)
Definition dereference_and_release : SM (ost world) (uacpi_status * option (Z * list Z * Z)) :=
  o ← uacpi_object_create_string 0 [104];
  p ← uacpi_object_create_reference o;
  q ← uacpi_object_create_reference p;
  _ ← uacpi_object_get_dereferenced q;
  uacpi_object_unref p;; uacpi_object_unref q;; uacpi_object_unref p;;
  uacpi_object_get_string o.

Theorem dereferenced_under_counted : dereference_and_release (start 100) = None.
Proof. vm_compute; reflexivity. Qed.

(** Two objects share a package; the one inside another package is lost when that is freed. *)
Definition nested : list Z * ost world :=
  step (step (step (step (step ([], start 100) (CREATE_PACKAGE [])) CREATE_UNINITIALIZED) (ASSIGN_SHARED 48 16)) (CREATE_PACKAGE [48])) (UNREF 48).

Theorem nested_package_lost : fst (step nested (UNREF 64)) = [16] /\
  cells (snd (step nested (UNREF 64))) !! 48 = Some (0, C_OBJECT {| o_type := OBJECT_PACKAGE; o_flags := 0; o_data := D_POINTER 32 |}).
Proof. vm_compute; split; reflexivity. Qed.

(** An assignment that fails has freed the old contents, but the object still points to them. *)
Definition assign_power_resource : SM (ost world) (uacpi_status * option (Z * list Z * Z)) :=
  o ← uacpi_object_create_string 0 [104];
  p ← uacpi_create_object OBJECT_POWER_RESOURCE;
  st ← uacpi_object_assign 0 o p ASSIGN_BEHAVIOR_DEEP_COPY;
  match st with UACPI_STATUS_UNIMPLEMENTED => uacpi_object_get_string o | _ => mret bad_argument end.

Theorem failed_assign_dangles : assign_power_resource (start 100) = None.
Proof. vm_compute; reflexivity. Qed.

(** The same when a copy finds no memory. *)
Definition copy_without_memory : SM (ost world) (uacpi_status * option (Z * list Z * Z)) :=
  o ← uacpi_object_create_string 0 [104];
  p ← uacpi_object_create_string 0 [105];
  st ← uacpi_object_assign 0 o p ASSIGN_BEHAVIOR_DEEP_COPY;
  match st with UACPI_STATUS_OUT_OF_MEMORY => uacpi_object_get_string o | _ => mret bad_argument end.

Theorem failed_copy_dangles : copy_without_memory (start 4) = None.
Proof. vm_compute; reflexivity. Qed.

(** A buffer and a field in it; the field becomes an integer and the buffer stays counted. *)
Definition field_state : ost world := {|
  cells := <[16 := (1, C_OBJECT {| o_type := OBJECT_BUFFER_FIELD; o_flags := 0;
                                   o_data := D_BUFFER_FIELD {| backing := 32; bit_index := 0; bit_length := 8; force_buffer := false |} |})]>
           (<[32 := (1, C_BUFFER (Some [7]) 1)]> ∅);
  notifies := ∅; oworld := {| next := 48; left := 100 |} |}.

Theorem field_assignment_leaks : and_then (uacpi_object_assign_integer 0 16 5 field_state) (fun _ => uacpi_object_unref 16;; gets_state cells) =
  Some (<[32 := (1, C_BUFFER (Some [7]) 1)]> ∅, {| cells := <[32 := (1, C_BUFFER (Some [7]) 1)]> ∅; notifies := ∅; oworld := {| next := 48; left := 100 |} |}).
Proof. vm_compute; reflexivity. Qed.

(** A copy of a package with two elements has memory for the package and one of them: the
    package is freed, the element is lost. *)
Definition copy_package_short : SM (ost world) (uacpi_status * option (Z * cell)) :=
  a ← uacpi_object_create_integer 1;
  p ← uacpi_object_create_package 0 [a; a];
  q ← uacpi_object_create_uninitialized;
  st ← uacpi_object_assign 3 q p ASSIGN_BEHAVIOR_DEEP_COPY;
  h ← gets_state cells;
  mret (st, h !! 96).

Theorem element_lost : fst <$> copy_package_short (start 6) = Some (UACPI_STATUS_OUT_OF_MEMORY, Some (1, C_OBJECT (bare OBJECT_UNINITIALIZED))).
Proof. vm_compute; reflexivity. Qed.
End Demo.
