(* ===== verification/Regions.v ===== *)
(** * acpi/uacpi/opregion.c: operation regions

    A device, a processor, a thermal zone or the root has a list of handlers, one per
    address space; a handler has the list of the regions that go to it and is counted by
    them.  Regions and handlers are cells of the objects' heap, nodes are those of the
    namespace.  The state is the namespace over the objects, for accesses the byte
    memory beside it.  Handlers, the interpreter and the recursive lock are the interface
    [RegionHost]. *)

From S2P Require Import Prelude CMem UStdlib UCore FieldUnit Shareable Namespace Objects.

Open Scope word_scope.

(** ** Data *)

Definition UACPI_OP_REGION_STATE_REG_EXECUTED : Z := 1.
Definition UACPI_OP_REGION_STATE_ATTACHED : Z := 2.
Definition UACPI_ADDRESS_SPACE_HANDLER_DEFAULT : Z := 1.
Definition ACPI_REG_DISCONNECT : Z := 0.
Definition ACPI_REG_CONNECT : Z := 1.
Definition UACPI_INIT_LEVEL_NAMESPACE_LOADED : Z := 2.

(** The numbers of the address spaces. *)
Definition SPACE_SYSTEM_MEMORY : Z := 0.
Definition SPACE_SYSTEM_IO : Z := 1.
Definition SPACE_SMBUS : Z := 4.
Definition SPACE_IPMI : Z := 7.
Definition SPACE_GENERAL_PURPOSE_IO : Z := 8.
Definition SPACE_GENERIC_SERIAL_BUS : Z := 9.
Definition SPACE_PCC : Z := 10.
Definition SPACE_PRM : Z := 11.
Definition SPACE_FFIXEDHW : Z := 0x7f.
Definition SPACE_TABLE_DATA : Z := 0xda1a.

Definition UACPI_ACCESS_ATTRIBUTE_BYTES : Z := 0x0b.
Definition UACPI_ACCESS_ATTRIBUTE_RAW_BYTES : Z := 0x0e.
Definition UACPI_ACCESS_ATTRIBUTE_RAW_PROCESS_BYTES : Z := 0x0f.

Definition reg_flag (f : Z) (r : operation_region) : bool := negb (Z.land (state_flags r) f =? 0).

Definition set_r_handler (x : Z) (r : operation_region) : operation_region := {|
  r_handler := x; r_user_context := r_user_context r; r_space := r_space r; state_flags := state_flags r;
  r_offset := r_offset r; r_length := r_length r; table_idx := table_idx r; r_next := r_next r |}.
Definition set_r_user_context (x : Z) (r : operation_region) : operation_region := {|
  r_handler := r_handler r; r_user_context := x; r_space := r_space r; state_flags := state_flags r;
  r_offset := r_offset r; r_length := r_length r; table_idx := table_idx r; r_next := r_next r |}.
Definition set_state_flags (x : Z) (r : operation_region) : operation_region := {|
  r_handler := r_handler r; r_user_context := r_user_context r; r_space := r_space r; state_flags := x;
  r_offset := r_offset r; r_length := r_length r; table_idx := table_idx r; r_next := r_next r |}.
Definition set_internal_buffer (x : Z) (r : operation_region) : operation_region := {|
  r_handler := r_handler r; r_user_context := r_user_context r; r_space := r_space r; state_flags := state_flags r;
  r_offset := r_offset r; r_length := r_length r; table_idx := x; r_next := r_next r |}.
Definition set_r_next (x : Z) (r : operation_region) : operation_region := {|
  r_handler := r_handler r; r_user_context := r_user_context r; r_space := r_space r; state_flags := state_flags r;
  r_offset := r_offset r; r_length := r_length r; table_idx := table_idx r; r_next := x |}.

(** [internal_buffer] shares its place with [table_idx]. *)
Definition internal_buffer (r : operation_region) : Z := table_idx r.

Definition set_regions (x : Z) (h : address_space_handler) : address_space_handler := {|
  callback := callback h; user_context := user_context h; h_next := h_next h; regions := x; h_space := h_space h; h_flags := h_flags h |}.
Definition set_h_next (x : Z) (h : address_space_handler) : address_space_handler := {|
  callback := callback h; user_context := user_context h; h_next := x; regions := regions h; h_space := h_space h; h_flags := h_flags h |}.
Definition set_address_space_head (x : Z) (h : handlers) : handlers := {|
  address_space_head := x; notify_head := notify_head h; p_id := p_id h; p_block_address := p_block_address h; p_block_length := p_block_length h |}.

(** What a handler is called with to attach to a region and to detach from it. *)
Inductive attach_info :=
  | GENERIC_INFO (base length : Z)
  | PCC_INFO (buffer length subspace_id : Z)
  | GPIO_INFO (num_pins : Z).

Inductive region_notice :=
  | ATTACH_DATA (region_node handler_context : Z) (info : attach_info)
  | DETACH_DATA (region_node region_context handler_context : Z).

(** What it is called with for an access; the contexts come first in every structure. *)
Inductive region_request :=
  | RW_DATA (op : uacpi_region_op) (value offset byte_width : Z)
  | PCC_DATA (buffer length : Z)
  | GPIO_DATA (op : uacpi_region_op) (value pin_offset num_pins : Z) (connection : Z * list Z * Z)
  | IPMI_DATA (message length command : Z)
  | FFIXEDHW_DATA (message length command : Z)
  | PRM_DATA (message length : Z)
  | SERIAL_DATA (op : uacpi_region_op) (command buffer length access_attribute access_length : Z) (connection : Z * list Z * Z).

Class RegionHost (V : Type) := {
  opregion_lock_init : SM V uacpi_status;
  opregion_lock_deinit : SM V unit;
  opregion_lock_acquire : SM V uacpi_status;
  opregion_lock_release : SM V unit;
  (** a callback with a notice: its status and [out_region_context] *)
  notify_region_handler : Z -> region_notice -> SM (ns (ost V)) (uacpi_status * Z);
  (** a callback with the two contexts and a request: its status and the value it leaves *)
  call_region_handler : Z -> Z -> Z -> region_request -> SM (bytes * ns (ost V)) (uacpi_status * Z);
  uacpi_execute_control_method : Z -> Z -> list Z -> SM (ns (ost V)) uacpi_status;
  (** zeroed memory for the buffer of a PCC region: its address, or 0 *)
  alloc_internal_buffer : Z -> SM (bytes * ns (ost V)) Z
}.

Section Operations.
Context {V : Type} {OH : ObjectHost V} {NL : NamespaceLock (ost V)} {OBJ : Namespace.Objects (ost V)} {RH : RegionHost V}.

Abbreviation M := (SM (ns (ost V))).

Definition on_objects {A} (c : SM (ost V) A) : M A := Namespace.in_world c.
Definition on_host {A} (c : SM V A) : M A := on_objects (host c).

Definition get_region (a : Z) : M operation_region :=
  on_objects (x ← get_cell a; match snd x with C_REGION r => mret r | _ => undefined end).
Definition update_region (a : Z) (f : operation_region -> operation_region) : M unit :=
  r ← get_region a; on_objects (write_cell a (C_REGION (f r))).
Definition get_handler (a : Z) : M address_space_handler := on_objects (get_aspace a).
Definition update_handler (a : Z) (f : address_space_handler -> address_space_handler) : M unit :=
  h ← get_handler a; on_objects (write_cell a (C_ASPACE (f h))).
Definition update_handlers (a : Z) (f : handlers -> handlers) : M unit :=
  h ← on_objects (get_handlers a); on_objects (write_cell a (C_HANDLERS (f h))).

(** [obj->op_region], [obj->address_space_handlers] ... *)
Definition storage_of (obj : Z) : M Z := on_objects (get_pointer obj).

(** [uacpi_namespace_node_get_object(node)->op_region] *)
Definition node_region (node : Z) : M Z := obj ← uacpi_namespace_node_get_object node; storage_of obj.

Definition write_lock : M uacpi_status := on_objects uacpi_namespace_write_lock.
Definition write_unlock : M unit := on_objects uacpi_namespace_write_unlock;; mret tt.

Definition bit (t : uacpi_object_type) : Z := type_bit t.
Definition DEVICE_BITS : Z := Z.lor (bit OBJECT_DEVICE) (Z.lor (bit OBJECT_THERMAL_ZONE) (bit OBJECT_PROCESSOR)).

Definition uacpi_initialize_opregion : M uacpi_status := on_host opregion_lock_init.
Definition uacpi_deinitialize_opregion : M unit := on_host opregion_lock_deinit.

Definition space_needs_reg (space : Z) : bool :=
  negb ((space =? SPACE_SYSTEM_MEMORY) || (space =? SPACE_SYSTEM_IO) || (space =? SPACE_TABLE_DATA)).

Definition REG_NAME : list Z := [95; 82; 69; 71].

Definition region_run_reg (node connection_code : Z) : M uacpi_status :=
  n ← get_node node;
  r ← uacpi_namespace_node_resolve (parent n) REG_NAME false false false;
  let '(ret, reg_node) := (r : uacpi_status * Z) in
  if negb (is_ok ret) then mret ret else
  reg_obj ← uacpi_namespace_node_get_object_typed reg_node (bit OBJECT_METHOD);
  if reg_obj =? 0 then mret UACPI_STATUS_OK else
  a ← on_objects (uacpi_create_object OBJECT_INTEGER);
  if a =? 0 then mret UACPI_STATUS_OUT_OF_MEMORY else
  b ← on_objects (uacpi_create_object OBJECT_INTEGER);
  if b =? 0 then on_objects (uacpi_object_unref a);; mret UACPI_STATUS_OUT_OF_MEMORY else
  p ← node_region node;
  reg ← get_region p;
  on_objects (set_data a (D_INTEGER (r_space reg)));;
  on_objects (set_data b (D_INTEGER connection_code));;
  method ← storage_of reg_obj;
  ret ← uacpi_execute_control_method reg_node method [a; b];
  on_objects (uacpi_object_unref a);;
  on_objects (uacpi_object_unref b);;
  mret ret.

Definition is_device_like (t : uacpi_object_type) : bool :=
  match t with OBJECT_DEVICE | OBJECT_PROCESSOR | OBJECT_THERMAL_ZONE => true | _ => false end.

Definition uacpi_node_get_address_space_handlers (node : Z) : M Z :=
  if node =? uacpi_namespace_root then root ← on_objects root_object; storage_of root else
  obj ← uacpi_namespace_node_get_object node;
  if obj =? 0 then mret 0 else
  t ← on_objects (uacpi_object_get_type obj);
  if is_device_like t then storage_of obj else mret 0.

Definition objects_fuel : M nat := on_objects cells_fuel.

(** [while (handler)] *)
Fixpoint find_handler_from (fuel : nat) (handler space : Z) : M Z :=
  match fuel with
  | O => undefined
  | S fuel' =>
      if handler =? 0 then mret 0 else
      h ← get_handler handler;
      if h_space h =? space then mret handler else find_handler_from fuel' (h_next h) space
  end.

Definition find_handler (hs space : Z) : M Z :=
  h ← on_objects (get_handlers hs); fuel ← objects_fuel; find_handler_from fuel (address_space_head h) space.

(** [while (parent->next != region)] *)
Fixpoint previous_link (fuel : nat) (parent_ region : Z) : M Z :=
  match fuel with
  | O => undefined
  | S fuel' =>
      r ← get_region parent_;
      if r_next r =? region then mret parent_ else
      if r_next r =? 0 then mret 0 else previous_link fuel' (r_next r) region
  end.

Definition find_previous_region_link (region : Z) : M Z :=
  r ← get_region region;
  h ← get_handler (r_handler r);
  if regions h =? region then mret region else
  fuel ← objects_fuel; previous_link fuel (regions h) region.

Definition region_install_handler (node handler : Z) : M unit :=
  region ← node_region node;
  update_region region (set_r_handler handler);;
  on_objects (shareable_ref handler);;
  h ← get_handler handler;
  update_region region (set_r_next (regions h));;
  update_handler handler (set_regions region).

Inductive unreg := UNREG_NO | UNREG_YES.

(** Takes the region out of its handler's list. *)
Definition unlink_region (region : Z) : M unit :=
  link ← find_previous_region_link region;
  r ← get_region region;
  if link =? 0 then mret tt
  else if link =? region then update_handler (r_handler r) (set_regions (r_next r))
  else update_region link (set_r_next (r_next r)).

(** Lets the handler of an attached region go. *)
Definition detach_region (node region : Z) : M unit :=
  r ← get_region region;
  if negb (reg_flag UACPI_OP_REGION_STATE_ATTACHED r) then mret tt else
  h ← get_handler (r_handler r);
  Namespace.on_count node uacpi_shareable_ref;;
  write_unlock;;
  notify_region_handler (callback h) (DETACH_DATA node (r_user_context r) (user_context h));;
  write_lock;;
  uacpi_namespace_node_unref node.

Definition region_uninstall_handler (node : Z) (u : unreg) : M unit :=
  obj ← uacpi_namespace_node_get_object_typed node (bit OBJECT_OPERATION_REGION);
  if obj =? 0 then mret tt else
  region ← storage_of obj;
  r ← get_region region;
  if r_handler r =? 0 then mret tt else
  unlink_region region;;
  detach_region node region;;
  r ← get_region region;
  (match u with
   | UNREG_YES =>
       if reg_flag UACPI_OP_REGION_STATE_REG_EXECUTED r then
         region_run_reg node ACPI_REG_DISCONNECT;;
         update_region region (fun r => set_state_flags (Z.ldiff (state_flags r) UACPI_OP_REGION_STATE_REG_EXECUTED) r)
       else mret tt
   | UNREG_NO => mret tt
   end);;
  r ← get_region region;
  on_objects (uacpi_address_space_handler_unref (r_handler r));;
  update_region region (set_r_handler 0);;
  update_region region (fun r => set_state_flags (Z.ldiff (state_flags r) UACPI_OP_REGION_STATE_ATTACHED) r).

Definition upgrade_to_opregion_lock : M uacpi_status :=
  write_unlock;;
  ret ← on_host opregion_lock_acquire;
  write_lock;;
  mret ret.

Definition release_opregion_lock : M unit := on_host opregion_lock_release.

Definition uacpi_opregion_uninstall_handler (node : Z) : M unit :=
  ret ← upgrade_to_opregion_lock;
  if negb (is_ok ret) then mret tt else
  region_uninstall_handler node UNREG_YES;;
  release_opregion_lock.

Definition uacpi_address_space_handler_is_default (handler : Z) : M bool :=
  h ← get_handler handler; mret (negb (Z.land (h_flags h) UACPI_ADDRESS_SPACE_HANDLER_DEFAULT =? 0)).

Inductive opregion_iter_action := OPREGION_ITER_ACTION_UNINSTALL | OPREGION_ITER_ACTION_INSTALL.

(** A region that the walk meets. *)
Definition visit_region (action : opregion_iter_action) (handler node region : Z) : M unit :=
  r ← get_region region;
  match action with
  | OPREGION_ITER_ACTION_INSTALL =>
      (if r_handler r =? 0 then mret tt else region_uninstall_handler node UNREG_NO);;
      region_install_handler node handler
  | OPREGION_ITER_ACTION_UNINSTALL =>
      if negb (r_handler r =? handler) then mret tt else region_uninstall_handler node UNREG_NO
  end.

Definition do_install_or_uninstall_handler (action : opregion_iter_action) (handler node depth : Z) : M Z :=
  obj ← uacpi_namespace_node_get_object node;
  t ← on_objects (uacpi_object_get_type obj);
  h ← get_handler handler;
  match t with
  | OBJECT_OPERATION_REGION =>
      region ← storage_of obj;
      r ← get_region region;
      if negb (r_space r =? h_space h) then mret CONTINUE else
      visit_region action handler node region;; mret CONTINUE
  | _ =>
      hs ← uacpi_node_get_address_space_handlers node;
      if hs =? 0 then mret CONTINUE else
      found ← find_handler hs (h_space h);
      mret (if negb (found =? 0) then NEXT_PEER else CONTINUE)
  end.

(** The counters of the context only go to the log. *)
Definition do_run_reg (space connection_code node depth : Z) : M Z :=
  region ← node_region node;
  r ← get_region region;
  if negb (r_space r =? space) then mret CONTINUE else
  if Bool.eqb (reg_flag UACPI_OP_REGION_STATE_REG_EXECUTED r) (connection_code =? ACPI_REG_CONNECT) then mret CONTINUE else
  ret ← region_run_reg node connection_code;
  (if connection_code =? ACPI_REG_DISCONNECT
   then update_region region (fun r => set_state_flags (Z.ldiff (state_flags r) UACPI_OP_REGION_STATE_REG_EXECUTED) r)
   else mret tt);;
  match ret with
  | UACPI_STATUS_NOT_FOUND => mret CONTINUE
  | _ =>
      (if connection_code =? ACPI_REG_CONNECT
       then update_region region (fun r => set_state_flags (Z.lor (state_flags r) UACPI_OP_REGION_STATE_REG_EXECUTED) r)
       else mret tt);;
      mret CONTINUE
  end.

(** [ctx.space] has 8 bits. *)
Definition reg_or_unreg_all_opregions (device_node space connection_code : Z) : M uacpi_status :=
  hs ← uacpi_node_get_address_space_handlers device_node;
  if hs =? 0 then mret UACPI_STATUS_INVALID_ARGUMENT else
  let is_connect := connection_code =? ACPI_REG_CONNECT in
  found ← (if is_connect then find_handler hs space else mret 1);
  if found =? 0 then mret UACPI_STATUS_NO_HANDLER else
  uacpi_namespace_do_for_each_child (Some (do_run_reg (u8 space) connection_code)) None (bit OBJECT_OPERATION_REGION)
    MAX_DEPTH_ANY false is_connect device_node;;
  mret UACPI_STATUS_OK.

Definition extract_handlers (node : Z) : M Z :=
  if node =? uacpi_namespace_root then root ← on_objects root_object; storage_of root else
  obj ← uacpi_namespace_node_get_object_typed node DEVICE_BITS;
  if obj =? 0 then mret 0 else storage_of obj.

(** Both locks around [c]. *)
Definition locked_region (c : M uacpi_status) : M uacpi_status :=
  ret ← on_host opregion_lock_acquire;
  if negb (is_ok ret) then mret ret else
  ret ← write_lock;
  if negb (is_ok ret) then release_opregion_lock;; mret ret else
  ret ← c;
  write_unlock;; release_opregion_lock;;
  mret ret.

Definition current_level : M Z := gets_state (fun s => init_level (world s)).

Definition uacpi_reg_all_opregions (device_node space : Z) : M uacpi_status :=
  lvl ← current_level;
  if lvl <? UACPI_INIT_LEVEL_NAMESPACE_LOADED then mret UACPI_STATUS_INIT_LEVEL_MISMATCH else
  if negb (space_needs_reg space) then mret UACPI_STATUS_OK else
  locked_region (
    hs ← extract_handlers device_node;
    if hs =? 0 then mret UACPI_STATUS_INVALID_ARGUMENT else
    reg_or_unreg_all_opregions device_node space ACPI_REG_CONNECT).

Definition sizeof_aspace_handler : Z := 48.

Definition uacpi_install_address_space_handler_with_flags (device_node space handler handler_context hflags : Z) : M uacpi_status :=
  locked_region (
    hs ← extract_handlers device_node;
    if hs =? 0 then mret UACPI_STATUS_INVALID_ARGUMENT else
    this_handler ← find_handler hs space;
    if negb (this_handler =? 0) then mret UACPI_STATUS_ALREADY_EXISTS else
    h ← on_objects (get_handlers hs);
    new_handler ← on_objects (new_cell sizeof_aspace_handler (C_ASPACE {|
      callback := handler; user_context := handler_context; h_next := address_space_head h; regions := 0;
      h_space := u16 space; h_flags := hflags |}));
    if new_handler =? 0 then mret UACPI_STATUS_OUT_OF_MEMORY else
    update_handlers hs (set_address_space_head new_handler);;
    uacpi_namespace_do_for_each_child (Some (do_install_or_uninstall_handler OPREGION_ITER_ACTION_INSTALL new_handler)) None OBJECT_ANY_BIT
      MAX_DEPTH_ANY false true device_node;;
    if negb (space_needs_reg space) then mret UACPI_STATUS_OK else
    lvl ← current_level;
    if lvl <? UACPI_INIT_LEVEL_NAMESPACE_LOADED then mret UACPI_STATUS_OK else
    reg_or_unreg_all_opregions device_node space ACPI_REG_CONNECT).

Definition uacpi_install_address_space_handler (device_node space handler handler_context : Z) : M uacpi_status :=
  uacpi_install_address_space_handler_with_flags device_node space handler handler_context 0.

(** [while (prev_handler)]: is the handler found and unlinked? *)
Fixpoint unlink_handler_from (fuel : nat) (prev handler next : Z) : M bool :=
  match fuel with
  | O => undefined
  | S fuel' =>
      if prev =? 0 then mret false else
      p ← get_handler prev;
      if h_next p =? handler then update_handler prev (set_h_next next);; mret true
      else unlink_handler_from fuel' (h_next p) handler next
  end.

(** The handler leaves the list; is _REG to be run for its regions? *)
Definition unlink_handler (hs handler : Z) : M bool :=
  l ← on_objects (get_handlers hs);
  h ← get_handler handler;
  if address_space_head l =? handler then update_handlers hs (set_address_space_head (h_next h));; mret true else
  fuel ← objects_fuel;
  found ← unlink_handler_from fuel (address_space_head l) handler (h_next h);
  mret (negb found).

Definition uacpi_uninstall_address_space_handler (device_node space : Z) : M uacpi_status :=
  locked_region (
    hs ← extract_handlers device_node;
    if hs =? 0 then mret UACPI_STATUS_INVALID_ARGUMENT else
    handler ← find_handler hs space;
    if handler =? 0 then mret UACPI_STATUS_NO_HANDLER else
    uacpi_namespace_do_for_each_child (Some (do_install_or_uninstall_handler OPREGION_ITER_ACTION_UNINSTALL handler)) None OBJECT_ANY_BIT
      MAX_DEPTH_ANY false false device_node;;
    run ← unlink_handler hs handler;
    (if (run : bool) && space_needs_reg space then reg_or_unreg_all_opregions device_node space ACPI_REG_DISCONNECT;; mret tt else mret tt);;
    on_objects (uacpi_address_space_handler_unref handler);;
    mret UACPI_STATUS_OK).

(** [while (parent)] *)
Fixpoint install_from_above (fuel : nat) (above node space : Z) : M uacpi_status :=
  match fuel with
  | O => undefined
  | S fuel' =>
      if above =? 0 then mret UACPI_STATUS_NOT_FOUND else
      hs ← uacpi_node_get_address_space_handlers above;
      handler ← (if hs =? 0 then mret 0 else find_handler hs space);
      if negb (handler =? 0) then region_install_handler node handler;; mret UACPI_STATUS_OK else
      n ← get_node above;
      install_from_above fuel' (parent n) node space
  end.

Definition uacpi_initialize_opregion_node (node : Z) : M uacpi_status :=
  n ← get_node node;
  ret ← upgrade_to_opregion_lock;
  if negb (is_ok ret) then mret ret else
  region ← node_region node;
  r ← get_region region;
  fuel ← walk_fuel;
  ret ← install_from_above fuel (parent n) node (r_space r);
  lvl ← current_level;
  (if negb (is_ok ret) || negb (space_needs_reg (r_space r)) || (lvl <? UACPI_INIT_LEVEL_NAMESPACE_LOADED) then mret tt else
   st ← region_run_reg node ACPI_REG_CONNECT;
   match st with
   | UACPI_STATUS_NOT_FOUND => mret tt
   | _ => update_region region (fun r => set_state_flags (Z.lor (state_flags r) UACPI_OP_REGION_STATE_REG_EXECUTED) r)
   end);;
  release_opregion_lock;;
  mret ret.

(** ** Accesses *)

Abbreviation IO := (SM (bytes * ns (ost V))).

Definition below {A} (c : M A) : IO A := FieldUnit.in_world c.

Definition attach_info_of (r : operation_region) (buffer : Z) : attach_info :=
  if r_space r =? SPACE_PCC then PCC_INFO buffer (r_length r) (u8 (r_offset r))
  else if r_space r =? SPACE_GENERAL_PURPOSE_IO then GPIO_INFO (r_length r)
  else GENERIC_INFO (r_offset r) (r_length r).

(** The callback, with the object held and the namespace unlocked. *)
Definition attach_region (node obj region : Z) : IO uacpi_status :=
  r ← below (get_region region);
  h ← below (get_handler (r_handler r));
  below (on_objects (uacpi_object_ref obj));;
  below write_unlock;;
  x ← below (notify_region_handler (callback h) (ATTACH_DATA node (user_context h) (attach_info_of r (internal_buffer r))));
  below write_lock;;
  let '(ret, context) := (x : uacpi_status * Z) in
  (if negb (is_ok ret) then mret tt else
   below (update_region region (fun r => set_state_flags (Z.lor (state_flags r) UACPI_OP_REGION_STATE_ATTACHED) r));;
   below (update_region region (set_r_user_context context)));;
  below (on_objects (uacpi_object_unref obj));;
  mret ret.

Definition uacpi_opregion_attach (node : Z) : IO uacpi_status :=
  dangling ← below (uacpi_namespace_node_is_dangling node);
  if (dangling : bool) then mret UACPI_STATUS_NAMESPACE_NODE_DANGLING else
  obj ← below (uacpi_namespace_node_get_object_typed node (bit OBJECT_OPERATION_REGION));
  if obj =? 0 then mret UACPI_STATUS_INVALID_ARGUMENT else
  region ← below (storage_of obj);
  r ← below (get_region region);
  if r_handler r =? 0 then mret UACPI_STATUS_NO_HANDLER else
  if reg_flag UACPI_OP_REGION_STATE_ATTACHED r then mret UACPI_STATUS_OK else
  ok ← (if (r_space r =? SPACE_PCC) && negb (r_length r =? 0) then
          buf ← alloc_internal_buffer (r_length r);
          below (update_region region (set_internal_buffer buf));;
          mret (negb (buf =? 0))
        else mret true);
  if negb ok then mret UACPI_STATUS_OUT_OF_MEMORY else
  attach_region node obj region.

Definition is_buffer_space (space : Z) : bool :=
  (space =? SPACE_SMBUS) || (space =? SPACE_IPMI) || (space =? SPACE_GENERIC_SERIAL_BUS) || (space =? SPACE_PRM) || (space =? SPACE_FFIXEDHW).

Definition space_needs_bounds_checking (space : Z) : bool :=
  negb (is_buffer_space space) && negb (space =? SPACE_GENERAL_PURPOSE_IO).

Definition is_oob (r : operation_region) (offset width : Z) : bool :=
  space_needs_bounds_checking (r_space r) && ((r_length r <? offset +64 width) || (r_offset r +64 offset <? offset)).

(** [*data.integer] *)
Definition load_integer (data : io_data) : IO Z := fun s =>
  match data with
  | IoInteger p => match load_le (fst s) p 8 with Some v => Some (v, s) | None => None end
  | IoBuffer _ _ => None
  end.
Definition store_integer (data : io_data) (v : Z) : IO unit :=
  match data with IoInteger p => in_memory (fun m => store_le m p 8 v) | IoBuffer _ _ => undefined end.
Definition buffer_of (data : io_data) : IO (Z * Z) :=
  match data with IoBuffer p n => mret (p, n) | IoInteger _ => undefined end.

Definition is_read (op : uacpi_region_op) : bool := match op with UACPI_REGION_OP_READ => true | _ => false end.

Definition serial_length (p : field_props) : Z :=
  if (attributes p =? UACPI_ACCESS_ATTRIBUTE_BYTES) || (attributes p =? UACPI_ACCESS_ATTRIBUTE_RAW_BYTES) ||
     (attributes p =? UACPI_ACCESS_ATTRIBUTE_RAW_PROCESS_BYTES) then access_length p else 0.

(** What the switch prepares: a request, or nothing more to do with a status. *)
Definition prepare (p : field_props) (connection : Z) (r : operation_region) (offset : Z) (op : uacpi_region_op) (data : io_data) :
    IO (uacpi_status + region_request) :=
  let abs_offset := r_offset r +64 offset in
  let space := r_space r in
  if space =? SPACE_PCC then
    let cursor := internal_buffer r + offset in
    if is_read op then
      match data with
      | IoInteger d => in_memory (fun m => uacpi_memcpy_zerout m d cursor 8 (access_width_bytes p));; mret (inl UACPI_STATUS_OK)
      | IoBuffer _ _ => undefined
      end
    else
      match data with
      | IoInteger d =>
          in_memory (fun m => uacpi_memcpy m cursor d (access_width_bytes p));;
          mret (if (12 <=? offset) && (offset <? 16) then inr (PCC_DATA (internal_buffer r) (r_length r)) else inl UACPI_STATUS_OK)
      | IoBuffer _ _ => undefined
      end
  else if space =? SPACE_GENERAL_PURPOSE_IO then
    v ← load_integer data;
    c ← below (on_objects (uacpi_object_get_string_or_buffer connection));
    match c with
    | (UACPI_STATUS_OK, Some view) =>
        mret (inr (GPIO_DATA (if is_read op then UACPI_REGION_OP_GPIO_READ else UACPI_REGION_OP_GPIO_WRITE) v (pin_offset p) (FieldUnit.bit_length p) view))
    | (st, _) => mret (inl st)
    end
  else if space =? SPACE_IPMI then b ← buffer_of data; mret (inr (IPMI_DATA (fst b) (snd b) abs_offset))
  else if space =? SPACE_FFIXEDHW then b ← buffer_of data; mret (inr (FFIXEDHW_DATA (fst b) (snd b) abs_offset))
  else if space =? SPACE_PRM then b ← buffer_of data; mret (inr (PRM_DATA (fst b) (snd b)))
  else if (space =? SPACE_GENERIC_SERIAL_BUS) || (space =? SPACE_SMBUS) then
    c ← below (on_objects (uacpi_object_get_string_or_buffer connection));
    match c with
    | (UACPI_STATUS_OK, Some view) =>
        b ← buffer_of data;
        mret (inr (SERIAL_DATA (if is_read op then UACPI_REGION_OP_SERIAL_READ else UACPI_REGION_OP_SERIAL_WRITE)
          abs_offset (fst b) (snd b) (attributes p) (serial_length p) view))
    | (st, _) => mret (inl st)
    end
  else v ← load_integer data; mret (inr (RW_DATA op v abs_offset (access_width_bytes p))).

(** The callback, with the object held and the namespace unlocked; 0 when it is not run. *)
Definition run_request (obj : Z) (h : address_space_handler) (region_context : Z) (x : uacpi_status + region_request) : IO (uacpi_status * Z) :=
  match x with
  | inl st => mret (st, 0)
  | inr req =>
      below (on_objects (uacpi_object_ref obj));;
      below write_unlock;;
      y ← call_region_handler (callback h) region_context (user_context h) req;
      below write_lock;;
      below (on_objects (uacpi_object_unref obj));;
      mret y
  end.

(** Is the result of a read in the structure that the handler was given? *)
Definition reads_back (space : Z) : bool :=
  negb ((space =? SPACE_PCC) || (space =? SPACE_IPMI) || (space =? SPACE_FFIXEDHW) || (space =? SPACE_PRM) ||
        (space =? SPACE_GENERIC_SERIAL_BUS) || (space =? SPACE_SMBUS)).

(** The access once both locks are held; the region is read again after the callback. *)
Definition dispatch_locked (p : field_props) (connection node offset : Z) (op : uacpi_region_op) (data : io_data) : IO uacpi_status :=
  ret ← uacpi_opregion_attach node;
  if negb (is_ok ret) then mret ret else
  obj ← below (uacpi_namespace_node_get_object_typed node (bit OBJECT_OPERATION_REGION));
  if obj =? 0 then mret UACPI_STATUS_INVALID_ARGUMENT else
  region ← below (storage_of obj);
  r ← below (get_region region);
  if is_oob r offset (access_width_bytes p) then mret UACPI_STATUS_AML_OUT_OF_BOUNDS_INDEX else
  h ← below (get_handler (r_handler r));
  x ← prepare p connection r offset op data;
  y ← run_request obj h (r_user_context r) x;
  let '(ret, value) := (y : uacpi_status * Z) in
  if negb (is_ok ret) then mret ret else
  (if is_read op then
     r ← below (get_region region);
     if reads_back (r_space r) then store_integer data value else mret tt
   else mret tt);;
  mret ret.

(** [field->region] and [field->connection] are passed beside the other members. *)
Definition uacpi_dispatch_opregion_io (p : field_props) (connection node offset : Z) (op : uacpi_region_op) (data : io_data) : IO uacpi_status :=
  ret ← below upgrade_to_opregion_lock;
  if negb (is_ok ret) then mret ret else
  ret ← dispatch_locked p connection node offset op data;
  below release_opregion_lock;;
  mret ret.
End Operations.
