(* ===== verification/RegionLocks.v ===== *)
(** * Operation regions: locks

    The namespace is locked when regions are looked at and unlocked when a handler runs;
    the lock of the regions is only taken while the namespace is unlocked.  The paths
    through opregion.c keep to this and give back what they took, except that the code goes
    on as if the namespace was locked when an attempt to lock it again fails. *)

From S2P Require Import Prelude CMem UStdlib UCore FieldUnit Shareable Namespace Objects Regions.

Open Scope word_scope.

(** A computation put together from steps. *)
Ltac walks := repeat first
  [ progress cbv zeta
  | solve [eauto with steps typeclass_instances]
  | apply steps_bind; [typeclasses eauto| |intros]
  | match goal with |- steps _ (if _ && false then _ else _) => rewrite andb_false_r end
  | apply steps_if
  | match goal with |- steps _ (match ?x with _ => _ end) => destruct x end
  | match goal with |- steps _ (let (_, _) := ?x in _) => destruct x end ].

(** ** What the objects leave alone

    [R] relates the host's world before and after; it holds of all that the objects ask
    of the host. *)
Section Objects.
Context {V : Type} {OH : ObjectHost V} (R : V -> V -> Prop) `{!Reflexive R, !Transitive R}.

Definition over (s s' : ost V) : Prop := R (oworld s) (oworld s').

#[local] Instance over_refl : Reflexive over.
Proof. intros s; unfold over; reflexivity. Qed.
#[local] Instance over_trans : Transitive over.
Proof. intros s t u; unfold over; intros H1 H2; etransitivity; eassumption. Qed.

Class ObjectSteps := {
  os_struct n : steps over (alloc_struct n);
  os_bytes n : steps R (alloc_bytes n);
  os_create_mutex : steps R create_mutex;
  os_create_event : steps R create_event;
  os_mutex m : steps R (release_mutex m);
  os_event e : steps R (release_event e);
  os_table i : steps R (table_unref i);
  os_node n : steps R (node_unref n) }.
Context {OS : ObjectSteps}.

Lemma host_over {A} (c : SM V A) : steps R c -> steps over (host c).
Proof. intros H s a s' E; unfold host in E; destruct (c (oworld s)) as [[x w]|] eqn:Ec; [|discriminate]; injection E as _ <-; apply (H _ _ _ Ec). Qed.

Lemma of_opt_over {A} (o : option A) : steps over (of_opt o).
Proof. destruct o; [apply steps_ret; exact _|apply steps_undefined]. Qed.

Lemma update_over f : (forall s, oworld (f s) = oworld s) -> steps over (update_state f).
Proof. intros H s a s' [= _ <-]; unfold over; rewrite H; reflexivity. Qed.

#[local] Hint Resolve os_struct os_bytes os_create_mutex os_create_event os_mutex os_event os_table os_node host_over of_opt_over update_over : steps.

Lemma get_cell_over a : steps over (get_cell a).
Proof. unfold get_cell; walks. Qed.
Lemma put_cell_over a c : steps over (put_cell a c).
Proof. apply update_over; reflexivity. Qed.
#[local] Hint Resolve get_cell_over put_cell_over : steps.
Lemma write_cell_over a c : steps over (write_cell a c).
Proof. unfold write_cell; walks. Qed.
Lemma free_cell_over a : steps over (free_cell a).
Proof. unfold free_cell; walks; apply update_over; reflexivity. Qed.
Lemma on_count_over {A} (c : SM shareable A) a : steps over (Objects.on_count c a).
Proof. unfold Objects.on_count; walks. Qed.
#[local] Hint Resolve write_cell_over free_cell_over : steps.
Lemma shareable_ref_over a : steps over (shareable_ref a).
Proof. apply on_count_over. Qed.
Lemma shareable_unref_over a : steps over (shareable_unref a).
Proof. apply on_count_over. Qed.
Lemma bugged_over a : steps over (bugged_shareable a).
Proof. apply on_count_over. Qed.
Lemma refcount_over a : steps over (shareable_refcount a).
Proof. apply on_count_over. Qed.
#[local] Hint Resolve shareable_ref_over shareable_unref_over bugged_over refcount_over : steps.
Lemma delete_if_last_over a f : (forall x, steps over (f x)) -> steps over (shareable_unref_and_delete_if_last a f).
Proof. intros H; unfold shareable_unref_and_delete_if_last; walks. Qed.
#[local] Hint Resolve delete_if_last_over : steps.
Lemma get_object_over a : steps over (get_object a).
Proof. unfold get_object; walks. Qed.
Lemma get_buffer_over a : steps over (get_buffer a).
Proof. unfold get_buffer; walks. Qed.
Lemma get_package_over a : steps over (get_package a).
Proof. unfold get_package; walks. Qed.
Lemma get_mutex_over a : steps over (get_mutex a).
Proof. unfold get_mutex; walks. Qed.
Lemma get_aspace_over a : steps over (get_aspace a).
Proof. unfold get_aspace; walks. Qed.
Lemma get_handlers_over a : steps over (get_handlers a).
Proof. unfold get_handlers; walks. Qed.
Lemma cells_fuel_over : steps over cells_fuel.
Proof. unfold cells_fuel; walks. Qed.
#[local] Hint Resolve get_object_over get_buffer_over get_package_over get_mutex_over get_aspace_over get_handlers_over cells_fuel_over : steps.
Lemma get_pointer_over a : steps over (get_pointer a).
Proof. unfold get_pointer; walks. Qed.
Lemma set_data_over a d : steps over (set_data a d).
Proof. unfold set_data, Objects.set_object; walks. Qed.
Lemma new_cell_over n c : steps over (new_cell n c).
Proof. unfold new_cell; walks. Qed.
#[local] Hint Resolve get_pointer_over set_data_over new_cell_over : steps.

(** *** Release *)

Lemma free_buffer_over a : steps over (free_buffer a).
Proof. unfold free_buffer; walks. Qed.
Lemma free_mutex_over a : steps over (free_mutex a).
Proof. unfold free_mutex; walks. Qed.
Lemma free_event_over a : steps over (free_event a).
Proof. unfold free_event; walks. Qed.
Lemma free_aspace_over a : steps over (free_address_space_handler a).
Proof. unfold free_address_space_handler; walks. Qed.
#[local] Hint Resolve free_buffer_over free_mutex_over free_event_over free_aspace_over : steps.
Lemma free_aspaces_over fuel : forall a, steps over (free_address_space_handlers fuel a).
Proof. induction fuel as [|fuel IH]; intros a; cbn [free_address_space_handlers]; walks. Qed.
Lemma free_notifies_over fuel : forall a, steps over (free_device_notify_handlers fuel a).
Proof. induction fuel as [|fuel IH]; intros a; cbn [free_device_notify_handlers]; walks; apply update_over; reflexivity. Qed.
#[local] Hint Resolve free_aspaces_over free_notifies_over : steps.
Lemma free_handlers_over a : steps over (free_handlers a).
Proof. unfold free_handlers; walks. Qed.
Lemma free_op_region_over a : steps over (free_op_region a).
Proof. unfold free_op_region; walks. Qed.
Lemma free_method_over a : steps over (free_method a).
Proof. unfold free_method; walks. Qed.
#[local] Hint Resolve free_handlers_over free_op_region_over free_method_over : steps.

Section Free.
Context (release : Z -> SM (ost V) unit) (release_over : forall a, steps over (release a)).
#[local] Hint Resolve release_over : steps.

Lemma queue_push_over (q : free_queue) p : steps over (free_queue_push q p).
Proof. unfold free_queue_push, array_push; walks. Qed.
#[local] Hint Resolve queue_push_over : steps.
Lemma free_plain_over o q : steps over (free_plain_no_recurse release o q).
Proof. unfold free_plain_no_recurse; walks. Qed.
#[local] Hint Resolve free_plain_over : steps.
Lemma unref_chain_nr_over fuel : forall o q, steps over (unref_chain_no_recurse release fuel o q).
Proof. induction fuel as [|fuel IH]; intros o q; cbn [unref_chain_no_recurse]; walks. Qed.
#[local] Hint Resolve unref_chain_nr_over : steps.
Lemma unref_nr_over o q : steps over (unref_object_no_recurse release o q).
Proof. unfold unref_object_no_recurse, unref_plain_no_recurse; walks. Qed.
#[local] Hint Resolve unref_nr_over : steps.
Lemma unref_slots_over l : forall q, steps over (unref_slots release l q).
Proof. induction l as [|o l IH]; intros q; cbn [unref_slots]; walks. Qed.
#[local] Hint Resolve unref_slots_over : steps.
Lemma free_queued_over fuel : forall q, steps over (free_queued release fuel q).
Proof. induction fuel as [|fuel IH]; intros q; cbn [free_queued]; walks. Qed.
#[local] Hint Resolve free_queued_over : steps.
Lemma free_package_over p : steps over (free_package release p).
Proof. unfold free_package; walks. Qed.
Lemma free_chain_over fuel : forall o, steps over (free_chain release fuel o).
Proof. induction fuel as [|fuel IH]; intros o; cbn [free_chain]; walks. Qed.
Lemma unref_chain_over fuel : forall o, steps over (unref_chain (W := V) fuel o).
Proof. induction fuel as [|fuel IH]; intros o; cbn [unref_chain]; walks. Qed.
#[local] Hint Resolve free_package_over free_chain_over unref_chain_over : steps.
Lemma object_unref_over o : steps over (object_unref release o).
Proof. unfold object_unref; walks. Qed.
#[local] Hint Resolve object_unref_over : steps.
Lemma free_field_unit_over fuel : forall a, steps over (free_field_unit release fuel a).
Proof. induction fuel as [|fuel IH]; intros a; cbn [free_field_unit]; walks. Qed.
#[local] Hint Resolve free_field_unit_over : steps.
Lemma free_storage_over a : steps over (free_object_storage release a).
Proof. unfold free_object_storage, uacpi_method_unref, uacpi_mutex_unref, free_device, free_processor, free_thermal_zone; walks; apply delete_if_last_over; intros; walks. Qed.
End Free.

Lemma free_object_over fuel : forall a, steps over (free_object fuel a).
Proof.
  induction fuel as [|fuel IH]; intros a; cbn [free_object]; [apply steps_undefined|]; unfold free_object_with.
  apply steps_bind; [exact _|apply free_storage_over, IH|intros; apply free_cell_over].
Qed.

Lemma unref_over o : steps over (uacpi_object_unref o).
Proof. unfold uacpi_object_unref, with_free; apply steps_bind; [exact _|apply cells_fuel_over|intros; apply object_unref_over, free_object_over]. Qed.

Lemma ref_over o : steps over (uacpi_object_ref o).
Proof.
  unfold uacpi_object_ref; apply steps_bind; [exact _|apply cells_fuel_over|]; intros fuel; revert o.
  induction fuel as [|fuel IH]; intros o; cbn [on_chain]; walks.
Qed.

Lemma create_integer_over : steps over (uacpi_create_object OBJECT_INTEGER).
Proof. unfold uacpi_create_object, create_bare; cbn [object_constructor_table]; walks. Qed.

Lemma get_type_over o : steps over (uacpi_object_get_type o).
Proof. unfold uacpi_object_get_type; walks. Qed.

Lemma string_or_buffer_over o : steps over (uacpi_object_get_string_or_buffer o).
Proof.
  unfold uacpi_object_get_string_or_buffer, uacpi_object_do_get_string_or_buffer, type_check, Objects.uacpi_object_is_one_of, uacpi_object_get_type_bit, uacpi_buffer_to_view.
  pose proof get_type_over; walks.
Qed.

Lemma handler_unref_over a : steps over (uacpi_address_space_handler_unref a).
Proof. apply delete_if_last_over, free_aspace_over. Qed.
End Objects.

(** ** Locks as a state

    How often the lock of the regions is held, whether the namespace is locked, and how
    many attempts to lock the namespace have failed so far. *)
Section Triples.
Context {S : Type} (st : S -> Z * bool * Z).

(** Where a computation takes the locks unless an attempt fails in it. *)
Definition triple {A} (p : Z * bool) (c : SM S A) (q : A -> Z * bool) : Prop :=
  forall s a s', c s = Some (a, s') -> snd (st s) <= snd (st s') /\ (fst (st s) = p -> snd (st s') = snd (st s) -> fst (st s') = q a).

(** From [b] back to [b] at any depth. *)
Definition stays (b : bool) (s s' : S) : Prop :=
  snd (st s) <= snd (st s') /\ (snd (st s') = snd (st s) -> forall k, fst (st s) = (k, b) -> fst (st s') = (k, b)).

Definition same (s s' : S) : Prop := st s' = st s.

#[local] Instance stays_refl b : Reflexive (stays b).
Proof. intros s; split; [lia|auto]. Qed.
#[local] Instance stays_trans b : Transitive (stays b).
Proof. intros s t u [L1 H1] [L2 H2]; split; [lia|]; intros E k Ek; apply H2; [lia|]; apply H1; [lia|exact Ek]. Qed.
#[local] Instance same_refl : Reflexive same.
Proof. intros s; reflexivity. Qed.
#[local] Instance same_trans : Transitive same.
Proof. intros s t u; unfold same; congruence. Qed.

Lemma same_relation b s s' : same s s' -> stays b s s'.
Proof. unfold same; intros H; unfold stays; rewrite H; split; [lia|auto]. Qed.
Lemma same_stays {A} b (c : SM S A) : steps same c -> steps (stays b) c.
Proof. intros H s a s' E; apply same_relation, (H _ _ _ E). Qed.

Lemma lock_triple_bind {A B} p (c : SM S A) q (f : A -> SM S B) r :
  triple p c q -> (forall a, triple (q a) (f a) r) -> triple p (a ← c; f a) r.
Proof.
  intros Hc Hf s b s' E; apply SM_bind_inv in E as (a & t & Ec & E); destruct (Hc _ _ _ Ec) as [L1 H1], (Hf a _ _ _ E) as [L2 H2].
  split; [lia|]; intros Es En; apply H2; [|lia]; apply H1; [exact Es|lia].
Qed.

Lemma lock_triple_ret {A} p (a : A) q : p = q a -> triple p (mret a : SM S A) q.
Proof. intros -> s x s' [= <- <-]; split; [lia|auto]. Qed.

Lemma triple_stays {A} k b (c : SM S A) : steps (stays b) c -> triple (k, b) c (fun _ => (k, b)).
Proof. intros H s a s' E; destruct (H _ _ _ E) as [L Hs]; split; [exact L|]; intros Es En; exact (Hs En k Es). Qed.

Lemma stays_triple {A} b (c : SM S A) : (forall k, triple (k, b) c (fun _ => (k, b))) -> steps (stays b) c.
Proof. intros H s a s' E; split; [apply (H 0 _ _ _ E)|]; intros En k Es; exact (proj2 (H k _ _ _ E) Es En). Qed.

Lemma triple_if {A} p (b : bool) (c d : SM S A) q : (b = true -> triple p c q) -> (b = false -> triple p d q) -> triple p (if b then c else d) q.
Proof. destruct b; auto. Qed.
End Triples.

#[local] Existing Instances stays_refl stays_trans same_refl same_trans.

(** ** Walks over the namespace

    What holds of the callback and of looking at a node holds of a walk without locks. *)
Section Walk.
Context {W : Type} {NL : NamespaceLock W} {OBJ : Namespace.Objects W} (R : ns W -> ns W -> Prop) `{!Reflexive R, !Transitive R}.
Context (unwrap_steps : forall a, steps R (Namespace.in_world (Namespace.uacpi_unwrap_internal_reference a))).
Context (type_steps : forall a, steps R (Namespace.in_world (Namespace.object_type a))).

Lemma get_node_steps a : steps R (get_node a).
Proof. intros s x s' E; unfold get_node in E; destruct (nodes s !! a); [|discriminate]; injection E as _ <-; reflexivity. Qed.
#[local] Hint Resolve get_node_steps unwrap_steps type_steps : steps.

Lemma node_object_steps a : steps R (uacpi_namespace_node_get_object a).
Proof. unfold uacpi_namespace_node_get_object; walks. Qed.
#[local] Hint Resolve node_object_steps : steps.

Context (cb : Z -> Z -> SM (ns W) Z) (cb_steps : forall n d, steps R (cb n d)) (mask depth : Z) (perm : bool).
#[local] Hint Resolve cb_steps : steps.

Lemma visit_steps n d up m : steps R (visit_node (Some cb) None mask false perm n d up m).
Proof.
  unfold visit_node, offer_node, uacpi_namespace_node_is_one_of_unlocked, object_is_one_of, uacpi_namespace_node_is_temporary.
  apply steps_bind; [exact _|walks|intros]; destruct up; walks.
Qed.
#[local] Hint Resolve visit_steps : steps.

Lemma loop_steps fuel : forall n d up m, steps R (for_each_loop (Some cb) None mask depth false perm fuel n d up m).
Proof. induction fuel as [|fuel IH]; intros n d up m; cbn [for_each_loop]; walks. Qed.
#[local] Hint Resolve loop_steps : steps.

Lemma children_steps n : steps R (uacpi_namespace_do_for_each_child (Some cb) None mask depth false perm n).
Proof. unfold uacpi_namespace_do_for_each_child; walks. Qed.
End Walk.

(** ** The namespace *)
Section Locks.
Context {V : Type} {OH : ObjectHost V} {NL : NamespaceLock (ost V)} {OBJ : Namespace.Objects (ost V)} {RH : RegionHost V}.
Context (locks : V -> Z * bool * Z).

Definition ost_locks (s : ost V) : Z * bool * Z := locks (oworld s).
Definition ns_locks (s : ns (ost V)) : Z * bool * Z := ost_locks (world s).
Definition io_locks (s : bytes * ns (ost V)) : Z * bool * Z := ns_locks (snd s).

(** The host's part: the lock of the regions is taken while the namespace is unlocked;
    handlers run while it is unlocked, methods while it is locked; both give back the
    locks as they were; an attempt to lock the namespace that fails changes no lock and is
    counted; the rest takes no locks. *)
Class RegionLaws := {
  rl_objects :: ObjectSteps (same locks);
  rl_acquire k : triple locks (k, false) opregion_lock_acquire (fun ret => (if is_ok ret then k + 1 else k, false));
  rl_acquire_counts : steps (fun w w' => snd (locks w') = snd (locks w)) opregion_lock_acquire;
  rl_release_counts : steps (fun w w' => snd (locks w') = snd (locks w)) opregion_lock_release;
  rl_release k b : triple locks (k + 1, b) opregion_lock_release (fun _ => (k, b));
  rl_lock k : triple ost_locks (k, false) uacpi_namespace_write_lock (fun _ => (k, true));
  rl_lock_fails k n s ret s' : ost_locks s = (k, false, n) -> uacpi_namespace_write_lock s = Some (ret, s') -> is_ok ret = false -> ost_locks s' = (k, false, n + 1);
  rl_unlock k : triple ost_locks (k, true) uacpi_namespace_write_unlock (fun _ => (k, false));
  rl_notify cb n : steps (stays ns_locks false) (notify_region_handler cb n);
  rl_call cb rc hc q : steps (stays io_locks false) (call_region_handler cb rc hc q);
  rl_method n m l : steps (stays ns_locks true) (uacpi_execute_control_method n m l);
  rl_buffer n : steps (same io_locks) (alloc_internal_buffer n);
  rl_unwrap a : steps (same ost_locks) (Namespace.uacpi_unwrap_internal_reference a);
  rl_type a : steps (same ost_locks) (Namespace.object_type a);
  rl_root : steps (same ost_locks) root_object }.
Context {RL : RegionLaws}.

Abbreviation M := (SM (ns (ost V))).
Abbreviation kept := (stays ns_locks true).

Lemma objects_same {A} (c : SM (ost V) A) : steps (same ost_locks) c -> steps (same ns_locks) (on_objects c).
Proof.
  intros H s a s' E; unfold on_objects, Namespace.in_world in E; destruct (c (world s)) as [[x w]|] eqn:Ec; [|discriminate].
  injection E as _ <-; exact (H _ _ _ Ec).
Qed.

Lemma objects_kept {A} (c : SM (ost V) A) : steps (same ost_locks) c -> steps kept (on_objects c).
Proof. intros H; apply same_stays, objects_same, H. Qed.

Lemma in_world_kept {A} (c : SM (ost V) A) : steps (same ost_locks) c -> steps kept (Namespace.in_world c).
Proof. exact (objects_kept c). Qed.

Lemma over_objects {A} (c : SM (ost V) A) : steps (over (same locks)) c -> steps kept (on_objects c).
Proof. exact (objects_kept c). Qed.

Lemma gets_locks_kept {A} (f : ns (ost V) -> A) : steps kept (gets_state f).
Proof. apply steps_gets; exact _. Qed.

Lemma get_node_kept a : steps kept (get_node a).
Proof. intros s x s' E; unfold get_node in E; destruct (nodes s !! a); [|discriminate]; injection E as _ <-; reflexivity. Qed.
Lemma put_node_kept a n : steps kept (put_node a n).
Proof. intros s x s' [= _ <-]; apply same_relation; reflexivity. Qed.
Lemma free_node_kept a : steps kept (free_node a).
Proof. intros s x s' [= _ <-]; apply same_relation; reflexivity. Qed.
#[local] Hint Resolve rl_unwrap rl_type rl_root rl_method in_world_kept gets_locks_kept get_node_kept put_node_kept free_node_kept : steps.

Lemma update_node_kept a f : steps kept (update_node a f).
Proof. unfold update_node; walks. Qed.
Lemma node_flag_kept a : steps kept (uacpi_namespace_node_is_temporary a).
Proof. unfold uacpi_namespace_node_is_temporary; walks. Qed.
Lemma dangling_kept a : steps kept (uacpi_namespace_node_is_dangling a).
Proof. unfold uacpi_namespace_node_is_dangling; walks. Qed.
Lemma predefined_kept a : steps kept (uacpi_namespace_node_is_predefined a).
Proof. unfold uacpi_namespace_node_is_predefined; walks. Qed.
Lemma ns_count_kept {A} a (c : SM shareable A) : steps kept (Namespace.on_count a c).
Proof. unfold Namespace.on_count; walks. Qed.
#[local] Hint Resolve update_node_kept node_flag_kept dangling_kept predefined_kept ns_count_kept : steps.
Lemma node_unref_kept a : steps kept (uacpi_namespace_node_unref a).
Proof. unfold uacpi_namespace_node_unref, free_namespace_node; walks. Qed.
Lemma node_object_kept a : steps kept (uacpi_namespace_node_get_object a).
Proof. unfold uacpi_namespace_node_get_object; walks. Qed.
#[local] Hint Resolve node_unref_kept node_object_kept : steps.
Lemma node_typed_kept a m : steps kept (uacpi_namespace_node_get_object_typed a m).
Proof. unfold uacpi_namespace_node_get_object_typed, object_is_one_of; walks. Qed.
Lemma find_sibling_kept fuel : forall a nm, steps kept (find_sibling fuel a nm).
Proof. induction fuel as [|fuel IH]; intros a nm; cbn [find_sibling]; walks. Qed.
#[local] Hint Resolve node_typed_kept find_sibling_kept : steps.
Lemma find_sub_kept a nm : steps kept (uacpi_namespace_node_find_sub_node a nm).
Proof. unfold uacpi_namespace_node_find_sub_node, walk_fuel; walks. Qed.
Lemma prefix_kept p : forall c pc b, steps kept (resolve_prefix p c pc b).
Proof. induction p as [|x p IH]; intros c pc b; cbn [resolve_prefix]; walks. Qed.
#[local] Hint Resolve find_sub_kept prefix_kept : steps.
Lemma search_above_kept fuel : forall a nm, steps kept (search_above fuel a nm).
Proof. induction fuel as [|fuel IH]; intros a nm; cbn [search_above]; walks. Qed.
#[local] Hint Resolve search_above_kept : steps.
Lemma segments_kept fuel : forall m p c l b, steps kept (resolve_segments fuel m p c l b).
Proof.
  induction fuel as [|fuel IH]; intros m p c l b; destruct l; cbn [resolve_segments]; [walks..|].
  destruct (segment_to_name _ _); unfold walk_fuel; walks.
Qed.
#[local] Hint Resolve segments_kept : steps.
Lemma resolve_kept p path a perm : steps kept (uacpi_namespace_node_resolve p path false a perm).
Proof. unfold uacpi_namespace_node_resolve, resolve_body; walks. Qed.

Lemma children_kept cb mask depth perm n : (forall n d, steps kept (cb n d)) ->
  steps kept (uacpi_namespace_do_for_each_child (Some cb) None mask depth false perm n).
Proof. intros H; apply children_steps; [exact _|exact _|intros; apply in_world_kept, rl_unwrap|intros; apply in_world_kept, rl_type|exact H]. Qed.

(** ** Regions *)

Lemma get_region_kept a : steps kept (get_region a).
Proof. apply over_objects; pose proof (get_cell_over (same locks) a); walks. Qed.
Lemma write_kept a c : steps kept (on_objects (write_cell a c)).
Proof. apply over_objects, write_cell_over; exact _. Qed.
Lemma get_handler_kept a : steps kept (get_handler a).
Proof. apply over_objects, get_aspace_over; exact _. Qed.
Lemma get_handlers_kept a : steps kept (on_objects (get_handlers a)).
Proof. apply over_objects, get_handlers_over; exact _. Qed.
Lemma storage_kept a : steps kept (storage_of a).
Proof. apply over_objects, get_pointer_over; exact _. Qed.
Lemma fuel_kept : steps kept (objects_fuel (V := V)).
Proof. apply over_objects, cells_fuel_over; exact _. Qed.
Lemma unref_kept a : steps kept (on_objects (Objects.uacpi_object_unref a)).
Proof. apply over_objects, unref_over; exact _. Qed.
Lemma ref_kept a : steps kept (on_objects (Objects.uacpi_object_ref a)).
Proof. apply over_objects, ref_over; exact _. Qed.
Lemma integer_kept : steps kept (on_objects (uacpi_create_object OBJECT_INTEGER)).
Proof. apply over_objects, create_integer_over; exact _. Qed.
Lemma data_kept a d : steps kept (on_objects (set_data a d)).
Proof. apply over_objects, set_data_over; exact _. Qed.
Lemma type_kept a : steps kept (on_objects (uacpi_object_get_type a)).
Proof. apply over_objects, get_type_over; exact _. Qed.
Lemma handler_unref_kept a : steps kept (on_objects (uacpi_address_space_handler_unref a)).
Proof. apply over_objects, handler_unref_over; exact _. Qed.
Lemma handler_ref_kept a : steps kept (on_objects (shareable_ref a)).
Proof. apply over_objects, shareable_ref_over; exact _. Qed.
Lemma root_kept : steps kept (on_objects root_object).
Proof. apply objects_kept, rl_root. Qed.
Lemma new_kept n c : steps kept (on_objects (new_cell n c)).
Proof. apply over_objects, new_cell_over; exact _. Qed.
#[local] Hint Resolve get_region_kept write_kept get_handler_kept get_handlers_kept storage_kept fuel_kept unref_kept ref_kept
  integer_kept data_kept type_kept handler_unref_kept handler_ref_kept root_kept new_kept resolve_kept : steps.
Lemma update_region_kept a f : steps kept (update_region a f).
Proof. unfold update_region; walks. Qed.
Lemma update_handler_kept a f : steps kept (update_handler a f).
Proof. unfold update_handler; walks. Qed.
Lemma update_handlers_kept a f : steps kept (update_handlers a f).
Proof. unfold update_handlers; walks. Qed.
Lemma node_region_kept a : steps kept (node_region a).
Proof. unfold node_region; walks. Qed.
#[local] Hint Resolve update_region_kept update_handler_kept update_handlers_kept node_region_kept : steps.
Lemma run_reg_kept n c : steps kept (region_run_reg n c).
Proof. unfold region_run_reg; walks. Qed.
Lemma handlers_of_kept n : steps kept (uacpi_node_get_address_space_handlers n).
Proof. unfold uacpi_node_get_address_space_handlers; walks. Qed.
Lemma find_from_kept fuel : forall h sp, steps kept (find_handler_from fuel h sp).
Proof. induction fuel as [|fuel IH]; intros h sp; cbn [find_handler_from]; walks. Qed.
Lemma link_from_kept fuel : forall a r, steps kept (previous_link fuel a r).
Proof. induction fuel as [|fuel IH]; intros a r; cbn [previous_link]; walks. Qed.
#[local] Hint Resolve run_reg_kept handlers_of_kept find_from_kept link_from_kept : steps.
Lemma find_handler_kept hs sp : steps kept (find_handler hs sp).
Proof. unfold find_handler; walks. Qed.
Lemma install_kept n h : steps kept (region_install_handler n h).
Proof. unfold region_install_handler; walks. Qed.
Lemma unlink_region_kept r : steps kept (unlink_region r).
Proof. unfold unlink_region, find_previous_region_link; walks. Qed.
#[local] Hint Resolve find_handler_kept install_kept unlink_region_kept : steps.


Lemma on_objects_triple {A} p (c : SM (ost V) A) q : triple ost_locks p c q -> triple ns_locks p (on_objects c) q.
Proof.
  intros H s a s' E; unfold on_objects, Namespace.in_world in E; destruct (c (world s)) as [[x w]|] eqn:Ec; [|discriminate].
  injection E as -> <-; exact (H _ _ _ Ec).
Qed.

Lemma on_host_triple {A} p (c : SM V A) q : triple locks p c q -> triple ns_locks p (on_host c) q.
Proof.
  intros H; apply on_objects_triple; intros s a s' E; unfold host in E; destruct (c (oworld s)) as [[x w]|] eqn:Ec; [|discriminate].
  injection E as -> <-; exact (H _ _ _ Ec).
Qed.

Lemma write_lock_triple k : triple ns_locks (k, false) write_lock (fun _ => (k, true)).
Proof. apply on_objects_triple, rl_lock. Qed.

(** When the count is the same, the attempt was successful. *)
Lemma write_lock_result k : triple ns_locks (k, false) write_lock (fun ret => (k, is_ok ret)).
Proof.
  intros s ret s' E; destruct (write_lock_triple k _ _ _ E) as [L H]; split; [exact L|]; intros Es En; rewrite (H Es En); f_equal.
  unfold write_lock, on_objects, Namespace.in_world in E; destruct (uacpi_namespace_write_lock (world s)) as [[x w]|] eqn:Ew; [|discriminate].
  injection E as -> <-; destruct (is_ok ret) eqn:Er; [reflexivity|]; unfold ns_locks in *; destruct (ost_locks (world s)) as [p n] eqn:Ep; cbn in Es; subst p.
  cbn [world with_world] in En; rewrite (rl_lock_fails k n _ _ _ Ep Ew Er) in En; cbn in En; lia.
Qed.

Lemma write_unlock_triple k : triple ns_locks (k, true) write_unlock (fun _ => (k, false)).
Proof. eapply lock_triple_bind; [apply on_objects_triple, rl_unlock|intros st; apply lock_triple_ret; reflexivity]. Qed.

Lemma release_triple k b : triple ns_locks (k + 1, b) release_opregion_lock (fun _ => (k, b)).
Proof. apply on_host_triple, rl_release. Qed.

(** A window in which the namespace is unlocked, before [f]. *)
Lemma window_kept {A B} (c : M A) (f : A -> M B) :
  steps (stays ns_locks false) c -> (forall a, steps kept (f a)) -> steps kept (write_unlock;; (x ← c; write_lock;; f x)).
Proof.
  intros Hc Hf; apply stays_triple; intros k.
  eapply lock_triple_bind; [apply write_unlock_triple|intros []].
  eapply lock_triple_bind; [apply triple_stays, Hc|intros x; cbv beta].
  eapply lock_triple_bind; [apply write_lock_triple|intros st; cbv beta].
  apply triple_stays, Hf.
Qed.

Lemma detach_region_kept n r : steps kept (detach_region n r).
Proof.
  unfold detach_region; apply steps_bind; [exact _|walks|intros x]; apply steps_if; [walks|].
  apply steps_bind; [exact _|walks|intros h]; apply steps_bind; [exact _|walks|intros c].
  apply window_kept; [apply rl_notify|intros; walks].
Qed.
#[local] Hint Resolve detach_region_kept : steps.

Lemma uninstall_kept n u : steps kept (region_uninstall_handler n u).
Proof. unfold region_uninstall_handler; walks. Qed.
#[local] Hint Resolve uninstall_kept : steps.

Lemma install_visit_kept act h n d : steps kept (do_install_or_uninstall_handler act h n d).
Proof. unfold do_install_or_uninstall_handler, visit_region; walks. Qed.
Lemma do_run_reg_kept sp c n d : steps kept (do_run_reg sp c n d).
Proof. unfold do_run_reg; walks. Qed.
#[local] Hint Resolve install_visit_kept do_run_reg_kept children_kept : steps.

Lemma reg_or_unreg_kept d sp c : steps kept (reg_or_unreg_all_opregions d sp c).
Proof. unfold reg_or_unreg_all_opregions; walks. Qed.
Lemma extract_kept n : steps kept (extract_handlers n).
Proof. unfold extract_handlers; walks. Qed.
Lemma unlink_from_kept fuel : forall p h n, steps kept (unlink_handler_from fuel p h n).
Proof. induction fuel as [|fuel IH]; intros p h n; cbn [unlink_handler_from]; walks. Qed.
#[local] Hint Resolve reg_or_unreg_kept extract_kept unlink_from_kept : steps.
Lemma unlink_handler_kept hs h : steps kept (unlink_handler hs h).
Proof. unfold unlink_handler; walks. Qed.
Lemma above_kept fuel : forall a n sp, steps kept (install_from_above fuel a n sp).
Proof. induction fuel as [|fuel IH]; intros a n sp; cbn [install_from_above]; walks. Qed.
#[local] Hint Resolve unlink_handler_kept above_kept : steps.

(** *** The lock of the regions *)

Lemma upgrade_triple k : triple ns_locks (k, true) upgrade_to_opregion_lock (fun ret => (if is_ok ret then k + 1 else k, true)).
Proof.
  eapply lock_triple_bind; [apply write_unlock_triple|intros []].
  eapply lock_triple_bind; [apply on_host_triple, rl_acquire|intros ret; cbv beta].
  eapply lock_triple_bind; [apply write_lock_triple|intros st; apply lock_triple_ret; reflexivity].
Qed.

Lemma upgraded_kept {A} (c : M A) (e : uacpi_status -> A) : steps kept c ->
  steps kept (ret ← upgrade_to_opregion_lock; if negb (is_ok ret) then mret (e ret) else x ← c; release_opregion_lock;; mret x).
Proof.
  intros H; apply stays_triple; intros k; eapply lock_triple_bind; [apply upgrade_triple|intros ret; cbv beta].
  destruct (is_ok ret); cbn [negb]; [|apply lock_triple_ret; reflexivity].
  eapply lock_triple_bind; [apply triple_stays, H|intros x; cbv beta].
  eapply lock_triple_bind; [apply release_triple|intros []; apply lock_triple_ret; reflexivity].
Qed.

Lemma locked_region_stays (c : M uacpi_status) : steps kept c -> steps (stays ns_locks false) (locked_region c).
Proof.
  intros H; apply stays_triple; intros k; eapply lock_triple_bind; [apply on_host_triple, rl_acquire|intros ret; cbv beta].
  destruct (is_ok ret); cbn [negb]; [|apply lock_triple_ret; reflexivity].
  eapply lock_triple_bind with (q := fun ret => (k + 1, is_ok ret)); [apply write_lock_result|intros st; cbv beta].
  destruct (is_ok st); cbn [negb].
  - eapply lock_triple_bind; [apply triple_stays, H|intros x; cbv beta].
    eapply lock_triple_bind; [apply write_unlock_triple|intros []].
    eapply lock_triple_bind; [apply release_triple|intros []; apply lock_triple_ret; reflexivity].
  - eapply lock_triple_bind; [apply release_triple|intros []; apply lock_triple_ret; reflexivity].
Qed.

(** The attempt to lock the namespace fails once the lock of the regions is held. *)
Definition lock_refused (s : ns (ost V)) : Prop :=
  exists s1 st s2, on_host opregion_lock_acquire s = Some (UACPI_STATUS_OK, s1) /\ write_lock s1 = Some (st, s2) /\ is_ok st = false.

Lemma on_host_counts {A} (c : SM V A) : steps (fun w w' => snd (locks w') = snd (locks w)) c -> steps (fun s s' => snd (ns_locks s') = snd (ns_locks s)) (on_host c).
Proof.
  intros H s a s' E; unfold on_host, on_objects, Namespace.in_world, host in E; destruct (c (oworld (world s))) as [[x w]|] eqn:Ec; [|discriminate].
  injection E as _ <-; exact (H _ _ _ Ec).
Qed.

(** Then the call gives back the lock of the regions and ends. *)
Lemma locked_region_refused (c : M uacpi_status) s ret s' k : lock_refused s -> fst (ns_locks s) = (k, false) ->
  locked_region c s = Some (ret, s') -> fst (ns_locks s') = (k, false).
Proof.
  intros (s1 & st & s2 & E1 & E2 & Est) Hs E; unfold locked_region in E; apply SM_bind_inv in E as (r & t1 & Er & E); rewrite E1 in Er; injection Er as <- <-.
  cbn [is_ok negb] in E; apply SM_bind_inv in E as (r & t2 & Er & E); rewrite E2 in Er; injection Er as <- <-; rewrite Est in E; cbn [negb] in E.
  apply SM_bind_inv in E as ([] & t3 & Er & [= _ <-]); pose proof (on_host_counts _ rl_acquire_counts _ _ _ E1) as C1.
  pose proof (proj2 (on_host_triple _ _ _ (rl_acquire k) _ _ _ E1) Hs C1) as H1; cbn in H1.
  assert (H2 : fst (ns_locks s2) = (k + 1, false)).
  { unfold write_lock, on_objects, Namespace.in_world in E2; destruct (uacpi_namespace_write_lock (world s1)) as [[x w]|] eqn:Ew; [|discriminate].
    injection E2 as -> <-; unfold ns_locks in *; destruct (ost_locks (world s1)) as [p n] eqn:Ep; cbn in H1; subst p; cbn [world with_world].
    rewrite (rl_lock_fails _ n _ _ _ Ep Ew Est); reflexivity. }
  exact (proj2 (release_triple k false _ _ _ Er) H2 (on_host_counts _ rl_release_counts _ _ _ Er)).
Qed.

Lemma uninstall_node_kept n : steps kept (Regions.uacpi_opregion_uninstall_handler n).
Proof.
  apply stays_triple; intros k; eapply lock_triple_bind; [apply upgrade_triple|intros ret; cbv beta].
  destruct (is_ok ret); cbn [negb]; [|apply lock_triple_ret; reflexivity].
  eapply lock_triple_bind; [apply triple_stays, uninstall_kept|intros x; apply release_triple].
Qed.

Lemma init_node_kept n : steps kept (uacpi_initialize_opregion_node n).
Proof.
  unfold uacpi_initialize_opregion_node; apply steps_bind; [exact _|walks|intros x].
  apply stays_triple; intros k; eapply lock_triple_bind; [apply upgrade_triple|intros ret; cbv beta].
  destruct (is_ok ret); cbn [negb]; [|apply lock_triple_ret; reflexivity].
  do 5 (eapply lock_triple_bind; [apply triple_stays; unfold walk_fuel, current_level; walks|intros ?; cbv beta]).
  eapply lock_triple_bind; [apply triple_stays; walks|intros ?; cbv beta].
  eapply lock_triple_bind; [apply release_triple|intros []; apply lock_triple_ret; reflexivity].
Qed.

Lemma install_call_stays d sp h hc fl : steps (stays ns_locks false) (uacpi_install_address_space_handler_with_flags d sp h hc fl).
Proof. apply locked_region_stays; unfold current_level; walks. Qed.

Lemma uninstall_call_stays d sp : steps (stays ns_locks false) (uacpi_uninstall_address_space_handler d sp).
Proof. apply locked_region_stays; walks. Qed.

Lemma reg_all_stays d sp : steps (stays ns_locks false) (uacpi_reg_all_opregions d sp).
Proof.
  unfold uacpi_reg_all_opregions, current_level; apply steps_bind; [exact _|apply steps_gets; exact _|intros l].
  apply steps_if; [apply steps_ret; exact _|]; apply steps_if; [apply steps_ret; exact _|].
  apply locked_region_stays; walks.
Qed.

(** *** Accesses *)

Abbreviation io_kept := (stays io_locks true).

Lemma below_triple {A} p (c : M A) q : triple ns_locks p c q -> triple io_locks p (below c) q.
Proof.
  intros H [m w] a s' E; unfold below, FieldUnit.in_world in E; destruct (c w) as [[x w']|] eqn:Ec; [|discriminate].
  injection E as -> <-; exact (H _ _ _ Ec).
Qed.

Lemma below_stays {A} b (c : M A) : steps (stays ns_locks b) c -> steps (stays io_locks b) (below c).
Proof. intros H; apply stays_triple; intros k; apply below_triple, triple_stays, H. Qed.

Lemma in_memory_kept f : steps io_kept (in_memory f).
Proof. intros [m w] a s' E; unfold in_memory in E; destruct (f m); [|discriminate]; injection E as _ <-; apply same_relation; reflexivity. Qed.

Lemma load_integer_kept d : steps io_kept (load_integer d).
Proof. intros s a s' E; unfold load_integer in E; destruct d; [|discriminate]; destruct (load_le _ _ _); [|discriminate]; injection E as _ <-; apply same_relation; reflexivity. Qed.

Lemma buffer_alloc_kept n : steps io_kept (alloc_internal_buffer n).
Proof. apply same_stays, rl_buffer. Qed.

Lemma connection_kept o : steps kept (on_objects (uacpi_object_get_string_or_buffer o)).
Proof. apply over_objects, string_or_buffer_over; exact _. Qed.
#[local] Hint Resolve below_stays in_memory_kept load_integer_kept buffer_alloc_kept connection_kept : steps.

Lemma io_window_kept {A B} (c : SM (bytes * ns (ost V)) A) (f : A -> SM (bytes * ns (ost V)) B) :
  steps (stays io_locks false) c -> (forall a, steps io_kept (f a)) -> steps io_kept (below write_unlock;; (x ← c; below write_lock;; f x)).
Proof.
  intros Hc Hf; apply stays_triple; intros k.
  eapply lock_triple_bind; [apply below_triple, write_unlock_triple|intros []].
  eapply lock_triple_bind; [apply triple_stays, Hc|intros x; cbv beta].
  eapply lock_triple_bind; [apply below_triple, write_lock_triple|intros st; apply triple_stays, Hf].
Qed.

Lemma attach_region_kept n o r : steps io_kept (attach_region n o r).
Proof.
  unfold attach_region; do 3 (apply steps_bind; [exact _|walks|intros ?]).
  apply io_window_kept; [apply below_stays, rl_notify|intros [ret ctx]; walks].
Qed.
#[local] Hint Resolve attach_region_kept : steps.

Lemma attach_kept n : steps io_kept (uacpi_opregion_attach n).
Proof. unfold uacpi_opregion_attach; walks. Qed.

Lemma prepare_kept p c r o op d : steps io_kept (prepare p c r o op d).
Proof. unfold prepare, buffer_of; walks. Qed.

Lemma run_request_kept o h rc x : steps io_kept (run_request o h rc x).
Proof.
  destruct x as [st|q]; cbn [run_request]; [walks|]; apply steps_bind; [exact _|walks|intros []].
  apply io_window_kept; [apply rl_call|intros; walks].
Qed.
#[local] Hint Resolve attach_kept prepare_kept run_request_kept : steps.

Lemma dispatch_locked_kept p c n o op d : steps io_kept (dispatch_locked p c n o op d).
Proof. unfold dispatch_locked, store_integer; walks. Qed.

Lemma dispatch_kept p c n o op d : steps io_kept (uacpi_dispatch_opregion_io p c n o op d).
Proof.
  apply stays_triple; intros k; eapply lock_triple_bind; [apply below_triple, upgrade_triple|intros ret; cbv beta].
  destruct (is_ok ret); cbn [negb]; [|apply lock_triple_ret; reflexivity].
  eapply lock_triple_bind; [apply triple_stays, dispatch_locked_kept|intros x; cbv beta].
  eapply lock_triple_bind; [apply below_triple, release_triple|intros []; apply lock_triple_ret; reflexivity].
Qed.

(** ** What the rest of the system calls *)

Inductive region_call :=
  | INSTALL (device space handler context hflags : Z)
  | UNINSTALL (device space : Z)
  | REG_ALL (device space : Z)
  | INITIALIZE_NODE (node : Z)
  | UNINSTALL_NODE (node : Z)
  | DISPATCH (p : field_props) (connection node offset : Z) (op : uacpi_region_op) (data : io_data).

Definition run_call (c : region_call) : SM (bytes * ns (ost V)) uacpi_status :=
  match c with
  | INSTALL d sp h hc fl => below (uacpi_install_address_space_handler_with_flags d sp h hc fl)
  | UNINSTALL d sp => below (uacpi_uninstall_address_space_handler d sp)
  | REG_ALL d sp => below (uacpi_reg_all_opregions d sp)
  | INITIALIZE_NODE n => below (uacpi_initialize_opregion_node n)
  | UNINSTALL_NODE n => below (Regions.uacpi_opregion_uninstall_handler n;; mret UACPI_STATUS_OK)
  | DISPATCH p c n o op d => uacpi_dispatch_opregion_io p c n o op d
  end.

(** Does the caller hold the namespace?  The interpreter and the namespace do, users do not. *)
Definition namespace_held (c : region_call) : bool :=
  match c with INSTALL _ _ _ _ _ | UNINSTALL _ _ | REG_ALL _ _ => false | _ => true end.

(** C8.  Whatever the host does when the order of the locks is broken, a lock is given back
    that is not held or a handler is called with the namespace locked: a call, errors
    included, returns with the locks that its caller held, unless an attempt to lock the
    namespace failed in it; and a call of a user whose first attempt fails returns with
    them as well. *)
Theorem region_calls_keep_locks c s ret s' k :
  fst (io_locks s) = (k, namespace_held c) -> run_call c s = Some (ret, s') ->
  snd (io_locks s) <= snd (io_locks s') /\
  (snd (io_locks s') = snd (io_locks s) -> fst (io_locks s') = (k, namespace_held c)) /\
  (namespace_held c = false -> lock_refused (snd s) -> fst (io_locks s') = (k, false)).
Proof.
  intros Es E; assert (H : steps (stays io_locks (namespace_held c)) (run_call c)).
  { destruct c; cbn [run_call namespace_held]; try apply below_stays;
      [apply install_call_stays|apply uninstall_call_stays|apply reg_all_stays|apply init_node_kept|pose proof uninstall_node_kept; walks|apply dispatch_kept]. }
  destruct (H _ _ _ E) as [L Hk]; split; [exact L|split; [intros En; exact (Hk En k Es)|]]; intros Hh Hr; rewrite Hh in Es.
  assert (Hb : forall m, run_call c = below m -> (forall r w', m (snd s) = Some (r, w') -> fst (ns_locks w') = (k, false)) -> fst (io_locks s') = (k, false)).
  { intros m Em Hm; rewrite Em in E; unfold below, FieldUnit.in_world in E; destruct s as [b w]; destruct (m w) as [[x w']|] eqn:Ew; [|discriminate].
    injection E as -> <-; exact (Hm _ _ Ew). }
  destruct c; try discriminate Hh; (eapply Hb; [reflexivity|]); intros r w' Ew; cbv beta in Ew.
  - exact (locked_region_refused _ _ _ _ _ Hr Es Ew).
  - exact (locked_region_refused _ _ _ _ _ Hr Es Ew).
  - unfold uacpi_reg_all_opregions, current_level in Ew; apply SM_bind_inv in Ew as (l & w1 & [= <- <-] & Ew).
    destruct (_ <? _); [injection Ew as _ <-; exact Es|]; destruct (negb _); [injection Ew as _ <-; exact Es|]; exact (locked_region_refused _ _ _ _ _ Hr Es Ew).
Qed.
End Locks.
