(* ===== verification/RegionLists.v ===== *)
(** * Operation regions: the lists of the handlers

    A handler heads the list of the regions that go to it, and each of them holds a
    reference to it.  [lists_ok] says that these lists, the pointers back and the counts
    agree; installing and uninstalling handlers keeps it. *)

From S2P Require Import Prelude CMem UStdlib UCore FieldUnit Shareable Namespace Objects ObjCount ObjFree ObjRefs ObjApi Regions RegionLocks.

Open Scope word_scope.

(** ** Lists in the heap *)

Fixpoint linked (cs : heap) (a : Z) (l : list Z) : Prop :=
  match l with
  | [] => a = 0
  | x :: l' => a = x /\ x <> 0 /\ exists c r, cs !! x = Some (c, C_REGION r) /\ linked cs (r_next r) l'
  end.

Lemma linked_frame cs cs' l : forall a, linked cs a l -> (forall x, x ∈ l -> cs' !! x = cs !! x) -> linked cs' a l.
Proof.
  induction l as [|x l IH]; intros a H E; [exact H|]; destruct H as (-> & H0 & c & r & Ex & Hl).
  split_and!; [reflexivity|exact H0|]; exists c, r; split; [rewrite E by left; exact Ex|].
  apply IH; [exact Hl|intros y Hy; apply E; right; exact Hy].
Qed.

(** [extra] counts the references to a handler that are not held by regions: it is at
    least on the list of its device. *)
Record lists_ok (extra : Z -> Z) (L : Z -> list Z) (cs : heap) : Prop := {
  lo_null : cs !! 0 = None;
  lo_list h c hd : cs !! h = Some (c, C_ASPACE hd) ->
    linked cs (regions hd) (L h) /\ NoDup (L h) /\ c = Z.of_nat (length (L h)) + extra h /\ 1 <= extra h;
  lo_member h c hd x : cs !! h = Some (c, C_ASPACE hd) -> x ∈ L h -> exists cx r, cs !! x = Some (cx, C_REGION r) /\ r_handler r = h;
  lo_region x c r : cs !! x = Some (c, C_REGION r) -> r_handler r <> 0 ->
    (exists ch hd, cs !! r_handler r = Some (ch, C_ASPACE hd)) /\ x ∈ L (r_handler r);
  lo_bound h : extra h + Z.of_nat (size cs) < BUGGED_REFCOUNT }.

Definition with_list (h : Z) (l : list Z) (L : Z -> list Z) : Z -> list Z := fun k => if decide (k = h) then l else L k.

Lemma with_list_at h l L : with_list h l L h = l.
Proof. unfold with_list; rewrite decide_True by reflexivity; reflexivity. Qed.
Lemma with_list_other h l L k : k <> h -> with_list h l L k = L k.
Proof. intros H; unfold with_list; rewrite decide_False by exact H; reflexivity. Qed.

(** The list of [h] becomes [l'], in which only [x] may have come or gone. *)
Lemma lists_relink extra L cs cs' x cx r r' h c hd hd' l' : lists_ok extra L cs ->
  cs !! x = Some (cx, C_REGION r) -> r_handler r = 0 \/ r_handler r = h -> cs !! h = Some (c, C_ASPACE hd) ->
  (forall y, y <> x -> y <> h -> y ∉ L h -> cs' !! y = cs !! y) ->
  (forall y, y <> x -> y ∈ L h -> exists cy ry, cs' !! y = Some (cy, C_REGION ry) /\ r_handler ry = h) ->
  cs' !! x = Some (cx, C_REGION r') -> r_handler r' = 0 /\ x ∉ l' \/ r_handler r' = h /\ x ∈ l' ->
  cs' !! h = Some (Z.of_nat (length l') + extra h, C_ASPACE hd') -> linked cs' (regions hd') l' -> NoDup l' ->
  (forall y, y <> x -> y ∈ l' <-> y ∈ L h) -> size cs' = size cs ->
  lists_ok extra (with_list h l' L) cs'.
Proof.
  intros [N0 NL NM NR NB] Ex Hr Eh Hsame Hin Ex' Hr' Eh' Hl' Hnd Hmem Hsz.
  assert (x <> h) as Hxh by congruence.
  assert (h <> 0) as Hh0 by congruence.
  (* a region of another handler is untouched *)
  assert (forall k ck hk y, k <> h -> cs !! k = Some (ck, C_ASPACE hk) -> y ∈ L k -> cs' !! y = cs !! y) as Hother.
  { intros k ck hk y Hk Ek Hy; destruct (NM _ _ _ _ Ek Hy) as (cy & ry & Ey & Hry).
    apply Hsame; [intros ->; rewrite Ex in Ey; injection Ey as <- <-; destruct Hr; congruence|congruence|].
    intros Hyh; destruct (NM _ _ _ _ Eh Hyh) as (? & ? & Ey2 & Hry2); congruence. }
  (* an address that is neither a region of [h] nor [x] nor [h] *)
  assert (forall y, y ∈ L h -> y <> h) as Hyh by (intros y Hy ->; destruct (NM _ _ _ _ Eh Hy) as (? & ? & E & _); congruence).
  assert (forall k ck hk, cs' !! k = Some (ck, C_ASPACE hk) -> k <> h -> cs !! k = Some (ck, C_ASPACE hk)) as Hasp.
  { intros k ck hk Ek Hk; destruct (decide (k = x)) as [->|Hkx]; [congruence|].
    destruct (decide (k ∈ L h)) as [Hin'|Hni]; [destruct (Hin _ Hkx Hin') as (? & ? & ? & _); congruence|].
    rewrite <- Hsame by assumption; exact Ek. }
  split.
  - destruct (decide (0 ∈ L h)) as [H0|H0]; [destruct (NM _ _ _ _ Eh H0) as (? & ? & ? & _); congruence|].
    rewrite Hsame; [exact N0|congruence..|exact H0].
  - intros k ck hk Ek; destruct (decide (k = h)) as [->|Hk].
    + rewrite with_list_at; rewrite Eh' in Ek; injection Ek as <- <-; split_and!; [exact Hl'|exact Hnd|reflexivity|].
      destruct (NL _ _ _ Eh) as (_ & _ & _ & H); exact H.
    + rewrite with_list_other by exact Hk; pose proof (Hasp _ _ _ Ek Hk) as Ek0; destruct (NL _ _ _ Ek0) as (Hl & Hrest).
      split; [|exact Hrest]; apply (linked_frame cs); [exact Hl|intros y Hy; exact (Hother _ _ _ _ Hk Ek0 Hy)].
  - intros k ck hk y Ek Hy; destruct (decide (k = h)) as [->|Hk].
    + rewrite with_list_at in Hy; destruct (decide (y = x)) as [->|Hyx].
      * exists cx, r'; split; [exact Ex'|]; destruct Hr' as [[_ H]|[H _]]; [contradiction|exact H].
      * apply Hin; [exact Hyx|apply Hmem; assumption].
    + rewrite with_list_other in Hy by exact Hk; pose proof (Hasp _ _ _ Ek Hk) as Ek0.
      rewrite (Hother _ _ _ _ Hk Ek0 Hy); exact (NM _ _ _ _ Ek0 Hy).
  - intros y cy ry Ey Hry; destruct (decide (y = x)) as [->|Hyx].
    + rewrite Ex' in Ey; injection Ey as <- <-; destruct Hr' as [[H _]|[H Hx]]; [contradiction|].
      rewrite H, with_list_at; split; [eauto|exact Hx].
    + destruct (decide (y ∈ L h)) as [Hyl|Hyl].
      * destruct (Hin _ Hyx Hyl) as (? & ? & E & H); rewrite E in Ey; injection Ey as <- <-.
        rewrite H, with_list_at; split; [eauto|apply Hmem; assumption].
      * assert (y <> h) as Hyh' by congruence; rewrite (Hsame _ Hyx Hyh' Hyl) in Ey; destruct (NR _ _ _ Ey Hry) as ((ch & hk & Ek) & Hm).
        assert (r_handler ry <> h) as Hk by congruence; rewrite with_list_other by exact Hk; split; [|exact Hm].
        exists ch, hk; rewrite Hsame; [exact Ek|congruence|exact Hk|].
        intros Hc; destruct (NM _ _ _ _ Eh Hc) as (? & ? & ? & _); congruence.
  - intros k; rewrite Hsz; apply NB.
Qed.

Lemma linked_nonzero cs l : forall a, linked cs a l -> 0 ∉ l.
Proof.
  induction l as [|x l IH]; intros a H; [apply not_elem_of_nil|]; destruct H as (_ & H0 & c & r & _ & Hl).
  rewrite elem_of_cons; intros [E|E]; [congruence|exact (IH _ Hl E)].
Qed.

Lemma linked_lookup cs l1 x l2 : forall a, linked cs a (l1 ++ x :: l2) -> exists c r, cs !! x = Some (c, C_REGION r) /\ linked cs (r_next r) l2.
Proof.
  induction l1 as [|y l1 IH]; intros a H; cbn [app] in H.
  - destruct H as (_ & _ & H); exact H.
  - destruct H as (_ & _ & c & r & _ & Hl); exact (IH _ Hl).
Qed.

(** The link before [x] skips it. *)
Lemma linked_skip cs cs' l1 p x l2 cx r cp rp : cs !! x = Some (cx, C_REGION r) -> cs !! p = Some (cp, C_REGION rp) ->
  cs' !! p = Some (cp, C_REGION (set_r_next (r_next r) rp)) -> (forall y, y ∈ l1 ++ l2 -> cs' !! y = cs !! y) ->
  forall a, linked cs a (l1 ++ p :: x :: l2) -> linked cs' a (l1 ++ p :: l2).
Proof.
  intros Ex Ep Ep'; induction l1 as [|y l1 IH]; intros Hs a H; cbn [app] in *.
  - destruct H as (-> & H0 & c & r1 & E1 & _ & _ & c2 & r2 & E2 & Hl); rewrite Ex in E2; injection E2 as <- <-.
    split_and!; [reflexivity|exact H0|]; eexists _, _; split; [exact Ep'|]; cbn [r_next set_r_next].
    apply (linked_frame cs); [exact Hl|exact Hs].
  - destruct H as (-> & H0 & c & r1 & E1 & Hl); split_and!; [reflexivity|exact H0|]; exists c, r1; split; [rewrite Hs by left; exact E1|].
    apply IH; [intros z Hz; apply Hs; right; exact Hz|exact Hl].
Qed.

Lemma lists_install extra L cs cs' x cx r r' h c hd : lists_ok extra L cs ->
  cs !! x = Some (cx, C_REGION r) -> r_handler r = 0 -> cs !! h = Some (c, C_ASPACE hd) ->
  cs' !! x = Some (cx, C_REGION r') -> r_handler r' = h -> r_next r' = regions hd ->
  cs' !! h = Some (c + 1, C_ASPACE (set_regions x hd)) ->
  (forall y, y <> x -> y <> h -> cs' !! y = cs !! y) -> size cs' = size cs ->
  lists_ok extra (with_list h (x :: L h) L) cs'.
Proof.
  intros H Ex Hr Eh Ex' Hr' Hn Eh' Hs Hsz.
  assert (forall y, y ∈ L h -> y <> x /\ y <> h /\ cs' !! y = cs !! y) as Hy.
  { intros y Hy; destruct (lo_member _ _ _ H _ _ _ _ Eh Hy) as (cy & ry & Ey & Hry).
    assert (h <> 0) by (intros ->; rewrite (lo_null _ _ _ H) in Eh; discriminate).
    assert (y <> x) by congruence; assert (y <> h) by congruence; auto. }
  destruct (lo_list _ _ _ H _ _ _ Eh) as (Hl & Hnd & Hc & _).
  apply (lists_relink _ _ cs _ x cx r r' h c hd (set_regions x hd)); try assumption; [left; exact Hr|intros y Hyx Hyh _; auto|..].
  - intros y _ Hin; destruct (Hy _ Hin) as (_ & _ & ->); exact (lo_member _ _ _ H _ _ _ _ Eh Hin).
  - right; split; [exact Hr'|left].
  - replace (Z.of_nat (length (x :: L h)) + extra h) with (c + 1) by (cbn [length]; lia); exact Eh'.
  - cbn [regions set_regions linked]; split_and!; [reflexivity|intros ->; rewrite (lo_null _ _ _ H) in Ex; discriminate|].
    exists cx, r'; rewrite Hn; split; [exact Ex'|]; apply (linked_frame cs); [exact Hl|intros y Hin; apply Hy, Hin].
  - constructor; [intros Hin; destruct (Hy _ Hin); congruence|exact Hnd].
  - intros y Hyx; rewrite elem_of_cons; tauto.
Qed.

(** How [x] is taken out of the list of [h]: at the head, or behind [p]. *)
Definition unlinked (cs cs' : heap) (h : Z) (hd hd' : address_space_handler) (l1 : list Z) (x : Z) (r : operation_region) : Prop :=
  match rev l1 with
  | [] => hd' = set_regions (r_next r) hd /\ (forall y, y <> x -> y <> h -> cs' !! y = cs !! y)
  | p :: _ => hd' = hd /\ (exists cp rp, cs !! p = Some (cp, C_REGION rp) /\ cs' !! p = Some (cp, C_REGION (set_r_next (r_next r) rp))) /\
              (forall y, y <> x -> y <> h -> y <> p -> cs' !! y = cs !! y)
  end.

Lemma unlinked_list cs cs' h hd hd' l1 x r cx l2 : unlinked cs cs' h hd hd' l1 x r -> cs !! x = Some (cx, C_REGION r) ->
  linked cs (regions hd) (l1 ++ x :: l2) -> NoDup (l1 ++ l2) ->
  (forall y, y ∈ l1 ++ l2 -> y <> x /\ y <> h /\ exists cy ry, cs !! y = Some (cy, C_REGION ry) /\ r_handler ry = h) ->
  linked cs' (regions hd') (l1 ++ l2) /\ (forall y, y ∈ l1 ++ l2 -> exists cy ry, cs' !! y = Some (cy, C_REGION ry) /\ r_handler ry = h) /\
  (forall y, y <> x -> y <> h -> y ∉ l1 ++ x :: l2 -> cs' !! y = cs !! y).
Proof.
  intros Hu Ex Hl Hnd Hm; unfold unlinked in Hu; destruct (rev l1) as [|p l0] eqn:Erev.
  - apply (f_equal (@rev Z)) in Erev; rewrite rev_involutive in Erev; cbn in Erev; subst l1; cbn [app] in *.
    destruct Hu as [-> Hs]; destruct Hl as (_ & _ & cx2 & r2 & E2 & Hl); rewrite Ex in E2; injection E2 as <- <-.
    assert (forall y, y ∈ l2 -> cs' !! y = cs !! y) as Hsame by (intros y Hy; destruct (Hm _ Hy) as (? & ? & _); auto).
    split_and!; [apply (linked_frame cs); [exact Hl|exact Hsame]|intros y Hy; rewrite (Hsame _ Hy); apply Hm, Hy|auto].
  - apply (f_equal (@rev Z)) in Erev; rewrite rev_involutive in Erev; cbn in Erev; subst l1.
    destruct Hu as (-> & (cp & rp & Ep & Ep') & Hs); rewrite <- !app_assoc in *; cbn [app] in *.
    assert (forall y, y ∈ rev l0 ++ l2 -> cs' !! y = cs !! y) as Hsame.
    { intros y Hy; assert (y <> p) by (rewrite <- Permutation_middle, NoDup_cons in Hnd; set_solver).
      destruct (Hm y) as (? & ? & _); [set_solver|auto]. }
    split_and!.
    + apply (linked_skip cs cs' _ _ x _ cx r cp rp); assumption.
    + intros y Hy; destruct (Hm y Hy) as (_ & _ & cy & ry & Ey & Hry).
      destruct (decide (y = p)) as [->|Hyp]; [|rewrite Hsame by set_solver; eauto].
      rewrite Ep in Ey; injection Ey as <- <-; eauto.
    + intros y Hyx Hyh Hni; apply Hs; [assumption..|set_solver].
Qed.

Lemma lists_uninstall extra L cs cs' x cx r r' h c hd hd' l1 l2 : lists_ok extra L cs ->
  cs !! x = Some (cx, C_REGION r) -> r_handler r = h -> cs !! h = Some (c, C_ASPACE hd) -> L h = l1 ++ x :: l2 ->
  cs' !! x = Some (cx, C_REGION r') -> r_handler r' = 0 -> cs' !! h = Some (c - 1, C_ASPACE hd') ->
  unlinked cs cs' h hd hd' l1 x r -> size cs' = size cs ->
  lists_ok extra (with_list h (l1 ++ l2) L) cs'.
Proof.
  intros H Ex Hr Eh EL Ex' Hr' Eh' Hu Hsz.
  destruct (lo_list _ _ _ H _ _ _ Eh) as (Hl & Hnd & Hc & _); rewrite EL in Hl, Hnd, Hc.
  assert (x ∉ l1 ++ l2 /\ NoDup (l1 ++ l2)) as [Hx Hnd'] by (rewrite <- Permutation_middle, NoDup_cons in Hnd; exact Hnd).
  assert (forall y, y ∈ l1 ++ l2 -> y <> x /\ y <> h /\ exists cy ry, cs !! y = Some (cy, C_REGION ry) /\ r_handler ry = h) as Hm.
  { intros y Hy; destruct (lo_member _ _ _ H _ _ _ y Eh) as (cy & ry & Ey & Hry); [rewrite EL, <- Permutation_middle; right; exact Hy|].
    split_and!; [set_solver|congruence|eauto]. }
  destruct (unlinked_list _ _ _ _ _ _ _ _ _ _ Hu Ex Hl Hnd' Hm) as (G1 & G2 & G3).
  apply (lists_relink _ _ cs _ x cx r r' h c hd hd'); try assumption; rewrite ?EL; try assumption.
  - right; exact Hr.
  - intros y Hyx Hin; apply G2; set_solver.
  - left; split; assumption.
  - replace (Z.of_nat (length (l1 ++ l2)) + extra h) with (c - 1) by (rewrite length_app in *; cbn [length] in Hc; lia); exact Eh'.
  - intros y Hyx; set_solver.
Qed.

(** ** Runs *)

Section Runs.
Context {V : Type} {OH : ObjectHost V} {NL : NamespaceLock (ost V)} {OBJ : Namespace.Objects (ost V)} {RH : RegionHost V}.

Definition cells_of (s : ns (ost V)) : heap := cells (world s).
Definition put_cells (cs : heap) (s : ns (ost V)) : ns (ost V) := with_world (set_cells cs (world s)) s.

(** The namespace is over types.c, its lock and the handlers leave the heap alone and
    return. *)
Class QuietHost := {
  qh_unwrap a s : Namespace.uacpi_unwrap_internal_reference a s = uacpi_unwrap_internal_reference a s;
  qh_type a s : Namespace.object_type a s = (t ← uacpi_object_get_type a; mret (type_value t)) s;
  qh_root : steps (fun w w' => cells w' = cells w) root_object;
  qh_lock s : exists ret s', uacpi_namespace_write_lock s = Some (ret, s') /\ cells s' = cells s;
  qh_unlock s : exists ret s', uacpi_namespace_write_unlock s = Some (ret, s') /\ cells s' = cells s;
  qh_notify cb n s : exists x s', notify_region_handler cb n s = Some (x, s') /\ cells_of s' = cells_of s /\ nodes s' = nodes s }.
Context {QH : QuietHost}.

Lemma on_objects_run {A} (c : SM (ost V) A) s a cs : c (world s) = Some (a, set_cells cs (world s)) -> on_objects c s = Some (a, put_cells cs s).
Proof. intros E; unfold on_objects, Namespace.in_world; rewrite E; reflexivity. Qed.

Lemma on_objects_read {A} (c : SM (ost V) A) s a : c (world s) = Some (a, world s) -> on_objects c s = Some (a, s).
Proof. intros E; unfold on_objects, Namespace.in_world; rewrite E; destruct s; reflexivity. Qed.

Lemma get_region_run s x c r : cells_of s !! x = Some (c, C_REGION r) -> get_region x s = Some (r, s).
Proof. intros E; apply on_objects_read; rewrite (SM_bind_Some _ _ _ _ _ (get_cell_run _ _ _ E)); reflexivity. Qed.

Lemma get_handler_run s h c hd : cells_of s !! h = Some (c, C_ASPACE hd) -> get_handler h s = Some (hd, s).
Proof. intros E; apply on_objects_read; unfold get_aspace; rewrite (SM_bind_Some _ _ _ _ _ (get_cell_run _ _ _ E)); reflexivity. Qed.

Lemma update_region_run s x c r f : cells_of s !! x = Some (c, C_REGION r) ->
  update_region x f s = Some (tt, put_cells (<[x := (c, C_REGION (f r))]> (cells_of s)) s).
Proof. intros E; unfold update_region; rewrite (SM_bind_Some _ _ _ _ _ (get_region_run _ _ _ _ E)); apply on_objects_run, (write_run _ _ _ _ _ E). Qed.

Lemma update_handler_run s h c hd f : cells_of s !! h = Some (c, C_ASPACE hd) ->
  update_handler h f s = Some (tt, put_cells (<[h := (c, C_ASPACE (f hd))]> (cells_of s)) s).
Proof. intros E; unfold update_handler; rewrite (SM_bind_Some _ _ _ _ _ (get_handler_run _ _ _ _ E)); apply on_objects_run, (write_run _ _ _ _ _ E). Qed.

Lemma handler_ref_run s h c hd : cells_of s !! h = Some (c, C_ASPACE hd) -> live c ->
  on_objects (shareable_ref h) s = Some (c, put_cells (<[h := (c + 1, C_ASPACE hd)]> (cells_of s)) s).
Proof.
  intros E Hc; apply on_objects_run; rewrite (ref_run _ _ _ _ E Hc); unfold cells_of in *; rewrite (alter_alt_Some _ _ _ _ E); reflexivity.
Qed.

(** The handler has another holder. *)
Lemma handler_unref_run s h c hd : cells_of s !! h = Some (c, C_ASPACE hd) -> h <> 0 -> 1 < c < BUGGED_REFCOUNT ->
  on_objects (uacpi_address_space_handler_unref h) s = Some (tt, put_cells (<[h := (c - 1, C_ASPACE hd)]> (cells_of s)) s).
Proof.
  intros E H0 Hc; assert (0 < c < BUGGED_REFCOUNT) as Hl by lia; apply on_objects_run.
  unfold uacpi_address_space_handler_unref, shareable_unref_and_delete_if_last; rewrite (proj2 (Z.eqb_neq h 0)) by exact H0.
  rewrite (SM_bind_Some _ _ _ _ _ (bugged_run _ _ _ _ E Hl)), (SM_bind_Some _ _ _ _ _ (unref_run _ _ _ _ E Hl)).
  rewrite (proj2 (Z.eqb_neq c 1)) by lia; reflexivity.
Qed.

(** *** Objects of nodes *)

(** Nodes keep their objects and objects what they hold. *)
Definition agrees (s s' : ns (ost V)) : Prop :=
  (forall n x, nodes s !! n = Some x -> exists x', nodes s' !! n = Some x' /\ Namespace.object x' = Namespace.object x) /\
  (forall a c o, cells_of s !! a = Some (c, C_OBJECT o) -> cells_of s' !! a = Some (c, C_OBJECT o)) /\
  size (cells_of s') = size (cells_of s).

#[local] Instance agrees_refl : Reflexive agrees.
Proof. intros s; split_and!; eauto. Qed.
#[local] Instance agrees_trans : Transitive agrees.
Proof.
  intros s t u (N1 & O1 & S1) (N2 & O2 & S2); split_and!; [|auto|congruence].
  intros n x E; destruct (N1 _ _ E) as (y & Ey & Hy); destruct (N2 _ _ Ey) as (z & Ez & Hz); exists z; split; [exact Ez|congruence].
Qed.

(** Writing to a region or a handler. *)
Lemma agrees_put s x c c' y y' : cells_of s !! x = Some (c, y) -> (forall o, y <> C_OBJECT o) ->
  agrees s (put_cells (<[x := (c', y')]> (cells_of s)) s).
Proof.
  intros E Hy; split_and!; [cbn; eauto| |apply map_size_insert_Some; eexists; exact E].
  intros a d o Ea; unfold cells_of, put_cells; cbn; rewrite lookup_insert_ne; [exact Ea|]; intros ->; rewrite E in Ea; injection Ea as -> ->; eapply Hy; reflexivity.
Qed.

Lemma unwrap_agrees fuel s s' : agrees s s' -> forall o v t, unwrap fuel o (world s) = Some (v, t) ->
  t = world s /\ unwrap fuel o (world s') = Some (v, world s').
Proof.
  intros (_ & HO & _); induction fuel as [|fuel IH]; intros o v t E; cbn [unwrap] in *; [discriminate|].
  apply SM_bind_inv in E as (x & t1 & Ex & E); unfold get_object in Ex; apply SM_bind_inv in Ex as ([c y] & t2 & Ec & Ey).
  unfold get_cell, of_opt in Ec; smunfold; destruct (cells (world s) !! o) as [z|] eqn:Eo; [|discriminate].
  injection Ec as -> <-; cbn [snd] in Ey; destruct y as [b| | | | | | | | |]; try discriminate; injection Ey as -> <-.
  assert (get_object o (world s') = Some (x, world s')) as -> by exact (get_object_run _ _ _ _ (HO _ _ _ Eo)).
  destruct (negb _ || _); [injection E as <- <-; split; reflexivity|].
  unfold of_opt in *; destruct (pointer_of (o_data x)) as [p|]; smunfold; [exact (IH _ _ _ E)|discriminate].
Qed.

Lemma node_object_agrees node s s' obj t : agrees s s' -> uacpi_namespace_node_get_object node s = Some (obj, t) ->
  t = s /\ uacpi_namespace_node_get_object node s' = Some (obj, s').
Proof.
  intros Ha; unfold uacpi_namespace_node_get_object; destruct (node =? 0); [intros [= <- <-]; auto|].
  intros E; apply SM_bind_inv in E as (n & s1 & En & E); unfold get_node in En; destruct (nodes s !! node) as [m|] eqn:Em; [|discriminate].
  injection En as -> <-; destruct (proj1 Ha _ _ Em) as (n' & En' & Ho).
  assert (get_node node s' = Some (n', s')) as E' by (unfold get_node; rewrite En'; reflexivity).
  rewrite (SM_bind_Some _ _ _ _ _ E'), Ho; destruct (Namespace.object n =? 0); [injection E as <- <-; auto|].
  unfold Namespace.in_world in *; rewrite qh_unwrap in *; unfold uacpi_unwrap_internal_reference, cells_fuel in *; smunfold.
  destruct (unwrap _ (Namespace.object n) (world s)) as [[v w]|] eqn:Ew; [|discriminate]; injection E as -> <-.
  destruct (unwrap_agrees _ _ _ Ha _ _ _ Ew) as [-> Ew']; fold (cells_of s) in Ew'; rewrite <- (proj2 (proj2 Ha)) in Ew'; unfold cells_of in Ew'.
  rewrite Ew'; destruct s, s'; auto.
Qed.

(** *** A region leaves its list *)

Lemma previous_link_run s x l1 p l2 : forall fuel a, linked (cells_of s) a (l1 ++ p :: x :: l2) -> x ∉ l1 ++ [p] -> x <> 0 ->
  (length l1 < fuel)%nat -> previous_link fuel a x s = Some (p, s).
Proof.
  induction l1 as [|y l1 IH]; intros fuel a Hl Hx H0 Hf; (destruct fuel as [|fuel]; [cbn in Hf; lia|]); cbn [app previous_link] in *.
  - destruct Hl as (-> & _ & c & r & E & Hn & _); rewrite (SM_bind_Some _ _ _ _ _ (get_region_run _ _ _ _ E)), Hn, Z.eqb_refl; reflexivity.
  - destruct Hl as (-> & _ & c & r & E & Hl); rewrite (SM_bind_Some _ _ _ _ _ (get_region_run _ _ _ _ E)).
    assert (exists z l, l1 ++ p :: x :: l2 = z :: l /\ z <> x) as (z & l & Ez & Hz) by (destruct l1; cbn; eexists _, _; (split; [reflexivity|set_solver])).
    pose proof Hl as Hl'; rewrite Ez in Hl'; destruct Hl' as (Ezr & Hz0 & _).
    rewrite Ezr, (proj2 (Z.eqb_neq z x)), (proj2 (Z.eqb_neq z 0)), <- Ezr by assumption.
    apply IH; [exact Hl|set_solver|exact H0|cbn in Hf; lia].
Qed.

Lemma lists_length extra L cs h c hd : lists_ok extra L cs -> cs !! h = Some (c, C_ASPACE hd) -> (length (L h) < size cs)%nat.
Proof.
  intros H E; destruct (lo_list _ _ _ H _ _ _ E) as (_ & Hnd & _).
  rewrite <- (size_dom (D := gset Z) cs), <- (size_list_to_set (C := gset Z)) by exact Hnd; apply subset_size; split.
  - intros x Hx; apply elem_of_list_to_set in Hx; destruct (lo_member _ _ _ H _ _ _ _ E Hx) as (? & ? & Ex & _); apply elem_of_dom; eauto.
  - intros Hc; assert (h ∈ (list_to_set (L h) : gset Z)) as Hh by (apply Hc, elem_of_dom; eauto).
    apply elem_of_list_to_set in Hh; destruct (lo_member _ _ _ H _ _ _ _ E Hh) as (? & ? & Ex & _); congruence.
Qed.

Lemma rev_inv (l1 l0 : list Z) : rev l1 = l0 -> l1 = rev l0.
Proof. intros <-; symmetry; apply rev_involutive. Qed.

Lemma find_link_run extra L s x cx r c hd l1 l2 : lists_ok extra L (cells_of s) -> cells_of s !! x = Some (cx, C_REGION r) ->
  cells_of s !! r_handler r = Some (c, C_ASPACE hd) -> L (r_handler r) = l1 ++ x :: l2 ->
  find_previous_region_link x s = Some (List.hd x (rev l1), s).
Proof.
  intros H Ex Eh EL; destruct (lo_list _ _ _ H _ _ _ Eh) as (Hl & Hnd & _); pose proof (lists_length _ _ _ _ _ _ H Eh) as Hlen; rewrite EL in *.
  assert (x <> 0) as H0 by (intros ->; rewrite (lo_null _ _ _ H) in Ex; discriminate).
  unfold find_previous_region_link; rewrite (SM_bind_Some _ _ _ _ _ (get_region_run _ _ _ _ Ex)), (SM_bind_Some _ _ _ _ _ (get_handler_run _ _ _ _ Eh)).
  destruct (rev l1) as [|p l0] eqn:Erev; apply rev_inv in Erev; subst l1; cbn [rev app List.hd] in *.
  - destruct Hl as (-> & _); rewrite Z.eqb_refl; reflexivity.
  - rewrite <- !app_assoc in *; cbn [app] in *.
    assert (p <> x /\ x ∉ rev l0 ++ [p]) as [Hpx Hnx].
    { rewrite (Permutation_app_comm (rev l0)) in Hnd; cbn in Hnd; rewrite !NoDup_cons in Hnd; destruct Hnd as (N1 & N2 & _); set_solver. }
    assert (regions hd <> x) as Hnr.
    { destruct (rev l0) as [|z l] eqn:El; cbn in Hl; destruct Hl as (-> & _); [exact Hpx|intros ->; set_solver]. }
    rewrite (proj2 (Z.eqb_neq _ _) Hnr); unfold objects_fuel, on_objects, cells_fuel, Namespace.in_world; smunfold.
    destruct s as [nds w]; apply (previous_link_run _ _ _ _ _ _ _ Hl Hnx H0).
    rewrite !length_app in Hlen; cbn in *; unfold cells_of in *; cbn in *; lia.
Qed.

(** [x] is as before, and so is all but the link to it. *)
Lemma unlink_region_run extra L s x cx r h c hd l1 l2 : lists_ok extra L (cells_of s) -> cells_of s !! x = Some (cx, C_REGION r) -> r_handler r = h ->
  cells_of s !! h = Some (c, C_ASPACE hd) -> L h = l1 ++ x :: l2 ->
  exists cs1 hd1, unlink_region x s = Some (tt, put_cells cs1 s) /\ unlinked (cells_of s) cs1 h hd hd1 l1 x r /\
    cs1 !! x = Some (cx, C_REGION r) /\ cs1 !! h = Some (c, C_ASPACE hd1) /\ agrees s (put_cells cs1 s).
Proof.
  intros H Ex <- Eh EL; pose proof (find_link_run _ _ _ _ _ _ _ _ _ _ H Ex Eh EL) as Ef.
  destruct (lo_list _ _ _ H _ _ _ Eh) as (Hl & Hnd & _); rewrite EL in *.
  assert (x <> r_handler r) as Hxh by congruence; assert (x <> 0) as H0 by (intros ->; rewrite (lo_null _ _ _ H) in Ex; discriminate).
  unfold unlink_region; rewrite (SM_bind_Some _ _ _ _ _ Ef), (SM_bind_Some _ _ _ _ _ (get_region_run _ _ _ _ Ex)); unfold unlinked.
  destruct (rev l1) as [|p l0] eqn:Erev; cbn [List.hd].
  - rewrite (proj2 (Z.eqb_neq x 0)), Z.eqb_refl, (update_handler_run _ _ _ _ _ Eh) by exact H0; eexists _, _; split_and!; [reflexivity|reflexivity|..].
    + intros y Hyx Hyh; apply lookup_insert_ne; congruence.
    + rewrite lookup_insert_ne by congruence; exact Ex.
    + apply lookup_insert_eq.
    + apply (agrees_put _ _ _ _ _ _ Eh); discriminate.
  - apply rev_inv in Erev; subst l1; cbn [rev] in *; rewrite <- !app_assoc in *; cbn [app] in *.
    assert (p <> x) as Hpx by (rewrite (Permutation_app_comm (rev l0)) in Hnd; cbn in Hnd; rewrite !NoDup_cons in Hnd; set_solver).
    destruct (linked_lookup _ _ _ _ _ Hl) as (cp & rp & Ep & Hlp).
    assert (p <> 0) as Hp0 by (intros ->; rewrite (lo_null _ _ _ H) in Ep; discriminate); assert (p <> r_handler r) as Hph by congruence.
    rewrite (proj2 (Z.eqb_neq p 0)), (proj2 (Z.eqb_neq p x)), (update_region_run _ _ _ _ _ Ep) by assumption; eexists _, _; split_and!; [reflexivity|reflexivity|..].
    + exists cp, rp; split; [exact Ep|apply lookup_insert_eq].
    + intros y Hyx Hyh Hyp; apply lookup_insert_ne; congruence.
    + rewrite lookup_insert_ne by congruence; exact Ex.
    + rewrite lookup_insert_ne by congruence; exact Eh.
    + apply (agrees_put _ _ _ _ _ _ Ep); discriminate.
Qed.

(** *** The window for the handler *)

(** Counts of nodes have 32 bits. *)
Definition counts_ok (s : ns (ost V)) : Prop := forall n x, nodes s !! n = Some x -> 0 <= shareable_count x <= BUGGED_REFCOUNT.

(** Only the count of a node changes. *)
Lemma agrees_count s n x c cs : nodes s !! n = Some x -> cs = cells_of s ->
  forall s', nodes s' = <[n := Namespace.set_count c x]> (nodes s) -> cells_of s' = cs -> agrees s s'.
Proof.
  intros E -> s' En Ec; split_and!; [|intros a d o Ha; rewrite Ec; exact Ha|rewrite Ec; reflexivity].
  intros m y Ey; rewrite En; destruct (decide (m = n)) as [->|Hm]; [|rewrite lookup_insert_ne by congruence; eauto].
  rewrite lookup_insert_eq; eexists; split; [reflexivity|]; rewrite E in Ey; injection Ey as <-; reflexivity.
Qed.

(** A reference to a node is taken. *)
Lemma node_ref_run (s : ns (ost V)) n x : nodes s !! n = Some x -> 0 <= shareable_count x <= BUGGED_REFCOUNT ->
  exists v c, Namespace.on_count n uacpi_shareable_ref s = Some (v, with_nodes (<[n := Namespace.set_count c x]> (nodes s)) s) /\ 1 < c <= BUGGED_REFCOUNT.
Proof.
  intros E Hc; unfold Namespace.on_count, get_node; smunfold; rewrite E.
  unfold uacpi_shareable_ref, uacpi_bugged_shareable, uacpi_make_shareable_bugged, put_node, BUGGED_REFCOUNT in *; smunfold; cbn [reference_count Shareable.set_count freed].
  destruct (Z.eqb_spec (shareable_count x) 0) as [H0|H0]; cbn [reference_count Shareable.set_count freed]; [eexists _, _; split; [reflexivity|cbn; lia]|].
  destruct (Z.eqb_spec (shareable_count x) 0xffffffff) as [H1|H1]; cbn [reference_count Shareable.set_count freed]; [eexists _, _; split; [reflexivity|cbn; lia]|].
  eexists _, _; split; [reflexivity|]; rewrite wrap_id by (unfold in_w; lia); lia.
Qed.

(** It is given up again; the node stays. *)
Lemma node_unref_run (s : ns (ost V)) n x : nodes s !! n = Some x -> n <> 0 -> 1 < shareable_count x <= BUGGED_REFCOUNT ->
  exists c, uacpi_namespace_node_unref n s = Some (tt, with_nodes (<[n := Namespace.set_count c x]> (nodes s)) s) /\ 0 <= c <= BUGGED_REFCOUNT.
Proof.
  intros E Hn Hc; unfold uacpi_namespace_node_unref, Namespace.on_count, get_node; rewrite (proj2 (Z.eqb_neq n 0)) by exact Hn; smunfold; rewrite E.
  destruct (decide (shareable_count x = BUGGED_REFCOUNT)) as [Hb|Hb].
  - unfold uacpi_shareable_unref_and_delete_if_last, uacpi_bugged_shareable, BUGGED_REFCOUNT, put_node in *; smunfold; cbn [reference_count Shareable.set_count freed].
    rewrite Hb; cbn; eexists; split; [reflexivity|lia].
  - rewrite (delete_live {| reference_count := shareable_count x; freed := 0 |}) by (unfold live; cbn; lia); cbn [reference_count freed snd].
    rewrite (proj2 (Z.eqb_neq _ 1)) by lia; unfold put_node; smunfold; cbn; eexists; split; [reflexivity|lia].
Qed.

Lemma counts_insert s s' n x c : counts_ok s -> nodes s !! n = Some x -> 0 <= c <= BUGGED_REFCOUNT ->
  nodes s' = <[n := Namespace.set_count c x]> (nodes s) -> counts_ok s'.
Proof.
  intros H E Hc En m y; rewrite En; destruct (decide (m = n)) as [->|Hm].
  - rewrite lookup_insert_eq; intros [= <-]; exact Hc.
  - rewrite lookup_insert_ne by congruence; apply H.
Qed.

Lemma write_lock_run s : exists ret s', write_lock s = Some (ret, s') /\ cells_of s' = cells_of s /\ nodes s' = nodes s.
Proof.
  destruct (qh_lock (world s)) as (ret & w & E & Ec); exists ret, (with_world w s); unfold write_lock, on_objects, Namespace.in_world; rewrite E; auto.
Qed.
Lemma write_unlock_run s : exists s', write_unlock s = Some (tt, s') /\ cells_of s' = cells_of s /\ nodes s' = nodes s.
Proof.
  destruct (qh_unlock (world s)) as (ret & w & E & Ec); exists (with_world w s); unfold write_unlock, on_objects, Namespace.in_world; smunfold; rewrite E; auto.
Qed.

Lemma detach_region_run s node nd x cx r c hd : counts_ok s -> nodes s !! node = Some nd -> node <> 0 ->
  cells_of s !! x = Some (cx, C_REGION r) -> cells_of s !! r_handler r = Some (c, C_ASPACE hd) ->
  exists s', detach_region node x s = Some (tt, s') /\ cells_of s' = cells_of s /\ agrees s s' /\ counts_ok s' /\ is_Some (nodes s' !! node).
Proof.
  intros Hc En Hn Ex Eh; unfold detach_region; rewrite (SM_bind_Some _ _ _ _ _ (get_region_run _ _ _ _ Ex)).
  destruct (reg_flag _ r); cbn [negb]; [|exists s; split_and!; [reflexivity..|exact Hc|eauto]].
  rewrite (SM_bind_Some _ _ _ _ _ (get_handler_run _ _ _ _ Eh)).
  destruct (node_ref_run s node nd En (Hc _ _ En)) as (v & c1 & E1 & Hc1); rewrite (SM_bind_Some _ _ _ _ _ E1).
  destruct (write_unlock_run (with_nodes (<[node := Namespace.set_count c1 nd]> (nodes s)) s)) as (s2 & E2 & C2 & N2); rewrite (SM_bind_Some _ _ _ _ _ E2).
  destruct (qh_notify (callback hd) (DETACH_DATA node (r_user_context r) (user_context hd)) s2) as (y & s3 & E3 & C3 & N3); rewrite (SM_bind_Some _ _ _ _ _ E3).
  destruct (write_lock_run s3) as (ret & s4 & E4 & C4 & N4); rewrite (SM_bind_Some _ _ _ _ _ E4).
  assert (nodes s4 = <[node := Namespace.set_count c1 nd]> (nodes s)) as N by (rewrite N4, N3, N2; reflexivity).
  assert (cells_of s4 = cells_of s) as C by (rewrite C4, C3, C2; reflexivity).
  destruct (node_unref_run s4 node (Namespace.set_count c1 nd)) as (c5 & E5 & Hc5); [rewrite N; apply lookup_insert_eq|exact Hn|exact Hc1|].
  rewrite E5; eexists; split; [reflexivity|].
  assert (nodes (with_nodes (<[node := Namespace.set_count c5 (Namespace.set_count c1 nd)]> (nodes s4)) s4) = <[node := Namespace.set_count c5 nd]> (nodes s)) as N5
    by (cbn; rewrite N, insert_insert_eq; reflexivity).
  split_and!; [exact C|apply (agrees_count _ _ _ _ _ En eq_refl _ N5 C)|exact (counts_insert _ _ _ _ _ Hc En Hc5 N5)|rewrite N5, lookup_insert_eq; eauto].
Qed.

(** *** Nodes of regions *)

(** The object of the node is a region, at [x]. *)
Definition region_node (s : ns (ost V)) (node x : Z) : Prop :=
  node <> 0 /\ is_Some (nodes s !! node) /\ exists obj co o, uacpi_namespace_node_get_object node s = Some (obj, s) /\ obj <> 0 /\
    cells_of s !! obj = Some (co, C_OBJECT o) /\ o_type o = OBJECT_OPERATION_REGION /\ pointer_of (o_data o) = Some x.

Lemma region_node_agrees s s' node x : agrees s s' -> region_node s node x -> region_node s' node x.
Proof.
  intros Ha (H0 & (nd & En) & obj & co & o & Eo & Hobj & Ec & Ht & Hp); split_and!; [exact H0|destruct (proj1 Ha _ _ En) as (? & ? & _); eauto|].
  exists obj, co, o; split_and!; [exact (proj2 (node_object_agrees _ _ _ _ _ Ha Eo))|exact Hobj|apply Ha, Ec|exact Ht|exact Hp].
Qed.

Lemma storage_run s obj co o x : cells_of s !! obj = Some (co, C_OBJECT o) -> pointer_of (o_data o) = Some x -> storage_of obj s = Some (x, s).
Proof. intros E Hp; apply on_objects_read; unfold get_pointer; rewrite (SM_bind_Some _ _ _ _ _ (get_object_run _ _ _ _ E)), Hp; reflexivity. Qed.

Lemma node_region_run s node x : region_node s node x -> node_region node s = Some (x, s).
Proof.
  intros (_ & _ & obj & co & o & Eo & _ & Ec & _ & Hp); unfold node_region; rewrite (SM_bind_Some _ _ _ _ _ Eo); exact (storage_run _ _ _ _ _ Ec Hp).
Qed.

Lemma typed_region_run s node x : region_node s node x -> exists obj, obj <> 0 /\ uacpi_namespace_node_get_object_typed node (bit OBJECT_OPERATION_REGION) s = Some (obj, s) /\
  storage_of obj s = Some (x, s).
Proof.
  intros (_ & _ & obj & co & o & Eo & H0 & Ec & Ht & Hp); exists obj; split_and!; [exact H0| |exact (storage_run _ _ _ _ _ Ec Hp)].
  unfold uacpi_namespace_node_get_object_typed; rewrite (SM_bind_Some _ _ _ _ _ Eo), (proj2 (Z.eqb_neq obj 0)) by exact H0.
  unfold object_is_one_of, Namespace.in_world; smunfold; rewrite qh_type; unfold uacpi_object_get_type; smunfold.
  rewrite (get_object_run _ _ _ _ Ec), Ht; destruct s; reflexivity.
Qed.

(** The handlers that there are stay. *)
Definition handlers_stay (s s' : ns (ost V)) : Prop :=
  forall k c hd, cells_of s !! k = Some (c, C_ASPACE hd) -> exists c' hd', cells_of s' !! k = Some (c', C_ASPACE hd') /\ h_space hd' = h_space hd.

#[local] Instance handlers_stay_refl : Reflexive handlers_stay.
Proof. intros s k c hd E; eauto. Qed.
#[local] Instance handlers_stay_trans : Transitive handlers_stay.
Proof. intros s t u H1 H2 k c hd E; destruct (H1 _ _ _ E) as (c1 & h1 & E1 & S1); destruct (H2 _ _ _ E1) as (c2 & h2 & E2 & S2); exists c2, h2; split; [exact E2|congruence]. Qed.

Lemma lists_count extra L cs h c hd : lists_ok extra L cs -> cs !! h = Some (c, C_ASPACE hd) -> 1 <= c < BUGGED_REFCOUNT - 1.
Proof.
  intros H E; destruct (lo_list _ _ _ H _ _ _ E) as (_ & _ & -> & H1); pose proof (lists_length _ _ _ _ _ _ H E); pose proof (lo_bound _ _ _ H h); lia.
Qed.

Lemma install_handler_run extra L s node x cx r h c hd : lists_ok extra L (cells_of s) -> region_node s node x ->
  cells_of s !! x = Some (cx, C_REGION r) -> r_handler r = 0 -> cells_of s !! h = Some (c, C_ASPACE hd) ->
  exists s' r', region_install_handler node h s = Some (tt, s') /\ lists_ok extra (with_list h (x :: L h) L) (cells_of s') /\ agrees s s' /\
    cells_of s' !! x = Some (cx, C_REGION r') /\ r_handler r' = h /\ nodes s' = nodes s /\ handlers_stay s s'.
Proof.
  intros H Hn Ex Hr Eh; pose proof (lists_count _ _ _ _ _ _ H Eh) as Hc; assert (x <> h) as Hxh by congruence.
  unfold region_install_handler; rewrite (SM_bind_Some _ _ _ _ _ (node_region_run _ _ _ Hn)).
  rewrite (SM_bind_Some _ _ _ _ _ (update_region_run _ _ _ _ _ Ex)).
  set (s1 := put_cells _ s); assert (cells_of s1 !! h = Some (c, C_ASPACE hd)) as Eh1 by (subst s1; cbn; rewrite lookup_insert_ne by congruence; exact Eh).
  rewrite (SM_bind_Some _ _ _ _ _ (handler_ref_run _ _ _ _ Eh1 ltac:(unfold live; lia))).
  set (s2 := put_cells _ s1); assert (cells_of s2 !! h = Some (c + 1, C_ASPACE hd)) as Eh2 by apply lookup_insert_eq.
  assert (cells_of s2 !! x = Some (cx, C_REGION (set_r_handler h r))) as Ex2 by (subst s2 s1; cbn; rewrite lookup_insert_ne, lookup_insert_eq by congruence; reflexivity).
  rewrite (SM_bind_Some _ _ _ _ _ (get_handler_run _ _ _ _ Eh2)), (SM_bind_Some _ _ _ _ _ (update_region_run _ _ _ _ _ Ex2)).
  set (s3 := put_cells _ s2); assert (cells_of s3 !! h = Some (c + 1, C_ASPACE hd)) as Eh3 by (subst s3; cbn; rewrite lookup_insert_ne by congruence; exact Eh2).
  assert (cells_of s3 !! x = Some (cx, C_REGION (set_r_next (regions hd) (set_r_handler h r)))) as Ex3 by apply lookup_insert_eq.
  rewrite (update_handler_run _ _ _ _ _ Eh3); set (s4 := put_cells _ s3).
  assert (agrees s s4) as Ha.
  { transitivity s1; [apply (agrees_put _ _ _ _ _ _ Ex); discriminate|]; transitivity s2; [apply (agrees_put _ _ _ _ _ _ Eh1); discriminate|].
    transitivity s3; [apply (agrees_put _ _ _ _ _ _ Ex2); discriminate|apply (agrees_put _ _ _ _ _ _ Eh3); discriminate]. }
  assert (forall y, y <> x -> y <> h -> cells_of s4 !! y = cells_of s !! y) as Hs by (intros y Hx Hh; subst s4 s3 s2 s1; cbn; rewrite !lookup_insert_ne by congruence; reflexivity).
  assert (cells_of s4 !! h = Some (c + 1, C_ASPACE (set_regions x hd))) as Eh4 by apply lookup_insert_eq.
  assert (cells_of s4 !! x = Some (cx, C_REGION (set_r_next (regions hd) (set_r_handler h r)))) as Ex4 by (subst s4; cbn; rewrite lookup_insert_ne by congruence; exact Ex3).
  eexists s4, _; split_and!; [reflexivity| |exact Ha|exact Ex4|reflexivity|reflexivity|].
  - apply (lists_install _ _ (cells_of s) _ x cx r (set_r_next (regions hd) (set_r_handler h r)) h c hd); try assumption; [reflexivity..|apply Ha].
  - intros k ck hk Ek; destruct (decide (k = h)) as [->|Hk]; [rewrite Eh in Ek; injection Ek as <- <-; eauto|].
    exists ck, hk; rewrite Hs by congruence; auto.
Qed.

Lemma unlinked_handlers cs cs' h hd hd' l1 x r k c hk : unlinked cs cs' h hd hd' l1 x r -> cs !! k = Some (c, C_ASPACE hk) -> k <> x -> k <> h ->
  cs' !! k = Some (c, C_ASPACE hk).
Proof.
  unfold unlinked; destruct (rev l1) as [|p l]; [intros (_ & Hs) E Hx Hh; rewrite Hs by assumption; exact E|].
  intros (_ & (cp & rp & Ep & _) & Hs) E Hx Hh; rewrite Hs by congruence; exact E.
Qed.

(** Writing to [x] and [h] afterwards does not matter. *)
Lemma unlinked_frame cs cs1 cs2 h hd hd' l1 x r : unlinked cs cs1 h hd hd' l1 x r -> x ∉ l1 -> h ∉ l1 -> (forall y, y <> x -> y <> h -> cs2 !! y = cs1 !! y) ->
  unlinked cs cs2 h hd hd' l1 x r.
Proof.
  unfold unlinked; destruct (rev l1) as [|p l] eqn:El; [intros [E Hs] _ _ H; split; [exact E|intros y ? ?; rewrite H by assumption; auto]|].
  apply rev_inv in El; subst l1; cbn [rev]; intros (E & (cp & rp & Ep & Ep') & Hs) Hx Hh H; split_and!; [exact E| |].
  - exists cp, rp; split; [exact Ep|]; rewrite H; [exact Ep'|set_solver..].
  - intros y ? ? ?; rewrite H by assumption; auto.
Qed.

(** [region_uninstall_handler] without _REG: [x] leaves the list, the handler loses a reference. *)
Lemma uninstall_handler_run extra L s node x cx r : lists_ok extra L (cells_of s) -> counts_ok s -> region_node s node x ->
  cells_of s !! x = Some (cx, C_REGION r) -> r_handler r <> 0 ->
  exists s' r' l1 l2, region_uninstall_handler node UNREG_NO s = Some (tt, s') /\ L (r_handler r) = l1 ++ x :: l2 /\
    lists_ok extra (with_list (r_handler r) (l1 ++ l2) L) (cells_of s') /\ agrees s s' /\ counts_ok s' /\
    cells_of s' !! x = Some (cx, C_REGION r') /\ r_handler r' = 0 /\ handlers_stay s s'.
Proof.
  intros H Hcnt Hn Ex Hr; set (h := r_handler r) in *.
  destruct (lo_region _ _ _ H _ _ _ Ex Hr) as ((c & hd & Eh) & Hin); fold h in Eh, Hin; apply list_elem_of_split in Hin as (l1 & l2 & EL).
  assert (x <> h) as Hxh by congruence.
  destruct (typed_region_run _ _ _ Hn) as (obj & Hobj & Et & Est); pose proof Hn as (Hnode & (nd & End) & _).
  unfold region_uninstall_handler; rewrite (SM_bind_Some _ _ _ _ _ Et), (proj2 (Z.eqb_neq obj 0)), (SM_bind_Some _ _ _ _ _ Est) by exact Hobj.
  rewrite (SM_bind_Some _ _ _ _ _ (get_region_run _ _ _ _ Ex)), (proj2 (Z.eqb_neq _ 0)) by exact Hr.
  destruct (unlink_region_run _ _ _ _ _ _ _ _ _ _ _ H Ex eq_refl Eh EL) as (cs1 & hd1 & E1 & Hu & Ex1 & Eh1 & Ha1); rewrite (SM_bind_Some _ _ _ _ _ E1).
  destruct (detach_region_run (put_cells cs1 s) node nd x cx r c hd1 Hcnt End Hnode Ex1 Eh1) as (s2 & E2 & C2 & Ha2 & Hcnt2 & _); rewrite (SM_bind_Some _ _ _ _ _ E2).
  change (cells_of (put_cells cs1 s)) with cs1 in C2; assert (cells_of s2 !! x = Some (cx, C_REGION r)) as Ex2 by (rewrite C2; exact Ex1).
  assert (cells_of s2 !! h = Some (c, C_ASPACE hd1)) as Eh2 by (rewrite C2; exact Eh1).
  rewrite (SM_bind_Some _ _ _ _ _ (get_region_run _ _ _ _ Ex2)); rewrite (SM_bind_Some (mret tt : SM (ns (ost V)) unit) _ s2 tt s2 eq_refl).
  rewrite (SM_bind_Some _ _ _ _ _ (get_region_run _ _ _ _ Ex2)); fold h.
  assert (1 < c < BUGGED_REFCOUNT) as Hc.
  { destruct (lo_list _ _ _ H _ _ _ Eh) as (_ & _ & Ec & He); rewrite EL, length_app in Ec; cbn in Ec; pose proof (lists_count _ _ _ _ _ _ H Eh); lia. }
  rewrite (SM_bind_Some _ _ _ _ _ (handler_unref_run _ _ _ _ Eh2 Hr Hc)).
  set (s3 := put_cells _ s2); assert (cells_of s3 !! x = Some (cx, C_REGION r)) as Ex3 by (subst s3; cbn; rewrite lookup_insert_ne by congruence; exact Ex2).
  rewrite (SM_bind_Some _ _ _ _ _ (update_region_run _ _ _ _ _ Ex3)).
  set (s4 := put_cells _ s3); assert (cells_of s4 !! x = Some (cx, C_REGION (set_r_handler 0 r))) as Ex4 by apply lookup_insert_eq.
  rewrite (update_region_run _ _ _ _ _ Ex4); set (s5 := put_cells _ s4).
  assert (agrees s s5) as Ha.
  { transitivity (put_cells cs1 s); [exact Ha1|]; transitivity s2; [exact Ha2|]; transitivity s3; [apply (agrees_put _ _ _ _ _ _ Eh2); discriminate|].
    transitivity s4; [apply (agrees_put _ _ _ _ _ _ Ex3)|apply (agrees_put _ _ _ _ _ _ Ex4)]; discriminate. }
  assert (forall y, y <> x -> y <> h -> cells_of s5 !! y = cs1 !! y) as Hs by (intros y Hx Hh; subst s5 s4 s3; cbn; rewrite !lookup_insert_ne, C2 by congruence; reflexivity).
  assert (cells_of s5 !! h = Some (c - 1, C_ASPACE hd1)) as Eh5 by (subst s5 s4 s3; cbn; rewrite !(lookup_insert_ne _ x h), lookup_insert_eq by congruence; reflexivity).
  eexists s5, _, l1, l2; split_and!; [reflexivity|exact EL| |exact Ha|exact Hcnt2|apply lookup_insert_eq|reflexivity|].
  - eapply (lists_uninstall _ _ _ _ _ _ _ _ _ _ _ hd1 _ _ H Ex eq_refl Eh EL); [apply lookup_insert_eq|reflexivity|exact Eh5| |apply Ha].
    destruct (lo_list _ _ _ H _ _ _ Eh) as (_ & Hnd & _); rewrite EL, <- Permutation_middle, NoDup_cons in Hnd.
    apply (unlinked_frame _ cs1); [exact Hu|set_solver| |exact Hs].
    intros Hh; destruct (lo_member _ _ _ H _ _ _ h Eh) as (? & ? & E & _); [rewrite EL; set_solver|congruence].
  - intros k ck hk Ek; destruct (decide (k = h)) as [->|Hk].
    + rewrite Eh in Ek; injection Ek as <- <-; exists (c - 1), hd1; split; [exact Eh5|]; clear - Hu; unfold unlinked in Hu; destruct (rev l1); destruct Hu as [-> _]; reflexivity.
    + assert (k <> x) by congruence; exists ck, hk; rewrite Hs by assumption; split; [exact (unlinked_handlers _ _ _ _ _ _ _ _ _ _ _ Hu Ek ltac:(assumption) Hk)|reflexivity].
Qed.

(** ** Visits and walks *)

Definition regions_inv (extra : Z -> Z) (s : ns (ost V)) : Prop := counts_ok s /\ exists L, lists_ok extra L (cells_of s).

Definition inv_kept (extra : Z -> Z) (s s' : ns (ost V)) : Prop := regions_inv extra s -> regions_inv extra s'.
#[local] Instance inv_kept_refl extra : Reflexive (inv_kept extra).
Proof. intros s H; exact H. Qed.
#[local] Instance inv_kept_trans extra : Transitive (inv_kept extra).
Proof. intros s t u H1 H2 H; exact (H2 (H1 H)). Qed.

(** Neither the heap nor the nodes change. *)
Definition still (s s' : ns (ost V)) : Prop := cells_of s' = cells_of s /\ nodes s' = nodes s.
#[local] Instance still_refl : Reflexive still.
Proof. intros s; split; reflexivity. Qed.
#[local] Instance still_trans : Transitive still.
Proof. intros s t u [C1 N1] [C2 N2]; split; congruence. Qed.

Lemma still_inv {A} extra (c : SM (ns (ost V)) A) : steps still c -> steps (inv_kept extra) c.
Proof. intros H s a s' E [Hc [L HL]]; destruct (H _ _ _ E) as [C N]; split; [intros n x; rewrite N; apply Hc|exists L; rewrite C; exact HL]. Qed.

Lemma reads_still {A} (c : SM (ost V) A) : steps eq c -> steps still (on_objects c).
Proof.
  intros H s a s' E; unfold on_objects, Namespace.in_world in E; destruct (c (world s)) as [[x w]|] eqn:Ec; [|discriminate].
  injection E as _ <-; rewrite <- (H _ _ _ Ec); split; reflexivity.
Qed.

Lemma get_cell_reads a : steps eq (get_cell (W := V) a).
Proof. intros s x s' E; unfold get_cell, of_opt in E; smunfold; destruct (cells s !! a); [|discriminate]; injection E as _ <-; reflexivity. Qed.
#[local] Hint Resolve get_cell_reads reads_still : steps.
Lemma get_object_reads a : steps eq (get_object (W := V) a).
Proof. unfold get_object; walks. Qed.
#[local] Hint Resolve get_object_reads : steps.
Lemma of_opt_reads {A} (o : option A) : steps eq (of_opt (W := V) o).
Proof. destruct o; [apply steps_ret; exact _|apply steps_undefined]. Qed.
#[local] Hint Resolve of_opt_reads : steps.
Lemma unwrap_reads fuel : forall o, steps eq (unwrap (W := V) fuel o).
Proof. induction fuel as [|fuel IH]; intros o; cbn [unwrap]; walks. Qed.

Lemma unwrap_still a : steps still (Namespace.in_world (Namespace.uacpi_unwrap_internal_reference a)).
Proof.
  apply reads_still; intros w v w' E; rewrite qh_unwrap in E; unfold uacpi_unwrap_internal_reference, cells_fuel in E; smunfold.
  exact (unwrap_reads _ _ _ _ _ E).
Qed.
Lemma type_still a : steps still (Namespace.in_world (Namespace.object_type a)).
Proof.
  apply reads_still; intros w v w' E; rewrite qh_type in E; revert w v w' E.
  change (steps eq (t ← uacpi_object_get_type (W := V) a; mret (type_value t))); unfold uacpi_object_get_type; walks.
Qed.
Lemma root_still : steps still (on_objects root_object).
Proof.
  intros s a s' E; unfold on_objects, Namespace.in_world in E; destruct (root_object (world s)) as [[x w]|] eqn:Ec; [|discriminate].
  injection E as _ <-; split; [exact (qh_root _ _ _ Ec)|reflexivity].
Qed.
Lemma node_object_still n : steps still (uacpi_namespace_node_get_object n).
Proof. apply node_object_steps; [exact _|exact _|apply unwrap_still]. Qed.
Lemma get_type_still o : steps still (on_objects (uacpi_object_get_type o)).
Proof. apply reads_still; unfold uacpi_object_get_type; walks. Qed.
Lemma storage_still o : steps still (storage_of o).
Proof. apply reads_still; unfold get_pointer; walks. Qed.
Lemma get_handler_still h : steps still (get_handler h).
Proof. apply reads_still; unfold get_aspace; walks. Qed.
#[local] Hint Resolve root_still node_object_still get_type_still storage_still get_handler_still : steps.
Lemma handlers_of_still n : steps still (uacpi_node_get_address_space_handlers n).
Proof. unfold uacpi_node_get_address_space_handlers; walks. Qed.
Lemma find_from_still fuel : forall h sp, steps still (find_handler_from fuel h sp).
Proof. induction fuel as [|fuel IH]; intros h sp; cbn [find_handler_from]; walks. Qed.
#[local] Hint Resolve handlers_of_still find_from_still : steps.
Lemma find_handler_still hs sp : steps still (find_handler hs sp).
Proof. unfold find_handler, objects_fuel, get_handlers, cells_fuel; walks; apply reads_still; walks. Qed.
#[local] Hint Resolve find_handler_still : steps.

(** [s] was only looked at. *)
Lemma storage_read s obj p t : storage_of obj s = Some (p, t) -> t = s /\ exists c o, cells_of s !! obj = Some (c, C_OBJECT o) /\ pointer_of (o_data o) = Some p.
Proof.
  unfold storage_of, on_objects, Namespace.in_world, get_pointer, get_object, get_cell, of_opt, cells_of; smunfold.
  destruct (cells (world s) !! obj) as [[c y]|]; [|discriminate]; cbn [snd]; destruct y as [b| | | | | | | | |]; try discriminate; destruct (pointer_of _) as [q|] eqn:Ep; [|discriminate].
  intros [= -> <-]; split; [destruct s; reflexivity|eauto].
Qed.

Lemma get_region_read s x r t : get_region x s = Some (r, t) -> t = s /\ exists c, cells_of s !! x = Some (c, C_REGION r).
Proof.
  unfold get_region, on_objects, Namespace.in_world, get_cell, of_opt, cells_of; smunfold.
  destruct (cells (world s) !! x) as [[c y]|]; [|discriminate]; cbn [snd]; destruct y as [ | | | | | |q | | |]; try discriminate; intros [= -> <-]; destruct s; eauto.
Qed.

Lemma get_handler_read s h hd t : get_handler h s = Some (hd, t) -> t = s /\ exists c, cells_of s !! h = Some (c, C_ASPACE hd).
Proof.
  unfold get_handler, get_aspace, on_objects, Namespace.in_world, get_cell, of_opt, cells_of; smunfold.
  destruct (cells (world s) !! h) as [[c y]|]; [|discriminate]; cbn [snd]; destruct y as [ | | | | | | | | |q]; try discriminate; intros [= -> <-]; destruct s; eauto.
Qed.

Lemma get_type_read s o ty t : on_objects (uacpi_object_get_type o) s = Some (ty, t) -> t = s /\ exists c x, cells_of s !! o = Some (c, C_OBJECT x) /\ o_type x = ty.
Proof.
  unfold uacpi_object_get_type, on_objects, Namespace.in_world, get_object, get_cell, of_opt, cells_of; smunfold.
  destruct (cells (world s) !! o) as [[c y]|]; [|discriminate]; cbn [snd]; destruct y as [b| | | | | | | | |]; try discriminate; intros [= <- <-]; destruct s; eauto.
Qed.

Lemma node_object_read s n o t : uacpi_namespace_node_get_object n s = Some (o, t) -> o <> 0 -> t = s /\ n <> 0 /\ is_Some (nodes s !! n).
Proof.
  intros E H0; split; [exact (proj1 (node_object_agrees _ _ _ _ _ (agrees_refl s) E))|]; unfold uacpi_namespace_node_get_object, get_node in E.
  destruct (Z.eqb_spec n 0); [injection E; congruence|]; apply SM_bind_inv in E as (x & s1 & En & _); destruct (nodes s !! n); [eauto|discriminate].
Qed.

(** The handler of the visited region afterwards. *)
Lemma visit_region_run extra L s act h c hd node x cx r : lists_ok extra L (cells_of s) -> counts_ok s -> region_node s node x ->
  cells_of s !! x = Some (cx, C_REGION r) -> cells_of s !! h = Some (c, C_ASPACE hd) ->
  exists s' L' cx' r', visit_region act h node x s = Some (tt, s') /\ lists_ok extra L' (cells_of s') /\ counts_ok s' /\ handlers_stay s s' /\
    cells_of s' !! x = Some (cx', C_REGION r') /\
    match act with OPREGION_ITER_ACTION_INSTALL => r_handler r' = h | OPREGION_ITER_ACTION_UNINSTALL => r_handler r' <> h end.
Proof.
  intros H Hc Hn Ex Eh; assert (h <> 0) as Hh0 by (intros ->; rewrite (lo_null _ _ _ H) in Eh; discriminate).
  unfold visit_region; rewrite (SM_bind_Some _ _ _ _ _ (get_region_run _ _ _ _ Ex)); destruct act.
  - destruct (Z.eqb_spec (r_handler r) h) as [Hr|Hr]; cbn [negb]; [|exists s, L, cx, r; split_and!; auto; reflexivity].
    destruct (uninstall_handler_run _ _ _ _ _ _ _ H Hc Hn Ex) as (s' & r' & l1 & l2 & E & EL & H' & Ha & Hc' & Ex' & Hr' & Hst); [congruence|].
    eexists s', _, cx, r'; split_and!; [exact E|exact H'|exact Hc'|exact Hst|exact Ex'|congruence].
  - destruct (Z.eqb_spec (r_handler r) 0) as [Hr|Hr].
    + rewrite (SM_bind_Some (mret tt : SM (ns (ost V)) unit) _ s tt s eq_refl).
      destruct (install_handler_run _ _ _ _ _ _ _ _ _ _ H Hn Ex Hr Eh) as (s' & r' & E & H' & Ha & Ex' & Hr' & N' & Hst).
      eexists s', _, cx, r'; split_and!; [exact E|exact H'|intros n y; rewrite N'; apply Hc|exact Hst|exact Ex'|exact Hr'].
    + destruct (uninstall_handler_run _ _ _ _ _ _ _ H Hc Hn Ex Hr) as (s1 & r1 & l1 & l2 & E1 & EL & H1 & Ha1 & Hc1 & Ex1 & Hr1 & Hst1).
      rewrite (SM_bind_Some _ _ _ _ _ E1); destruct (Hst1 _ _ _ Eh) as (c1 & hd1 & Eh1 & _).
      destruct (install_handler_run _ _ _ _ _ _ _ _ _ _ H1 (region_node_agrees _ _ _ _ Ha1 Hn) Ex1 Hr1 Eh1) as (s' & r' & E & H' & Ha & Ex' & Hr' & N' & Hst).
      eexists s', _, cx, r'; split_and!; [exact E|exact H'|intros n y; rewrite N'; apply Hc1|etransitivity; eassumption|exact Ex'|exact Hr'].
Qed.

Lemma do_install_kept_inv extra act h node d : steps (inv_kept extra) (do_install_or_uninstall_handler act h node d).
Proof.
  intros s a s' E Hi; unfold do_install_or_uninstall_handler in E.
  apply SM_bind_inv in E as (obj & s1 & Eo & E); apply SM_bind_inv in E as (ty & s2 & Et & E); apply SM_bind_inv in E as (hd & s3 & Eh & E).
  pose proof Hi as [Hc [L HL]].
  assert (s1 = s) as -> by exact (proj1 (node_object_agrees _ _ _ _ _ (agrees_refl s) Eo)).
  apply get_type_read in Et as (-> & co & o & Eobj & Hty); apply get_handler_read in Eh as (-> & ch & Eh).
  assert (obj <> 0) as Hobj by (intros ->; rewrite (lo_null _ _ _ HL) in Eobj; discriminate).
  destruct (decide (ty = OBJECT_OPERATION_REGION)) as [->|Hne].
  - apply SM_bind_inv in E as (x & s4 & Ep & E); apply storage_read in Ep as (-> & c1 & o1 & Eo1 & Hp); rewrite Eobj in Eo1; injection Eo1 as <- <-.
    apply SM_bind_inv in E as (r & s5 & Er & E); apply get_region_read in Er as (-> & cx & Ex).
    destruct (negb _); [injection E as _ <-; exact Hi|].
    destruct (node_object_read _ _ _ _ Eo Hobj) as (_ & Hn0 & Hnd).
    assert (region_node s node x) as Hrn by (split_and!; [exact Hn0|exact Hnd|]; exists obj, co, o; split_and!; assumption).
    destruct (visit_region_run _ _ _ act _ _ _ node _ _ _ HL Hc Hrn Ex Eh)
      as (s6 & L' & cx' & r' & Ev & HL' & Hc' & _).
    rewrite (SM_bind_Some _ _ _ _ _ Ev) in E; injection E as _ <-; split; [exact Hc'|exists L'; exact HL'].
  - assert (steps still (hs ← uacpi_node_get_address_space_handlers node; if hs =? 0 then mret CONTINUE else
      found ← find_handler hs (h_space hd); mret (if negb (found =? 0) then NEXT_PEER else CONTINUE))) as Hst by walks.
    apply (still_inv extra _ Hst s a s'); [|exact Hi]; destruct ty; exact E || contradiction.
Qed.

(** C32.  Every walk that installs a handler or takes one out of the regions below a device, on
    any namespace and whatever else is installed, keeps the lists, the back pointers
    and the counts of all handlers. *)
Theorem handler_walks_keep_lists extra act h mask depth perm device s ret s' : regions_inv extra s ->
  uacpi_namespace_do_for_each_child (Some (do_install_or_uninstall_handler act h)) None mask depth false perm device s = Some (ret, s') ->
  regions_inv extra s'.
Proof.
  intros Hi E; refine (children_steps (inv_kept extra) _ _ (do_install_or_uninstall_handler act h) _ mask depth perm device s ret s' E Hi).
  - intros a; apply still_inv, unwrap_still.
  - intros a; apply still_inv, type_still.
  - intros n d; apply do_install_kept_inv.
Qed.
End Runs.
