(* ===== verification/RegionBounds.v ===== *)
(** * Operation regions: bounds

    An access to a region of system memory, ports, configuration space or the like reaches
    its handler only with addresses of the region. *)

From S2P Require Import Prelude CMem UStdlib UCore FieldUnit Shareable Namespace Objects Regions.

Open Scope word_scope.

Section Bounds.
Context {V : Type} {OH : ObjectHost V} {NL : NamespaceLock (ost V)} {OBJ : Namespace.Objects (ost V)} {RH : RegionHost V}.

(** The region that an access finds once its node is attached. *)
Definition attached_region (node : Z) : SM (bytes * ns (ost V)) (option operation_region) :=
  ret ← uacpi_opregion_attach node;
  if negb (is_ok ret) then mret None else
  obj ← below (uacpi_namespace_node_get_object_typed node (bit OBJECT_OPERATION_REGION));
  if obj =? 0 then mret None else
  region ← below (storage_of obj);
  r ← below (get_region region);
  mret (Some r).

(** Is a request for [w] bytes at [off] within the [len] bytes from [base]? *)
Definition inside (base len : Z) (q : region_request) : bool :=
  match q with RW_DATA _ _ off w => (base <=? off) && (off - base + w <=? len) | _ => true end.

(** A host that takes no requests from outside. *)
Definition checked (base len : Z) : RegionHost V := {|
  opregion_lock_init := opregion_lock_init;
  opregion_lock_deinit := opregion_lock_deinit;
  opregion_lock_acquire := opregion_lock_acquire;
  opregion_lock_release := opregion_lock_release;
  notify_region_handler := notify_region_handler;
  call_region_handler cb rc hc q := if inside base len q then call_region_handler cb rc hc q else undefined;
  uacpi_execute_control_method := uacpi_execute_control_method;
  alloc_internal_buffer := alloc_internal_buffer |}.

Definition region_ok (r : operation_region) : Prop := 0 <= r_offset r < 2 ^ 64 /\ 0 <= r_length r < 2 ^ 64.

Lemma in_bounds r offset width : region_ok r -> 0 <= offset < 2 ^ 32 -> 0 <= width < 2 ^ 8 ->
  space_needs_bounds_checking (r_space r) = true -> is_oob r offset width = false ->
  r_offset r +64 offset = r_offset r + offset /\ offset + width <= r_length r.
Proof.
  intros [Ho Hl] Hf Hw Hs; unfold is_oob; rewrite Hs, andb_true_l, orb_false_iff, !Z.ltb_ge; intros [H1 H2].
  rewrite (wrap_id 64 (offset + width)) in H1 by (unfold in_w; lia); split; [|exact H1].
  destruct (decide (r_offset r + offset < 2 ^ 64)); [apply wrap_id; unfold in_w; lia|].
  exfalso; revert H2; unfold wrap; replace (r_offset r + offset) with ((r_offset r + offset - 2 ^ 64) + 1 * 2 ^ 64) by lia.
  rewrite Z.mod_add, Z.mod_small by lia; lia.
Qed.

(** What a computation can return. *)
Definition answers {S A} (P : A -> Prop) (c : SM S A) : Prop := forall s a s', c s = Some (a, s') -> P a.

Lemma answers_ret {S A} (P : A -> Prop) (a : A) : P a -> answers P (mret a : SM S A).
Proof. intros H s b s' [= <- _]; exact H. Qed.
Lemma answers_bind {S A B} (P : B -> Prop) (c : SM S A) (k : A -> SM S B) : (forall a, answers P (k a)) -> answers P (a ← c; k a).
Proof. intros H s b s' E; apply SM_bind_inv in E as (a & t & _ & E); exact (H a _ _ _ E). Qed.
Lemma answers_undefined {S A} (P : A -> Prop) : answers P (undefined : SM S A).
Proof. intros s a s' E; discriminate. Qed.

Ltac yields := repeat first
  [ apply answers_bind; intros ? | apply answers_undefined | apply answers_ret
  | match goal with |- answers _ (match ?x with _ => _ end) => destruct x end ].

(** No request, or one within the region. *)
Definition within (r : operation_region) (x : uacpi_status + region_request) : Prop :=
  match x with inl _ => True | inr q => inside (r_offset r) (r_length r) q = true end.

Lemma prepared_inside p c r offset op data : region_ok r -> 0 <= offset < 2 ^ 32 -> 0 <= access_width_bytes p < 2 ^ 8 ->
  is_oob r offset (access_width_bytes p) = false -> answers (within r) (prepare (V := V) p c r offset op data).
Proof.
  intros Hr Hf Hw Ho; unfold prepare, buffer_of; cbv zeta.
  destruct (r_space r =? SPACE_PCC) eqn:E1; [yields; cbn; auto; destruct ((12 <=? offset) && (offset <? 16)); cbn; auto|].
  destruct (r_space r =? SPACE_GENERAL_PURPOSE_IO) eqn:E2; [yields; cbn; auto|].
  destruct (r_space r =? SPACE_IPMI) eqn:E3; [yields; cbn; auto|].
  destruct (r_space r =? SPACE_FFIXEDHW) eqn:E4; [yields; cbn; auto|].
  destruct (r_space r =? SPACE_PRM) eqn:E5; [yields; cbn; auto|].
  destruct ((r_space r =? SPACE_GENERIC_SERIAL_BUS) || (r_space r =? SPACE_SMBUS)) eqn:E6; [yields; cbn; auto|].
  apply orb_false_iff in E6 as [E6 E7]; yields; cbn [within inside].
  destruct (in_bounds r offset (access_width_bytes p)) as [-> Hb]; try assumption.
  { unfold space_needs_bounds_checking, is_buffer_space; rewrite E2, E3, E4, E5, E6, E7; reflexivity. }
  rewrite andb_true_iff, !Z.leb_le; lia.
Qed.

(** A request within the region is taken as before. *)
Lemma run_request_checked r obj h rc x s : within r x ->
  run_request obj h rc x s = run_request (RH := checked (r_offset r) (r_length r)) obj h rc x s.
Proof. destruct x as [st|q]; cbn [within run_request checked call_region_handler]; [reflexivity|]; intros ->; reflexivity. Qed.

Lemma bind_ext {S A B} (c : SM S A) (k k' : A -> SM S B) s : (forall a t, c s = Some (a, t) -> k a t = k' a t) -> (a ← c; k a) s = (a ← c; k' a) s.
Proof. intros H; unfold mbind, SM_bind; destruct (c s) as [[a t]|]; [apply H; reflexivity|reflexivity]. Qed.

(** C33.  A field of at most 255 bytes at any 32-bit offset: nothing changes when the handler of
    the region that is found refuses all that is not within it. *)
Theorem accesses_stay_in_region p c node offset op data s r s1 :
  attached_region node s = Some (Some r, s1) -> region_ok r -> 0 <= offset < 2 ^ 32 -> 0 <= access_width_bytes p < 2 ^ 8 ->
  dispatch_locked p c node offset op data s = dispatch_locked (RH := checked (r_offset r) (r_length r)) p c node offset op data s.
Proof.
  intros Ea Hr Hf Hw; unfold attached_region in Ea; apply SM_bind_inv in Ea as (ret & t1 & E1 & Ea).
  unfold dispatch_locked; change (uacpi_opregion_attach (RH := checked _ _) node) with (uacpi_opregion_attach node).
  rewrite !(SM_bind_Some _ _ _ _ _ E1); destruct (is_ok ret); cbn [negb] in *; [|discriminate].
  apply SM_bind_inv in Ea as (obj & t2 & E2 & Ea); rewrite !(SM_bind_Some _ _ _ _ _ E2); destruct (obj =? 0); [discriminate|].
  apply SM_bind_inv in Ea as (a & t3 & E3 & Ea); rewrite !(SM_bind_Some _ _ _ _ _ E3).
  apply SM_bind_inv in Ea as (r1 & t4 & E4 & Ea); rewrite !(SM_bind_Some _ _ _ _ _ E4); injection Ea as -> _.
  destruct (is_oob r offset (access_width_bytes p)) eqn:Eo; [reflexivity|].
  apply bind_ext; intros h t5 _; apply bind_ext; intros x t6 Ex.
  pose proof (prepared_inside _ _ _ _ _ _ Hr Hf Hw Eo _ _ _ Ex) as Hx.
  unfold mbind at 1 3, SM_bind at 1 3; rewrite (run_request_checked _ obj h (r_user_context r) x t6 Hx); reflexivity.
Qed.
End Bounds.
