(* ===== verification/RegionDemo.v ===== *)
(** * acpi/uacpi/opregion.c: runs on a concrete machine

    A machine that stops when the order of the locks is broken and that keeps a record of
    what handlers and methods are called with, the theorems on regions applied to it, and
    runs that show where the code goes wrong. *)

From S2P Require Import Prelude CMem UStdlib UCore FieldUnit Shareable Namespace Objects ObjCount ObjFree ObjRefs ObjApi Regions RegionLocks RegionLists RegionBounds.

Open Scope word_scope.

Module Demo.

(** The locks, the next address, and what was called. *)
Record world := { depth : Z; held : bool; fresh : Z; requests : list region_request; notices : list region_notice; connects : list (list Z); buffers : list Z }.

Definition set_locks (d : Z) (b : bool) (w : world) : world :=
  {| depth := d; held := b; fresh := fresh w; requests := requests w; notices := notices w; connects := connects w; buffers := buffers w |}.
Definition take_address (w : world) : world :=
  {| depth := depth w; held := held w; fresh := fresh w + 256; requests := requests w; notices := notices w; connects := connects w; buffers := buffers w |}.
Definition log_request (q : region_request) (w : world) : world :=
  {| depth := depth w; held := held w; fresh := fresh w; requests := q :: requests w; notices := notices w; connects := connects w; buffers := buffers w |}.
Definition log_notice (n : region_notice) (w : world) : world :=
  {| depth := depth w; held := held w; fresh := fresh w; requests := requests w; notices := n :: notices w; connects := connects w; buffers := buffers w |}.
Definition log_method (l : list Z) (w : world) : world :=
  {| depth := depth w; held := held w; fresh := fresh w; requests := requests w; notices := notices w; connects := l :: connects w; buffers := buffers w |}.
Definition log_buffer (a : Z) (w : world) : world :=
  {| depth := depth w; held := held w; fresh := fresh w; requests := requests w; notices := notices w; connects := connects w; buffers := a :: buffers w |}.

#[export] Instance machine : ObjectHost world := {|
  alloc_struct := fun _ s =>
    let s' := set_oworld (take_address (oworld s)) s in
    if bool_decide (is_Some (cells s !! fresh (oworld s))) then Some (0, s') else Some (fresh (oworld s), s');
  alloc_bytes := fun n => mret (Some (replicate (Z.to_nat n) 0xcc));
  create_mutex := mret 1;
  release_mutex := fun _ => mret tt;
  create_event := mret 1;
  release_event := fun _ => mret tt;
  table_unref := fun _ => mret tt;
  node_unref := fun _ => mret tt;
  aml_bitness := mret (UACPI_STATUS_OK, 64);
  resolve_namepath := fun _ _ => mret (UACPI_STATUS_NOT_FOUND, 0) |}.

(** Taking a lock that is held, or giving back one that is not, stops the machine. *)
Definition lock_once : SM world uacpi_status := fun w =>
  if held w then None else Some (UACPI_STATUS_OK, set_locks (depth w) true w).
Definition unlock_once : SM world uacpi_status := fun w =>
  if held w then Some (UACPI_STATUS_OK, set_locks (depth w) false w) else None.

#[export] Instance lock : NamespaceLock (ost world) := {|
  uacpi_namespace_lock_init := mret UACPI_STATUS_OK;
  uacpi_namespace_lock_deinit := mret UACPI_STATUS_OK;
  uacpi_namespace_read_lock := Objects.host lock_once;
  uacpi_namespace_read_unlock := Objects.host unlock_once;
  uacpi_namespace_write_lock := Objects.host lock_once;
  uacpi_namespace_write_unlock := Objects.host unlock_once |}.

Definition root_at : Z := 0x100.

(** types.c for the namespace. *)
#[export] Instance objects : Namespace.Objects (ost world) := {|
  Namespace.init_level := fun _ => 2;
  flag_no_osi := fun _ => false;
  kernel_alloc_node := mret 0;
  kernel_alloc := fun _ => mret 0;
  kernel_alloc_path := fun _ => mret None;
  uacpi_memcpy_text := fun _ _ => mret tt;
  Namespace.uacpi_unwrap_internal_reference := Objects.uacpi_unwrap_internal_reference;
  Namespace.object_type := fun o => t ← Objects.uacpi_object_get_type o; mret (type_value t);
  Namespace.uacpi_create_object := fun _ => mret 0;
  Namespace.uacpi_create_internal_reference := fun _ _ => mret 0;
  Namespace.uacpi_object_ref := Objects.uacpi_object_ref;
  Namespace.uacpi_object_unref := fun o => Namespace.in_world (Objects.uacpi_object_unref o);
  object_set_text := fun _ _ => mret tt;
  object_set_size := fun _ _ => mret tt;
  object_set_integer := fun _ _ => mret tt;
  object_set_native_method := fun _ _ => mret tt;
  object_mutex := fun _ => mret 0;
  Namespace.uacpi_mutex_ref := fun _ => mret tt;
  Namespace.uacpi_mutex_unref := fun _ => mret tt;
  root_object := mret root_at;
  set_root_object := fun _ => mret tt;
  global_lock_mutex_ptr := mret 0;
  set_global_lock_mutex := fun _ => mret tt;
  Namespace.uacpi_opregion_uninstall_handler := fun _ => mret tt |}.

(** The integer in an object. *)
Definition integer_at (s : ns (ost world)) (a : Z) : Z :=
  match cells_of s !! a with Some (_, C_OBJECT o) => default 0 (integer_of (o_data o)) | _ => 0 end.

(** Callback 13 refuses to attach. *)
#[export] Instance regions_host : RegionHost world := {|
  opregion_lock_init := mret UACPI_STATUS_OK;
  opregion_lock_deinit := mret tt;
  opregion_lock_acquire := fun w => if held w then None else Some (UACPI_STATUS_OK, set_locks (depth w + 1) false w);
  opregion_lock_release := fun w => if depth w <=? 0 then None else Some (tt, set_locks (depth w - 1) (held w) w);
  notify_region_handler := fun cb n s =>
    if held (oworld (Namespace.world s)) then None else on_host (fun w => Some ((if cb =? 13 then UACPI_STATUS_NOT_FOUND else UACPI_STATUS_OK, 7), log_notice n w)) s;
  call_region_handler := fun cb rc hc q s =>
    if held (oworld (Namespace.world (snd s))) then None else below (on_host (fun w => Some ((UACPI_STATUS_OK, 0x5a), log_request q w))) s;
  uacpi_execute_control_method := fun _ _ l s =>
    if held (oworld (Namespace.world s)) then on_host (fun w => Some (UACPI_STATUS_OK, log_method (map (integer_at s) l) w)) s else None;
  alloc_internal_buffer := fun _ => below (on_host (fun w => Some (fresh w, log_buffer (fresh w) (take_address w)))) |}.

(** No attempt to lock the namespace fails on this machine. *)
Definition lock_state (w : world) : Z * bool * Z := (depth w, held w, 0).

#[export] Instance machine_objects : ObjectSteps (same lock_state).
Proof.
  split; intros; try (intros s a s' [= _ <-]; reflexivity).
  intros s a s'; cbn; destruct (bool_decide _); intros [= _ <-]; reflexivity.
Qed.

(** The machine keeps to the rules as long as its clients do. *)
#[export] Instance machine_laws : RegionLaws lock_state.
Proof.
  split; [exact _|..].
  - intros k w a w' E; split; [reflexivity|]; intros Hs _; revert Hs E; unfold lock_state; cbn; destruct w; cbn; intros [= -> ->] [= <- <-]; reflexivity.
  - intros w a w' E; reflexivity.
  - intros w a w' E; reflexivity.
  - intros k b w a w' E; split; [reflexivity|]; intros Hs _; revert Hs E; unfold lock_state; cbn; destruct w; cbn; intros [= -> ->]; destruct (_ <=? 0); [discriminate|].
    intros [= <- <-]; cbn; f_equal; lia.
  - intros k s a s' E; split; [reflexivity|]; intros Hs _; revert Hs E; unfold ost_locks, lock_state, Objects.host; cbn; unfold lock_once; destruct s as [cs ns w]; destruct w; cbn.
    intros [= -> ->] [= <- <-]; reflexivity.
  - intros k n s ret s' _ E Hr; unfold Objects.host in E; cbn in E; unfold Objects.host, lock_once in E; destruct (held _); [discriminate|]; injection E as <- _; discriminate.
  - intros k s a s' E; split; [reflexivity|]; intros Hs _; revert Hs E; unfold ost_locks, lock_state, Objects.host; cbn; unfold unlock_once; destruct s as [cs ns w]; destruct w; cbn.
    intros [= -> ->] [= <- <-]; reflexivity.
  - intros cb n s a s'; cbn; destruct (held _); [discriminate|]; intros [= _ <-]; split; [reflexivity|intros _ k E; exact E].
  - intros cb rc hc q [m s] a s'; cbn; destruct (held _); [discriminate|]; intros [= _ <-]; split; [reflexivity|intros _ k E; exact E].
  - intros n m l s a s'; cbn; destruct (held _) eqn:Eh; [|discriminate]; intros [= _ <-]; split; [reflexivity|intros _ k E; exact E].
  - intros n [m s] a s' [= _ <-]; reflexivity.
  - intros o w a w' E; rewrite (unwrap_reads (V := world) (S (size (cells w))) o _ _ _ E); reflexivity.
  - intros o w a w' E; cbn in E; apply SM_bind_inv in E as (t & w1 & Et & [= _ <-]); unfold uacpi_object_get_type in Et.
    apply SM_bind_inv in Et as (x & w2 & Ex & [= _ <-]); rewrite (get_object_reads (V := world) _ _ _ _ Ex); reflexivity.
  - intros w a w' [= _ <-]; reflexivity.
Qed.

(** ** A namespace

    [\] with the device [DEV0]; that with the regions [MEM0] (16 bytes of memory at
    0x1000), [ECR0] (the embedded controller, space 3) and [PCC0], and with [_REG]. *)
Definition DEV : Z := 0x2000.
Definition MEM : Z := 0x2100.
Definition ECR : Z := 0x2200.
Definition PCC : Z := 0x2300.
Definition REG : Z := 0x2400.

Definition node_at (nm : list Z) (obj par c k : Z) : namespace_node := {|
  shareable_count := 1; name := nm; Namespace.flags := 0; Namespace.object := obj; parent := par; child := c; Namespace.next := k |}.

Definition tree : gmap Z namespace_node := {[
  predefined ROOT := node_at [92; 0; 0; 0] root_at 0 DEV 0;
  DEV := node_at [68; 69; 86; 48] 0x200 (predefined ROOT) MEM 0;
  MEM := node_at [77; 69; 77; 48] 0x300 DEV 0 ECR;
  ECR := node_at [69; 67; 82; 48] 0x320 DEV 0 PCC;
  PCC := node_at [80; 67; 67; 48] 0x340 DEV 0 REG;
  REG := node_at REG_NAME 0x400 DEV 0 0 ]}.

Definition object_at (t : uacpi_object_type) (p : Z) : Z * cell := (1, C_OBJECT {| o_type := t; o_flags := 0; o_data := D_POINTER p |}).
Definition device : Z * cell := (1, C_HANDLERS {| address_space_head := 0; notify_head := 0; p_id := 0; p_block_address := 0; p_block_length := 0 |}).
Definition region (space base len : Z) : Z * cell :=
  (1, C_REGION {| r_handler := 0; r_user_context := 0; r_space := space; state_flags := 0; r_offset := base; r_length := len; table_idx := 0; r_next := 0 |}).

Definition heap0 : heap := {[
  root_at := object_at OBJECT_DEVICE 0x110; 0x110 := device;
  0x200 := object_at OBJECT_DEVICE 0x210; 0x210 := device;
  0x300 := object_at OBJECT_OPERATION_REGION 0x310; 0x310 := region 0 0x1000 16;
  0x320 := object_at OBJECT_OPERATION_REGION 0x330; 0x330 := region 3 0 256;
  0x340 := object_at OBJECT_OPERATION_REGION 0x350; 0x350 := region SPACE_PCC 1 64;
  0x400 := object_at OBJECT_METHOD 0x410;
  0x410 := (1, C_METHOD {| code := []; m_mutex := 0; m_sync_level := 0; m_args := 2; is_serialized := false; named_objects_persist := false; native_call := false; owns_code := false |}) ]}.

Definition world0 : world := {| depth := 0; held := false; fresh := 0x8000; requests := []; notices := []; connects := []; buffers := [] |}.

Definition start : bytes * ns (ost world) :=
  (list_to_map (map (fun i => (Z.of_nat i, 0)) (seq 0x40 8)),
   {| nodes := tree; Namespace.world := {| cells := heap0; notifies := ∅; oworld := world0 |} |}).

Definition after {A} (c : SM (bytes * ns (ost world)) A) (s : bytes * ns (ost world)) : bytes * ns (ost world) :=
  match c s with Some (_, s') => s' | None => s end.

(** The namespace locked or unlocked by the caller. *)
Definition caller (b : bool) (s : bytes * ns (ost world)) : bytes * ns (ost world) :=
  (fst s, with_world (set_oworld (set_locks (depth (oworld (Namespace.world (snd s)))) b (oworld (Namespace.world (snd s)))) (Namespace.world (snd s))) (snd s)).

Definition host_of (s : bytes * ns (ost world)) : world := oworld (Namespace.world (snd s)).

Definition byte_field (w : Z) : field_props := {|
  byte_offset := 0; FieldUnit.bit_length := 8; pin_offset := 0; bit_offset_within_first_byte := 0; access_width_bytes := w; access_length := 0;
  attributes := 0; update_rule := UACPI_UPDATE_RULE_PRESERVE; lock_rule := false |}.

(** A handler for memory on the root, and a read of the last byte of [MEM0]. *)
Definition installed : bytes * ns (ost world) := after (run_call (INSTALL (predefined ROOT) 0 5 0 0)) start.
Definition read_at (offset w : Z) : region_call := DISPATCH (byte_field w) 0 MEM offset UACPI_REGION_OP_READ (IoInteger 0x40).
Definition was_read : bytes * ns (ost world) := after (run_call (read_at 15 1)) (caller true installed).

(** The byte that the handler gives arrives; the handler saw the address. *)
Lemma read_reaches_handler : requests (host_of was_read) = [RW_DATA UACPI_REGION_OP_READ 0 0x100f 1] /\ load_le (fst was_read) 0x40 8 = Some 0x5a.
Proof. split; vm_compute; reflexivity. Qed.

(** ** The theorems on this machine *)

Lemma region_calls_keep_locks_witness : fst (io_locks lock_state was_read) = (0, true).
Proof.
  apply (region_calls_keep_locks lock_state (read_at 15 1) (caller true installed) UACPI_STATUS_OK was_read 0); vm_compute; reflexivity.
Defined.

(** Handlers without regions yet, regions without handlers. *)
Definition unserved (a : Z) (x : Z * cell) : Prop :=
  match snd x with C_ASPACE h => regions h = 0 /\ fst x = 1 | C_REGION r => r_handler r = 0 | _ => True end.

#[local] Instance unserved_dec a x : Decision (unserved a x).
Proof. unfold unserved; destruct (snd x); exact _. Defined.

Lemma fresh_lists (cs : heap) : cs !! 0 = None -> map_Forall unserved cs -> Z.of_nat (size cs) < 2 ^ 30 -> lists_ok (fun _ => 1) (fun _ => []) cs.
Proof.
  intros H0 HF Hs; split; [exact H0| | | |intros h; unfold BUGGED_REFCOUNT; lia].
  - intros h c hd E; destruct (HF _ _ E) as [Hr Hc]; cbn in Hr, Hc; subst c; split_and!; [exact Hr|constructor|reflexivity|lia].
  - intros h c hd x _ Hx; inversion Hx.
  - intros x c r E Hr; pose proof (HF _ _ E) as H; cbn in H; contradiction.
Qed.

(** A handler on the list of the device, before the walk. *)
Definition heap1 : heap := <[0x500 := (1, C_ASPACE {| callback := 5; user_context := 0; h_next := 0; regions := 0; h_space := 3; h_flags := 0 |})]> heap0.
Definition before_walk : ns (ost world) := {| nodes := tree; Namespace.world := {| cells := heap1; notifies := ∅; oworld := set_locks 1 true world0 |} |}.
(** For the lists, handlers and the lock return always. *)
#[local] Instance open_lock : NamespaceLock (ost world) := {|
  uacpi_namespace_lock_init := mret UACPI_STATUS_OK;
  uacpi_namespace_lock_deinit := mret UACPI_STATUS_OK;
  uacpi_namespace_read_lock := mret UACPI_STATUS_OK;
  uacpi_namespace_read_unlock := mret UACPI_STATUS_OK;
  uacpi_namespace_write_lock := mret UACPI_STATUS_OK;
  uacpi_namespace_write_unlock := mret UACPI_STATUS_OK |}.
#[local] Instance open_host : RegionHost world := {|
  opregion_lock_init := mret UACPI_STATUS_OK;
  opregion_lock_deinit := mret tt;
  opregion_lock_acquire := mret UACPI_STATUS_OK;
  opregion_lock_release := mret tt;
  notify_region_handler := fun cb n => on_host (fun w => Some ((UACPI_STATUS_OK, 7), log_notice n w));
  call_region_handler := fun cb rc hc q => below (on_host (fun w => Some ((UACPI_STATUS_OK, 0x5a), log_request q w)));
  uacpi_execute_control_method := fun _ _ _ => mret UACPI_STATUS_OK;
  alloc_internal_buffer := fun _ => mret 0 |}.

#[local] Instance open_quiet : QuietHost (NL := open_lock) (RH := open_host).
Proof.
  split; intros; cbn; try (eexists _, _; split; [reflexivity|auto]; fail); try reflexivity.
  intros w a w' [= _ <-]; reflexivity.
Qed.

Definition walk : SM (ns (ost world)) uacpi_status :=
  uacpi_namespace_do_for_each_child (NL := open_lock) (Some (do_install_or_uninstall_handler (NL := open_lock) (RH := open_host) OPREGION_ITER_ACTION_INSTALL 0x500)) None
    OBJECT_ANY_BIT MAX_DEPTH_ANY false true DEV.
Definition walked : ns (ost world) := match walk before_walk with Some (_, s) => s | None => before_walk end.

Lemma before_walk_inv : regions_inv (fun _ => 1) before_walk.
Proof.
  split; [|exists (fun _ => []); apply fresh_lists; [vm_compute; reflexivity| |vm_compute; reflexivity]].
  - assert (bool_decide (map_Forall (fun _ (x : namespace_node) => 0 <= shareable_count x <= BUGGED_REFCOUNT) tree) = true) as H%bool_decide_eq_true_1 by (vm_compute; reflexivity).
    intros n x E; exact (H n x E).
  - assert (bool_decide (map_Forall unserved heap1) = true) as H%bool_decide_eq_true_1 by (vm_compute; reflexivity); exact H.
Qed.

(** The region of the embedded controller now has the handler, which it holds. *)
Lemma handler_walks_keep_lists_witness : regions_inv (fun _ => 1) walked /\
  (exists c hd, cells_of walked !! 0x500 = Some (c, C_ASPACE hd) /\ c = 2 /\ regions hd = 0x330).
Proof.
  split; [|eexists _, _; split; [vm_compute; reflexivity|split; reflexivity]].
  apply (handler_walks_keep_lists (NL := open_lock) (RH := open_host) (fun _ => 1) OPREGION_ITER_ACTION_INSTALL 0x500 OBJECT_ANY_BIT MAX_DEPTH_ANY true DEV
    before_walk UACPI_STATUS_OK walked before_walk_inv); vm_compute; reflexivity.
Defined.

(** The region as the access finds it. *)
Definition mem_region : operation_region := {|
  r_handler := 0x8000; r_user_context := 7; r_space := 0; state_flags := UACPI_OP_REGION_STATE_ATTACHED; r_offset := 0x1000; r_length := 16; table_idx := 0; r_next := 0 |}.
Definition found : bytes * ns (ost world) := after (attached_region (NL := lock) (RH := regions_host) MEM) (caller true installed).

Lemma accesses_stay_in_region_witness :
  dispatch_locked (NL := lock) (RH := regions_host) (byte_field 1) 0 MEM 15 UACPI_REGION_OP_READ (IoInteger 0x40) (caller true installed) =
  dispatch_locked (NL := lock) (RH := checked (RH := regions_host) 0x1000 16) (byte_field 1) 0 MEM 15 UACPI_REGION_OP_READ (IoInteger 0x40) (caller true installed).
Proof.
  apply (accesses_stay_in_region (NL := lock) (RH := regions_host) (byte_field 1) 0 MEM 15 UACPI_REGION_OP_READ (IoInteger 0x40) (caller true installed) mem_region found);
    [vm_compute; reflexivity|split; cbn; lia|lia|cbn; lia].
Defined.

(** One byte further is refused. *)
Lemma read_past_the_end : exists s', run_call (NL := lock) (RH := regions_host) (read_at 16 1) (caller true installed) = Some (UACPI_STATUS_AML_OUT_OF_BOUNDS_INDEX, s') /\
  requests (host_of s') = [].
Proof. eexists; split; vm_compute; reflexivity. Qed.

(** ** Where the code goes wrong *)

Abbreviation call := (run_call (NL := lock) (RH := regions_host)).

(** Handlers for the embedded controller (space 3) and for space 2 on [DEV0]; the one
    installed last is the first of the list. *)
Definition two_handlers : bytes * ns (ost world) := after (call (INSTALL DEV 2 6 0 0)) (after (call (INSTALL DEV 3 5 0 0)) start).
Definition one_handler : bytes * ns (ost world) := after (call (INSTALL DEV 3 5 0 0)) start.

(** Both times _REG was told that the controller is there; it is only told that it goes
    when its handler is the first. *)
Lemma disconnect_only_for_first :
  connects (host_of one_handler) = [[3; 1]] /\ connects (host_of (after (call (UNINSTALL DEV 3)) one_handler)) = [[3; 0]; [3; 1]] /\
  connects (host_of two_handlers) = [[3; 1]] /\ connects (host_of (after (call (UNINSTALL DEV 3)) two_handlers)) = [[3; 1]].
Proof. split_and!; vm_compute; reflexivity. Qed.

(** A namespace that cannot be locked again: the upgrade still succeeds, without it. *)
#[local] Instance lost_lock : NamespaceLock (ost world) := {|
  uacpi_namespace_lock_init := mret UACPI_STATUS_OK;
  uacpi_namespace_lock_deinit := mret UACPI_STATUS_OK;
  uacpi_namespace_read_lock := mret UACPI_STATUS_TIMEOUT;
  uacpi_namespace_read_unlock := mret UACPI_STATUS_OK;
  uacpi_namespace_write_lock := mret UACPI_STATUS_TIMEOUT;
  uacpi_namespace_write_unlock := Objects.host unlock_once |}.

Lemma upgrade_loses_namespace : exists s', upgrade_to_opregion_lock (NL := lost_lock) (RH := regions_host) (snd (caller true start)) = Some (UACPI_STATUS_OK, s') /\
  fst (ns_locks lock_state s') = (1, false).
Proof. eexists; split; vm_compute; reflexivity. Qed.

(** A handler that refuses to attach: every access takes another buffer, the region knows
    only the last. *)
Definition refused : bytes * ns (ost world) :=
  let access := call (DISPATCH (byte_field 1) 0 PCC 0 UACPI_REGION_OP_READ (IoInteger 0x40)) in
  after access (after access (caller true (after (call (INSTALL (predefined ROOT) SPACE_PCC 13 0 0)) start))).

Lemma refused_attach_leaks : length (buffers (host_of refused)) = 2%nat /\
  exists c r, cells_of (snd refused) !! 0x350 = Some (c, C_REGION r) /\ buffers (host_of refused) = [internal_buffer r; internal_buffer r - 256].
Proof. split; [vm_compute; reflexivity|]; eexists _, _; split; vm_compute; reflexivity. Qed.

(** A handler whose callback gives up the last other reference to the region, as when its
    table is unloaded: the read looks at the region after it is freed. *)
#[local] Instance unloading_host : RegionHost world := {|
  opregion_lock_init := mret UACPI_STATUS_OK;
  opregion_lock_deinit := mret tt;
  opregion_lock_acquire := mret UACPI_STATUS_OK;
  opregion_lock_release := mret tt;
  notify_region_handler := fun cb n => mret (UACPI_STATUS_OK, 7);
  call_region_handler := fun cb rc hc q => below (on_objects (Objects.uacpi_object_unref 0x300));; mret (UACPI_STATUS_OK, 0x5a);
  uacpi_execute_control_method := fun _ _ _ => mret UACPI_STATUS_OK;
  alloc_internal_buffer := fun _ => mret 0 |}.

Definition unload (op : uacpi_region_op) : SM (bytes * ns (ost world)) uacpi_status :=
  dispatch_locked (NL := open_lock) (RH := unloading_host) (byte_field 1) 0 MEM 0 op (IoInteger 0x40).

Lemma region_read_after_free : unload UACPI_REGION_OP_READ (caller true installed) = None /\
  (exists s', unload UACPI_REGION_OP_WRITE (caller true installed) = Some (UACPI_STATUS_OK, s') /\ cells_of (snd s') !! 0x310 = None).
Proof. split; [vm_compute; reflexivity|]; eexists; split; vm_compute; reflexivity. Qed.
End Demo.
