(* ===== verification/AmlOps.v ===== *)
(** * acpi/uacpi/interpreter.c: the operators of AML on data

    The interpreter collects the operands of an operator as items and then runs its
    handler.  These are the handlers that compute: arithmetic and logic, references,
    conversions between integers, strings and buffers, concatenation, Mid, Index, Match.
    The state is the items of the current operator and the heap of types.c.  An array of
    bytes that a buffer points to is a list; stores outside of it are undefined. *)

From Stdlib Require Import Ascii String.
From S2P Require Import Prelude CMem UStdlib UCore UText UFormat Shareable Namespace Objects ResTables Resources.

Open Scope list_scope.
Open Scope word_scope.

(** ** Data *)

Inductive item_type :=
  | ITEM_NONE | ITEM_NAMESPACE_NODE | ITEM_OBJECT | ITEM_EMPTY_OBJECT | ITEM_PACKAGE_LENGTH | ITEM_IMMEDIATE.

(** The union of an item by the member it was last written through. *)
Inductive item_data :=
  | I_POINTER (p : Z)
  | I_PACKAGE_LENGTH (pkg_begin pkg_end : Z)
  | I_IMMEDIATE (v : Z).

Record item := { i_type : item_type; i_data : item_data }.

(** The operators that have their handler here. *)
Inductive uacpi_aml_op :=
  | AddOp | SubtractOp | MultiplyOp | DivideOp | ModOp | ShiftLeftOp | ShiftRightOp | AndOp | NandOp | OrOp | NorOp | XorOp
  | NotOp | FindSetRightBitOp | FindSetLeftBitOp
  | ToIntegerOp | ToHexStringOp | ToDecimalStringOp | ToBufferOp
  | RefOfOp | CondRefOfOp | DerefOfOp
  | SleepOp | StallOp | FromBCDOp | ToBCDOp
  | LandOp | LorOp | LEqualOp | LLessOp | LGreaterOp
  | OtherOp (code : Z).

#[export] Instance uacpi_aml_op_eq_dec : EqDecision uacpi_aml_op.
Proof. solve_decision. Defined.

Inductive match_op := MTR | MEQ | MLE | MLT | MGE | MGT | M_INVALID.

Definition match_op_of (v : Z) : match_op :=
  match v with 0 => MTR | 1 => MEQ | 2 => MLE | 3 => MLT | 4 => MGE | 5 => MGT | _ => M_INVALID end.

(** The clock, delays and [g_uacpi_rt_ctx.is_rev1]. *)
Class AmlHost (V : Type) := {
  rev1 : V -> bool;
  nanoseconds_since_boot : SM V Z;
  kernel_sleep : Z -> SM V unit;
  kernel_stall : Z -> SM V unit
}.

(** The [n] bytes of an integer, lowest first. *)
Fixpoint le_bytes (n : nat) (v : Z) : list Z :=
  match n with O => [] | S n' => u8 v :: le_bytes n' (Z.shiftr v 8) end.
Fixpoint le_value (l : list Z) : Z := match l with [] => 0 | b :: l' => b + 256 * le_value l' end.

Section State.
Context {V : Type}.
Record aml := { items : list item; store : ost V }.
End State.
Arguments aml V : clear implicits.

Section Operators.
Context {V : Type} {OH : ObjectHost V} {NL : NamespaceLock (ost V)} {AH : AmlHost V}.

Abbreviation M := (SM (aml V)).

Definition on_store {A} (c : SM (ost V) A) : M A := fun s =>
  match c (store s) with Some (a, w) => Some (a, {| items := items s; store := w |}) | None => None end.

(** [item_array_at(items, i)] *)
Definition get_item (i : nat) : M item := fun s => match items s !! i with Some x => Some (x, s) | None => None end.
Definition put_item (i : nat) (x : item) : M unit := fun s =>
  match items s !! i with Some _ => Some (tt, {| items := <[i := x]> (items s); store := store s |}) | None => None end.
Definition item_obj (i : nat) : M Z := x ← get_item i; match i_data x with I_POINTER p => mret p | _ => undefined end.
Definition item_immediate (i : nat) : M Z := x ← get_item i; match i_data x with I_IMMEDIATE v => mret v | _ => undefined end.

Definition is_rev1 : M bool := gets_state (fun s => rev1 (oworld (store s))).

Definition the_object (o : Z) : M object := on_store (get_object o).
Definition type_of (o : Z) : M uacpi_object_type := x ← the_object o; mret (o_type x).
Definition integer_at (o : Z) : M Z := x ← the_object o; on_store (of_opt (integer_of (o_data x))).
Definition set_integer (o v : Z) : M unit := on_store (set_data o (D_INTEGER v)).
Definition set_obj_type (o : Z) (t : uacpi_object_type) : M unit := on_store (Objects.set_type o t).

(** [obj->buffer]: where it is, and its data and size. *)
Definition buffer_at (o : Z) : M Z := on_store (get_pointer o).
Definition buffer_of (p : Z) : M (option (list Z) * Z) := on_store (get_buffer p).
Definition set_buffer (p : Z) (d : option (list Z)) (n : Z) : M unit := on_store (write_cell p (C_BUFFER d n)).

(** The first [n] bytes of an array. *)
Definition first_bytes (n : Z) (d : option (list Z)) : M (list Z) :=
  let l := default [] d in if n <=? Z.of_nat (length l) then mret (take (Z.to_nat n) l) else undefined.

(** [memcpy(d + at, bytes, ...)] *)
Definition overwrite (d : list Z) (at_ : nat) (bytes : list Z) : M (list Z) :=
  if (at_ + length bytes <=? length d)%nat then mret (take at_ d ++ bytes ++ drop (at_ + length bytes) d) else undefined.

Definition kernel_alloc_bytes (n : Z) : M (option (list Z)) := on_store (host (alloc_bytes n)).

(** [buf->data = uacpi_kernel_alloc(n)] *)
Definition alloc_data (p n : Z) : M (option (list Z)) :=
  d ← kernel_alloc_bytes n;
  b ← buffer_of p;
  set_buffer p d (snd b);;
  mret d.

Definition sizeof_int : M Z := r ← is_rev1; mret (if (r : bool) then 4 else 8).
Definition ones : M Z := r ← is_rev1; mret (if (r : bool) then 0xffffffff else 0xffffffffffffffff).
Definition truncate_number_if_needed (o : Z) : M unit :=
  r ← is_rev1; if negb (r : bool) then mret tt else v ← integer_at o; set_integer o (Z.land v 0xffffffff).

(** The bytes of the view. *)
Definition get_object_storage (o : Z) (include_null : bool) : M (uacpi_status * list Z) :=
  x ← the_object o;
  match o_type x with
  | OBJECT_INTEGER =>
      n ← sizeof_int;
      v ← integer_at o;
      mret (UACPI_STATUS_OK, take (Z.to_nat n) (le_bytes 8 v))
  | OBJECT_STRING =>
      p ← buffer_at o;
      b ← buffer_of p;
      l ← first_bytes (if negb (snd b =? 0) && negb include_null then snd b - 1 else snd b) (fst b);
      mret (UACPI_STATUS_OK, l)
  | OBJECT_BUFFER =>
      p ← buffer_at o;
      b ← buffer_of p;
      l ← first_bytes (snd b) (fst b);
      mret (UACPI_STATUS_OK, l)
  | OBJECT_REFERENCE => mret (UACPI_STATUS_INVALID_ARGUMENT, [])
  | _ => mret (UACPI_STATUS_AML_INCOMPATIBLE_OBJECT_TYPE, [])
  end.

(** ** References *)

(** [while (obj)]; the last one is unreachable. *)
Fixpoint unwind (fuel : nat) (parent obj : Z) : M Z :=
  match fuel with
  | O => undefined
  | S fuel' =>
      if obj =? 0 then mret 0 else
      x ← the_object obj;
      if negb (Objects.is_reference x) then mret parent else
      p ← on_store (of_opt (pointer_of (o_data x)));
      unwind fuel' obj p
  end.

Definition reference_unwind (obj : Z) : M Z := fuel ← on_store cells_fuel; unwind fuel obj obj.

(** [reference_unwind(src)->inner_object] *)
Definition innermost (src : Z) : M Z := p ← reference_unwind src; on_store (get_pointer p).

Definition read_buffer_index (src : Z) : M Z :=
  x ← the_object src;
  bi ← on_store (of_opt (buffer_index_of (o_data x)));
  b ← buffer_of (snd bi);
  on_store (of_opt (default [] (fst b) !! Z.to_nat (fst bi))).

Definition handle_ref_or_deref_of (op : uacpi_aml_op) : M uacpi_status :=
  src ← item_obj 0;
  dst ← item_obj (if decide (op = CondRefOfOp) then 2 else 1);
  if decide (op = DerefOfOp) then
    x ← the_object src;
    let was_a_reference := Objects.is_reference x in
    src ← (if was_a_reference then innermost src else mret src);
    t ← type_of src;
    match t with
    | OBJECT_BUFFER_INDEX =>
        set_obj_type dst OBJECT_INTEGER;;
        v ← read_buffer_index src;
        set_integer dst v;;
        mret UACPI_STATUS_OK
    | _ =>
        if negb was_a_reference then mret UACPI_STATUS_AML_INCOMPATIBLE_OBJECT_TYPE else
        fuel ← on_store cells_fuel;
        on_store (uacpi_object_assign fuel dst src ASSIGN_BEHAVIOR_SHALLOW_COPY)
    end
  else
    set_obj_type dst OBJECT_REFERENCE;;
    on_store (set_data dst (D_POINTER src));;
    on_store (uacpi_object_ref src);;
    mret UACPI_STATUS_OK.

(** ** Arithmetic *)

(** The result and the quotient of a division, or an error. *)
Definition binary_result (r1 : bool) (op : uacpi_aml_op) (lhs rhs : Z) : uacpi_status + Z * option Z :=
  let shift res := inr (if rhs <=? (if r1 then 31 else 63) then res else 0, None) in
  match op with
  | AddOp => inr (lhs +64 rhs, None)
  | SubtractOp => inr (u64 (lhs - rhs), None)
  | MultiplyOp => inr (u64 (lhs * rhs), None)
  | ShiftLeftOp => shift (u64 (Z.shiftl lhs rhs))
  | ShiftRightOp => shift (Z.shiftr lhs rhs)
  | NandOp => inr (u64 (Z.lnot (Z.land rhs lhs)), None)
  | AndOp => inr (Z.land rhs lhs, None)
  | NorOp => inr (u64 (Z.lnot (Z.lor rhs lhs)), None)
  | OrOp => inr (Z.lor rhs lhs, None)
  | XorOp => inr (Z.lxor rhs lhs, None)
  | DivideOp => if rhs =? 0 then inl UACPI_STATUS_AML_BAD_ENCODING else inr (lhs mod rhs, Some (lhs / rhs))
  | ModOp => if rhs =? 0 then inl UACPI_STATUS_AML_BAD_ENCODING else inr (lhs mod rhs, None)
  | _ => inl UACPI_STATUS_INVALID_ARGUMENT
  end.

Definition do_binary_math (arg0 arg1 tgt0 tgt1 : Z) (op : uacpi_aml_op) : M uacpi_status :=
  lhs ← integer_at arg0;
  rhs ← integer_at arg1;
  r1 ← is_rev1;
  match binary_result r1 op lhs rhs with
  | inl st => mret st
  | inr (res, quotient) =>
      (match quotient with Some q => set_integer tgt1 q | None => mret tt end);;
      set_integer tgt0 res;;
      mret UACPI_STATUS_OK
  end.

Definition handle_binary_math (op : uacpi_aml_op) : M uacpi_status :=
  arg0 ← item_obj 0;
  arg1 ← item_obj 1;
  if decide (op = DivideOp) then
    tgt0 ← item_obj 4; tgt1 ← item_obj 5; do_binary_math arg0 arg1 tgt0 tgt1 op
  else
    tgt0 ← item_obj 3; do_binary_math arg0 arg1 tgt0 0 op.

Definition handle_unary_math (op : uacpi_aml_op) : M uacpi_status :=
  arg ← item_obj 0;
  tgt ← item_obj 2;
  match op with
  | NotOp =>
      v ← integer_at arg;
      set_integer tgt (u64 (Z.lnot v));;
      truncate_number_if_needed tgt;;
      mret UACPI_STATUS_OK
  | FindSetRightBitOp => v ← integer_at arg; set_integer tgt (uacpi_bit_scan_forward v);; mret UACPI_STATUS_OK
  | FindSetLeftBitOp => v ← integer_at arg; set_integer tgt (uacpi_bit_scan_backward v);; mret UACPI_STATUS_OK
  | _ => mret UACPI_STATUS_INVALID_ARGUMENT
  end.

(** ** Index *)

Definition ensure_valid_idx (idx src_size : Z) : uacpi_status :=
  if idx <? src_size then UACPI_STATUS_OK else UACPI_STATUS_AML_OUT_OF_BOUNDS_INDEX.

Definition set_item_obj (i : nat) (o : Z) : M unit := put_item i {| i_type := ITEM_OBJECT; i_data := I_POINTER o |}.

Definition index_bytes (src idx : Z) : M uacpi_status :=
  view ← get_object_storage src false;
  let ret := ensure_valid_idx idx (Z.of_nat (length (snd view))) in
  if negb (is_ok ret) then mret ret else
  o ← on_store (uacpi_create_object OBJECT_BUFFER_INDEX);
  set_item_obj 3 o;;
  if o =? 0 then mret UACPI_STATUS_OUT_OF_MEMORY else
  p ← buffer_at src;
  on_store (set_data o (D_BUFFER_INDEX idx p));;
  on_store (shareable_ref p);;
  mret UACPI_STATUS_OK.

(** The element becomes a reference to itself the first time. *)
Definition index_reference (pkg idx obj : Z) : M Z :=
  x ← the_object obj;
  if Objects.is_reference x && (o_flags x =? UACPI_REFERENCE_KIND_PKG_INDEX) then mret obj else
  r ← on_store (uacpi_create_internal_reference UACPI_REFERENCE_KIND_PKG_INDEX obj);
  if r =? 0 then mret 0 else
  l ← on_store (get_package pkg);
  on_store (write_cell pkg (C_PACKAGE (<[Z.to_nat idx := r]> l)));;
  inner ← on_store (get_pointer r);
  on_store (uacpi_object_unref inner);;
  mret r.

Definition index_package (src idx : Z) : M uacpi_status :=
  pkg ← on_store (get_pointer src);
  l ← on_store (get_package pkg);
  let ret := ensure_valid_idx idx (Z.of_nat (length l)) in
  if negb (is_ok ret) then mret ret else
  obj ← on_store (of_opt (l !! Z.to_nat idx));
  r ← index_reference pkg idx obj;
  if r =? 0 then mret UACPI_STATUS_OUT_OF_MEMORY else
  set_item_obj 3 r;;
  on_store (uacpi_object_ref r);;
  mret UACPI_STATUS_OK.

Definition handle_index : M uacpi_status :=
  src ← item_obj 0;
  i ← item_obj 1;
  idx ← integer_at i;
  t ← type_of src;
  match t with
  | OBJECT_BUFFER | OBJECT_STRING => index_bytes src idx
  | OBJECT_PACKAGE => index_package src idx
  | _ => mret UACPI_STATUS_AML_INCOMPATIBLE_OBJECT_TYPE
  end.

(** ** Conversions *)

Definition object_to_integer (o max_buffer_bytes : Z) : M Z :=
  t ← type_of o;
  match t with
  | OBJECT_INTEGER => integer_at o
  | OBJECT_BUFFER =>
      p ← buffer_at o;
      b ← buffer_of p;
      l ← first_bytes (Z.min max_buffer_bytes (snd b)) (fst b);
      mret (le_value (take 8 l))
  | OBJECT_STRING =>
      p ← buffer_at o;
      b ← buffer_of p;
      l ← first_bytes (snd b) (fst b);
      mret (snd (uacpi_string_to_integer l UACPI_BASE_AUTO))
  | _ => mret 0
  end.

(** [uacpi_snprintf] into a local array of [n] bytes, which it fills up to the
    terminator. *)
Definition print (n : nat) (fmt : string) (v : va) : M (Z * list Z) := on_store (of_opt (uacpi_snprintf (replicate n 0) (str fmt) [v])).

Definition integer_to_string (v p : Z) (is_hex : bool) : M uacpi_status :=
  r ← print 21 (if is_hex then "%llX" else "%llu") (VaLong v);
  let '(repr_len, int_buf) := (r : Z * list Z) in
  if repr_len <? 0 then mret UACPI_STATUS_INVALID_ARGUMENT else
  let prefix := if is_hex then str "0x" else [] in
  let final_size := Z.of_nat (length prefix) + repr_len + 1 in
  d ← alloc_data p final_size;
  match d with
  | None => mret UACPI_STATUS_OUT_OF_MEMORY
  | Some d =>
      d ← overwrite d 0 prefix;
      repr ← first_bytes (repr_len + 1) (Some int_buf);
      d ← overwrite d (length prefix) repr;
      set_buffer p (Some d) final_size;;
      mret UACPI_STATUS_OK
  end.

(** How many characters a byte has in decimal. *)
Definition decimal_width (value : Z) : Z := if value <? 10 then 1 else if value <? 100 then 2 else 3.

Definition string_size (l : list Z) (is_hex : bool) : Z :=
  let size := Z.of_nat (length l) in
  let digits := if is_hex then u64 (4 * size) else fold_left (fun n v => n +64 decimal_width v) l 0 in
  u64 (digits +64 u64 (size - 1)) +64 1.

(** [for (i = 0; i < buf->size; ++i)]; [None] when a number cannot be printed. *)
Fixpoint print_bytes (l : list Z) (is_hex : bool) (d : list Z) (cursor : nat) : M (option (list Z)) :=
  match l with
  | [] => mret (Some d)
  | v :: l' =>
      r ← print 5 (if is_hex then "0x%02X" else "%d") (VaInt v);
      let '(repr_len, int_buf) := (r : Z * list Z) in
      if repr_len <? 0 then mret None else
      repr ← first_bytes (repr_len + 1) (Some int_buf);
      d ← overwrite d cursor repr;
      let cursor := (cursor + Z.to_nat repr_len)%nat in
      if bool_decide (l' = []) then print_bytes l' is_hex d cursor else
      d ← overwrite d cursor [ch ","];
      print_bytes l' is_hex d (S cursor)
  end.

(** What [str] holds afterwards: its data and, on success, its size. *)
Definition bytes_to_string (l : list Z) (is_hex : bool) : M (uacpi_status * option (list Z) * Z) :=
  let final_size := string_size l is_hex in
  d ← kernel_alloc_bytes final_size;
  match d with
  | None => mret (UACPI_STATUS_OUT_OF_MEMORY, None, 0)
  | Some d =>
      r ← print_bytes l is_hex d 0;
      mret (match r with
            | None => (UACPI_STATUS_INVALID_ARGUMENT, None, 0)
            | Some d => (UACPI_STATUS_OK, Some d, final_size)
            end)
  end.

Definition buffer_to_string (l : list Z) (p : Z) (is_hex : bool) : M uacpi_status :=
  r ← bytes_to_string l is_hex;
  let '(ret, d, n) := (r : uacpi_status * option (list Z) * Z) in
  b ← buffer_of p;
  set_buffer p d (if is_ok ret then n else snd b);;
  mret ret.

Definition do_make_empty_object (p : Z) (is_string : bool) : M uacpi_status :=
  d ← kernel_alloc_bytes 1;
  b ← buffer_of p;
  match d with
  | None => set_buffer p None (snd b);; mret UACPI_STATUS_OUT_OF_MEMORY
  | Some _ => set_buffer p (Some [0]) (if is_string then 1 else snd b);; mret UACPI_STATUS_OK
  end.

Definition make_null_string (p : Z) : M uacpi_status := do_make_empty_object p true.
Definition make_null_buffer (p : Z) : M uacpi_status := do_make_empty_object p false.

(** The bytes in a new array of their own. *)
Definition assign_bytes (p : Z) (l : list Z) : M uacpi_status :=
  d ← kernel_alloc_bytes (Z.of_nat (length l));
  match d with
  | None => mret UACPI_STATUS_OUT_OF_MEMORY
  | Some d => d ← overwrite d 0 l; set_buffer p (Some d) (Z.of_nat (length l));; mret UACPI_STATUS_OK
  end.

Definition to_buffer (src dst : Z) : M uacpi_status :=
  view ← get_object_storage src true;
  let '(ret, l) := (view : uacpi_status * list Z) in
  if negb (is_ok ret) then mret ret else
  p ← buffer_at dst;
  if bool_decide (l = []) then make_null_buffer p else assign_bytes p l.

Definition to_text (src dst : Z) (is_hex : bool) : M uacpi_status :=
  t ← type_of src;
  match t with
  | OBJECT_INTEGER => v ← integer_at src; p ← buffer_at dst; integer_to_string v p is_hex
  | OBJECT_BUFFER =>
      q ← buffer_at src;
      b ← buffer_of q;
      p ← buffer_at dst;
      if snd b =? 0 then make_null_string p else
      l ← first_bytes (snd b) (fst b);
      buffer_to_string l p is_hex
  | _ => to_buffer src dst
  end.

Definition handle_to (op : uacpi_aml_op) : M uacpi_status :=
  src ← item_obj 0;
  dst ← item_obj 2;
  match op with
  | ToIntegerOp => v ← object_to_integer src 8; set_integer dst v;; mret UACPI_STATUS_OK
  | ToHexStringOp => to_text src dst true
  | ToDecimalStringOp => to_text src dst false
  | ToBufferOp => to_buffer src dst
  | _ => mret UACPI_STATUS_INVALID_ARGUMENT
  end.

(** [uacpi_strnlen] *)
Fixpoint text_length (l : list Z) : nat := match l with [] => O | c :: l' => if c =? 0 then O else S (text_length l') end.

Definition handle_to_string : M uacpi_status :=
  o0 ← item_obj 0;
  q ← buffer_at o0;
  src ← buffer_of q;
  o1 ← item_obj 1;
  req_len ← integer_at o1;
  o3 ← item_obj 3;
  p ← buffer_at o3;
  let len := Z.min req_len (snd src) in
  if len =? 0 then make_null_string p else
  l ← first_bytes len (fst src);
  let text := take (text_length l) l in
  d ← alloc_data p (Z.of_nat (length text) +64 1);
  match d with
  | None => mret UACPI_STATUS_OUT_OF_MEMORY
  | Some d =>
      d ← overwrite d 0 (text ++ [0]);
      set_buffer p (Some d) (Z.of_nat (length text) + 1);;
      mret UACPI_STATUS_OK
  end.

(** ** Strings and buffers *)

Definition is_string_type (t : uacpi_object_type) : bool := match t with OBJECT_STRING => true | _ => false end.
Definition is_bytes_type (t : uacpi_object_type) : bool := match t with OBJECT_STRING | OBJECT_BUFFER => true | _ => false end.

Definition handle_mid : M uacpi_status :=
  src ← item_obj 0;
  t ← type_of src;
  if negb (is_bytes_type t) then mret UACPI_STATUS_AML_INCOMPATIBLE_OBJECT_TYPE else
  o1 ← item_obj 1;
  idx ← integer_at o1;
  o2 ← item_obj 2;
  len ← integer_at o2;
  dst ← item_obj 4;
  p ← buffer_at dst;
  let is_string := is_string_type t in
  view ← get_object_storage src false;
  let l := snd (view : uacpi_status * list Z) in
  let n := Z.of_nat (length l) in
  if (n =? 0) || (n <=? idx) || (len =? 0) then
    if is_string then set_obj_type dst OBJECT_STRING;; make_null_string p else make_null_buffer p
  else
  let part := take (Z.to_nat (Z.min len (n - idx))) (drop (Z.to_nat idx) l) in
  let bytes := part ++ (if is_string then [0] else []) in
  d ← alloc_data p (Z.of_nat (length bytes));
  match d with
  | None => mret UACPI_STATUS_OUT_OF_MEMORY
  | Some d =>
      d ← overwrite d 0 bytes;
      set_buffer p (Some d) (Z.of_nat (length bytes));;
      (if is_string then set_obj_type dst OBJECT_STRING else mret tt);;
      mret UACPI_STATUS_OK
  end.

Definition joined_size (l1 l2 : list Z) : Z := Z.of_nat (length l1) +64 Z.of_nat (length l2).

(** A new array for [l1] and [l2], with both in it. *)
Definition joined (l1 l2 : list Z) : M (option (list Z)) :=
  d ← kernel_alloc_bytes (joined_size l1 l2);
  match d with
  | None => mret None
  | Some d => d ← overwrite d 0 l1; d ← overwrite d (length l1) l2; mret (Some d)
  end.

(** [arg1_ptr] and [arg1_size] for a string, or a status. *)
Definition second_as_text (arg1 : Z) : M (uacpi_status * list Z) :=
  t ← type_of arg1;
  match t with
  | OBJECT_INTEGER =>
      v ← integer_at arg1;
      r ← print 17 "%llx" (VaLong v);
      let '(size, int_buf) := (r : Z * list Z) in
      if size <? 0 then mret (UACPI_STATUS_INVALID_ARGUMENT, []) else
      l ← first_bytes (size + 1) (Some int_buf);
      mret (UACPI_STATUS_OK, l)
  | OBJECT_STRING =>
      p ← buffer_at arg1;
      b ← buffer_of p;
      l ← first_bytes (snd b) (fst b);
      mret (UACPI_STATUS_OK, l)
  | OBJECT_BUFFER =>
      p ← buffer_at arg1;
      b ← buffer_of p;
      l ← first_bytes (snd b) (fst b);
      r ← bytes_to_string l true;
      let '(ret, d, n) := (r : uacpi_status * option (list Z) * Z) in
      if negb (is_ok ret) then mret (ret, []) else
      l ← first_bytes n d;
      mret (UACPI_STATUS_OK, l)
  | _ => mret (UACPI_STATUS_INVALID_ARGUMENT, [])
  end.

(** [dst->buffer] gets the array [d] of [n] bytes. *)
Definition take_array (dst : Z) (d : option (list Z)) (n : Z) : M uacpi_status :=
  match d with
  | None => mret UACPI_STATUS_OUT_OF_MEMORY
  | Some d => p ← buffer_at dst; set_buffer p (Some d) n;; mret UACPI_STATUS_OK
  end.

Definition handle_concatenate : M uacpi_status :=
  arg0 ← item_obj 0;
  arg1 ← item_obj 1;
  dst ← item_obj 3;
  t ← type_of arg0;
  match t with
  | OBJECT_INTEGER =>
      int_size ← sizeof_int;
      d ← kernel_alloc_bytes (int_size * 2);
      match d with
      | None => mret UACPI_STATUS_OUT_OF_MEMORY
      | Some d =>
          arg1_as_int ← object_to_integer arg1 8;
          v ← integer_at arg0;
          d ← overwrite d 0 (le_bytes (Z.to_nat int_size) v);
          d ← overwrite d (Z.to_nat int_size) (le_bytes (Z.to_nat int_size) arg1_as_int);
          take_array dst (Some d) (int_size * 2)
      end
  | OBJECT_BUFFER =>
      p ← buffer_at arg0;
      b ← buffer_of p;
      view ← get_object_storage arg1 true;
      l ← first_bytes (snd b) (fst b);
      d ← joined l (snd view);
      take_array dst d (joined_size l (snd view))
  | OBJECT_STRING =>
      p ← buffer_at arg0;
      b ← buffer_of p;
      r ← second_as_text arg1;
      let '(ret, l1) := (r : uacpi_status * list Z) in
      if negb (is_ok ret) then mret ret else
      l ← first_bytes (if snd b =? 0 then 0 else snd b - 1) (fst b);
      d ← joined l l1;
      (match d with Some _ => set_obj_type dst OBJECT_STRING | None => mret tt end);;
      take_array dst d (joined_size l l1)
  | _ => mret UACPI_STATUS_INVALID_ARGUMENT
  end.

(** The bytes at an address of their own. *)
Definition END_TAG_SCRATCH : Z := 0x1000.
Definition memory_of (l : list Z) : bytes := list_to_map (imap (fun i b => (END_TAG_SCRATCH + Z.of_nat i, b)) l).

Definition find_end_tag (l : list Z) : M (uacpi_status * Z) :=
  r ← on_store (of_opt (uacpi_find_aml_resource_end_tag END_TAG_SCRATCH (Z.of_nat (length l)) (memory_of l, tt)));
  mret (fst r).

Definition ACPI_RESOURCE_END_TAG : Z := 0x0f.
Definition END_TAG : list Z := [Z.lor (Z.shiftl ACPI_RESOURCE_END_TAG ACPI_SMALL_ITEM_NAME_IDX) 1; 0].

Definition handle_concatenate_res : M uacpi_status :=
  arg0 ← item_obj 0;
  arg1 ← item_obj 1;
  dst ← item_obj 3;
  p0 ← buffer_at arg0;
  b0 ← buffer_of p0;
  l0 ← first_bytes (snd b0) (fst b0);
  r0 ← find_end_tag l0;
  if negb (is_ok (fst r0)) then mret (fst r0) else
  p1 ← buffer_at arg1;
  b1 ← buffer_of p1;
  l1 ← first_bytes (snd b1) (fst b1);
  r1 ← find_end_tag l1;
  if negb (is_ok (fst r1)) then mret (fst r1) else
  let dst_size := u64 (snd r0 +64 snd r1) +64 2 in
  d ← kernel_alloc_bytes dst_size;
  match d with
  | None => mret UACPI_STATUS_OUT_OF_MEMORY
  | Some d =>
      l0 ← first_bytes (snd r0) (fst b0);
      l1 ← first_bytes (snd r1) (fst b1);
      d ← overwrite d 0 l0;
      d ← overwrite d (length l0) l1;
      d ← overwrite d (Z.to_nat (dst_size - 2)) END_TAG;
      take_array dst (Some d) dst_size
  end.

(** ** Sizes, types and time *)

Definition referenced (src : Z) : M Z :=
  x ← the_object src; if Objects.is_reference x then innermost src else mret src.

Definition handle_sizeof : M uacpi_status :=
  src ← item_obj 0;
  dst ← item_obj 1;
  src ← referenced src;
  t ← type_of src;
  match t with
  | OBJECT_STRING | OBJECT_BUFFER =>
      view ← get_object_storage src false;
      set_integer dst (Z.of_nat (length (snd view)));; mret UACPI_STATUS_OK
  | OBJECT_PACKAGE =>
      p ← on_store (get_pointer src);
      l ← on_store (get_package p);
      set_integer dst (Z.of_nat (length l));; mret UACPI_STATUS_OK
  | _ => mret UACPI_STATUS_AML_INCOMPATIBLE_OBJECT_TYPE
  end.

Definition handle_object_type : M uacpi_status :=
  src ← item_obj 0;
  dst ← item_obj 1;
  src ← referenced src;
  t ← type_of src;
  set_integer dst (type_value (match t with OBJECT_BUFFER_INDEX => OBJECT_BUFFER_FIELD | _ => t end));;
  mret UACPI_STATUS_OK.

Definition handle_timer : M uacpi_status :=
  dst ← item_obj 0;
  t ← on_store (host nanoseconds_since_boot);
  set_integer dst (t / 100);;
  mret UACPI_STATUS_OK.

Definition handle_stall_or_sleep (op : uacpi_aml_op) : M uacpi_status :=
  o ← item_obj 0;
  time ← integer_at o;
  if decide (op = SleepOp) then
    on_store uacpi_namespace_write_unlock;;
    on_store (host (kernel_sleep (if 2000 <? time then 2000 else time)));;
    on_store uacpi_namespace_write_lock;;
    mret UACPI_STATUS_OK
  else
    on_store (host (kernel_stall (if 0xff <? time then 0xff else time)));;
    mret UACPI_STATUS_OK.

(** [do ... while (i)], [n] rounds before [i] is 0. *)
Fixpoint from_bcd (n : nat) (src dst : Z) : Z :=
  match n with
  | O => dst
  | S n' => from_bcd n' src (u64 (u64 (dst * 10) + Z.land (Z.shiftr src (4 * Z.of_nat n')) 15))
  end.

(** [while (src != 0)]; a 64-bit number has at most 20 digits. *)
Fixpoint to_bcd (fuel : nat) (src dst i : Z) : option Z :=
  if src =? 0 then Some (Z.shiftr dst (i mod 64)) else
  match fuel with
  | O => None
  | S fuel' => to_bcd fuel' (src / 10) (Z.lor (Z.shiftr dst 4) (u64 (Z.shiftl (src mod 10) 60))) (u64 (i - 4))
  end.

Definition handle_bcd (op : uacpi_aml_op) : M uacpi_status :=
  o ← item_obj 0;
  src ← integer_at o;
  dst_obj ← item_obj 2;
  dst ← (if decide (op = FromBCDOp) then mret (from_bcd 16 src 0) else on_store (of_opt (to_bcd 20 src 0 64)));
  set_integer dst_obj dst;;
  mret UACPI_STATUS_OK.

(** ** Logic *)

Definition handle_logical_not : M uacpi_status :=
  src ← item_obj 0;
  dst ← item_obj 1;
  v ← integer_at src;
  all ← ones;
  set_obj_type dst OBJECT_INTEGER;;
  set_integer dst (if v =? 0 then all else 0);;
  mret UACPI_STATUS_OK.

(** [uacpi_memcmp]: the difference of the first bytes that differ. *)
Fixpoint compare_bytes (l1 l2 : list Z) : Z :=
  match l1, l2 with
  | a :: l1', b :: l2' => if a =? b then compare_bytes l1' l2' else a - b
  | _, _ => 0
  end.

(** [lhs->buffer] and [rhs->buffer]; [n] bytes of both are compared. *)
Definition both_buffers (lhs rhs : Z) : M ((option (list Z) * Z) * (option (list Z) * Z)) :=
  p ← buffer_at lhs; b ← buffer_of p; q ← buffer_at rhs; c ← buffer_of q; mret (b, c).

Definition handle_logical_equality (lhs rhs : Z) : M bool :=
  t ← type_of lhs;
  if is_bytes_type t then
    bc ← both_buffers lhs rhs;
    let '((d1, n1), (d2, n2)) := (bc : (option (list Z) * Z) * (option (list Z) * Z)) in
    if negb (n1 =? n2) || (n1 =? 0) then mret (n1 =? n2) else
    l1 ← first_bytes n1 d1;
    l2 ← first_bytes n1 d2;
    mret (compare_bytes l1 l2 =? 0)
  else
    match t with
    | OBJECT_INTEGER => v1 ← integer_at lhs; v2 ← integer_at rhs; mret (v1 =? v2)
    | _ => mret false
    end.

Definition handle_logical_less_or_greater (op : uacpi_aml_op) (lhs rhs : Z) : M bool :=
  t ← type_of lhs;
  if is_bytes_type t then
    bc ← both_buffers lhs rhs;
    let '((d1, n1), (d2, n2)) := (bc : (option (list Z) * Z) * (option (list Z) * Z)) in
    l1 ← first_bytes (Z.min n1 n2) d1;
    l2 ← first_bytes (Z.min n1 n2) d2;
    let res := compare_bytes l1 l2 in
    let res := if res =? 0 then (if n1 <? n2 then -1 else if n2 <? n1 then 1 else 0) else res in
    mret (if decide (op = LLessOp) then res <? 0 else 0 <? res)
  else
    v1 ← integer_at lhs;
    v2 ← integer_at rhs;
    mret (if decide (op = LLessOp) then v1 <? v2 else v2 <? v1).

Definition handle_binary_logic (op : uacpi_aml_op) : M uacpi_status :=
  lhs ← item_obj 0;
  rhs ← item_obj 1;
  dst ← item_obj 2;
  all ← ones;
  t1 ← type_of lhs;
  t2 ← type_of rhs;
  match op with
  | LEqualOp | LLessOp | LGreaterOp =>
      if negb (bool_decide (t1 = t2)) then mret UACPI_STATUS_AML_INCOMPATIBLE_OBJECT_TYPE else
      res ← (if decide (op = LEqualOp) then handle_logical_equality lhs rhs else handle_logical_less_or_greater op lhs rhs);
      set_integer dst (if (res : bool) then all else 0);;
      mret UACPI_STATUS_OK
  | _ =>
      lhs_int ← object_to_integer lhs 4;
      rhs_int ← object_to_integer rhs 4;
      let res := if decide (op = LandOp) then negb (lhs_int =? 0) && negb (rhs_int =? 0) else negb (lhs_int =? 0) || negb (rhs_int =? 0) in
      set_integer dst (if res then all else 0);;
      mret UACPI_STATUS_OK
  end.

(** ** Match *)

Definition match_one (op : match_op) (lhs rhs : Z) : bool :=
  match op with
  | MTR => true | MEQ => lhs =? rhs | MLE => lhs <=? rhs | MLT => lhs <? rhs | MGE => rhs <=? lhs | MGT => rhs <? lhs
  | M_INVALID => false
  end.

(** [for (i = start_idx; i < pkg->count; ++i)] over the elements from [i] on. *)
Fixpoint find_match (l : list Z) (i : Z) (test : Z -> bool) : M (option Z) :=
  match l with
  | [] => mret None
  | obj :: l' =>
      x ← the_object obj;
      match o_type x with
      | OBJECT_INTEGER =>
          v ← integer_at obj;
          if test v then mret (Some i) else find_match l' (i + 1) test
      | _ => find_match l' (i + 1) test
      end
  end.

Definition handle_match : M uacpi_status :=
  o0 ← item_obj 0;
  pkg ← on_store (get_pointer o0);
  mop0 ← item_immediate 1;
  o2 ← item_obj 2;
  operand0 ← integer_at o2;
  mop1 ← item_immediate 3;
  o4 ← item_obj 4;
  operand1 ← integer_at o4;
  o5 ← item_obj 5;
  start_idx ← integer_at o5;
  dst ← item_obj 6;
  l ← on_store (get_package pkg);
  all ← ones;
  found ← (if start_idx <? Z.of_nat (length l)
           then find_match (drop (Z.to_nat start_idx) l) start_idx
                  (fun v => match_one (match_op_of mop0) v operand0 && match_one (match_op_of mop1) v operand1)
           else mret None);
  set_integer dst (default all found);;
  mret UACPI_STATUS_OK.
End Operators.
