(* ===== verification/AmlSpec.v ===== *)
(** * The operators of AML: what they compute

    Integers survive being written as text, BCD inverts, comparisons are the
    lexicographic order, Match finds the first element. *)

From Stdlib Require Import Ascii String.
From S2P Require Import Prelude CMem UStdlib UCore UText UFormat Shareable Namespace Objects ObjCount ObjFree ObjRefs ObjApi ResTables Resources AmlOps.

Open Scope list_scope.
Open Scope word_scope.

(** ** Numbers and text *)

Lemma digit_not_zero c d : in_w 8 c -> digit_value UACPI_BASE_DEC c = Some d -> d <> 0 -> to_lower c <> ch "0".
Proof.
  intros Hc Hd Hne E.
  assert (Hall : forallb (fun c => match digit_value UACPI_BASE_DEC c with
    | None => true | Some d => (d =? 0) || negb (to_lower c =? ch "0") end) (seqZ 0 256) = true) by (vm_compute; reflexivity).
  pose proof (forallb_range _ _ _ c Hall Hc) as H; cbv beta in H; rewrite Hd, E, Z.eqb_refl, orb_false_r, Z.eqb_eq in H; contradiction.
Qed.

(** A number in decimal is read back when the base is to be found out. *)
Lemma decimal_read_back s v : s <> [] -> in_w 64 v -> spells 10 s v -> v = 0 /\ s = [ch "0"] \/ unpadded 10 s ->
  snd (uacpi_string_to_integer (s ++ [0]) UACPI_BASE_AUTO) = v.
Proof.
  intros Hne Hv (Hs & ds & Hds & Ev) [[-> ->]|Hun]; [vm_compute; reflexivity|].
  destruct s as [|x s]; [congruence|]; inversion Hds as [|? d ? ds' Hd Hds']; subst.
  pose proof (proj1 (Forall_cons_1 _ _ _ Hs)) as Hx; change (base_enum 10) with UACPI_BASE_DEC in *.
  destruct (digit_value_range UACPI_BASE_DEC x d ltac:(discriminate) Hx Hd) as (_ & H1 & H2 & H3).
  assert (to_lower x <> ch "0") as H0 by (apply (digit_not_zero x d Hx Hd); intros ->; exact (Hun _ _ eq_refl Hd)).
  unfold uacpi_string_to_integer; cbn [skip_spaces app]; rewrite H1; unfold consume_if_equals, peek_one; cbn [head].
  rewrite (proj2 (Z.eqb_neq _ _) H2), (proj2 (Z.eqb_neq _ _) H3); cbn [default]; cbn [head].
  rewrite (proj2 (Z.eqb_neq _ _) H0).
  destruct (parse_digits_app UACPI_BASE_DEC (x :: s) [0] ltac:(discriminate) Hs (d :: ds') 0 0 ltac:(split; lia) Hds) as [c' E]; [destruct Hv; assumption|].
  cbn [app] in E; rewrite E; reflexivity.
Qed.

Lemma hex_read_back s v : s <> [] -> in_w 64 v -> spells 16 s v ->
  snd (uacpi_string_to_integer (str "0x" ++ s ++ [0]) UACPI_BASE_AUTO) = v.
Proof.
  intros Hne Hv (Hs & ds & Hds & Ev).
  destruct (parse_digits_app UACPI_BASE_HEX s [0] ltac:(discriminate) Hs ds 0 0 ltac:(split; lia) Hds) as [c' E]; [change (base_value UACPI_BASE_HEX) with 16; rewrite Ev; destruct Hv; assumption|].
  change (snd (uacpi_string_to_integer (str "0x" ++ s ++ [0]) UACPI_BASE_AUTO)) with
    (snd (let '(value, rest, c) := parse_digits UACPI_BASE_HEX (s ++ [0]) 0 0 in (if (Z.of_nat (length rest) =? 0) || (c =? 0) then UACPI_STATUS_OK else UACPI_STATUS_INVALID_ARGUMENT, value))).
  rewrite E; exact Ev.
Qed.

Lemma terminated_short n s : (length s < n)%nat -> terminated (replicate n 0) s = s ++ [0] ++ replicate (n - S (length s)) 0.
Proof.
  intros H; unfold terminated; rewrite length_replicate; destruct (Nat.eqb_spec n 0); [lia|].
  rewrite Nat.min_l, take_ge, drop_replicate by lia; reflexivity.
Qed.

(** ** Runs *)

Section Runs.
Context {V : Type} {OH : ObjectHost V} {NL : NamespaceLock (ost V)} {AH : AmlHost V}.

(** The kernel gives arrays of the size asked for, or none. *)
Class ArrayLaws := {
  ar_total n w : exists r w', alloc_bytes n w = Some (r, w');
  ar_size n w l w' : alloc_bytes n w = Some (Some l, w') -> length l = Z.to_nat n;
  ar_rev1 n w r w' : alloc_bytes n w = Some (r, w') -> rev1 w' = rev1 w }.
Context {AR : ArrayLaws}.

Definition cells_in (s : aml V) : heap := cells (store s).
Definition with_cells (cs : heap) (s : aml V) : aml V := {| items := items s; store := set_cells cs (store s) |}.

Lemma on_store_run {A} (c : SM (ost V) A) s a w : c (store s) = Some (a, w) -> on_store c s = Some (a, {| items := items s; store := w |}).
Proof. intros E; unfold on_store; rewrite E; reflexivity. Qed.

Lemma on_store_read {A} (c : SM (ost V) A) s a : c (store s) = Some (a, store s) -> on_store c s = Some (a, s).
Proof. intros E; rewrite (on_store_run _ _ _ _ E); destruct s; reflexivity. Qed.

Lemma the_object_run s o n x : cells_in s !! o = Some (n, C_OBJECT x) -> the_object o s = Some (x, s).
Proof. intros E; apply on_store_read, (get_object_run _ _ _ _ E). Qed.

Lemma type_of_run s o n x : cells_in s !! o = Some (n, C_OBJECT x) -> type_of o s = Some (o_type x, s).
Proof. intros E; unfold type_of; rewrite (SM_bind_Some _ _ _ _ _ (the_object_run _ _ _ _ E)); reflexivity. Qed.

Lemma integer_at_run s o n x v : cells_in s !! o = Some (n, C_OBJECT x) -> o_data x = D_INTEGER v -> integer_at o s = Some (v, s).
Proof.
  intros E Ev; unfold integer_at; rewrite (SM_bind_Some _ _ _ _ _ (the_object_run _ _ _ _ E)), Ev; apply on_store_read; reflexivity.
Qed.

Lemma set_integer_run s o n x v : cells_in s !! o = Some (n, C_OBJECT x) ->
  set_integer o v s = Some (tt, with_cells (<[o := (n, C_OBJECT {| o_type := o_type x; o_flags := o_flags x; o_data := D_INTEGER v |})]> (cells_in s)) s).
Proof. intros E; apply on_store_run, (set_data_run _ _ _ _ _ E). Qed.

Lemma buffer_at_run s o n x p : cells_in s !! o = Some (n, C_OBJECT x) -> pointer_of (o_data x) = Some p -> buffer_at o s = Some (p, s).
Proof.
  intros E Ep; apply on_store_read; unfold get_pointer; rewrite (SM_bind_Some _ _ _ _ _ (get_object_run _ _ _ _ E)), Ep; reflexivity.
Qed.

Lemma buffer_of_run s p n d k : cells_in s !! p = Some (n, C_BUFFER d k) -> buffer_of p s = Some ((d, k), s).
Proof. intros E; apply on_store_read; unfold get_buffer; rewrite (SM_bind_Some _ _ _ _ _ (get_cell_run _ _ _ E)); reflexivity. Qed.

Lemma set_buffer_run s p n d k d' k' : cells_in s !! p = Some (n, C_BUFFER d k) ->
  set_buffer p d' k' s = Some (tt, with_cells (<[p := (n, C_BUFFER d' k')]> (cells_in s)) s).
Proof. intros E; apply on_store_run, (write_run _ _ _ _ _ E). Qed.

Lemma first_bytes_run (s : aml V) n l : 0 <= n -> (Z.to_nat n <= length l)%nat -> first_bytes n (Some l) s = Some (take (Z.to_nat n) l, s).
Proof. intros H0 H; unfold first_bytes; change (default [] (Some l)) with l; cbv zeta; destruct (Z.leb_spec n (Z.of_nat (length l))); [reflexivity|lia]. Qed.

Lemma overwrite_run (s : aml V) d k b : (k + length b <= length d)%nat -> overwrite d k b s = Some (take k d ++ b ++ drop (k + length b) d, s).
Proof. intros H; unfold overwrite; rewrite (proj2 (Nat.leb_le _ _) H); reflexivity. Qed.

Lemma kernel_alloc_run n (s : aml V) : exists r s', kernel_alloc_bytes n s = Some (r, s') /\ items s' = items s /\ cells_in s' = cells_in s /\
  (forall l, r = Some l -> length l = Z.to_nat n) /\ rev1 (oworld (store s')) = rev1 (oworld (store s)).
Proof.
  destruct (ar_total n (oworld (store s))) as (r & w & E); exists r, {| items := items s; store := set_oworld w (store s) |}; split_and!; try reflexivity.
  - apply on_store_run; unfold host; rewrite E; reflexivity.
  - intros l ->; exact (ar_size _ _ _ _ E).
  - exact (ar_rev1 _ _ _ _ E).
Qed.

Lemma alloc_data_run p n s k d0 n0 : cells_in s !! p = Some (k, C_BUFFER d0 n0) ->
  exists r s', alloc_data p n s = Some (r, s') /\ items s' = items s /\ cells_in s' = <[p := (k, C_BUFFER r n0)]> (cells_in s) /\
  (forall l, r = Some l -> length l = Z.to_nat n) /\ rev1 (oworld (store s')) = rev1 (oworld (store s)).
Proof.
  intros E; destruct (kernel_alloc_run n s) as (r & s1 & E1 & I1 & C1 & L1 & R1); unfold alloc_data.
  rewrite (SM_bind_Some _ _ _ _ _ E1); rewrite <- C1 in E; rewrite (SM_bind_Some _ _ _ _ _ (buffer_of_run _ _ _ _ _ E)).
  rewrite (SM_bind_Some _ _ _ _ _ (set_buffer_run _ _ _ _ _ _ _ E)); eexists _, _; split_and!; [reflexivity|exact I1| |exact L1|exact R1].
  rewrite <- C1; reflexivity.
Qed.

(** Filling a new array from its start. *)
Lemma fill_run (s : aml V) d l : length d = length l -> overwrite d 0 l s = Some (l, s).
Proof. intros E; rewrite overwrite_run by lia; rewrite take_0, drop_ge, app_nil_r by lia; reflexivity. Qed.

Lemma fill_prefix_run (s : aml V) d l1 l2 : length d = (length l1 + length l2)%nat ->
  overwrite d 0 l1 s = Some (l1 ++ drop (length l1) d, s) /\ overwrite (l1 ++ drop (length l1) d) (length l1) l2 s = Some (l1 ++ l2, s).
Proof.
  intros E; split; [rewrite overwrite_run by lia; reflexivity|].
  rewrite overwrite_run by (rewrite length_app, length_drop; lia).
  rewrite take_app_length, drop_app_ge, drop_drop, (drop_ge d), app_nil_r by lia; reflexivity.
Qed.

(** *** Integers as text *)

Definition number_prefix (is_hex : bool) : list Z := if is_hex then str "0x" else [].
Definition number_base (is_hex : bool) : Z := if is_hex then 16 else 10.

Lemma print_number (s : aml V) v (is_hex : bool) : in_w 64 v -> exists t, print 21 (if is_hex then "%llX"%string else "%llu"%string) (VaLong v) s = Some ((Z.of_nat (length t), t ++ [0] ++ replicate (20 - length t) 0), s) /\
  t <> [] /\ (length t <= 20)%nat /\ (v = 0 /\ t = [ch "0"] \/ unpadded (number_base is_hex) t) /\ spells (number_base is_hex) t v.
Proof.
  intros Hv; set (c := if is_hex then ch "X" else ch "u").
  destruct (print_u64_digits c v 20) as (t & H1 & H2 & H3 & H4 & E); [destruct is_hex; vm_compute; tauto|exact Hv|lia| |].
  { destruct Hv as [_ Hv]; eapply Z.lt_le_trans; [exact Hv|]; destruct is_hex; vm_compute; discriminate. }
  assert (base_from_specifier c = number_base is_hex) as Eb by (destruct is_hex; reflexivity); rewrite Eb in *.
  exists t; split_and!; try assumption; unfold print; apply on_store_read; unfold uacpi_snprintf.
  replace (str (if is_hex then "%llX"%string else "%llu"%string)) with (str "%ll" ++ [c]) by (destruct is_hex; reflexivity).
  rewrite E, terminated_short by lia; reflexivity.
Qed.

Lemma integer_to_string_run s v p k d0 n0 (is_hex : bool) : in_w 64 v -> cells_in s !! p = Some (k, C_BUFFER d0 n0) ->
  exists ret s', integer_to_string v p is_hex s = Some (ret, s') /\ items s' = items s /\
    ((ret = UACPI_STATUS_OUT_OF_MEMORY /\ cells_in s' = <[p := (k, C_BUFFER None n0)]> (cells_in s)) \/
     (ret = UACPI_STATUS_OK /\ exists t, cells_in s' = <[p := (k, C_BUFFER (Some (number_prefix is_hex ++ t ++ [0])) (Z.of_nat (length (number_prefix is_hex ++ t ++ [0]))))]> (cells_in s) /\
        t <> [] /\ (v = 0 /\ t = [ch "0"] \/ unpadded (number_base is_hex) t) /\ spells (number_base is_hex) t v)).
Proof.
  intros Hv E; destruct (print_number s v is_hex Hv) as (t & Ep & Hne & Hl & Hz & Hsp); unfold integer_to_string.
  rewrite (SM_bind_Some _ _ _ _ _ Ep); destruct (Z.ltb_spec (Z.of_nat (length t)) 0); [lia|]; fold (number_prefix is_hex).
  set (size := Z.of_nat (length (number_prefix is_hex)) + Z.of_nat (length t) + 1).
  destruct (alloc_data_run p size s k d0 n0 E) as (r & s1 & E1 & I1 & C1 & L1 & _); rewrite (SM_bind_Some _ _ _ _ _ E1).
  destruct r as [d|]; [|eexists _, s1; split; [reflexivity|]; split; [exact I1|]; left; split; [reflexivity|exact C1]].
  specialize (L1 d eq_refl); destruct (fill_prefix_run s1 d (number_prefix is_hex) (t ++ [0])) as [F1 F2]; [rewrite length_app; cbn; lia|].
  rewrite (SM_bind_Some _ _ _ _ _ F1), (SM_bind_Some _ _ _ _ _ (first_bytes_run s1 (Z.of_nat (length t) + 1) (t ++ [0] ++ replicate (20 - length t) 0) ltac:(lia) ltac:(rewrite !length_app; cbn; lia))).
  replace (take (Z.to_nat (Z.of_nat (length t) + 1)) (t ++ [0] ++ replicate (20 - length t) 0)) with (t ++ [0])
    by (rewrite app_assoc, take_app_length' by (rewrite length_app; cbn; lia); reflexivity).
  rewrite (SM_bind_Some _ _ _ _ _ F2); assert (cells_in s1 !! p = Some (k, C_BUFFER (Some d) n0)) as E2 by (rewrite C1; apply lookup_insert_eq).
  rewrite (SM_bind_Some _ _ _ _ _ (set_buffer_run _ _ _ _ _ _ _ E2)); eexists _, _; split; [reflexivity|split; [exact I1|]]; right; split; [reflexivity|].
  exists t; split_and!; [|assumption..]; cbn; rewrite C1, insert_insert_eq; do 5 f_equal; unfold size; rewrite !length_app; cbn; lia.
Qed.

(** The item at [i] is the object [o]. *)
Definition operand (s : aml V) (i : nat) (o : Z) : Prop := exists x, items s !! i = Some x /\ i_data x = I_POINTER o.

Lemma item_obj_run s i o : operand s i o -> item_obj i s = Some (o, s).
Proof. intros (x & E & Ed); unfold item_obj, get_item; smunfold; rewrite E, Ed; reflexivity. Qed.

Lemma operand_items s s' i o : items s' = items s -> operand s i o -> operand s' i o.
Proof. intros E (x & H); exists x; rewrite E; exact H. Qed.

(** The object [o] is the integer [v], or a string or a buffer at [p]. *)
Definition is_integer (cs : heap) (o v : Z) : Prop := exists n x, cs !! o = Some (n, C_OBJECT x) /\ o_type x = OBJECT_INTEGER /\ o_data x = D_INTEGER v.
Definition has_bytes (cs : heap) (t : uacpi_object_type) (o p : Z) (d : option (list Z)) (k : Z) : Prop :=
  (exists n x, cs !! o = Some (n, C_OBJECT x) /\ o_type x = t /\ pointer_of (o_data x) = Some p) /\ exists m, cs !! p = Some (m, C_BUFFER d k).

Lemma integer_run s o v : is_integer (cells_in s) o v -> integer_at o s = Some (v, s) /\ type_of o s = Some (OBJECT_INTEGER, s).
Proof. intros (n & x & E & Ht & Hd); rewrite (integer_at_run _ _ _ _ _ E Hd), (type_of_run _ _ _ _ E), Ht; auto. Qed.

Lemma bytes_run s t o p d k : has_bytes (cells_in s) t o p d k ->
  type_of o s = Some (t, s) /\ buffer_at o s = Some (p, s) /\ buffer_of p s = Some ((d, k), s).
Proof.
  intros [(n & x & E & Ht & Hp) (m & Ep)]; rewrite (type_of_run _ _ _ _ E), (buffer_at_run _ _ _ _ _ E Hp), (buffer_of_run _ _ _ _ _ Ep), Ht; auto.
Qed.

(** Writing to an integer object. *)
Lemma store_integer_run s o v v' : is_integer (cells_in s) o v -> exists cs', set_integer o v' s = Some (tt, with_cells cs' s) /\
  is_integer cs' o v' /\ (forall a, a <> o -> cs' !! a = cells_in s !! a).
Proof.
  intros (n & x & E & Ht & Hd); eexists; split; [apply (set_integer_run _ _ _ _ _ E)|]; split.
  - eexists _, _; split; [apply lookup_insert_eq|split; [exact Ht|reflexivity]].
  - intros a Ha; apply lookup_insert_ne; congruence.
Qed.

Definition text_op (op : uacpi_aml_op) : Prop := op = ToHexStringOp \/ op = ToDecimalStringOp.

Lemma to_text_run op s src v dst p d0 n0 : text_op op -> operand s 0 src -> operand s 2 dst -> is_integer (cells_in s) src v -> in_w 64 v ->
  has_bytes (cells_in s) OBJECT_STRING dst p d0 n0 ->
  exists ret s', handle_to op s = Some (ret, s') /\ items s' = items s /\ (ret = UACPI_STATUS_OUT_OF_MEMORY \/
    ret = UACPI_STATUS_OK /\ exists l k, cells_in s' = <[p := (k, C_BUFFER (Some l) (Z.of_nat (length l)))]> (cells_in s) /\
      snd (uacpi_string_to_integer l UACPI_BASE_AUTO) = v).
Proof.
  intros Hop O0 O2 Hi Hv [Hd (k & Ep)]; destruct (integer_run _ _ _ Hi) as [Hint Hty].
  assert (handle_to op s = integer_to_string v p (bool_decide (op = ToHexStringOp)) s) as ->.
  { unfold handle_to; rewrite (SM_bind_Some _ _ _ _ _ (item_obj_run _ _ _ O0)), (SM_bind_Some _ _ _ _ _ (item_obj_run _ _ _ O2)).
    destruct Hd as (nd & xd & Ed & _ & Hpd).
    destruct Hop as [-> | ->]; cbn [bool_decide]; unfold to_text;
      rewrite (SM_bind_Some _ _ _ _ _ Hty), (SM_bind_Some _ _ _ _ _ Hint), (SM_bind_Some _ _ _ _ _ (buffer_at_run _ _ _ _ _ Ed Hpd)); reflexivity. }
  destruct (integer_to_string_run s v p k d0 n0 (bool_decide (op = ToHexStringOp)) Hv Ep) as (ret & s' & E & I & H); exists ret, s'; split; [exact E|split; [exact I|]].
  destruct H as [[-> _]|(-> & t & C & Hne & Hz & Hsp)]; [left; reflexivity|right; split; [reflexivity|]].
  eexists _, k; split; [exact C|]; destruct (bool_decide (op = ToHexStringOp)); cbn [number_prefix number_base] in *; [apply hex_read_back|apply decimal_read_back]; assumption.
Qed.

(** C38.  An integer that is written as a decimal or hexadecimal string and read back with
    ToInteger is the same integer, unless there is no memory for the string. *)
Theorem integer_text_roundtrip op s src v dst p d0 n0 : text_op op -> operand s 0 src -> operand s 2 dst -> is_integer (cells_in s) src v -> in_w 64 v ->
  has_bytes (cells_in s) OBJECT_STRING dst p d0 n0 ->
  exists ret s', handle_to op s = Some (ret, s') /\ (ret = UACPI_STATUS_OUT_OF_MEMORY \/
    ret = UACPI_STATUS_OK /\ forall its back v0, operand {| items := its; store := store s' |} 0 dst -> operand {| items := its; store := store s' |} 2 back ->
      is_integer (cells_in s') back v0 -> exists s2, handle_to ToIntegerOp {| items := its; store := store s' |} = Some (UACPI_STATUS_OK, s2) /\ is_integer (cells_in s2) back v).
Proof.
  intros Hop O0 O2 Hi Hv Hd; destruct (to_text_run op s src v dst p d0 n0 Hop O0 O2 Hi Hv Hd) as (ret & s' & E & _ & H); exists ret, s'; split; [exact E|].
  destruct H as [->|(-> & l & k & C & Hl)]; [left; reflexivity|right; split; [reflexivity|]]; intros its back v0 B0 B2 Hb; set (t := {| items := its; store := store s' |}) in *.
  destruct Hd as [(nd & xd & Ed & Htd & Hpd) (m & Ep)].
  assert (dst <> p) as Hne by congruence.
  assert (has_bytes (cells_in t) OBJECT_STRING dst p (Some l) (Z.of_nat (length l))) as Hb2.
  { change (cells_in t) with (cells_in s'); rewrite C; split; [exists nd, xd; rewrite lookup_insert_ne by congruence; auto|exists k; apply lookup_insert_eq]. }
  destruct (bytes_run _ _ _ _ _ _ Hb2) as (T1 & T2 & T3).
  assert (object_to_integer dst 8 t = Some (v, t)) as Eo.
  { unfold object_to_integer; rewrite (SM_bind_Some _ _ _ _ _ T1), (SM_bind_Some _ _ _ _ _ T2), (SM_bind_Some _ _ _ _ _ T3).
    rewrite (SM_bind_Some _ _ _ _ _ (first_bytes_run t (Z.of_nat (length l)) l ltac:(lia) ltac:(lia))), take_ge by lia; rewrite Hl; reflexivity. }
  destruct (store_integer_run t back v0 v Hb) as (cs' & Es & Hres & _); exists (with_cells cs' t); split; [|exact Hres].
  unfold handle_to; rewrite (SM_bind_Some _ _ _ _ _ (item_obj_run _ _ _ B0)), (SM_bind_Some _ _ _ _ _ (item_obj_run _ _ _ B2)), (SM_bind_Some _ _ _ _ _ Eo), (SM_bind_Some _ _ _ _ _ Es); reflexivity.
Qed.

(** *** Comparisons *)

(** The order on values: integers as numbers, bytes lexicographically. *)
Fixpoint lex (l1 l2 : list Z) : comparison :=
  match l1, l2 with
  | [], [] => Eq | [], _ => Lt | _, [] => Gt
  | a :: l1', b :: l2' => match (a ?= b)%Z with Eq => lex l1' l2' | c => c end
  end.

(** The objects hold integers, or both strings or both buffers, that compare like this. *)
Definition ordered (cs : heap) (lhs rhs : Z) (c : comparison) : Prop :=
  (exists v1 v2, is_integer cs lhs v1 /\ is_integer cs rhs v2 /\ c = (v1 ?= v2)%Z) \/
  (exists t p1 p2 l1 l2, is_bytes_type t = true /\ has_bytes cs t lhs p1 (Some l1) (Z.of_nat (length l1)) /\ has_bytes cs t rhs p2 (Some l2) (Z.of_nat (length l2)) /\ c = lex l1 l2).

Definition holds_for (op : uacpi_aml_op) (c : comparison) : bool :=
  match op, c with LEqualOp, Eq | LLessOp, Lt | LGreaterOp, Gt => true | _, _ => false end.
Definition comparing (op : uacpi_aml_op) : Prop := op = LEqualOp \/ op = LLessOp \/ op = LGreaterOp.

(** The sign of a difference, and of the sizes where the bytes agree. *)
Definition sign_of (res : Z) (n1 n2 : nat) : comparison := if res =? 0 then (n1 ?= n2)%nat else (res ?= 0)%Z.

Lemma compare_bytes_lex l1 : forall l2, let m := min (length l1) (length l2) in
  sign_of (compare_bytes (take m l1) (take m l2)) (length l1) (length l2) = lex l1 l2.
Proof.
  induction l1 as [|a l1 IH]; intros [|b l2]; cbn [length Nat.min take compare_bytes lex]; [reflexivity..|].
  destruct (Z.compare_spec a b) as [->|H|H].
  - rewrite Z.eqb_refl; cbn [take]; rewrite <- IH; reflexivity.
  - rewrite (proj2 (Z.eqb_neq a b)) by lia; unfold sign_of; rewrite (proj2 (Z.eqb_neq (a - b) 0)) by lia; apply Z.compare_lt_iff; lia.
  - rewrite (proj2 (Z.eqb_neq a b)) by lia; unfold sign_of; rewrite (proj2 (Z.eqb_neq (a - b) 0)) by lia; apply Z.compare_gt_iff; lia.
Qed.

Lemma lex_length l1 l2 : lex l1 l2 = Eq -> length l1 = length l2.
Proof.
  revert l2; induction l1 as [|a l1 IH]; intros [|b l2]; cbn; try discriminate; [reflexivity|]; destruct (a ?= b)%Z; try discriminate; intros E; rewrite (IH _ E); reflexivity.
Qed.

Lemma both_buffers_run s t lhs rhs p1 p2 d1 n1 d2 n2 : has_bytes (cells_in s) t lhs p1 d1 n1 -> has_bytes (cells_in s) t rhs p2 d2 n2 ->
  both_buffers lhs rhs s = Some (((d1, n1), (d2, n2)), s).
Proof.
  intros H1 H2; destruct (bytes_run _ _ _ _ _ _ H1) as (_ & A1 & B1); destruct (bytes_run _ _ _ _ _ _ H2) as (_ & A2 & B2); unfold both_buffers.
  rewrite (SM_bind_Some _ _ _ _ _ A1), (SM_bind_Some _ _ _ _ _ B1), (SM_bind_Some _ _ _ _ _ A2), (SM_bind_Some _ _ _ _ _ B2); reflexivity.
Qed.

Lemma whole (s : aml V) (l : list Z) : first_bytes (Z.of_nat (length l)) (Some l) s = Some (l, s).
Proof. rewrite first_bytes_run, take_ge by lia; reflexivity. Qed.

Lemma equality_run s lhs rhs c : ordered (cells_in s) lhs rhs c -> handle_logical_equality lhs rhs s = Some (holds_for LEqualOp c, s).
Proof.
  intros [(v1 & v2 & H1 & H2 & ->)|(t & p1 & p2 & l1 & l2 & Ht & H1 & H2 & ->)]; unfold handle_logical_equality.
  - destruct (integer_run _ _ _ H1) as [E1 T1]; destruct (integer_run _ _ _ H2) as [E2 _]; rewrite (SM_bind_Some _ _ _ _ _ T1); cbn [is_bytes_type].
    rewrite (SM_bind_Some _ _ _ _ _ E1), (SM_bind_Some _ _ _ _ _ E2); destruct (Z.compare_spec v1 v2) as [->|H|H]; [rewrite Z.eqb_refl|rewrite (proj2 (Z.eqb_neq _ _)) by lia..]; reflexivity.
  - destruct (bytes_run _ _ _ _ _ _ H1) as (T1 & _); rewrite (SM_bind_Some _ _ _ _ _ T1), Ht, (SM_bind_Some _ _ _ _ _ (both_buffers_run _ _ _ _ _ _ _ _ _ _ H1 H2)); cbv beta iota.
    destruct (Z.eqb_spec (Z.of_nat (length l1)) (Z.of_nat (length l2))) as [En|En]; cbn [negb orb].
    + pose proof (compare_bytes_lex l1 l2) as HL; cbv zeta in HL; rewrite Nat.min_l, !take_ge in HL by lia; unfold sign_of in HL.
      replace (length l2) with (length l1) in HL by lia; rewrite Nat.compare_refl in HL.
      destruct (Z.eqb_spec (Z.of_nat (length l1)) 0) as [E0|E0].
      * destruct l1; [|cbn in E0; lia]; destruct l2; [|cbn in En; lia]; reflexivity.
      * rewrite (SM_bind_Some _ _ _ _ _ (whole s l1)), En, (SM_bind_Some _ _ _ _ _ (whole s l2)), <- HL.
        destruct (Z.eqb_spec (compare_bytes l1 l2) 0) as [Ec|Ec]; [reflexivity|]; destruct (Z.compare_spec (compare_bytes l1 l2) 0); [contradiction|reflexivity..].
    + destruct (lex l1 l2) eqn:El; [rewrite (lex_length _ _ El) in En; contradiction|reflexivity..].
Qed.

Lemma ltb_sign r : (r <? 0) = match (r ?= 0)%Z with Lt => true | _ => false end /\ (0 <? r) = match (r ?= 0)%Z with Gt => true | _ => false end.
Proof.
  destruct (Z.compare_spec r 0) as [->|H|H]; [auto|rewrite (proj2 (Z.ltb_lt r 0)), (proj2 (Z.ltb_ge 0 r)) by lia; auto|].
  rewrite (proj2 (Z.ltb_ge r 0)), (proj2 (Z.ltb_lt 0 r)) by lia; auto.
Qed.

(** The result as a number less than, equal to or greater than 0. *)
Lemma sizes_break_ties res n1 n2 : ((if res =? 0 then if Z.of_nat n1 <? Z.of_nat n2 then -1 else if Z.of_nat n2 <? Z.of_nat n1 then 1 else 0 else res) ?= 0)%Z = sign_of res n1 n2.
Proof.
  unfold sign_of; destruct (res =? 0); [|reflexivity]; destruct (Nat.compare_spec n1 n2) as [->|H|H].
  - rewrite Z.ltb_irrefl; reflexivity.
  - rewrite (proj2 (Z.ltb_lt _ _)) by lia; reflexivity.
  - rewrite (proj2 (Z.ltb_ge _ _)), (proj2 (Z.ltb_lt _ _)) by lia; reflexivity.
Qed.

Lemma less_or_greater_run s lhs rhs c op : op = LLessOp \/ op = LGreaterOp -> ordered (cells_in s) lhs rhs c ->
  handle_logical_less_or_greater op lhs rhs s = Some (holds_for op c, s).
Proof.
  intros Hop [(v1 & v2 & H1 & H2 & ->)|(t & p1 & p2 & l1 & l2 & Ht & H1 & H2 & ->)]; unfold handle_logical_less_or_greater.
  - destruct (integer_run _ _ _ H1) as [E1 T1]; destruct (integer_run _ _ _ H2) as [E2 _]; rewrite (SM_bind_Some _ _ _ _ _ T1); cbn [is_bytes_type].
    rewrite (SM_bind_Some _ _ _ _ _ E1), (SM_bind_Some _ _ _ _ _ E2).
    assert ((v1 <? v2) = holds_for LLessOp (v1 ?= v2)%Z /\ (v2 <? v1) = holds_for LGreaterOp (v1 ?= v2)%Z) as [Hl Hg].
    { unfold Z.ltb; rewrite (Z.compare_antisym v1 v2); destruct (v1 ?= v2)%Z; auto. }
    destruct Hop as [-> | ->]; [rewrite decide_True by reflexivity; rewrite Hl|rewrite decide_False by discriminate; rewrite Hg]; reflexivity.
  - destruct (bytes_run _ _ _ _ _ _ H1) as (T1 & _); rewrite (SM_bind_Some _ _ _ _ _ T1), Ht, (SM_bind_Some _ _ _ _ _ (both_buffers_run _ _ _ _ _ _ _ _ _ _ H1 H2)); cbv beta iota.
    set (m := min (length l1) (length l2)); replace (Z.min (Z.of_nat (length l1)) (Z.of_nat (length l2))) with (Z.of_nat m) by lia.
    rewrite (SM_bind_Some _ _ _ _ _ (first_bytes_run s (Z.of_nat m) l1 ltac:(lia) ltac:(lia))), (SM_bind_Some _ _ _ _ _ (first_bytes_run s (Z.of_nat m) l2 ltac:(lia) ltac:(lia))), Nat2Z.id.
    rewrite <- (compare_bytes_lex l1 l2); fold m; cbv zeta; rewrite <- sizes_break_ties.
    match goal with |- context [if decide _ then ?r <? 0 else _] => destruct (ltb_sign r) as [-> ->]; destruct (r ?= 0)%Z end;
      destruct Hop as [-> | ->]; (rewrite decide_True by reflexivity) || (rewrite decide_False by discriminate); reflexivity.
Qed.

(** C39.  A comparison stores all ones when it holds and 0 when it does not, and it holds
    exactly when the values are in that order: integers as numbers, strings and
    buffers byte by byte, a proper prefix before the longer one. *)
Theorem comparisons_are_lexicographic op s lhs rhs dst v0 c : comparing op -> operand s 0 lhs -> operand s 1 rhs -> operand s 2 dst ->
  is_integer (cells_in s) dst v0 -> ordered (cells_in s) lhs rhs c ->
  exists s', handle_binary_logic op s = Some (UACPI_STATUS_OK, s') /\ (forall a, a <> dst -> cells_in s' !! a = cells_in s !! a) /\
    is_integer (cells_in s') dst (if holds_for op c then if rev1 (oworld (store s)) then 2 ^ 32 - 1 else 2 ^ 64 - 1 else 0).
Proof.
  intros Hop O0 O1 O2 Hd Ho.
  assert (exists t, type_of lhs s = Some (t, s) /\ type_of rhs s = Some (t, s)) as (t & T1 & T2).
  { destruct Ho as [(v1 & v2 & H1 & H2 & _)|(t & p1 & p2 & l1 & l2 & _ & H1 & H2 & _)];
      [exists OBJECT_INTEGER; split; [apply (integer_run _ _ _ H1)|apply (integer_run _ _ _ H2)]|exists t; split; [apply (bytes_run _ _ _ _ _ _ H1)|apply (bytes_run _ _ _ _ _ _ H2)]]. }
  set (all := if rev1 (oworld (store s)) then 2 ^ 32 - 1 else 2 ^ 64 - 1).
  destruct (store_integer_run s dst v0 (if holds_for op c then all else 0) Hd) as (cs' & Es & Hr & Hf); exists (with_cells cs' s); split_and!; [|exact Hf|exact Hr].
  unfold handle_binary_logic; rewrite (SM_bind_Some _ _ _ _ _ (item_obj_run _ _ _ O0)), (SM_bind_Some _ _ _ _ _ (item_obj_run _ _ _ O1)), (SM_bind_Some _ _ _ _ _ (item_obj_run _ _ _ O2)).
  assert (ones s = Some (all, s)) as Eo by (unfold ones, is_rev1; smunfold; subst all; destruct (rev1 _); reflexivity).
  rewrite (SM_bind_Some _ _ _ _ _ Eo), (SM_bind_Some _ _ _ _ _ T1), (SM_bind_Some _ _ _ _ _ T2).
  assert ((if decide (op = LEqualOp) then handle_logical_equality lhs rhs else handle_logical_less_or_greater op lhs rhs) s = Some (holds_for op c, s)) as El.
  { destruct Hop as [-> | Hop]; [rewrite decide_True by reflexivity; apply equality_run, Ho|].
    rewrite decide_False by (destruct Hop as [-> | ->]; discriminate); apply less_or_greater_run; assumption. }
  destruct Hop as [-> | [-> | ->]]; rewrite bool_decide_eq_true_2 by reflexivity; cbn [negb]; rewrite (SM_bind_Some _ _ _ _ _ El), (SM_bind_Some _ _ _ _ _ Es); reflexivity.
Qed.

(** *** Match *)

(** The elements are objects; the integers among them. *)
Definition element (cs : heap) (o : Z) (v : option Z) : Prop :=
  exists n x, cs !! o = Some (n, C_OBJECT x) /\ match v with Some v => o_type x = OBJECT_INTEGER /\ o_data x = D_INTEGER v | None => o_type x <> OBJECT_INTEGER end.

Definition accepts (test : Z -> bool) (v : option Z) : Prop := exists z, v = Some z /\ test z = true.

Lemma find_match_run s test l vs : Forall2 (element (cells_in s)) l vs -> forall i, exists r, find_match l i test s = Some (r, s) /\
  match r with
  | Some j => exists k v, j = i + Z.of_nat k /\ vs !! k = Some v /\ accepts test v /\ (forall k' v', (k' < k)%nat -> vs !! k' = Some v' -> ~ accepts test v')
  | None => forall k v, vs !! k = Some v -> ~ accepts test v
  end.
Proof.
  induction 1 as [|o v l vs (n & x & E & Hv) _ IH]; intros i; cbn [find_match]; [exists None; split; [reflexivity|discriminate]|].
  rewrite (SM_bind_Some _ _ _ _ _ (the_object_run _ _ _ _ E)).
  assert (~ accepts test v -> exists r, find_match l (i + 1) test s = Some (r, s) /\
    match r with
    | Some j => exists k v0, j = i + Z.of_nat k /\ (v :: vs) !! k = Some v0 /\ accepts test v0 /\ (forall k' v', (k' < k)%nat -> (v :: vs) !! k' = Some v' -> ~ accepts test v')
    | None => forall k v0, (v :: vs) !! k = Some v0 -> ~ accepts test v0
    end) as Hskip.
  { intros Hno; destruct (IH (i + 1)) as (r & Er & Hr); exists r; split; [exact Er|]; destruct r as [j|].
    - destruct Hr as (k & v0 & -> & Ek & Hk & Hb); exists (S k), v0; split_and!; [lia|exact Ek|exact Hk|].
      intros [|k'] v' Hlt Ek'; [injection Ek' as <-; exact Hno|apply (Hb k'); [lia|exact Ek']].
    - intros [|k] v0 Ek; [injection Ek as <-; exact Hno|exact (Hr k v0 Ek)]. }
  destruct v as [z|].
  - destruct Hv as [Ht Hd]; rewrite Ht, (SM_bind_Some _ _ _ _ _ (integer_at_run _ _ _ _ _ E Hd)); destruct (test z) eqn:Etest.
    + exists (Some i); split; [reflexivity|]; exists O, (Some z); split_and!; [lia|reflexivity|exists z; auto|intros; lia].
    + apply Hskip; intros (z' & [= <-] & Hz); congruence.
  - destruct (o_type x) eqn:Et; try contradiction; apply Hskip; intros (z' & [=] & _).
Qed.

(** Which elements Match looks for. *)
Definition wanted (mop0 operand0 mop1 operand1 : Z) (v : Z) : bool :=
  match_one (match_op_of mop0) v operand0 && match_one (match_op_of mop1) v operand1.

Definition immediate (s : aml V) (i : nat) (v : Z) : Prop := exists x, items s !! i = Some x /\ i_data x = I_IMMEDIATE v.

Lemma item_immediate_run s i v : immediate s i v -> item_immediate i s = Some (v, s).
Proof. intros (x & E & Ed); unfold item_immediate, get_item; smunfold; rewrite E, Ed; reflexivity. Qed.

(** Match stores the index of the first integer of the package, from the start index on,
    that passes both comparisons, and all ones when there is none; elements of other
    types are passed over. *)
Theorem match_finds_first s pkg n x p np l vs mop0 o2 v2 mop1 o4 v4 o5 start dst v0 :
  operand s 0 pkg -> cells_in s !! pkg = Some (n, C_OBJECT x) -> pointer_of (o_data x) = Some p -> cells_in s !! p = Some (np, C_PACKAGE l) ->
  Forall2 (element (cells_in s)) l vs -> immediate s 1 mop0 -> operand s 2 o2 -> is_integer (cells_in s) o2 v2 ->
  immediate s 3 mop1 -> operand s 4 o4 -> is_integer (cells_in s) o4 v4 -> operand s 5 o5 -> is_integer (cells_in s) o5 start -> 0 <= start ->
  operand s 6 dst -> is_integer (cells_in s) dst v0 ->
  exists s' r, handle_match s = Some (UACPI_STATUS_OK, s') /\ is_integer (cells_in s') dst r /\
    ((exists k v, r = Z.of_nat k /\ start <= r /\ vs !! k = Some v /\ accepts (wanted mop0 v2 mop1 v4) v /\
        forall k' v', start <= Z.of_nat k' < r -> vs !! k' = Some v' -> ~ accepts (wanted mop0 v2 mop1 v4) v') \/
     (r = (if rev1 (oworld (store s)) then 2 ^ 32 - 1 else 2 ^ 64 - 1) /\
        forall k v, start <= Z.of_nat k -> vs !! k = Some v -> ~ accepts (wanted mop0 v2 mop1 v4) v)).
Proof.
  intros O0 Eo Ep Epk HF I1 O2 H2 I3 O4 H4 O5 H5 H0 O6 Hd.
  set (all := if rev1 (oworld (store s)) then 2 ^ 32 - 1 else 2 ^ 64 - 1).
  assert (ones s = Some (all, s)) as Eall by (unfold ones, is_rev1; smunfold; subst all; destruct (rev1 _); reflexivity).
  assert (on_store (get_pointer pkg) s = Some (p, s)) as E1 by apply (buffer_at_run _ _ _ _ _ Eo Ep).
  assert (on_store (get_package p) s = Some (l, s)) as E2 by (apply on_store_read; unfold get_package; rewrite (SM_bind_Some _ _ _ _ _ (get_cell_run _ _ _ Epk)); reflexivity).
  set (test := wanted mop0 v2 mop1 v4); pose proof (Forall2_length _ _ _ HF) as Hlen.
  assert (exists found, (if start <? Z.of_nat (length l) then find_match (drop (Z.to_nat start) l) start test else mret None) s = Some (found, s) /\
    match found with
    | Some j => exists k v, j = start + Z.of_nat k /\ drop (Z.to_nat start) vs !! k = Some v /\ accepts test v /\ (forall k' v', (k' < k)%nat -> drop (Z.to_nat start) vs !! k' = Some v' -> ~ accepts test v')
    | None => forall k v, drop (Z.to_nat start) vs !! k = Some v -> ~ accepts test v
    end) as (found & Ef & Hf).
  { destruct (Z.ltb_spec start (Z.of_nat (length l))); [apply find_match_run, Forall2_drop, HF|].
    exists None; split; [reflexivity|]; intros k v Ek; rewrite drop_ge in Ek by lia; discriminate. }
  destruct (store_integer_run s dst v0 (default all found) Hd) as (cs' & Es & Hr & _); exists (with_cells cs' s), (default all found); split_and!; [|exact Hr|].
  - unfold handle_match; rewrite (SM_bind_Some _ _ _ _ _ (item_obj_run _ _ _ O0)), (SM_bind_Some _ _ _ _ _ E1), (SM_bind_Some _ _ _ _ _ (item_immediate_run _ _ _ I1)),
      (SM_bind_Some _ _ _ _ _ (item_obj_run _ _ _ O2)), (SM_bind_Some _ _ _ _ _ (proj1 (integer_run _ _ _ H2))), (SM_bind_Some _ _ _ _ _ (item_immediate_run _ _ _ I3)),
      (SM_bind_Some _ _ _ _ _ (item_obj_run _ _ _ O4)), (SM_bind_Some _ _ _ _ _ (proj1 (integer_run _ _ _ H4))), (SM_bind_Some _ _ _ _ _ (item_obj_run _ _ _ O5)),
      (SM_bind_Some _ _ _ _ _ (proj1 (integer_run _ _ _ H5))), (SM_bind_Some _ _ _ _ _ (item_obj_run _ _ _ O6)), (SM_bind_Some _ _ _ _ _ E2), (SM_bind_Some _ _ _ _ _ Eall).
    rewrite (SM_bind_Some _ _ _ _ _ Ef), (SM_bind_Some _ _ _ _ _ Es); reflexivity.
  - destruct found as [j|]; cbn [default]; [left|right; split; [reflexivity|]].
    + destruct Hf as (k & v & -> & Ek & Ha & Hb); exists (Z.to_nat start + k)%nat, v; rewrite lookup_drop in Ek; split_and!; [unfold id; lia|unfold id; lia|exact Ek|exact Ha|].
      intros k' v' Hk' Ek'; apply (Hb (k' - Z.to_nat start)%nat); [unfold id in Hk'; lia|]; rewrite lookup_drop; replace (Z.to_nat start + (k' - Z.to_nat start))%nat with k' by lia; exact Ek'.
    + intros k v Hk Ek; apply (Hf (k - Z.to_nat start)%nat); rewrite lookup_drop; replace (Z.to_nat start + (k - Z.to_nat start))%nat with k by lia; exact Ek.
Qed.

(** *** BCD *)

(** The decimal digits of [n], [k] of them, as hexadecimal digits. *)
Fixpoint bcd (k : nat) (n : Z) : Z := match k with O => 0 | S k' => n mod 10 + 16 * bcd k' (n / 10) end.

Lemma bcd_range k : forall n, 0 <= bcd k n < 16 ^ Z.of_nat k.
Proof.
  induction k as [|k IH]; intros n; cbn [bcd]; [lia|]; specialize (IH (n / 10)); pose proof (Z.mod_pos_bound n 10 ltac:(lia)); rewrite Nat2Z.inj_succ, Z.pow_succ_r by lia; lia.
Qed.

Lemma bcd_zero k : bcd k 0 = 0.
Proof. induction k as [|k IH]; [reflexivity|]; cbn [bcd]; rewrite Z.div_0_l, Z.mod_0_l, IH by lia; reflexivity. Qed.

Lemma pow16 j : 16 ^ Z.of_nat j = 2 ^ (4 * Z.of_nat j).
Proof. change 16 with (2 ^ 4); rewrite <- Z.pow_mul_r by lia; reflexivity. Qed.

(** One digit more. *)
Lemma bcd_push b d j : (j < 16)%nat -> 0 <= b < 16 ^ Z.of_nat j -> 0 <= d < 10 ->
  Z.lor (Z.shiftr (b * 2 ^ (64 - 4 * Z.of_nat j)) 4) (u64 (Z.shiftl d 60)) = (b + d * 16 ^ Z.of_nat j) * 2 ^ (64 - 4 * Z.of_nat (S j)).
Proof.
  intros Hj Hb Hd; rewrite pow16 in *.
  assert (Z.shiftr (b * 2 ^ (64 - 4 * Z.of_nat j)) 4 = b * 2 ^ (60 - 4 * Z.of_nat j)) as ->.
  { rewrite Z.shiftr_div_pow2 by lia; replace (64 - 4 * Z.of_nat j) with ((60 - 4 * Z.of_nat j) + 4) by lia; rewrite Z.pow_add_r, Z.mul_assoc, Z.div_mul by lia; reflexivity. }
  rewrite (wrap_id 64) by (rewrite Z.shiftl_mul_pow2 by lia; unfold in_w; lia).
  assert (2 ^ (4 * Z.of_nat j) * 2 ^ (60 - 4 * Z.of_nat j) = 2 ^ 60) as E60 by (rewrite <- Z.pow_add_r by lia; f_equal; lia).
  pose proof (Z.pow_pos_nonneg 2 (60 - 4 * Z.of_nat j) ltac:(lia) ltac:(lia)) as Hp.
  rewrite Z.lor_comm, lor_shiftl_add by (try lia; split; nia).
  replace (64 - 4 * Z.of_nat (S j)) with (60 - 4 * Z.of_nat j) by lia; rewrite <- E60; ring.
Qed.

(** [j] digits are done and stand at the top of the 64 bits. *)
Lemma to_bcd_run k : forall j fuel src b, (j + k = 16)%nat -> (k <= fuel)%nat -> 0 <= src < 10 ^ Z.of_nat k -> 0 <= b < 16 ^ Z.of_nat j ->
  to_bcd fuel src (b * 2 ^ (64 - 4 * Z.of_nat j)) (64 - 4 * Z.of_nat j) = Some (b + 16 ^ Z.of_nat j * bcd k src).
Proof.
  induction k as [|k IH]; intros j fuel src b Hj Hf Hs Hb; (destruct (Z.eqb_spec src 0) as [->|Hne];
    [assert (to_bcd fuel 0 (b * 2 ^ (64 - 4 * Z.of_nat j)) (64 - 4 * Z.of_nat j) = Some (Z.shiftr (b * 2 ^ (64 - 4 * Z.of_nat j)) ((64 - 4 * Z.of_nat j) mod 64))) as -> by (destruct fuel; reflexivity);
     rewrite bcd_zero, Z.mul_0_r, Z.add_0_r; f_equal; destruct (decide (j = 0%nat)) as [->|Hj0]; [replace b with 0 by (change (16 ^ Z.of_nat 0) with 1 in Hb; lia); reflexivity|];
     rewrite Z.mod_small, Z.shiftr_div_pow2, Z.div_mul by (try apply Z.pow_nonzero; lia); reflexivity|]).
  - change (10 ^ Z.of_nat 0) with 1 in Hs; lia.
  - destruct fuel as [|fuel]; [lia|]; cbn [to_bcd]; rewrite (proj2 (Z.eqb_neq _ _) Hne); cbn [bcd].
    pose proof (Z.mod_pos_bound src 10 ltac:(lia)) as Hm; rewrite bcd_push by lia.
    rewrite (wrap_id 64 (64 - 4 * Z.of_nat j - 4)) by (unfold in_w; lia); replace (64 - 4 * Z.of_nat j - 4) with (64 - 4 * Z.of_nat (S j)) by lia.
    rewrite Nat2Z.inj_succ, Z.pow_succ_r in Hs by lia.
    rewrite IH; [|lia|lia|split; [apply Z.div_pos; lia|apply Z.div_lt_upper_bound; lia]|rewrite Nat2Z.inj_succ, Z.pow_succ_r by lia; nia].
    f_equal; rewrite Nat2Z.inj_succ, Z.pow_succ_r by lia; ring.
Qed.

(** The highest of the digits. *)
Lemma bcd_top k : forall n, bcd (S k) n = bcd k n + 16 ^ Z.of_nat k * (n / 10 ^ Z.of_nat k mod 10).
Proof.
  induction k as [|k IH]; intros n; [cbn [bcd]; rewrite Z.div_1_r; lia|].
  change (bcd (S (S k)) n) with (n mod 10 + 16 * bcd (S k) (n / 10)); rewrite IH; cbn [bcd].
  rewrite Nat2Z.inj_succ, !Z.pow_succ_r, Z.div_div by lia; ring.
Qed.

(** The digits that are left are read from the top. *)
Lemma from_bcd_run k : forall n hi acc, 0 <= n -> 0 <= acc -> acc * 10 ^ Z.of_nat k + n mod 10 ^ Z.of_nat k < 2 ^ 64 -> 0 <= hi ->
  from_bcd k (bcd k n + 16 ^ Z.of_nat k * hi) acc = acc * 10 ^ Z.of_nat k + n mod 10 ^ Z.of_nat k.
Proof.
  induction k as [|k IH]; intros n hi acc Hn Ha Hlt Hhi; [cbn [from_bcd]; change (10 ^ Z.of_nat 0) with 1; rewrite Z.mod_1_r; lia|].
  cbn [from_bcd]; rewrite bcd_top, Nat2Z.inj_succ, !Z.pow_succ_r in * by lia.
  set (d := n / 10 ^ Z.of_nat k mod 10) in *; pose proof (Z.mod_pos_bound (n / 10 ^ Z.of_nat k) 10 ltac:(lia)) as Hd; fold d in Hd.
  pose proof (Z.pow_pos_nonneg 10 (Z.of_nat k) ltac:(lia) ltac:(lia)) as Hp.
  assert (n mod (10 * 10 ^ Z.of_nat k) = d * 10 ^ Z.of_nat k + n mod 10 ^ Z.of_nat k) as En.
  { rewrite (Z.mul_comm 10), Z.rem_mul_r by lia; fold d; ring. }
  pose proof (Z.mod_pos_bound n (10 ^ Z.of_nat k) Hp) as Hm.
  replace (bcd k n + 16 ^ Z.of_nat k * d + 16 * 16 ^ Z.of_nat k * hi) with (bcd k n + 16 ^ Z.of_nat k * (d + hi * 16)) by ring.
  assert (Z.land (Z.shiftr (bcd k n + 16 ^ Z.of_nat k * (d + hi * 16)) (4 * Z.of_nat k)) 15 = d) as ->.
  { rewrite Z.shiftr_div_pow2, <- pow16 by lia; rewrite (Z.mul_comm (16 ^ Z.of_nat k)), Z.div_add by (apply Z.pow_nonzero; lia).
    rewrite (Z.div_small (bcd k n)) by apply bcd_range; change 15 with (Z.ones 4); rewrite Z.land_ones by lia; change (2 ^ 4) with 16; rewrite Z.add_0_l, Z.mod_add, Z.mod_small by lia; reflexivity. }
  rewrite En in *; rewrite (wrap_id 64 (acc * 10)) by (unfold in_w; nia); rewrite (wrap_id 64 (acc * 10 + d)) by (unfold in_w; nia).
  rewrite IH by (try lia; nia); ring.
Qed.

Lemma bcd_inverse n : 0 <= n < 10 ^ 16 -> to_bcd 20 n 0 64 = Some (bcd 16 n) /\ from_bcd 16 (bcd 16 n) 0 = n.
Proof.
  intros Hn; split.
  - pose proof (to_bcd_run 16 0 20 n 0 eq_refl ltac:(lia) Hn ltac:(change (16 ^ Z.of_nat 0) with 1; lia)) as H; rewrite Z.mul_0_l in H.
    change (64 - 4 * Z.of_nat 0) with 64 in H; rewrite H; f_equal; change (16 ^ Z.of_nat 0) with 1; lia.
  - pose proof (from_bcd_run 16 n 0 0 ltac:(lia) ltac:(lia)) as H; rewrite Z.mul_0_r, Z.add_0_r, Z.mul_0_l, Z.add_0_l, Z.mod_small in H by exact Hn; apply H; lia.
Qed.

(** A number below 10^16 has each of its decimal digits in four bits of the result of
    ToBCD, and FromBCD makes the number of them again. *)
Theorem bcd_roundtrip s src n dst v0 : operand s 0 src -> operand s 2 dst -> is_integer (cells_in s) src n -> is_integer (cells_in s) dst v0 -> 0 <= n < 10 ^ 16 ->
  exists s', handle_bcd ToBCDOp s = Some (UACPI_STATUS_OK, s') /\ is_integer (cells_in s') dst (bcd 16 n) /\
    forall its back v1, operand {| items := its; store := store s' |} 0 dst -> operand {| items := its; store := store s' |} 2 back -> is_integer (cells_in s') back v1 ->
      exists s2, handle_bcd FromBCDOp {| items := its; store := store s' |} = Some (UACPI_STATUS_OK, s2) /\ is_integer (cells_in s2) back n.
Proof.
  intros O0 O2 Hs Hd Hn; destruct (bcd_inverse n Hn) as [E1 E2].
  destruct (store_integer_run s dst v0 (bcd 16 n) Hd) as (cs' & Es & Hr & _); exists (with_cells cs' s); split_and!; [|exact Hr|].
  - unfold handle_bcd; rewrite (SM_bind_Some _ _ _ _ _ (item_obj_run _ _ _ O0)), (SM_bind_Some _ _ _ _ _ (proj1 (integer_run _ _ _ Hs))), (SM_bind_Some _ _ _ _ _ (item_obj_run _ _ _ O2)).
    rewrite decide_False, E1 by discriminate; rewrite (SM_bind_Some _ _ _ _ _ (on_store_read (of_opt (Some (bcd 16 n))) s _ eq_refl)), (SM_bind_Some _ _ _ _ _ Es); reflexivity.
  - intros its back v1 B0 B2 Hb; set (t := {| items := its; store := _ |}) in *.
    destruct (store_integer_run t back v1 n Hb) as (cs2 & Es2 & Hr2 & _); exists (with_cells cs2 t); split; [|exact Hr2].
    unfold handle_bcd; rewrite (SM_bind_Some _ _ _ _ _ (item_obj_run _ _ _ B0)), (SM_bind_Some _ _ _ _ _ (proj1 (integer_run t dst (bcd 16 n) Hr))), (SM_bind_Some _ _ _ _ _ (item_obj_run _ _ _ B2)).
    rewrite decide_True, E2 by reflexivity; rewrite (SM_bind_Some (mret n) _ t n t eq_refl), (SM_bind_Some _ _ _ _ _ Es2); reflexivity.
Qed.
End Runs.
