(* ===== verification/AmlDemo.v ===== *)
(** * acpi/uacpi/interpreter.c, operators: runs on a concrete machine

    A heap with the operands of one operator, the theorems on operators applied to it, and
    runs that show where the code goes wrong. *)

From Stdlib Require Import String.
From S2P Require Import Prelude CMem UStdlib UCore UText UFormat Shareable Namespace Objects AmlOps AmlSpec.

Open Scope list_scope.

Open Scope word_scope.

Module Demo.

(** What the machine has slept and stalled, and whether the tables are of revision 1. *)
Record world := { slept : Z; stalled : Z; old : bool }.

#[export] Instance machine : ObjectHost world := {|
  alloc_struct := fun _ _ => None;
  alloc_bytes := fun n => mret (Some (replicate (Z.to_nat n) 0xcc));
  create_mutex := mret 1;
  release_mutex := fun _ => mret tt;
  create_event := mret 1;
  release_event := fun _ => mret tt;
  table_unref := fun _ => mret tt;
  node_unref := fun _ => mret tt;
  aml_bitness := mret (UACPI_STATUS_OK, 64);
  resolve_namepath := fun _ _ => mret (UACPI_STATUS_NOT_FOUND, 0) |}.

#[export] Instance lock : NamespaceLock (ost world) := {|
  uacpi_namespace_lock_init := mret UACPI_STATUS_OK;
  uacpi_namespace_lock_deinit := mret UACPI_STATUS_OK;
  uacpi_namespace_read_lock := mret UACPI_STATUS_OK;
  uacpi_namespace_read_unlock := mret UACPI_STATUS_OK;
  uacpi_namespace_write_lock := mret UACPI_STATUS_OK;
  uacpi_namespace_write_unlock := mret UACPI_STATUS_OK |}.

#[export] Instance clock : AmlHost world := {|
  rev1 := old;
  nanoseconds_since_boot := fun w => Some (slept w * 1000000 + stalled w * 1000, w);
  kernel_sleep := fun n w => Some (tt, {| slept := slept w + n; stalled := stalled w; old := old w |});
  kernel_stall := fun n w => Some (tt, {| slept := slept w; stalled := stalled w + n; old := old w |}) |}.

#[export] Instance arrays : ArrayLaws.
Proof.
  split; intros n w; [eexists _, _; reflexivity| |]; intros ? ? [= <- <-]; [apply length_replicate|reflexivity].
Qed.

(** ** A heap with integers, strings, buffers and a package *)

Definition int (v : Z) : Z * cell := (1, C_OBJECT {| o_type := OBJECT_INTEGER; o_flags := 0; o_data := D_INTEGER v |}).
Definition at_ (t : uacpi_object_type) (p : Z) : Z * cell := (1, C_OBJECT {| o_type := t; o_flags := 0; o_data := D_POINTER p |}).
Definition bytes (l : list Z) : Z * cell := (1, C_BUFFER (Some l) (Z.of_nat (length l))).

Definition memory : heap := list_to_map
  [(1, int 1979); (2, int 0); (3, int 5); (4, int 7); (5, int 2);
   (10, at_ OBJECT_STRING 11); (11, (1, C_BUFFER None 0));
   (20, at_ OBJECT_STRING 21); (21, bytes [97; 98; 0]);
   (30, at_ OBJECT_STRING 31); (31, bytes [97; 98; 99; 0]);
   (40, at_ OBJECT_PACKAGE 41); (41, (1, C_PACKAGE [4; 20; 3; 4; 1]));
   (50, at_ OBJECT_BUFFER 51); (51, (1, C_BUFFER None 0));
   (70, at_ OBJECT_BUFFER 71); (71, bytes [7; 255])].

Definition obj (o : Z) : item := {| i_type := ITEM_OBJECT; i_data := I_POINTER o |}.
Definition imm (v : Z) : item := {| i_type := ITEM_IMMEDIATE; i_data := I_IMMEDIATE v |}.

Definition with_items (its : list item) : aml world :=
  {| items := its; store := {| cells := memory; notifies := ∅; oworld := {| slept := 0; stalled := 0; old := false |} |} |}.

Ltac present := repeat first [reflexivity | eexists | split].

Definition printing : aml world := with_items [obj 1; obj 2; obj 10].

Lemma integer_text_roundtrip_witness : exists ret s', handle_to ToHexStringOp printing = Some (ret, s') /\ (ret = UACPI_STATUS_OUT_OF_MEMORY \/
  ret = UACPI_STATUS_OK /\ forall its back v0, operand {| items := its; store := store s' |} 0 10 -> operand {| items := its; store := store s' |} 2 back ->
    is_integer (cells_in s') back v0 -> exists s2, handle_to ToIntegerOp {| items := its; store := store s' |} = Some (UACPI_STATUS_OK, s2) /\ is_integer (cells_in s2) back 1979).
Proof. apply (integer_text_roundtrip ToHexStringOp printing 1 1979 10 11 None 0); [left; reflexivity|present..|split; [discriminate|reflexivity]|present]. Defined.

Definition comparing_texts : aml world := with_items [obj 20; obj 30; obj 2].

Lemma comparisons_are_lexicographic_witness : exists s', handle_binary_logic LLessOp comparing_texts = Some (UACPI_STATUS_OK, s') /\
  (forall a, a <> 2 -> cells_in s' !! a = cells_in comparing_texts !! a) /\ is_integer (cells_in s') 2 (2 ^ 64 - 1).
Proof.
  change (2 ^ 64 - 1) with (if holds_for LLessOp Lt then if rev1 (oworld (store comparing_texts)) then 2 ^ 32 - 1 else 2 ^ 64 - 1 else 0).
  apply (comparisons_are_lexicographic LLessOp comparing_texts 20 30 2 0 Lt); [right; left; reflexivity|present..|].
  right; exists OBJECT_STRING, 21, 31, [97; 98; 0], [97; 98; 99; 0]; present.
Defined.

(** Match of the elements above 5 and at most 7, from the second element on. *)
Definition matching : aml world := with_items [obj 40; imm 5; obj 3; imm 2; obj 4; obj 5; obj 2].

Lemma match_finds_first_witness : exists s' r, handle_match matching = Some (UACPI_STATUS_OK, s') /\ is_integer (cells_in s') 2 r /\
  ((exists k v, r = Z.of_nat k /\ 2 <= r /\ [Some 7; None; Some 5; Some 7; Some 1979] !! k = Some v /\ accepts (wanted 5 5 2 7) v /\
      forall k' v', 2 <= Z.of_nat k' < r -> [Some 7; None; Some 5; Some 7; Some 1979] !! k' = Some v' -> ~ accepts (wanted 5 5 2 7) v') \/
   (r = (if rev1 (oworld (store matching)) then 2 ^ 32 - 1 else 2 ^ 64 - 1) /\
      forall k v, 2 <= Z.of_nat k -> [Some 7; None; Some 5; Some 7; Some 1979] !! k = Some v -> ~ accepts (wanted 5 5 2 7) v)).
Proof.
  eapply (match_finds_first matching 40 1 _ 41 1 [4; 20; 3; 4; 1] [Some 7; None; Some 5; Some 7; Some 1979] 5 3 5 2 4 7 5 2 2 0);
    [present| | | | |present..|discriminate|present|present]; [reflexivity..|].
  repeat constructor; eexists _, _; (split; [reflexivity|]); cbn; auto; discriminate.
Defined.

Definition coding : aml world := with_items [obj 1; obj 2; obj 3].

Lemma bcd_roundtrip_witness : exists s', handle_bcd ToBCDOp coding = Some (UACPI_STATUS_OK, s') /\ is_integer (cells_in s') 3 0x1979 /\
  forall its back v1, operand {| items := its; store := store s' |} 0 3 -> operand {| items := its; store := store s' |} 2 back -> is_integer (cells_in s') back v1 ->
    exists s2, handle_bcd FromBCDOp {| items := its; store := store s' |} = Some (UACPI_STATUS_OK, s2) /\ is_integer (cells_in s2) back 1979.
Proof.
  change 0x1979 with (bcd 16 1979).
  apply (bcd_roundtrip coding 1 1979 3 5); [present..|split; [discriminate|reflexivity]].
Defined.

(** ** Where the code goes wrong *)

Definition bytes_at (p : Z) (r : option (uacpi_status * aml world)) : option (uacpi_status * list Z) :=
  match r with Some (st, s) => match cells_in s !! p with Some (_, C_BUFFER (Some l) _) => Some (st, l) | _ => None end | None => None end.

(** A string and a buffer are concatenated: the buffer is written as text, with a
    terminator when it has any byte. *)
Example concatenate_buffer : bytes_at 11 (handle_concatenate (with_items [obj 20; obj 70; obj 2; obj 10])) =
  Some (UACPI_STATUS_OK, [97; 98] ++ str "0x07,0xFF" ++ [0]).
Proof. vm_compute; reflexivity. Qed.

(** With an empty buffer the result is a string without a terminator. *)
Theorem concatenate_unterminated : bytes_at 11 (handle_concatenate (with_items [obj 20; obj 50; obj 2; obj 10])) = Some (UACPI_STATUS_OK, [97; 98]).
Proof. vm_compute; reflexivity. Qed.
End Demo.
