(* ===== verification/AmlStore.v ===== *)
(** * acpi/uacpi/interpreter.c: stores

    Store, CopyObject, Increment and Decrement write through a target: a variable, a named
    object, an element of a package or a byte of a buffer.  A store into an object that
    already has a type keeps the type and copies the bytes.  The state is the namespace
    over the objects; reads and writes of fields are the interface [FieldHost]. *)

From S2P Require Import Prelude CMem UStdlib UCore UText Shareable Namespace Objects AmlOps.

Open Scope word_scope.

Class FieldHost (V : Type) := {
  (** [uacpi_write_buffer_field], [uacpi_read_buffer_field] as an integer *)
  write_buffer_field : buffer_field -> list Z -> SM (ns (ost V)) unit;
  read_buffer_field : buffer_field -> SM (ns (ost V)) Z;
  (** [uacpi_write_field_unit] with the response, if there is one *)
  write_field_unit : Z -> list Z -> SM (ns (ost V)) (uacpi_status * option (list Z));
  read_field_unit : Z -> Z -> SM (ns (ost V)) (uacpi_status * Z);
  uacpi_field_unit_get_read_type : Z -> SM (ns (ost V)) (uacpi_status * uacpi_object_type)
}.

Section Store.
Context {V : Type} {OH : ObjectHost V} {NL : NamespaceLock (ost V)} {OBJ : Namespace.Objects (ost V)} {AH : AmlHost V} {FH : FieldHost V}.

Abbreviation M := (SM (ns (ost V))).

Definition on_objects {A} (c : SM (ost V) A) : M A := Namespace.in_world c.

(** An operation of [AmlOps] that does not look at items. *)
Definition on_aml {A} (c : SM (aml V) A) : M A := on_objects (fun w =>
  match c {| items := []; store := w |} with Some (a, t) => Some (a, store t) | None => None end).

Definition get_obj (o : Z) : M object := on_objects (get_object o).
Definition assign (dst src : Z) (behavior : uacpi_assign_behavior) : M uacpi_status :=
  on_objects (fuel ← cells_fuel; uacpi_object_assign fuel dst src behavior).

(** [uacpi_memcpy_zerout(dst, src, n, ...)]: the [n] bytes of the destination afterwards. *)
Definition zerout (src : list Z) (n : nat) : list Z := take n src ++ replicate (n - length src) 0.

(** The first [n] bytes of the array are replaced. *)
Definition replace_bytes (p : Z) (n : nat) (src : list Z) : M unit :=
  b ← on_objects (get_buffer p);
  let d := default [] (fst b) in
  if (n <=? length d)%nat then
    if (n =? 0)%nat then mret tt else on_objects (write_cell p (C_BUFFER (Some (zerout src n ++ drop n d)) (snd b)))
  else undefined.

Definition write_buffer_index (dst : Z) (src : list Z) : M unit :=
  x ← get_obj dst;
  bi ← on_objects (of_opt (buffer_index_of (o_data x)));
  b ← on_objects (get_buffer (snd bi));
  let d := default [] (fst b) in
  let i := Z.to_nat (fst bi) in
  if (i <? length d)%nat then on_objects (write_cell (snd bi) (C_BUFFER (Some (take i d ++ zerout src 1 ++ drop (S i) d)) (snd b)))
  else undefined.

(** The lower [n] bytes of an integer are replaced. *)
Definition replace_integer (old : Z) (n : Z) (src : list Z) : Z :=
  Z.lor (Z.shiftl (Z.shiftr old (8 * n)) (8 * n)) (le_value (zerout src (Z.to_nat n))).

(** The status and the response of a field. *)
Definition object_assign_with_implicit_cast (dst src : Z) : M (uacpi_status * option (list Z)) :=
  view ← on_aml (get_object_storage src false);
  let '(ret, src_buf) := (view : uacpi_status * list Z) in
  if negb (is_ok ret) then mret (ret, None) else
  x ← get_obj dst;
  match o_type x with
  | OBJECT_INTEGER =>
      n ← on_aml sizeof_int;
      old ← on_objects (of_opt (integer_of (o_data x)));
      on_objects (set_data dst (D_INTEGER (replace_integer old n src_buf)));;
      mret (UACPI_STATUS_OK, None)
  | OBJECT_STRING =>
      p ← on_objects (get_pointer dst);
      b ← on_objects (get_buffer p);
      replace_bytes p (Z.to_nat (if snd b =? 0 then 0 else snd b - 1)) src_buf;;
      mret (UACPI_STATUS_OK, None)
  | OBJECT_BUFFER =>
      p ← on_objects (get_pointer dst);
      b ← on_objects (get_buffer p);
      replace_bytes p (Z.to_nat (snd b)) src_buf;;
      mret (UACPI_STATUS_OK, None)
  | OBJECT_BUFFER_FIELD =>
      f ← on_objects (of_opt (buffer_field_of (o_data x)));
      write_buffer_field f src_buf;;
      mret (UACPI_STATUS_OK, None)
  | OBJECT_FIELD_UNIT => f ← on_objects (get_pointer dst); write_field_unit f src_buf
  | OBJECT_BUFFER_INDEX => write_buffer_index dst src_buf;; mret (UACPI_STATUS_OK, None)
  | _ => mret (UACPI_STATUS_AML_INCOMPATIBLE_OBJECT_TYPE, None)
  end.

(** ** References *)

Definition unwind_reference (o : Z) : M Z := on_aml (reference_unwind o).
Definition unwrap_reference (o : Z) : M Z := on_objects (Objects.uacpi_unwrap_internal_reference o).

Definition opregion_try_detach_from_parent (target_object node depth : Z) : M Z :=
  n ← get_node node;
  if Namespace.object n =? target_object then uacpi_opregion_uninstall_handler node;; mret BREAK else mret CONTINUE.

Definition object_replace_child (parent new_child : Z) : M unit :=
  x ← get_obj parent;
  inner ← on_objects (get_pointer parent);
  is_region ← (if o_flags x =? UACPI_REFERENCE_KIND_NAMED then on_objects (Objects.uacpi_object_is inner OBJECT_OPERATION_REGION) else mret false);
  (if (is_region : bool) then
     opregion_try_detach_from_parent parent uacpi_namespace_root 0;;
     uacpi_namespace_do_for_each_child (Some (opregion_try_detach_from_parent parent)) None (type_bit OBJECT_OPERATION_REGION) MAX_DEPTH_ANY false false
       uacpi_namespace_root;;
     mret tt
   else mret tt);;
  on_objects (uacpi_object_detach_child parent);;
  on_objects (uacpi_object_attach_child parent new_child).

(** A copy of the source takes the place of what the reference refers to; [release] is
    whether the copy is given up when it fails. *)
Definition overwrite_child (release : bool) (dst src : Z) : M uacpi_status :=
  new_obj ← on_objects (Objects.uacpi_create_object OBJECT_UNINITIALIZED);
  if new_obj =? 0 then mret UACPI_STATUS_OUT_OF_MEMORY else
  ret ← assign new_obj src ASSIGN_BEHAVIOR_DEEP_COPY;
  if negb (is_ok ret) then (if release then on_objects (Objects.uacpi_object_unref new_obj) else mret tt);; mret ret else
  object_replace_child dst new_obj;;
  on_objects (Objects.uacpi_object_unref new_obj);;
  mret UACPI_STATUS_OK.

Definition copy_object_to_reference (dst src : Z) : M uacpi_status :=
  x ← get_obj dst;
  let kind := o_flags x in
  if negb (existsb (Z.eqb kind) [UACPI_REFERENCE_KIND_ARG; UACPI_REFERENCE_KIND_LOCAL; UACPI_REFERENCE_KIND_PKG_INDEX; UACPI_REFERENCE_KIND_NAMED])
  then mret UACPI_STATUS_INVALID_ARGUMENT else
  dst ← (if kind =? UACPI_REFERENCE_KIND_ARG then
           referenced_obj ← unwrap_reference dst;
           y ← get_obj referenced_obj;
           if Objects.is_reference y then unwind_reference referenced_obj else mret dst
         else mret dst);
  src_obj ← unwrap_reference src;
  overwrite_child false dst src_obj.

(** Where a store goes and whether it replaces the object there. *)
Definition store_place (dst kind : Z) : M (Z * bool) :=
  if kind =? UACPI_REFERENCE_KIND_NAMED then dst ← unwind_reference dst; mret (dst, false) else
  referenced_obj ← (if kind =? UACPI_REFERENCE_KIND_PKG_INDEX then on_objects (get_pointer dst) else unwrap_reference dst);
  y ← get_obj referenced_obj;
  if Objects.is_reference y then dst ← unwind_reference referenced_obj; mret (dst, kind =? UACPI_REFERENCE_KIND_ARG)
  else mret (dst, true).

Definition store_to_reference (dst src : Z) : M (uacpi_status * option (list Z)) :=
  x ← get_obj dst;
  let kind := o_flags x in
  if negb (existsb (Z.eqb kind) [UACPI_REFERENCE_KIND_ARG; UACPI_REFERENCE_KIND_LOCAL; UACPI_REFERENCE_KIND_PKG_INDEX; UACPI_REFERENCE_KIND_NAMED])
  then mret (UACPI_STATUS_INVALID_ARGUMENT, None) else
  place ← store_place dst kind;
  let '(dst, overwrite) := (place : Z * bool) in
  src_obj ← unwrap_reference src;
  inner ← on_objects (get_pointer dst);
  y ← get_obj inner;
  if overwrite || bool_decide (o_type y = OBJECT_UNINITIALIZED) then ret ← overwrite_child true dst src_obj; mret (ret, None)
  else object_assign_with_implicit_cast inner src_obj.

(** [debug_store] writes to the log and nothing else. *)
Definition store_to_target (dst src : Z) : M (uacpi_status * option (list Z)) :=
  x ← get_obj dst;
  match o_type x with
  | OBJECT_DEBUG => mret (UACPI_STATUS_OK, None)
  | OBJECT_REFERENCE => store_to_reference dst src
  | OBJECT_BUFFER_INDEX => src ← unwrap_reference src; object_assign_with_implicit_cast dst src
  | OBJECT_INTEGER =>
      v ← on_objects (of_opt (integer_of (o_data x)));
      mret (if v =? 0 then UACPI_STATUS_OK else UACPI_STATUS_AML_INCOMPATIBLE_OBJECT_TYPE, None)
  | _ => mret (UACPI_STATUS_AML_INCOMPATIBLE_OBJECT_TYPE, None)
  end.

(** ** Fields *)

Definition buffer_field_get_read_type (f : buffer_field) : M uacpi_object_type :=
  r1 ← gets_state (fun s => rev1 (oworld (world s)));
  mret (if ((if (r1 : bool) then 32 else 64) <? bit_length f) || force_buffer f then OBJECT_BUFFER else OBJECT_INTEGER).

Definition field_get_read_type (obj : Z) : M (uacpi_status * uacpi_object_type) :=
  x ← get_obj obj;
  match o_type x with
  | OBJECT_BUFFER_FIELD => f ← on_objects (of_opt (buffer_field_of (o_data x))); t ← buffer_field_get_read_type f; mret (UACPI_STATUS_OK, t)
  | _ => p ← on_objects (get_pointer obj); uacpi_field_unit_get_read_type p
  end.

(** The integer that Increment and Decrement start from, or a status. *)
Definition inc_dec_source (src : Z) : M (uacpi_status + Z) :=
  x ← get_obj src;
  fs ← (if Objects.is_reference x then
          inner ← on_objects (get_pointer src);
          y ← get_obj inner;
          deep ← unwind_reference src;
          deepest ← on_objects (get_pointer deep);
          mret ((o_flags x =? UACPI_REFERENCE_KIND_NAMED) && negb (Objects.is_reference y), deepest)
        else mret (false, src));
  let '(field_allowed, src) := (fs : bool * Z) in
  x ← get_obj src;
  match o_type x with
  | OBJECT_INTEGER => v ← on_objects (of_opt (integer_of (o_data x))); mret (inr v)
  | OBJECT_FIELD_UNIT | OBJECT_BUFFER_FIELD =>
      if negb field_allowed then mret (inl UACPI_STATUS_AML_INCOMPATIBLE_OBJECT_TYPE) else
      t ← field_get_read_type src;
      if negb (is_ok (fst t)) || negb (bool_decide (snd t = OBJECT_INTEGER)) then mret (inl UACPI_STATUS_AML_INCOMPATIBLE_OBJECT_TYPE) else
      match o_type x with
      | OBJECT_FIELD_UNIT =>
          p ← on_objects (get_pointer src);
          n ← on_aml sizeof_int;
          v ← read_field_unit p n;
          mret (if is_ok (fst v) then inr (snd v) else inl (fst v))
      | _ => f ← on_objects (of_opt (buffer_field_of (o_data x))); v ← read_buffer_field f; mret (inr v)
      end
  | OBJECT_BUFFER_INDEX => v ← on_aml (read_buffer_index src); mret (inr v)
  | _ => mret (inl UACPI_STATUS_AML_INCOMPATIBLE_OBJECT_TYPE)
  end.
End Store.
