(* ===== verification/AmlTables.v ===== *)
(** * acpi/uacpi/opcodes.c and internal/opcodes.h: the instructions of AML

    Every instruction has a program for the machine that takes it apart: a list of bytes,
    each one an operation of that machine or an argument of the operation before.  The
    programs of most instructions are arrays of sixteen bytes in the table, the rest of
    which is zero; a few have an array of their own.  The macros that build entries are
    functions with their names. *)

From Stdlib Require Import String.
From S2P Require Import Prelude Objects.

Open Scope string_scope.
Open Scope list_scope.
Open Scope Z_scope.
Open Scope word_scope.

(** ** Operations of the machine *)

Inductive uacpi_parse_op :=
  | POP_END | POP_SKIP_WITH_WARN_IF_NULL | POP_EMIT_SKIP_WARN | POP_SIMPLE_NAME | POP_SUPERNAME
  | POP_SUPERNAME_OR_UNRESOLVED | POP_TERM_ARG | POP_TERM_ARG_UNWRAP_INTERNAL | POP_TERM_ARG_OR_NAMED_OBJECT
  | POP_TERM_ARG_OR_NAMED_OBJECT_OR_UNRESOLVED | POP_OPERAND | POP_STRING | POP_COMPUTATIONAL_DATA | POP_TARGET
  | POP_PKGLEN | POP_TRACKED_PKGLEN | POP_CREATE_NAMESTRING | POP_CREATE_NAMESTRING_OR_NULL_IF_LOAD
  | POP_EXISTING_NAMESTRING | POP_EXISTING_NAMESTRING_OR_NULL | POP_EXISTING_NAMESTRING_OR_NULL_IF_LOAD
  | POP_INVOKE_HANDLER | POP_OBJECT_ALLOC | POP_EMPTY_OBJECT_ALLOC | POP_OBJECT_CONVERT_TO_SHALLOW_COPY
  | POP_OBJECT_CONVERT_TO_DEEP_COPY | POP_OBJECT_ALLOC_TYPED | POP_RECORD_AML_PC | POP_LOAD_INLINE_IMM_AS_OBJECT
  | POP_LOAD_INLINE_IMM | POP_LOAD_ZERO_IMM | POP_LOAD_IMM | POP_LOAD_IMM_AS_OBJECT | POP_LOAD_FALSE_OBJECT
  | POP_LOAD_TRUE_OBJECT | POP_TRUNCATE_NUMBER | POP_TYPECHECK | POP_INSTALL_NAMESPACE_NODE
  | POP_OBJECT_TRANSFER_TO_PREV | POP_OBJECT_COPY_TO_PREV | POP_STORE_TO_TARGET | POP_STORE_TO_TARGET_INDIRECT
  | POP_UNREACHABLE | POP_BAD_OPCODE | POP_AML_PC_DECREMENT | POP_IMM_DECREMENT | POP_ITEM_POP
  | POP_DISPATCH_METHOD_CALL | POP_DISPATCH_TABLE_LOAD | POP_CONVERT_NAMESTRING | POP_IF_HAS_DATA | POP_IF_NULL
  | POP_IF_LAST_NULL | POP_IF_NOT_NULL | POP_IF_LAST_NOT_NULL | POP_IF_LAST_EQUALS | POP_IF_LAST_FALSE
  | POP_IF_LAST_TRUE | POP_SWITCH_TO_NEXT_IF_EQUALS | POP_IF_SWITCHED_FROM | POP_JMP.

Definition parse_ops : list uacpi_parse_op := [
  POP_END; POP_SKIP_WITH_WARN_IF_NULL; POP_EMIT_SKIP_WARN; POP_SIMPLE_NAME; POP_SUPERNAME;
  POP_SUPERNAME_OR_UNRESOLVED; POP_TERM_ARG; POP_TERM_ARG_UNWRAP_INTERNAL; POP_TERM_ARG_OR_NAMED_OBJECT;
  POP_TERM_ARG_OR_NAMED_OBJECT_OR_UNRESOLVED; POP_OPERAND; POP_STRING; POP_COMPUTATIONAL_DATA; POP_TARGET;
  POP_PKGLEN; POP_TRACKED_PKGLEN; POP_CREATE_NAMESTRING; POP_CREATE_NAMESTRING_OR_NULL_IF_LOAD;
  POP_EXISTING_NAMESTRING; POP_EXISTING_NAMESTRING_OR_NULL; POP_EXISTING_NAMESTRING_OR_NULL_IF_LOAD;
  POP_INVOKE_HANDLER; POP_OBJECT_ALLOC; POP_EMPTY_OBJECT_ALLOC; POP_OBJECT_CONVERT_TO_SHALLOW_COPY;
  POP_OBJECT_CONVERT_TO_DEEP_COPY; POP_OBJECT_ALLOC_TYPED; POP_RECORD_AML_PC; POP_LOAD_INLINE_IMM_AS_OBJECT;
  POP_LOAD_INLINE_IMM; POP_LOAD_ZERO_IMM; POP_LOAD_IMM; POP_LOAD_IMM_AS_OBJECT; POP_LOAD_FALSE_OBJECT;
  POP_LOAD_TRUE_OBJECT; POP_TRUNCATE_NUMBER; POP_TYPECHECK; POP_INSTALL_NAMESPACE_NODE; POP_OBJECT_TRANSFER_TO_PREV;
  POP_OBJECT_COPY_TO_PREV; POP_STORE_TO_TARGET; POP_STORE_TO_TARGET_INDIRECT; POP_UNREACHABLE; POP_BAD_OPCODE;
  POP_AML_PC_DECREMENT; POP_IMM_DECREMENT; POP_ITEM_POP; POP_DISPATCH_METHOD_CALL; POP_DISPATCH_TABLE_LOAD;
  POP_CONVERT_NAMESTRING; POP_IF_HAS_DATA; POP_IF_NULL; POP_IF_LAST_NULL; POP_IF_NOT_NULL; POP_IF_LAST_NOT_NULL;
  POP_IF_LAST_EQUALS; POP_IF_LAST_FALSE; POP_IF_LAST_TRUE; POP_SWITCH_TO_NEXT_IF_EQUALS; POP_IF_SWITCHED_FROM;
  POP_JMP]%list.

#[export] Instance uacpi_parse_op_eq_dec : EqDecision uacpi_parse_op.
Proof. solve_decision. Defined.

Definition pop_value (p : uacpi_parse_op) : Z :=
  match p with
  | POP_END => 0 | POP_SKIP_WITH_WARN_IF_NULL => 1 | POP_EMIT_SKIP_WARN => 2 | POP_SIMPLE_NAME => 3
  | POP_SUPERNAME => 4 | POP_SUPERNAME_OR_UNRESOLVED => 5 | POP_TERM_ARG => 6 | POP_TERM_ARG_UNWRAP_INTERNAL => 7
  | POP_TERM_ARG_OR_NAMED_OBJECT => 8 | POP_TERM_ARG_OR_NAMED_OBJECT_OR_UNRESOLVED => 9 | POP_OPERAND => 10
  | POP_STRING => 11 | POP_COMPUTATIONAL_DATA => 12 | POP_TARGET => 13 | POP_PKGLEN => 14 | POP_TRACKED_PKGLEN => 15
  | POP_CREATE_NAMESTRING => 16 | POP_CREATE_NAMESTRING_OR_NULL_IF_LOAD => 17 | POP_EXISTING_NAMESTRING => 18
  | POP_EXISTING_NAMESTRING_OR_NULL => 19 | POP_EXISTING_NAMESTRING_OR_NULL_IF_LOAD => 20 | POP_INVOKE_HANDLER => 21
  | POP_OBJECT_ALLOC => 22 | POP_EMPTY_OBJECT_ALLOC => 23 | POP_OBJECT_CONVERT_TO_SHALLOW_COPY => 24
  | POP_OBJECT_CONVERT_TO_DEEP_COPY => 25 | POP_OBJECT_ALLOC_TYPED => 26 | POP_RECORD_AML_PC => 27
  | POP_LOAD_INLINE_IMM_AS_OBJECT => 28 | POP_LOAD_INLINE_IMM => 29 | POP_LOAD_ZERO_IMM => 30 | POP_LOAD_IMM => 31
  | POP_LOAD_IMM_AS_OBJECT => 32 | POP_LOAD_FALSE_OBJECT => 33 | POP_LOAD_TRUE_OBJECT => 34
  | POP_TRUNCATE_NUMBER => 35 | POP_TYPECHECK => 36 | POP_INSTALL_NAMESPACE_NODE => 37
  | POP_OBJECT_TRANSFER_TO_PREV => 38 | POP_OBJECT_COPY_TO_PREV => 39 | POP_STORE_TO_TARGET => 40
  | POP_STORE_TO_TARGET_INDIRECT => 41 | POP_UNREACHABLE => 42 | POP_BAD_OPCODE => 43 | POP_AML_PC_DECREMENT => 44
  | POP_IMM_DECREMENT => 45 | POP_ITEM_POP => 46 | POP_DISPATCH_METHOD_CALL => 47 | POP_DISPATCH_TABLE_LOAD => 48
  | POP_CONVERT_NAMESTRING => 49 | POP_IF_HAS_DATA => 50 | POP_IF_NULL => 51 | POP_IF_LAST_NULL => 52
  | POP_IF_NOT_NULL => 53 | POP_IF_LAST_NOT_NULL => 54 | POP_IF_LAST_EQUALS => 55 | POP_IF_LAST_FALSE => 56
  | POP_IF_LAST_TRUE => 57 | POP_SWITCH_TO_NEXT_IF_EQUALS => 58 | POP_IF_SWITCHED_FROM => 59 | POP_JMP => 60
  end.
Coercion pop_value : uacpi_parse_op >-> Z.

(** The operation with a number: [None] for the numbers that no operation has. *)
Definition pop_of (b : Z) : option uacpi_parse_op := parse_ops !! Z.to_nat b.

Lemma pop_of_value (p : uacpi_parse_op) : pop_of p = Some p.
Proof. destruct p; reflexivity. Qed.

(** ** Instructions *)

Definition PROP_TERM_ARG : Z := 1.
Definition PROP_SUPERNAME : Z := 2.
Definition PROP_SIMPLE_NAME : Z := 4.
Definition PROP_TARGET : Z := 8.
Definition PROP_OUT_OF_LINE : Z := 16.
Definition PROP_RESERVED : Z := 128.

Record uacpi_op_spec := { spec_name : string; decode_ops : list Z; properties : Z; spec_code : Z }.

Definition UACPI_EXT_PREFIX : Z := 0x5b.
Definition UACPI_EXT_OP (op : Z) : Z := Z.lor (Z.shiftl UACPI_EXT_PREFIX 8) op.
Definition UACPI_DUAL_NAME_PREFIX : Z := 0x2e.
Definition UACPI_MULTI_NAME_PREFIX : Z := 0x2f.
Definition UACPI_NULL_NAME : Z := 0x00.

(** [decode_ops] of an entry: sixteen bytes. *)
Definition DECODE_OPS_SIZE : nat := 16.

Definition UACPI_OP (opname : string) (opcode : Z) (ops : list Z) (props : Z) : uacpi_op_spec :=
  {| spec_name := opname; decode_ops := ops ++ replicate (DECODE_OPS_SIZE - length ops) 0; properties := props; spec_code := opcode |}.

Definition UACPI_OUT_OF_LINE_OP (opname : string) (opcode : Z) (out_of_line_buf : list Z) (props : Z) : uacpi_op_spec :=
  {| spec_name := opname; decode_ops := out_of_line_buf; properties := props; spec_code := opcode |}.

(** The bytes of a program. *)
Notation "⟨ x ; .. ; y ⟩" := (@cons Z x .. (@cons Z y (@nil Z)) ..) (at level 0).

Definition T (t : uacpi_object_type) : Z := type_value t.

Definition UACPI_INTERNAL_OP (c : Z) : uacpi_op_spec := UACPI_OP "Internal" c ⟨POP_UNREACHABLE⟩ 0.
Definition UACPI_BAD_OPCODE (c : Z) : uacpi_op_spec := UACPI_OP "Reserved" c ⟨POP_BAD_OPCODE⟩ 0.

Definition UACPI_METHOD_CALL_OPCODE (nargs : Z) : uacpi_op_spec := UACPI_OP "InternalOpMethodCallArgs" (0xf7 + nargs)
  ⟨POP_LOAD_INLINE_IMM; 1; nargs; POP_IF_NOT_NULL; 1; 6; POP_TERM_ARG_UNWRAP_INTERNAL; POP_OBJECT_CONVERT_TO_SHALLOW_COPY;
   POP_IMM_DECREMENT; 1; POP_JMP; 3; POP_OBJECT_ALLOC; POP_DISPATCH_METHOD_CALL; POP_OBJECT_TRANSFER_TO_PREV⟩
  (Z.lor PROP_TERM_ARG PROP_RESERVED).

Definition UACPI_UNRESOLVED_NAME_STRING_OP (character : string) (c : Z) : uacpi_op_spec := UACPI_OP character c
  ⟨POP_AML_PC_DECREMENT; POP_EXISTING_NAMESTRING_OR_NULL; POP_CONVERT_NAMESTRING⟩
  (Z.lor (Z.lor PROP_SIMPLE_NAME PROP_SUPERNAME) PROP_TERM_ARG).

Definition UACPI_BUILD_LOCAL_OR_ARG_OP (prefix : string) (base offset : Z) : uacpi_op_spec := UACPI_OP prefix (base + offset)
  ⟨POP_EMPTY_OBJECT_ALLOC; POP_INVOKE_HANDLER; POP_OBJECT_TRANSFER_TO_PREV⟩
  (Z.lor (Z.lor PROP_SUPERNAME PROP_TERM_ARG) PROP_SIMPLE_NAME).
Definition UACPI_LOCALX_OP (idx : Z) : uacpi_op_spec := UACPI_BUILD_LOCAL_OR_ARG_OP "LocalOp" 0x60 idx.
Definition UACPI_ARGX_OP (idx : Z) : uacpi_op_spec := UACPI_BUILD_LOCAL_OR_ARG_OP "ArgOp" 0x68 idx.

Definition UACPI_BUILD_PACKAGE_OP (name : string) (c jmp_off : Z) (size_ops : list Z) : uacpi_op_spec := UACPI_OP name c
  (⟨POP_TRACKED_PKGLEN⟩ ++ size_ops ++
   ⟨POP_IF_HAS_DATA; 4; POP_RECORD_AML_PC; POP_TERM_ARG_OR_NAMED_OBJECT_OR_UNRESOLVED; POP_JMP; jmp_off;
    POP_OBJECT_ALLOC_TYPED; T OBJECT_PACKAGE; POP_INVOKE_HANDLER; POP_OBJECT_TRANSFER_TO_PREV⟩)
  PROP_TERM_ARG.

Definition UACPI_BUILD_BINARY_MATH_OP (prefix : string) (c : Z) : uacpi_op_spec := UACPI_OP prefix c
  ⟨POP_OPERAND; POP_OPERAND; POP_TARGET; POP_OBJECT_ALLOC_TYPED; T OBJECT_INTEGER; POP_INVOKE_HANDLER; POP_TRUNCATE_NUMBER;
   POP_STORE_TO_TARGET; 2; POP_OBJECT_COPY_TO_PREV⟩ PROP_TERM_ARG.

Definition UACPI_BUILD_UNARY_MATH_OP (type : string) (c : Z) : uacpi_op_spec := UACPI_OP type c
  ⟨POP_OPERAND; POP_TARGET; POP_OBJECT_ALLOC_TYPED; T OBJECT_INTEGER; POP_INVOKE_HANDLER; POP_STORE_TO_TARGET; 1;
   POP_OBJECT_TRANSFER_TO_PREV⟩ PROP_TERM_ARG.

Definition UACPI_DO_BUILD_BUFFER_FIELD_OP (type : string) (c node_idx : Z) (more_ops : list Z) : uacpi_op_spec := UACPI_OP type c
  (⟨POP_TERM_ARG_UNWRAP_INTERNAL; POP_TYPECHECK; T OBJECT_BUFFER; POP_OPERAND⟩ ++ more_ops ++
   ⟨POP_CREATE_NAMESTRING_OR_NULL_IF_LOAD; POP_SKIP_WITH_WARN_IF_NULL; node_idx; POP_OBJECT_ALLOC_TYPED; T OBJECT_BUFFER_FIELD;
    POP_INVOKE_HANDLER; POP_INSTALL_NAMESPACE_NODE; node_idx⟩) 0.
Definition UACPI_BUILD_BUFFER_FIELD_OP (type : string) (c : Z) : uacpi_op_spec := UACPI_DO_BUILD_BUFFER_FIELD_OP type c 2 [].

Definition UACPI_INTEGER_LITERAL_OP (type : string) (c bytes : Z) : uacpi_op_spec := UACPI_OP type c
  ⟨POP_LOAD_IMM_AS_OBJECT; bytes; POP_OBJECT_TRANSFER_TO_PREV⟩ PROP_TERM_ARG.

Definition UACPI_BUILD_BINARY_LOGIC_OP (type : string) (c : Z) : uacpi_op_spec := UACPI_OP type c
  ⟨POP_COMPUTATIONAL_DATA; POP_COMPUTATIONAL_DATA; POP_OBJECT_ALLOC_TYPED; T OBJECT_INTEGER; POP_INVOKE_HANDLER;
   POP_OBJECT_TRANSFER_TO_PREV⟩ PROP_TERM_ARG.

Definition UACPI_BUILD_TO_OP (kind : string) (c : Z) (dst_type : uacpi_object_type) : uacpi_op_spec := UACPI_OP kind c
  ⟨POP_COMPUTATIONAL_DATA; POP_TARGET; POP_OBJECT_ALLOC_TYPED; T dst_type; POP_INVOKE_HANDLER; POP_STORE_TO_TARGET; 1;
   POP_OBJECT_TRANSFER_TO_PREV⟩ PROP_TERM_ARG.

Definition UACPI_BUILD_INC_DEC_OP (prefix : string) (c : Z) : uacpi_op_spec := UACPI_OP prefix c
  ⟨POP_SUPERNAME; POP_OBJECT_ALLOC_TYPED; T OBJECT_INTEGER; POP_INVOKE_HANDLER; POP_TRUNCATE_NUMBER; POP_STORE_TO_TARGET; 0;
   POP_OBJECT_TRANSFER_TO_PREV⟩ PROP_TERM_ARG.

Definition UACPI_BUILD_NAMED_SCOPE_OBJECT_OP (name : string) (c : Z) (type : uacpi_object_type) (more_ops : list Z) : uacpi_op_spec :=
  UACPI_OP name (UACPI_EXT_OP c)
  (⟨POP_TRACKED_PKGLEN; POP_CREATE_NAMESTRING_OR_NULL_IF_LOAD⟩ ++ more_ops ++
   ⟨POP_SKIP_WITH_WARN_IF_NULL; 1; POP_OBJECT_ALLOC_TYPED; T type; POP_INVOKE_HANDLER; POP_INSTALL_NAMESPACE_NODE; 1⟩) 0.

Definition UACPI_BUILD_TO_FROM_BCD (type : string) (c : Z) : uacpi_op_spec := UACPI_OP type (UACPI_EXT_OP c)
  ⟨POP_OPERAND; POP_TARGET; POP_OBJECT_ALLOC_TYPED; T OBJECT_INTEGER; POP_INVOKE_HANDLER; POP_STORE_TO_TARGET; 1;
   POP_OBJECT_TRANSFER_TO_PREV⟩ PROP_TERM_ARG.

(** ** Programs of their own *)

Definition PARSE_FIELD_ELEMENTS (parse_loop_pc : Z) : list Z :=
  ⟨POP_IF_HAS_DATA; 44; POP_LOAD_IMM; 1;
   POP_IF_LAST_EQUALS; 0x00; 3; POP_PKGLEN; POP_JMP; parse_loop_pc;
   POP_IF_LAST_EQUALS; 0x01; 6; POP_LOAD_IMM; 1; POP_LOAD_IMM; 1; POP_JMP; parse_loop_pc;
   POP_IF_LAST_EQUALS; 0x02; 5; POP_TERM_ARG_UNWRAP_INTERNAL; POP_TYPECHECK; T OBJECT_BUFFER; POP_JMP; parse_loop_pc;
   POP_IF_LAST_EQUALS; 0x03; 8; POP_LOAD_IMM; 1; POP_LOAD_IMM; 1; POP_LOAD_IMM; 1; POP_JMP; parse_loop_pc;
   POP_ITEM_POP; POP_AML_PC_DECREMENT; POP_CREATE_NAMESTRING; POP_PKGLEN; POP_OBJECT_ALLOC_TYPED; T OBJECT_FIELD_UNIT; POP_JMP; parse_loop_pc;
   POP_INVOKE_HANDLER; POP_END⟩.

Definition uacpi_field_op_decode_ops : list Z :=
  (⟨POP_TRACKED_PKGLEN; POP_EXISTING_NAMESTRING; POP_LOAD_IMM; 1⟩ ++ PARSE_FIELD_ELEMENTS 4)%list.
Definition uacpi_bank_field_op_decode_ops : list Z :=
  (⟨POP_TRACKED_PKGLEN; POP_EXISTING_NAMESTRING; POP_EXISTING_NAMESTRING; POP_OPERAND; POP_LOAD_IMM; 1⟩ ++ PARSE_FIELD_ELEMENTS 6)%list.
Definition uacpi_index_field_op_decode_ops : list Z :=
  (⟨POP_TRACKED_PKGLEN; POP_EXISTING_NAMESTRING; POP_EXISTING_NAMESTRING; POP_LOAD_IMM; 1⟩ ++ PARSE_FIELD_ELEMENTS 5)%list.

Definition uacpi_load_op_decode_ops : list Z :=
  ⟨POP_LOAD_ZERO_IMM; POP_OBJECT_ALLOC_TYPED; T OBJECT_METHOD; POP_TERM_ARG_UNWRAP_INTERNAL; POP_TARGET;
   POP_INVOKE_HANDLER; POP_IF_NULL; 0; 3; POP_LOAD_FALSE_OBJECT; POP_JMP; 15;
   POP_LOAD_TRUE_OBJECT; POP_DISPATCH_TABLE_LOAD;
   POP_INVOKE_HANDLER; POP_STORE_TO_TARGET; 3; POP_OBJECT_TRANSFER_TO_PREV; POP_END⟩.

Definition uacpi_load_table_op_decode_ops : list Z :=
  ⟨POP_LOAD_ZERO_IMM; POP_OBJECT_ALLOC_TYPED; T OBJECT_METHOD; POP_LOAD_ZERO_IMM; POP_LOAD_ZERO_IMM;
   POP_LOAD_INLINE_IMM; 1; 5; POP_IF_NOT_NULL; 4; 5; POP_STRING; POP_IMM_DECREMENT; 4; POP_JMP; 8; POP_TERM_ARG_UNWRAP_INTERNAL;
   POP_INVOKE_HANDLER; POP_IF_NULL; 0; 3; POP_LOAD_FALSE_OBJECT; POP_OBJECT_TRANSFER_TO_PREV; POP_END;
   POP_LOAD_TRUE_OBJECT; POP_DISPATCH_TABLE_LOAD; POP_INVOKE_HANDLER;
   POP_IF_NOT_NULL; 3; 3; POP_STORE_TO_TARGET_INDIRECT; 3; 10; POP_OBJECT_TRANSFER_TO_PREV; POP_END⟩.

(** ** The tables *)

(** Literals and named objects. *)
Definition opcodes_literals : list uacpi_op_spec :=
  [UACPI_OP "ZeroOp" 0x00 ⟨POP_LOAD_INLINE_IMM_AS_OBJECT; 0x00; 0x00; 0x00; 0x00; 0x00; 0x00; 0x00; 0x00; POP_OBJECT_TRANSFER_TO_PREV⟩ (Z.lor PROP_TARGET PROP_TERM_ARG);
   UACPI_OP "OneOp" 0x01 ⟨POP_LOAD_INLINE_IMM_AS_OBJECT; 0x01; 0x00; 0x00; 0x00; 0x00; 0x00; 0x00; 0x00; POP_OBJECT_TRANSFER_TO_PREV⟩ PROP_TERM_ARG;
   UACPI_BAD_OPCODE 0x02;
   UACPI_BAD_OPCODE 0x03;
   UACPI_BAD_OPCODE 0x04;
   UACPI_BAD_OPCODE 0x05;
   UACPI_OP "AliasOp" 0x06 ⟨POP_EXISTING_NAMESTRING_OR_NULL_IF_LOAD; POP_CREATE_NAMESTRING_OR_NULL_IF_LOAD; POP_SKIP_WITH_WARN_IF_NULL; 0; POP_SKIP_WITH_WARN_IF_NULL; 1; POP_INVOKE_HANDLER; POP_INSTALL_NAMESPACE_NODE; 1⟩ 0;
   UACPI_BAD_OPCODE 0x07;
   UACPI_OP "NameOp" 0x08 ⟨POP_CREATE_NAMESTRING_OR_NULL_IF_LOAD; POP_TERM_ARG_UNWRAP_INTERNAL; POP_SKIP_WITH_WARN_IF_NULL; 0; POP_OBJECT_CONVERT_TO_DEEP_COPY; POP_INVOKE_HANDLER; POP_INSTALL_NAMESPACE_NODE; 0⟩ 0;
   UACPI_BAD_OPCODE 0x09;
   UACPI_INTEGER_LITERAL_OP "BytePrefix" 0x0A 1;
   UACPI_INTEGER_LITERAL_OP "WordPrefix" 0x0B 2;
   UACPI_INTEGER_LITERAL_OP "DWordPrefix" 0x0C 4;
   UACPI_OP "StringPrefix" 0x0D ⟨POP_OBJECT_ALLOC_TYPED; T OBJECT_STRING; POP_INVOKE_HANDLER; POP_OBJECT_TRANSFER_TO_PREV⟩ PROP_TERM_ARG;
   UACPI_INTEGER_LITERAL_OP "QWordPrefix" 0x0E 8;
   UACPI_BAD_OPCODE 0x0F;
   UACPI_OP "ScopeOp" 0x10 ⟨POP_TRACKED_PKGLEN; POP_EXISTING_NAMESTRING_OR_NULL_IF_LOAD; POP_SKIP_WITH_WARN_IF_NULL; 1; POP_INVOKE_HANDLER⟩ 0;
   UACPI_OP "BufferOp" 0x11 ⟨POP_TRACKED_PKGLEN; POP_OPERAND; POP_RECORD_AML_PC; POP_OBJECT_ALLOC_TYPED; T OBJECT_BUFFER; POP_INVOKE_HANDLER; POP_OBJECT_TRANSFER_TO_PREV⟩ PROP_TERM_ARG;
   UACPI_BUILD_PACKAGE_OP "PackageOp" 0x12 3 ⟨POP_LOAD_IMM; 1⟩;
   UACPI_BUILD_PACKAGE_OP "VarPackageOp" 0x13 2 ⟨POP_OPERAND⟩;
   UACPI_OP "MethodOp" 0x14 ⟨POP_TRACKED_PKGLEN; POP_CREATE_NAMESTRING_OR_NULL_IF_LOAD; POP_LOAD_IMM; 1; POP_SKIP_WITH_WARN_IF_NULL; 1; POP_RECORD_AML_PC; POP_OBJECT_ALLOC_TYPED; T OBJECT_METHOD; POP_INVOKE_HANDLER; POP_INSTALL_NAMESPACE_NODE; 1⟩ 0;
   UACPI_OP "ExternalOp" 0x15 ⟨POP_EXISTING_NAMESTRING_OR_NULL; POP_LOAD_IMM; 1; POP_LOAD_IMM; 1⟩ 0;
   UACPI_BAD_OPCODE 0x16;
   UACPI_BAD_OPCODE 0x17;
   UACPI_BAD_OPCODE 0x18;
   UACPI_BAD_OPCODE 0x19;
   UACPI_BAD_OPCODE 0x1A;
   UACPI_BAD_OPCODE 0x1B;
   UACPI_BAD_OPCODE 0x1C;
   UACPI_BAD_OPCODE 0x1D;
   UACPI_BAD_OPCODE 0x1E;
   UACPI_BAD_OPCODE 0x1F;
   UACPI_BAD_OPCODE 0x20;
   UACPI_BAD_OPCODE 0x21;
   UACPI_BAD_OPCODE 0x22;
   UACPI_BAD_OPCODE 0x23;
   UACPI_BAD_OPCODE 0x24;
   UACPI_BAD_OPCODE 0x25;
   UACPI_BAD_OPCODE 0x26;
   UACPI_BAD_OPCODE 0x27;
   UACPI_BAD_OPCODE 0x28;
   UACPI_BAD_OPCODE 0x29;
   UACPI_BAD_OPCODE 0x2A;
   UACPI_BAD_OPCODE 0x2B;
   UACPI_BAD_OPCODE 0x2C;
   UACPI_BAD_OPCODE 0x2D;
   UACPI_UNRESOLVED_NAME_STRING_OP "DualNamePrefix" 0x2E;
   UACPI_UNRESOLVED_NAME_STRING_OP "MultiNamePrefix" 0x2F]%list.

(** Names and variables. *)
Definition opcodes_names : list uacpi_op_spec :=
  [UACPI_INTERNAL_OP 0x30;
   UACPI_INTERNAL_OP 0x31;
   UACPI_INTERNAL_OP 0x32;
   UACPI_INTERNAL_OP 0x33;
   UACPI_INTERNAL_OP 0x34;
   UACPI_INTERNAL_OP 0x35;
   UACPI_INTERNAL_OP 0x36;
   UACPI_INTERNAL_OP 0x37;
   UACPI_INTERNAL_OP 0x38;
   UACPI_INTERNAL_OP 0x39;
   UACPI_BAD_OPCODE 0x3A;
   UACPI_BAD_OPCODE 0x3B;
   UACPI_BAD_OPCODE 0x3C;
   UACPI_BAD_OPCODE 0x3D;
   UACPI_BAD_OPCODE 0x3E;
   UACPI_BAD_OPCODE 0x3F;
   UACPI_BAD_OPCODE 0x40;
   UACPI_UNRESOLVED_NAME_STRING_OP "A" 0x41;
   UACPI_UNRESOLVED_NAME_STRING_OP "B" 0x42;
   UACPI_UNRESOLVED_NAME_STRING_OP "C" 0x43;
   UACPI_UNRESOLVED_NAME_STRING_OP "D" 0x44;
   UACPI_UNRESOLVED_NAME_STRING_OP "E" 0x45;
   UACPI_UNRESOLVED_NAME_STRING_OP "F" 0x46;
   UACPI_UNRESOLVED_NAME_STRING_OP "G" 0x47;
   UACPI_UNRESOLVED_NAME_STRING_OP "H" 0x48;
   UACPI_UNRESOLVED_NAME_STRING_OP "I" 0x49;
   UACPI_UNRESOLVED_NAME_STRING_OP "J" 0x4A;
   UACPI_UNRESOLVED_NAME_STRING_OP "K" 0x4B;
   UACPI_UNRESOLVED_NAME_STRING_OP "L" 0x4C;
   UACPI_UNRESOLVED_NAME_STRING_OP "M" 0x4D;
   UACPI_UNRESOLVED_NAME_STRING_OP "N" 0x4E;
   UACPI_UNRESOLVED_NAME_STRING_OP "O" 0x4F;
   UACPI_UNRESOLVED_NAME_STRING_OP "P" 0x50;
   UACPI_UNRESOLVED_NAME_STRING_OP "Q" 0x51;
   UACPI_UNRESOLVED_NAME_STRING_OP "R" 0x52;
   UACPI_UNRESOLVED_NAME_STRING_OP "S" 0x53;
   UACPI_UNRESOLVED_NAME_STRING_OP "T" 0x54;
   UACPI_UNRESOLVED_NAME_STRING_OP "U" 0x55;
   UACPI_UNRESOLVED_NAME_STRING_OP "V" 0x56;
   UACPI_UNRESOLVED_NAME_STRING_OP "W" 0x57;
   UACPI_UNRESOLVED_NAME_STRING_OP "X" 0x58;
   UACPI_UNRESOLVED_NAME_STRING_OP "Y" 0x59;
   UACPI_UNRESOLVED_NAME_STRING_OP "Z" 0x5A;
   UACPI_INTERNAL_OP 0x5B;
   UACPI_UNRESOLVED_NAME_STRING_OP "RootChar" 0x5C;
   UACPI_BAD_OPCODE 0x5D;
   UACPI_UNRESOLVED_NAME_STRING_OP "ParentPrefixChar" 0x5E;
   UACPI_UNRESOLVED_NAME_STRING_OP "Underscore" 0x5F;
   UACPI_LOCALX_OP 0;
   UACPI_LOCALX_OP 1;
   UACPI_LOCALX_OP 2;
   UACPI_LOCALX_OP 3;
   UACPI_LOCALX_OP 4;
   UACPI_LOCALX_OP 5;
   UACPI_LOCALX_OP 6;
   UACPI_LOCALX_OP 7;
   UACPI_ARGX_OP 0;
   UACPI_ARGX_OP 1;
   UACPI_ARGX_OP 2;
   UACPI_ARGX_OP 3;
   UACPI_ARGX_OP 4;
   UACPI_ARGX_OP 5;
   UACPI_ARGX_OP 6;
   UACPI_BAD_OPCODE 0x6F]%list.

(** Stores and arithmetic. *)
Definition opcodes_math : list uacpi_op_spec :=
  [UACPI_OP "StoreOp" 0x70 ⟨POP_TERM_ARG; POP_SUPERNAME; POP_INVOKE_HANDLER; POP_ITEM_POP; POP_OBJECT_COPY_TO_PREV⟩ PROP_TERM_ARG;
   UACPI_OP "RefOfOp" 0x71 ⟨POP_SUPERNAME; POP_OBJECT_ALLOC; POP_INVOKE_HANDLER; POP_OBJECT_TRANSFER_TO_PREV⟩ PROP_TERM_ARG;
   UACPI_BUILD_BINARY_MATH_OP "AddOp" 0x72;
   UACPI_OP "ConcatOp" 0x73 ⟨POP_COMPUTATIONAL_DATA; POP_COMPUTATIONAL_DATA; POP_TARGET; POP_OBJECT_ALLOC_TYPED; T OBJECT_BUFFER; POP_INVOKE_HANDLER; POP_STORE_TO_TARGET; 2; POP_OBJECT_COPY_TO_PREV⟩ PROP_TERM_ARG;
   UACPI_BUILD_BINARY_MATH_OP "SubtractOp" 0x74;
   UACPI_BUILD_INC_DEC_OP "IncrementOp" 0x75;
   UACPI_BUILD_INC_DEC_OP "DecrementOp" 0x76;
   UACPI_BUILD_BINARY_MATH_OP "MultiplyOp" 0x77;
   UACPI_OP "DivideOp" 0x78 ⟨POP_OPERAND; POP_OPERAND; POP_TARGET; POP_TARGET; POP_OBJECT_ALLOC_TYPED; T OBJECT_INTEGER; POP_OBJECT_ALLOC_TYPED; T OBJECT_INTEGER; POP_INVOKE_HANDLER; POP_STORE_TO_TARGET; 3; POP_OBJECT_COPY_TO_PREV; POP_STORE_TO_TARGET_INDIRECT; 2; 4⟩ PROP_TERM_ARG;
   UACPI_BUILD_BINARY_MATH_OP "ShiftLeftOp" 0x79;
   UACPI_BUILD_BINARY_MATH_OP "ShiftRightOp" 0x7A;
   UACPI_BUILD_BINARY_MATH_OP "AndOp" 0x7B;
   UACPI_BUILD_BINARY_MATH_OP "NandOp" 0x7C;
   UACPI_BUILD_BINARY_MATH_OP "OrOp" 0x7D;
   UACPI_BUILD_BINARY_MATH_OP "NorOp" 0x7E;
   UACPI_BUILD_BINARY_MATH_OP "XorOp" 0x7F]%list.

(** Parts of objects, and fields of buffers. *)
Definition opcodes_objects : list uacpi_op_spec :=
  [UACPI_BUILD_UNARY_MATH_OP "NotOp" 0x80;
   UACPI_BUILD_UNARY_MATH_OP "FindSetLeftBitOp" 0x81;
   UACPI_BUILD_UNARY_MATH_OP "FindSetRightBitOp" 0x82;
   UACPI_OP "DerefOfOp" 0x83 ⟨POP_TERM_ARG_UNWRAP_INTERNAL; POP_OBJECT_ALLOC; POP_INVOKE_HANDLER; POP_OBJECT_TRANSFER_TO_PREV⟩ PROP_TERM_ARG;
   UACPI_OP "ConcatResOp" 0x84 ⟨POP_TERM_ARG_UNWRAP_INTERNAL; POP_TYPECHECK; T OBJECT_BUFFER; POP_TERM_ARG_UNWRAP_INTERNAL; POP_TYPECHECK; T OBJECT_BUFFER; POP_TARGET; POP_OBJECT_ALLOC_TYPED; T OBJECT_BUFFER; POP_INVOKE_HANDLER; POP_STORE_TO_TARGET; 2; POP_OBJECT_TRANSFER_TO_PREV⟩ PROP_TERM_ARG;
   UACPI_BUILD_BINARY_MATH_OP "ModOp" 0x85;
   UACPI_OP "NotifyOp" 0x86 ⟨POP_EXISTING_NAMESTRING_OR_NULL_IF_LOAD; POP_OPERAND; POP_SKIP_WITH_WARN_IF_NULL; 0; POP_INVOKE_HANDLER⟩ 0;
   UACPI_OP "SizeOfOp" 0x87 ⟨POP_SUPERNAME; POP_OBJECT_ALLOC_TYPED; T OBJECT_INTEGER; POP_INVOKE_HANDLER; POP_OBJECT_TRANSFER_TO_PREV⟩ PROP_TERM_ARG;
   UACPI_OP "IndexOp" 0x88 ⟨POP_TERM_ARG_UNWRAP_INTERNAL; POP_OPERAND; POP_TARGET; POP_EMPTY_OBJECT_ALLOC; POP_INVOKE_HANDLER; POP_STORE_TO_TARGET; 2; POP_OBJECT_TRANSFER_TO_PREV⟩ (Z.lor (Z.lor PROP_TERM_ARG PROP_SUPERNAME) PROP_SIMPLE_NAME);
   UACPI_OP "MatchOp" 0x89 ⟨POP_TERM_ARG_UNWRAP_INTERNAL; POP_TYPECHECK; T OBJECT_PACKAGE; POP_LOAD_IMM; 1; POP_OPERAND; POP_LOAD_IMM; 1; POP_OPERAND; POP_OPERAND; POP_OBJECT_ALLOC_TYPED; T OBJECT_INTEGER; POP_INVOKE_HANDLER; POP_OBJECT_TRANSFER_TO_PREV⟩ PROP_TERM_ARG;
   UACPI_BUILD_BUFFER_FIELD_OP "CreateDWordFieldOp" 0x8A;
   UACPI_BUILD_BUFFER_FIELD_OP "CreateWordFieldOp" 0x8B;
   UACPI_BUILD_BUFFER_FIELD_OP "CreateByteFieldOp" 0x8C;
   UACPI_BUILD_BUFFER_FIELD_OP "CreateBitFieldOp" 0x8D;
   UACPI_OP "ObjectTypeOp" 0x8E ⟨POP_TERM_ARG_OR_NAMED_OBJECT; POP_OBJECT_ALLOC_TYPED; T OBJECT_INTEGER; POP_INVOKE_HANDLER; POP_OBJECT_TRANSFER_TO_PREV⟩ PROP_TERM_ARG;
   UACPI_BUILD_BUFFER_FIELD_OP "CreateQWordFieldOp" 0x8F]%list.

(** Logic, conversions and the flow of control. *)
Definition opcodes_flow : list uacpi_op_spec :=
  [UACPI_BUILD_BINARY_LOGIC_OP "LandOp" 0x90;
   UACPI_BUILD_BINARY_LOGIC_OP "LorOp" 0x91;
   UACPI_OP "LnotOp" 0x92 ⟨POP_OPERAND; POP_OBJECT_ALLOC; POP_INVOKE_HANDLER; POP_OBJECT_TRANSFER_TO_PREV⟩ PROP_TERM_ARG;
   UACPI_BUILD_BINARY_LOGIC_OP "LEqualOp" 0x93;
   UACPI_BUILD_BINARY_LOGIC_OP "LGreaterOp" 0x94;
   UACPI_BUILD_BINARY_LOGIC_OP "LLessOp" 0x95;
   UACPI_BUILD_TO_OP "ToBufferOp" 0x96 OBJECT_BUFFER;
   UACPI_BUILD_TO_OP "ToDecimalStringOp" 0x97 OBJECT_STRING;
   UACPI_BUILD_TO_OP "ToHexStringOp" 0x98 OBJECT_STRING;
   UACPI_BUILD_TO_OP "ToIntegerOp" 0x99 OBJECT_INTEGER;
   UACPI_BAD_OPCODE 0x9A;
   UACPI_BAD_OPCODE 0x9B;
   UACPI_OP "ToStringOp" 0x9C ⟨POP_TERM_ARG_UNWRAP_INTERNAL; POP_TYPECHECK; T OBJECT_BUFFER; POP_OPERAND; POP_TARGET; POP_OBJECT_ALLOC_TYPED; T OBJECT_STRING; POP_INVOKE_HANDLER; POP_STORE_TO_TARGET; 2; POP_OBJECT_TRANSFER_TO_PREV⟩ PROP_TERM_ARG;
   UACPI_OP "CopyObjectOp" 0x9D ⟨POP_TERM_ARG; POP_OBJECT_COPY_TO_PREV; POP_SIMPLE_NAME; POP_INVOKE_HANDLER⟩ PROP_TERM_ARG;
   UACPI_OP "MidOp" 0x9E ⟨POP_TERM_ARG_UNWRAP_INTERNAL; POP_OPERAND; POP_OPERAND; POP_TARGET; POP_OBJECT_ALLOC_TYPED; T OBJECT_BUFFER; POP_INVOKE_HANDLER; POP_STORE_TO_TARGET; 3; POP_OBJECT_TRANSFER_TO_PREV⟩ PROP_TERM_ARG;
   UACPI_OP "ContinueOp" 0x9F ⟨POP_INVOKE_HANDLER⟩ 0;
   UACPI_OP "IfOp" 0xA0 ⟨POP_TRACKED_PKGLEN; POP_OPERAND; POP_IF_LAST_NULL; 3; POP_EMIT_SKIP_WARN; POP_JMP; 9; POP_IF_LAST_FALSE; 4; POP_SWITCH_TO_NEXT_IF_EQUALS; 0xA1; 0x00; POP_END; POP_INVOKE_HANDLER⟩ 0;
   UACPI_OP "ElseOp" 0xA1 ⟨POP_IF_SWITCHED_FROM; 0xA0; 0x00; 10; POP_IF_LAST_NULL; 3; POP_TRACKED_PKGLEN; POP_EMIT_SKIP_WARN; POP_END; POP_ITEM_POP; POP_ITEM_POP; POP_PKGLEN; POP_INVOKE_HANDLER; POP_END; POP_TRACKED_PKGLEN⟩ 0;
   UACPI_OP "WhileOp" 0xA2 ⟨POP_TRACKED_PKGLEN; POP_OPERAND; POP_SKIP_WITH_WARN_IF_NULL; 1; POP_IF_LAST_TRUE; 1; POP_INVOKE_HANDLER⟩ 0;
   UACPI_OP "NoopOp" 0xA3 ⟨POP_END⟩ 0;
   UACPI_OP "ReturnOp" 0xA4 ⟨POP_TERM_ARG_UNWRAP_INTERNAL; POP_INVOKE_HANDLER⟩ 0;
   UACPI_OP "BreakOp" 0xA5 ⟨POP_INVOKE_HANDLER⟩ 0]%list.

(** What the interpreter makes of names, and calls of methods. *)
Definition opcodes_internal : list uacpi_op_spec :=
  [UACPI_BAD_OPCODE 0xA6;
   UACPI_BAD_OPCODE 0xA7;
   UACPI_BAD_OPCODE 0xA8;
   UACPI_BAD_OPCODE 0xA9;
   UACPI_BAD_OPCODE 0xAA;
   UACPI_BAD_OPCODE 0xAB;
   UACPI_BAD_OPCODE 0xAC;
   UACPI_BAD_OPCODE 0xAD;
   UACPI_BAD_OPCODE 0xAE;
   UACPI_BAD_OPCODE 0xAF;
   UACPI_BAD_OPCODE 0xB0;
   UACPI_BAD_OPCODE 0xB1;
   UACPI_BAD_OPCODE 0xB2;
   UACPI_BAD_OPCODE 0xB3;
   UACPI_BAD_OPCODE 0xB4;
   UACPI_BAD_OPCODE 0xB5;
   UACPI_BAD_OPCODE 0xB6;
   UACPI_BAD_OPCODE 0xB7;
   UACPI_BAD_OPCODE 0xB8;
   UACPI_BAD_OPCODE 0xB9;
   UACPI_BAD_OPCODE 0xBA;
   UACPI_BAD_OPCODE 0xBB;
   UACPI_BAD_OPCODE 0xBC;
   UACPI_BAD_OPCODE 0xBD;
   UACPI_BAD_OPCODE 0xBE;
   UACPI_BAD_OPCODE 0xBF;
   UACPI_BAD_OPCODE 0xC0;
   UACPI_BAD_OPCODE 0xC1;
   UACPI_BAD_OPCODE 0xC2;
   UACPI_BAD_OPCODE 0xC3;
   UACPI_BAD_OPCODE 0xC4;
   UACPI_BAD_OPCODE 0xC5;
   UACPI_BAD_OPCODE 0xC6;
   UACPI_BAD_OPCODE 0xC7;
   UACPI_BAD_OPCODE 0xC8;
   UACPI_BAD_OPCODE 0xC9;
   UACPI_BAD_OPCODE 0xCA;
   UACPI_BAD_OPCODE 0xCB;
   UACPI_OP "BreakPointOp" 0xCC ⟨POP_INVOKE_HANDLER⟩ 0;
   UACPI_BAD_OPCODE 0xCD;
   UACPI_BAD_OPCODE 0xCE;
   UACPI_BAD_OPCODE 0xCF;
   UACPI_BAD_OPCODE 0xD0;
   UACPI_BAD_OPCODE 0xD1;
   UACPI_BAD_OPCODE 0xD2;
   UACPI_BAD_OPCODE 0xD3;
   UACPI_BAD_OPCODE 0xD4;
   UACPI_BAD_OPCODE 0xD5;
   UACPI_BAD_OPCODE 0xD6;
   UACPI_BAD_OPCODE 0xD7;
   UACPI_BAD_OPCODE 0xD8;
   UACPI_BAD_OPCODE 0xD9;
   UACPI_BAD_OPCODE 0xDA;
   UACPI_BAD_OPCODE 0xDB;
   UACPI_BAD_OPCODE 0xDC;
   UACPI_BAD_OPCODE 0xDD;
   UACPI_BAD_OPCODE 0xDE;
   UACPI_BAD_OPCODE 0xDF;
   UACPI_BAD_OPCODE 0xE0;
   UACPI_BAD_OPCODE 0xE1;
   UACPI_BAD_OPCODE 0xE2;
   UACPI_BAD_OPCODE 0xE3;
   UACPI_BAD_OPCODE 0xE4;
   UACPI_BAD_OPCODE 0xE5;
   UACPI_BAD_OPCODE 0xE6;
   UACPI_BAD_OPCODE 0xE7;
   UACPI_BAD_OPCODE 0xE8;
   UACPI_BAD_OPCODE 0xE9;
   UACPI_BAD_OPCODE 0xEA;
   UACPI_BAD_OPCODE 0xEB;
   UACPI_BAD_OPCODE 0xEC;
   UACPI_BAD_OPCODE 0xED;
   UACPI_BAD_OPCODE 0xEE;
   UACPI_BAD_OPCODE 0xEF;
   UACPI_BAD_OPCODE 0xF0;
   UACPI_BAD_OPCODE 0xF1;
   UACPI_BAD_OPCODE 0xF2;
   UACPI_BAD_OPCODE 0xF3;
   UACPI_OP "InternalOpReadFieldAsBuffer" 0xF4 ⟨POP_OBJECT_ALLOC_TYPED; T OBJECT_BUFFER; POP_INVOKE_HANDLER; POP_OBJECT_TRANSFER_TO_PREV⟩ (Z.lor PROP_TERM_ARG PROP_RESERVED);
   UACPI_OP "InternalOpReadFieldAsInteger" 0xF5 ⟨POP_OBJECT_ALLOC_TYPED; T OBJECT_INTEGER; POP_INVOKE_HANDLER; POP_OBJECT_TRANSFER_TO_PREV⟩ (Z.lor PROP_TERM_ARG PROP_RESERVED);
   UACPI_OP "InternalOpNamedObject" 0xF6 ⟨POP_EMPTY_OBJECT_ALLOC; POP_INVOKE_HANDLER; POP_OBJECT_TRANSFER_TO_PREV⟩ (Z.lor (Z.lor (Z.lor PROP_SIMPLE_NAME PROP_SUPERNAME) PROP_TERM_ARG) PROP_RESERVED);
   UACPI_METHOD_CALL_OPCODE 0;
   UACPI_METHOD_CALL_OPCODE 1;
   UACPI_METHOD_CALL_OPCODE 2;
   UACPI_METHOD_CALL_OPCODE 3;
   UACPI_METHOD_CALL_OPCODE 4;
   UACPI_METHOD_CALL_OPCODE 5;
   UACPI_METHOD_CALL_OPCODE 6;
   UACPI_METHOD_CALL_OPCODE 7;
   UACPI_OP "OnesOp" 0xFF ⟨POP_LOAD_INLINE_IMM_AS_OBJECT; 0xFF; 0xFF; 0xFF; 0xFF; 0xFF; 0xFF; 0xFF; 0xFF; POP_TRUNCATE_NUMBER; POP_OBJECT_TRANSFER_TO_PREV⟩ PROP_TERM_ARG]%list.

Definition opcode_table : list uacpi_op_spec := (opcodes_literals ++ opcodes_names ++ opcodes_math ++ opcodes_objects ++ opcodes_flow ++ opcodes_internal)%list.

(** Objects of synchronisation, and tables. *)
Definition ext_opcodes_sync : list uacpi_op_spec :=
  [UACPI_OP "ReservedExtOp" (UACPI_EXT_OP 0x00) ⟨POP_BAD_OPCODE⟩ 0;
   UACPI_OP "MutexOp" (UACPI_EXT_OP 0x01) ⟨POP_CREATE_NAMESTRING_OR_NULL_IF_LOAD; POP_LOAD_IMM; 1; POP_SKIP_WITH_WARN_IF_NULL; 0; POP_OBJECT_ALLOC_TYPED; T OBJECT_MUTEX; POP_INVOKE_HANDLER; POP_INSTALL_NAMESPACE_NODE; 0⟩ 0;
   UACPI_OP "EventOp" (UACPI_EXT_OP 0x02) ⟨POP_CREATE_NAMESTRING_OR_NULL_IF_LOAD; POP_SKIP_WITH_WARN_IF_NULL; 0; POP_OBJECT_ALLOC_TYPED; T OBJECT_EVENT; POP_INVOKE_HANDLER; POP_INSTALL_NAMESPACE_NODE; 0⟩ 0;
   UACPI_OP "CondRefOfOp" (UACPI_EXT_OP 0x12) ⟨POP_SUPERNAME_OR_UNRESOLVED; POP_TARGET; POP_IF_NULL; 0; 3; POP_LOAD_FALSE_OBJECT; POP_OBJECT_TRANSFER_TO_PREV; POP_END; POP_OBJECT_ALLOC; POP_INVOKE_HANDLER; POP_STORE_TO_TARGET; 1; POP_LOAD_TRUE_OBJECT; POP_OBJECT_TRANSFER_TO_PREV⟩ PROP_TERM_ARG;
   UACPI_DO_BUILD_BUFFER_FIELD_OP "CreateFieldOp" (UACPI_EXT_OP 0x13) 3 ⟨POP_OPERAND⟩;
   UACPI_OUT_OF_LINE_OP "LoadTableOp" (UACPI_EXT_OP 0x1F) uacpi_load_table_op_decode_ops (Z.lor PROP_TERM_ARG PROP_OUT_OF_LINE);
   UACPI_OUT_OF_LINE_OP "LoadOp" (UACPI_EXT_OP 0x20) uacpi_load_op_decode_ops (Z.lor PROP_TERM_ARG PROP_OUT_OF_LINE);
   UACPI_OP "StallOp" (UACPI_EXT_OP 0x21) ⟨POP_OPERAND; POP_INVOKE_HANDLER⟩ 0;
   UACPI_OP "SleepOp" (UACPI_EXT_OP 0x22) ⟨POP_OPERAND; POP_INVOKE_HANDLER⟩ 0;
   UACPI_OP "AcquireOp" (UACPI_EXT_OP 0x23) ⟨POP_SUPERNAME; POP_LOAD_IMM; 2; POP_LOAD_TRUE_OBJECT; POP_INVOKE_HANDLER; POP_OBJECT_TRANSFER_TO_PREV⟩ PROP_TERM_ARG;
   UACPI_OP "SignalOp" (UACPI_EXT_OP 0x24) ⟨POP_SUPERNAME; POP_INVOKE_HANDLER⟩ 0;
   UACPI_OP "WaitOp" (UACPI_EXT_OP 0x25) ⟨POP_SUPERNAME; POP_OPERAND; POP_LOAD_TRUE_OBJECT; POP_INVOKE_HANDLER; POP_OBJECT_TRANSFER_TO_PREV⟩ PROP_TERM_ARG;
   UACPI_OP "ResetOp" (UACPI_EXT_OP 0x26) ⟨POP_SUPERNAME; POP_INVOKE_HANDLER⟩ 0;
   UACPI_OP "ReleaseOp" (UACPI_EXT_OP 0x27) ⟨POP_SUPERNAME; POP_INVOKE_HANDLER⟩ 0]%list.

(** Numbers, and objects with a scope. *)
Definition ext_opcodes_named : list uacpi_op_spec :=
  [UACPI_BUILD_TO_FROM_BCD "FromBCDOp" 0x28;
   UACPI_BUILD_TO_FROM_BCD "ToBCDOp" 0x29;
   UACPI_OP "RevisionOp" (UACPI_EXT_OP 0x30) ⟨POP_LOAD_INLINE_IMM_AS_OBJECT; 0x01; 0x00; 0x00; 0x00; 0x00; 0x00; 0x00; 0x00; POP_OBJECT_TRANSFER_TO_PREV⟩ PROP_TERM_ARG;
   UACPI_OP "DebugOp" (UACPI_EXT_OP 0x31) ⟨POP_OBJECT_ALLOC_TYPED; T OBJECT_DEBUG; POP_OBJECT_TRANSFER_TO_PREV⟩ (Z.lor (Z.lor PROP_TERM_ARG PROP_SUPERNAME) PROP_TARGET);
   UACPI_OP "FatalOp" (UACPI_EXT_OP 0x32) ⟨POP_LOAD_IMM; 1; POP_LOAD_IMM; 4; POP_OPERAND; POP_INVOKE_HANDLER⟩ 0;
   UACPI_OP "TimerOp" (UACPI_EXT_OP 0x33) ⟨POP_OBJECT_ALLOC_TYPED; T OBJECT_INTEGER; POP_INVOKE_HANDLER; POP_OBJECT_TRANSFER_TO_PREV⟩ PROP_TERM_ARG;
   UACPI_OP "OpRegionOp" (UACPI_EXT_OP 0x80) ⟨POP_CREATE_NAMESTRING_OR_NULL_IF_LOAD; POP_LOAD_IMM; 1; POP_OPERAND; POP_OPERAND; POP_SKIP_WITH_WARN_IF_NULL; 0; POP_OBJECT_ALLOC_TYPED; T OBJECT_OPERATION_REGION; POP_INVOKE_HANDLER; POP_INSTALL_NAMESPACE_NODE; 0⟩ 0;
   UACPI_OUT_OF_LINE_OP "FieldOp" (UACPI_EXT_OP 0x81) uacpi_field_op_decode_ops PROP_OUT_OF_LINE;
   UACPI_BUILD_NAMED_SCOPE_OBJECT_OP "DeviceOp" 0x82 OBJECT_DEVICE [];
   UACPI_BUILD_NAMED_SCOPE_OBJECT_OP "ProcessorOp" 0x83 OBJECT_PROCESSOR ⟨POP_LOAD_IMM; 1; POP_LOAD_IMM; 4; POP_LOAD_IMM; 1⟩;
   UACPI_BUILD_NAMED_SCOPE_OBJECT_OP "PowerResOp" 0x84 OBJECT_POWER_RESOURCE ⟨POP_LOAD_IMM; 1; POP_LOAD_IMM; 2⟩;
   UACPI_BUILD_NAMED_SCOPE_OBJECT_OP "ThermalZoneOp" 0x85 OBJECT_THERMAL_ZONE [];
   UACPI_OUT_OF_LINE_OP "IndexFieldOp" (UACPI_EXT_OP 0x86) uacpi_index_field_op_decode_ops PROP_OUT_OF_LINE;
   UACPI_OUT_OF_LINE_OP "BankFieldOp" (UACPI_EXT_OP 0x87) uacpi_bank_field_op_decode_ops PROP_OUT_OF_LINE;
   UACPI_OP "DataRegionOp" (UACPI_EXT_OP 0x88) ⟨POP_CREATE_NAMESTRING_OR_NULL_IF_LOAD; POP_STRING; POP_STRING; POP_STRING; POP_SKIP_WITH_WARN_IF_NULL; 0; POP_OBJECT_ALLOC_TYPED; T OBJECT_OPERATION_REGION; POP_INVOKE_HANDLER; POP_INSTALL_NAMESPACE_NODE; 0⟩ 0]%list.

Definition ext_opcode_table : list uacpi_op_spec := (ext_opcodes_sync ++ ext_opcodes_named)%list.

(** [ext_op_to_idx], by the second byte of the code; 0 for all others. *)
Definition ext_op_indices : list (Z * Z) :=
  [(0x01, 1); (0x02, 2); (0x12, 3); (0x13, 4); (0x1f, 5); (0x20, 6); (0x21, 7); (0x22, 8); (0x23, 9); (0x24, 10);
   (0x25, 11); (0x26, 12); (0x27, 13); (0x28, 14); (0x29, 15); (0x30, 16); (0x31, 17); (0x32, 18); (0x33, 19);
   (0x80, 20); (0x81, 21); (0x82, 22); (0x83, 23); (0x84, 24); (0x85, 25); (0x86, 26); (0x87, 27); (0x88, 28)]%list.

Fixpoint assoc {A} (k : Z) (l : list (Z * A)) : option A :=
  match l with [] => None | (k', a) :: l' => if k =? k' then Some a else assoc k l' end.

Definition ext_op_to_idx (op : Z) : nat := Z.to_nat (default 0 (assoc (Z.land op 0xff) ext_op_indices)).

Definition uacpi_get_op_spec (op : Z) : option uacpi_op_spec :=
  if 0xff <? op then ext_opcode_table !! ext_op_to_idx op else opcode_table !! Z.to_nat op.

(** ** Handlers *)

Inductive op_handler :=
  | OP_HANDLER_UNINSTALLED | OP_HANDLER_LOCAL | OP_HANDLER_ARG | OP_HANDLER_STRING | OP_HANDLER_BINARY_MATH
  | OP_HANDLER_CONTROL_FLOW | OP_HANDLER_CODE_BLOCK | OP_HANDLER_RETURN | OP_HANDLER_CREATE_METHOD
  | OP_HANDLER_COPY_OBJECT_OR_STORE | OP_HANDLER_INC_DEC | OP_HANDLER_REF_OR_DEREF_OF | OP_HANDLER_LOGICAL_NOT
  | OP_HANDLER_BINARY_LOGIC | OP_HANDLER_NAMED_OBJECT | OP_HANDLER_BUFFER | OP_HANDLER_PACKAGE
  | OP_HANDLER_CREATE_NAMED | OP_HANDLER_CREATE_BUFFER_FIELD | OP_HANDLER_READ_FIELD | OP_HANDLER_ALIAS
  | OP_HANDLER_CONCATENATE | OP_HANDLER_CONCATENATE_RES | OP_HANDLER_SIZEOF | OP_HANDLER_UNARY_MATH
  | OP_HANDLER_INDEX | OP_HANDLER_OBJECT_TYPE | OP_HANDLER_CREATE_OP_REGION | OP_HANDLER_CREATE_DATA_REGION
  | OP_HANDLER_CREATE_FIELD | OP_HANDLER_TO | OP_HANDLER_TO_STRING | OP_HANDLER_TIMER | OP_HANDLER_MID
  | OP_HANDLER_MATCH | OP_HANDLER_CREATE_MUTEX_OR_EVENT | OP_HANDLER_BCD | OP_HANDLER_LOAD_TABLE | OP_HANDLER_LOAD
  | OP_HANDLER_STALL_OR_SLEEP | OP_HANDLER_EVENT_CTL | OP_HANDLER_MUTEX_CTL | OP_HANDLER_NOTIFY
  | OP_HANDLER_FIRMWARE_REQUEST.

#[export] Instance op_handler_eq_dec : EqDecision op_handler.
Proof. solve_decision. Defined.

Definition handler_indices : list (Z * op_handler) :=
  [(0x60, OP_HANDLER_LOCAL); (0x61, OP_HANDLER_LOCAL); (0x62, OP_HANDLER_LOCAL); (0x63, OP_HANDLER_LOCAL);
   (0x64, OP_HANDLER_LOCAL); (0x65, OP_HANDLER_LOCAL); (0x66, OP_HANDLER_LOCAL); (0x67, OP_HANDLER_LOCAL);
   (0x68, OP_HANDLER_ARG); (0x69, OP_HANDLER_ARG); (0x6a, OP_HANDLER_ARG); (0x6b, OP_HANDLER_ARG);
   (0x6c, OP_HANDLER_ARG); (0x6d, OP_HANDLER_ARG); (0x6e, OP_HANDLER_ARG); (0x0d, OP_HANDLER_STRING);
   (0x72, OP_HANDLER_BINARY_MATH); (0x74, OP_HANDLER_BINARY_MATH); (0x77, OP_HANDLER_BINARY_MATH);
   (0x78, OP_HANDLER_BINARY_MATH); (0x79, OP_HANDLER_BINARY_MATH); (0x7a, OP_HANDLER_BINARY_MATH);
   (0x7b, OP_HANDLER_BINARY_MATH); (0x7c, OP_HANDLER_BINARY_MATH); (0x7d, OP_HANDLER_BINARY_MATH);
   (0x7e, OP_HANDLER_BINARY_MATH); (0x7f, OP_HANDLER_BINARY_MATH); (0x85, OP_HANDLER_BINARY_MATH);
   (0xa0, OP_HANDLER_CODE_BLOCK); (0xa1, OP_HANDLER_CODE_BLOCK); (0xa2, OP_HANDLER_CODE_BLOCK);
   (0x10, OP_HANDLER_CODE_BLOCK); (0x9f, OP_HANDLER_CONTROL_FLOW); (0xa5, OP_HANDLER_CONTROL_FLOW);
   (0xa4, OP_HANDLER_RETURN); (0x14, OP_HANDLER_CREATE_METHOD); (0x70, OP_HANDLER_COPY_OBJECT_OR_STORE);
   (0x9d, OP_HANDLER_COPY_OBJECT_OR_STORE); (0x75, OP_HANDLER_INC_DEC); (0x76, OP_HANDLER_INC_DEC);
   (0x71, OP_HANDLER_REF_OR_DEREF_OF); (0x83, OP_HANDLER_REF_OR_DEREF_OF); (0x92, OP_HANDLER_LOGICAL_NOT);
   (0x93, OP_HANDLER_BINARY_LOGIC); (0x90, OP_HANDLER_BINARY_LOGIC); (0x91, OP_HANDLER_BINARY_LOGIC);
   (0x94, OP_HANDLER_BINARY_LOGIC); (0x95, OP_HANDLER_BINARY_LOGIC); (0xf6, OP_HANDLER_NAMED_OBJECT);
   (0x11, OP_HANDLER_BUFFER); (0x12, OP_HANDLER_PACKAGE); (0x13, OP_HANDLER_PACKAGE);
   (0x08, OP_HANDLER_CREATE_NAMED); (0x8d, OP_HANDLER_CREATE_BUFFER_FIELD); (0x8c, OP_HANDLER_CREATE_BUFFER_FIELD);
   (0x8b, OP_HANDLER_CREATE_BUFFER_FIELD); (0x8a, OP_HANDLER_CREATE_BUFFER_FIELD);
   (0x8f, OP_HANDLER_CREATE_BUFFER_FIELD); (0xf4, OP_HANDLER_READ_FIELD); (0xf5, OP_HANDLER_READ_FIELD);
   (0x99, OP_HANDLER_TO); (0x96, OP_HANDLER_TO); (0x97, OP_HANDLER_TO); (0x98, OP_HANDLER_TO);
   (0x9c, OP_HANDLER_TO_STRING); (0x06, OP_HANDLER_ALIAS); (0x73, OP_HANDLER_CONCATENATE);
   (0x84, OP_HANDLER_CONCATENATE_RES); (0x87, OP_HANDLER_SIZEOF); (0x80, OP_HANDLER_UNARY_MATH);
   (0x81, OP_HANDLER_UNARY_MATH); (0x82, OP_HANDLER_UNARY_MATH); (0x88, OP_HANDLER_INDEX);
   (0x8e, OP_HANDLER_OBJECT_TYPE); (0x9e, OP_HANDLER_MID); (0x89, OP_HANDLER_MATCH); (0x86, OP_HANDLER_NOTIFY);
   (0xcc, OP_HANDLER_FIRMWARE_REQUEST)]%list.

Definition ext_handler_indices : list (Z * op_handler) :=
  [(0x13, OP_HANDLER_CREATE_BUFFER_FIELD); (0x12, OP_HANDLER_REF_OR_DEREF_OF); (0x80, OP_HANDLER_CREATE_OP_REGION);
   (0x82, OP_HANDLER_CODE_BLOCK); (0x83, OP_HANDLER_CODE_BLOCK); (0x84, OP_HANDLER_CODE_BLOCK);
   (0x85, OP_HANDLER_CODE_BLOCK); (0x33, OP_HANDLER_TIMER); (0x01, OP_HANDLER_CREATE_MUTEX_OR_EVENT);
   (0x02, OP_HANDLER_CREATE_MUTEX_OR_EVENT); (0x81, OP_HANDLER_CREATE_FIELD); (0x86, OP_HANDLER_CREATE_FIELD);
   (0x87, OP_HANDLER_CREATE_FIELD); (0x28, OP_HANDLER_BCD); (0x29, OP_HANDLER_BCD);
   (0x88, OP_HANDLER_CREATE_DATA_REGION); (0x1f, OP_HANDLER_LOAD_TABLE); (0x20, OP_HANDLER_LOAD);
   (0x21, OP_HANDLER_STALL_OR_SLEEP); (0x22, OP_HANDLER_STALL_OR_SLEEP); (0x24, OP_HANDLER_EVENT_CTL);
   (0x26, OP_HANDLER_EVENT_CTL); (0x25, OP_HANDLER_EVENT_CTL); (0x23, OP_HANDLER_MUTEX_CTL);
   (0x27, OP_HANDLER_MUTEX_CTL); (0x32, OP_HANDLER_FIRMWARE_REQUEST)]%list.

Definition handler_idx_of_op (c : Z) : op_handler := default OP_HANDLER_UNINSTALLED (assoc c handler_indices).
Definition handler_idx_of_ext_op (c : Z) : op_handler := default OP_HANDLER_UNINSTALLED (assoc c ext_handler_indices).
Definition EXT_OP_IDX (op : Z) : Z := Z.land op 0xff.

Definition handler_of (c : Z) : op_handler := if c <=? 0xff then handler_idx_of_op c else handler_idx_of_ext_op (EXT_OP_IDX c).

(** ** The tables are in order *)

(** Every entry is at the place that its code says, and every code of two bytes that has
    an instruction finds it. *)
Theorem tables_indexed : forallb (fun c => match uacpi_get_op_spec c with Some x => (spec_code x =? c) || (0xff <? c) && (spec_code x =? UACPI_EXT_OP 0) | None => false end)
  (seqZ 0 256 ++ map UACPI_EXT_OP (seqZ 0 256)) = true /\
  forallb (fun x => match uacpi_get_op_spec (spec_code x) with Some y => spec_code x =? spec_code y | None => false end) (opcode_table ++ ext_opcode_table) = true.
Proof. split; vm_compute; reflexivity. Qed.

(** An entry's program fits into its array with room for the end. *)
Theorem programs_fit : forallb (fun x => if Z.land (properties x) PROP_OUT_OF_LINE =? 0 then (length (decode_ops x) =? DECODE_OPS_SIZE)%nat else true)
  (opcode_table ++ ext_opcode_table) = true.
Proof. vm_compute; reflexivity. Qed.
