(* ===== verification/AmlMachine.v ===== *)
(** * acpi/uacpi/interpreter.c: the machine that runs AML

    A method runs in a frame; an instruction of the frame that is being taken apart is a
    pending operator, with the items that its program has collected so far.  When the
    program needs an operand the operator is preempted, and the instruction that computes
    the operand becomes the next pending operator, which at its end gives its result to
    the one before.  Handlers do what instructions mean once their items are complete.

    The stack of frames, the pending operators of a frame and its blocks of code have the
    last element first; [cur_frame], [cur_op_ctx], [prev_op_ctx] and [cur_block] of the
    execution context are the first elements, as [refresh_ctx_pointers] keeps them.
    [last_while] of a frame stays a pointer: frames beyond the fourth move when their array
    grows, nothing refreshes the pointers inside of them, and the use of such a pointer is
    the fault [F_STALE].
    The world of the machine is the namespace over the objects.  A computation ends in a
    fault where C would follow a pointer to something that is not there, and says which
    kind of thing it was.  Messages to the log are left out. *)

From S2P Require Import Prelude UStdlib UCore UText Shareable Namespace Objects AmlTables AmlOps AmlStore.

Open Scope word_scope.

(** ** Data *)

Inductive code_block_type := CODE_BLOCK_IF | CODE_BLOCK_ELSE | CODE_BLOCK_WHILE | CODE_BLOCK_SCOPE.

#[export] Instance code_block_type_eq_dec : EqDecision code_block_type.
Proof. solve_decision. Defined.

(** [b_word] is the node of a scope or the expiration point of a loop, which share their
    place; [None] when nothing was written there. *)
Record code_block := { b_type : code_block_type; b_begin : Z; b_end : Z; b_word : option Z }.

(** A pointer to a block: the index of the block, and which storage the frames were in when
    the pointer was made. *)
Record block_pointer := { p_storage : nat; p_index : nat }.

Record op_context := {
  pc : Z; preempted : bool; tracked_pkg_idx : Z; switched_from : Z; op_spec : uacpi_op_spec; op_items : list item }.

(** [stale_blocks] are the places of the blocks that were removed, the next one to be used
    again first. *)
Record call_frame := {
  f_method : Z; f_args : list Z; f_locals : list Z;
  pending_ops : list op_context; code_blocks : list code_block; stale_blocks : list code_block; temp_nodes : list Z;
  last_while : option block_pointer; prev_while_expiration : Z; prev_while_code_offset : Z;
  code_offset : Z; cur_scope : Z; prev_sync_level : Z }.

(** Why a computation cannot go on: there is no such byte in the program of an
    instruction; no such item or argument, or another member of it was written; no frame or
    operator; no block, or no node or expiration point in it; the memory was never written
    or is freed; there is no such byte in the method; something of the world is missing (an object, a node); the
    bound on the turns of a loop is used up. *)
Inductive fault := F_DECODE | F_ITEM | F_FRAME | F_BLOCK | F_STALE | F_CODE | F_WORLD | F_FUEL.

Section Machine.
Context {V : Type}.

(** [frames_capacity] is [call_stack.dynamic_capacity]: it grows whenever the frames behind
    the inline ones move to new storage, so that it tells the storage as well.  [taken]
    records calls and is no member of the struct: the mutexes whose kernel mutex was
    acquired in this context and not released since. *)
Record execution_context := {
  ret_object : Z; call_stack : list call_frame; frames_capacity : nat; held_mutexes : list Z; taken : list Z; cur_op : uacpi_op_spec; ctx_sync_level : Z;
  env : ns (ost V) }.
End Machine.
Arguments execution_context V : clear implicits.

Definition VM (V A : Type) : Type := execution_context V -> fault + A * execution_context V.

#[export] Instance VM_ret {V} : MRet (VM V) := fun A a s => inr (a, s).
#[export] Instance VM_bind {V} : MBind (VM V) := fun A B k m s =>
  match m s with inl f => inl f | inr (a, s') => k a s' end.

(** What the machine needs beyond the objects and the namespace: memory for an array that
    has outgrown its inline storage, settings, the kernel's mutexes and native methods. *)
Class MachineHost (V : Type) := {
  grow_array : SM V bool;
  alloc_context : SM V bool;
  loop_timeout_seconds : V -> Z;
  max_call_stack_depth : V -> Z;
  (** the thread that runs the method *)
  kernel_thread_id : Z;
  (** uacpi_kernel_acquire_mutex(handle, timeout): others can run meanwhile *)
  kernel_acquire_mutex : Z -> Z -> SM (ns (ost V)) uacpi_status;
  kernel_release_mutex : Z -> SM V unit;
  (** g_uacpi_rt_ctx.global_lock_mutex->handle, and the lock that is shared with firmware *)
  global_lock_handle : V -> Z;
  acquire_global_lock_from_firmware : SM V uacpi_status;
  release_global_lock_to_firmware : SM V unit;
  (** [method->handler(ctx, retval)], with the arguments of the frame *)
  native_handler : Z -> list Z -> Z -> SM (ns (ost V)) uacpi_status
}.

(** What happens after a turn of the loop in [exec_op]: [return], or the next turn with
    [ret] and [item]. *)
Inductive item_ref := NO_ITEM | ITEM_AT (i : nat) | STALE_ITEM (d : item_data).
Inductive turn := RETURN (ret : uacpi_status) | NEXT (ret : uacpi_status) (r : item_ref).

Definition INLINE_OPS : nat := 8.
Definition INLINE_BLOCKS : nat := 8.
Definition INLINE_MUTEXES : nat := 8.
Definition INLINE_NODES : nat := 8.
Definition INLINE_FRAMES : nat := 4.
Definition INLINE_ITEMS : nat := 8.

Inductive resolve_behavior := RESOLVE_CREATE_LAST_NAMESEG_FAIL_IF_EXISTS | RESOLVE_FAIL_IF_DOESNT_EXIST.
Inductive force_release := FORCE_RELEASE_NO | FORCE_RELEASE_YES.
Inductive method_call_type := METHOD_CALL_NATIVE (args : option (list Z)) | METHOD_CALL_AML | METHOD_CALL_TABLE_LOAD.

#[export] Instance resolve_behavior_eq_dec : EqDecision resolve_behavior.
Proof. solve_decision. Defined.
#[export] Instance force_release_eq_dec : EqDecision force_release.
Proof. solve_decision. Defined.

(** *** Updates *)

Definition set_pc (x : Z) (o : op_context) : op_context := {|
  pc := x; preempted := preempted o; tracked_pkg_idx := tracked_pkg_idx o; switched_from := switched_from o; op_spec := op_spec o; op_items := op_items o |}.
Definition set_preempted (x : bool) (o : op_context) : op_context := {|
  pc := pc o; preempted := x; tracked_pkg_idx := tracked_pkg_idx o; switched_from := switched_from o; op_spec := op_spec o; op_items := op_items o |}.
Definition set_tracked (x : Z) (o : op_context) : op_context := {|
  pc := pc o; preempted := preempted o; tracked_pkg_idx := x; switched_from := switched_from o; op_spec := op_spec o; op_items := op_items o |}.
Definition set_switched_from (x : Z) (o : op_context) : op_context := {|
  pc := pc o; preempted := preempted o; tracked_pkg_idx := tracked_pkg_idx o; switched_from := x; op_spec := op_spec o; op_items := op_items o |}.
Definition set_spec (x : uacpi_op_spec) (o : op_context) : op_context := {|
  pc := pc o; preempted := preempted o; tracked_pkg_idx := tracked_pkg_idx o; switched_from := switched_from o; op_spec := x; op_items := op_items o |}.
Definition set_items (x : list item) (o : op_context) : op_context := {|
  pc := pc o; preempted := preempted o; tracked_pkg_idx := tracked_pkg_idx o; switched_from := switched_from o; op_spec := op_spec o; op_items := x |}.

Definition zeroed_frame : call_frame := {|
  f_method := 0; f_args := replicate 7 0; f_locals := replicate 8 0; pending_ops := []; code_blocks := []; stale_blocks := [];
  temp_nodes := []; last_while := None; prev_while_expiration := 0; prev_while_code_offset := 0; code_offset := 0;
  cur_scope := 0; prev_sync_level := 0 |}.

Definition set_ops (x : list op_context) (f : call_frame) : call_frame := {|
  f_method := f_method f; f_args := f_args f; f_locals := f_locals f; pending_ops := x; code_blocks := code_blocks f;
  stale_blocks := stale_blocks f; temp_nodes := temp_nodes f; last_while := last_while f;
  prev_while_expiration := prev_while_expiration f; prev_while_code_offset := prev_while_code_offset f;
  code_offset := code_offset f; cur_scope := cur_scope f; prev_sync_level := prev_sync_level f |}.
Definition set_blocks (x y : list code_block) (f : call_frame) : call_frame := {|
  f_method := f_method f; f_args := f_args f; f_locals := f_locals f; pending_ops := pending_ops f; code_blocks := x;
  stale_blocks := y; temp_nodes := temp_nodes f; last_while := last_while f;
  prev_while_expiration := prev_while_expiration f; prev_while_code_offset := prev_while_code_offset f;
  code_offset := code_offset f; cur_scope := cur_scope f; prev_sync_level := prev_sync_level f |}.
Definition set_temp_nodes (x : list Z) (f : call_frame) : call_frame := {|
  f_method := f_method f; f_args := f_args f; f_locals := f_locals f; pending_ops := pending_ops f; code_blocks := code_blocks f;
  stale_blocks := stale_blocks f; temp_nodes := x; last_while := last_while f;
  prev_while_expiration := prev_while_expiration f; prev_while_code_offset := prev_while_code_offset f;
  code_offset := code_offset f; cur_scope := cur_scope f; prev_sync_level := prev_sync_level f |}.
Definition set_last_while (x : option block_pointer) (f : call_frame) : call_frame := {|
  f_method := f_method f; f_args := f_args f; f_locals := f_locals f; pending_ops := pending_ops f; code_blocks := code_blocks f;
  stale_blocks := stale_blocks f; temp_nodes := temp_nodes f; last_while := x;
  prev_while_expiration := prev_while_expiration f; prev_while_code_offset := prev_while_code_offset f;
  code_offset := code_offset f; cur_scope := cur_scope f; prev_sync_level := prev_sync_level f |}.
Definition set_prev_while (offset expiration : Z) (f : call_frame) : call_frame := {|
  f_method := f_method f; f_args := f_args f; f_locals := f_locals f; pending_ops := pending_ops f; code_blocks := code_blocks f;
  stale_blocks := stale_blocks f; temp_nodes := temp_nodes f; last_while := last_while f;
  prev_while_expiration := expiration; prev_while_code_offset := offset;
  code_offset := code_offset f; cur_scope := cur_scope f; prev_sync_level := prev_sync_level f |}.
Definition set_code_offset (x : Z) (f : call_frame) : call_frame := {|
  f_method := f_method f; f_args := f_args f; f_locals := f_locals f; pending_ops := pending_ops f; code_blocks := code_blocks f;
  stale_blocks := stale_blocks f; temp_nodes := temp_nodes f; last_while := last_while f;
  prev_while_expiration := prev_while_expiration f; prev_while_code_offset := prev_while_code_offset f;
  code_offset := x; cur_scope := cur_scope f; prev_sync_level := prev_sync_level f |}.
Definition set_cur_scope (x : Z) (f : call_frame) : call_frame := {|
  f_method := f_method f; f_args := f_args f; f_locals := f_locals f; pending_ops := pending_ops f; code_blocks := code_blocks f;
  stale_blocks := stale_blocks f; temp_nodes := temp_nodes f; last_while := last_while f;
  prev_while_expiration := prev_while_expiration f; prev_while_code_offset := prev_while_code_offset f;
  code_offset := code_offset f; cur_scope := x; prev_sync_level := prev_sync_level f |}.
Definition set_f_method (x : Z) (f : call_frame) : call_frame := {|
  f_method := x; f_args := f_args f; f_locals := f_locals f; pending_ops := pending_ops f; code_blocks := code_blocks f;
  stale_blocks := stale_blocks f; temp_nodes := temp_nodes f; last_while := last_while f;
  prev_while_expiration := prev_while_expiration f; prev_while_code_offset := prev_while_code_offset f;
  code_offset := code_offset f; cur_scope := cur_scope f; prev_sync_level := prev_sync_level f |}.
Definition set_f_args (x : list Z) (f : call_frame) : call_frame := {|
  f_method := f_method f; f_args := x; f_locals := f_locals f; pending_ops := pending_ops f; code_blocks := code_blocks f;
  stale_blocks := stale_blocks f; temp_nodes := temp_nodes f; last_while := last_while f;
  prev_while_expiration := prev_while_expiration f; prev_while_code_offset := prev_while_code_offset f;
  code_offset := code_offset f; cur_scope := cur_scope f; prev_sync_level := prev_sync_level f |}.
Definition set_f_locals (x : list Z) (f : call_frame) : call_frame := {|
  f_method := f_method f; f_args := f_args f; f_locals := x; pending_ops := pending_ops f; code_blocks := code_blocks f;
  stale_blocks := stale_blocks f; temp_nodes := temp_nodes f; last_while := last_while f;
  prev_while_expiration := prev_while_expiration f; prev_while_code_offset := prev_while_code_offset f;
  code_offset := code_offset f; cur_scope := cur_scope f; prev_sync_level := prev_sync_level f |}.
Definition set_prev_sync_level (x : Z) (f : call_frame) : call_frame := {|
  f_method := f_method f; f_args := f_args f; f_locals := f_locals f; pending_ops := pending_ops f; code_blocks := code_blocks f;
  stale_blocks := stale_blocks f; temp_nodes := temp_nodes f; last_while := last_while f;
  prev_while_expiration := prev_while_expiration f; prev_while_code_offset := prev_while_code_offset f;
  code_offset := code_offset f; cur_scope := cur_scope f; prev_sync_level := x |}.

Definition set_stack {V} (x : list call_frame) (s : execution_context V) : execution_context V := {|
  ret_object := ret_object s; call_stack := x; frames_capacity := frames_capacity s; held_mutexes := held_mutexes s; taken := taken s; cur_op := cur_op s; ctx_sync_level := ctx_sync_level s; env := env s |}.
Definition set_held {V} (x : list Z) (s : execution_context V) : execution_context V := {|
  ret_object := ret_object s; call_stack := call_stack s; frames_capacity := frames_capacity s; held_mutexes := x; taken := taken s; cur_op := cur_op s; ctx_sync_level := ctx_sync_level s; env := env s |}.
Definition set_capacity {V} (x : nat) (s : execution_context V) : execution_context V := {|
  ret_object := ret_object s; call_stack := call_stack s; frames_capacity := x; held_mutexes := held_mutexes s; taken := taken s; cur_op := cur_op s; ctx_sync_level := ctx_sync_level s; env := env s |}.
Definition set_taken {V} (x : list Z) (s : execution_context V) : execution_context V := {|
  ret_object := ret_object s; call_stack := call_stack s; frames_capacity := frames_capacity s; held_mutexes := held_mutexes s; taken := x; cur_op := cur_op s; ctx_sync_level := ctx_sync_level s; env := env s |}.
Definition set_cur_op {V} (x : uacpi_op_spec) (s : execution_context V) : execution_context V := {|
  ret_object := ret_object s; call_stack := call_stack s; frames_capacity := frames_capacity s; held_mutexes := held_mutexes s; taken := taken s; cur_op := x; ctx_sync_level := ctx_sync_level s; env := env s |}.
Definition set_sync_level {V} (x : Z) (s : execution_context V) : execution_context V := {|
  ret_object := ret_object s; call_stack := call_stack s; frames_capacity := frames_capacity s; held_mutexes := held_mutexes s; taken := taken s; cur_op := cur_op s; ctx_sync_level := x; env := env s |}.
Definition set_ret {V} (x : Z) (s : execution_context V) : execution_context V := {|
  ret_object := x; call_stack := call_stack s; frames_capacity := frames_capacity s; held_mutexes := held_mutexes s; taken := taken s; cur_op := cur_op s; ctx_sync_level := ctx_sync_level s; env := env s |}.
Definition set_env {V} (x : ns (ost V)) (s : execution_context V) : execution_context V := {|
  ret_object := ret_object s; call_stack := call_stack s; frames_capacity := frames_capacity s; held_mutexes := held_mutexes s; taken := taken s; cur_op := cur_op s; ctx_sync_level := ctx_sync_level s; env := x |}.

Section Operations.
Context {V : Type} {OH : ObjectHost V} {NL : NamespaceLock (ost V)} {OBJ : Namespace.Objects (ost V)} {AH : AmlHost V} {FH : FieldHost V} {MH : MachineHost V}.

Abbreviation M := (VM V).

(** *** The state *)

Definition fail {A} (f : fault) : M A := fun _ => inl f.
Definition gets {A} (f : execution_context V -> A) : M A := fun s => inr (f s, s).
Definition update (f : execution_context V -> execution_context V) : M unit := fun s => inr (tt, f s).
Definition of_option {A} (f : fault) (o : option A) : M A := match o with Some a => mret a | None => fail f end.

Definition in_env {A} (c : SM (ns (ost V)) A) : M A := fun s =>
  match c (env s) with Some (a, w) => inr (a, set_env w s) | None => inl F_WORLD end.
Definition on_objects {A} (c : SM (ost V) A) : M A := in_env (Namespace.in_world c).
Definition on_host {A} (c : SM V A) : M A := on_objects (Objects.host c).
Definition host_setting {A} (f : V -> A) : M A := gets (fun s => f (oworld (world (env s)))).

Definition cur_frame : M call_frame := l ← gets call_stack; of_option F_FRAME (head l).
Definition update_frame (g : call_frame -> call_frame) : M unit := fun s =>
  match call_stack s with f :: l => inr (tt, set_stack (g f :: l) s) | [] => inl F_FRAME end.

Definition cur_op_ctx : M op_context := f ← cur_frame; of_option F_FRAME (head (pending_ops f)).
Definition update_op (g : op_context -> op_context) : M unit :=
  f ← cur_frame;
  match pending_ops f with o :: l => update_frame (set_ops (g o :: l)) | [] => fail F_FRAME end.

(** [op_context_array_one_before_last] *)
Definition prev_op_ctx : M (option op_context) := f ← cur_frame; mret (pending_ops f !! 1%nat).
Definition update_prev_op (g : op_context -> op_context) : M unit :=
  f ← cur_frame;
  match pending_ops f with o :: p :: l => update_frame (set_ops (o :: g p :: l)) | _ => fail F_FRAME end.

(** [..._array_alloc], with [used] elements in the array. *)
Definition array_alloc (used inline_capacity : nat) : M bool :=
  if (used <? inline_capacity)%nat then mret true else on_host grow_array.

(** *** Items *)

(** [item->handle], [item->obj] and [item->node]; a number can be read as a pointer. *)
Definition handle_of (d : item_data) : option Z :=
  match d with I_POINTER p => Some p | I_IMMEDIATE v => Some v | I_PACKAGE_LENGTH _ _ => None end.
Definition immediate_of (d : item_data) : option Z := match d with I_IMMEDIATE v => Some v | _ => None end.
Definition package_of (d : item_data) : option (Z * Z) := match d with I_PACKAGE_LENGTH b e => Some (b, e) | _ => None end.

Definition item_array_at (i : nat) : M item := o ← cur_op_ctx; of_option F_ITEM (op_items o !! i).
Definition write_item (i : nat) (x : item) : M unit :=
  o ← cur_op_ctx;
  match op_items o !! i with Some _ => update_op (set_items (<[i := x]> (op_items o))) | None => fail F_ITEM end.

(** [item_array_last]: null when there is none. *)
Definition item_array_last : M item_ref :=
  o ← cur_op_ctx; mret (match op_items o with [] => NO_ITEM | l => ITEM_AT (length l - 1) end).

Definition deref_item (r : item_ref) : M item_data :=
  match r with
  | NO_ITEM => fail F_ITEM
  | ITEM_AT i => x ← item_array_at i; mret (i_data x)
  | STALE_ITEM d => mret d
  end.
Definition write_item_data (r : item_ref) (d : item_data) : M unit :=
  match r with
  | ITEM_AT i => x ← item_array_at i; write_item i {| i_type := i_type x; i_data := d |}
  | _ => fail F_ITEM
  end.

Definition handle_at (r : item_ref) : M Z := d ← deref_item r; of_option F_ITEM (handle_of d).
Definition immediate_at (r : item_ref) : M Z := d ← deref_item r; of_option F_ITEM (immediate_of d).
Definition package_at (r : item_ref) : M (Z * Z) := d ← deref_item r; of_option F_ITEM (package_of d).

(** *** Programs of instructions *)

Definition op_decode_cursor (o : op_context) : M Z := of_option F_DECODE (decode_ops (op_spec o) !! Z.to_nat (pc o)).

Definition op_decode_byte : M Z :=
  o ← cur_op_ctx;
  b ← op_decode_cursor o;
  update_op (fun o => set_pc (u8 (pc o + 1)) o);;
  mret b.

Definition op_decode_aml_op : M Z := a ← op_decode_byte; b ← op_decode_byte; mret (Z.lor a (Z.shiftl b 8)).

(** [op_ctx->pc += n] *)
Definition skip_ops (n : Z) : M unit := update_op (fun o => set_pc (u8 (pc o + n)) o).

(** *** The bytes of the method *)

Definition get_method (a : Z) : SM (ost V) control_method := x ← get_cell a; match snd x with C_METHOD m => mret m | _ => undefined end.
Definition frame_method (f : call_frame) : M control_method := on_objects (get_method (f_method f)).

(** [method->args], a field of three bits. *)
Definition method_args (m : control_method) : Z := Z.land (m_args m) 7.

Definition code_size (m : control_method) : Z := Z.of_nat (length (code m)).
Definition call_frame_code_bytes_left (f : call_frame) (m : control_method) : Z := u32 (code_size m - code_offset f).
Definition call_frame_has_code : M bool := f ← cur_frame; m ← frame_method f; mret (0 <? call_frame_code_bytes_left f m).

(** What [call_frame_cursor] points to. *)
Definition call_frame_cursor (f : call_frame) (m : control_method) : list Z := drop (Z.to_nat (code_offset f)) (code m).
Definition read_code (l : list Z) (n : Z) : M (list Z) := if n <=? Z.of_nat (length l) then mret (take (Z.to_nat n) l) else fail F_CODE.
Definition read_byte (l : list Z) : M Z := b ← of_option F_CODE (head l); mret (u8 b).

Definition advance (n : Z) : M unit := update_frame (fun f => set_code_offset (u32 (code_offset f + n)) f).

Definition parse_package_length : M (uacpi_status * (Z * Z)) :=
  f ← cur_frame;
  m ← frame_method f;
  let pkg_begin := code_offset f in
  let left := call_frame_code_bytes_left f m in
  if left <? 1 then mret (UACPI_STATUS_AML_BAD_ENCODING, (pkg_begin, 0)) else
  let data := call_frame_cursor f m in
  lead ← read_byte data;
  let marker_length := 1 + Z.shiftr lead 6 in
  if left <? marker_length then mret (UACPI_STATUS_AML_BAD_ENCODING, (pkg_begin, 0)) else
  size ← (if marker_length =? 1 then mret (Z.land lead 0x3f) else
          l ← read_code (drop 1 data) (marker_length - 1);
          mret (Z.lor (Z.land lead 0xf) (Z.shiftl (le_value l) 4)));
  advance marker_length;;
  let pkg_end := u32 (pkg_begin + size) in
  mret (if pkg_end <? pkg_begin then UACPI_STATUS_AML_BAD_ENCODING else UACPI_STATUS_OK, (pkg_begin, pkg_end)).

(** *** Names *)

Definition ROOT_CHAR : Z := 0x5c.
Definition PARENT_CHAR : Z := 0x5e.

(** The prefixes: a status to return, or what follows them, how many bytes are left, the
    node and whether nothing was consumed. *)
Fixpoint name_prefix (cursor : list Z) (bytes_left cur_node prev_char : Z) (just_one_nameseg : bool) : M (uacpi_status + list Z * Z * Z * bool) :=
  if bytes_left =? 0 then mret (inl UACPI_STATUS_AML_INVALID_NAMESTRING) else
  match cursor with
  | [] => fail F_CODE
  | c :: rest =>
      if c =? ROOT_CHAR then
        if prev_char =? PARENT_CHAR then mret (inl UACPI_STATUS_AML_INVALID_NAMESTRING)
        else mret (inr (rest, bytes_left - 1, uacpi_namespace_root, false))
      else if c =? PARENT_CHAR then
        if cur_node =? uacpi_namespace_root then mret (inl UACPI_STATUS_AML_INVALID_NAMESTRING) else
        n ← in_env (get_node cur_node);
        name_prefix rest (bytes_left - 1) (parent n) c false
      else mret (inr (cursor, bytes_left, cur_node, just_one_nameseg))
  end.

(** The byte before the segments: how many there are and where, [None] for a null name. *)
Definition name_segments (cursor : list Z) (bytes_left : Z) : M (uacpi_status + option (Z * list Z * Z) * bool * list Z) :=
  if bytes_left =? 0 then mret (inl UACPI_STATUS_AML_INVALID_NAMESTRING) else
  c ← read_byte cursor;
  let rest := drop 1 cursor in
  let bytes_left := bytes_left - 1 in
  if c =? UACPI_DUAL_NAME_PREFIX then mret (inr (Some (2, rest, bytes_left), false, rest)) else
  if c =? UACPI_MULTI_NAME_PREFIX then
    if bytes_left =? 0 then mret (inl UACPI_STATUS_AML_INVALID_NAMESTRING) else
    n ← read_byte rest;
    if n =? 0 then mret (inl UACPI_STATUS_AML_INVALID_NAMESTRING) else
    mret (inr (Some (n, drop 1 rest, bytes_left - 1), false, drop 1 rest))
  else if c =? UACPI_NULL_NAME then mret (inr (None, false, rest))
  else mret (inr (Some (1, cursor, bytes_left + 1), true, cursor)).

Definition parse_nameseg (cursor : list Z) : M (option (list Z)) :=
  match cursor with
  | a :: b :: c :: d :: _ => mret (if uacpi_is_valid_nameseg (a, b, c, d) then Some [a; b; c; d] else None)
  | _ => fail F_CODE
  end.

(** [while (!cur_node && parent != uacpi_namespace_root())] *)
Fixpoint search_up (fuel : nat) (parent_ cur_node : Z) (nm : list Z) : SM (ns (ost V)) Z :=
  match fuel with
  | O => undefined
  | S fuel' =>
      if negb (cur_node =? 0) || (parent_ =? uacpi_namespace_root) then mret cur_node else
      n ← get_node parent_;
      cur_node ← uacpi_namespace_node_find_sub_node (parent n) nm;
      search_up fuel' (parent n) cur_node nm
  end.

Definition node_searched (just_one_nameseg : bool) (parent_ cur_node : Z) (nm : list Z) : SM (ns (ost V)) Z :=
  if just_one_nameseg then fuel ← walk_fuel; search_up fuel parent_ cur_node nm else mret cur_node.

(** [for (; namesegs; cursor += 4, namesegs--)]: a status to return, or [ret] and
    [cur_node] at [out]. *)
Fixpoint resolve_namesegs (namesegs : nat) (cursor : list Z) (behavior : resolve_behavior) (just_one_nameseg : bool) (cur_node : Z) :
    M (uacpi_status + uacpi_status * Z) :=
  match namesegs with
  | O => mret (inr (UACPI_STATUS_OK, cur_node))
  | S namesegs' =>
      nm ← parse_nameseg cursor;
      match nm with
      | None => mret (inl UACPI_STATUS_AML_INVALID_NAMESTRING)
      | Some nm =>
          let parent_ := cur_node in
          cur_node ← in_env (uacpi_namespace_node_find_sub_node parent_ nm);
          match behavior with
          | RESOLVE_CREATE_LAST_NAMESEG_FAIL_IF_EXISTS =>
              if (namesegs' =? 0)%nat then
                if negb (cur_node =? 0) then mret (inr (UACPI_STATUS_AML_OBJECT_ALREADY_EXISTS, 0)) else
                node ← in_env (uacpi_namespace_node_alloc nm);
                in_env (update_node node (set_parent parent_));;
                mret (inr (UACPI_STATUS_OK, node))
              else if cur_node =? 0 then mret (inr (UACPI_STATUS_NOT_FOUND, 0))
              else resolve_namesegs namesegs' (drop 4 cursor) behavior just_one_nameseg cur_node
          | RESOLVE_FAIL_IF_DOESNT_EXIST =>
              cur_node ← in_env (node_searched just_one_nameseg parent_ cur_node nm);
              if cur_node =? 0 then mret (inr (UACPI_STATUS_NOT_FOUND, 0))
              else resolve_namesegs namesegs' (drop 4 cursor) behavior just_one_nameseg cur_node
          end
      end
  end.

(** [uacpi_shareable_ref(cur_node)] *)
Definition node_ref (node : Z) : SM (ns (ost V)) unit := Namespace.on_count node uacpi_shareable_ref;; mret tt.

(** The status and [*out_node], which is only written at the end. *)
Definition resolve_name_string (behavior : resolve_behavior) : M (uacpi_status * option Z) :=
  f ← cur_frame;
  m ← frame_method f;
  let finish ret cur_node rest :=
    update_frame (set_code_offset (u32 (code_size m - Z.of_nat (length rest))));;
    (if is_ok ret && bool_decide (behavior = RESOLVE_FAIL_IF_DOESNT_EXIST) then in_env (node_ref cur_node) else mret tt);;
    mret (ret, Some cur_node) in
  p ← name_prefix (call_frame_cursor f m) (call_frame_code_bytes_left f m) (cur_scope f) 0 true;
  match p with
  | inl ret => mret (ret, None)
  | inr (cursor, bytes_left, cur_node, just_one_nameseg) =>
      n ← name_segments cursor bytes_left;
      match n with
      | inl ret => mret (ret, None)
      | inr (None, _, rest) =>
          if bool_decide (behavior = RESOLVE_CREATE_LAST_NAMESEG_FAIL_IF_EXISTS) || just_one_nameseg
          then mret (UACPI_STATUS_AML_INVALID_NAMESTRING, None)
          else finish UACPI_STATUS_OK cur_node rest
      | inr (Some (namesegs, cursor, bytes_left), single, _) =>
          if bytes_left <? namesegs * 4 then mret (UACPI_STATUS_AML_INVALID_NAMESTRING, None) else
          r ← resolve_namesegs (Z.to_nat namesegs) cursor behavior (just_one_nameseg && single) cur_node;
          match r with
          | inl ret => mret (ret, None)
          | inr (ret, cur_node) => finish ret cur_node (drop (Z.to_nat (namesegs * 4)) cursor)
          end
      end
  end.

(** *** Instructions *)

Definition temp_namespace_node_array_push (node : Z) : M uacpi_status :=
  f ← cur_frame;
  ok ← array_alloc (length (temp_nodes f)) INLINE_NODES;
  if negb (ok : bool) then mret UACPI_STATUS_OUT_OF_MEMORY else
  update_frame (set_temp_nodes (node :: temp_nodes f));;
  mret UACPI_STATUS_OK.

Definition do_install_node_item (i : nat) : M uacpi_status :=
  node ← handle_at (ITEM_AT i);
  n ← in_env (get_node node);
  ret ← in_env (uacpi_namespace_node_install (parent n) node);
  if negb (is_ok ret) then mret ret else
  f ← cur_frame;
  m ← frame_method f;
  ret ← (if negb (named_objects_persist m) then temp_namespace_node_array_push node else mret ret);
  (if is_ok ret then write_item_data (ITEM_AT i) (I_POINTER 0) else mret tt);;
  mret ret.

(** The length and the code of the next instruction, [None] when there is none. *)
Definition peek_next_op : M (option (Z * Z)) :=
  f ← cur_frame;
  block ← of_option F_BLOCK (head (code_blocks f));
  let bytes_left := u32 (b_end block - code_offset f) in
  if bytes_left =? 0 then mret None else
  m ← frame_method f;
  let cursor := call_frame_cursor f m in
  op ← read_byte cursor;
  if op =? UACPI_EXT_PREFIX then
    if bytes_left <? 2 then mret None else
    b ← read_byte (drop 1 cursor);
    mret (Some (2, Z.lor (Z.shiftl op 8) b))
  else mret (Some (1, op)).

Definition find_spec (op : Z) : M uacpi_op_spec := of_option F_DECODE (uacpi_get_op_spec op).

Definition get_op : M uacpi_status :=
  next ← peek_next_op;
  match next with
  | None => mret UACPI_STATUS_AML_BAD_ENCODING
  | Some (length, op) =>
      advance length;;
      spec ← find_spec op;
      update (set_cur_op spec);;
      mret (if negb (Z.land (properties spec) PROP_RESERVED =? 0) then UACPI_STATUS_AML_INVALID_OPCODE else UACPI_STATUS_OK)
  end.

Definition push_op : M uacpi_status :=
  f ← cur_frame;
  spec ← gets cur_op;
  ok ← array_alloc (length (pending_ops f)) INLINE_OPS;
  if negb (ok : bool) then mret UACPI_STATUS_OUT_OF_MEMORY else
  update_frame (set_ops ({| pc := 0; preempted := false; tracked_pkg_idx := 0; switched_from := 0; op_spec := spec; op_items := [] |} :: pending_ops f));;
  mret UACPI_STATUS_OK.

Definition unref_object (o : Z) : M unit := on_objects (uacpi_object_unref o).
Definition ref_object (o : Z) : M unit := on_objects (uacpi_object_ref o).

(** What a popped item held is given up. *)
Definition release_item (x : item) : M unit :=
  match i_type x with
  | ITEM_OBJECT => p ← of_option F_ITEM (handle_of (i_data x)); unref_object p
  | ITEM_NAMESPACE_NODE => p ← of_option F_ITEM (handle_of (i_data x)); in_env (uacpi_namespace_node_unref p)
  | _ => mret tt
  end.

(** [uacpi_false] when there is no item. *)
Definition pop_item : M bool :=
  o ← cur_op_ctx;
  match last (op_items o) with
  | None => mret false
  | Some x =>
      release_item x;;
      update_op (set_items (take (length (op_items o) - 1) (op_items o)));;
      mret true
  end.

(** [while (pop_item(cur_op_ctx));] *)
Fixpoint pop_items (n : nat) : M unit :=
  match n with O => mret tt | S n' => pop_item;; pop_items n' end.

Definition pop_op : M unit :=
  o ← cur_op_ctx;
  pop_items (length (op_items o));;
  update_frame (fun f => set_ops (drop 1 (pending_ops f)) f).

Definition ctx_has_non_preempted_op : M bool :=
  l ← gets call_stack;
  mret (match l with
        | f :: _ => match pending_ops f with o :: _ => negb (preempted o) | [] => false end
        | [] => false
        end).

(** *** Blocks of code *)

(** The index of the last block of a type, counted from the first block. *)
Fixpoint find_last_block (blocks : list code_block) (type : code_block_type) : option nat :=
  match blocks with
  | [] => None
  | b :: rest => if decide (b_type b = type) then Some (length rest) else find_last_block rest type
  end.

(** The address of the block that was found, null when there is none. *)
Definition point_to_last (cap : nat) (blocks : list code_block) (type : code_block_type) : option block_pointer :=
  option_map (fun i => {| p_storage := cap; p_index := i |}) (find_last_block blocks type).

(** Whether a block of the current frame is still where the pointer says: the frame is one
    of the inline ones, or the block is in the storage of its own that a frame takes along,
    or the frames have not moved since. *)
Definition block_there (s : execution_context V) (p : block_pointer) : bool :=
  ((length (call_stack s) - 1 <? INLINE_FRAMES) || (INLINE_BLOCKS <=? p_index p) || (p_storage p =? frames_capacity s))%nat.

(** The block at an index, counted from the first one. *)
Definition block_at (blocks : list code_block) (i : nat) : option code_block :=
  if (i <? length blocks)%nat then blocks !! (length blocks - 1 - i)%nat else None.

Definition update_scope : M unit :=
  f ← cur_frame;
  match find_last_block (code_blocks f) CODE_BLOCK_SCOPE with
  | None => update_frame (set_cur_scope uacpi_namespace_root)
  | Some i =>
      block ← of_option F_BLOCK (block_at (code_blocks f) i);
      node ← of_option F_BLOCK (b_word block);
      update_frame (set_cur_scope node)
  end.

(** What the next place for a block holds; the inline places of a frame are zeroed. *)
Definition next_block (f : call_frame) : code_block :=
  match stale_blocks f with
  | b :: _ => b
  | [] => {| b_type := CODE_BLOCK_SCOPE; b_begin := 0; b_end := 0; b_word := if (length (code_blocks f) <? INLINE_BLOCKS)%nat then Some 0 else None |}
  end.

Definition UACPI_NANOSECONDS_PER_SEC : Z := 1000000000.

(** The type of the block and its node or expiration point, or a status: the part of
    [begin_block_execution] that depends on the instruction. *)
Definition block_kind (c pkg_begin : Z) (f : call_frame) : M (uacpi_status + code_block_type * option Z) :=
  let word := b_word (next_block f) in
  if c =? 0xa0 then mret (inr (CODE_BLOCK_IF, word)) else
  if c =? 0xa1 then mret (inr (CODE_BLOCK_ELSE, word)) else
  if c =? 0xa2 then
    if pkg_begin =? prev_while_code_offset f then
      cur_ticks ← on_host nanoseconds_since_boot;
      expiration_point ← of_option F_STALE word;
      if expiration_point <? cur_ticks then mret (inl UACPI_STATUS_AML_LOOP_TIMEOUT)
      else mret (inr (CODE_BLOCK_WHILE, Some (prev_while_expiration f)))
    else
      now ← on_host nanoseconds_since_boot;
      timeout ← host_setting loop_timeout_seconds;
      mret (inr (CODE_BLOCK_WHILE, Some (now +64 u64 (timeout * UACPI_NANOSECONDS_PER_SEC))))
  else if existsb (Z.eqb c) [0x10; 0x5b82; 0x5b83; 0x5b84; 0x5b85] then
    node ← handle_at (ITEM_AT 1);
    mret (inr (CODE_BLOCK_SCOPE, Some node))
  else mret (inl UACPI_STATUS_INVALID_ARGUMENT).

Definition begin_block_execution : M uacpi_status :=
  f ← cur_frame;
  o ← cur_op_ctx;
  ok ← array_alloc (length (code_blocks f)) INLINE_BLOCKS;
  if negb (ok : bool) then mret UACPI_STATUS_OUT_OF_MEMORY else
  pkg ← package_at (ITEM_AT 0);
  update_op (set_tracked 0);;
  kind ← block_kind (spec_code (op_spec o)) (fst pkg) f;
  match kind with
  | inl ret => mret ret
  | inr (type, word) =>
      update_frame (fun f => set_blocks ({| b_type := type; b_begin := u32 (fst pkg - 1); b_end := snd pkg; b_word := word |} :: code_blocks f)
                                        (drop 1 (stale_blocks f)) f);;
      cap ← gets frames_capacity;
      update_frame (fun f => set_last_while (point_to_last cap (code_blocks f) CODE_BLOCK_WHILE) f);;
      update_scope;;
      mret UACPI_STATUS_OK
  end.

Definition frame_reset_post_end_block (type : code_block_type) : M unit :=
  f ← cur_frame;
  block ← of_option F_BLOCK (head (code_blocks f));
  (if decide (type = CODE_BLOCK_WHILE) then
     expiration ← of_option F_BLOCK (b_word block);
     update_frame (set_prev_while (u32 (b_begin block + 1)) expiration)
   else mret tt);;
  update_frame (fun f => set_blocks (drop 1 (code_blocks f)) (block :: stale_blocks f) f);;
  if decide (type = CODE_BLOCK_WHILE) then
    cap ← gets frames_capacity;
    update_frame (fun f => set_last_while (point_to_last cap (code_blocks f) type) f)
  else if decide (type = CODE_BLOCK_SCOPE) then update_scope
  else mret tt.

Definition maybe_end_block : M bool :=
  f ← cur_frame;
  match code_blocks f with
  | [] => mret false
  | block :: _ =>
      if negb (code_offset f =? b_end block) then mret false else
      (if decide (b_type block = CODE_BLOCK_WHILE) then update_frame (set_code_offset (b_begin block)) else mret tt);;
      frame_reset_post_end_block (b_type block);;
      mret true
  end.

(** [for (;;)] over the blocks down to the innermost loop. *)
Fixpoint leave_blocks (n : nat) (is_break : bool) : M unit :=
  match n with
  | O => fail F_BLOCK
  | S n' =>
      f ← cur_frame;
      block ← of_option F_BLOCK (head (code_blocks f));
      if decide (p_index <$> last_while f = Some (length (code_blocks f) - 1)%nat) then
        update_frame (set_code_offset (if is_break then b_end block else b_begin block));;
        frame_reset_post_end_block (b_type block)
      else
        frame_reset_post_end_block (b_type block);;
        leave_blocks n' is_break
  end.

Definition handle_control_flow : M uacpi_status :=
  f ← cur_frame;
  o ← cur_op_ctx;
  match last_while f with
  | None => mret UACPI_STATUS_AML_BAD_ENCODING
  | Some p =>
      there ← gets (fun s => block_there s p);
      if negb (there : bool) then fail F_STALE else
      leave_blocks (length (code_blocks f)) (spec_code (op_spec o) =? 0xa5);;
      mret UACPI_STATUS_OK
  end.

(** *** Mutexes *)

(** [i = held_mutexes_array_size(arr); for (;;)]: the array without the last [mutex]. *)
Fixpoint remove_last (mutex : Z) (l : list Z) : option (list Z) :=
  match l with
  | [] => None
  | x :: l' => if x =? mutex then Some l' else option_map (cons x) (remove_last mutex l')
  end.

Definition set_depth (mutex d : Z) : SM (ost V) unit :=
  m ← get_mutex mutex;
  write_cell mutex (C_MUTEX {| m_handle := m_handle m; m_owner := m_owner m; m_depth := d; sync_level := sync_level m |}).

Definition set_owner (mutex owner d : Z) : SM (ost V) unit :=
  m ← get_mutex mutex;
  write_cell mutex (C_MUTEX {| m_handle := m_handle m; m_owner := owner; m_depth := d; sync_level := sync_level m |}).

(** [uacpi_acquire_native_mutex_with_timeout(mutex->handle, timeout)] and
    [uacpi_release_native_mutex(mutex->handle)].  [taken] records which acquisitions had no
    matching release yet. *)
Definition acquire_native_mutex (mutex timeout : Z) : M uacpi_status :=
  m ← on_objects (get_mutex mutex);
  if m_handle m =? 0 then mret UACPI_STATUS_INVALID_ARGUMENT else
  ret ← in_env (kernel_acquire_mutex (m_handle m) timeout);
  (if is_ok ret then update (fun s => set_taken (mutex :: taken s) s) else mret tt);;
  mret ret.
Definition release_native_mutex (mutex : Z) : M unit :=
  m ← on_objects (get_mutex mutex);
  (if m_handle m =? 0 then mret tt else on_host (kernel_release_mutex (m_handle m)));;
  update (fun s => set_taken (default (taken s) (remove_last mutex (taken s))) s).

Definition this_thread_owns_aml_mutex (mutex : Z) : M bool :=
  m ← on_objects (get_mutex mutex);
  mret (m_owner m =? kernel_thread_id).

Definition acquire_aml_mutex (mutex timeout : Z) : M uacpi_status :=
  let this_id := kernel_thread_id in
  m ← on_objects (get_mutex mutex);
  if m_owner m =? this_id then
    if m_depth m =? 0xffff then mret UACPI_STATUS_DENIED else
    on_objects (set_depth mutex (u16 (m_depth m + 1)));;
    mret UACPI_STATUS_OK
  else
    on_objects uacpi_namespace_write_unlock;;
    ret ← acquire_native_mutex mutex timeout;
    ret ← (if negb (is_ok ret) then mret ret else
           m ← on_objects (get_mutex mutex);
           handle ← host_setting global_lock_handle;
           ret ← (if m_handle m =? handle then on_host acquire_global_lock_from_firmware else mret UACPI_STATUS_OK);
           if negb (is_ok ret) then release_native_mutex mutex;; mret ret else
           on_objects (set_owner mutex this_id 1);;
           mret UACPI_STATUS_OK);
    on_objects uacpi_namespace_write_lock;;
    mret ret.

Definition release_aml_mutex (mutex : Z) : M unit :=
  m ← on_objects (get_mutex mutex);
  on_objects (set_depth mutex (u16 (m_depth m - 1)));;
  if 1 <? m_depth m then mret tt else
  handle ← host_setting global_lock_handle;
  (if m_handle m =? handle then on_host release_global_lock_to_firmware else mret tt);;
  on_objects (set_owner mutex UACPI_THREAD_ID_NONE (u16 (m_depth m - 1)));;
  release_native_mutex mutex.

Definition held_mutexes_array_push (mutex : Z) : M uacpi_status :=
  l ← gets held_mutexes;
  ok ← array_alloc (length l) INLINE_MUTEXES;
  if negb (ok : bool) then mret UACPI_STATUS_OUT_OF_MEMORY else
  update (set_held (mutex :: l));;
  on_objects (shareable_ref mutex);;
  mret UACPI_STATUS_OK.

Definition held_mutexes_array_remove_and_release (mutex : Z) (force : force_release) : M uacpi_status :=
  l ← gets held_mutexes;
  match l with
  | [] => mret UACPI_STATUS_INVALID_ARGUMENT
  | item :: _ =>
      last_m ← on_objects (get_mutex item);
      m ← on_objects (get_mutex mutex);
      if negb (sync_level last_m =? sync_level m) && bool_decide (force <> FORCE_RELEASE_YES) then mret UACPI_STATUS_OK else
      if (1 <? m_depth m) && bool_decide (force = FORCE_RELEASE_NO) then release_aml_mutex mutex;; mret UACPI_STATUS_OK else
      match remove_last mutex l with
      | None => mret UACPI_STATUS_INVALID_ARGUMENT
      | Some l' =>
          update (set_held l');;
          on_objects (set_depth mutex 1);;
          release_aml_mutex mutex;;
          on_objects (uacpi_mutex_unref mutex);;
          mret UACPI_STATUS_OK
      end
  end.

(** *** Calls *)

(** [call_frame_array_at(&ctx->call_stack, depth - 2)]: who called, and the operator that
    waits for the result; null when nobody wants it. *)
Definition method_get_ret_target : M (option Z) :=
  l ← gets call_stack;
  match l with
  | _ :: f :: _ =>
      match pending_ops f with
      | [] => mret (Some 0)
      | o :: _ =>
          if (spec_code (op_spec o) =? 0x5b20) || (spec_code (op_spec o) =? 0x5b1f) then mret (Some 0) else
          x ← of_option F_ITEM (last (op_items o));
          p ← of_option F_ITEM (handle_of (i_data x));
          mret (Some p)
      end
  | _ => mret None
  end.

Definition method_get_ret_object : M Z :=
  t ← method_get_ret_target;
  match t with
  | None => gets ret_object
  | Some o => if o =? 0 then mret 0 else on_objects (Objects.uacpi_unwrap_internal_reference o)
  end.

Definition assign_object (dst src : Z) (behavior : uacpi_assign_behavior) : M uacpi_status :=
  on_objects (fuel ← cells_fuel; uacpi_object_assign fuel dst src behavior).

Definition handle_return : M uacpi_status :=
  f ← cur_frame;
  m ← frame_method f;
  update_frame (set_code_offset (code_size m));;
  dst ← method_get_ret_object;
  if dst =? 0 then mret UACPI_STATUS_OK else
  src ← handle_at (ITEM_AT 0);
  assign_object dst src ASSIGN_BEHAVIOR_DEEP_COPY.

(** The arguments from the item [i] on, up to the last item, are put into the frame. *)
Fixpoint push_args (l : list item) (i : nat) (frame : call_frame) : M (uacpi_status * call_frame) :=
  match l with
  | [] => mret (UACPI_STATUS_OK, frame)
  | x :: l' =>
      src ← of_option F_ITEM (handle_of (i_data x));
      dst ← on_objects (Objects.uacpi_create_internal_reference UACPI_REFERENCE_KIND_ARG src);
      if dst =? 0 then mret (UACPI_STATUS_OUT_OF_MEMORY, frame) else
      if (i <? length (f_args frame))%nat then push_args l' (S i) (set_f_args (<[i := dst]> (f_args frame)) frame)
      else fail F_ITEM
  end.

Definition frame_push_args (frame : call_frame) : M (uacpi_status * call_frame) :=
  o ← cur_op_ctx;
  push_args (drop 2 (take (length (op_items o) - 1) (op_items o))) 0 frame.

Definition frame_setup_base_scope (scope method_size method : Z) (frame : call_frame) : call_frame :=
  set_cur_scope scope (set_f_method method
    (set_blocks [{| b_type := CODE_BLOCK_SCOPE; b_begin := 0; b_end := method_size; b_word := Some scope |}] [] frame)).

Definition write_method (method : Z) (g : control_method -> control_method) : M unit :=
  on_objects (m ← get_method method; write_cell method (C_METHOD (g m))).
Definition set_m_mutex (x : Z) (m : control_method) : control_method := {|
  code := code m; m_mutex := x; m_sync_level := m_sync_level m; m_args := m_args m; is_serialized := is_serialized m;
  named_objects_persist := named_objects_persist m; native_call := native_call m; owns_code := owns_code m |}.

(** [method->mutex], which is created the first time. *)
Definition method_mutex (method : Z) : M Z :=
  m ← on_objects (get_method method);
  if negb (m_mutex m =? 0) then mret (m_mutex m) else
  mutex ← on_objects Objects.uacpi_create_mutex;
  write_method method (set_m_mutex mutex);;
  if mutex =? 0 then mret 0 else
  on_objects (x ← get_mutex mutex;
              write_cell mutex (C_MUTEX {| m_handle := m_handle x; m_owner := m_owner x; m_depth := m_depth x; sync_level := m_sync_level m |}));;
  mret mutex.

Definition enter_method (new_frame : call_frame) (method : Z) : M (uacpi_status * call_frame) :=
  on_objects (shareable_ref method);;
  m ← on_objects (get_method method);
  if negb (is_serialized m) then mret (UACPI_STATUS_OK, new_frame) else
  level ← gets ctx_sync_level;
  if m_sync_level m <? level then mret (UACPI_STATUS_AML_SYNC_LEVEL_TOO_HIGH, new_frame) else
  mutex ← method_mutex method;
  if mutex =? 0 then mret (UACPI_STATUS_OUT_OF_MEMORY, new_frame) else
  owned ← this_thread_owns_aml_mutex mutex;
  ret ← (if (owned : bool) then mret UACPI_STATUS_OK else
         ret ← acquire_aml_mutex mutex 0xffff;
         if negb (is_ok ret) then mret ret else
         ret ← held_mutexes_array_push mutex;
         (if negb (is_ok ret) then release_aml_mutex mutex else mret tt);;
         mret ret);
  if negb (is_ok ret) then mret (ret, new_frame) else
  update (set_sync_level (m_sync_level m));;
  mret (UACPI_STATUS_OK, set_prev_sync_level level new_frame).

(** [while (temp_namespace_node_array_size(...) != 0)] *)
Fixpoint uninstall_nodes (l : list Z) : M unit :=
  match l with [] => mret tt | node :: l' => in_env (uacpi_namespace_node_uninstall node);; uninstall_nodes l' end.

Fixpoint unref_objects (l : list Z) : M unit :=
  match l with [] => mret tt | o :: l' => unref_object o;; unref_objects l' end.

Definition call_frame_clear (frame : call_frame) : M unit :=
  uninstall_nodes (temp_nodes frame);;
  unref_objects (f_args frame);;
  unref_objects (f_locals frame);;
  on_objects (uacpi_method_unref (f_method frame)).

Fixpoint ref_args (l : list Z) (n i : nat) (frame : call_frame) : M call_frame :=
  match n with
  | O => mret frame
  | S n' =>
      o ← of_option F_ITEM (l !! i);
      ref_object o;;
      ref_args l n' (S i) (set_f_args (<[i := o]> (f_args frame)) frame)
  end.

Definition pass_args (type : method_call_type) (method : Z) (frame : call_frame) : M (uacpi_status * call_frame) :=
  match type with
  | METHOD_CALL_NATIVE args =>
      m ← on_objects (get_method method);
      if negb (u8 (Z.of_nat (length (default [] args))) =? method_args m) then mret (UACPI_STATUS_INVALID_ARGUMENT, frame) else
      match args with
      | None => mret (UACPI_STATUS_OK, frame)
      | Some l => frame ← ref_args l (Z.to_nat (method_args m)) 0 frame; mret (UACPI_STATUS_OK, frame)
      end
  | METHOD_CALL_AML => frame_push_args frame
  | METHOD_CALL_TABLE_LOAD => mret (UACPI_STATUS_OK, frame)
  end.

(** [method_dispatch_error]: the frame that was pushed goes away again. *)
Definition method_dispatch_error (ret : uacpi_status) (frame : call_frame) : M uacpi_status := call_frame_clear frame;; mret ret.

(** [call_frame_array_calloc]: when the storage behind the inline frames is full, these
    frames move to storage that is half as large again. *)
Definition call_frame_array_alloc : M bool :=
  stack ← gets call_stack;
  cap ← gets frames_capacity;
  if (length stack <? INLINE_FRAMES)%nat || negb (length stack - INLINE_FRAMES =? cap)%nat then mret true else
  ok ← on_host grow_array;
  (if (ok : bool) then update (set_capacity (if cap =? 0 then INLINE_FRAMES else cap + Nat.max 1 (cap / 2))%nat) else mret tt);;
  mret ok.

Definition prepare_method_call (node method : Z) (type : method_call_type) : M uacpi_status :=
  stack ← gets call_stack;
  limit ← host_setting max_call_stack_depth;
  if limit <=? Z.of_nat (length stack) then mret UACPI_STATUS_AML_CALL_STACK_DEPTH_LIMIT else
  ok ← call_frame_array_alloc;
  if negb (ok : bool) then mret UACPI_STATUS_OUT_OF_MEMORY else
  e ← enter_method zeroed_frame method;
  let '(ret, frame) := (e : uacpi_status * call_frame) in
  if negb (is_ok ret) then method_dispatch_error ret frame else
  a ← pass_args type method frame;
  let '(ret, frame) := (a : uacpi_status * call_frame) in
  if negb (is_ok ret) then method_dispatch_error ret frame else
  m ← on_objects (get_method method);
  let frame := frame_setup_base_scope node (code_size m) method frame in
  update (fun s => set_stack (frame :: call_stack s) s);;
  if negb (native_call m) then mret UACPI_STATUS_OK else
  retval ← method_get_ret_object;
  in_env (native_handler method (f_args frame) retval).

Definition ctx_reload_post_ret : M unit :=
  f ← cur_frame;
  m ← frame_method f;
  (if is_serialized m then
     held_mutexes_array_remove_and_release (m_mutex m) FORCE_RELEASE_YES;;
     update (set_sync_level (prev_sync_level f))
   else mret tt);;
  call_frame_clear f;;
  update (fun s => set_stack (drop 1 (call_stack s)) s).

(** *** Checks of operands *)

Definition parse_op_generates_item (p : uacpi_parse_op) : item_type :=
  match p with
  | POP_SIMPLE_NAME | POP_SUPERNAME | POP_SUPERNAME_OR_UNRESOLVED | POP_TERM_ARG | POP_TERM_ARG_UNWRAP_INTERNAL
  | POP_TERM_ARG_OR_NAMED_OBJECT | POP_TERM_ARG_OR_NAMED_OBJECT_OR_UNRESOLVED | POP_OPERAND | POP_STRING
  | POP_COMPUTATIONAL_DATA | POP_TARGET | POP_EMPTY_OBJECT_ALLOC => ITEM_EMPTY_OBJECT
  | POP_PKGLEN | POP_TRACKED_PKGLEN => ITEM_PACKAGE_LENGTH
  | POP_CREATE_NAMESTRING | POP_CREATE_NAMESTRING_OR_NULL_IF_LOAD | POP_EXISTING_NAMESTRING
  | POP_EXISTING_NAMESTRING_OR_NULL | POP_EXISTING_NAMESTRING_OR_NULL_IF_LOAD => ITEM_NAMESPACE_NODE
  | POP_LOAD_INLINE_IMM_AS_OBJECT | POP_LOAD_IMM_AS_OBJECT | POP_LOAD_FALSE_OBJECT | POP_LOAD_TRUE_OBJECT | POP_OBJECT_ALLOC
  | POP_OBJECT_ALLOC_TYPED | POP_OBJECT_CONVERT_TO_SHALLOW_COPY | POP_OBJECT_CONVERT_TO_DEEP_COPY => ITEM_OBJECT
  | POP_LOAD_INLINE_IMM | POP_LOAD_ZERO_IMM | POP_LOAD_IMM | POP_RECORD_AML_PC => ITEM_IMMEDIATE
  | _ => ITEM_NONE
  end.

Definition op_wants_supername (p : uacpi_parse_op) : bool :=
  match p with POP_SIMPLE_NAME | POP_SUPERNAME | POP_SUPERNAME_OR_UNRESOLVED | POP_TARGET => true | _ => false end.

Definition op_wants_term_arg_or_operand (p : uacpi_parse_op) : bool :=
  match p with
  | POP_TERM_ARG | POP_TERM_ARG_UNWRAP_INTERNAL | POP_OPERAND | POP_STRING | POP_COMPUTATIONAL_DATA => true
  | _ => false
  end.

Definition op_allows_unresolved (p : uacpi_parse_op) : bool :=
  match p with
  | POP_SUPERNAME_OR_UNRESOLVED | POP_TERM_ARG_OR_NAMED_OBJECT_OR_UNRESOLVED | POP_EXISTING_NAMESTRING_OR_NULL => true
  | _ => false
  end.

Definition op_allows_unresolved_if_load (p : uacpi_parse_op) : bool :=
  match p with POP_CREATE_NAMESTRING_OR_NULL_IF_LOAD | POP_EXISTING_NAMESTRING_OR_NULL_IF_LOAD => true | _ => false end.

(** The properties that an operator must have one of to be the operand. *)
Definition ok_mask (p : uacpi_parse_op) : option Z :=
  match p with
  | POP_SIMPLE_NAME => Some PROP_SIMPLE_NAME
  | POP_TARGET => Some (Z.lor PROP_TARGET PROP_SUPERNAME)
  | POP_SUPERNAME | POP_SUPERNAME_OR_UNRESOLVED => Some PROP_SUPERNAME
  | POP_TERM_ARG | POP_TERM_ARG_UNWRAP_INTERNAL | POP_TERM_ARG_OR_NAMED_OBJECT | POP_TERM_ARG_OR_NAMED_OBJECT_OR_UNRESOLVED
  | POP_OPERAND | POP_STRING | POP_COMPUTATIONAL_DATA => Some PROP_TERM_ARG
  | _ => None
  end.

Definition op_typecheck (op_ctx cur : op_context) : M uacpi_status :=
  b ← op_decode_cursor op_ctx;
  mret (match pop_of b ≫= ok_mask with
        | None => UACPI_STATUS_INVALID_ARGUMENT
        | Some mask => if Z.land (properties (op_spec cur)) mask =? 0 then UACPI_STATUS_AML_INCOMPATIBLE_OBJECT_TYPE else UACPI_STATUS_OK
        end).

Definition object_type_at (o : Z) : M uacpi_object_type := x ← on_objects (get_object o); mret (o_type x).

Definition typecheck_obj (o : Z) (expected : uacpi_object_type) : M uacpi_status :=
  t ← object_type_at o; mret (if decide (t = expected) then UACPI_STATUS_OK else UACPI_STATUS_AML_INCOMPATIBLE_OBJECT_TYPE).

Definition typecheck_computational_data (o : Z) : M uacpi_status :=
  t ← object_type_at o;
  mret (match t with OBJECT_STRING | OBJECT_BUFFER | OBJECT_INTEGER => UACPI_STATUS_OK | _ => UACPI_STATUS_AML_INCOMPATIBLE_OBJECT_TYPE end).

(** *** One instruction *)

Section Exec.
Variable op_handlers : op_handler -> M uacpi_status.

Definition apply_tracked_pkg : M unit :=
  o ← cur_op_ctx;
  if tracked_pkg_idx o =? 0 then mret tt else
  pkg ← package_at (ITEM_AT (Z.to_nat (tracked_pkg_idx o - 1)));
  update_frame (set_code_offset (snd pkg)).

Definition zeroed_item (t : item_type) : item := {| i_type := t;
  i_data := match t with ITEM_PACKAGE_LENGTH => I_PACKAGE_LENGTH 0 0 | ITEM_IMMEDIATE => I_IMMEDIATE 0 | _ => I_POINTER 0 end |}.

Definition push_item (x : item) : M item_ref :=
  o ← cur_op_ctx;
  update_op (set_items (op_items o ++ [x]));;
  mret (ITEM_AT (length (op_items o))).

Definition object_types : list uacpi_object_type :=
  [OBJECT_UNINITIALIZED; OBJECT_INTEGER; OBJECT_STRING; OBJECT_BUFFER; OBJECT_PACKAGE; OBJECT_FIELD_UNIT; OBJECT_DEVICE; OBJECT_EVENT;
   OBJECT_METHOD; OBJECT_MUTEX; OBJECT_OPERATION_REGION; OBJECT_POWER_RESOURCE; OBJECT_PROCESSOR; OBJECT_THERMAL_ZONE;
   OBJECT_BUFFER_FIELD; OBJECT_DEBUG; OBJECT_REFERENCE; OBJECT_BUFFER_INDEX].
Definition object_type_of_value (b : Z) : option uacpi_object_type := find (fun t => type_value t =? b) object_types.

(** The item of the operation: a new one, or [item] as it is, or the last one. *)
Definition begin_item (p : option uacpi_parse_op) (r : item_ref) : M (uacpi_status + item_ref) :=
  match from_option parse_op_generates_item ITEM_NONE p with
  | ITEM_NONE => match r with NO_ITEM => r ← item_array_last; mret (inr r) | _ => mret (inr r) end
  | type =>
      o ← cur_op_ctx;
      ok ← array_alloc (length (op_items o)) INLINE_ITEMS;
      if negb (ok : bool) then mret (inl UACPI_STATUS_OUT_OF_MEMORY) else
      match type with
      | ITEM_OBJECT =>
          t ← (if decide (p = Some POP_OBJECT_ALLOC_TYPED) then b ← op_decode_byte; of_option F_DECODE (object_type_of_value b)
               else mret OBJECT_UNINITIALIZED);
          obj ← on_objects (Objects.uacpi_create_object t);
          r ← push_item {| i_type := ITEM_OBJECT; i_data := I_POINTER obj |};
          mret (if obj =? 0 then inl UACPI_STATUS_OUT_OF_MEMORY else inr r)
      | _ => r ← push_item (zeroed_item type); mret (inr r)
      end
  end.

Definition next (ret : uacpi_status) (r : item_ref) : M turn := mret (NEXT ret r).
Definition proceed (r : item_ref) : M turn := next UACPI_STATUS_OK r.

(** [UACPI_PARSE_OP_END] *)
Definition finish_op : M turn :=
  apply_tracked_pkg;;
  pop_op;;
  f ← cur_frame;
  (match pending_ops f with
   | [] => mret tt
   | _ => update_op (fun o => set_pc (u8 (pc o + 1)) (set_preempted false o))
   end);;
  mret (RETURN UACPI_STATUS_OK).

Definition skip_if_null (r : item_ref) : M turn :=
  idx ← op_decode_byte;
  h ← handle_at (ITEM_AT (Z.to_nat idx));
  if negb (h =? 0) then proceed r else finish_op.

Definition preempt : M turn :=
  update_op (fun o => set_pc (u8 (pc o - 1)) (set_preempted true o));;
  mret (RETURN UACPI_STATUS_OK).

Definition load_package_length (r : item_ref) : M turn :=
  x ← parse_package_length;
  write_item_data r (I_PACKAGE_LENGTH (fst (snd x)) (snd (snd x)));;
  next (fst x) r.

Definition track_package_length (r : item_ref) : M turn :=
  update_op (fun o => set_tracked (u8 (Z.of_nat (length (op_items o)))) o);;
  load_package_length r.

(** [item->obj] becomes an integer. *)
Definition set_integer_object (o v : Z) : M unit := on_objects (Objects.set_type o OBJECT_INTEGER;; set_data o (D_INTEGER v)).

Definition op_decode_bytes (n : Z) : M (list Z) :=
  o ← cur_op_ctx;
  let l := drop (Z.to_nat (pc o)) (decode_ops (op_spec o)) in
  if n <=? Z.of_nat (length l) then mret (take (Z.to_nat n) l) else fail F_DECODE.

Definition load_inline_imm (as_object : bool) (r : item_ref) : M turn :=
  if as_object then
    obj ← handle_at r;
    l ← op_decode_bytes 8;
    set_integer_object obj (le_value l);;
    skip_ops 8;;
    proceed r
  else
    src_width ← op_decode_byte;
    l ← op_decode_bytes (Z.min 8 src_width);
    write_item_data r (I_IMMEDIATE (le_value l));;
    skip_ops src_width;;
    proceed r.

Definition load_imm (as_object : bool) (r : item_ref) : M turn :=
  width ← op_decode_byte;
  f ← cur_frame;
  m ← frame_method f;
  if call_frame_code_bytes_left f m <? width then mret (RETURN UACPI_STATUS_AML_BAD_ENCODING) else
  l ← read_code (call_frame_cursor f m) width;
  (if as_object then obj ← handle_at r; set_integer_object obj (le_value l) else write_item_data r (I_IMMEDIATE (le_value l)));;
  advance width;;
  proceed r.

Definition all_ones : M Z := r1 ← host_setting rev1; mret (if (r1 : bool) then 0xffffffff else 0xffffffffffffffff).

Definition load_boolean (value : bool) (r : item_ref) : M turn :=
  obj ← handle_at r;
  all ← all_ones;
  set_integer_object obj (if value then all else 0);;
  proceed r.

(** An operation of the operators on the items of the current one. *)
Definition on_items {A} (c : SM (aml V) A) : M A := fun s =>
  match call_stack s with
  | f :: l =>
      match pending_ops f with
      | o :: os =>
          match c {| items := op_items o; store := world (env s) |} with
          | Some (a, t) => inr (a, set_env (with_world (store t) (env s)) (set_stack (set_ops (set_items (items t) o :: os) f :: l) s))
          | None => inl F_WORLD
          end
      | [] => inl F_FRAME
      end
  | [] => inl F_FRAME
  end.

Definition truncate_item (r : item_ref) : M turn := obj ← handle_at r; on_items (truncate_number_if_needed obj);; proceed r.

Definition typecheck_item (r : item_ref) : M turn :=
  expected ← op_decode_byte;
  obj ← handle_at r;
  t ← object_type_at obj;
  next (if type_value t =? expected then UACPI_STATUS_OK else UACPI_STATUS_AML_INCOMPATIBLE_OBJECT_TYPE) r.

Definition decrement_imm (r : item_ref) : M turn :=
  idx ← op_decode_byte;
  v ← immediate_at (ITEM_AT (Z.to_nat idx));
  write_item_data (ITEM_AT (Z.to_nat idx)) (I_IMMEDIATE (u64 (v - 1)));;
  proceed r.

Definition if_has_data (r : item_ref) : M turn :=
  bytes_skip ← op_decode_byte;
  o ← cur_op_ctx;
  if tracked_pkg_idx o =? 0 then fail F_ITEM else
  pkg ← package_at (ITEM_AT (Z.to_nat (tracked_pkg_idx o - 1)));
  f ← cur_frame;
  (if snd pkg <=? code_offset f then skip_ops bytes_skip else mret tt);;
  proceed r.

(** [IF_NULL], [IF_NOT_NULL], and with the last item [IF_LAST_NULL], [IF_LAST_NOT_NULL]. *)
Definition if_null (of_last skip_if_null : bool) (r : item_ref) : M turn :=
  h ← (if of_last then handle_at r else idx ← op_decode_byte; handle_at (ITEM_AT (Z.to_nat idx)));
  bytes_skip ← op_decode_byte;
  (if Bool.eqb (h =? 0) skip_if_null then skip_ops bytes_skip else mret tt);;
  proceed r.

Definition if_last_equals (r : item_ref) : M turn :=
  value ← op_decode_byte;
  bytes_skip ← op_decode_byte;
  v ← immediate_at r;
  (if negb (v =? value) then skip_ops bytes_skip else mret tt);;
  proceed r.

Definition object_integer (o : Z) : M Z := on_objects (x ← get_object o; Objects.of_opt (integer_of (o_data x))).

Definition if_last_false (skip_if_false : bool) (r : item_ref) : M turn :=
  bytes_skip ← op_decode_byte;
  obj ← handle_at r;
  v ← object_integer obj;
  (if Bool.eqb (v =? 0) skip_if_false then skip_ops bytes_skip else mret tt);;
  proceed r.

Definition jump (r : item_ref) : M turn := b ← op_decode_byte; update_op (set_pc b);; proceed r.

Definition is_create (p : uacpi_parse_op) : bool :=
  match p with POP_CREATE_NAMESTRING | POP_CREATE_NAMESTRING_OR_NULL_IF_LOAD => true | _ => false end.

(** A name that is not there is no error for some operations. *)
Definition unresolved_is_ok (prev_op : Z) (p : uacpi_parse_op) (c : Z) : bool :=
  if negb (prev_op =? 0) then from_option op_allows_unresolved false (pop_of prev_op) && op_allows_unresolved p else c =? 0x15.

(** [while (op_context_array_size(&frame->pending_ops) != 1) pop_op(ctx);] *)
Fixpoint pop_ops (n : nat) : M unit := match n with O => mret tt | S n' => pop_op;; pop_ops n' end.

(** [item] points to an item of an operator that is gone: into its inline storage, or into
    storage that was freed. *)
Definition stale_item (r : item_ref) : M item_ref :=
  match r with
  | ITEM_AT i => if (i <? INLINE_ITEMS)%nat then d ← deref_item r; mret (STALE_ITEM d) else fail F_STALE
  | _ => fail F_ITEM
  end.

(** The outermost operator is a loop or a branch of a table: its body is skipped. *)
Definition abort_while_if (r : item_ref) : M turn :=
  f ← cur_frame;
  stale ← (if (length (pending_ops f) =? 1)%nat then mret r else stale_item r);
  pop_ops (length (pending_ops f) - 1);;
  update_op (fun o => set_preempted false (set_pc (u8 (pc o + 1)) o));;
  proceed stale.

Definition mark_temporary (r : item_ref) : M unit :=
  node ← handle_at r;
  in_env (update_node node (fun n => Namespace.set_flags (Z.lor (flags n) FLAG_TEMPORARY) n)).

Definition parse_namestring (p : uacpi_parse_op) (prev_op : Z) (r : item_ref) : M turn :=
  o ← cur_op_ctx;
  let behavior := if is_create p then RESOLVE_CREATE_LAST_NAMESEG_FAIL_IF_EXISTS else RESOLVE_FAIL_IF_DOESNT_EXIST in
  x ← resolve_name_string behavior;
  (match snd x with Some node => write_item_data r (I_POINTER node) | None => mret tt end);;
  let ret := fst (x : uacpi_status * option Z) in
  let ret := if bool_decide (ret = UACPI_STATUS_NOT_FOUND) && unresolved_is_ok prev_op p (spec_code (op_spec o)) then UACPI_STATUS_OK else ret in
  f ← cur_frame;
  m ← frame_method f;
  let tolerated := named_objects_persist m && (bool_decide (ret = UACPI_STATUS_AML_OBJECT_ALREADY_EXISTS) || bool_decide (ret = UACPI_STATUS_NOT_FOUND)) in
  first_ctx ← of_option F_FRAME (last (pending_ops f));
  let abort_whileif := tolerated && ((spec_code (op_spec first_ctx) =? 0xa2) || (spec_code (op_spec first_ctx) =? 0xa0)) in
  let ret := if tolerated && (op_allows_unresolved_if_load p || abort_whileif) then UACPI_STATUS_OK else ret in
  if abort_whileif then abort_while_if r else
  let ret := if bool_decide (ret = UACPI_STATUS_NOT_FOUND) then UACPI_STATUS_AML_UNDEFINED_REFERENCE else ret in
  (if is_create p && negb (named_objects_persist m) then mark_temporary r else mret tt);;
  next ret r.

Definition invoke_handler (r : item_ref) : M turn :=
  o ← cur_op_ctx;
  ret ← op_handlers (handler_of (spec_code (op_spec o)));
  next ret r.

Definition install_node (r : item_ref) : M turn :=
  idx ← op_decode_byte;
  ret ← do_install_node_item (Z.to_nat idx);
  next ret (ITEM_AT (Z.to_nat idx)).

(** What is given to the preempted operator, checked against what it asked for. *)
Definition result_for (prev_op : Z) (r : item_ref) : M (uacpi_status * Z) :=
  match pop_of prev_op with
  | Some POP_TERM_ARG_UNWRAP_INTERNAL => o ← handle_at r; src ← on_objects (Objects.uacpi_unwrap_internal_reference o); mret (UACPI_STATUS_OK, src)
  | Some POP_COMPUTATIONAL_DATA =>
      o ← handle_at r; src ← on_objects (Objects.uacpi_unwrap_internal_reference o); ret ← typecheck_computational_data src; mret (ret, src)
  | Some POP_OPERAND =>
      o ← handle_at r; src ← on_objects (Objects.uacpi_unwrap_internal_reference o); ret ← typecheck_obj src OBJECT_INTEGER; mret (ret, src)
  | Some POP_STRING =>
      o ← handle_at r; src ← on_objects (Objects.uacpi_unwrap_internal_reference o); ret ← typecheck_obj src OBJECT_STRING; mret (ret, src)
  | Some (POP_SUPERNAME | POP_SUPERNAME_OR_UNRESOLVED | POP_SIMPLE_NAME | POP_TERM_ARG | POP_TERM_ARG_OR_NAMED_OBJECT
         | POP_TERM_ARG_OR_NAMED_OBJECT_OR_UNRESOLVED | POP_TARGET) => src ← handle_at r; mret (UACPI_STATUS_OK, src)
  | _ => mret (UACPI_STATUS_INVALID_ARGUMENT, 0)
  end.

(** [item_array_last(&ctx->prev_op_ctx->items)] becomes the object. *)
Definition give_to_prev (o : Z) : M unit :=
  p ← prev_op_ctx;
  match p with
  | None => fail F_FRAME
  | Some p =>
      match op_items p with
      | [] => fail F_ITEM
      | l => update_prev_op (set_items (take (length l - 1) l ++ [{| i_type := ITEM_OBJECT; i_data := I_POINTER o |}]))
      end
  end.

Definition object_to_prev (copy : bool) (prev_op : Z) (r : item_ref) : M turn :=
  p ← prev_op_ctx;
  match p with
  | None => proceed r
  | Some _ =>
      x ← result_for prev_op r;
      let '(ret, src) := (x : uacpi_status * Z) in
      if negb (is_ok ret) then next ret r else
      if copy then
        o ← on_objects (Objects.uacpi_create_object OBJECT_UNINITIALIZED);
        give_to_prev o;;
        if o =? 0 then next UACPI_STATUS_OUT_OF_MEMORY r else
        ret ← assign_object o src ASSIGN_BEHAVIOR_DEEP_COPY;
        next ret r
      else
        give_to_prev src;;
        ref_object src;;
        proceed r
  end.

Definition store_item (indirect : bool) (r : item_ref) : M turn :=
  idx ← op_decode_byte;
  dst ← handle_at (ITEM_AT (Z.to_nat idx));
  src ← (if indirect then idx ← op_decode_byte; handle_at (ITEM_AT (Z.to_nat idx)) else handle_at r);
  x ← in_env (store_to_target dst src);
  next (fst (x : uacpi_status * option (list Z))) r.

Definition convert_to_copy (behavior : uacpi_assign_behavior) (r : item_ref) : M turn :=
  temp ← handle_at r;
  update_op (fun o => set_items (take (length (op_items o) - 1) (op_items o)) o);;
  r ← item_array_last;
  obj ← handle_at r;
  ret ← assign_object temp obj behavior;
  if negb (is_ok ret) then next ret r else
  unref_object obj;;
  write_item_data r (I_POINTER temp);;
  proceed r.

Definition dispatch_method_call : M turn :=
  node ← handle_at (ITEM_AT 0);
  obj ← in_env (uacpi_namespace_node_get_object node);
  method ← on_objects (get_pointer obj);
  ret ← prepare_method_call node method METHOD_CALL_AML;
  mret (RETURN ret).

Definition dispatch_table_load : M turn :=
  node ← handle_at (ITEM_AT 0);
  obj ← handle_at (ITEM_AT 1);
  method ← on_objects (get_pointer obj);
  ret ← prepare_method_call node method METHOD_CALL_TABLE_LOAD;
  mret (RETURN ret).

(** What a name stands for: the instruction to go on with, or a status. *)
Definition named_op (prev : option uacpi_parse_op) (obj : Z) : M (uacpi_status * option Z) :=
  x ← on_objects (get_object obj);
  match o_type x with
  | OBJECT_METHOD =>
      let should_invoke := match prev with
        | Some (POP_TERM_ARG_OR_NAMED_OBJECT | POP_TERM_ARG_OR_NAMED_OBJECT_OR_UNRESOLVED) => false
        | Some p => negb (op_wants_supername p)
        | None => true
        end in
      if negb should_invoke then mret (UACPI_STATUS_OK, Some 0xf6) else
      p ← on_objects (get_pointer obj);
      m ← on_objects (get_method p);
      mret (UACPI_STATUS_OK, Some (0xf7 + method_args m))
  | OBJECT_BUFFER_FIELD | OBJECT_FIELD_UNIT =>
      if negb (from_option op_wants_term_arg_or_operand false prev) then mret (UACPI_STATUS_OK, Some 0xf6) else
      t ← in_env (field_get_read_type obj);
      match snd t with
      | OBJECT_BUFFER => mret (fst t, Some 0xf4)
      | OBJECT_INTEGER => mret (fst t, Some 0xf5)
      | _ => mret (UACPI_STATUS_INVALID_ARGUMENT, None)
      end
  | _ => mret (UACPI_STATUS_OK, Some 0xf6)
  end.

Definition convert_namestring (prev_op : Z) (r : item_ref) : M turn :=
  node ← handle_at r;
  if node =? 0 then
    next (if from_option op_allows_unresolved false (pop_of prev_op) then UACPI_STATUS_OK else UACPI_STATUS_NOT_FOUND) r
  else
    obj ← in_env (uacpi_namespace_node_get_object node);
    x ← named_op (pop_of prev_op) obj;
    match snd (x : uacpi_status * option Z) with
    | None => next (fst x) r
    | Some new_op =>
        spec ← find_spec new_op;
        update_op (fun o => set_spec spec (set_pc 0 o));;
        next (fst x) r
    end.

Definition switch_to_next (r : item_ref) : M turn :=
  f ← cur_frame;
  let cur_offset := code_offset f in
  apply_tracked_pkg;;
  peeked ← peek_next_op;
  target_op ← op_decode_aml_op;
  match peeked with
  | Some (op_length, op) =>
      if op =? target_op then
        advance op_length;;
        spec ← find_spec target_op;
        update_op (fun o => set_pc 0 (set_spec spec (set_switched_from (spec_code (op_spec o)) o)));;
        proceed r
      else update_frame (set_code_offset cur_offset);; proceed r
  | None => update_frame (set_code_offset cur_offset);; proceed r
  end.

Definition if_switched_from (r : item_ref) : M turn :=
  target_op ← op_decode_aml_op;
  skip_bytes ← op_decode_byte;
  o ← cur_op_ctx;
  (if negb (switched_from o =? target_op) then skip_ops skip_bytes else mret tt);;
  proceed r.

Definition exec_parse_op (p : uacpi_parse_op) (prev_op : Z) (r : item_ref) : M turn :=
  match p with
  | POP_END => finish_op
  | POP_SKIP_WITH_WARN_IF_NULL => skip_if_null r
  | POP_EMIT_SKIP_WARN | POP_LOAD_ZERO_IMM | POP_OBJECT_ALLOC | POP_OBJECT_ALLOC_TYPED | POP_EMPTY_OBJECT_ALLOC => proceed r
  | POP_SIMPLE_NAME | POP_SUPERNAME | POP_SUPERNAME_OR_UNRESOLVED | POP_TERM_ARG | POP_TERM_ARG_UNWRAP_INTERNAL
  | POP_TERM_ARG_OR_NAMED_OBJECT | POP_TERM_ARG_OR_NAMED_OBJECT_OR_UNRESOLVED | POP_OPERAND | POP_STRING
  | POP_COMPUTATIONAL_DATA | POP_TARGET => preempt
  | POP_TRACKED_PKGLEN => track_package_length r
  | POP_PKGLEN => load_package_length r
  | POP_LOAD_INLINE_IMM => load_inline_imm false r
  | POP_LOAD_INLINE_IMM_AS_OBJECT => load_inline_imm true r
  | POP_LOAD_IMM => load_imm false r
  | POP_LOAD_IMM_AS_OBJECT => load_imm true r
  | POP_LOAD_FALSE_OBJECT => load_boolean false r
  | POP_LOAD_TRUE_OBJECT => load_boolean true r
  | POP_RECORD_AML_PC => f ← cur_frame; write_item_data r (I_IMMEDIATE (code_offset f));; proceed r
  | POP_TRUNCATE_NUMBER => truncate_item r
  | POP_TYPECHECK => typecheck_item r
  | POP_BAD_OPCODE | POP_UNREACHABLE => next UACPI_STATUS_AML_INVALID_OPCODE r
  | POP_AML_PC_DECREMENT => advance (-1);; proceed r
  | POP_IMM_DECREMENT => decrement_imm r
  | POP_ITEM_POP => pop_item;; r ← item_array_last; proceed r
  | POP_IF_HAS_DATA => if_has_data r
  | POP_IF_NOT_NULL => if_null false true r
  | POP_IF_NULL => if_null false false r
  | POP_IF_LAST_NULL => if_null true false r
  | POP_IF_LAST_NOT_NULL => if_null true true r
  | POP_IF_LAST_EQUALS => if_last_equals r
  | POP_IF_LAST_FALSE => if_last_false false r
  | POP_IF_LAST_TRUE => if_last_false true r
  | POP_JMP => jump r
  | POP_CREATE_NAMESTRING | POP_CREATE_NAMESTRING_OR_NULL_IF_LOAD | POP_EXISTING_NAMESTRING | POP_EXISTING_NAMESTRING_OR_NULL
  | POP_EXISTING_NAMESTRING_OR_NULL_IF_LOAD => parse_namestring p prev_op r
  | POP_INVOKE_HANDLER => invoke_handler r
  | POP_INSTALL_NAMESPACE_NODE => install_node r
  | POP_OBJECT_TRANSFER_TO_PREV => object_to_prev false prev_op r
  | POP_OBJECT_COPY_TO_PREV => object_to_prev true prev_op r
  | POP_STORE_TO_TARGET => store_item false r
  | POP_STORE_TO_TARGET_INDIRECT => store_item true r
  | POP_OBJECT_CONVERT_TO_SHALLOW_COPY => convert_to_copy ASSIGN_BEHAVIOR_SHALLOW_COPY r
  | POP_OBJECT_CONVERT_TO_DEEP_COPY => convert_to_copy ASSIGN_BEHAVIOR_DEEP_COPY r
  | POP_DISPATCH_METHOD_CALL => dispatch_method_call
  | POP_DISPATCH_TABLE_LOAD => dispatch_table_load
  | POP_CONVERT_NAMESTRING => convert_namestring prev_op r
  | POP_SWITCH_TO_NEXT_IF_EQUALS => switch_to_next r
  | POP_IF_SWITCHED_FROM => if_switched_from r
  end.

(** One turn of the loop. *)
Definition exec_turn (prev_op : Z) (r : item_ref) : M turn :=
  o ← cur_op_ctx;
  p ← prev_op_ctx;
  ret ← (match p with Some p => if pc o =? 0 then op_typecheck p o else mret UACPI_STATUS_OK | None => mret UACPI_STATUS_OK end);
  if negb (is_ok ret) then mret (RETURN ret) else
  b ← op_decode_byte;
  i ← begin_item (pop_of b) r;
  match i with
  | inl ret => mret (RETURN ret)
  | inr r => match pop_of b with Some p => exec_parse_op p prev_op r | None => next UACPI_STATUS_UNIMPLEMENTED r end
  end.

Fixpoint exec_loop (fuel : nat) (prev_op : Z) (r : item_ref) : M uacpi_status :=
  match fuel with
  | O => fail F_FUEL
  | S fuel' =>
      t ← exec_turn prev_op r;
      match t with
      | RETURN ret => mret ret
      | NEXT ret r => if negb (is_ok ret) then mret ret else exec_loop fuel' prev_op r
      end
  end.

Definition exec_op (fuel : nat) : M uacpi_status :=
  resume ← ctx_has_non_preempted_op;
  ret ← (if (resume : bool) then mret UACPI_STATUS_OK else push_op);
  if negb (is_ok ret) then mret ret else
  p ← prev_op_ctx;
  prev_op ← (match p with Some p => op_decode_cursor p | None => mret 0 end);
  exec_loop fuel prev_op NO_ITEM.

(** *** Methods *)

(** [do ... while (--depth && !should_stop)] *)
Fixpoint unwind_frames (depth : nat) (first : bool) : M unit :=
  match depth with
  | O => mret tt
  | S depth' =>
      f ← cur_frame;
      m ← frame_method f;
      if named_objects_persist m && negb first then mret tt else
      pop_ops (length (pending_ops f));;
      ctx_reload_post_ret;;
      if first && named_objects_persist m then mret tt else unwind_frames depth' false
  end.

Definition stack_unwind : M unit := l ← gets call_stack; unwind_frames (length l) true.

(** [handle_method_abort]: a frame that is left has loaded the table that failed. *)
Definition handle_method_abort : M unit :=
  stack_unwind;;
  l ← gets call_stack;
  match l with
  | [] => mret tt
  | _ =>
      o ← cur_op_ctx;
      match last (op_items o) with
      | None => mret tt
      | Some it =>
          p ← of_option F_ITEM (handle_of (i_data it));
          if p =? 0 then mret tt else on_objects (set_data p (D_INTEGER 0))
      end
  end.

(** One turn of the loop in [uacpi_execute_control_method]: whether there is another one,
    and [ret]. *)
Definition execute_turn (fuel : nat) (ret : uacpi_status) : M (bool * uacpi_status) :=
  resume ← ctx_has_non_preempted_op;
  ready ← (if (resume : bool) then mret (inr UACPI_STATUS_OK) else
           l ← gets call_stack;
           match l with
           | [] => mret (inl false)
           | _ =>
               ended ← maybe_end_block;
               if (ended : bool) then mret (inl true) else
               has_code ← call_frame_has_code;
               if negb (has_code : bool) then ctx_reload_post_ret;; mret (inl true) else
               ret ← get_op;
               mret (inr ret)
           end);
  match (ready : bool + uacpi_status) with
  | inl more => mret (more, ret)
  | inr ret =>
      ret ← (if is_ok ret then exec_op fuel else mret ret);
      (if is_ok ret then mret tt else handle_method_abort);;
      mret (true, ret)
  end.

Fixpoint execute_loop (turns fuel : nat) (ret : uacpi_status) : M uacpi_status :=
  match turns with
  | O => fail F_FUEL
  | S turns' =>
      x ← execute_turn fuel ret;
      let '(more, ret) := (x : bool * uacpi_status) in
      if more then execute_loop turns' fuel ret else mret ret
  end.

(** [while (held_mutexes_array_size(&ctx->held_mutexes) != 0)] *)
Fixpoint release_mutexes (n : nat) : M unit :=
  match n with
  | O => mret tt
  | S n' =>
      l ← gets held_mutexes;
      match l with
      | [] => mret tt
      | mutex :: _ => held_mutexes_array_remove_and_release mutex FORCE_RELEASE_YES;; release_mutexes n'
      end
  end.

Definition execution_context_release : M unit :=
  r ← gets ret_object;
  (if negb (r =? 0) then unref_object r else mret tt);;
  l ← gets held_mutexes;
  release_mutexes (length l).

(** The object to return, which is null when the method did not set it. *)
Definition take_result : M Z :=
  r ← gets ret_object;
  if r =? 0 then mret 0 else
  t ← object_type_at r;
  if decide (t = OBJECT_UNINITIALIZED) then mret 0 else ref_object r;; mret r.

(** The body of [uacpi_execute_control_method] once there is a context; [out_obj] is
    whether a result is wanted. *)
Definition execute_in_context (turns fuel : nat) (scope method : Z) (args : option (list Z)) (out_obj : bool) : M (uacpi_status * Z) :=
  ok ← (if out_obj then r ← on_objects (Objects.uacpi_create_object OBJECT_UNINITIALIZED); update (set_ret r);; mret (negb (r =? 0)) else mret true);
  ret ← (if negb (ok : bool) then mret UACPI_STATUS_OUT_OF_MEMORY else
         ret ← prepare_method_call scope method (METHOD_CALL_NATIVE args);
         if negb (is_ok ret) then mret ret else execute_loop turns fuel ret);
  r ← take_result;
  execution_context_release;;
  mret (ret, r).

Definition no_op : uacpi_op_spec := {| spec_name := String.EmptyString; decode_ops := []; properties := 0; spec_code := 0 |}.

Definition zeroed_context (w : ns (ost V)) : execution_context V := {|
  ret_object := 0; call_stack := []; frames_capacity := 0; held_mutexes := []; taken := []; cur_op := no_op; ctx_sync_level := 0; env := w |}.

Definition execute_control_method (turns fuel : nat) (scope method : Z) (args : option (list Z)) (out_obj : bool) :
    SM (ns (ost V)) (uacpi_status * Z) :=
  ok ← Namespace.in_world (Objects.host alloc_context);
  if negb (ok : bool) then mret (UACPI_STATUS_OUT_OF_MEMORY, 0) else fun w =>
  match execute_in_context turns fuel scope method args out_obj (zeroed_context w) with
  | inr (x, s) => Some (x, env s)
  | inl _ => None
  end.
End Exec.
End Operations.
