(* ===== verification/AmlHandlers.v ===== *)
(** * acpi/uacpi/interpreter.c: handlers that work on the machine

    Variables, literals, named objects, blocks of code, mutexes and events: the handlers
    that need the frame or the namespace beside the items of their operator.  The
    handlers that only compute are those of [AmlOps]. *)

From S2P Require Import Prelude CMem UStdlib UCore UText FieldUnit Shareable Namespace Objects Regions AmlTables AmlOps AmlStore AmlMachine.

Open Scope word_scope.

Inductive firmware_request := REQUEST_BREAKPOINT | REQUEST_FATAL (type code arg : Z).

(** Events of the kernel, requests of firmware, and what other files do: notify.c,
    fields.c, osi.c, event.c and tables.c. *)
Class HandlerHost (V : Type) := {
  kernel_signal_event : Z -> SM V unit;
  kernel_reset_event : Z -> SM V unit;
  kernel_wait_for_event : Z -> Z -> SM V bool;
  kernel_handle_firmware_request : firmware_request -> SM V unit;
  uacpi_notify_all : Z -> Z -> SM (ns (ost V)) uacpi_status;
  (** [uacpi_read_field_unit] into an array of the size: the status, the array and the response *)
  read_field_unit_bytes : Z -> Z -> SM (ns (ost V)) (uacpi_status * list Z * option (list Z));
  field_unit_bit_length : Z -> SM (ns (ost V)) (uacpi_status * Z);
  handle_osi : list Z -> SM (ns (ost V)) (uacpi_status * bool);
  (** [uacpi_table_find] by signature and ids: the address, the length and the index *)
  table_find : list Z -> list Z -> list Z -> SM (ns (ost V)) (uacpi_status + Z * Z * Z);
  table_mark_as_loaded : Z -> SM (ns (ost V)) uacpi_status;
  (** [uacpi_table_install_with_origin] of a copy: the status, the address and the index *)
  table_install : list Z -> SM (ns (ost V)) (uacpi_status * Z * Z);
  events_match_post_dynamic_table_load : SM (ns (ost V)) unit;
  kernel_map : Z -> Z -> SM V Z;
  kernel_unmap : Z -> Z -> SM V unit;
  (** bytes of memory that is mapped; no result when it is not *)
  virtual_bytes : Z -> Z -> SM V (list Z)
}.

Section Handlers.
Context {V : Type} {OH : ObjectHost V} {NL : NamespaceLock (ost V)} {OBJ : Namespace.Objects (ost V)} {AH : AmlHost V} {RH : RegionHost V}
  {FH : FieldHost V} {MH : MachineHost V} {HH : HandlerHost V}.

Abbreviation M := (VM V).

(** ** Variables and names *)

Definition set_variable (is_local : bool) (idx : nat) (o : Z) : M unit :=
  update_frame (fun f => if is_local then set_f_locals (<[idx := o]> (f_locals f)) f else set_f_args (<[idx := o]> (f_args f)) f).

(** [*src], which is an uninitialised object the first time; null when there is no memory. *)
Definition variable_reference (is_local : bool) (idx : nat) (src : Z) : M Z :=
  if negb (src =? 0) then mret src else
  default_value ← on_objects (Objects.uacpi_create_object OBJECT_UNINITIALIZED);
  if default_value =? 0 then mret 0 else
  o ← on_objects (Objects.uacpi_create_internal_reference (if is_local then UACPI_REFERENCE_KIND_LOCAL else UACPI_REFERENCE_KIND_ARG) default_value);
  set_variable is_local idx o;;
  if o =? 0 then mret 0 else
  unref_object default_value;;
  mret o.

(** An item gets an object, with a reference to it. *)
Definition give_item (i : nat) (o : Z) : M unit := write_item i {| i_type := ITEM_OBJECT; i_data := I_POINTER o |};; ref_object o.

Definition last_item : M nat := o ← cur_op_ctx; match op_items o with [] => fail F_ITEM | l => mret (length l - 1)%nat end.

Definition handle_arg_or_local (idx : Z) (is_local : bool) : M uacpi_status :=
  f ← cur_frame;
  src ← of_option F_ITEM ((if is_local then f_locals f else f_args f) !! Z.to_nat idx);
  o ← variable_reference is_local (Z.to_nat idx) src;
  if o =? 0 then mret UACPI_STATUS_OUT_OF_MEMORY else
  i ← last_item;
  give_item i o;;
  mret UACPI_STATUS_OK.

Definition handle_local : M uacpi_status := o ← cur_op_ctx; handle_arg_or_local (spec_code (op_spec o) - 0x60) true.
Definition handle_arg : M uacpi_status := o ← cur_op_ctx; handle_arg_or_local (spec_code (op_spec o) - 0x68) false.

Definition handle_named_object : M uacpi_status :=
  src ← handle_at (ITEM_AT 0);
  n ← in_env (get_node src);
  give_item 1 (Namespace.object n);;
  mret UACPI_STATUS_OK.

Definition handle_create_alias : M uacpi_status :=
  src ← handle_at (ITEM_AT 0);
  dst ← handle_at (ITEM_AT 1);
  n ← in_env (get_node src);
  in_env (update_node dst (Namespace.set_object (Namespace.object n)));;
  in_env (update_node dst (Namespace.set_flags FLAG_ALIAS));;
  ref_object (Namespace.object n);;
  mret UACPI_STATUS_OK.

(** [node->object = uacpi_create_internal_reference(UACPI_REFERENCE_KIND_NAMED, obj)] *)
Definition name_object (node obj : Z) : M uacpi_status :=
  r ← on_objects (Objects.uacpi_create_internal_reference UACPI_REFERENCE_KIND_NAMED obj);
  in_env (update_node node (Namespace.set_object r));;
  mret (if r =? 0 then UACPI_STATUS_OUT_OF_MEMORY else UACPI_STATUS_OK).

Definition handle_create_named : M uacpi_status := node ← handle_at (ITEM_AT 0); src ← handle_at (ITEM_AT 1); name_object node src.

(** ** Literals *)

(** [uacpi_strnlen] *)
Fixpoint strnlen (l : list Z) (max : nat) : M Z :=
  match max with
  | O => mret 0
  | S max' =>
      match l with
      | [] => fail F_CODE
      | c :: l' => if c =? 0 then mret 0 else n ← strnlen l' max'; mret (1 + n)
      end
  end.

(** The buffer of the object gets an array of its own with the bytes, filled up with
    zeros to [size]. *)
Definition new_bytes (obj size : Z) (l : list Z) : M uacpi_status :=
  p ← on_items (buffer_at obj);
  d ← on_items (alloc_data p size);
  match d with
  | None => mret UACPI_STATUS_OUT_OF_MEMORY
  | Some d =>
      d ← on_items (overwrite d 0 (l ++ replicate (Z.to_nat size - length l) 0));
      on_items (set_buffer p (Some d) size);;
      mret UACPI_STATUS_OK
  end.

Definition handle_string : M uacpi_status :=
  f ← cur_frame;
  m ← frame_method f;
  i ← last_item;
  obj ← handle_at (ITEM_AT i);
  let max_bytes := call_frame_code_bytes_left f m in
  let string := call_frame_cursor f m in
  length ← strnlen string (Z.to_nat max_bytes);
  if length =? max_bytes then mret UACPI_STATUS_AML_BAD_ENCODING else
  l ← read_code string (length + 1);
  ret ← new_bytes obj (length + 1) l;
  (if is_ok ret then advance (length + 1) else mret tt);;
  mret ret.

Definition handle_buffer : M uacpi_status :=
  aml_offset ← immediate_at (ITEM_AT 2);
  let aml_offset := u32 aml_offset in
  pkg ← package_at (ITEM_AT 0);
  let init_size := u32 (snd pkg - aml_offset) in
  f ← cur_frame;
  m ← frame_method f;
  if code_size m <? snd pkg then mret UACPI_STATUS_AML_BAD_ENCODING else
  declared_size ← handle_at (ITEM_AT 1);
  n ← object_integer declared_size;
  if (0xe0000000 <? n) || (n =? 0) then mret UACPI_STATUS_AML_BAD_ENCODING else
  let buffer_size := u32 n in
  if buffer_size <? init_size then mret UACPI_STATUS_AML_BAD_ENCODING else
  dst ← handle_at (ITEM_AT 3);
  l ← read_code (drop (Z.to_nat aml_offset) (code m)) init_size;
  new_bytes dst buffer_size l.

(** ** Methods, mutexes and scopes *)

Definition init_method_flags (flags_byte : Z) (m : control_method) : control_method := {|
  code := code m; m_mutex := m_mutex m; m_sync_level := Z.shiftr flags_byte 4; m_args := Z.land flags_byte 7;
  is_serialized := Z.testbit flags_byte 3; named_objects_persist := named_objects_persist m; native_call := native_call m; owns_code := owns_code m |}.
Definition set_code (l : list Z) (m : control_method) : control_method := {|
  code := l; m_mutex := m_mutex m; m_sync_level := m_sync_level m; m_args := m_args m; is_serialized := is_serialized m;
  named_objects_persist := named_objects_persist m; native_call := native_call m; owns_code := true |}.

Definition handle_create_method : M uacpi_status :=
  f ← cur_frame;
  this_method ← frame_method f;
  pkg ← package_at (ITEM_AT 0);
  node ← handle_at (ITEM_AT 1);
  begin_offset ← immediate_at (ITEM_AT 3);
  let method_begin_offset := u32 begin_offset in
  let '(pkg_begin, pkg_end) := (pkg : Z * Z) in
  if (pkg_end <? pkg_begin) || (pkg_end <? method_begin_offset) || (code_size this_method <? pkg_end) then mret UACPI_STATUS_AML_BAD_ENCODING else
  dst ← handle_at (ITEM_AT 4);
  method ← on_objects (get_pointer dst);
  let method_size := pkg_end - method_begin_offset in
  ok ← (if method_size =? 0 then mret true else
        d ← on_items (kernel_alloc_bytes method_size);
        match d with
        | None => mret false
        | Some _ =>
            l ← read_code (drop (Z.to_nat method_begin_offset) (code this_method)) method_size;
            write_method method (set_code l);;
            mret true
        end);
  if negb (ok : bool) then mret UACPI_STATUS_OUT_OF_MEMORY else
  flags_byte ← immediate_at (ITEM_AT 2);
  write_method method (init_method_flags (u8 flags_byte));;
  name_object node dst.

Definition set_mutex_level (mutex level : Z) : SM (ost V) unit :=
  m ← get_mutex mutex;
  write_cell mutex (C_MUTEX {| m_handle := m_handle m; m_owner := m_owner m; m_depth := m_depth m; sync_level := level |}).

Definition handle_create_mutex_or_event : M uacpi_status :=
  o ← cur_op_ctx;
  node ← handle_at (ITEM_AT 0);
  dst ← (if spec_code (op_spec o) =? 0x5b01 then
           dst ← handle_at (ITEM_AT 2);
           level ← immediate_at (ITEM_AT 1);
           mutex ← on_objects (get_pointer dst);
           on_objects (set_mutex_level mutex (Z.land (u8 level) 0xf));;
           mret dst
         else handle_at (ITEM_AT 1));
  name_object node dst.

Definition set_processor (id block_address block_length : Z) (h : handlers) : handlers := {|
  address_space_head := address_space_head h; notify_head := notify_head h; p_id := id; p_block_address := block_address; p_block_length := block_length |}.

Definition create_named_scope : M uacpi_status :=
  o ← cur_op_ctx;
  node ← handle_at (ITEM_AT 1);
  i ← last_item;
  obj ← handle_at (ITEM_AT i);
  (if spec_code (op_spec o) =? 0x5b83 then
     id ← immediate_at (ITEM_AT 2);
     block_address ← immediate_at (ITEM_AT 3);
     block_length ← immediate_at (ITEM_AT 4);
     on_objects (p ← get_pointer obj; h ← get_handlers p; write_cell p (C_HANDLERS (set_processor (u8 id) (u32 block_address) (u8 block_length) h)))
   else if spec_code (op_spec o) =? 0x5b84 then
     system_level ← immediate_at (ITEM_AT 2);
     resource_order ← immediate_at (ITEM_AT 3);
     on_objects (set_data obj (D_POWER_RESOURCE (u8 system_level) (u16 resource_order)))
   else mret tt);;
  name_object node obj.

Definition handle_code_block : M uacpi_status :=
  o ← cur_op_ctx;
  let c := spec_code (op_spec o) in
  if existsb (Z.eqb c) [0x5b83; 0x5b84; 0x5b85; 0x5b82] then
    ret ← create_named_scope;
    if negb (is_ok ret) then mret ret else begin_block_execution
  else if existsb (Z.eqb c) [0x10; 0xa0; 0xa1; 0xa2] then begin_block_execution
  else mret UACPI_STATUS_INVALID_ARGUMENT.


(** ** Packages *)

(** The prefixes of a name, what follows and how many bytes are left. *)
Fixpoint path_prefix (cursor : list Z) (bytes_left : Z) : M (option (list Z * list Z * Z)) :=
  if bytes_left =? 0 then mret None else
  match cursor with
  | [] => fail F_CODE
  | c :: rest =>
      if c =? PARENT_CHAR then
        x ← path_prefix rest (bytes_left - 1);
        mret (match x with Some (prefix, rest, bytes_left) => Some (c :: prefix, rest, bytes_left) | None => None end)
      else if c =? ROOT_CHAR then mret (Some ([c], rest, bytes_left - 1))
      else mret (Some ([], cursor, bytes_left))
  end.

Definition DOT : Z := 0x2e.

(** [while (namesegs-- > 0)] *)
Fixpoint dotted (namesegs : nat) (cursor : list Z) : list Z :=
  match namesegs with
  | O => []
  | S n => take 4 cursor ++ match n with O => [] | _ => DOT :: dotted n (drop 4 cursor) end
  end.

(** The status and the text with its terminator. *)
Definition name_string_to_path (offset : Z) : M (uacpi_status * option (list Z)) :=
  f ← cur_frame;
  m ← frame_method f;
  p ← path_prefix (drop (Z.to_nat offset) (code m)) (u64 (code_size m - offset));
  match p with
  | None => mret (UACPI_STATUS_AML_INVALID_NAMESTRING, None)
  | Some (prefix, cursor, bytes_left) =>
      n ← name_segments cursor bytes_left;
      match n with
      | inl ret => mret (ret, None)
      | inr (segs, _, _) =>
          let '(namesegs, cursor, bytes_left) := default (0, [], 0) segs in
          if bytes_left <? namesegs * 4 then mret (UACPI_STATUS_AML_INVALID_NAMESTRING, None) else
          l ← read_code cursor (namesegs * 4);
          let text := prefix ++ dotted (Z.to_nat namesegs) l ++ [0] in
          d ← on_items (kernel_alloc_bytes (Z.of_nat (length text)));
          match d with
          | None => mret (UACPI_STATUS_OUT_OF_MEMORY, None)
          | Some d => d ← on_items (overwrite d 0 text); mret (UACPI_STATUS_OK, Some d)
          end
      end
  end.

Definition object_is_reference (o : Z) : M bool := x ← on_objects (get_object o); mret (Objects.is_reference x).

(** The element that the package gets: null for a name, which becomes its path. *)
Definition package_element (i : nat) : M Z :=
  obj ← handle_at (ITEM_AT i);
  if obj =? 0 then mret 0 else
  x ← on_objects (get_object obj);
  if negb (Objects.is_reference x) then mret obj else
  if o_flags x =? UACPI_REFERENCE_KIND_NAMED then unref_object obj;; write_item_data (ITEM_AT i) (I_POINTER 0);; mret 0
  else on_objects (Objects.uacpi_unwrap_internal_reference obj).

Definition path_element (i : nat) : M (uacpi_status * Z) :=
  obj ← on_objects (Objects.uacpi_create_object OBJECT_STRING);
  if obj =? 0 then mret (UACPI_STATUS_OUT_OF_MEMORY, 0) else
  offset ← immediate_at (ITEM_AT (i - 1));
  x ← name_string_to_path offset;
  match x with
  | (UACPI_STATUS_OK, Some path) =>
      on_objects (Objects.set_flags obj UACPI_STRING_KIND_PATH);;
      p ← on_objects (get_pointer obj);
      on_items (set_buffer p (Some path) (Z.of_nat (length path)));;
      write_item i {| i_type := ITEM_OBJECT; i_data := I_POINTER obj |};;
      mret (UACPI_STATUS_OK, obj)
  | (ret, _) => mret (ret, 0)
  end.

(** [for (i = 0; i < num_defined_elements; ++i)] *)
Fixpoint fill_package (n i : nat) (package : Z) : M uacpi_status :=
  match n with
  | O => mret UACPI_STATUS_OK
  | S n' =>
      let at_ := (i * 2 + 3)%nat in
      obj ← package_element at_;
      x ← (if obj =? 0 then path_element at_ else mret (UACPI_STATUS_OK, obj));
      let '(ret, obj) := (x : uacpi_status * Z) in
      if negb (is_ok ret) then mret ret else
      l ← on_objects (get_package package);
      slot ← of_option F_WORLD (l !! i);
      ret ← assign_object slot obj ASSIGN_BEHAVIOR_DEEP_COPY;
      if negb (is_ok ret) then mret ret else fill_package n' (S i) package
  end.

(** How many elements were asked for, or a status. *)
Definition package_count : M (uacpi_status + Z) :=
  o ← cur_op_ctx;
  if spec_code (op_spec o) =? 0x13 then
    var_num_elements ← handle_at (ITEM_AT 1);
    n ← object_integer var_num_elements;
    mret (if 0xe0000000 <? n then inl UACPI_STATUS_AML_BAD_ENCODING else inr (u32 n))
  else n ← immediate_at (ITEM_AT 1); mret (inr (u32 n)).

Definition handle_package : M uacpi_status :=
  o ← cur_op_ctx;
  last ← last_item;
  obj ← handle_at (ITEM_AT last);
  package ← on_objects (get_pointer obj);
  count ← package_count;
  match count with
  | inl ret => mret ret
  | inr num_elements =>
      let defined := u32 (u64 (Z.of_nat (length (op_items o)) - 3) / 2) in
      ok ← on_objects (uacpi_package_fill package num_elements true);
      if negb (ok : bool) then mret UACPI_STATUS_OUT_OF_MEMORY else fill_package (Z.to_nat (Z.min defined num_elements)) 0 package
  end.

(** ** Stores *)

Definition handle_copy_object_or_store : M uacpi_status :=
  o ← cur_op_ctx;
  src ← handle_at (ITEM_AT 0);
  dst ← handle_at (ITEM_AT 1);
  if spec_code (op_spec o) =? 0x70 then
    x ← in_env (store_to_target dst src);
    match x with
    | (UACPI_STATUS_OK, Some wtr_response) =>
        obj ← on_objects (Objects.uacpi_create_object OBJECT_BUFFER);
        if obj =? 0 then mret UACPI_STATUS_OUT_OF_MEMORY else
        p ← on_objects (get_pointer obj);
        on_items (set_buffer p (Some wtr_response) (Z.of_nat (length wtr_response)));;
        unref_object src;;
        write_item_data (ITEM_AT 0) (I_POINTER obj);;
        mret UACPI_STATUS_OK
    | (ret, _) => mret ret
    end
  else
    is_ref ← object_is_reference dst;
    if negb (is_ref : bool) then mret UACPI_STATUS_AML_INCOMPATIBLE_OBJECT_TYPE else in_env (copy_object_to_reference dst src).

Definition handle_inc_dec : M uacpi_status :=
  o ← cur_op_ctx;
  src ← handle_at (ITEM_AT 0);
  dst ← handle_at (ITEM_AT 1);
  x ← in_env (inc_dec_source src);
  match x with
  | inl ret => mret ret
  | inr v =>
      on_objects (set_data dst (D_INTEGER (if spec_code (op_spec o) =? 0x75 then v +64 1 else u64 (v - 1))));;
      mret UACPI_STATUS_OK
  end.

(** ** Events, mutexes and requests *)

Definition handle_event_ctl : M uacpi_status :=
  o ← cur_op_ctx;
  src ← handle_at (ITEM_AT 0);
  obj ← on_objects (Objects.uacpi_unwrap_internal_reference src);
  t ← object_type_at obj;
  if negb (bool_decide (t = OBJECT_EVENT)) then mret UACPI_STATUS_AML_INCOMPATIBLE_OBJECT_TYPE else
  p ← on_objects (get_pointer obj);
  handle ← on_objects (x ← get_cell p; match snd x with C_EVENT h => mret h | _ => undefined end);
  let c := spec_code (op_spec o) in
  if c =? 0x5b24 then on_host (kernel_signal_event handle);; mret UACPI_STATUS_OK else
  if c =? 0x5b26 then on_host (kernel_reset_event handle);; mret UACPI_STATUS_OK else
  if c =? 0x5b25 then
    t ← handle_at (ITEM_AT 1);
    timeout ← object_integer t;
    on_objects uacpi_namespace_write_unlock;;
    signalled ← on_host (kernel_wait_for_event handle (Z.min timeout 0xffff));
    on_objects uacpi_namespace_write_lock;;
    (if (signalled : bool) then dst ← handle_at (ITEM_AT 2); on_objects (set_data dst (D_INTEGER 0)) else mret tt);;
    mret UACPI_STATUS_OK
  else mret UACPI_STATUS_INVALID_ARGUMENT.

Definition handle_acquire (mutex : Z) : M uacpi_status :=
  m ← on_objects (get_mutex mutex);
  level ← gets ctx_sync_level;
  dst ← handle_at (ITEM_AT 2);
  let succeed := on_objects (set_data dst (D_INTEGER 0));; mret UACPI_STATUS_OK in
  if sync_level m <? level then mret UACPI_STATUS_OK else
  timeout ← immediate_at (ITEM_AT 1);
  let timeout := Z.min timeout 0xffff in
  owned ← this_thread_owns_aml_mutex mutex;
  ret ← acquire_aml_mutex mutex timeout;
  if negb (is_ok ret) then mret UACPI_STATUS_OK else
  if (owned : bool) then succeed else
  ret ← held_mutexes_array_push mutex;
  if negb (is_ok ret) then release_aml_mutex mutex;; mret ret else
  m ← on_objects (get_mutex mutex);
  update (set_sync_level (sync_level m));;
  succeed.

Definition handle_release (mutex : Z) : M uacpi_status :=
  owned ← this_thread_owns_aml_mutex mutex;
  if negb (owned : bool) then mret UACPI_STATUS_OK else
  ret ← held_mutexes_array_remove_and_release mutex FORCE_RELEASE_NO;
  if negb (is_ok ret) then mret UACPI_STATUS_OK else
  l ← gets held_mutexes;
  match l with
  | [] => update (set_sync_level 0)
  | last_mutex :: _ => m ← on_objects (get_mutex last_mutex); update (set_sync_level (sync_level m))
  end;;
  mret UACPI_STATUS_OK.

Definition handle_mutex_ctl : M uacpi_status :=
  o ← cur_op_ctx;
  src ← handle_at (ITEM_AT 0);
  obj ← on_objects (Objects.uacpi_unwrap_internal_reference src);
  t ← object_type_at obj;
  if negb (bool_decide (t = OBJECT_MUTEX)) then mret UACPI_STATUS_AML_INCOMPATIBLE_OBJECT_TYPE else
  mutex ← on_objects (get_pointer obj);
  if spec_code (op_spec o) =? 0x5b23 then handle_acquire mutex
  else if spec_code (op_spec o) =? 0x5b27 then handle_release mutex
  else mret UACPI_STATUS_INVALID_ARGUMENT.

Definition handle_notify : M uacpi_status :=
  node ← handle_at (ITEM_AT 0);
  v ← handle_at (ITEM_AT 1);
  value ← object_integer v;
  ret ← in_env (uacpi_notify_all node value);
  match ret with
  | UACPI_STATUS_NO_HANDLER => mret UACPI_STATUS_OK
  | UACPI_STATUS_INVALID_ARGUMENT => mret UACPI_STATUS_AML_INCOMPATIBLE_OBJECT_TYPE
  | _ => mret ret
  end.

Definition make_firmware_request : M (option firmware_request) :=
  o ← cur_op_ctx;
  if spec_code (op_spec o) =? 0xcc then mret (Some REQUEST_BREAKPOINT) else
  if spec_code (op_spec o) =? 0x5b32 then
    type ← immediate_at (ITEM_AT 0);
    code ← immediate_at (ITEM_AT 1);
    a ← handle_at (ITEM_AT 2);
    arg ← object_integer a;
    mret (Some (REQUEST_FATAL (u8 type) (u32 code) arg))
  else mret None.

Definition handle_firmware_request : M uacpi_status :=
  req ← make_firmware_request;
  match req with
  | None => mret UACPI_STATUS_INVALID_ARGUMENT
  | Some req =>
      on_objects uacpi_namespace_write_unlock;;
      on_host (kernel_handle_firmware_request req);;
      on_objects uacpi_namespace_write_lock;;
      mret UACPI_STATUS_OK
  end.

(** ** Regions *)

Definition set_region_bounds (space offset length : Z) (r : operation_region) : operation_region := {|
  r_handler := r_handler r; r_user_context := r_user_context r; r_space := space; state_flags := state_flags r;
  r_offset := offset; r_length := length; table_idx := table_idx r; r_next := r_next r |}.

(** The region becomes the object of the node and finds its handler. *)
Definition install_region (node obj : Z) : M uacpi_status :=
  ret ← name_object node obj;
  if negb (is_ok ret) then mret ret else
  in_env (Regions.uacpi_initialize_opregion_node node);;
  mret UACPI_STATUS_OK.

Definition handle_create_op_region : M uacpi_status :=
  node ← handle_at (ITEM_AT 0);
  obj ← handle_at (ITEM_AT 4);
  op_region ← on_objects (get_pointer obj);
  space ← immediate_at (ITEM_AT 1);
  o ← handle_at (ITEM_AT 2);
  offset ← object_integer o;
  n ← handle_at (ITEM_AT 3);
  length ← object_integer n;
  in_env (Regions.update_region op_region (set_region_bounds (u16 space) offset length));;
  if negb (length =? 0) && (offset +64 length <? offset) then mret UACPI_STATUS_AML_BAD_ENCODING else
  install_region node obj.

(** The text of an item and its size with the terminator. *)
Definition text_at (i : nat) : M (option (list Z) * Z) :=
  o ← handle_at (ITEM_AT i);
  p ← on_objects (get_pointer o);
  on_objects (get_buffer p).

(** [n] bytes of an array for an identifier, filled up with zeros to [size]. *)
Definition id_bytes (text : option (list Z)) (n size : Z) : M (list Z) :=
  l ← read_code (default [] text) n;
  mret (zerout l (Z.to_nat size)).

(** The signature, the OEM id and the OEM table id, from three items. *)
Definition build_table_id (first : nat) : M (uacpi_status + list Z * list Z * list Z) :=
  signature ← text_at first;
  oem_id ← text_at (first + 1);
  oem_table_id ← text_at (first + 2);
  if negb (snd signature =? 5) then mret (inl UACPI_STATUS_AML_BAD_ENCODING) else
  s ← id_bytes (fst signature) 4 4;
  if 7 <? snd oem_id then mret (inl UACPI_STATUS_AML_BAD_ENCODING) else
  i ← id_bytes (fst oem_id) (if snd oem_id =? 0 then 0 else snd oem_id - 1) 6;
  if 9 <? snd oem_table_id then mret (inl UACPI_STATUS_AML_BAD_ENCODING) else
  t ← id_bytes (fst oem_table_id) (if snd oem_table_id =? 0 then 0 else snd oem_table_id - 1) 8;
  mret (inr (s, i, t)).

Definition handle_create_data_region : M uacpi_status :=
  node ← handle_at (ITEM_AT 0);
  id ← build_table_id 1;
  match id with
  | inl ret => mret ret
  | inr (signature, oemid, oem_table_id) =>
      table ← in_env (table_find signature oemid oem_table_id);
      match table with
      | inl ret => mret ret
      | inr (virt_addr, length, index) =>
          obj ← handle_at (ITEM_AT 4);
          op_region ← on_objects (get_pointer obj);
          in_env (Regions.update_region op_region (set_region_bounds SPACE_TABLE_DATA virt_addr length));;
          in_env (Regions.update_region op_region (set_internal_buffer index));;
          install_region node obj
      end
  end.

(** ** Tables that are loaded *)

(** [struct acpi_sdt_hdr]: its size, and where its [length] is. *)
Definition HDR_SIZE : Z := 36.
Definition HDR_LENGTH : Z := 4.

Definition persisting (l : list Z) (m : control_method) : control_method := {|
  code := l; m_mutex := m_mutex m; m_sync_level := m_sync_level m; m_args := m_args m; is_serialized := is_serialized m;
  named_objects_persist := true; native_call := native_call m; owns_code := owns_code m |}.

(** The code of a table becomes the code of a method whose objects stay. *)
Definition table_code (ptr : Z) : SM V (list Z) :=
  l ← virtual_bytes (ptr + HDR_LENGTH) 4;
  virtual_bytes (ptr + HDR_SIZE) (u32 (le_value l - HDR_SIZE)).
Definition prepare_table_load (ptr method : Z) : M unit :=
  c ← on_host (table_code ptr);
  write_method method (persisting c).

(** The second time LoadTable's handler runs. *)
Definition load_table_done : M uacpi_status :=
  idx ← immediate_at (ITEM_AT 2);
  on_host (table_unref idx);;
  o ← handle_at (ITEM_AT 11);
  loaded ← object_integer o;
  if negb (loaded =? 0) then in_env events_match_post_dynamic_table_load;; mret UACPI_STATUS_OK else
  target ← handle_at (ITEM_AT 3);
  (if target =? 0 then mret tt else unref_object target;; write_item_data (ITEM_AT 3) (I_POINTER 0));;
  mret UACPI_STATUS_OK.

(** A path among the arguments, with the node to use when it is empty. *)
Definition path_argument (i : nat) (scope otherwise : Z) : M (uacpi_status * Z) :=
  path ← text_at i;
  if negb (1 <? snd path) then mret (UACPI_STATUS_OK, otherwise) else
  r ← in_env (uacpi_namespace_node_resolve scope (default [] (fst path)) false true false);
  let '(ret, node) := (r : uacpi_status * Z) in
  mret (if decide (ret = UACPI_STATUS_NOT_FOUND) then (UACPI_STATUS_AML_UNDEFINED_REFERENCE, 0) else (ret, node)).

Definition handle_load_table : M uacpi_status :=
  o ← cur_op_ctx;
  if (length (op_items o) =? 12)%nat then load_table_done else
  id ← build_table_id 5;
  match id with
  | inl ret => mret ret
  | inr (signature, oemid, oem_table_id) =>
      f ← cur_frame;
      root ← path_argument 8 (cur_scope f) uacpi_namespace_root;
      if negb (is_ok (fst root)) then mret (fst root) else
      write_item 0 {| i_type := ITEM_NAMESPACE_NODE; i_data := I_POINTER (snd root) |};;
      in_env (node_ref (snd root));;
      param ← path_argument 9 (snd root) 0;
      if negb (is_ok (fst param)) then mret (fst param) else
      (if snd param =? 0 then mret tt else n ← in_env (get_node (snd param)); give_item 3 (Namespace.object n));;
      table ← in_env (table_find signature oemid oem_table_id);
      match table with
      | inl ret => mret ret
      | inr (hdr, _, index) =>
          in_env (table_mark_as_loaded index);;
          write_item_data (ITEM_AT 2) (I_IMMEDIATE index);;
          obj ← handle_at (ITEM_AT 1);
          method ← on_objects (get_pointer obj);
          prepare_table_load hdr method;;
          mret UACPI_STATUS_OK
      end
  end.

(** What Load reads the table from: memory that is mapped for it, or a buffer. *)
Inductive table_source := FROM_REGION (src_table : Z) | FROM_BUFFER (l : list Z).

Definition source_bytes (src : table_source) (first n : Z) : M (list Z) :=
  match src with
  | FROM_REGION p => on_host (virtual_bytes (p + first) n)
  | FROM_BUFFER l => read_code (drop (Z.to_nat first) l) n
  end.
Definition source_length (src : table_source) : M Z := l ← source_bytes src HDR_LENGTH 4; mret (le_value l).

Definition unmap_source (src : table_source) (declared_size : Z) : M unit :=
  match src with FROM_REGION p => on_host (kernel_unmap p declared_size) | FROM_BUFFER _ => mret tt end.

(** The switch on the type of the source: [None] when it cannot be one. *)
Definition load_source (src : Z) : M (option (table_source * Z)) :=
  t ← object_type_at src;
  match t with
  | OBJECT_OPERATION_REGION =>
      p ← on_objects (get_pointer src);
      r ← in_env (Regions.get_region p);
      if negb (r_space r =? SPACE_SYSTEM_MEMORY) then mret None else
      if r_length r <? HDR_SIZE then mret None else
      src_table ← on_host (kernel_map (r_offset r) (r_length r));
      mret (if src_table =? 0 then None else Some (FROM_REGION src_table, r_length r))
  | OBJECT_BUFFER =>
      p ← on_objects (get_pointer src);
      b ← on_objects (get_buffer p);
      mret (if snd b <? HDR_SIZE then None else Some (FROM_BUFFER (default [] (fst b)), snd b))
  | _ => mret None
  end.

(** From the check of the table's length on. *)
Definition load_from (src : table_source) (declared_size : Z) : M uacpi_status :=
  n ← source_length src;
  if declared_size <? n then unmap_source src declared_size;; mret UACPI_STATUS_OK else
  n ← source_length src;
  if n <? HDR_SIZE then unmap_source src declared_size;; mret UACPI_STATUS_OK else
  n ← source_length src;
  d ← on_items (kernel_alloc_bytes n);
  match d with
  | None => unmap_source src declared_size;; mret UACPI_STATUS_OK
  | Some _ =>
      n ← source_length src;
      table_buffer ← source_bytes src 0 n;
      unmap_source src declared_size;;
      r ← in_env (table_install table_buffer);
      let '(ret, ptr, index) := (r : uacpi_status * Z * Z) in
      (if is_ok ret then mret tt else source_length src;; mret tt);;
      if negb (is_ok ret) && negb (bool_decide (ret = UACPI_STATUS_OVERRIDDEN)) then mret UACPI_STATUS_OK else
      in_env (table_mark_as_loaded index);;
      write_item_data (ITEM_AT 0) (I_POINTER uacpi_namespace_root);;
      obj ← handle_at (ITEM_AT 1);
      method ← on_objects (get_pointer obj);
      prepare_table_load ptr method;;
      mret UACPI_STATUS_OK
  end.

Definition handle_load : M uacpi_status :=
  o ← cur_op_ctx;
  if (length (op_items o) =? 5)%nat then
    o ← handle_at (ITEM_AT 4);
    loaded ← object_integer o;
    (if loaded =? 0 then mret tt else in_env events_match_post_dynamic_table_load);;
    mret UACPI_STATUS_OK
  else
  src ← handle_at (ITEM_AT 2);
  r ← load_source src;
  match r with
  | None => mret UACPI_STATUS_OK
  | Some (source, declared_size) => load_from source declared_size
  end.

(** ** Fields of buffers *)

Definition set_field (obj : Z) (f : buffer_field) : M unit := on_objects (set_data obj (D_BUFFER_FIELD f)).

(** The width of the field and whether its index counts bytes. *)
Definition fixed_width (c : Z) : option (Z * bool) :=
  if c =? 0x8d then Some (1, false) else if c =? 0x8c then Some (8, true) else if c =? 0x8b then Some (16, true)
  else if c =? 0x8a then Some (32, true) else if c =? 0x8f then Some (64, true) else None.

(** The node, the object and the field, without the buffer that it is of; or a status. *)
Definition buffer_field_bounds (c : Z) : M (uacpi_status + Z * Z * buffer_field) :=
  i ← handle_at (ITEM_AT 1);
  idx ← object_integer i;
  if c =? 0x5b13 then
    l ← handle_at (ITEM_AT 2);
    node ← handle_at (ITEM_AT 3);
    field_obj ← handle_at (ITEM_AT 4);
    set_field field_obj {| backing := 0; bit_index := idx; Objects.bit_length := 0; force_buffer := false |};;
    len ← object_integer l;
    if (len =? 0) || (0xffffffff <? len) then mret (inl UACPI_STATUS_AML_BAD_ENCODING) else
    mret (inr (node, field_obj, {| backing := 0; bit_index := idx; Objects.bit_length := len; force_buffer := true |}))
  else
    node ← handle_at (ITEM_AT 2);
    field_obj ← handle_at (ITEM_AT 3);
    set_field field_obj {| backing := 0; bit_index := idx; Objects.bit_length := 0; force_buffer := false |};;
    match fixed_width c with
    | None => mret (inl UACPI_STATUS_INVALID_ARGUMENT)
    | Some (width, by_bytes) =>
        mret (inr (node, field_obj,
          {| backing := 0; bit_index := if (by_bytes : bool) then u64 (idx * 8) else idx; Objects.bit_length := width; force_buffer := false |}))
    end.

(** [(field->bit_index + field->bit_length) > src_buf->size * 8] *)
Definition field_outside (f : buffer_field) (size : Z) : bool := u64 (size * 8) <? bit_index f +64 Objects.bit_length f.

Definition handle_create_buffer_field : M uacpi_status :=
  o ← cur_op_ctx;
  src ← handle_at (ITEM_AT 0);
  src_buf ← on_objects (get_pointer src);
  x ← buffer_field_bounds (spec_code (op_spec o));
  match x with
  | inl ret => mret ret
  | inr (node, field_obj, f) =>
      set_field field_obj f;;
      b ← on_objects (get_buffer src_buf);
      if field_outside f (snd b) then mret UACPI_STATUS_AML_OUT_OF_BOUNDS_INDEX else
      set_field field_obj {| backing := src_buf; bit_index := bit_index f; Objects.bit_length := Objects.bit_length f; force_buffer := force_buffer f |};;
      on_objects (shareable_ref src_buf);;
      name_object node field_obj
  end.

Definition field_byte_size (obj : Z) : M (uacpi_status * Z) :=
  x ← on_objects (get_object obj);
  n ← (match o_type x with
       | OBJECT_BUFFER_FIELD => f ← on_objects (Objects.of_opt (buffer_field_of (o_data x))); mret (UACPI_STATUS_OK, Objects.bit_length f)
       | _ => p ← on_objects (get_pointer obj); in_env (field_unit_bit_length p)
       end);
  mret (fst n, (snd n + 7) / 8).

(** Where a field is read to: the size, or a status. *)
Definition field_destination (c src_obj dst_obj : Z) : M (uacpi_status * Z) :=
  if negb (c =? 0xf4) then mret (UACPI_STATUS_OK, 8) else
  n ← field_byte_size src_obj;
  if negb (is_ok (fst n)) || (snd n =? 0) then mret n else
  buf ← on_objects (get_pointer dst_obj);
  d ← on_items (kernel_alloc_bytes (snd n));
  match d with
  | None => mret (UACPI_STATUS_OUT_OF_MEMORY, 0)
  | Some _ => on_items (set_buffer buf (Some (replicate (Z.to_nat (snd n)) 0)) (snd n));; mret n
  end.

(** The bytes arrive at the destination. *)
Definition put_field (c dst_obj : Z) (l : list Z) : M unit :=
  if negb (c =? 0xf4) then on_objects (set_data dst_obj (D_INTEGER (le_value l))) else
  if bool_decide (l = []) then mret tt else
  buf ← on_objects (get_pointer dst_obj);
  on_items (set_buffer buf (Some l) (Z.of_nat (length l))).

Definition handle_field_read : M uacpi_status :=
  o ← cur_op_ctx;
  let c := spec_code (op_spec o) in
  node ← handle_at (ITEM_AT 0);
  src_obj ← in_env (uacpi_namespace_node_get_object node);
  dst_obj ← handle_at (ITEM_AT 1);
  n ← field_destination c src_obj dst_obj;
  if negb (is_ok (fst n)) then mret (fst n) else
  x ← on_objects (get_object src_obj);
  match o_type x with
  | OBJECT_BUFFER_FIELD =>
      f ← on_objects (Objects.of_opt (buffer_field_of (o_data x)));
      v ← in_env (read_buffer_field f);
      put_field c dst_obj (le_bytes (Z.to_nat (snd n)) v);;
      mret UACPI_STATUS_OK
  | _ =>
      p ← on_objects (get_pointer src_obj);
      r ← in_env (read_field_unit_bytes p (snd n));
      let '(ret, l, wtr_response) := (r : uacpi_status * list Z * option (list Z)) in
      put_field c dst_obj l;;
      if negb (is_ok ret) then mret ret else
      (match wtr_response with
       | Some l => buf ← on_objects (get_pointer dst_obj); on_items (set_buffer buf (Some l) (Z.of_nat (length l)))
       | None => mret tt
       end);;
      mret ret
  end.

(** ** Fields of regions *)

(** The local variables of [handle_create_field] that the list of fields changes. *)
Record field_cursor := {
  access_type : Z; cur_lock_rule : bool; cur_update_rule : uacpi_update_rule; access_attrib : Z; cur_access_length : Z;
  bit_offset : Z; cur_pin_offset : Z; connection_obj : Z }.

(** [field_data] by the instruction, with the code that says which. *)
Inductive field_target :=
  | TARGET_REGION (region : Z)
  | TARGET_BANK (region field0 value : Z)
  | TARGET_INDEX (field0 field1 : Z).

Definition get_field_length (pkg : Z * Z) : Z := u32 (snd pkg - fst pkg).

Definition update_rule_of (v : Z) : uacpi_update_rule :=
  match v with
  | 0 => UACPI_UPDATE_RULE_PRESERVE | 1 => UACPI_UPDATE_RULE_WRITE_AS_ONES | 2 => UACPI_UPDATE_RULE_WRITE_AS_ZEROES
  | _ => UPDATE_RULE_INVALID
  end.

Definition access_width (t : Z) : option Z :=
  match t with 0 | 1 | 5 => Some 1 | 2 => Some 2 | 3 => Some 4 | 4 => Some 8 | _ => None end.

Definition initial_cursor (raw_value : Z) : field_cursor := {|
  access_type := Z.land raw_value 15; cur_lock_rule := Z.testbit raw_value 4; cur_update_rule := update_rule_of (Z.land (Z.shiftr raw_value 5) 3);
  access_attrib := 0; cur_access_length := 0; bit_offset := 0; cur_pin_offset := 0; connection_obj := 0 |}.

(** [bit_offset += length; pin_offset += length;] *)
Definition move (length : Z) (c : field_cursor) : field_cursor := {|
  access_type := access_type c; cur_lock_rule := cur_lock_rule c; cur_update_rule := cur_update_rule c; access_attrib := access_attrib c;
  cur_access_length := cur_access_length c; bit_offset := bit_offset c +64 length; cur_pin_offset := u32 (cur_pin_offset c + length);
  connection_obj := connection_obj c |}.

(** The second byte of AccessField: the attribute, and the length if there is one. *)
Definition access_attribute (kind raw_value length : Z) : Z * Z :=
  match kind with
  | 0 => (raw_value, length)
  | 1 => (UACPI_ACCESS_ATTRIBUTE_BYTES, raw_value)
  | 2 => (UACPI_ACCESS_ATTRIBUTE_RAW_BYTES, raw_value)
  | _ => (UACPI_ACCESS_ATTRIBUTE_RAW_PROCESS_BYTES, raw_value)
  end.

Definition set_access (byte1 byte2 : Z) (c : field_cursor) : field_cursor :=
  let a := access_attribute (Z.land (Z.shiftr byte1 6) 3) byte2 (cur_access_length c) in {|
  access_type := Z.land byte1 15; cur_lock_rule := cur_lock_rule c; cur_update_rule := cur_update_rule c; access_attrib := fst a;
  cur_access_length := snd a; bit_offset := bit_offset c; cur_pin_offset := cur_pin_offset c; connection_obj := connection_obj c |}.
Definition set_access_length (x : Z) (c : field_cursor) : field_cursor := {|
  access_type := access_type c; cur_lock_rule := cur_lock_rule c; cur_update_rule := cur_update_rule c; access_attrib := access_attrib c;
  cur_access_length := x; bit_offset := bit_offset c; cur_pin_offset := cur_pin_offset c; connection_obj := connection_obj c |}.
Definition set_connection (x : Z) (c : field_cursor) : field_cursor := {|
  access_type := access_type c; cur_lock_rule := cur_lock_rule c; cur_update_rule := cur_update_rule c; access_attrib := access_attrib c;
  cur_access_length := cur_access_length c; bit_offset := bit_offset c; cur_pin_offset := 0; connection_obj := x |}.

(** The members of a field unit of [length] bits at the cursor. *)
Definition field_members (c : field_cursor) (width length : Z) : field_props := {|
  byte_offset := Z.land (bit_offset c / 8) (u32 (Z.lnot (width - 1)));
  FieldUnit.bit_length := length;
  pin_offset := cur_pin_offset c;
  bit_offset_within_first_byte := u8 (Z.land (bit_offset c) (width * 8 - 1));
  access_width_bytes := width;
  access_length := cur_access_length c;
  attributes := Z.land (access_attrib c) 15;
  update_rule := cur_update_rule c;
  lock_rule := cur_lock_rule c |}.

Definition update_field_unit (a : Z) (g : field_unit -> field_unit) : M unit :=
  on_objects (x ← get_cell a; match snd x with C_FIELD_UNIT f => write_cell a (C_FIELD_UNIT (g f)) | _ => undefined end).
Definition set_geometry (x : field_props) (f : field_unit) : field_unit := {| links := links f; connection := connection f; geometry := x |}.
Definition set_links (x : field_links) (f : field_unit) : field_unit := {| links := x; connection := connection f; geometry := geometry f |}.
Definition set_unit_connection (x : Z) (f : field_unit) : field_unit := {| links := links f; connection := x; geometry := geometry f |}.

(** The unit refers to what it is a field of. *)
Definition link_field (field : Z) (t : field_target) : M unit :=
  match t with
  | TARGET_REGION region => update_field_unit field (set_links (LINKS_NORMAL region));; in_env (node_ref region)
  | TARGET_BANK region field0 value =>
      update_field_unit field (set_links (LINKS_BANK region field0 value));; in_env (node_ref region);; on_objects (shareable_ref field0);; mret tt
  | TARGET_INDEX field0 field1 =>
      update_field_unit field (set_links (LINKS_INDEX field0 field1));;
      on_objects (shareable_ref field0);; on_objects (shareable_ref field1);; mret tt
  end.

(** An actual field object: the node is the item [i]. *)
Definition create_field_unit (i : nat) (t : field_target) (c : field_cursor) : M (uacpi_status * field_cursor) :=
  pkg ← package_at (ITEM_AT (i + 1));
  let length := get_field_length pkg in
  node ← handle_at (ITEM_AT i);
  obj ← handle_at (ITEM_AT (i + 2));
  field ← on_objects (get_pointer obj);
  match access_width (access_type c) with
  | None => mret (UACPI_STATUS_AML_BAD_ENCODING, c)
  | Some width =>
      update_field_unit field (set_geometry (field_members c width length));;
      link_field field t;;
      update_field_unit field (set_unit_connection (connection_obj c));;
      (if connection_obj c =? 0 then mret tt else ref_object (connection_obj c));;
      ret ← name_object node obj;
      if negb (is_ok ret) then mret (ret, c) else
      ret ← do_install_node_item i;
      mret (ret, move length c)
  end.

(** All other stuff: the status, the next item and the cursor. *)
Definition field_directive (i : nat) (c : field_cursor) : M (uacpi_status * nat * field_cursor) :=
  kind ← immediate_at (ITEM_AT i);
  match kind with
  | 0x00 => pkg ← package_at (ITEM_AT (i + 1)); mret (UACPI_STATUS_OK, (i + 2)%nat, move (get_field_length pkg) c)
  | 0x01 =>
      byte1 ← immediate_at (ITEM_AT (i + 1));
      byte2 ← immediate_at (ITEM_AT (i + 2));
      mret (UACPI_STATUS_OK, (i + 3)%nat, set_access (u8 byte1) (u8 byte2) c)
  | 0x03 =>
      byte1 ← immediate_at (ITEM_AT (i + 1));
      byte2 ← immediate_at (ITEM_AT (i + 2));
      length ← immediate_at (ITEM_AT (i + 3));
      mret (UACPI_STATUS_OK, (i + 4)%nat, set_access_length (u8 length) (set_access (u8 byte1) (u8 byte2) c))
  | 0x02 => o ← handle_at (ITEM_AT (i + 1)); mret (UACPI_STATUS_OK, (i + 2)%nat, set_connection o c)
  | _ => mret (UACPI_STATUS_INVALID_ARGUMENT, i, c)
  end.

(** [while (i < item_array_size(&op_ctx->items))]; every turn takes an item. *)
Fixpoint create_fields (fuel i : nat) (t : field_target) (c : field_cursor) : M uacpi_status :=
  match fuel with
  | O => mret UACPI_STATUS_OK
  | S fuel' =>
      o ← cur_op_ctx;
      match op_items o !! i with
      | None => mret UACPI_STATUS_OK
      | Some x =>
          match i_type x with
          | ITEM_NAMESPACE_NODE =>
              r ← create_field_unit i t c;
              if negb (is_ok (fst r)) then mret (fst r) else create_fields fuel' (i + 3) t (snd r)
          | _ =>
              r ← field_directive i c;
              let '(ret, i, c) := (r : uacpi_status * nat * field_cursor) in
              if negb (is_ok ret) then mret ret else create_fields fuel' i t c
          end
      end
  end.

Definition ensure_is (t : uacpi_object_type) (node : Z) : M (uacpi_status * Z) :=
  obj ← in_env (uacpi_namespace_node_get_object node);
  type ← object_type_at obj;
  mret (if decide (type = t) then UACPI_STATUS_OK else UACPI_STATUS_AML_INCOMPATIBLE_OBJECT_TYPE, obj).

Definition ensure_is_a_field_unit (i : nat) : M (uacpi_status + Z) :=
  node ← handle_at (ITEM_AT i);
  x ← ensure_is OBJECT_FIELD_UNIT node;
  if negb (is_ok (fst x)) then mret (inl (fst x)) else p ← on_objects (get_pointer (snd x)); mret (inr p).
Definition ensure_is_an_op_region (i : nat) : M (uacpi_status + Z) :=
  node ← handle_at (ITEM_AT i);
  x ← ensure_is OBJECT_OPERATION_REGION node;
  mret (if is_ok (fst x) then inr node else inl (fst x)).

(** What the fields are of, and the item that comes next. *)
Definition field_data (c : Z) : M (uacpi_status + field_target * nat) :=
  if c =? 0x5b81 then
    r ← ensure_is_an_op_region 1;
    match r with inl ret => mret (inl ret) | inr region => mret (inr (TARGET_REGION region, 2%nat)) end
  else if c =? 0x5b87 then
    r ← ensure_is_an_op_region 1;
    match r with
    | inl ret => mret (inl ret)
    | inr region =>
        f ← ensure_is_a_field_unit 2;
        match f with
        | inl ret => mret (inl ret)
        | inr field0 => v ← handle_at (ITEM_AT 3); value ← object_integer v; mret (inr (TARGET_BANK region field0 value, 4%nat))
        end
    end
  else if c =? 0x5b86 then
    f ← ensure_is_a_field_unit 1;
    match f with
    | inl ret => mret (inl ret)
    | inr field0 =>
        f ← ensure_is_a_field_unit 2;
        match f with inl ret => mret (inl ret) | inr field1 => mret (inr (TARGET_INDEX field0 field1, 3%nat)) end
    end
  else mret (inl UACPI_STATUS_INVALID_ARGUMENT).

Definition handle_create_field : M uacpi_status :=
  o ← cur_op_ctx;
  d ← field_data (spec_code (op_spec o));
  match d with
  | inl ret => mret ret
  | inr (t, i) =>
      raw_value ← immediate_at (ITEM_AT i);
      create_fields (length (op_items o)) (i + 1) t (initial_cursor (u8 raw_value))
  end.

(** ** Which handler *)

Definition aml_op_codes : list (Z * uacpi_aml_op) :=
  [(0x72, AddOp); (0x74, SubtractOp); (0x77, MultiplyOp); (0x78, DivideOp); (0x85, ModOp); (0x79, ShiftLeftOp); (0x7a, ShiftRightOp);
   (0x7b, AndOp); (0x7c, NandOp); (0x7d, OrOp); (0x7e, NorOp); (0x7f, XorOp); (0x80, NotOp); (0x82, FindSetRightBitOp);
   (0x81, FindSetLeftBitOp); (0x99, ToIntegerOp); (0x98, ToHexStringOp); (0x97, ToDecimalStringOp); (0x96, ToBufferOp);
   (0x71, RefOfOp); (0x5b12, CondRefOfOp); (0x83, DerefOfOp); (0x5b22, SleepOp); (0x5b21, StallOp); (0x5b28, FromBCDOp);
   (0x5b29, ToBCDOp); (0x90, LandOp); (0x91, LorOp); (0x93, LEqualOp); (0x95, LLessOp); (0x94, LGreaterOp)].

Definition aml_op_of (c : Z) : uacpi_aml_op := default (OtherOp c) (assoc c aml_op_codes).

(** A handler that computes, with the instruction it is run for. *)
Definition computing (h : uacpi_aml_op -> SM (aml V) uacpi_status) : M uacpi_status :=
  o ← cur_op_ctx; on_items (h (aml_op_of (spec_code (op_spec o)))).

Definition op_handlers (h : op_handler) : M uacpi_status :=
  match h with
  | OP_HANDLER_UNINSTALLED => mret UACPI_STATUS_UNIMPLEMENTED
  | OP_HANDLER_LOCAL => handle_local
  | OP_HANDLER_ARG => handle_arg
  | OP_HANDLER_NAMED_OBJECT => handle_named_object
  | OP_HANDLER_STRING => handle_string
  | OP_HANDLER_BUFFER => handle_buffer
  | OP_HANDLER_PACKAGE => handle_package
  | OP_HANDLER_CREATE_NAMED => handle_create_named
  | OP_HANDLER_ALIAS => handle_create_alias
  | OP_HANDLER_CODE_BLOCK => handle_code_block
  | OP_HANDLER_CONTROL_FLOW => handle_control_flow
  | OP_HANDLER_RETURN => handle_return
  | OP_HANDLER_CREATE_METHOD => handle_create_method
  | OP_HANDLER_CREATE_MUTEX_OR_EVENT => handle_create_mutex_or_event
  | OP_HANDLER_COPY_OBJECT_OR_STORE => handle_copy_object_or_store
  | OP_HANDLER_INC_DEC => handle_inc_dec
  | OP_HANDLER_EVENT_CTL => handle_event_ctl
  | OP_HANDLER_MUTEX_CTL => handle_mutex_ctl
  | OP_HANDLER_NOTIFY => handle_notify
  | OP_HANDLER_FIRMWARE_REQUEST => handle_firmware_request
  | OP_HANDLER_CREATE_OP_REGION => handle_create_op_region
  | OP_HANDLER_CREATE_DATA_REGION => handle_create_data_region
  | OP_HANDLER_CREATE_BUFFER_FIELD => handle_create_buffer_field
  | OP_HANDLER_READ_FIELD => handle_field_read
  | OP_HANDLER_CREATE_FIELD => handle_create_field
  | OP_HANDLER_LOAD => handle_load
  | OP_HANDLER_LOAD_TABLE => handle_load_table
  | OP_HANDLER_BINARY_MATH => computing handle_binary_math
  | OP_HANDLER_UNARY_MATH => computing handle_unary_math
  | OP_HANDLER_REF_OR_DEREF_OF => computing handle_ref_or_deref_of
  | OP_HANDLER_LOGICAL_NOT => on_items handle_logical_not
  | OP_HANDLER_BINARY_LOGIC => computing handle_binary_logic
  | OP_HANDLER_CONCATENATE => on_items handle_concatenate
  | OP_HANDLER_CONCATENATE_RES => on_items handle_concatenate_res
  | OP_HANDLER_SIZEOF => on_items handle_sizeof
  | OP_HANDLER_INDEX => on_items handle_index
  | OP_HANDLER_OBJECT_TYPE => on_items handle_object_type
  | OP_HANDLER_TO => computing handle_to
  | OP_HANDLER_TO_STRING => on_items handle_to_string
  | OP_HANDLER_TIMER => on_items handle_timer
  | OP_HANDLER_MID => on_items handle_mid
  | OP_HANDLER_MATCH => on_items handle_match
  | OP_HANDLER_BCD => computing handle_bcd
  | OP_HANDLER_STALL_OR_SLEEP => computing handle_stall_or_sleep
  end.

(** ** _OSI *)

(** The native method: [retval] is null when nobody wants the answer. *)
Definition uacpi_osi (args : list Z) (retval : Z) : SM (ns (ost V)) uacpi_status :=
  match args with
  | [] => undefined
  | a :: _ =>
      arg ← AmlStore.on_objects (Objects.uacpi_unwrap_internal_reference a);
      x ← AmlStore.on_objects (get_object arg);
      if negb (bool_decide (o_type x = OBJECT_STRING)) then mret UACPI_STATUS_AML_INCOMPATIBLE_OBJECT_TYPE else
      if retval =? 0 then mret UACPI_STATUS_OK else
      AmlStore.on_objects (Objects.set_type retval OBJECT_INTEGER);;
      p ← AmlStore.on_objects (get_pointer arg);
      b ← AmlStore.on_objects (get_buffer p);
      r ← handle_osi (default [] (fst b));
      if negb (is_ok (fst r)) then mret (fst r) else
      all ← on_aml ones;
      AmlStore.on_objects (set_data retval (D_INTEGER (if snd (r : uacpi_status * bool) then all else 0)));;
      mret UACPI_STATUS_OK
  end.

(** ** Tables *)

Inductive uacpi_table_load_cause :=
  | TABLE_LOAD_CAUSE_LOAD_OP | TABLE_LOAD_CAUSE_LOAD_TABLE_OP | TABLE_LOAD_CAUSE_INIT | TABLE_LOAD_CAUSE_HOST.

Definition is_dynamic_table_load (cause : uacpi_table_load_cause) : bool :=
  match cause with TABLE_LOAD_CAUSE_INIT => false | _ => true end.

(** [struct uacpi_control_method method = {0}] *)
Definition zeroed_method : control_method := {|
  code := []; m_mutex := 0; m_sync_level := 0; m_args := 0; is_serialized := false; named_objects_persist := false; native_call := false;
  owns_code := false |}.

(** A variable of a function lives at an address while the function runs. *)
Definition with_local {A} (a : Z) (c : cell) (body : SM (ns (ost V)) A) : SM (ns (ost V)) A :=
  AmlStore.on_objects (fun s => Some (tt, set_cells (<[a := (0, c)]> (cells s)) s));;
  x ← body;
  AmlStore.on_objects (fun s => Some (tt, set_cells (delete a (cells s)) s));;
  mret x.

(** The method is a local variable at [method]; its count of references is 0, which the
    first reference turns into the mark of an object that is never freed. *)
Definition do_load_table (turns fuel : nat) (method parent_ tbl : Z) (cause : uacpi_table_load_cause) : SM (ns (ost V)) uacpi_status :=
  c ← AmlStore.on_objects (Objects.host (table_code tbl));
  with_local method (C_METHOD (persisting c zeroed_method)) (
    r ← AmlMachine.execute_control_method op_handlers turns fuel parent_ method None false;
    let ret := fst (r : uacpi_status * Z) in
    if negb (is_ok ret) then mret ret else
    (if is_dynamic_table_load cause then events_match_post_dynamic_table_load else mret tt);;
    mret ret).

Definition uacpi_execute_table (turns fuel : nat) (method tbl : Z) (cause : uacpi_table_load_cause) : SM (ns (ost V)) uacpi_status :=
  ret ← Namespace.in_world uacpi_namespace_write_lock;
  if negb (is_ok ret) then mret ret else
  ret ← do_load_table turns fuel method uacpi_namespace_root tbl cause;
  Namespace.in_world uacpi_namespace_write_unlock;;
  mret ret.
End Handlers.
