(* ===== verification/AmlDecode.v ===== *)
(** * acpi/uacpi/interpreter.c: the decoder stays inside the programs

    The machine of [AmlMachine] is driven by the programs in the tables of [AmlTables]:
    bytes that it reads one after the other, with jumps, and whose meaning depends on the
    byte before.  An analysis computes for every program the positions where an operation
    can begin and checks that each of them is an operation with all of its arguments.
    The rest of the file shows that the machine keeps to it: in every run every pending
    operator of every frame is at such a position, so that no run reads outside of a
    program, and there is a frame and an operator whenever one is needed. *)

From S2P Require Import Prelude CMem UStdlib UCore UText FieldUnit Shareable Namespace Objects Regions AmlTables AmlOps AmlStore AmlMachine AmlHandlers.

Open Scope word_scope.

(** ** The analysis *)

(** Operations that wait for an operand. *)
Definition preempting (p : uacpi_parse_op) : bool :=
  match p with
  | POP_SIMPLE_NAME | POP_SUPERNAME | POP_SUPERNAME_OR_UNRESOLVED | POP_TERM_ARG | POP_TERM_ARG_UNWRAP_INTERNAL
  | POP_TERM_ARG_OR_NAMED_OBJECT | POP_TERM_ARG_OR_NAMED_OBJECT_OR_UNRESOLVED | POP_OPERAND | POP_STRING
  | POP_COMPUTATIONAL_DATA | POP_TARGET => true
  | _ => false
  end.

(** The byte of the program at a position. *)
Definition byte_at (x : uacpi_op_spec) (p : Z) : option Z := decode_ops x !! Z.to_nat p.

(** There are [n] bytes at the position. *)
Definition has_bytes (x : uacpi_op_spec) (p n : Z) : bool := p + n <=? Z.of_nat (length (decode_ops x)).

Definition is_branch (x : uacpi_op_spec) : bool := (spec_code x =? 0xa0) || (spec_code x =? 0xa2).

(** Where the machine can go on after the operation at the position, [None] when the
    operation is not complete. *)
Definition successors (x : uacpi_op_spec) (p : Z) : option (list Z) :=
  b ← byte_at x p;
  op ← pop_of b;
  let q := p + 1 in
  match op with
  | POP_END => Some []
  | POP_SKIP_WITH_WARN_IF_NULL | POP_LOAD_IMM | POP_LOAD_IMM_AS_OBJECT | POP_TYPECHECK | POP_IMM_DECREMENT
  | POP_INSTALL_NAMESPACE_NODE | POP_STORE_TO_TARGET => _ ← byte_at x q; Some [q + 1]
  | POP_OBJECT_ALLOC_TYPED => b ← byte_at x q; _ ← object_type_of_value b; Some [q + 1]
  | POP_LOAD_INLINE_IMM => w ← byte_at x q; if (0 <=? w) && has_bytes x (q + 1) (Z.min 8 w) then Some [q + 1 + w] else None
  | POP_LOAD_INLINE_IMM_AS_OBJECT => if has_bytes x q 8 then Some [q + 8] else None
  | POP_IF_HAS_DATA | POP_IF_LAST_NULL | POP_IF_LAST_NOT_NULL | POP_IF_LAST_FALSE | POP_IF_LAST_TRUE =>
      n ← byte_at x q; Some [q + 1; q + 1 + n]
  | POP_IF_NULL | POP_IF_NOT_NULL | POP_IF_LAST_EQUALS => _ ← byte_at x q; n ← byte_at x (q + 1); Some [q + 1 + 1; q + 1 + 1 + n]
  | POP_JMP => b ← byte_at x q; Some [b]
  | POP_CREATE_NAMESTRING | POP_CREATE_NAMESTRING_OR_NULL_IF_LOAD | POP_EXISTING_NAMESTRING | POP_EXISTING_NAMESTRING_OR_NULL
  | POP_EXISTING_NAMESTRING_OR_NULL_IF_LOAD => if is_branch x then None else Some [q]
  | POP_STORE_TO_TARGET_INDIRECT => _ ← byte_at x q; _ ← byte_at x (q + 1); Some [q + 1 + 1]
  | POP_SWITCH_TO_NEXT_IF_EQUALS =>
      a ← byte_at x q; b ← byte_at x (q + 1); _ ← uacpi_get_op_spec (Z.lor a (Z.shiftl b 8)); Some [q + 1 + 1]
  | POP_IF_SWITCHED_FROM => _ ← byte_at x q; _ ← byte_at x (q + 1); n ← byte_at x (q + 1 + 1); Some [q + 1 + 1 + 1; q + 1 + 1 + 1 + n]
  | _ => Some [q]
  end.

(** The positions that can be reached, by bounded iteration. *)
Fixpoint reached (fuel : nat) (x : uacpi_op_spec) (todo seen : list Z) : list Z :=
  match fuel, todo with
  | O, _ | _, [] => seen
  | S fuel', p :: todo' =>
      if bool_decide (p ∈ seen) then reached fuel' x todo' seen else reached fuel' x (default [] (successors x p) ++ todo') (p :: seen)
  end.

Definition positions (x : uacpi_op_spec) : list Z := reached 200 x [0] [].

(** The program is short, the start is such a position, all of them are positions of a byte and complete, and
    what follows them is one of them. *)
Definition program_ok (x : uacpi_op_spec) : bool :=
  bool_decide (0 ∈ positions x) && (length (decode_ops x) <? 256)%nat &&
  forallb (fun p => (0 <=? p) && (p <? 256) &&
    match successors x p with Some l => forallb (fun q => bool_decide (q ∈ positions x)) l | None => false end) (positions x).

Definition instructions : list uacpi_op_spec := opcode_table ++ ext_opcode_table.

Lemma programs_ok : forallb program_ok instructions = true.
Proof. vm_compute; reflexivity. Qed.

#[local] Opaque positions instructions successors.

(** What the check says of a program. *)
Lemma program_listed x : x ∈ instructions -> program_ok x = true.
Proof. intros Hx; apply (proj1 (forallb_forall _ _) programs_ok), list_elem_of_In, Hx. Qed.

(** ** What leaves the operators alone

    A computation is quiet when it neither moves an operator nor adds or removes one, and
    does not miss a frame, an operator or a byte of a program, provided that there is a
    frame (level 1) or an operator (level 2). *)

Section Decode.
Context {V : Type} {OH : ObjectHost V} {NL : NamespaceLock (ost V)} {OBJ : Namespace.Objects (ost V)} {AH : AmlHost V} {RH : RegionHost V}
  {FH : FieldHost V} {MH : MachineHost V} {HH : HandlerHost V}.

Abbreviation M := (VM V).
Abbreviation ctx := (execution_context V).

Definition op_place : Type := uacpi_op_spec * Z * bool.
Definition place (o : op_context) : op_place := (op_spec o, pc o, preempted o).
Definition places (f : call_frame) : list op_place := map place (pending_ops f).
Definition ops_of (s : ctx) : list (list op_place) := map places (call_stack s).

Definition has (n : nat) (s : ctx) : Prop :=
  match n, ops_of s with
  | O, _ => True
  | S O, l => l <> []
  | _, (_ :: _) :: _ => True
  | _, _ => False
  end.

Definition bad (f : fault) : bool := match f with F_DECODE | F_FRAME => true | _ => false end.

Definition quiet {A} (n : nat) (m : M A) : Prop := forall s, has n s ->
  match m s with inl f => bad f = false | inr (_, s') => ops_of s' = ops_of s /\ cur_op s' = cur_op s end.

Lemma has_ops n s s' : ops_of s' = ops_of s -> has n s -> has n s'.
Proof. unfold has; intros ->; exact (fun H => H). Qed.

Lemma has_frame n s : (1 <= n)%nat -> has n s -> exists f l, call_stack s = f :: l.
Proof.
  unfold has, ops_of; destruct n as [|[|n]]; [lia| |]; intros _; (destruct (call_stack s) as [|f l]; [|eauto]); cbn; tauto.
Qed.
Lemma has_op n s : (2 <= n)%nat -> has n s -> exists f l o os, call_stack s = f :: l /\ pending_ops f = o :: os.
Proof.
  unfold has, ops_of; destruct n as [|[|n]]; [lia|lia|]; intros _; (destruct (call_stack s) as [|f l]; [cbn; tauto|]); cbn.
  unfold places; destruct (pending_ops f) as [|o os] eqn:E; cbn; [tauto|eauto 8].
Qed.

Lemma quiet_bind {A B} n (m : M A) (k : A -> M B) : quiet n m -> (forall a, quiet n (k a)) -> quiet n (m ≫= k).
Proof.
  intros Hm Hk s Hs; unfold mbind, VM_bind; specialize (Hm s Hs); destruct (m s) as [f|[a s1]]; [exact Hm|]; destruct Hm as [H1 H2].
  specialize (Hk a s1 (has_ops n _ _ H1 Hs)); destruct (k a s1) as [f|[b s2]]; [exact Hk|]; destruct Hk; split; congruence.
Qed.
Lemma quiet_ret {A} n (a : A) : quiet n (mret a).
Proof. intros s _; split; reflexivity. Qed.
Lemma quiet_fail {A} n f : bad f = false -> quiet (A := A) n (fail f).
Proof. intros H s _; exact H. Qed.
Lemma quiet_of_option {A} n f (o : option A) : bad f = false -> quiet n (of_option f o).
Proof. intros H; destruct o; [apply quiet_ret|apply quiet_fail, H]. Qed.
Lemma quiet_gets {A} n (g : ctx -> A) : quiet n (gets g).
Proof. intros s _; split; reflexivity. Qed.
Lemma quiet_update n (g : ctx -> ctx) : (forall s, ops_of (g s) = ops_of s /\ cur_op (g s) = cur_op s) -> quiet n (update g).
Proof. intros H s _; exact (H s). Qed.
Lemma quiet_in_env {A} n (c : SM (ns (ost V)) A) : quiet n (in_env c).
Proof. intros s _; unfold in_env; destruct (c (env s)) as [[a w]|]; [split|]; reflexivity. Qed.
Lemma quiet_on_objects {A} n (c : SM (ost V) A) : quiet n (AmlMachine.on_objects c).
Proof. apply quiet_in_env. Qed.
Lemma quiet_on_host {A} n (c : SM V A) : quiet n (AmlMachine.on_host c).
Proof. apply quiet_on_objects. Qed.
Lemma quiet_setting {A} n (g : V -> A) : quiet n (host_setting g).
Proof. apply quiet_gets. Qed.

Lemma quiet_cur_frame n : (1 <= n)%nat -> quiet n cur_frame.
Proof. intros Hn s Hs; destruct (has_frame n s Hn Hs) as (f & l & E); unfold cur_frame, mbind, VM_bind, gets; rewrite E; split; reflexivity. Qed.
Lemma quiet_update_frame n g : (1 <= n)%nat -> (forall f, places (g f) = places f) -> quiet n (update_frame g).
Proof.
  intros Hn Hg s Hs; destruct (has_frame n s Hn Hs) as (f & l & E); unfold update_frame; rewrite E; unfold ops_of; cbn; rewrite E; cbn.
  rewrite Hg; split; reflexivity.
Qed.
Lemma quiet_cur_op_ctx n : (2 <= n)%nat -> quiet n cur_op_ctx.
Proof.
  intros Hn s Hs; destruct (has_op n s Hn Hs) as (f & l & o & os & E & Eo); unfold cur_op_ctx, cur_frame, mbind, VM_bind, gets; cbn; rewrite E; cbn.
  rewrite Eo; split; reflexivity.
Qed.
Lemma quiet_update_op n g : (2 <= n)%nat -> (forall o, place (g o) = place o) -> quiet n (update_op g).
Proof.
  intros Hn Hg s Hs; destruct (has_op n s Hn Hs) as (f & l & o & os & E & Eo).
  unfold update_op, cur_frame, mbind, VM_bind, gets; cbn; rewrite E; cbn; rewrite Eo; unfold update_frame, ops_of; cbn; rewrite E; cbn.
  unfold places; cbn; rewrite Eo; cbn; rewrite Hg; split; reflexivity.
Qed.
Lemma quiet_prev_op_ctx n : (1 <= n)%nat -> quiet n prev_op_ctx.
Proof. intros Hn; apply quiet_bind; [apply quiet_cur_frame, Hn|intros f; apply quiet_ret]. Qed.
Lemma quiet_on_items {A} n (c : SM (aml V) A) : (2 <= n)%nat -> quiet n (on_items c).
Proof.
  intros Hn s Hs; destruct (has_op n s Hn Hs) as (f & l & o & os & E & Eo); unfold on_items; rewrite E, Eo.
  destruct (c _) as [[a t]|]; [|reflexivity]; unfold ops_of; cbn; rewrite E; cbn; unfold places; cbn; rewrite Eo; split; reflexivity.
Qed.

Create HintDb quiet.
#[local] Hint Extern 1 (_ <= _)%nat => lia : quiet.
#[local] Hint Extern 1 (bad _ = false) => reflexivity : quiet.
#[local] Hint Extern 1 (forall f : call_frame, _ = _) => intros; repeat case_match; reflexivity : quiet.
#[local] Hint Extern 1 (forall o : op_context, _ = _) => intros; reflexivity : quiet.
#[local] Hint Extern 1 (forall s : execution_context _, _ /\ _) => intros; split; reflexivity : quiet.
#[local] Hint Resolve quiet_ret quiet_fail quiet_of_option quiet_gets quiet_update quiet_in_env quiet_on_objects quiet_on_host
  quiet_setting quiet_cur_frame quiet_update_frame quiet_cur_op_ctx quiet_update_op quiet_prev_op_ctx quiet_on_items : quiet.

(** A sequence, a choice, something known, or a definition to look into. *)
Ltac quiet_step :=
  match goal with
  | |- quiet _ (mbind _ _) => apply quiet_bind; [|intros ?]
  | |- quiet _ (match ?x with _ => _ end) => destruct x
  | |- quiet _ _ => solve [auto with quiet nocore]
  | |- quiet _ ?m => let rec head t := lazymatch t with ?g _ => head g | _ => t end in let h := head m in unfold h
  end.
Ltac quiet := intros; repeat quiet_step.

(** *** Loops *)

Lemma q_name_prefix n cur : forall l c p j, quiet n (name_prefix cur l c p j).
Proof. induction cur as [|c rest IH]; intros; cbn [name_prefix]; quiet; apply IH. Qed.
Lemma q_resolve_namesegs n k : forall l b j c, quiet n (resolve_namesegs k l b j c).
Proof. induction k as [|k IH]; intros; cbn [resolve_namesegs]; quiet; apply IH. Qed.
Lemma q_pop_items n k : (2 <= n)%nat -> quiet n (pop_items k).
Proof. intros Hn; induction k; cbn [pop_items]; quiet; exact IHk. Qed.
Lemma q_leave_blocks n k b : (1 <= n)%nat -> quiet n (leave_blocks k b).
Proof. intros Hn; induction k; cbn [leave_blocks]; quiet; exact IHk. Qed.
Lemma q_push_args n l : forall i f, quiet n (push_args l i f).
Proof. induction l; intros; cbn [push_args]; quiet; apply IHl. Qed.
Lemma q_uninstall_nodes n l : quiet n (uninstall_nodes l).
Proof. induction l; cbn [uninstall_nodes]; quiet; exact IHl. Qed.
Lemma q_unref_objects n l : quiet n (unref_objects l).
Proof. induction l; cbn [unref_objects]; quiet; exact IHl. Qed.
Lemma q_ref_args n l k : forall i f, quiet n (ref_args l k i f).
Proof. induction k; intros; cbn [ref_args]; quiet; apply IHk. Qed.
Lemma q_strnlen n l : forall k, quiet n (strnlen l k).
Proof. induction l as [|c l IH]; intros [|k]; cbn [strnlen]; quiet; apply IH. Qed.
Lemma q_path_prefix n cur : forall l, quiet n (path_prefix cur l).
Proof. induction cur as [|c rest IH]; intros; cbn [path_prefix]; quiet; apply IH. Qed.
#[local] Hint Resolve q_name_prefix q_resolve_namesegs q_pop_items q_leave_blocks q_push_args q_uninstall_nodes q_unref_objects
  q_ref_args q_strnlen q_path_prefix : quiet.
Lemma q_fill_package n k : (2 <= n)%nat -> forall i p, quiet n (fill_package k i p).
Proof. intros Hn; induction k as [|k IH]; intros; cbn [fill_package]; quiet; apply IH. Qed.
Lemma q_create_fields n k : (2 <= n)%nat -> forall i t c, quiet n (create_fields k i t c).
Proof. intros Hn; induction k as [|k IH]; intros; cbn [create_fields]; quiet; apply IH. Qed.
Lemma q_resolve_name_string n b : (1 <= n)%nat -> quiet n (resolve_name_string b).
Proof. quiet. Qed.
#[local] Hint Resolve q_fill_package q_create_fields q_resolve_name_string : quiet.

(** *** Handlers *)

Lemma handlers_quiet h : quiet 2 (op_handlers h).
Proof. destruct h; cbn [op_handlers]; quiet. Qed.

(** ** What the analysis says *)

Definition waits (x : uacpi_op_spec) (p : Z) : Prop := exists op, byte_at x p ≫= pop_of = Some op /\ preempting op = true.

(** An operator at a position, with an operand to wait for if it is preempted. *)
Definition op_ok (o : op_place) : Prop :=
  let '(x, p, b) := o in x ∈ instructions /\ p ∈ positions x /\ (b = true -> waits x p).
Definition frame_ok (l : list op_place) : Prop := Forall op_ok l /\ Forall (fun o => snd o = true) (tail l).
(** Only the newest frame can be without operators, only the newest operator of a frame
    can be running. *)
Definition stack_ok (T : list (list op_place)) : Prop := Forall frame_ok T /\ Forall (fun l => l <> []) (tail T).

Lemma position_facts x p : x ∈ instructions -> p ∈ positions x ->
  0 <= p < 256 /\ (length (decode_ops x) < 256)%nat /\ exists l, successors x p = Some l /\ forall q, q ∈ l -> q ∈ positions x.
Proof.
  intros Hx Hp; pose proof (program_listed x Hx) as H; unfold program_ok in H.
  rewrite !andb_true_iff, forallb_forall in H; destruct H as [[_ Hl] H]; specialize (H p (proj1 (list_elem_of_In _ _) Hp)).
  rewrite !andb_true_iff in H; destruct H as [[H0 H1] H2]; split; [lia|]; split; [apply Nat.ltb_lt, Hl|].
  destruct (successors x p) as [l|]; [|discriminate]; exists l; split; [reflexivity|]; rewrite forallb_forall in H2.
  intros q Hq; specialize (H2 q (proj1 (list_elem_of_In _ _) Hq)); apply bool_decide_eq_true in H2; exact H2.
Qed.

Lemma start_position x : x ∈ instructions -> 0 ∈ positions x.
Proof.
  intros Hx; pose proof (program_listed x Hx) as H; unfold program_ok in H.
  rewrite !andb_true_iff in H; destruct H as [[H _] _]; apply bool_decide_eq_true in H; exact H.
Qed.

Lemma position_byte x p : x ∈ instructions -> p ∈ positions x -> exists b, byte_at x p = Some b.
Proof.
  intros Hx Hp; destruct (position_facts x p Hx Hp) as (_ & _ & l & H & _); with_strategy transparent [successors] unfold successors in H.
  destruct (byte_at x p) as [b|]; [eauto|discriminate].
Qed.

(** After the operand an operator goes on behind the operation that waited. *)
Lemma waits_next x p : x ∈ instructions -> p ∈ positions x -> waits x p -> p + 1 ∈ positions x /\ 0 <= p + 1 < 256.
Proof.
  intros Hx Hp (op & Hop & Hw); destruct (position_facts x p Hx Hp) as (_ & _ & l & H & Hq); with_strategy transparent [successors] unfold successors in H.
  destruct (byte_at x p) as [b|]; [|discriminate]; cbn in H, Hop; rewrite Hop in H; cbn in H.
  assert (El : l = [p + 1]) by (destruct op; try discriminate Hw; congruence).
  assert (Hn : p + 1 ∈ positions x) by (apply Hq; rewrite El; left); split; [exact Hn|]; apply (position_facts x (p + 1) Hx Hn).
Qed.

Lemma spec_found op : 0 <= op < 256 \/ (exists b, 0 <= b < 256 /\ op = UACPI_EXT_OP b) -> exists x, uacpi_get_op_spec op = Some x.
Proof.
  intros H; destruct tables_indexed as [T _]; rewrite forallb_forall in T; specialize (T op).
  destruct (uacpi_get_op_spec op) as [x|]; [eauto|]; discriminate T; apply list_elem_of_In, elem_of_app.
  destruct H as [H|(b & Hb & ->)]; [left; apply elem_of_seqZ; lia|right; apply list_elem_of_fmap; exists b; split; [reflexivity|apply elem_of_seqZ; lia]].
Qed.
Lemma spec_listed op x : uacpi_get_op_spec op = Some x -> x ∈ instructions.
Proof.
  with_strategy transparent [instructions] unfold uacpi_get_op_spec, instructions; destruct (0xff <? op); intros H; apply elem_of_app; [right|left]; eapply list_elem_of_lookup_2, H.
Qed.

Lemma top_ok x p b l ll : stack_ok (((x, p, b) :: l) :: ll) -> op_ok (x, p, b).
Proof. intros [H _]; apply Forall_cons in H as [[H _] _]; apply Forall_cons in H as [H _]; exact H. Qed.
Lemma stack_move x p x' p' b b' l ll : stack_ok (((x, p, b) :: l) :: ll) -> op_ok (x', p', b') -> stack_ok (((x', p', b') :: l) :: ll).
Proof.
  intros [H Ht] Ho; apply Forall_cons in H as [[H Hp] Hr]; apply Forall_cons in H as [_ H]; split; [|exact Ht].
  apply Forall_cons; split; [split; [apply Forall_cons; split|]|]; assumption.
Qed.
(** The operator below the top, once it has what it waited for. *)
Lemma stack_pop o x p b l ll : stack_ok ((o :: (x, p, b) :: l) :: ll) -> stack_ok (((x, p + 1, false) :: l) :: ll) /\ 0 <= p + 1 < 256.
Proof.
  intros [H Ht]; apply Forall_cons in H as [[H Hp] Hr]; apply Forall_cons in H as [_ H]; apply Forall_cons in H as [(Hx & Hq & Hw) H].
  cbn in Hp; apply Forall_cons in Hp as [E Hp]; cbn in E; subst b; destruct (waits_next x p Hx Hq (Hw eq_refl)) as [Hn Hb]; split; [|exact Hb].
  split; [|exact Ht]; apply Forall_cons; split; [|exact Hr]; split; [|exact Hp]; apply Forall_cons; split; [|exact H].
  split; [exact Hx|split; [exact Hn|discriminate]].
Qed.

(** ** Runs

    What a computation does to the places of the operators, from places [T]. *)

Abbreviation tops := (list (list op_place)).

Definition runs {A} (m : M A) (T : tops) (Q : A -> tops -> Prop) : Prop := forall s, ops_of s = T ->
  match m s with inl f => bad f = false | inr (a, s') => Q a (ops_of s') /\ cur_op s' = cur_op s end.

Lemma runs_bind {A B} (m : M A) (k : A -> M B) T Q' Q : runs m T Q' -> (forall a T', Q' a T' -> runs (k a) T' Q) -> runs (m ≫= k) T Q.
Proof.
  intros Hm Hk s Es; unfold mbind, VM_bind; specialize (Hm s Es); destruct (m s) as [f|[a s1]]; [exact Hm|]; destruct Hm as [Hq Hc].
  specialize (Hk a _ Hq s1 eq_refl); destruct (k a s1) as [f|[b s2]]; [exact Hk|]; destruct Hk; split; congruence.
Qed.
Lemma runs_ret {A} (a : A) T (Q : A -> tops -> Prop) : Q a T -> runs (mret a) T Q.
Proof. intros H s <-; split; [exact H|reflexivity]. Qed.
Lemma runs_conseq {A} (m : M A) T (Q Q' : A -> tops -> Prop) : runs m T Q -> (forall a T', Q a T' -> Q' a T') -> runs m T Q'.
Proof. intros H HQ s Es; specialize (H s Es); destruct (m s) as [f|[a s']]; [exact H|]; destruct H; split; auto. Qed.

(** There is a frame, or an operator, in [T]. *)
Definition level (n : nat) (T : tops) : Prop :=
  match n, T with O, _ => True | S O, l => l <> [] | _, (_ :: _) :: _ => True | _, _ => False end.

Lemma runs_quiet {A} n (m : M A) T (Q : A -> tops -> Prop) : quiet n m -> level n T -> (forall a, Q a T) -> runs m T Q.
Proof.
  intros Hm HT HQ s Es; specialize (Hm s); destruct (m s) as [f|[a s']].
  - apply Hm; unfold has; rewrite Es; exact HT.
  - destruct Hm as [E1 E2]; [unfold has; rewrite Es; exact HT|]; rewrite E1, Es; split; [apply HQ|exact E2].
Qed.
Lemma runs_quietly {A B} n (m : M A) (k : A -> M B) T Q : quiet n m -> level n T -> (forall a, runs (k a) T Q) -> runs (m ≫= k) T Q.
Proof. intros Hm HT Hk; eapply runs_bind; [apply (runs_quiet n m T (fun _ T' => T' = T)); auto|]; intros a T' ->; apply Hk. Qed.

(** The frame and the operator that are current. *)
Lemma runs_frame {B} (k : call_frame -> M B) l ll Q : (forall f, places f = l -> runs (k f) (l :: ll) Q) -> runs (cur_frame ≫= k) (l :: ll) Q.
Proof.
  intros Hk s Es; unfold cur_frame, mbind, VM_bind, gets; unfold ops_of in Es; destruct (call_stack s) as [|f fs] eqn:E; [discriminate|]; cbn in Es.
  injection Es as Ef Er; cbn; apply (Hk f Ef s); unfold ops_of; rewrite E; cbn; congruence.
Qed.
Lemma runs_op {B} (k : op_context -> M B) o l ll Q :
  (forall c, place c = o -> runs (k c) ((o :: l) :: ll) Q) -> runs (cur_op_ctx ≫= k) ((o :: l) :: ll) Q.
Proof.
  intros Hk s Es; unfold cur_op_ctx, cur_frame, mbind, VM_bind, gets; pose proof Es as Es'; unfold ops_of in Es.
  destruct (call_stack s) as [|f fs] eqn:E; [discriminate|]; cbn in Es; injection Es as Ef Er; unfold places in Ef.
  cbn; destruct (pending_ops f) as [|c cs] eqn:Eo; [discriminate|]; cbn in Ef; injection Ef as Ec _; cbn; apply (Hk c Ec s Es').
Qed.
Lemma runs_prev {B} (k : option op_context -> M B) o l ll Q :
  (forall c, place <$> c = head l -> runs (k c) ((o :: l) :: ll) Q) -> runs (prev_op_ctx ≫= k) ((o :: l) :: ll) Q.
Proof.
  intros Hk; unfold prev_op_ctx; intros s Es; unfold cur_frame, mbind, VM_bind, gets; pose proof Es as Es'; unfold ops_of in Es.
  destruct (call_stack s) as [|f fs] eqn:E; [discriminate|]; cbn in Es; injection Es as Ef Er; unfold places in Ef; cbn.
  destruct (pending_ops f) as [|c [|c2 cs]] eqn:Eo; [discriminate| |]; cbn in Ef; injection Ef as Ec El; subst l; cbn;
    [apply (Hk None eq_refl s Es')|apply (Hk (Some c2) eq_refl s Es')].
Qed.

(** The newest operator, or the one before, is changed. *)
Lemma runs_update_op g (h : op_place -> op_place) o l ll (Q : unit -> tops -> Prop) :
  (forall c, place (g c) = h (place c)) -> Q tt ((h o :: l) :: ll) -> runs (update_op g) ((o :: l) :: ll) Q.
Proof.
  intros Hg HQ s Es; unfold update_op, cur_frame, mbind, VM_bind, gets; unfold ops_of in Es; destruct (call_stack s) as [|f fs] eqn:E; [discriminate|].
  cbn in Es; injection Es as Ef Er; unfold places in Ef; cbn; destruct (pending_ops f) as [|c cs] eqn:Eo; [discriminate|]; cbn in Ef; injection Ef as Ec El.
  unfold update_frame, ops_of; rewrite E; cbn; unfold places; cbn; split; [|reflexivity]; rewrite Hg, Ec, El.
  change (Q tt ((h o :: l) :: map places fs)); rewrite Er; exact HQ.
Qed.

Lemma runs_update_then {B} g (h : op_place -> op_place) (k : unit -> M B) o l ll Q : (forall c, place (g c) = h (place c)) ->
  runs (k tt) ((h o :: l) :: ll) Q -> runs (update_op g ≫= k) ((o :: l) :: ll) Q.
Proof.
  intros Hg Hk; eapply runs_bind; [apply (runs_update_op g h o l ll (fun _ T => T = (h o :: l) :: ll)); auto|]; intros [] ? ->; exact Hk.
Qed.
Lemma runs_ret_then {A B} (a : A) (k : A -> M B) T Q : runs (k a) T Q -> runs (mret a ≫= k) T Q.
Proof. intros H s Es; exact (H s Es). Qed.

(** One more byte of the program. *)
Lemma runs_decode x p b l ll v (Q : Z -> tops -> Prop) : x ∈ instructions -> (length (decode_ops x) < 256)%nat -> 0 <= p -> byte_at x p = Some v ->
  Q v (((x, p + 1, b) :: l) :: ll) -> runs op_decode_byte (((x, p, b) :: l) :: ll) Q.
Proof.
  intros Hx Hl Hp Hv HQ; unfold op_decode_byte; apply runs_op; intros c Ec; unfold place in Ec; injection Ec as E1 E2 E3.
  unfold op_decode_cursor, of_option; rewrite E1, E2; unfold byte_at in Hv; rewrite Hv.
  assert (Hb : u8 (p + 1) = p + 1) by (apply Z.mod_small; apply lookup_lt_Some in Hv; lia).
  apply runs_ret_then, (runs_update_then _ (fun '(x, p, b) => (x, u8 (p + 1), b))); [reflexivity|]; cbn; rewrite Hb; apply runs_ret, HQ.
Qed.
Lemma runs_decode_then {B} (k : Z -> M B) x p b l ll v Q : x ∈ instructions -> (length (decode_ops x) < 256)%nat -> 0 <= p -> byte_at x p = Some v ->
  runs (k v) (((x, p + 1, b) :: l) :: ll) Q -> runs (op_decode_byte ≫= k) (((x, p, b) :: l) :: ll) Q.
Proof.
  intros Hx Hl Hp Hv Hk; eapply runs_bind; [apply (runs_decode x p b l ll v (fun v' T => v' = v /\ T = ((x, p + 1, b) :: l) :: ll)); auto|].
  intros ? ? [-> ->]; exact Hk.
Qed.

(** ** A turn of the decoder *)

(** Where a turn may end: everything at its place, a frame left, and if there is another
    turn, an operator that is running. *)
Definition turn_ok (t : turn) (T : tops) : Prop :=
  stack_ok T /\ match t with NEXT _ _ => exists o l ll, T = (o :: l) :: ll /\ snd o = false | RETURN _ => T <> [] end.

Section Turn.
Variables (x : uacpi_op_spec) (p : Z) (l : list op_place) (ll : tops).
Hypothesis Hx : x ∈ instructions.
Hypothesis Hp : p ∈ positions x.
Hypothesis HT : stack_ok (((x, p, false) :: l) :: ll).

Abbreviation at_ q := (((x, q, false) :: l) :: ll).

Lemma program_short : (length (decode_ops x) < 256)%nat.
Proof. apply (position_facts x p Hx Hp). Qed.
Lemma position_bound q : q ∈ positions x -> 0 <= q < 256.
Proof. intros Hq; apply (position_facts x q Hx Hq). Qed.

Lemma small_position q : q ∈ positions x -> u8 q = q.
Proof. intros Hq; apply Z.mod_small, position_bound, Hq. Qed.

Lemma at_ok q : q ∈ positions x -> stack_ok (at_ q).
Proof. intros Hq; apply (stack_move x p x q false false l ll HT); split; [exact Hx|split; [exact Hq|discriminate]]. Qed.
Lemma next_ok st r q : q ∈ positions x -> runs (next st r) (at_ q) turn_ok.
Proof. intros Hq; apply runs_ret; split; [apply at_ok, Hq|eexists _, _, _; split; reflexivity]. Qed.
Lemma proceed_ok r q : q ∈ positions x -> runs (proceed r) (at_ q) turn_ok.
Proof. apply next_ok. Qed.

(** Steps of the program that are skipped, or may be. *)
Lemma skip_ok n q r : q + n ∈ positions x -> runs (mbind (fun _ : unit => proceed r) (skip_ops n)) (at_ q) turn_ok.
Proof.
  intros H; apply (runs_update_then _ (fun '(x, p, b) => (x, u8 (p + n), b))); [reflexivity|]; cbn.
  rewrite (small_position (q + n) H); apply proceed_ok, H.
Qed.
Lemma skip_if_ok (c : bool) n q r : q ∈ positions x -> q + n ∈ positions x ->
  runs (mbind (fun _ : unit => proceed r) (if c then skip_ops n else mret tt)) (at_ q) turn_ok.
Proof. intros H1 H2; destruct c; [apply skip_ok, H2|apply runs_ret_then, proceed_ok, H1]. Qed.
Lemma fail_ok f q : bad f = false -> runs (fail f) (at_ q) turn_ok.
Proof. intros H s _; exact H. Qed.
Lemma runs_pop_op o l' (Q : unit -> tops -> Prop) : Q tt (l' :: ll) -> runs pop_op ((o :: l') :: ll) Q.
Proof.
  intros HQ; unfold pop_op; apply runs_op; intros c _; eapply (runs_quietly 2); [quiet|exact I|intros _].
  intros s Es; unfold update_frame; unfold ops_of in Es; destruct (call_stack s) as [|f fs] eqn:E; [discriminate|]; cbn in Es; injection Es as Ef Er.
  unfold ops_of, places in *; cbn; destruct (pending_ops f) as [|c' cs]; [discriminate|]; cbn in Ef; injection Ef as _ El.
  split; [|reflexivity]; change (Q tt (map place cs :: map places fs)); unfold places; rewrite El, Er; exact HQ.
Qed.

Lemma finish_ok q : runs finish_op (at_ q) turn_ok.
Proof.
  unfold finish_op; eapply (runs_quietly 2); [quiet|exact I|intros _].
  eapply runs_bind; [apply (runs_pop_op _ l (fun _ T => T = l :: ll)); reflexivity|]; intros _ ? ->; apply runs_frame; intros f Ef; unfold places in Ef.
  destruct l as [|[[x' p'] b'] l'] eqn:El.
  - destruct (pending_ops f); [|discriminate]; apply runs_ret_then, runs_ret; split; [|discriminate]; destruct HT as [H Ht].
    apply Forall_cons in H as [_ H]; split; [|exact Ht]; apply Forall_cons; split; [split; constructor|exact H].
  - destruct (pending_ops f); [discriminate|]; destruct (stack_pop _ _ _ _ _ _ HT) as [Hs Hb].
    apply (runs_update_then _ (fun '(x, p, b) => (x, u8 (p + 1), false))); [reflexivity|]; cbn; apply runs_ret; split; [|discriminate].
    assert (E : u8 (p' + 1) = p' + 1) by (apply Z.mod_small; lia); rewrite E; exact Hs.
Qed.

Lemma preempt_ok : waits x p -> runs preempt (at_ (p + 1)) turn_ok.
Proof.
  intros Hw; apply (runs_update_then _ (fun '(x, p, b) => (x, u8 (p - 1), true))); [reflexivity|]; cbn; apply runs_ret; split; [|discriminate].
  replace (p + 1 - 1) with p by lia; rewrite (small_position p Hp); apply (stack_move x p x p false true l ll HT); split_and!; auto.
Qed.

Lemma runs_bytes {B} (k : list Z -> M B) q n Q : 0 <= q -> has_bytes x q n = true -> (forall v, runs (k v) (at_ q) Q) -> runs (op_decode_bytes n ≫= k) (at_ q) Q.
Proof.
  intros Hq Hb Hk; eapply runs_bind with (Q' := fun _ T => T = at_ q); [|intros v ? ->; apply Hk].
  unfold op_decode_bytes; apply runs_op; intros c Ec; injection Ec as E1 E2 E3; rewrite E1, E2; unfold has_bytes in Hb.
  destruct (n <=? _) eqn:E; [apply runs_ret; reflexivity|]; rewrite length_drop in E; exfalso; apply Z.leb_gt in E; apply Z.leb_le in Hb; clear -E Hb Hq; lia.
Qed.

Lemma return_ok st q : q ∈ positions x -> runs (mret (RETURN st)) (at_ q) turn_ok.
Proof. intros Hq; apply runs_ret; split; [apply at_ok, Hq|discriminate]. Qed.

Ltac position := first [assumption | match goal with Hq : forall q, q ∈ _ -> q ∈ positions x |- _ => apply Hq; first [left | right; left] end].
Ltac turn_step :=
  match goal with
  | |- runs (proceed _) _ _ => apply proceed_ok; position
  | |- runs (next _ _) _ _ => apply next_ok; position
  | |- runs (mret (RETURN _)) _ _ => apply return_ok; position
  | |- runs finish_op _ _ => apply finish_ok
  | |- runs (fail _) _ _ => apply fail_ok; reflexivity
  | |- runs (mbind (fun _ => proceed _) (skip_ops _)) _ _ => apply skip_ok; position
  | |- runs (mbind (fun _ => proceed _) (if _ then skip_ops _ else _)) _ _ => apply skip_if_ok; position
  | |- runs (mbind _ op_decode_byte) _ _ => eapply runs_decode_then; [exact Hx|exact program_short|lia|eassumption|]
  | |- runs (mbind _ (op_decode_bytes _)) _ _ => eapply runs_bytes; [lia|eassumption|intros ?]
  | |- runs (mbind _ (if ?c then op_decode_byte ≫= _ else _)) _ _ => destruct c
  | |- runs (mbind _ _) _ _ => eapply (runs_quietly 2); [solve [quiet]|exact I|intros ?]
  | |- runs (if ?c then _ else _) _ _ => destruct c
  | |- runs ?m _ _ => let rec head t := lazymatch t with ?g _ => head g | _ => t end in let h := head m in unfold h
  end.
Ltac turn := intros; repeat turn_step.


(** Operations without arguments. *)
Lemma plain_ok op prev r : p + 1 ∈ positions x ->
  match op with
  | POP_EMIT_SKIP_WARN | POP_LOAD_ZERO_IMM | POP_OBJECT_ALLOC | POP_EMPTY_OBJECT_ALLOC | POP_TRACKED_PKGLEN | POP_PKGLEN | POP_LOAD_FALSE_OBJECT
  | POP_LOAD_TRUE_OBJECT | POP_RECORD_AML_PC | POP_TRUNCATE_NUMBER | POP_AML_PC_DECREMENT | POP_ITEM_POP | POP_INVOKE_HANDLER
  | POP_OBJECT_CONVERT_TO_SHALLOW_COPY | POP_OBJECT_CONVERT_TO_DEEP_COPY => runs (exec_parse_op op_handlers op prev r) (at_ (p + 1)) turn_ok
  | _ => True
  end.
Proof.
  intros H1; pose proof handlers_quiet; destruct op; try exact I; cbn [exec_parse_op]; turn.
Qed.
(** Operations with one byte. *)
Lemma one_byte_ok op prev r b : byte_at x (p + 1) = Some b -> p + 1 + 1 ∈ positions x ->
  match op with
  | POP_SKIP_WITH_WARN_IF_NULL | POP_LOAD_IMM | POP_LOAD_IMM_AS_OBJECT | POP_TYPECHECK | POP_IMM_DECREMENT
  | POP_INSTALL_NAMESPACE_NODE | POP_STORE_TO_TARGET => runs (exec_parse_op op_handlers op prev r) (at_ (p + 1)) turn_ok
  | _ => True
  end.
Proof.
  intros Hb H2; pose proof (position_bound p Hp); destruct op; try exact I; cbn [exec_parse_op]; turn.
Qed.
(** Branches of the program. *)
Lemma branch_ok op prev r n : byte_at x (p + 1) = Some n -> p + 1 + 1 ∈ positions x -> p + 1 + 1 + n ∈ positions x ->
  match op with
  | POP_IF_HAS_DATA | POP_IF_LAST_NULL | POP_IF_LAST_NOT_NULL | POP_IF_LAST_FALSE | POP_IF_LAST_TRUE =>
      runs (exec_parse_op op_handlers op prev r) (at_ (p + 1)) turn_ok
  | _ => True
  end.
Proof.
  intros Hb H1 H2; pose proof (position_bound p Hp); destruct op; try exact I; cbn [exec_parse_op]; unfold if_null; cbn iota; turn.
Qed.
Lemma compare_ok op prev r a n : byte_at x (p + 1) = Some a -> byte_at x (p + 1 + 1) = Some n -> p + 1 + 1 + 1 ∈ positions x ->
  p + 1 + 1 + 1 + n ∈ positions x ->
  match op with
  | POP_IF_NULL | POP_IF_NOT_NULL | POP_IF_LAST_EQUALS => runs (exec_parse_op op_handlers op prev r) (at_ (p + 1)) turn_ok
  | _ => True
  end.
Proof.
  intros Hb Hn H1 H2; pose proof (position_bound p Hp); destruct op; try exact I; cbn [exec_parse_op]; [| |turn]; unfold if_null; cbn iota.
  all: eapply runs_bind; [eapply runs_decode_then with (Q := fun _ T => T = at_ (p + 1 + 1)); [exact Hx|exact program_short|lia|exact Hb|]|intros ? ? ->; turn].
  all: eapply (runs_quiet 2); [quiet|exact I|reflexivity].
Qed.
Lemma jump_ok r b : byte_at x (p + 1) = Some b -> b ∈ positions x -> runs (jump r) (at_ (p + 1)) turn_ok.
Proof.
  intros Hb H1; pose proof (position_bound p Hp); unfold jump; turn_step.
  apply (runs_update_then _ (fun '(x, p, c) => (x, b, c))); [reflexivity|]; apply proceed_ok, H1.
Qed.
Lemma inline_imm_ok r w : byte_at x (p + 1) = Some w -> has_bytes x (p + 1 + 1) (Z.min 8 w) = true -> p + 1 + 1 + w ∈ positions x ->
  runs (load_inline_imm false r) (at_ (p + 1)) turn_ok.
Proof. intros Hb Hl H1; pose proof (position_bound p Hp); unfold load_inline_imm; cbn iota; turn. Qed.
Lemma inline_object_ok r : has_bytes x (p + 1) 8 = true -> p + 1 + 8 ∈ positions x -> runs (load_inline_imm true r) (at_ (p + 1)) turn_ok.
Proof. intros Hb H1; pose proof (position_bound p Hp); unfold load_inline_imm; cbn iota; turn. Qed.
Lemma store_indirect_ok r a b : byte_at x (p + 1) = Some a -> byte_at x (p + 1 + 1) = Some b -> p + 1 + 1 + 1 ∈ positions x ->
  runs (store_item true r) (at_ (p + 1)) turn_ok.
Proof.
  intros Ha Hb H1; pose proof (position_bound p Hp); unfold store_item; cbn iota; do 2 turn_step.
  eapply runs_bind; [eapply runs_decode_then with (Q := fun _ T => T = at_ (p + 1 + 1 + 1)); [exact Hx|exact program_short|lia|exact Hb|]|intros ? ? ->; turn].
  eapply (runs_quiet 2); [quiet|exact I|reflexivity].
Qed.
(** The code of an instruction in the program. *)
Lemma runs_aml_op {B} (k : Z -> M B) a b Q : byte_at x (p + 1) = Some a -> byte_at x (p + 1 + 1) = Some b ->
  runs (k (Z.lor a (Z.shiftl b 8))) (at_ (p + 1 + 1 + 1)) Q -> runs (op_decode_aml_op ≫= k) (at_ (p + 1)) Q.
Proof.
  intros Ha Hb Hk; pose proof (position_bound p Hp); unfold op_decode_aml_op.
  eapply runs_bind with (Q' := fun v T => v = Z.lor a (Z.shiftl b 8) /\ T = at_ (p + 1 + 1 + 1)); [|intros ? ? [-> ->]; exact Hk].
  do 2 turn_step; apply runs_ret; split; reflexivity.
Qed.
Lemma switched_ok r a b n : byte_at x (p + 1) = Some a -> byte_at x (p + 1 + 1) = Some b -> byte_at x (p + 1 + 1 + 1) = Some n ->
  p + 1 + 1 + 1 + 1 ∈ positions x -> p + 1 + 1 + 1 + 1 + n ∈ positions x -> runs (if_switched_from r) (at_ (p + 1)) turn_ok.
Proof.
  intros Ha Hb Hn H1 H2; pose proof (position_bound p Hp); unfold if_switched_from; eapply runs_aml_op; [exact Ha|exact Hb|]; turn.
Qed.
Lemma switch_ok r a b x' : byte_at x (p + 1) = Some a -> byte_at x (p + 1 + 1) = Some b -> uacpi_get_op_spec (Z.lor a (Z.shiftl b 8)) = Some x' ->
  p + 1 + 1 + 1 ∈ positions x -> runs (switch_to_next r) (at_ (p + 1)) turn_ok.
Proof.
  intros Ha Hb Hx' H1; pose proof (position_bound p Hp); unfold switch_to_next; do 3 turn_step; eapply runs_aml_op; [exact Ha|exact Hb|].
  match goal with |- runs (match ?o with _ => _ end) _ _ => destruct o as [[n op]|] end; [|turn].
  turn_step; [|turn]; unfold find_spec, of_option; rewrite Hx'; turn_step; apply runs_ret_then.
  apply (runs_update_then _ (fun '(x, p, c) => (x', 0, c))); [reflexivity|]; apply runs_ret.
  pose proof (spec_listed _ _ Hx') as Hl; split; [|eexists _, _, _; split; reflexivity].
  apply (stack_move x p x' 0 false false l ll HT); split_and!; [exact Hl|apply start_position, Hl|discriminate].
Qed.

(** *** Names *)

(** Another instruction takes the place of this one. *)
Lemma switch_spec_ok op (k : unit -> M turn) q : (exists x', uacpi_get_op_spec op = Some x') ->
  (forall x', x' ∈ instructions -> runs (k tt) (((x', 0, false) :: l) :: ll) turn_ok) ->
  runs (find_spec op ≫= (fun spec => update_op (fun o => set_spec spec (set_pc 0 o)) ≫= k)) (at_ q) turn_ok.
Proof.
  intros [x' Hx'] Hk; unfold find_spec, of_option; rewrite Hx'; apply runs_ret_then.
  apply (runs_update_then _ (fun '(x, p, c) => (x', 0, c))); [reflexivity|]; apply Hk, (spec_listed _ _ Hx').
Qed.

Definition returns {A} (m : M A) (P : A -> Prop) : Prop := forall s, match m s with inr (a, _) => P a | _ => True end.

Lemma returns_after {A B} (m : M A) (k : A -> M B) P : (forall a, returns (k a) P) -> returns (m ≫= k) P.
Proof. intros Hk s; unfold mbind, VM_bind; destruct (m s) as [|[a s1]]; [exact I|apply Hk]. Qed.
Lemma returns_value {A} (a : A) P : P a -> returns (mret a) P.
Proof. intros H s; exact H. Qed.

Lemma named_op_code prev obj : returns (named_op prev obj) (fun y => from_option (fun c => 0 <= c < 256) True (snd y)).
Proof.
  unfold named_op; apply returns_after; intros o.
  repeat match goal with
  | |- returns (mbind _ _) _ => apply returns_after; intros ?
  | |- returns (match ?y with _ => _ end) _ => destruct y
  | |- returns (mret _) _ => apply returns_value; cbn
  end; try lia; try exact I.
  match goal with |- context [method_args ?m] => pose proof (Z.land_nonneg (m_args m) 7); unfold method_args; change 7 with (Z.ones 3) in * end.
  rewrite Z.land_ones in * by lia; pose proof (Z.mod_pos_bound (m_args a0) (2 ^ 3)); lia.
Qed.
Lemma runs_returns {A} (m : M A) T Q P : runs m T Q -> returns m P -> runs m T (fun a T => Q a T /\ P a).
Proof. intros Hm Hr s Es; specialize (Hm s Es); specialize (Hr s); destruct (m s) as [|[a s']]; tauto. Qed.

Lemma convert_ok prev r : p + 1 ∈ positions x -> runs (convert_namestring prev r) (at_ (p + 1)) turn_ok.
Proof.
  intros H1; unfold convert_namestring; turn_step; turn_step; [turn_step|]; turn_step.
  eapply runs_bind; [apply (runs_returns _ _ (fun _ T => T = at_ (p + 1))); [apply (runs_quiet 2); [quiet|exact I|reflexivity]|apply named_op_code]|].
  intros [st [c|]] ? [-> Hc]; cbn [snd fst] in *; [|turn]; cbn in Hc.
  apply switch_spec_ok; [apply spec_found; left; lia|]; intros x' Hl; apply runs_ret; split; [|eexists _, _, _; split; reflexivity].
  apply (stack_move x p x' 0 false false l ll HT); split_and!; [exact Hl|apply start_position, Hl|discriminate].
Qed.

Lemma runs_pop_ops n l0 : (n <= length l0)%nat -> runs (pop_ops n) (l0 :: ll) (fun _ T => T = drop n l0 :: ll).
Proof.
  revert l0; induction n as [|n IH]; intros l0 Hn; [apply runs_ret; rewrite drop_0; reflexivity|]; destruct l0 as [|o l0]; [cbn in Hn; lia|].
  cbn [pop_ops]; eapply runs_bind; [apply (runs_pop_op o l0 (fun _ T => T = l0 :: ll)); reflexivity|]; intros _ ? ->; apply IH; cbn in Hn; lia.
Qed.

(** The outermost operator, once it has what it waited for. *)
Lemma stack_last o l' x' p' b' : stack_ok ((o :: l' ++ [(x', p', b')]) :: ll) -> stack_ok ([(x', p' + 1, false)] :: ll) /\ 0 <= p' + 1 < 256.
Proof.
  intros [H Ht]; apply Forall_cons in H as [[H Hw] Hr]; cbn in Hw; apply Forall_app in Hw as [_ Hw]; apply Forall_cons in H as [Ho H].
  apply Forall_app in H as [_ H]; apply (stack_pop o x' p' b' [] ll); split; [|exact Ht].
  apply Forall_cons; split; [|exact Hr]; split; [|exact Hw]; apply Forall_cons; split; assumption.
Qed.

Lemma abort_ok r : l <> [] -> runs (abort_while_if r) (at_ (p + 1)) turn_ok.
Proof.
  intros Hl; destruct (exists_last Hl) as (l' & [[x' p'] b'] & El); unfold abort_while_if; apply runs_frame; intros f Ef.
  assert (Hn : (length (pending_ops f) = S (length l))%nat) by (apply (f_equal length) in Ef; unfold places in Ef; rewrite length_map in Ef; exact Ef).
  rewrite Hn; eapply (runs_quietly 2); [quiet|exact I|intros r'].
  eapply runs_bind; [apply runs_pop_ops; cbn; lia|]; intros _ ? ->; replace (S (length l) - 1)%nat with (length l) by lia.
  assert (Ed : drop (length l) ((x, p + 1, false) :: l : list op_place) = [(x', p', b')]).
  { rewrite El, length_app; cbn [length]; rewrite Nat.add_1_r; apply drop_app_length. }
  rewrite Ed; pose proof HT as HT'; rewrite El in HT'; destruct (stack_last _ _ _ _ _ HT') as [Hs Hb].
  apply (runs_update_then _ (fun '(x, p, b) => (x, u8 (p + 1), false))); [reflexivity|]; cbn.
  assert (E : u8 (p' + 1) = p' + 1) by (apply Z.mod_small; lia); rewrite E; apply runs_ret; split; [exact Hs|eexists _, _, _; split; reflexivity].
Qed.

Lemma namestring_ok op prev r : p + 1 ∈ positions x -> is_branch x = false -> runs (parse_namestring op prev r) (at_ (p + 1)) turn_ok.
Proof.
  intros H1 Hbr; unfold parse_namestring; do 3 turn_step; apply runs_frame; intros f Ef; turn_step.
  assert (Hlast : exists c, last (pending_ops f) = Some c /\ (l = [] -> op_spec c = x)).
  { unfold places in Ef; destruct (last (pending_ops f)) as [c|] eqn:El; [|apply last_None in El; rewrite El in Ef; discriminate].
    exists c; split; [reflexivity|]; intros ->; destruct (pending_ops f) as [|c' [|? ?]]; try discriminate; unfold place in Ef; cbn in El, Ef; congruence. }
  destruct Hlast as (c & -> & Hc); apply runs_ret_then; cbn [of_option].
  match goal with |- runs (if ?b then _ else _) _ _ => destruct b eqn:Eb end; [|turn].
  apply abort_ok; intros El; specialize (Hc El); apply andb_true_iff in Eb as [_ Eb]; rewrite Hc in Eb; unfold is_branch in Hbr.
  rewrite orb_comm, Hbr in Eb; discriminate.
Qed.

(** *** Results *)

Lemma runs_update_prev g a b l2 : (forall c, place (g c) = place c) -> runs (update_prev_op g) ((a :: b :: l2) :: ll) (fun _ T => T = (a :: b :: l2) :: ll).
Proof.
  intros Hg s Es; unfold update_prev_op, cur_frame, mbind, VM_bind, gets; unfold ops_of in Es; destruct (call_stack s) as [|f fs] eqn:E; [discriminate|].
  cbn in Es; injection Es as Ef Er; unfold places in Ef; cbn; destruct (pending_ops f) as [|c1 [|c2 cs]] eqn:Eo; [discriminate|discriminate|]; cbn in Ef.
  injection Ef as E1 E2 E3; unfold update_frame, ops_of; rewrite E; cbn; unfold places; cbn; rewrite Hg, E1, E2, E3; unfold places in Er; rewrite Er.
  split; reflexivity.
Qed.
Lemma runs_give o a b l2 : runs (give_to_prev o) ((a :: b :: l2) :: ll) (fun _ T => T = (a :: b :: l2) :: ll).
Proof.
  unfold give_to_prev; apply runs_prev; intros [c|] Ec; [|discriminate]; destruct (op_items c); [intros s _; reflexivity|].
  apply runs_update_prev; reflexivity.
Qed.

Lemma to_prev_ok copy prev r : p + 1 ∈ positions x -> runs (object_to_prev copy prev r) (at_ (p + 1)) turn_ok.
Proof.
  intros H1; unfold object_to_prev; apply runs_prev; intros [c|] Ec; [|turn]; assert (Hg : forall o, runs (give_to_prev o) (at_ (p + 1)) (fun _ T => T = at_ (p + 1))).
  { intros o; destruct l as [|b l2]; [discriminate|]; apply runs_give. }
  turn_step; match goal with |- runs (let '(_, _) := ?a in _) _ _ => destruct a as [st src] end; turn_step; [turn_step|]; turn_step; [turn_step|].
  all: eapply runs_bind; [apply Hg|]; intros _ ? ->; turn.
Qed.

(** *** Calls *)

Lemma push_args_ops l0 : forall i f, pending_ops f = [] -> returns (push_args l0 i f) (fun y => pending_ops (snd y) = []).
Proof.
  induction l0 as [|a l0 IH]; intros i f Hf; cbn [push_args]; [apply returns_value, Hf|]; apply returns_after; intros src; apply returns_after; intros dst.
  destruct (dst =? 0); [apply returns_value, Hf|]; destruct (_ <? _)%nat; [apply IH, Hf|intros s; exact I].
Qed.
Lemma ref_args_ops l0 n : forall i f, pending_ops f = [] -> returns (ref_args l0 n i f) (fun f => pending_ops f = []).
Proof.
  induction n as [|n IH]; intros i f Hf; cbn [ref_args]; [apply returns_value, Hf|]; apply returns_after; intros o; apply returns_after; intros _; apply IH, Hf.
Qed.
End Turn.

Lemma enter_method_ops f m : pending_ops f = [] -> returns (enter_method f m) (fun y => pending_ops (snd y) = []).
Proof.
  intros Hf; unfold enter_method.
  repeat match goal with
  | |- returns (mbind _ _) _ => apply returns_after; intros ?
  | |- returns (if ?y then _ else _) _ => destruct y
  | |- returns (mret _) _ => apply returns_value, Hf
  end.
Qed.
Lemma pass_args_ops type m f : pending_ops f = [] -> returns (pass_args type m f) (fun y => pending_ops (snd y) = []).
Proof.
  intros Hf; unfold pass_args; destruct type as [args| |]; [|apply returns_after; intros o; apply push_args_ops, Hf|apply returns_value, Hf].
  apply returns_after; intros cm; destruct (negb _); [apply returns_value, Hf|]; destruct args as [l0|]; [|apply returns_value, Hf].
  intros s; unfold mbind, VM_bind; pose proof (ref_args_ops l0 (Z.to_nat (method_args cm)) 0 f Hf s) as H.
  destruct (ref_args _ _ _ _ s) as [|[f' s']]; [exact I|exact H].
Qed.

(** A call adds a frame without operators, or fails. *)
Lemma prepare_ok n node m type T : level n T -> (forall f, quiet n (pass_args type m f)) ->
  runs (prepare_method_call node m type) T (fun _ T' => T' = T \/ T' = [] :: T).
Proof.
  intros Hn Hq; unfold prepare_method_call.
  eapply (runs_quietly n); [quiet|exact Hn|intros stack]; eapply (runs_quietly n); [quiet|exact Hn|intros limit].
  destruct (_ <=? _); [apply runs_ret; left; reflexivity|]; eapply (runs_quietly n); [quiet|exact Hn|intros ok].
  destruct (negb ok); [apply runs_ret; left; reflexivity|].
  assert (Herr : forall st f, runs (method_dispatch_error st f) T (fun _ T' => T' = T \/ T' = [] :: T)).
  { intros st f; apply (runs_quiet n); [quiet|exact Hn|left; reflexivity]. }
  eapply runs_bind; [apply (runs_returns _ _ (fun _ T' => T' = T)); [apply (runs_quiet n); [quiet|exact Hn|reflexivity]|apply (enter_method_ops zeroed_frame m eq_refl)]|].
  intros [ret f] ? [-> Hf]; cbn in Hf; destruct (negb (is_ok ret)); [apply Herr|].
  eapply runs_bind; [apply (runs_returns _ _ (fun _ T' => T' = T)); [apply (runs_quiet n); [apply Hq|exact Hn|reflexivity]|apply (pass_args_ops type m f Hf)]|].
  intros [ret' f'] ? [-> Hf']; cbn in Hf'; destruct (negb (is_ok ret')); [apply Herr|].
  eapply (runs_quietly n); [quiet|exact Hn|intros cm]; eapply runs_bind with (Q' := fun _ T' => T' = [] :: T).
  - intros s Es; unfold update; split; [|reflexivity]; unfold ops_of in *; cbn; rewrite Es; unfold places; cbn; rewrite Hf'; reflexivity.
  - intros _ ? ->; destruct (negb _); [apply runs_ret; right; reflexivity|].
    apply (runs_quiet 0); [quiet|exact I|right; reflexivity].
Qed.

Lemma stack_push T : stack_ok T -> level 2 T -> stack_ok ([] :: T).
Proof.
  intros [H Ht] HT; split; [apply Forall_cons; split; [split; constructor|exact H]|]; destruct T as [|[|o l] T]; try contradiction.
  apply Forall_cons; split; [discriminate|exact Ht].
Qed.

Lemma dispatch_ok x p l ll q : x ∈ instructions -> q ∈ positions x -> stack_ok (((x, p, false) :: l) :: ll) ->
  runs dispatch_method_call (((x, q, false) :: l) :: ll) turn_ok /\ runs dispatch_table_load (((x, q, false) :: l) :: ll) turn_ok.
Proof.
  intros Hx Hq HT; assert (Hs : stack_ok (((x, q, false) :: l) :: ll)) by (apply (stack_move x p x q false false l ll HT); split_and!; auto; discriminate).
  assert (H : forall node m type, (type = METHOD_CALL_AML \/ type = METHOD_CALL_TABLE_LOAD) ->
    runs (ret ← prepare_method_call node m type; mret (RETURN ret)) (((x, q, false) :: l) :: ll) turn_ok).
  { intros node m type Hty; eapply runs_bind; [apply (prepare_ok 2); [exact I|]|].
    - intros f; destruct Hty as [-> | ->]; quiet.
    - intros st T [-> | ->]; apply runs_ret; (split; [|discriminate]); [exact Hs|apply stack_push; [exact Hs|exact I]]. }
  split; [unfold dispatch_method_call|unfold dispatch_table_load]; do 3 (eapply (runs_quietly 2); [quiet|exact I|intros ?]); apply H; auto.
Qed.

(** ** The decoder *)

Lemma parse_op_ok x p l ll op b prev r succ : x ∈ instructions -> p ∈ positions x -> stack_ok (((x, p, false) :: l) :: ll) ->
  byte_at x p = Some b -> pop_of b = Some op -> op <> POP_OBJECT_ALLOC_TYPED ->
  successors x p = Some succ -> (forall q, q ∈ succ -> q ∈ positions x) ->
  runs (exec_parse_op op_handlers op prev r) (((x, p + 1, false) :: l) :: ll) turn_ok.
Proof.
  intros Hx Hp HT Hb Hop Ht Hs Hq; with_strategy transparent [successors] unfold successors in Hs; rewrite Hb in Hs; cbn in Hs; rewrite Hop in Hs; cbn in Hs.
  assert (Hw : preempting op = true -> waits x p) by (intros H; exists op; rewrite Hb; split; [exact Hop|exact H]).
  assert (H1 : forall q q', Some [q] = Some succ \/ Some [q; q'] = Some succ -> q ∈ positions x) by (intros q q' [[= <-]|[= <-]]; apply Hq; left).
  assert (H2 : forall q q', Some [q; q'] = Some succ -> q' ∈ positions x) by (intros q q' [= <-]; apply Hq; right; left).
  destruct op; try contradiction; try (apply preempt_ok; auto; fail); try (cbn [exec_parse_op]; apply (finish_ok x p); auto; fail);
  repeat match type of Hs with
  | context [byte_at x ?q] => destruct (byte_at x q) as [?|] eqn:?; cbn in Hs; [|discriminate Hs]
  | context [uacpi_get_op_spec ?c] => destruct (uacpi_get_op_spec c) eqn:?; cbn in Hs; [|discriminate Hs]
  | (if ?c then None else _) = _ => destruct c eqn:?; [discriminate Hs|]
  | (if ?c then _ else None) = _ => destruct c eqn:?; [|discriminate Hs]
  end.
  all: match goal with |- runs (exec_parse_op _ ?o _ _) _ _ => first
  [ exact (plain_ok x p l ll Hx HT o prev r (H1 _ 0 (or_introl Hs)))
  | exact (one_byte_ok x p l ll Hx Hp HT o prev r _ ltac:(eassumption) (H1 _ 0 (or_introl Hs)))
  | exact (branch_ok x p l ll Hx Hp HT o prev r _ ltac:(eassumption) (H1 _ _ (or_intror Hs)) (H2 _ _ Hs))
  | exact (compare_ok x p l ll Hx Hp HT o prev r _ _ ltac:(eassumption) ltac:(eassumption) (H1 _ _ (or_intror Hs)) (H2 _ _ Hs))
  | cbn [exec_parse_op]; first
    [ exact (jump_ok x p l ll Hx Hp HT r _ ltac:(eassumption) (H1 _ 0 (or_introl Hs)))
    | exact (to_prev_ok x p l ll Hx HT _ prev r (H1 _ 0 (or_introl Hs)))
    | exact (namestring_ok x p l ll Hx HT _ prev r (H1 _ 0 (or_introl Hs)) ltac:(assumption))
    | exact (convert_ok x p l ll Hx HT prev r (H1 _ 0 (or_introl Hs)))
    | exact (next_ok x p l ll Hx HT _ r _ (H1 _ 0 (or_introl Hs)))
    | apply (dispatch_ok x p l ll (p + 1) Hx (H1 _ 0 (or_introl Hs)) HT)
    | exact (inline_object_ok x p l ll Hx Hp HT r ltac:(assumption) (H1 _ 0 (or_introl Hs)))
    | exact (store_indirect_ok x p l ll Hx Hp HT r _ _ ltac:(eassumption) ltac:(eassumption) (H1 _ 0 (or_introl Hs)))
    | exact (switch_ok x p l ll Hx Hp HT r _ _ _ ltac:(eassumption) ltac:(eassumption) ltac:(eassumption) (H1 _ 0 (or_introl Hs)))
    | exact (switched_ok x p l ll Hx Hp HT r _ _ _ ltac:(eassumption) ltac:(eassumption) ltac:(eassumption) (H1 _ _ (or_intror Hs)) (H2 _ _ Hs))
    | eapply (inline_imm_ok x p l ll Hx Hp HT r); [eassumption|eapply andb_prop; eassumption|exact (H1 _ 0 (or_introl Hs))] ] ] end.
Qed.

(** The item of an operation; the operation with an argument at that point reads it. *)
Lemma begin_item_quiet op r : op <> POP_OBJECT_ALLOC_TYPED -> quiet 2 (begin_item (Some op) r).
Proof.
  intros Hop; unfold begin_item; rewrite decide_False by congruence; quiet.
Qed.
Lemma begin_typed_ok r x p l ll b t : x ∈ instructions -> (length (decode_ops x) < 256)%nat -> 0 <= p -> byte_at x p = Some b -> object_type_of_value b = Some t ->
  runs (begin_item (Some POP_OBJECT_ALLOC_TYPED) r) (((x, p, false) :: l) :: ll) (fun i T => T = ((x, p + 1, false) :: l) :: ll \/ T = ((x, p, false) :: l) :: ll /\ exists st, i = inl st).
Proof.
  intros Hx Hl Hp Hb Ht; unfold begin_item; cbn [from_option parse_op_generates_item]; eapply (runs_quietly 2); [quiet|exact I|intros o].
  eapply (runs_quietly 2); [quiet|exact I|intros ok]; destruct (negb ok); [apply runs_ret; eauto|]; rewrite decide_True by reflexivity.
  eapply runs_bind with (Q' := fun _ T => T = ((x, p + 1, false) :: l) :: ll).
  - eapply runs_decode_then; [exact Hx|exact Hl|exact Hp|exact Hb|]; rewrite Ht; apply runs_ret; reflexivity.
  - intros ty ? ->; eapply (runs_quiet 2); [quiet|exact I|auto].
Qed.
Lemma begin_item_status op r : returns (begin_item op r) (fun i => match i with inl st => is_ok st = false | inr _ => True end).
Proof.
  unfold begin_item;
  repeat match goal with
  | |- returns (mbind _ _) _ => apply returns_after; intros ?
  | |- returns (match ?y with _ => _ end) _ => destruct y
  | |- returns (mret _) _ => apply returns_value
  end; try exact I; try reflexivity.
  all: match goal with |- context [if ?b then _ else _] => destruct b end; try exact I; reflexivity.
Qed.

(** After an error the newest frame is given up. *)
Definition below_ok (T : tops) : Prop := match T with [] => False | _ :: ll => Forall frame_ok ll /\ Forall (fun l => l <> []) ll end.
Definition turn_end (t : turn) (T : tops) : Prop := turn_ok t T \/ exists ret, t = RETURN ret /\ is_ok ret = false /\ below_ok T.

Lemma stack_below T : stack_ok T -> T <> [] -> below_ok T.
Proof. intros [H Ht] HT; destruct T as [|l ll]; [contradiction|]; apply Forall_cons in H as [_ H]; split; assumption. Qed.

Lemma op_typecheck_quiet o c : op_ok (place o) -> quiet 0 (op_typecheck o c).
Proof.
  intros (Hx & Hp & _); destruct (position_byte _ _ Hx Hp) as [b Hb]; unfold op_typecheck, op_decode_cursor, of_option; unfold byte_at in Hb; rewrite Hb.
  apply quiet_bind; quiet.
Qed.

Lemma second_ok o c l ll : stack_ok ((o :: l) :: ll) -> place <$> c = head l -> from_option (fun c => op_ok (place c)) True c.
Proof.
  intros [H _] Ec; destruct c as [c|]; [|exact I]; destruct l as [|o' l]; [discriminate|]; injection Ec as E; change (op_ok (place c)); rewrite E.
  apply Forall_cons in H as [[H _] _]; apply Forall_cons in H as [_ H]; apply Forall_cons in H as [H _]; exact H.
Qed.

Lemma exec_turn_ok prev r x p l ll : stack_ok (((x, p, false) :: l) :: ll) -> runs (exec_turn op_handlers prev r) (((x, p, false) :: l) :: ll) turn_end.
Proof.
  intros HT; destruct (top_ok _ _ _ _ _ HT) as (Hx & Hp & _); destruct (position_facts x p Hx Hp) as (Hpb & Hl & succ & Hs & Hq).
  destruct (position_byte x p Hx Hp) as [b Hb]; unfold exec_turn; eapply (runs_quietly 2); [quiet|exact I|intros o]; apply runs_prev; intros c Ec.
  pose proof (second_ok _ _ _ _ HT Ec) as Hc; eapply (runs_quietly 0); [|exact I|intros st].
  { destruct c as [c|]; [|quiet]; destruct (pc o =? 0); [apply op_typecheck_quiet, Hc|quiet]. }
  destruct (negb (is_ok st)); [apply runs_ret; left; split; [exact HT|discriminate]|].
  eapply runs_decode_then; [exact Hx|exact Hl|lia|exact Hb|].
  assert (Hop : exists op, pop_of b = Some op).
  { with_strategy transparent [successors] unfold successors in Hs; rewrite Hb in Hs; cbn in Hs; destruct (pop_of b) as [op|]; [eauto|discriminate Hs]. }
  destruct Hop as [op Hop]; rewrite Hop; destruct (decide (op = POP_OBJECT_ALLOC_TYPED)) as [-> | Hne].
  - with_strategy transparent [successors] unfold successors in Hs; unfold mbind, option_bind in Hs; rewrite Hb, Hop in Hs; cbn iota beta in Hs.
    destruct (byte_at x (p + 1)) as [v|] eqn:Hv; [|discriminate Hs]; destruct (object_type_of_value v) as [t|] eqn:Ht; [|discriminate Hs]; injection Hs as <-.
    eapply runs_bind; [apply runs_returns; [eapply (begin_typed_ok r x (p + 1)); eauto; lia|apply begin_item_status]|].
    intros [err|r'] T [HT' Hst]; [apply runs_ret; right; exists err; split_and!; auto; destruct HT' as [-> | [-> _]]; apply (stack_below _ HT); discriminate|].
    destruct HT' as [-> | [_ [? [=]]]]; eapply runs_conseq; [|intros; left; eassumption]; apply (proceed_ok x p l ll Hx HT), Hq; left.
  - eapply runs_bind; [apply runs_returns; [apply (runs_quiet 2) with (Q := fun _ T => T = ((x, p + 1, false) :: l) :: ll); [apply begin_item_quiet, Hne|exact I|reflexivity]|apply begin_item_status]|].
    intros [err|r'] T [-> Hst]; [apply runs_ret; right; exists err; split_and!; auto; apply (stack_below _ HT); discriminate|].
    eapply runs_conseq; [|intros; left; eassumption]; eapply parse_op_ok; eauto.
Qed.

Definition loop_end (ret : uacpi_status) (T : tops) : Prop := stack_ok T /\ T <> [] \/ is_ok ret = false /\ below_ok T.

Lemma exec_loop_ok fuel : forall prev r o l ll, stack_ok ((o :: l) :: ll) -> snd o = false -> runs (exec_loop op_handlers fuel prev r) ((o :: l) :: ll) loop_end.
Proof.
  induction fuel as [|fuel IH]; intros prev r o l ll HT Ho; [intros s _; reflexivity|]; destruct o as [[x p] b]; cbn in Ho; subst b; cbn [exec_loop].
  eapply runs_bind; [apply exec_turn_ok, HT|]; intros [ret|ret r'] T HE.
  - apply runs_ret; destruct HE as [[HT' Hn]|(ret' & [= <-] & Hr & Hb)]; [left; split; assumption|right; split; assumption].
  - destruct HE as [[HT' (o & l' & ll' & -> & Ho)]|(ret' & [=] & _)]; destruct (negb (is_ok ret)); [apply runs_ret; left; split; [exact HT'|discriminate]|apply IH; assumption].
Qed.

(** ** Methods *)

(** The same with what the computation needs of the whole state. *)
Definition safe {A} (P : ctx -> Prop) (m : M A) (Q : A -> ctx -> Prop) : Prop :=
  forall s, P s -> match m s with inl f => bad f = false | inr (a, s') => Q a s' end.

Lemma safe_bind {A B} P (m : M A) Q (k : A -> M B) R : safe P m Q -> (forall a, safe (Q a) (k a) R) -> safe P (m ≫= k) R.
Proof.
  intros Hm Hk s Hs; unfold mbind, VM_bind; specialize (Hm s Hs); destruct (m s) as [f|[a s1]]; [exact Hm|exact (Hk a s1 Hm)].
Qed.
Lemma safe_ret {A} (P : ctx -> Prop) (a : A) (Q : A -> ctx -> Prop) : (forall s, P s -> Q a s) -> safe P (mret a) Q.
Proof. intros H s Hs; exact (H s Hs). Qed.

(** A condition on the places and on the instruction that comes next. *)
Definition on_places (R : tops -> uacpi_op_spec -> Prop) (s : ctx) : Prop := R (ops_of s) (cur_op s).

Lemma safe_quiet {A} n (m : M A) R : quiet n m -> (forall T x, R T x -> level n T) -> safe (on_places R) m (fun _ => on_places R).
Proof.
  intros Hm HR s Hs; specialize (Hm s); destruct (m s) as [f|[a s']]; [apply Hm; exact (HR _ _ Hs)|].
  destruct Hm as [E1 E2]; [exact (HR _ _ Hs)|]; unfold on_places; rewrite E1, E2; exact Hs.
Qed.
Lemma safe_runs {A} (m : M A) (R : tops -> uacpi_op_spec -> Prop) Q : (forall T x, R T x -> runs m T (Q x)) -> safe (on_places R) m (fun a => on_places (fun T x => Q x a T)).
Proof.
  intros Hm s Hs; specialize (Hm _ _ Hs s eq_refl); destruct (m s) as [f|[a s']]; [exact Hm|]; destruct Hm as [HQ Hc]; unfold on_places; rewrite Hc; exact HQ.
Qed.
Lemma safe_weaken {A} (P P' : ctx -> Prop) (m : M A) (Q Q' : A -> ctx -> Prop) : safe P' m Q' -> (forall s, P s -> P' s) -> (forall a s, Q' a s -> Q a s) -> safe P m Q.
Proof. intros Hm HP HQ s Hs; specialize (Hm s (HP s Hs)); destruct (m s) as [f|[a s']]; auto. Qed.

Definition running (T : tops) : Prop := match T with ((_, _, false) :: _) :: _ => True | _ => False end.
Definition ready (T : tops) (x : uacpi_op_spec) : Prop := stack_ok T /\ level 1 T /\ (running T \/ x ∈ instructions).

Lemma stack_new x l ll : x ∈ instructions -> stack_ok (l :: ll) -> ~ running (l :: ll) -> stack_ok (((x, 0, false) :: l) :: ll).
Proof.
  intros Hx [H Ht] Hr; apply Forall_cons in H as [[H Hw] H']; split; [|exact Ht]; apply Forall_cons; split; [|exact H']; split.
  - apply Forall_cons; split; [split_and!; [exact Hx|apply start_position, Hx|discriminate]|exact H].
  - destruct l as [|[[x' p'] []] l]; [constructor|apply Forall_cons; split; [reflexivity|exact Hw]|contradiction Hr; exact I].
Qed.

Lemma safe_frame R : (forall T x, R T x -> level 1 T) -> safe (on_places R) cur_frame (fun f => on_places (fun T x => R T x /\ exists ll, T = places f :: ll)).
Proof.
  intros HR s Hs; unfold cur_frame, mbind, VM_bind, gets; pose proof (HR _ _ Hs) as Hl; unfold on_places in *; unfold ops_of in Hl, Hs |- *.
  destruct (call_stack s) as [|f fs] eqn:E; [contradiction|]; cbn; rewrite E; split; [exact Hs|eexists; reflexivity].
Qed.

Lemma push_op_ok : safe (on_places (fun T x => stack_ok T /\ level 1 T /\ x ∈ instructions /\ ~ running T)) push_op
  (fun ret => on_places (fun T _ => stack_ok T /\ level 1 T /\ (is_ok ret = true -> running T))).
Proof.
  unfold push_op; eapply safe_bind; [apply safe_frame; tauto|intros f]; eapply safe_bind with
    (Q := fun spec => on_places (fun T x => ((stack_ok T /\ level 1 T /\ x ∈ instructions /\ ~ running T) /\ exists ll, T = places f :: ll) /\ x = spec)).
  { intros s Hs; split; [exact Hs|reflexivity]. }
  intros spec; eapply safe_bind; [apply (safe_quiet 0); [quiet|intros; exact I]|intros ok].
  destruct (negb ok); [apply safe_ret; intros s [[(H1 & H2 & _) _] _]; split_and!; auto; discriminate|].
  eapply safe_bind with (Q := fun _ => on_places (fun T _ => stack_ok T /\ level 1 T /\ running T)); [|intros _; apply safe_ret; intros s (H1 & H2 & H3); split_and!; auto].
  intros s [[(H1 & H2 & H3 & H4) [ll E]] Ex]; unfold update_frame; unfold on_places, ops_of in *; destruct (call_stack s) as [|f0 fs]; [contradiction|].
  cbn [map] in *; injection E as E1 E2; subst spec; rewrite E1 in H1, H4.
  split; [exact (stack_new (cur_op s) (places f) (map places fs) H3 H1 H4)|split; [cbn; discriminate|exact I]].
Qed.

Lemma exec_op_ok fuel : safe (on_places ready) (exec_op op_handlers fuel) (fun ret => on_places (fun T _ => loop_end ret T)).
Proof.
  unfold exec_op; eapply safe_bind with (Q := fun b => on_places (fun T x => ready T x /\ if (b : bool) then running T else ~ running T)).
  { intros s Hs; split; [exact Hs|]; unfold ops_of; cbn; destruct (call_stack s) as [|f fs]; cbn; [tauto|]; unfold places.
    destruct (pending_ops f) as [|o os]; cbn; [tauto|]; destruct (preempted o); cbn; tauto. }
  intros resume; eapply safe_bind with (Q := fun ret => on_places (fun T _ => stack_ok T /\ level 1 T /\ (is_ok ret = true -> running T))).
  { destruct resume; [apply safe_ret; intros s ((H1 & H2 & _) & H); split_and!; auto|].
    eapply safe_weaken; [apply push_op_ok| |auto]; intros s ((H1 & H2 & [H|H]) & Hn); split_and!; auto; contradiction. }
  intros ret; destruct (is_ok ret) eqn:Er; cbn [negb]; [|apply safe_ret; intros s (H1 & H2 & _); left; split; assumption].
  eapply safe_weaken; [apply (safe_runs _ (fun T _ => stack_ok T /\ running T) (fun _ ret T => loop_end ret T))|intros s (H1 & _ & H2); split; auto|auto].
  intros T _ [HT Hr]; destruct T as [|[|[[x p] []] l] ll]; try contradiction; apply runs_prev; intros c Ec; pose proof (second_ok _ _ _ _ HT Ec) as Hc.
  eapply (runs_quietly 0); [|exact I|intros prev; apply exec_loop_ok; [exact HT|reflexivity]].
  destruct c as [c|]; [|quiet]; destruct Hc as (Hx & Hp & _); destruct (position_byte _ _ Hx Hp) as [b Hb]; unfold op_decode_cursor, byte_at in *; rewrite Hb; quiet.
Qed.

(** *** The next instruction *)

Definition is_code (op : Z) : Prop := 0 <= op < 256 \/ exists b, 0 <= b < 256 /\ op = UACPI_EXT_OP b.

Lemma returns_then {A B} (m : M A) (k : A -> M B) P Q : returns m P -> (forall a, P a -> returns (k a) Q) -> returns (m ≫= k) Q.
Proof. intros Hm Hk s; unfold mbind, VM_bind; specialize (Hm s); destruct (m s) as [|[a s1]]; [exact I|apply Hk, Hm]. Qed.
Lemma read_byte_range l : returns (read_byte l) (fun b => 0 <= b < 256).
Proof. apply returns_after; intros b; apply returns_value, Z.mod_pos_bound; reflexivity. Qed.
Lemma peek_code : returns peek_next_op (fun y => from_option (fun z => is_code (snd z)) True y).
Proof.
  unfold peek_next_op; do 2 (apply returns_after; intros ?); destruct (_ =? 0); [apply returns_value; exact I|]; apply returns_after; intros m.
  eapply returns_then; [apply read_byte_range|]; intros op Hop; cbn beta in Hop; destruct (op =? UACPI_EXT_PREFIX) eqn:E; [|apply returns_value; left; exact Hop].
  apply Z.eqb_eq in E; subst op; destruct (_ <? _); [apply returns_value; exact I|]; eapply returns_then; [apply read_byte_range|].
  intros b Hb; apply returns_value; right; exists b; split; [exact Hb|reflexivity].
Qed.

Lemma get_op_ok : safe (on_places (fun T _ => stack_ok T /\ level 1 T)) get_op
  (fun ret => on_places (fun T x => stack_ok T /\ level 1 T /\ (is_ok ret = true -> x ∈ instructions))).
Proof.
  unfold get_op; eapply safe_bind with (Q := fun y s => on_places (fun T _ => stack_ok T /\ level 1 T) s /\ from_option (fun z => is_code (snd z)) True y).
  { intros s Hs; pose proof (safe_quiet 1 peek_next_op (fun T _ => stack_ok T /\ level 1 T) ltac:(quiet) (fun _ _ H => proj2 H) s Hs) as H; pose proof (peek_code s) as Hc.
    destruct (peek_next_op s) as [f|[y s']]; [exact H|split; assumption]. }
  intros [[n op]|]; [|apply safe_ret; intros s [[H1 H2] _]; split_and!; auto; discriminate].
  eapply safe_bind with (Q := fun _ s => on_places (fun T _ => stack_ok T /\ level 1 T) s /\ is_code op).
  { intros s [Hs Hc]; pose proof (safe_quiet 1 (advance n) (fun T _ => stack_ok T /\ level 1 T) ltac:(quiet) (fun _ _ H => proj2 H) s Hs) as H.
    destruct (advance n s) as [f|[y s']]; [exact H|split; assumption]. }
  intros _ s [[H1 H2] Hc]; destruct (spec_found op Hc) as [x Hx]; unfold find_spec, of_option, mbind, VM_bind; rewrite Hx; cbn.
  split_and!; [exact H1|exact H2|intros _; exact (spec_listed _ _ Hx)].
Qed.

(** *** The end of a frame *)

Definition lower_ok (T : tops) : Prop := Forall frame_ok T /\ Forall (fun l => l <> []) T.

Lemma lower_stack T : lower_ok T -> stack_ok T.
Proof. intros [H Ht]; split; [exact H|]; destruct T as [|l ll]; [exact Ht|]; apply Forall_cons in Ht as [_ Ht]; exact Ht. Qed.

Lemma reload_ok n : safe (on_places (fun T _ => below_ok T /\ length T = S n)) ctx_reload_post_ret (fun _ => on_places (fun T _ => lower_ok T /\ length T = n)).
Proof.
  unfold ctx_reload_post_ret.
  assert (Hl : forall (T : tops) (x : uacpi_op_spec), below_ok T /\ length T = S n -> level 1 T) by (intros [|l T] x [Hb _]; [contradiction|discriminate]).
  do 2 (eapply safe_bind; [apply (safe_quiet 1); [quiet|exact Hl]|intros ?]).
  do 2 (eapply safe_bind; [apply (safe_quiet 1); [quiet|exact Hl]|intros ?]).
  intros s [Hb Hn]; unfold update, on_places, ops_of in *; cbn; destruct (call_stack s) as [|f fs]; [contradiction|]; cbn in *; split; [exact Hb|injection Hn as Hn; exact Hn].
Qed.

(** *** Errors *)

Lemma lower_below T : lower_ok T -> T <> [] -> below_ok T.
Proof. intros H; apply stack_below, lower_stack, H. Qed.

Lemma pop_all_ok f n : safe (on_places (fun T _ => (below_ok T /\ length T = n) /\ exists ll, T = places f :: ll)) (pop_ops (length (pending_ops f)))
  (fun _ => on_places (fun T _ => below_ok T /\ length T = n)).
Proof.
  eapply safe_weaken; [apply (safe_runs _ (fun T _ => (below_ok T /\ length T = n) /\ exists ll, T = places f :: ll) (fun _ _ T => below_ok T /\ length T = n))|auto|auto].
  intros T _ [[Hb Hn] [ll ->]]; eapply runs_conseq; [apply runs_pop_ops; unfold places; rewrite length_map; reflexivity|].
  intros _ ? ->; split; [exact Hb|exact Hn].
Qed.

Lemma unwind_ok depth : forall first : bool, safe (on_places (fun T _ => (if first then below_ok T else lower_ok T) /\ length T = depth)) (unwind_frames depth first)
  (fun _ => on_places (fun T _ => lower_ok T)).
Proof.
  induction depth as [|depth IH]; intros first; cbn [unwind_frames].
  - apply safe_ret; intros s [H Hn]; destruct first; [|exact H]; unfold on_places in *; destruct (ops_of s); [contradiction|discriminate].
  - assert (Hl : forall (T : tops) (x : uacpi_op_spec), (if first then below_ok T else lower_ok T) /\ length T = S depth -> level 1 T) by (intros [|l T] x [_ Hn]; discriminate).
    eapply safe_bind; [apply safe_frame, Hl|intros f]; eapply safe_bind; [apply (safe_quiet 1); [quiet|intros T x [H _]; exact (Hl T x H)]|intros m].
    destruct (named_objects_persist m && negb first) eqn:E.
    + apply safe_ret; intros s [[H _] _]; destruct first; [rewrite andb_false_r in E; discriminate|exact H].
    + eapply safe_bind; [eapply safe_weaken; [apply (pop_all_ok f (S depth))| |intros ? ? H; exact H]|].
      { intros s [[H Hn] Hf]; split; [split; [|exact Hn]|exact Hf]; destruct first; [exact H|apply lower_below; [exact H|]].
        intros HT; unfold on_places in *; rewrite HT in Hn; discriminate. }
      intros []; cbn beta; eapply safe_bind; [apply (reload_ok depth)|intros []; cbn beta]; destruct (first && named_objects_persist m); [apply safe_ret; intros s [H _]; exact H|exact (IH false)].
Qed.

Lemma abort_method_ok : safe (on_places (fun T _ => below_ok T)) handle_method_abort (fun _ => on_places (fun T _ => stack_ok T)).
Proof.
  unfold handle_method_abort; eapply safe_bind with (Q := fun _ => on_places (fun T _ => lower_ok T)).
  { intros s Hs; pose proof (unwind_ok (length (call_stack s)) true s) as H; unfold stack_unwind, gets, mbind, VM_bind; apply H.
    split; [exact Hs|unfold ops_of; apply length_map]. }
  intros _; eapply safe_bind with (Q := fun l => on_places (fun T _ => lower_ok T /\ length T = length l)).
  { intros s Hs; split; [exact Hs|unfold ops_of; apply length_map]. }
  intros [|f fs]; [apply safe_ret; intros s [H _]; apply lower_stack, H|].
  eapply safe_weaken; [apply (safe_quiet 2) with (R := fun T _ => lower_ok T /\ length T = S (length fs))| |]; [quiet| |auto|intros _ s [H _]; apply lower_stack, H].
  intros [|[|o l] ll] x [[H Hn] E]; [discriminate|apply Forall_cons in Hn as [Hn _]; contradiction|exact I].
Qed.

(** *** A method *)

Lemma execute_turn_ok fuel ret : safe (on_places (fun T _ => stack_ok T)) (execute_turn op_handlers fuel ret) (fun _ => on_places (fun T _ => stack_ok T)).
Proof.
  unfold execute_turn; eapply safe_bind with (Q := fun b => on_places (fun T _ => stack_ok T /\ if (b : bool) then running T else True)).
  { intros s Hs; split; [exact Hs|]; unfold ops_of; cbn; destruct (call_stack s) as [|f fs]; cbn; [exact I|]; unfold places.
    destruct (pending_ops f) as [|o os]; cbn; [exact I|]; destruct (preempted o); cbn; exact I. }
  intros resume; eapply safe_bind with (Q := fun r => on_places (fun T x => stack_ok T /\ match r with inl _ => True | inr st => level 1 T /\ (is_ok st = true -> ready T x) end)).
  - destruct resume.
    { apply safe_ret; intros s [H Hr]; assert (Hl : level 1 (ops_of s)) by (unfold on_places in *; destruct (ops_of s); [contradiction|discriminate]).
      split_and!; [exact H|exact Hl|]; intros _; split_and!; auto. }
    eapply safe_bind with (Q := fun l => on_places (fun T _ => stack_ok T /\ length T = length l)).
    { intros s [Hs _]; split; [exact Hs|unfold ops_of; apply length_map]. }
    intros [|f fs]; [apply safe_ret; intros s [H _]; split; [exact H|exact I]|].
    assert (Hl : forall (T : tops) (x : uacpi_op_spec), stack_ok T /\ length T = length (f :: fs) -> level 1 T) by (intros [|l T] x [_ Hn]; discriminate).
    eapply safe_bind; [apply (safe_quiet 1); [quiet|exact Hl]|intros ended]; destruct ended; [apply safe_ret; intros s [H _]; split; [exact H|exact I]|].
    eapply safe_bind; [apply (safe_quiet 1); [quiet|exact Hl]|intros has_code]; destruct (negb has_code).
    + eapply safe_bind; [eapply safe_weaken; [apply (reload_ok (length fs))| |intros ? ? H; exact H]|].
      { intros s [H Hn]; split; [apply stack_below; [exact H|]|exact Hn]; intros HT; rewrite HT in Hn; discriminate. }
      intros []; apply safe_ret; intros s [H _]; split; [apply lower_stack, H|exact I].
    + eapply safe_bind; [eapply safe_weaken; [apply get_op_ok|intros s H; split; [apply H|exact (Hl _ (cur_op s) H)]|intros ? ? H; exact H]|].
      intros st; apply safe_ret; intros s (H1 & H2 & H3); split_and!; [exact H1|exact H2|]; intros E; split_and!; auto.
  - intros [more|st]; [apply safe_ret; intros s [H _]; exact H|].
    eapply safe_bind with (Q := fun st => on_places (fun T _ => loop_end st T)).
    { destruct (is_ok st) eqn:E; [|apply safe_ret; intros s [H [Hl _]]; left; split; assumption].
      eapply safe_weaken; [apply (exec_op_ok fuel)|intros s [_ [_ H]]; exact (H eq_refl)|auto]. }
    intros st'; destruct (is_ok st') eqn:E.
    + apply safe_ret; intros s [[H _]|[Hf _]]; [exact H|congruence].
    + eapply safe_bind; [eapply safe_weaken; [apply abort_method_ok| |intros ? ? H; exact H]|intros []; apply safe_ret; auto].
      intros s [[H Hn]|[_ H]]; [apply stack_below; assumption|exact H].
Qed.

Lemma execute_loop_ok turns fuel : forall ret, safe (on_places (fun T _ => stack_ok T)) (execute_loop op_handlers turns fuel ret) (fun _ => on_places (fun T _ => stack_ok T)).
Proof.
  induction turns as [|turns IH]; intros ret; cbn [execute_loop]; [intros s _; reflexivity|].
  eapply safe_bind; [apply execute_turn_ok|intros [more st]]; cbn beta; destruct more; [apply IH|apply safe_ret; auto].
Qed.
Lemma q_release_mutexes n k : quiet n (release_mutexes k).
Proof. induction k; cbn [release_mutexes]; quiet; exact IHk. Qed.
#[local] Hint Resolve q_release_mutexes : quiet.

(** C1.  Whatever the bytes of a method are, running it never reads outside of the program of
    an instruction and never looks for a frame or an operator that is not there; every
    operator of every frame is always at a position where an operation begins. *)
Theorem decoder_stays_in_programs turns fuel scope method args out_obj w :
  match execute_in_context op_handlers turns fuel scope method args out_obj (zeroed_context w) with
  | inl f => f <> F_DECODE /\ f <> F_FRAME
  | inr (_, s) => stack_ok (ops_of s)
  end.
Proof.
  assert (Hb : forall f, bad f = false -> f <> F_DECODE /\ f <> F_FRAME) by (intros f H; split; intros ->; discriminate).
  assert (H : safe (on_places (fun T _ => T = [])) (execute_in_context op_handlers turns fuel scope method args out_obj) (fun _ => on_places (fun T _ => stack_ok T))).
  { unfold execute_in_context; eapply safe_bind; [apply (safe_quiet 0); [quiet|intros; exact I]|intros ok]; eapply safe_bind with (Q := fun _ => on_places (fun T _ => stack_ok T)).
    - assert (H0 : stack_ok []) by (split; constructor); assert (H1 : stack_ok [[]]) by (split; repeat constructor).
      destruct (negb ok); [apply safe_ret; intros s E; unfold on_places in *; rewrite E; exact H0|].
      eapply safe_bind with (Q := fun _ => on_places (fun T _ => stack_ok T)).
      + eapply safe_weaken; [apply (safe_runs _ (fun T _ => T = []) (fun _ _ T => stack_ok T))|auto|auto].
        intros T _ ->; eapply runs_conseq; [apply (prepare_ok 0); [exact I|intros f; quiet]|]; intros _ T [-> | ->]; assumption.
      + intros st; destruct (negb (is_ok st)); [apply safe_ret; auto|apply execute_loop_ok].
    - intros st; eapply (safe_bind _ _ (fun _ => on_places (fun T _ => stack_ok T))); [apply (safe_quiet 0); [quiet|intros; exact I]|intros r].
      eapply safe_bind; [apply (safe_quiet 0); [quiet|intros; exact I]|intros []; apply safe_ret; auto]. }
  specialize (H (zeroed_context w) eq_refl); destruct (execute_in_context _ _ _ _ _ _ _ _) as [f|[a s]]; [apply Hb, H|exact H].
Qed.
End Decode.
