(* ===== verification/AmlBlocks.v ===== *)
(** * acpi/uacpi/interpreter.c: blocks of code

    A frame has the blocks that are being executed, innermost first, and keeps two things
    that follow from them: the innermost loop and the node of the innermost scope.  This
    file shows that entering a block, reaching its end, Break and Continue keep them in
    step, and where each of them leaves the frame. *)

From S2P Require Import Prelude CMem UStdlib UCore UText FieldUnit Shareable Namespace Objects Regions AmlTables AmlOps AmlStore AmlMachine.

Open Scope word_scope.

(** The node of the innermost scope, the root when there is none. *)
Fixpoint scope_of (blocks : list code_block) : option Z :=
  match blocks with
  | [] => Some uacpi_namespace_root
  | b :: rest => if decide (b_type b = CODE_BLOCK_SCOPE) then b_word b else scope_of rest
  end.

(** Scopes have their node, loops their expiration point. *)
Definition block_ok (b : code_block) : Prop :=
  match b_type b with CODE_BLOCK_WHILE | CODE_BLOCK_SCOPE => is_Some (b_word b) | _ => True end.

Record blocks_ok (f : call_frame) : Prop := {
  blocks_complete : Forall block_ok (code_blocks f);
  loop_is_innermost : p_index <$> last_while f = find_last_block (code_blocks f) CODE_BLOCK_WHILE;
  scope_is_innermost : scope_of (code_blocks f) = Some (cur_scope f)
}.

(** ** Lists of blocks *)

Lemma find_last_bound l t i : find_last_block l t = Some i -> (i < length l)%nat.
Proof. induction l as [|b l IH]; cbn; [discriminate|]; destruct (decide _); [intros [= <-]; lia|intros H; specialize (IH H); lia]. Qed.

(** The innermost loop splits the blocks. *)
Lemma find_last_split l t i : find_last_block l t = Some i ->
  exists inner b outer, l = inner ++ b :: outer /\ b_type b = t /\ i = length outer /\ Forall (fun b => b_type b <> t) inner.
Proof.
  induction l as [|b l IH]; cbn; [discriminate|]; destruct (decide (b_type b = t)) as [E|E].
  - intros [= <-]; exists [], b, l; split_and!; [reflexivity|exact E|reflexivity|constructor].
  - intros H; destruct (IH H) as (inner & b' & outer & -> & E' & -> & Hi); exists (b :: inner), b', outer; split_and!; auto.
Qed.

(** [update_scope] looks at the block that [find_last_block] finds. *)
Lemma scope_found l : Forall block_ok l ->
  match find_last_block l CODE_BLOCK_SCOPE with
  | None => scope_of l = Some uacpi_namespace_root
  | Some i => exists b node, block_at l i = Some b /\ b_word b = Some node /\ scope_of l = Some node
  end.
Proof.
  induction l as [|b l IH]; intros H; [reflexivity|]; apply Forall_cons in H as [Hb H]; specialize (IH H); cbn [find_last_block scope_of].
  destruct (decide (b_type b = CODE_BLOCK_SCOPE)) as [E|E].
  - unfold block_ok in Hb; rewrite E in Hb; destruct Hb as [node Hn]; exists b, node; split_and!; [|exact Hn|exact Hn].
    unfold block_at; cbn [length]; rewrite (proj2 (Nat.ltb_lt _ _)) by lia; replace (S (length l) - 1 - length l)%nat with 0%nat by lia; reflexivity.
  - destruct (find_last_block l CODE_BLOCK_SCOPE) as [i|] eqn:Ei; [|exact IH]; destruct IH as (b' & node & Hat & Hw & Hs); exists b', node; split_and!; auto.
    pose proof (find_last_bound _ _ _ Ei) as Hi; unfold block_at in *; cbn [length].
    rewrite (proj2 (Nat.ltb_lt i (length l)) Hi) in Hat; rewrite (proj2 (Nat.ltb_lt i (S (length l)))) by lia.
    replace (S (length l) - 1 - i)%nat with (S (length l - 1 - i)) by lia; exact Hat.
Qed.

(** ** Leaving a block *)

Section Blocks.
Context {V : Type} {OH : ObjectHost V} {NL : NamespaceLock (ost V)} {OBJ : Namespace.Objects (ost V)} {AH : AmlHost V} {FH : FieldHost V} {MH : MachineHost V}.

Abbreviation ctx := (execution_context V).

(** The frame without its innermost block. *)
Definition left_block (cap : nat) (b : code_block) (rest : list code_block) (node : Z) (f : call_frame) : call_frame :=
  let f := match b_type b, b_word b with
           | CODE_BLOCK_WHILE, Some e => set_last_while (point_to_last cap rest CODE_BLOCK_WHILE) (set_prev_while (u32 (b_begin b + 1)) e f)
           | _, _ => f
           end in
  set_cur_scope node (set_blocks rest (b :: stale_blocks f) f).

Lemma point_index cap l t : p_index <$> point_to_last cap l t = find_last_block l t.
Proof. unfold point_to_last; destruct (find_last_block l t); reflexivity. Qed.

Lemma update_scope_run (s : ctx) f fs : call_stack s = f :: fs -> Forall block_ok (code_blocks f) ->
  exists node, scope_of (code_blocks f) = Some node /\ update_scope s = inr (tt, set_stack (set_cur_scope node f :: fs) s).
Proof.
  intros E H; pose proof (scope_found _ H) as Hs; unfold update_scope, cur_frame, mbind, VM_bind, gets; rewrite E; cbn [head of_option]; unfold mret, VM_ret.
  destruct (find_last_block _ _) as [i|].
  - destruct Hs as (b & node & -> & Hw & Hs); exists node; split; [exact Hs|]; cbn; rewrite Hw; cbn; unfold update_frame; rewrite E; reflexivity.
  - exists uacpi_namespace_root; split; [exact Hs|]; unfold update_frame; rewrite E; reflexivity.
Qed.

Lemma set_scope_same f : set_cur_scope (cur_scope f) f = f.
Proof. destruct f; reflexivity. Qed.
Lemma set_while_same f : set_last_while (last_while f) f = f.
Proof. destruct f; reflexivity. Qed.

Ltac which_block :=
  repeat match goal with |- context [decide (?a = ?b :> code_block_type)] => destruct (decide (a = b)) as [?|?]; try discriminate; try contradiction end.

(** [update_frame] one after the other. *)
Lemma update_frame_run (s : ctx) f fs g : call_stack s = f :: fs -> update_frame g s = inr (tt, set_stack (g f :: fs) s).
Proof. intros E; unfold update_frame; rewrite E; reflexivity. Qed.

Lemma frame_reset_run (s : ctx) f fs b rest : call_stack s = f :: fs -> blocks_ok f -> code_blocks f = b :: rest ->
  exists node, scope_of rest = Some node /\ frame_reset_post_end_block (b_type b) s = inr (tt, set_stack (left_block (frames_capacity s) b rest node f :: fs) s).
Proof.
  intros E [Hc Hw Hs] Eb; rewrite Eb in Hc, Hw, Hs; apply Forall_cons in Hc as [Hb Hc]; unfold block_ok in Hb.
  unfold frame_reset_post_end_block, cur_frame, mbind, VM_bind, gets; rewrite E; cbn [head of_option]; unfold mret, VM_ret; rewrite Eb; cbn [head of_option].
  unfold left_block; destruct (b_type b) eqn:Et; cbn [scope_of find_last_block] in Hs, Hw; rewrite Et in Hs, Hw;
    rewrite ?(decide_False (P := _ = CODE_BLOCK_SCOPE)), ?(decide_False (P := _ = CODE_BLOCK_WHILE)) in Hs by discriminate;
    rewrite ?(decide_False (P := _ = CODE_BLOCK_WHILE)) in Hw by discriminate.
  all: unfold mret, VM_ret; which_block.
  - exists (cur_scope f); split; [exact Hs|]; rewrite (update_frame_run s f fs _ E), Eb; destruct f; reflexivity.
  - exists (cur_scope f); split; [exact Hs|]; rewrite (update_frame_run s f fs _ E), Eb; destruct f; reflexivity.
  - destruct Hb as [t He]; rewrite He; cbn [of_option]; exists (cur_scope f); split; [exact Hs|]; unfold mret, VM_ret; cbn beta iota.
    rewrite (update_frame_run s f fs _ E); do 2 (erewrite update_frame_run by reflexivity); cbn; rewrite Eb; destruct f; reflexivity.
  - rewrite (update_frame_run s f fs _ E).
    destruct (update_scope_run (set_stack (set_blocks (drop 1 (code_blocks f)) (b :: stale_blocks f) f :: fs) s) _ fs eq_refl) as (node & Hn & ->).
    + cbn; rewrite Eb; exact Hc.
    + cbn in Hn; rewrite Eb in Hn; exists node; split; [exact Hn|]; cbn; rewrite Eb; reflexivity.
Qed.

(** The rest is in step again. *)
Lemma left_block_ok cap b rest node f : blocks_ok f -> code_blocks f = b :: rest -> scope_of rest = Some node ->
  blocks_ok (left_block cap b rest node f) /\ code_blocks (left_block cap b rest node f) = rest.
Proof.
  intros [Hc Hw _] Eb Hs; rewrite Eb in Hc, Hw; apply Forall_cons in Hc as [Hb Hc]; split; [|reflexivity]; split; [exact Hc| |exact Hs].
  unfold block_ok, left_block in *; cbn [find_last_block] in Hw; destruct (b_type b) eqn:Et; cbn in Hw |- *; try exact Hw.
  destruct Hb as [e He]; rewrite He; apply point_index.
Qed.

(** What leaving blocks does not touch. *)
Definition same_data (f f' : call_frame) : Prop :=
  pending_ops f' = pending_ops f /\ f_args f' = f_args f /\ f_locals f' = f_locals f /\ f_method f' = f_method f /\ temp_nodes f' = temp_nodes f.

(** Where the frame goes on, without the blocks up to the loop. *)
Record left_loop (is_break : bool) (w : code_block) (outer : list code_block) (f f' : call_frame) : Prop := {
  goes_on : code_offset f' = if is_break then b_end w else b_begin w;
  blocks_left : code_blocks f' = outer;
  still_ok : blocks_ok f';
  loop_recorded : prev_while_code_offset f' = u32 (b_begin w + 1) /\ b_word w = Some (prev_while_expiration f');
  data_kept : same_data f f'
}.

Lemma block_there_iff (s : ctx) f fs p : call_stack s = f :: fs ->
  block_there s p = true <-> (length fs < INLINE_FRAMES)%nat \/ p_storage p = frames_capacity s \/ (INLINE_BLOCKS <= p_index p)%nat.
Proof.
  intros E; unfold block_there; rewrite E, !orb_true_iff, Nat.ltb_lt, Nat.leb_le, Nat.eqb_eq; cbn [length]; rewrite Nat.sub_succ, Nat.sub_0_r; tauto.
Qed.

Lemma leave_blocks_run is_break w outer : b_type w = CODE_BLOCK_WHILE -> forall inner n (s : ctx) f fs, call_stack s = f :: fs -> blocks_ok f ->
  code_blocks f = inner ++ w :: outer -> Forall (fun b => b_type b <> CODE_BLOCK_WHILE) inner -> (length inner < n)%nat ->
  exists f', leave_blocks n is_break s = inr (tt, set_stack (f' :: fs) s) /\ left_loop is_break w outer f f'.
Proof.
  intros Hw; induction inner as [|b inner IH]; intros n s f fs E Hf Eb Hi Hn; (destruct n as [|n]; [lia|]); cbn [leave_blocks];
    unfold cur_frame, mbind, VM_bind, gets; rewrite E; cbn [head of_option]; unfold mret, VM_ret; rewrite Eb; cbn [app head of_option]; unfold mret, VM_ret;
    pose proof (loop_is_innermost _ Hf) as Hl; rewrite Eb in Hl.
  - cbn [app find_last_block] in Hl; rewrite decide_True in Hl by exact Hw; rewrite decide_True by (cbn [length]; rewrite Hl; f_equal; lia).
    rewrite (update_frame_run s f fs _ E).
    set (f1 := set_code_offset (if is_break then b_end w else b_begin w) f); assert (Hf1 : blocks_ok f1) by (destruct Hf; split; assumption).
    destruct (frame_reset_run (set_stack (f1 :: fs) s) f1 fs w outer eq_refl Hf1 Eb) as (node & Hs & ->); eexists; split; [reflexivity|].
    destruct (left_block_ok (frames_capacity s) w outer node f1 Hf1 Eb Hs) as [Hok Hb]; pose proof (blocks_complete _ Hf) as Hc; rewrite Eb in Hc; apply Forall_cons in Hc as [Hc _].
    unfold block_ok in Hc; rewrite Hw in Hc; destruct Hc as [e He].
    split; [|exact Hb|exact Hok| |]; unfold left_block; rewrite Hw, He; [reflexivity|split; reflexivity|repeat split].
  - assert (Hd : p_index <$> last_while f <> Some (length (b :: inner ++ w :: outer) - 1)%nat).
    { rewrite Hl; cbn [app find_last_block]; apply Forall_cons in Hi as [Hbt Hi]; rewrite decide_False by exact Hbt.
      destruct (find_last_block (inner ++ w :: outer) CODE_BLOCK_WHILE) as [i|] eqn:Ei; [|intros [=]]; destruct (find_last_split _ _ _ Ei) as (inner' & b' & outer' & Eq & Hb' & -> & Hi').
      intros [= Ex]; apply (f_equal length) in Eq; cbn [length] in Ex; rewrite length_app in Eq; cbn in Eq; rewrite length_app in *; cbn in *; lia. }
    rewrite decide_False by exact Hd; destruct (frame_reset_run s f fs b _ E Hf Eb) as (node & Hs & ->).
    destruct (left_block_ok (frames_capacity s) b _ node f Hf Eb Hs) as [Hok Hb]; apply Forall_cons in Hi as [Hbt Hi].
    destruct (IH n (set_stack (left_block (frames_capacity s) b (inner ++ w :: outer) node f :: fs) s) _ fs eq_refl Hok Hb Hi) as (f' & Hr & HL); [cbn in Hn; lia|].
    exists f'; split; [exact Hr|]; destruct HL as [H1 H2 H3 H4 H5]; split; auto.
    unfold same_data, left_block in *; destruct (b_type b), (b_word b); exact H5.
Qed.

(** C34.  Break and Continue leave exactly the blocks up to the innermost loop: Break goes on
    behind it, Continue at its instruction; without a loop they are an error.  This is so
    when the frame's pointer to the loop still points there, which is so for the first four
    frames and whenever the frames have not moved since the pointer was made; otherwise
    they use a pointer to memory that is freed. *)
Theorem break_leaves_innermost_loop (s : ctx) f fs o os : call_stack s = f :: fs -> pending_ops f = o :: os -> blocks_ok f ->
  match last_while f with
  | None => handle_control_flow s = inr (UACPI_STATUS_AML_BAD_ENCODING, s) /\ Forall (fun b => b_type b <> CODE_BLOCK_WHILE) (code_blocks f)
  | Some p =>
      if decide ((length fs < INLINE_FRAMES)%nat \/ p_storage p = frames_capacity s \/ (INLINE_BLOCKS <= p_index p)%nat) then
        exists inner w outer f', code_blocks f = inner ++ w :: outer /\ b_type w = CODE_BLOCK_WHILE /\
          Forall (fun b => b_type b <> CODE_BLOCK_WHILE) inner /\
          handle_control_flow s = inr (UACPI_STATUS_OK, set_stack (f' :: fs) s) /\ left_loop (spec_code (op_spec o) =? 0xa5) w outer f f'
      else handle_control_flow s = inl F_STALE
  end.
Proof.
  intros E Eo Hf; unfold handle_control_flow, cur_op_ctx, cur_frame, mbind, VM_bind, gets; rewrite E; cbn [head of_option]; unfold mret, VM_ret; rewrite E.
  cbn [head of_option]; unfold mret, VM_ret; rewrite Eo; cbn [head of_option]; unfold mret, VM_ret; pose proof (loop_is_innermost _ Hf) as Hl.
  destruct (last_while f) as [p|] eqn:El.
  - symmetry in Hl; destruct (find_last_split _ _ _ Hl) as (inner & w & outer & Eb & Hw & _ & Hi); destruct (decide _) as [Hp|Hp].
    + rewrite (proj2 (block_there_iff s f fs p E) Hp); cbn [negb].
      destruct (leave_blocks_run (spec_code (op_spec o) =? 0xa5) w outer Hw inner (length (code_blocks f)) s f fs E Hf Eb Hi) as (f' & -> & HL).
      { rewrite Eb, length_app; cbn; lia. }
      exists inner, w, outer, f'; split_and!; auto.
    + rewrite <- (block_there_iff s f fs p E) in Hp; apply not_true_is_false in Hp; rewrite Hp; reflexivity.
  - split; [reflexivity|]; clear -Hl; induction (code_blocks f) as [|b l IH]; [constructor|]; cbn in Hl; destruct (decide _); [discriminate|].
    apply Forall_cons; split; [assumption|apply IH, Hl].
Qed.

(** A block ends where its package ends, a loop goes back to its instruction. *)
Theorem block_ends (s : ctx) f fs b rest : call_stack s = f :: fs -> blocks_ok f -> code_blocks f = b :: rest ->
  if code_offset f =? b_end b then
    exists f', maybe_end_block s = inr (true, set_stack (f' :: fs) s) /\ code_blocks f' = rest /\ blocks_ok f' /\ same_data f f' /\
      code_offset f' = match b_type b with CODE_BLOCK_WHILE => b_begin b | _ => code_offset f end
  else maybe_end_block s = inr (false, s).
Proof.
  intros E Hf Eb; unfold maybe_end_block, cur_frame, mbind, VM_bind, gets; rewrite E; cbn [head of_option]; unfold mret, VM_ret; rewrite Eb.
  destruct (code_offset f =? b_end b); cbn [negb]; [|reflexivity].
  set (f1 := if decide (b_type b = CODE_BLOCK_WHILE) then set_code_offset (b_begin b) f else f).
  assert (Hf1 : blocks_ok f1) by (unfold f1; destruct Hf; destruct (decide _); split; assumption).
  assert (Eb1 : code_blocks f1 = b :: rest) by (unfold f1; destruct (decide _); exact Eb).
  destruct (frame_reset_run (set_stack (f1 :: fs) s) f1 fs b rest eq_refl Hf1 Eb1) as (node & Hs & Hr); destruct (left_block_ok (frames_capacity s) b rest node f1 Hf1 Eb1 Hs) as [Hok Hb].
  exists (left_block (frames_capacity s) b rest node f1); split; [|split_and!; [exact Hb|exact Hok| |]].
  - replace ((if decide (b_type b = CODE_BLOCK_WHILE) then update_frame (set_code_offset (b_begin b)) else fun s0 => inr (tt, s0)) s) with
      (inr (tt, set_stack (f1 :: fs) s) : fault + unit * ctx); [rewrite Hr; reflexivity|].
    unfold f1; destruct (decide _); [rewrite (update_frame_run s f fs _ E); reflexivity|]; destruct s; cbn in E |- *; rewrite E; reflexivity.
  - unfold f1, left_block, same_data; destruct (decide _), (b_type b), (b_word b); repeat split.
  - unfold f1, left_block; destruct (decide (b_type b = CODE_BLOCK_WHILE)) as [Ew|Ew]; [rewrite Ew; destruct (b_word b); reflexivity|].
    destruct (b_type b), (b_word b); try reflexivity; contradiction.
Qed.

(** ** Entering a block *)

(** Computations that only change the world. *)
Definition world_only {A} (m : VM V A) : Prop := forall s a s', m s = inr (a, s') -> call_stack s' = call_stack s.

Lemma world_bind {A B} (m : VM V A) (k : A -> VM V B) : world_only m -> (forall a, world_only (k a)) -> world_only (m ≫= k).
Proof.
  intros Hm Hk s b s'; unfold mbind, VM_bind; destruct (m s) as [|[a s1]] eqn:E; [discriminate|]; intros E'; rewrite (Hk a _ _ _ E'); exact (Hm _ _ _ E).
Qed.
Lemma world_ret {A} (a : A) : world_only (mret a : VM V A).
Proof. intros s b s' [= _ <-]; reflexivity. Qed.
Lemma world_fail {A} f : world_only (fail f : VM V A).
Proof. intros s b s' [=]. Qed.
Lemma world_gets {A} (g : ctx -> A) : world_only (gets g).
Proof. intros s b s' [= _ <-]; reflexivity. Qed.
Lemma world_in_env {A} (c : SM (ns (ost V)) A) : world_only (in_env c).
Proof. intros s b s'; unfold in_env; destruct (c (env s)) as [[a w]|]; [|discriminate]; intros [= _ <-]; reflexivity. Qed.

Ltac world_step :=
  match goal with
  | |- world_only (mbind _ _) => apply world_bind; [|intros ?]
  | |- world_only (match ?x with _ => _ end) => destruct x
  | |- world_only (mret _) => apply world_ret
  | |- world_only (fail _) => apply world_fail
  | |- world_only (gets _) => apply world_gets
  | |- world_only (in_env _) => apply world_in_env
  | |- world_only ?m => let rec head t := lazymatch t with ?g _ => head g | _ => t end in let h := head m in unfold h
  end.

Lemma world_array_alloc a b : world_only (array_alloc a b).
Proof. repeat world_step. Qed.
Lemma world_package_at r : world_only (package_at r).
Proof. repeat world_step. Qed.

(** All that [block_kind] can return. *)
Ltac kind_cases H :=
  repeat match type of H with
  | (if ?x then _ else _) _ = _ => destruct x
  | (if ?x then _ else _) = _ => destruct x
  | match ?m with inl _ => _ | inr _ => _ end = _ => destruct m as [|[? ?]]; [discriminate H|]
  | inr _ = inr _ => first [discriminate H | injection H as <- <-]
  end.

(** The kind of a block: a scope has its node, a loop its expiration point. *)
Lemma block_kind_world c p f : world_only (block_kind c p f).
Proof. repeat world_step. Qed.
Lemma block_kind_word c p f (s s' : ctx) t w : block_kind c p f s = inr (inr (t, w), s') -> forall b e, block_ok {| b_type := t; b_begin := b; b_end := e; b_word := w |}.
Proof.
  unfold block_kind, mbind, VM_bind, mret, VM_ret; intros H b e; unfold block_ok; cbn.
  kind_cases H; try exact I; eexists; reflexivity.
Qed.

Lemma block_kind_error c p f (s s' : ctx) err : block_kind c p f s = inr (inl err, s') -> is_ok err = false.
Proof.
  unfold block_kind, mbind, VM_bind, mret, VM_ret; intros H.
  kind_cases H; reflexivity.
Qed.

Lemma VM_bind_inv {A B} (m : VM V A) (k : A -> VM V B) s b s' : (m ≫= k) s = inr (b, s') -> exists a s1, m s = inr (a, s1) /\ k a s1 = inr (b, s').
Proof. unfold mbind, VM_bind; destruct (m s) as [|[a s1]]; [discriminate|eauto]. Qed.

Lemma cur_op_run (s : ctx) f fs o os : call_stack s = f :: fs -> pending_ops f = o :: os -> cur_op_ctx s = inr (o, s).
Proof. intros E Eo; unfold cur_op_ctx, cur_frame, mbind, VM_bind, gets; rewrite E; cbn; rewrite Eo; reflexivity. Qed.
Lemma update_op_run (s : ctx) f fs o os g : call_stack s = f :: fs -> pending_ops f = o :: os ->
  update_op g s = inr (tt, set_stack (set_ops (g o :: os) f :: fs) s).
Proof. intros E Eo; unfold update_op, cur_frame, mbind, VM_bind, gets; rewrite E; cbn; rewrite Eo; unfold update_frame; rewrite E; reflexivity. Qed.

(** What entering a block does not touch; the package that is tracked is over. *)
Definition same_variables (f f' : call_frame) : Prop :=
  f_args f' = f_args f /\ f_locals f' = f_locals f /\ f_method f' = f_method f /\ temp_nodes f' = temp_nodes f /\ code_offset f' = code_offset f.

Theorem block_entered (s s' : ctx) ret f fs o os : call_stack s = f :: fs -> pending_ops f = o :: os -> blocks_ok f ->
  begin_block_execution s = inr (ret, s') ->
  exists f', call_stack s' = f' :: fs /\ blocks_ok f' /\ same_variables f f' /\
    if is_ok ret then (exists b, code_blocks f' = b :: code_blocks f) /\ (forall p, last_while f' = Some p -> p_storage p = frames_capacity s')
    else code_blocks f' = code_blocks f.
Proof.
  intros E Eo Hf H; unfold begin_block_execution in H.
  apply VM_bind_inv in H as (f0 & s0 & H0 & H); unfold cur_frame, mbind, VM_bind, gets in H0; rewrite E in H0; injection H0 as <- <-.
  apply VM_bind_inv in H as (o0 & s0 & H0 & H); rewrite (cur_op_run s f fs o os E Eo) in H0; injection H0 as <- <-.
  apply VM_bind_inv in H as (ok & s1 & H1 & H); apply (world_array_alloc _ _) in H1; rewrite E in H1; destruct (negb ok).
  { injection H as <- <-; exists f; split_and!; [exact H1|exact Hf|repeat split|reflexivity]. }
  apply VM_bind_inv in H as (pkg & s2 & H2 & H); apply (world_package_at _) in H2; rewrite H1 in H2.
  apply VM_bind_inv in H as ([] & s3 & H3 & H); rewrite (update_op_run s2 f fs o os _ H2 Eo) in H3; injection H3 as <-.
  set (f3 := set_ops (set_tracked 0 o :: os) f) in *; assert (Hf3 : blocks_ok f3) by (destruct Hf; split; assumption).
  apply VM_bind_inv in H as (kind & s4 & H4 & H); pose proof (block_kind_world _ _ _ _ _ _ H4) as H4'; cbn in H4'; destruct kind as [err|[t w]].
  { injection H as <- <-; exists f3; rewrite (block_kind_error _ _ _ _ _ _ H4); split_and!; [exact H4'|exact Hf3|repeat split|reflexivity]. }
  apply VM_bind_inv in H as ([] & s5 & H5 & H); rewrite (update_frame_run s4 f3 fs _ H4') in H5; injection H5 as <-.
  apply VM_bind_inv in H as (cap & s5 & [= <- <-] & H).
  apply VM_bind_inv in H as ([] & s6 & H6 & H); erewrite update_frame_run in H6 by reflexivity; injection H6 as <-.
  apply VM_bind_inv in H as ([] & s7 & H7 & H); injection H as <- <-; cbn in H7.
  set (b := {| b_type := t; b_begin := _; b_end := _; b_word := w |}) in H7; pose proof (block_kind_word _ _ _ _ _ _ _ H4 (b_begin b) (b_end b)) as Hb.
  match type of H7 with update_scope ?s7 = _ => destruct (update_scope_run s7 _ fs eq_refl) as (node & Hn & Hr) end.
  { apply Forall_cons; split; [exact Hb|apply (blocks_complete _ Hf)]. }
  rewrite Hr in H7; injection H7 as <-; cbn in Hn; eexists; split; [reflexivity|]; split_and!; [|repeat split|split; [exists b; reflexivity|]].
  - split; [apply Forall_cons; split; [exact Hb|apply (blocks_complete _ Hf)]|apply point_index|exact Hn].
  - cbn; unfold point_to_last; intros p; destruct (find_last_block _ _); [intros [= <-]; reflexivity|discriminate].
Qed.
End Blocks.
