(* ===== verification/AmlEncode.v ===== *)
(** * acpi/uacpi/interpreter.c: how AML is encoded

    Encoders for package lengths and names as the ACPI specification has them, and proofs
    that the interpreter reads back what they write. *)

From S2P Require Import Prelude CMem UStdlib UCore UText FieldUnit Shareable Namespace Objects Regions AmlTables AmlOps AmlSpec AmlStore AmlMachine AmlHandlers AmlBlocks.

Open Scope word_scope.

(** ** Package lengths *)

(** With [k] bytes after the first: six bits, or four and eight for every byte. *)
Definition encode_length (k : nat) (n : Z) : list Z :=
  match k with
  | O => [n]
  | _ => Z.lor (Z.shiftl (Z.of_nat k) 6) (Z.land n 0xf) :: le_bytes k (Z.shiftr n 4)
  end.

Definition length_fits (k : nat) (n : Z) : Prop :=
  match k with O => 0 <= n < 64 | S _ => (k <= 3)%nat /\ 0 <= n < 2 ^ (4 + 8 * Z.of_nat k) end.

Lemma length_le_bytes k : forall v, length (le_bytes k v) = k.
Proof. induction k; intros v; cbn; [reflexivity|]; rewrite IHk; reflexivity. Qed.

Lemma le_value_bytes k : forall v, 0 <= v < 256 ^ Z.of_nat k -> le_value (le_bytes k v) = v.
Proof.
  induction k as [|k IH]; intros v Hv; [cbn in *; lia|]; cbn [le_bytes le_value]; rewrite Nat2Z.inj_succ, Z.pow_succ_r in Hv by lia.
  rewrite Z.shiftr_div_pow2 by lia; change (2 ^ 8) with 256; rewrite IH.
  - unfold u8; change (2 ^ 8) with 256; pose proof (Z.div_mod v 256); lia.
  - split; [apply Z.div_pos; lia|]; apply Z.div_lt_upper_bound; lia.
Qed.

(** The first byte: how many follow, and its own bits. *)
Lemma lead_byte k n : (k <= 3)%nat -> let lead := Z.lor (Z.shiftl (Z.of_nat k) 6) (Z.land n 0xf) in
  0 <= lead < 256 /\ Z.shiftr lead 6 = Z.of_nat k /\ Z.land lead 0xf = n mod 16.
Proof.
  intros Hk lead; unfold lead; change 0xf with (Z.ones 4); rewrite !Z.land_ones by lia; change (2 ^ 4) with 16; pose proof (Z.mod_pos_bound n 16 eq_refl) as Hm.
  rewrite lor_shiftl_add by (unfold in_w; lia); change (2 ^ 6) with 64; split; [lia|]; split.
  - rewrite Z.shiftr_div_pow2 by lia; change (2 ^ 6) with 64; rewrite Z.div_add_l, Z.div_small by lia; lia.
  - replace (Z.of_nat k * 64 + n mod 16) with (n mod 16 + Z.of_nat k * 4 * 16) by lia; rewrite Z.mod_add, Z.mod_small by lia; reflexivity.
Qed.

Lemma rejoin n : 0 <= n -> Z.lor (n mod 16) (Z.shiftl (Z.shiftr n 4) 4) = n.
Proof.
  intros Hn; rewrite Z.lor_comm, lor_shiftl_add; [|lia|apply Z.mod_pos_bound; lia]; rewrite Z.shiftr_div_pow2 by lia; change (2 ^ 4) with 16.
  pose proof (Z.div_mod n 16); lia.
Qed.

Lemma shifted_fits k n : length_fits k n -> k <> O -> 0 <= Z.shiftr n 4 < 256 ^ Z.of_nat k.
Proof.
  destruct k as [|k]; [congruence|]; intros [_ Hn] _; change 256 with (2 ^ 8); rewrite <- Z.pow_mul_r, Z.shiftr_div_pow2 by lia.
  rewrite Z.pow_add_r in Hn by lia; split; [apply Z.div_pos; lia|]; apply Z.div_lt_upper_bound; lia.
Qed.

Section Encode.
Context {V : Type} {OH : ObjectHost V} {NL : NamespaceLock (ost V)} {OBJ : Namespace.Objects (ost V)} {AH : AmlHost V} {RH : RegionHost V}
  {FH : FieldHost V} {MH : MachineHost V} {HH : HandlerHost V}.

Abbreviation ctx := (execution_context V).

(** A frame in the middle of a method. *)
Record reads (s : ctx) (f : call_frame) (fs : list call_frame) (m : control_method) : Prop := {
  frame_is : call_stack s = f :: fs;
  method_is : frame_method f s = inr (m, s);
  offset_inside : 0 <= code_offset f <= code_size m;
  size_fits : code_size m < 2 ^ 32
}.

Lemma cur_frame_run (s : ctx) f fs : call_stack s = f :: fs -> cur_frame s = inr (f, s).
Proof. intros E; unfold cur_frame, mbind, VM_bind, gets; rewrite E; reflexivity. Qed.

Lemma cursor_left s f fs m l rest : reads s f fs m -> call_frame_cursor f m = l ++ rest ->
  call_frame_code_bytes_left f m = Z.of_nat (length l + length rest) /\ code_offset f + Z.of_nat (length l + length rest) = code_size m.
Proof.
  intros [_ _ Ho Hs] E; unfold call_frame_code_bytes_left, call_frame_cursor in *; apply (f_equal length) in E; rewrite length_drop, length_app in E.
  unfold code_size in *; assert (H : Z.of_nat (length (code m)) - code_offset f = Z.of_nat (length l + length rest)) by lia.
  split; [rewrite H; apply Z.mod_small; lia|lia].
Qed.

Lemma length_encode k n : length (encode_length k n) = S k.
Proof. destruct k; [reflexivity|]; cbn [encode_length length]; rewrite length_le_bytes; reflexivity. Qed.

(** The first byte of the encoding. *)
Lemma encode_head k n : length_fits k n -> exists lead, encode_length k n = lead :: (if decide (k = O) then [] else le_bytes k (Z.shiftr n 4)) /\
  u8 lead = lead /\ Z.shiftr lead 6 = Z.of_nat k /\ (k = O -> Z.land lead 0x3f = n) /\ (k <> O -> Z.land lead 0xf = n mod 16).
Proof.
  destruct k as [|k]; intros Hk; cbn in Hk.
  - exists n; split; [reflexivity|]; split; [apply Z.mod_small; lia|]; split; [rewrite Z.shiftr_div_pow2 by lia; apply Z.div_small; lia|].
    split; [intros _; change 0x3f with (Z.ones 6); rewrite Z.land_ones by lia; apply Z.mod_small; lia|congruence].
  - destruct Hk as [Hk Hn]; destruct (lead_byte (S k) n Hk) as (H1 & H2 & H3); eexists; split; [reflexivity|].
    split; [apply Z.mod_small; lia|]; split; [exact H2|]; split; [congruence|intros _; exact H3].
Qed.

(** C35.  A package length is read back from its encoding: the package begins at the length and
    ends as many bytes later, and the code goes on behind the length. *)
Theorem package_length_roundtrip s f fs m k n rest : reads s f fs m -> length_fits k n -> call_frame_cursor f m = encode_length k n ++ rest ->
  code_offset f + n < 2 ^ 32 ->
  parse_package_length s = inr ((UACPI_STATUS_OK, (code_offset f, code_offset f + n)), set_stack (set_code_offset (code_offset f + 1 + Z.of_nat k) f :: fs) s).
Proof.
  intros HR Hk Hc Hn; destruct (cursor_left s f fs m _ _ HR Hc) as [Hl Hs]; destruct HR as [E Hm Ho Hz]; unfold parse_package_length, mbind, VM_bind.
  rewrite (cur_frame_run s f fs E), Hm, Hl, Hc, length_encode in *; destruct (encode_head k n Hk) as (lead & -> & Hu & H6 & H0 & H1).
  assert (Hn0 : 0 <= n) by (destruct k; cbn in Hk; lia); unfold read_byte, mbind, VM_bind; cbn [app head of_option]; unfold mret, VM_ret; cbn beta iota; rewrite Hu, H6.
  rewrite (proj2 (Z.ltb_ge _ 1)) by lia; rewrite (proj2 (Z.ltb_ge _ (1 + Z.of_nat k))) by lia; cbn [drop].
  assert (Hend : forall k', k' = 1 + Z.of_nat k -> u32 (code_offset f + n) = code_offset f + n /\ u32 (code_offset f + k') = code_offset f + 1 + Z.of_nat k).
  { intros k' ->; split; [apply Z.mod_small; lia|]; unfold u32; rewrite Z.mod_small; lia. }
  destruct (decide (k = O)) as [->|Hk0].
  - change (1 + Z.of_nat 0 =? 1) with true; cbn iota beta; rewrite H0 by reflexivity; unfold advance; rewrite (update_frame_run s f fs _ E); cbn iota beta.
    destruct (Hend (1 + Z.of_nat 0) eq_refl) as [-> ->]; rewrite (proj2 (Z.ltb_ge _ _)) by lia; reflexivity.
  - rewrite (proj2 (Z.eqb_neq (1 + Z.of_nat k) 1)) by lia; unfold read_code.
    rewrite !drop_0; rewrite (proj2 (Z.leb_le _ _)) by (rewrite length_app, length_le_bytes; lia); unfold mret, VM_ret; cbn beta iota.
    replace (Z.to_nat (1 + Z.of_nat k - 1)) with (length (le_bytes k (Z.shiftr n 4))) by (rewrite length_le_bytes; lia).
    rewrite take_app_length, le_value_bytes, (H1 Hk0), (rejoin n Hn0) by (apply shifted_fits; assumption); unfold advance; rewrite (update_frame_run s f fs _ E); cbn iota beta.
    destruct (Hend (1 + Z.of_nat k) eq_refl) as [-> ->]; rewrite (proj2 (Z.ltb_ge _ _)) by lia; reflexivity.
Qed.

(** ** Names *)

Definition valid_seg (seg : list Z) : Prop := length seg = 4%nat /\ Forall (fun c => 0 <= c < 256 /\ is_valid_name_byte c = true) seg.

(** [^] as often as one likes, then perhaps [\ ]. *)
Definition name_start (parents : nat) (root : bool) : list Z := replicate parents PARENT_CHAR ++ (if root then [ROOT_CHAR] else []).

Definition encode_segments (segs : list (list Z)) : list Z :=
  match segs with
  | [] => [UACPI_NULL_NAME]
  | [a] => a
  | [a; b] => UACPI_DUAL_NAME_PREFIX :: a ++ b
  | _ => UACPI_MULTI_NAME_PREFIX :: Z.of_nat (length segs) :: concat segs
  end.

(** The segments with dots between them. *)
Fixpoint dots (segs : list (list Z)) : list Z :=
  match segs with [] => [] | [a] => a | a :: rest => a ++ DOT :: dots rest end.

Lemma valid_head seg : valid_seg seg -> exists c l, seg = c :: l /\ u8 c = c /\
  c <> UACPI_DUAL_NAME_PREFIX /\ c <> UACPI_MULTI_NAME_PREFIX /\ c <> UACPI_NULL_NAME /\ c <> PARENT_CHAR /\ c <> ROOT_CHAR.
Proof.
  intros [Hl H]; destruct seg as [|c l]; [discriminate|]; apply Forall_cons in H as [[Hc Hv] _]; exists c, l; split; [reflexivity|].
  split; [apply Z.mod_small; lia|]; split_and!; intros ->; discriminate Hv.
Qed.

Lemma dotted_segments segs : Forall valid_seg segs -> forall rest, dotted (length segs) (concat segs ++ rest) = dots segs.
Proof.
  induction segs as [|a segs IH]; intros H rest; [reflexivity|]; apply Forall_cons in H as [[Ha _] H]; cbn [length dotted concat dots].
  rewrite <- app_assoc, <- Ha, take_app_length, drop_app_length; destruct segs as [|b segs]; [cbn; apply app_nil_r|].
  cbn [length]; f_equal; f_equal; exact (IH H rest).
Qed.
Lemma concat_length segs : Forall valid_seg segs -> length (concat segs) = (4 * length segs)%nat.
Proof. induction 1 as [|a segs [Ha _] _ IH]; [reflexivity|]; cbn [concat]; rewrite length_app, Ha, IH; cbn; lia. Qed.

(** The prefixes are read back. *)
Lemma path_prefix_run parents root l (s : ctx) :
  match l with c :: _ => c <> PARENT_CHAR /\ c <> ROOT_CHAR | [] => False end ->
  path_prefix (name_start parents root ++ l) (Z.of_nat (length (name_start parents root ++ l))) s = inr (Some (name_start parents root, l, Z.of_nat (length l)), s).
Proof.
  intros Hl; unfold name_start; rewrite <- app_assoc; induction parents as [|n IH].
  - destruct l as [|c l]; [contradiction|]; destruct Hl as [H1 H2]; destruct root; cbn [replicate app path_prefix].
    + rewrite (proj2 (Z.eqb_neq _ _)) by (cbn; lia); cbn [Z.eqb]; change (ROOT_CHAR =? PARENT_CHAR) with false; change (ROOT_CHAR =? ROOT_CHAR) with true; cbn iota.
      unfold mret, VM_ret; repeat f_equal; cbn; lia.
    + rewrite (proj2 (Z.eqb_neq _ _)) by (cbn; lia); rewrite (proj2 (Z.eqb_neq c _) H1), (proj2 (Z.eqb_neq c _) H2); reflexivity.
  - cbn [replicate app path_prefix]; rewrite (proj2 (Z.eqb_neq _ _)) by (cbn; lia); rewrite Z.eqb_refl; unfold mbind, VM_bind.
    replace (Z.of_nat (length (PARENT_CHAR :: replicate n PARENT_CHAR ++ (if root then [ROOT_CHAR] else []) ++ l)) - 1)
      with (Z.of_nat (length (replicate n PARENT_CHAR ++ (if root then [ROOT_CHAR] else []) ++ l))) by (cbn [length]; lia).
    rewrite IH; reflexivity.
Qed.

(** The segments are found. *)
Lemma name_segments_run segs rest (s : ctx) : Forall valid_seg segs -> (length segs < 256)%nat ->
  exists single after, name_segments (encode_segments segs ++ rest) (Z.of_nat (length (encode_segments segs ++ rest))) s =
    inr (inr (match segs with [] => None | _ => Some (Z.of_nat (length segs), concat segs ++ rest, Z.of_nat (length (concat segs ++ rest))) end, single, after), s).
Proof.
  intros H Hn; unfold name_segments, read_byte, mbind, VM_bind; destruct segs as [|a [|b [|c segs]]].
  - eexists _, _; reflexivity.
  - apply Forall_cons in H as [Ha _]; destruct (valid_head a Ha) as (x & l & -> & Hu & H1 & H2 & H3 & _); eexists _, _; cbn [encode_segments concat]; rewrite app_nil_r.
    cbn [app head of_option length]; unfold mret, VM_ret; cbn beta iota; rewrite (proj2 (Z.eqb_neq _ 0)) by lia; rewrite Hu.
    rewrite (proj2 (Z.eqb_neq x _) H1), (proj2 (Z.eqb_neq x _) H2), (proj2 (Z.eqb_neq x _) H3), Z.sub_add; reflexivity.
  - eexists _, _; cbn [encode_segments concat app length]; rewrite (proj2 (Z.eqb_neq _ 0)) by lia; cbn [head of_option]; unfold mret, VM_ret; cbn beta iota.
    change (u8 UACPI_DUAL_NAME_PREFIX =? UACPI_DUAL_NAME_PREFIX) with true; cbn [drop]; rewrite app_nil_r, drop_0.
    replace (Z.of_nat (S (length ((a ++ b) ++ rest))) - 1) with (Z.of_nat (length ((a ++ b) ++ rest))) by lia; reflexivity.
  - set (segs' := a :: b :: c :: segs) in *; eexists _, _.
    change (encode_segments segs') with (UACPI_MULTI_NAME_PREFIX :: Z.of_nat (length segs') :: concat segs'); cbn [app length].
    rewrite (proj2 (Z.eqb_neq _ 0)) by lia; cbn [head of_option]; unfold mret, VM_ret; cbn beta iota.
    change (u8 UACPI_MULTI_NAME_PREFIX =? UACPI_DUAL_NAME_PREFIX) with false; change (u8 UACPI_MULTI_NAME_PREFIX =? UACPI_MULTI_NAME_PREFIX) with true; cbn iota.
    rewrite (proj2 (Z.eqb_neq _ 0)) by lia; cbn [drop head of_option]; unfold mret, VM_ret; cbn beta iota.
    assert (Hu : u8 (Z.of_nat (length segs')) = Z.of_nat (length segs')) by (apply Z.mod_small; lia); rewrite Hu.
    rewrite (proj2 (Z.eqb_neq (Z.of_nat (length segs')) 0)) by (unfold segs'; cbn; lia); cbn [drop]; rewrite ?drop_0.
    replace (Z.of_nat (S (S (length (concat segs' ++ rest)))) - 1 - 1) with (Z.of_nat (length (concat segs' ++ rest))) by lia; reflexivity.
Qed.

Context {AR : ArrayLaws (V := V)}.

Lemma VM_bind_run {A B} (m : VM V A) (k : A -> VM V B) s a s1 : m s = inr (a, s1) -> (m ≫= k) s = k a s1.
Proof. unfold mbind, VM_bind; intros ->; reflexivity. Qed.

Lemma encode_starts segs : Forall valid_seg segs -> forall rest, match encode_segments segs ++ rest with c :: _ => c <> PARENT_CHAR /\ c <> ROOT_CHAR | [] => False end.
Proof.
  intros H rest; destruct segs as [|a [|b [|c segs]]]; cbn [encode_segments app]; try (split; discriminate).
  apply Forall_cons in H as [Ha _]; destruct (valid_head a Ha) as (x & l & -> & _ & _ & _ & _ & H1 & H2); split; assumption.
Qed.

(** An array of its own for a text: there is none, or it holds the text. *)
Lemma text_array_run (s : ctx) f fs o os text : call_stack s = f :: fs -> pending_ops f = o :: os ->
  exists r s', (d ← on_items (kernel_alloc_bytes (Z.of_nat (length text)));
    match d with None => mret (UACPI_STATUS_OUT_OF_MEMORY, None) | Some d => d ← on_items (overwrite d 0 text); mret (UACPI_STATUS_OK, Some d) end) s = inr (r, s') /\
    (r = (UACPI_STATUS_OUT_OF_MEMORY, None) \/ r = (UACPI_STATUS_OK, Some text)) /\ call_stack s' = call_stack s.
Proof.
  intros E Eo; assert (Hf : set_ops (set_items (op_items o) o :: os) f = f) by (destruct f, o; cbn in Eo; rewrite Eo; reflexivity).
  destruct (kernel_alloc_run (Z.of_nat (length text)) {| items := op_items o; store := world (env s) |}) as (r & t & Et & Hi & _ & Hl & _); cbn in Hi.
  unfold mbind, VM_bind at 1; unfold on_items at 1; rewrite E, Eo, Et, Hi, Hf; destruct r as [d|]; [|eexists _, _; split; [reflexivity|]; split; [left; reflexivity|reflexivity]].
  specialize (Hl d eq_refl); unfold VM_bind, on_items; cbn [call_stack set_stack set_env]; rewrite Eo; cbn [env set_env world with_world].
  rewrite fill_run by lia; cbn [items store]; rewrite Hf; eexists _, _; split; [reflexivity|]; split; [right; reflexivity|reflexivity].
Qed.

(** C36.  A name in the code becomes its path: the prefixes and the segments with dots between
    them, unless there is no memory for it. *)
Theorem name_path_roundtrip (s : ctx) f fs m o os parents root segs rest offset :
  call_stack s = f :: fs -> frame_method f s = inr (m, s) -> pending_ops f = o :: os -> code_size m < 2 ^ 32 -> 0 <= offset ->
  Forall valid_seg segs -> (length segs < 256)%nat -> drop (Z.to_nat offset) (code m) = name_start parents root ++ encode_segments segs ++ rest ->
  exists r s', name_string_to_path offset s = inr (r, s') /\ call_stack s' = call_stack s /\
    (r = (UACPI_STATUS_OUT_OF_MEMORY, None) \/ r = (UACPI_STATUS_OK, Some (name_start parents root ++ dots segs ++ [0]))).
Proof.
  intros E Hm Eo Hz H0 Hv Hn Hd; unfold name_string_to_path.
  assert (Hleft : u64 (code_size m - offset) = Z.of_nat (length (name_start parents root ++ encode_segments segs ++ rest))).
  { pose proof (f_equal length Hd) as Hd'; rewrite length_drop in Hd'; unfold code_size in *; rewrite <- Hd'; pose proof (encode_starts segs Hv rest) as Hs.
    assert ((0 < length (encode_segments segs ++ rest))%nat) by (destruct (encode_segments segs ++ rest); [contradiction|cbn; lia]).
    rewrite length_app in Hd'; unfold u64; rewrite Z.mod_small; lia. }
  rewrite (VM_bind_run _ _ _ _ _ (cur_frame_run s f fs E)), (VM_bind_run _ _ _ _ _ Hm), Hd, Hleft.
  rewrite (VM_bind_run _ _ _ _ _ (path_prefix_run parents root (encode_segments segs ++ rest) s (encode_starts segs Hv rest))).
  destruct (name_segments_run segs rest s Hv Hn) as (single & after & Hs); rewrite (VM_bind_run _ _ _ _ _ Hs).
  set (found := match segs with [] => _ | _ => _ end).
  assert (Hfound : exists cursor left, default (0, [], 0) found = (Z.of_nat (length segs), cursor, left) /\ (left <? Z.of_nat (length segs) * 4) = false /\
    read_code cursor (Z.of_nat (length segs) * 4) s = inr (concat segs, s)).
  { pose proof (concat_length segs Hv) as Hc; destruct segs as [|a segs']; [exists [], 0; split_and!; reflexivity|]; eexists _, _; split; [reflexivity|].
    rewrite length_app, Hc; split; [apply Z.ltb_ge; lia|]; unfold read_code; rewrite length_app, Hc, (proj2 (Z.leb_le _ _)) by lia; unfold mret, VM_ret.
    replace (Z.to_nat (Z.of_nat (length (a :: segs')) * 4)) with (length (concat (a :: segs'))) by lia; rewrite take_app_length; reflexivity. }
  destruct Hfound as (cursor & left & -> & Hlt & Hr); rewrite Hlt, (VM_bind_run _ _ _ _ _ Hr), Nat2Z.id.
  rewrite <- (app_nil_r (concat segs)), (dotted_segments segs Hv []).
  destruct (text_array_run s f fs o os (name_start parents root ++ dots segs ++ [0]) E Eo) as (r & s' & Ht & Hres & Hst).
  exists r, s'; split; [exact Ht|split; assumption].
Qed.
End Encode.
