(* ===== verification/AmlLocks.v ===== *)
(** * acpi/uacpi/interpreter.c: the mutexes of a call

    A context lists the mutexes that it holds.  This file shows that the list is true: it
    has exactly the mutexes whose kernel mutex the context acquired and did not release,
    after every step of every method, and also when there is no memory for the list, when
    firmware does not give up the global lock and when a method is aborted. *)

From S2P Require Import Prelude CMem UStdlib UCore UText FieldUnit Shareable Namespace Objects Regions AmlTables AmlOps AmlStore AmlMachine AmlHandlers AmlBlocks.

Open Scope word_scope.

Section Locks.
Context {V : Type} {OH : ObjectHost V} {NL : NamespaceLock (ost V)} {OBJ : Namespace.Objects (ost V)} {AH : AmlHost V} {RH : RegionHost V}
  {FH : FieldHost V} {MH : MachineHost V} {HH : HandlerHost V}.

Abbreviation ctx := (execution_context V).
Abbreviation M := (VM V).

(** While a thread waits for the namespace, nobody else changes the depth of a mutex that
    it owns. *)
Class LockLaws : Prop := {
  write_lock_keeps_depth : forall (w w' : ost V) r p n m, uacpi_namespace_write_lock w = Some (r, w') ->
    cells w !! p = Some (n, C_MUTEX m) -> m_owner m = kernel_thread_id ->
    exists n' m', cells w' !! p = Some (n', C_MUTEX m') /\ m_depth m' = m_depth m
}.

Definition true_list (s : ctx) : Prop := taken s = held_mutexes s.
Definition balanced {A} (m : M A) : Prop := forall s a s', m s = inr (a, s') -> true_list s -> true_list s'.

(** Computations that touch neither list. *)
Definition no_locks {A} (m : M A) : Prop := forall s a s', m s = inr (a, s') -> taken s' = taken s /\ held_mutexes s' = held_mutexes s.

Lemma no_locks_balanced {A} (m : M A) : no_locks m -> balanced m.
Proof. intros H s a s' E Hs; destruct (H s a s' E) as [H1 H2]; unfold true_list in *; congruence. Qed.
Lemma balanced_bind {A B} (m : M A) (k : A -> M B) : balanced m -> (forall a, balanced (k a)) -> balanced (m ≫= k).
Proof. intros Hm Hk s b s' E Hs; apply VM_bind_inv in E as (a & s1 & E1 & E2); exact (Hk a _ _ _ E2 (Hm _ _ _ E1 Hs)). Qed.
Lemma no_locks_bind {A B} (m : M A) (k : A -> M B) : no_locks m -> (forall a, no_locks (k a)) -> no_locks (m ≫= k).
Proof. intros Hm Hk s b s' E; apply VM_bind_inv in E as (a & s1 & E1 & E2); destruct (Hk a _ _ _ E2), (Hm _ _ _ E1); split; congruence. Qed.

Lemma n_ret {A} (a : A) : no_locks (mret a).
Proof. intros s b s' [= _ <-]; split; reflexivity. Qed.
Lemma n_fail {A} f : no_locks (fail f : M A).
Proof. intros s b s' [=]. Qed.
Lemma n_gets {A} (g : ctx -> A) : no_locks (gets g).
Proof. intros s b s' [= _ <-]; split; reflexivity. Qed.
Lemma n_update g : (forall s, taken (g s) = taken s /\ held_mutexes (g s) = held_mutexes s) -> no_locks (update g).
Proof. intros H s b s' [= _ <-]; apply H. Qed.
Lemma n_in_env {A} (c : SM (ns (ost V)) A) : no_locks (in_env c).
Proof. intros s b s'; unfold in_env; destruct (c (env s)) as [[a w]|]; [|discriminate]; intros [= _ <-]; split; reflexivity. Qed.
Lemma n_update_frame g : no_locks (update_frame g).
Proof. intros s b s'; unfold update_frame; destruct (call_stack s); [discriminate|]; intros [= _ <-]; split; reflexivity. Qed.
Lemma n_on_items {A} (c : SM (aml V) A) : no_locks (on_items c).
Proof.
  intros s b s'; unfold on_items; destruct (call_stack s) as [|f l]; [discriminate|]; destruct (pending_ops f); [discriminate|].
  destruct (c _) as [[a t]|]; [|discriminate]; intros [= _ <-]; split; reflexivity.
Qed.

Create HintDb locks.
#[local] Hint Extern 1 (forall s : execution_context _, _ /\ _) => intros; split; reflexivity : locks.
#[local] Hint Resolve n_ret n_fail n_gets n_update n_in_env n_update_frame n_on_items : locks.

Ltac head_of m := lazymatch m with ?g _ => head_of g | _ => m end.
(** A sequence, a choice, something known, or a definition to look into. *)
Ltac locks_step :=
  match goal with
  | |- no_locks (mbind _ _) => apply no_locks_bind; [|intros ?]
  | |- no_locks (match ?x with _ => _ end) => destruct x
  | |- no_locks _ => solve [auto with locks nocore]
  | |- no_locks ?m => let h := head_of m in unfold h
  | |- balanced (mbind _ _) => apply balanced_bind; [|intros ?]
  | |- balanced (match ?x with _ => _ end) => destruct x
  | |- balanced _ => solve [auto with locks nocore | apply no_locks_balanced; auto with locks nocore]
  | |- balanced ?m => let h := head_of m in unfold h
  end.
Ltac locks := intros; repeat locks_step.

(** ** Mutexes *)

Lemma on_objects_inv {A} (c : SM (ost V) A) (s s' : ctx) a : AmlMachine.on_objects c s = inr (a, s') ->
  exists w, c (Namespace.world (env s)) = Some (a, w) /\ s' = set_env (with_world w (env s)) s.
Proof.
  unfold AmlMachine.on_objects, in_env, Namespace.in_world; destruct (c _) as [[x w]|]; [|discriminate]; intros [= <- <-]; eauto.
Qed.
Lemma on_host_inv {A} (c : SM V A) (s s' : ctx) a : AmlMachine.on_host c s = inr (a, s') ->
  exists v, c (oworld (Namespace.world (env s))) = Some (a, v) /\ s' = set_env (with_world (set_oworld v (Namespace.world (env s))) (env s)) s.
Proof.
  unfold AmlMachine.on_host; intros H; apply on_objects_inv in H as (w & H & ->); unfold Objects.host in H.
  destruct (c _) as [[x v]|]; [|discriminate]; injection H as <- <-; eauto.
Qed.

(** The mutex at an address. *)
Definition mutex_cell (s : ctx) (p : Z) (m : mutex) : Prop := exists n, cells (Namespace.world (env s)) !! p = Some (n, C_MUTEX m).

Lemma get_mutex_inv p (w w' : ost V) m : get_mutex p w = Some (m, w') -> w' = w /\ exists n, cells w !! p = Some (n, C_MUTEX m).
Proof.
  unfold get_mutex, get_cell, of_opt; unfold mbind, SM_bind, gets_state; cbn; destruct (cells w !! p) as [[n c]|]; [|discriminate]; cbn.
  destruct c; try discriminate; intros [= <- <-]; eauto.
Qed.
Lemma mutex_read p (s s' : ctx) m : AmlMachine.on_objects (get_mutex p) s = inr (m, s') -> s' = s /\ mutex_cell s p m.
Proof.
  intros H; apply on_objects_inv in H as (w & H & ->); apply get_mutex_inv in H as [-> H]; split; [|exact H].
  destruct s as [? ? ? ? ? ? ? [? ?]]; reflexivity.
Qed.
Lemma get_cell_inv p (w w' : ost V) x : get_cell p w = Some (x, w') -> w' = w /\ cells w !! p = Some x.
Proof.
  unfold get_cell, of_opt, mbind, SM_bind, gets_state; cbn; destruct (cells w !! p) as [c|]; [|discriminate]; intros [= <- <-]; split; reflexivity.
Qed.

(** The members of a mutex that the code writes. *)
Definition with_owner (m : mutex) (owner d : Z) : mutex := {| m_handle := m_handle m; m_owner := owner; m_depth := d; sync_level := sync_level m |}.

Lemma write_mutex p f (w w' : ost V) u : (m ← get_mutex p; write_cell p (C_MUTEX (f m))) w = Some (u, w') ->
  exists n m, cells w !! p = Some (n, C_MUTEX m) /\ cells w' !! p = Some (n, C_MUTEX (f m)) /\ oworld w' = oworld w.
Proof.
  intros H; apply SM_bind_inv in H as (m & w1 & H1 & H); apply get_mutex_inv in H1 as [-> [n Hn]]; exists n, m; split; [exact Hn|].
  unfold write_cell in H; apply SM_bind_inv in H as (x & w2 & H2 & H); apply get_cell_inv in H2 as [-> H2]; rewrite Hn in H2; injection H2 as <-.
  injection H as _ <-; cbn; split; [apply lookup_insert_eq|reflexivity].
Qed.

Lemma set_owner_run p o d (s s' : ctx) u : AmlMachine.on_objects (set_owner p o d) s = inr (u, s') ->
  exists m, mutex_cell s p m /\ mutex_cell s' p (with_owner m o d) /\ oworld (Namespace.world (env s')) = oworld (Namespace.world (env s)).
Proof.
  intros H; apply on_objects_inv in H as (w & H & ->); apply (write_mutex p (fun m => with_owner m o d)) in H as (n & m & H1 & H2 & H3).
  exists m; split; [exists n; exact H1|split; [exists n; exact H2|exact H3]].
Qed.

Lemma mutex_cell_same (s : ctx) p m m' : mutex_cell s p m -> mutex_cell s p m' -> m = m'.
Proof. intros [n H] [n' H']; rewrite H in H'; injection H' as _ <-; reflexivity. Qed.

Lemma set_depth_run p d (s s' : ctx) u : AmlMachine.on_objects (set_depth p d) s = inr (u, s') -> exists m, mutex_cell s' p (with_owner m (m_owner m) d).
Proof.
  intros H; apply on_objects_inv in H as (w & H & ->); apply (write_mutex p (fun m => with_owner m (m_owner m) d)) in H as (n & m & _ & H2 & _).
  exists m, n; exact H2.
Qed.

Lemma n_set_depth p d : no_locks (AmlMachine.on_objects (set_depth p d)).
Proof. locks. Qed.

Lemma native_release mutex (s s' : ctx) u : release_native_mutex mutex s = inr (u, s') ->
  taken s' = default (taken s) (remove_last mutex (taken s)) /\ held_mutexes s' = held_mutexes s.
Proof.
  unfold release_native_mutex; intros H; apply VM_bind_inv in H as (m & s1 & H1 & H); apply mutex_read in H1 as [-> _].
  apply VM_bind_inv in H as ([] & s2 & H2 & [= _ <-]); assert (Hn : taken s2 = taken s /\ held_mutexes s2 = held_mutexes s).
  { refine ((_ : no_locks _) _ _ _ H2); locks. }
  destruct Hn as [H3 H4]; cbn; rewrite H3; split; [reflexivity|exact H4].
Qed.

Lemma aml_release mutex (s s' : ctx) u m : mutex_cell s mutex m -> release_aml_mutex mutex s = inr (u, s') ->
  taken s' = (if 1 <? m_depth m then taken s else default (taken s) (remove_last mutex (taken s))) /\ held_mutexes s' = held_mutexes s.
Proof.
  intros Hm H; unfold release_aml_mutex in H; apply VM_bind_inv in H as (m' & s1 & H1 & H); apply mutex_read in H1 as [-> H1].
  rewrite (mutex_cell_same _ _ _ _ H1 Hm) in H; clear H1 m'; apply VM_bind_inv in H as ([] & s2 & H2 & H); apply n_set_depth in H2 as [Ht Hh].
  destruct (1 <? m_depth m); [injection H as _ <-; split; assumption|].
  apply VM_bind_inv in H as (h & s3 & [= <- <-] & H); apply VM_bind_inv in H as ([] & s4 & H4 & H).
  assert (Hn : taken s4 = taken s2 /\ held_mutexes s4 = held_mutexes s2) by (refine ((_ : no_locks _) _ _ _ H4); locks).
  apply VM_bind_inv in H as ([] & s5 & H5 & H); assert (Hn' : taken s5 = taken s4 /\ held_mutexes s5 = held_mutexes s4) by (refine ((_ : no_locks _) _ _ _ H5); locks).
  apply native_release in H as [H6 H7]; destruct Hn, Hn'; split; congruence.
Qed.

Definition mine (m : mutex) : bool := m_owner m =? kernel_thread_id.

Lemma owns_run mutex (s s' : ctx) b : this_thread_owns_aml_mutex mutex s = inr (b, s') -> s' = s /\ exists m, mutex_cell s mutex m /\ b = mine m.
Proof.
  unfold this_thread_owns_aml_mutex; intros H; apply VM_bind_inv in H as (m & s1 & H1 & H); apply mutex_read in H1 as [-> H1].
  injection H as <- <-; split; [reflexivity|]; exists m; split; [exact H1|reflexivity].
Qed.

Lemma native_acquire mutex t (s s' : ctx) ret : acquire_native_mutex mutex t s = inr (ret, s') ->
  taken s' = (if is_ok ret then mutex :: taken s else taken s) /\ held_mutexes s' = held_mutexes s.
Proof.
  unfold acquire_native_mutex; intros H; apply VM_bind_inv in H as (m & s1 & H1 & H); apply mutex_read in H1 as [-> _].
  destruct (m_handle m =? 0); [injection H as <- <-; split; reflexivity|]; apply VM_bind_inv in H as (st & s2 & H2 & H); apply n_in_env in H2 as [H3 H4].
  apply VM_bind_inv in H as ([] & s3 & H5 & [= <- <-]); destruct (is_ok st); injection H5 as <-; cbn; rewrite H3; split; auto.
Qed.

Lemma removed_again mutex (l : list Z) : default (mutex :: l) (remove_last mutex (mutex :: l)) = l.
Proof. cbn; rewrite Z.eqb_refl; reflexivity. Qed.

Context {LL : LockLaws}.

(** A mutex that a thread does not own yet is taken once, with depth 1; otherwise nothing
    is taken. *)
Lemma aml_acquire mutex t (s s' : ctx) ret m : mutex_cell s mutex m -> acquire_aml_mutex mutex t s = inr (ret, s') ->
  held_mutexes s' = held_mutexes s /\
  if is_ok ret && negb (mine m) then taken s' = mutex :: taken s /\ exists m', mutex_cell s' mutex m' /\ m_depth m' = 1 else taken s' = taken s.
Proof.
  intros Hm H; unfold acquire_aml_mutex in H; apply VM_bind_inv in H as (m' & s1 & H1 & H); apply mutex_read in H1 as [-> H1].
  rewrite (mutex_cell_same _ _ _ _ H1 Hm) in H; clear H1 m'; unfold mine; destruct (m_owner m =? _) eqn:Eo; cbn [negb].
  - rewrite andb_false_r; destruct (m_depth m =? 0xffff); [injection H as _ <-; split; reflexivity|].
    apply VM_bind_inv in H as ([] & s2 & H2 & [= _ <-]); apply n_set_depth in H2 as [? ?]; split; assumption.
  - rewrite andb_true_r; apply VM_bind_inv in H as (u & s2 & H2 & H); apply n_in_env in H2 as [Ht Hh].
    apply VM_bind_inv in H as (st & s3 & H3 & H); apply native_acquire in H3 as [Ht3 Hh3]; apply VM_bind_inv in H as (st' & s4 & H4 & H).
    apply VM_bind_inv in H as (u' & s5 & H5 & [= -> <-]); pose proof (n_in_env _ _ _ _ H5) as [Ht5 Hh5]; destruct (is_ok st) eqn:Est; cbn [negb] in H4.
    2:{ injection H4 as <- <-; rewrite Est; split; congruence. }
    apply VM_bind_inv in H4 as (m1 & s6 & H6 & H4); apply mutex_read in H6 as [-> H6]; apply VM_bind_inv in H4 as (h & s7 & [= <- <-] & H4).
    apply VM_bind_inv in H4 as (st1 & s8 & H8 & H4); assert (Hn : taken s8 = taken s3 /\ held_mutexes s8 = held_mutexes s3) by (refine ((_ : no_locks _) _ _ _ H8); locks).
    destruct Hn as [Ht8 Hh8]; destruct (is_ok st1) eqn:Est1; cbn [negb] in H4.
    + apply VM_bind_inv in H4 as ([] & s9 & H9 & [= <- <-]); pose proof (n_in_env _ _ _ _ H9) as [Ht9 Hh9]; cbn; split; [congruence|split; [congruence|]].
      apply set_owner_run in H9 as (m2 & _ & [n Hn] & Hw); apply on_objects_inv in H5 as (w & H5 & ->).
      destruct (write_lock_keeps_depth _ _ _ _ _ _ H5 Hn) as (n' & m' & Hc & Hd).
      { reflexivity. }
      exists m'; split; [exists n'; exact Hc|exact Hd].
    + apply VM_bind_inv in H4 as ([] & s9 & H9 & [= <- <-]); apply native_release in H9 as [Ht9 Hh9]; rewrite Est1; split; [congruence|].
      rewrite Ht5, Ht9, Ht8, Ht3, removed_again; exact Ht.
Qed.

(** A mutex that was just taken and is not in the list yet. *)
Definition fresh_mutex (s : ctx) (mutex : Z) : Prop := taken s = mutex :: held_mutexes s /\ exists m, mutex_cell s mutex m /\ m_depth m = 1.

Lemma array_alloc_cells a b (s s' : ctx) ok p m : array_alloc a b s = inr (ok, s') -> mutex_cell s p m -> mutex_cell s' p m.
Proof.
  unfold array_alloc; destruct (a <? b)%nat; [intros [= _ <-]; auto|]; intros H; apply on_host_inv in H as (v & _ & ->); exact (fun Hm => Hm).
Qed.

(** It is put there, or else it is given back. *)
Lemma push_or_release mutex (s s' : ctx) ret : fresh_mutex s mutex -> held_mutexes_array_push mutex s = inr (ret, s') ->
  if is_ok ret then true_list s' else forall u s2, release_aml_mutex mutex s' = inr (u, s2) -> true_list s2.
Proof.
  intros [Ht (m & Hm & Hd)] H; unfold held_mutexes_array_push in H; apply VM_bind_inv in H as (l & s1 & [= <- <-] & H).
  apply VM_bind_inv in H as (ok & s1 & H1 & H); assert (Hn : taken s1 = taken s /\ held_mutexes s1 = held_mutexes s) by (refine ((_ : no_locks _) _ _ _ H1); locks).
  destruct Hn as [Ht1 Hh1]; destruct ok; cbn [negb] in H.
  - apply VM_bind_inv in H as ([] & s2 & [= <-] & H); apply VM_bind_inv in H as (n & s3 & H3 & [= <- <-]); apply n_in_env in H3 as [Ht3 Hh3]; cbn in *.
    unfold true_list; congruence.
  - injection H as <- <-; cbn; intros u s2 H2; apply (aml_release mutex s1 s2 u m) in H2 as [Ht2 Hh2]; [|exact (array_alloc_cells _ _ _ _ _ _ _ H1 Hm)].
    rewrite Hd in Ht2; cbn in Ht2; rewrite Ht1, Ht, removed_again in Ht2; unfold true_list; congruence.
Qed.

Lemma acquired_fresh mutex t (s s' : ctx) ret m : true_list s -> mutex_cell s mutex m -> acquire_aml_mutex mutex t s = inr (ret, s') ->
  if is_ok ret && negb (mine m) then fresh_mutex s' mutex else true_list s'.
Proof.
  intros Hs Hm H; destruct (aml_acquire mutex t s s' ret m Hm H) as [Hh H']; destruct (is_ok ret && negb (mine m)); unfold true_list, fresh_mutex in *.
  - destruct H' as [Ht Hx]; split; [congruence|exact Hx].
  - congruence.
Qed.

Lemma b_remove_and_release mutex force : balanced (held_mutexes_array_remove_and_release mutex force).
Proof.
  intros s ret s' H Hs; unfold held_mutexes_array_remove_and_release in H; apply VM_bind_inv in H as (l & s1 & [= <- <-] & H).
  destruct (held_mutexes s) as [|x l] eqn:El; [injection H as _ <-; exact Hs|].
  apply VM_bind_inv in H as (m1 & s1 & H1 & H); apply mutex_read in H1 as [-> _]; apply VM_bind_inv in H as (m & s1 & H1 & H); apply mutex_read in H1 as [-> Hm].
  destruct (_ && bool_decide (force <> _)); [injection H as _ <-; exact Hs|]; destruct ((1 <? m_depth m) && _) eqn:Ed.
  - apply andb_prop in Ed as [Ed _]; apply VM_bind_inv in H as ([] & s2 & H2 & [= _ <-]); apply (aml_release _ _ _ _ _ Hm) in H2 as [Ht Hh].
    rewrite Ed in Ht; unfold true_list in *; congruence.
  - destruct (remove_last mutex (x :: l)) as [l'|] eqn:Er; [|injection H as _ <-; exact Hs].
    apply VM_bind_inv in H as ([] & s2 & [= <-] & H); apply VM_bind_inv in H as ([] & s3 & H3 & H); pose proof (n_set_depth _ _ _ _ _ H3) as [Ht3 Hh3].
    apply set_depth_run in H3 as (m3 & H3); apply VM_bind_inv in H as ([] & s4 & H4 & H); apply (aml_release _ _ _ _ _ H3) in H4 as [Ht4 Hh4].
    apply VM_bind_inv in H as ([] & s5 & H5 & [= _ <-]); apply n_in_env in H5 as [Ht5 Hh5]; cbn in *; unfold true_list in *.
    rewrite Ht5, Hh5, Hh4, Hh3, Ht4, Ht3, Hs, El; cbn [remove_last]; rewrite Er; reflexivity.
Qed.

#[local] Hint Resolve b_remove_and_release : locks.

(** ** Methods and handlers *)

Lemma n_method_mutex method : no_locks (method_mutex method).
Proof. locks. Qed.

Lemma b_enter_method f method : balanced (enter_method f method).
Proof.
  unfold enter_method; do 2 (apply balanced_bind; [locks|intros ?]); destruct (negb _); [locks|]; apply balanced_bind; [locks|intros level]; destruct (_ <? _); [locks|].
  apply balanced_bind; [apply no_locks_balanced, n_method_mutex|intros mutex]; destruct (mutex =? 0); [locks|].
  intros s y s' H Hs; apply VM_bind_inv in H as (owned & s1 & H1 & H); apply owns_run in H1 as [-> (m & Hm & ->)].
  apply VM_bind_inv in H as (ret & s1 & H1 & H); assert (Hk : true_list s1); [|refine ((_ : balanced _) _ _ _ H Hk); locks].
  destruct (mine m) eqn:Em; [injection H1 as _ <-; exact Hs|]; apply VM_bind_inv in H1 as (st & s2 & H2 & H1).
  pose proof (acquired_fresh _ _ _ _ _ _ Hs Hm H2) as Hf; rewrite Em, andb_true_r in Hf; destruct (is_ok st); cbn [negb] in H1; [|injection H1 as _ <-; exact Hf].
  apply VM_bind_inv in H1 as (st' & s3 & H3 & H1); pose proof (push_or_release _ _ _ _ Hf H3) as Hp; apply VM_bind_inv in H1 as ([] & s4 & H4 & [= _ <-]).
  destruct (is_ok st'); cbn [negb] in H4; [injection H4 as <-; exact Hp|exact (Hp _ _ H4)].
Qed.

Lemma b_handle_acquire mutex : balanced (handle_acquire mutex).
Proof.
  unfold handle_acquire; do 3 (apply balanced_bind; [locks|intros ?]); destruct (_ <? _); [locks|]; apply balanced_bind; [locks|intros t].
  intros s y s' H Hs; apply VM_bind_inv in H as (owned & s1 & H1 & H); apply owns_run in H1 as [-> (m & Hm & ->)].
  apply VM_bind_inv in H as (ret & s1 & H1 & H); pose proof (acquired_fresh _ _ _ _ _ _ Hs Hm H1) as Hf.
  destruct (is_ok ret) eqn:Er; cbn [negb andb] in H, Hf; [|injection H as _ <-; exact Hf]; destruct (mine m); cbn [negb] in Hf.
  { refine ((_ : balanced _) _ _ _ H Hf); locks. }
  apply VM_bind_inv in H as (st & s2 & H2 & H); pose proof (push_or_release _ _ _ _ Hf H2) as Hp; destruct (is_ok st); cbn [negb] in H.
  - refine ((_ : balanced _) _ _ _ H Hp); locks.
  - apply VM_bind_inv in H as ([] & s3 & H3 & [= _ <-]); exact (Hp _ _ H3).
Qed.
#[local] Hint Resolve b_enter_method b_handle_acquire : locks.

Lemma n_name_prefix cur : forall l c p j, no_locks (name_prefix cur l c p j).
Proof. induction cur as [|c rest IH]; intros; cbn [name_prefix]; locks; apply IH. Qed.
Lemma n_resolve_namesegs k : forall l b j c, no_locks (resolve_namesegs k l b j c).
Proof. induction k as [|k IH]; intros; cbn [resolve_namesegs]; locks; apply IH. Qed.
Lemma n_pop_items k : no_locks (pop_items k).
Proof. induction k; cbn [pop_items]; locks; exact IHk. Qed.
Lemma n_leave_blocks k b : no_locks (leave_blocks k b).
Proof. induction k; cbn [leave_blocks]; locks; exact IHk. Qed.
Lemma n_push_args l : forall i f, no_locks (push_args l i f).
Proof. induction l; intros; cbn [push_args]; locks; apply IHl. Qed.
Lemma n_uninstall_nodes l : no_locks (uninstall_nodes l).
Proof. induction l; cbn [uninstall_nodes]; locks; exact IHl. Qed.
Lemma n_unref_objects l : no_locks (unref_objects l).
Proof. induction l; cbn [unref_objects]; locks; exact IHl. Qed.
Lemma n_ref_args l k : forall i f, no_locks (ref_args l k i f).
Proof. induction k; intros; cbn [ref_args]; locks; apply IHk. Qed.
Lemma n_strnlen l : forall k, no_locks (strnlen l k).
Proof. induction l as [|c l IH]; intros [|k]; cbn [strnlen]; locks; apply IH. Qed.
Lemma n_path_prefix cur : forall l, no_locks (path_prefix cur l).
Proof. induction cur as [|c rest IH]; intros; cbn [path_prefix]; locks; apply IH. Qed.
#[local] Hint Resolve n_name_prefix n_resolve_namesegs n_pop_items n_leave_blocks n_push_args n_uninstall_nodes n_unref_objects n_ref_args n_strnlen n_path_prefix : locks.
Lemma n_fill_package k : forall i p, no_locks (fill_package k i p).
Proof. induction k as [|k IH]; intros; cbn [fill_package]; locks; apply IH. Qed.
Lemma n_pop_ops k : no_locks (pop_ops k).
Proof. induction k; cbn [pop_ops]; locks; exact IHk. Qed.
Lemma n_resolve_name_string b : no_locks (resolve_name_string b).
Proof. locks. Qed.
#[local] Hint Resolve n_fill_package n_pop_ops n_resolve_name_string : locks.
Lemma n_create_fields k : forall i t c, no_locks (create_fields k i t c).
Proof. induction k as [|k IH]; intros; cbn [create_fields]; locks; apply IH. Qed.
#[local] Hint Resolve n_create_fields : locks.

Lemma b_handlers h : balanced (op_handlers h).
Proof. destruct h; cbn [op_handlers]; locks. Qed.
#[local] Hint Resolve b_handlers : locks.

(** ** The loop *)

Lemma b_exec_parse_op p prev r : balanced (exec_parse_op op_handlers p prev r).
Proof. destruct p; cbn [exec_parse_op]; locks. Qed.
#[local] Hint Resolve b_exec_parse_op : locks.
Lemma b_exec_loop fuel : forall prev r, balanced (exec_loop op_handlers fuel prev r).
Proof. induction fuel as [|n IH]; intros; cbn [exec_loop]; locks; apply IH. Qed.
#[local] Hint Resolve b_exec_loop : locks.
Lemma b_unwind_frames depth : forall first, balanced (unwind_frames depth first).
Proof. induction depth as [|n IH]; intros; cbn [unwind_frames]; locks; apply IH. Qed.
#[local] Hint Resolve b_unwind_frames : locks.
Lemma b_execute_loop turns fuel : forall ret, balanced (execute_loop op_handlers turns fuel ret).
Proof. induction turns as [|n IH]; intros; cbn [execute_loop]; locks; apply IH. Qed.
Lemma b_release_mutexes n : balanced (release_mutexes n).
Proof. induction n as [|n IH]; cbn [release_mutexes]; locks; apply IH. Qed.
#[local] Hint Resolve b_execute_loop b_release_mutexes : locks.

(** The list is true when a call returns. *)
Lemma b_execute_in_context turns fuel scope method args out_obj : balanced (execute_in_context op_handlers turns fuel scope method args out_obj).
Proof. locks. Qed.
End Locks.
