(* ===== verification/AmlCalls.v ===== *)
(** * acpi/uacpi/interpreter.c: what is left of a call

    [uacpi_execute_control_method] gives up its context at the end.  This file shows that
    nothing is in it then: no frame is left on the stack and no mutex in the list of the
    mutexes that are held, and every kernel mutex that the call acquired is released,
    whatever the method did and whether it was aborted. *)

From S2P Require Import Prelude CMem UStdlib UCore UText FieldUnit Shareable Namespace Objects Regions AmlTables AmlOps AmlStore AmlMachine AmlHandlers AmlBlocks AmlLocks.

Open Scope word_scope.

Section Calls.
Context {V : Type} {OH : ObjectHost V} {NL : NamespaceLock (ost V)} {OBJ : Namespace.Objects (ost V)} {AH : AmlHost V} {RH : RegionHost V}
  {FH : FieldHost V} {MH : MachineHost V} {HH : HandlerHost V} {LL : LockLaws}.

Abbreviation ctx := (execution_context V).
Abbreviation M := (VM V).

(** ** What computations leave alone *)

Definition keeps {A B} (p : ctx -> B) (m : M A) : Prop := forall s a s', m s = inr (a, s') -> p s' = p s.

Lemma keeps_then {A B C} (p : ctx -> C) (m : M A) (k : A -> M B) : keeps p m -> (forall a, keeps p (k a)) -> keeps p (m ≫= k).
Proof. intros Hm Hk s b s' H; apply VM_bind_inv in H as (a & s1 & H1 & H2); rewrite (Hk a _ _ _ H2); exact (Hm _ _ _ H1). Qed.
Lemma keeps_value {A C} (p : ctx -> C) (a : A) : keeps p (mret a : M A).
Proof. intros s b s' [= _ <-]; reflexivity. Qed.
Lemma keeps_fail {A C} (p : ctx -> C) f : keeps p (fail f : M A).
Proof. intros s b s' [=]. Qed.
Lemma keeps_gets {A C} (p : ctx -> C) (g : ctx -> A) : keeps p (gets g).
Proof. intros s b s' [= _ <-]; reflexivity. Qed.
Lemma keeps_update {C} (p : ctx -> C) g : (forall s, p (g s) = p s) -> keeps p (update g).
Proof. intros H s b s' [= _ <-]; apply H. Qed.
Lemma keeps_in_env {A C} (p : ctx -> C) (c : SM (ns (ost V)) A) : (forall w s, p (set_env w s) = p s) -> keeps p (in_env c).
Proof. intros Hp s b s'; unfold in_env; destruct (c (env s)) as [[a w]|]; [|discriminate]; intros [= _ <-]; apply Hp. Qed.

Ltac keeps_step :=
  match goal with
  | |- keeps _ (mbind _ _) => apply keeps_then; [|intros ?]
  | |- keeps _ (match ?x with _ => _ end) => destruct x
  | |- keeps _ (mret _) => apply keeps_value
  | |- keeps _ (fail _) => apply keeps_fail
  | |- keeps _ (gets _) => apply keeps_gets
  | |- keeps _ (update _) => apply keeps_update; intros; reflexivity
  | |- keeps _ (in_env _) => apply keeps_in_env; intros; reflexivity
  | |- keeps _ ?m => let rec head t := lazymatch t with ?g _ => head g | _ => t end in let h := head m in unfold h
  end.
Ltac keeps := intros; repeat keeps_step.

(** ** Mutexes *)

(** A held mutex that is released by force is not held any more. *)
Lemma release_one mutex rest (s s' : ctx) ret : held_mutexes s = mutex :: rest ->
  held_mutexes_array_remove_and_release mutex FORCE_RELEASE_YES s = inr (ret, s') -> held_mutexes s' = rest.
Proof.
  intros E H; unfold held_mutexes_array_remove_and_release in H; apply VM_bind_inv in H as (l & s1 & [= <- <-] & H); rewrite E in H.
  assert (Hk : forall A (c : SM (ost V) A), keeps held_mutexes (AmlMachine.on_objects c)) by keeps.
  apply VM_bind_inv in H as (m1 & s2 & H1 & H); apply Hk in H1; apply VM_bind_inv in H as (m2 & s3 & H2 & H); apply Hk in H2.
  rewrite andb_false_r, andb_false_r in H; cbn [remove_last] in H; rewrite Z.eqb_refl in H.
  apply VM_bind_inv in H as ([] & s4 & [= <-] & H); assert (Hr : held_mutexes s' = held_mutexes (set_held rest s3)); [|exact Hr].
  refine ((_ : keeps held_mutexes _) _ _ _ H); keeps.
Qed.

Lemma release_all n : forall (s s' : ctx), (length (held_mutexes s) <= n)%nat -> release_mutexes n s = inr (tt, s') -> held_mutexes s' = [].
Proof.
  induction n as [|n IH]; intros s s' Hn H; cbn [release_mutexes] in H.
  - injection H as <-; destruct (held_mutexes s); [reflexivity|cbn in Hn; lia].
  - apply VM_bind_inv in H as (l & s1 & [= <- <-] & H); destruct (held_mutexes s) as [|mutex rest] eqn:E; [injection H as <-; exact E|].
    apply VM_bind_inv in H as (ret & s2 & H1 & H); apply (IH s2 s'); [rewrite (release_one mutex rest s s2 ret E H1); cbn in Hn; lia|exact H].
Qed.

(** ** Frames *)

(** A call that fails leaves the stack as it was, unless it is a native method that ran. *)
Definition natives_succeed : Prop := forall m args r w st w', native_handler m args r w = Some (st, w') -> is_ok st = true.

Lemma k_push_args {C} (p : ctx -> C) (Hp : forall w s, p (set_env w s) = p s) l : forall i f, keeps p (push_args l i f).
Proof. induction l; intros; cbn [push_args]; repeat (apply IHl || (apply keeps_in_env; exact Hp) || keeps_step). Qed.
Lemma k_ref_args {C} (p : ctx -> C) (Hp : forall w s, p (set_env w s) = p s) l n : forall i f, keeps p (ref_args l n i f).
Proof. induction n; intros; cbn [ref_args]; repeat (apply IHn || (apply keeps_in_env; exact Hp) || keeps_step). Qed.
Lemma k_unref_objects {C} (p : ctx -> C) (Hp : forall w s, p (set_env w s) = p s) l : keeps p (unref_objects l).
Proof. induction l; cbn [unref_objects]; repeat (apply IHl || (apply keeps_in_env; exact Hp) || keeps_step). Qed.
Lemma k_uninstall_nodes {C} (p : ctx -> C) (Hp : forall w s, p (set_env w s) = p s) l : keeps p (uninstall_nodes l).
Proof. induction l; cbn [uninstall_nodes]; repeat (apply IHl || (apply keeps_in_env; exact Hp) || keeps_step). Qed.

Ltac keeps_stack := intros; repeat (first [apply k_push_args | apply k_ref_args | apply k_unref_objects | apply k_uninstall_nodes]; [intros; reflexivity] || keeps_step).

(** The first step of a sequence, which keeps the stack. *)
Ltac peel H a s1 :=
  let H1 := fresh in
  apply VM_bind_inv in H as (a & s1 & H1 & H); eapply (fun K : keeps call_stack _ => K _ _ _) in H1; [|solve [keeps_stack]]; revert H1.

Lemma prepare_stack node m type (s s' : ctx) ret : natives_succeed -> prepare_method_call node m type s = inr (ret, s') -> is_ok ret = false -> call_stack s' = call_stack s.
Proof.
  intros Hnat H Hr; unfold prepare_method_call in H; peel H stack s1; intros E1; peel H limit s2; intros E2.
  destruct (_ <=? _); [injection H as <- <-; congruence|]; peel H ok s3; intros E3; destruct (negb ok); [injection H as <- <-; congruence|].
  assert (Herr : forall st f (t : ctx), method_dispatch_error st f t = inr (ret, s') -> call_stack t = call_stack s -> call_stack s' = call_stack s).
  { intros st f t He Et; rewrite <- Et; revert He; apply (ltac:(keeps_stack) : keeps call_stack (method_dispatch_error st f)). }
  peel H e s4; intros E4; destruct e as [st f]; destruct (negb (is_ok st)); [apply (Herr st f s4 H); congruence|].
  peel H a s5; intros E5; destruct a as [st' f']; destruct (negb (is_ok st')); [apply (Herr st' f' s5 H); congruence|].
  peel H cm s6; intros E6; apply VM_bind_inv in H as ([] & s7 & _ & H); destruct (negb (native_call cm)); [injection H as <- <-; discriminate|].
  peel H retval s8; intros E8; unfold in_env in H; destruct (native_handler _ _ _ _) as [[st2 w]|] eqn:En; [|discriminate]; injection H as <- <-.
  rewrite (Hnat _ _ _ _ _ _ En) in Hr; discriminate.
Qed.

(** The loop ends when there is no frame. *)
Lemma execute_turn_more fuel ret (s s' : ctx) st : execute_turn op_handlers fuel ret s = inr ((false, st), s') -> call_stack s' = [].
Proof.
  unfold execute_turn; intros H; apply VM_bind_inv in H as (resume & s1 & _ & H); apply VM_bind_inv in H as (ready & s2 & H2 & H).
  destruct ready as [more|st1].
  - injection H as -> _ <-; destruct resume; [discriminate|]; apply VM_bind_inv in H2 as (l & s3 & [= <- <-] & H2).
    destruct (call_stack s1) as [|f fs] eqn:E; [injection H2 as <-; exact E|]; apply VM_bind_inv in H2 as (ended & s4 & _ & H2); destruct ended; [discriminate|].
    apply VM_bind_inv in H2 as (has & s5 & _ & H2); destruct (negb has); [apply VM_bind_inv in H2 as (? & ? & _ & H2); discriminate|].
    apply VM_bind_inv in H2 as (? & ? & _ & H2); discriminate.
  - apply VM_bind_inv in H as (st2 & s3 & _ & H); apply VM_bind_inv in H as ([] & s4 & _ & H); discriminate.
Qed.
Lemma execute_loop_stack turns fuel : forall ret (s s' : ctx) st, execute_loop op_handlers turns fuel ret s = inr (st, s') -> call_stack s' = [].
Proof.
  induction turns as [|turns IH]; intros ret s s' st H; [discriminate|]; cbn [execute_loop] in H; apply VM_bind_inv in H as ([more st1] & s1 & H1 & H).
  destruct more; [exact (IH _ _ _ _ H)|]; injection H as <- <-; exact (execute_turn_more _ _ _ _ _ H1).
Qed.

Lemma k_release_mutexes n : keeps call_stack (release_mutexes n).
Proof. induction n; cbn [release_mutexes]; repeat (apply IHn || keeps_step). Qed.

(** C5.  When a call returns there is no frame on the stack, no mutex in the list of the
    context, and every native mutex that was acquired in the call, for an AML mutex or a
    serialized method, has been given to [uacpi_release_native_mutex]: also when the list
    could not grow or firmware kept the global lock.  Native methods succeed, and nobody changes the depth of a mutex that
    the thread owns while it waits for the namespace. *)
Theorem call_leaves_nothing turns fuel scope method args out_obj w x (s : ctx) : natives_succeed ->
  execute_in_context op_handlers turns fuel scope method args out_obj (zeroed_context w) = inr (x, s) ->
  call_stack s = [] /\ held_mutexes s = [] /\ taken s = [].
Proof.
  intros Hnat H; pose proof (b_execute_in_context _ _ _ _ _ _ _ _ _ H eq_refl) as Htrue; unfold execute_in_context in H; peel H ok s1; intros E1; cbn in E1; apply VM_bind_inv in H as (ret & s2 & H2 & H).
  assert (E2 : call_stack s2 = []).
  { destruct (negb ok); [injection H2 as <- <-; exact E1|]; apply VM_bind_inv in H2 as (st & s3 & H3 & H2); destruct (is_ok st) eqn:Est; cbn [negb] in H2.
    - exact (execute_loop_stack _ _ _ _ _ _ H2).
    - injection H2 as <- <-; rewrite (prepare_stack _ _ _ _ _ _ Hnat H3 Est); exact E1. }
  peel H r s3; intros E3; apply VM_bind_inv in H as ([] & s4 & H4 & [= _ <-]); unfold execution_context_release in H4.
  peel H4 r' s5; intros E5; peel H4 u s6; intros E6; apply VM_bind_inv in H4 as (l & s7 & [= <- <-] & H7).
  pose proof (release_all _ _ _ (le_n _) H7) as Hh; split_and!; [rewrite (k_release_mutexes _ _ _ _ H7); congruence|exact Hh|rewrite <- Hh; exact Htrue].
Qed.
End Calls.
