(* ===== verification/AmlFields.v ===== *)
(** * acpi/uacpi/interpreter.c: where the fields of a list lie

    [handle_create_field] goes over the list of a Field, IndexField or BankField with a
    cursor and splits the position of every field into the offset of an access unit and
    the bits before the field in it.  This file says what every entry of the list stands
    for without a cursor, shows that the loop gives the field units these places, and that
    reading such a unit through fields.c gives exactly the bits of its field. *)

From S2P Require Import Prelude CMem UStdlib UCore UText BitIO FieldUnit Shareable Namespace Objects Regions AmlTables AmlOps AmlStore AmlMachine AmlHandlers AmlBlocks.

Open Scope word_scope.

Definition width_ok (w : Z) : Prop := w = 1 \/ w = 2 \/ w = 4 \/ w = 8.

(** The widths that the access types stand for. *)
Lemma access_width_ok t w : access_width t = Some w -> width_ok w.
Proof. unfold access_width, width_ok; intros H; repeat (destruct t as [|t|t]; try discriminate; try (injection H as <-; lia)). Qed.

Lemma width_power w : width_ok w -> exists k, 0 <= k <= 3 /\ w = 2 ^ k.
Proof. intros [->|[->|[->| ->]]]; [exists 0|exists 1|exists 2|exists 3]; split; try lia; reflexivity. Qed.

(** [UACPI_ALIGN_DOWN] of an offset of 32 bits. *)
Lemma align_down w x : width_ok w -> 0 <= x < 2 ^ 32 -> Z.land x (u32 (Z.lnot (w - 1))) = x / w * w.
Proof.
  intros Hw Hx; destruct (width_power w Hw) as (k & Hk & ->); replace (2 ^ k - 1) with (Z.ones k) by (rewrite Z.ones_equiv; lia).
  unfold u32; rewrite <- Z.land_ones, (Z.land_comm (Z.lnot _)), Z.land_assoc, Z.land_ones, (Z.mod_small x) by lia.
  rewrite <- Z.ldiff_land, Z.ldiff_ones_r, Z.shiftl_mul_pow2, Z.shiftr_div_pow2 by lia; reflexivity.
Qed.

(** ** What a list stands for *)

(** The entries of a list: a field with its node, the object of its unit and the ends of its
    package length; a gap; the settings for the fields that follow. *)
Inductive list_entry :=
  | FIELD (node obj first last : Z)
  | GAP (first last : Z)
  | ACCESS (type attrib : Z)
  | EXTENDED_ACCESS (type attrib length : Z)
  | CONNECT (obj : Z).

Definition entry_length (e : list_entry) : Z := match e with FIELD _ _ a b | GAP a b => u32 (b - a) | _ => 0 end.

(** The bits before an entry, and those since the last connection. *)
Definition total (l : list list_entry) : Z := fold_right Z.add 0 (map entry_length l).
Definition pins (l : list list_entry) : Z := fold_left (fun n e => match e with FIELD _ _ _ _ | GAP _ _ => u32 (n + entry_length e) | CONNECT _ => 0 | _ => n end) l 0.

(** The settings that are in force after the entries. *)
Definition settings (c : field_cursor) (e : list_entry) : field_cursor :=
  match e with
  | ACCESS a b => set_access (u8 a) (u8 b) c
  | EXTENDED_ACCESS a b n => set_access_length (u8 n) (set_access (u8 a) (u8 b) c)
  | CONNECT o => set_connection o c
  | _ => c
  end.
Definition settings_after (raw_value : Z) (l : list list_entry) : field_cursor := fold_left settings l (initial_cursor raw_value).

(** A unit at a position in bits. *)
Definition unit_at (a : field_cursor) (pos pin w n : Z) : field_props := {|
  byte_offset := pos / (8 * w) * w;
  FieldUnit.bit_length := n;
  pin_offset := pin;
  bit_offset_within_first_byte := pos mod (8 * w);
  access_width_bytes := w;
  access_length := cur_access_length a;
  attributes := Z.land (access_attrib a) 15;
  update_rule := cur_update_rule a;
  lock_rule := cur_lock_rule a |}.

(** The unit of a field of [n] bits behind the entries [l], unless the access type is not known. *)
Definition unit_behind (raw_value : Z) (l : list list_entry) (n : Z) : option field_props :=
  w ← access_width (access_type (settings_after raw_value l));
  Some (unit_at (settings_after raw_value l) (total l) (pins l) w n).

(** The items that the decoder makes of an entry. *)
Definition imm (v : Z) : item := {| i_type := ITEM_IMMEDIATE; i_data := I_IMMEDIATE v |}.
Definition pkg (a b : Z) : item := {| i_type := ITEM_PACKAGE_LENGTH; i_data := I_PACKAGE_LENGTH a b |}.
Definition obj_item (o : Z) : item := {| i_type := ITEM_OBJECT; i_data := I_POINTER o |}.
Definition entry_items (e : list_entry) : list item :=
  match e with
  | FIELD node o a b => [{| i_type := ITEM_NAMESPACE_NODE; i_data := I_POINTER node |}; pkg a b; obj_item o]
  | GAP a b => [imm 0; pkg a b]
  | ACCESS a b => [imm 1; imm a; imm b]
  | EXTENDED_ACCESS a b n => [imm 3; imm a; imm b; imm n]
  | CONNECT o => [imm 2; obj_item o]
  end.
Definition list_items (l : list list_entry) : list item := concat (map entry_items l).

Section Fields.
Context {V : Type} {OH : ObjectHost V} {NL : NamespaceLock (ost V)} {OBJ : Namespace.Objects (ost V)} {AH : AmlHost V} {RH : RegionHost V}
  {FH : FieldHost V} {MH : MachineHost V} {HH : HandlerHost V}.

Abbreviation ctx := (execution_context V).
Abbreviation M := (VM V).

(** A field unit gets its place, refers to what it is a field of and to the connection, and
    its node, the item [i], is named and installed. *)
Definition make_unit (i : nat) (t : field_target) (g : field_props) (connection node obj : Z) : M uacpi_status :=
  field ← AmlMachine.on_objects (get_pointer obj);
  update_field_unit field (set_geometry g);;
  link_field field t;;
  update_field_unit field (set_unit_connection connection);;
  (if connection =? 0 then mret tt else ref_object connection);;
  ret ← name_object node obj;
  if negb (is_ok ret) then mret ret else do_install_node_item i.

(** The units of the fields among [rest], which come behind the entries [before] in items
    from [i] on. *)
Fixpoint make_units (raw_value : Z) (i : nat) (t : field_target) (before rest : list list_entry) : M uacpi_status :=
  match rest with
  | [] => mret UACPI_STATUS_OK
  | e :: rest' =>
      ret ← (match e with
             | FIELD node o a b =>
                 match unit_behind raw_value before (u32 (b - a)) with
                 | Some g => make_unit i t g (connection_obj (settings_after raw_value before)) node o
                 | None => _ ← AmlMachine.on_objects (get_pointer o); mret UACPI_STATUS_AML_BAD_ENCODING
                 end
             | _ => mret UACPI_STATUS_OK
             end);
      if negb (is_ok ret) then mret ret else make_units raw_value (i + length (entry_items e)) t (before ++ [e]) rest'
  end.

(** ** The items of the operator *)

Definition has_items (s : ctx) (l : list item) : Prop :=
  exists f fs o os, call_stack s = f :: fs /\ pending_ops f = o :: os /\ op_items o = l.

Lemma items_op s l : has_items s l -> exists o, cur_op_ctx s = inr (o, s) /\ op_items o = l.
Proof. intros (f & fs & o & os & E & Eo & El); exists o; split; [apply (cur_op_run s f fs o os E Eo)|exact El]. Qed.

Lemma deref_run s l i x : has_items s l -> l !! i = Some x -> deref_item (ITEM_AT i) s = inr (i_data x, s).
Proof.
  intros H Hx; destruct (items_op s l H) as (o & Ho & El); unfold deref_item, item_array_at, mbind, VM_bind; rewrite Ho, El, Hx; reflexivity.
Qed.
Lemma handle_run s l i x p : has_items s l -> l !! i = Some x -> handle_of (i_data x) = Some p -> handle_at (ITEM_AT i) s = inr (p, s).
Proof. intros H Hx Hp; unfold handle_at, mbind, VM_bind; rewrite (deref_run s l i x H Hx), Hp; reflexivity. Qed.
Lemma immediate_run s l i v : has_items s l -> l !! i = Some (imm v) -> immediate_at (ITEM_AT i) s = inr (v, s).
Proof. intros H Hx; unfold immediate_at, mbind, VM_bind; rewrite (deref_run s l i _ H Hx); reflexivity. Qed.
Lemma package_run s l i a b : has_items s l -> l !! i = Some (pkg a b) -> package_at (ITEM_AT i) s = inr ((a, b), s).
Proof. intros H Hx; unfold package_at, mbind, VM_bind; rewrite (deref_run s l i _ H Hx); reflexivity. Qed.

(** Computations that change no item but [i]. *)
Definition only_item {A} (i : nat) (m : M A) : Prop := forall s l a s', has_items s l -> m s = inr (a, s') ->
  exists l', has_items s' l' /\ forall j, j <> i -> l' !! j = l !! j.

Lemma only_bind {A B} i (m : M A) (k : A -> M B) : only_item i m -> (forall a, only_item i (k a)) -> only_item i (m ≫= k).
Proof.
  intros Hm Hk s l b s' H E; apply VM_bind_inv in E as (a & s1 & E1 & E2); destruct (Hm _ _ _ _ H E1) as (l1 & H1 & L1).
  destruct (Hk a _ _ _ _ H1 E2) as (l2 & H2 & L2); exists l2; split; [exact H2|]; intros j Hj; rewrite (L2 j Hj); exact (L1 j Hj).
Qed.
Lemma only_same {A} i (m : M A) : (forall s a s', m s = inr (a, s') -> call_stack s' = call_stack s) -> only_item i m.
Proof. intros Hm s l a s' (f & fs & o & os & E & Eo & El) H; exists l; split; [exists f, fs, o, os; rewrite (Hm _ _ _ H); auto|auto]. Qed.
Lemma only_ret {A} i (a : A) : only_item i (mret a : M A).
Proof. apply only_same; intros s b s' [= _ <-]; reflexivity. Qed.
Lemma only_fail {A} i f : only_item i (fail f : M A).
Proof. apply only_same; intros s b s' [=]. Qed.
Lemma only_gets {A} i (g : ctx -> A) : only_item i (gets g).
Proof. apply only_same; intros s b s' [= _ <-]; reflexivity. Qed.
Lemma only_in_env {A} i (c : SM (ns (ost V)) A) : only_item i (in_env c).
Proof. apply only_same; intros s b s'; unfold in_env; destruct (c (env s)) as [[a w]|]; [|discriminate]; intros [= _ <-]; reflexivity. Qed.
Lemma only_frame i g : (forall f, pending_ops (g f) = pending_ops f) -> only_item i (update_frame g).
Proof.
  intros Hg s l a s' (f & fs & o & os & E & Eo & El) H; unfold update_frame in H; rewrite E in H; injection H as _ <-.
  exists l; split; [exists (g f), fs, o, os; rewrite Hg; auto|auto].
Qed.
Lemma only_write i d : only_item i (write_item_data (ITEM_AT i) d).
Proof.
  intros s l a s' (f & fs & o & os & E & Eo & El) H; unfold write_item_data, item_array_at, write_item in H.
  apply VM_bind_inv in H as (x & s1 & H1 & H); apply VM_bind_inv in H1 as (o1 & s2 & H2 & H1); rewrite (cur_op_run s f fs o os E Eo) in H2; injection H2 as <- <-.
  destruct (op_items o !! i) as [y|] eqn:Ei; [|discriminate]; injection H1 as <- <-; apply VM_bind_inv in H as (o1 & s2 & H2 & H); rewrite (cur_op_run s f fs o os E Eo) in H2.
  injection H2 as <- <-; rewrite Ei in H; rewrite (update_op_run s f fs o os _ E Eo) in H; injection H as _ <-.
  eexists; split; [do 4 eexists; split; [reflexivity|split; reflexivity]|]; intros j Hj; cbn; rewrite El, list_lookup_insert_ne by congruence; reflexivity.
Qed.

Ltac only_step :=
  match goal with
  | |- only_item _ (mbind _ _) => apply only_bind; [|intros ?]
  | |- only_item _ (match ?x with _ => _ end) => destruct x
  | |- only_item _ (mret _) => apply only_ret
  | |- only_item _ (fail _) => apply only_fail
  | |- only_item _ (gets _) => apply only_gets
  | |- only_item _ (in_env _) => apply only_in_env
  | |- only_item _ (update_frame _) => apply only_frame; intros; reflexivity
  | |- only_item _ (write_item_data _ _) => apply only_write
  | |- only_item _ ?m => let rec head t := lazymatch t with ?g _ => head g | _ => t end in let h := head m in unfold h
  end.

Lemma only_make_unit i t g c node o : only_item i (make_unit i t g c node o).
Proof. repeat only_step. Qed.

(** ** The loop *)

(** The cursor behind the entries [l]. *)
Definition cursor_behind (raw_value : Z) (l : list list_entry) : field_cursor :=
  let a := settings_after raw_value l in {|
  access_type := access_type a; cur_lock_rule := cur_lock_rule a; cur_update_rule := cur_update_rule a; access_attrib := access_attrib a;
  cur_access_length := cur_access_length a; bit_offset := total l; cur_pin_offset := pins l; connection_obj := connection_obj a |}.

Lemma list_total_app l l' : total (l ++ l') = total l + total l'.
Proof. unfold total; induction l; cbn in *; lia. Qed.
Lemma total_one e : total [e] = entry_length e.
Proof. unfold total; cbn; lia. Qed.
Lemma total_nonneg l : 0 <= total l.
Proof. unfold total; induction l as [|e l IH]; cbn; [lia|]; assert (0 <= entry_length e); [|lia]; destruct e; cbn; try lia; apply Z.mod_pos_bound; lia. Qed.

Lemma cursor_next raw_value l e : total (l ++ [e]) < 2 ^ 35 ->
  cursor_behind raw_value (l ++ [e]) = match e with FIELD _ _ a b | GAP a b => move (u32 (b - a)) (cursor_behind raw_value l) | _ => settings (cursor_behind raw_value l) e end.
Proof.
  intros Ht; pose proof (total_nonneg (l ++ [e])); rewrite list_total_app, total_one in *; unfold cursor_behind; rewrite list_total_app, total_one; unfold settings_after, pins; rewrite !fold_left_app; cbn [fold_left].
  destruct e; cbn [entry_length settings] in *; rewrite ?Z.add_0_r; try reflexivity; unfold move; cbn; f_equal; symmetry; apply Z.mod_small; lia.
Qed.

Lemma unit_members raw_value l w n : width_ok w -> total l < 2 ^ 35 ->
  field_members (cursor_behind raw_value l) w n = unit_at (settings_after raw_value l) (total l) (pins l) w n.
Proof.
  intros Hw Ht; pose proof (total_nonneg l); unfold field_members, unit_at, cursor_behind; cbn; f_equal.
  - rewrite align_down; [|exact Hw|split; [apply Z.div_pos; lia|apply Z.div_lt_upper_bound; lia]]; rewrite Z.div_div by (destruct Hw as [->|[->|[->| ->]]]; lia); reflexivity.
  - destruct (width_power w Hw) as (k & Hk & ->); replace (2 ^ k * 8 - 1) with (Z.ones (3 + k)) by (rewrite Z.ones_equiv, Z.pow_add_r by lia; lia).
    rewrite Z.land_ones, Z.pow_add_r by lia; replace (2 ^ 3 * 2 ^ k) with (8 * 2 ^ k) by lia; unfold u8; apply Z.mod_small.
    pose proof (Z.mod_pos_bound (total l) (8 * 2 ^ k)); pose proof (Z.pow_le_mono_r 2 k 3); pose proof (Z.pow_pos_nonneg 2 k); lia.
Qed.

Lemma create_field_unit_run raw_value i t l (s : ctx) items_ node o a b (k : field_cursor -> M uacpi_status) :
  has_items s items_ -> items_ !! i = Some {| i_type := ITEM_NAMESPACE_NODE; i_data := I_POINTER node |} ->
  items_ !! (i + 1)%nat = Some (pkg a b) -> items_ !! (i + 2)%nat = Some (obj_item o) -> total l < 2 ^ 35 ->
  (r ← create_field_unit i t (cursor_behind raw_value l); if negb (is_ok (fst r)) then mret (fst r) else k (snd r)) s =
  (ret ← (match unit_behind raw_value l (u32 (b - a)) with
          | Some g => make_unit i t g (connection_obj (settings_after raw_value l)) node o
          | None => _ ← AmlMachine.on_objects (get_pointer o); mret UACPI_STATUS_AML_BAD_ENCODING
          end);
   if negb (is_ok ret) then mret ret else k (move (u32 (b - a)) (cursor_behind raw_value l))) s.
Proof.
  intros H H0 H1 H2 Ht; unfold create_field_unit, unit_behind; unfold mbind, VM_bind.
  rewrite (package_run s items_ _ a b H H1), (handle_run s items_ i _ node H H0 eq_refl), (handle_run s items_ _ _ o H H2 eq_refl).
  unfold get_field_length; cbn [fst snd]; change (access_type (cursor_behind raw_value l)) with (access_type (settings_after raw_value l)).
  destruct (access_width _) as [w|] eqn:Ew; cbn [option_bind].
  - rewrite unit_members by (first [exact Ht | exact (access_width_ok _ _ Ew)]); unfold make_unit; change (connection_obj (cursor_behind raw_value l)) with (connection_obj (settings_after raw_value l)).
    unfold mbind, VM_bind; do 5 (match goal with |- context [match ?m ?s with inl _ => _ | inr _ => _ end] => destruct (m s) as [|[? ?]]; [reflexivity|] end).
    destruct (name_object node o _) as [|[ret s1]]; [reflexivity|]; destruct (is_ok ret) eqn:Er; cbn [negb].
    + destruct (do_install_node_item i s1) as [|[ret' s2]]; reflexivity.
    + unfold mret, VM_ret; cbn [fst]; rewrite Er; reflexivity.
  - destruct (AmlMachine.on_objects _ _) as [|[? ?]]; reflexivity.
Qed.

Lemma lookup_behind {A} (l r : list A) i j x : drop i l = r -> r !! j = Some x -> l !! (i + j)%nat = Some x.
Proof. intros <-; rewrite lookup_drop; exact (fun H => H). Qed.
Lemma drop_behind {A} (l l' r : list A) i n a : drop i l = a ++ r -> length a = n -> (0 < n)%nat -> (forall j, j <> i -> l' !! j = l !! j) -> drop (i + n) l' = r.
Proof.
  intros E <- Hn H; rewrite <- (drop_app_length a r), <- E, drop_drop; apply list_eq; intros j; rewrite !lookup_drop; apply H; lia.
Qed.

(** The loop makes the units of the list. *)
Lemma create_fields_run raw_value t rest : forall fuel i before (s : ctx) l, has_items s l -> drop i l = list_items rest -> (length rest <= fuel)%nat ->
  total (before ++ rest) < 2 ^ 35 -> create_fields fuel i t (cursor_behind raw_value before) s = make_units raw_value i t before rest s.
Proof.
  induction rest as [|e rest IH]; intros fuel i before s l H E Hf Ht.
  - destruct fuel as [|fuel]; [reflexivity|]; cbn [create_fields make_units]; destruct (items_op s l H) as (o & Ho & El); unfold mbind, VM_bind; rewrite Ho, El.
    assert (Hi : l !! i = None) by (apply lookup_ge_None; apply (f_equal length) in E; rewrite length_drop in E; cbn in E; lia); rewrite Hi; reflexivity.
  - destruct fuel as [|fuel]; [cbn in Hf; lia|]; change (before ++ e :: rest) with (before ++ [e] ++ rest) in Ht; rewrite app_assoc in Ht.
    assert (Hb : total before < 2 ^ 35 /\ total (before ++ [e]) < 2 ^ 35)
      by (pose proof (total_nonneg rest); pose proof (total_nonneg [e]); rewrite !list_total_app in *; lia); destruct Hb as [Hb Hb'].
    assert (Hat : forall j x, entry_items e !! j = Some x -> l !! (i + j)%nat = Some x).
    { intros j x Hj; apply (lookup_behind _ _ _ _ _ E); unfold list_items; cbn [map concat]; apply lookup_app_l_Some, Hj. }
    assert (Hnext : forall s' l', has_items s' l' -> (forall j, j <> i -> l' !! j = l !! j) -> forall n, n = length (entry_items e) ->
      create_fields fuel (i + n) t (cursor_behind raw_value (before ++ [e])) s' = make_units raw_value (i + n) t (before ++ [e]) rest s').
    { intros s' l' H' L n ->; apply (IH _ _ _ s' l' H'); [|cbn in Hf; lia|exact Ht].
      apply (drop_behind l l' _ i _ (entry_items e) E eq_refl); [destruct e; cbn; lia|exact L]. }
    assert (Hskip : forall c n, c = cursor_behind raw_value (before ++ [e]) -> n = length (entry_items e) ->
      create_fields fuel (i + n) t c s = make_units raw_value (i + n) t (before ++ [e]) rest s) by (intros c n -> Hn; exact (Hnext s l H (fun j _ => eq_refl) n Hn)).
    cbn [create_fields make_units]; destruct (items_op s l H) as (o & Ho & El); unfold mbind at 1, VM_bind at 1; rewrite Ho, El.
    pose proof (Hat 0%nat) as H0; rewrite Nat.add_0_r in H0.
    destruct e as [node obj a b|a b|a b|a b n|c]; rewrite (H0 _ eq_refl); cbn [i_type imm].
    + rewrite (create_field_unit_run raw_value i t before s l node obj a b _ H (H0 _ eq_refl) (Hat 1%nat _ eq_refl) (Hat 2%nat _ eq_refl) Hb).
      set (X := match unit_behind raw_value before (u32 (b - a)) with Some _ => _ | None => _ end); unfold mbind, VM_bind; destruct (X s) as [|[ret s']] eqn:EX; [reflexivity|].
      destruct (is_ok ret) eqn:Er; cbn [negb]; [|reflexivity]; rewrite <- (cursor_next raw_value before (FIELD node obj a b) Hb'); unfold X in EX.
      destruct (unit_behind raw_value before (u32 (b - a))) as [g|].
      * destruct (only_make_unit _ _ _ _ _ _ _ _ _ _ H EX) as (l' & H' & L); exact (Hnext s' l' H' L 3%nat eq_refl).
      * unfold mbind, VM_bind in EX; destruct (AmlMachine.on_objects _ _) as [|[? ?]]; [discriminate|]; injection EX as <- _; discriminate.
    + unfold field_directive, mbind, VM_bind; rewrite (immediate_run s l i _ H (H0 _ eq_refl)), (package_run s l _ a b H (Hat 1%nat _ eq_refl)).
      exact (Hskip _ 2%nat (eq_sym (cursor_next raw_value before _ Hb')) eq_refl).
    + unfold field_directive, mbind, VM_bind; rewrite (immediate_run s l i _ H (H0 _ eq_refl)), (immediate_run s l _ _ H (Hat 1%nat _ eq_refl)), (immediate_run s l _ _ H (Hat 2%nat _ eq_refl)).
      exact (Hskip _ 3%nat (eq_sym (cursor_next raw_value before _ Hb')) eq_refl).
    + unfold field_directive, mbind, VM_bind; rewrite (immediate_run s l i _ H (H0 _ eq_refl)), (immediate_run s l _ _ H (Hat 1%nat _ eq_refl)), (immediate_run s l _ _ H (Hat 2%nat _ eq_refl)), (immediate_run s l _ _ H (Hat 3%nat _ eq_refl)).
      exact (Hskip _ 4%nat (eq_sym (cursor_next raw_value before _ Hb')) eq_refl).
    + unfold field_directive, mbind, VM_bind; rewrite (immediate_run s l i _ H (H0 _ eq_refl)), (handle_run s l _ _ c H (Hat 1%nat _ eq_refl) eq_refl).
      exact (Hskip _ 2%nat (eq_sym (cursor_next raw_value before _ Hb')) eq_refl).
Qed.

(** Behind the operands the number of items depends on the instruction. *)
Definition operands (code : Z) : nat := if code =? 0x5b81 then 2 else if code =? 0x5b87 then 4 else 3.

Lemma field_data_world c : world_only (field_data c).
Proof.
  unfold field_data, ensure_is_an_op_region, ensure_is_a_field_unit, ensure_is, object_integer, object_type_at, handle_at, deref_item, item_array_at, cur_op_ctx, cur_frame, AmlMachine.on_objects, of_option.
  repeat match goal with
  | |- world_only (mbind _ _) => apply world_bind; [|intros ?]
  | |- world_only (match ?x with _ => _ end) => destruct x
  | |- world_only (mret _) => apply world_ret
  | |- world_only (fail _) => apply world_fail
  | |- world_only (gets _) => apply world_gets
  | |- world_only (in_env _) => apply world_in_env
  end.
Qed.

Lemma field_data_next c (s s' : ctx) t i : field_data c s = inr (inr (t, i), s') -> i = operands c.
Proof.
  unfold field_data, operands; intros H; destruct (c =? 0x5b81); [|destruct (c =? 0x5b87); [|destruct (c =? 0x5b86); [|discriminate]]];
    repeat match type of H with (mbind _ _) _ = _ => apply VM_bind_inv in H as (? & ? & _ & H) | (match ?x with inl _ => _ | inr _ => _ end) _ = _ => destruct x; [discriminate|] end;
    injection H as _ <- _; reflexivity.
Qed.

Lemma list_items_long l : (length l <= length (list_items l))%nat.
Proof. unfold list_items; induction l as [|e l IH]; cbn; [lia|]; rewrite length_app; destruct e; cbn; lia. Qed.

(** [handle_create_field] makes the units of its list. *)
Lemma create_field_run (s : ctx) f fs o os operands_ raw_value entries : call_stack s = f :: fs -> pending_ops f = o :: os ->
  op_items o = operands_ ++ imm raw_value :: list_items entries -> length operands_ = operands (spec_code (op_spec o)) -> total entries < 2 ^ 35 ->
  handle_create_field s = (d ← field_data (spec_code (op_spec o));
    match d with inl ret => mret ret | inr (t, i) => make_units (u8 raw_value) (i + 1) t [] entries end) s.
Proof.
  intros E Eo El Hn Ht; unfold handle_create_field, mbind, VM_bind; rewrite (cur_op_run s f fs o os E Eo); destruct (field_data _ s) as [|[[ret|[t i]] s1]] eqn:Ed; [reflexivity..|].
  pose proof (field_data_next _ _ _ _ _ Ed) as ->; apply field_data_world in Ed; assert (H : has_items s1 (op_items o)) by (exists f, fs, o, os; rewrite Ed; auto).
  assert (Hr : op_items o !! operands (spec_code (op_spec o)) = Some (imm raw_value)) by (rewrite El, <- Hn; apply list_lookup_middle; reflexivity).
  rewrite (immediate_run s1 _ _ _ H Hr); apply (create_fields_run (u8 raw_value) t entries _ _ [] s1 _ H); [| |exact Ht].
  - rewrite El, <- Hn, (cons_middle (imm raw_value)), app_assoc; apply drop_app_length'; rewrite length_app; cbn; lia.
  - rewrite El, length_app; cbn [length]; pose proof (list_items_long entries); lia.
Qed.
End Fields.

(** ** Reading *)

Lemma unit_place a pos pin w n : width_ok w -> 0 <= pos ->
  field_bit (unit_at a pos pin w n) = pos /\ 0 <= byte_offset (unit_at a pos pin w n) /\ 0 <= bit_offset_within_first_byte (unit_at a pos pin w n) < 8 * w.
Proof.
  intros Hw Hp; unfold field_bit, unit_at; cbn; assert (H8 : 0 < 8 * w) by (destruct Hw as [->|[->|[->| ->]]]; lia).
  pose proof (Z.div_mod pos (8 * w)); pose proof (Z.mod_pos_bound pos (8 * w) H8); pose proof (Z.div_pos pos (8 * w)); split; [|split]; [nia|nia|lia].
Qed.

(** A field that ends inside of a region whose length is a multiple of the access width. *)
Lemma unit_fits a pos pin w n limit : width_ok w -> 0 <= pos -> 0 < n < 2 ^ 31 -> pos + n <= 8 * limit -> limit mod w = 0 -> limit < 2 ^ 32 ->
  field_fits (unit_at a pos pin w n) limit.
Proof.
  intros Hw Hc Hn Hl Hm H32; destruct (unit_place a pos pin w n Hw Hc) as (Hp & H0 & Hb); unfold field_bit in Hp.
  set (p := unit_at a pos pin w n) in *; assert (Hlen : FieldUnit.bit_length p = n) by reflexivity; assert (Hwid : access_width_bytes p = w) by reflexivity.
  split; rewrite ?Hwid, ?Hlen; try lia; [destruct Hw as [->|[->|[->| ->]]]; lia|].
  unfold units; rewrite Hwid, Hlen; assert (Hq : exists q, limit = w * q) by (exists (limit / w); apply Z.div_exact; [destruct Hw as [->|[->|[->| ->]]]; lia|exact Hm]).
  destruct Hq as [q Hq]; assert (Ha : byte_offset p = pos / (8 * w) * w) by reflexivity.
  assert (Hu : (bit_offset_within_first_byte p + n + (8 * w - 1)) / (8 * w) <= q - pos / (8 * w)); [|nia].
  apply Z.lt_succ_r, Z.div_lt_upper_bound; destruct Hw as [->|[->|[->| ->]]]; nia.
Qed.

Section Reading.
Context {W : Type} {RIO : RegionIO W}.

(** Reading the unit of a field behind the entries [l] of a list gives the field's bits. *)
Definition unit_reads (raw_value : Z) (l : list list_entry) (n : Z) : Prop := forall g region content limit space sp dst (size : nat) b m (w : W),
  unit_behind raw_value l n = Some g -> total l + n <= 8 * limit -> limit mod access_width_bytes g = 0 -> limit < 2 ^ 32 ->
  memory_like (FieldNormal g region) content limit -> region_space region w = Some space -> plain_space space = true ->
  bytes_ok m -> owned m sp 8 -> Z.of_nat size < 2 ^ 60 -> owned m dst (Z.of_nat size) -> apart dst (Z.of_nat size) sp 8 ->
  exists m' w' v, uacpi_read_field_unit (FieldNormal g region) sp dst (Z.of_nat size) b (m, w) = Some ((UACPI_STATUS_OK, None), (m', w')) /\
    load_le m' dst size = Some v /\
    forall i, 0 <= i -> Z.testbit v i = (i <? Z.min n (8 * Z.of_nat size)) && content w (total l + i).

Lemma unit_behind_reads raw_value l n : 0 < n < 2 ^ 31 -> unit_reads raw_value l n.
Proof.
  intros Hn g region content limit space sp dst size b m w Hg Hl Hm H32 ml Hsp Hpl Hok Ho Hsz Hd Ha.
  unfold unit_behind in Hg; destruct (access_width _) as [wd|] eqn:Ew; [|discriminate]; injection Hg as <-; apply access_width_ok in Ew; pose proof (total_nonneg l) as Hp.
  set (p := unit_at _ _ _ wd n) in *; assert (Hf : field_fits p limit) by (apply unit_fits; auto; lia); destruct (unit_place (settings_after raw_value l) (total l) (pins l) wd n Ew Hp) as (Eb & _).
  destruct (read_field_unit_bits p region content limit ml Ew sp dst (Z.of_nat size) b m w space) as (m' & w' & Er & _ & D & K & R); auto; [lia|].
  destruct (read_into_value content m m' w sp dst size _ _ R) as (v & Ev & _ & Hv); auto; [rewrite <- D; exact Hd|].
  exists m', w', v; split; [exact Er|]; split; [exact Ev|]; intros i Hi; rewrite (Hv i Hi); fold p in Eb; rewrite Eb; reflexivity.
Qed.

Context {V : Type} {OH : ObjectHost V} {NL : NamespaceLock (ost V)} {OBJ : Namespace.Objects (ost V)} {AH : AmlHost V} {RH : RegionHost V}
  {FH : FieldHost V} {MH : MachineHost V} {HH : HandlerHost V}.

(** C37.  Field, BankField and IndexField put the fields of their list behind each other: a
    field lies behind the bits of all the fields and gaps before it, with the access type,
    the attributes and the connection of the entries before it.  In a region of memory
    whose length is a multiple of the access width, reading a unit at such a place gives
    the field's bits and nothing else.  The list has less than 2^35 bits, a field between 1
    and 2^31 - 1. *)
Theorem field_list_reads (s : execution_context V) f fs o os operands_ raw_value entries : call_stack s = f :: fs -> pending_ops f = o :: os ->
  op_items o = operands_ ++ imm raw_value :: list_items entries -> length operands_ = operands (spec_code (op_spec o)) -> total entries < 2 ^ 35 ->
  handle_create_field s = (d ← field_data (spec_code (op_spec o));
    match d with inl ret => mret ret | inr (t, i) => make_units (u8 raw_value) (i + 1) t [] entries end) s /\
  forall before node obj a b after, entries = before ++ FIELD node obj a b :: after -> 0 < u32 (b - a) < 2 ^ 31 -> unit_reads (u8 raw_value) before (u32 (b - a)).
Proof.
  intros E Eo El Hn Ht; split; [exact (create_field_run s f fs o os operands_ raw_value entries E Eo El Hn Ht)|].
  intros before node obj a b after _ Hl; apply unit_behind_reads, Hl.
Qed.
End Reading.
