(* ===== verification/AmlRun.v ===== *)
(** * acpi/uacpi/interpreter.c: AML code on a concrete machine

    A machine with memory and a clock that runs methods from their bytes: loops, branches,
    calls, names, packages and fields; the theorems on the interpreter applied to it, and
    runs that show where the code goes wrong. *)

From S2P Require Import Prelude CMem UStdlib UCore UText FieldUnit Shareable Namespace Objects Regions AmlTables AmlOps AmlSpec AmlStore AmlMachine AmlHandlers AmlDecode AmlBlocks AmlEncode AmlLocks AmlCalls AmlFields.

Open Scope word_scope.

Module Demo.

(** The next address, the clock, the settings, whether there is memory for nodes and
    whether a table in memory is mapped. *)
Record world := { fresh : Z; now : Z; timeout : Z; depth_limit : Z; has_memory : bool; mapped : bool }.

Definition take_address (w : world) : world :=
  {| fresh := fresh w + 16; now := now w; timeout := timeout w; depth_limit := depth_limit w; has_memory := has_memory w; mapped := mapped w |}.
Definition pass (n : Z) (w : world) : world :=
  {| fresh := fresh w; now := now w + n; timeout := timeout w; depth_limit := depth_limit w; has_memory := has_memory w; mapped := mapped w |}.

Definition set_mapped (b : bool) (w : world) : world :=
  {| fresh := fresh w; now := now w; timeout := timeout w; depth_limit := depth_limit w; has_memory := has_memory w; mapped := b |}.

(** A table whose code is Name(AAAA, 7), in memory that is there for good, and copies in
    memory that has to be mapped: one as it is and one that is refused. *)
Definition A4 : list Z := [65; 65; 65; 65].
Definition table (revision : Z) : list Z := [83; 83; 68; 84; 43; 0; 0; 0; revision] ++ replicate 27 0 ++ [0x08] ++ A4 ++ [0x0a; 7].
Definition TABLE_AT : Z := 0x8000.
Definition COPY_AT : Z := 0x9000.
Definition REFUSED_AT : Z := 0xa000.

Definition bytes_in (l : list Z) (first n : Z) : option (list Z) :=
  if (0 <=? first) && (first + n <=? Z.of_nat (length l)) then Some (take (Z.to_nat n) (drop (Z.to_nat first) l)) else None.

Definition give_address {W} (get : W -> world) (put : world -> W -> W) : SM W Z := fun s => Some (fresh (get s), put (take_address (get s)) s).

#[export] Instance machine : ObjectHost world := {|
  alloc_struct := fun _ => give_address oworld set_oworld;
  alloc_bytes := fun n => mret (Some (replicate (Z.to_nat n) 0xcc));
  create_mutex := mret 1;
  release_mutex := fun _ => mret tt;
  create_event := mret 1;
  release_event := fun _ => mret tt;
  table_unref := fun _ => mret tt;
  node_unref := fun _ => mret tt;
  aml_bitness := mret (UACPI_STATUS_OK, 64);
  resolve_namepath := fun _ _ => mret (UACPI_STATUS_NOT_FOUND, 0) |}.

#[export] Instance lock : NamespaceLock (ost world) := {|
  uacpi_namespace_lock_init := mret UACPI_STATUS_OK;
  uacpi_namespace_lock_deinit := mret UACPI_STATUS_OK;
  uacpi_namespace_read_lock := mret UACPI_STATUS_OK;
  uacpi_namespace_read_unlock := mret UACPI_STATUS_OK;
  uacpi_namespace_write_lock := mret UACPI_STATUS_OK;
  uacpi_namespace_write_unlock := mret UACPI_STATUS_OK |}.

Definition root_at : Z := 0x100.

#[export] Instance objects : Namespace.Objects (ost world) := {|
  Namespace.init_level := fun _ => 2;
  flag_no_osi := fun _ => false;
  kernel_alloc_node := fun s =>
    if has_memory (oworld (Namespace.world s)) then give_address (fun s => oworld (Namespace.world s)) (fun w s => with_world (set_oworld w (Namespace.world s)) s) s
    else Some (0, s);
  kernel_alloc := fun _ => mret 0;
  kernel_alloc_path := fun _ => mret None;
  uacpi_memcpy_text := fun _ _ => mret tt;
  Namespace.uacpi_unwrap_internal_reference := Objects.uacpi_unwrap_internal_reference;
  Namespace.object_type := fun o => t ← Objects.uacpi_object_get_type o; mret (type_value t);
  Namespace.uacpi_create_object := fun _ => mret 0;
  Namespace.uacpi_create_internal_reference := fun _ _ => mret 0;
  Namespace.uacpi_object_ref := Objects.uacpi_object_ref;
  Namespace.uacpi_object_unref := fun o => Namespace.in_world (Objects.uacpi_object_unref o);
  object_set_text := fun _ _ => mret tt;
  object_set_size := fun _ _ => mret tt;
  object_set_integer := fun _ _ => mret tt;
  object_set_native_method := fun _ _ => mret tt;
  object_mutex := fun _ => mret 0;
  Namespace.uacpi_mutex_ref := fun _ => mret tt;
  Namespace.uacpi_mutex_unref := fun _ => mret tt;
  root_object := mret root_at;
  set_root_object := fun _ => mret tt;
  global_lock_mutex_ptr := mret 0;
  set_global_lock_mutex := fun _ => mret tt;
  Namespace.uacpi_opregion_uninstall_handler := fun _ => mret tt |}.

(** The clock goes on by a millisecond whenever it is looked at. *)
#[export] Instance clock : AmlHost world := {|
  rev1 := fun _ => false;
  nanoseconds_since_boot := fun w => Some (now w, pass 1000000 w);
  kernel_sleep := fun n w => Some (tt, pass (n * 1000000) w);
  kernel_stall := fun n w => Some (tt, pass (n * 1000) w) |}.

#[export] Instance regions_host : RegionHost world := {|
  opregion_lock_init := mret UACPI_STATUS_OK;
  opregion_lock_deinit := mret tt;
  opregion_lock_acquire := mret UACPI_STATUS_OK;
  opregion_lock_release := mret tt;
  notify_region_handler := fun _ _ => mret (UACPI_STATUS_NO_HANDLER, 0);
  call_region_handler := fun _ _ _ _ => mret (UACPI_STATUS_NO_HANDLER, 0);
  uacpi_execute_control_method := fun _ _ _ => mret UACPI_STATUS_NOT_FOUND;
  alloc_internal_buffer := fun _ => mret 0 |}.

#[export] Instance fields : FieldHost world := {|
  write_buffer_field := fun _ _ => mret tt;
  read_buffer_field := fun _ => mret 0;
  write_field_unit := fun _ _ => mret (UACPI_STATUS_NO_HANDLER, None);
  read_field_unit := fun _ _ => mret (UACPI_STATUS_NO_HANDLER, 0);
  AmlStore.uacpi_field_unit_get_read_type := fun _ => mret (UACPI_STATUS_OK, OBJECT_INTEGER) |}.

#[export] Instance runtime : MachineHost world := {|
  grow_array := mret true;
  alloc_context := mret true;
  loop_timeout_seconds := timeout;
  max_call_stack_depth := depth_limit;
  kernel_thread_id := 1;
  kernel_acquire_mutex := fun _ _ => mret UACPI_STATUS_OK;
  kernel_release_mutex := fun _ => mret tt;
  global_lock_handle := fun _ => 2;
  acquire_global_lock_from_firmware := mret UACPI_STATUS_OK;
  release_global_lock_to_firmware := mret tt;
  native_handler := fun _ _ _ => mret UACPI_STATUS_OK |}.

#[export] Instance others : HandlerHost world := {|
  kernel_signal_event := fun _ => mret tt;
  kernel_reset_event := fun _ => mret tt;
  kernel_wait_for_event := fun _ _ => mret true;
  kernel_handle_firmware_request := fun _ => mret tt;
  uacpi_notify_all := fun _ _ => mret UACPI_STATUS_NO_HANDLER;
  read_field_unit_bytes := fun _ n => mret (UACPI_STATUS_NO_HANDLER, replicate (Z.to_nat n) 0, None);
  field_unit_bit_length := fun _ => mret (UACPI_STATUS_OK, 8);
  handle_osi := fun _ => mret (UACPI_STATUS_OK, true);
  table_find := fun _ _ _ => mret (inl UACPI_STATUS_NOT_FOUND);
  table_mark_as_loaded := fun _ => mret UACPI_STATUS_OK;
  table_install := fun l => mret (if bool_decide (l !! 8%nat = Some 2) then (UACPI_STATUS_OK, TABLE_AT, 1) else (UACPI_STATUS_DENIED, 0, 0));
  events_match_post_dynamic_table_load := mret tt;
  kernel_map := fun p _ w => Some (p, set_mapped true w);
  kernel_unmap := fun _ _ w => Some (tt, set_mapped false w);
  virtual_bytes := fun p n w =>
    l ← (if p <? COPY_AT then bytes_in (table 2) (p - TABLE_AT) n else
         if negb (mapped w) then None else if p <? REFUSED_AT then bytes_in (table 2) (p - COPY_AT) n else bytes_in (table 0) (p - REFUSED_AT) n);
    Some (l, w) |}.

(** ** Methods *)

Definition method_of (l : list Z) (args : Z) (serialized table : bool) : control_method := {|
  code := l; m_mutex := 0; m_sync_level := 0; m_args := args; is_serialized := serialized; named_objects_persist := table; native_call := false;
  owns_code := false |}.

Definition object_at (t : uacpi_object_type) (p : Z) : Z * cell := (1, C_OBJECT {| o_type := t; o_flags := 0; o_data := D_POINTER p |}).
Definition device : Z * cell := (1, C_HANDLERS {| address_space_head := 0; notify_head := 0; p_id := 0; p_block_address := 0; p_block_length := 0 |}).

Definition node_at (nm : list Z) (obj par c k : Z) : namespace_node := {|
  shareable_count := 1; name := nm; Namespace.flags := 0; Namespace.object := obj; parent := par; child := c; Namespace.next := k |}.

(** [\] with the method [TWIC] of one argument, whose code is given too. *)
Definition MAIN : Z := 0x300.
Definition start (memory : bool) (main callee : control_method) : ns (ost world) := {|
  nodes := {[ predefined ROOT := node_at [92; 0; 0; 0] root_at 0 0x500 0; 0x500 := node_at [84; 87; 73; 67] 0x200 (predefined ROOT) 0 0 ]};
  Namespace.world := {|
    cells := {[ root_at := object_at OBJECT_DEVICE 0x110; 0x110 := device;
                0x200 := object_at OBJECT_METHOD 0x210; 0x210 := (1, C_METHOD callee);
                MAIN := (1, C_METHOD main) ]};
    notifies := ∅; oworld := {| fresh := 0x10000; now := 0; timeout := 30; depth_limit := 16; has_memory := memory; mapped := false |} |} |}.

(** Return(Arg0 + Arg0) *)
Definition TWIC : control_method := method_of [0xa4; 0x72; 0x68; 0x68; 0x00] 1 false false.

(** The integer that the method returns. *)
Definition result (s : ns (ost world)) (r : Z) : option Z :=
  match cells (Namespace.world s) !! r with Some (_, C_OBJECT o) => integer_of (o_data o) | _ => None end.

Definition run (turns : nat) (s : ns (ost world)) : fault + uacpi_status * option Z :=
  match execute_in_context op_handlers turns 100 (predefined ROOT) MAIN None true (zeroed_context s) with
  | inr ((ret, r), s) => inr (ret, if r =? 0 then None else result (env s) r)
  | inl f => inl f
  end.
Definition run_code (turns : nat) (l : list Z) : fault + uacpi_status * option Z := run turns (start true (method_of l 0 false false) TWIC).

(** ** Runs *)

(** Local0 = 5; Local1 = 0; While (Local0) { Local1 += Local0; Local0-- }; Return (Local1) *)
Definition SUM : list Z := [0x70; 0x0a; 5; 0x60; 0x70; 0; 0x61; 0xa2; 8; 0x60; 0x72; 0x60; 0x61; 0x61; 0x76; 0x60; 0xa4; 0x61].
Example sum_of_five : run_code 200 SUM = inr (UACPI_STATUS_OK, Some 15).
Proof. vm_compute; reflexivity. Qed.

(** Return (TWIC (5)) *)
Definition CALL : list Z := [0xa4; 84; 87; 73; 67; 0x0a; 5].
Example twice_five : run_code 200 CALL = inr (UACPI_STATUS_OK, Some 10).
Proof. vm_compute; reflexivity. Qed.

(** If (c) { Return (1) } Else { Return (2) } *)
Definition IF_ELSE (c : Z) : list Z := [0xa0; 4; c; 0xa4; 1; 0xa1; 4; 0xa4; 0x0a; 2].
Example if_else : run_code 200 (IF_ELSE 0) = inr (UACPI_STATUS_OK, Some 2) /\ run_code 200 (IF_ELSE 1) = inr (UACPI_STATUS_OK, Some 1).
Proof. split; vm_compute; reflexivity. Qed.

(** While (1) { If (1) { Break } }; Return (5) *)
Example break_out : run_code 200 [0xa2; 6; 1; 0xa0; 3; 1; 0xa5; 0xa4; 0x0a; 5] = inr (UACPI_STATUS_OK, Some 5).
Proof. vm_compute; reflexivity. Qed.

(** Local0 = Package { 7, AAAA }; Return (DerefOf (Local0 [0])) *)
Example package_element : run_code 200 ([0x70; 0x12; 8; 2; 0x0a; 7] ++ A4 ++ [0x60; 0xa4; 0x83; 0x88; 0x60; 0; 0]) = inr (UACPI_STATUS_OK, Some 7).
Proof. vm_compute; reflexivity. Qed.

(** Return (ToInteger ("42")) *)
Example integer_of_text : run_code 200 [0xa4; 0x99; 0x0d; 0x34; 0x32; 0; 0] = inr (UACPI_STATUS_OK, Some 42).
Proof. vm_compute; reflexivity. Qed.

(** A method that calls itself. *)
Example endless_recursion : run 400 (start true (method_of [84; 87; 73; 67; 0] 0 false false) (method_of [84; 87; 73; 67; 0] 1 false false)) =
  inr (UACPI_STATUS_AML_CALL_STACK_DEPTH_LIMIT, None).
Proof. vm_compute; reflexivity. Qed.

(** OperationRegion (RRRR, SystemMemory, page << 8, 0x40); Load (RRRR, Local0) *)
Definition LOAD (page : Z) : list Z := [0x5b; 0x80; 82; 82; 82; 82; 0; 0x0b; 0; page; 0x0a; 0x40; 0x5b; 0x20; 82; 82; 82; 82; 0x60].
(** The table's code has run: its name is there. *)
Example load_then_name : run_code 300 (LOAD 0x90 ++ 0xa4 :: A4) = inr (UACPI_STATUS_OK, Some 7).
Proof. vm_compute; reflexivity. Qed.

(** The table of the boot: its name stays, and the method that ran it is gone. *)
Example table_executed :
  match uacpi_execute_table 300 100 0x4000 TABLE_AT TABLE_LOAD_CAUSE_INIT (start true TWIC TWIC) with
  | Some (ret, s) => ret = UACPI_STATUS_OK /\ name <$> nodes s !! 0x10000 = Some A4 /\ cells (Namespace.world s) !! 0x4000 = None
  | None => False
  end.
Proof. vm_compute; repeat split. Qed.

(** ** Where the code goes wrong *)

(** If with a package that is longer than the method and a predicate that is false: the
    code goes on behind the end of the method. *)
Theorem if_skips_past_the_method : run_code 200 [0xa0; 0x0a; 0] = inl F_CODE.
Proof. vm_compute; reflexivity. Qed.

(** The same name twice in a method: the error leaves a null node that is dereferenced. *)
Theorem name_twice_dereferences_null : run_code 200 ([0x08] ++ A4 ++ [0x0a; 7] ++ [0x08] ++ A4 ++ [0x0a; 7]) = inl F_WORLD.
Proof. vm_compute; reflexivity. Qed.

(** There is no memory for a node: the null node is dereferenced. *)
Theorem no_node_dereferences_null : run 200 (start false (method_of ([0x08] ++ A4 ++ [0x0a; 7]) 0 false false) TWIC) = inl F_WORLD.
Proof. vm_compute; reflexivity. Qed.

(** CreateField of [n] bits at [index] of a buffer of one byte: the bound is checked, but
    with arithmetic that wraps around. *)
Definition CREATE_FIELD (index n : Z) : list Z := [0x70; 0x11; 4; 0x0a; 1; 1; 0x60; 0x5b; 0x13; 0x60; index; 0x0a; n] ++ A4 ++ [0xa4; 0x0a; 9].
Theorem buffer_field_bounds_wrap : run_code 200 (CREATE_FIELD 1 8) = inr (UACPI_STATUS_AML_OUT_OF_BOUNDS_INDEX, None) /\
  run_code 200 (CREATE_FIELD 0xff 2) = inr (UACPI_STATUS_OK, Some 9).
Proof. split; vm_compute; reflexivity. Qed.

(** A method whose last instruction is cut off ends without an error. *)
Theorem truncated_method_succeeds : run_code 200 [0x70] = inr (UACPI_STATUS_OK, None).
Proof. vm_compute; reflexivity. Qed.

(** Load of a region whose table is refused: the length is read from the table once more
    after it was unmapped. *)
Theorem refused_table_read_after_unmap : run_code 300 (LOAD 0xa0) = inl F_WORLD.
Proof. vm_compute; reflexivity. Qed.

(** While (1) { If (Arg0) { TWIC (Arg0 - 1) } Break }, called with [n]. *)
Definition NESTED : control_method := method_of [0xa2; 14; 1; 0xa0; 10; 0x68; 84; 87; 73; 67; 0x74; 0x68; 1; 0; 0xa5] 1 false false.
Definition run_nested (n : Z) : fault + uacpi_status * option Z := run 1000 (start true (method_of [84; 87; 73; 67; 0x0a; n] 0 false false) NESTED).

(** Eight frames are fine.  With the ninth the frames five to eight move, and Break in one
    of them uses the frame's pointer to its loop, which still points to where it was. *)
Theorem break_after_frames_moved : match run_nested 6 with inr (ret, _) => ret = UACPI_STATUS_OK | inl _ => False end /\ run_nested 7 = inl F_STALE.
Proof. split; vm_compute; reflexivity. Qed.

(** ** The theorems on this machine *)

#[export] Instance arrays : ArrayLaws.
Proof. split; intros n w; [eexists _, _; reflexivity| |]; intros ? ? [= <- <-]; [apply length_replicate|reflexivity]. Qed.

#[export] Instance lock_laws : LockLaws.
Proof. split; intros w w' r p n m [= _ <-] H _; eauto. Qed.

(** A frame of the method with the given code, at an offset, with one operator and these blocks. *)
Definition operator (code : Z) : op_context := {|
  pc := 0; preempted := false; tracked_pkg_idx := 0; switched_from := 0;
  op_spec := {| spec_name := String.EmptyString; decode_ops := []; properties := 0; spec_code := code |}; op_items := [] |}.
Definition frame_with (offset code : Z) (blocks : list code_block) (loop : option block_pointer) : call_frame := {|
  f_method := MAIN; f_args := replicate 7 0; f_locals := replicate 8 0; pending_ops := [operator code]; code_blocks := blocks; stale_blocks := [];
  temp_nodes := []; last_while := loop; prev_while_expiration := 0; prev_while_code_offset := 0; code_offset := offset; cur_scope := uacpi_namespace_root;
  prev_sync_level := 0 |}.
Definition in_frame (f : call_frame) (l : list Z) : execution_context world :=
  set_stack [f] (zeroed_context (start true (method_of l 0 false false) TWIC)).

(** Break inside an If inside of a loop. *)
Definition loop_block : code_block := {| b_type := CODE_BLOCK_WHILE; b_begin := 7; b_end := 17; b_word := Some 99 |}.
Definition if_block : code_block := {| b_type := CODE_BLOCK_IF; b_begin := 10; b_end := 14; b_word := None |}.
Definition breaking : call_frame := frame_with 12 0xa5 [if_block; loop_block] (Some {| p_storage := 0; p_index := 0 |}).

Lemma breaking_ok : blocks_ok breaking.
Proof. split; [repeat constructor; eexists; reflexivity|reflexivity|reflexivity]. Qed.

Lemma break_leaves_innermost_loop_witness : exists inner w outer f', code_blocks breaking = inner ++ w :: outer /\ b_type w = CODE_BLOCK_WHILE /\
  Forall (fun b => b_type b <> CODE_BLOCK_WHILE) inner /\
  handle_control_flow (in_frame breaking []) = inr (UACPI_STATUS_OK, set_stack [f'] (in_frame breaking [])) /\ left_loop true w outer breaking f'.
Proof. exact (break_leaves_innermost_loop (in_frame breaking []) breaking [] (operator 0xa5) [] eq_refl eq_refl breaking_ok). Defined.

(** The method whose code is at the offset. *)
Definition LENGTH_CODE : list Z := [0x10] ++ encode_length 2 0x1234 ++ [7; 7].
Definition measuring : call_frame := frame_with 1 0x10 [] None.

Lemma package_length_roundtrip_witness :
  parse_package_length (in_frame measuring LENGTH_CODE) = inr ((UACPI_STATUS_OK, (1, 1 + 0x1234)), set_stack [set_code_offset 4 measuring] (in_frame measuring LENGTH_CODE)).
Proof.
  apply (package_length_roundtrip (in_frame measuring LENGTH_CODE) measuring [] (method_of LENGTH_CODE 0 false false) 2 0x1234 [7; 7]).
  - split; [reflexivity|reflexivity|vm_compute; split; discriminate|reflexivity].
  - split; [lia|vm_compute; split; [discriminate|reflexivity]].
  - reflexivity.
  - reflexivity.
Defined.

(** [^\AAAA.TWIC.AAAA], with the three segments behind their number. *)
Definition PATH_SEGS : list (list Z) := [A4; [84; 87; 73; 67]; A4].
Definition NAME_CODE : list Z := [0x5b] ++ name_start 1 true ++ encode_segments PATH_SEGS ++ [0; 0].
Definition naming : call_frame := frame_with 1 0x10 [] None.

Lemma name_path_roundtrip_witness : exists r s', name_string_to_path 1 (in_frame naming NAME_CODE) = inr (r, s') /\ call_stack s' = [naming] /\
  (r = (UACPI_STATUS_OUT_OF_MEMORY, None) \/ r = (UACPI_STATUS_OK, Some (name_start 1 true ++ dots PATH_SEGS ++ [0]))).
Proof.
  apply (name_path_roundtrip (in_frame naming NAME_CODE) naming [] (method_of NAME_CODE 0 false false) (operator 0x10) [] 1 true PATH_SEGS [0; 0] 1);
    [reflexivity..|lia| |cbn; lia|reflexivity].
  repeat apply Forall_cons_2; try apply Forall_nil_2; (split; [reflexivity|]); repeat apply Forall_cons_2; try apply Forall_nil_2; (split; [lia|reflexivity]).
Defined.

Lemma call_leaves_nothing_witness : exists x s, execute_in_context op_handlers 200 100 (predefined ROOT) MAIN None true
    (zeroed_context (start true (method_of SUM 0 true false) TWIC)) = inr (x, s) /\ call_stack s = [] /\ held_mutexes s = [] /\ taken s = [].
Proof.
  destruct (execute_in_context op_handlers 200 100 (predefined ROOT) MAIN None true (zeroed_context (start true (method_of SUM 0 true false) TWIC)))
    as [f|[x s]] eqn:E; [vm_compute in E; discriminate|].
  exists x, s; split; [reflexivity|]; apply (call_leaves_nothing 200 100 (predefined ROOT) MAIN None true (start true (method_of SUM 0 true false) TWIC) x s); [|exact E].
  intros m args r w st w' [= <- <-]; reflexivity.
Defined.

(** Field (RRRR, WordAcc) { three bits, a gap of ten, 21 bits } on the region node 0x700. *)
Definition three_bits : list list_entry := [FIELD 0x710 0x720 0 3; GAP 0 10].
Definition field_entries : list list_entry := three_bits ++ [FIELD 0x730 0x740 0 21].
Definition field_operands : list item := [pkg 0 20; {| i_type := ITEM_NAMESPACE_NODE; i_data := I_POINTER 0x700 |}].
Definition field_operator : op_context := {|
  pc := 0; preempted := false; tracked_pkg_idx := 0; switched_from := 0;
  op_spec := {| spec_name := String.EmptyString; decode_ops := []; properties := 0; spec_code := 0x5b81 |};
  op_items := field_operands ++ imm 2 :: list_items field_entries |}.
Definition creating : call_frame := set_ops [field_operator] measuring.

#[local] Existing Instance FieldUnit.Demo.array_io.

Lemma field_list_reads_witness : exists m' w' v,
  uacpi_read_field_unit (FieldNormal (unit_at (initial_cursor 2) 13 13 2 21) 1) 64 80 4 false (FieldUnit.Demo.m0, FieldUnit.Demo.w0) = Some ((UACPI_STATUS_OK, None), (m', w')) /\
  load_le m' 80 4 = Some v /\ Z.testbit v 5 = FieldUnit.Demo.content FieldUnit.Demo.w0 18 /\ Z.testbit v 21 = false.
Proof.
  destruct (field_list_reads (in_frame creating []) creating [] field_operator [] field_operands 2 field_entries eq_refl eq_refl eq_refl eq_refl eq_refl) as [_ H].
  destruct (H three_bits 0x730 0x740 0 21 [] eq_refl ltac:(vm_compute; split; reflexivity)
    (unit_at (initial_cursor 2) 13 13 2 21) 1 FieldUnit.Demo.content 16 UACPI_ADDRESS_SPACE_SYSTEM_MEMORY 64 80 4%nat false FieldUnit.Demo.m0 FieldUnit.Demo.w0) as (m' & w' & v & E & Ev & Hv);
    [reflexivity|vm_compute; discriminate|reflexivity|lia|apply FieldUnit.Demo.array_memory_like; cbn; lia|FieldUnit.Demo.side_goal..|].
  exists m', w', v; split; [exact E|split; [exact Ev|]]; split; rewrite Hv by lia; reflexivity.
Defined.

(** *** Without the premise on native methods *)

(** The same machine with native methods that fail. *)
Definition failing : MachineHost world := {|
  grow_array := mret true;
  alloc_context := mret true;
  loop_timeout_seconds := timeout;
  max_call_stack_depth := depth_limit;
  kernel_thread_id := 1;
  kernel_acquire_mutex := fun _ _ => mret UACPI_STATUS_OK;
  kernel_release_mutex := fun _ => mret tt;
  global_lock_handle := fun _ => 2;
  acquire_global_lock_from_firmware := mret UACPI_STATUS_OK;
  release_global_lock_to_firmware := mret tt;
  native_handler := fun _ _ _ => mret UACPI_STATUS_DENIED |}.

Definition native_method : control_method := {|
  code := []; m_mutex := 0; m_sync_level := 0; m_args := 0; is_serialized := false; named_objects_persist := false; native_call := true; owns_code := false |}.

(** A native method that fails leaves its frame, and with it the reference to the method. *)
Theorem failed_native_leaves_frame :
  match execute_in_context (MH := failing) (op_handlers (MH := failing)) 10 10 (predefined ROOT) MAIN None true (zeroed_context (start true native_method TWIC)) with
  | inr ((ret, _), s) => ret = UACPI_STATUS_DENIED /\ length (call_stack s) = 1%nat /\ fst <$> cells (Namespace.world (env s)) !! MAIN = Some 2
  | inl _ => False
  end.
Proof. vm_compute; repeat split. Qed.
End Demo.
